(* ===== verification/_CoqProject ===== *)
-Q . S2P
Prelude.v
RustStr.v
Utf8.v
Core.v
Events.v
Lane.v
StepMachine.v
Governor.v
Delegation.v
Outcome.v
TaskContract.v
PathPolicy.v
ShellSyntax.v
ShellPolicy.v
ModelPatch.v
PatchText.v
PatchTool.v
Question.v
Provider.v
ProviderSession.v
ContextWindow.v
ContextBuild.v
TokenUsage.v
PendingTurns.v
Verify.v
Governed.v
FailureFamily.v
Correction.v
Evidence.v
Regex.v
TestOutput.v
ValidationCommand.v
ValidationScript.v
ScriptRuns.v
ScriptFuel.v
Inspection.v
ToolReport.v
ToolProjection.v
FileEdits.v
ShellRequest.v
FileTools.v
ToolErrors.v
ToolGate.v
ToolBatch.v
ToolDispatch.v
Completion.v
Checks.v
ToolLoop.v
Recovery.v
Attachment.v
Memory.v
MemoryFiles.v
MemoryLife.v
FrameScheduler.v
SummaryPlan.v
TransportAuth.v
ProcessOutput.v
ProcessLife.v
WorkspaceScan.v
ChangeTracker.v
TraceIntegrity.v
