(* ===== verification/Prelude.v ===== *)
(** * Verification of the golutra-agent runtime

    golutra-agent runs coding tasks of a language model under a local runtime: the
    runtime decides which task a session may run, keeps the conversation within the
    model's window, calls the provider and survives its failures, decides which paths,
    commands and patches the model may use, bounds how long it may go on, decides from
    recorded evidence whether a task is complete, delegates to child tasks under shared
    budgets, and recovers what it can after a crash. This library models the deterministic core of
    those decisions, crate by crate, and proves what each component promises. Crate
    [x] is [src/crates/golutra-agent-x].

    ** Parts and files

    - [Prelude] (this file): saturating machine arithmetic, [Result], list lemmas and
      the tactics the other files share. [RustStr]: Rust strings as UTF-8 bytes, the
      [str] methods the sources call, and [serde_json] values. [Utf8]: induction over the
      characters of a text and where a text may be cut.
    - [Core]: the data types of [core/src] (task status, lanes, policies, tool
      recovery, verification records, loop control). [Events]: the event types,
      classes and projection filters of [protocol/src/event.rs].
    - [Lane]: [runtime/src/lane.rs], one active task per session, queued turns, pause,
      abort and authentication waits. The manager's map of lanes is a [gmap].
    - [StepMachine]: [runtime/src/step_machine.rs], the repetition guard and the
      correction budgets of a turn.
    - [Governor]: [governor/src/lib.rs], the decision to execute, warn or block.
    - [Verify]: [verify/src/lib.rs], the verification plan, the status of every
      assertion and the aggregated verdict.
    - [Governed]: [runtime/src/verification.rs], the governed plan, the policy gate and
      the contract gate around the verifier. [FailureFamily]: the failure families of
      [core/src/tool.rs] and the ledger of [runtime/src/failure_guard.rs].
      [Correction]: the correction envelope of [runtime/src/lib.rs],
      [correction_feedback.rs] (requested action) and [correction_progress.rs].
      [Evidence]: [validation_output.rs], [process_validation.rs] and
      [validation_freshness.rs] of [runtime], the output and the result of a background
      validation and whether it still holds for the workspace. [Regex], [TestOutput]:
      the patterns of [runtime/src/objective_evidence.rs] and how it reads the output of
      a test command. [ValidationCommand], [ValidationScript]: which commands, scripts and
      Python programs it takes for a validation and under which identity. [ScriptRuns],
      [ScriptFuel]: what a run of such a script does, and that the nesting depth given to
      the model is enough. [Inspection]: readings the task asked for by name.
      [ToolReport], [ToolProjection]: the redaction and the reports of
      [tools/src/lib.rs], the steps that check a task contract in the workspace, and what
      the model and the user are shown of a call. [FileEdits]: the edits of [edit_file] and
      the windows of [read_file]. [ShellRequest]: the command of a shell request and the
      process it starts, with [tools/src/shell_contract.rs]. [FileTools]: the file tools on
      an explicit disk, with checkpoints, images and change previews. [ToolErrors]: the
      reports of failed calls and the files they suggest. [ToolGate]: [apply_patch], the
      policy evaluation of a call, its checkpoint and write keys, and the gate around it
      with approval, cancellation and deadlines. [ToolBatch]: the registry of tools, the kinds
      of calls, how the calls of a response ([runtime/src/lib.rs]) are put into batches, and
      the interleavings of a batch. [ToolDispatch]: preparing, checkpointing and running a
      batch. [ToolLoop]: single calls, what is recorded of each, and the loop over the calls
      of a response. [Checks]: the checks the agent loop
      makes from the reports of a turn, and the verification input.
      [Completion]: [runtime/src/completion.rs] and the end of the completion cycle of
      the agent loop ([runtime/src/lib.rs]), from the verification input to the loop
      decision or the next correction.
    - [Outcome]: [core/src/outcome.rs] and the methods of [core/src/loop_control.rs],
      what a finished task reports and how an external evaluator changes it.
    - [TaskContract] and [Question]: the input validation of [core/src].
    - [Provider]: the provider interface of [llm/src/lib.rs] and
      [runtime/src/response_control.rs]. [ProviderSession]:
      [runtime/src/provider_retry.rs], [provider_recovery.rs], [provider_session.rs],
      one logical request with its retries and fallbacks.
    - [PathPolicy], [ShellSyntax], [ShellPolicy]: [policy/src/lib.rs]. Paths: workspace
      aliases, resolution of targets that do not exist yet, sensitive names. Shell:
      wrappers, pipelines and the syntax tree, the deny-list through wrappers and nested
      scripts, the read-only fast path, approvals.
    - [ModelPatch], [PatchText], [PatchTool]: [tools/src/model_patch.rs], the patch
      language of the model: parsing, locating and applying hunks, the text it prints to
      (the inverse of the parser), and the preparation of a patch for [git apply] with the
      path resolution of [tools/src/lib.rs].
    - [ContextWindow], [ContextBuild], [TokenUsage]: [context/src/lib.rs]. The token
      budget and the compaction of a conversation with its summary; the plan of messages,
      its building, replay and visibility boundary, and the working set of the agent loop
      ([runtime/src/lib.rs]); the usage record of a response and its attribution, with
      [core/src/token.rs] and the usage of [core/src/provider.rs]. [SummaryPlan]:
      [runtime/src/compaction_summary.rs] and the loop of [runtime/src/lib.rs] that asks the
      model for the summary of a compacted conversation.
    - [PendingTurns]: the execution channel of [runtime/src/lib.rs], queued turns with
      two-phase reservations, and the approvals given during an execution.
    - [Delegation]: [client/src/delegation_policy.rs], the admission budget shared by
      a root task and its children, leases, child contexts and recovery checkpoints.
    - [Recovery]: [client/src/recovery.rs], the reduction of a durable event chain
      after a crash. [TraceIntegrity]: [client/src/trace_integrity.rs], the causal check of
      the events of a task.
    - [Attachment]: [app-server/src/attachment_registry.rs], attachments and leases.
      [TransportAuth]: [app-server/src/transport_security.rs], the token of the clients.
    - [Memory], [MemoryFiles], [MemoryLife]: [memory/src/lib.rs]. The gate and the life of a
      record; the store with its file, its cache and the index behind retrieval; and the
      worlds that several processes reach with one file.
    - [ProcessOutput], [ProcessLife]: [tools/src/process_supervisor.rs]. The journal of what a
      background process writes, with its readers and pages; how a process is ended, signalled,
      published and kept. [WorkspaceScan]: [tools/src/workspace_scan.rs], what a bounded walk
      before and after a command says of its changes. [ChangeTracker]:
      [client/src/change_tracker.rs], the net changes of a turn and their diffs.
    - [FrameScheduler]: [tui/src/fair_select.rs], [tui/src/frame_scheduler.rs] and the turns
      of the interactive loop ([tui/src/main.rs]) that draw frames and ask for them.

    The components meet in the data of [Core] and [Events]: the reports of the tools and
    the policy decisions in them become the checks of [Checks], with the validations of
    [ValidationScript] and the freshness of [Evidence]; the verifier's record passes
    the gates of [Governed] and is settled by [Completion] with the governor's decision,
    the step machine and the corrections; it also feeds the outcome. Recovery reads the
    tool policies of [Core] from events, the session reads the errors of [Provider], the
    context crate works on the messages of [Provider], approvals compare shell commands
    as [ShellSyntax] reads them, and a patch is prepared through [PathPolicy]. [ToolBatch]
    states with a class what the dispatcher needs of a call (its keys, and that it touches
    nothing else); [ToolDispatch] proves it of the calls of [ToolGate]. The loop over the
    calls of a response feeds the reports that [Checks] starts from.

    ** How code becomes definitions

    A struct is a [Record] with the source's fields, an enum an [Inductive] in a module
    of its own name, a method a [Definition] on the state it takes and returns; a
    [Result] is [result], an [Option] is [option]. Unsigned integers are [N] and every
    saturating, wrapping or checked operation is written out. What the source takes
    from outside is an argument: fresh ids, the clock (nanoseconds), cancellation, the
    branches a [select!] takes. State behind an [Arc] or a [Mutex] is one shared value:
    the leases of [Delegation] and [Attachment] are indices into it, and the theorems
    quantify over every interleaving of the calls that share it. Code outside the
    sources ([Uuid::parse_str], Unicode tables, [shlex], the Bash grammar of tree-sitter,
    the [similar] diff, the Python grammar, regular expression replacement, JSON schemas,
    SHA-256, the text of a JSON value) and the file system are arguments as well, and so is
    redaction in some of the files that only pass text through it. A tool that reads or writes
    files works on a disk, a map from paths to files, links and others; what it sees of a path
    while it runs is an observation of its own, so that another process may change the file
    in between, and how a write ends is an outcome. Calls that run in parallel are lists of
    atomic steps, and a schedule says whose step comes next. Where several processes share a
    file, the versions it has had are kept as ghost state, and a reader without a lock is
    answered from any of them. Code that can panic returns a [Panic].

    Above each definition a note of the form [crate/src/file.rs Symbol] names the code
    it translates.

    ** What is proved

    - Lanes: a session never has two active tasks; the start of a queued turn in two phases
      takes exactly that turn and nothing else, whatever harmless calls come in between,
      and cannot be committed to a replacement lane; statuses follow the status graph.
    - Steps and governor: the repetition counter is the length of the repeated suffix;
      correction budgets are exact and advise before they stop; the exact condition of
      a permit, the priority of security over budgets, alignment is only advisory.
    - Verification: a passed code change is backed by evidence, a linked change and a
      passed validation; a failed contract check is never overruled; the latest verdict
      of each check counts; the summary agrees with the verdict. External verdicts can
      make only explicit candidates scorable.
    - Governed completion: exactly when a governed task is verified and when a turn ends
      in success; a success always satisfies its contract with allowed policy decisions,
      and a broken contract or a denied policy decision fails; an unfinished turn says
      so. Corrections name what is missing, are bounded by the contract and do not go
      around in circles of up to eight states; failure guards count failure streaks.
    - Validation evidence: output put together from reads has the lines of the stream,
      however it was cut, and none across a gap; a background command gets the result of
      its own process, once; a passed check is current exactly while nothing that could
      matter has changed. A test that counts as passed ended cleanly, and its output
      has a line that reports tests and none that denies them; a script that counts as a validation ran all its commands when it
      succeeds (and where that fails under [set -e]); a bare name is resolved to the only
      file of that name.
    - From reports to success: a successful change of program files under a contract that
      asks for validation rests on a passed check after which nothing harmful was changed
      (with the exception the code makes for file checks), or on an external verifier; every call kept to the policy; every required path exists.
    - Tool results: what the model is shown is bounded and names the call; what is behind a
      secret key never reaches it; the content step compares exactly.
    - File tools: what a write, an edit or a patch changed is what its report lists, also
      when it failed; a change is made only to the file that was recorded, and to nothing
      else; edits replace exactly their targets, and disjoint unique targets are always
      accepted; reading along the offered offsets gives the whole file. Where a link or a
      write that is cut off breaks this is recorded by examples.
    - The gate: a call without permission changes nothing; a call stopped by its deadline
      says that its changes are unknown; the keys a write is scheduled under are the paths
      of its checkpoint; an argument vector reaches the process word for word; suggested
      files are ones the policy lets the model read.
    - Tool calls of a response: the calls of a batch are pairwise independent; parallel
      writes and edits have the files and reports of the calls one after the other, under
      every interleaving and with calls stopped by their deadline, and end; a checkpoint that
      fails runs nothing; the results are those of a first part of the calls, of all of them
      unless something stops the step, in order and under their own ids; the limit on tool calls holds.
    - Background processes: a poller that is never told of a loss has read a beginning of the
      bytes of the two pipes, and gets on; a reader passes valid output through however it is cut; a process
      is named after the strongest request to end it, under every interleaving of the atomics;
      no signal goes to an id after the waiter gave it up; what is kept of ended processes is bounded.
      A scan of the workspace that says it is complete lists exactly the files that changed;
      one that does not invents no creations or deletions; both keep to their budgets. The
      summary of a turn lists what differs from its beginning, and leaves out what was undone.
    - Inputs: accepted contract paths stay in the workspace on Unix and Windows;
      accepted answers match the questions one to one.
    - Provider sessions: one retry budget over both transports; the loops return with
      [total_retries + 1] attempts per transport that are not waited out as connection
      failures, which is how long a script has to be for the result to be defined; delays are bounded; the log keeps the first and the
      last seven failures and travels with the error; non-retryable errors stop at once;
      truncated tool calls never run; silent continuations end.
    - Delegation: counters equal the sums over live leases; grants respect every cap; a
      lease settles once; recovery with unsettled children refuses new work; a settled
      checkpoint is recovered unchanged; children get a share of the time and depth 1.
    - Recovery: open calls are exactly those started and never completed, in any order;
      the task is called interrupted only if nothing could have an unsettled effect. The
      causal check of a trace finds nothing exactly when every event is in place and
      everything that was started has ended.
    - Attachments: capacity, exact lease counts, no pruning of attachments in use;
      revocation is final under every interleaving of the atomics. Servers that start at
      once agree on the token in the file, and let in exactly the clients that present it.

    - Paths and shell: an allowed path resolves inside the workspace; only [pwd] and [ls]
      run unasked in guarded mode; no command reachable in an unblocked script is on
      a deny-list written down apart from the code; wrapping a command never unblocks it, the fast path is made of known
      readers; an approval covers the same resource or a longer command with the same
      words. What these do not cover is recorded by examples next to them.
    - Patches: a parsed patch is well formed, printing and parsing are inverse, hunks
      replace exactly the lines they name, a prepared patch has been checked against the
      policy and the file system; exactly when locating a hunk panics.
    - Context: a compacted conversation fits its budget, keeps the prefix, as many of the
      user's instructions and as much of the end of the conversation as their budgets allow,
      with every tool result attached to its call, and does not make hidden sources visible; plans stay consistent along a run;
      exactly what the boundary to the provider lets through; the stable prefix of a
      snapshot is that of its plan; the input tokens of a response are attributed without
      loss, by largest remainders. A summary by the model takes at most two requests, each
      of which fits the window; one that is accepted can be installed.
    - Queued turns: reservations are invisible and commits atomic under every interleaving,
      committed turns are run once or cancelled, the consumer waits only for an open
      handle; an approval without asking rests on one the user gave.
    - Memory: a memory that was taken back is never retrieved again, and an active one has
      two supporting tasks or a person's approval, whatever the processes do that share the
      file and however their reads and saves fail; retrieval through the cache and the
      inverted index is a full scan of one version of the file. The cache tells versions
      apart by length and time only, so these assume that each save gives a later time.
    - Frames: a due frame is drawn within three turns of the event selection; frames keep
      their distance unless one is asked for at once; the counters of pending redraws and
      streams are exact.

    ** Fuel

    Recursion is structural except in these loops. [ProviderSession] runs on scripts, and
    the termination theorem gives the sufficient length. The patch parser has a unit of
    fuel per line and every turn of its loops consumes one ([parse_terminates]). The check
    of nested scripts recurses on a shorter script, so the length plus one is enough
    ([script_check_unfolds]). The bisection of a summary halves an interval no longer than
    the text, and with that fuel it finds the longest text that fits
    ([envelope_is_longest_that_fits]). A script is classified with a depth of its length
    plus one, since nested scripts are shorter ([command_kind_unfolds]). The search for a
    file name counts every directory it meets, so its bound of entries plus two is enough
    ([unique_workspace_basename_match_fuel]). The loop that collects steering turns removes an
    entry each time ([steer_loop_stops]). The walk for file suggestions visits a bounded
    number of entries and directories, which bound its fuel ([walk_ends]). Each turn of the
    loop over the calls of a response takes at least one call, so their number is enough
    ([dispatch_ends]).

    ** Not modelled

    Rendering, transports, storage, sandboxing, authentication and the provider
    adapters are I/O. The text of a correction with its quoted tool output
    ([model_instruction]) is not part of the completion cycle's state here. The launch of
    processes and the waits for them, and the search, delegation and external tools are I/O
    that [ToolGate] takes as arguments. The async driver between the steps of the agent loop
    (channels, trace events, cancellation tokens) is not modelled: what it decides is in the
    components above, and what it does is I/O. Evolution, evaluation, configuration, the
    command line, code search and the release tools are
    separate programs or data around the runtime. *)
From stdpp Require Export base tactics option numbers list gmap strings pretty.

(** ** Machine integers

    Unsigned Rust integers are [N]; a bound is written out where the source
    saturates or compares with a width. [saturating_sub] is [N.sub]. *)

Declare Scope rust_scope.
Delimit Scope rust_scope with rust.

Definition u8_max : N := 255.
Definition u32_max : N := 4294967295.
Definition u64_max : N := 18446744073709551615.
Definition u128_max : N := 340282366920938463463374607431768211455.
(** [usize] on the 64-bit targets the workspace builds for. *)
Definition usize_max : N := u64_max.

Definition sat_add (max a b : N) : N := N.min (a + b) max.
Definition sat_mul (max a b : N) : N := N.min (a * b) max.

Arguments sat_add : simpl never.
Arguments sat_mul : simpl never.

Notation "a +|8 b" := (sat_add u8_max a b) (at level 50, left associativity) : rust_scope.
Notation "a +|32 b" := (sat_add u32_max a b) (at level 50, left associativity) : rust_scope.
Notation "a +|64 b" := (sat_add u64_max a b) (at level 50, left associativity) : rust_scope.
Notation "a *|64 b" := (sat_mul u64_max a b) (at level 40, left associativity) : rust_scope.
Notation "a *|128 b" := (sat_mul u128_max a b) (at level 40, left associativity) : rust_scope.
Open Scope rust_scope.

(** [checked_sub]. *)
Definition checked_sub (a b : N) : option N :=
  if (b <=? a)%N then Some (a - b)%N else None.

(** [wrapping_add] and [wrapping_mul] on [u64]. *)
Definition wrapping_add64 (a b : N) : N := ((a + b) mod 2 ^ 64)%N.
Definition wrapping_mul64 (a b : N) : N := ((a * b) mod 2 ^ 64)%N.

(** [Ord::clamp]; the source only calls it with [lo <= hi]. *)
Definition clamp (lo hi x : N) : N := N.min hi (N.max lo x).

Create HintDb rust.

(** Unfold saturating arithmetic and close with [lia]. *)
Ltac sat_lia :=
  first
    [ unfold sat_add, sat_mul, clamp, checked_sub in *; lia
    | unfold sat_add, sat_mul, clamp, checked_sub, usize_max in *;
      unfold u8_max, u32_max, u64_max, u128_max in *; lia ].

(** Boolean comparisons on [N] as propositions, for [lia]. *)
Ltac Nbool :=
  repeat match goal with
  | H : (_ <=? _)%N = true |- _ => apply N.leb_le in H
  | H : (_ <=? _)%N = false |- _ => apply N.leb_gt in H
  | H : (_ <? _)%N = true |- _ => apply N.ltb_lt in H
  | H : (_ <? _)%N = false |- _ => apply N.ltb_ge in H
  | H : (_ =? _)%N = true |- _ => apply N.eqb_eq in H
  | H : (_ =? _)%N = false |- _ => apply N.eqb_neq in H
  end.

(** Split boolean connectives in the hypotheses. *)
Ltac boolhyps :=
  repeat match goal with
  | H : _ && _ = true |- _ => apply andb_true_iff in H as [? ?]
  | H : _ || _ = false |- _ => apply orb_false_iff in H as [? ?]
  | H : negb _ = true |- _ => apply negb_true_iff in H
  | H : negb _ = false |- _ => apply negb_false_iff in H
  | H : bool_decide _ = true |- _ => apply bool_decide_eq_true_1 in H
  | H : bool_decide _ = false |- _ => apply bool_decide_eq_false_1 in H
  end.

(** Case on the innermost [match]/[if] scrutinee of the goal, then simplify. *)
Ltac case_one :=
  match goal with
  | |- context [match ?x with _ => _ end] =>
      lazymatch x with
      | context [match _ with _ => _ end] => fail
      | _ => destruct x eqn:?
      end
  end.

(** The same on a hypothesis. *)
Ltac case_hyp H :=
  match type of H with
  | context [match ?x with _ => _ end] =>
      lazymatch x with
      | context [match _ with _ => _ end] => fail
      | _ => destruct x eqn:?
      end
  end.

Ltac crush := repeat (case_one; simplify_eq/=; try done).

(** ** Fallible code: [Result<A, E>] *)

Inductive result (E A : Type) : Type :=
| Ok (a : A)
| Err (e : E).
Arguments Ok {E A} a.
Arguments Err {E A} e.

(** The [?] operator. *)
Notation "'let?' x ':=' e1 'in' e2" :=
  (match e1 with Ok x => e2 | Err err => Err err end)
  (at level 10, x pattern, e1 at level 200, e2 at level 200) : rust_scope.

Definition is_ok {E A} (r : result E A) : bool := match r with Ok _ => true | Err _ => false end.

(** [Option::ok_or]. *)
Definition ok_or {E A} (e : E) (o : option A) : result E A :=
  match o with Some a => Ok a | None => Err e end.

(** [Option::filter]. *)
Definition option_filter {A} (f : A -> bool) (o : option A) : option A :=
  match o with Some a => if f a then Some a else None | None => None end.

(** [Option::is_some_and] and [Option::is_none_or]. *)
Definition is_some_and {A} (f : A -> bool) (o : option A) : bool :=
  match o with Some a => f a | None => false end.
Definition is_none_or {A} (f : A -> bool) (o : option A) : bool :=
  match o with Some a => f a | None => true end.

(** ** Lists *)

(** [Vec::remove] of the first element equal to [x]. *)
Fixpoint remove_first {A} `{EqDecision A} (x : A) (l : list A) : list A :=
  match l with
  | [] => []
  | y :: l' => if decide (y = x) then l' else y :: remove_first x l'
  end.

Lemma remove_first_split {A} `{EqDecision A} (x : A) l :
  x ∈ l -> exists l1 l2, l = l1 ++ (x :: l2) /\ (x ∉ l1) /\ remove_first x l = l1 ++ l2.
Proof.
  induction l as [|y l IH]; intros Hx; [by apply not_elem_of_nil in Hx|].
  simpl. destruct (decide (y = x)) as [->|Hne].
  - exists [], l. split_and!; [done|apply not_elem_of_nil|done].
  - apply elem_of_cons in Hx as [->|Hx]; [done|].
    destruct (IH Hx) as (l1 & l2 & -> & Hn & Hr).
    exists (y :: l1), l2. rewrite Hr. split_and!; [done| |done].
    rewrite not_elem_of_cons. auto.
Qed.

Lemma Forall_remove_first {A} `{EqDecision A} (P : A -> Prop) x l :
  Forall P l -> Forall P (remove_first x l).
Proof.
  induction 1 as [|y l Hy Hl IH]; simpl; [constructor|].
  destruct (decide (y = x)); [done|]. by constructor.
Qed.

(** Boolean searches over lists. *)
Lemma elem_of_lfilter {A} (f : A -> bool) x l : x ∈ List.filter f l <-> x ∈ l /\ f x = true.
Proof. by rewrite !list_elem_of_In, filter_In. Qed.

Lemma existsb_elem {A} (f : A -> bool) l : existsb f l = true <-> exists x, x ∈ l /\ f x = true.
Proof. setoid_rewrite list_elem_of_In. apply existsb_exists. Qed.

Lemma existsb_none {A} (f : A -> bool) l :
  existsb f l = false <-> (forall x, x ∈ l -> f x = false).
Proof.
  split.
  - intros H x Hx. destruct (f x) eqn:E; [|done].
    assert (existsb f l = true) by (apply existsb_elem; eauto). congruence.
  - intros H. destruct (existsb f l) eqn:E; [|done]. apply existsb_elem in E as (x & Hx & Hf).
    by rewrite (H x Hx) in Hf.
Qed.

Lemma forallb_elem {A} (f : A -> bool) l : forallb f l = true <-> Forall (fun x => f x = true) l.
Proof. rewrite forallb_forall, Forall_forall. by setoid_rewrite list_elem_of_In. Qed.

Lemma sat_add_le_max max a b : (sat_add max a b <= max)%N.
Proof. sat_lia. Qed.

Lemma sat_add_mono max a a' b b' :
  (a <= a' -> b <= b' -> sat_add max a b <= sat_add max a' b')%N.
Proof. sat_lia. Qed.

Lemma sat_add_exact max a b : (a + b <= max -> sat_add max a b = a + b)%N.
Proof. sat_lia. Qed.

(** A saturating sum below the maximum is the exact sum. *)
Lemma sat_add_below max a b m : (sat_add max a b <= m -> m < max -> a + b <= m)%N.
Proof. sat_lia. Qed.

Lemma clamp_bounds lo hi x : (lo <= hi -> lo <= clamp lo hi x <= hi)%N.
Proof. sat_lia. Qed.

Lemma checked_sub_Some a b c : checked_sub a b = Some c <-> (b <= a /\ c = a - b)%N.
Proof.
  unfold checked_sub. destruct (b <=? a)%N eqn:E; Nbool; split; intros H; simplify_eq; auto.
  - f_equal. lia.
  - lia.
Qed.

#[export] Hint Resolve sat_add_le_max clamp_bounds : rust.
