(* ===== verification/RustStr.v ===== *)
(** * Rust strings and JSON values

    A Rust [String] is its UTF-8 bytes: Rocq's [string], whose [length] is
    [str::len]. [chars] decodes to Unicode scalar values, for the operations
    the sources apply to [char]s ([trim], [chars().count()], [take]). JSON
    values are [serde_json::Value]. *)
From S2P Require Import Prelude.
From stdpp Require Export strings sorting.
Open Scope string_scope.
Open Scope list_scope.
Open Scope N_scope.

(** ** UTF-8 *)

Definition byte_of (a : Ascii.ascii) : N := Ascii.N_of_ascii a.
Definition cont_bits (a : Ascii.ascii) : N := N.land (byte_of a) 63.

(** [str::chars]; a Rust [String] is always well formed, so the incomplete
    sequences at the end of the [match] do not occur. *)
Fixpoint chars (s : string) : list N :=
  match s with
  | EmptyString => []
  | String a s1 =>
      let x := byte_of a in
      if x <? 128 then x :: chars s1
      else if x <? 224 then
        match s1 with
        | String b s2 => N.lor (N.shiftl (N.land x 31) 6) (cont_bits b) :: chars s2
        | EmptyString => [x]
        end
      else if x <? 240 then
        match s1 with
        | String b (String c s3) =>
            N.lor (N.shiftl (N.land x 15) 12) (N.lor (N.shiftl (cont_bits b) 6) (cont_bits c))
              :: chars s3
        | _ => [x]
        end
      else
        match s1 with
        | String b (String c (String d s4)) =>
            N.lor (N.shiftl (N.land x 7) 18)
              (N.lor (N.shiftl (cont_bits b) 12) (N.lor (N.shiftl (cont_bits c) 6) (cont_bits d)))
              :: chars s4
        | _ => [x]
        end
  end.

Definition byte (n : N) : Ascii.ascii := Ascii.ascii_of_N n.

(** [char::encode_utf8]. *)
Definition encode_char (c : N) : string :=
  if c <? 128 then String (byte c) ""
  else if c <? 2048 then
    String (byte (192 + N.shiftr c 6)) (String (byte (128 + N.land c 63)) "")
  else if c <? 65536 then
    String (byte (224 + N.shiftr c 12))
      (String (byte (128 + N.land (N.shiftr c 6) 63)) (String (byte (128 + N.land c 63)) ""))
  else
    String (byte (240 + N.shiftr c 18))
      (String (byte (128 + N.land (N.shiftr c 12) 63))
        (String (byte (128 + N.land (N.shiftr c 6) 63)) (String (byte (128 + N.land c 63)) ""))).

(** [chars().collect::<String>()]. *)
Fixpoint of_chars (l : list N) : string :=
  match l with
  | [] => ""
  | c :: l' => encode_char c +:+ of_chars l'
  end.

Definition char_count (s : string) : N := N.of_nat (length (chars s)).
Definition str_len (s : string) : N := N.of_nat (String.length s).

(** [char::is_whitespace]: the Unicode [White_Space] property. *)
Definition is_whitespace (c : N) : bool :=
  ((9 <=? c) && (c <=? 13)) || (c =? 32) || (c =? 133) || (c =? 160) || (c =? 5760)
  || ((8192 <=? c) && (c <=? 8202)) || (c =? 8232) || (c =? 8233) || (c =? 8239)
  || (c =? 8287) || (c =? 12288).

Fixpoint drop_while {A} (f : A -> bool) (l : list A) : list A :=
  match l with
  | [] => []
  | x :: l' => if f x then drop_while f l' else l
  end.

Definition trim_matches_chars (f : N -> bool) (l : list N) : list N :=
  reverse (drop_while f (reverse (drop_while f l))).

(** [str::trim]. *)
Definition trim (s : string) : string := of_chars (trim_matches_chars is_whitespace (chars s)).

(** [s.trim().is_empty()]. *)
Definition trim_is_empty (s : string) : bool := forallb is_whitespace (chars s).

(** [str::to_ascii_lowercase]. *)
Definition ascii_lower (a : Ascii.ascii) : Ascii.ascii :=
  let x := byte_of a in if (65 <=? x) && (x <=? 90) then byte (x + 32) else a.
Fixpoint to_ascii_lowercase (s : string) : string :=
  match s with
  | EmptyString => ""
  | String a s' => String (ascii_lower a) (to_ascii_lowercase s')
  end.

(** [s.starts_with(p)] and [s.contains(p)] for a literal [p]. *)
Definition starts_with (p s : string) : bool := String.prefix p s.
Fixpoint str_contains (p s : string) : bool :=
  starts_with p s || match s with EmptyString => false | String _ s' => str_contains p s' end.

Fixpoint ends_with (p s : string) : bool :=
  bool_decide (p = s) || match s with EmptyString => false | String _ s' => ends_with p s' end.

(** [s.replace(a, b)] for single ASCII characters. *)
Fixpoint replace_char (a b : Ascii.ascii) (s : string) : string :=
  match s with
  | EmptyString => ""
  | String c s' => String (if Ascii.eqb c a then b else c) (replace_char a b s')
  end.

(** [s.split(c)] for an ASCII character. *)
Fixpoint split_on (c : Ascii.ascii) (s : string) : list string :=
  match s with
  | EmptyString => [""]
  | String a s' =>
      if Ascii.eqb a c then "" :: split_on c s'
      else match split_on c s' with
           | [] => [String a ""]
           | p :: ps => String a p :: ps
           end
  end.

(** [s.split(f)] for a predicate on characters. *)
Fixpoint split_by (f : N -> bool) (l : list N) : list (list N) :=
  match l with
  | [] => [[]]
  | c :: l' =>
      if f c then [] :: split_by f l'
      else match split_by f l' with
           | [] => [[c]]
           | p :: ps => (c :: p) :: ps
           end
  end.
Definition split_chars (f : N -> bool) (s : string) : list string := of_chars <$> split_by f (chars s).

(** [s.split_whitespace()]. *)
Definition split_whitespace (s : string) : list string :=
  of_chars <$> List.filter (fun w => match w with [] => false | _ => true end)
                 (split_by is_whitespace (chars s)).

(** [s.trim_matches(f)]. *)
Definition trim_matches (f : N -> bool) (s : string) : string :=
  of_chars (trim_matches_chars f (chars s)).

(** [char::is_ascii_alphabetic], [char::is_ascii_alphanumeric], [str::is_ascii]. *)
Definition is_ascii_alphabetic (c : N) : bool :=
  ((65 <=? c) && (c <=? 90)) || ((97 <=? c) && (c <=? 122)).
Definition is_ascii_digit (c : N) : bool := (48 <=? c) && (c <=? 57).
Definition is_ascii_alphanumeric (c : N) : bool := is_ascii_alphabetic c || is_ascii_digit c.
Fixpoint is_ascii (s : string) : bool :=
  match s with EmptyString => true | String a s' => (byte_of a <? 128) && is_ascii s' end.

(** [parts.join(sep)]. *)
Fixpoint join (sep : string) (l : list string) : string :=
  match l with
  | [] => ""
  | [s] => s
  | s :: l' => s +:+ sep +:+ join sep l'
  end.

(** [s.strip_prefix(p)] and [s.strip_suffix(c)] for a literal [p] and an ASCII [c]. *)
Fixpoint strip_prefix (p s : string) : option string :=
  match p, s with
  | EmptyString, _ => Some s
  | String a p', String b s' => if Ascii.eqb a b then strip_prefix p' s' else None
  | String _ _, EmptyString => None
  end.
Fixpoint strip_suffix_char (c : Ascii.ascii) (s : string) : option string :=
  match s with
  | EmptyString => None
  | String a EmptyString => if Ascii.eqb a c then Some "" else None
  | String a s' => String a <$> strip_suffix_char c s'
  end.

(** [s.split_once(p)] for a literal [p]. *)
Fixpoint split_once (p s : string) : option (string * string) :=
  match strip_prefix p s with
  | Some rest => Some ("", rest)
  | None =>
      match s with
      | EmptyString => None
      | String a s' => (fun '(b, r) => (String a b, r)) <$> split_once p s'
      end
  end.

(** [s.split(p).next()] for a literal [p]. *)
Definition before (p s : string) : string :=
  match split_once p s with Some (b, _) => b | None => s end.

(** [s.contains(c)] and [s.starts_with(c)] for sets of ASCII characters, by code. *)
Fixpoint has_byte (cs : list N) (s : string) : bool :=
  match s with
  | EmptyString => false
  | String a s' => existsb (N.eqb (byte_of a)) cs || has_byte cs s'
  end.
Definition first_byte (s : string) : option N := byte_of <$> String.get 0 s.
Definition starts_with_byte (cs : list N) (s : string) : bool :=
  is_some_and (fun b => existsb (N.eqb b) cs) (first_byte s).

(** [s.parse::<usize>()]: an optional [+] and decimal digits within the width. *)
Fixpoint parse_digits (acc : N) (s : string) : option N :=
  match s with
  | EmptyString => Some acc
  | String a s' =>
      let d := byte_of a in
      if (48 <=? d) && (d <=? 57) then
        let acc := acc * 10 + (d - 48) in
        if acc <=? usize_max then parse_digits acc s' else None
      else None
  end.
Definition parse_usize (s : string) : option N :=
  let digits := match s with String a s' => if Ascii.eqb a (byte 43) then s' else s | _ => s end in
  if bool_decide (digits = "") then None else parse_digits 0 digits.

(** [str::from_utf8(bytes).is_ok()], by the table of well-formed sequences. *)
Definition in_range (lo hi : N) (a : Ascii.ascii) : bool :=
  (lo <=? byte_of a) && (byte_of a <=? hi).
Fixpoint valid_utf8 (s : string) : bool :=
  match s with
  | EmptyString => true
  | String a s1 =>
      let x := byte_of a in
      if x <? 128 then valid_utf8 s1
      else if (194 <=? x) && (x <=? 223) then
        match s1 with String b s2 => in_range 128 191 b && valid_utf8 s2 | _ => false end
      else if (224 <=? x) && (x <=? 239) then
        match s1 with
        | String b (String c s3) =>
            in_range (if x =? 224 then 160 else 128) (if x =? 237 then 159 else 191) b
            && in_range 128 191 c && valid_utf8 s3
        | _ => false
        end
      else if (240 <=? x) && (x <=? 244) then
        match s1 with
        | String b (String c (String d s4)) =>
            in_range (if x =? 240 then 144 else 128) (if x =? 244 then 143 else 191) b
            && in_range 128 191 c && in_range 128 191 d && valid_utf8 s4
        | _ => false
        end
      else false
  end.

(** [s.chars().take(n).collect()]. *)
Definition take_chars (n : N) (s : string) : string := of_chars (take (N.to_nat n) (chars s)).

(** The decimal [Display] of an unsigned integer. *)
Definition show (n : N) : string := pretty n.

(** ** [serde_json::Value] *)

#[local] Unset Elimination Schemes.
Inductive json :=
| JNull
| JBool (b : bool)
| JInt (z : Z)             (* [PosInt]/[NegInt] *)
| JFloat (bits : N)        (* a finite [f64], by its bits *)
| JString (s : string)
| JArray (l : list json)
| JObject (m : list (string * json)).
#[local] Set Elimination Schemes.

(** [Value == Value]; an object is its sorted entries. *)
Fixpoint json_eqb (a b : json) {struct a} : bool :=
  match a, b with
  | JNull, JNull => true
  | JBool x, JBool y => Bool.eqb x y
  | JInt x, JInt y => (x =? y)%Z
  | JFloat x, JFloat y => x =? y
  | JString x, JString y => bool_decide (x = y)
  | JArray l, JArray m =>
      (fix go l m :=
         match l, m with
         | [], [] => true
         | x :: l', y :: m' => json_eqb x y && go l' m'
         | _, _ => false
         end) l m
  | JObject l, JObject m =>
      (fix go l m :=
         match l, m with
         | [], [] => true
         | (k, x) :: l', (k', y) :: m' => bool_decide (k = k') && json_eqb x y && go l' m'
         | _, _ => false
         end) l m
  | _, _ => false
  end.

Fixpoint assoc {V} (k : string) (m : list (string * V)) : option V :=
  match m with
  | [] => None
  | (k', v) :: m' => if bool_decide (k = k') then Some v else assoc k m'
  end.

(** [Value::get(key)]. *)
Definition json_get (v : json) (k : string) : option json :=
  match v with JObject m => assoc k m | _ => None end.

(** [value[key]]: a missing key or a non-object indexes to [Null]. *)
Definition json_index (v : json) (k : string) : json := default JNull (json_get v k).

Definition as_str (v : json) : option string := match v with JString s => Some s | _ => None end.
Definition as_bool (v : json) : option bool := match v with JBool b => Some b | _ => None end.
Definition as_u64 (v : json) : option N :=
  match v with JInt z => if (0 <=? z)%Z then Some (Z.to_N z) else None | _ => None end.
Definition as_array (v : json) : option (list json) :=
  match v with JArray l => Some l | _ => None end.

(** How serde reads a unit variant: its name, or an object of that one key with [null]. *)
Definition variant_name (v : json) : option string :=
  match v with
  | JString s => Some s
  | JObject [(s, JNull)] => Some s
  | _ => None
  end.

(** [value == "literal"], [value == true]. *)
Definition json_is_str (v : json) (s : string) : bool :=
  match v with JString s' => bool_decide (s' = s) | _ => false end.
Definition json_is_true (v : json) : bool := match v with JBool true => true | _ => false end.

(** ** Lemmas *)

Lemma drop_while_not_all {A} (f : A -> bool) l :
  drop_while f l = [] <-> forallb f l = true.
Proof.
  induction l as [|x l IH]; simpl; [done|].
  destruct (f x); simpl; [done|]. split; discriminate.
Qed.

Lemma trim_chars_nil l :
  trim_matches_chars is_whitespace l = [] <-> forallb is_whitespace l = true.
Proof.
  unfold trim_matches_chars. rewrite <- drop_while_not_all. split.
  - intros H. destruct (drop_while is_whitespace l) as [|x l'] eqn:E; [done|].
    exfalso. apply (f_equal reverse) in H. rewrite reverse_involutive in H.
    change (reverse []) with (@nil N) in H.
    apply drop_while_not_all, forallb_forall with (x := x) in H.
    + assert (Hx : is_whitespace x = false); [|congruence].
      clear H. induction l as [|y l IH]; simpl in E; [done|].
      destruct (is_whitespace y) eqn:Ey; [auto|]. by simplify_eq.
    + apply list_elem_of_In, elem_of_reverse. apply list_elem_of_here.
  - intros ->. done.
Qed.

Lemma encode_char_nonempty c : encode_char c <> "".
Proof. unfold encode_char. repeat case_match; discriminate. Qed.

(** [trim_is_empty] is the source's [trim().is_empty()]. *)
Lemma trim_empty_iff s : trim s = "" <-> trim_is_empty s = true.
Proof.
  unfold trim, trim_is_empty. rewrite <- trim_chars_nil.
  destruct (trim_matches_chars is_whitespace (chars s)) as [|c l]; simpl; [done|].
  pose proof (encode_char_nonempty c). destruct (encode_char c); [done|]. split; discriminate.
Qed.

(** ** Substrings *)

Lemma starts_with_app p s : starts_with p (p +:+ s) = true.
Proof.
  unfold starts_with. induction p as [|a p IH]; simpl; [by destruct s|].
  by destruct (Ascii.ascii_dec a a).
Qed.

Lemma str_contains_here p s : str_contains p (p +:+ s) = true.
Proof.
  pose proof (starts_with_app p s) as H. destruct (p +:+ s); cbn [str_contains]; by rewrite H.
Qed.

Lemma str_contains_app_r p a s : str_contains p s = true -> str_contains p (a +:+ s) = true.
Proof.
  intros H. induction a as [|x a IH]; [done|].
  change (String x a +:+ s) with (String x (a +:+ s)). cbn [str_contains]. rewrite IH.
  apply orb_true_r.
Qed.

Lemma str_app_assoc (a b c : string) : (a +:+ b) +:+ c = a +:+ (b +:+ c).
Proof.
  induction a as [|x a IH]; [done|].
  change (String x ((a +:+ b) +:+ c) = String x (a +:+ (b +:+ c))). by f_equal.
Qed.

Lemma join_contains sep rs r s :
  r ∈ rs -> str_contains r (join sep rs +:+ s) = true.
Proof.
  induction rs as [|x rs IH]; intros Hr; [by apply not_elem_of_nil in Hr|].
  apply elem_of_cons in Hr as [->|Hr].
  - destruct rs; simpl; rewrite ?str_app_assoc; apply str_contains_here.
  - destruct rs as [|y rs]; [by apply not_elem_of_nil in Hr|].
    change (join sep (x :: y :: rs)) with (x +:+ sep +:+ join sep (y :: rs)).
    rewrite !str_app_assoc. do 2 apply str_contains_app_r. by apply IH.
Qed.

Example chars_cjk : chars "a项b" = [97; 39033; 98].
Proof. vm_compute. reflexivity. Qed.

Example trim_example : trim "  x y
" = "x y".
Proof. vm_compute. reflexivity. Qed.

(** ** Sorting *)

(** [str] is ordered by its bytes. *)
Definition str_le (a b : string) : Prop := String.leb a b = true.
#[global] Instance str_le_dec a b : Decision (str_le a b).
Proof. unfold str_le. apply _. Defined.

#[global] Instance str_le_total : Total str_le.
Proof. intros a b. apply String.leb_total. Qed.

#[global] Instance str_le_antisymm : AntiSymm eq str_le.
Proof. intros a b. apply String.leb_antisym. Qed.

Lemma str_le_cons a s b t :
  str_le (String a s) (String b t) <-> byte_of a < byte_of b \/ (a = b /\ str_le s t).
Proof.
  unfold str_le, String.leb, byte_of. simpl. unfold Ascii.compare.
  destruct (N.compare_spec (Ascii.N_of_ascii a) (Ascii.N_of_ascii b)) as [E|E|E].
  - apply (f_equal Ascii.ascii_of_N) in E. rewrite !Ascii.ascii_N_embedding in E. subst b.
    split; [by right|]. by intros [?%N.lt_irrefl|[_ ?]].
  - split; [by left|done].
  - split; [done|]. intros [?|[-> _]]; lia.
Qed.

#[global] Instance str_le_trans : Transitive str_le.
Proof.
  intros a. induction a as [|a s IH]; intros [|b t] [|c u] H1 H2; try done.
  rewrite str_le_cons in *. destruct H1 as [H1|[-> H1]], H2 as [H2|[-> H2]]; [left; lia|auto|auto|].
  right. split; [done|]. by apply (IH t).
Qed.

(** [strings.sort()]. *)
Definition sort_strings (l : list string) : list string := merge_sort str_le l.

Lemma sort_strings_perm l : sort_strings l ≡ₚ l.
Proof. apply merge_sort_Permutation. Qed.

Lemma sort_strings_sorted l : StronglySorted str_le (sort_strings l).
Proof. apply StronglySorted_merge_sort; apply _. Qed.

(** A sorted list is determined by its elements. *)
Lemma sort_strings_unique l k : l ≡ₚ k -> sort_strings l = sort_strings k.
Proof.
  intros H. apply (StronglySorted_unique str_le); [apply sort_strings_sorted..|].
  by rewrite !sort_strings_perm.
Qed.

(** [items.dedup()]: drops repeated neighbours. *)
Fixpoint dedup {A} `{EqDecision A} (l : list A) : list A :=
  match l with
  | [] => []
  | s :: l' =>
      match dedup l' with
      | [] => [s]
      | t :: k => if bool_decide (s = t) then t :: k else s :: t :: k
      end
  end.

Lemma dedup_elem {A} `{EqDecision A} (s : A) l : s ∈ dedup l <-> s ∈ l.
Proof.
  induction l as [|t l IH]; [done|]. rewrite elem_of_cons, <- IH. simpl.
  destruct (dedup l) as [|u k]; [by rewrite list_elem_of_singleton, elem_of_nil; naive_solver|].
  case_bool_decide as E; [|by rewrite elem_of_cons]. subst u. rewrite !elem_of_cons. naive_solver.
Qed.

Lemma dedup_sorted {A} `{EqDecision A} (R : relation A) l :
  StronglySorted R l -> StronglySorted R (dedup l).
Proof.
  induction 1 as [|x l Hs IH Hf]; [constructor|]. simpl.
  destruct (dedup l) as [|y m] eqn:E; [by repeat constructor|].
  case_bool_decide; [done|]. constructor; [done|]. rewrite <- E.
  apply Forall_forall. intros z Hz. rewrite dedup_elem in Hz. exact (proj1 (Forall_forall _ _) Hf z Hz).
Qed.

(** On a sorted list nothing is left repeated. *)
Lemma dedup_nodup {A} `{EqDecision A} (R : relation A) `{!AntiSymm eq R} l :
  StronglySorted R l -> NoDup (dedup l).
Proof.
  induction 1 as [|s l Hs IH Hf]; [constructor|]. simpl.
  assert (HS := dedup_sorted R l Hs).
  destruct (dedup l) as [|t k] eqn:E; [apply NoDup_singleton|].
  case_bool_decide as Et; [done|]. constructor; [|done]. rewrite elem_of_cons.
  intros [?|Hk]; [done|]. apply Et, (anti_symm R).
  - eapply (proj1 (Forall_forall _ _) Hf), dedup_elem. rewrite E. apply list_elem_of_here.
  - inversion_clear HS as [|? ? _ Hft].
    exact (proj1 (Forall_forall _ _) Hft s Hk).
Qed.

(** ** Splitting and joining *)

Lemma split_on_nonempty c s : split_on c s <> [].
Proof. destruct s as [|a s]; simpl; [done|]. case_match; [done|]. by case_match. Qed.

Lemma join_cons sep s l : l <> [] -> join sep (s :: l) = s +:+ sep +:+ join sep l.
Proof. by destruct l. Qed.

Lemma join_push sep a p l : join sep (String a p :: l) = String a (join sep (p :: l)).
Proof. by destruct l. Qed.

Lemma join_split_on c s : join (String c "") (split_on c s) = s.
Proof.
  induction s as [|a s IH]; [done|]. simpl split_on. assert (Hn := split_on_nonempty c s).
  destruct (Ascii.eqb a c) eqn:E.
  - apply Ascii.eqb_eq in E as ->. rewrite join_cons by done. by rewrite IH.
  - destruct (split_on c s) as [|p ps]; [done|]. by rewrite join_push, IH.
Qed.

Lemma has_byte_str_app cs p s : has_byte cs (p +:+ s) = has_byte cs p || has_byte cs s.
Proof.
  induction p as [|a p IH]; [done|]. change (String a p +:+ s) with (String a (p +:+ s)). cbn [has_byte].
  by rewrite IH, orb_assoc.
Qed.

Lemma split_on_line c l rest :
  has_byte [byte_of c] l = false -> split_on c (l +:+ String c rest) = l :: split_on c rest.
Proof.
  induction l as [|a l IH]; simpl; intros H; [by rewrite Ascii.eqb_refl|]. boolhyps.
  replace (Ascii.eqb a c) with false.
  - by rewrite IH.
  - symmetry. apply Ascii.eqb_neq. intros ->. by rewrite N.eqb_refl in *.
Qed.

Lemma split_on_last c l : has_byte [byte_of c] l = false -> split_on c l = [l].
Proof.
  induction l as [|a l IH]; simpl; intros H; [done|]. boolhyps.
  replace (Ascii.eqb a c) with false.
  - by rewrite IH.
  - symmetry. apply Ascii.eqb_neq. intros ->. by rewrite N.eqb_refl in *.
Qed.

(** Parts without the separator are what splitting their join gives back. *)
Lemma split_on_join c parts :
  parts <> [] -> forallb (fun p => negb (has_byte [byte_of c] p)) parts = true ->
  split_on c (join (String c "") parts) = parts.
Proof.
  induction parts as [|p parts IH]; [done|]. intros _ H. simpl in H. boolhyps.
  destruct parts as [|q parts]; [by apply split_on_last|].
  rewrite join_cons by done. rewrite <- IH at 2 by done.
  by apply (split_on_line c p (join (String c "") (q :: parts))).
Qed.

Lemma ends_with_app p s : ends_with p s = true -> exists t, s = t +:+ p.
Proof.
  induction s as [|a s IH]; simpl; rewrite orb_true_iff; intros [H%bool_decide_eq_true|H].
  - by exists "".
  - done.
  - by exists "".
  - destruct (IH H) as [t ->]. by exists (String a t).
Qed.

Lemma split_on_snoc c t : split_on c (t +:+ String c "") = split_on c t ++ [""].
Proof.
  induction t as [|a t IH]; simpl; [by rewrite Ascii.eqb_refl|]. rewrite IH.
  destruct (Ascii.eqb a c); [done|]. assert (Hn := split_on_nonempty c t).
  by destruct (split_on c t).
Qed.

Lemma split_on_app c a b : split_on c (a +:+ String c b) = split_on c a ++ split_on c b.
Proof.
  induction a as [|x a IH]; simpl; [by rewrite Ascii.eqb_refl|]. rewrite IH.
  destruct (Ascii.eqb x c); [done|]. assert (Hn := split_on_nonempty c a).
  by destruct (split_on c a).
Qed.

Lemma split_on_parts c s : forallb (fun p => negb (has_byte [byte_of c] p)) (split_on c s) = true.
Proof.
  induction s as [|a s IH]; [done|]. simpl. destruct (Ascii.eqb a c) eqn:E; [done|].
  assert (Hb : (byte_of a =? byte_of c) = false).
  { apply N.eqb_neq. intros Hb. apply Ascii.eqb_neq in E. apply E.
    rewrite <- (Ascii.ascii_N_embedding a), <- (Ascii.ascii_N_embedding c). by f_equal. }
  destruct (split_on c s) as [|p ps]; simpl in *; rewrite Hb; [done|]. by rewrite orb_false_l.
Qed.

(** ** Decoding what was encoded *)

(** The values [chars] makes have at most 21 bits. *)
Definition is_char (c : N) : Prop := c < 2 ^ 21.

Lemma lor_shiftl_add y z k : z < 2 ^ k -> N.lor (N.shiftl y k) z = y * 2 ^ k + z.
Proof.
  intros Hz. assert (Hland : N.land (N.shiftl y k) z = 0).
  { apply N.bits_inj. intros i. rewrite N.land_spec, N.bits_0.
    destruct (N.lt_ge_cases i k) as [Hi|Hi]; [by rewrite N.shiftl_spec_low|].
    rewrite <- (N.mod_small z (2 ^ k)) by done. rewrite N.mod_pow2_bits_high by done. apply andb_false_r. }
  by rewrite <- N.lxor_lor, <- N.add_nocarry_lxor, N.shiftl_mul_pow2 by done.
Qed.

Lemma byte_of_byte n : n < 256 -> byte_of (byte n) = n.
Proof. apply Ascii.N_ascii_embedding. Qed.

Lemma cont_bits_byte c : cont_bits (byte (128 + N.land c 63)) = c mod 64.
Proof.
  unfold cont_bits. assert (H : forall x, N.land x 63 = x mod 64) by (intros x; apply (N.land_ones x 6)).
  rewrite !H, byte_of_byte by (pose proof (N.mod_lt c 64); lia).
  pose proof (N.mod_lt c 64). replace (128 + c mod 64) with (c mod 64 + 2 * 64) by lia.
  rewrite N.Div0.mod_add. by apply N.mod_small, N.mod_lt.
Qed.

(** The top bits of a lead byte. *)
Lemma lead_bits k y base : y < 2 ^ k -> N.land (base * 2 ^ k + y) (N.ones k) = y.
Proof. intros Hy. rewrite N.land_ones, N.add_comm, N.Div0.mod_add. by apply N.mod_small. Qed.

Lemma str_app_cons a t s : String a t +:+ s = String a (t +:+ s).
Proof. reflexivity. Qed.
Lemma str_app_nil s : "" +:+ s = s.
Proof. reflexivity. Qed.

Lemma lead_range base q m : q < m -> base + m <= 256 ->
  byte_of (byte (base + q)) = base + q /\ base <= byte_of (byte (base + q)) < base + m.
Proof. intros. rewrite byte_of_byte by lia. lia. Qed.

(** Decoding by the lead byte. *)
Lemma chars_two a b s : 128 <= byte_of a < 224 ->
  chars (String a (String b s)) = N.lor (N.shiftl (N.land (byte_of a) 31) 6) (cont_bits b) :: chars s.
Proof. intros H. cbn [chars]. by rewrite (proj2 (N.ltb_ge _ 128)), (proj2 (N.ltb_lt _ 224)) by lia. Qed.
Lemma chars_three a b c s : 224 <= byte_of a < 240 ->
  chars (String a (String b (String c s)))
  = N.lor (N.shiftl (N.land (byte_of a) 15) 12)
      (N.lor (N.shiftl (cont_bits b) 6) (cont_bits c)) :: chars s.
Proof.
  intros H. cbn [chars].
  by rewrite (proj2 (N.ltb_ge (byte_of a) 128)), (proj2 (N.ltb_ge (byte_of a) 224)),
    (proj2 (N.ltb_lt (byte_of a) 240)) by lia.
Qed.
Lemma chars_four a b c d s : 240 <= byte_of a ->
  chars (String a (String b (String c (String d s))))
  = N.lor (N.shiftl (N.land (byte_of a) 7) 18)
      (N.lor (N.shiftl (cont_bits b) 12) (N.lor (N.shiftl (cont_bits c) 6) (cont_bits d))) :: chars s.
Proof.
  intros H. cbn [chars].
  by rewrite (proj2 (N.ltb_ge (byte_of a) 128)), (proj2 (N.ltb_ge (byte_of a) 224)),
    (proj2 (N.ltb_ge (byte_of a) 240)) by lia.
Qed.

(** Joining the low [k] bits with the ones above them. *)
Lemma join_bits c k x : x = c mod 2 ^ k -> N.lor (N.shiftl (c / 2 ^ k) k) x = c.
Proof.
  intros ->. assert (Hk : 2 ^ k <> 0) by (apply N.pow_nonzero; lia).
  rewrite lor_shiftl_add by (by apply N.mod_lt). rewrite N.mul_comm. symmetry. by apply N.div_mod.
Qed.
Lemma join_bits_mod c k j x : x = c mod 2 ^ k ->
  N.lor (N.shiftl ((c / 2 ^ k) mod 2 ^ j) k) x = c mod 2 ^ (k + j).
Proof.
  intros ->. assert (Hk : 2 ^ k <> 0) by (apply N.pow_nonzero; lia).
  rewrite lor_shiftl_add by (by apply N.mod_lt).
  rewrite N.pow_add_r, N.Div0.mod_mul_r. lia.
Qed.

Lemma chars_encode_char c s : is_char c -> chars (encode_char c +:+ s) = c :: chars s.
Proof.
  unfold is_char. intros Hc. unfold encode_char. rewrite !N.shiftr_div_pow2.
  assert (Hq : forall k m, c < m * 2 ^ k -> c / 2 ^ k < m).
  { intros k m Hm. apply N.Div0.div_lt_upper_bound. lia. }
  destruct (c <? 128) eqn:E1; Nbool.
  { rewrite str_app_cons, str_app_nil. cbn [chars]. rewrite byte_of_byte by lia.
    by rewrite (proj2 (N.ltb_lt c 128)). }
  destruct (c <? 2048) eqn:E2; Nbool.
  { destruct (lead_range 192 _ 32 (Hq 6 32 E2)) as [Hb ?]; [done|]. rewrite !str_app_cons, str_app_nil.
    rewrite chars_two by lia.
    rewrite Hb, (lead_bits 5 _ 6), join_bits; [done| |by apply Hq]. apply cont_bits_byte. }
  destruct (c <? 65536) eqn:E3; Nbool.
  { destruct (lead_range 224 _ 16 (Hq 12 16 E3)) as [Hb ?]; [done|]. rewrite !str_app_cons, str_app_nil.
    rewrite chars_three by lia.
    rewrite Hb, (lead_bits 4 _ 14), join_bits; [done| |by apply Hq].
    rewrite !cont_bits_byte. by apply (join_bits_mod c 6 6). }
  destruct (lead_range 240 _ 8 (Hq 18 8 Hc)) as [Hb ?]; [done|]. rewrite !str_app_cons, str_app_nil.
  rewrite chars_four by lia.
  rewrite Hb, (lead_bits 3 _ 30), join_bits; [done| |by apply Hq].
  rewrite !cont_bits_byte. apply (join_bits_mod c 12 6). by apply (join_bits_mod c 6 6).
Qed.

Lemma chars_of_chars l : Forall is_char l -> chars (of_chars l) = l.
Proof. induction 1 as [|c l Hc _ IH]; [done|]. cbn [of_chars]. by rewrite chars_encode_char, IH. Qed.

Lemma cont_bits_lt a : cont_bits a < 2 ^ 6.
Proof. unfold cont_bits. change 63 with (N.ones 6). rewrite N.land_ones. by apply N.mod_lt. Qed.

Lemma join_lt y z k j : y < 2 ^ j -> z < 2 ^ k -> N.lor (N.shiftl y k) z < 2 ^ (j + k).
Proof. intros Hy Hz. rewrite lor_shiftl_add, N.pow_add_r by done. nia. Qed.

Lemma land_ones_lt x k : N.land x (N.ones k) < 2 ^ k.
Proof. rewrite N.land_ones. apply N.mod_lt, N.pow_nonzero. lia. Qed.

Lemma byte_of_lt a : byte_of a < 256.
Proof. apply Ascii.N_ascii_bounded. Qed.

Lemma chars_are_chars s : Forall is_char (chars s).
Proof.
  unfold is_char.
  assert (Hle : forall x k, x < 2 ^ k -> k <= 21 -> x < 2 ^ 21).
  { intros x k Hx Hk. eapply N.lt_le_trans; [exact Hx|]. by apply N.pow_le_mono_r. }
  assert (Hb : forall a, byte_of a < 2 ^ 21) by (intros a; pose proof (byte_of_lt a); apply (Hle _ 8); [done|lia]).
  induction s as [s IH] using (induction_ltof1 _ String.length). unfold ltof in IH.
  destruct s as [|a s]; [constructor|]. cbn [chars].
  case_match; [constructor; [done|apply IH; simpl; lia]|].
  case_match.
  { destruct s as [|b s]; [by repeat constructor|]. constructor; [|apply IH; simpl; lia].
    apply (Hle _ 11); [|lia]. apply (join_lt _ _ 6 5); [apply (land_ones_lt _ 5)|apply cont_bits_lt]. }
  case_match.
  { destruct s as [|b [|c s]]; [by repeat constructor..|]. constructor; [|apply IH; simpl; lia].
    apply (Hle _ 16); [|lia]. apply (join_lt _ _ 12 4); [apply (land_ones_lt _ 4)|].
    apply (join_lt _ _ 6 6); apply cont_bits_lt. }
  destruct s as [|b [|c [|d s]]]; [by repeat constructor..|]. constructor; [|apply IH; simpl; lia].
  apply (join_lt _ _ 18 3); [apply (land_ones_lt _ 3)|].
  apply (join_lt _ _ 12 6); [apply cont_bits_lt|]. apply (join_lt _ _ 6 6); apply cont_bits_lt.
Qed.

(** Any part of a string's characters is a string of these characters. *)
Lemma chars_of_sub l s : l ⊆ chars s -> chars (of_chars l) = l.
Proof.
  intros Hl. apply chars_of_chars, Forall_forall. intros c Hc.
  apply (proj1 (Forall_forall _ _) (chars_are_chars s)), Hl, Hc.
Qed.
