(* ===== verification/Utf8.v ===== *)
(** * Pieces of UTF-8 text

    Lemmas on texts as concatenated pieces that several components share: cutting a text
    in two ways, cutting valid UTF-8 where a character begins, and that encoding undoes
    decoding. *)
From S2P Require Import Prelude RustStr.
Open Scope N_scope.

(** ** Texts as pieces *)

Lemma str_length_app a b : String.length (a +:+ b) = (String.length a + String.length b)%nat.
Proof. induction a as [|x a IH]; simpl; [done|]. by rewrite IH. Qed.

Lemma str_app_nil_r s : s +:+ "" = s.
Proof. induction s as [|x s IH]; [done|]. by rewrite str_app_cons, IH. Qed.

(** Two ways to cut a text: the longer first piece continues the shorter. *)
Lemma str_app_split a b c d :
  a +:+ b = c +:+ d -> (String.length c <= String.length a)%nat ->
  exists m, a = c +:+ m /\ d = m +:+ b.
Proof.
  revert c. induction a as [|x a IH]; intros [|y c] He Hl; simpl in Hl; try lia.
  - by exists "".
  - by exists (String x a).
  - rewrite !str_app_cons in He. injection He as -> He.
    destruct (IH c He ltac:(lia)) as (m & -> & ->). by exists m.
Qed.

Lemma starts_with_split p s : starts_with p s = true -> exists t, s = p +:+ t.
Proof.
  unfold starts_with. revert s. induction p as [|x p IH]; intros s Hp; [by exists s|].
  destruct s as [|y s]; [done|]. simpl in Hp. destruct (Ascii.ascii_dec x y) as [<-|]; [|done].
  destruct (IH s Hp) as [t ->]. by exists t.
Qed.

(** ** UTF-8 pieces *)

Definition is_continuation (a : Ascii.ascii) : bool := (128 <=? byte_of a) && (byte_of a <? 192).
Fixpoint all_continuation (s : string) : bool :=
  match s with EmptyString => true | String a s' => is_continuation a && all_continuation s' end.
(** A place where a character may begin: the text that follows is empty or begins one. *)
Definition begins_char (s : string) : bool :=
  match s with EmptyString => true | String a _ => negb (is_continuation a) end.

Lemma in_range_continuation lo hi a : 128 <= lo -> hi <= 191 -> in_range lo hi a = true -> is_continuation a = true.
Proof. unfold in_range, is_continuation. intros. boolhyps. Nbool. apply andb_true_intro.
  split; [apply N.leb_le|apply N.ltb_lt]; lia.
Qed.

Lemma lead_not_continuation a : byte_of a < 128 \/ 192 <= byte_of a -> is_continuation a = false.
Proof.
  unfold is_continuation. intros [?|?]; apply andb_false_iff; [left; apply N.leb_gt|right; apply N.ltb_ge]; lia.
Qed.

(** A character of more than one byte is not ASCII. *)
Lemma land_ones_mod x k : N.land x (N.ones k) = x mod 2 ^ k.
Proof. apply N.land_ones. Qed.

Lemma lor_shiftl_ge y z k : z < 2 ^ k -> y * 2 ^ k <= N.lor (N.shiftl y k) z.
Proof. intros Hz. rewrite lor_shiftl_add by done. lia. Qed.

(** The bits of a lead byte in [base + lo .. base + 2 ^ k - 1]. *)
Lemma lead_bits_ge k m lo x :
  m = N.ones k -> 2 ^ k * (x / 2 ^ k) + lo <= x -> lo <= N.land x m.
Proof. intros ->. rewrite land_ones_mod. pose proof (N.div_mod' x (2 ^ k)). lia. Qed.

Lemma char_two_ge x b : 194 <= x <= 223 -> 128 <= N.lor (N.shiftl (N.land x 31) 6) (cont_bits b).
Proof.
  intros Hx. pose proof (lor_shiftl_ge (N.land x 31) (cont_bits b) 6 (cont_bits_lt b)).
  assert (2 <= N.land x 31); [|change (2 ^ 6) with 64 in *; lia].
  apply (lead_bits_ge 5); [done|]. change (2 ^ 5) with 32.
  assert (x / 32 = 6) as ->; [|lia]. symmetry. apply (N.div_unique x 32 6 (x - 192)); lia.
Qed.

Lemma char_three_ge x b c :
  224 <= x <= 239 ->
  in_range (if x =? 224 then 160 else 128) (if x =? 237 then 159 else 191) b = true ->
  128 <= N.lor (N.shiftl (N.land x 15) 12) (N.lor (N.shiftl (cont_bits b) 6) (cont_bits c)).
Proof.
  intros Hx Hb. pose proof (cont_bits_lt b) as Hlb. pose proof (cont_bits_lt c) as Hlc.
  rewrite (lor_shiftl_add (N.land x 15)) by (apply (join_lt _ _ 6 6); done).
  rewrite lor_shiftl_add by done. change (2 ^ 12) with 4096. change (2 ^ 6) with 64.
  destruct (N.eqb_spec x 224) as [->|Hne].
  - assert (2 <= cont_bits b); [|lia]. unfold in_range in Hb. boolhyps. Nbool.
    unfold cont_bits. apply (lead_bits_ge 6); [done|]. change (2 ^ 6) with 64.
    simpl in *. assert (byte_of b / 64 = 2) as ->; [|lia].
    symmetry. apply (N.div_unique (byte_of b) 64 2 (byte_of b - 128)); lia.
  - assert (1 <= N.land x 15); [|lia]. apply (lead_bits_ge 4); [done|]. change (2 ^ 4) with 16.
    assert (x / 16 = 14) as ->; [|lia]. symmetry. apply (N.div_unique x 16 14 (x - 224)); lia.
Qed.

Lemma char_four_ge x b c d :
  240 <= x <= 244 ->
  in_range (if x =? 240 then 144 else 128) (if x =? 244 then 143 else 191) b = true ->
  128 <= N.lor (N.shiftl (N.land x 7) 18)
           (N.lor (N.shiftl (cont_bits b) 12) (N.lor (N.shiftl (cont_bits c) 6) (cont_bits d))).
Proof.
  intros Hx Hb. pose proof (cont_bits_lt b) as Hlb. pose proof (cont_bits_lt c) as Hlc.
  pose proof (cont_bits_lt d) as Hld.
  pose proof (join_lt (cont_bits c) (cont_bits d) 6 6 Hlc Hld) as Hcd.
  rewrite (lor_shiftl_add (N.land x 7)) by (apply (join_lt _ _ 12 6); done).
  rewrite (lor_shiftl_add (cont_bits b)) by done. change (2 ^ 18) with 262144. change (2 ^ 12) with 4096.
  destruct (N.eqb_spec x 240) as [->|Hne].
  - assert (1 <= cont_bits b); [|lia]. unfold in_range in Hb. boolhyps. Nbool.
    unfold cont_bits. apply (lead_bits_ge 6); [done|]. change (2 ^ 6) with 64.
    simpl in *. assert (byte_of b / 64 = 2) as ->; [|lia].
    symmetry. apply (N.div_unique (byte_of b) 64 2 (byte_of b - 128)); lia.
  - assert (1 <= N.land x 7); [|lia]. apply (lead_bits_ge 3); [done|]. change (2 ^ 3) with 8.
    assert (x / 8 = 30) as ->; [|lia]. symmetry. apply (N.div_unique x 8 30 (x - 240)); lia.
Qed.

(** A valid text is empty or a character and a valid text, and the character can be
    followed by any other text. *)
Lemma valid_utf8_step s :
  valid_utf8 s = true ->
  s = "" \/ exists a c t, s = String a (c +:+ t) /\ is_continuation a = false /\
    all_continuation c = true /\ valid_utf8 t = true /\
    (forall t', valid_utf8 (String a (c +:+ t')) = valid_utf8 t') /\
    exists x, (c = "" /\ x = byte_of a \/ 128 <= x) /\
      forall t', chars (String a (c +:+ t')) = x :: chars t'.
Proof.
  destruct s as [|a s1]; [by left|]. cbn [valid_utf8]. intros Hv. right.
  destruct (byte_of a <? 128) eqn:H1.
  { exists a, "", s1. split_and!; [done|Nbool; apply lead_not_continuation; lia|done|done|..].
    - intros t'. rewrite ?str_app_cons, ?str_app_nil. cbn [valid_utf8]. by rewrite H1.
    - exists (byte_of a). split; [by left|]. intros t'. rewrite str_app_nil. cbn [chars]. by rewrite H1. }
  destruct ((194 <=? byte_of a) && (byte_of a <=? 223)) eqn:H2.
  { assert (192 <= byte_of a) by (boolhyps; Nbool; lia).
    destruct s1 as [|b s2]; [done|]. apply andb_true_iff in Hv as [Hb Hv].
    exists a, (String b ""), s2. split_and!; [done|apply lead_not_continuation; lia| |done|..].
    - cbn. by rewrite (in_range_continuation _ _ _ ltac:(done) ltac:(done) Hb).
    - intros t'. rewrite ?str_app_cons, ?str_app_nil. cbn [valid_utf8]. by rewrite H1, H2, Hb.
    - assert ((byte_of a <? 224) = true) as H5 by (apply N.ltb_lt; boolhyps; Nbool; lia).
      eexists. split; [right; apply (char_two_ge (byte_of a) b); boolhyps; Nbool; lia|].
      intros t'. rewrite !str_app_cons, str_app_nil. cbn [chars]. by rewrite H1, H5. }
  destruct ((224 <=? byte_of a) && (byte_of a <=? 239)) eqn:H3.
  { assert (192 <= byte_of a) by (boolhyps; Nbool; lia).
    destruct s1 as [|b [|c s3]]; [done..|]. apply andb_true_iff in Hv as [Hbc Hv].
    pose proof (proj1 (andb_true_iff _ _) Hbc) as [Hb Hc].
    exists a, (String b (String c "")), s3. split_and!; [done|apply lead_not_continuation; lia| |done|..].
    - assert (is_continuation b = true) as Hb' by (eapply in_range_continuation; [..|exact Hb]; [destruct (byte_of a =? 224), (byte_of a =? 240); lia|destruct (byte_of a =? 237), (byte_of a =? 244); lia]). cbn. rewrite Hb'.
      by rewrite (in_range_continuation _ _ _ ltac:(done) ltac:(done) Hc).
    - intros t'. rewrite ?str_app_cons, ?str_app_nil. cbn [valid_utf8]. by rewrite H1, H2, H3, Hbc.
    - assert ((byte_of a <? 224) = false /\ (byte_of a <? 240) = true) as [H5 H6]
        by (split; [apply N.ltb_ge|apply N.ltb_lt]; boolhyps; Nbool; lia).
      eexists. split; [right; apply (char_three_ge (byte_of a) b c); [boolhyps; Nbool; lia|exact Hb]|].
      intros t'. rewrite !str_app_cons, str_app_nil. cbn [chars]. by rewrite H1, H5, H6. }
  destruct ((240 <=? byte_of a) && (byte_of a <=? 244)) eqn:H4; [|done].
  assert (192 <= byte_of a) by (boolhyps; Nbool; lia).
  destruct s1 as [|b [|c [|d s4]]]; [done..|]. apply andb_true_iff in Hv as [Hbcd Hv].
  pose proof (proj1 (andb_true_iff _ _) Hbcd) as [Hbc Hd].
  pose proof (proj1 (andb_true_iff _ _) Hbc) as [Hb Hc].
  exists a, (String b (String c (String d ""))), s4.
  split_and!; [done|apply lead_not_continuation; lia| |done|..].
  - assert (is_continuation b = true) as Hb' by (eapply in_range_continuation; [..|exact Hb]; [destruct (byte_of a =? 224), (byte_of a =? 240); lia|destruct (byte_of a =? 237), (byte_of a =? 244); lia]). cbn. rewrite Hb'.
    rewrite (in_range_continuation _ _ _ ltac:(done) ltac:(done) Hc).
    by rewrite (in_range_continuation _ _ _ ltac:(done) ltac:(done) Hd).
  - intros t'. rewrite ?str_app_cons, ?str_app_nil. cbn [valid_utf8]. by rewrite H1, H2, H3, H4, Hbcd.
  - assert ((byte_of a <? 224) = false /\ (byte_of a <? 240) = false) as [H5 H6]
      by (split; apply N.ltb_ge; boolhyps; Nbool; lia).
    eexists. split; [right; apply (char_four_ge (byte_of a) b c d); [boolhyps; Nbool; lia|exact Hb]|].
    intros t'. rewrite !str_app_cons, str_app_nil. cbn [chars]. by rewrite H1, H5, H6.
Qed.

(** Induction on the characters of a valid text. *)
Lemma utf8_ind (P : string -> Prop) :
  P "" ->
  (forall a c t, is_continuation a = false -> all_continuation c = true -> valid_utf8 t = true ->
     (forall t', valid_utf8 (String a (c +:+ t')) = valid_utf8 t') ->
     (exists x, (c = "" /\ x = byte_of a \/ 128 <= x) /\
        forall t', chars (String a (c +:+ t')) = x :: chars t') ->
     P t -> P (String a (c +:+ t))) ->
  forall s, valid_utf8 s = true -> P s.
Proof.
  intros H0 Hs s. remember (String.length s) as n eqn:Hn. revert s Hn.
  induction n as [n IH] using lt_wf_ind. intros s -> Hv.
  destruct (valid_utf8_step s Hv) as [->|(a & c & t & -> & Ha & Hc & Ht & Hf & Hch)]; [done|].
  apply Hs; try done. eapply IH; [|done..]. simpl. rewrite str_length_app. lia.
Qed.

Lemma valid_utf8_app a b : valid_utf8 a = true -> valid_utf8 (a +:+ b) = valid_utf8 b.
Proof.
  revert a. apply utf8_ind; [done|]. intros x c t Hx Hc Ht Hf _ IH.
  by rewrite str_app_cons, str_app_assoc, Hf.
Qed.

Lemma chars_app a b : valid_utf8 a = true -> chars (a +:+ b) = chars a ++ chars b.
Proof.
  revert a. apply utf8_ind; [done|]. intros x c t _ _ _ _ [y [_ Hy]] IH.
  by rewrite str_app_cons, str_app_assoc, !Hy, IH.
Qed.

Lemma valid_begins_char s : valid_utf8 s = true -> begins_char s = true.
Proof. intros Hv. destruct (valid_utf8_step s Hv) as [->|(a & c & t & -> & Ha & _)]; simpl; [done|]. by rewrite Ha. Qed.

Lemma begins_char_app p t : p <> "" -> valid_utf8 p = true -> begins_char (p +:+ t) = true.
Proof. intros Hp Hv%valid_begins_char. destruct p; [done|]. by rewrite str_app_cons. Qed.

Lemma begins_char_in_continuation c m b :
  all_continuation c = true -> c = m +:+ b -> b <> "" -> begins_char b = false.
Proof.
  revert c. induction m as [|x m IH]; intros c Hc -> Hb.
  - destruct b as [|y b]; [done|]. rewrite str_app_nil in Hc. simpl in *. boolhyps. by rewrite H.
  - rewrite str_app_cons in Hc. simpl in Hc. boolhyps. by eapply IH.
Qed.

(** A valid text cut where a character begins is two valid texts. *)
Lemma valid_utf8_cut a b :
  valid_utf8 (a +:+ b) = true -> begins_char b = true ->
  valid_utf8 a = true /\ valid_utf8 b = true.
Proof.
  intros Hv. remember (a +:+ b) as s eqn:Hs. revert a b Hs. revert s Hv.
  apply (utf8_ind (fun s => forall a b, s = a +:+ b -> begins_char b = true -> _ /\ _)).
  - intros [|x a] b Hs _; [|done]. by rewrite str_app_nil in Hs; subst.
  - intros x c t Hx Hc Ht Hf _ IH [|y a] b Hs Hb.
    { rewrite str_app_nil in Hs; subst. split; [done|]. by rewrite Hf. }
    rewrite str_app_cons in Hs. injection Hs as <- Hs.
    destruct (decide (String.length c <= String.length a)%nat) as [Hl|Hl].
    + symmetry in Hs. destruct (str_app_split _ _ _ _ Hs Hl) as (m & -> & ->).
      destruct (IH m b eq_refl Hb) as [Hm Hb']. by rewrite Hf.
    + destruct (str_app_split _ _ _ _ Hs ltac:(lia)) as (m & -> & ->).
      destruct m as [|z m]; [rewrite str_app_nil_r in Hl; lia|].
      assert (begins_char (String z m) = false) as Hz by (by eapply begins_char_in_continuation).
      rewrite str_app_cons in Hb. simpl in Hz, Hb. congruence.
Qed.

(** ** Encoding undoes decoding *)

Lemma byte_byte_of a : byte (byte_of a) = a.
Proof. apply Ascii.ascii_N_embedding. Qed.

Lemma cont_bits_sub b : in_range 128 191 b = true -> cont_bits b = byte_of b - 128.
Proof.
  intros Hb. unfold in_range in Hb. boolhyps. Nbool. unfold cont_bits. change 63 with (N.ones 6).
  rewrite land_ones_mod. symmetry. apply (N.mod_unique _ _ 2); lia.
Qed.

Lemma lead_bits_sub k base x : base mod 2 ^ k = 0 -> base <= x < base + 2 ^ k -> N.land x (N.ones k) = x - base.
Proof.
  intros Hb Hx. rewrite land_ones_mod. symmetry. apply (N.mod_unique _ _ (base / 2 ^ k)); [lia|].
  pose proof (N.div_mod' base (2 ^ k)). lia.
Qed.

Lemma in_range_wider lo hi a : 128 <= lo -> hi <= 191 -> in_range lo hi a = true -> in_range 128 191 a = true.
Proof. unfold in_range. rewrite !andb_true_iff, !N.leb_le. lia. Qed.

Lemma encode_two x y : 194 <= x <= 223 -> 128 <= y <= 191 ->
  encode_char ((x - 192) * 64 + (y - 128)) = String (byte x) (String (byte y) "").
Proof.
  intros Hx Hy. unfold encode_char. remember ((x - 192) * 64 + (y - 128)) as c eqn:Hc.
  destruct (N.ltb_spec c 128); [lia|]. destruct (N.ltb_spec c 2048); [|lia].
  change 63 with (N.ones 6). rewrite land_ones_mod, N.shiftr_div_pow2. change (2 ^ 6) with 64.
  assert (c / 64 = x - 192) as -> by (symmetry; apply (N.div_unique _ _ _ (y - 128)); lia).
  assert (c mod 64 = y - 128) as -> by (symmetry; apply (N.mod_unique _ _ (x - 192)); lia).
  repeat f_equal; lia.
Qed.

Lemma encode_three x y z : 224 <= x <= 239 -> 128 <= y <= 191 -> 128 <= z <= 191 -> (x = 224 -> 160 <= y) ->
  encode_char ((x - 224) * 4096 + ((y - 128) * 64 + (z - 128)))
  = String (byte x) (String (byte y) (String (byte z) "")).
Proof.
  intros Hx Hy Hz Hxy. unfold encode_char. remember ((x - 224) * 4096 + ((y - 128) * 64 + (z - 128))) as c eqn:Hc.
  assert (2048 <= c) by (destruct (decide (x = 224)); [specialize (Hxy e)|]; lia).
  destruct (N.ltb_spec c 128); [lia|]. destruct (N.ltb_spec c 2048); [lia|]. destruct (N.ltb_spec c 65536); [|lia].
  change 63 with (N.ones 6). rewrite !land_ones_mod, !N.shiftr_div_pow2.
  change (2 ^ 6) with 64. change (2 ^ 12) with 4096.
  assert (c / 4096 = x - 224) as -> by (symmetry; apply (N.div_unique _ _ _ ((y - 128) * 64 + (z - 128))); lia).
  assert (c / 64 = (x - 224) * 64 + (y - 128)) as -> by (symmetry; apply (N.div_unique _ _ _ (z - 128)); lia).
  assert (((x - 224) * 64 + (y - 128)) mod 64 = y - 128) as -> by (symmetry; apply (N.mod_unique _ _ (x - 224)); lia).
  assert (c mod 64 = z - 128) as -> by (symmetry; apply (N.mod_unique _ _ ((x - 224) * 64 + (y - 128))); lia).
  repeat f_equal; lia.
Qed.

Lemma encode_four x y z w :
  240 <= x <= 244 -> 128 <= y <= 191 -> 128 <= z <= 191 -> 128 <= w <= 191 -> (x = 240 -> 144 <= y) ->
  encode_char ((x - 240) * 262144 + ((y - 128) * 4096 + ((z - 128) * 64 + (w - 128))))
  = String (byte x) (String (byte y) (String (byte z) (String (byte w) ""))).
Proof.
  intros Hx Hy Hz Hw Hxy. unfold encode_char.
  remember ((x - 240) * 262144 + ((y - 128) * 4096 + ((z - 128) * 64 + (w - 128)))) as c eqn:Hc.
  assert (65536 <= c) by (destruct (decide (x = 240)); [specialize (Hxy e)|]; lia).
  destruct (N.ltb_spec c 128); [lia|]. destruct (N.ltb_spec c 2048); [lia|]. destruct (N.ltb_spec c 65536); [lia|].
  change 63 with (N.ones 6). rewrite !land_ones_mod, !N.shiftr_div_pow2.
  change (2 ^ 6) with 64. change (2 ^ 12) with 4096. change (2 ^ 18) with 262144.
  assert (c / 262144 = x - 240) as -> by (symmetry; apply (N.div_unique _ _ _ ((y - 128) * 4096 + ((z - 128) * 64 + (w - 128)))); lia).
  assert (c / 4096 = (x - 240) * 64 + (y - 128)) as -> by (symmetry; apply (N.div_unique _ _ _ ((z - 128) * 64 + (w - 128))); lia).
  assert (c / 64 = ((x - 240) * 64 + (y - 128)) * 64 + (z - 128)) as -> by (symmetry; apply (N.div_unique _ _ _ (w - 128)); lia).
  assert (((x - 240) * 64 + (y - 128)) mod 64 = y - 128) as -> by (symmetry; apply (N.mod_unique _ _ (x - 240)); lia).
  assert ((((x - 240) * 64 + (y - 128)) * 64 + (z - 128)) mod 64 = z - 128) as ->
    by (symmetry; apply (N.mod_unique _ _ ((x - 240) * 64 + (y - 128))); lia).
  assert (c mod 64 = w - 128) as -> by (symmetry; apply (N.mod_unique _ _ (((x - 240) * 64 + (y - 128)) * 64 + (z - 128))); lia).
  repeat f_equal; lia.
Qed.

Lemma in_range_bounds lo hi a : in_range lo hi a = true -> lo <= byte_of a <= hi.
Proof. unfold in_range. by rewrite andb_true_iff, !N.leb_le. Qed.

(** A valid text is spelled by its characters. *)
Lemma of_chars_chars s : valid_utf8 s = true -> of_chars (chars s) = s.
Proof.
  remember (String.length s) as n eqn:Hn. revert s Hn.
  induction n as [n IH] using lt_wf_ind. intros s -> Hs. destruct s as [|a s1]; [done|].
  assert (forall t, valid_utf8 t = true -> (String.length t < String.length (String a s1))%nat ->
    of_chars (chars t) = t) as IH' by (intros; by eapply IH).
  clear IH. cbn [valid_utf8 chars] in *.
  destruct (byte_of a <? 128) eqn:H1.
  { cbn [of_chars]. unfold encode_char. rewrite H1, byte_byte_of, str_app_cons, str_app_nil, IH' by (done || simpl; lia). done. }
  destruct ((194 <=? byte_of a) && (byte_of a <=? 223)) eqn:H2.
  { destruct s1 as [|b s2]; [done|]. apply andb_true_iff in Hs as [Hb Hs].
    assert (194 <= byte_of a <= 223) by (boolhyps; Nbool; lia).
    assert ((byte_of a <? 224) = true) as -> by (apply N.ltb_lt; lia).
    cbn [of_chars]. rewrite lor_shiftl_add by apply cont_bits_lt. rewrite (cont_bits_sub _ Hb).
    change 31 with (N.ones 5). rewrite (lead_bits_sub 5 192) by (done || change (2 ^ 5) with 32; lia).
    change (2 ^ 6) with 64. rewrite encode_two by (done || by apply in_range_bounds).
    rewrite !byte_byte_of, !str_app_cons, str_app_nil, IH' by (done || simpl; lia). done. }
  destruct ((224 <=? byte_of a) && (byte_of a <=? 239)) eqn:H3.
  { destruct s1 as [|b [|c s3]]; [done..|]. apply andb_true_iff in Hs as [[Hb Hc]%andb_true_iff Hs].
    assert (224 <= byte_of a <= 239) as Ha by (boolhyps; Nbool; lia).
    assert ((byte_of a <? 224) = false /\ (byte_of a <? 240) = true) as [-> ->]
      by (split; [apply N.ltb_ge|apply N.ltb_lt]; lia).
    assert (byte_of a = 224 -> 160 <= byte_of b) as Hab
      by (intros E; rewrite E in Hb; apply in_range_bounds in Hb; simpl in Hb; lia).
    apply in_range_wider in Hb; [|destruct (byte_of a =? 224); lia|destruct (byte_of a =? 237); lia].
    pose proof (join_lt (cont_bits b) (cont_bits c) 6 6 (cont_bits_lt b) (cont_bits_lt c)) as Hbc.
    cbn [of_chars]. rewrite (lor_shiftl_add _ _ 12) by done. rewrite lor_shiftl_add by apply cont_bits_lt.
    rewrite (cont_bits_sub _ Hb), (cont_bits_sub _ Hc).
    change 15 with (N.ones 4). rewrite (lead_bits_sub 4 224) by (done || change (2 ^ 4) with 16; lia).
    change (2 ^ 6) with 64. change (2 ^ 12) with 4096.
    rewrite encode_three by (done || by apply in_range_bounds).
    rewrite !byte_byte_of, !str_app_cons, str_app_nil, IH' by (done || simpl; lia). done. }
  destruct ((240 <=? byte_of a) && (byte_of a <=? 244)) eqn:H4; [|done].
  destruct s1 as [|b [|c [|d s4]]]; [done..|].
  apply andb_true_iff in Hs as [[[Hb Hc]%andb_true_iff Hd]%andb_true_iff Hs].
  assert (240 <= byte_of a <= 244) as Ha by (boolhyps; Nbool; lia).
  assert ((byte_of a <? 224) = false /\ (byte_of a <? 240) = false) as [-> ->] by (split; apply N.ltb_ge; lia).
  assert (byte_of a = 240 -> 144 <= byte_of b) as Hab
    by (intros E; rewrite E in Hb; apply in_range_bounds in Hb; simpl in Hb; lia).
  apply in_range_wider in Hb; [|destruct (byte_of a =? 240); lia|destruct (byte_of a =? 244); lia].
  pose proof (join_lt (cont_bits c) (cont_bits d) 6 6 (cont_bits_lt c) (cont_bits_lt d)) as Hcd.
  pose proof (join_lt (cont_bits b) _ 12 6 (cont_bits_lt b) Hcd) as Hbcd.
  cbn [of_chars]. rewrite (lor_shiftl_add _ _ 18), (lor_shiftl_add _ _ 12) by done.
  rewrite lor_shiftl_add by apply cont_bits_lt.
  rewrite (cont_bits_sub _ Hb), (cont_bits_sub _ Hc), (cont_bits_sub _ Hd).
  change 7 with (N.ones 3). rewrite (lead_bits_sub 3 240) by (done || change (2 ^ 3) with 8; lia).
  change (2 ^ 6) with 64. change (2 ^ 12) with 4096. change (2 ^ 18) with 262144.
  rewrite encode_four by (done || by apply in_range_bounds).
  rewrite !byte_byte_of, !str_app_cons, str_app_nil, IH' by (done || simpl; lia). done.
Qed.
