(* ===== verification/Core.v ===== *)
(** * Core types shared by the runtime crates

    The data model of [golutra-agent-core]: actors, task status and lanes
    ([runtime.rs]), verification records ([verification.rs],
    [verification_plan] assertions in [governance.rs]), tool results
    ([tool.rs]), policy decisions ([policy.rs]) and the loop state
    ([loop_control.rs]). An enum is a [Module] so that its constructors are
    written as in the source, [TaskStatus.Running]. Identifiers are UUIDs; they
    are only compared, so an identifier is an [N] and a call of [X::new()] is
    an argument of the operation that makes it. *)
From S2P Require Import Prelude RustStr.
Open Scope N_scope.

Abbreviation WorkspaceId := N (only parsing).
Abbreviation SessionId := N (only parsing).
Abbreviation ThreadId := N (only parsing).
Abbreviation TaskId := N (only parsing).
Abbreviation TurnId := N (only parsing).
Abbreviation LaneId := N (only parsing).
Abbreviation CommandId := N (only parsing).
Abbreviation DecisionId := N (only parsing).
Abbreviation EventId := N (only parsing).
Abbreviation EvidenceId := N (only parsing).
Abbreviation ArtifactId := N (only parsing).
Abbreviation VerificationId := N (only parsing).
Abbreviation VerificationPlanId := N (only parsing).
Abbreviation VerificationAssertionId := N (only parsing).
Abbreviation LoopDecisionId := N (only parsing).
Abbreviation PolicyId := N (only parsing).
Abbreviation ToolCallId := N (only parsing).
Abbreviation ProviderRequestId := N (only parsing).
(** Milliseconds of a clock. *)
Abbreviation Timestamp := N (only parsing).

(** ** Actors and task status *)

Module ActorKind.
(*@ core/src/runtime.rs ActorKind *)
Inductive ActorKind := User | Api | Tui | Cli | Sdk | Web | Ide | Runtime.
#[global] Instance ActorKind_eq_dec : EqDecision ActorKind.
Proof. solve_decision. Defined.
End ActorKind.
Abbreviation ActorKind := ActorKind.ActorKind.

(*@ core/src/runtime.rs Actor *)
Record Actor := mkActor { actor_kind : ActorKind; actor_id : string }.
#[global] Instance Actor_eq_dec : EqDecision Actor.
Proof. solve_decision. Defined.

Module TaskStatus.
(*@ core/src/runtime.rs TaskStatus *)
Inductive TaskStatus :=
| Idle | Running | WaitingApproval | WaitingAuthentication | Pausing | Paused | Aborting
| Completed | Partial | Failed | Blocked | Cancelled | Interrupted | Uncertain.
#[global] Instance TaskStatus_eq_dec : EqDecision TaskStatus.
Proof. solve_decision. Defined.

(*@ core/src/runtime.rs TaskStatus::is_active *)
Definition is_active (s : TaskStatus) : bool :=
  match s with
  | Running | WaitingApproval | WaitingAuthentication | Pausing | Paused | Aborting => true
  | _ => false
  end.

(*@ core/src/runtime.rs TaskStatus::is_terminal *)
Definition is_terminal (s : TaskStatus) : bool :=
  match s with
  | Completed | Partial | Failed | Blocked | Cancelled | Interrupted | Uncertain => true
  | _ => false
  end.

(*@ core/src/runtime.rs TaskStatus::requires_reconciliation *)
Definition requires_reconciliation (s : TaskStatus) : bool :=
  match s with Uncertain => true | _ => false end.

(** Active, terminal and idle partition the states. *)
Lemma status_partition s :
  (is_active s = true /\ is_terminal s = false)
  \/ (is_active s = false /\ is_terminal s = true)
  \/ s = Idle.
Proof. destruct s; auto. Qed.
End TaskStatus.
Abbreviation TaskStatus := TaskStatus.TaskStatus.

Module BusyPolicy.
(*@ core/src/runtime.rs BusyPolicy *)
Inductive BusyPolicy := Append | Inject | Interrupt | Reject.
#[global] Instance BusyPolicy_eq_dec : EqDecision BusyPolicy.
Proof. solve_decision. Defined.
End BusyPolicy.
Abbreviation BusyPolicy := BusyPolicy.BusyPolicy.

(*@ core/src/runtime.rs RuntimeLane *)
Record RuntimeLane := mkLane {
  lane_id : LaneId;
  lane_workspace_id : WorkspaceId;
  lane_session_id : SessionId;
  lane_task_id : TaskId;
  active_turn_id : option TurnId;
  active_controller : Actor;
  lane_status : TaskStatus;
  pending_turns : list TurnId;
  injected_inputs : list CommandId;
  busy_policy_default : BusyPolicy;
}.
#[global] Instance RuntimeLane_eq_dec : EqDecision RuntimeLane.
Proof. solve_decision. Defined.

(*@ core/src/runtime.rs:175-185 BusyPolicyDecision *)
Record BusyPolicyDecision := mkBusyPolicyDecision {
  bpd_decision_id : DecisionId;
  bpd_lane_id : LaneId;
  bpd_command_id : CommandId;
  bpd_requested_policy : BusyPolicy;
  bpd_applied_policy : BusyPolicy;
  bpd_reason : string;
  bpd_safe_to_inject : bool;
  bpd_affected_turn_id : option TurnId;
}.

Module TaskRecoveryDisposition.
(*@ core/src/runtime.rs TaskRecoveryDisposition *)
Inductive TaskRecoveryDisposition := Interrupted | Uncertain.
#[global] Instance TaskRecoveryDisposition_eq_dec : EqDecision TaskRecoveryDisposition.
Proof. solve_decision. Defined.
End TaskRecoveryDisposition.
Abbreviation TaskRecoveryDisposition := TaskRecoveryDisposition.TaskRecoveryDisposition.

(** ** Policy *)

Module PolicyDecision.
(*@ core/src/policy.rs PolicyDecision *)
Inductive PolicyDecision := Allow | Ask | Deny | Block.
#[global] Instance PolicyDecision_eq_dec : EqDecision PolicyDecision.
Proof. solve_decision. Defined.
End PolicyDecision.
Abbreviation PolicyDecision := PolicyDecision.PolicyDecision.

Module PolicyBlockDisposition.
(*@ core/src/policy.rs PolicyBlockDisposition *)
Inductive PolicyBlockDisposition := Recoverable | Terminal.
#[global] Instance PolicyBlockDisposition_eq_dec : EqDecision PolicyBlockDisposition.
Proof. solve_decision. Defined.
End PolicyBlockDisposition.
Abbreviation PolicyBlockDisposition := PolicyBlockDisposition.PolicyBlockDisposition.

(*@ core/src/policy.rs PolicyEvaluation *)
Record PolicyEvaluation := mkPolicyEvaluation {
  pe_policy_ref : PolicyId;
  pe_subject : string;
  pe_action : string;
  pe_resource : string;
  pe_decision : PolicyDecision;
  pe_block_disposition : option PolicyBlockDisposition;
  pe_reason : string;
  pe_evidence_refs : list EvidenceId;
}.

(*@ core/src/policy.rs PolicyEvaluation::effective_block_disposition *)
Definition effective_block_disposition (e : PolicyEvaluation) : option PolicyBlockDisposition :=
  if bool_decide (pe_decision e = PolicyDecision.Block)
  then Some (default PolicyBlockDisposition.Terminal (pe_block_disposition e))
  else None.

(** ** Tools *)

Module SideEffectType.
(*@ core/src/tool.rs SideEffectType *)
Inductive SideEffectType := None | File | Process | Network | ExternalSystem.
#[global] Instance SideEffectType_eq_dec : EqDecision SideEffectType.
Proof. solve_decision. Defined.
End SideEffectType.
Abbreviation SideEffectType := SideEffectType.SideEffectType.

Module InterruptedToolAction.
(*@ core/src/tool.rs InterruptedToolAction *)
Inductive InterruptedToolAction := ReplaySafe | ReconcileBeforeRetry | ReplayForbidden.
#[global] Instance InterruptedToolAction_eq_dec : EqDecision InterruptedToolAction.
Proof. solve_decision. Defined.
End InterruptedToolAction.
Abbreviation InterruptedToolAction := InterruptedToolAction.InterruptedToolAction.

(*@ core/src/tool.rs ToolRecoveryPolicy *)
Record ToolRecoveryPolicy := mkToolRecoveryPolicy {
  side_effect_type : SideEffectType;
  idempotency_key_policy : string;
  retry_policy : string;
  interrupted_action : InterruptedToolAction;
}.
#[global] Instance ToolRecoveryPolicy_eq_dec : EqDecision ToolRecoveryPolicy.
Proof. solve_decision. Defined.

(*@ core/src/tool.rs ToolRecoveryPolicy::for_side_effect *)
Definition for_side_effect (t : SideEffectType) : ToolRecoveryPolicy :=
  let '(key, action) :=
    match t with
    | SideEffectType.None => ("not_required", InterruptedToolAction.ReplaySafe)
    | SideEffectType.File | SideEffectType.Process =>
        ("required_for_retry", InterruptedToolAction.ReconcileBeforeRetry)
    | SideEffectType.Network | SideEffectType.ExternalSystem =>
        ("blocked", InterruptedToolAction.ReplayForbidden)
    end in
  {| side_effect_type := t;
     idempotency_key_policy := key;
     retry_policy := if bool_decide (t = SideEffectType.None) then "retry_allowed"
                     else "no_implicit_retry_for_side_effects";
     interrupted_action := action |}.

(*@ core/src/tool.rs ToolRecoveryPolicy::side_effect_possible *)
Definition side_effect_possible (p : ToolRecoveryPolicy) : bool :=
  match side_effect_type p with SideEffectType.None => false | _ => true end.

(*@ core/src/tool.rs Default::default for ToolRecoveryPolicy *)
Definition default_tool_recovery_policy : ToolRecoveryPolicy :=
  for_side_effect SideEffectType.ExternalSystem.

Module ToolResultStatus.
(*@ core/src/tool.rs ToolResultStatus *)
Inductive ToolResultStatus := Ok | Error | Blocked | Cancelled | Timeout.
#[global] Instance ToolResultStatus_eq_dec : EqDecision ToolResultStatus.
Proof. solve_decision. Defined.
End ToolResultStatus.
Abbreviation ToolResultStatus := ToolResultStatus.ToolResultStatus.

(*@ core/src/tool.rs ToolResultEnvelope *)
Record ToolResultEnvelope := mkToolResultEnvelope {
  env_tool_call_id : ToolCallId;
  env_tool_name : string;
  env_status : ToolResultStatus;
  env_summary : string;
  structured_facts : json;
  model_visible_excerpt : option string;
  raw_artifact_ref : option ArtifactId;
  env_evidence_refs : list EvidenceId;
  env_risk : string;
  verification_hint : option string;
}.

(** ** Verification records *)

Module VerificationResult.
(*@ core/src/verification.rs VerificationResult *)
Inductive VerificationResult := Pass | Fail | Partial | Unknown.
#[global] Instance VerificationResult_eq_dec : EqDecision VerificationResult.
Proof. solve_decision. Defined.
End VerificationResult.
Abbreviation VerificationResult := VerificationResult.VerificationResult.

Module VerificationSource.
(*@ core/src/verification.rs VerificationSource *)
Inductive VerificationSource := Runtime | ExternalVerifier | Mixed.
#[global] Instance VerificationSource_eq_dec : EqDecision VerificationSource.
Proof. solve_decision. Defined.
End VerificationSource.
Abbreviation VerificationSource := VerificationSource.VerificationSource.

Module VerificationIndependence.
(*@ core/src/verification.rs VerificationIndependence *)
Inductive VerificationIndependence := Unspecified | RuntimeEvidence | Independent.
#[global] Instance VerificationIndependence_eq_dec : EqDecision VerificationIndependence.
Proof. solve_decision. Defined.
End VerificationIndependence.
Abbreviation VerificationIndependence := VerificationIndependence.VerificationIndependence.

Module VerificationCheckKind.
(*@ core/src/verification.rs VerificationCheckKind *)
Inductive VerificationCheckKind :=
| ToolExecution | WorkspaceChange | ObjectiveValidation | AssistantResponse | Schema | Policy.
#[global] Instance VerificationCheckKind_eq_dec : EqDecision VerificationCheckKind.
Proof. solve_decision. Defined.
End VerificationCheckKind.
Abbreviation VerificationCheckKind := VerificationCheckKind.VerificationCheckKind.

(*@ core/src/verification.rs VerificationCheck *)
Record VerificationCheck := mkVerificationCheck {
  check_kind : VerificationCheckKind;
  check_name : string;
  check_command : option string;
  check_passed : bool;
  check_evidence_refs : list EvidenceId;
  check_message : string;
}.
#[global] Instance VerificationCheck_eq_dec : EqDecision VerificationCheck.
Proof. solve_decision. Defined.

(*@ core/src/verification.rs infer_legacy_verification_check_kind *)
Definition infer_legacy_verification_check_kind (name : string) : VerificationCheckKind :=
  if bool_decide (name = "assistant_response") then VerificationCheckKind.AssistantResponse
  else if starts_with "output_schema" name then VerificationCheckKind.Schema
  else if bool_decide (name = "workspace_diff") then VerificationCheckKind.WorkspaceChange
  else if starts_with "objective:" name then VerificationCheckKind.ObjectiveValidation
  else if starts_with "tool:" name then VerificationCheckKind.ToolExecution
  else if starts_with "policy:" name then VerificationCheckKind.Policy
  else VerificationCheckKind.ObjectiveValidation.

Module TaskClass.
(*@ core/src/governance.rs TaskClass *)
Inductive TaskClass := PlainConversation | ReadOnlyAnalysis | WorkspaceChange | CodeChange.
#[global] Instance TaskClass_eq_dec : EqDecision TaskClass.
Proof. solve_decision. Defined.
End TaskClass.
Abbreviation TaskClass := TaskClass.TaskClass.

Module VerificationAssertionKind.
(*@ core/src/governance.rs VerificationAssertionKind *)
Inductive VerificationAssertionKind :=
| FileState | Diff | CommandExit | Test | Diagnostic | Schema | Policy | Delivery
| AssistantResponse.
#[global] Instance VerificationAssertionKind_eq_dec : EqDecision VerificationAssertionKind.
Proof. solve_decision. Defined.
End VerificationAssertionKind.
Abbreviation VerificationAssertionKind := VerificationAssertionKind.VerificationAssertionKind.

Module VerificationAssertionStatus.
(*@ core/src/governance.rs VerificationAssertionStatus *)
Inductive VerificationAssertionStatus := Pending | Pass | Fail | Unknown | NotApplicable.
#[global] Instance VerificationAssertionStatus_eq_dec : EqDecision VerificationAssertionStatus.
Proof. solve_decision. Defined.
End VerificationAssertionStatus.
Abbreviation VerificationAssertionStatus :=
  VerificationAssertionStatus.VerificationAssertionStatus.

(*@ core/src/governance.rs VerificationAssertion *)
Record VerificationAssertion := mkVerificationAssertion {
  assertion_id : VerificationAssertionId;
  criterion_id : string;
  assertion_kind : VerificationAssertionKind;
  assertion_subject : string;
  assertion_expected : string;
  verifier_id : string;
  required_evidence_strength : string;
  assertion_blocking : bool;
  assertion_status_field : VerificationAssertionStatus;
  assertion_evidence_refs : list EvidenceId;
  assertion_message : string;
}.
#[global] Instance VerificationAssertion_eq_dec : EqDecision VerificationAssertion.
Proof. solve_decision. Defined.

Module VerificationDimensionStatus.
(*@ core/src/governance.rs VerificationDimensionStatus *)
Inductive VerificationDimensionStatus := Pass | Fail | Partial | Unknown.
#[global] Instance VerificationDimensionStatus_eq_dec : EqDecision VerificationDimensionStatus.
Proof. solve_decision. Defined.
End VerificationDimensionStatus.
Abbreviation VerificationDimensionStatus :=
  VerificationDimensionStatus.VerificationDimensionStatus.

(*@ core/src/verification.rs VerificationRecord *)
Record VerificationRecord := mkVerificationRecord {
  vr_verification_id : VerificationId;
  vr_task_id : TaskId;
  vr_objective : string;
  vr_completion_criteria : list string;
  vr_checks : list VerificationCheck;
  vr_evidence_refs : list EvidenceId;
  vr_result : VerificationResult;
  vr_policy_status : string;
  vr_residual_risks : list string;
  vr_plan_id : option VerificationPlanId;
  vr_assertions : list VerificationAssertion;
  vr_source : VerificationSource;
  vr_independence : VerificationIndependence;
  vr_environment_digest : option string;
}.

(** ** Loop control *)

Module LoopAction.
(*@ core/src/loop_control.rs LoopAction *)
Inductive LoopAction :=
| Continue | Compact | Retry | Fallback | AskUser | Verify | StopSuccess | StopPartial
| StopFailed | Blocked.
#[global] Instance LoopAction_eq_dec : EqDecision LoopAction.
Proof. solve_decision. Defined.
End LoopAction.
Abbreviation LoopAction := LoopAction.LoopAction.

(*@ core/src/loop_control.rs BudgetState *)
Record LoopBudgetState := mkLoopBudgetState {
  lbs_planned_input_tokens : option N;
  lbs_actual_input_tokens : option N;
  lbs_output_tokens : option N;
  lbs_total_tokens : option N;
  lbs_estimated_cost : option string;
  lbs_budget_remaining : option N;
  lbs_compact_recommended : bool;
  lbs_cost_risk : string;
}.

(*@ core/src/loop_control.rs LoopDecision *)
Record LoopDecision := mkLoopDecision {
  ld_decision_id : LoopDecisionId;
  ld_task_id : TaskId;
  ld_turn_id : TurnId;
  ld_action : LoopAction;
  ld_reason : string;
  ld_evidence_refs : list EvidenceId;
  ld_verification_ref : option VerificationId;
  ld_policy_ref : option PolicyId;
  ld_budget_state : LoopBudgetState;
  ld_tool_state : string;
  ld_model_state : string;
  ld_next_step : option string;
}.

Module ContinuationReason.
(*@ core/src/loop_control.rs ContinuationReason *)
Inductive ContinuationReason :=
| VerificationFailed | MissingArtifact | ToolFailed | ProviderRetry | ContextCompaction
| UserSteer | BudgetExhausted.
#[global] Instance ContinuationReason_eq_dec : EqDecision ContinuationReason.
Proof. solve_decision. Defined.
End ContinuationReason.
Abbreviation ContinuationReason := ContinuationReason.ContinuationReason.

Module TurnPhase.
(*@ core/src/loop_control.rs TurnPhase *)
Inductive TurnPhase :=
| Running | CandidateReady | VerificationReady | Verifying | Correcting | Terminal.
#[global] Instance TurnPhase_eq_dec : EqDecision TurnPhase.
Proof. solve_decision. Defined.
End TurnPhase.
Abbreviation TurnPhase := TurnPhase.TurnPhase.

(*@ core/src/loop_control.rs TurnState *)
Record TurnState := mkTurnState {
  ts_turn_id : TurnId;
  ts_phase : TurnPhase;
  ts_correction_attempt : N;
  ts_last_verification_id : option VerificationId;
  ts_continuation_reason : option ContinuationReason;
}.

(*@ core/src/loop_control.rs CorrectionEnvelope *)
Record CorrectionEnvelope := mkCorrectionEnvelope {
  ce_verification_id : VerificationId;
  ce_attempt : N;
  ce_remaining_attempts : option N;
  ce_failed_requirements : list string;
  ce_evidence_refs : list EvidenceId;
  ce_requested_action : string;
}.

(** ** First facts *)

(** A legacy blocked record without a disposition is terminal. *)
Lemma block_disposition_defaults_terminal e :
  pe_decision e = PolicyDecision.Block -> pe_block_disposition e = None ->
  effective_block_disposition e = Some PolicyBlockDisposition.Terminal.
Proof. unfold effective_block_disposition. by intros -> ->. Qed.

(** Only a tool without side effects may be replayed or retried implicitly. *)
Lemma replay_safe_iff_no_side_effect t :
  interrupted_action (for_side_effect t) = InterruptedToolAction.ReplaySafe
  <-> side_effect_possible (for_side_effect t) = false.
Proof. by destruct t. Qed.
