(* ===== verification/Events.v ===== *)
(** * Runtime events

    [golutra-agent-protocol/src/event.rs]: the event types of the durable
    ledger, their semantic class, and the two allow-lists that decide which
    facts reach the model's history and the ordinary user projection. *)
From S2P Require Import Prelude RustStr Core.
Open Scope N_scope.

Module RuntimeEventSource.
(*@ protocol/src/event.rs RuntimeEventSource *)
Inductive RuntimeEventSource :=
| Runtime | Provider | Tool | Policy | Verifier | Memory | Evaluator | Governor | Evolution | User.
#[global] Instance RuntimeEventSource_eq_dec : EqDecision RuntimeEventSource.
Proof. solve_decision. Defined.
End RuntimeEventSource.
Abbreviation RuntimeEventSource := RuntimeEventSource.RuntimeEventSource.

Module RuntimeEventClass.
(*@ protocol/src/event.rs RuntimeEventClass *)
Inductive RuntimeEventClass := Control | Execution | Memory | Evaluation | Governance.
#[global] Instance RuntimeEventClass_eq_dec : EqDecision RuntimeEventClass.
Proof. solve_decision. Defined.
End RuntimeEventClass.
Abbreviation RuntimeEventClass := RuntimeEventClass.RuntimeEventClass.

Module RuntimeEventType.
(*@ protocol/src/event.rs RuntimeEventType *)
Inductive RuntimeEventType :=
  | CommandReceived | CommandCompleted | CommandAccepted | CommandRejected | SessionCreated
  | ThreadForked | ThreadRebound | ThreadRenamed | ThreadArchived | ThreadDeleted
  | TaskCreated | TurnStarted | StepStarted | StepCompleted | StepCheckpointed | TurnQueued
  | TurnUpdated | TurnCancelled | BusyPolicyDecided | ControllerChanged | ContextBuilt
  | ProviderStarted | ProviderStreamed | ProviderCompleted | ProviderFailed
  | TokenUsageRecorded | AssistantMessage | UserStep | ToolStarted | ToolProgress
  | ToolCompleted | ProcessUpdated | SubagentUpdated | PolicyEvaluated
  | VerificationCompleted | LoopDecided | CheckpointCreated | TaskCompleted
  | TaskAbortRequested | TaskAborted | TaskInterrupted | TaskUncertain | TaskReconciled
  | TaskPaused | TaskResumed | ApprovalRequested | ApprovalResolved | UserQuestionRequested
  | UserQuestionResolved | RetryScheduled | ProviderFallback | ProviderTransportFallback
  | ProviderAuthRequired | ProviderAuthSubmitted | ProviderAuthCancelled
  | ProviderConfigured | ProviderProbeStarted | ProviderProbeCompleted | ProviderAuthFailed
  | ProviderRateLimited | ProviderCredentialRefreshed | LoopGuardTriggered
  | CompactionStarted | CompactionCompleted | CompactionFailed | MemoryRetrieved
  | MemoryPromoted | MemoryPromotionRejected | MemoryRolledBack | MemoryFeedbackRecorded
  | PostTaskReviewed | EvaluationCompleted | ImprovementCandidateCreated
  | AutomationCandidateCreated | CandidatePatchFrozen | RegressionBlocked
  | RegressionCompleted | PromotionDecided | CandidateApplied | CandidateRolledBack
  | BenchmarkRecorded | CounterfactualCompared | EvolutionPlanned | EvolutionTaskStarted
  | EvolutionTaskCompleted | EvolutionCompleted | SkillStaged | SkillReviewed
  | SkillInstalled | SkillRolledBack | GovernorDecided | StorageMaintenanceCompleted
  | ContextSnapshotCreated | PostTaskJobQueued | PostTaskJobStarted | PostTaskJobCompleted
  | PostTaskJobFailed | PostTaskStageFailed | VerificationPlanned
  | VerificationAssertionCompleted | ContinuationDecided | RegressionCampaignStarted
  | RegressionExecutionCompleted | MemoryCandidateQuarantined | MemoryActivated
  | MemoryInvalidated | FailureDiagnosed | FailureEpisodeRecorded | DiagnosticSliceCreated
  | ReplayCapsuleCreated | ReplayExecuted | ExternalEvaluationIngested
  | ExternalEvaluationCompared | CandidateReady | VerificationReady
  | ExternalVerificationRequested | ExternalVerificationFeedback.

Definition all : list RuntimeEventType :=
  [CommandReceived; CommandCompleted; CommandAccepted; CommandRejected; SessionCreated;
   ThreadForked; ThreadRebound; ThreadRenamed; ThreadArchived; ThreadDeleted; TaskCreated;
   TurnStarted; StepStarted; StepCompleted; StepCheckpointed; TurnQueued; TurnUpdated;
   TurnCancelled; BusyPolicyDecided; ControllerChanged; ContextBuilt; ProviderStarted;
   ProviderStreamed; ProviderCompleted; ProviderFailed; TokenUsageRecorded;
   AssistantMessage; UserStep; ToolStarted; ToolProgress; ToolCompleted; ProcessUpdated;
   SubagentUpdated; PolicyEvaluated; VerificationCompleted; LoopDecided;
   CheckpointCreated; TaskCompleted; TaskAbortRequested; TaskAborted; TaskInterrupted;
   TaskUncertain; TaskReconciled; TaskPaused; TaskResumed; ApprovalRequested;
   ApprovalResolved; UserQuestionRequested; UserQuestionResolved; RetryScheduled;
   ProviderFallback; ProviderTransportFallback; ProviderAuthRequired;
   ProviderAuthSubmitted; ProviderAuthCancelled; ProviderConfigured; ProviderProbeStarted;
   ProviderProbeCompleted; ProviderAuthFailed; ProviderRateLimited;
   ProviderCredentialRefreshed; LoopGuardTriggered; CompactionStarted;
   CompactionCompleted; CompactionFailed; MemoryRetrieved; MemoryPromoted;
   MemoryPromotionRejected; MemoryRolledBack; MemoryFeedbackRecorded; PostTaskReviewed;
   EvaluationCompleted; ImprovementCandidateCreated; AutomationCandidateCreated;
   CandidatePatchFrozen; RegressionBlocked; RegressionCompleted; PromotionDecided;
   CandidateApplied; CandidateRolledBack; BenchmarkRecorded; CounterfactualCompared;
   EvolutionPlanned; EvolutionTaskStarted; EvolutionTaskCompleted; EvolutionCompleted;
   SkillStaged; SkillReviewed; SkillInstalled; SkillRolledBack; GovernorDecided;
   StorageMaintenanceCompleted; ContextSnapshotCreated; PostTaskJobQueued;
   PostTaskJobStarted; PostTaskJobCompleted; PostTaskJobFailed; PostTaskStageFailed;
   VerificationPlanned; VerificationAssertionCompleted; ContinuationDecided;
   RegressionCampaignStarted; RegressionExecutionCompleted; MemoryCandidateQuarantined;
   MemoryActivated; MemoryInvalidated; FailureDiagnosed; FailureEpisodeRecorded;
   DiagnosticSliceCreated; ReplayCapsuleCreated; ReplayExecuted;
   ExternalEvaluationIngested; ExternalEvaluationCompared; CandidateReady;
   VerificationReady; ExternalVerificationRequested; ExternalVerificationFeedback].


(** The declaration order, used only to decide equality cheaply. *)
Definition tag (e : RuntimeEventType) : N :=
  match e with
  | CommandReceived => 0
  | CommandCompleted => 1
  | CommandAccepted => 2
  | CommandRejected => 3
  | SessionCreated => 4
  | ThreadForked => 5
  | ThreadRebound => 6
  | ThreadRenamed => 7
  | ThreadArchived => 8
  | ThreadDeleted => 9
  | TaskCreated => 10
  | TurnStarted => 11
  | StepStarted => 12
  | StepCompleted => 13
  | StepCheckpointed => 14
  | TurnQueued => 15
  | TurnUpdated => 16
  | TurnCancelled => 17
  | BusyPolicyDecided => 18
  | ControllerChanged => 19
  | ContextBuilt => 20
  | ProviderStarted => 21
  | ProviderStreamed => 22
  | ProviderCompleted => 23
  | ProviderFailed => 24
  | TokenUsageRecorded => 25
  | AssistantMessage => 26
  | UserStep => 27
  | ToolStarted => 28
  | ToolProgress => 29
  | ToolCompleted => 30
  | ProcessUpdated => 31
  | SubagentUpdated => 32
  | PolicyEvaluated => 33
  | VerificationCompleted => 34
  | LoopDecided => 35
  | CheckpointCreated => 36
  | TaskCompleted => 37
  | TaskAbortRequested => 38
  | TaskAborted => 39
  | TaskInterrupted => 40
  | TaskUncertain => 41
  | TaskReconciled => 42
  | TaskPaused => 43
  | TaskResumed => 44
  | ApprovalRequested => 45
  | ApprovalResolved => 46
  | UserQuestionRequested => 47
  | UserQuestionResolved => 48
  | RetryScheduled => 49
  | ProviderFallback => 50
  | ProviderTransportFallback => 51
  | ProviderAuthRequired => 52
  | ProviderAuthSubmitted => 53
  | ProviderAuthCancelled => 54
  | ProviderConfigured => 55
  | ProviderProbeStarted => 56
  | ProviderProbeCompleted => 57
  | ProviderAuthFailed => 58
  | ProviderRateLimited => 59
  | ProviderCredentialRefreshed => 60
  | LoopGuardTriggered => 61
  | CompactionStarted => 62
  | CompactionCompleted => 63
  | CompactionFailed => 64
  | MemoryRetrieved => 65
  | MemoryPromoted => 66
  | MemoryPromotionRejected => 67
  | MemoryRolledBack => 68
  | MemoryFeedbackRecorded => 69
  | PostTaskReviewed => 70
  | EvaluationCompleted => 71
  | ImprovementCandidateCreated => 72
  | AutomationCandidateCreated => 73
  | CandidatePatchFrozen => 74
  | RegressionBlocked => 75
  | RegressionCompleted => 76
  | PromotionDecided => 77
  | CandidateApplied => 78
  | CandidateRolledBack => 79
  | BenchmarkRecorded => 80
  | CounterfactualCompared => 81
  | EvolutionPlanned => 82
  | EvolutionTaskStarted => 83
  | EvolutionTaskCompleted => 84
  | EvolutionCompleted => 85
  | SkillStaged => 86
  | SkillReviewed => 87
  | SkillInstalled => 88
  | SkillRolledBack => 89
  | GovernorDecided => 90
  | StorageMaintenanceCompleted => 91
  | ContextSnapshotCreated => 92
  | PostTaskJobQueued => 93
  | PostTaskJobStarted => 94
  | PostTaskJobCompleted => 95
  | PostTaskJobFailed => 96
  | PostTaskStageFailed => 97
  | VerificationPlanned => 98
  | VerificationAssertionCompleted => 99
  | ContinuationDecided => 100
  | RegressionCampaignStarted => 101
  | RegressionExecutionCompleted => 102
  | MemoryCandidateQuarantined => 103
  | MemoryActivated => 104
  | MemoryInvalidated => 105
  | FailureDiagnosed => 106
  | FailureEpisodeRecorded => 107
  | DiagnosticSliceCreated => 108
  | ReplayCapsuleCreated => 109
  | ReplayExecuted => 110
  | ExternalEvaluationIngested => 111
  | ExternalEvaluationCompared => 112
  | CandidateReady => 113
  | VerificationReady => 114
  | ExternalVerificationRequested => 115
  | ExternalVerificationFeedback => 116
  end.
Lemma tag_inj e e' : tag e = tag e' -> e = e'.
Proof.
  assert (H : forall x, x = nth (N.to_nat (tag x)) all CommandReceived) by (by intros []).
  intros E. rewrite (H e), (H e'). by rewrite E.
Qed.
#[global] Instance RuntimeEventType_eq_dec : EqDecision RuntimeEventType.
Proof.
  intros e e'. destruct (decide (tag e = tag e')) as [E|E].
  - left. by apply tag_inj.
  - right. by intros ->.
Defined.

(*@ protocol/src/event.rs RuntimeEventType::class *)
Definition class (e : RuntimeEventType) : RuntimeEventClass :=
  match e with
  | CommandReceived | CommandCompleted | CommandAccepted | CommandRejected | SessionCreated
  | ThreadForked | ThreadRebound | ThreadRenamed | ThreadArchived | ThreadDeleted
  | TaskCreated | TurnStarted | TurnQueued | TurnUpdated | TurnCancelled | BusyPolicyDecided
  | ControllerChanged | CheckpointCreated | TaskCompleted | TaskAbortRequested | TaskAborted
  | TaskInterrupted | TaskUncertain | TaskReconciled | TaskPaused | TaskResumed
  | ApprovalRequested | ApprovalResolved | UserQuestionRequested | UserQuestionResolved
  | ProviderAuthRequired | ProviderAuthSubmitted | ProviderAuthCancelled
  | ProviderConfigured | ProviderProbeStarted | ProviderProbeCompleted | ProviderAuthFailed
  | ProviderRateLimited | ProviderCredentialRefreshed | StorageMaintenanceCompleted
      => RuntimeEventClass.Control
  | MemoryRetrieved | MemoryPromoted | MemoryPromotionRejected | MemoryRolledBack
  | MemoryFeedbackRecorded | MemoryCandidateQuarantined | MemoryActivated
  | MemoryInvalidated
      => RuntimeEventClass.Memory
  | PostTaskReviewed | EvaluationCompleted | BenchmarkRecorded | CounterfactualCompared
  | PostTaskJobQueued | PostTaskJobStarted | PostTaskJobCompleted | PostTaskJobFailed
  | PostTaskStageFailed | FailureDiagnosed | FailureEpisodeRecorded | DiagnosticSliceCreated
  | ReplayCapsuleCreated | ReplayExecuted | ExternalEvaluationIngested
  | ExternalEvaluationCompared | ExternalVerificationFeedback | RegressionCampaignStarted
  | RegressionExecutionCompleted
      => RuntimeEventClass.Evaluation
  | ImprovementCandidateCreated | AutomationCandidateCreated | CandidatePatchFrozen
  | RegressionBlocked | RegressionCompleted | PromotionDecided | CandidateApplied
  | CandidateRolledBack | EvolutionPlanned | EvolutionTaskStarted | EvolutionTaskCompleted
  | EvolutionCompleted | SkillStaged | SkillReviewed | SkillInstalled | SkillRolledBack
      => RuntimeEventClass.Governance
  | StepStarted | StepCompleted | StepCheckpointed | ContextBuilt | ProviderStarted
  | ProviderStreamed | ProviderCompleted | ProviderFailed | TokenUsageRecorded
  | AssistantMessage | UserStep | ToolStarted | ToolProgress | ToolCompleted
  | ProcessUpdated | SubagentUpdated | PolicyEvaluated | VerificationCompleted | LoopDecided
  | RetryScheduled | ProviderFallback | ProviderTransportFallback | LoopGuardTriggered
  | CompactionStarted | CompactionCompleted | CompactionFailed | GovernorDecided
  | ContextSnapshotCreated | VerificationPlanned | VerificationAssertionCompleted
  | ContinuationDecided
      => RuntimeEventClass.Execution
  | CandidateReady | VerificationReady | ExternalVerificationRequested
      => RuntimeEventClass.Execution
  end.

(*@ protocol/src/event.rs RuntimeEventType::is_model_history_fact *)
Definition is_model_history_fact (e : RuntimeEventType) : bool :=
  match e with
  | TaskCreated | TurnQueued | TurnUpdated | AssistantMessage | ToolCompleted
  | SubagentUpdated | TaskCompleted | TaskAborted | TaskInterrupted | TaskUncertain
  | CandidateReady | VerificationReady => true
  | _ => false
  end.

(*@ protocol/src/event.rs RuntimeEventType::is_user_projection_fact *)
Definition is_user_projection_fact (e : RuntimeEventType) : bool :=
  match e with
  | TaskCreated | TurnStarted | TurnQueued | TurnUpdated | TurnCancelled | TaskCompleted
  | TaskAbortRequested | TaskAborted | TaskInterrupted | TaskUncertain | TaskReconciled
  | TaskPaused | TaskResumed | ApprovalRequested | ApprovalResolved | UserQuestionRequested
  | UserQuestionResolved | ProviderStarted | ProviderCompleted | ProviderFailed
  | ProviderFallback | ProviderTransportFallback | ProviderAuthRequired
  | ProviderAuthSubmitted | ProviderAuthCancelled | ProviderRateLimited | AssistantMessage
  | UserStep | ToolStarted | ToolProgress | ProcessUpdated | SubagentUpdated | ToolCompleted
  | VerificationCompleted | LoopDecided | RetryScheduled | CompactionStarted
  | CompactionCompleted | CompactionFailed | ContinuationDecided | CandidateReady
  | VerificationReady | ExternalVerificationRequested => true
  | _ => false
  end.

(*@ protocol/src/event.rs RuntimeEventType::is_task_terminal *)
Definition is_task_terminal (e : RuntimeEventType) : bool :=
  match e with
  | TaskCompleted | TaskAborted | TaskInterrupted | TaskUncertain => true
  | _ => false
  end.

(*@ protocol/src/event.rs RuntimeEventType::for_terminal_status *)
Definition for_terminal_status (s : TaskStatus) : RuntimeEventType :=
  match s with
  | TaskStatus.Cancelled => TaskAborted
  | TaskStatus.Interrupted => TaskInterrupted
  | TaskStatus.Uncertain => TaskUncertain
  | _ => TaskCompleted
  end.
End RuntimeEventType.
Abbreviation RuntimeEventType := RuntimeEventType.RuntimeEventType.

(** The envelope of a ledger fact. [P] is the JSON payload, either a [json]
    value or the typed value it is built from; the causal metadata, which no
    operation modelled here reads, is left out. *)
(*@ protocol/src/event.rs RuntimeEvent *)
Record RuntimeEvent (P : Type) := mkEvent {
  ev_schema_version : N;
  ev_id : EventId;
  ev_sequence_no : N;
  ev_session_id : SessionId;
  ev_turn_id : option TurnId;
  ev_task_id : option TaskId;
  ev_parent_event_id : option EventId;
  ev_event_type : RuntimeEventType;
  ev_timestamp : Timestamp;
  ev_source : RuntimeEventSource;
  ev_payload : P;
  ev_payload_ref : option ArtifactId;
  ev_durable : bool;
}.
Arguments mkEvent {P}.
Arguments ev_schema_version {P}.
Arguments ev_id {P}.
Arguments ev_sequence_no {P}.
Arguments ev_session_id {P}.
Arguments ev_turn_id {P}.
Arguments ev_task_id {P}.
Arguments ev_parent_event_id {P}.
Arguments ev_event_type {P}.
Arguments ev_timestamp {P}.
Arguments ev_source {P}.
Arguments ev_payload {P}.
Arguments ev_payload_ref {P}.
Arguments ev_durable {P}.

(** [RUNTIME_EVENT_SCHEMA_VERSION] and [new_runtime_event_schema_version]. *)
(*@ protocol/src/event.rs new_runtime_event_schema_version *)
Definition new_runtime_event_schema_version : N := 3.
