(* ===== verification/Lane.v ===== *)
(** * The runtime lane state machine

    [golutra-agent-runtime/src/lane.rs]: one lane per session, owned by one
    active task; the operations that start, queue, pause, abort and finish it,
    and the two-phase start of a queued turn. The manager's map is a [gmap];
    [LaneId::new()], [EventId::new()], [TurnId::default()] and [Utc::now()] are
    the fields of the [Fresh] argument. Every operation checks before it
    writes, so an [Err] leaves the manager as it was. *)
From S2P Require Import Prelude RustStr Core Events.
Open Scope N_scope.

Module RuntimeLaneError.
(*@ runtime/src/lane.rs RuntimeLaneError *)
Inductive RuntimeLaneError :=
| ActiveTaskExists | LaneNotFound | QueuedTurnNotPending | NonActiveController.
#[global] Instance RuntimeLaneError_eq_dec : EqDecision RuntimeLaneError.
Proof. solve_decision. Defined.
End RuntimeLaneError.
Abbreviation RuntimeLaneError := RuntimeLaneError.RuntimeLaneError.

(** What an operation draws from the environment. *)
Record Fresh := mkFresh {
  fresh_lane : LaneId;
  fresh_event : EventId;
  fresh_turn : TurnId;
  fresh_decision : DecisionId;
  fresh_now : Timestamp;
}.

(** The JSON object [lane_event] builds; [takeover] adds [previous_controller]. *)
Record LanePayload := mkLanePayload {
  lp_summary : string;
  lp_lane_id : LaneId;
  lp_status : TaskStatus;
  lp_active_controller : Actor;
  lp_runtime_lane : RuntimeLane;
  lp_previous_controller : option Actor;
}.

(*@ runtime/src/lane.rs RuntimeTransition *)
Record RuntimeTransition := mkTransition {
  tr_lane : RuntimeLane;
  tr_event : RuntimeEvent LanePayload;
}.

(*@ runtime/src/lane.rs RuntimeLaneManager *)
Record RuntimeLaneManager := mkManager { lanes_by_session : gmap SessionId RuntimeLane }.

(*@ runtime/src/lane.rs RuntimeLaneManager::new *)
Definition new_manager : RuntimeLaneManager := mkManager ∅.

(*@ runtime/src/lane.rs is_active_status *)
Definition is_active_status (s : TaskStatus) : bool := TaskStatus.is_active s.

(*@ runtime/src/lane.rs lane_event *)
Definition lane_event (fr : Fresh) (lane : RuntimeLane) (turn_id : TurnId) (sequence_no : N)
    (event_type : RuntimeEventType) (summary : string) : RuntimeEvent LanePayload :=
  {| ev_schema_version := new_runtime_event_schema_version;
     ev_id := fresh_event fr;
     ev_sequence_no := sequence_no;
     ev_session_id := lane_session_id lane;
     ev_turn_id := Some turn_id;
     ev_task_id := Some (lane_task_id lane);
     ev_parent_event_id := None;
     ev_event_type := event_type;
     ev_timestamp := fresh_now fr;
     ev_source := RuntimeEventSource.Runtime;
     ev_payload := {| lp_summary := summary;
                      lp_lane_id := lane_id lane;
                      lp_status := lane_status lane;
                      lp_active_controller := active_controller lane;
                      lp_runtime_lane := lane;
                      lp_previous_controller := None |};
     ev_payload_ref := None;
     ev_durable := true |}.

(** Field updates of a lane and of the manager's map ([get_mut]). *)
Definition with_status (s : TaskStatus) (l : RuntimeLane) : RuntimeLane :=
  {| lane_id := lane_id l; lane_workspace_id := lane_workspace_id l;
     lane_session_id := lane_session_id l; lane_task_id := lane_task_id l;
     active_turn_id := active_turn_id l; active_controller := active_controller l;
     lane_status := s; pending_turns := pending_turns l;
     injected_inputs := injected_inputs l; busy_policy_default := busy_policy_default l |}.
Definition with_controller (a : Actor) (l : RuntimeLane) : RuntimeLane :=
  {| lane_id := lane_id l; lane_workspace_id := lane_workspace_id l;
     lane_session_id := lane_session_id l; lane_task_id := lane_task_id l;
     active_turn_id := active_turn_id l; active_controller := a;
     lane_status := lane_status l; pending_turns := pending_turns l;
     injected_inputs := injected_inputs l; busy_policy_default := busy_policy_default l |}.
Definition with_turns (t : option TurnId) (ts : list TurnId) (l : RuntimeLane) : RuntimeLane :=
  {| lane_id := lane_id l; lane_workspace_id := lane_workspace_id l;
     lane_session_id := lane_session_id l; lane_task_id := lane_task_id l;
     active_turn_id := t; active_controller := active_controller l;
     lane_status := lane_status l; pending_turns := ts;
     injected_inputs := injected_inputs l; busy_policy_default := busy_policy_default l |}.

Definition put (m : RuntimeLaneManager) (s : SessionId) (l : RuntimeLane) : RuntimeLaneManager :=
  mkManager (<[s := l]> (lanes_by_session m)).

(*@ runtime/src/lane.rs RuntimeLaneManager::lane *)
Definition lane (m : RuntimeLaneManager) (s : SessionId) : option RuntimeLane :=
  lanes_by_session m !! s.

(** [self.lanes_by_session.get(&session_id).is_some_and(|lane| f(lane.status))]. *)
Definition status_is (m : RuntimeLaneManager) (s : SessionId) (f : TaskStatus -> bool) : bool :=
  is_some_and (fun l => f (lane_status l)) (lane m s).

(*@ runtime/src/lane.rs RuntimeLaneManager::start_task *)
Definition start_task (fr : Fresh) (m : RuntimeLaneManager) (workspace_id : WorkspaceId)
    (session_id : SessionId) (task_id : TaskId) (turn_id : TurnId) (controller : Actor)
    (sequence_no : N) : result RuntimeLaneError (RuntimeLaneManager * RuntimeTransition) :=
  if status_is m session_id is_active_status then Err RuntimeLaneError.ActiveTaskExists
  else
    let l := {| lane_id := fresh_lane fr;
                lane_workspace_id := workspace_id;
                lane_session_id := session_id;
                lane_task_id := task_id;
                active_turn_id := Some turn_id;
                active_controller := controller;
                lane_status := TaskStatus.Running;
                pending_turns := [];
                injected_inputs := [];
                busy_policy_default := BusyPolicy.Append |} in
    Ok (put m session_id l,
        mkTransition l (lane_event fr l turn_id sequence_no RuntimeEventType.TaskCreated
                          "runtime lane started task")).

(*@ runtime/src/lane.rs RuntimeLaneManager::decide_busy_policy *)
Definition decide_busy_policy (fr : Fresh) (m : RuntimeLaneManager) (session_id : SessionId)
    (command_id : CommandId) (actor : Actor) (requested_policy : BusyPolicy)
    : result RuntimeLaneError BusyPolicyDecision :=
  let? l := ok_or RuntimeLaneError.LaneNotFound (lane m session_id) in
  let is_active_controller := bool_decide (active_controller l = actor) in
  let '(applied_policy, reason) :=
    if bool_decide (lane_status l = TaskStatus.Aborting) then
      (BusyPolicy.Reject, "active task is aborting and no longer accepts input")
    else if is_active_controller then
      (BusyPolicy.Append, "active controller input is appended to the runtime lane")
    else (BusyPolicy.Reject, "non-active controller cannot drive the active task") in
  Ok {| bpd_decision_id := fresh_decision fr;
        bpd_lane_id := lane_id l;
        bpd_command_id := command_id;
        bpd_requested_policy := requested_policy;
        bpd_applied_policy := applied_policy;
        bpd_reason := reason;
        bpd_safe_to_inject := false;
        bpd_affected_turn_id := active_turn_id l |}.

(*@ runtime/src/lane.rs RuntimeLaneManager::takeover *)
Definition takeover (fr : Fresh) (m : RuntimeLaneManager) (session_id : SessionId)
    (new_controller : Actor) (sequence_no : N)
    : result RuntimeLaneError (RuntimeLaneManager * RuntimeTransition) :=
  let? l := ok_or RuntimeLaneError.LaneNotFound
              (option_filter (fun l => is_active_status (lane_status l)) (lane m session_id)) in
  let previous := active_controller l in
  let l' := with_controller new_controller l in
  let turn_id := default (fresh_turn fr) (active_turn_id l') in
  let e := lane_event fr l' turn_id sequence_no RuntimeEventType.ControllerChanged
             "active runtime controller changed" in
  let p := ev_payload e in
  let e' :=
    {| ev_schema_version := ev_schema_version e; ev_id := ev_id e;
       ev_sequence_no := ev_sequence_no e; ev_session_id := ev_session_id e;
       ev_turn_id := ev_turn_id e; ev_task_id := ev_task_id e;
       ev_parent_event_id := ev_parent_event_id e; ev_event_type := ev_event_type e;
       ev_timestamp := ev_timestamp e; ev_source := ev_source e;
       ev_payload := {| lp_summary := lp_summary p; lp_lane_id := lp_lane_id p;
                        lp_status := lp_status p;
                        lp_active_controller := active_controller l';
                        lp_runtime_lane := lp_runtime_lane p;
                        lp_previous_controller := Some previous |};
       ev_payload_ref := ev_payload_ref e; ev_durable := ev_durable e |} in
  Ok (put m session_id l', mkTransition l' e').

(*@ runtime/src/lane.rs RuntimeLaneManager::queue_turn *)
Definition queue_turn (fr : Fresh) (m : RuntimeLaneManager) (session_id : SessionId)
    (turn_id : TurnId) (sequence_no : N)
    : result RuntimeLaneError (RuntimeLaneManager * RuntimeTransition) :=
  let? l := ok_or RuntimeLaneError.LaneNotFound (lane m session_id) in
  let l' := with_turns (active_turn_id l) (pending_turns l ++ [turn_id]) l in
  Ok (put m session_id l',
      mkTransition l' (lane_event fr l' turn_id sequence_no RuntimeEventType.TurnQueued
                         "user turn queued on active runtime lane")).

(*@ runtime/src/lane.rs RuntimeLaneManager::prepare_queued_turn_start *)
Definition prepare_queued_turn_start (m : RuntimeLaneManager) (session_id : SessionId)
    (turn_id : TurnId) : result RuntimeLaneError LaneId :=
  let? l := ok_or RuntimeLaneError.LaneNotFound (lane m session_id) in
  if bool_decide (turn_id ∈ pending_turns l) then Ok (lane_id l)
  else Err RuntimeLaneError.QueuedTurnNotPending.

(*@ runtime/src/lane.rs RuntimeLaneManager::commit_queued_turn_start *)
Definition commit_queued_turn_start (m : RuntimeLaneManager) (session_id : SessionId)
    (expected : LaneId) (turn_id : TurnId) : result RuntimeLaneError RuntimeLaneManager :=
  let? l := ok_or RuntimeLaneError.LaneNotFound
              (option_filter (fun l => lane_id l =? expected) (lane m session_id)) in
  if bool_decide (turn_id ∈ pending_turns l) then
    Ok (put m session_id (with_turns (Some turn_id) (remove_first turn_id (pending_turns l)) l))
  else Err RuntimeLaneError.QueuedTurnNotPending.

(*@ runtime/src/lane.rs RuntimeLaneManager::start_queued_turn *)
Definition start_queued_turn (m : RuntimeLaneManager) (session_id : SessionId)
    (turn_id : TurnId) : result RuntimeLaneError RuntimeLaneManager :=
  let? expected := prepare_queued_turn_start m session_id turn_id in
  commit_queued_turn_start m session_id expected turn_id.

(*@ runtime/src/lane.rs RuntimeLaneManager::discard_queued_turn *)
Definition discard_queued_turn (m : RuntimeLaneManager) (session_id : SessionId)
    (turn_id : TurnId) : result RuntimeLaneError RuntimeLaneManager :=
  let? l := ok_or RuntimeLaneError.LaneNotFound (lane m session_id) in
  Ok (put m session_id
        (with_turns (active_turn_id l)
           (List.filter (fun p => negb (p =? turn_id)) (pending_turns l)) l)).

(*@ runtime/src/lane.rs RuntimeLaneManager::set_status *)
Definition set_status (fr : Fresh) (m : RuntimeLaneManager) (session_id : SessionId)
    (status : TaskStatus) (sequence_no : N) (event_type : RuntimeEventType)
    : result RuntimeLaneError (RuntimeLaneManager * RuntimeTransition) :=
  let? l := ok_or RuntimeLaneError.LaneNotFound (lane m session_id) in
  let l' := with_status status l in
  let turn_id := default (fresh_turn fr) (active_turn_id l') in
  Ok (put m session_id l',
      mkTransition l' (lane_event fr l' turn_id sequence_no event_type
                         "runtime lane status changed")).

(*@ runtime/src/lane.rs RuntimeLaneManager::abort *)
Definition abort (fr : Fresh) (m : RuntimeLaneManager) (session_id : SessionId)
    (sequence_no : N) : result RuntimeLaneError (RuntimeLaneManager * RuntimeTransition) :=
  if negb (status_is m session_id is_active_status) then Err RuntimeLaneError.LaneNotFound
  else set_status fr m session_id TaskStatus.Aborting sequence_no
         RuntimeEventType.TaskAbortRequested.

(** The statuses [pause] accepts. *)
Definition pausable (s : TaskStatus) : bool :=
  match s with
  | TaskStatus.Running | TaskStatus.WaitingApproval | TaskStatus.WaitingAuthentication
  | TaskStatus.Pausing => true
  | _ => false
  end.

(*@ runtime/src/lane.rs RuntimeLaneManager::pause *)
Definition pause (fr : Fresh) (m : RuntimeLaneManager) (session_id : SessionId)
    (sequence_no : N) : result RuntimeLaneError (RuntimeLaneManager * RuntimeTransition) :=
  if negb (status_is m session_id pausable) then Err RuntimeLaneError.LaneNotFound
  else set_status fr m session_id TaskStatus.Paused sequence_no RuntimeEventType.TaskPaused.

(** The statuses [resume] accepts. *)
Definition resumable (s : TaskStatus) : bool :=
  match s with TaskStatus.Pausing | TaskStatus.Paused => true | _ => false end.

(*@ runtime/src/lane.rs RuntimeLaneManager::resume *)
Definition resume (fr : Fresh) (m : RuntimeLaneManager) (session_id : SessionId)
    (sequence_no : N) : result RuntimeLaneError (RuntimeLaneManager * RuntimeTransition) :=
  if negb (status_is m session_id resumable) then Err RuntimeLaneError.LaneNotFound
  else set_status fr m session_id TaskStatus.Running sequence_no RuntimeEventType.TaskResumed.

(*@ runtime/src/lane.rs RuntimeLaneManager::finish_task *)
Definition finish_task (fr : Fresh) (m : RuntimeLaneManager) (session_id : SessionId)
    (status : TaskStatus) (sequence_no : N)
    : result RuntimeLaneError (RuntimeLaneManager * RuntimeTransition) :=
  if negb (status_is m session_id is_active_status) then Err RuntimeLaneError.LaneNotFound
  else set_status fr m session_id status sequence_no
         (RuntimeEventType.for_terminal_status status).

(*@ runtime/src/lane.rs RuntimeLaneManager::wait_for_authentication *)
Definition wait_for_authentication (fr : Fresh) (m : RuntimeLaneManager)
    (session_id : SessionId) (sequence_no : N)
    : result RuntimeLaneError (RuntimeLaneManager * RuntimeTransition) :=
  set_status fr m session_id TaskStatus.WaitingAuthentication sequence_no
    RuntimeEventType.ProviderAuthRequired.

(*@ runtime/src/lane.rs RuntimeLaneManager::authentication_resolved *)
Definition authentication_resolved (fr : Fresh) (m : RuntimeLaneManager)
    (session_id : SessionId) (sequence_no : N)
    : result RuntimeLaneError (RuntimeLaneManager * RuntimeTransition) :=
  if negb (status_is m session_id
             (fun s => bool_decide (s = TaskStatus.WaitingAuthentication)))
  then Err RuntimeLaneError.LaneNotFound
  else set_status fr m session_id TaskStatus.Running sequence_no
         RuntimeEventType.ProviderAuthSubmitted.

(** ** The operations as one transition system *)

(** A call of the manager's mutating interface. *)
Inductive Op :=
| OpStart (fr : Fresh) (w : WorkspaceId) (s : SessionId) (task : TaskId) (turn : TurnId)
    (a : Actor) (seq : N)
| OpTakeover (fr : Fresh) (s : SessionId) (a : Actor) (seq : N)
| OpQueue (fr : Fresh) (s : SessionId) (t : TurnId) (seq : N)
| OpStartQueued (s : SessionId) (t : TurnId)
| OpCommit (s : SessionId) (k : LaneId) (t : TurnId)
| OpDiscard (s : SessionId) (t : TurnId)
| OpAbort (fr : Fresh) (s : SessionId) (seq : N)
| OpPause (fr : Fresh) (s : SessionId) (seq : N)
| OpResume (fr : Fresh) (s : SessionId) (seq : N)
| OpFinish (fr : Fresh) (s : SessionId) (st : TaskStatus) (seq : N)
| OpWaitAuth (fr : Fresh) (s : SessionId) (seq : N)
| OpAuthResolved (fr : Fresh) (s : SessionId) (seq : N).

Definition op_session (o : Op) : SessionId :=
  match o with
  | OpStart _ _ s _ _ _ _ | OpTakeover _ s _ _ | OpQueue _ s _ _ | OpStartQueued s _
  | OpCommit s _ _ | OpDiscard s _ | OpAbort _ s _ | OpPause _ s _ | OpResume _ s _
  | OpFinish _ s _ _ | OpWaitAuth _ s _ | OpAuthResolved _ s _ => s
  end.

Definition state_of {A} (r : result RuntimeLaneError (RuntimeLaneManager * A))
    : result RuntimeLaneError RuntimeLaneManager :=
  let? p := r in Ok (fst p).

Definition exec (m : RuntimeLaneManager) (o : Op) : result RuntimeLaneError RuntimeLaneManager :=
  match o with
  | OpStart fr w s task turn a seq => state_of (start_task fr m w s task turn a seq)
  | OpTakeover fr s a seq => state_of (takeover fr m s a seq)
  | OpQueue fr s t seq => state_of (queue_turn fr m s t seq)
  | OpStartQueued s t => start_queued_turn m s t
  | OpCommit s k t => commit_queued_turn_start m s k t
  | OpDiscard s t => discard_queued_turn m s t
  | OpAbort fr s seq => state_of (abort fr m s seq)
  | OpPause fr s seq => state_of (pause fr m s seq)
  | OpResume fr s seq => state_of (resume fr m s seq)
  | OpFinish fr s st seq => state_of (finish_task fr m s st seq)
  | OpWaitAuth fr s seq => state_of (wait_for_authentication fr m s seq)
  | OpAuthResolved fr s seq => state_of (authentication_resolved fr m s seq)
  end.

(** A session of calls; a refused call leaves the manager as it was. *)
Fixpoint run (m : RuntimeLaneManager) (ops : list Op) : RuntimeLaneManager :=
  match ops with
  | [] => m
  | o :: ops' => run (match exec m o with Ok m' => m' | Err _ => m end) ops'
  end.

(** ** The calls as one relation

    [lane_step o before after] is what a successful call [o] does to the lane of its
    session: the case analysis the proofs below share. *)
Inductive lane_step : Op -> option RuntimeLane -> RuntimeLane -> Prop :=
| step_start fr w s task turn a seq before :
    is_some_and (fun l => TaskStatus.is_active (lane_status l)) before = false ->
    lane_step (OpStart fr w s task turn a seq) before
      (mkLane (fresh_lane fr) w s task (Some turn) a TaskStatus.Running [] [] BusyPolicy.Append)
| step_takeover fr s a seq l :
    TaskStatus.is_active (lane_status l) = true ->
    lane_step (OpTakeover fr s a seq) (Some l) (with_controller a l)
| step_queue fr s t seq l :
    lane_step (OpQueue fr s t seq) (Some l)
      (with_turns (active_turn_id l) (pending_turns l ++ [t]) l)
| step_start_queued s t l :
    t ∈ pending_turns l ->
    lane_step (OpStartQueued s t) (Some l)
      (with_turns (Some t) (remove_first t (pending_turns l)) l)
| step_commit s t l :
    t ∈ pending_turns l ->
    lane_step (OpCommit s (lane_id l) t) (Some l)
      (with_turns (Some t) (remove_first t (pending_turns l)) l)
| step_discard s t l :
    lane_step (OpDiscard s t) (Some l)
      (with_turns (active_turn_id l)
         (List.filter (fun p => negb (p =? t)) (pending_turns l)) l)
| step_abort fr s seq l :
    TaskStatus.is_active (lane_status l) = true ->
    lane_step (OpAbort fr s seq) (Some l) (with_status TaskStatus.Aborting l)
| step_pause fr s seq l :
    pausable (lane_status l) = true ->
    lane_step (OpPause fr s seq) (Some l) (with_status TaskStatus.Paused l)
| step_resume fr s seq l :
    resumable (lane_status l) = true ->
    lane_step (OpResume fr s seq) (Some l) (with_status TaskStatus.Running l)
| step_finish fr s st seq l :
    TaskStatus.is_active (lane_status l) = true ->
    lane_step (OpFinish fr s st seq) (Some l) (with_status st l)
| step_wait_auth fr s seq l :
    lane_step (OpWaitAuth fr s seq) (Some l) (with_status TaskStatus.WaitingAuthentication l)
| step_auth_resolved fr s seq l :
    lane_status l = TaskStatus.WaitingAuthentication ->
    lane_step (OpAuthResolved fr s seq) (Some l) (with_status TaskStatus.Running l).

#[export] Hint Constructors lane_step : rust.

Ltac unfold_ops :=
  unfold start_task, takeover, queue_turn, start_queued_turn, prepare_queued_turn_start,
    commit_queued_turn_start, discard_queued_turn, abort, pause, resume, finish_task,
    wait_for_authentication, authentication_resolved, set_status, status_is, state_of,
    is_active_status, ok_or, option_filter in *.

(** Soundness and completeness of the manager against the per-session
    contract: the shared argument of the properties below. *)
Lemma exec_sound m o m' :
  exec m o = Ok m' ->
  exists l', lane_step o (lane m (op_session o)) l' /\ m' = put m (op_session o) l'.
Proof.
  intros H. destruct o; simpl in *; unfold_ops;
    (destruct (lane m s) as [l|] eqn:E; simpl in *; [|by simplify_eq/=; eauto with rust]);
    repeat (case_hyp H; simplify_eq/=); simplify_eq/=; boolhyps; Nbool; subst;
    (eexists; split; [|reflexivity]; by constructor).
Qed.

Lemma exec_complete m o l' :
  lane_step o (lane m (op_session o)) l' -> exec m o = Ok (put m (op_session o) l').
Proof.
  intros H. inversion H; subst; simpl in *; unfold_ops;
    repeat match goal with
    | E : _ = lane m _ |- _ => symmetry in E
    end;
    repeat match goal with
    | E : lane m _ = _ |- _ => rewrite E in *; clear E
    end; simpl in *; rewrite ?N.eqb_refl; simpl;
    repeat match goal with
    | E : _ = true |- _ => rewrite E
    | E : _ = false |- _ => rewrite E
    end; simpl; repeat (rewrite bool_decide_true by done; simpl; rewrite ?N.eqb_refl; simpl);
    done.
Qed.

(** ** Invariants and frame properties *)

Lemma lane_put_eq m s l : lane (put m s l) s = Some l.
Proof. unfold lane, put. simpl. apply lookup_insert_eq. Qed.

Lemma lane_put_ne m s s' l : s <> s' -> lane (put m s l) s' = lane m s'.
Proof. intros. unfold lane, put. simpl. by apply lookup_insert_ne. Qed.


(** Induction over a run: a property of managers kept by every successful call
    holds after any sequence of calls. *)
Lemma run_invariant (P : RuntimeLaneManager -> Prop) (Q : Op -> Prop) :
  (forall m o m', P m -> Q o -> exec m o = Ok m' -> P m') ->
  forall ops m, Forall Q ops -> P m -> P (run m ops).
Proof.
  intros Hstep ops. induction ops as [|o ops IH]; intros m HQ Hm; simpl; [done|].
  apply Forall_cons in HQ as [Ho HQ]. apply IH; [done|].
  destruct (exec m o) eqn:E; [|done]. by eapply Hstep.
Qed.

(** What every stored lane satisfies: it is stored under its own session, has
    an active turn, and never collects injected input. *)
Definition lane_wf (s : SessionId) (l : RuntimeLane) : Prop :=
  lane_session_id l = s /\ is_Some (active_turn_id l) /\ injected_inputs l = []
  /\ busy_policy_default l = BusyPolicy.Append.
Definition wf (m : RuntimeLaneManager) : Prop :=
  forall s l, lane m s = Some l -> lane_wf s l.

Lemma wf_new : wf new_manager.
Proof. intros s l H. by vm_compute in H. Qed.

Lemma lane_step_wf o before l' :
  lane_step o before l' ->
  (forall l, before = Some l -> lane_wf (op_session o) l) -> lane_wf (op_session o) l'.
Proof.
  intros H Hb. unfold lane_wf. inversion H; subst; simpl in *;
    try (destruct (Hb _ eq_refl) as (? & ? & ? & ?); by eauto 10).
  by eauto 10.
Qed.

Lemma wf_exec m o m' : wf m -> exec m o = Ok m' -> wf m'.
Proof.
  intros Hm H. apply exec_sound in H as (l' & Hs & ->). intros s l Hl.
  destruct (decide (op_session o = s)) as [<-|Hne].
  - rewrite lane_put_eq in Hl. simplify_eq. eapply lane_step_wf; eauto.
  - rewrite lane_put_ne in Hl by done. auto.
Qed.

Lemma wf_run ops : wf (run new_manager ops).
Proof.
  apply (run_invariant wf (fun _ => True)); [|by apply Forall_true|apply wf_new].
  intros. by eapply wf_exec.
Qed.

(** A call that keeps an active lane keeps it active and keeps its identity,
    unless it is [finish_task] on that session. *)
Definition finishes (s : SessionId) (o : Op) : Prop :=
  match o with OpFinish _ s' _ _ => s' = s | _ => False end.

Definition active_as (k : LaneId) (task : TaskId) (s : SessionId) (m : RuntimeLaneManager) :=
  exists l, lane m s = Some l /\ lane_id l = k /\ lane_task_id l = task
            /\ TaskStatus.is_active (lane_status l) = true.

Lemma active_as_exec k task s m o m' :
  active_as k task s m -> ~ finishes s o -> exec m o = Ok m' -> active_as k task s m'.
Proof.
  intros (l & Hl & Hk & Ht & Ha) Hf H. apply exec_sound in H as (l' & Hs & ->).
  destruct (decide (op_session o = s)) as [<-|Hne].
  - exists l'. rewrite lane_put_eq. split; [done|]. rewrite Hl in Hs.
    inversion Hs; subst; simpl in *; try congruence; auto; try done.
  - exists l. by rewrite lane_put_ne.
Qed.

(** The pending queue. A call consumes [t] on [s] when it starts or discards it. *)
Definition consumes (s : SessionId) (t : TurnId) (o : Op) : Prop :=
  match o with
  | OpStartQueued s' t' | OpCommit s' _ t' | OpDiscard s' t' => s' = s /\ t' = t
  | _ => False
  end.
Definition restarts (s : SessionId) (o : Op) : Prop :=
  match o with OpStart _ _ s' _ _ _ _ => s' = s | _ => False end.

Definition pending_on (k : LaneId) (s : SessionId) (t : TurnId) (m : RuntimeLaneManager) :=
  exists l, lane m s = Some l /\ lane_id l = k /\ t ∈ pending_turns l.

Lemma elem_of_remove_first_ne {A} `{EqDecision A} (x y : A) l :
  x <> y -> x ∈ l -> x ∈ remove_first y l.
Proof.
  intros Hne. induction l as [|z l IH]; simpl; [done|].
  rewrite elem_of_cons. intros [->|Hx]; destruct (decide (z = y)); subst; try done.
  - apply list_elem_of_here.
  - apply list_elem_of_further; auto.
Qed.

Lemma elem_of_filter_ne (x y : N) l :
  x <> y -> x ∈ l -> x ∈ List.filter (fun p => negb (p =? y)) l.
Proof.
  rewrite !list_elem_of_In, filter_In. intros Hne Hx. split; [done|].
  by apply negb_true_iff, N.eqb_neq.
Qed.

Lemma pending_on_exec k s t m o m' :
  pending_on k s t m -> ~ consumes s t o -> ~ restarts s o -> exec m o = Ok m' ->
  pending_on k s t m'.
Proof.
  intros (l & Hl & Hk & Ht) Hc Hr H. apply exec_sound in H as (l' & Hs & ->).
  destruct (decide (op_session o = s)) as [<-|Hne]; [|exists l; by rewrite lane_put_ne].
  exists l'. rewrite lane_put_eq. split; [done|]. rewrite Hl in Hs.
  inversion Hs; subst; simpl in *; split; auto; try done.
  - apply elem_of_app. by left.
  - apply elem_of_remove_first_ne; [|done]. intros ->. apply Hc. done.
  - apply elem_of_remove_first_ne; [|done]. intros ->. apply Hc. done.
  - apply elem_of_filter_ne; [|done]. intros ->. apply Hc. done.
Qed.

(** The edges the lane's status can take in one call that does not replace the
    lane. *)
Inductive status_edge : TaskStatus -> TaskStatus -> Prop :=
| edge_same s : status_edge s s
| edge_abort s : TaskStatus.is_active s = true -> status_edge s TaskStatus.Aborting
| edge_pause s : pausable s = true -> status_edge s TaskStatus.Paused
| edge_resume s : resumable s = true -> status_edge s TaskStatus.Running
| edge_finish s s' : TaskStatus.is_active s = true -> status_edge s s'
| edge_wait s : status_edge s TaskStatus.WaitingAuthentication
| edge_auth : status_edge TaskStatus.WaitingAuthentication TaskStatus.Running.
#[export] Hint Constructors status_edge : rust.

Lemma lane_step_edge o l l' :
  lane_step o (Some l) l' -> ~ restarts (op_session o) o ->
  status_edge (lane_status l) (lane_status l').
Proof.
  intros H Hr. inversion H; subst; simpl in *; eauto with rust; try done.
  match goal with E : lane_status l = _ |- _ => rewrite E end. eauto with rust.
Qed.

(** ** Properties *)

(** A session has one active task. From a successful [start_task]
    on, through any sequence of calls of any kind that does not finish that
    session's task, the lane stays active under the same lane and task
    identity, and every further [start_task] on the session is refused with
    [ActiveTaskExists]. *)
Theorem one_active_task_per_session fr m w s task turn a seq m1 tr ops fr2 w2 task2 turn2 a2 seq2 :
  start_task fr m w s task turn a seq = Ok (m1, tr) ->
  Forall (fun o => ~ finishes s o) ops ->
  active_as (fresh_lane fr) task s (run m1 ops) /\
  start_task fr2 (run m1 ops) w2 s task2 turn2 a2 seq2 = Err RuntimeLaneError.ActiveTaskExists.
Proof.
  intros Hstart Hops.
  assert (Ha : active_as (fresh_lane fr) task s (run m1 ops)).
  { apply (run_invariant (active_as (fresh_lane fr) task s) (fun o => ~ finishes s o)); auto.
    - intros. by eapply active_as_exec.
    - unfold start_task in Hstart. case_hyp Hstart; simplify_eq.
      eexists. rewrite lane_put_eq. eauto. }
  split; [done|]. destruct Ha as (l & Hl & _ & _ & Hact).
  unfold start_task, status_is, is_active_status. rewrite Hl. simpl. by rewrite Hact.
Qed.

Definition fresh0 : Fresh := mkFresh 100 200 300 400 0.
Definition actor0 : Actor := mkActor ActorKind.Tui "tui".

(** Discharge a [Forall] over a concrete list of calls. *)
Ltac concrete_ops :=
  repeat (constructor; [vm_compute; intuition discriminate|]); constructor.

Lemma one_active_task_per_session_witness :
  active_as 100 2 7
    (run (run new_manager [OpStart fresh0 1 7 2 3 actor0 1])
       [OpQueue fresh0 7 5 2; OpPause fresh0 7 3; OpFinish fresh0 8 TaskStatus.Failed 4]) /\
  start_task fresh0
    (run (run new_manager [OpStart fresh0 1 7 2 3 actor0 1])
       [OpQueue fresh0 7 5 2; OpPause fresh0 7 3; OpFinish fresh0 8 TaskStatus.Failed 4])
    1 7 9 10 actor0 5 = Err RuntimeLaneError.ActiveTaskExists.
Proof.
  eapply (one_active_task_per_session fresh0 new_manager 1 7 2 3 actor0 1).
  - vm_compute. reflexivity.
  - concrete_ops.
Defined.

(** The lane of a session after a task was started, while no other one is. *)
Lemma started_lane_stays fr m w s task turn a seq m1 tr ops :
  start_task fr m w s task turn a seq = Ok (m1, tr) -> Forall (fun o => ~ restarts s o) ops ->
  exists l, lane (run m1 ops) s = Some l /\ lane_id l = fresh_lane fr.
Proof.
  intros Hstart Hops.
  apply (run_invariant (fun m => exists l, lane m s = Some l /\ lane_id l = fresh_lane fr)
           (fun o => ~ restarts s o)); auto.
  - intros m0 o m0' (l & Hl & Hid) Hr He. apply exec_sound in He as (l' & Hs & ->).
    destruct (decide (op_session o = s)) as [<-|Hne]; [|exists l; by rewrite lane_put_ne].
    exists l'. rewrite lane_put_eq. split; [done|]. rewrite Hl in Hs.
    inversion Hs; subst; simpl in *; try done.
  - unfold start_task in Hstart. case_hyp Hstart; simplify_eq. eexists. by rewrite lane_put_eq.
Qed.

Lemma pending_on_run k s t m ops : pending_on k s t m ->
  Forall (fun o => ~ consumes s t o /\ ~ restarts s o) ops -> pending_on k s t (run m ops).
Proof.
  intros H Hops. apply (run_invariant (pending_on k s t) (fun o => ~ consumes s t o /\ ~ restarts s o)); auto.
  intros m0 o m0' H0 [Hc Hr] He. by eapply pending_on_exec.
Qed.

Lemma prepared_is_pending m s t k : prepare_queued_turn_start m s t = Ok k -> pending_on k s t m.
Proof.
  unfold prepare_queued_turn_start, ok_or. intros Hp.
  destruct (lane m s) as [l|] eqn:E; [|done]. case_hyp Hp; simplify_eq. boolhyps. by exists l.
Qed.

(** Everything of a lane but its turns. *)
Definition same_but_turns (l l' : RuntimeLane) : Prop :=
  lane_id l' = lane_id l /\ lane_workspace_id l' = lane_workspace_id l
  /\ lane_session_id l' = lane_session_id l /\ lane_task_id l' = lane_task_id l
  /\ active_controller l' = active_controller l /\ lane_status l' = lane_status l
  /\ injected_inputs l' = injected_inputs l /\ busy_policy_default l' = busy_policy_default l.

(** C6 (safety): the two-phase start of a queued turn. When [prepare_queued_turn_start]
    has answered with lane [k], then after any interleaved calls that neither consume that
    turn nor start a new task on the session the commit succeeds: it makes the turn
    active, takes exactly its first occurrence out of the queue, keeps the order of all
    other pending turns, the rest of the lane and every other session; and every other
    turn that was pending when the start was prepared and was not consumed in between is
    still pending. When instead the session was given a new lane in between, the commit is
    refused and cannot touch the turns of that lane. *)
Theorem queued_turn_two_phase m s t k :
  prepare_queued_turn_start m s t = Ok k ->
  (forall ops, Forall (fun o => ~ consumes s t o /\ ~ restarts s o) ops ->
   exists m' l l' p1 p2,
    lane (run m ops) s = Some l /\ pending_turns l = p1 ++ (t :: p2) /\ (t ∉ p1)
    /\ commit_queued_turn_start (run m ops) s k t = Ok m'
    /\ lane m' s = Some l' /\ active_turn_id l' = Some t /\ pending_turns l' = p1 ++ p2
    /\ same_but_turns l l' /\ (forall s', s' <> s -> lane m' s' = lane (run m ops) s')
    /\ (forall t', t' <> t -> prepare_queued_turn_start m s t' = Ok k ->
        Forall (fun o => ~ consumes s t' o) ops -> prepare_queued_turn_start m' s t' = Ok k)) /\
  (forall ops fr w task turn a seq m1 tr ops',
   start_task fr (run m ops) w s task turn a seq = Ok (m1, tr) -> fresh_lane fr <> k ->
   Forall (fun o => ~ restarts s o) ops' ->
   commit_queued_turn_start (run m1 ops') s k t = Err RuntimeLaneError.LaneNotFound).
Proof.
  intros Hp%prepared_is_pending. split.
  - intros ops Hops. destruct (pending_on_run _ _ _ _ _ Hp Hops) as (l & Hl & Hk & Ht).
    destruct (remove_first_split t _ Ht) as (p1 & p2 & Hsp & Hn & Hr).
    exists (put (run m ops) s (with_turns (Some t) (p1 ++ p2) l)), l, (with_turns (Some t) (p1 ++ p2) l), p1, p2.
    rewrite lane_put_eq. split_and!; try done.
    + unfold commit_queued_turn_start, option_filter, ok_or. rewrite Hl, <- Hk, N.eqb_refl.
      rewrite bool_decide_true by done. by rewrite Hr.
    + intros s' Hs'. by rewrite lane_put_ne.
    + intros t' Hne Ht'%prepared_is_pending Hc.
      assert (Hall : Forall (fun o => ~ consumes s t' o /\ ~ restarts s o) ops).
      { apply Forall_and. split; [done|]. eapply Forall_impl; [exact Hops|]. by intros ? []. }
      destruct (pending_on_run _ _ _ _ _ Ht' Hall) as (l2 & Hl2 & _ & Hin). rewrite Hl in Hl2.
      injection Hl2 as <-. unfold prepare_queued_turn_start, ok_or. rewrite lane_put_eq. cbn.
      rewrite bool_decide_true, Hk; [done|]. rewrite Hsp in Hin. set_solver.
  - intros ops fr w task turn a seq m1 tr ops' Hstart Hk Hops.
    destruct (started_lane_stays _ _ _ _ _ _ _ _ _ _ _ Hstart Hops) as (l & Hl & Hid).
    unfold commit_queued_turn_start, option_filter, ok_or. rewrite Hl, Hid.
    by rewrite (proj2 (N.eqb_neq _ _) Hk).
Qed.

Definition manager1 : RuntimeLaneManager :=
  run new_manager [OpStart fresh0 1 7 2 3 actor0 1; OpQueue fresh0 7 5 2; OpQueue fresh0 7 6 3].

Definition manager2 : RuntimeLaneManager := run manager1 [OpQueue fresh0 7 8 4; OpDiscard 7 6].
Definition manager3 : RuntimeLaneManager := run manager1 [OpFinish fresh0 7 TaskStatus.Failed 4].

Lemma queued_turn_two_phase_witness :
  (exists m' l', commit_queued_turn_start manager2 7 100 5 = Ok m' /\ lane m' 7 = Some l'
     /\ active_turn_id l' = Some 5)
  /\ commit_queued_turn_start (run manager3 [OpStart (mkFresh 101 0 0 0 0) 1 7 9 5 actor0 6; OpQueue fresh0 7 5 7])
       7 100 5 = Err RuntimeLaneError.LaneNotFound.
Proof.
  assert (Hp : prepare_queued_turn_start manager1 7 5 = Ok 100) by (by vm_compute).
  split.
  - assert (Hops : Forall (fun o => ~ consumes 7 5 o /\ ~ restarts 7 o) [OpQueue fresh0 7 8 4; OpDiscard 7 6])
      by concrete_ops.
    destruct (proj1 (queued_turn_two_phase manager1 7 5 100 Hp) _ Hops)
      as (m' & l & l' & p1 & p2 & _ & _ & _ & Hm & Hl & Ha & _). by exists m', l'.
  - eapply (proj2 (queued_turn_two_phase manager1 7 5 100 Hp) [OpFinish fresh0 7 TaskStatus.Failed 4]
      (mkFresh 101 0 0 0 0) 1 9 5 actor0 6 _ _ [OpQueue fresh0 7 5 7]); [by vm_compute|done|concrete_ops].
Defined.

(** A call that does not start a new task moves the status
    of the session's lane along [status_edge] only, and the other sessions'
    statuses not at all; in particular a terminal status is left only by a new
    task or by [wait_for_authentication]. *)
Theorem lane_status_graph m o m' s l l' :
  exec m o = Ok m' -> ~ restarts s o ->
  lane m s = Some l -> lane m' s = Some l' ->
  status_edge (lane_status l) (lane_status l') /\
  (TaskStatus.is_active (lane_status l) = false -> lane_status l' <> lane_status l ->
   exists fr seq, o = OpWaitAuth fr s seq).
Proof.
  intros H Hr Hl Hl'. apply exec_sound in H as (l2 & Hs & ->).
  destruct (decide (op_session o = s)) as [<-|Hne].
  - rewrite lane_put_eq in Hl'. simplify_eq. rewrite Hl in Hs.
    split; [by eapply lane_step_edge|]. intros Hin Hch.
    inversion Hs; subst; simpl in *; try congruence; try done; eauto.
    + destruct (lane_status l); done.
    + destruct (lane_status l); done.
    + by destruct (lane_status l).
  - rewrite lane_put_ne in Hl' by done. simplify_eq. split; [constructor|done].
Qed.

Lemma lane_status_graph_witness :
  exists l l', lane manager1 7 = Some l /\ status_edge (lane_status l) (lane_status l').
Proof.
  eexists _, _. split; [vm_compute; reflexivity|].
  apply (lane_status_graph manager1 (OpPause fresh0 7 3)
           (run manager1 [OpPause fresh0 7 3]) 7).
  - vm_compute. reflexivity.
  - simpl. auto.
  - vm_compute. reflexivity.
  - vm_compute. reflexivity.
Defined.

(** Input on a busy session. The decision never injects into a
    running turn; it appends exactly when the actor is the active controller
    and the task is not aborting, and rejects otherwise, whatever policy the
    caller asked for; there is a decision exactly when the session has a lane. *)
Theorem busy_policy_decision fr m s c actor requested :
  match decide_busy_policy fr m s c actor requested, lane m s with
  | Ok d, Some l =>
      bpd_lane_id d = lane_id l /\ bpd_affected_turn_id d = active_turn_id l /\
      bpd_safe_to_inject d = false /\ bpd_requested_policy d = requested /\
      bpd_applied_policy d =
        (if bool_decide (lane_status l <> TaskStatus.Aborting /\ active_controller l = actor)
         then BusyPolicy.Append else BusyPolicy.Reject)
  | Err e, None => e = RuntimeLaneError.LaneNotFound
  | _, _ => False
  end.
Proof.
  unfold decide_busy_policy, ok_or. destruct (lane m s) as [l|]; [|done].
  destruct (bool_decide_reflect (lane_status l = TaskStatus.Aborting)) as [Ha|Ha];
    destruct (bool_decide_reflect (active_controller l = actor)) as [Hc|Hc]; simpl;
    split_and!; try done; case_bool_decide; tauto.
Qed.
