(* ===== verification/StepMachine.v ===== *)
(** * Step bookkeeping and no-progress detection

    [golutra-agent-runtime/src/step_machine.rs]: numbers the steps of a turn
    and detects a loop that repeats one semantic action, or a verification
    correction that makes no material progress within its step and time
    budgets. Counters saturate at their width. The [cfg(test)] constructors
    are not modelled. *)
From S2P Require Import Prelude RustStr Core.
Open Scope N_scope.

(*@ runtime/src/step_machine.rs DEFAULT_NO_PROGRESS_ADVISORY_LIMIT *)
Definition DEFAULT_NO_PROGRESS_ADVISORY_LIMIT : N := 3.
(*@ runtime/src/step_machine.rs DEFAULT_NO_PROGRESS_LIMIT *)
Definition DEFAULT_NO_PROGRESS_LIMIT : N := 0.

(*@ runtime/src/step_machine.rs CorrectionProgressLimits *)
Record CorrectionProgressLimits := mkCorrectionProgressLimits {
  step_limit : N;
  elapsed_ms_limit : N;
}.

(*@ runtime/src/step_machine.rs StepSnapshot *)
Record StepSnapshot := mkStepSnapshot { step_no : N; snapshot_turn_id : TurnId }.

(*@ runtime/src/step_machine.rs StepCheckpoint *)
Record StepCheckpoint := mkStepCheckpoint {
  cp_next_step_no : N;
  cp_last_fingerprint : option string;
  cp_repeated_no_progress : N;
  cp_no_progress_advisory_limit : N;
  cp_no_progress_limit : N;
  cp_correction_active : bool;
  cp_correction_no_progress_steps : N;
  cp_correction_no_progress_elapsed_ms : N;
  cp_correction_no_progress_step_limit : N;
  cp_correction_no_progress_elapsed_ms_limit : N;
}.

(*@ runtime/src/step_machine.rs StepCompletion *)
Record StepCompletion := mkStepCompletion {
  sc_snapshot : StepSnapshot;
  sc_fingerprint : string;
  sc_made_progress : bool;
  sc_made_material_progress : bool;
  sc_repeated_no_progress : N;
  sc_correction_no_progress_steps : N;
  sc_correction_no_progress_elapsed_ms : N;
  sc_advisory : option string;
  sc_should_stop : bool;
  sc_stop_reason : option string;
}.

(*@ runtime/src/step_machine.rs StepMachine *)
Record StepMachine := mkStepMachine {
  next_step_no : N;
  last_fingerprint : option string;
  repeated_no_progress : N;
  no_progress_advisory_limit : N;
  no_progress_limit : N;
  correction_limits : CorrectionProgressLimits;
  correction_active : bool;
  correction_no_progress_steps : N;
  correction_last_material_progress_ms : N;
  correction_no_progress_elapsed_ms : N;
  correction_advisory_emitted : bool;
}.

(*@ runtime/src/step_machine.rs StepMachine::with_limits *)
Definition with_limits (advisory_limit stop_limit : N) (limits : CorrectionProgressLimits)
    : StepMachine :=
  {| next_step_no := 0;
     last_fingerprint := None;
     repeated_no_progress := 0;
     no_progress_advisory_limit :=
       if stop_limit =? 0 then N.max advisory_limit 1 else clamp 1 stop_limit advisory_limit;
     no_progress_limit := stop_limit;
     correction_limits := limits;
     correction_active := false;
     correction_no_progress_steps := 0;
     correction_last_material_progress_ms := 0;
     correction_no_progress_elapsed_ms := 0;
     correction_advisory_emitted := false |}.

(*@ runtime/src/step_machine.rs Default::default for StepMachine *)
Definition default_machine : StepMachine :=
  with_limits DEFAULT_NO_PROGRESS_ADVISORY_LIMIT DEFAULT_NO_PROGRESS_LIMIT
    {| step_limit := 0; elapsed_ms_limit := 0 |}.

(** The correction fields of a machine, written together by several
    operations. *)
Definition with_correction (m : StepMachine) (active : bool) (steps last elapsed : N)
    (emitted : bool) : StepMachine :=
  {| next_step_no := next_step_no m;
     last_fingerprint := last_fingerprint m;
     repeated_no_progress := repeated_no_progress m;
     no_progress_advisory_limit := no_progress_advisory_limit m;
     no_progress_limit := no_progress_limit m;
     correction_limits := correction_limits m;
     correction_active := active;
     correction_no_progress_steps := steps;
     correction_last_material_progress_ms := last;
     correction_no_progress_elapsed_ms := elapsed;
     correction_advisory_emitted := emitted |}.

(*@ runtime/src/step_machine.rs StepMachine::begin_correction *)
Definition begin_correction (m : StepMachine) (elapsed_ms : N) : StepMachine :=
  if correction_active m then m else with_correction m true 0 elapsed_ms 0 false.

(*@ runtime/src/step_machine.rs StepMachine::end_correction *)
Definition end_correction (m : StepMachine) : StepMachine :=
  with_correction m false 0 (correction_last_material_progress_ms m) 0 false.

(*@ runtime/src/step_machine.rs StepMachine::exclude_recovery_wait *)
Definition exclude_recovery_wait (m : StepMachine) (elapsed_ms : N) : StepMachine :=
  if correction_active m then
    with_correction m true (correction_no_progress_steps m)
      (correction_last_material_progress_ms m +|64 elapsed_ms)
      (correction_no_progress_elapsed_ms m) (correction_advisory_emitted m)
  else m.

(*@ runtime/src/step_machine.rs StepMachine::begin *)
Definition begin (m : StepMachine) (turn_id : TurnId) : StepMachine * StepSnapshot :=
  ({| next_step_no := next_step_no m +|32 1;
      last_fingerprint := last_fingerprint m;
      repeated_no_progress := repeated_no_progress m;
      no_progress_advisory_limit := no_progress_advisory_limit m;
      no_progress_limit := no_progress_limit m;
      correction_limits := correction_limits m;
      correction_active := correction_active m;
      correction_no_progress_steps := correction_no_progress_steps m;
      correction_last_material_progress_ms := correction_last_material_progress_ms m;
      correction_no_progress_elapsed_ms := correction_no_progress_elapsed_ms m;
      correction_advisory_emitted := correction_advisory_emitted m |},
   {| step_no := next_step_no m; snapshot_turn_id := turn_id |}).

(*@ runtime/src/step_machine.rs limit_reached *)
Definition limit_reached (value limit : N) : bool := negb (limit =? 0) && (limit <=? value).

(*@ runtime/src/step_machine.rs advisory_limit *)
Definition advisory_limit (limit : N) : N := if limit =? 0 then limit else limit / 2.

(** The messages of a completion. *)
Definition semantic_advisory_text (n : N) : string :=
  "runtime has made no observable progress for " +:+ show n +:+
  " semantically equivalent steps; inspect the results and reconsider the approach".
Definition correction_advisory_text (steps ms : N) : string :=
  "verification correction has made no material progress for " +:+ show steps +:+ " steps (" +:+
  show ms +:+ " ms); finish verification or change the workspace before the correction budget is exhausted".
Definition correction_stop_text (steps ms : N) : string :=
  "verification correction made no material progress for " +:+ show steps +:+ " steps (" +:+
  show ms +:+ " ms)".
Definition semantic_stop_text (n : N) : string :=
  "runtime made no observable progress for " +:+ show n +:+ " semantically equivalent steps".

(** The repetition counter after a completion (the first [if] of
    [complete_at_with_material_progress]). *)
(*@ runtime/src/step_machine.rs:194-200 StepMachine::complete_at_with_material_progress *)
Definition next_repeated (m : StepMachine) (fingerprint : string) (made_progress : bool) : N :=
  if made_progress then 0
  else if negb (bool_decide (last_fingerprint m = Some fingerprint)) then 1
  else repeated_no_progress m +|32 1.

(** The correction counters after a completion while a correction is active:
    steps, last material progress, elapsed, advisory flag. *)
(*@ runtime/src/step_machine.rs:213-223 StepMachine::complete_at_with_material_progress *)
Definition next_correction (m : StepMachine) (material : bool) (elapsed_ms : N)
    : N * N * N * bool :=
  if material then (0, elapsed_ms, 0, false)
  else (correction_no_progress_steps m +|32 1,
        correction_last_material_progress_ms m,
        elapsed_ms - correction_last_material_progress_ms m,
        correction_advisory_emitted m).

(** [correction_stop] and [correction_advisory_reached]. *)
(*@ runtime/src/step_machine.rs:224-230 StepMachine::complete_at_with_material_progress *)
Definition correction_exhausted (l : CorrectionProgressLimits) (steps elapsed : N) : bool :=
  limit_reached steps (step_limit l) || limit_reached elapsed (elapsed_ms_limit l).
(*@ runtime/src/step_machine.rs:231-237 StepMachine::complete_at_with_material_progress *)
Definition correction_advised (l : CorrectionProgressLimits) (steps elapsed : N) : bool :=
  limit_reached steps (advisory_limit (step_limit l))
  || limit_reached elapsed (advisory_limit (elapsed_ms_limit l)).

(*@ runtime/src/step_machine.rs StepMachine::complete_at_with_material_progress *)
Definition complete_at_with_material_progress (m : StepMachine) (snapshot : StepSnapshot)
    (fingerprint : string) (made_progress made_material_progress : bool) (elapsed_ms : N)
    : StepMachine * StepCompletion :=
  let repeated := next_repeated m fingerprint made_progress in
  let semantic_advisory :=
    if repeated =? no_progress_advisory_limit m then Some (semantic_advisory_text repeated)
    else None in
  let semantic_stop := limit_reached repeated (no_progress_limit m) in
  let '(steps, last, elapsed, emitted) :=
    if correction_active m then next_correction m made_material_progress elapsed_ms
    else (correction_no_progress_steps m, correction_last_material_progress_ms m,
          correction_no_progress_elapsed_ms m, correction_advisory_emitted m) in
  let correction_stop :=
    correction_active m && correction_exhausted (correction_limits m) steps elapsed in
  let advise :=
    correction_active m && correction_advised (correction_limits m) steps elapsed
    && negb correction_stop && negb emitted in
  let correction_advisory :=
    if advise then Some (correction_advisory_text steps elapsed) else None in
  let stop_reason :=
    if correction_stop then Some (correction_stop_text steps elapsed)
    else if semantic_stop then Some (semantic_stop_text repeated)
    else None in
  ({| next_step_no := next_step_no m;
      last_fingerprint := Some fingerprint;
      repeated_no_progress := repeated;
      no_progress_advisory_limit := no_progress_advisory_limit m;
      no_progress_limit := no_progress_limit m;
      correction_limits := correction_limits m;
      correction_active := correction_active m;
      correction_no_progress_steps := steps;
      correction_last_material_progress_ms := last;
      correction_no_progress_elapsed_ms := elapsed;
      correction_advisory_emitted := emitted || advise |},
   {| sc_snapshot := snapshot;
      sc_fingerprint := fingerprint;
      sc_made_progress := made_progress;
      sc_made_material_progress := made_material_progress;
      sc_repeated_no_progress := repeated;
      sc_correction_no_progress_steps := steps;
      sc_correction_no_progress_elapsed_ms := elapsed;
      sc_advisory := match correction_advisory with Some a => Some a | None => semantic_advisory end;
      sc_should_stop := correction_stop || semantic_stop;
      sc_stop_reason := stop_reason |}).

(*@ runtime/src/step_machine.rs StepMachine::checkpoint *)
Definition checkpoint (m : StepMachine) : StepCheckpoint :=
  {| cp_next_step_no := next_step_no m;
     cp_last_fingerprint := last_fingerprint m;
     cp_repeated_no_progress := repeated_no_progress m;
     cp_no_progress_advisory_limit := no_progress_advisory_limit m;
     cp_no_progress_limit := no_progress_limit m;
     cp_correction_active := correction_active m;
     cp_correction_no_progress_steps := correction_no_progress_steps m;
     cp_correction_no_progress_elapsed_ms := correction_no_progress_elapsed_ms m;
     cp_correction_no_progress_step_limit := step_limit (correction_limits m);
     cp_correction_no_progress_elapsed_ms_limit := elapsed_ms_limit (correction_limits m) |}.

(** ** Traces *)

(** A call on the machine, in the order the loop makes them. *)
Inductive Ev :=
| EvBegin (turn : TurnId)
| EvBeginCorrection (ms : N)
| EvEndCorrection
| EvWait (ms : N)
| EvComplete (snapshot : StepSnapshot) (fp : string) (progress material : bool) (ms : N).

Definition step_ev (m : StepMachine) (e : Ev) : StepMachine :=
  match e with
  | EvBegin t => fst (begin m t)
  | EvBeginCorrection ms => begin_correction m ms
  | EvEndCorrection => end_correction m
  | EvWait ms => exclude_recovery_wait m ms
  | EvComplete s fp p mat ms => fst (complete_at_with_material_progress m s fp p mat ms)
  end.
Definition run_evs (m : StepMachine) (evs : list Ev) : StepMachine := fold_left step_ev evs m.

(** The completed actions of a trace, latest first. *)
Fixpoint history_of (evs : list Ev) (h : list (string * bool)) : list (string * bool) :=
  match evs with
  | [] => h
  | EvComplete _ fp p _ _ :: evs' => history_of evs' ((fp, p) :: h)
  | _ :: evs' => history_of evs' h
  end.

(** How many of the latest actions are [fp] without progress. *)
Fixpoint trailing (fp : string) (h : list (string * bool)) : N :=
  match h with
  | (f, false) :: h' => if bool_decide (f = fp) then 1 + trailing fp h' else 0
  | _ => 0
  end.
(** Reference definition of the repetition counter: the length of the longest
    suffix of the history that repeats the last action without progress. *)
Definition repetition (h : list (string * bool)) : N :=
  match h with (fp, _) :: _ => trailing fp h | [] => 0 end.

Definition rep_inv (m : StepMachine) (h : list (string * bool)) : Prop :=
  repeated_no_progress m = N.min u32_max (repetition h) /\
  last_fingerprint m = fst <$> head h.

Lemma next_repeated_spec m h fp p :
  rep_inv m h -> next_repeated m fp p = N.min u32_max (repetition ((fp, p) :: h)).
Proof.
  intros [Hr Hl]. unfold next_repeated. simpl.
  destruct p; [done|]. rewrite (bool_decide_true (fp = fp)), Hl by done.
  destruct h as [|[f q] h]; simpl in *.
  - done.
  - destruct (decide (f = fp)) as [->|Hne].
    + rewrite !bool_decide_true by done. simpl. rewrite Hr.
      destruct q; [sat_lia|]. rewrite bool_decide_true by done. sat_lia.
    + rewrite (bool_decide_false (Some f = Some fp)) by congruence. simpl.
      destruct q; [done|]. rewrite bool_decide_false by congruence. done.
Qed.

(** Field access after the composite operations. *)
Lemma complete_rep m s fp p mat ms :
  let m' := fst (complete_at_with_material_progress m s fp p mat ms) in
  repeated_no_progress m' = next_repeated m fp p /\ last_fingerprint m' = Some fp /\
  no_progress_limit m' = no_progress_limit m /\
  no_progress_advisory_limit m' = no_progress_advisory_limit m /\
  correction_limits m' = correction_limits m /\ correction_active m' = correction_active m.
Proof.
  unfold complete_at_with_material_progress, next_correction.
  destruct (correction_active m) eqn:E, mat; simpl; rewrite ?E; done.
Qed.

Lemma rep_inv_step m h e :
  rep_inv m h -> rep_inv (step_ev m e) (history_of [e] h).
Proof.
  intros H. destruct e; simpl; try done.
  - unfold begin_correction. by destruct (correction_active m).
  - unfold exclude_recovery_wait. by destruct (correction_active m).
  - destruct (complete_rep m snapshot fp progress material ms) as (Hr & Hl & _).
    split; [|by rewrite Hl]. by rewrite Hr, (next_repeated_spec m h).
Qed.

Lemma history_of_app evs1 evs2 h :
  history_of (evs1 ++ evs2) h = history_of evs2 (history_of evs1 h).
Proof. revert h. induction evs1 as [|[]]; intros; simpl; auto. Qed.

Lemma rep_inv_run evs : forall m h, rep_inv m h -> rep_inv (run_evs m evs) (history_of evs h).
Proof.
  induction evs as [|e evs IH]; intros m h H; [done|].
  change (e :: evs) with ([e] ++ evs). rewrite history_of_app. apply IH.
  by apply rep_inv_step.
Qed.

(** Limits and activity are fixed by the trace alone. *)
Lemma limits_run evs : forall m,
  no_progress_limit (run_evs m evs) = no_progress_limit m /\
  no_progress_advisory_limit (run_evs m evs) = no_progress_advisory_limit m /\
  correction_limits (run_evs m evs) = correction_limits m.
Proof.
  induction evs as [|e evs IH]; intros m; [done|]. simpl.
  destruct (IH (step_ev m e)) as (-> & -> & ->). destruct e; simpl; try done.
  - unfold begin_correction. by destruct (correction_active m).
  - unfold exclude_recovery_wait. by destruct (correction_active m).
  - by destruct (complete_rep m snapshot fp progress material ms) as (_ & _ & -> & -> & -> & _).
Qed.

(** ** Correction episodes *)

(** The calls that neither end a correction nor report material progress. *)
Definition quiet (e : Ev) : Prop :=
  match e with
  | EvEndCorrection => False
  | EvComplete _ _ _ material _ => material = false
  | _ => True
  end.

Fixpoint completions (evs : list Ev) : N :=
  match evs with
  | [] => 0
  | EvComplete _ _ _ _ _ :: evs' => 1 + completions evs'
  | _ :: evs' => completions evs'
  end.
Fixpoint waited (evs : list Ev) : N :=
  match evs with
  | [] => 0
  | EvWait ms :: evs' => ms + waited evs'
  | _ :: evs' => waited evs'
  end.

(** Clock and step counter of an active correction that began at [t0]. *)
Definition corr_inv (t0 n w : N) (m : StepMachine) : Prop :=
  correction_active m = true /\
  correction_no_progress_steps m = N.min u32_max n /\
  correction_last_material_progress_ms m = N.min u64_max (t0 + w).

Lemma corr_inv_step t0 n w m e :
  quiet e -> corr_inv t0 n w m ->
  corr_inv t0 (n + completions [e]) (w + waited [e]) (step_ev m e).
Proof.
  intros Hq (Ha & Hs & Hl). destruct e; simpl in *; try done.
  - unfold corr_inv; simpl. rewrite !N.add_0_r. done.
  - unfold begin_correction. rewrite Ha, !N.add_0_r. done.
  - unfold exclude_recovery_wait, corr_inv. rewrite Ha; simpl. split_and!; [done| |]; sat_lia.
  - unfold complete_at_with_material_progress, next_correction, corr_inv. subst material.
    rewrite Ha; simpl. split_and!; [done| |]; sat_lia.
Qed.

Lemma completions_cons e evs : completions (e :: evs) = completions [e] + completions evs.
Proof. destruct e; simpl; lia. Qed.
Lemma waited_cons e evs : waited (e :: evs) = waited [e] + waited evs.
Proof. destruct e; simpl; lia. Qed.

Lemma corr_inv_run evs : forall t0 n w m,
  Forall quiet evs -> corr_inv t0 n w m ->
  corr_inv t0 (n + completions evs) (w + waited evs) (run_evs m evs).
Proof.
  induction evs as [|e evs IH]; intros t0 n w m Hq H.
  - simpl. by rewrite !N.add_0_r.
  - apply Forall_cons in Hq as [He Hq]. rewrite completions_cons, waited_cons, !N.add_assoc.
    apply IH; [done|]. by apply corr_inv_step.
Qed.

Lemma corr_inv_begin m t0 :
  correction_active m = false -> t0 <= u64_max -> corr_inv t0 0 0 (begin_correction m t0).
Proof. intros Ha Ht. unfold begin_correction, corr_inv. rewrite Ha; simpl. sat_lia. Qed.

(** The advisory flag when only the step budget is set. *)
Definition flag_inv (n : N) (m : StepMachine) : Prop :=
  correction_advisory_emitted m = (step_limit (correction_limits m) / 2 <=? n).

Lemma flag_inv_run evs : forall t0 n w m,
  elapsed_ms_limit (correction_limits m) = 0 ->
  2 <= step_limit (correction_limits m) <= u32_max ->
  Forall quiet evs -> corr_inv t0 n w m -> flag_inv n m ->
  flag_inv (n + completions evs) (run_evs m evs).
Proof.
  induction evs as [|e evs IH]; intros t0 n w m He HL Hq Hc Hf;
    [simpl; by rewrite N.add_0_r|].
  apply Forall_cons in Hq as [Hqe Hq]. rewrite completions_cons, N.add_assoc.
  pose proof (corr_inv_step _ _ _ _ _ Hqe Hc) as Hc'.
  assert (Hlim : correction_limits (step_ev m e) = correction_limits m).
  { by destruct (limits_run [e] m) as (_ & _ & ?). }
  eapply IH; try done; rewrite ?Hlim; try done.
  destruct Hc as (Ha & Hs & Hl). unfold flag_inv in *. rewrite Hlim.
  destruct e; simpl in *; try done; rewrite ?N.add_0_r; try done.
  - unfold begin_correction. by rewrite Ha.
  - unfold exclude_recovery_wait. by rewrite Ha.
  - unfold complete_at_with_material_progress, next_correction. subst material. rewrite Ha; simpl.
    unfold correction_advised, correction_exhausted, limit_reached, advisory_limit.
    rewrite He, Hs, Hf; simpl. rewrite !orb_false_r.
    set (L := step_limit (correction_limits m)) in *.
    assert (L / 2 < L) by (apply N.div_lt; lia).
    assert (1 <= L / 2) by (apply N.div_le_lower_bound; lia).
    assert ((L =? 0) = false) as -> by (apply N.eqb_neq; lia).
    assert ((L / 2 =? 0) = false) as -> by (apply N.eqb_neq; lia). simpl.
    replace (N.min u32_max n +|32 1) with (N.min u32_max (n + 1)) by sat_lia.
    destruct (L / 2 <=? n) eqn:E1, (L / 2 <=? N.min u32_max (n + 1)) eqn:E2,
      (L <=? N.min u32_max (n + 1)) eqn:E3, (L / 2 <=? n + 1) eqn:E4; simpl; try done;
      Nbool; unfold u32_max in *; lia.
Qed.

(** ** Properties *)

(** The repetition guard. After any trace of calls, the
    counter a completion reports is the length of the longest suffix of the
    completed actions that repeats its fingerprint without progress (saturated
    at [u32::MAX]); outside a correction the machine stops exactly when a
    nonzero limit is reached, and advises exactly when the counter meets the
    advisory limit, which never lies beyond the stop limit. *)
Theorem repetition_guard_spec adv stop lims evs snap fp p mat ms :
  let m := run_evs (with_limits adv stop lims) evs in
  let c := snd (complete_at_with_material_progress m snap fp p mat ms) in
  let n := N.min u32_max (repetition ((fp, p) :: history_of evs [])) in
  sc_repeated_no_progress c = n /\
  (1 <= no_progress_advisory_limit m /\ (stop <> 0 -> no_progress_advisory_limit m <= stop)) /\
  (correction_active m = false ->
     sc_should_stop c = (negb (stop =? 0) && (stop <=? n)) /\
     sc_advisory c = (if n =? no_progress_advisory_limit m
                      then Some (semantic_advisory_text n) else None)).
Proof.
  intros m c n.
  assert (Hinv : rep_inv m (history_of evs [])) by (by apply rep_inv_run).
  assert (Hn : next_repeated m fp p = n) by (by apply next_repeated_spec).
  destruct (limits_run evs (with_limits adv stop lims)) as (Hstop & Hadv & _).
  split_and!.
  - subst c. unfold complete_at_with_material_progress, next_correction.
    destruct (correction_active m), mat; simpl; done.
  - subst m. rewrite Hadv. simpl. destruct (stop =? 0) eqn:E; Nbool; sat_lia.
  - subst m. rewrite Hadv. simpl. intros Hs. destruct (stop =? 0) eqn:E; Nbool; sat_lia.
  - intros Ha. subst c. unfold complete_at_with_material_progress. rewrite Ha; simpl.
    fold m in Hstop. rewrite Hn, Hstop. done.
Qed.

Lemma repetition_guard_spec_witness :
  let s := mkStepSnapshot 0 1 in
  let evs := [EvComplete s "a" false false 1; EvComplete s "b" false false 2] in
  sc_should_stop (snd (complete_at_with_material_progress
    (run_evs (with_limits 1 2 (mkCorrectionProgressLimits 0 0)) evs) s "b" false false 3)) = true.
Proof.
  intros s evs.
  destruct (repetition_guard_spec 1 2 (mkCorrectionProgressLimits 0 0) evs s "b" false false 3)
    as (_ & _ & H).
  destruct H as [H _]; [vm_compute; reflexivity|]. etransitivity; [exact H|]. vm_compute. reflexivity.
Defined.

(** The correction budgets. From [begin_correction] at [t0],
    through any calls that report no material progress and do not end the
    correction (repeated begins included), the completion at [ms] counts every
    step since [t0] and measures the time since [t0] with all recovery waits
    excluded; the correction stops exactly when one of its nonzero budgets is
    used up. *)
Theorem correction_budget_spec m t0 evs snap fp p ms :
  correction_active m = false -> t0 <= u64_max -> Forall quiet evs ->
  let m1 := run_evs (begin_correction m t0) evs in
  let c := snd (complete_at_with_material_progress m1 snap fp p false ms) in
  let steps := N.min u32_max (1 + completions evs) in
  let elapsed := ms - N.min u64_max (t0 + waited evs) in
  sc_correction_no_progress_steps c = steps /\
  sc_correction_no_progress_elapsed_ms c = elapsed /\
  (sc_stop_reason c = Some (correction_stop_text steps elapsed)
     <-> correction_exhausted (correction_limits m) steps elapsed = true).
Proof.
  intros Ha Ht Hq m1 c steps elapsed.
  pose proof (corr_inv_run evs _ _ _ _ Hq (corr_inv_begin m t0 Ha Ht)) as (Ha1 & Hs1 & Hl1).
  fold m1 in Ha1, Hs1, Hl1. rewrite !N.add_0_l in *.
  assert (Hlim : correction_limits m1 = correction_limits m).
  { subst m1. destruct (limits_run evs (begin_correction m t0)) as (_ & _ & ->).
    unfold begin_correction. by rewrite Ha. }
  subst c. unfold complete_at_with_material_progress, next_correction.
  rewrite Ha1, Hs1, Hl1, Hlim; simpl.
  replace (N.min u32_max (completions evs) +|32 1) with steps by (subst steps; sat_lia).
  fold elapsed. split_and!; try done.
  destruct (correction_exhausted (correction_limits m) steps elapsed); [done|].
  split; [|done]. destruct (limit_reached _ _); [|done].
  unfold semantic_stop_text, correction_stop_text. simpl. discriminate.
Qed.

Lemma correction_budget_spec_witness :
  let s := mkStepSnapshot 0 1 in
  let m := with_limits 8 10 (mkCorrectionProgressLimits 16 300000) in
  sc_correction_no_progress_elapsed_ms (snd (complete_at_with_material_progress
    (run_evs (begin_correction m 100) [EvBegin 1; EvWait 600000]) s "read" false false 600200))
  = 100.
Proof.
  intros s m.
  destruct (correction_budget_spec m 100 [EvBegin 1; EvWait 600000] s "read" false 600200)
    as (_ & H & _); [reflexivity|vm_compute; discriminate|repeat constructor|].
  exact H.
Defined.

(** A correction with a step budget [L >= 2] and no time budget
    advises once, at step [L / 2], and stops from step [L] on; the advisory
    always comes before the stop. *)
Theorem correction_advises_once_then_stops m t0 evs snap fp p ms :
  correction_active m = false -> t0 <= u64_max ->
  elapsed_ms_limit (correction_limits m) = 0 ->
  2 <= step_limit (correction_limits m) <= u32_max ->
  Forall quiet evs -> completions evs < u32_max ->
  let L := step_limit (correction_limits m) in
  let k := 1 + completions evs in
  let m1 := run_evs (begin_correction m t0) evs in
  let c := snd (complete_at_with_material_progress m1 snap fp p false ms) in
  (sc_advisory c = Some (correction_advisory_text k (sc_correction_no_progress_elapsed_ms c))
     <-> k = L / 2) /\
  (L <= k -> sc_should_stop c = true) /\
  L / 2 < L.
Proof.
  intros Ha Ht He HL Hq Hk L k m1 c.
  assert (Hlim : correction_limits (begin_correction m t0) = correction_limits m).
  { unfold begin_correction. by rewrite Ha. }
  pose proof (corr_inv_begin m t0 Ha Ht) as H0.
  pose proof (corr_inv_run evs _ _ _ _ Hq H0) as (Ha1 & Hs1 & _).
  assert (Hf : flag_inv (0 + completions evs) m1).
  { eapply flag_inv_run; rewrite ?Hlim; eauto. unfold flag_inv. rewrite Hlim.
    unfold begin_correction. rewrite Ha; simpl.
    symmetry. apply N.leb_gt. apply N.div_str_pos. lia. }
  assert (Hlim1 : correction_limits m1 = correction_limits m).
  { subst m1. destruct (limits_run evs (begin_correction m t0)) as (_ & _ & ->). done. }
  fold m1 in Ha1, Hs1. rewrite !N.add_0_l in *. unfold flag_inv in Hf. rewrite Hlim1 in Hf.
  fold L in HL, Hf.
  assert (L / 2 < L) by (apply N.div_lt; lia).
  assert (1 <= L / 2) by (apply N.div_le_lower_bound; lia).
  subst c. unfold complete_at_with_material_progress, next_correction.
  rewrite Ha1, Hs1, Hf, Hlim1; simpl.
  unfold correction_advised, correction_exhausted, limit_reached, advisory_limit.
  rewrite He; simpl. fold L. rewrite !orb_false_r.
  assert ((L =? 0) = false) as -> by (apply N.eqb_neq; lia).
  assert ((L / 2 =? 0) = false) as -> by (apply N.eqb_neq; lia). simpl.
  replace (N.min u32_max (completions evs) +|32 1) with k by (subst k; sat_lia).
  split_and!; [|intros Hge; by replace (L <=? k) with true by (symmetry; by apply N.leb_le)|done].
  destruct (L / 2 <=? k) eqn:E2, (L <=? k) eqn:E3, (L / 2 <=? completions evs) eqn:E4; simpl;
    Nbool; split; try lia; try done;
    try (intros; destruct (_ =? _); [|done]; unfold semantic_advisory_text,
           correction_advisory_text; simpl; discriminate).
Qed.

Lemma correction_advises_once_then_stops_witness :
  let s := mkStepSnapshot 0 1 in
  let m := with_limits 3 0 (mkCorrectionProgressLimits 4 0) in
  let m1 := run_evs (begin_correction m 5) [EvComplete s "x" false false 6] in
  sc_advisory (snd (complete_at_with_material_progress m1 s "y" false false 9))
  = Some (correction_advisory_text 2 4).
Proof.
  intros s m m1.
  destruct (correction_advises_once_then_stops m 5 [EvComplete s "x" false false 6] s "y" false 9)
    as (H & _ & _);
    [reflexivity|vm_compute; discriminate|reflexivity|vm_compute; split; discriminate
    |repeat constructor|vm_compute; reflexivity|].
  apply H. reflexivity.
Defined.

(** Under the default limits no trace of calls, however long and
    with or without corrections, makes the machine stop the turn. *)
Theorem default_policy_never_stops evs snap fp p mat ms :
  sc_should_stop
    (snd (complete_at_with_material_progress (run_evs default_machine evs) snap fp p mat ms))
  = false.
Proof.
  destruct (limits_run evs default_machine) as (Hn & _ & Hc). simpl in Hn, Hc.
  set (m := run_evs default_machine evs) in *.
  unfold complete_at_with_material_progress, correction_exhausted, next_correction.
  rewrite Hc, Hn. by destruct (correction_active m), mat.
Qed.
