(* ===== verification/Governor.v ===== *)
(** * The runtime governor

    [golutra-agent-governor/src/lib.rs]: the deterministic gate the agent loop
    consults before a provider call, a tool call, after a tool result and
    before completion. Hard limits (a zero limit means unlimited), the security
    boundary and the policy decision choose the action; lexical goal alignment
    only adds an advisory. The Unicode tables behind [char::is_alphanumeric]
    and [str::to_lowercase] are parameters of the section. *)
From S2P Require Import Prelude RustStr Core.
Open Scope N_scope.

(*@ governor/src/lib.rs GoalLedger *)
Record GoalLedger := mkGoalLedger {
  gl_task_id : TaskId;
  original_objective : string;
  success_criteria : list string;
  current_plan : list string;
  completed_steps : list string;
  open_risks : list string;
}.

(*@ governor/src/lib.rs GoalAlignmentCheck *)
Record GoalAlignmentCheck := mkGoalAlignmentCheck {
  ga_task_id : TaskId;
  ga_aligned : bool;
  ga_alignment_score : N;
  ga_drift_type : option string;
  ga_reason : string;
  ga_evidence_refs : list EvidenceId;
}.

Module GovernorAction.
(*@ governor/src/lib.rs GovernorAction *)
Inductive GovernorAction := Allow | Warn | AskUser | Block.
#[global] Instance GovernorAction_eq_dec : EqDecision GovernorAction.
Proof. solve_decision. Defined.
End GovernorAction.
Abbreviation GovernorAction := GovernorAction.GovernorAction.

Module GovernorPhase.
(*@ governor/src/lib.rs GovernorPhase *)
Inductive GovernorPhase := Provider | Tool | ToolResult | Completion.
#[global] Instance GovernorPhase_eq_dec : EqDecision GovernorPhase.
Proof. solve_decision. Defined.
End GovernorPhase.
Abbreviation GovernorPhase := GovernorPhase.GovernorPhase.

(*@ governor/src/lib.rs GovernorAdvisory *)
Record GovernorAdvisory := mkGovernorAdvisory { advisory_code : string; advisory_reason : string }.

(*@ governor/src/lib.rs GovernorLimits *)
Record GovernorLimits := mkGovernorLimits {
  max_iterations : N;
  max_tool_calls : N;
  max_failed_tool_calls : N;
  max_planned_input_tokens : N;
  max_elapsed_ms : N;
  max_estimated_cost_microusd : N;
  max_correction_no_progress_steps : N;
  max_correction_no_progress_ms : N;
}.

(*@ governor/src/lib.rs GovernorObservation *)
Record GovernorObservation := mkGovernorObservation {
  obs_phase : GovernorPhase;
  obs_iteration : N;
  obs_tool_calls : N;
  obs_failed_tool_calls : N;
  obs_consecutive_failed_tool_calls : N;
  obs_planned_input_tokens : N;
  obs_elapsed_ms : N;
  obs_latest_action : string;
  obs_estimated_cost_microusd : option N;
  obs_policy_decision : option PolicyDecision;
  obs_policy_block_disposition : option PolicyBlockDisposition;
  obs_security_risk : string;
}.

(*@ governor/src/lib.rs RuntimeGovernorDecision *)
Record RuntimeGovernorDecision := mkRuntimeGovernorDecision {
  gd_task_id : TaskId;
  gd_phase : GovernorPhase;
  gd_action : GovernorAction;
  gd_reason : string;
  gd_budget_risk : string;
  gd_security_risk : string;
  gd_iteration : N;
  gd_tool_calls : N;
  gd_failed_tool_calls : N;
  gd_consecutive_failed_tool_calls : N;
  gd_alignment : GoalAlignmentCheck;
  gd_advisories : list GovernorAdvisory;
}.

(*@ governor/src/lib.rs RuntimeGovernorDecision::permits_execution *)
Definition permits_execution (d : RuntimeGovernorDecision) : bool :=
  match gd_action d with GovernorAction.Allow | GovernorAction.Warn => true | _ => false end.

(*@ governor/src/lib.rs at_or_above_percent *)
Definition at_or_above_percent (value limit percent : N) : bool :=
  (0 <? limit) && (limit *|128 percent <=? value *|128 100).

(** Limits of [GovernorLimits::default()]: everything unlimited. *)
(*@ governor/src/lib.rs Default::default for RuntimeGovernor *)
Definition default_limits : GovernorLimits := mkGovernorLimits 0 0 0 0 0 0 0 0.

Section Governor.
Context (is_alphanumeric : N -> bool) (to_lowercase : string -> string).

(** [value.split(|c| !c.is_alphanumeric() && c != '_' && c != '-')]: the pieces
    between separator characters, empty ones included. *)
Fixpoint split_terms (cur : list N) (l : list N) : list string :=
  match l with
  | [] => [of_chars (reverse cur)]
  | c :: l' =>
      if negb (is_alphanumeric c) && negb (c =? 95) && negb (c =? 45)
      then of_chars (reverse cur) :: split_terms [] l'
      else split_terms (c :: cur) l'
  end.

Definition STOP_WORDS : list string :=
  ["a"; "an"; "and"; "for"; "in"; "of"; "on"; "or"; "the"; "to"; "with"; "use"; "using"].

(*@ governor/src/lib.rs terms *)
Definition terms (values : list string) : gset string :=
  list_to_set
    (List.filter (fun t => negb (bool_decide (t ∈ STOP_WORDS)))
      (List.filter (fun t => 2 <=? char_count t)
        (List.flat_map (fun v => map to_lowercase (split_terms [] (chars v))) values))).

(*@ governor/src/lib.rs check_goal_alignment *)
Definition check_goal_alignment (ledger : GoalLedger) (latest_action : string)
    : GoalAlignmentCheck :=
  let goal_terms :=
    terms (original_objective ledger :: success_criteria ledger ++ current_plan ledger) in
  let action_terms := terms [latest_action] in
  let matching_terms := N.of_nat (size (goal_terms ∩ action_terms)) in
  let denominator :=
    N.max (N.min (N.of_nat (size goal_terms)) (N.of_nat (size action_terms))) 1 in
  let quotient := sat_mul usize_max matching_terms 100 / denominator in
  let score := if quotient <=? u8_max then quotient else 100 in
  let aligned :=
    negb (trim_is_empty latest_action) && (bool_decide (goal_terms = ∅) || (20 <=? score)) in
  {| ga_task_id := gl_task_id ledger;
     ga_aligned := aligned;
     ga_alignment_score := score;
     ga_drift_type := if negb aligned then Some "weak_goal_alignment" else None;
     ga_reason :=
       if aligned then "latest action shares meaningful terms with the objective or plan"
       else "latest action has no meaningful lexical overlap with the objective or plan";
     ga_evidence_refs := [] |}.

(** The [approaching_budget] condition of [evaluate]. *)
(*@ governor/src/lib.rs:158-163 RuntimeGovernor::evaluate *)
Definition approaching_budget (limits : GovernorLimits) (o : GovernorObservation) : bool :=
  ((0 <? max_iterations limits)
     && at_or_above_percent (obs_iteration o) (max_iterations limits) 80)
  || at_or_above_percent (obs_tool_calls o) (max_tool_calls limits) 80
  || is_some_and
       (fun cost => at_or_above_percent cost (max_estimated_cost_microusd limits) 80)
       (obs_estimated_cost_microusd o).

(** The advisories of [evaluate], in the order they are pushed. *)
(*@ governor/src/lib.rs:135-170 RuntimeGovernor::evaluate *)
Definition advisories (limits : GovernorLimits) (aligned : bool) (o : GovernorObservation)
    : list GovernorAdvisory :=
  (if bool_decide (obs_policy_decision o = Some PolicyDecision.Deny)
      || (bool_decide (obs_policy_decision o = Some PolicyDecision.Block)
          && bool_decide (obs_policy_block_disposition o
                          = Some PolicyBlockDisposition.Recoverable))
   then [mkGovernorAdvisory "recoverable_policy_block"
           "policy rejected the current tool call; the loop may recover with a safer action"]
   else []) ++
  (if negb aligned
      && (match obs_phase o with
          | GovernorPhase.Tool | GovernorPhase.Completion => true | _ => false end)
   then [mkGovernorAdvisory "weak_goal_alignment"
           "action has weak lexical alignment with the goal; this signal is advisory"]
   else []) ++
  (if approaching_budget limits o
   then [mkGovernorAdvisory "approaching_budget"
           "runtime consumption has reached at least 80% of a configured hard limit"]
   else []).

(** The hard decision of [evaluate]: action, reason and budget risk, first match
    wins. *)
(*@ governor/src/lib.rs:171-244 RuntimeGovernor::evaluate *)
Definition hard_decision (limits : GovernorLimits) (objective : string) (risk : string)
    (o : GovernorObservation) : GovernorAction * string * string :=
  if trim_is_empty objective then
    (GovernorAction.Block, "runtime objective is empty", "low")
  else if bool_decide (risk = "critical")
      || (bool_decide (obs_policy_decision o = Some PolicyDecision.Block)
          && negb (bool_decide (obs_policy_block_disposition o
                                = Some PolicyBlockDisposition.Recoverable))) then
    (GovernorAction.Block, "runtime security or policy boundary rejected the action", "low")
  else if bool_decide (risk = "high") then
    (GovernorAction.AskUser,
     "runtime action has high security risk and requires explicit review", "low")
  else if is_some_and
      (fun cost => (0 <? max_estimated_cost_microusd limits)
                   && (max_estimated_cost_microusd limits <? cost))
      (obs_estimated_cost_microusd o) then
    (GovernorAction.AskUser, "runtime estimated cost exceeds the configured budget", "exceeded")
  else if (0 <? max_iterations limits) && (max_iterations limits <? obs_iteration o) then
    (GovernorAction.Block, "runtime iteration budget exceeded", "exceeded")
  else if (0 <? max_tool_calls limits) && (max_tool_calls limits <? obs_tool_calls o) then
    (GovernorAction.Block, "runtime tool-call budget exceeded", "exceeded")
  else if (0 <? max_failed_tool_calls limits)
      && (max_failed_tool_calls limits <=? obs_consecutive_failed_tool_calls o)
      && bool_decide (obs_phase o = GovernorPhase.ToolResult) then
    (GovernorAction.Block, "runtime consecutive failed-tool budget reached", "exceeded")
  else if (0 <? max_planned_input_tokens limits)
      && (max_planned_input_tokens limits <? obs_planned_input_tokens o) then
    (GovernorAction.AskUser, "planned provider input exceeds the runtime token budget", "exceeded")
  else if (0 <? max_elapsed_ms limits) && (max_elapsed_ms limits <=? obs_elapsed_ms o) then
    (GovernorAction.AskUser, "runtime wall-clock budget exceeded", "exceeded")
  else
    (GovernorAction.Allow, "runtime action is within hard policy and budget boundaries", "low").

(*@ governor/src/lib.rs RuntimeGovernor::evaluate *)
Definition evaluate (limits : GovernorLimits) (ledger : GoalLedger) (o : GovernorObservation)
    : RuntimeGovernorDecision :=
  let alignment := check_goal_alignment ledger (obs_latest_action o) in
  let risk := to_ascii_lowercase (trim (obs_security_risk o)) in
  let '(action, reason, budget_risk) :=
    hard_decision limits (original_objective ledger) risk o in
  {| gd_task_id := gl_task_id ledger;
     gd_phase := obs_phase o;
     gd_action := action;
     gd_reason := reason;
     gd_budget_risk :=
       if bool_decide (budget_risk = "low") && approaching_budget limits o then "high"
       else budget_risk;
     gd_security_risk := if bool_decide (risk = "") then "unknown" else risk;
     gd_iteration := obs_iteration o;
     gd_tool_calls := obs_tool_calls o;
     gd_failed_tool_calls := obs_failed_tool_calls o;
     gd_consecutive_failed_tool_calls := obs_consecutive_failed_tool_calls o;
     gd_alignment := alignment;
     gd_advisories := advisories limits (ga_aligned alignment) o |}.
End Governor.

(** ** Lemmas *)

(** The conditions under which [hard_decision] lets the action through: the
    conjunction of the negated guards. *)
Definition within_boundaries (limits : GovernorLimits) (objective risk : string)
    (o : GovernorObservation) : Prop :=
  trim objective <> "" /\ risk <> "critical" /\ risk <> "high" /\
  ~ (obs_policy_decision o = Some PolicyDecision.Block /\
     obs_policy_block_disposition o <> Some PolicyBlockDisposition.Recoverable) /\
  (forall cost, obs_estimated_cost_microusd o = Some cost ->
     max_estimated_cost_microusd limits <> 0 -> cost <= max_estimated_cost_microusd limits) /\
  (max_iterations limits <> 0 -> obs_iteration o <= max_iterations limits) /\
  (max_tool_calls limits <> 0 -> obs_tool_calls o <= max_tool_calls limits) /\
  (max_failed_tool_calls limits <> 0 -> obs_phase o = GovernorPhase.ToolResult ->
     obs_consecutive_failed_tool_calls o < max_failed_tool_calls limits) /\
  (max_planned_input_tokens limits <> 0 ->
     obs_planned_input_tokens o <= max_planned_input_tokens limits) /\
  (max_elapsed_ms limits <> 0 -> obs_elapsed_ms o < max_elapsed_ms limits).

Lemma trim_is_empty_false s : trim_is_empty s = false <-> trim s <> "".
Proof.
  rewrite trim_empty_iff. destruct (trim_is_empty s); split; congruence.
Qed.

Lemma over_limit_false limit value :
  ((0 <? limit) && (limit <? value)) = false <-> (limit <> 0 -> value <= limit).
Proof. destruct (0 <? limit) eqn:E1, (limit <? value) eqn:E2; simpl; Nbool; split; try done; lia. Qed.

Lemma at_limit_false limit value :
  ((0 <? limit) && (limit <=? value)) = false <-> (limit <> 0 -> value < limit).
Proof. destruct (0 <? limit) eqn:E1, (limit <=? value) eqn:E2; simpl; Nbool; split; try done; lia. Qed.

Lemma cost_over_false limit (c : option N) :
  is_some_and (fun cost => (0 <? limit) && (limit <? cost)) c = false <->
  (forall cost, c = Some cost -> limit <> 0 -> cost <= limit).
Proof.
  destruct c as [c|]; simpl; [|split; [by intros _ ? ?|done]].
  rewrite over_limit_false. split; [by intros H cost [= <-]|eauto].
Qed.

Lemma policy_block_false o :
  (bool_decide (obs_policy_decision o = Some PolicyDecision.Block)
   && negb (bool_decide (obs_policy_block_disposition o
                         = Some PolicyBlockDisposition.Recoverable))) = false <->
  ~ (obs_policy_decision o = Some PolicyDecision.Block /\
     obs_policy_block_disposition o <> Some PolicyBlockDisposition.Recoverable).
Proof.
  rewrite andb_false_iff, negb_false_iff, bool_decide_eq_false, bool_decide_eq_true.
  destruct (decide (obs_policy_block_disposition o = Some PolicyBlockDisposition.Recoverable));
    tauto.
Qed.

Lemma failed_tools_false limits o :
  ((0 <? max_failed_tool_calls limits)
   && (max_failed_tool_calls limits <=? obs_consecutive_failed_tool_calls o)
   && bool_decide (obs_phase o = GovernorPhase.ToolResult)) = false <->
  (max_failed_tool_calls limits <> 0 -> obs_phase o = GovernorPhase.ToolResult ->
   obs_consecutive_failed_tool_calls o < max_failed_tool_calls limits).
Proof.
  rewrite andb_false_iff, at_limit_false, bool_decide_eq_false.
  destruct (decide (obs_phase o = GovernorPhase.ToolResult)); tauto.
Qed.

(** The decision is [Allow] exactly within the boundaries. *)
Lemma hard_decision_allow limits objective risk o :
  fst (fst (hard_decision limits objective risk o)) = GovernorAction.Allow <->
  within_boundaries limits objective risk o.
Proof.
  unfold hard_decision, within_boundaries.
  rewrite <- trim_is_empty_false, <- cost_over_false, <- !over_limit_false, <- failed_tools_false,
    <- at_limit_false, <- policy_block_false.
  rewrite <- (bool_decide_eq_false (risk = "critical")), <- (bool_decide_eq_false (risk = "high")).
  generalize (bool_decide (risk = "critical")) as crit.
  generalize (bool_decide (risk = "high")) as high.
  generalize (bool_decide (obs_policy_decision o = Some PolicyDecision.Block)
              && negb (bool_decide (obs_policy_block_disposition o
                                    = Some PolicyBlockDisposition.Recoverable))) as blocked.
  intros. destruct crit, blocked, high; simpl;
    repeat match goal with
    | |- context [if ?b then _ else _] => destruct b; simpl; [split; intuition congruence|]
    end; split; intuition congruence.
Qed.

Lemma hard_decision_no_warn limits objective risk o :
  fst (fst (hard_decision limits objective risk o)) <> GovernorAction.Warn.
Proof. unfold hard_decision. repeat case_match; simpl; discriminate. Qed.

Lemma evaluate_action alnum lower limits ledger o :
  gd_action (evaluate alnum lower limits ledger o) =
  fst (fst (hard_decision limits (original_objective ledger)
              (to_ascii_lowercase (trim (obs_security_risk o))) o)).
Proof. unfold evaluate. by destruct (hard_decision _ _ _ _) as [[? ?] ?]. Qed.

(** Matching terms are at most the smaller term set. *)
Lemma matching_le (A B : gset string) :
  N.of_nat (size (A ∩ B)) <= N.max (N.min (N.of_nat (size A)) (N.of_nat (size B))) 1.
Proof.
  assert (size (A ∩ B) <= size A)%nat by (apply subseteq_size; set_solver).
  assert (size (A ∩ B) <= size B)%nat by (apply subseteq_size; set_solver).
  lia.
Qed.

(** ** Properties *)

Section GovernorProperties.
Context (is_alphanumeric : N -> bool) (to_lowercase : string -> string).

(** The governor permits execution exactly when the objective
    is not blank, the normalized security risk is neither critical nor high,
    the policy decision is not a terminal block, and every configured (nonzero)
    budget is respected; it never answers [Warn]. *)
Theorem governor_permits_iff limits ledger o :
  permits_execution (evaluate is_alphanumeric to_lowercase limits ledger o) = true <->
  within_boundaries limits (original_objective ledger)
    (to_ascii_lowercase (trim (obs_security_risk o))) o.
Proof.
  rewrite <- hard_decision_allow. unfold permits_execution. rewrite evaluate_action.
  pose proof (hard_decision_no_warn limits (original_objective ledger)
                (to_ascii_lowercase (trim (obs_security_risk o))) o) as Hw.
  destruct (fst (fst _)); split; try done; congruence.
Qed.

(** The security boundary outranks every budget. A critical risk
    (in any letter case, with any surrounding whitespace) or a block that is
    not marked recoverable is always blocked, and a high risk is never executed
    without the user, whatever the limits and the other observations are. *)
Theorem security_boundary_first limits ledger o :
  let d := evaluate is_alphanumeric to_lowercase limits ledger o in
  let risk := to_ascii_lowercase (trim (obs_security_risk o)) in
  (risk = "critical" \/
   (obs_policy_decision o = Some PolicyDecision.Block /\
    obs_policy_block_disposition o <> Some PolicyBlockDisposition.Recoverable) ->
   gd_action d = GovernorAction.Block) /\
  (risk = "high" -> gd_action d = GovernorAction.Block \/ gd_action d = GovernorAction.AskUser).
Proof.
  cbv zeta. rewrite evaluate_action. unfold hard_decision. split.
  - intros H. destruct (trim_is_empty _); [done|].
    replace (_ || _) with true; [done|]. symmetry.
    destruct H as [->|[-> Hd]]; [done|]. rewrite (bool_decide_false _ Hd). apply orb_true_r.
  - intros ->. destruct (trim_is_empty _); [by left|]. destruct (_ || _); [by left|]. by right.
Qed.

(** Lexical goal alignment never decides. Two evaluations whose
    ledgers share the objective and whose observations differ only in the latest
    action reach the same action, reason and budget risk; the difference is
    confined to the alignment record and the advisories. *)
Theorem alignment_is_advisory limits ledger ledger' o action' :
  original_objective ledger' = original_objective ledger ->
  let o' := {| obs_phase := obs_phase o; obs_iteration := obs_iteration o;
               obs_tool_calls := obs_tool_calls o;
               obs_failed_tool_calls := obs_failed_tool_calls o;
               obs_consecutive_failed_tool_calls := obs_consecutive_failed_tool_calls o;
               obs_planned_input_tokens := obs_planned_input_tokens o;
               obs_elapsed_ms := obs_elapsed_ms o; obs_latest_action := action';
               obs_estimated_cost_microusd := obs_estimated_cost_microusd o;
               obs_policy_decision := obs_policy_decision o;
               obs_policy_block_disposition := obs_policy_block_disposition o;
               obs_security_risk := obs_security_risk o |} in
  let d := evaluate is_alphanumeric to_lowercase limits ledger o in
  let d' := evaluate is_alphanumeric to_lowercase limits ledger' o' in
  gd_action d' = gd_action d /\ gd_reason d' = gd_reason d /\
  gd_budget_risk d' = gd_budget_risk d /\ gd_security_risk d' = gd_security_risk d.
Proof.
  intros Ho. cbv zeta. unfold evaluate, hard_decision, approaching_budget. simpl. rewrite Ho.
  repeat match goal with |- context [if ?b then _ else _] => destruct b end; done.
Qed.

(** The alignment score is the rounded-down percentage of the
    smaller term set that is matched; it is at most 100, so [u8::try_from] never
    falls back. *)
Theorem alignment_score_percentage ledger action :
  N.of_nat (size (terms is_alphanumeric to_lowercase [action])) < 2 ^ 50 ->
  let goal := terms is_alphanumeric to_lowercase
                (original_objective ledger :: success_criteria ledger ++ current_plan ledger) in
  let act := terms is_alphanumeric to_lowercase [action] in
  let c := check_goal_alignment is_alphanumeric to_lowercase ledger action in
  ga_alignment_score c =
    100 * N.of_nat (size (goal ∩ act))
      / N.max (N.min (N.of_nat (size goal)) (N.of_nat (size act))) 1
  /\ ga_alignment_score c <= 100.
Proof.
  intros Hs goal act c. pose proof (matching_le goal act) as Hm.
  set (d := N.max _ 1) in *. set (k := N.of_nat (size (goal ∩ act))) in *.
  assert (Hk : k < 2 ^ 50).
  { subst k. assert (size (goal ∩ act) <= size act)%nat by (apply subseteq_size; set_solver).
    fold act in Hs. lia. }
  assert (Hq : k * 100 / d <= 100).
  { apply N.Div0.div_le_upper_bound. lia. }
  assert (Hsat : sat_mul usize_max k 100 = k * 100).
  { unfold sat_mul, usize_max, u64_max. change (2 ^ 50) with 1125899906842624 in Hk. lia. }
  subst c. unfold check_goal_alignment. fold goal act. fold k. fold d. rewrite Hsat.
  simpl. rewrite (N.mul_comm 100).
  assert ((k * 100 / d <=? u8_max) = true) as -> by (apply N.leb_le; unfold u8_max; lia).
  done.
Qed.
End GovernorProperties.

(** An ASCII instance of the Unicode tables, for concrete evaluations. *)
Definition ascii_alphanumeric (c : N) : bool :=
  ((48 <=? c) && (c <=? 57)) || ((65 <=? c) && (c <=? 90)) || ((97 <=? c) && (c <=? 122)).

Definition ledger0 : GoalLedger :=
  mkGoalLedger 1 "implement runtime cancellation" ["cancellation tests pass"]
    ["add cancellation token"] [] [].
Definition observation0 : GovernorObservation :=
  mkGovernorObservation GovernorPhase.Tool 1 0 0 0 0 0 "add cancellation token tests" None None
    None " CRITICAL ".

Lemma security_boundary_first_witness :
  gd_action (evaluate ascii_alphanumeric to_ascii_lowercase default_limits ledger0 observation0)
  = GovernorAction.Block.
Proof.
  apply (security_boundary_first ascii_alphanumeric to_ascii_lowercase default_limits ledger0
           observation0).
  left. vm_compute. reflexivity.
Defined.

Lemma alignment_is_advisory_witness :
  gd_action (evaluate ascii_alphanumeric to_ascii_lowercase default_limits ledger0 observation0)
  = GovernorAction.Block.
Proof.
  destruct (alignment_is_advisory ascii_alphanumeric to_ascii_lowercase default_limits ledger0
              ledger0 observation0 "unrelated" eq_refl) as [H _].
  etransitivity; [symmetry; exact H|]. vm_compute. reflexivity.
Defined.

Lemma alignment_score_percentage_witness :
  ga_alignment_score (check_goal_alignment ascii_alphanumeric to_ascii_lowercase ledger0
                        "add cancellation token tests") <= 100.
Proof.
  apply (alignment_score_percentage ascii_alphanumeric to_ascii_lowercase ledger0
           "add cancellation token tests").
  vm_compute. reflexivity.
Defined.
