(* ===== verification/Delegation.v ===== *)
(** * Delegated-task budgets

    [golutra-agent-client/src/delegation_policy.rs]: the shared admission budget
    of one root task and its children. The [Mutex]-guarded [BudgetState] and the
    leases that point to it are one shared value, [Budget], that every operation
    takes and returns; a lease is an index into [b_leases], so all clones of an
    [Arc<DelegationLease>] alias the same [released] flag. An [Instant] or
    [DateTime] is a count of nanoseconds passed as an argument, a cancellation
    token the boolean its [is_cancelled] answers. The async checkpoint lock is
    not modelled. *)
From S2P Require Import Prelude RustStr Core.
Open Scope N_scope.

(*@ client/src/delegation_policy.rs MAX_DELEGATION_DEPTH *)
Definition MAX_DELEGATION_DEPTH : N := 1.
(*@ client/src/delegation_policy.rs DELEGATION_COST_BUDGET_KEY *)
Definition DELEGATION_COST_BUDGET_KEY : string := "_delegation_cost_budget_microusd".
(*@ client/src/delegation_policy.rs DEFAULT_DELEGATED_ACTIVE_CHILDREN *)
Definition DEFAULT_DELEGATED_ACTIVE_CHILDREN : N := 10.
(*@ client/src/delegation_policy.rs DEFAULT_DELEGATED_CHILD_TOKEN_RESERVATION *)
Definition DEFAULT_DELEGATED_CHILD_TOKEN_RESERVATION : N := 4096.
(*@ client/src/delegation_policy.rs MAX_DELEGATED_TOKEN_BUDGET *)
Definition MAX_DELEGATED_TOKEN_BUDGET : N := 128000.
(*@ client/src/delegation_policy.rs DELEGATED_PARENT_COMPLETION_RESERVE_DIVISOR *)
Definition DELEGATED_PARENT_COMPLETION_RESERVE_DIVISOR : N := 4.

Module DelegationLimit.
(*@ client/src/delegation_policy.rs DelegationLimit *)
Inductive DelegationLimit :=
| Cancelled | Elapsed | Depth | ActiveChildren | TokenBudget | CostBudget.
#[global] Instance DelegationLimit_eq_dec : EqDecision DelegationLimit.
Proof. solve_decision. Defined.

(*@ client/src/delegation_policy.rs DelegationLimit::code *)
Definition code (l : DelegationLimit) : string :=
  match l with
  | Cancelled => "cancelled"
  | Elapsed => "elapsed_budget_exhausted"
  | Depth => "maximum_depth_exceeded"
  | ActiveChildren => "child_concurrency_exceeded"
  | TokenBudget => "token_admission_budget_exceeded"
  | CostBudget => "cost_budget_exceeded"
  end.

(*@ client/src/delegation_policy.rs DelegationLimit::message *)
Definition message (l : DelegationLimit) : string :=
  match l with
  | Cancelled => "delegation was cancelled"
  | Elapsed => "delegation elapsed-time budget is exhausted"
  | Depth => "delegated child reached the maximum delegation depth"
  | ActiveChildren => "delegated child concurrency limit is reached"
  | TokenBudget => "delegated child output-token admission budget is exhausted"
  | CostBudget => "delegated child cost budget is exhausted"
  end.
End DelegationLimit.
Abbreviation DelegationLimit := DelegationLimit.DelegationLimit.

(*@ client/src/delegation_policy.rs BudgetState *)
Record BudgetState := mkBudgetState {
  active_children : N;
  started_children : N;
  reserved_tokens : N;
  spent_tokens : N;
  spent_output_tokens : N;
  reserved_cost_microusd : N;
  spent_cost_microusd : N;
}.
Definition default_budget_state : BudgetState := mkBudgetState 0 0 0 0 0 0 0.

(*@ client/src/delegation_policy.rs DelegationRecoveryState *)
Record DelegationRecoveryState := mkRecoveryState {
  rs_max_active_children : N;
  rs_root_session_id : SessionId;
  rs_parent_session_id : option SessionId;
  rs_parent_task_id : option TaskId;
  rs_parent_thread_id : option ThreadId;
  rs_depth : N;
  rs_remaining_elapsed_ms : option N;
  rs_local_remaining_elapsed_ms : option N;
  rs_max_tokens : option N;
  rs_max_cost_microusd : option N;
  rs_started_children : N;
  rs_spent_tokens : N;
  rs_spent_output_tokens : option N;
  rs_spent_cost_microusd : N;
}.

(*@ client/src/delegation_policy.rs TimedDelegationRecoveryState *)
Record TimedDelegationRecoveryState := mkTimed {
  captured_at : N;
  timed_state : DelegationRecoveryState;
}.

Definition with_remaining (root local : option N) (s : DelegationRecoveryState)
    : DelegationRecoveryState :=
  {| rs_max_active_children := rs_max_active_children s;
     rs_root_session_id := rs_root_session_id s;
     rs_parent_session_id := rs_parent_session_id s;
     rs_parent_task_id := rs_parent_task_id s;
     rs_parent_thread_id := rs_parent_thread_id s;
     rs_depth := rs_depth s;
     rs_remaining_elapsed_ms := root;
     rs_local_remaining_elapsed_ms := local;
     rs_max_tokens := rs_max_tokens s;
     rs_max_cost_microusd := rs_max_cost_microusd s;
     rs_started_children := rs_started_children s;
     rs_spent_tokens := rs_spent_tokens s;
     rs_spent_output_tokens := rs_spent_output_tokens s;
     rs_spent_cost_microusd := rs_spent_cost_microusd s |}.

Definition ns_per_ms : N := 1000000.

(*@ client/src/delegation_policy.rs TimedDelegationRecoveryState::refreshed *)
Definition refreshed (t : TimedDelegationRecoveryState) (now : N)
    : TimedDelegationRecoveryState :=
  let s := timed_state t in
  if now <? captured_at t then
    mkTimed now (with_remaining ((fun _ => 0) <$> rs_remaining_elapsed_ms s)
                   ((fun _ => 0) <$> rs_local_remaining_elapsed_ms s) s)
  else
    let elapsed_ms := (now - captured_at t) / ns_per_ms in
    mkTimed now
      (with_remaining ((fun remaining => remaining - elapsed_ms) <$> rs_remaining_elapsed_ms s)
         ((fun remaining => remaining - elapsed_ms) <$> rs_local_remaining_elapsed_ms s) s).

(*@ client/src/delegation_policy.rs DelegationLease *)
Record DelegationLease := mkLease {
  requested_tokens : N;
  requested_cost_microusd : N;
  released : bool;
}.

(** The shared budget with every lease it has granted. *)
(*@ client/src/delegation_policy.rs DelegationBudget *)
Record Budget := mkBudget {
  max_active_children : N;
  deadline : option N;
  max_tokens : option N;
  max_cost_microusd : option N;
  b_state : BudgetState;
  b_cancelled : bool;
  b_leases : list DelegationLease;
}.

Definition with_state (s : BudgetState) (ls : list DelegationLease) (b : Budget) : Budget :=
  {| max_active_children := max_active_children b; deadline := deadline b;
     max_tokens := max_tokens b; max_cost_microusd := max_cost_microusd b;
     b_state := s; b_cancelled := b_cancelled b; b_leases := ls |}.

(*@ client/src/delegation_policy.rs DelegationBudget::configured *)
Definition budget_configured (now : N) (max_elapsed_ms max_cost : option N) (cancelled : bool)
    (max_active : N) : Budget :=
  {| max_active_children := N.max max_active 1;
     deadline := (fun ms => now + ms * ns_per_ms) <$> max_elapsed_ms;
     max_tokens := None;
     max_cost_microusd := max_cost;
     b_state := default_budget_state;
     b_cancelled := cancelled;
     b_leases := [] |}.

(** [u64::try_from(deadline.saturating_duration_since(now).as_millis())]. *)
Definition remaining_ms (deadline now : N) : N := N.min u64_max ((deadline - now) / ns_per_ms).

(*@ client/src/delegation_policy.rs DelegationBudget::remaining_elapsed_ms *)
Definition budget_remaining_elapsed_ms (b : Budget) (now : N) : option N :=
  (fun d => remaining_ms d now) <$> deadline b.

(*@ client/src/delegation_policy.rs DelegationBudget::is_expired *)
Definition budget_is_expired (b : Budget) (now : N) : bool :=
  bool_decide (budget_remaining_elapsed_ms b now = Some 0).

(** The cost a request reserves, or the refusal ([match] of [reserve]). *)
(*@ client/src/delegation_policy.rs:210-225 DelegationBudget::reserve *)
Definition reserved_cost (max_cost : option N) (committed : N) (requested : option N)
    : result DelegationLimit N :=
  match max_cost, requested with
  | Some max_cost, None =>
      ok_or DelegationLimit.CostBudget
        (option_filter (fun remaining => 0 <? remaining) (checked_sub max_cost committed))
  | Some max_cost, Some requested =>
      if max_cost <? committed +|64 requested then Err DelegationLimit.CostBudget
      else Ok requested
  | None, requested => Ok (default 0 requested)
  end.

(** [reserve] returns the lease's index. *)
(*@ client/src/delegation_policy.rs DelegationBudget::reserve *)
Definition reserve (b : Budget) (now : N) (requested_tokens : N) (requested_cost : option N)
    (cancelled : bool) : result DelegationLimit (Budget * nat) :=
  if cancelled || b_cancelled b then Err DelegationLimit.Cancelled
  else if budget_is_expired b now then Err DelegationLimit.Elapsed
  else
    let tokens := clamp 1 MAX_DELEGATED_TOKEN_BUDGET requested_tokens in
    let s := b_state b in
    if max_active_children b <=? active_children s then Err DelegationLimit.ActiveChildren
    else if is_some_and
        (fun max => max <? (spent_output_tokens s +|64 reserved_tokens s) +|64 tokens)
        (max_tokens b) then Err DelegationLimit.TokenBudget
    else
      let committed := spent_cost_microusd s +|64 reserved_cost_microusd s in
      let? cost := reserved_cost (max_cost_microusd b) committed requested_cost in
      let s' :=
        {| active_children := sat_add usize_max (active_children s) 1;
           started_children := sat_add usize_max (started_children s) 1;
           reserved_tokens := reserved_tokens s +|64 tokens;
           spent_tokens := spent_tokens s;
           spent_output_tokens := spent_output_tokens s;
           reserved_cost_microusd := reserved_cost_microusd s +|64 cost;
           spent_cost_microusd := spent_cost_microusd s |} in
      Ok (with_state s' (b_leases b ++ [mkLease tokens cost false]) b, length (b_leases b)).

(** The JSON object of [snapshot]. *)
(*@ client/src/delegation_policy.rs DelegationBudget::snapshot *)
Definition snapshot (b : Budget) (now : N) : list (string * json) :=
  let s := b_state b in
  let opt o := match o with Some n => JInt (Z.of_N n) | None => JNull end in
  let num n := JInt (Z.of_N n) in
  let committed_tokens := spent_output_tokens s +|64 reserved_tokens s in
  let committed_cost := spent_cost_microusd s +|64 reserved_cost_microusd s in
  [("remaining_elapsed_ms", opt (budget_remaining_elapsed_ms b now));
   ("max_depth", num MAX_DELEGATION_DEPTH);
   ("max_active_children", num (max_active_children b));
   ("active_children", num (active_children s));
   ("started_children", num (started_children s));
   ("max_tokens", opt (max_tokens b));
   ("reserved_tokens", num (reserved_tokens s));
   ("spent_tokens", num (spent_tokens s));
   ("spent_output_tokens", num (spent_output_tokens s));
   ("token_admission_committed", num committed_tokens);
   ("token_admission_remaining", opt ((fun max => max - committed_tokens) <$> max_tokens b));
   ("token_budget_semantics", JString "aggregate_output_reservation");
   ("spent_tokens_are_usage_accounting", JBool true);
   ("max_cost_microusd", opt (max_cost_microusd b));
   ("reserved_cost_microusd", num (reserved_cost_microusd s));
   ("spent_cost_microusd", num (spent_cost_microusd s));
   ("cost_admission_committed", num committed_cost);
   ("cost_admission_remaining",
    opt ((fun max => max - committed_cost) <$> max_cost_microusd b))].

(*@ client/src/delegation_policy.rs DelegationLease::release *)
Definition release (b : Budget) (i : nat) (actual_tokens actual_cost actual_output : N) : Budget :=
  match b_leases b !! i with
  | None => b
  | Some l =>
      if released l then b
      else
        let s := b_state b in
        with_state
          {| active_children := active_children s - 1;
             started_children := started_children s;
             reserved_tokens := reserved_tokens s - requested_tokens l;
             spent_tokens := spent_tokens s +|64 actual_tokens;
             spent_output_tokens := spent_output_tokens s +|64 actual_output;
             reserved_cost_microusd := reserved_cost_microusd s - requested_cost_microusd l;
             spent_cost_microusd := spent_cost_microusd s +|64 actual_cost |}
          (<[i := mkLease (requested_tokens l) (requested_cost_microusd l) true]> (b_leases b)) b
  end.

(*@ client/src/delegation_policy.rs DelegationLease::finish *)
Definition lease_finish (b : Budget) (i : nat) (actual_tokens : N)
    (actual_cost actual_output : option N) : Budget :=
  match b_leases b !! i with
  | None => b
  | Some l =>
      release b i actual_tokens (default (requested_cost_microusd l) actual_cost)
        (default actual_tokens actual_output)
  end.

(*@ client/src/delegation_policy.rs Drop::drop for DelegationLease *)
Definition lease_drop (b : Budget) (i : nat) : Budget :=
  match b_leases b !! i with
  | None => b
  | Some l => release b i (requested_tokens l) (requested_cost_microusd l) (requested_tokens l)
  end.

(** ** Contexts *)

(*@ client/src/delegation_policy.rs DelegationContext *)
Record DelegationContext := mkContext {
  ctx_root_session_id : SessionId;
  ctx_parent_session_id : option SessionId;
  ctx_parent_task_id : option TaskId;
  ctx_parent_thread_id : option ThreadId;
  ctx_depth : N;
  ctx_local_deadline : option N;
  ctx_lease : option nat;
}.

(*@ client/src/delegation_policy.rs DelegationContext::configured *)
Definition context_configured (now : N) (session_id : SessionId)
    (max_elapsed_ms max_cost : option N) (cancelled : bool) (max_active : N)
    : Budget * DelegationContext :=
  let b := budget_configured now max_elapsed_ms max_cost cancelled max_active in
  (b, {| ctx_root_session_id := session_id;
         ctx_parent_session_id := None;
         ctx_parent_task_id := None;
         ctx_parent_thread_id := None;
         ctx_depth := 0;
         ctx_local_deadline := deadline b;
         ctx_lease := None |}).

(*@ client/src/delegation_policy.rs earliest_remaining *)
Definition earliest_remaining (local root : option N) : option N :=
  match local, root with
  | Some l, Some r => Some (N.min l r)
  | Some l, None => Some l
  | None, r => r
  end.

(** [wall] is the [DateTime] argument, [now] the [Instant::now()] of the body. *)
(*@ client/src/delegation_policy.rs DelegationContext::recovered *)
Definition context_recovered (t : TimedDelegationRecoveryState) (wall now : N) (cancelled : bool)
    : result string (Budget * DelegationContext) :=
  let s := timed_state (refreshed t wall) in
  if MAX_DELEGATION_DEPTH <? rs_depth s then
    Err "recovered delegation depth exceeds the supported maximum"
  else if bool_decide (rs_max_tokens s = Some 0) then
    Err "recovered delegation token budget is invalid"
  else if rs_max_active_children s =? 0 then
    Err "recovered delegated concurrency must be positive"
  else
    let at_ms ms := now + ms * ns_per_ms in
    let root := rs_remaining_elapsed_ms s in
    let local := earliest_remaining (rs_local_remaining_elapsed_ms s) root in
    Ok ({| max_active_children := rs_max_active_children s;
           deadline := at_ms <$> root;
           max_tokens := rs_max_tokens s;
           max_cost_microusd := rs_max_cost_microusd s;
           b_state := {| active_children := 0;
                         started_children := rs_started_children s;
                         reserved_tokens := 0;
                         spent_tokens := rs_spent_tokens s;
                         spent_output_tokens :=
                           default (rs_spent_tokens s) (rs_spent_output_tokens s);
                         reserved_cost_microusd := 0;
                         spent_cost_microusd := rs_spent_cost_microusd s |};
           b_cancelled := cancelled;
           b_leases := [] |},
        {| ctx_root_session_id := rs_root_session_id s;
           ctx_parent_session_id := rs_parent_session_id s;
           ctx_parent_task_id := rs_parent_task_id s;
           ctx_parent_thread_id := rs_parent_thread_id s;
           ctx_depth := rs_depth s;
           ctx_local_deadline := at_ms <$> local;
           ctx_lease := None |}).

(*@ client/src/delegation_policy.rs delegated_child_elapsed_ms *)
Definition delegated_child_elapsed_ms (parent : N) : N :=
  if parent <=? 1 then parent
  else
    let reserved_for_parent :=
      (parent +|64 (DELEGATED_PARENT_COMPLETION_RESERVE_DIVISOR - 1))
        / DELEGATED_PARENT_COMPLETION_RESERVE_DIVISOR in
    N.max (parent - reserved_for_parent) 1.

(*@ client/src/delegation_policy.rs DelegationContext::remaining_elapsed_ms *)
Definition context_remaining_elapsed_ms (b : Budget) (c : DelegationContext) (now : N)
    : option N :=
  earliest_remaining ((fun d => remaining_ms d now) <$> ctx_local_deadline c)
    (budget_remaining_elapsed_ms b now).

(*@ client/src/delegation_policy.rs DelegationContext::is_expired *)
Definition context_is_expired (b : Budget) (c : DelegationContext) (now : N) : bool :=
  bool_decide (context_remaining_elapsed_ms b c now = Some 0).

(*@ client/src/delegation_policy.rs DelegationContext::child *)
Definition child (b : Budget) (c : DelegationContext) (now : N) (parent_session : SessionId)
    (parent_task : TaskId) (parent_thread : ThreadId) (tokens : N) (cost : option N)
    (cancelled : bool) : result DelegationLimit (Budget * DelegationContext) :=
  if MAX_DELEGATION_DEPTH <=? ctx_depth c then Err DelegationLimit.Depth
  else
    let parent_remaining := context_remaining_elapsed_ms b c now in
    if bool_decide (parent_remaining = Some 0) then Err DelegationLimit.Elapsed
    else
      let? r := reserve b now tokens cost cancelled in
      let '(b', lease) := r in
      Ok (b', {| ctx_root_session_id := ctx_root_session_id c;
                 ctx_parent_session_id := Some parent_session;
                 ctx_parent_task_id := Some parent_task;
                 ctx_parent_thread_id := Some parent_thread;
                 ctx_depth := ctx_depth c +|8 1;
                 ctx_local_deadline :=
                   (fun ms => now + ms * ns_per_ms)
                     <$> (delegated_child_elapsed_ms <$> parent_remaining);
                 ctx_lease := Some lease |}).

(*@ client/src/delegation_policy.rs DelegationContext::finish *)
Definition context_finish (b : Budget) (c : DelegationContext) (actual_tokens : N)
    (actual_cost actual_output : option N) : Budget :=
  match ctx_lease c with
  | Some i => lease_finish b i actual_tokens actual_cost actual_output
  | None => b
  end.

(*@ client/src/delegation_policy.rs DelegationContext::canonical_task_id *)
Definition canonical_task_id (c : DelegationContext) (current : TaskId) : TaskId :=
  if ctx_depth c =? 0 then current else default current (ctx_parent_task_id c).

(** Totals a checkpoint records: spent tokens, cost, output tokens, and the
    children still unsettled. *)
(*@ client/src/delegation_policy.rs:575-620 DelegationContext::recovery_state_with_settlement *)
Definition settled_totals (b : Budget) (c : DelegationContext)
    (settlement : option (N * option N * option N)) : N * N * N * N :=
  let s := b_state b in
  let unsettled_totals :=
    (spent_tokens s +|64 reserved_tokens s,
     spent_cost_microusd s +|64 reserved_cost_microusd s,
     spent_output_tokens s +|64 reserved_tokens s,
     active_children s) in
  match ctx_lease c ≫= (fun i => b_leases b !! i), settlement with
  | Some l, Some (tokens, cost, output) =>
      if negb (released l) then
        ((spent_tokens s +|64 (reserved_tokens s - requested_tokens l)) +|64 tokens,
         (spent_cost_microusd s +|64 (reserved_cost_microusd s - requested_cost_microusd l))
           +|64 default (requested_cost_microusd l) cost,
         (spent_output_tokens s +|64 (reserved_tokens s - requested_tokens l))
           +|64 default tokens output,
         active_children s - 1)
      else unsettled_totals
  | _, _ => unsettled_totals
  end.

(*@ client/src/delegation_policy.rs DelegationContext::recovery_state_with_settlement *)
Definition recovery_state_with_settlement (b : Budget) (c : DelegationContext) (now captured : N)
    (settlement : option (N * option N * option N)) : TimedDelegationRecoveryState :=
  let '(tokens, cost, output, unsettled) := settled_totals b c settlement in
  let cap (max : option N) (n : N) :=
    match max with Some m => if 0 <? unsettled then N.max n m else n | None => n end in
  let remaining := budget_remaining_elapsed_ms b now in
  mkTimed captured
    {| rs_max_active_children := max_active_children b;
       rs_root_session_id := ctx_root_session_id c;
       rs_parent_session_id := None;
       rs_parent_task_id := None;
       rs_parent_thread_id := None;
       rs_depth := 0;
       rs_remaining_elapsed_ms := remaining;
       rs_local_remaining_elapsed_ms := remaining;
       rs_max_tokens := max_tokens b;
       rs_max_cost_microusd := max_cost_microusd b;
       rs_started_children := started_children (b_state b);
       rs_spent_tokens := cap (max_tokens b) tokens;
       rs_spent_output_tokens := Some (cap (max_tokens b) output);
       rs_spent_cost_microusd := cap (max_cost_microusd b) cost |}.

(*@ client/src/delegation_policy.rs DelegationContext::recovery_state *)
Definition recovery_state (b : Budget) (c : DelegationContext) (now captured : N)
    : TimedDelegationRecoveryState :=
  recovery_state_with_settlement b c now captured None.

(*@ client/src/delegation_policy.rs DelegationContext::settlement_recovery_state *)
Definition settlement_recovery_state (b : Budget) (c : DelegationContext) (now captured : N)
    (actual_tokens : N) (actual_cost actual_output : option N) : TimedDelegationRecoveryState :=
  recovery_state_with_settlement b c now captured
    (Some (actual_tokens, actual_cost, actual_output)).

(*@ client/src/delegation_policy.rs requested_token_reservation *)
Definition requested_token_reservation (provider_max_tokens : option N) : N :=
  clamp 1 MAX_DELEGATED_TOKEN_BUDGET
    (default DEFAULT_DELEGATED_CHILD_TOKEN_RESERVATION provider_max_tokens).

(*@ client/src/delegation_policy.rs cost_budget_from_payload *)
Definition cost_budget_from_payload (payload : json) : result string (option N) :=
  match json_get payload DELEGATION_COST_BUDGET_KEY with
  | None | Some JNull => Ok None
  | Some v =>
      match as_u64 v with
      | Some n => Ok (Some n)
      | None => Err "_delegation_cost_budget_microusd must be a non-negative integer"
      end
  end.

(** ** Live leases *)

Definition live (f : DelegationLease -> N) (l : DelegationLease) : N :=
  if released l then 0 else f l.
Fixpoint live_sum (f : DelegationLease -> N) (ls : list DelegationLease) : N :=
  match ls with [] => 0 | l :: ls' => live f l + live_sum f ls' end.

Definition live_count : list DelegationLease -> N := live_sum (fun _ => 1).
Definition live_tokens : list DelegationLease -> N := live_sum requested_tokens.
Definition live_cost : list DelegationLease -> N := live_sum requested_cost_microusd.

Lemma live_sum_app f ls l : live_sum f (ls ++ [l]) = live_sum f ls + live f l.
Proof. induction ls as [|x ls IH]; simpl; [lia|]. rewrite IH. lia. Qed.

(** Releasing a live lease takes exactly its share out of the sum. *)
Lemma live_sum_release f ls i l l' :
  ls !! i = Some l -> released l = false -> released l' = true ->
  live_sum f (<[i := l']> ls) + f l = live_sum f ls.
Proof.
  revert i. induction ls as [|x ls IH]; intros i Hi Hr Hr'; [done|].
  destruct i as [|i]; simpl in *.
  - simplify_eq. unfold live. rewrite Hr, Hr'. lia.
  - specialize (IH i Hi Hr Hr'). lia.
Qed.

Lemma live_sum_le f ls i l :
  ls !! i = Some l -> released l = false -> f l <= live_sum f ls.
Proof.
  intros Hi Hr.
  pose proof (live_sum_release f ls i l (mkLease 0 0 true) Hi Hr eq_refl). lia.
Qed.

Lemma live_tokens_bound k ls :
  Forall (fun l => requested_tokens l <= k) ls -> live_tokens ls <= live_count ls * k.
Proof.
  unfold live_tokens, live_count.
  induction 1 as [|l ls Hl Hls IH]; simpl; [lia|]. unfold live. destruct (released l); lia.
Qed.

(** ** Calls on the shared budget, in any interleaving *)

Inductive BOp :=
| BReserve (now tokens : N) (cost : option N) (cancelled : bool)
| BFinish (i : nat) (tokens : N) (cost output : option N)
| BDrop (i : nat)
| BCancel.

Definition bexec (b : Budget) (o : BOp) : Budget :=
  match o with
  | BReserve now tokens cost cancelled =>
      match reserve b now tokens cost cancelled with Ok (b', _) => b' | Err _ => b end
  | BFinish i tokens cost output => lease_finish b i tokens cost output
  | BDrop i => lease_drop b i
  | BCancel => {| max_active_children := max_active_children b; deadline := deadline b;
                  max_tokens := max_tokens b; max_cost_microusd := max_cost_microusd b;
                  b_state := b_state b; b_cancelled := true; b_leases := b_leases b |}
  end.
Definition brun (b : Budget) (ops : list BOp) : Budget := fold_left bexec ops b.

(** When the token (cost) reservations are summed without saturation: a
    configured cap below [u64::MAX], or few enough concurrent children. *)
Definition token_exact (b : Budget) : Prop :=
  match max_tokens b with
  | Some m => m < u64_max
  | None => max_active_children b * MAX_DELEGATED_TOKEN_BUDGET <= u64_max
  end.
Definition cost_exact (b : Budget) : Prop :=
  match max_cost_microusd b with Some m => m < u64_max | None => False end.

Definition binv (b : Budget) : Prop :=
  max_active_children b <= usize_max /\
  Forall (fun l => requested_tokens l <= MAX_DELEGATED_TOKEN_BUDGET) (b_leases b) /\
  active_children (b_state b) = live_count (b_leases b) /\
  live_count (b_leases b) <= max_active_children b /\
  (token_exact b -> reserved_tokens (b_state b) = live_tokens (b_leases b)) /\
  (cost_exact b -> reserved_cost_microusd (b_state b) = live_cost (b_leases b)).

(** A granted cost keeps the committed cost within the cap. *)
Lemma reserved_cost_le m committed req c :
  m < u64_max -> reserved_cost (Some m) committed req = Ok c -> committed + c <= m.
Proof.
  intros Hm H. unfold reserved_cost in H. destruct req as [r|].
  - case_hyp H; simplify_eq. Nbool. sat_lia.
  - unfold ok_or, option_filter in H. destruct (checked_sub m committed) as [d|] eqn:E; [|done].
    apply checked_sub_Some in E as [Hle ->]. case_hyp H; simplify_eq. lia.
Qed.

(** What a successful reservation has checked and written. *)
Lemma reserve_inv b now tokens cost cancelled b' i :
  reserve b now tokens cost cancelled = Ok (b', i) ->
  let t := clamp 1 MAX_DELEGATED_TOKEN_BUDGET tokens in
  let s := b_state b in
  cancelled = false /\ b_cancelled b = false /\ budget_is_expired b now = false /\
  active_children s < max_active_children b /\
  (forall m, max_tokens b = Some m ->
     (spent_output_tokens s +|64 reserved_tokens s) +|64 t <= m) /\
  i = length (b_leases b) /\
  exists c,
    reserved_cost (max_cost_microusd b)
      (spent_cost_microusd s +|64 reserved_cost_microusd s) cost = Ok c /\
    b' = with_state
           (mkBudgetState (sat_add usize_max (active_children s) 1)
              (sat_add usize_max (started_children s) 1)
              (reserved_tokens s +|64 t) (spent_tokens s) (spent_output_tokens s)
              (reserved_cost_microusd s +|64 c) (spent_cost_microusd s))
           (b_leases b ++ [mkLease t c false]) b.
Proof.
  intros H t s. unfold reserve in H. fold t s in H.
  destruct (cancelled || b_cancelled b) eqn:E1; [done|]. boolhyps.
  destruct (budget_is_expired b now) eqn:E2; [done|].
  destruct (max_active_children b <=? active_children s) eqn:E3; [done|]. Nbool.
  destruct (is_some_and _ (max_tokens b)) eqn:E4; [done|].
  destruct (reserved_cost _ _ cost) as [c|] eqn:E5; [|done]. simplify_eq.
  split_and!; try done.
  - intros m Hm. rewrite Hm in E4. simpl in E4. by Nbool.
  - exists c. done.
Qed.

Lemma binv_reserve b now tokens cost cancelled b' i :
  binv b -> reserve b now tokens cost cancelled = Ok (b', i) -> binv b'.
Proof.
  intros (Hmax & Hf & Ha & Hc & Ht & Hk) H.
  apply reserve_inv in H as (_ & _ & _ & Hlt & Htok & _ & c & Hcost & ->).
  set (t := clamp 1 MAX_DELEGATED_TOKEN_BUDGET tokens) in *.
  assert (Ht1 : 1 <= t <= MAX_DELEGATED_TOKEN_BUDGET) by (by apply clamp_bounds).
  assert (Hf' : Forall (fun l => requested_tokens l <= MAX_DELEGATED_TOKEN_BUDGET)
                  (b_leases b ++ [mkLease t c false])).
  { apply Forall_app. split; [done|]. constructor; [simpl; lia|constructor]. }
  clearbody t. unfold binv, live_count, live_tokens, live_cost, token_exact, cost_exact in *. simpl.
  rewrite !live_sum_app. unfold live; simpl. split_and!; try done.
  - rewrite sat_add_exact by lia. lia.
  - lia.
  - intros He. rewrite <- (Ht He). apply sat_add_exact. destruct (max_tokens b) as [m|].
    + specialize (Htok m eq_refl). unfold sat_add in Htok. lia.
    + pose proof (live_tokens_bound _ _ Hf) as Hb. unfold live_tokens, live_count in Hb.
      rewrite (Ht He). etrans; [|exact He]. nia.
  - intros He. destruct (max_cost_microusd b) as [m|]; [|done].
    apply reserved_cost_le in Hcost; [|done]. rewrite <- (Hk He). apply sat_add_exact.
    unfold sat_add in Hcost. lia.
Qed.

Lemma binv_release b i t c o : binv b -> binv (release b i t c o).
Proof.
  intros Hb. unfold release. destruct (b_leases b !! i) as [l|] eqn:E; [|done].
  destruct (released l) eqn:Er; [done|]. destruct Hb as (Hmax & Hf & Ha & Hc & Ht & Hk).
  set (l' := mkLease _ _ true).
  pose proof (live_sum_release (fun _ => 1) _ _ _ l' E Er eq_refl) as H1.
  pose proof (live_sum_release requested_tokens _ _ _ l' E Er eq_refl) as H2.
  pose proof (live_sum_release requested_cost_microusd _ _ _ l' E Er eq_refl) as H3.
  unfold binv, live_count, live_tokens, live_cost, token_exact, cost_exact in *. simpl.
  split_and!; try done.
  - apply Forall_insert; [done|]. by apply (proj1 (Forall_lookup _ _) Hf i l).
  - lia.
  - lia.
  - intros He. rewrite (Ht He). lia.
  - intros He. rewrite (Hk He). lia.
Qed.

Lemma binv_exec b o : binv b -> binv (bexec b o).
Proof.
  intros Hb. destruct o; simpl.
  - destruct (reserve b now tokens cost cancelled) as [[b' i]|] eqn:E; [|done].
    by eapply binv_reserve.
  - unfold lease_finish. destruct (b_leases b !! i); [|done]. by apply binv_release.
  - unfold lease_drop. destruct (b_leases b !! i); [|done]. by apply binv_release.
  - done.
Qed.

Lemma binv_run ops : forall b, binv b -> binv (brun b ops).
Proof. induction ops as [|o ops IH]; intros b Hb; [done|]. simpl. by apply IH, binv_exec. Qed.

Lemma binv_configured now e c canc n : n <= usize_max -> binv (budget_configured now e c canc n).
Proof.
  intros Hn. unfold binv, budget_configured. simpl. split_and!; try done.
  - apply N.max_lub; [done|]. by vm_compute.
  - apply N.le_0_l.
Qed.

Lemma binv_recovered t wall now canc b c :
  rs_max_active_children (timed_state t) <= usize_max ->
  context_recovered t wall now canc = Ok (b, c) -> binv b.
Proof.
  intros Hn H. unfold context_recovered in H. repeat (case_hyp H; simplify_eq).
  unfold binv; simpl. split_and!; try done; try apply N.le_0_l.
  revert Hn. unfold refreshed. by destruct (wall <? captured_at t).
Qed.

(** The caps never change. *)
Lemma brun_caps ops : forall b,
  max_active_children (brun b ops) = max_active_children b /\
  max_tokens (brun b ops) = max_tokens b /\
  max_cost_microusd (brun b ops) = max_cost_microusd b.
Proof.
  induction ops as [|o ops IH]; intros b; [done|]. simpl.
  destruct (IH (bexec b o)) as (-> & -> & ->).
  destruct o; simpl; unfold lease_finish, lease_drop, release;
    [|by repeat (case_match; simplify_eq/=)..].
  destruct (reserve b now tokens cost cancelled) as [[b' i]|] eqn:E; [|done].
  by apply reserve_inv in E as (_ & _ & _ & _ & _ & _ & ? & _ & ->).
Qed.

(** A released lease stays released. *)
Definition is_released (b : Budget) (i : nat) : Prop :=
  exists l, b_leases b !! i = Some l /\ released l = true.

Lemma is_released_release b j t c o i : is_released b i -> is_released (release b j t c o) i.
Proof.
  intros (l & Hl & Hr). unfold release, is_released.
  destruct (b_leases b !! j) as [l'|] eqn:E; [|eauto].
  destruct (released l') eqn:Er; [eauto|]. simpl.
  destruct (decide (i = j)) as [->|Hne].
  - simplify_eq. congruence.
  - rewrite list_lookup_insert_ne by done. eauto.
Qed.

Lemma is_released_exec b o i : is_released b i -> is_released (bexec b o) i.
Proof.
  intros H. destruct o; simpl.
  - destruct (reserve b now tokens cost cancelled) as [[b' k]|] eqn:E; [|done].
    apply reserve_inv in E as (_ & _ & _ & _ & _ & _ & ? & _ & ->).
    destruct H as (l & Hl & Hr). exists l. simpl. split; [|done]. by apply lookup_app_l_Some.
  - unfold lease_finish. destruct (b_leases b !! i0); [|done]. by apply is_released_release.
  - unfold lease_drop. destruct (b_leases b !! i0); [|done]. by apply is_released_release.
  - done.
Qed.

Lemma is_released_run ops i : forall b, is_released b i -> is_released (brun b ops) i.
Proof. induction ops as [|o ops IH]; intros b H; [done|]. simpl. by apply IH, is_released_exec. Qed.

Lemma release_released b i t c o : is_released b i -> release b i t c o = b.
Proof. intros (l & Hl & Hr). unfold release. by rewrite Hl, Hr. Qed.

Lemma release_makes_released b i t c o l :
  b_leases b !! i = Some l -> is_released (release b i t c o) i.
Proof.
  intros Hl. unfold release, is_released. rewrite Hl. destruct (released l) eqn:Er.
  - eauto.
  - simpl. eexists. rewrite list_lookup_insert_eq by (by eapply lookup_lt_Some). done.
Qed.

(** ** Correctness of the shared budget *)

(** A budget is reached from a fresh root or from a recovered checkpoint, by any
    interleaving of reservations, settlements, drops and cancellation. *)
Inductive breachable : Budget -> Prop :=
| breach_configured now e c canc n :
    n <= usize_max -> breachable (budget_configured now e c canc n)
| breach_recovered t wall now canc b c :
    rs_max_active_children (timed_state t) <= usize_max ->
    context_recovered t wall now canc = Ok (b, c) -> breachable b
| breach_step b o : breachable b -> breachable (bexec b o).

Lemma breachable_binv b : breachable b -> binv b.
Proof. induction 1; [by apply binv_configured|by eapply binv_recovered|by apply binv_exec]. Qed.

Lemma breachable_run ops : forall b, breachable b -> breachable (brun b ops).
Proof. induction ops as [|o ops IH]; intros b H; [done|]. simpl. by apply IH, breach_step. Qed.

(** In every reachable budget the counter [active_children] is the
    number of unreleased leases and never exceeds the configured concurrency, and
    the reserved tokens (cost) are exactly the sums over the unreleased leases
    whenever the configuration keeps those sums below [u64::MAX]. *)
Theorem budget_accounts_for_live_leases b :
  breachable b ->
  active_children (b_state b) = live_count (b_leases b) /\
  live_count (b_leases b) <= max_active_children b /\
  (token_exact b -> reserved_tokens (b_state b) = live_tokens (b_leases b)) /\
  (cost_exact b -> reserved_cost_microusd (b_state b) = live_cost (b_leases b)).
Proof. intros H. by apply breachable_binv in H as (_ & _ & ? & ? & ? & ?). Qed.

Definition demo_budget : Budget :=
  brun (budget_configured 0 (Some 1000) (Some 90) false 2)
    [BReserve 5 300 (Some 40) false; BReserve 6 400 (Some 50) false; BFinish 0 12 (Some 7) None].

Lemma demo_reachable : breachable demo_budget.
Proof. apply breachable_run. constructor. by vm_compute. Defined.

Lemma budget_accounts_for_live_leases_witness :
  active_children (b_state demo_budget) = 1 /\ live_count (b_leases demo_budget) = 1 /\
  cost_exact demo_budget /\ reserved_cost_microusd (b_state demo_budget) = 50.
Proof.
  destruct (budget_accounts_for_live_leases demo_budget demo_reachable) as (H1 & _ & _ & H4).
  split; [by rewrite H1|]. split; [done|].
  assert (He : cost_exact demo_budget) by (by vm_compute). split; [done|]. by rewrite (H4 He).
Defined.

(** C7 (bounds): a granted reservation is within every cap. After it the number of
    live leases is at most the concurrency limit; under a token cap below
    [u64::MAX] settled output plus all live reservations is at most the cap, and
    likewise for the cost cap; the new lease holds at least one and at most
    [MAX_DELEGATED_TOKEN_BUDGET] tokens. *)
Theorem granted_reservation_within_caps b now tokens cost cancelled b' i :
  breachable b ->
  reserve b now tokens cost cancelled = Ok (b', i) ->
  live_count (b_leases b') <= max_active_children b /\
  (forall m, max_tokens b = Some m -> m < u64_max ->
     spent_output_tokens (b_state b') + live_tokens (b_leases b') <= m) /\
  (forall m, max_cost_microusd b = Some m -> m < u64_max ->
     spent_cost_microusd (b_state b') + live_cost (b_leases b') <= m) /\
  (exists c, b_leases b' !! i =
     Some (mkLease (clamp 1 MAX_DELEGATED_TOKEN_BUDGET tokens) c false)) /\
  1 <= clamp 1 MAX_DELEGATED_TOKEN_BUDGET tokens <= MAX_DELEGATED_TOKEN_BUDGET.
Proof.
  intros Hb H. apply breachable_binv in Hb.
  pose proof (binv_reserve _ _ _ _ _ _ _ Hb H) as (_ & _ & _ & Hc & Ht & Hk).
  destruct Hb as (_ & _ & _ & _ & Ht0 & Hk0).
  apply reserve_inv in H as (_ & _ & _ & _ & Htok & -> & c & Hcost & ->). simpl in *.
  split_and!; [done| | | | |].
  - intros m Hm Hlt. unfold token_exact in *; simpl in *. rewrite Hm in *.
    rewrite <- (Ht Hlt). specialize (Htok m eq_refl). unfold sat_add in *. lia.
  - intros m Hm Hlt. unfold cost_exact in *; simpl in *. rewrite Hm in *.
    rewrite <- (Hk Hlt). apply reserved_cost_le in Hcost; [|done]. unfold sat_add in *. lia.
  - exists c. by apply list_lookup_middle.
  - by apply clamp_bounds.
  - by apply clamp_bounds.
Qed.

Definition capped_budget : Budget :=
  match context_recovered
    (mkTimed 0 (mkRecoveryState 2 1 None None None 0 (Some 900) None (Some 1000) (Some 90)
                  3 500 (Some 100) 20)) 1000000 0 false with
  | Ok (b, _) => b
  | Err _ => budget_configured 0 None None false 1
  end.

Lemma granted_reservation_within_caps_witness :
  match reserve capped_budget 5 900 (Some 70) false with
  | Ok (b', _) => spent_output_tokens (b_state b') + live_tokens (b_leases b') <= 1000
  | Err _ => False
  end.
Proof.
  destruct (reserve capped_budget 5 900 (Some 70) false) as [[b' i]|] eqn:E.
  - refine (proj1 (proj2 (granted_reservation_within_caps capped_budget 5 900 (Some 70) false b' i
                     _ E)) 1000 eq_refl eq_refl).
    eapply (breach_recovered
      (mkTimed 0 (mkRecoveryState 2 1 None None None 0 (Some 900) None (Some 1000) (Some 90)
                  3 500 (Some 100) 20)) 1000000 0 false); [by vm_compute|vm_compute; reflexivity].
  - vm_compute in E. discriminate E.
Defined.

(** A lease is settled exactly once. Whatever other calls are
    interleaved after its settlement, a second [finish] and the [Drop] of the last
    [Arc] leave the shared budget unchanged; and the settlement itself, on a live
    lease, takes the lease's own reservation out of the reserved totals and adds
    the actual usage to the spent totals. *)
Theorem lease_settles_once b i l tokens cost output ops :
  b_leases b !! i = Some l ->
  let b1 := lease_finish b i tokens cost output in
  let b2 := brun b1 ops in
  (forall t c o, lease_finish b2 i t c o = b2) /\ lease_drop b2 i = b2 /\
  (released l = false ->
   b_state b1 =
   mkBudgetState (active_children (b_state b) - 1) (started_children (b_state b))
     (reserved_tokens (b_state b) - requested_tokens l) (spent_tokens (b_state b) +|64 tokens)
     (spent_output_tokens (b_state b) +|64 default tokens output)
     (reserved_cost_microusd (b_state b) - requested_cost_microusd l)
     (spent_cost_microusd (b_state b) +|64 default (requested_cost_microusd l) cost)).
Proof.
  intros Hl b1 b2.
  assert (Hr : is_released b2 i).
  { apply is_released_run. unfold b1, lease_finish. rewrite Hl. by eapply release_makes_released. }
  split_and!.
  - intros. unfold lease_finish. destruct (b_leases b2 !! i); [|done]. by apply release_released.
  - unfold lease_drop. destruct (b_leases b2 !! i); [|done]. by apply release_released.
  - intros Hf. unfold b1, lease_finish, release. by rewrite Hl, Hf.
Qed.

Lemma lease_settles_once_witness :
  let b1 := lease_finish demo_budget 1 30 None (Some 9) in
  lease_drop (brun b1 [BReserve 7 10 (Some 1) false; BDrop 0]) 1
    = brun b1 [BReserve 7 10 (Some 1) false; BDrop 0] /\
  spent_cost_microusd (b_state b1) = 57.
Proof.
  destruct (lease_settles_once demo_budget 1 (mkLease 400 50 false) 30 None (Some 9)
              [BReserve 7 10 (Some 1) false; BDrop 0]) as (_ & H & Hs); [reflexivity|].
  split; [exact H|]. by rewrite (Hs eq_refl).
Defined.

(** Limits of a reachable budget are usable ones. *)
Lemma breachable_limits b :
  breachable b -> 1 <= max_active_children b /\ max_tokens b <> Some 0.
Proof.
  induction 1 as [now e c canc n Hn|t wall now canc b c Hn H|b o Hb IH].
  - simpl. split; [lia|done].
  - unfold context_recovered in H. repeat (case_hyp H; simplify_eq). simpl. Nbool. boolhyps.
    split; [lia|done].
  - destruct (brun_caps [o] b) as (E1 & E2 & _). simpl in E1, E2. by rewrite E1, E2.
Qed.

Lemma remaining_ms_after now ms : ms <= u64_max -> remaining_ms (now + ms * ns_per_ms) now = ms.
Proof.
  intros H. unfold remaining_ms.
  replace (now + ms * ns_per_ms - now) with (ms * ns_per_ms) by lia.
  rewrite N.div_mul by done. lia.
Qed.

(** Recovering a checkpoint at the instant it was captured. *)
Lemma recovered_checkpoint b c now captured st wall now' canc :
  breachable b ->
  exists b' c',
    context_recovered (recovery_state_with_settlement b c now captured st) wall now' canc
      = Ok (b', c') /\
    let '(tokens, cost, output, unsettled) := settled_totals b c st in
    let cap (max : option N) (n : N) :=
      match max with Some m => if 0 <? unsettled then N.max n m else n | None => n end in
    max_active_children b' = max_active_children b /\ max_tokens b' = max_tokens b /\
    max_cost_microusd b' = max_cost_microusd b /\ b_leases b' = [] /\ ctx_depth c' = 0 /\
    ctx_lease c' = None /\
    (wall = captured ->
       budget_remaining_elapsed_ms b' now' = budget_remaining_elapsed_ms b now) /\
    b_state b' = mkBudgetState 0 (started_children (b_state b)) 0 (cap (max_tokens b) tokens)
                   (cap (max_tokens b) output) 0 (cap (max_cost_microusd b) cost).
Proof.
  intros Hb. destruct (breachable_limits b Hb) as (H1 & H2).
  unfold context_recovered, recovery_state_with_settlement.
  destruct (settled_totals b c st) as [[[tokens cost] output] unsettled].
  unfold refreshed; cbn [captured_at timed_state].
  assert (E2 : bool_decide (max_tokens b = Some 0) = false) by (by apply bool_decide_eq_false_2).
  assert (E1 : (max_active_children b =? 0) = false) by (apply N.eqb_neq; lia).
  destruct (wall <? captured) eqn:Ew; cbn -[N.div N.mul N.sub N.max N.add]; rewrite E1, E2;
    do 2 eexists; (split; [reflexivity|]); cbn -[N.div N.mul N.sub N.max N.add];
    split_and!; try done; intros ->; Nbool; [lia|].
  rewrite N.sub_diag, N.Div0.div_0_l. unfold budget_remaining_elapsed_ms; simpl.
  destruct (deadline b) as [d|]; simpl; [|done]. rewrite N.sub_0_r.
  rewrite remaining_ms_after; [done|]. unfold remaining_ms. lia.
Qed.

(** Recovery fails closed. A checkpoint written while a child is still
    unsettled is always readable, and the budget recovered from it refuses every
    reservation under a token cap, and every reservation of unknown or positive
    cost under a cost cap. *)
Theorem unsettled_recovery_fails_closed b c now captured st wall now' canc :
  breachable b ->
  0 < (settled_totals b c st).2 ->
  exists b' c',
    context_recovered (recovery_state_with_settlement b c now captured st) wall now' canc
      = Ok (b', c') /\
    forall at_ tokens cost cancelled,
      (exists m, max_tokens b = Some m /\ m < u64_max) \/
      (exists m, max_cost_microusd b = Some m /\ m < u64_max /\ cost <> Some 0) ->
      exists e, reserve b' at_ tokens cost cancelled = Err e.
Proof.
  intros Hb Hu. destruct (recovered_checkpoint b c now captured st wall now' canc Hb)
    as (b' & c' & Hr & Hs). exists b', c'. split; [done|].
  destruct (settled_totals b c st) as [[[t k] o] u]. simpl in Hu. apply N.ltb_lt in Hu.
  destruct Hs as (_ & Et & Ec & _ & _ & _ & _ & Es). rewrite Hu in Es.
  intros at_ tokens cost cancelled Hcap.
  destruct (reserve b' at_ tokens cost cancelled) as [[b2 i]|e] eqn:E; [|by exists e].
  exfalso. apply reserve_inv in E as (_ & _ & _ & _ & Htok & _ & cc & Hcost & _).
  rewrite Es in Htok, Hcost. simpl in Htok, Hcost.
  destruct Hcap as [(m & Hm & Hlt)|(m & Hm & Hlt & Hne)].
  - rewrite Hm in *. specialize (Htok m Et).
    pose proof (clamp_bounds 1 MAX_DELEGATED_TOKEN_BUDGET tokens ltac:(done)) as Hcl.
    unfold sat_add in Htok. lia.
  - rewrite Hm in *. rewrite Ec in Hcost.
    destruct cost as [r|]; [assert (r <> 0) by congruence|]; unfold reserved_cost in Hcost.
    + case_hyp Hcost; [done|]. Nbool. unfold sat_add in *. lia.
    + unfold ok_or, option_filter, checked_sub in Hcost.
      repeat (case_hyp Hcost; simplify_eq/=); Nbool; unfold sat_add in *; lia.
Qed.

Definition capped_child : Budget :=
  match reserve capped_budget 5 600 (Some 30) false with Ok (b, _) => b | Err _ => capped_budget end.
Lemma capped_child_reachable : breachable capped_child.
Proof.
  change capped_child with (bexec capped_budget (BReserve 5 600 (Some 30) false)).
  apply breach_step. eapply (breach_recovered
      (mkTimed 0 (mkRecoveryState 2 1 None None None 0 (Some 900) None (Some 1000) (Some 90)
                  3 500 (Some 100) 20)) 1000000 0 false); [by vm_compute|vm_compute; reflexivity].
Defined.
Definition root_context : DelegationContext := mkContext 1 None None None 0 None None.

Lemma unsettled_recovery_fails_closed_witness :
  exists b' c',
    context_recovered (recovery_state capped_child root_context 6 100) 100 6 false = Ok (b', c') /\
    exists e, reserve b' 7 1 None false = Err e.
Proof.
  destruct (unsettled_recovery_fails_closed capped_child root_context 6 100 None 100 6 false
              capped_child_reachable) as (b' & c' & Hr & H); [by vm_compute|].
  exists b', c'. split; [exact Hr|]. apply H. left. exists 1000. by vm_compute.
Defined.

(** ** Elapsed time and depth *)

Lemma child_elapsed_le p : delegated_child_elapsed_ms p <= p.
Proof.
  unfold delegated_child_elapsed_ms, DELEGATED_PARENT_COMPLETION_RESERVE_DIVISOR.
  destruct (p <=? 1) eqn:E; Nbool; [done|].
  generalize ((p +|64 (4 - 1)) / 4). lia.
Qed.

Lemma child_elapsed_quarter p :
  2 <= p -> p + 3 <= u64_max -> 4 * delegated_child_elapsed_ms p <= 3 * p.
Proof.
  intros H2 Hm. unfold delegated_child_elapsed_ms, DELEGATED_PARENT_COMPLETION_RESERVE_DIVISOR.
  destruct (p <=? 1) eqn:E; Nbool; [lia|]. rewrite sat_add_exact by lia.
  change (4 - 1) with 3. pose proof (N.div_mod (p + 3) 4 ltac:(done)).
  pose proof (N.mod_lt (p + 3) 4 ltac:(done)). lia.
Qed.

Lemma context_remaining_le b c now p : context_remaining_elapsed_ms b c now = Some p -> p <= u64_max.
Proof.
  unfold context_remaining_elapsed_ms, budget_remaining_elapsed_ms, remaining_ms.
  destruct (ctx_local_deadline c), (deadline b); simpl; intros H; simplify_eq; lia.
Qed.

(** With a single millisecond left the child gets all of it. *)
Lemma one_millisecond_child : delegated_child_elapsed_ms 1 = 1.
Proof. reflexivity. Qed.

(** A delegated child never outlives its share of the parent. The
    child starts with [delegated_child_elapsed_ms] of the parent's remaining
    milliseconds, at least one and never more than the parent has, and at most
    three quarters of them from two milliseconds on; its depth is one, so every
    delegation it attempts itself is refused with the depth limit. *)
Theorem child_time_and_depth b c now ps pt pth tokens cost canc b' c' :
  child b c now ps pt pth tokens cost canc = Ok (b', c') ->
  ctx_depth c' = 1 /\ ctx_root_session_id c' = ctx_root_session_id c /\
  canonical_task_id c' pt = pt /\
  (forall b2 now2 ps2 pt2 pth2 tokens2 cost2 canc2,
     child b2 c' now2 ps2 pt2 pth2 tokens2 cost2 canc2 = Err DelegationLimit.Depth) /\
  (forall p, context_remaining_elapsed_ms b c now = Some p ->
     let k := delegated_child_elapsed_ms p in
     context_remaining_elapsed_ms b' c' now = Some k /\ 1 <= k <= p /\
     (2 <= p -> p + 3 <= u64_max -> 4 * k <= 3 * p)).
Proof.
  intros H. unfold child in H. destruct (MAX_DELEGATION_DEPTH <=? ctx_depth c) eqn:Ed; [done|].
  destruct (bool_decide _) eqn:Ep; [done|]. boolhyps. Nbool. unfold MAX_DELEGATION_DEPTH in Ed.
  destruct (reserve b now tokens cost canc) as [[b1 i]|] eqn:Er; [|done]. simplify_eq.
  replace (ctx_depth c) with 0 by lia. split_and!; try done.
  intros p Hp k. rewrite Hp in Ep |- *. assert (Hp0 : p <> 0) by congruence.
  pose proof (context_remaining_le _ _ _ _ Hp) as Hpu.
  pose proof (child_elapsed_le p) as Hk. fold k in Hk.
  assert (Hk1 : 1 <= k).
  { unfold k, delegated_child_elapsed_ms. destruct (p <=? 1) eqn:E1; Nbool; lia. }
  split_and!; [|done|done|apply child_elapsed_quarter].
  apply reserve_inv in Er as (_ & _ & _ & _ & _ & _ & x & _ & ->).
  cbn [fmap option_fmap option_map]. fold k. clearbody k.
  unfold context_remaining_elapsed_ms, budget_remaining_elapsed_ms in *. simpl.
  rewrite remaining_ms_after by lia. revert Hp.
  destruct (deadline b) as [d|], (ctx_local_deadline c) as [ld|]; simpl; intros Hp;
    simplify_eq; try done; f_equal; lia.
Qed.

Lemma child_time_and_depth_witness :
  match child (budget_configured 0 (Some 1000) None false 2)
          (mkContext 1 None None None 0 (Some 800000000) None) 0 1 2 3 50 None false with
  | Ok (b', c') => ctx_depth c' = 1 /\ context_remaining_elapsed_ms b' c' 0 = Some 600
  | Err _ => False
  end.
Proof.
  destruct (child _ _ _ _ _ _ _ _ _) as [[b' c']|] eqn:E; [|vm_compute in E; discriminate E].
  destruct (child_time_and_depth _ _ _ _ _ _ _ _ _ _ _ E) as (H1 & _ & _ & _ & H).
  split; [exact H1|]. by destruct (H 800 eq_refl) as [H2 _].
Defined.

(** Checkpointing a budget with no live lease and recovering it at
    the instant it was captured gives back the caps, the started and spent
    counters and the root's remaining time, and no reservation. *)
Theorem settled_checkpoint_roundtrip b c now captured canc :
  breachable b -> live_count (b_leases b) = 0 ->
  token_exact b -> cost_exact b ->
  spent_tokens (b_state b) <= u64_max -> spent_output_tokens (b_state b) <= u64_max ->
  spent_cost_microusd (b_state b) <= u64_max ->
  exists b' c',
    context_recovered (recovery_state b c now captured) captured now canc = Ok (b', c') /\
    max_active_children b' = max_active_children b /\ max_tokens b' = max_tokens b /\
    max_cost_microusd b' = max_cost_microusd b /\ b_state b' = b_state b /\
    b_leases b' = [] /\
    budget_remaining_elapsed_ms b' now = budget_remaining_elapsed_ms b now.
Proof.
  intros Hb H0 Ht Hc S1 S2 S3.
  destruct (recovered_checkpoint b c now captured None captured now canc Hb) as (b' & c' & Hr & Hs).
  exists b', c'. split; [done|].
  apply breachable_binv in Hb as (_ & _ & Ha & _ & Et & Ec). specialize (Et Ht). specialize (Ec Hc).
  assert (Z : forall f ls, live_count ls = 0 -> live_sum f ls = 0).
  { intros f ls. unfold live_count. induction ls as [|l ls IH]; simpl; [done|].
    unfold live. destruct (released l); intros; [apply IH; lia|lia]. }
  unfold live_tokens, live_cost in *. rewrite Z in Et, Ec by done. rewrite H0 in Ha.
  unfold settled_totals in Hs.
  destruct (ctx_lease c ≫= _); rewrite Ha, Et, Ec, !sat_add_exact in Hs by lia;
    rewrite !N.add_0_r in Hs; destruct Hs as (-> & -> & -> & -> & _ & _ & Hrem & ->);
    specialize (Hrem eq_refl); split_and!; try done; destruct (b_state b); simpl in *; subst;
    by destruct (max_tokens b), (max_cost_microusd b).
Qed.

Lemma settled_checkpoint_roundtrip_witness :
  exists b' c', context_recovered (recovery_state (brun demo_budget [BDrop 1]) root_context 6 100)
                  100 6 false = Ok (b', c') /\
    b_state b' = b_state (brun demo_budget [BDrop 1]).
Proof.
  destruct (settled_checkpoint_roundtrip (brun demo_budget [BDrop 1]) root_context 6 100 false)
    as (b' & c' & H & _ & _ & _ & Hs & _);
    [by apply breachable_run, demo_reachable|by vm_compute..|].
  by exists b', c'.
Defined.
