(* ===== verification/Outcome.v ===== *)
(** * Task outcomes and turn phases

    [golutra-agent-core/src/outcome.rs]: the outcome a finished task reports, how
    it is derived from the task status and the verification record, and how an
    external evaluator's verdict changes it; the phase bookkeeping of
    [TurnState] and the model-visible text of a [CorrectionEnvelope] in
    [golutra-agent-core/src/loop_control.rs]. *)
From S2P Require Import Prelude RustStr Core.
Open Scope N_scope.

Module ExecutionOutcome.
(*@ core/src/outcome.rs ExecutionOutcome *)
Inductive ExecutionOutcome :=
| Running | CandidateReady | Completed | Partial | Failed | Aborted | Blocked | Cancelled
| Interrupted | Uncertain.
#[global] Instance ExecutionOutcome_eq_dec : EqDecision ExecutionOutcome.
Proof. solve_decision. Defined.
End ExecutionOutcome.
Abbreviation ExecutionOutcome := ExecutionOutcome.ExecutionOutcome.

Module ExternalVerificationStatus.
(*@ core/src/outcome.rs ExternalVerificationStatus *)
Inductive ExternalVerificationStatus := NotRequested | Pending | Pass | Partial | Fail | Unknown.
#[global] Instance ExternalVerificationStatus_eq_dec : EqDecision ExternalVerificationStatus.
Proof. solve_decision. Defined.
End ExternalVerificationStatus.
Abbreviation ExternalVerificationStatus := ExternalVerificationStatus.ExternalVerificationStatus.

Module FailureClass.
(*@ core/src/outcome.rs FailureClass *)
Inductive FailureClass :=
| RuntimeControlFlow | Context | Provider | Tool | Policy | Verification | ExternalEvaluation
| Environment | Timeout | Unknown.
#[global] Instance FailureClass_eq_dec : EqDecision FailureClass.
Proof. solve_decision. Defined.
End FailureClass.
Abbreviation FailureClass := FailureClass.FailureClass.

(*@ core/src/outcome.rs TaskOutcome *)
Record TaskOutcome := mkTaskOutcome {
  execution : ExecutionOutcome;
  verification : VerificationResult;
  evidence_refs : list EvidenceId;
  external_verification : ExternalVerificationStatus;
  failure_class : option FailureClass;
  scorable : bool;
  confidence : N;
  next_action : option string;
}.

(*@ core/src/outcome.rs:67-82 TaskOutcome::from_status *)
Definition execution_of_status (s : TaskStatus) : ExecutionOutcome :=
  match s with
  | TaskStatus.Idle => ExecutionOutcome.Running
  | TaskStatus.Running | TaskStatus.WaitingApproval | TaskStatus.WaitingAuthentication
  | TaskStatus.Pausing | TaskStatus.Paused | TaskStatus.Aborting => ExecutionOutcome.Running
  | TaskStatus.Completed => ExecutionOutcome.Completed
  | TaskStatus.Partial => ExecutionOutcome.Partial
  | TaskStatus.Failed => ExecutionOutcome.Failed
  | TaskStatus.Blocked => ExecutionOutcome.Blocked
  | TaskStatus.Cancelled => ExecutionOutcome.Cancelled
  | TaskStatus.Interrupted => ExecutionOutcome.Interrupted
  | TaskStatus.Uncertain => ExecutionOutcome.Uncertain
  end.

(*@ core/src/outcome.rs TaskOutcome::from_status *)
Definition from_status (status : TaskStatus) (verification : VerificationResult) : TaskOutcome :=
  let execution := execution_of_status status in
  {| execution := execution;
     verification := verification;
     evidence_refs := [];
     external_verification := ExternalVerificationStatus.NotRequested;
     failure_class :=
       match execution with
       | ExecutionOutcome.Completed => None
       | ExecutionOutcome.Blocked => Some FailureClass.Policy
       | ExecutionOutcome.Partial => Some FailureClass.Verification
       | ExecutionOutcome.Failed => Some FailureClass.RuntimeControlFlow
       | ExecutionOutcome.Cancelled | ExecutionOutcome.Interrupted =>
           Some FailureClass.RuntimeControlFlow
       | ExecutionOutcome.Uncertain => Some FailureClass.Unknown
       | ExecutionOutcome.Running | ExecutionOutcome.CandidateReady
       | ExecutionOutcome.Aborted => Some FailureClass.Unknown
       end;
     scorable :=
       match execution with
       | ExecutionOutcome.Running | ExecutionOutcome.Aborted | ExecutionOutcome.Uncertain => false
       | _ => true
       end;
     confidence := if bool_decide (verification = VerificationResult.Unknown) then 0 else 100;
     next_action := None |}.

(*@ core/src/outcome.rs TaskOutcome::with_evidence_refs *)
Definition with_evidence_refs (o : TaskOutcome) (refs : list EvidenceId) : TaskOutcome :=
  {| execution := execution o; verification := verification o; evidence_refs := refs;
     external_verification := external_verification o; failure_class := failure_class o;
     scorable := scorable o; confidence := confidence o; next_action := next_action o |}.

(*@ core/src/outcome.rs TaskOutcome::from_verification *)
Definition from_verification (status : TaskStatus) (v : VerificationRecord) : TaskOutcome :=
  let o := from_status status (vr_result v) in
  let o :=
    match execution o with
    | ExecutionOutcome.Failed | ExecutionOutcome.Partial =>
        let class :=
          if bool_decide (vr_policy_status v = "policy_blocked") then FailureClass.Policy
          else if bool_decide (vr_policy_status v = "runtime_failed") then
            FailureClass.RuntimeControlFlow
          else FailureClass.Verification in
        {| execution := execution o; verification := verification o;
           evidence_refs := evidence_refs o; external_verification := external_verification o;
           failure_class := Some class; scorable := scorable o; confidence := confidence o;
           next_action := Some
             match class with
             | FailureClass.Policy => "resolve the policy decision or change the approval mode"
             | FailureClass.Verification =>
                 "inspect failed checks and retry with objective evidence"
             | _ => "inspect the runtime failure and retry the task"
             end |}
    | _ => o
    end in
  with_evidence_refs o (vr_evidence_refs v).

(*@ core/src/outcome.rs TaskOutcome::candidate_ready *)
Definition outcome_candidate_ready (v : VerificationRecord) : TaskOutcome :=
  {| execution := ExecutionOutcome.CandidateReady;
     verification := vr_result v;
     evidence_refs := vr_evidence_refs v;
     external_verification := ExternalVerificationStatus.Pending;
     failure_class := None;
     scorable := false;
     confidence := if bool_decide (vr_result v = VerificationResult.Unknown) then 0 else 50;
     next_action := Some "await the external evaluator result" |}.

Definition is_candidate (o : TaskOutcome) : bool :=
  bool_decide (execution o = ExecutionOutcome.CandidateReady).

(*@ core/src/outcome.rs TaskOutcome::with_external_verification *)
Definition with_external_verification (o : TaskOutcome) (status : ExternalVerificationStatus)
    : TaskOutcome :=
  let set e f sc conf n :=
    {| execution := e; verification := verification o; evidence_refs := evidence_refs o;
       external_verification := status; failure_class := f; scorable := sc; confidence := conf;
       next_action := n |} in
  let cand := is_candidate o in
  let low := N.min (confidence o) 50 in
  match status with
  | ExternalVerificationStatus.Pass =>
      if cand then set ExecutionOutcome.Completed None true (N.max (confidence o) 90) None
      else set (execution o) (failure_class o) false low (next_action o)
  | ExternalVerificationStatus.Fail =>
      if cand then
        set ExecutionOutcome.Failed (Some FailureClass.ExternalEvaluation) false low
          (Some "inspect external evaluator assertions")
      else set (execution o) (failure_class o) false low (next_action o)
  | ExternalVerificationStatus.Pending =>
      set (execution o) (failure_class o) false low
        (if cand then Some "await the external evaluator result" else next_action o)
  | ExternalVerificationStatus.Partial =>
      if cand then
        set ExecutionOutcome.Partial (Some FailureClass.ExternalEvaluation) false low
          (Some "inspect partial external evaluator results")
      else set (execution o) (failure_class o) false low (next_action o)
  | ExternalVerificationStatus.Unknown =>
      if cand then
        set ExecutionOutcome.Uncertain (Some FailureClass.ExternalEvaluation) false low
          (Some "resolve the inconclusive external evaluation")
      else set (execution o) (failure_class o) false low (next_action o)
  | ExternalVerificationStatus.NotRequested =>
      set (execution o) (failure_class o) (scorable o) (confidence o) (next_action o)
  end.

(** ** Turn phases *)

(*@ core/src/loop_control.rs TurnState::new *)
Definition turn_state_new (turn_id : TurnId) : TurnState :=
  mkTurnState turn_id TurnPhase.Running 0 None None.

(*@ core/src/loop_control.rs TurnState::candidate_ready *)
Definition candidate_ready (t : TurnState) : TurnState :=
  mkTurnState (ts_turn_id t) TurnPhase.CandidateReady (ts_correction_attempt t)
    (ts_last_verification_id t) None.

(*@ core/src/loop_control.rs TurnState::candidate_complete *)
Definition candidate_complete (t : TurnState) : TurnState := candidate_ready t.

(*@ core/src/loop_control.rs TurnState::verification_ready *)
Definition verification_ready (t : TurnState) : TurnState :=
  mkTurnState (ts_turn_id t) TurnPhase.VerificationReady (ts_correction_attempt t)
    (ts_last_verification_id t) (ts_continuation_reason t).

(*@ core/src/loop_control.rs TurnState::begin_verification *)
Definition begin_verification (t : TurnState) (id : VerificationId) : TurnState :=
  mkTurnState (ts_turn_id t) TurnPhase.Verifying (ts_correction_attempt t) (Some id)
    (ts_continuation_reason t).

(*@ core/src/loop_control.rs TurnState::continue_after_steer *)
Definition continue_after_steer (t : TurnState) (turn_id : TurnId) : TurnState :=
  mkTurnState turn_id TurnPhase.Running (ts_correction_attempt t) (ts_last_verification_id t)
    (Some ContinuationReason.UserSteer).

(*@ core/src/loop_control.rs TurnState::issue_correction *)
Definition issue_correction (t : TurnState) (reason : ContinuationReason) : TurnState :=
  mkTurnState (ts_turn_id t) TurnPhase.Correcting (ts_correction_attempt t +|32 1)
    (ts_last_verification_id t) (Some reason).

(*@ core/src/loop_control.rs TurnState::terminal *)
Definition terminal (t : TurnState) : TurnState :=
  mkTurnState (ts_turn_id t) TurnPhase.Terminal (ts_correction_attempt t)
    (ts_last_verification_id t) None.

(*@ core/src/loop_control.rs CorrectionEnvelope::as_model_instruction *)
Definition as_model_instruction (e : CorrectionEnvelope) : string :=
  let requirements :=
    match ce_failed_requirements e with
    | [] => "the required verification evidence"
    | rs => join "; " rs
    end in
  let budget :=
    match ce_remaining_attempts e with
    | Some remaining => " Remaining correction attempts: " +:+ show remaining +:+ "."
    | None => ""
    end in
  "Runtime verification did not pass. Correct the following before claiming completion: "
    +:+ requirements +:+ ". Requested action: " +:+ ce_requested_action e +:+ "." +:+ budget.

(** ** External verdicts *)

Abbreviation requested := (filter (fun s => s <> ExternalVerificationStatus.NotRequested)).
Definition verdicts (o : TaskOutcome) (ss : list ExternalVerificationStatus) : TaskOutcome :=
  fold_left with_external_verification ss o.

Lemma verdicts_snoc o ss s : verdicts o (ss ++ [s]) = with_external_verification (verdicts o ss) s.
Proof. unfold verdicts. by rewrite fold_left_app. Qed.

Lemma requested_snoc ss s :
  requested (ss ++ [s]) =
  requested ss ++ (if decide (s = ExternalVerificationStatus.NotRequested) then [] else [s]).
Proof. rewrite filter_app. by destruct s. Qed.

(** A list of [x]s grown by one element. *)
Lemma snoc_replicate {A} (x y : A) l :
  (exists k, l ++ [y] = replicate k x) <-> y = x /\ exists k, l = replicate k x.
Proof.
  split.
  - intros [k Hk]. destruct k as [|k]; [by destruct l|].
    rewrite replicate_S_end in Hk. simplify_list_eq. eauto.
  - intros [-> [k ->]]. exists (S k). by rewrite replicate_S_end.
Qed.

Lemma candidate_step o s :
  is_candidate (with_external_verification o s) =
  is_candidate o && match s with
                    | ExternalVerificationStatus.NotRequested
                    | ExternalVerificationStatus.Pending => true
                    | _ => false
                    end.
Proof.
  unfold with_external_verification.
  destruct (is_candidate o) eqn:E, s; simpl; try done; exact E.
Qed.

(** An outcome is still a candidate exactly while only [Pending] was reported. *)
Lemma candidate_while_pending o ss :
  is_candidate (verdicts o ss) = true <->
  is_candidate o = true /\
  exists k, requested ss = replicate k ExternalVerificationStatus.Pending.
Proof.
  induction ss as [|s ss IH] using rev_ind.
  { split; [intros H; split; [done|by exists 0%nat]|by intros [? _]]. }
  rewrite verdicts_snoc, requested_snoc, candidate_step.
  rewrite andb_true_iff, IH. destruct s; simpl; rewrite ?app_nil_r, ?snoc_replicate; intuition (try congruence).
Qed.

Lemma verdict_step_scorable o s :
  scorable (with_external_verification o s) =
  match s with
  | ExternalVerificationStatus.NotRequested => scorable o
  | ExternalVerificationStatus.Pass => is_candidate o
  | _ => false
  end.
Proof. unfold with_external_verification. by destruct s, (is_candidate o). Qed.

(** What an external evaluator can do to an outcome. After any
    sequence of verdicts the outcome is scorable exactly when it was scorable and
    no verdict was requested, or when it was an explicit candidate and the
    verdicts were pending ones followed by one final pass; the internal
    verification result and the evidence are never touched; and once a verdict was
    requested the confidence is at least 90 if scorable, at most 50 otherwise. *)
Theorem external_verdict_scoring o ss :
  let o' := verdicts o ss in
  (scorable o' = true <->
     (requested ss = [] /\ scorable o = true) \/
     (is_candidate o = true /\
      exists k, requested ss = replicate k ExternalVerificationStatus.Pending
                               ++ [ExternalVerificationStatus.Pass])) /\
  verification o' = verification o /\ evidence_refs o' = evidence_refs o /\
  (requested ss <> [] -> if scorable o' then 90 <= confidence o' else confidence o' <= 50).
Proof.
  intros o'. split_and!; unfold o'; clear o'.
  - induction ss as [|s ss IH] using rev_ind.
    { split; [by left|]. intros [[_ H]|[_ [k Hk]]]; [done|]. by destruct k. }
    rewrite verdicts_snoc, requested_snoc, verdict_step_scorable.
    destruct s; simpl; rewrite ?app_nil_r; try exact IH.
    all: rewrite ?candidate_while_pending.
    all: split; [try done; intros [Ho [k Hk]]; right; rewrite Hk; eauto|].
    all: intros [[H _]|[Ho [k Hk]]]; [by destruct (requested ss)|].
    all: apply app_inj_tail in Hk as [Hk ?]; try done; eauto.
  - induction ss as [|s ss IH] using rev_ind; [done|]. rewrite verdicts_snoc, <- IH.
    unfold with_external_verification. by destruct s, (is_candidate (verdicts o ss)).
  - induction ss as [|s ss IH] using rev_ind; [done|]. rewrite verdicts_snoc, <- IH.
    unfold with_external_verification. by destruct s, (is_candidate (verdicts o ss)).
  - induction ss as [|s ss IH] using rev_ind; [done|].
    rewrite requested_snoc, verdicts_snoc. destruct s; simpl; rewrite ?app_nil_r; [exact IH|..];
      intros _; unfold with_external_verification; destruct (is_candidate (verdicts o ss)); simpl; lia.
Qed.

Definition candidate_example : TaskOutcome :=
  mkTaskOutcome ExecutionOutcome.CandidateReady VerificationResult.Partial [] 
    ExternalVerificationStatus.Pending None false 50 None.

Lemma external_verdict_scoring_witness :
  scorable (verdicts candidate_example
    [ExternalVerificationStatus.Pending; ExternalVerificationStatus.Pass]) = true /\
  90 <= confidence (verdicts candidate_example
    [ExternalVerificationStatus.Pending; ExternalVerificationStatus.Pass]).
Proof.
  destruct (external_verdict_scoring candidate_example
    [ExternalVerificationStatus.Pending; ExternalVerificationStatus.Pass]) as (H & _ & _ & Hc).
  split; [apply H; right; split; [reflexivity|]; by exists 1%nat|]. by apply Hc.
Defined.

(** ** What the model is told *)

(** The correction text shown to the model contains every failed
    requirement, and it depends on the failed requirements, the requested action
    and the remaining attempts alone: envelopes of different verification records
    with different evidence are indistinguishable to the model. *)
Theorem correction_instruction_content e :
  (forall r, r ∈ ce_failed_requirements e -> str_contains r (as_model_instruction e) = true) /\
  (forall id attempt refs,
     as_model_instruction
       (mkCorrectionEnvelope id attempt (ce_remaining_attempts e) (ce_failed_requirements e) refs
          (ce_requested_action e)) = as_model_instruction e).
Proof.
  split; [|done]. intros r Hr. unfold as_model_instruction. apply str_contains_app_r.
  destruct (ce_failed_requirements e) as [|x rs] eqn:E; [by apply not_elem_of_nil in Hr|].
  by apply join_contains.
Qed.

Lemma correction_instruction_content_witness :
  str_contains "tests must pass" (as_model_instruction
    (mkCorrectionEnvelope 1 1 (Some 0) ["build"; "tests must pass"] [] "fix")) = true.
Proof.
  apply (proj1 (correction_instruction_content
    (mkCorrectionEnvelope 1 1 (Some 0) ["build"; "tests must pass"] [] "fix"))).
  simpl. apply list_elem_of_further, list_elem_of_here.
Defined.
