(* ===== verification/TaskContract.v ===== *)
(** * Task contracts

    [golutra-agent-core/src/task_contract.rs]: what a turn must deliver, and the
    validation that rejects malformed adapter input before the execution loop
    sees it. [Path::components] is the standard library's for Unix paths; the
    Windows reading of the same path is the specification the portable check is
    proved against. *)
From Stdlib Require Import Ascii.
From S2P Require Import Prelude RustStr Core.
Open Scope N_scope.

(*@ core/src/task_contract.rs TASK_CONTRACT_SCHEMA_VERSION *)
Definition TASK_CONTRACT_SCHEMA_VERSION : N := 1.
(*@ core/src/task_contract.rs MAX_TASK_CONTRACT_PATH_CHARS *)
Definition MAX_TASK_CONTRACT_PATH_CHARS : N := 1024.
(*@ core/src/task_contract.rs MAX_TASK_CONTRACT_CRITERION_CHARS *)
Definition MAX_TASK_CONTRACT_CRITERION_CHARS : N := 4096.
(*@ core/src/task_contract.rs MAX_REQUIRED_FILE_CONTENT_BYTES *)
Definition MAX_REQUIRED_FILE_CONTENT_BYTES : N := 1024 * 1024.

Module WorkspaceChangeRequirement.
(*@ core/src/task_contract.rs WorkspaceChangeRequirement *)
Inductive WorkspaceChangeRequirement := Optional | Required | Forbidden.
#[global] Instance WorkspaceChangeRequirement_eq_dec : EqDecision WorkspaceChangeRequirement.
Proof. solve_decision. Defined.
End WorkspaceChangeRequirement.
Abbreviation WorkspaceChangeRequirement := WorkspaceChangeRequirement.WorkspaceChangeRequirement.

Module VerificationRequirement.
(*@ core/src/task_contract.rs VerificationRequirement *)
Inductive VerificationRequirement := BestEffort | Required | Independent.
#[global] Instance VerificationRequirement_eq_dec : EqDecision VerificationRequirement.
Proof. solve_decision. Defined.
End VerificationRequirement.
Abbreviation VerificationRequirement := VerificationRequirement.VerificationRequirement.

(*@ core/src/task_contract.rs RequiredFileContent *)
Record RequiredFileContent := mkRequiredFileContent {
  rfc_path : string;
  rfc_content : string;
}.
#[global] Instance RequiredFileContent_eq_dec : EqDecision RequiredFileContent.
Proof. solve_decision. Defined.

(*@ core/src/task_contract.rs TaskContract *)
Record TaskContract := mkTaskContract {
  schema_version : N;
  workspace_change : WorkspaceChangeRequirement;
  required_paths : list string;
  required_file_contents : list RequiredFileContent;
  completion_criteria : list string;
  require_objective_validation : bool;
  contract_verification : VerificationRequirement;
  max_correction_rounds : option N;
}.
#[global] Instance TaskContract_eq_dec : EqDecision TaskContract.
Proof. solve_decision. Defined.

(*@ core/src/task_contract.rs Default::default for TaskContract *)
Definition default_contract : TaskContract :=
  mkTaskContract TASK_CONTRACT_SCHEMA_VERSION WorkspaceChangeRequirement.Optional [] [] [] false
    VerificationRequirement.BestEffort None.

(*@ core/src/task_contract.rs TaskContract::open *)
Definition open_contract (criteria : list string) : TaskContract :=
  mkTaskContract TASK_CONTRACT_SCHEMA_VERSION WorkspaceChangeRequirement.Optional [] [] criteria
    false VerificationRequirement.BestEffort None.

(*@ core/src/task_contract.rs TaskContract::conversational *)
Definition conversational (criteria : list string) : TaskContract :=
  mkTaskContract TASK_CONTRACT_SCHEMA_VERSION WorkspaceChangeRequirement.Optional [] [] criteria
    false VerificationRequirement.BestEffort (Some 0).

Definition nonempty {A} (l : list A) : bool := match l with [] => false | _ => true end.

(*@ core/src/task_contract.rs TaskContract::requires_workspace_evidence *)
Definition requires_workspace_evidence (c : TaskContract) : bool :=
  bool_decide (workspace_change c = WorkspaceChangeRequirement.Required)
  || nonempty (required_paths c) || nonempty (required_file_contents c).

(*@ core/src/task_contract.rs TaskContract::requires_independent_verification *)
Definition requires_independent_verification (c : TaskContract) : bool :=
  bool_decide (contract_verification c = VerificationRequirement.Independent).

(*@ core/src/task_contract.rs TaskContract::allows_correction *)
Definition allows_correction (c : TaskContract) (attempt : N) : bool :=
  is_none_or (fun limit => attempt <? limit) (max_correction_rounds c).

(** ** Paths *)

Definition slash : Ascii.ascii := "/"%char.
Definition backslash : Ascii.ascii := "\"%char.
Definition colon : Ascii.ascii := ":"%char.

(** [std::path::Component] on Unix, which has no prefix component. *)
Inductive Component := RootDir | CurDir | ParentDir | Normal (s : string).

Definition segment_component (s : string) : option Component :=
  if bool_decide (s = "") || bool_decide (s = ".") then None
  else if bool_decide (s = "..") then Some ParentDir
  else Some (Normal s).

(** [Path::components] on Unix: empty and non-leading [.] segments are dropped. *)
Definition path_components (p : string) : list Component :=
  let segs := split_on slash p in
  (if starts_with "/" p then [RootDir]
   else if bool_decide (head segs = Some ".") then [CurDir] else [])
  ++ omap segment_component segs.

#[global] Instance Component_eq_dec : EqDecision Component.
Proof. solve_decision. Defined.

(** How [PathBuf]s compare: by their components. *)
Definition component_key (c : Component) : string :=
  match c with RootDir => "/" | CurDir => "." | ParentDir => ".." | Normal s => s end.
Definition path_key (p : string) : list string := component_key <$> path_components p.

(*@ core/src/task_contract.rs is_portable_workspace_relative_path *)
Definition is_portable_workspace_relative_path (path : string) : bool :=
  let normalized := replace_char backslash slash path in
  if starts_with "/" normalized
     || is_some_and (Ascii.eqb colon) (String.get 1 normalized)
  then false
  else negb (existsb (fun c => bool_decide (c = "..")) (split_on slash normalized)).

Definition nul_byte : Ascii.ascii := Ascii.zero.
Fixpoint contains_byte (a : Ascii.ascii) (s : string) : bool :=
  match s with EmptyString => false | String b s' => Ascii.eqb a b || contains_byte a s' end.

(*@ core/src/task_contract.rs is_valid_workspace_relative_path *)
Definition is_valid_workspace_relative_path (path : string) : bool :=
  let trimmed := trim path in
  negb (bool_decide (trimmed = ""))
  && (char_count trimmed <=? MAX_TASK_CONTRACT_PATH_CHARS)
  && negb (contains_byte nul_byte path)
  && is_portable_workspace_relative_path path
  && negb (existsb (fun c => match c with ParentDir | RootDir => true | _ => false end)
             (path_components path)).

(*@ core/src/task_contract.rs TaskContract::validate *)
Definition validate (c : TaskContract) : result string unit :=
  if negb (schema_version c =? TASK_CONTRACT_SCHEMA_VERSION) then
    Err ("unsupported task contract schema_version " +:+ show (schema_version c)
           +:+ "; expected " +:+ show TASK_CONTRACT_SCHEMA_VERSION)
  else if (64 <? N.of_nat (length (required_paths c))) then
    Err "task contract contains too many required paths"
  else if (64 <? N.of_nat (length (required_file_contents c))) then
    Err "task contract contains too many required file contents"
  else if (32 <? N.of_nat (length (completion_criteria c))) then
    Err "task contract contains too many completion criteria"
  else if existsb (fun p => negb (is_valid_workspace_relative_path p)) (required_paths c) then
    Err "task contract paths must be non-empty workspace-relative paths"
  else if existsb (fun r => negb (is_valid_workspace_relative_path (rfc_path r))
                            || (MAX_REQUIRED_FILE_CONTENT_BYTES <? str_len (rfc_content r)))
            (required_file_contents c) then
    Err ("required file contents must use workspace-relative paths and contain at most "
           +:+ show MAX_REQUIRED_FILE_CONTENT_BYTES +:+ " bytes")
  else if existsb (fun s => trim_is_empty s || (MAX_TASK_CONTRACT_CRITERION_CHARS <? char_count s))
            (completion_criteria c) then
    Err ("task contract completion criteria must contain 1..="
           +:+ show MAX_TASK_CONTRACT_CRITERION_CHARS +:+ " characters")
  else if bool_decide (workspace_change c = WorkspaceChangeRequirement.Forbidden)
          && (nonempty (required_paths c) || nonempty (required_file_contents c)) then
    Err "forbidden workspace changes cannot require delivery paths"
  else Ok tt.

(** ** Specification: where a path leads

    [walk] follows the segments of a path from a directory, innermost directory
    first; [..] leaves the innermost one. *)
Fixpoint walk (dir : list string) (segs : list string) : list string :=
  match segs with
  | [] => dir
  | s :: segs' =>
      if bool_decide (s = "") || bool_decide (s = ".") then walk dir segs'
      else if bool_decide (s = "..") then walk (tail dir) segs'
      else walk (s :: dir) segs'
  end.

(** A path joined to [root] and resolved lexically, with Unix separators. *)
Definition unix_target (root : list string) (p : string) : list string :=
  walk (if starts_with "/" p then [] else root) (split_on slash p).

(** The same on Windows, where both separators count and a drive letter or a
    leading separator makes the path absolute. *)
Definition windows_target (root : list string) (p : string) : list string :=
  let n := replace_char backslash slash p in
  walk (if starts_with "/" n || is_some_and (Ascii.eqb colon) (String.get 1 n) then [] else root)
    (split_on slash n).

Definition inside (root target : list string) : Prop := exists rel, target = rel ++ root.

Lemma walk_inside dir segs : ".." ∉ segs -> inside dir (walk dir segs).
Proof.
  revert dir. induction segs as [|s segs IH]; intros dir Hn; [by exists []|].
  apply not_elem_of_cons in Hn as [Hs Hn]. simpl.
  destruct (bool_decide (s = "") || _); [by apply IH|].
  rewrite (bool_decide_eq_false_2 (s = "..")) by congruence.
  destruct (IH (s :: dir) Hn) as [rel ->]. exists (rel ++ [s]). by simplify_list_eq.
Qed.

Lemma existsb_false {A} (f : A -> bool) l : existsb f l = false <-> Forall (fun x => f x = false) l.
Proof.
  induction l as [|x l IH]; simpl; [by split|].
  rewrite orb_false_iff, Forall_cons, IH. done.
Qed.

Lemma no_parent_segments l :
  existsb (fun c => bool_decide (c = "..")) l = false -> ".." ∉ l.
Proof. rewrite existsb_false, Forall_forall. intros H Hin. by apply H in Hin. Qed.

Lemma no_parent_component p :
  existsb (fun c => match c with ParentDir | RootDir => true | _ => false end)
    (path_components p) = false ->
  starts_with "/" p = false /\ ".." ∉ split_on slash p.
Proof.
  unfold path_components. intros H. rewrite existsb_app in H. apply orb_false_iff in H as [H1 H2].
  split; [by destruct (starts_with "/" p)|]. intros Hin. clear H1.
  rewrite existsb_false, Forall_forall in H2.
  discriminate (H2 ParentDir). apply list_elem_of_omap. by exists "..".
Qed.

Lemma valid_path_confined root p :
  is_valid_workspace_relative_path p = true ->
  inside root (unix_target root p) /\ inside root (windows_target root p).
Proof.
  unfold is_valid_workspace_relative_path. intros H. boolhyps. split.
  - apply no_parent_component in H0 as [Hs Hn]. unfold unix_target. rewrite Hs.
    by apply walk_inside.
  - unfold is_portable_workspace_relative_path in H1. unfold windows_target.
    destruct (starts_with "/" _ || _); [done|]. boolhyps.
    by apply walk_inside, no_parent_segments.
Qed.

(** Every path an accepted contract asks to be delivered stays in the
    workspace. Whatever directory the workspace is, the path joined to it resolves
    to something below it, with Unix and with Windows separators alike; and a
    contract that forbids workspace changes asks for no path at all. *)
Theorem validated_contract_confined c root :
  validate c = Ok tt ->
  Forall (fun p => inside root (unix_target root p) /\ inside root (windows_target root p))
    (required_paths c ++ (rfc_path <$> required_file_contents c)) /\
  Forall (fun r => str_len (rfc_content r) <= MAX_REQUIRED_FILE_CONTENT_BYTES)
    (required_file_contents c) /\
  (workspace_change c = WorkspaceChangeRequirement.Forbidden ->
     required_paths c = [] /\ required_file_contents c = []).
Proof.
  unfold validate. intros H. repeat (case_hyp H; [done|]).
  repeat match goal with E : existsb _ _ = false |- _ => rewrite existsb_false in E end.
  split_and!.
  - rewrite Forall_app, Forall_fmap. split; (eapply Forall_impl; [eassumption|]); simpl.
    + intros p Hp. boolhyps. by apply valid_path_confined.
    + intros r Hr. boolhyps. by apply valid_path_confined.
  - eapply Forall_impl; [eassumption|]. simpl. intros r Hr. boolhyps. by Nbool.
  - intros Hf. rewrite (bool_decide_eq_true_2 _ Hf) in Heqb6. simpl in Heqb6. boolhyps.
    by destruct (required_paths c), (required_file_contents c).
Qed.

Definition contract_example : TaskContract :=
  mkTaskContract 1 WorkspaceChangeRequirement.Required ["src/main.rs"; "docs\guide.md"]
    [mkRequiredFileContent "./result.txt" "done"] ["tests pass"] true
    VerificationRequirement.Required (Some 2).

Lemma validated_contract_confined_witness :
  Forall (fun p => inside ["work"; "home"] (unix_target ["work"; "home"] p) /\
                   inside ["work"; "home"] (windows_target ["work"; "home"] p))
    ["src/main.rs"; "docs\guide.md"; "./result.txt"].
Proof.
  apply (validated_contract_confined contract_example ["work"; "home"]). vm_compute. reflexivity.
Defined.

Example rejects_escapes :
  forallb (fun p => negb (is_valid_workspace_relative_path p))
    ["/tmp/result"; "..\outside.txt"; "C:\workspace\result.txt"; "\\server\share"; "a/../../b"; " "]
  = true.
Proof. vm_compute. reflexivity. Qed.
