(* ===== verification/PathPolicy.v ===== *)
(** * The workspace boundary

    The path half of [golutra-agent-policy/src/lib.rs]: mapping the workspace names a
    model uses onto the host workspace, resolving a path against the file system, and
    the decision [evaluate_path] takes. A path is its text; [components] is
    [path_components]. The file system is an argument: whether a path exists, and what
    [Path::canonicalize] makes of it. *)
From S2P Require Import Prelude RustStr Core TaskContract.
Open Scope N_scope.

(** ** Paths *)

Definition is_absolute (path : string) : bool := starts_with "/" path.

(** [Path::starts_with], by components. *)
Fixpoint components_prefix (base path : list Component) : bool :=
  match base, path with
  | [], _ => true
  | b :: base, c :: path => bool_decide (b = c) && components_prefix base path
  | _ :: _, [] => false
  end.
Definition path_starts_with (path base : string) : bool :=
  components_prefix (path_components base) (path_components path).

(** [PathBuf::push] and [Path::join]. *)
Definition push (base path : string) : string :=
  if is_absolute path then path
  else if bool_decide (base = "") || ends_with "/" base then base +:+ path
  else base +:+ "/" +:+ path.

(** The segments of a path that are no component: empty and [.]. *)
Definition blank_segment (s : string) : bool := bool_decide (s = "") || bool_decide (s = ".").

(** The segments after the first [n] that are components. *)
Fixpoint skip_components (n : nat) (segs : list string) : list string :=
  match n, segs with
  | O, _ => segs
  | _, [] => []
  | S n', s :: segs' => if blank_segment s then skip_components n segs' else skip_components n' segs'
  end.

Definition trim_segments (segs : list string) : list string :=
  reverse (drop_while blank_segment (reverse segs)).

(** [path.strip_prefix(base)] for absolute paths: the text that is left, trimmed on both
    sides as [Components::as_path] trims it. *)
Definition path_strip_prefix (path base : string) : option string :=
  if path_starts_with path base then
    Some (join "/" (trim_segments (drop_while blank_segment
            (skip_components (length (path_components base) - 1) (split_on slash path)))))
  else None.

(** The absolute path with the given segments. *)
Definition absolute (segs : list string) : string := "/" +:+ join "/" segs.

(** ** The file system and the policy *)

Class FileSystem := {
  fs_exists : string -> bool;
  fs_canonicalize : string -> option string;
}.

(** A component other than [..], as a segment. *)
Definition name_ok (s : string) : bool :=
  negb (blank_segment s) && negb (bool_decide (s = "..")) && negb (has_byte [47] s).

(** What [Path::canonicalize] documents: an absolute path with every component
    normalized and every link resolved. *)
Class FileSystemLaws `{FileSystem} := {
  canonicalize_canonical p c :
    fs_canonicalize p = Some c -> exists names, c = absolute names /\ forallb name_ok names = true;
}.

(*@ policy/src/lib.rs PolicyError *)
Inductive PolicyError :=
| MissingWorkspace (path : string)
| MissingParent (path : string)
| Canonicalization (path : string).

(*@ policy/src/lib.rs WorkspacePolicyMode *)
Inductive WorkspacePolicyMode := Guarded | Unrestricted.
#[global] Instance WorkspacePolicyMode_eq_dec : EqDecision WorkspacePolicyMode.
Proof. solve_decision. Defined.

(*@ policy/src/lib.rs WorkspacePathMapper *)
Record WorkspacePathMapper := mkMapper {
  mapper_root : string;
  aliases : list string;
}.

(*@ policy/src/lib.rs WorkspacePolicy *)
Record WorkspacePolicy := mkPolicy {
  workspace_root : string;
  path_mapper : WorkspacePathMapper;
  sensitive_path_fragments : list string;
  mode : WorkspacePolicyMode;
}.

Module Mapper.

(*@ policy/src/lib.rs WorkspacePathMapper::new *)
Definition new (workspace_root : string) : WorkspacePathMapper :=
  mkMapper workspace_root ["/app"; "/workspace"].

(*@ policy/src/lib.rs WorkspacePathMapper::map *)
Definition map (m : WorkspacePathMapper) (path : string) : string :=
  if negb (is_absolute path) || path_starts_with path (mapper_root m) then path
  else
    default path
      (head (omap (fun alias => push (mapper_root m) <$> path_strip_prefix path alias) (aliases m))).

(*@ policy/src/lib.rs WorkspacePathMapper::add_alias *)
Definition add_alias (m : WorkspacePathMapper) (alias : string)
    : result PolicyError WorkspacePathMapper :=
  if negb (is_absolute alias) then
    Err (Canonicalization ("workspace path alias must be absolute: " +:+ alias))
  else if existsb (fun a => bool_decide (path_components a = path_components alias)) (aliases m)
  then Ok m
  else Ok (mkMapper (mapper_root m) (aliases m ++ [alias])).

End Mapper.

Section policy.
Context `{FileSystem}.

(*@ policy/src/lib.rs canonicalize_existing *)
Definition canonicalize_existing (path : string) : result PolicyError string :=
  ok_or (Canonicalization path) (fs_canonicalize path).

(*@ policy/src/lib.rs WorkspacePolicy::new *)
Definition new_policy (root : string) : result PolicyError WorkspacePolicy :=
  if negb (fs_exists root) then Err (MissingWorkspace root)
  else
    let? root := canonicalize_existing root in
    Ok (mkPolicy root (Mapper.new root) [".env"; "id_rsa"; "id_ed25519"; ".ssh"; "secrets"] Guarded).

(*@ policy/src/lib.rs WorkspacePolicy::with_unrestricted_access *)
Definition with_unrestricted_access (p : WorkspacePolicy) (enabled : bool) : WorkspacePolicy :=
  mkPolicy (workspace_root p) (path_mapper p) (sensitive_path_fragments p)
    (if enabled then Unrestricted else Guarded).

(*@ policy/src/lib.rs WorkspacePolicy::with_path_alias *)
Definition with_path_alias (p : WorkspacePolicy) (alias : string) : result PolicyError WorkspacePolicy :=
  let? m := Mapper.add_alias (path_mapper p) alias in
  Ok (mkPolicy (workspace_root p) m (sensitive_path_fragments p) (mode p)).

(** The walk up from [candidate] to the nearest ancestor that exists. [existing] is its
    text, [segs] its segments from the last one back, [missing] the names below it.
    A blank segment is skipped: [file_name] and [parent] do not see it. *)
(*@ policy/src/lib.rs:660-673 canonicalize_nonexistent_target *)
Fixpoint nearest_existing (candidate existing : string) (segs missing : list string)
    : result PolicyError (string * list string) :=
  if fs_exists existing then Ok (existing, missing)
  else
    match segs with
    | [] => Err (MissingParent candidate)
    | name :: segs =>
        if blank_segment name then nearest_existing candidate existing segs missing
        else if bool_decide (name = "..") then Err (MissingParent candidate)
        else nearest_existing candidate (absolute (reverse (drop_while blank_segment segs))) segs
               (name :: missing)
    end.

(*@ policy/src/lib.rs canonicalize_nonexistent_target *)
Definition canonicalize_nonexistent_target (candidate : string) : result PolicyError string :=
  let? (existing, missing) :=
    nearest_existing candidate candidate (reverse (tl (split_on slash candidate))) [] in
  let? resolved := canonicalize_existing existing in
  Ok (fold_left push missing resolved).

(*@ policy/src/lib.rs WorkspacePolicy::resolve_path *)
Definition resolve_path (p : WorkspacePolicy) (path : string) (requires_existing_path : bool)
    : result PolicyError string :=
  let path := Mapper.map (path_mapper p) path in
  let candidate := if is_absolute path then path else push (workspace_root p) path in
  if requires_existing_path || fs_exists candidate then canonicalize_existing candidate
  else canonicalize_nonexistent_target candidate.

(*@ policy/src/lib.rs has_internal_runtime_component *)
Definition has_internal_runtime_component (path : string) : bool :=
  existsb (fun c => match c with
    | Normal value => bool_decide (value ∈ [".git"; ".golutra"; ".golutra-agent"])
    | _ => false
    end) (path_components path).

(*@ policy/src/lib.rs WorkspacePolicy::is_sensitive_path *)
Definition is_sensitive_path (p : WorkspacePolicy) (path : string) : bool :=
  let path_text := to_ascii_lowercase path in
  has_internal_runtime_component path
  || existsb (fun fragment => str_contains fragment path_text) (sensitive_path_fragments p).

Definition policy_error_text (e : PolicyError) : string :=
  match e with
  | MissingWorkspace p => "workspace root does not exist: " +:+ p
  | MissingParent p => "path has no parent: " +:+ p
  | Canonicalization p => "path canonicalization failed: " +:+ p
  end.

(*@ policy/src/lib.rs WorkspacePolicy::evaluation *)
Definition evaluation (policy_ref : PolicyId) (action resource : string) (decision : PolicyDecision)
    (disposition : option PolicyBlockDisposition) (reason : string) : PolicyEvaluation :=
  mkPolicyEvaluation policy_ref "tool" action resource decision disposition reason [].

(*@ policy/src/lib.rs WorkspacePolicy::evaluate_path *)
Definition evaluate_path (p : WorkspacePolicy) (policy_ref : PolicyId) (action path : string)
    (requires_existing_path : bool) : PolicyEvaluation :=
  match resolve_path p path requires_existing_path with
  | Ok resolved =>
      if bool_decide (mode p = Unrestricted) then
        evaluation policy_ref action resolved PolicyDecision.Allow None
          "unrestricted workspace policy enabled"
      else if is_sensitive_path p resolved then
        evaluation policy_ref action resolved PolicyDecision.Block
          (Some PolicyBlockDisposition.Terminal) "sensitive path"
      else if path_starts_with resolved (workspace_root p) then
        evaluation policy_ref action resolved PolicyDecision.Allow None "path is inside workspace"
      else
        evaluation policy_ref action resolved PolicyDecision.Block
          (Some PolicyBlockDisposition.Terminal) "path is outside workspace"
  | Err error =>
      evaluation policy_ref action path PolicyDecision.Block
        (Some PolicyBlockDisposition.Recoverable)
        ("path resolution failed: " +:+ policy_error_text error)
  end.

End policy.

(** ** Canonical paths *)

Lemma name_ok_slash s : name_ok s = true -> has_byte [47] s = false.
Proof. unfold name_ok. intros H. by boolhyps. Qed.

Lemma names_no_slash names :
  forallb name_ok names = true ->
  forallb (fun p => negb (has_byte [byte_of slash] p)) names = true.
Proof.
  intros H. rewrite forallb_forall in H |- *. intros s Hs%H. apply name_ok_slash in Hs.
  change (byte_of slash) with 47. by rewrite Hs.
Qed.

Lemma split_absolute segs :
  segs <> [] -> forallb (fun p => negb (has_byte [byte_of slash] p)) segs = true ->
  split_on slash (absolute segs) = "" :: segs.
Proof. intros Hne Hs. change (split_on slash (absolute segs)) with ("" :: split_on slash (join "/" segs)). f_equal. by apply (split_on_join slash). Qed.

Lemma omap_names names : forallb name_ok names = true -> omap segment_component names = Normal <$> names.
Proof.
  induction names as [|s names IH]; [done|]. intros [Hs H]%andb_true_iff.
  unfold name_ok, blank_segment in Hs. boolhyps. cbn [omap list_omap]. unfold segment_component at 1.
  rewrite !bool_decide_eq_false_2 by done. cbn [orb]. by rewrite fmap_cons, <- IH.
Qed.

Lemma components_absolute names :
  forallb name_ok names = true -> path_components (absolute names) = RootDir :: (Normal <$> names).
Proof.
  intros H. destruct names as [|s names]; [done|]. unfold path_components.
  rewrite split_absolute by (done || by apply names_no_slash).
  unfold absolute. rewrite starts_with_app. simpl app. by rewrite <- omap_names.
Qed.

Lemma absolute_no_trailing_slash names :
  names <> [] -> forallb name_ok names = true -> ends_with "/" (absolute names) = false.
Proof.
  intros Hne H. destruct (ends_with "/" (absolute names)) eqn:E; [|done].
  apply ends_with_app in E as [t Ht]. assert (Hs := split_absolute names Hne (names_no_slash _ H)).
  rewrite Ht in Hs. change "/" with (String slash "") in Hs. rewrite split_on_snoc in Hs.
  destruct names as [|x names] using rev_ind; [done|]. rewrite app_comm_cons in Hs.
  apply app_inj_2 in Hs as [_ Hx]; [|done]. simplify_eq. by rewrite forallb_app, andb_comm in H.
Qed.

Lemma join_snoc sep l s : l <> [] -> join sep (l ++ [s]) = join sep l +:+ sep +:+ s.
Proof.
  induction l as [|x l IH]; [done|]. intros _. destruct l as [|y l]; [done|].
  rewrite <- app_comm_cons, join_cons by (by destruct l). rewrite IH by done.
  by rewrite (join_cons sep x (y :: l)), !str_app_assoc.
Qed.

Lemma push_absolute names name :
  forallb name_ok names = true -> name_ok name = true ->
  push (absolute names) name = absolute (names ++ [name]).
Proof.
  intros H Hn. unfold push. replace (is_absolute name) with false.
  - destruct names as [|x names]; [done|].
    rewrite absolute_no_trailing_slash by done. simpl orb. unfold absolute.
    rewrite join_snoc by done. by rewrite str_app_assoc.
  - symmetry. apply name_ok_slash in Hn. unfold is_absolute, starts_with.
    destruct name as [|a name]; [done|]. simpl in *. boolhyps.
    destruct (Ascii.ascii_dec slash a) as [<-|Hne]; [done|].
    destruct a as [[] [] [] [] [] [] [] []]; first [reflexivity | by destruct Hne].
Qed.

Lemma fold_push_absolute missing : forall names,
  forallb name_ok names = true -> forallb name_ok missing = true ->
  fold_left push missing (absolute names) = absolute (names ++ missing).
Proof.
  induction missing as [|m missing IH]; intros names Hn Hm; simpl; [by rewrite app_nil_r|].
  simpl in Hm. apply andb_true_iff in Hm as [Hm Hms]. rewrite push_absolute by done.
  rewrite IH by (done || by rewrite forallb_app, Hn; simpl; rewrite Hm). by rewrite <- app_assoc.
Qed.

(** ** What resolution promises *)

Definition canonical (path : string) : Prop :=
  exists names, path = absolute names /\ forallb name_ok names = true.

(** The invariant of a policy: a canonical root, shared with its mapper, whose aliases
    are absolute. *)
Record policy_ok (p : WorkspacePolicy) : Prop := mkPolicyOk {
  policy_root : canonical (workspace_root p);
  policy_mapper : mapper_root (path_mapper p) = workspace_root p;
  policy_aliases : forallb is_absolute (aliases (path_mapper p)) = true;
}.

Section resolution.
Context `{FileSystemLaws}.

(** Every policy the code can build, by [new] and then any aliases and
    access mode, has a canonical absolute root, a mapper for that root, and absolute
    aliases only. *)
Theorem policies_ok :
  (forall root p, new_policy root = Ok p -> policy_ok p) /\
  (forall p enabled, policy_ok p -> policy_ok (with_unrestricted_access p enabled)) /\
  (forall p alias p', policy_ok p -> with_path_alias p alias = Ok p' -> policy_ok p').
Proof.
  split_and!.
  - intros root p Hp. unfold new_policy, canonicalize_existing in Hp. case_match; [done|].
    destruct (fs_canonicalize root) as [c|] eqn:Ec; [|done]. simplify_eq/=.
    apply canonicalize_canonical in Ec. by split.
  - by intros p enabled [].
  - intros p alias p' [] Hp. unfold with_path_alias, Mapper.add_alias in Hp.
    destruct (is_absolute alias) eqn:Ea; simpl in Hp; [|done].
    destruct (existsb _ _); simplify_eq/=; split; try done. cbn [path_mapper aliases].
    by rewrite forallb_app, policy_aliases0; simpl; rewrite Ea.
Qed.

(** Where the walk up stops: at an ancestor that exists, below which only names remain. *)
Lemma nearest_existing_ok segs : forall candidate existing missing anc missing',
  nearest_existing candidate existing segs missing = Ok (anc, missing') ->
  forallb (fun s => negb (has_byte [47] s)) segs = true -> forallb name_ok missing = true ->
  fs_exists anc = true /\ forallb name_ok missing' = true.
Proof.
  induction segs as [|name segs IH]; intros candidate existing missing anc missing' Hn Hs Hm;
    simpl in Hn; (destruct (fs_exists existing) eqn:E; [by simplify_eq|]); [done|].
  simpl in Hs. apply andb_true_iff in Hs as [Hname Hs].
  destruct (blank_segment name) eqn:Eb; [by eapply IH|]. case_bool_decide as Ed; [done|].
  eapply IH; [done..|]. simpl. rewrite Hm. unfold name_ok. rewrite Eb, Hname.
  by rewrite bool_decide_eq_false_2.
Qed.

Lemma segments_no_slash path :
  forallb (fun s => negb (has_byte [47] s)) (reverse (tl (split_on slash path))) = true.
Proof.
  apply forallb_elem, Forall_reverse, forallb_elem. assert (Hp := split_on_parts slash path).
  destruct (split_on slash path); [done|]. simpl in *. by apply andb_true_iff in Hp as [_ ?].
Qed.

(** A resolved path is the canonical form of something that exists, extended by names
    that the walk found missing. *)
Lemma resolve_path_ok p path req r :
  resolve_path p path req = Ok r ->
  exists anc c names missing,
    fs_canonicalize anc = Some c /\ c = absolute names /\ r = absolute (names ++ missing) /\
    forallb name_ok (names ++ missing) = true /\ (missing = [] \/ fs_exists anc = true).
Proof.
  unfold resolve_path. remember (if is_absolute _ then _ else _) as candidate. clear Heqcandidate.
  destruct (req || fs_exists candidate).
  - unfold canonicalize_existing. destruct (fs_canonicalize candidate) as [c|] eqn:Ec; [|done].
    intros Hr. simplify_eq/=. destruct (canonicalize_canonical _ _ Ec) as (names & -> & Hn).
    exists candidate, (absolute names), names, []. rewrite app_nil_r. split_and!; auto.
  - unfold canonicalize_nonexistent_target.
    destruct (nearest_existing _ _ _ _) as [[anc missing]|] eqn:En; [|done].
    apply nearest_existing_ok in En as [Hex Hm]; [|apply segments_no_slash|done].
    unfold canonicalize_existing. simpl. destruct (fs_canonicalize anc) as [c|] eqn:Ec; [|done].
    simpl. intros Hr. destruct (canonicalize_canonical _ _ Ec) as (names & -> & Hn).
    rewrite fold_push_absolute in Hr by done. simplify_eq.
    exists anc, (absolute names), names, missing. rewrite forallb_app, Hn, Hm. split_and!; auto.
Qed.

Lemma components_prefix_spec base path :
  components_prefix base path = true <-> exists rest, path = base ++ rest.
Proof.
  revert path. induction base as [|b base IH]; intros path; simpl; [naive_solver|].
  destruct path as [|c path]; [naive_solver|].
  rewrite andb_true_iff, bool_decide_eq_true, IH. naive_solver.
Qed.

(** C28 (safety): in guarded mode, a path the policy allows is the canonical form of a
    path that exists, possibly extended by names that do not exist yet, without [..] or
    [.] anywhere; it is the workspace root or below it; no component is a repository or
    runtime directory and no sensitive fragment occurs in it, in any case. *)
Theorem allowed_path_inside_workspace p policy_ref action path req :
  policy_ok p -> mode p = Guarded ->
  pe_decision (evaluate_path p policy_ref action path req) = PolicyDecision.Allow ->
  exists root inner,
    workspace_root p = absolute root /\
    pe_resource (evaluate_path p policy_ref action path req) = absolute (root ++ inner) /\
    forallb name_ok (root ++ inner) = true /\
    (forall name, name ∈ root ++ inner -> name ∉ [".git"; ".golutra"; ".golutra-agent"]) /\
    (forall fragment, fragment ∈ sensitive_path_fragments p ->
       str_contains fragment (to_ascii_lowercase (absolute (root ++ inner))) = false) /\
    (exists anc names missing, fs_canonicalize anc = Some (absolute names) /\
       root ++ inner = names ++ missing /\ (missing = [] \/ fs_exists anc = true)).
Proof.
  intros [(root & Hroot & Hrn) _ _] Hg. unfold evaluate_path.
  destruct (resolve_path p path req) as [r|] eqn:Er; [|done].
  rewrite bool_decide_eq_false_2 by (by rewrite Hg).
  destruct (is_sensitive_path p r) eqn:Es; [done|].
  destruct (path_starts_with r (workspace_root p)) eqn:Ep; [|done]. intros _.
  apply resolve_path_ok in Er as (anc & c & names & missing & Hc & -> & -> & Hn & Hm).
  unfold path_starts_with in Ep. rewrite Hroot, !components_absolute in Ep by done.
  apply components_prefix_spec in Ep as [rest Hrest]. simplify_eq/=.
  assert (exists inner, names ++ missing = root ++ inner) as [inner Hin].
  { apply fmap_app_inv in Hrest as (k1 & k2 & Hk & _ & ->). exists k2. f_equal.
    symmetry. revert Hk. apply list_fmap_eq_inj. by intros ? ? [=]. }
  exists root, inner. unfold is_sensitive_path, has_internal_runtime_component in Es.
  rewrite components_absolute in Es by done. rewrite <- Hin. boolhyps. split_and!; [done..| | |eauto 6].
  - intros name Hname Hbad. match goal with H : existsb _ (RootDir :: _) = false |- _ => rename H into Hi end.
    rewrite existsb_none in Hi. specialize (Hi (Normal name)). simpl in Hi.
    rewrite bool_decide_eq_true_2 in Hi by done. discriminate Hi.
    apply list_elem_of_further, list_elem_of_fmap. eauto.
  - intros fragment Hf. match goal with H : existsb _ (sensitive_path_fragments p) = false |- _ => rename H into Hi end.
    rewrite existsb_none in Hi. by apply Hi.
Qed.
End resolution.

(** ** Workspace aliases *)

Lemma blank_component s : blank_segment s = true <-> segment_component s = None.
Proof.
  unfold blank_segment, segment_component. case_match; [done|]. case_match; done.
Qed.

Lemma omap_skip n segs :
  omap segment_component (skip_components n segs) = drop n (omap segment_component segs).
Proof.
  revert n. induction segs as [|s segs IH]; intros [|n]; try done. cbn [skip_components omap list_omap].
  destruct (blank_segment s) eqn:Eb.
  - apply blank_component in Eb. rewrite Eb. apply IH.
  - destruct (segment_component s) eqn:Es; [simpl; apply IH|].
    apply blank_component in Es. congruence.
Qed.

Lemma omap_drop_blank segs :
  omap segment_component (drop_while blank_segment segs) = omap segment_component segs.
Proof.
  induction segs as [|s segs IH]; [done|]. cbn [drop_while omap list_omap].
  destruct (blank_segment s) eqn:Eb; [|done]. apply blank_component in Eb. by rewrite Eb.
Qed.

Lemma omap_trim segs :
  omap segment_component (trim_segments segs) = omap segment_component segs.
Proof.
  unfold trim_segments. rewrite <- (reverse_involutive segs) at 2.
  remember (reverse segs) as l eqn:E. clear segs E.
  induction l as [|s l IH]; [done|]. cbn [drop_while]. destruct (blank_segment s) eqn:Eb; [|done].
  rewrite IH, reverse_cons, omap_app. apply blank_component in Eb. simpl. by rewrite Eb, app_nil_r.
Qed.

Lemma components_of_absolute path : is_absolute path = true ->
  path_components path = RootDir :: omap segment_component (split_on slash path).
Proof. unfold is_absolute, path_components. by intros ->. Qed.

Lemma is_absolute_slash s : is_absolute (String slash s) = true.
Proof. apply (starts_with_app "/"). Qed.

(** The text left after a prefix, as segments: none of them holds a slash and the first
    is a component. *)
Lemma rest_segments n path :
  let rest := trim_segments (drop_while blank_segment (skip_components n (split_on slash path))) in
  forallb (fun s => negb (has_byte [47] s)) rest = true /\
  (forall s, head rest = Some s -> blank_segment s = false).
Proof.
  assert (Hskip : forall n l, forallb (fun s => negb (has_byte [47] s)) l = true ->
    forallb (fun s => negb (has_byte [47] s)) (skip_components n l) = true).
  { intros k l. revert k. induction l as [|s l IH]; intros [|k] Hl; try done. simpl in *.
    apply andb_true_iff in Hl as [? ?]. destruct (blank_segment s); auto. }
  assert (Hdrop : forall l, forallb (fun s => negb (has_byte [47] s)) l = true ->
    forallb (fun s => negb (has_byte [47] s)) (drop_while blank_segment l) = true).
  { induction l as [|s l IH]; intros Hl; [done|]. simpl in *. apply andb_true_iff in Hl as [? ?].
    destruct (blank_segment s); [auto|]. by apply andb_true_iff. }
  assert (Hrev : forall l, forallb (fun s => negb (has_byte [47] s)) l = true ->
    forallb (fun s => negb (has_byte [47] s)) (reverse l) = true).
  { intros l. rewrite !forallb_elem. apply Forall_reverse. }
  intros rest. split; [apply Hrev, Hdrop, Hrev, Hdrop, Hskip, (split_on_parts slash)|].
  unfold rest. remember (skip_components _ _) as l eqn:E. clear. intros s.
  induction l as [|x l IH]; [done|]. simpl drop_while. destruct (blank_segment x) eqn:Ex; [done|].
  unfold trim_segments. rewrite reverse_cons.
  assert (Hd : forall k, exists k', drop_while blank_segment (k ++ [x]) = k' ++ [x]).
  { induction k as [|y k [k' IHk]]; simpl; [exists []; by rewrite Ex|].
    destruct (blank_segment y); [by exists k'|by exists (y :: k)]. }
  destruct (Hd (reverse l)) as [k' ->]. rewrite reverse_snoc. intros. by simplify_eq/=.
Qed.

Lemma push_rest_components root segs :
  forallb name_ok root = true -> forallb (fun s => negb (has_byte [47] s)) segs = true ->
  (forall s, head segs = Some s -> blank_segment s = false) ->
  path_components (push (absolute root) (join "/" segs))
  = path_components (absolute root) ++ omap segment_component segs.
Proof.
  intros Hr Hs Hh.
  assert (Hsplit : omap segment_component (split_on slash (join "/" segs)) = omap segment_component segs).
  { destruct segs as [|s segs]; [done|]. by rewrite (split_on_join slash). }
  assert (Ha : is_absolute (join "/" segs) = false).
  { destruct segs as [|[|a s] segs]; [done|by specialize (Hh "" eq_refl)|].
    destruct (is_absolute (join "/" (String a s :: segs))) eqn:E; [|done].
    unfold is_absolute in E. rewrite join_push in E.
    simpl in Hs. boolhyps. unfold starts_with in E. simpl in E.
    destruct a as [[] [] [] [] [] [] [] []]; first [discriminate E | by vm_compute in H1]. }
  unfold push. rewrite Ha. destruct root as [|r root].
  - change (path_components (absolute [])) with [RootDir]. simpl orb.
    change (if ends_with "/" (absolute []) then absolute [] +:+ join "/" segs
            else absolute [] +:+ "/" +:+ join "/" segs) with (String slash (join "/" segs)).
    rewrite components_of_absolute by apply is_absolute_slash. simpl. f_equal. done.
  - rewrite absolute_no_trailing_slash by done. simpl orb.
    change (absolute (r :: root) +:+ "/" +:+ join "/" segs)
      with (absolute (r :: root) +:+ String slash (join "/" segs)).
    rewrite !components_of_absolute by apply is_absolute_slash. rewrite split_on_app, omap_app, Hsplit. done.
Qed.

(** A path the model writes below one of its names for the workspace is
    rewritten to the same path below the host workspace, component by component; every
    other path, relative, already inside, or foreign, is left as it is and so meets the
    boundary check unchanged. *)
Theorem mapper_rewrites_aliases m root path :
  mapper_root m = absolute root -> forallb name_ok root = true ->
  (forall alias rest,
     is_absolute path = true -> path_starts_with path (mapper_root m) = false ->
     List.find (path_starts_with path) (aliases m) = Some alias ->
     forallb is_absolute (aliases m) = true ->
     path_components path = path_components alias ++ rest ->
     path_components (Mapper.map m path) = path_components (mapper_root m) ++ rest) /\
  (is_absolute path = false \/ path_starts_with path (mapper_root m) = true \/
     List.find (path_starts_with path) (aliases m) = None ->
   Mapper.map m path = path).
Proof.
  intros Hroot Hr. unfold Mapper.map. split.
  - intros alias rest Ha Hn Hfind Hal Hc. rewrite Ha, Hn. simpl.
    assert (Hhead : head (omap (fun a => push (mapper_root m) <$> path_strip_prefix path a) (aliases m))
      = push (mapper_root m) <$> path_strip_prefix path alias).
    { clear Hal. induction (aliases m) as [|x l IH]; [done|]. simpl in Hfind. cbn [omap list_omap].
      destruct (path_starts_with path x) eqn:Ex.
      - simplify_eq. unfold path_strip_prefix. by rewrite Ex.
      - unfold path_strip_prefix at 1. rewrite Ex. by apply IH. }
    rewrite Hhead. apply find_some in Hfind as [Hin Hst]. unfold path_strip_prefix. rewrite Hst. simpl.
    assert (Haa : is_absolute alias = true) by (rewrite forallb_forall in Hal; auto).
    rewrite Hroot. destruct (rest_segments (length (path_components alias) - 1) path) as [? ?].
    rewrite push_rest_components by done. f_equal.
    rewrite omap_trim, omap_drop_blank, omap_skip.
    rewrite (components_of_absolute path), (components_of_absolute alias) in Hc by done. simplify_eq/=.
    rewrite (components_of_absolute alias) by done. simpl. rewrite Nat.sub_0_r, Hc. apply drop_app_length.
  - intros Hcases. destruct (is_absolute path); [|done]. destruct (path_starts_with path _); [done|].
    simpl. destruct Hcases as [|[|Hfind]]; [done..|].
    induction (aliases m) as [|x l IH]; [done|]. simpl in Hfind. cbn [omap list_omap].
    unfold path_strip_prefix at 1. destruct (path_starts_with path x); [done|]. by apply IH.
Qed.

(** ** A small file system *)

(** Directories [/w/src] and a link-free root; everything else is missing. *)
Definition small_fs : FileSystem := {|
  fs_exists p := bool_decide (p ∈ ["/"; "/w"; "/w/src"; "/w/.env"]);
  fs_canonicalize p := if bool_decide (p ∈ ["/"; "/w"; "/w/src"; "/w/.env"]) then Some p else None;
|}.

Lemma small_fs_laws : @FileSystemLaws small_fs.
Proof.
  split. intros p c. simpl. case_bool_decide as Hp; [|done]. intros [= <-].
  repeat (apply elem_of_cons in Hp as [->|Hp]); [exists []|exists ["w"]|exists ["w"; "src"]|exists ["w"; ".env"]|];
    try (split; reflexivity). by apply not_elem_of_nil in Hp.
Defined.

Definition small_policy : WorkspacePolicy :=
  mkPolicy "/w" (Mapper.new "/w") [".env"; "id_rsa"; "id_ed25519"; ".ssh"; "secrets"] Guarded.

Example small_policy_decisions :
  @new_policy small_fs "/w" = Ok small_policy /\
  pe_resource (@evaluate_path small_fs small_policy 1 "write" "/app/./src/new/x.rs" false)
    = "/w/src/new/x.rs" /\
  (fun path => pe_decision (@evaluate_path small_fs small_policy 1 "write" path false))
    <$> ["/app/./src/new/x.rs"; "new//deep/"; "../x"; "/etc/passwd"; ".env"; "a/.git/config"]
  = [PolicyDecision.Allow; PolicyDecision.Allow; PolicyDecision.Block; PolicyDecision.Block;
     PolicyDecision.Block; PolicyDecision.Block].
Proof. split_and!; vm_compute; reflexivity. Qed.

Lemma small_policy_ok : policy_ok small_policy.
Proof. split; [exists ["w"]; split; reflexivity|reflexivity|reflexivity]. Qed.

Lemma policies_ok_witness : policy_ok small_policy.
Proof. exact (proj1 (@policies_ok small_fs small_fs_laws) "/w" small_policy eq_refl). Defined.

Lemma allowed_path_inside_workspace_witness :
  exists root inner, workspace_root small_policy = absolute root /\
    pe_resource (@evaluate_path small_fs small_policy 1 "write" "src/new.rs" false)
    = absolute (root ++ inner).
Proof.
  destruct (@allowed_path_inside_workspace small_fs small_fs_laws small_policy 1 "write" "src/new.rs" false
    small_policy_ok eq_refl eq_refl) as (root & inner & ? & ? & _).
  exists root, inner. split; assumption.
Defined.

Lemma mapper_rewrites_aliases_witness :
  path_components (Mapper.map (Mapper.new "/w") "/app/src/x") =
  [RootDir; Normal "w"; Normal "src"; Normal "x"].
Proof.
  exact (proj1 (mapper_rewrites_aliases (Mapper.new "/w") ["w"] "/app/src/x" eq_refl eq_refl)
    "/app" [Normal "src"; Normal "x"] eq_refl eq_refl eq_refl eq_refl eq_refl).
Defined.
