(* ===== verification/ShellSyntax.v ===== *)
(** * Reading shell commands

    How [golutra-agent-policy/src/lib.rs] turns the command field of the shell tool into
    an argument vector without running a shell: the metacharacter scan, the explicit
    [bash -c '...'] wrappers, the quoted Python here-document, and
    [parse_shell_command_with_input]. The [shlex] crate and the tree-sitter Bash grammar
    are arguments; a syntax tree is a value of [Node]. A slice out of range is a panic,
    an error value here. *)
From S2P Require Import Prelude RustStr Core.
Open Scope N_scope.

(** ** Text helpers *)

Definition among (s : string) (l : list string) : bool := bool_decide (s ∈ l).

(** [s.rsplit(['/', '\\']).next()]: what follows the last separator. *)
Fixpoint base_name (s : string) : string :=
  match s with
  | EmptyString => ""
  | String a s' =>
      if has_byte [47; 92] s' then base_name s'
      else if existsb (N.eqb (byte_of a)) [47; 92] then s' else s
  end.

(** [&s\[1..\]] of a text that begins with an ASCII character. *)
Definition rest_of (s : string) : string := match s with EmptyString => "" | String _ s' => s' end.

Definition all_bytes (f : N -> bool) (s : string) : bool :=
  forallb (fun a => f (byte_of a)) (String.list_ascii_of_string s).

(** [s.find(char::is_whitespace)], as the text before and the text from there. *)
Fixpoint break_whitespace (l : list N) : option (list N * list N) :=
  match l with
  | [] => None
  | c :: l' =>
      if is_whitespace c then Some ([], l)
      else (fun '(a, b) => (c :: a, b)) <$> break_whitespace l'
  end.

(** ** Syntax trees *)

(** A tree-sitter node: its kind, whether it is named, the field its parent gives it, its
    byte range, whether the tree below it has an error, its children. *)
Inductive Node := mkNode {
  node_kind : string;
  node_named : bool;
  node_field : option string;
  node_start : nat;
  node_end : nat;
  node_has_error : bool;
  node_children : list Node;
}.

(** Induction on trees. *)
Lemma Node_rect_list (P : Node -> Prop) :
  (forall n, Forall P (node_children n) -> P n) -> forall n, P n.
Proof.
  intros HP. fix IH 1. intros n. apply HP. destruct n as [? ? ? ? ? ? children]. simpl.
  induction children as [|c children IHc]; constructor; [apply IH|apply IHc].
Qed.

(** [node.utf8_text(source)]. *)
Definition node_text (source : string) (n : Node) : option string :=
  let text := String.substring (node_start n) (node_end n - node_start n) source in
  if valid_utf8 text then Some text else None.

Definition named_children (n : Node) : list Node := List.filter node_named (node_children n).
Definition child_by_field_name (field : string) (n : Node) : option Node :=
  List.find (fun c => bool_decide (node_field c = Some field)) (node_children n).
Definition child_of_kind (kind : string) (l : list Node) : option Node :=
  List.find (fun c => bool_decide (node_kind c = kind)) l.

(** Whether a node of one of the kinds occurs in the named part of a tree. *)
Fixpoint has_named_kind (kinds : list string) (n : Node) : bool :=
  among (node_kind n) kinds
  || existsb (fun c => node_named c && has_named_kind kinds c) (node_children n).

(** ** Metacharacters *)

(** One step of the scan; [None] is the early [return true]. *)
Definition metacharacter_step (quote : option N) (escaped : bool) (c : N)
    : option (option N * bool) :=
  if (c =? 10) && match quote with None => true | _ => false end then None
  else if escaped then Some (quote, false)
  else
    match quote with
    | Some q =>
        if q =? 39 then Some (if c =? 39 then None else quote, false)
        else if c =? 34 then Some (None, false)
        else if c =? 92 then Some (quote, true)
        else if (c =? 36) || (c =? 96) then None
        else Some (quote, false)
    | None =>
        if (c =? 39) || (c =? 34) then Some (Some c, false)
        else if c =? 92 then Some (None, true)
        else if existsb (N.eqb c) [59; 124; 38; 62; 60; 36; 96] then None
        else Some (None, false)
    end.

Fixpoint metacharacter_scan (quote : option N) (escaped : bool) (l : list N) : bool :=
  match l with
  | [] => false
  | c :: l' =>
      match metacharacter_step quote escaped c with
      | None => true
      | Some (quote, escaped) => metacharacter_scan quote escaped l'
      end
  end.

(*@ policy/src/lib.rs contains_shell_metacharacter *)
Definition contains_shell_metacharacter (command : string) : bool :=
  metacharacter_scan None false (chars command).

(** ** Interpreters *)

(*@ policy/src/lib.rs is_shell_program *)
Definition is_shell_program (program : string) : bool :=
  among (base_name program) ["bash"; "sh"; "zsh"].

(*@ policy/src/lib.rs explicit_shell_script *)
Definition explicit_shell_script (parts : list string) : option string :=
  match parts with
  | [program; option; script] =>
      if is_shell_program program && among option ["-c"; "-lc"] then Some script else None
  | _ => None
  end.

(*@ policy/src/lib.rs is_shell_variable_assignment *)
Definition is_shell_variable_assignment (value : string) : bool :=
  match split_once "=" value with
  | Some (String a name, _) =>
      ((byte_of a =? 95) || is_ascii_alphabetic (byte_of a))
      && all_bytes (fun c => (c =? 95) || is_ascii_alphanumeric c) name
  | _ => false
  end.

(** A slice whose bounds cross. *)
Inductive Panic := panicked.

(** The shell, its option, and the text from the script on. *)
(*@ policy/src/lib.rs:1104-1116 parse_explicit_wrapper_raw *)
Definition wrapper_words (command : string) : option (string * string * list N) :=
  '(program, rest) ← break_whitespace (trim_matches_chars is_whitespace (chars command));
  if negb (is_shell_program (of_chars program)) then None
  else
    '(option, rest) ← break_whitespace (drop_while is_whitespace rest);
    if negb (among (of_chars option) ["-c"; "-lc"]) then None
    else Some (of_chars program, of_chars option, drop_while is_whitespace rest).

(** The script without its quotes: [script\[1..len - 1\]], which panics on one character. *)
(*@ policy/src/lib.rs parse_explicit_wrapper_raw *)
Definition parse_explicit_wrapper_raw (command : string) : result Panic (option (list string * N)) :=
  match wrapper_words command with
  | Some (program, option, quote :: body) =>
      if negb ((quote =? 39) || (quote =? 34))
         || negb (bool_decide (last (quote :: body) = Some quote)) then Ok None
      else
        match body with
        | [] => Err panicked
        | _ => Ok (Some ([program; option; of_chars (take (length body - 1) body)], quote))
        end
  | _ => Ok None
  end.

(*@ policy/src/lib.rs ParsedShellCommand *)
Record ParsedShellCommand := mkParsed {
  parts : list string;
  stdin : option string;
}.
#[global] Instance ParsedShellCommand_eq_dec : EqDecision ParsedShellCommand.
Proof. solve_decision. Defined.

Section syntax.
(** [shlex::split] and the parse of the Bash grammar. *)
Variable shlex_split : string -> option (list string).
Variable bash_parse : string -> option Node.

(*@ policy/src/lib.rs explicit_script_is_complete *)
Definition explicit_script_is_complete (script : string) : bool :=
  if trim_is_empty script then false
  else is_some_and (fun root => negb (node_has_error root)) (bash_parse script).

(** The delimiter of a here-document written as ['EOF'] or ["EOF"]. *)
Definition quoted_delimiter (start_text : string) : option string :=
  let unquote (q : N) :=
    rest ← strip_prefix (String (byte q) "") start_text; strip_suffix_char (byte q) rest in
  match unquote 39 with Some d => Some d | None => unquote 34 end.

(*@ policy/src/lib.rs:827-841 parse_direct_quoted_python_heredoc *)
Definition heredoc_argv (source : string) (body redirect : Node) : option (list string) :=
  body_text ← node_text source body;
  first ← shlex_split (trim body_text);
  let between := String.substring (node_end body) (node_start redirect - node_end body) source in
  second ← (if valid_utf8 between then shlex_split (trim between) else None);
  let argv := first ++ second in
  program ← head argv;
  if among (base_name program) ["python"; "python3"]
     && bool_decide (argv !! 1%nat = Some "-") && bool_decide (length argv = 2%nat)
  then Some argv else None.

(*@ policy/src/lib.rs:843-890 parse_direct_quoted_python_heredoc *)
Definition heredoc_stdin (source : string) (redirect : Node) : option string :=
  let children := named_children redirect in
  start ← child_of_kind "heredoc_start" children;
  heredoc_body ← child_of_kind "heredoc_body" children;
  stop ← child_of_kind "heredoc_end" children;
  if negb (ends_with "<<" (String.substring 0 (node_start start) source)) then None
  else
    start_text ← node_text source start;
    delimiter ← quoted_delimiter start_text;
    stop_text ← node_text source stop;
    if bool_decide (delimiter = "") || (64 <? str_len delimiter)
       || negb (all_bytes (fun c => is_ascii_alphanumeric c || (c =? 95)) delimiter)
       || negb (bool_decide (trim stop_text = delimiter)) then None
    else if has_named_kind ["command_substitution"; "expansion"; "simple_expansion"] heredoc_body
    then None
    else node_text source heredoc_body.

(*@ policy/src/lib.rs parse_direct_quoted_python_heredoc *)
Definition parse_direct_quoted_python_heredoc (command : string) : option ParsedShellCommand :=
  let source := trim command in
  root ← bash_parse source;
  if node_has_error root then None
  else
    match named_children root with
    | [statement] =>
        if negb (bool_decide (node_kind statement = "redirected_statement")) then None
        else
          body ← child_by_field_name "body" statement;
          if negb (bool_decide (node_kind body = "command")) then None
          else
            match List.filter (fun c => bool_decide (node_kind c = "heredoc_redirect"))
                    (named_children statement) with
            | [redirect] =>
                if existsb (fun field => match child_by_field_name field redirect with
                                         | Some _ => true | None => false end)
                     ["descriptor"; "operator"; "redirect"; "right"] then None
                else
                  argv ← heredoc_argv source body redirect;
                  text ← heredoc_stdin source redirect;
                  Some (mkParsed argv (Some text))
            | _ => None
            end
    | _ => None
    end.

(*@ policy/src/lib.rs parse_shell_command_with_input *)
Definition parse_shell_command_with_input (command : string)
    : result Panic (option ParsedShellCommand) :=
  match parse_direct_quoted_python_heredoc command with
  | Some parsed => Ok (Some parsed)
  | None =>
      let decoded := shlex_split command in
      let complete argv := is_some_and explicit_script_is_complete (explicit_shell_script argv) in
      let? wrapper := parse_explicit_wrapper_raw command in
      match wrapper with
      | None => Ok ((fun argv => mkParsed argv None) <$> decoded)
      | Some (raw_parts, quote) =>
          match explicit_shell_script raw_parts with
          | None => Ok None
          | Some raw_script =>
              let raw := if explicit_script_is_complete raw_script
                         then Some (mkParsed raw_parts None) else None in
              if quote =? 39 then
                if str_contains (String (byte 39) (String (byte 34) (String (byte 39)
                                  (String (byte 34) (String (byte 39) ""))))) raw_script
                then Ok ((fun argv => mkParsed argv None) <$> option_filter complete decoded)
                else Ok raw
              else
                match option_filter complete decoded with
                | Some argv => Ok (Some (mkParsed argv None))
                | None => Ok raw
                end
          end
      end
  end.

(*@ policy/src/lib.rs parse_shell_command *)
Definition parse_shell_command (command : string) : result Panic (option (list string)) :=
  let? parsed := parse_shell_command_with_input command in Ok (parts <$> parsed).

(*@ policy/src/lib.rs approval_resource_matches *)
Definition approval_resource_matches (tool_name approved_prefix requested_resource : string)
    : result Panic bool :=
  if bool_decide (approved_prefix = "") then Ok false
  else if negb (bool_decide (tool_name = "shell")) then
    Ok (bool_decide (approved_prefix = requested_resource))
  else
    let? approved := parse_shell_command_with_input approved_prefix in
    match approved with
    | None => Ok false
    | Some approved =>
        let? requested := parse_shell_command_with_input requested_resource in
        match requested with
        | None => Ok false
        | Some requested =>
            match stdin approved, stdin requested with
            | None, None =>
                Ok (negb (bool_decide (parts approved = []))
                    && bool_decide (parts approved `prefix_of` parts requested))
            | _, _ => Ok (bool_decide (approved = requested))
            end
        end
    end.

End syntax.

(** ** Approvals *)

(** An approval of one resource covers another only if the tool is not the
    shell and the resources are the same text, or both parse as shell commands and either
    they are the same command with the same input, or both have no input and the
    requested words begin with all the approved words, word for word. *)
Theorem approvals_never_widen shlex_split bash_parse tool approved requested :
  approval_resource_matches shlex_split bash_parse tool approved requested = Ok true ->
  approved <> "" /\
  (tool <> "shell" /\ approved = requested \/
   exists a r,
     parse_shell_command_with_input shlex_split bash_parse approved = Ok (Some a) /\
     parse_shell_command_with_input shlex_split bash_parse requested = Ok (Some r) /\
     (a = r \/
      stdin a = None /\ stdin r = None /\ parts a <> [] /\
      exists extra, parts r = parts a ++ extra)).
Proof.
  unfold approval_resource_matches. case_bool_decide; [done|]. case_bool_decide as Ht; simpl.
  - destruct (parse_shell_command_with_input _ _ approved) as [[a|]|]; [|done..].
    destruct (parse_shell_command_with_input _ _ requested) as [[r|]|]; [|done..].
    intros Hm. split; [done|]. right. exists a, r. split_and!; [done..|].
    destruct (stdin a), (stdin r); simplify_eq; boolhyps; auto.
  - intros [= He]. boolhyps. auto.
Qed.

(** ** A lone quote *)

(** Reading a wrapper panics exactly when all that follows the shell and its
    [-c] or [-lc] is one quote character, single or double: the slice that drops both
    quotes then runs from 1 to 0. No other text panics. *)
Theorem wrapper_panics_iff command :
  parse_explicit_wrapper_raw command = Err panicked <->
  exists program option quote,
    wrapper_words command = Some (program, option, [quote]) /\ (quote = 39 \/ quote = 34).
Proof.
  unfold parse_explicit_wrapper_raw.
  destruct (wrapper_words command) as [[[program option] [|quote body]]|]; [naive_solver| |naive_solver].
  destruct (((quote =? 39) || (quote =? 34)) && bool_decide (last (quote :: body) = Some quote)) eqn:E.
  - rewrite <- negb_andb, E. simpl. apply andb_true_iff in E as [E _].
    rewrite orb_true_iff, !N.eqb_eq in E. destruct body; naive_solver.
  - rewrite <- negb_andb, E. simpl. split; [done|]. intros (? & ? & q & Heq & Hq). simplify_eq.
    by destruct Hq as [-> | ->].
Qed.

Example lone_quote_panics :
  parse_explicit_wrapper_raw (String.append "bash -c " (String (byte 39) "")) = Err panicked.
Proof. vm_compute. reflexivity. Qed.

(** ** Simple stand-ins for the two parsers *)

(** Words between blanks, and a program with one command. *)
Definition blank_split (text : string) : option (list string) :=
  Some (List.filter (fun w => negb (bool_decide (w = ""))) (split_on (byte 32) text)).
Definition one_command (text : string) : option Node :=
  let stop := String.length text in
  Some (mkNode "program" true None 0 stop false [mkNode "command" true None 0 stop false []]).

Lemma approvals_never_widen_witness :
  exists a r, parse_shell_command_with_input blank_split one_command "git log" = Ok (Some a) /\
    parse_shell_command_with_input blank_split one_command "git log -1" = Ok (Some r) /\
    (a = r \/ stdin a = None /\ stdin r = None /\ parts a <> [] /\ exists extra, parts r = parts a ++ extra).
Proof.
  destruct (approvals_never_widen blank_split one_command "shell" "git log" "git log -1" eq_refl)
    as [_ [[Hne _]|H]]; [destruct (Hne eq_refl)|exact H].
Defined.
