(* ===== verification/ShellPolicy.v ===== *)
(** * The shell half of the policy

    The deny-list, the sensitive-path guards of [rg] and [grep], the read-only fast path
    and the decision [evaluate_shell] of [golutra-agent-policy/src/lib.rs]. A loop over
    arguments with an index is a recursion on the arguments left. Scripts nest: a command
    of a script can be [bash -c] with another script, so the check of a script takes fuel
    (its length plus one, which [script_check_unfolds] shows to be enough). *)
From S2P Require Import Prelude RustStr Core TaskContract PathPolicy ShellSyntax.
Open Scope N_scope.

Definition option_like (argument : string) : bool := starts_with "-" argument.

(** ** Sensitive words *)

(*@ policy/src/lib.rs path_like_components *)
Definition path_like_components (value : string) : list string :=
  split_chars (fun c => negb (is_ascii_alphanumeric c) && negb (existsb (N.eqb c) [46; 95; 45])) value.

(*@ policy/src/lib.rs matches_sensitive_component *)
Definition matches_sensitive_component (component fragment : string) : bool :=
  let component := to_ascii_lowercase component in
  let fragment := to_ascii_lowercase fragment in
  bool_decide (component = fragment)
  || is_some_and (starts_with_byte [46; 45; 95]) (strip_prefix fragment component).

(*@ policy/src/lib.rs WorkspacePolicy::references_sensitive_path *)
Definition references_sensitive_path (p : WorkspacePolicy) (value : string) : bool :=
  existsb (fun component =>
      matches_sensitive_component component ".git"
      || matches_sensitive_component component ".golutra"
      || matches_sensitive_component component ".golutra-agent"
      || existsb (matches_sensitive_component component) (sensitive_path_fragments p))
    (path_like_components value).

(** ** [grep] and [rg] *)

(** The first [e] or [f] with a value behind it. *)
Fixpoint short_pattern_value (s : string) : option (N * string) :=
  match s with
  | EmptyString => None
  | String a s' =>
      if ((byte_of a =? 101) || (byte_of a =? 102)) && negb (bool_decide (s' = ""))
      then Some (byte_of a, s') else short_pattern_value s'
  end.

(*@ policy/src/lib.rs grep_short_pattern_option *)
Definition grep_short_pattern_option (argument : string) : option (N * string) :=
  if negb (starts_with "-" argument) || starts_with "--" argument then None
  else short_pattern_value (rest_of argument).

(** What an option makes of the scan: it skips arguments (itself, or itself and its
    value), may name a sensitive path, and may supply the pattern. *)
Inductive ScanStep :=
| Sensitive
| Skip (count : N) (supplies : bool)
| Positional.

Section scans.
Variable p : WorkspacePolicy.

Definition sensitive_value (next : option string) : bool :=
  is_some_and (references_sensitive_path p) next.

(*@ policy/src/lib.rs:434-485 WorkspacePolicy::grep_references_sensitive_input *)
Definition grep_option (argument : string) (next : option string) : ScanStep :=
  if among argument ["-e"; "--regexp"] then Skip 2 true
  else if starts_with "--regexp=" argument then Skip 1 true
  else if among argument ["--exclude"; "--exclude-dir"] then Skip 2 false
  else if starts_with "--exclude=" argument || starts_with "--exclude-dir=" argument then Skip 1 false
  else if among argument ["-f"; "--file"; "--exclude-from"] then
    if sensitive_value next then Sensitive
    else Skip 2 (negb (bool_decide (argument = "--exclude-from")))
  else
    match (match strip_prefix "--file=" argument with
           | Some path => Some path | None => strip_prefix "--exclude-from=" argument end) with
    | Some path =>
        if references_sensitive_path p path then Sensitive
        else Skip 1 (starts_with "--file=" argument)
    | None =>
        match grep_short_pattern_option argument with
        | Some (option, value) =>
            if (option =? 102) && references_sensitive_path p value then Sensitive else Skip 1 true
        | None =>
            if option_like argument && negb (bool_decide (argument = "-")) then
              if references_sensitive_path p argument then Sensitive else Skip 1 false
            else Positional
        end
    end.

(*@ policy/src/lib.rs WorkspacePolicy::rg_glob_reads_sensitive_path *)
Definition rg_glob_reads_sensitive_path (glob : string) : bool :=
  negb (starts_with "!" glob) && references_sensitive_path p glob.

(*@ policy/src/lib.rs:517-607 WorkspacePolicy::rg_references_sensitive_input *)
Definition rg_option (argument : string) (next : option string) : ScanStep :=
  if bool_decide (argument = "--pre") || starts_with "--pre=" argument then Sensitive
  else if among argument ["-e"; "--regexp"] then Skip 2 true
  else if starts_with "--regexp=" argument then Skip 1 true
  else if bool_decide (argument = "--files") then Skip 1 true
  else if among argument ["-f"; "--file"] then
    if sensitive_value next then Sensitive else Skip 2 true
  else
    match strip_prefix "--file=" argument with
    | Some path => if references_sensitive_path p path then Sensitive else Skip 1 true
    | None =>
    match grep_short_pattern_option argument with
    | Some (option, value) =>
        if (option =? 102) && references_sensitive_path p value then Sensitive else Skip 1 true
    | None =>
    if among argument ["-g"; "--glob"] then
      if is_some_and rg_glob_reads_sensitive_path next then Sensitive else Skip 2 false
    else
    match strip_prefix "--glob=" argument with
    | Some glob => if rg_glob_reads_sensitive_path glob then Sensitive else Skip 1 false
    | None =>
    match option_filter (fun glob => negb (bool_decide (glob = ""))) (strip_prefix "-g" argument) with
    | Some glob => if rg_glob_reads_sensitive_path glob then Sensitive else Skip 1 false
    | None =>
    if bool_decide (argument = "--ignore-file") then
      if sensitive_value next then Sensitive else Skip 2 false
    else
    match strip_prefix "--ignore-file=" argument with
    | Some path => if references_sensitive_path p path then Sensitive else Skip 1 false
    | None =>
        if option_like argument && negb (bool_decide (argument = "-")) then
          if references_sensitive_path p argument then Sensitive else Skip 1 false
        else Positional
    end end end end end.

(** The loop both scans share: after [--] every argument is positional, the first
    positional argument is the pattern unless an option supplied one. *)
(*@ policy/src/lib.rs:427-503 WorkspacePolicy::grep_references_sensitive_input *)
Fixpoint scan_arguments (classify : string -> option string -> ScanStep)
    (options pattern_supplied : bool) (arguments : list string) : bool :=
  match arguments with
  | [] => false
  | argument :: rest =>
      if options && bool_decide (argument = "--") then
        scan_arguments classify false pattern_supplied rest
      else
        let positional :=
          if pattern_supplied then
            references_sensitive_path p argument || scan_arguments classify options true rest
          else scan_arguments classify options true rest in
        if options then
          match classify argument (head rest) with
          | Sensitive => true
          | Skip 2 supplies =>
              match rest with
              | [] => false
              | _ :: rest => scan_arguments classify options (pattern_supplied || supplies) rest
              end
          | Skip _ supplies => scan_arguments classify options (pattern_supplied || supplies) rest
          | Positional => positional
          end
        else positional
  end.

(*@ policy/src/lib.rs WorkspacePolicy::grep_references_sensitive_input *)
Definition grep_references_sensitive_input (arguments : list string) : bool :=
  scan_arguments grep_option true false arguments.
(*@ policy/src/lib.rs WorkspacePolicy::rg_references_sensitive_input *)
Definition rg_references_sensitive_input (arguments : list string) : bool :=
  scan_arguments rg_option true false arguments.

End scans.

(** ** Wrappers around a command *)

(*@ policy/src/lib.rs command_builtin_target *)
Fixpoint command_builtin_target (arguments : list string) : option (list string) :=
  let found target := if bool_decide (target = []) then None else Some target in
  match arguments with
  | [] => None
  | argument :: rest =>
      if bool_decide (argument = "--") then found rest
      else if negb (option_like argument) || bool_decide (argument = "-") then found arguments
      else if has_byte [118; 86] (rest_of argument) then None
      else if negb (all_bytes (N.eqb 112) (rest_of argument)) then None
      else command_builtin_target rest
  end.

(** [None] is the source's [Err(())]. *)
Definition Target : Type := option (option (list string)).
Definition target_of (arguments : list string) : Target :=
  Some (if bool_decide (arguments = []) then None else Some arguments).

(*@ policy/src/lib.rs env_command_target *)
Fixpoint env_target (options : bool) (arguments : list string) : Target :=
  match arguments with
  | [] => target_of []
  | argument :: rest =>
      if options && bool_decide (argument = "--") then env_target false rest
      else if options
              && among argument ["-u"; "--unset"; "-C"; "--chdir"; "-P"; "-a"; "--argv0"] then
        match rest with [] => None | _ :: rest => env_target options rest end
      else if options && (starts_with "--unset=" argument || starts_with "--chdir=" argument
                          || starts_with "--argv0=" argument) then env_target options rest
      else if options && option_like argument && negb (bool_decide (argument = "-")) then
        if among argument ["-i"; "--ignore-environment"; "-0"; "--null"; "--debug"; "-v"]
        then env_target options rest else None
      else if is_shell_variable_assignment argument then env_target options rest
      else target_of arguments
  end.
(*@ policy/src/lib.rs env_command_target *)
Definition env_command_target (arguments : list string) : Target := env_target true arguments.

(*@ policy/src/lib.rs busybox_command_target *)
Definition busybox_command_target (arguments : list string) : option (list string) :=
  match arguments with
  | [] => None
  | target :: _ =>
      if negb (option_like target) && negb (bool_decide (target = "busybox"))
      then Some arguments else None
  end.

(*@ policy/src/lib.rs:1333-1348 sudo_command_target *)
Definition SUDO_FLAGS : list string :=
  ["--askpass"; "--background"; "--bell"; "--edit"; "--help"; "--login"; "--non-interactive";
   "--preserve-env"; "--remove-timestamp"; "--reset-timestamp"; "--set-home"; "--stdin";
   "--validate"; "--version"].
(*@ policy/src/lib.rs:1349-1361 sudo_command_target *)
Definition SUDO_VALUE_OPTIONS : list string :=
  ["--chdir"; "--chroot"; "--close-from"; "--command-timeout"; "--group"; "--host";
   "--other-user"; "--prompt"; "--role"; "--type"; "--user"].
(** [C D g h p R r T t U u] and [A b E e H K k l n S s V v]. *)
(*@ policy/src/lib.rs:1362-1362 sudo_command_target *)
Definition SUDO_SHORT_VALUE_OPTIONS : list N := [67; 68; 103; 104; 112; 82; 114; 84; 116; 85; 117].
(*@ policy/src/lib.rs:1363-1365 sudo_command_target *)
Definition SUDO_SHORT_FLAGS : list N := [65; 98; 69; 101; 72; 75; 107; 108; 110; 83; 115; 86; 118].

Fixpoint skip_assignments (arguments : list string) : list string :=
  match arguments with
  | argument :: rest => if is_shell_variable_assignment argument then skip_assignments rest else arguments
  | [] => []
  end.

(*@ policy/src/lib.rs sudo_command_target *)
Fixpoint sudo_command_target (arguments : list string) : Target :=
  match arguments with
  | [] => target_of []
  | argument :: rest =>
      if bool_decide (argument = "--") then target_of (skip_assignments rest)
      else if negb (option_like argument) || bool_decide (argument = "-") then
        target_of (skip_assignments arguments)
      else
        match split_once "=" argument with
        | Some (option, _) =>
            if among option SUDO_VALUE_OPTIONS || bool_decide (option = "--preserve-env")
            then sudo_command_target rest else None
        | None =>
            if among argument SUDO_VALUE_OPTIONS then
              match rest with [] => None | _ :: rest => sudo_command_target rest end
            else if among argument SUDO_FLAGS then sudo_command_target rest
            else
              match rest_of argument with
              | EmptyString => None
              | String first more =>
                  if existsb (N.eqb (byte_of first)) SUDO_SHORT_VALUE_OPTIONS then
                    if bool_decide (more = "") then
                      match rest with [] => None | _ :: rest => sudo_command_target rest end
                    else sudo_command_target rest
                  else if all_bytes (fun c => existsb (N.eqb c) SUDO_SHORT_FLAGS) (rest_of argument)
                  then sudo_command_target rest
                  else None
              end
        end
  end.

(*@ policy/src/lib.rs shell_uses_unparsed_inline_script *)
Definition shell_uses_unparsed_inline_script (arguments : list string) : bool :=
  existsb (fun argument => option_like argument && negb (starts_with "--" argument)
                           && has_byte [99] (rest_of argument)) arguments.

(** ** [rm] *)

(** The depth below the root after the segments of a path. *)
Definition path_depth (segments : list string) : N :=
  fold_left (fun depth s =>
    if among s [""; "."] then depth
    else if bool_decide (s = "..") then depth - 1 else depth + 1) segments 0.

(*@ policy/src/lib.rs shell_path_resolves_to_root *)
Definition shell_path_resolves_to_root (value : string) : bool :=
  starts_with "/" value && (path_depth (split_on slash value) =? 0).

(*@ policy/src/lib.rs shell_path_is_dynamic *)
Definition shell_path_is_dynamic (value : string) : bool := has_byte [36; 96; 42; 63; 91; 93] value.

(*@ policy/src/lib.rs recursive_force_rm_targets_root *)
Fixpoint rm_targets_root (recursive force options targets_root : bool) (arguments : list string) : bool :=
  match arguments with
  | [] => recursive && force && targets_root
  | argument :: rest =>
      if options && bool_decide (argument = "--") then
        rm_targets_root recursive force false targets_root rest
      else if options && starts_with "--" argument then
        rm_targets_root (recursive || bool_decide (argument = "--recursive"))
          (force || bool_decide (argument = "--force")) options targets_root rest
      else if options && option_like argument && (1 <? str_len argument) then
        rm_targets_root (recursive || has_byte [114; 82] (rest_of argument))
          (force || has_byte [102] (rest_of argument)) options targets_root rest
      else
        rm_targets_root recursive force options
          (targets_root || shell_path_resolves_to_root argument || shell_path_is_dynamic argument) rest
  end.
(*@ policy/src/lib.rs recursive_force_rm_targets_root *)
Definition recursive_force_rm_targets_root (arguments : list string) : bool :=
  rm_targets_root false false true false arguments.

(** ** The deny-list *)

(** What one round of the wrapper loop does: it decides, or goes on with a target. *)
Inductive Round := Blocked (b : bool) | Continue (target : list string).

Section shell.
Variable shlex_split : string -> option (list string).
Variable bash_parse : string -> option Node.
Variable p : WorkspacePolicy.

(*@ policy/src/lib.rs:333-405 WorkspacePolicy::shell_command_parts_are_blocked *)
Definition command_round (script_is_blocked : string -> bool) (command : list string) : Round :=
  match command with
  | [] => Blocked true
  | first :: arguments =>
      let program := base_name first in
      let sensitive_argument := existsb (references_sensitive_path p) arguments in
      if bool_decide (program = "command") then
        match command_builtin_target arguments with
        | Some target => Continue target | None => Blocked sensitive_argument end
      else if bool_decide (program = "env") then
        if sensitive_argument then Blocked true
        else if existsb (fun a => starts_with "-S" a || bool_decide (a = "--split-string")
                                  || starts_with "--split-string=" a) arguments then Blocked true
        else match env_command_target arguments with
             | Some (Some target) => Continue target
             | Some None => Blocked false
             | None => Blocked true
             end
      else if bool_decide (program = "busybox") then
        match busybox_command_target arguments with
        | Some target => Continue target | None => Blocked sensitive_argument end
      else if bool_decide (program = "sudo") then
        if sensitive_argument then Blocked true
        else match sudo_command_target arguments with
             | Some (Some target) => Continue target
             | Some None => Blocked false
             | None => Blocked true
             end
      else if among program ["bash"; "sh"; "zsh"] then
        match explicit_shell_script command with
        | Some script => Blocked (script_is_blocked script)
        | None => Blocked (sensitive_argument || shell_uses_unparsed_inline_script arguments)
        end
      else if bool_decide (program = "find") then
        Blocked (sensitive_argument
          || existsb (fun a => among a ["-delete"; "-exec"; "-execdir"; "-ok"; "-okdir"]) arguments)
      else if bool_decide (program = "rg") then Blocked (rg_references_sensitive_input p arguments)
      else if bool_decide (program = "grep") then Blocked (grep_references_sensitive_input p arguments)
      else if bool_decide (program = "rm") then
        Blocked (sensitive_argument || recursive_force_rm_targets_root arguments)
      else if among program ["doas"; "pkexec"; "shutdown"; "reboot"] then Blocked true
      else if bool_decide (program = "mkfs") || starts_with "mkfs." program then Blocked true
      else Blocked sensitive_argument
  end.

(** The loop; out of rounds is blocked. *)
Fixpoint command_rounds (script_is_blocked : string -> bool) (rounds : nat) (command : list string)
    : bool :=
  match rounds with
  | O => true
  | S rounds =>
      match command_round script_is_blocked command with
      | Blocked b => b
      | Continue target => command_rounds script_is_blocked rounds target
      end
  end.

(*@ policy/src/lib.rs WorkspacePolicy::shell_command_parts_are_blocked *)
Definition shell_command_parts_are_blocked (script_is_blocked : string -> bool) (parts : list string)
    : bool := command_rounds script_is_blocked 8 parts.

(*@ policy/src/lib.rs WorkspacePolicy::shell_script_command_parts_are_blocked *)
Definition shell_script_command_parts_are_blocked (script_is_blocked : string -> bool)
    (parts : list string) : bool :=
  shell_command_parts_are_blocked script_is_blocked (skip_assignments parts).

(*@ policy/src/lib.rs WorkspacePolicy::shell_ast_is_blocked *)
Fixpoint shell_ast_is_blocked (script_is_blocked : string -> bool) (source : string) (n : Node) : bool :=
  (bool_decide (node_kind n = "variable_assignment")
   && is_some_and (references_sensitive_path p) (node_text source n))
  || (bool_decide (node_kind n = "command")
      && is_none_or (shell_script_command_parts_are_blocked script_is_blocked)
           (node_text source n ≫= shlex_split))
  || existsb (fun c => node_named c && shell_ast_is_blocked script_is_blocked source c)
       (node_children n).

(*@ policy/src/lib.rs WorkspacePolicy::shell_script_is_blocked *)
Fixpoint script_is_blocked (fuel : nat) (script : string) : bool :=
  match fuel with
  | O => true
  | S fuel =>
      match bash_parse script with
      | None => true
      | Some root =>
          node_has_error root || shell_ast_is_blocked (script_is_blocked fuel) script root
      end
  end.
(*@ policy/src/lib.rs WorkspacePolicy::shell_script_is_blocked *)
Definition shell_script_is_blocked (script : string) : bool :=
  script_is_blocked (S (String.length script)) script.

(*@ policy/src/lib.rs WorkspacePolicy::shell_command_is_blocked *)
Definition shell_command_is_blocked (parts : list string) : bool :=
  match explicit_shell_script parts with
  | Some script => shell_script_is_blocked script
  | None => shell_command_parts_are_blocked shell_script_is_blocked parts
  end.

(*@ policy/src/lib.rs WorkspacePolicy::shell_command_is_preapproved *)
Definition shell_command_is_preapproved (parts : list string) : bool :=
  bool_decide (parts ∈ [["pwd"]; ["ls"]; ["ls"; "-la"]]).

(*@ policy/src/lib.rs WorkspacePolicy::evaluate_shell *)
Definition evaluate_shell (policy_ref : PolicyId) (command : string) : result Panic PolicyEvaluation :=
  if bool_decide (mode p = Unrestricted) then
    Ok (mkPolicyEvaluation policy_ref "tool" "shell" command PolicyDecision.Allow None
          "unrestricted workspace policy enabled" [])
  else
    let? parsed := parse_shell_command_with_input shlex_split bash_parse command in
    let explicit_wrapper :=
      is_some_and (fun c => match explicit_shell_script (parts c) with
                            | Some _ => true | None => false end) parsed in
    let direct_stdin :=
      is_some_and (fun c => match stdin c with Some _ => true | None => false end) parsed in
    let terminal_violation :=
      is_some_and (fun c => shell_command_is_blocked (parts c)
                            || is_some_and (references_sensitive_path p) (stdin c)) parsed in
    let recoverable_violation :=
      negb explicit_wrapper && negb direct_stdin
      && (contains_shell_metacharacter command || match parsed with None => true | _ => false end) in
    let decision :=
      if terminal_violation || recoverable_violation then PolicyDecision.Block
      else if is_some_and (fun c => match stdin c with None => shell_command_is_preapproved (parts c)
                                    | Some _ => false end) parsed then PolicyDecision.Allow
      else PolicyDecision.Ask in
    let reason :=
      match decision with
      | PolicyDecision.Allow => "inert workspace command is pre-approved"
      | PolicyDecision.Ask => "process command requires explicit user approval"
      | PolicyDecision.Block =>
          if terminal_violation then "shell command matched P0 deny-list or sensitive-path guard"
          else "shell command syntax is not permitted; submit one argv command, a quoted foreground Python heredoc, or explicitly invoke bash -lc with the complete script as one quoted argument"
      | PolicyDecision.Deny => "shell command denied by policy"
      end in
    let disposition :=
      match decision with
      | PolicyDecision.Block =>
          Some (if terminal_violation then PolicyBlockDisposition.Terminal
                else PolicyBlockDisposition.Recoverable)
      | _ => None
      end in
    Ok (mkPolicyEvaluation policy_ref "tool" "shell" command decision disposition reason []).

End shell.

(** ** The read-only fast path *)

(*@ policy/src/lib.rs bare_program_name_is_safe *)
Definition bare_program_name_is_safe (program : string) : bool :=
  negb (bool_decide (program = "")) && negb (has_byte [47; 92] program)
  && negb (is_shell_variable_assignment program)
  && negb (among program ["bash"; "sh"; "zsh"; "env"; "command"; "sudo"]).

(*@ policy/src/lib.rs simple_read_command_is_safe *)
Definition simple_read_command_is_safe (program : string) (arguments : list string) : bool :=
  if bool_decide (program = "sort") then
    negb (existsb (fun a =>
      bool_decide (a = "-o") || (starts_with "-o" a && (2 <? str_len a))
      || bool_decide (a = "--output") || starts_with "--output=" a
      || bool_decide (a = "--compress-program") || starts_with "--compress-program=" a
      || bool_decide (a = "--temporary-directory") || starts_with "--temporary-directory=" a)
      arguments)
  else true.

(*@ policy/src/lib.rs ripgrep_read_command_is_safe *)
Definition ripgrep_read_command_is_safe (arguments : list string) : bool :=
  negb (existsb (fun a => bool_decide (a = "--pre") || starts_with "--pre=" a
                          || bool_decide (a = "--pre-glob") || starts_with "--pre-glob=" a) arguments).

(*@ policy/src/lib.rs find_argument_can_write_or_follow_links *)
Definition find_argument_can_write_or_follow_links (argument : string) : bool :=
  among argument ["-delete"; "-exec"; "-execdir"; "-ok"; "-okdir"; "-fls"; "-fprint"; "-fprint0";
                  "-fprintf"; "-H"; "-L"; "-follow"]
  || starts_with "-exec" argument || starts_with "-ok" argument
  || starts_with "-fprint" argument || starts_with "-fls" argument.

(*@ policy/src/lib.rs argument_contains_workspace_escape_hint *)
Definition argument_contains_workspace_escape_hint (argument : string) : bool :=
  starts_with "/" argument || bool_decide (argument = "~") || starts_with "~/" argument
  || existsb (fun c => bool_decide (c = "..")) (split_on slash argument)
  || has_byte [36; 96] argument.

(*@ policy/src/lib.rs find_read_command_is_safe *)
Definition find_read_command_is_safe (arguments : list string) : bool :=
  forallb (fun a => negb (find_argument_can_write_or_follow_links a)
                    && negb (argument_contains_workspace_escape_hint a)) arguments.

(*@ policy/src/lib.rs git_argument_can_execute_or_write *)
Definition git_argument_can_execute_or_write (argument : string) : bool :=
  among argument ["--ext-diff"; "--textconv"; "--no-index"; "--paginate"; "--pager"; "--upload-pack";
                  "--receive-pack"; "--exec-path"; "-c"; "--config"; "--config-env"]
  || starts_with "--output=" argument || starts_with "--upload-pack=" argument
  || starts_with "--receive-pack=" argument || starts_with "--pager=" argument.

(*@ policy/src/lib.rs git_read_command_is_safe *)
Definition git_read_command_is_safe (arguments : list string) : bool :=
  match arguments with
  | [] => false
  | subcommand :: rest =>
      if negb (among subcommand ["branch"; "diff"; "log"; "merge-base"; "rev-parse"; "show"]) then false
      else if bool_decide (subcommand = "branch") then bool_decide (rest = ["--show-current"])
      else forallb (fun a => negb (git_argument_can_execute_or_write a)
             && negb (bool_decide (a = "-o") || (starts_with "-o" a && (2 <? str_len a))
                      || bool_decide (a = "--output"))) rest
  end.

(*@ policy/src/lib.rs shell_command_is_strictly_read_only *)
Definition shell_command_is_strictly_read_only (parts : list string) : bool :=
  match parts with
  | [] => false
  | program :: arguments =>
      if negb (bare_program_name_is_safe program) || has_byte [0] program
         || existsb (has_byte [0]) arguments then false
      else if bool_decide (program = "date") then
        match arguments with [] => true | [a] => starts_with "+" a | _ => false end
      else if among program ["cat"; "cut"; "du"; "file"; "grep"; "head"; "ls"; "printf"; "pwd";
                             "readlink"; "sort"; "strings"; "tail"; "tr"; "uniq"; "wc"] then
        simple_read_command_is_safe program arguments
      else if bool_decide (program = "rg") then ripgrep_read_command_is_safe arguments
      else if bool_decide (program = "find") then find_read_command_is_safe arguments
      else if bool_decide (program = "git") then git_read_command_is_safe arguments
      else false
  end.

Section read_only.
Variable shlex_split : string -> option (list string).
Variable bash_parse : string -> option Node.

(** The depth is bounded: [levels] counts what is left of [32 - depth], plus one. *)
(*@ policy/src/lib.rs read_only_shell_node *)
Fixpoint read_only_shell_node (source : string) (levels : nat) (n : Node) {struct n} : bool :=
  match levels with
  | O => false
  | S levels =>
      if among (node_kind n) ["program"; "list"; "pipeline"] then
        forallb (fun c => if node_named c then read_only_shell_node source levels c
                          else among (node_kind c) [";"; "&&"; "||"; "|"]) (node_children n)
      else if bool_decide (node_kind n = "command") then
        is_some_and (fun command =>
            negb (contains_shell_metacharacter command)
            && is_some_and shell_command_is_strictly_read_only (shlex_split command))
          (node_text source n)
      else bool_decide (node_kind n = "comment")
  end.

(*@ policy/src/lib.rs shell_script_is_strictly_read_only *)
Definition shell_script_is_strictly_read_only (script : string) : bool :=
  if trim_is_empty script || (16 * 1024 <? str_len script) then false
  else
    match bash_parse script with
    | None => false
    | Some root => negb (node_has_error root) && read_only_shell_node script 33 root
    end.

End read_only.

(** ** What is allowed without asking *)

(** In guarded mode the shell tool runs without approval only for [pwd],
    [ls] and [ls -la]: the command parses to exactly one of these argument vectors,
    nothing is fed to it, and its text has no active shell syntax. *)
Theorem shell_allows_only_inert_commands shlex_split bash_parse p policy_ref command e :
  mode p = Guarded ->
  evaluate_shell shlex_split bash_parse p policy_ref command = Ok e ->
  pe_decision e = PolicyDecision.Allow ->
  contains_shell_metacharacter command = false /\
  exists argv, parse_shell_command_with_input shlex_split bash_parse command
      = Ok (Some (mkParsed argv None)) /\
    argv ∈ [["pwd"]; ["ls"]; ["ls"; "-la"]] /\
    shell_command_is_blocked shlex_split bash_parse p argv = false.
Proof.
  intros Hg He Hd. unfold evaluate_shell in He. rewrite bool_decide_eq_false_2 in He by (by rewrite Hg).
  destruct (parse_shell_command_with_input _ _ _) as [[[argv inp]|]|]; [| |done].
  2: { simpl in He. rewrite orb_true_r in He. simplify_eq/=. }
  cbn [is_some_and parts stdin] in He.
  destruct (shell_command_is_blocked _ _ _ argv) eqn:Eb; [simplify_eq/=|].
  destruct inp as [text|]; cbn [is_some_and orb negb andb] in He.
  { destruct (references_sensitive_path p text); cbn in He; simplify_eq/=;
      rewrite ?andb_false_r in Hd; done. }
  destruct (shell_command_is_preapproved argv) eqn:Ep.
  2: { destruct (_ && _); by simplify_eq/=. }
  unfold shell_command_is_preapproved in Ep. apply bool_decide_eq_true_1 in Ep.
  assert (Hx : explicit_shell_script argv = None).
  { repeat (apply elem_of_cons in Ep as [->|Ep]; [done|]). by apply not_elem_of_nil in Ep. }
  rewrite Hx in He. cbn [negb andb] in He.
  destruct (contains_shell_metacharacter command); [by simplify_eq/=|]. split; [done|]. by exists argv.
Qed.

(** ** Wrappers *)

Section wrappers.
Variable p : WorkspacePolicy.
Variable script_is_blocked : string -> bool.

Lemma rounds_mono n : forall m command,
  (m <= n)%nat -> command_rounds p script_is_blocked n command = true ->
  command_rounds p script_is_blocked m command = true.
Proof.
  induction n as [|n IH]; intros [|m] command Hm Hb; simpl in *; [done|lia|done|].
  destruct (command_round _ _ _); [done|]. apply IH; [lia|done].
Qed.

(** The first word of a command: neither an option nor an assignment. *)
Definition plain_word (w : string) : Prop :=
  option_like w = false /\ is_shell_variable_assignment w = false.

Lemma among_option w l : option_like w = false -> forallb option_like l = true -> among w l = false.
Proof.
  intros Hw Hl. apply bool_decide_eq_false_2. intros Hin. rewrite forallb_elem, Forall_forall in Hl.
  by rewrite (Hl w Hin) in Hw.
Qed.

Lemma starts_with_trans a b s : starts_with (a +:+ b) s = true -> starts_with a s = true.
Proof.
  revert s. induction a as [|x a IH]; intros s H; [by destruct s|]. unfold starts_with in *.
  destruct s as [|y s]; simpl in *; [done|]. destruct (Ascii.ascii_dec x y); [by apply IH|done].
Qed.

Lemma not_option_prefix b w : option_like w = false -> starts_with ("-" +:+ b) w = false.
Proof.
  intros Hw. destruct (starts_with ("-" +:+ b) w) eqn:E; [|done].
  apply starts_with_trans in E. unfold option_like in Hw. congruence.
Qed.

Lemma plain_word_dash w : plain_word w -> bool_decide (w = "--") = false.
Proof. intros [Hw _]. apply bool_decide_eq_false_2. by intros ->. Qed.

(** What each wrapper runs, when its first argument is a plain word. *)
Lemma wrapper_targets first rest : plain_word first ->
  command_builtin_target (first :: rest) = Some (first :: rest) /\
  env_command_target (first :: rest) = Some (Some (first :: rest)) /\
  sudo_command_target (first :: rest) = Some (Some (first :: rest)).
Proof.
  intros Hp. assert (Hd := plain_word_dash _ Hp). destruct Hp as [Ho Ha].
  unfold env_command_target, target_of. split_and!; cbn [command_builtin_target env_target sudo_command_target].
  - by rewrite Hd, Ho.
  - rewrite Hd, (among_option first) by done. cbn [andb].
    rewrite (not_option_prefix "-unset="), (not_option_prefix "-chdir="), (not_option_prefix "-argv0=") by done.
    cbn [orb]. by rewrite Ho, Ha.
  - rewrite Hd, Ho. cbn [negb orb skip_assignments]. by rewrite Ha.
Qed.

(** Prefixing a command with [command], [env], [busybox] or [sudo] (by any
    path) never lifts a block: what is blocked bare is blocked wrapped, at any depth. *)
Theorem wrapping_never_unblocks wrapper first rest :
  among (base_name wrapper) ["command"; "env"; "busybox"; "sudo"] = true ->
  plain_word first -> (base_name wrapper = "busybox" -> first <> "busybox") ->
  shell_command_parts_are_blocked p script_is_blocked (first :: rest) = true ->
  shell_command_parts_are_blocked p script_is_blocked (wrapper :: first :: rest) = true.
Proof.
  unfold shell_command_parts_are_blocked. intros Hw Hp Hbb Hb.
  apply (rounds_mono 8 7) in Hb; [|lia]. change 8%nat with (S 7). remember 7%nat as n. cbn [command_rounds].
  destruct (wrapper_targets first rest Hp) as (Hc & He & Hs).
  apply bool_decide_eq_true_1 in Hw.
  repeat (apply elem_of_cons in Hw as [Hw|Hw]); [..|by apply not_elem_of_nil in Hw];
    unfold command_round; rewrite Hw.
  - rewrite bool_decide_eq_true_2 by done. by rewrite Hc.
  - rewrite bool_decide_eq_false_2, bool_decide_eq_true_2 by done.
    destruct (existsb _ _); [done|]. destruct (existsb _ _); [done|]. by rewrite He.
  - rewrite !bool_decide_eq_false_2, bool_decide_eq_true_2 by done.
    unfold busybox_command_target. destruct Hp as [Ho _]. rewrite Ho, bool_decide_eq_false_2 by auto. done.
  - rewrite !bool_decide_eq_false_2, bool_decide_eq_true_2 by done.
    destruct (existsb _ _); [done|]. by rewrite Hs.
Qed.
End wrappers.

(** ** Nested scripts *)

Definition total_length (argv : list string) : nat := sum_list_with String.length argv.

Lemma skip_assignments_length argv : (total_length (skip_assignments argv) <= total_length argv)%nat.
Proof.
  induction argv as [|a argv IH]; simpl; [done|].
  destruct (is_shell_variable_assignment a); unfold total_length in *; simpl in *; lia.
Qed.

Lemma target_of_length argv target : target_of argv = Some (Some target) -> target = argv.
Proof. unfold target_of. case_bool_decide; [done|]. by intros [=]. Qed.

Lemma command_target_length argv : forall target,
  command_builtin_target argv = Some target -> (total_length target <= total_length argv)%nat.
Proof.
  unfold total_length. induction argv as [|a argv IH]; intros target H; simpl in H; [done|].
  repeat (case_match; simplify_eq/=; try lia). apply IH in H. lia.
Qed.

Lemma env_target_length n : forall argv options target, (length argv < n)%nat ->
  env_target options argv = Some (Some target) -> (total_length target <= total_length argv)%nat.
Proof.
  unfold total_length. induction n as [|n IH]; intros argv options target Hn H; [lia|].
  destruct argv as [|a argv]; simpl in H, Hn; [done|].
  repeat (case_match; simplify_eq/=; try lia);
    solve [apply IH in H; simpl in *; lia | apply target_of_length in H as ->; simpl; lia].
Qed.

Lemma sudo_target_length n : forall argv target, (length argv < n)%nat ->
  sudo_command_target argv = Some (Some target) -> (total_length target <= total_length argv)%nat.
Proof.
  induction n as [|n IH]; intros argv target Hn H; [lia|].
  destruct argv as [|a argv]; cbn [sudo_command_target] in H; simpl in Hn; [done|].
  assert (Hrec : forall argv', (length argv' <= length argv)%nat ->
    (total_length argv' <= total_length argv)%nat ->
    sudo_command_target argv' = Some (Some target) -> (total_length target <= total_length (a :: argv))%nat).
  { intros argv' Hl Ht Ha. apply IH in Ha; [|lia]. unfold total_length in *. simpl. lia. }
  assert (Htl : forall x l, argv = x :: l -> (length l <= length argv)%nat /\
    (total_length l <= total_length argv)%nat).
  { intros x l ->. unfold total_length. simpl. lia. }
  assert (Hk := skip_assignments_length argv).
  repeat (case_match; simplify_eq/=; try done).
  all: first [ apply target_of_length in H as ->; unfold total_length in *; simpl in *; lia | idtac ].
  all: try (eapply Hrec; [..|exact H]; first [done | by destruct (Htl _ _ eq_refl)]).
Qed.

(** A shell's name is not empty, so its script is shorter than the whole command. *)
Lemma explicit_script_shorter command script :
  explicit_shell_script command = Some script -> (String.length script < total_length command)%nat.
Proof.
  unfold explicit_shell_script. destruct command as [|program [|option [|s [|]]]]; try done.
  destruct (is_shell_program program) eqn:Ep; [|done]. simpl. case_match; [|done].
  intros. simplify_eq. unfold total_length. simpl. destruct program; [done|]. simpl. lia.
Qed.

Section nesting.
Variable shlex_split : string -> option (list string).
Variable bash_parse : string -> option Node.
Variable p : WorkspacePolicy.

(** [shlex] only drops characters: the words it returns come from the text. *)
Hypothesis shlex_shrinks : forall text argv,
  shlex_split text = Some argv -> (total_length argv <= String.length text)%nat.

Abbreviation script_blocked := (script_is_blocked shlex_split bash_parse p).

(** Two checks of nested scripts that agree on shorter scripts. *)
Definition agree_below (n : nat) (f g : string -> bool) : Prop :=
  forall script, (String.length script < n)%nat -> f script = g script.

Lemma rounds_agree f g rounds : forall command,
  agree_below (total_length command) f g ->
  command_rounds p f rounds command = command_rounds p g rounds command.
Proof.
  induction rounds as [|rounds IH]; intros command Hfg; [done|]. cbn [command_rounds].
  assert (Htarget : forall target, (total_length target <= total_length command)%nat ->
    command_rounds p f rounds target = command_rounds p g rounds target).
  { intros target Ht. apply IH. intros script Hs. apply Hfg. lia. }
  destruct command as [|first arguments]; [done|]. unfold command_round.
  assert (Harg : (total_length arguments <= total_length (first :: arguments))%nat).
  { unfold total_length. simpl. lia. }
  case_bool_decide.
  { destruct (command_builtin_target arguments) eqn:E; [|done].
    apply command_target_length in E. apply Htarget. lia. }
  case_bool_decide.
  { destruct (existsb _ _); [done|]. destruct (existsb _ _); [done|].
    destruct (env_command_target arguments) as [[target|]|] eqn:E; [|done..].
    apply (env_target_length (S (length arguments))) in E; [|lia]. apply Htarget. lia. }
  case_bool_decide.
  { destruct (busybox_command_target arguments) as [target|] eqn:E; [|done].
    apply Htarget. unfold busybox_command_target in E. destruct arguments; [done|].
    by case_match; simplify_eq. }
  case_bool_decide.
  { destruct (existsb _ _); [done|].
    destruct (sudo_command_target arguments) as [[target|]|] eqn:E; [|done..].
    apply (sudo_target_length (S (length arguments))) in E; [|lia]. apply Htarget. lia. }
  destruct (among _ ["bash"; "sh"; "zsh"]); [|by repeat case_match].
  destruct (explicit_shell_script _) eqn:E; [|done]. apply explicit_script_shorter in E. by apply Hfg.
Qed.

Lemma substring_length i k s : (String.length (String.substring i k s) <= String.length s)%nat.
Proof.
  revert i k. induction s as [|a s IH]; intros [|i] [|k]; simpl; try lia.
  - specialize (IH 0%nat k). lia.
  - specialize (IH i 0%nat). lia.
  - specialize (IH i (S k)). lia.
Qed.

Lemma node_text_length source n text :
  node_text source n = Some text -> (String.length text <= String.length source)%nat.
Proof.
  unfold node_text. case_match; [|done]. intros. simplify_eq. apply substring_length.
Qed.

Lemma ast_agree f g source n :
  agree_below (String.length source) f g ->
  shell_ast_is_blocked shlex_split p f source n = shell_ast_is_blocked shlex_split p g source n.
Proof.
  intros Hfg. induction n as [n IH] using Node_rect_list. destruct n as [kind named field i j err children].
  cbn [shell_ast_is_blocked node_kind node_children]. f_equal; [f_equal|].
  - destruct (bool_decide (kind = "command")); [|done]. simpl.
    destruct (node_text source _) as [text|] eqn:Et; [|done]. simpl.
    destruct (shlex_split text) as [argv|] eqn:Es; [|done]. simpl.
    apply rounds_agree. intros script Hs. apply Hfg.
    apply shlex_shrinks in Es. apply node_text_length in Et.
    assert (Hk := skip_assignments_length argv). lia.
  - simpl in IH. induction IH as [|c children Hc _ IHc]; [done|]. simpl. by rewrite Hc, IHc.
Qed.

Lemma script_fuel fuel : forall fuel' script,
  (String.length script < fuel)%nat -> (String.length script < fuel')%nat ->
  script_blocked fuel script = script_blocked fuel' script.
Proof.
  induction fuel as [|fuel IH]; intros [|fuel'] script H1 H2; [lia..|]. simpl.
  destruct (bash_parse script) as [root|]; [|done]. f_equal. apply ast_agree.
  intros inner Hi. apply IH; lia.
Qed.

Lemma script_fuel_unfolds script :
  shell_script_is_blocked shlex_split bash_parse p script =
  match bash_parse script with
  | None => true
  | Some root =>
      node_has_error root
      || shell_ast_is_blocked shlex_split p (shell_script_is_blocked shlex_split bash_parse p) script root
  end.
Proof.
  unfold shell_script_is_blocked at 1. simpl. destruct (bash_parse script) as [root|]; [|done].
  f_equal. apply ast_agree. intros inner Hi. apply script_fuel; lia.
Qed.

(** The check of nested scripts ends: a script inside a command is
    shorter than the text the command stands in, so the fuel (one more than the length
    of the script) never decides, and the check satisfies the recursive equation of the
    source, to any depth of nesting. *)
Theorem script_check_unfolds script :
  shell_script_is_blocked shlex_split bash_parse p script =
  match bash_parse script with
  | None => true
  | Some root =>
      node_has_error root
      || shell_ast_is_blocked shlex_split p (shell_script_is_blocked shlex_split bash_parse p) script root
  end.
Proof. apply script_fuel_unfolds. Qed.

(** The named part of a syntax tree. *)
Inductive named_below : Node -> Node -> Prop :=
| named_self n : named_below n n
| named_child n c m : c ∈ node_children n -> node_named c = true -> named_below c m -> named_below n m.

Lemma ast_not_blocked f source n :
  shell_ast_is_blocked shlex_split p f source n = false ->
  forall m, named_below n m ->
  (node_kind m = "command" -> exists text argv, node_text source m = Some text /\
     shlex_split text = Some argv /\ shell_script_command_parts_are_blocked p f argv = false) /\
  (node_kind m = "variable_assignment" -> forall text, node_text source m = Some text ->
     references_sensitive_path p text = false).
Proof.
  intros Hb m Hm. induction Hm as [n|n c m Hc Hn Hm IH].
  - destruct n as [kind named field i j err children]. cbn [shell_ast_is_blocked node_kind] in *.
    boolhyps. split.
    + intros ->. rewrite bool_decide_eq_true_2 in * by done. simpl in *.
      destruct (node_text source _) as [text|]; [|done]. simpl in *.
      destruct (shlex_split text) as [argv|] eqn:E; [|done]. eauto.
    + intros -> text Ht. rewrite bool_decide_eq_true_2 in * by done. by rewrite Ht in *.
  - apply IH. destruct n as [kind named field i j err children]. cbn [shell_ast_is_blocked] in Hb.
    apply orb_false_iff in Hb as [_ Hb]. rewrite existsb_none in Hb. specialize (Hb c Hc).
    by rewrite Hn in Hb.
Qed.

(** *** What must not get through

    The specification is written out here in the words of a command: programs by their
    last path component, options by their letters. *)

(** [program] names the program [name], bare or at the end of a path. *)
Definition called (name program : string) : Prop :=
  program = name \/ exists dir, program = dir +:+ "/" +:+ name.

(** A word of one dash and letters with the byte [c] among them. *)
Definition short_option (c : N) (w : string) : Prop :=
  starts_with "-" w = true /\ starts_with "--" w = false /\ has_byte [c] (rest_of w) = true.

(** A path that is the root: nothing but empty and dot components. *)
Definition root_path (w : string) : Prop :=
  starts_with "/" w = true /\ Forall (fun part => part ∈ [""; "."; ".."]) (split_on slash w).

Definition is_assignment (w : string) : Prop := is_shell_variable_assignment w = true.

(** Commands that are on the deny-list, and scripts with one of them or with a part that
    cannot be checked. *)
Inductive forbidden : list string -> Prop :=
| forbidden_program name program arguments :
    name ∈ ["doas"; "pkexec"; "shutdown"; "reboot"; "mkfs"] -> called name program ->
    forbidden (program :: arguments)
| forbidden_mkfs suffix program arguments :
    has_byte [47; 92] suffix = false -> called ("mkfs." +:+ suffix) program -> forbidden (program :: arguments)
| forbidden_find program arguments a :
    called "find" program -> a ∈ arguments -> a ∈ ["-delete"; "-exec"; "-execdir"; "-ok"; "-okdir"] ->
    forbidden (program :: arguments)
| forbidden_rm program arguments recursive force root :
    called "rm" program -> "--" ∉ arguments ->
    recursive ∈ arguments -> recursive = "--recursive" \/ short_option 114 recursive \/ short_option 82 recursive ->
    force ∈ arguments -> force = "--force" \/ short_option 102 force ->
    root ∈ arguments -> root_path root -> forbidden (program :: arguments)
| forbidden_path program arguments a :
    base_name program ∉ ["command"; "busybox"; "bash"; "sh"; "zsh"; "rg"; "grep"] ->
    a ∈ arguments -> references_sensitive_path p a = true -> forbidden (program :: arguments)
| forbidden_wrapped name program first rest :
    name ∈ ["command"; "env"; "busybox"; "sudo"] -> called name program -> plain_word first ->
    (name = "busybox" -> first <> "busybox") -> forbidden (first :: rest) -> forbidden (program :: first :: rest)
| forbidden_nested name program option script :
    name ∈ ["bash"; "sh"; "zsh"] -> called name program -> option ∈ ["-c"; "-lc"] -> bad_script script ->
    forbidden [program; option; script]
| forbidden_inline name program arguments a :
    name ∈ ["bash"; "sh"; "zsh"] -> called name program -> a ∈ arguments -> short_option 99 a ->
    (forall option script, arguments = [option; script] -> option ∉ ["-c"; "-lc"]) ->
    forbidden (program :: arguments)
with bad_script : string -> Prop :=
| bad_unparsed script : bash_parse script = None -> bad_script script
| bad_syntax script root : bash_parse script = Some root -> node_has_error root = true -> bad_script script
| bad_words script root m :
    bash_parse script = Some root -> named_below root m -> node_kind m = "command" ->
    node_text script m ≫= shlex_split = None -> bad_script script
| bad_command script root m text assignments command :
    bash_parse script = Some root -> named_below root m -> node_kind m = "command" ->
    node_text script m = Some text -> shlex_split text = Some (assignments ++ command) ->
    Forall is_assignment assignments -> (forall first, head command = Some first -> ~ is_assignment first) ->
    forbidden command -> bad_script script
| bad_assignment script root m text :
    bash_parse script = Some root -> named_below root m -> node_kind m = "variable_assignment" ->
    node_text script m = Some text -> references_sensitive_path p text = true -> bad_script script.

Scheme forbidden_min := Minimality for forbidden Sort Prop
  with bad_script_min := Minimality for bad_script Sort Prop.
Combined Scheme forbidden_bad_ind from forbidden_min, bad_script_min.

Abbreviation nested := (shell_script_is_blocked shlex_split bash_parse p).

Lemma base_name_bare name : has_byte [47; 92] name = false -> base_name name = name.
Proof. destruct name as [|x name]; [done|]. cbn [has_byte base_name]. by intros [-> ->]%orb_false_iff. Qed.

Lemma called_base name program : has_byte [47; 92] name = false -> called name program -> base_name program = name.
Proof.
  intros Hn [->|[dir ->]]; [by apply base_name_bare|]. induction dir as [|x dir IH].
  - change ("" +:+ "/" +:+ name) with (String (byte 47) name). cbn [base_name]. by rewrite Hn.
  - change (String x dir +:+ "/" +:+ name) with (String x (dir +:+ "/" +:+ name)). cbn [base_name].
    rewrite has_byte_str_app. change (has_byte [47; 92] ("/" +:+ name)) with true. by rewrite orb_true_r.
Qed.

Lemma skip_all_assignments assignments command :
  Forall is_assignment assignments -> (forall first, head command = Some first -> ~ is_assignment first) ->
  skip_assignments (assignments ++ command) = command.
Proof.
  induction 1 as [|a l Ha _ IH]; intros Hc; cbn.
  - destruct command as [|first rest]; [done|]. cbn. specialize (Hc first eq_refl). unfold is_assignment in Hc.
    by destruct (is_shell_variable_assignment first).
  - rewrite Ha. by apply IH.
Qed.

(** *** [rm] *)

Lemma root_path_resolves w : root_path w -> shell_path_resolves_to_root w = true /\ option_like w = false.
Proof.
  intros [Hs Hp]. split.
  - unfold shell_path_resolves_to_root. rewrite Hs. cbn [andb]. apply N.eqb_eq. unfold path_depth.
    induction Hp as [|part parts Hpart _ IH]; [done|]. cbn [fold_left]. unfold among.
    destruct (bool_decide_reflect (part ∈ [""; "."])) as [_|Hn]; [exact IH|].
    rewrite (bool_decide_eq_true_2 (part = "..")) by set_solver. exact IH.
  - unfold option_like. destruct w as [|x w]; [done|]. unfold starts_with in *. cbn in *.
    repeat case_match; by simplify_eq.
Qed.

Lemma short_option_shape c w : short_option c w -> option_like w = true /\ (1 <? str_len w) = true.
Proof.
  intros (Ho & _ & Hb). split; [done|]. apply N.ltb_lt. destruct w as [|x [|y w]]; [done..|].
  unfold str_len. cbn. lia.
Qed.

Lemma has_byte_more c cs w : c ∈ cs -> has_byte [c] w = true -> has_byte cs w = true.
Proof.
  intros Hc. induction w as [|x w IH]; [done|]. cbn. rewrite orb_false_r, !orb_true_iff.
  intros [H%N.eqb_eq|H]; [left|right; auto]. apply existsb_elem. exists c. split; [done|]. by apply N.eqb_eq.
Qed.

Definition asks (flag : bool) (here : string -> Prop) (arguments : list string) : Prop :=
  flag = true \/ exists w, w ∈ arguments /\ here w.

Lemma asks_cons flag here w arguments : asks flag here (w :: arguments) ->
  here w \/ asks flag here arguments.
Proof. intros [->|(v & [->|Hv]%elem_of_cons & Hh)]; [right; by left|by left|right; right; eauto]. Qed.

Lemma asks_more flag flag' here arguments : (flag = true -> flag' = true) ->
  asks flag here arguments -> asks flag' here arguments.
Proof. intros Hf [H|H]; [left; auto|by right]. Qed.

Lemma asks_now flag here arguments : flag = true -> asks flag here arguments.
Proof. by left. Qed.

Lemma rm_root arguments : "--" ∉ arguments -> forall r f t,
  asks r (fun w => w = "--recursive" \/ short_option 114 w \/ short_option 82 w) arguments ->
  asks f (fun w => w = "--force" \/ short_option 102 w) arguments ->
  asks t root_path arguments -> rm_targets_root r f true t arguments = true.
Proof.
  induction arguments as [|w rest IH]; intros Hd r f t Hr Hf Ht.
  { destruct Hr as [->|(? & ?%elem_of_nil & _)]; [|done]. destruct Hf as [->|(? & ?%elem_of_nil & _)]; [|done].
    by destruct Ht as [->|(? & ?%elem_of_nil & _)]. }
  cbn [rm_targets_root]. rewrite bool_decide_eq_false_2 by set_solver. cbn [andb].
  assert (Hd' : "--" ∉ rest) by set_solver.
  apply asks_cons in Hr, Hf, Ht. destruct (starts_with "--" w) eqn:El.
  - apply IH; [done|..].
    + destruct Hr as [[->|[(_ & ? & _)|(_ & ? & _)]]|Hr]; [by apply asks_now; rewrite orb_true_r|congruence..|].
      eapply asks_more; [|exact Hr]. by intros ->.
    + destruct Hf as [[->|(_ & ? & _)]|Hf]; [by apply asks_now; rewrite orb_true_r|congruence|].
      eapply asks_more; [|exact Hf]. by intros ->.
    + destruct Ht as [Ht|Ht]; [|done]. apply root_path_resolves in Ht as [_ Ht]. exfalso.
      apply (not_option_prefix "-") in Ht. change ("-" +:+ "-") with "--" in Ht. congruence.
  - destruct (option_like w && (1 <? str_len w)) eqn:Eo; cbn [andb].
    + apply IH; [done|..].
      * destruct Hr as [[->|Hr]|Hr]; [done| |eapply asks_more; [|exact Hr]; by intros ->].
        apply asks_now, orb_true_iff. right.
        destruct Hr as [(_ & _ & Hb)|(_ & _ & Hb)]; (eapply has_byte_more; [|exact Hb]; set_solver).
      * destruct Hf as [[->|(_ & _ & Hb)]|Hf]; [done| |eapply asks_more; [|exact Hf]; by intros ->].
        apply asks_now. by rewrite Hb, orb_true_r.
      * destruct Ht as [Ht|Ht]; [|done]. apply root_path_resolves in Ht as [_ Ht]. by rewrite Ht in Eo.
    + apply IH; [done|..].
      * destruct Hr as [[->|[Hr|Hr]]|Hr]; [done|..|done]; apply short_option_shape in Hr as [E1 E2];
          by rewrite E1, E2 in Eo.
      * destruct Hf as [[->|Hf]|Hf]; [done| |done]. apply short_option_shape in Hf as [E1 E2]. by rewrite E1, E2 in Eo.
      * destruct Ht as [Ht|Ht]; [|eapply asks_more; [|exact Ht]; by intros ->].
        apply root_path_resolves in Ht as [Ht _]. apply asks_now. by rewrite Ht, orb_true_r.
Qed.

(** *** The check finds it *)

(** Decides comparisons of literal names. *)
Ltac decide_names :=
  repeat match goal with
  | |- context [bool_decide (?x = ?y)] =>
      let b := eval vm_compute in (bool_decide (x = y)) in
      match b with true => idtac | false => idtac end; change (bool_decide (x = y)) with b
  | |- context [among ?x ?l] =>
      let b := eval vm_compute in (among x l) in
      match b with true => idtac | false => idtac end; change (among x l) with b
  end; cbn match.

(** One case for each name of a list. *)
Ltac each_name H := repeat (apply elem_of_cons in H as [->|H]); [..|by apply not_elem_of_nil in H].

Lemma blocked_now command :
  command_round p nested command = Blocked true -> forall n, command_rounds p nested n command = true.
Proof. intros H [|n]; [done|]. cbn [command_rounds]. by rewrite H. Qed.

(** The steps of the loop that go on with a target. *)
Lemma wrapped_blocked wrapper first rest :
  among (base_name wrapper) ["command"; "env"; "busybox"; "sudo"] = true ->
  plain_word first -> (base_name wrapper = "busybox" -> first <> "busybox") ->
  (forall n, command_rounds p nested n (first :: rest) = true) ->
  forall n, command_rounds p nested n (wrapper :: first :: rest) = true.
Proof.
  intros Hw Hp Hbb Hb [|n]; [done|]. cbn [command_rounds]. destruct (wrapper_targets first rest Hp) as (Hc & He & Hs).
  apply bool_decide_eq_true_1 in Hw. specialize (Hb n).
  repeat (apply elem_of_cons in Hw as [Hw|Hw]); [..|by apply not_elem_of_nil in Hw];
    unfold command_round; rewrite Hw; decide_names.
  - by rewrite Hc.
  - destruct (existsb _ _); [done|]. destruct (existsb _ _); [done|]. by rewrite He.
  - unfold busybox_command_target. destruct Hp as [Ho _]. by rewrite Ho, bool_decide_eq_false_2 by auto.
  - destruct (existsb _ _); [done|]. by rewrite Hs.
Qed.

Lemma named_blocked name program arguments :
  name ∈ ["doas"; "pkexec"; "shutdown"; "reboot"; "mkfs"] -> base_name program = name ->
  command_round p nested (program :: arguments) = Blocked true.
Proof. intros Hn Hb. unfold command_round. rewrite Hb. each_name Hn; by decide_names. Qed.

Lemma mkfs_blocked suffix program arguments : base_name program = "mkfs." +:+ suffix ->
  command_round p nested (program :: arguments) = Blocked true.
Proof.
  intros Hb. unfold command_round. rewrite Hb, starts_with_app.
  assert (Hne : forall l, forallb (fun name => negb (starts_with "mkfs." name)) l = true ->
            among ("mkfs." +:+ suffix) l = false).
  { intros l Hl. apply bool_decide_eq_false_2. intros Hin. rewrite forallb_elem, Forall_forall in Hl.
    specialize (Hl _ Hin). cbv beta in Hl. by rewrite starts_with_app in Hl. }
  assert (Hone : forall name, negb (starts_with "mkfs." name) = true ->
            bool_decide ("mkfs." +:+ suffix = name) = false).
  { intros name Hn. apply bool_decide_eq_false_2. intros <-. by rewrite starts_with_app in Hn. }
  rewrite !Hone, !Hne by done. by rewrite orb_true_r.
Qed.

Lemma sensitive_blocked program arguments a :
  base_name program ∉ ["command"; "busybox"; "bash"; "sh"; "zsh"; "rg"; "grep"] ->
  a ∈ arguments -> references_sensitive_path p a = true ->
  command_round p nested (program :: arguments) = Blocked true.
Proof.
  intros Hn Ha Hs. unfold command_round. cbv zeta.
  assert (existsb (references_sensitive_path p) arguments = true) as ->.
  { apply existsb_elem. by exists a. }
  rewrite (bool_decide_eq_false_2 (base_name program = "command")) by set_solver.
  destruct (bool_decide (base_name program = "env")); [done|].
  rewrite (bool_decide_eq_false_2 (base_name program = "busybox")) by set_solver.
  destruct (bool_decide (base_name program = "sudo")); [done|].
  assert (among (base_name program) ["bash"; "sh"; "zsh"] = false) as -> by (apply bool_decide_eq_false_2; set_solver).
  destruct (bool_decide (base_name program = "find")); [done|].
  rewrite (bool_decide_eq_false_2 (base_name program = "rg")) by set_solver.
  rewrite (bool_decide_eq_false_2 (base_name program = "grep")) by set_solver.
  destruct (bool_decide (base_name program = "rm")); [done|]. destruct (among _ _); [done|]. by destruct (_ || _).
Qed.

Lemma forbidden_blocked :
  (forall command, forbidden command -> forall n, command_rounds p nested n command = true) /\
  (forall script, bad_script script -> nested script = true).
Proof.
  apply forbidden_bad_ind.
  - intros name program arguments Hn Hc. apply blocked_now, (named_blocked name); [done|].
    apply called_base; [|done]. by each_name Hn.
  - intros suffix program arguments Hs Hc. apply blocked_now.
    apply (mkfs_blocked suffix). apply called_base; [by rewrite has_byte_str_app, Hs|done].
  - intros program arguments a Hc%called_base Ha Hopt; [|done]. apply blocked_now. unfold command_round. rewrite Hc.
    decide_names. f_equal. apply orb_true_iff. right. apply existsb_elem. exists a. split; [done|].
    by apply bool_decide_eq_true_2.
  - intros program arguments recursive force root Hc%called_base Hd Hr1 Hr2 Hf1 Hf2 Ht1 Ht2; [|done].
    apply blocked_now. unfold command_round. rewrite Hc. decide_names. f_equal. apply orb_true_iff. right.
    apply rm_root; [done|right; eauto..].
  - intros program arguments a Hn Ha Hs. apply blocked_now. by eapply sensitive_blocked.
  - intros name program first rest Hn Hc Hp Hbb _ IH.
    assert (Hb : base_name program = name) by (apply called_base; [|done]; clear -Hn; by each_name Hn).
    apply wrapped_blocked; [by rewrite Hb; apply bool_decide_eq_true_2|done|by rewrite Hb|done].
  - intros name program option script Hn Hc Ho _ IH. apply blocked_now.
    assert (Hb : base_name program = name) by (apply called_base; [|done]; clear -Hn; by each_name Hn).
    assert (He : explicit_shell_script [program; option; script] = Some script).
    { unfold explicit_shell_script, is_shell_program. rewrite Hb.
      rewrite (bool_decide_eq_true_2 _ Hn : among name _ = true), (bool_decide_eq_true_2 _ Ho : among option _ = true). done. }
    unfold command_round. rewrite Hb, He, IH. each_name Hn; by decide_names.
  - intros name program arguments a Hn Hc Ha Hs Hne. apply blocked_now.
    assert (Hb : base_name program = name) by (apply called_base; [|done]; clear -Hn; by each_name Hn).
    assert (He : explicit_shell_script (program :: arguments) = None).
    { unfold explicit_shell_script. destruct arguments as [|o [|sc [|]]]; try done.
      assert (among o ["-c"; "-lc"] = false) as -> by (apply bool_decide_eq_false_2; by eapply Hne).
      by rewrite andb_false_r. }
    assert (Hi : shell_uses_unparsed_inline_script arguments = true).
    { apply existsb_elem. exists a. split; [done|]. destruct Hs as (H1 & H2 & H3). unfold option_like.
      by rewrite H1, H2, H3. }
    unfold command_round. rewrite Hb, He, Hi, orb_true_r. each_name Hn; by decide_names.
  - intros script Hp. rewrite script_fuel_unfolds. by rewrite Hp.
  - intros script root Hp He. rewrite script_fuel_unfolds, Hp. by rewrite He.
  - intros script root m Hp Hm Hk Hw. rewrite script_fuel_unfolds, Hp. apply orb_true_iff. right.
    apply not_false_iff_true. intros Hb. destruct (ast_not_blocked _ _ _ Hb m Hm) as [(text & argv & Ht & Hs & _) _]; [done|].
    rewrite Ht in Hw. cbn in Hw. congruence.
  - intros script root m text assignments command Hp Hm Hk Ht Hs Ha Hc _ IH. rewrite script_fuel_unfolds, Hp.
    apply orb_true_iff. right. apply not_false_iff_true. intros Hb.
    destruct (ast_not_blocked _ _ _ Hb m Hm) as [(text' & argv & Ht' & Hs' & Hx) _]; [done|]. simplify_eq.
    unfold shell_script_command_parts_are_blocked in Hx. rewrite skip_all_assignments in Hx by done.
    unfold shell_command_parts_are_blocked in Hx. congruence.
  - intros script root m text Hp Hm Hk Ht Hs. rewrite script_fuel_unfolds, Hp. apply orb_true_iff. right.
    apply not_false_iff_true. intros Hb. destruct (ast_not_blocked _ _ _ Hb m Hm) as [_ Hx].
    specialize (Hx Hk text Ht). congruence.
Qed.

End nesting.

(** ** The read-only fast path accepts only reads *)

(** The programs the fast path knows. *)
Definition READ_PROGRAMS : list string :=
  ["date"; "cat"; "cut"; "du"; "file"; "grep"; "head"; "ls"; "printf"; "pwd"; "readlink"; "sort";
   "strings"; "tail"; "tr"; "uniq"; "wc"; "rg"; "find"; "git"].

Lemma read_only_program argv : shell_command_is_strictly_read_only argv = true ->
  exists program arguments, argv = program :: arguments /\ program ∈ READ_PROGRAMS.
Proof.
  destruct argv as [|program arguments]; [done|]. simpl. intros H. exists program, arguments.
  split; [done|]. case_match; [done|]. clear -H. unfold READ_PROGRAMS.
  case_bool_decide; [set_solver|]. destruct (among program _) eqn:E.
  { apply bool_decide_eq_true_1 in E. clear -E. set_solver. }
  case_bool_decide; [set_solver|]. case_bool_decide; [set_solver|]. case_bool_decide; [set_solver|done].
Qed.

Section fast_path.
Variable shlex_split : string -> option (list string).
Variable bash_parse : string -> option Node.

(** Where a read-only tree may branch. *)
Inductive read_only_tree (source : string) : Node -> Prop :=
| read_only_group n :
    among (node_kind n) ["program"; "list"; "pipeline"] = true ->
    (forall c, c ∈ node_children n -> node_named c = true -> read_only_tree source c) ->
    (forall c, c ∈ node_children n -> node_named c = false -> node_kind c ∈ [";"; "&&"; "||"; "|"]) ->
    read_only_tree source n
| read_only_command n text argv :
    node_kind n = "command" -> node_text source n = Some text ->
    contains_shell_metacharacter text = false -> shlex_split text = Some argv ->
    shell_command_is_strictly_read_only argv = true -> read_only_tree source n
| read_only_comment n : node_kind n = "comment" -> read_only_tree source n.

Lemma read_only_node_tree source n : forall levels,
  read_only_shell_node shlex_split source levels n = true -> read_only_tree source n.
Proof.
  induction n as [n IH] using Node_rect_list. intros [|levels] H; [by destruct n|].
  destruct n as [kind named field i j err children]. cbn [read_only_shell_node node_kind node_children] in *.
  destruct (among kind ["program"; "list"; "pipeline"]) eqn:Eg.
  - rewrite forallb_elem in H. rewrite Forall_forall in *.
    apply read_only_group; [done|..]; simpl; intros c Hc Hn; specialize (H c Hc); rewrite Hn in H.
    + by eapply IH.
    + by apply bool_decide_eq_true_1 in H.
  - case_bool_decide as Ek.
    + destruct (node_text source _) as [text|] eqn:Et; [|done]. simpl in H. boolhyps.
      destruct (shlex_split text) as [argv|] eqn:Es; [|done]. by eapply read_only_command.
    + boolhyps. by apply read_only_comment.
Qed.

(** A script on the read-only fast path is built from lists and pipelines
    only, joined by [;], [&&], [||] and [|]; each command in it has no active shell
    syntax and is a known read program whose arguments passed that program's check. No
    redirection, background job, substitution, wrapper or interpreter gets through. *)
Theorem fast_path_scripts_only_read script :
  shell_script_is_strictly_read_only shlex_split bash_parse script = true ->
  exists root, bash_parse script = Some root /\ read_only_tree script root.
Proof.
  unfold shell_script_is_strictly_read_only. case_match; [done|].
  destruct (bash_parse script) as [root|]; [|done]. intros Hr. boolhyps. exists root. split; [done|].
  by eapply read_only_node_tree.
Qed.
End fast_path.

(** ** What the guards miss *)

(** The guard on [grep]'s pattern file sees [-f .env] and [-f.env], and a value glued to
    a cluster of options, but not the value that follows the cluster. *)
Example clustered_pattern_file_passes :
  grep_references_sensitive_input small_policy ["-f"; ".env"; "README.md"] = true /\
  grep_references_sensitive_input small_policy ["-nf.env"; "README.md"] = true /\
  grep_references_sensitive_input small_policy ["-nf"; ".env"; "README.md"] = false.
Proof. split_and!; vm_compute; reflexivity. Qed.

(** The fast path accepts commands that write a file: the second operand of [uniq] is its
    output file, and so is what follows a cluster that ends in [o] for [sort]. *)
Example fast_path_accepts_writes :
  shell_command_is_strictly_read_only ["sort"; "-o"; "out.txt"; "in.txt"] = false /\
  shell_command_is_strictly_read_only ["sort"; "-uo"; "out.txt"; "in.txt"] = true /\
  shell_command_is_strictly_read_only ["uniq"; "in.txt"; "out.txt"] = true.
Proof. split_and!; vm_compute; reflexivity. Qed.

(** A lone quote after [bash -c] reaches the panic from [evaluate_shell]. *)
Example evaluate_shell_panics :
  evaluate_shell blank_split one_command small_policy 1 (String.append "bash -c " (String (byte 34) ""))
  = Err panicked.
Proof. vm_compute. reflexivity. Qed.

(** ** Examples and witnesses *)

Example deny_list_examples :
  (fun argv => shell_command_is_blocked blank_split one_command small_policy argv)
    <$> [["rm"; "-rf"; "/"]; ["sudo"; "-u"; "root"; "env"; "A=1"; "rm"; "-r"; "-f"; "//."];
         ["bash"; "-c"; "rm -rf $HOME"]; ["cat"; "src/.env.local"]; ["rm"; "-rf"; "build"];
         ["cargo"; "test"]]
  = [true; true; true; true; false; false].
Proof. vm_compute. reflexivity. Qed.

Lemma blank_split_shrinks text argv :
  blank_split text = Some argv -> (total_length argv <= String.length text)%nat.
Proof.
  unfold blank_split, total_length. intros [= <-].
  assert (H : forall c s, (sum_list_with String.length (split_on c s) <= String.length s)%nat).
  { intros c s. induction s as [|a s IH]; [done|]. cbn [split_on String.length].
    destruct (Ascii.eqb a c); cbn [sum_list_with String.length]; [lia|].
    destruct (split_on c s); cbn [sum_list_with String.length] in *; lia. }
  assert (Hf : forall l, (sum_list_with String.length
    (List.filter (fun w => negb (bool_decide (w = ""))) l) <= sum_list_with String.length l)%nat).
  { induction l as [|w l IH]; [done|]. cbn [List.filter].
    destruct (negb _); cbn [sum_list_with]; lia. }
  etransitivity; [exact (Hf (split_on (byte 32) text))|exact (H (byte 32) text)].
Qed.

Lemma shell_allows_only_inert_commands_witness :
  contains_shell_metacharacter "ls -la" = false /\
  exists argv, parse_shell_command_with_input blank_split one_command "ls -la"
      = Ok (Some (mkParsed argv None)) /\
    argv ∈ [["pwd"]; ["ls"]; ["ls"; "-la"]] /\
    shell_command_is_blocked blank_split one_command small_policy argv = false.
Proof.
  exact (shell_allows_only_inert_commands blank_split one_command small_policy 1 "ls -la"
    (mkPolicyEvaluation 1 "tool" "shell" "ls -la" PolicyDecision.Allow None
       "inert workspace command is pre-approved" []) eq_refl eq_refl eq_refl).
Defined.

Lemma wrapping_never_unblocks_witness :
  shell_command_parts_are_blocked small_policy (fun _ => false) ["/usr/bin/sudo"; "rm"; "-rf"; "/"] = true.
Proof.
  apply (wrapping_never_unblocks small_policy (fun _ => false) "/usr/bin/sudo" "rm" ["-rf"; "/"]).
  - reflexivity.
  - split; reflexivity.
  - discriminate.
  - vm_compute. reflexivity.
Defined.

Lemma script_check_unfolds_witness :
  shell_script_is_blocked blank_split one_command small_policy "sh -c reboot" =
  node_has_error (default (mkNode "" true None 0 0 true []) (one_command "sh -c reboot"))
  || shell_ast_is_blocked blank_split small_policy
       (shell_script_is_blocked blank_split one_command small_policy) "sh -c reboot"
       (default (mkNode "" true None 0 0 true []) (one_command "sh -c reboot")).
Proof. exact (script_check_unfolds blank_split one_command small_policy blank_split_shrinks "sh -c reboot"). Defined.


(** The words of the one command [one_command] finds in a script. *)
Definition shlex_split_of_whole (script : string) : option (list string) :=
  node_text script (mkNode "command" true None 0 (String.length script) false []) ≫= blank_split.

Lemma one_bad_command script assignments command :
  shlex_split_of_whole script = Some (assignments ++ command) -> Forall is_assignment assignments ->
  (forall first, head command = Some first -> ~ is_assignment first) ->
  forbidden blank_split one_command small_policy command -> bad_script blank_split one_command small_policy script.
Proof.
  intros Hs Ha Hc Hf. unfold shlex_split_of_whole in Hs.
  destruct (node_text _ _) as [text|] eqn:Ht; [|done].
  eapply (bad_command _ _ _ _ _ _ text assignments command);
    [reflexivity|eapply named_child; [by left|reflexivity|apply named_self]|reflexivity|exact Ht|exact Hs|done..].
Qed.

(** A script that wraps the command and one that hands it to a shell. *)
Example bad_scripts :
  bad_script blank_split one_command small_policy "LANG=C sudo /sbin/mkfs.ext4 disk" /\
  bad_script blank_split one_command small_policy "env sh -c reboot".
Proof.
  split.
  - apply (one_bad_command _ ["LANG=C"] ["sudo"; "/sbin/mkfs.ext4"; "disk"]);
      [reflexivity|by repeat constructor|by intros ? [= <-]|].
    apply (forbidden_wrapped _ _ _ "sudo"); [set_solver|by left|by split|done|].
    apply (forbidden_mkfs _ _ _ "ext4"); [done|]. right. by exists "/sbin".
  - apply (one_bad_command _ [] ["env"; "sh"; "-c"; "reboot"]); [reflexivity|by constructor|by intros ? [= <-]|].
    apply (forbidden_wrapped _ _ _ "env"); [set_solver|by left|by split|done|].
    apply (forbidden_nested _ _ _ "sh"); [set_solver|by left|set_solver|].
    apply (one_bad_command _ [] ["reboot"]); [reflexivity|by constructor|by intros ? [= <-]|].
    apply (forbidden_program _ _ _ "reboot"); [set_solver|by left].
Qed.

Lemma fast_path_scripts_only_read_witness :
  exists root, one_command "git log -1" = Some root /\ read_only_tree blank_split "git log -1" root.
Proof.
  apply (fast_path_scripts_only_read blank_split one_command "git log -1"). vm_compute. reflexivity.
Defined.
