(* ===== verification/ModelPatch.v ===== *)
(** * The model's patch format

    [golutra-agent-tools/src/model_patch.rs]: parsing the [*** Begin Patch] format,
    locating each hunk in the current file, and rendering the edit as a unified diff
    for [git apply]. Positions in the line array are suffixes of the list of lines.
    A slice out of range is a panic, a value of its own here. The diff renderer of
    the [similar] crate is an argument. *)
From S2P Require Import Prelude RustStr TaskContract.
Open Scope N_scope.

(** ** Data *)

(*@ tools/src/model_patch.rs ModelPatchHunk *)
Record ModelPatchHunk := mkHunk {
  hunk_header : string;
  hunk_context_line : option string;
  hunk_lines : list string;
  end_of_file : bool;
  new_no_newline : bool;
}.
#[global] Instance ModelPatchHunk_eq_dec : EqDecision ModelPatchHunk.
Proof. solve_decision. Defined.

(*@ tools/src/model_patch.rs ModelPatchFileKind *)
Inductive ModelPatchFileKind :=
| Update (hunks : list ModelPatchHunk)
| Add (lines : list string) (no_newline : bool)
| Replace (lines : list string) (no_newline : bool)
| Delete.
#[global] Instance ModelPatchFileKind_eq_dec : EqDecision ModelPatchFileKind.
Proof. solve_decision. Defined.

(*@ tools/src/model_patch.rs ModelPatchFile *)
Record ModelPatchFile := mkPatchFile {
  pf_path : string;
  pf_move_path : option string;
  pf_kind : ModelPatchFileKind;
}.

(*@ tools/src/model_patch.rs ModelPatch *)
Definition ModelPatch : Type := list ModelPatchFile.

(** How a call ends otherwise: an [Err] of the source, or a panic. *)
Inductive Fault := Failed (message : string) | Panicked.

(** ** Markers *)

Definition newline : Ascii.ascii := byte 10.
Definition carriage_return : Ascii.ascii := byte 13.

(*@ tools/src/model_patch.rs is_end_of_file_marker *)
Definition is_end_of_file_marker (line : string) : bool := bool_decide (trim line = "*** End of File").
(*@ tools/src/model_patch.rs is_no_newline_marker *)
Definition is_no_newline_marker (line : string) : bool :=
  bool_decide (trim line = "\ No newline at end of file").
(*@ tools/src/model_patch.rs is_file_header *)
Definition is_file_header (line : string) : bool :=
  starts_with "*** Update File:" line || starts_with "*** Add File:" line
  || starts_with "*** Delete File:" line.
(*@ tools/src/model_patch.rs is_end_marker *)
Definition is_end_marker (line : string) : bool := bool_decide (trim line = "*** End Patch").

(** The first byte of a hunk line: space, plus, minus. *)
Definition hunk_byte : string -> bool := starts_with_byte [32; 43; 45].

(*@ tools/src/model_patch.rs is_hunk_line *)
Definition is_hunk_line (line : string) : bool :=
  bool_decide (line = "") || hunk_byte line || is_no_newline_marker line.

(*@ tools/src/model_patch.rs looks_like_model_patch *)
Definition looks_like_model_patch (input : string) : bool :=
  starts_with "*** Begin Patch" (of_chars (drop_while is_whitespace (chars input))).

(*@ tools/src/model_patch.rs parse_path *)
Definition parse_path (path : string) : result string string :=
  let path := trim path in
  if bool_decide (path = "") || has_byte [0] path || has_byte [10; 13] path then
    Err "patch file path is empty or contains a control character"
  else Ok path.

(** [PathBuf::push] and [pop] on the components gathered so far, last first. *)
(*@ tools/src/model_patch.rs lexical_path_identity *)
Fixpoint identity_step (has_root : bool) (acc : list Component) (cs : list Component)
    : list Component :=
  match cs with
  | [] => acc
  | c :: cs' =>
      match c with
      | RootDir => identity_step true (RootDir :: acc) cs'
      | CurDir => identity_step has_root acc cs'
      | ParentDir =>
          match acc with
          | Normal _ :: acc' => identity_step has_root acc' cs'
          | _ => identity_step has_root (if has_root then acc else ParentDir :: acc) cs'
          end
      | Normal s => identity_step has_root (Normal s :: acc) cs'
      end
  end.
(*@ tools/src/model_patch.rs lexical_path_identity *)
Definition lexical_path_identity (path : string) : list Component :=
  match identity_step false [] (path_components path) with
  | [] => [CurDir]
  | acc => reverse acc
  end.

(*@ tools/src/model_patch.rs hunk_context *)
Definition hunk_context (header : string) : option string :=
  rest ← strip_prefix "@@" header;
  let body := trim rest in
  if bool_decide (body = "") then None
  else
    let plain :=
      if negb (starts_with_byte [45; 43] body) || existsb is_whitespace (chars body)
      then Some body else None in
    match split_once "@@" body with
    | Some (range, suffix) =>
        if forallb (fun token => starts_with_byte [45; 43] token && (1 <? str_len token))
             (split_whitespace range)
        then if trim_is_empty suffix then None else Some (trim suffix)
        else plain
    | None => plain
    end.

(*@ tools/src/model_patch.rs validate_hunk *)
Definition validate_hunk (header : string) (lines : list string) : result string unit :=
  if negb (bool_decide (header = "@@")) && negb (starts_with "@@ " header)
     && negb (starts_with "@@-" header) then
    Err ("invalid model patch hunk header: " +:+ header)
  else
    match List.find (fun l => negb (is_no_newline_marker l) && negb (hunk_byte l)) lines with
    | Some line => Err ("invalid model patch hunk line: " +:+ line)
    | None => Ok tt
    end.

(** ** Parsing *)

(** The last non-empty body line decides what a no-newline marker refers to. *)
Definition marker_is_new (body : list string) : bool :=
  is_some_and (fun kind => negb (kind =? 45)) (head (omap first_byte (reverse body))).

(** The lines of one hunk and what follows it. *)
(*@ tools/src/model_patch.rs:210-241 parse_update_hunks *)
Fixpoint hunk_body (body : list string) (no_newline : bool) (lines : list string)
    : result string (list string * bool * bool * list string) :=
  match lines with
  | [] => Ok (body, false, no_newline, [])
  | line :: rest =>
      if starts_with "@@" line || is_file_header line || is_end_marker line then
        Ok (body, false, no_newline, lines)
      else if is_end_of_file_marker line then Ok (body, true, no_newline, rest)
      else if is_no_newline_marker line then hunk_body body (marker_is_new body) rest
      else if bool_decide (line = "") then hunk_body (body ++ [" "]) no_newline rest
      else if hunk_byte line then hunk_body (body ++ [line]) no_newline rest
      else Err ("invalid model patch hunk line: " +:+ line)
  end.

(** The loop over hunks; the fuel bounds the lines left. *)
(*@ tools/src/model_patch.rs parse_update_hunks *)
Fixpoint update_hunks (fuel : nat) (hunks : list ModelPatchHunk) (lines : list string)
    : result string (list ModelPatchHunk * list string) :=
  match fuel with
  | O => Err "out of fuel"
  | S fuel =>
      match lines with
      | [] => Ok (hunks, [])
      | line :: rest =>
          if trim_is_empty line then update_hunks fuel hunks rest
          else if is_file_header line || is_end_marker line then Ok (hunks, lines)
          else
            let? (header, context, rest) :=
              (if starts_with "@@" line then Ok (line, hunk_context line, rest)
               else if is_hunk_line line then Ok ("@@", None, lines)
               else Err ("update entry requires a hunk header, got: " +:+ line)) in
            let? (body, eof, no_newline, rest) := hunk_body [] false rest in
            let? _ := validate_hunk header body in
            update_hunks fuel (hunks ++ [mkHunk header context body eof no_newline]) rest
      end
  end.
(*@ tools/src/model_patch.rs parse_update_hunks *)
Definition parse_update_hunks (lines : list string)
    : result string (list ModelPatchHunk * list string) :=
  let? (hunks, rest) := update_hunks (S (length lines)) [] lines in
  match hunks with
  | [] => Err "update entry does not contain a hunk"
  | _ => Ok (hunks, rest)
  end.

(*@ tools/src/model_patch.rs parse_add_lines *)
Fixpoint parse_add_lines (content : list string) (no_newline : bool) (lines : list string)
    : result string (list string * bool * list string) :=
  match lines with
  | [] => Ok (content, no_newline, [])
  | line :: rest =>
      if is_file_header line || is_end_marker line then Ok (content, no_newline, lines)
      else if is_end_of_file_marker line then parse_add_lines content no_newline rest
      else if is_no_newline_marker line then parse_add_lines content true rest
      else match strip_prefix "+" line with
           | Some value => parse_add_lines (content ++ [value]) no_newline rest
           | None => Err ("added file content must start with '+': " +:+ line)
           end
  end.

Inductive EntryKind := EUpdate | EAdd | EDelete.

(*@ tools/src/model_patch.rs:94-102 parse *)
Definition entry_header (line : string) : result string (EntryKind * string) :=
  match strip_prefix "*** Update File:" line with
  | Some path => let? path := parse_path path in Ok (EUpdate, path)
  | None =>
      match strip_prefix "*** Add File:" line with
      | Some path => let? path := parse_path path in Ok (EAdd, path)
      | None =>
          match strip_prefix "*** Delete File:" line with
          | Some path => let? path := parse_path path in Ok (EDelete, path)
          | None => Err ("unsupported patch control line: " +:+ line)
          end
      end
  end.

Definition is_delete_of (path : string) (f : ModelPatchFile) : bool :=
  bool_decide (pf_path f = path) && bool_decide (pf_kind f = Delete).

(** Where an added path completes an earlier delete of the same spelling. *)
(*@ tools/src/model_patch.rs:105-112 parse *)
Definition replacement_index (kind : EntryKind) (path : string) (files : list ModelPatchFile)
    : option nat :=
  match kind with
  | EAdd => fst <$> list_find (fun f => is_delete_of path f = true) files
  | _ => None
  end.

(*@ tools/src/model_patch.rs:123-136 parse *)
Definition parse_move (lines : list string) : result string (option string * list string) :=
  match lines with
  | line :: rest =>
      match strip_prefix "*** Move to:" line with
      | Some path => let? path := parse_path path in Ok (Some path, rest)
      | None => Ok (None, lines)
      end
  | [] => Ok (None, lines)
  end.

(** The body of an entry: move target, kind, the identities seen and the lines left. *)
(*@ tools/src/model_patch.rs:121-162 parse *)
Definition parse_entry (kind : EntryKind) (seen : list (list Component)) (lines : list string)
    : result string (option string * ModelPatchFileKind * list (list Component) * list string) :=
  match kind with
  | EUpdate =>
      let? (move_path, lines) := parse_move lines in
      let? (hunks, rest) := parse_update_hunks lines in
      match move_path with
      | Some path =>
          if bool_decide (lexical_path_identity path ∈ seen) then
            Err ("patch names a source or destination more than once: " +:+ path)
          else Ok (move_path, Update hunks, lexical_path_identity path :: seen, rest)
      | None => Ok (None, Update hunks, seen, rest)
      end
  | EAdd =>
      let? (content, no_newline, rest) := parse_add_lines [] false lines in
      Ok (None, Add content no_newline, seen, rest)
  | EDelete =>
      if is_some_and (fun next => negb (is_file_header next) && negb (is_end_marker next))
           (head lines)
      then Err "delete file entry cannot contain patch body"
      else Ok (None, Delete, seen, lines)
  end.

(*@ tools/src/model_patch.rs:163-174 parse *)
Definition add_file (replacement : option nat) (path : string) (move_path : option string)
    (kind : ModelPatchFileKind) (files : list ModelPatchFile) : list ModelPatchFile :=
  match replacement, kind with
  | Some n, Add lines no_newline =>
      alter (fun f => mkPatchFile (pf_path f) (pf_move_path f) (Replace lines no_newline)) n files
  | _, _ => files ++ [mkPatchFile path move_path kind]
  end.

(** The main loop; [Ok] carries the files and the lines after the end marker. *)
(*@ tools/src/model_patch.rs:78-175 parse *)
Fixpoint parse_entries (fuel : nat) (files : list ModelPatchFile) (seen : list (list Component))
    (lines : list string) : result string (list ModelPatchFile * list string) :=
  match fuel with
  | O => Err "out of fuel"
  | S fuel =>
      match lines with
      | [] => Err "patch is missing *** End Patch"
      | line :: rest =>
          if is_end_marker line then Ok (files, rest)
          else if trim_is_empty line || starts_with "*** Environment ID:" line then
            parse_entries fuel files seen rest
          else
            let? (kind, path) := entry_header line in
            let replacement := replacement_index kind path files in
            let id := lexical_path_identity path in
            if bool_decide (id ∈ seen) && match replacement with None => true | _ => false end then
              Err ("patch names the file more than once: " +:+ path)
            else
              let? (move_path, file_kind, seen, rest) := parse_entry kind (id :: seen) rest in
              parse_entries fuel (add_file replacement path move_path file_kind files) seen rest
      end
  end.

(** The lines of the input without carriage returns and outer blank lines. *)
(*@ tools/src/model_patch.rs:51-63 parse *)
Definition patch_lines (input : string) : list string :=
  let lines := (fun l => default l (strip_suffix_char carriage_return l)) <$> split_on newline input in
  reverse (drop_while trim_is_empty (reverse (drop_while trim_is_empty lines))).

(*@ tools/src/model_patch.rs parse *)
Definition parse (input : string) : result string ModelPatch :=
  match patch_lines input with
  | [] => Err "patch must start with *** Begin Patch"
  | first :: lines =>
      if negb (bool_decide (trim first = "*** Begin Patch")) then
        Err "patch must start with *** Begin Patch"
      else
        let? (files, rest) := parse_entries (S (length lines)) [] [] lines in
        if existsb (fun l => negb (bool_decide (l = ""))) rest then
          Err "patch contains data after *** End Patch"
        else match files with
             | [] => Err "patch does not contain any file entries"
             | _ => Ok files
             end
  end.

(** ** Applying hunks *)

(*@ tools/src/model_patch.rs split_lines *)
Definition split_lines (value : string) : list string * bool :=
  let final_newline := ends_with (String newline "") value in
  let lines := split_on newline value in
  (if final_newline then take (length lines - 1) lines else lines, final_newline).

(*@ tools/src/model_patch.rs join_lines *)
Definition join_lines (lines : list string) (final_newline : bool) : string :=
  let value := join (String newline "") lines in
  if final_newline && negb (bool_decide (value = "")) then value +:+ String newline "" else value.

(** [original\[start..end\]]. *)
Definition slice (start stop : nat) (lines : list string) : result Fault (list string) :=
  if bool_decide (start <= stop)%nat && bool_decide (stop <= length lines)%nat
  then Ok (take (stop - start) (drop start lines)) else Err Panicked.

Abbreviation fail message := (Err (Failed message)).

(*@ tools/src/model_patch.rs hunk_old_start *)
Definition hunk_old_start (header : string) : option N :=
  range ← (before "@@" <$> strip_prefix "@@" header);
  head (omap (fun token => value ← strip_prefix "-" token; parse_usize (before "," value))
          (split_whitespace range)).

(** The loop of [hunk_changes]: old lines, new lines, the previous kind, the flag. *)
(*@ tools/src/model_patch.rs hunk_changes *)
Fixpoint changes_loop (old new : list string) (previous : option N) (no_newline : bool)
    (lines : list string) : result Fault (list string * list string * bool) :=
  match lines with
  | [] => Ok (old, new, no_newline)
  | line :: rest =>
      if bool_decide (line = "\ No newline at end of file") then
        changes_loop old new previous
          (no_newline || negb (bool_decide (previous = Some 45))) rest
      else
        match line with
        | EmptyString => fail "empty hunk line"
        | String a value =>
            let kind := byte_of a in
            (* [line.get(1..)] is [None] inside a multi-byte character *)
            if 128 <=? kind then fail "hunk line is not valid UTF-8"
            else if kind =? 32 then
              changes_loop (old ++ [value]) (new ++ [value]) (Some kind) no_newline rest
            else if kind =? 45 then changes_loop (old ++ [value]) new (Some kind) no_newline rest
            else if kind =? 43 then changes_loop old (new ++ [value]) (Some kind) no_newline rest
            else fail ("invalid hunk line: " +:+ line)
        end
  end.
(*@ tools/src/model_patch.rs hunk_changes *)
Definition hunk_changes (hunk : ModelPatchHunk) : result Fault (list string * list string * bool) :=
  changes_loop [] [] None (new_no_newline hunk) (hunk_lines hunk).

(** The candidate starts of a search, stopping at the second match. *)
(*@ tools/src/model_patch.rs:557-568 locate_hunk *)
Fixpoint search_starts (original needle : list string) (eof : bool) (matches : list nat)
    (starts : list nat) : result Fault (list nat) :=
  match starts with
  | [] => Ok matches
  | start :: rest =>
      if eof && negb (bool_decide (start + length needle = length original)%nat) then
        search_starts original needle eof matches rest
      else
        let? window := slice start (start + length needle) original in
        if bool_decide (window = needle) then
          let matches := matches ++ [start] in
          if (1 <? N.of_nat (length matches)) then Ok matches
          else search_starts original needle eof matches rest
        else search_starts original needle eof matches rest
  end.

(** [cursor..=last]. *)
Definition starts_from (cursor last : nat) : list nat := seq cursor (S last - cursor).

(*@ tools/src/model_patch.rs:547-555 locate_hunk *)
Definition hinted_start (original needle : list string) (cursor : nat) (hint : option N)
    (eof : bool) : option nat :=
  line ← hint;
  let start := line - 1 in
  let stop := start + N.of_nat (length needle) in
  if (N.of_nat cursor <=? start) && (stop <=? N.of_nat (length original))
     && (negb eof || (stop =? N.of_nat (length original)))
     && bool_decide (take (length needle) (drop (N.to_nat start) original) = needle)
  then Some (N.to_nat start) else None.

(** A one-based line number as a position between [cursor] and the end of the file. *)
Definition line_position (cursor file_len : nat) (line : N) : option nat :=
  let start := line - 1 in
  if (N.of_nat cursor <=? start) && (start <=? N.of_nat file_len) then Some (N.to_nat start)
  else None.

(*@ tools/src/model_patch.rs locate_hunk *)
Definition locate_hunk (original needle : list string) (cursor : nat) (hint : option N)
    (eof : bool) : result Fault nat :=
  match needle with
  | [] =>
      let start :=
        match hint with
        | Some line => line_position cursor (length original) line
        | None => if bool_decide (cursor <= length original)%nat then Some cursor else None
        end in
      ok_or (Failed "model patch insertion point is outside the file") start
  | _ =>
      match hinted_start original needle cursor hint eof with
      | Some start => Ok start
      | None =>
          let? matches := search_starts original needle eof []
            (starts_from cursor (length original - length needle)) in
          match matches with
          | [start] => Ok start
          | [] => fail "model patch context does not match the current file"
          | _ => fail "model patch context is ambiguous; include more context or line numbers"
          end
      end
  end.

(*@ tools/src/model_patch.rs normalize_context *)
Definition normalize_context (value : string) : string := join " " (split_whitespace value).

Definition context_matches (context line : string) : bool :=
  bool_decide (line = context) || bool_decide (trim line = trim context)
  || bool_decide (normalize_context line = normalize_context context).

(*@ tools/src/model_patch.rs locate_context *)
Definition locate_context (original : list string) (context : string) (cursor : nat) (eof : bool)
    : result Fault nat :=
  let candidates :=
    List.filter (fun index =>
        negb (eof && negb (bool_decide (index + 1 = length original)%nat))
        && is_some_and (context_matches context) (original !! index))
      (seq cursor (length original - cursor)) in
  match candidates with
  | [index] => Ok index
  | [] => fail ("model patch context does not match: " +:+ context)
  | _ => fail ("model patch context is ambiguous: " +:+ context)
  end.

(*@ tools/src/model_patch.rs insertion_point *)
Definition insertion_point (file_len context_start cursor : nat) (hint : option N) (eof : bool)
    : result Fault nat :=
  if eof then Ok file_len
  else if bool_decide (cursor < context_start)%nat then Ok (Nat.min context_start file_len)
  else match hint with
       | Some line =>
           ok_or (Failed "model patch insertion point is outside the file")
             (line_position cursor file_len line)
       | None => Ok (Nat.max file_len cursor)
       end.

(** Where the search for a hunk begins: after its context line, if it names one. *)
(*@ tools/src/model_patch.rs:464-469 apply_hunks *)
Definition context_start (original : list string) (hunk : ModelPatchHunk) (cursor : nat)
    : result Fault nat :=
  match hunk_context_line hunk with
  | Some context => let? i := locate_context original context cursor (end_of_file hunk) in Ok (S i)
  | None => Ok cursor
  end.

(** Where a hunk goes, given the end of the previous one. *)
(*@ tools/src/model_patch.rs:463-486 apply_hunks *)
Definition hunk_start (original : list string) (hunk : ModelPatchHunk) (old : list string)
    (cursor : nat) : result Fault nat :=
  let hint := hunk_old_start (hunk_header hunk) in
  let? from := context_start original hunk cursor in
  match old with
  | [] => insertion_point (length original) from cursor hint (end_of_file hunk)
  | _ => locate_hunk original old from hint (end_of_file hunk)
  end.

(** The loop of [apply_hunks] over the lines of the file. *)
(*@ tools/src/model_patch.rs:457-494 apply_hunks *)
Fixpoint apply_loop (original : list string) (output : list string) (cursor : nat)
    (final_newline : bool) (hunks : list ModelPatchHunk) : result Fault (list string * bool) :=
  match hunks with
  | [] =>
      let? rest := slice cursor (length original) original in
      Ok (output ++ rest, final_newline)
  | hunk :: hunks =>
      let? (old, new, no_newline) := hunk_changes hunk in
      let? start := hunk_start original hunk old cursor in
      let? gap := slice cursor start original in
      apply_loop original (output ++ gap ++ new) (start + length old)
        (if no_newline then false else final_newline) hunks
  end.

(*@ tools/src/model_patch.rs apply_hunks *)
Definition apply_hunks (original : string) (hunks : list ModelPatchHunk) : result Fault string :=
  let '(lines, final_newline) := split_lines original in
  let? (output, final_newline) := apply_loop lines [] 0 final_newline hunks in
  Ok (join_lines output final_newline).

(** ** Examples *)

Definition patch_text (lines : list string) : string := join (String newline "") lines.

Example update_example :
  parse (patch_text ["*** Begin Patch"; "*** Update File: a.txt"; "@@"; " one"; "-two"; "+2";
                     "*** End Patch"; ""])
  = Ok [mkPatchFile "a.txt" None (Update [mkHunk "@@" None [" one"; "-two"; "+2"] false false])] /\
  apply_hunks (patch_text ["zero"; "one"; "two"; "three"; ""])
    [mkHunk "@@" None [" one"; "-two"; "+2"] false false]
  = Ok (patch_text ["zero"; "one"; "2"; "three"; ""]).
Proof. split; vm_compute; reflexivity. Qed.

Example replacement_example :
  parse (patch_text ["*** Begin Patch"; "*** Delete File: a.txt"; "*** Add File: a.txt"; "+x";
                     "*** End Patch"])
  = Ok [mkPatchFile "a.txt" None (Replace ["x"] false)] /\
  is_ok (parse (patch_text ["*** Begin Patch"; "*** Delete File: a.txt"; "*** Add File: ./a.txt";
                            "+x"; "*** End Patch"])) = false.
Proof. split; vm_compute; reflexivity. Qed.

(** ** Lines and text *)

(** What [split_lines] makes of a text that ends in a newline. *)
Lemma split_lines_newline t : split_lines (t +:+ String newline "") = (split_on newline t, true).
Proof.
  unfold split_lines.
  replace (ends_with _ _) with true.
  - rewrite split_on_snoc, length_app. simpl. by rewrite Nat.add_sub, take_app_length.
  - symmetry. induction t as [|a t IH]; [done|]. simpl. rewrite IH. by rewrite orb_true_r.
Qed.

(** Splitting a file into lines and joining them again gives the file
    back, whatever its final newline, with one exception: a file that is a single
    newline comes back empty. *)
Theorem split_join_roundtrip s :
  uncurry join_lines (split_lines s) = (if bool_decide (s = String newline "") then "" else s).
Proof.
  destruct (ends_with (String newline "") s) eqn:E.
  - apply ends_with_app in E as [t ->]. rewrite split_lines_newline.
    unfold uncurry, join_lines. rewrite join_split_on.
    destruct t as [|a t]; [done|].
    rewrite (bool_decide_eq_false_2 (String a t = "")) by done.
    rewrite (bool_decide_eq_false_2 (_ = String newline "")); [done|].
    intros [= _ H]. by destruct t.
  - unfold split_lines. rewrite E. unfold uncurry, join_lines. rewrite join_split_on.
    rewrite (bool_decide_eq_false_2 (s = String newline "")); [done|].
    intros ->. by vm_compute in E.
Qed.

(** ** Where hunks land *)

Lemma slice_ok i j l w :
  slice i j l = Ok w -> (i <= j <= length l)%nat /\ w = take (j - i) (drop i l).
Proof. unfold slice. case_match; [|done]. boolhyps. intros. simplify_eq. auto. Qed.

Lemma slice_total i j l : (i <= j <= length l)%nat -> slice i j l = Ok (take (j - i) (drop i l)).
Proof. intros [? ?]. unfold slice. by rewrite !bool_decide_eq_true_2. Qed.

(** A window of the file at a position. *)
Definition window (original needle : list string) (start : nat) : Prop :=
  (start + length needle <= length original)%nat /\
  take (length needle) (drop start original) = needle.

Lemma window_slice original needle start w :
  slice start (start + length needle) original = Ok w -> w = needle <-> window original needle start.
Proof.
  intros [H ->]%slice_ok. unfold window.
  replace (start + length needle - start)%nat with (length needle) by lia. intuition lia.
Qed.

(** The starts a search over [starts] accepts. *)
Definition accepts (original needle : list string) (eof : bool) (start : nat) : Prop :=
  window original needle start /\
  (eof = true -> (start + length needle = length original)%nat).

Lemma search_starts_ok original needle eof starts : forall found r,
  search_starts original needle eof found starts = Ok r ->
  (length found <= 1)%nat ->
  exists more, r = found ++ more /\ more `sublist_of` starts /\
    Forall (accepts original needle eof) more /\
    (forall s, s ∈ starts -> accepts original needle eof s -> s ∈ more \/ (2 <= length r)%nat).
Proof.
  induction starts as [|s starts IH]; intros found r H Hf; simpl in H.
  { simplify_eq. exists []. rewrite app_nil_r. split_and!; [done|constructor|constructor|].
    intros s Hs. by apply not_elem_of_nil in Hs. }
  assert (Hskip : ~ accepts original needle eof s ->
    search_starts original needle eof found starts = Ok r ->
    exists more, r = found ++ more /\ more `sublist_of` s :: starts /\
      Forall (accepts original needle eof) more /\
      (forall x, x ∈ s :: starts -> accepts original needle eof x ->
         x ∈ more \/ (2 <= length r)%nat)).
  { intros Hn Hr. destruct (IH found r Hr Hf) as (more & ? & ? & ? & Hall).
    exists more. split_and!; [done|by constructor|done|].
    intros x [->|Hx]%elem_of_cons Ha; [done|auto]. }
  destruct (eof && _) eqn:E.
  { boolhyps. apply Hskip; [|done]. intros [_ He]. auto. }
  destruct (slice _ _ _) as [w|] eqn:Es; [|done].
  assert (Hw := window_slice _ _ _ _ Es).
  case_bool_decide as Eq; [|apply Hskip; [|done]; intros [? _]; tauto].
  assert (Ha : accepts original needle eof s).
  { split; [by apply Hw|]. intros ->. simpl in E. by boolhyps. }
  rewrite length_app in H. simpl in H. destruct (1 <? _) eqn:E2; Nbool.
  - simplify_eq. exists [s]. split_and!; [done| |by apply Forall_singleton|].
    + constructor. apply sublist_nil_l.
    + intros x _ _. right. rewrite length_app. simpl. lia.
  - destruct found; [|simpl in E2; lia].
    destruct (IH [s] r H ltac:(simpl; lia)) as (more & -> & ? & ? & Hall).
    exists (s :: more). split_and!; [done|by constructor|by constructor|].
    intros x [->|Hx]%elem_of_cons Hxa; [left; apply list_elem_of_here|].
    destruct (Hall x Hx Hxa) as [?|?]; [left; by apply list_elem_of_further|right; done].
Qed.

(** The start a search settles on, when it settles. *)
Lemma locate_hunk_spec original needle cursor hint eof start :
  locate_hunk original needle cursor hint eof = Ok start ->
  needle <> [] -> (cursor <= start)%nat /\ accepts original needle eof start.
Proof.
  unfold locate_hunk. destruct needle as [|n0 needle]; [done|]. intros H _.
  remember (n0 :: needle) as needle' eqn:En. clear En.
  destruct (hinted_start _ _ _ _ _) as [s|] eqn:Eh.
  - simplify_eq. unfold hinted_start in Eh. destruct hint as [line|]; [|done]. simpl in Eh.
    case_match eqn:Ec; [|done]. simplify_eq. boolhyps. Nbool.
    split; [lia|]. split; [split; [lia|done]|]. intros ->. simpl in *. Nbool. lia.
  - destruct (search_starts _ _ _ _ _) as [found|] eqn:Es; [|done].
    apply search_starts_ok in Es as (more & -> & Hsub & Hacc & _); [|simpl; lia].
    destruct more as [|s [|s2 more]]; simpl in H; [done| |done]. simplify_eq.
    rewrite Forall_singleton in Hacc. split; [|done].
    assert (Hin : start ∈ starts_from cursor (length original - length needle')).
    { eapply elem_of_sublist; [apply list_elem_of_here|done]. }
    apply elem_of_seq in Hin. lia.
Qed.

Lemma search_starts_total original needle eof starts : forall found,
  Forall (fun s => (s + length needle <= length original)%nat) starts ->
  exists r, search_starts original needle eof found starts = Ok r.
Proof.
  induction starts as [|s starts IH]; intros found Hs; simpl; [eauto|].
  inversion Hs; subst. case_match; [auto|]. rewrite slice_total by lia.
  case_match; [|auto]. case_match; eauto.
Qed.

(** A search in a file at least as long as the hunk stays in range. *)
Lemma starts_from_in_range (original needle : list string) cursor :
  (length needle <= length original)%nat ->
  Forall (fun s => (s + length needle <= length original)%nat)
    (starts_from cursor (length original - length needle)).
Proof. intros H. apply Forall_forall. intros s Hs%elem_of_seq. lia. Qed.

(** Without a line hint, the lines a hunk expects are placed at [start]
    exactly when the file has them there, at or after [cursor] (and at the very end for
    an end-of-file hunk), and has them at no other such position. *)
Theorem locate_hunk_unique original needle cursor eof start :
  needle <> [] -> (length needle <= length original)%nat ->
  locate_hunk original needle cursor None eof = Ok start <->
  (cursor <= start)%nat /\ accepts original needle eof start /\
  (forall s, (cursor <= s)%nat -> accepts original needle eof s -> s = start).
Proof.
  intros Hne Hlen. split.
  - intros H. destruct (locate_hunk_spec _ _ _ _ _ _ H Hne) as [Hc Ha].
    split_and!; [done..|]. intros s Hs Hacc.
    unfold locate_hunk in H. destruct needle as [|n0 needle]; [done|]. simpl hinted_start in H.
    remember (n0 :: needle) as needle'.
    destruct (search_starts _ _ _ _ _) as [found|] eqn:Es; [|done].
    apply search_starts_ok in Es as (more & -> & _ & _ & Hall); [|simpl; lia].
    destruct more as [|x [|y more]]; [done| |done]. simpl in H. simplify_eq.
    destruct (Hall s) as [?%list_elem_of_singleton|Hl]; [|done|done|simpl in Hl; lia].
    apply elem_of_seq. destruct Hacc as [[? _] _]. lia.
  - intros (Hc & Ha & Huniq). unfold locate_hunk. destruct needle as [|n0 needle]; [done|].
    simpl hinted_start. remember (n0 :: needle) as needle'.
    destruct (search_starts_total original needle' eof _ []
      (starts_from_in_range original needle' cursor Hlen)) as [found Es].
    rewrite Es. simpl. apply search_starts_ok in Es as (more & -> & Hsub & Hacc & Hall); [|simpl; lia].
    assert (Heq : forall x, x ∈ more -> x = start).
    { intros x Hx. rewrite Forall_forall in Hacc. apply Huniq; [|auto].
      eapply elem_of_sublist in Hsub; [|done]. apply elem_of_seq in Hsub. lia. }
    assert (Hnd : NoDup more).
    { eapply sublist_NoDup; [apply NoDup_seq|done]. }
    destruct more as [|x [|y more]]; simpl in *.
    + destruct (Hall start) as [H|H]; [|done|by apply not_elem_of_nil in H|lia].
      apply elem_of_seq. destruct Ha as [[? _] _]. lia.
    + by rewrite (Heq x) by apply list_elem_of_here.
    + exfalso. apply NoDup_cons in Hnd as [Hnd _]. apply Hnd.
      rewrite (Heq x), (Heq y); [apply list_elem_of_here| |apply list_elem_of_here].
      apply list_elem_of_further, list_elem_of_here.
Qed.

(** Locating a hunk panics exactly when the hunk's old lines outnumber the
    lines of the file, no earlier hunk or context moved the search past the first line
    and the hunk is not anchored at the end of the file: the bound
    [original.len().saturating_sub(needle.len())] then still lets the search slice at
    line 0, out of range. Every other hunk is placed or rejected with a message. *)
Theorem locate_hunk_panics_iff original needle cursor hint eof :
  locate_hunk original needle cursor hint eof = Err Panicked <->
  (length original < length needle)%nat /\ cursor = 0%nat /\ eof = false.
Proof.
  destruct needle as [|n0 needle].
  { unfold locate_hunk. split; [|simpl; lia]. unfold ok_or. repeat case_match; done. }
  unfold locate_hunk. remember (n0 :: needle) as needle' eqn:En. split.
  - intros H. destruct (hinted_start _ _ _ _ _) as [s|]; [done|].
    destruct (decide (length needle' <= length original)%nat) as [Hl|Hl].
    { destruct (search_starts_total original needle' eof _ []
        (starts_from_in_range original needle' cursor Hl)) as [found Es].
      rewrite Es in H. simpl in H. by destruct found as [|? [|]]. }
    replace (length original - length needle')%nat with 0%nat in H by lia.
    destruct cursor; [|done]. split_and!; [lia|done|]. destruct eof; [|done].
    simpl in H. by rewrite bool_decide_eq_false_2 in H by lia.
  - intros (Hl & -> & ->).
    replace (hinted_start _ _ _ _ _) with (@None nat).
    + replace (length original - length needle')%nat with 0%nat by lia. simpl.
      unfold slice. by rewrite (bool_decide_eq_false_2 (length needle' <= _)%nat) by lia.
    + symmetry. unfold hinted_start. destruct hint as [line|]; [|done]. simpl.
      replace (_ + _ <=? N.of_nat (length original)) with false; [by rewrite andb_false_r|].
      symmetry. apply N.leb_gt. lia.
Qed.

(** A whole patch can reach it: the lines of the hunk, in a file with one line less. *)
Example short_file_panics :
  parse (patch_text ["*** Begin Patch"; "*** Update File: a.txt"; "@@"; " one"; "-two";
                     "*** End Patch"])
  = Ok [mkPatchFile "a.txt" None (Update [mkHunk "@@" None [" one"; "-two"] false false])] /\
  apply_hunks "one" [mkHunk "@@" None [" one"; "-two"] false false] = Err Panicked.
Proof. split; vm_compute; reflexivity. Qed.

(** ** What applying hunks does *)

Lemma locate_context_spec original context cursor eof i :
  locate_context original context cursor eof = Ok i -> (cursor <= i < length original)%nat.
Proof.
  unfold locate_context. remember (List.filter _ _) as found eqn:Ef.
  destruct found as [|j [|]]; [done| |done]. intros. simplify_eq.
  assert (Hi : In i [i]) by (left; done). rewrite Ef in Hi. apply filter_In in Hi as [Hi _].
  apply in_seq in Hi. lia.
Qed.

Lemma window_nil original start : (start <= length original)%nat -> window original [] start.
Proof. intros. split; simpl; [lia|done]. Qed.

Lemma line_position_spec cursor file_len line start :
  line_position cursor file_len line = Some start -> (cursor <= start <= file_len)%nat.
Proof. unfold line_position. case_match; [|done]. boolhyps. Nbool. intros. simplify_eq. lia. Qed.

Lemma context_start_spec original hunk cursor cs :
  context_start original hunk cursor = Ok cs -> (cursor <= length original)%nat ->
  (cursor <= cs <= length original)%nat.
Proof.
  unfold context_start. destruct (hunk_context_line hunk); intros H ?; [|simplify_eq; lia].
  destruct (locate_context _ _ _ _) eqn:El; [|done]. apply locate_context_spec in El.
  simplify_eq/=. lia.
Qed.

(** A hunk is placed at or after the end of the previous one, where its old lines are. *)
Lemma hunk_start_spec original hunk old cursor start :
  hunk_start original hunk old cursor = Ok start -> (cursor <= length original)%nat ->
  (cursor <= start)%nat /\ window original old start.
Proof.
  unfold hunk_start. intros H Hc.
  destruct (context_start original hunk cursor) as [cs|] eqn:Ecs; [|done].
  apply context_start_spec in Ecs; [|done].
  simpl in H. destruct old as [|o old].
  - assert (cursor <= start <= length original)%nat.
    { unfold insertion_point in H. case_match; [simplify_eq; lia|].
      case_bool_decide; [simplify_eq; lia|].
      revert H. destruct (hunk_old_start _) as [line|]; intros H; [|simplify_eq; lia].
      destruct (line_position _ _ _) eqn:El; [|done]. apply line_position_spec in El.
      simplify_eq/=. lia. }
    split; [lia|]. apply window_nil. lia.
  - apply locate_hunk_spec in H as [? [? _]]; [|done]. split; [lia|done].
Qed.

(** The text between the hunks, with one part of each hunk after each gap. *)
Fixpoint weave (gaps parts : list (list string)) : list string :=
  match gaps, parts with
  | gap :: gaps, part :: parts => gap ++ part ++ weave gaps parts
  | gap :: _, [] => gap
  | [], _ => []
  end.

(** What a hunk removes, what it writes, and whether it drops the final newline. *)
Definition change : Type := list string * list string * bool.
Definition removed (c : change) : list string := c.1.1.
Definition written (c : change) : list string := c.1.2.

Lemma drop_window (original old : list string) cursor start :
  (cursor <= start)%nat -> take (length old) (drop start original) = old ->
  drop cursor original =
  take (start - cursor) (drop cursor original) ++ old ++ drop (start + length old) original.
Proof.
  intros Hs Hold. rewrite <- (drop_drop original (length old) start).
  rewrite <- Hold at 1. rewrite take_drop.
  replace (drop start original) with (drop (start - cursor) (drop cursor original)).
  - by rewrite take_drop.
  - rewrite drop_drop. f_equal. lia.
Qed.

Lemma apply_loop_weave original hunks : forall output cursor fn r,
  apply_loop original output cursor fn hunks = Ok r -> (cursor <= length original)%nat ->
  exists changes gaps,
    Forall2 (fun h c => hunk_changes h = Ok c) hunks changes /\
    length gaps = S (length hunks) /\
    drop cursor original = weave gaps (removed <$> changes) /\
    r = (output ++ weave gaps (written <$> changes), fn && forallb (fun c : change => negb c.2) changes).
Proof.
  induction hunks as [|h hunks IH]; intros output cursor fn r H Hc; simpl in H.
  - rewrite slice_total in H by lia. simpl in H. simplify_eq.
    exists [], [drop cursor original]. split_and!; [constructor|done|done|].
    simpl. rewrite andb_true_r. do 2 f_equal. rewrite <- length_drop. apply firstn_all.
  - destruct (hunk_changes h) as [[[old new] flag]|] eqn:Eh; [|done]. simpl in H.
    destruct (hunk_start original h old cursor) as [start|] eqn:Es; [|done]. simpl in H.
    apply hunk_start_spec in Es as [Hs [Hw Hold]]; [|done].
    rewrite slice_total in H by lia. simpl in H.
    apply IH in H as (changes & gaps & HF & Hlen & Hdrop & ->); [|lia].
    exists ((old, new, flag) :: changes), (take (start - cursor) (drop cursor original) :: gaps).
    split_and!; [by constructor|simpl; by rewrite Hlen| |].
    + change (removed <$> (old, new, flag) :: changes) with (old :: (removed <$> changes)).
      simpl weave. rewrite <- Hdrop. by apply drop_window.
    + simpl. rewrite <- !app_assoc. f_equal. by destruct flag, fn.
Qed.

(** C35 (refinement): when a list of hunks applies, the file is gaps interleaved with the
    lines the hunks remove, and the result is the same gaps interleaved with the lines
    they write, in the order of the hunks: nothing outside a hunk changes, and every
    removed or context line was in the file. The final newline stays exactly when the
    file had one and no hunk drops it. *)
Theorem apply_hunks_refines original hunks edited :
  apply_hunks original hunks = Ok edited ->
  exists changes gaps,
    Forall2 (fun h c => hunk_changes h = Ok c) hunks changes /\
    length gaps = S (length hunks) /\
    (split_lines original).1 = weave gaps (removed <$> changes) /\
    edited = join_lines (weave gaps (written <$> changes))
      ((split_lines original).2 && forallb (fun c : change => negb c.2) changes).
Proof.
  unfold apply_hunks. destruct (split_lines original) as [lines fn]. intros H.
  destruct (apply_loop _ _ _ _ _) as [[out fn']|] eqn:E; [|done].
  apply apply_loop_weave in E as (changes & gaps & ? & ? & Hd & He); [|lia].
  exists changes, gaps. simplify_eq/=. rewrite drop_0 in Hd. auto.
Qed.

(** ** What a parsed patch looks like *)

Definition header_ok (header : string) : bool :=
  bool_decide (header = "@@") || starts_with "@@ " header || starts_with "@@-" header.

Definition hunk_ok (h : ModelPatchHunk) : bool :=
  header_ok (hunk_header h) && forallb hunk_byte (hunk_lines h).

Definition path_ok (path : string) : bool :=
  negb (bool_decide (path = "")) && negb (has_byte [0; 10; 13] path).

Definition file_ok (f : ModelPatchFile) : bool :=
  path_ok (pf_path f) && from_option path_ok true (pf_move_path f)
  && match pf_kind f with
     | Update hunks => negb (bool_decide (hunks = [])) && forallb hunk_ok hunks
     | _ => bool_decide (pf_move_path f = None)
     end.

(** The paths a file entry names, up to their spelling. *)
Definition identities (p : ModelPatch) : list (list Component) :=
  flat_map (fun f => lexical_path_identity (pf_path f)
                     :: option_list (lexical_path_identity <$> pf_move_path f)) p.

Definition patch_ok (p : ModelPatch) : Prop :=
  p <> [] /\ Forall (fun f => file_ok f = true) p /\ NoDup (identities p).

Lemma hunk_body_ok lines : forall body nn r,
  hunk_body body nn lines = Ok r -> forallb hunk_byte body = true ->
  forallb hunk_byte r.1.1.1 = true.
Proof.
  induction lines as [|line lines IH]; intros body nn r H Hb; simpl in H; [by simplify_eq|].
  repeat (case_match; simplify_eq; [done|]); try done.
  - case_match; [|case_match; [|case_match; [|done]]]; eapply IH; eauto.
    all: rewrite forallb_app, Hb; simpl; by rewrite ?andb_true_r.
Qed.

Lemma validate_hunk_header header lines :
  validate_hunk header lines = Ok tt -> header_ok header = true.
Proof.
  unfold validate_hunk, header_ok. destruct (bool_decide _), (starts_with "@@ " _), (starts_with "@@-" _);
    by intros.
Qed.

Lemma update_hunks_ok fuel : forall hunks lines r,
  update_hunks fuel hunks lines = Ok r -> forallb hunk_ok hunks = true ->
  forallb hunk_ok r.1 = true.
Proof.
  induction fuel as [|fuel IH]; intros hunks lines r H Hh; simpl in H; [done|].
  destruct lines as [|line rest]; [by simplify_eq|].
  case_match; [by eapply IH|]. case_match; [by simplify_eq|].
  destruct (if starts_with "@@" line then _ else _) as [[[header context] rest']|]; [|done].
  destruct (hunk_body _ _ _) as [[[[body eof] nn] rest2]|] eqn:Eb; [|done].
  destruct (validate_hunk header body) as [[]|] eqn:Ev; [|done].
  eapply IH; [done|]. rewrite forallb_app, Hh. simpl. unfold hunk_ok. simpl.
  rewrite (validate_hunk_header _ _ Ev). rewrite andb_true_r.
  by apply (hunk_body_ok _ _ _ _ Eb).
Qed.

Lemma parse_update_hunks_ok lines hunks rest :
  parse_update_hunks lines = Ok (hunks, rest) -> hunks <> [] /\ forallb hunk_ok hunks = true.
Proof.
  unfold parse_update_hunks. destruct (update_hunks _ _ _) as [[hs r]|] eqn:E; [|done]. simpl.
  destruct hs; [done|]. intros. simplify_eq. split; [done|]. by eapply update_hunks_ok in E.
Qed.

Lemma has_byte_app xs ys s : has_byte (xs ++ ys) s = has_byte xs s || has_byte ys s.
Proof.
  induction s as [|a s IH]; simpl; [done|]. rewrite existsb_app, IH.
  by destruct (existsb _ xs), (existsb _ ys), (has_byte xs s).
Qed.

Lemma parse_path_ok s path : parse_path s = Ok path -> path_ok path = true.
Proof.
  unfold parse_path, path_ok. case_match eqn:E; [done|]. boolhyps. intros. simplify_eq.
  rewrite bool_decide_eq_false_2 by done. change [0; 10; 13] with ([0] ++ [10; 13]).
  rewrite has_byte_app. by repeat match goal with H : has_byte _ _ = _ |- _ => rewrite H; clear H end.
Qed.

Lemma entry_header_ok line kind path :
  entry_header line = Ok (kind, path) -> path_ok path = true.
Proof.
  unfold entry_header. intros H.
  repeat (case_hyp H; simplify_eq/=); eauto using parse_path_ok.
Qed.

(** The identities seen cover those of the files gathered, without a repeat. *)
Definition loop_ok (files : list ModelPatchFile) (seen : list (list Component)) : Prop :=
  Forall (fun f => file_ok f = true) files /\ NoDup (identities files) /\
  (forall i, i ∈ identities files -> i ∈ seen).

Lemma identities_app p q : identities (p ++ q) = identities p ++ identities q.
Proof. apply flat_map_app. Qed.

Lemma parse_move_ok lines m rest : parse_move lines = Ok (Some m, rest) -> path_ok m = true.
Proof.
  unfold parse_move. destruct lines as [|line lines]; [done|].
  destruct (strip_prefix _ _) as [path|]; [|done].
  destruct (parse_path path) eqn:Ep; [|done]. simpl. intros. simplify_eq. by eapply parse_path_ok.
Qed.

(** What the body of an entry contributes. *)
Lemma parse_entry_ok kind seen lines path move_path file_kind seen' rest :
  parse_entry kind seen lines = Ok (move_path, file_kind, seen', rest) -> path_ok path = true ->
  file_ok (mkPatchFile path move_path file_kind) = true /\
  seen' = option_list (lexical_path_identity <$> move_path) ++ seen /\
  (forall m, move_path = Some m -> lexical_path_identity m ∉ seen) /\
  (kind = EAdd <-> exists l n, file_kind = Add l n).
Proof.
  intros H Hp. unfold file_ok. simpl. rewrite Hp.
  destruct kind; simpl in H.
  - destruct (parse_move lines) as [[m lines']|] eqn:Em; [|done]. simpl in H.
    destruct (parse_update_hunks lines') as [[hunks r]|] eqn:Eh; [|done]. simpl in H.
    apply parse_update_hunks_ok in Eh as [Hne Hall].
    rewrite <- (bool_decide_eq_false (hunks = [])) in Hne.
    assert (Hadd : forall k, (EUpdate = EAdd <-> exists l n, Update k = Add l n)).
    { intros k. split; [done|]. by intros (? & ? & ?). }
    destruct m as [m|]; simplify_eq/=.
    + apply parse_move_ok in Em. case_bool_decide as Es; [done|]. simplify_eq/=.
      rewrite Em, Hne, Hall. split_and!; [done..| |done]. intros. by simplify_eq.
    + rewrite Hne, Hall. by split_and!.
  - destruct (parse_add_lines _ _ _) as [[[c nn] r]|]; [|done]. simplify_eq/=.
    split_and!; [done..|naive_solver].
  - case_match; simplify_eq/=. split_and!; [done..|]. split; [done|]. by intros (? & ? & ?).
Qed.

(** A replacement keeps the paths of the entry it completes. *)
Lemma replace_ok n lines nn files :
  Forall (fun f => file_ok f = true) files ->
  (forall f, files !! n = Some f -> pf_kind f = Delete) ->
  let files' := alter (fun f => mkPatchFile (pf_path f) (pf_move_path f) (Replace lines nn)) n files in
  Forall (fun f => file_ok f = true) files' /\ identities files' = identities files.
Proof.
  revert n. induction files as [|f files IH]; intros n Hf Hd; [destruct n; done|].
  inversion Hf as [|? ? Hf0 Hfs]; subst. destruct n as [|n]; simpl.
  - split; [|done]. constructor; [|done]. specialize (Hd f eq_refl).
    unfold file_ok in *. simpl. by rewrite Hd in Hf0.
  - destruct (IH n Hfs Hd) as [? Hid]. split; [by constructor|].
    unfold identities in Hid |- *. simpl. by rewrite <- Hid.
Qed.

Lemma add_file_ok kind path files seen lines move_path file_kind seen' rest :
  loop_ok files seen -> path_ok path = true ->
  (lexical_path_identity path ∈ seen -> replacement_index kind path files <> None) ->
  parse_entry kind (lexical_path_identity path :: seen) lines
    = Ok (move_path, file_kind, seen', rest) ->
  loop_ok (add_file (replacement_index kind path files) path move_path file_kind files) seen'.
Proof.
  intros (Hf & Hnd & Hseen) Hp Hnew H.
  eapply parse_entry_ok in H as (Hok & -> & Hm & Hadd); [|done].
  destruct (replacement_index kind path files) as [n|] eqn:Er; simpl.
  - destruct kind; simpl in Er; try done. destruct Hadd as [Hadd _].
    destruct Hadd as (l & nn & ->); [done|].
    destruct (list_find _ files) as [[n' f]|] eqn:Ef; [|done]. simplify_eq/=.
    apply list_find_Some in Ef as (Hl & Hdel & _). unfold is_delete_of in Hdel. boolhyps.
    destruct (replace_ok n l nn files Hf) as [Hf' Hid].
    { intros f' Hf'. by simplify_eq. }
    unfold loop_ok. rewrite Hid. split_and!; [done..|].
    intros i Hi. apply elem_of_app. right. apply list_elem_of_further. auto.
  - unfold loop_ok. rewrite identities_app. simpl. rewrite app_nil_r.
    assert (Hid : lexical_path_identity path ∉ identities files).
    { intros Hin. by apply (Hnew (Hseen _ Hin)). }
    split_and!.
    + apply Forall_app. split; [done|]. by apply Forall_singleton.
    + apply NoDup_app. split_and!; [done| |].
      * intros x Hx [->|Hx2]%elem_of_cons; [done|].
        destruct move_path as [m|]; simpl in Hx2; [|by apply not_elem_of_nil in Hx2].
        apply list_elem_of_singleton in Hx2 as ->. apply (Hm m eq_refl).
        apply list_elem_of_further. auto.
      * destruct move_path as [m|]; simpl; [|apply NoDup_singleton].
        apply NoDup_cons. split; [|apply NoDup_singleton].
        intros Heq%list_elem_of_singleton. apply (Hm m eq_refl). rewrite Heq. apply list_elem_of_here.
    + intros i [Hi|[->|Hi]%elem_of_cons]%elem_of_app; apply elem_of_app.
      * right. apply list_elem_of_further. auto.
      * right. apply list_elem_of_here.
      * by left.
Qed.

Lemma parse_entries_ok fuel : forall files seen lines r,
  parse_entries fuel files seen lines = Ok r -> loop_ok files seen ->
  exists seen', loop_ok r.1 seen'.
Proof.
  induction fuel as [|fuel IH]; intros files seen lines r H Hl; simpl in H; [done|].
  destruct lines as [|line rest]; [done|]. case_match; [simplify_eq/=; eauto|].
  case_match; [by eapply IH|].
  destruct (entry_header line) as [[kind path]|] eqn:Eh; [|done]. simpl in H.
  apply entry_header_ok in Eh. case_match eqn:Ed; [done|].
  destruct (parse_entry _ _ _) as [[[[m fk] seen'] rest']|] eqn:Ee; [|done]. simpl in H.
  eapply IH; [done|]. eapply add_file_ok; [done..| |done].
  intros Hin Hnone. rewrite Hnone, bool_decide_eq_true_2 in Ed by done. done.
Qed.

Lemma parse_ok input p : parse input = Ok p -> patch_ok p.
Proof.
  unfold parse. destruct (patch_lines input) as [|first lines]; [done|].
  case_match; [done|]. destruct (parse_entries _ _ _ _) as [[files rest]|] eqn:E; [|done]. simpl.
  case_match; [done|]. intros Hp. assert (files = p /\ p <> []) as [-> Hne].
  { destruct files; [done|]. by simplify_eq. }
  apply parse_entries_ok in E as [seen (? & ? & _)].
  - by split.
  - split_and!; [constructor|constructor|]. intros i Hi. by apply not_elem_of_nil in Hi.
Qed.

(** C40 (type): a patch that parses names at least one file; its paths are non-empty and
    have no NUL, line feed or carriage return; no source or move target is named twice, however it is
    spelled; only updates move; and every update has hunks, with a legal header and body
    lines that each begin with a space, a plus or a minus. *)
Theorem parse_well_formed input p : parse input = Ok p -> patch_ok p.
Proof. apply parse_ok. Qed.

(** ** Parsing ends *)

(** No error of the source reads like the marker for exhausted fuel. *)
Definition no_fuel_error {A} (r : result string A) : Prop := r <> Err "out of fuel".

Lemma hunk_body_fuel lines : forall body nn, no_fuel_error (hunk_body body nn lines).
Proof.
  unfold no_fuel_error. induction lines as [|line lines IH]; intros body nn; simpl; [done|].
  repeat (case_match; [done || apply IH|]). done.
Qed.

Lemma hunk_body_rest lines : forall body nn r,
  hunk_body body nn lines = Ok r -> (length r.2 <= length lines)%nat.
Proof.
  induction lines as [|line lines IH]; intros body nn r H; simpl in H; [by simplify_eq|].
  case_match; [by simplify_eq|]. case_match; [simplify_eq/=; lia|].
  repeat (case_match; [apply IH in H; simpl; lia|]). done.
Qed.

(** A body that begins with a line of the hunk consumes it. *)
Lemma hunk_body_progress line lines r :
  hunk_body [] false (line :: lines) = Ok r ->
  starts_with "@@" line || is_file_header line || is_end_marker line = false ->
  (length r.2 <= length lines)%nat.
Proof.
  intros H Hb. simpl in H. rewrite Hb in H. case_match; [by simplify_eq|].
  repeat (case_match; [by apply hunk_body_rest in H|]). done.
Qed.

Lemma update_hunks_rest fuel : forall hunks lines r,
  update_hunks fuel hunks lines = Ok r -> (length r.2 <= length lines)%nat.
Proof.
  induction fuel as [|fuel IH]; intros hunks lines r H; simpl in H; [done|].
  destruct lines as [|line rest]; [by simplify_eq|].
  case_match; [apply IH in H; simpl; lia|]. case_match; [by simplify_eq|].
  destruct (starts_with "@@" line) eqn:Ea; [|destruct (is_hunk_line line); [|done]]; cbn beta iota in H.
  all: destruct (hunk_body _ _ _) as [[[[body eof] nn] rest2]|] eqn:Eb; [|done].
  all: destruct (validate_hunk _ _); [|done]; apply IH in H; simpl in H.
  all: apply hunk_body_rest in Eb; simpl in *; lia.
Qed.

Lemma update_hunks_fuel fuel : forall hunks lines,
  (length lines < fuel)%nat -> no_fuel_error (update_hunks fuel hunks lines).
Proof.
  unfold no_fuel_error. induction fuel as [|fuel IH]; intros hunks lines Hf; [lia|]. simpl.
  destruct lines as [|line rest]; [done|]. simpl in Hf.
  case_match; [apply IH; lia|]. case_match eqn:Em; [done|].
  destruct (starts_with "@@" line) eqn:Ea; [|destruct (is_hunk_line line); [|done]].
  - destruct (hunk_body _ _ _) as [[[[body eof] nn] rest2]|e] eqn:Eb.
    + destruct (validate_hunk line body) as [|e] eqn:Ev.
      * apply IH. apply hunk_body_rest in Eb. simpl in Eb. lia.
      * unfold validate_hunk in Ev. repeat case_match; by simplify_eq/=.
    + intros [= ->]. by apply hunk_body_fuel in Eb.
  - destruct (hunk_body _ _ _) as [[[[body eof] nn] rest2]|e] eqn:Eb.
    + destruct (validate_hunk _ body) as [|e] eqn:Ev.
      * apply IH. apply hunk_body_progress in Eb; [simpl in Eb; lia|].
        rewrite Ea. by simpl.
      * unfold validate_hunk in Ev. repeat case_match; by simplify_eq/=.
    + intros [= ->]. by apply hunk_body_fuel in Eb.
Qed.

Lemma parse_add_lines_spec lines : forall content nn,
  no_fuel_error (parse_add_lines content nn lines) /\
  (forall r, parse_add_lines content nn lines = Ok r -> (length r.2 <= length lines)%nat).
Proof.
  unfold no_fuel_error. induction lines as [|line lines IH]; intros content nn; simpl.
  { split; [done|]. intros. by simplify_eq. }
  case_match; [split; [done|intros; by simplify_eq]|].
  repeat (case_match; [split; [apply IH|intros r Hr; apply IH in Hr; lia]|]). done.
Qed.

Lemma parse_path_fuel s : no_fuel_error (parse_path s).
Proof. unfold no_fuel_error, parse_path. by case_match. Qed.

Lemma entry_header_fuel line : no_fuel_error (entry_header line).
Proof.
  unfold no_fuel_error, entry_header. intros H. assert (Hp := parse_path_fuel).
  repeat (case_hyp H; simplify_eq/=); by eapply Hp.
Qed.

Lemma parse_entry_fuel kind seen lines : no_fuel_error (parse_entry kind seen lines).
Proof.
  unfold no_fuel_error, parse_entry. destruct kind.
  - destruct (parse_move lines) as [[m lines']|e] eqn:Em.
    + unfold parse_update_hunks.
      assert (Hu := update_hunks_fuel (S (length lines')) [] lines' ltac:(lia)).
      destruct (update_hunks _ _ _) as [[hunks r]|e] eqn:Eu; [|by intros [= ->]].
      destruct hunks, m; try done; by case_match.
    + unfold parse_move in Em. destruct lines; [done|]. destruct (strip_prefix _ _) as [path|]; [|done].
      assert (Hp := parse_path_fuel path). destruct (parse_path path); [done|]. simplify_eq/=.
      by intros [= ->].
  - destruct (parse_add_lines_spec lines [] false) as [Ha _].
    destruct (parse_add_lines _ _ _) as [[[c nn] r]|]; [done|]. by intros [= ->].
  - by case_match.
Qed.

Lemma parse_entry_rest kind seen lines m k seen' rest :
  parse_entry kind seen lines = Ok (m, k, seen', rest) -> (length rest <= length lines)%nat.
Proof.
  unfold parse_entry. destruct kind.
  - destruct (parse_move lines) as [[m' lines']|e] eqn:Em; [|done].
    assert (length lines' <= length lines)%nat.
    { unfold parse_move in Em. destruct lines; [by simplify_eq|].
      destruct (strip_prefix _ _) as [path|]; [|by simplify_eq].
      destruct (parse_path path); simplify_eq/=. lia. }
    unfold parse_update_hunks. destruct (update_hunks _ _ _) as [[hunks r]|e] eqn:Eu; [|done].
    apply update_hunks_rest in Eu. simpl in Eu. intros.
    destruct hunks, m'; try done; repeat case_match; simplify_eq/=; lia.
  - destruct (parse_add_lines_spec lines [] false) as [_ Ha].
    destruct (parse_add_lines _ _ _) as [[[c nn] r]|]; [|done]. intros. simplify_eq/=.
    by specialize (Ha _ eq_refl).
  - case_match; [done|]. intros. by simplify_eq.
Qed.

Lemma parse_entries_fuel fuel : forall files seen lines,
  (length lines < fuel)%nat -> no_fuel_error (parse_entries fuel files seen lines).
Proof.
  unfold no_fuel_error. induction fuel as [|fuel IH]; intros files seen lines Hf; [lia|]. simpl.
  destruct lines as [|line rest]; [done|]. simpl in Hf. case_match; [done|].
  case_match; [apply IH; lia|]. assert (He := entry_header_fuel line).
  destruct (entry_header line) as [[kind path]|]; [|by intros [= ->]].
  case_match; [done|].
  assert (Hp := parse_entry_fuel kind (lexical_path_identity path :: seen) rest).
  destruct (parse_entry _ _ _) as [[[[m k] seen'] rest']|] eqn:Ee; [|by intros [= ->]].
  apply parse_entry_rest in Ee. apply IH. lia.
Qed.

(** The parser's loops over entries and over hunks advance at every
    turn, so one unit of fuel per line is enough for every input. *)
Theorem parse_terminates input : no_fuel_error (parse input).
Proof.
  unfold no_fuel_error, parse. destruct (patch_lines input) as [|first lines]; [done|].
  case_match; [done|].
  assert (Hf := parse_entries_fuel (S (length lines)) [] [] lines ltac:(lia)).
  destruct (parse_entries _ _ _ _) as [[files rest]|]; [|by intros [= ->]]. simpl.
  case_match; [done|]. by destruct files.
Qed.

(** The hunks of a parsed patch always split into what they remove and write. *)
Lemma changes_loop_total lines : forall old new previous nn,
  forallb hunk_byte lines = true -> exists c, changes_loop old new previous nn lines = Ok c.
Proof.
  induction lines as [|l lines IH]; intros old new previous nn H; [eexists; reflexivity|].
  simpl in H. apply andb_true_iff in H as [Hl H]. simpl. case_match; [auto|].
  destruct l as [|a l]; [done|]. unfold hunk_byte, starts_with_byte, first_byte in Hl. simpl in Hl.
  rewrite orb_false_r, !orb_true_iff, !N.eqb_eq in Hl. destruct Hl as [->|[->| ->]]; simpl; auto.
Qed.

Lemma hunk_changes_total h : hunk_ok h = true -> exists c, hunk_changes h = Ok c.
Proof. unfold hunk_ok. intros H. boolhyps. by apply changes_loop_total. Qed.

(** ** Witnesses *)

Lemma locate_hunk_unique_witness : locate_hunk ["a"; "b"; "c"] ["b"] 0 None false = Ok 1%nat.
Proof.
  apply (locate_hunk_unique ["a"; "b"; "c"] ["b"] 0 false 1); [discriminate|simpl; lia|].
  split; [lia|]. split; [split; [split; [simpl; lia|reflexivity]|discriminate]|].
  intros s _ [[Hs Hw] _]. destruct s as [|[|[|s]]]; [discriminate Hw|reflexivity|discriminate Hw|].
  simpl in Hs. lia.
Defined.

Lemma apply_hunks_refines_witness :
  exists changes gaps, length gaps = 2%nat /\
    (split_lines (patch_text ["zero"; "one"; "two"; ""])).1 = weave gaps (removed <$> changes).
Proof.
  destruct (apply_hunks_refines (patch_text ["zero"; "one"; "two"; ""])
    [mkHunk "@@" None [" one"; "-two"; "+2"] false false] (patch_text ["zero"; "one"; "2"; ""]))
    as (changes & gaps & _ & Hl & Hs & _); [vm_compute; reflexivity|].
  exists changes, gaps. split; assumption.
Defined.

Lemma parse_well_formed_witness :
  patch_ok [mkPatchFile "a.txt" None (Update [mkHunk "@@" None [" one"; "-two"; "+2"] false false])].
Proof.
  apply (parse_well_formed (patch_text ["*** Begin Patch"; "*** Update File: a.txt"; "@@"; " one";
    "-two"; "+2"; "*** End Patch"])).
  vm_compute. reflexivity.
Defined.
