(* ===== verification/PatchText.v ===== *)
(** * Writing patches down and reading them back

    The text form of a patch of [ModelPatch.v] and the proof that
    [model_patch.rs]'s [parse] inverts it. *)
From S2P Require Import Prelude RustStr Utf8 TaskContract ModelPatch.
Open Scope N_scope.

(** ** Printing and parsing back *)

Definition no_newline_line : string := "\ No newline at end of file".

(** The text a patch is written as. *)
Definition print_hunk (h : ModelPatchHunk) : list string :=
  hunk_header h :: hunk_lines h
  ++ (if new_no_newline h then [no_newline_line] else [])
  ++ (if end_of_file h then ["*** End of File"] else []).

Definition print_add (path : string) (lines : list string) (no_newline : bool) : list string :=
  ("*** Add File: " +:+ path) :: ((fun l => "+" +:+ l) <$> lines)
  ++ (if no_newline then [no_newline_line] else []).

Definition print_file (f : ModelPatchFile) : list string :=
  match pf_kind f with
  | Update hunks =>
      ("*** Update File: " +:+ pf_path f)
      :: option_list ((fun m => "*** Move to: " +:+ m) <$> pf_move_path f)
      ++ flat_map print_hunk hunks
  | Add lines no_newline => print_add (pf_path f) lines no_newline
  | Replace lines no_newline =>
      ("*** Delete File: " +:+ pf_path f) :: print_add (pf_path f) lines no_newline
  | Delete => ["*** Delete File: " +:+ pf_path f]
  end.

Definition print_patch (p : ModelPatch) : string :=
  patch_text ("*** Begin Patch" :: flat_map print_file p ++ ["*** End Patch"]).

(** The patches that can be written: a line of text has no line break, a hunk line does
    not read like a marker, paths are trimmed. *)
Definition text_line (l : string) : bool :=
  negb (has_byte [10] l) && match strip_suffix_char carriage_return l with None => true | _ => false end.

Definition plain_line (l : string) : bool :=
  hunk_byte l && negb (is_end_marker l) && negb (is_end_of_file_marker l)
  && negb (is_no_newline_marker l).

Definition hunk_printable (h : ModelPatchHunk) : bool :=
  header_ok (hunk_header h) && text_line (hunk_header h)
  && bool_decide (hunk_context (hunk_header h) = hunk_context_line h)
  && forallb plain_line (hunk_lines h) && forallb text_line (hunk_lines h)
  && (negb (new_no_newline h) || marker_is_new (hunk_lines h)).

Definition path_printable (path : string) : bool :=
  path_ok path && bool_decide (trim path = path).

Definition add_printable (lines : list string) : bool :=
  forallb (fun l => text_line ("+" +:+ l)) lines.

Definition file_printable (f : ModelPatchFile) : bool :=
  path_printable (pf_path f) && from_option path_printable true (pf_move_path f)
  && match pf_kind f with
     | Update hunks => negb (bool_decide (hunks = [])) && forallb hunk_printable hunks
     | Add lines _ | Replace lines _ => bool_decide (pf_move_path f = None) && add_printable lines
     | Delete => bool_decide (pf_move_path f = None)
     end.

Definition patch_printable (p : ModelPatch) : Prop :=
  p <> [] /\ Forall (fun f => file_printable f = true) p /\ NoDup (identities p).

(** *** Lines that begin with a printing ASCII character *)

Lemma chars_ascii_cons a s : (byte_of a <? 128) = true -> chars (String a s) = byte_of a :: chars s.
Proof. intros H. simpl. by rewrite H. Qed.

Lemma trim_lead a s :
  (byte_of a <? 128) = true -> is_whitespace (byte_of a) = false ->
  exists k, trim (String a s) = of_chars (take (S k) (chars (String a s))).
Proof.
  intros Ha Hw. unfold trim, trim_matches_chars. rewrite chars_ascii_cons by done.
  simpl drop_while at 2. rewrite Hw. rewrite reverse_cons.
  assert (Hd : forall l, exists k, drop_while is_whitespace (l ++ [byte_of a]) = drop k (l ++ [byte_of a])
                             /\ (k <= length l)%nat).
  { induction l as [|x l [k [IH ?]]]; simpl.
    - exists 0%nat. by rewrite Hw.
    - destruct (is_whitespace x); [exists (S k)|exists 0%nat]; split; simpl; auto with lia. }
  destruct (Hd (reverse (chars s))) as [k [-> Hk]]. rewrite length_reverse in Hk.
  exists (length (chars s) - k)%nat. f_equal. rewrite <- reverse_cons, reverse_drop, reverse_involutive.
  f_equal. rewrite length_reverse. simpl. lia.
Qed.

Lemma of_chars_ascii_cons a l :
  (byte_of a <? 128) = true -> of_chars (byte_of a :: l) = String a (of_chars l).
Proof.
  intros H. simpl. unfold encode_char. rewrite H. simpl.
  unfold byte, byte_of. by rewrite Ascii.ascii_N_embedding.
Qed.

(** An ASCII prefix of a text is kept, up to where the text is cut. *)
Lemma get_take_chars p s : forall i n x,
  is_ascii p = true -> String.get i p = Some x ->
  String.get i (of_chars (take n (chars (p +:+ s)))) = Some x \/
  String.get i (of_chars (take n (chars (p +:+ s)))) = None.
Proof.
  induction p as [|a p IH]; intros i n x Ha Hx; [done|]. simpl in Ha.
  apply andb_true_iff in Ha as [Ha Hp]. change (String a p +:+ s) with (String a (p +:+ s)).
  rewrite chars_ascii_cons by done. destruct n as [|n]; [right; by destruct i|].
  simpl take. rewrite of_chars_ascii_cons by done. destruct i as [|i]; [by left|]. simpl. by apply IH.
Qed.

(** Two texts told apart by one character of an ASCII prefix stay apart when trimmed. *)
Lemma trim_apart p s m i :
  is_ascii p = true -> from_option (fun a => negb (is_whitespace (byte_of a))) false (String.get 0 p) = true ->
  match String.get i p, String.get i m with Some x, Some y => negb (Ascii.eqb x y) | _, _ => false end
    = true ->
  trim (p +:+ s) <> m.
Proof.
  intros Ha Hw Hi Heq. destruct p as [|a p]; [done|]. simpl in Hw. apply negb_true_iff in Hw.
  destruct (String.get i (String a p)) as [x|] eqn:Ex; [|done].
  destruct (trim_lead a (p +:+ s)) as [k Hk]; [|done|].
  { simpl in Ha. by apply andb_true_iff in Ha as [? _]. }
  destruct (get_take_chars (String a p) s i (S k) x Ha Ex) as [H|H];
    change (String a p +:+ s) with (String a (p +:+ s)) in *;
    rewrite <- Hk, Heq in H; rewrite H in Hi; [|done].
  by rewrite Ascii.eqb_refl in Hi.
Qed.

Ltac apart i :=
  lazymatch goal with
  | |- bool_decide (trim (?p +:+ ?s) = ?m) = false =>
      apply bool_decide_eq_false_2, (trim_apart p s m i); vm_compute; reflexivity
  end.

(** The first line of an entry, as the loops see it. *)
Definition entry_line (l : string) : Prop :=
  trim_is_empty l = false /\ is_file_header l = true /\ is_end_marker l = false /\
  starts_with "*** Environment ID:" l = false.

Lemma trim_is_empty_lead a s :
  (byte_of a <? 128) = true -> is_whitespace (byte_of a) = false -> trim_is_empty (String a s) = false.
Proof. intros Ha Hw. unfold trim_is_empty. rewrite chars_ascii_cons by done. simpl. by rewrite Hw. Qed.

Lemma entry_lines path :
  entry_line ("*** Update File: " +:+ path) /\ entry_line ("*** Add File: " +:+ path) /\
  entry_line ("*** Delete File: " +:+ path).
Proof.
  unfold entry_line, is_end_marker.
  split_and!; first [apart 4%nat | by apply trim_is_empty_lead | reflexivity].
Qed.

Lemma trim_space s : trim (" " +:+ s) = trim s.
Proof. reflexivity. Qed.

Lemma parse_path_printed path : path_printable path = true -> parse_path (" " +:+ path) = Ok path.
Proof.
  unfold path_printable, path_ok, parse_path. intros H. boolhyps. rewrite trim_space.
  match goal with H : trim path = path |- _ => rewrite H end.
  match goal with H : has_byte _ _ = false |- _ => revert H end.
  change [0; 10; 13] with ([0] ++ [10; 13]). rewrite has_byte_app. intros Hb. boolhyps.
  rewrite bool_decide_eq_false_2 by done.
  by repeat match goal with H : has_byte _ _ = _ |- _ => rewrite H; clear H end.
Qed.

Lemma entry_header_printed path :
  path_printable path = true ->
  entry_header ("*** Update File: " +:+ path) = Ok (EUpdate, path) /\
  entry_header ("*** Add File: " +:+ path) = Ok (EAdd, path) /\
  entry_header ("*** Delete File: " +:+ path) = Ok (EDelete, path).
Proof. intros H%parse_path_printed. unfold entry_header. by split_and!; simpl; rewrite H. Qed.

(** *** Hunks *)

(** What may follow a hunk: another hunk, another entry, or the end. *)
Definition stops (tail : list string) : Prop :=
  match tail with
  | [] => True
  | l :: _ => starts_with "@@" l || is_file_header l || is_end_marker l = true
  end.

(** What may follow an entry. *)
Definition entry_stops (tail : list string) : Prop :=
  match tail with
  | [] => False
  | l :: _ => trim_is_empty l = false /\ is_file_header l || is_end_marker l = true
  end.

Lemma hunk_byte_line l : hunk_byte l = true ->
  starts_with "@@" l = false /\ is_file_header l = false /\ l <> "".
Proof.
  destruct l as [|a l]; [done|]. unfold hunk_byte, starts_with_byte, first_byte. simpl. intros H.
  split_and!; [..|done].
  all: destruct a as [[] [] [] [] [] [] [] []]; first [discriminate H | reflexivity].
Qed.

Lemma validate_hunk_printed header ls :
  header_ok header = true -> forallb plain_line ls = true -> validate_hunk header ls = Ok tt.
Proof.
  intros Hh Hl. unfold validate_hunk, header_ok in *.
  assert (Hn : negb (bool_decide (header = "@@")) && negb (starts_with "@@ " header)
    && negb (starts_with "@@-" header) = false).
  { by destruct (bool_decide _), (starts_with "@@ " _), (starts_with "@@-" _). }
  rewrite Hn. replace (List.find _ ls) with (@None string); [done|]. symmetry.
  induction ls as [|l ls IH]; [done|]. simpl in *. apply andb_true_iff in Hl as [Hl ?].
  unfold plain_line in Hl. boolhyps.
  repeat match goal with H : _ l = _ |- _ => rewrite H; clear H end. by apply IH.
Qed.

Lemma hunk_body_lines ls : forall body nn rest,
  forallb plain_line ls = true -> hunk_body body nn (ls ++ rest) = hunk_body (body ++ ls) nn rest.
Proof.
  induction ls as [|l ls IH]; intros body nn rest H; simpl; [by rewrite app_nil_r|].
  simpl in H. unfold plain_line in H at 1. boolhyps.
  destruct (hunk_byte_line l) as (-> & -> & Hne); [done|].
  repeat match goal with H : _ l = _ |- _ => rewrite H; clear H end.
  rewrite bool_decide_eq_false_2 by done. simpl. rewrite IH by done. by rewrite <- app_assoc.
Qed.

Lemma hunk_body_stops body nn tail : stops tail -> hunk_body body nn tail = Ok (body, false, nn, tail).
Proof. destruct tail as [|l tail]; [done|]. unfold stops. simpl. by intros ->. Qed.

Lemma hunk_body_printed h tail :
  hunk_printable h = true -> stops tail ->
  hunk_body [] false ((hunk_lines h ++ (if new_no_newline h then [no_newline_line] else [])
    ++ (if end_of_file h then ["*** End of File"] else [])) ++ tail)
  = Ok (hunk_lines h, end_of_file h, new_no_newline h, tail).
Proof.
  intros H Ht. unfold hunk_printable in H. boolhyps. rewrite <- !app_assoc.
  rewrite hunk_body_lines by done. simpl.
  assert (Heof : forall nn, hunk_body (hunk_lines h) nn
      ((if end_of_file h then ["*** End of File"] else []) ++ tail)
    = Ok (hunk_lines h, end_of_file h, nn, tail)).
  { intros nn. destruct (end_of_file h); [done|]. by apply hunk_body_stops. }
  destruct (new_no_newline h); [|apply Heof]. simpl in *.
  match goal with H : marker_is_new _ = true |- _ => rewrite H end.
  change (is_no_newline_marker no_newline_line) with true. simpl. apply Heof.
Qed.

Lemma header_ok_line header : header_ok header = true ->
  trim_is_empty header = false /\ starts_with "@@" header = true /\
  is_file_header header || is_end_marker header = false.
Proof.
  intros H. assert (exists s, header = "@@" +:+ s) as [s ->].
  { unfold header_ok in H. rewrite !orb_true_iff in H. destruct H as [[H|H]|H].
    - apply bool_decide_eq_true_1 in H as ->. by exists "".
    - apply starts_with_split in H as [s ->]. by exists (" " +:+ s).
    - apply starts_with_split in H as [s ->]. by exists ("-" +:+ s). }
  split_and!; [by apply trim_is_empty_lead|apply starts_with_app|].
  unfold is_end_marker. replace (is_file_header _) with false by done. simpl orb. apart 0%nat.
Qed.

Lemma update_hunks_printed hunks : forall fuel acc tail,
  (length hunks < fuel)%nat -> forallb hunk_printable hunks = true -> entry_stops tail ->
  update_hunks fuel acc (flat_map print_hunk hunks ++ tail) = Ok (acc ++ hunks, tail).
Proof.
  induction hunks as [|h hunks IH]; intros fuel acc tail Hf Hp Ht; (destruct fuel as [|fuel]; [lia|]).
  - simpl. rewrite app_nil_r. destruct tail as [|l tail]; [done|]. by destruct Ht as [-> ->].
  - simpl in Hp, Hf. apply andb_true_iff in Hp as [Hh Hp]. simpl.
    assert (Hh' := Hh). unfold hunk_printable in Hh'. boolhyps.
    destruct (header_ok_line (hunk_header h)) as (-> & Hat & ->); [done|]. rewrite Hat.
    rewrite <- (app_assoc _ _ tail). rewrite hunk_body_printed; [|done|].
    + replace (validate_hunk _ _) with (Ok tt : result string unit); simpl.
      * rewrite IH by (done || lia). rewrite <- app_assoc. simpl.
        match goal with H : hunk_context _ = _ |- _ => rewrite H end. by destruct h.
      * symmetry. by apply validate_hunk_printed.
    + destruct hunks as [|h2 hunks]; simpl.
      * destruct tail; [done|]. destruct Ht as [_ Ht]. simpl. by rewrite <- orb_assoc, Ht, orb_true_r.
      * simpl in Hp. boolhyps. unfold hunk_printable in *. boolhyps.
        by destruct (header_ok_line (hunk_header h2)) as (_ & -> & _).
Qed.

(** *** Entries *)

Lemma parse_add_lines_printed ls : forall content nn tail,
  parse_add_lines content nn (((fun l => "+" +:+ l) <$> ls) ++ tail)
  = parse_add_lines (content ++ ls) nn tail.
Proof.
  induction ls as [|l ls IH]; intros content nn tail; [by rewrite app_nil_r|].
  change (((fun l => "+" +:+ l) <$> l :: ls) ++ tail)
    with (("+" +:+ l) :: (((fun l => "+" +:+ l) <$> ls) ++ tail)).
  cbn [parse_add_lines].
  replace (is_file_header ("+" +:+ l)) with false by done.
  unfold is_end_marker, is_end_of_file_marker, is_no_newline_marker.
  assert (Hm : forall m i, match String.get i "+", String.get i m with
      Some x, Some y => negb (Ascii.eqb x y) | _, _ => false end = true ->
      bool_decide (trim ("+" +:+ l) = m) = false).
  { intros m i Hi. by apply bool_decide_eq_false_2, (trim_apart "+" l m i). }
  rewrite !(Hm _ 0%nat) by reflexivity. simpl. rewrite IH. by rewrite <- app_assoc.
Qed.

Lemma entry_stops_cases tail : entry_stops tail -> exists l t, tail = l :: t /\
  trim_is_empty l = false /\ is_file_header l || is_end_marker l = true.
Proof. destruct tail; [done|]. naive_solver. Qed.

Lemma parse_add_printed path ls nn tail :
  entry_stops tail ->
  parse_add_lines [] false (tl (print_add path ls nn) ++ tail) = Ok (ls, nn, tail).
Proof.
  intros (l & t & -> & _ & Hl)%entry_stops_cases. unfold print_add. simpl tl.
  rewrite <- app_assoc, parse_add_lines_printed. simpl.
  destruct nn; simpl; [|by rewrite Hl]. 
  change (is_file_header no_newline_line || is_end_marker no_newline_line) with false.
  change (is_end_of_file_marker no_newline_line) with false.
  change (is_no_newline_marker no_newline_line) with true. simpl. by rewrite Hl.
Qed.

(** What the loop knows while it reads a printed patch back. *)
Definition fresh (files fs : list ModelPatchFile) (seen : list (list Component)) : Prop :=
  (forall i, i ∈ identities files -> i ∈ seen) /\ (forall i, i ∈ identities fs -> i ∉ seen) /\
  NoDup (identities fs).

Lemma no_replacement files (seen : list (list Component)) path :
  (forall i, i ∈ identities files -> i ∈ seen) -> lexical_path_identity path ∉ seen ->
  list_find (fun f => is_delete_of path f = true) files = None.
Proof.
  intros Hf Hn. apply list_find_None, Forall_forall. intros f Hin Hd.
  unfold is_delete_of in Hd. boolhyps. subst path. apply Hn, Hf.
  unfold identities. apply list_elem_of_In, in_flat_map. exists f.
  split; [by apply list_elem_of_In|by left].
Qed.

Lemma parse_entries_step fuel files seen line rest kind path :
  entry_line line -> entry_header line = Ok (kind, path) ->
  lexical_path_identity path ∉ seen \/ replacement_index kind path files <> None ->
  parse_entries (S fuel) files seen (line :: rest) =
  (let? (move_path, file_kind, seen, rest) :=
     parse_entry kind (lexical_path_identity path :: seen) rest in
   parse_entries fuel (add_file (replacement_index kind path files) path move_path file_kind files)
     seen rest).
Proof.
  intros (He & _ & Hm & Hv) Hh Hr. cbn [parse_entries]. rewrite Hm, He, Hv, Hh. cbn [orb].
  replace (_ && _) with false; [done|]. symmetry. apply andb_false_iff.
  destruct Hr as [Hr|Hr]; [left; by apply bool_decide_eq_false_2|right].
  by destruct (replacement_index _ _ _).
Qed.

(** The identities an entry adds, once it has been read. *)
Lemma fresh_step f files fs seen extra :
  fresh files (f :: fs) seen ->
  (forall i, i ∈ extra <-> i ∈ identities [f]) -> fresh (files ++ [f]) fs (extra ++ seen).
Proof.
  intros (Hf & Hn & Hnd) He.
  change (identities (f :: fs)) with (identities ([f] ++ fs)) in *. rewrite identities_app in *.
  apply NoDup_app in Hnd as (_ & Hd & Hnd). split_and!; [| |done].
  - intros i. rewrite identities_app, !elem_of_app. rewrite He. naive_solver.
  - intros i Hi [Hx%He|Hx]%elem_of_app; [by eapply Hd|].
    by apply (Hn i); [apply elem_of_app; right|].
Qed.

Lemma parse_move_printed move_path hunks tail :
  from_option path_printable true move_path = true -> hunks <> [] ->
  forallb hunk_printable hunks = true ->
  parse_move (option_list ((fun m => "*** Move to: " +:+ m) <$> move_path)
              ++ flat_map print_hunk hunks ++ tail)
  = Ok (move_path, flat_map print_hunk hunks ++ tail).
Proof.
  intros Hm Hne Hh. destruct move_path as [m|].
  - simpl in Hm. change (parse_move (("*** Move to: " +:+ m) :: flat_map print_hunk hunks ++ tail)
      = Ok (Some m, flat_map print_hunk hunks ++ tail)).
    unfold parse_move. change (strip_prefix _ _) with (Some (" " +:+ m)).
    cbv beta iota. by rewrite parse_path_printed.
  - destruct hunks as [|h hunks]; [done|]. simpl in Hh. apply andb_true_iff in Hh as [Hh _].
    unfold hunk_printable in Hh. boolhyps. destruct (header_ok_line (hunk_header h)) as (_ & Hat & _); [done|].
    apply starts_with_split in Hat as [t Ht]. simpl. by rewrite Ht.
Qed.

Lemma printed_update fuel path move_path hunks files seen tail :
  file_printable (mkPatchFile path move_path (Update hunks)) = true ->
  fresh files [mkPatchFile path move_path (Update hunks)] seen -> entry_stops tail ->
  parse_entries (S fuel) files seen (print_file (mkPatchFile path move_path (Update hunks)) ++ tail)
  = parse_entries fuel (files ++ [mkPatchFile path move_path (Update hunks)])
      ((option_list (lexical_path_identity <$> move_path) ++ [lexical_path_identity path]) ++ seen) tail.
Proof.
  intros Hp (Hf & Hn & Hnd) Ht. unfold file_printable in Hp. simpl in Hp. boolhyps.
  destruct (entry_lines path) as (Hline & _). destruct (entry_header_printed path) as (Hh & _); [done|].
  unfold print_file. cbn [pf_kind pf_path pf_move_path]. rewrite <- app_comm_cons.
  rewrite (parse_entries_step _ _ _ _ _ _ _ Hline Hh).
  2: { left. apply Hn. simpl. apply list_elem_of_here. }
  unfold replacement_index. cbn [parse_entry].
  assert (Hu : parse_update_hunks (flat_map print_hunk hunks ++ tail) = Ok (hunks, tail)).
  { unfold parse_update_hunks. rewrite update_hunks_printed; [by destruct hunks| |done..].
    rewrite length_app. assert (Hl : forall hs, (length hs <= length (flat_map print_hunk hs))%nat).
    { induction hs; simpl; [lia|]. rewrite length_app. lia. } specialize (Hl hunks). lia. }
  rewrite <- app_assoc, parse_move_printed by done. cbn beta iota. rewrite Hu.
  destruct move_path as [m|]; [|done]. cbn beta iota.
  rewrite bool_decide_eq_false_2; [done|].
  intros [Heq|Hin]%elem_of_cons.
  - simpl in Hnd. apply NoDup_cons in Hnd as [Hnd _]. apply Hnd. rewrite Heq. apply list_elem_of_here.
  - eapply Hn; [|exact Hin]. simpl. apply list_elem_of_further, list_elem_of_here.
Qed.

Lemma printed_add fuel path ls nn files seen tail :
  path_printable path = true ->
  (forall i, i ∈ identities files -> i ∈ seen) -> lexical_path_identity path ∉ seen ->
  entry_stops tail ->
  parse_entries (S fuel) files seen (print_add path ls nn ++ tail)
  = parse_entries fuel (files ++ [mkPatchFile path None (Add ls nn)])
      (lexical_path_identity path :: seen) tail.
Proof.
  intros Hp Hf Hn Ht. destruct (entry_lines path) as (_ & Hline & _).
  destruct (entry_header_printed path) as (_ & Hh & _); [done|].
  assert (Ha := parse_add_printed path ls nn tail Ht). unfold print_add in *. simpl tl in Ha.
  rewrite <- app_comm_cons, (parse_entries_step _ _ _ _ _ _ _ Hline Hh) by (by left).
  unfold replacement_index. rewrite (no_replacement files seen path) by done.
  cbn [parse_entry]. by rewrite Ha.
Qed.

Lemma printed_delete fuel path files seen tail :
  path_printable path = true -> lexical_path_identity path ∉ seen -> entry_stops tail ->
  parse_entries (S fuel) files seen (("*** Delete File: " +:+ path) :: tail)
  = parse_entries fuel (files ++ [mkPatchFile path None Delete])
      (lexical_path_identity path :: seen) tail.
Proof.
  intros Hp Hn (l & t & -> & _ & Hl)%entry_stops_cases. destruct (entry_lines path) as (_ & _ & Hline).
  destruct (entry_header_printed path) as (_ & _ & Hh); [done|].
  rewrite (parse_entries_step _ _ _ _ _ _ _ Hline Hh) by (by left). cbn [parse_entry]. simpl.
  by destruct (is_file_header l), (is_end_marker l).
Qed.

(** An addition after a deletion of the same path is read back as a replacement. *)
Lemma printed_replacement fuel path ls nn files seen tail :
  path_printable path = true ->
  (forall i, i ∈ identities files -> i ∈ seen) -> lexical_path_identity path ∉ seen ->
  entry_stops tail ->
  parse_entries (S fuel) (files ++ [mkPatchFile path None Delete]) (lexical_path_identity path :: seen)
    (print_add path ls nn ++ tail)
  = parse_entries fuel (files ++ [mkPatchFile path None (Replace ls nn)])
      (lexical_path_identity path :: lexical_path_identity path :: seen) tail.
Proof.
  intros Hp Hf Hn Ht. destruct (entry_lines path) as (_ & Hline & _).
  destruct (entry_header_printed path) as (_ & Hh & _); [done|].
  assert (Ha := parse_add_printed path ls nn tail Ht). unfold print_add in *. simpl tl in Ha.
  assert (Hr : replacement_index EAdd path (files ++ [mkPatchFile path None Delete]) = Some (length files)).
  { unfold replacement_index. rewrite list_find_app_r by by eapply no_replacement.
    simpl. rewrite decide_True; [done|].
    unfold is_delete_of. simpl. by rewrite bool_decide_eq_true_2. }
  rewrite <- app_comm_cons, (parse_entries_step _ _ _ _ _ _ _ Hline Hh) by (right; by rewrite Hr).
  rewrite Hr. cbn [parse_entry]. rewrite Ha. cbn beta iota. unfold add_file.
  f_equal. rewrite <- (Nat.add_0_r (length files)). by rewrite alter_app_r.
Qed.

(** *** Text *)

Lemma split_patch_text lines :
  lines <> [] -> forallb text_line lines = true -> split_on newline (patch_text lines) = lines.
Proof.
  intros Hne Hl. apply split_on_join; [done|]. rewrite forallb_forall in Hl |- *.
  intros l Hin%Hl. unfold text_line in Hin. by apply andb_true_iff in Hin as [? _].
Qed.

Lemma strip_returns lines :
  forallb text_line lines = true ->
  (fun l => default l (strip_suffix_char carriage_return l)) <$> lines = lines.
Proof.
  induction lines as [|l lines IH]; [done|]. intros [Hl H]%andb_true_iff.
  rewrite fmap_cons, IH by done. unfold text_line in Hl. boolhyps. by destruct (strip_suffix_char _ l).
Qed.

Lemma drop_while_first {A} (f : A -> bool) x l :
  f x = false -> drop_while f (x :: l) = x :: l.
Proof. intros H. simpl. by rewrite H. Qed.

Lemma patch_lines_printed body :
  forallb text_line body = true ->
  patch_lines (patch_text ("*** Begin Patch" :: body ++ ["*** End Patch"]))
  = "*** Begin Patch" :: body ++ ["*** End Patch"].
Proof.
  intros H. unfold patch_lines.
  assert (Ht : forallb text_line ("*** Begin Patch" :: body ++ ["*** End Patch"]) = true).
  { simpl. by rewrite forallb_app, H. }
  rewrite split_patch_text, strip_returns by done.
  rewrite (drop_while_first trim_is_empty) by done. rewrite app_comm_cons.
  rewrite reverse_snoc, drop_while_first by done. by rewrite reverse_cons, reverse_involutive.
Qed.

Lemma strip_suffix_app c p s : s <> "" ->
  strip_suffix_char c s = None -> strip_suffix_char c (p +:+ s) = None.
Proof.
  intros Hne Hs. induction p as [|a p IH]; [done|]. simpl.
  destruct (p +:+ s) eqn:E; [by destruct p, s|]. rewrite <- E in IH |- *.
  rewrite E. rewrite E in IH. by rewrite IH.
Qed.

Lemma strip_suffix_byte c s : has_byte [byte_of c] s = false -> strip_suffix_char c s = None.
Proof.
  induction s as [|a s IH]; [done|]. simpl. intros H. boolhyps.
  destruct s as [|b s].
  - destruct (Ascii.eqb a c) eqn:E; [|done]. apply Ascii.eqb_eq in E as ->. by rewrite N.eqb_refl in *.
  - by rewrite IH.
Qed.

Lemma text_line_path p path :
  has_byte [10] p = false -> path_printable path = true -> text_line (p +:+ path) = true.
Proof.
  unfold path_printable, path_ok, text_line. intros Hp H. boolhyps.
  rewrite has_byte_str_app, Hp.
  match goal with H : has_byte _ _ = false |- _ => revert H end.
  change [0; 10; 13] with ([0] ++ [10] ++ [13]). rewrite !has_byte_app. intros Hb. boolhyps.
  match goal with H : has_byte [10] _ = false |- _ => rewrite H end. simpl.
  rewrite strip_suffix_app; [done|done|]. by apply strip_suffix_byte.
Qed.

Lemma print_hunk_text h : hunk_printable h = true -> forallb text_line (print_hunk h) = true.
Proof.
  unfold hunk_printable, print_hunk. intros H. boolhyps. simpl. rewrite !forallb_app.
  repeat match goal with H : _ = true |- _ => rewrite H; clear H end.
  by destruct (new_no_newline h), (end_of_file h).
Qed.

Lemma print_add_text path ls nn :
  path_printable path = true -> add_printable ls = true ->
  forallb text_line (print_add path ls nn) = true.
Proof.
  intros Hp Hl. unfold print_add. cbn [forallb]. rewrite text_line_path, forallb_app by done.
  replace (forallb text_line ((fun l => "+" +:+ l) <$> ls)) with true; [by destruct nn|].
  symmetry. induction ls as [|l ls IH]; [done|]. unfold add_printable in *. cbn [forallb] in Hl.
  apply andb_true_iff in Hl as [Hl Hls]. rewrite fmap_cons. cbn [forallb]. by rewrite Hl, IH.
Qed.

Lemma flat_map_text {A} (print : A -> list string) (ok : A -> bool) l :
  (forall x, ok x = true -> forallb text_line (print x) = true) ->
  forallb ok l = true -> forallb text_line (flat_map print l) = true.
Proof.
  intros Hx. induction l as [|x l IH]; [done|]. simpl. intros [Hok Hl]%andb_true_iff.
  by rewrite forallb_app, Hx, IH.
Qed.

Lemma print_file_text f : file_printable f = true -> forallb text_line (print_file f) = true.
Proof.
  unfold file_printable, print_file. intros H. boolhyps.
  destruct (pf_kind f) as [hunks|ls nn|ls nn|]; boolhyps.
  - cbn [forallb]. rewrite text_line_path, forallb_app by done.
    replace (forallb text_line (option_list _)) with true.
    + rewrite andb_true_l. by eapply flat_map_text; [apply print_hunk_text|].
    + symmetry. destruct (pf_move_path f) as [m|]; [|done].
      change (text_line ("*** Move to: " +:+ m) && true = true). by rewrite text_line_path.
  - by apply print_add_text.
  - cbn [forallb]. by rewrite text_line_path, print_add_text.
  - cbn [forallb]. by rewrite text_line_path.
Qed.

(** *** The whole patch *)

Lemma printed_file f files fs seen tail fuel :
  file_printable f = true -> fresh files (f :: fs) seen -> entry_stops tail ->
  (length (print_file f ++ tail) < fuel)%nat ->
  exists fuel' seen', (length tail < fuel')%nat /\ fresh (files ++ [f]) fs seen' /\
    parse_entries fuel files seen (print_file f ++ tail) = parse_entries fuel' (files ++ [f]) seen' tail.
Proof.
  intros Hp Hfr Ht Hl. assert (Hfr1 : fresh files [f] seen).
  { destruct Hfr as (? & Hn & Hnd). change (f :: fs) with ([f] ++ fs) in *.
    rewrite identities_app in *. apply NoDup_app in Hnd as (? & _ & _).
    split_and!; [done| |done]. intros i Hi. apply Hn, elem_of_app. by left. }
  assert (Hf := proj1 Hfr). assert (Hn : lexical_path_identity (pf_path f) ∉ seen).
  { apply (proj1 (proj2 Hfr1)). simpl. apply list_elem_of_here. }
  destruct f as [path m [hunks|ls nn|ls nn|]]; assert (Hp' := Hp); unfold file_printable in Hp';
    simpl in Hp', Hn; boolhyps; try subst m; (destruct fuel as [|fuel]; [lia|]).
  - exists fuel. eexists. split_and!; [| |by apply printed_update].
    + rewrite length_app in Hl. simpl in Hl. lia.
    + apply fresh_step; [done|]. intros i. unfold identities. simpl. rewrite app_nil_r. set_solver.
  - exists fuel. eexists. split_and!; [| |by apply printed_add].
    + rewrite length_app in Hl. simpl in Hl. lia.
    + apply (fresh_step _ _ _ _ [lexical_path_identity path]); done.
  - change (length (("*** Delete File: " +:+ path) :: print_add path ls nn ++ tail) < S fuel)%nat in Hl.
    cbn [length] in Hl. rewrite length_app in Hl. destruct fuel as [|fuel]; [lia|].
    exists fuel, ([lexical_path_identity path; lexical_path_identity path] ++ seen). split_and!.
    + unfold print_add in Hl. cbn [length] in Hl. lia.
    + apply fresh_step; [done|]. intros i. simpl. set_solver.
    + unfold print_file. cbn [pf_kind pf_path]. rewrite <- app_comm_cons.
      rewrite printed_delete by done. by apply printed_replacement.
  - exists fuel, ([lexical_path_identity path] ++ seen). split_and!.
    + rewrite length_app in Hl. simpl in Hl. lia.
    + by apply fresh_step.
    + by apply printed_delete.
Qed.

Lemma print_file_stops f tail : entry_stops (print_file f ++ tail).
Proof.
  destruct (entry_lines (pf_path f)) as ((? & Hu & _) & (? & Ha & _) & (? & Hd & _)).
  unfold print_file, print_add. destruct (pf_kind f); rewrite <- app_comm_cons; unfold entry_stops;
    split; try done; by rewrite ?Hu, ?Ha, ?Hd.
Qed.

Lemma parse_entries_printed fs : forall files seen fuel,
  Forall (fun f => file_printable f = true) fs -> fresh files fs seen ->
  (length (flat_map print_file fs ++ ["*** End Patch"]) < fuel)%nat ->
  parse_entries fuel files seen (flat_map print_file fs ++ ["*** End Patch"]) = Ok (files ++ fs, []).
Proof.
  induction fs as [|f fs IH]; intros files seen fuel Hp Hfr Hl.
  - destruct fuel; [simpl in Hl; lia|]. by rewrite app_nil_r.
  - inversion Hp; subst. cbn [flat_map] in *. rewrite <- app_assoc in *.
    destruct (printed_file f files fs seen (flat_map print_file fs ++ ["*** End Patch"]) fuel)
      as (fuel' & seen' & Hl' & Hfr' & ->); [done|done| |done|].
    + destruct fs; [done|]. cbn [flat_map]. rewrite <- app_assoc. apply print_file_stops.
    + rewrite IH by done. by rewrite <- app_assoc.
Qed.

(** C39 (roundtrip): a patch in printable form is read back exactly as it was written:
    paths, moves, hunk headers with their context, body lines, end-of-file anchors,
    final-newline markers and the merged delete-and-add of a replacement. *)
Theorem parse_print_roundtrip p : patch_printable p -> parse (print_patch p) = Ok p.
Proof.
  intros (Hne & Hp & Hnd). unfold parse, print_patch. rewrite patch_lines_printed.
  - rewrite parse_entries_printed; [by destruct p|done| |lia].
    split_and!; [..|done]; intros i Hi; [by apply not_elem_of_nil in Hi|apply not_elem_of_nil].
  - apply (flat_map_text print_file file_printable); [apply print_file_text|].
    clear Hne Hnd. induction Hp as [|f fs Hf]; [done|]. simpl. by rewrite Hf.
Qed.

(** ** Witness *)

Abbreviation sample_patch := [
  mkPatchFile "src/a.rs" (Some "src/b.rs")
    (Update [mkHunk "@@ fn main" (Some "fn main") [" one"; "-two"; "+2"] false true;
             mkHunk "@@ -7 +7 @@" None ["+end"] true false]);
  mkPatchFile "c.txt" None (Replace ["x"; ""] true);
  mkPatchFile "old" None Delete].

Lemma parse_print_roundtrip_witness : parse (print_patch sample_patch) = Ok sample_patch.
Proof.
  apply (parse_print_roundtrip sample_patch). split; [discriminate|].
  split; [repeat constructor|]. apply (bool_decide_unpack _). vm_compute. exact I.
Defined.
