(* ===== verification/PatchTool.v ===== *)
(** * Preparing a patch for [git apply]

    The rest of [golutra-agent-tools/src/model_patch.rs], which renders a parsed patch
    as a unified diff, and the part of [golutra-agent-tools/src/lib.rs] that reads the
    files it needs through the path policy ([normalize_model_patch], [resolve_tool_path])
    and lists the paths a patch names ([patch_paths]). The diff body of the [similar]
    crate, the contents of files and the output of [git apply --numstat] are arguments. *)
From S2P Require Import Prelude RustStr Core TaskContract PathPolicy ModelPatch.
Open Scope N_scope.

(*@ tools/src/lib.rs ToolError *)
Inductive ToolError :=
| UnknownTool (name : string)
| InvalidArguments (message : string)
| Execution (message : string)
| ExternalRegistration (message : string).

(** A call that does not return a value: an error, or the panic of [ModelPatch.v]. *)
Inductive ToolFault := Tool (error : ToolError) | ToolPanicked.

(** ** Rendering *)

(** [BTreeMap<PathBuf, Vec<u8>>]: keys compare by components. *)
Definition Originals : Type := list (string * string).
Definition original_of (originals : Originals) (path : string) : option string :=
  snd <$> List.find (fun '(k, _) => bool_decide (path_components k = path_components path)) originals.
Fixpoint insert_original (path content : string) (originals : Originals) : Originals :=
  match originals with
  | [] => [(path, content)]
  | (k, v) :: rest =>
      if bool_decide (path_components k = path_components path) then (k, content) :: rest
      else (k, v) :: insert_original path content rest
  end.

Section render.
(** [TextDiff::from_lines(original, edited).unified_diff()] with its two names. *)
Variable unified_diff : string -> string -> string -> string -> string.

(*@ tools/src/model_patch.rs append_diff *)
Definition append_diff (path original edited : string) (original_exists edited_exists : bool)
    : result Fault string :=
  let old_name := if original_exists then "a/" +:+ path else "/dev/null" in
  let new_name := if edited_exists then "b/" +:+ path else "/dev/null" in
  let body := unified_diff original edited old_name new_name in
  if bool_decide (body = "") && eqb original_exists edited_exists then
    Err (Failed ("patch does not change file: " +:+ path))
  else
    Ok (("diff --git a/" +:+ path +:+ " b/" +:+ path +:+ String newline "")
        +:+ (if negb original_exists then "new file mode 100644" +:+ String newline ""
             else if negb edited_exists then "deleted file mode 100644" +:+ String newline ""
             else "")
        +:+ (if bool_decide (body = "") then
               "--- " +:+ old_name +:+ String newline "+++ " +:+ new_name +:+ String newline ""
             else body)).

(** [originals.get(..).ok_or_else(..)] followed by [from_utf8]. *)
Definition text_of (originals : Originals) (what path : string) : result Fault string :=
  let? original := ok_or (Failed (what +:+ " target does not exist: " +:+ path))
                     (original_of originals path) in
  if valid_utf8 original then Ok original
  else Err (Failed (what +:+ " target is not valid UTF-8: " +:+ path)).

Definition names_original (originals : Originals) (path : string) : bool :=
  existsb (fun '(k, _) => bool_decide (lexical_path_identity k = lexical_path_identity path)) originals.

(** What [?] makes of a failed edit: the message names the file, a panic stays one. *)
Definition update_fault (path : string) (f : Fault) : Fault :=
  match f with
  | Failed error => Failed ("model patch update failed for `" +:+ path +:+ "`: " +:+ error)
  | Panicked => Panicked
  end.

(*@ tools/src/model_patch.rs:384-447 render *)
Definition render_file (originals : Originals) (file : ModelPatchFile) : result Fault string :=
  let path := pf_path file in
  match pf_kind file with
  | Update hunks =>
      let? original := text_of originals "update" path in
      let? edited := match apply_hunks original hunks with
                     | Ok edited => Ok edited | Err f => Err (update_fault path f) end in
      match pf_move_path file with
      | Some move_path =>
          if bool_decide (lexical_path_identity move_path = lexical_path_identity path) then
            Err (Failed "move destination must differ from the source")
          else if names_original originals move_path then
            Err (Failed ("move destination already exists: " +:+ move_path))
          else
            let? removed := append_diff path original "" true false in
            let? added := append_diff move_path "" edited false true in
            Ok (removed +:+ added)
      | None => append_diff path original edited true true
      end
  | Add lines no_newline =>
      if names_original originals path then Err (Failed ("add target already exists: " +:+ path))
      else append_diff path "" (join_lines lines (negb no_newline)) false true
  | Replace lines no_newline =>
      let? original := text_of originals "replacement" path in
      append_diff path original (join_lines lines (negb no_newline)) true true
  | Delete =>
      let? original := text_of originals "delete" path in
      append_diff path original "" true false
  end.

Fixpoint render_files (originals : Originals) (files : list ModelPatchFile) (output : string)
    : result Fault string :=
  match files with
  | [] => Ok output
  | file :: files =>
      let? section := render_file originals file in
      render_files originals files (output +:+ section)
  end.

(*@ tools/src/model_patch.rs render *)
Definition render (patch : ModelPatch) (originals : Originals) : result Fault string :=
  let? output := render_files originals patch "" in
  if bool_decide (output = "") then Err (Failed "patch does not change any file") else Ok output.

End render.

(** ** Reading the originals *)

(** [symlink_metadata] of a resolved path. *)
Inductive Metadata := Present | NotFound | StatFailed (error : string).

Section tool.
Context `{FileSystem}.
Variable fs_metadata : string -> Metadata.
Variable fs_read : string -> result string string.
Variable unified_diff : string -> string -> string -> string -> string.
Variable policy : WorkspacePolicy.
Variable policy_ref : PolicyId.

(*@ tools/src/lib.rs ToolRuntime::resolve_tool_path *)
Definition resolve_tool_path (action path : string) (requires_existing_path : bool)
    : result ToolFault string :=
  let e := evaluate_path policy policy_ref action path requires_existing_path in
  if bool_decide (pe_decision e = PolicyDecision.Allow) then Ok (pe_resource e)
  else Err (Tool (Execution ("path policy rejected tool execution: " +:+ pe_reason e))).

Definition source_requires_existing (kind : ModelPatchFileKind) : bool :=
  match kind with Update _ | Delete | Replace _ _ => true | Add _ _ => false end.

(*@ tools/src/lib.rs:2646-2673 ToolRuntime::normalize_model_patch *)
Definition read_source (file : ModelPatchFile) (originals : Originals) : result ToolFault Originals :=
  let required := source_requires_existing (pf_kind file) in
  let? source := resolve_tool_path "apply_patch" (pf_path file) required in
  match fs_metadata source with
  | Present =>
      if required then
        match fs_read source with
        | Ok content => Ok (insert_original (pf_path file) content originals)
        | Err error => Err (Tool (Execution error))
        end
      else Ok (insert_original (pf_path file) "" originals)
  | NotFound =>
      if required then Err (Tool (InvalidArguments ("patch target does not exist: " +:+ pf_path file)))
      else Ok originals
  | StatFailed error => Err (Tool (Execution error))
  end.

(*@ tools/src/lib.rs:2674-2688 ToolRuntime::normalize_model_patch *)
Definition read_destination (file : ModelPatchFile) (originals : Originals)
    : result ToolFault Originals :=
  match pf_move_path file with
  | None => Ok originals
  | Some move_path =>
      let? destination := resolve_tool_path "apply_patch" move_path false in
      match fs_metadata destination with
      | Present => Ok (insert_original move_path "" originals)
      | NotFound => Ok originals
      | StatFailed error =>
          Err (Tool (Execution ("could not inspect patch move destination `" +:+ move_path
                                +:+ "`: " +:+ error)))
      end
  end.

Fixpoint read_originals (files : list ModelPatchFile) (originals : Originals)
    : result ToolFault Originals :=
  match files with
  | [] => Ok originals
  | file :: files =>
      let? originals := read_source file originals in
      let? originals := read_destination file originals in
      read_originals files originals
  end.

(*@ tools/src/lib.rs ToolRuntime::normalize_model_patch *)
Definition normalize_model_patch (patch : string) : result ToolFault string :=
  if negb (looks_like_model_patch patch) then Ok patch
  else
    match parse patch with
    | Err error => Err (Tool (InvalidArguments error))
    | Ok parsed =>
        let? originals := read_originals parsed [] in
        match render unified_diff parsed originals with
        | Ok output => Ok output
        | Err (Failed error) => Err (Tool (InvalidArguments error))
        | Err Panicked => Err ToolPanicked
        end
    end.

End tool.

(** ** The paths a patch names *)

Definition MAX_PATCH_BYTES : N := 16 * 1024 * 1024.
Definition MAX_TOOL_ERROR_CHARS : N := 4 * 1024.

Abbreviation invalid message := (Err (Tool (InvalidArguments message))).

(*@ tools/src/lib.rs validate_patch_input *)
Definition validate_patch_input (patch : string) : result ToolFault unit :=
  if trim_is_empty patch then invalid "patch cannot be empty"
  else if MAX_PATCH_BYTES <? str_len patch then
    invalid ("patch exceeds " +:+ show MAX_PATCH_BYTES +:+ " bytes")
  else if has_byte [0] patch then invalid "patch cannot contain NUL bytes"
  else Ok tt.

(*@ tools/src/lib.rs is_git_numstat_count *)
Definition is_git_numstat_count (value : string) : bool :=
  bool_decide (value = "-")
  || (negb (bool_decide (value = ""))
      && forallb (fun a => is_ascii_digit (byte_of a)) (String.list_ascii_of_string value)).

(** The order of [Path]s: component by component. *)
Definition component_rank (c : Component) : N :=
  match c with RootDir => 1 | CurDir => 2 | ParentDir => 3 | Normal _ => 4 end.
Definition component_compare (a b : Component) : comparison :=
  match a, b with
  | Normal x, Normal y => String.compare x y
  | _, _ => N.compare (component_rank a) (component_rank b)
  end.
Fixpoint components_compare (a b : list Component) : comparison :=
  match a, b with
  | [], [] => Eq
  | [], _ => Lt
  | _, [] => Gt
  | x :: a, y :: b =>
      match component_compare x y with Eq => components_compare a b | c => c end
  end.

(** [BTreeSet<PathBuf>::insert]. *)
Fixpoint insert_path (path : string) (paths : list string) : list string :=
  match paths with
  | [] => [path]
  | p :: rest =>
      match components_compare (path_components path) (path_components p) with
      | Lt => path :: paths
      | Eq => paths
      | Gt => p :: insert_path path rest
      end
  end.

(** [record.splitn(3, '\t')]: the two counts and the rest, if there are two tabs. *)
Definition numstat_fields (record : string) : option (string * string * string) :=
  '(added, rest) ← split_once (String (byte 9) "") record;
  '(deleted, path) ← split_once (String (byte 9) "") rest;
  Some (added, deleted, path).

(*@ tools/src/lib.rs:3704-3743 parse_git_numstat_paths *)
Fixpoint numstat_loop (records paths : list string) : result ToolFault (list string) :=
  match records with
  | [] => Ok paths
  | record :: rest =>
      if bool_decide (record = "") then numstat_loop rest paths
      else
        match numstat_fields record with
        | Some (added, deleted, path) =>
            if negb (is_git_numstat_count added) || negb (is_git_numstat_count deleted) then
              numstat_loop rest paths
            else if bool_decide (path = "") then
              match rest with
              | old_path :: new_path :: rest =>
                  if bool_decide (old_path = "") || bool_decide (new_path = "") then
                    invalid "git returned incomplete rename metadata"
                  else numstat_loop rest (insert_path new_path (insert_path old_path paths))
              | _ => invalid "git returned incomplete rename metadata"
              end
            else numstat_loop rest (insert_path path paths)
        | None => numstat_loop rest paths
        end
  end.

(*@ tools/src/lib.rs parse_git_numstat_paths *)
Definition parse_git_numstat_paths (output : string) (output_truncated : bool)
    : result ToolFault (list string) :=
  if output_truncated then invalid "patch touches too many paths to checkpoint safely"
  else
    let? paths := numstat_loop (split_on (byte 0) output) [] in
    match paths with
    | [] => invalid "patch does not contain any file changes"
    | _ => Ok paths
    end.

(** What [run_patch_command] returns of a finished process. *)
Record PatchOutput := mkPatchOutput {
  po_exit_code : option Z;
  po_stdin_error : option string;
  po_raw_output : string;
  po_truncated : bool;
}.

(*@ tools/src/lib.rs:2461-2506 ToolRuntime::patch_paths *)
Definition patch_paths (policy : WorkspacePolicy)
    (run_patch_command : list string -> string -> result ToolFault PatchOutput) (patch : string)
    : result ToolFault (list string) :=
  let? _ := validate_patch_input patch in
  if looks_like_model_patch patch then
    match parse patch with
    | Ok parsed => Ok (flat_map (fun f => pf_path f :: option_list (pf_move_path f)) parsed)
    | Err error => invalid error
    end
  else
    let args := ["apply"]
      ++ (if bool_decide (mode policy = Unrestricted) then ["--unsafe-paths"] else [])
      ++ ["--numstat"; "-z"; "--whitespace=nowarn"; "-"] in
    let? output := run_patch_command args patch in
    if negb (bool_decide (po_exit_code output = Some 0%Z))
       || match po_stdin_error output with Some _ => true | None => false end then
      invalid ("patch is invalid: " +:+ take_chars MAX_TOOL_ERROR_CHARS
                 (default (po_raw_output output) (po_stdin_error output)))
    else parse_git_numstat_paths (po_raw_output output) (po_truncated output).

(** ** What a prepared patch has checked *)

Lemma original_of_insert k v originals path :
  original_of (insert_original k v originals) path =
  if bool_decide (path_components k = path_components path) then Some v else original_of originals path.
Proof.
  unfold original_of. induction originals as [|[k' v'] originals IH]; cbn [insert_original].
  - simpl. by case_bool_decide.
  - destruct (decide (path_components k' = path_components k)) as [E|E].
    + rewrite (bool_decide_eq_true_2 _ E). simpl. rewrite E. by case_bool_decide.
    + rewrite (bool_decide_eq_false_2 _ E). simpl.
      destruct (decide (path_components k' = path_components path)) as [E2|E2].
      * rewrite (bool_decide_eq_true_2 _ E2), bool_decide_eq_false_2; [done|]. by rewrite <- E2.
      * rewrite (bool_decide_eq_false_2 _ E2). apply IH.
Qed.

Lemma identity_of_components k path :
  path_components k = path_components path -> lexical_path_identity k = lexical_path_identity path.
Proof. unfold lexical_path_identity. by intros ->. Qed.

Lemma names_insert k v originals path :
  names_original (insert_original k v originals) path =
  bool_decide (lexical_path_identity k = lexical_path_identity path) || names_original originals path.
Proof.
  unfold names_original. induction originals as [|[k' v'] originals IH]; cbn [insert_original].
  - by simpl.
  - destruct (decide (path_components k' = path_components k)) as [E|E].
    + rewrite (bool_decide_eq_true_2 _ E). simpl. rewrite (identity_of_components _ _ E).
      by destruct (bool_decide _).
    + rewrite (bool_decide_eq_false_2 _ E). simpl. rewrite IH.
      by destruct (bool_decide (lexical_path_identity k' = _)), (bool_decide _).
Qed.

Section checks.
Context `{FileSystem}.
Variable fs_metadata : string -> Metadata.
Variable fs_read : string -> result string string.
Variable unified_diff : string -> string -> string -> string -> string.
Variable policy : WorkspacePolicy.
Variable policy_ref : PolicyId.

Abbreviation resolve := (resolve_tool_path policy policy_ref "apply_patch").
Abbreviation read_all := (read_originals fs_metadata fs_read policy policy_ref).
Abbreviation read_one := (read_source fs_metadata fs_read policy policy_ref).
Abbreviation read_target := (read_destination fs_metadata policy policy_ref).

(** What the originals say about a file once its source has been read. *)
Definition source_read (originals : Originals) (f : ModelPatchFile) : Prop :=
  exists r, resolve (pf_path f) (source_requires_existing (pf_kind f)) = Ok r /\
  if source_requires_existing (pf_kind f)
  then fs_metadata r = Present /\
       exists content, fs_read r = Ok content /\ original_of originals (pf_path f) = Some content
  else fs_metadata r = NotFound \/ names_original originals (pf_path f) = true.

(** And about its move target. *)
Definition target_read (originals : Originals) (f : ModelPatchFile) : Prop :=
  forall m, pf_move_path f = Some m ->
  exists d, resolve m false = Ok d /\ (fs_metadata d = NotFound \/ names_original originals m = true).

Lemma read_one_ok f o o' : read_one f o = Ok o' -> source_read o' f.
Proof.
  unfold read_source, source_read. intros Hr. destruct (resolve _ _) as [r|]; [|done].
  exists r. split; [done|]. destruct (source_requires_existing (pf_kind f)); simpl in Hr;
    destruct (fs_metadata r); try done.
  - destruct (fs_read r) as [content|]; [|done]. simplify_eq. split; [done|].
    exists content. split; [done|]. rewrite original_of_insert. by rewrite bool_decide_eq_true_2.
  - simplify_eq. right. rewrite names_insert. by rewrite bool_decide_eq_true_2.
  - by left.
Qed.

Lemma read_target_ok f o o' : read_target f o = Ok o' -> target_read o' f.
Proof.
  unfold read_destination, target_read. intros Hr m Hm. rewrite Hm in Hr.
  destruct (resolve m false) as [d|]; [|done]. exists d. split; [done|]. simpl in Hr.
  destruct (fs_metadata d); [|by left|done]. simplify_eq. right.
  rewrite names_insert. by rewrite bool_decide_eq_true_2.
Qed.

(** Reading other files changes neither a content nor a name already recorded. *)
Definition keeps (paths : list string) (o o' : Originals) : Prop :=
  (forall x, names_original o x = true -> names_original o' x = true) /\
  (forall x, Forall (fun k => lexical_path_identity k <> lexical_path_identity x) paths ->
     original_of o' x = original_of o x).

Lemma keeps_insert k v o : keeps [k] o (insert_original k v o).
Proof.
  split; intros x Hx.
  - rewrite names_insert, Hx. by rewrite orb_true_r.
  - rewrite original_of_insert, bool_decide_eq_false_2; [done|]. intros E%identity_of_components.
    by inversion Hx.
Qed.

Lemma keeps_refl paths o : keeps paths o o.
Proof. by split. Qed.

Lemma keeps_trans paths1 paths2 o1 o2 o3 :
  keeps paths1 o1 o2 -> keeps paths2 o2 o3 -> keeps (paths1 ++ paths2) o1 o3.
Proof.
  intros [Hn1 Ho1] [Hn2 Ho2]. split; [auto|]. intros x [H1 H2]%Forall_app.
  by rewrite Ho2, Ho1.
Qed.

Lemma read_one_keeps f o o' : read_one f o = Ok o' -> keeps [pf_path f] o o'.
Proof.
  unfold read_source. destruct (resolve _ _) as [r|]; [|done]. simpl.
  destruct (source_requires_existing _), (fs_metadata r); try done.
  - destruct (fs_read r); [|done]. intros. simplify_eq. apply keeps_insert.
  - intros. simplify_eq. apply keeps_insert.
  - intros. simplify_eq. apply keeps_refl.
Qed.

Lemma read_target_keeps f o o' : read_target f o = Ok o' -> keeps (option_list (pf_move_path f)) o o'.
Proof.
  unfold read_destination. destruct (pf_move_path f) as [m|]; [|intros; simplify_eq; apply keeps_refl].
  destruct (resolve m false) as [d|]; [|done]. simpl. destruct (fs_metadata d); try done; intros; simplify_eq.
  - apply keeps_insert.
  - apply keeps_refl.
Qed.

Definition paths_of (files : list ModelPatchFile) : list string :=
  flat_map (fun f => pf_path f :: option_list (pf_move_path f)) files.

Lemma read_all_keeps files : forall o o', read_all files o = Ok o' -> keeps (paths_of files) o o'.
Proof.
  induction files as [|f files IH]; intros o o' Hr; simpl in Hr; [simplify_eq; apply keeps_refl|].
  destruct (read_one f o) as [o1|] eqn:E1; [|done]. destruct (read_target f o1) as [o2|] eqn:E2; [|done].
  simpl in Hr. apply (keeps_trans (pf_path f :: option_list (pf_move_path f)) _ _ o2); [|by apply IH].
  apply (keeps_trans [pf_path f]  _ _ o1); [by apply read_one_keeps|by apply read_target_keeps].
Qed.

Lemma identities_paths files : identities files = lexical_path_identity <$> paths_of files.
Proof.
  induction files as [|[path [m|] k] files IH]; [done|..]; unfold identities, paths_of in *; simpl;
    by rewrite IH.
Qed.

Lemma source_read_keeps f o o' paths :
  source_read o f -> keeps paths o o' ->
  lexical_path_identity (pf_path f) ∉ (lexical_path_identity <$> paths) -> source_read o' f.
Proof.
  intros (r & Hr & Hs) [Hn Ho] Hnew. exists r. split; [done|].
  destruct (source_requires_existing _); [|naive_solver].
  destruct Hs as (? & content & ? & Hc). split; [done|]. exists content. split; [done|].
  rewrite Ho; [done|]. apply Forall_forall. intros k Hk E. apply Hnew.
  rewrite <- E. by apply list_elem_of_fmap_2.
Qed.

Lemma target_read_keeps f o o' paths : target_read o f -> keeps paths o o' -> target_read o' f.
Proof. intros Ht [Hn _] m Hm. destruct (Ht m Hm) as (d & ? & ?). exists d. naive_solver. Qed.

Lemma read_all_ok files : forall o o',
  read_all files o = Ok o' -> NoDup (identities files) ->
  Forall (fun f => source_read o' f /\ target_read o' f) files.
Proof.
  induction files as [|f files IH]; intros o o' Hr Hnd; simpl in Hr; [constructor|].
  destruct (read_one f o) as [o1|] eqn:E1; [|done]. destruct (read_target f o1) as [o2|] eqn:E2; [|done].
  change (f :: files) with ([f] ++ files) in Hnd. rewrite identities_app in Hnd.
  apply NoDup_app in Hnd as (Hnd1 & Hd & Hnd2). constructor; [|by eapply IH].
  assert (Hkeep := read_all_keeps _ _ _ Hr). split; [|eapply target_read_keeps; [by eapply read_target_ok|done]].
  eapply source_read_keeps; [|exact Hkeep|].
  - eapply source_read_keeps; [by eapply read_one_ok|by eapply read_target_keeps|].
    unfold identities in Hnd1. simpl in Hnd1. apply NoDup_cons in Hnd1 as [Hnd1 _].
    rewrite app_nil_r in Hnd1. by destruct (pf_move_path f).
  - rewrite <- identities_paths. apply Hd. unfold identities. simpl. apply list_elem_of_here.
Qed.

Lemma render_files_ok originals files : forall output out,
  render_files unified_diff originals files output = Ok out ->
  Forall (fun f => exists section, render_file unified_diff originals f = Ok section) files.
Proof.
  induction files as [|f files IH]; intros output out Hr; simpl in Hr; [constructor|].
  destruct (render_file unified_diff originals f) as [section|] eqn:E; [|done].
  constructor; [eauto|]. by eapply IH.
Qed.

(** A resolved path of a guarded policy is inside the workspace and not sensitive. *)
Lemma resolve_guarded path req r :
  resolve path req = Ok r -> mode policy = Guarded ->
  path_starts_with r (workspace_root policy) = true /\ is_sensitive_path policy r = false.
Proof.
  unfold resolve_tool_path, evaluate_path. intros Hr Hg.
  destruct (resolve_path policy path req) as [x|]; [|done].
  rewrite (bool_decide_eq_false_2 (mode policy = Unrestricted)) in Hr by (by rewrite Hg).
  destruct (is_sensitive_path policy x) eqn:Es; [done|].
  destruct (path_starts_with x _) eqn:Ep; [|done]. simpl in Hr. by simplify_eq.
Qed.

(** What has been established for one file of a patch that is handed to [git apply]. *)
Definition file_prepared (f : ModelPatchFile) : Prop :=
  exists r, resolve (pf_path f) (source_requires_existing (pf_kind f)) = Ok r /\
  (mode policy = Guarded ->
   path_starts_with r (workspace_root policy) = true /\ is_sensitive_path policy r = false) /\
  match pf_kind f with
  | Add _ _ => fs_metadata r = NotFound
  | Update hunks =>
      exists content edited, fs_metadata r = Present /\ fs_read r = Ok content /\
        valid_utf8 content = true /\ apply_hunks content hunks = Ok edited
  | Replace _ _ | Delete =>
      exists content, fs_metadata r = Present /\ fs_read r = Ok content /\ valid_utf8 content = true
  end /\
  (forall m, pf_move_path f = Some m -> exists d, resolve m false = Ok d /\
     fs_metadata d = NotFound /\
     (mode policy = Guarded ->
      path_starts_with d (workspace_root policy) = true /\ is_sensitive_path policy d = false)).

Lemma text_of_ok originals what path content :
  text_of originals what path = Ok content ->
  original_of originals path = Some content /\ valid_utf8 content = true.
Proof.
  unfold text_of. destruct (original_of originals path); [|done]. simpl. case_match; [|done].
  intros. by simplify_eq.
Qed.

(** A rendered move target is not among the originals. *)
Lemma render_move originals f section m :
  file_ok f = true -> render_file unified_diff originals f = Ok section -> pf_move_path f = Some m ->
  names_original originals m = false.
Proof.
  unfold file_ok, render_file. intros Hok Hr Hm. rewrite Hm in Hok, Hr.
  destruct (pf_kind f); boolhyps; try done.
  destruct (text_of _ _ _); [|done]. destruct (apply_hunks _ _); [|done].
  case_match; [done|]. by destruct (names_original originals m).
Qed.

Lemma file_prepared_intro originals f section :
  file_ok f = true -> source_read originals f -> target_read originals f ->
  render_file unified_diff originals f = Ok section -> file_prepared f.
Proof.
  intros Hok (r & Hr & Hs) Ht Hrender. exists r. split; [done|].
  split; [by intros; eapply resolve_guarded|]. split.
  - clear Hr Ht. unfold render_file in Hrender.
    destruct (pf_kind f) as [hunks|ls nn|ls nn|]; simpl in Hs.
    2: { destruct (names_original _ _); [done|]. by destruct Hs. }
    all: destruct Hs as (Hp & content & Hread & Ho).
    all: destruct (text_of _ _ _) as [text|] eqn:Etext; [|done].
    all: apply text_of_ok in Etext as [Ho' Hv]; rewrite Ho in Ho'; simplify_eq/=.
    2, 3: by exists text.
    destruct (apply_hunks text hunks) as [edited|] eqn:Ea; [|done]. by exists text, edited.
  - intros m Hm. destruct (Ht m Hm) as (d & Hd & Hmeta). exists d. split; [done|].
    split; [|by intros; eapply resolve_guarded].
    destruct Hmeta as [|Hn]; [done|]. by rewrite (render_move _ _ _ _ Hok Hrender Hm) in Hn.
Qed.

(** A patch in the model's format that is handed on to [git apply] is well
    formed, and for each of its files the policy allowed the path (in guarded mode: it
    resolves inside the workspace and is not sensitive); a file to update, replace or
    delete exists, was read and is text, its hunks apply to that text; a file to add and
    a move target do not exist. *)
Theorem prepared_patch_is_checked patch out :
  looks_like_model_patch patch = true ->
  normalize_model_patch fs_metadata fs_read unified_diff policy policy_ref patch = Ok out ->
  exists p, parse patch = Ok p /\ patch_ok p /\ Forall file_prepared p.
Proof.
  intros Hlook Hn. unfold normalize_model_patch in Hn. rewrite Hlook in Hn. simpl in Hn.
  destruct (parse patch) as [p|] eqn:Ep; [|done]. apply parse_ok in Ep as (Hne & Hfiles & Hnd).
  exists p. split; [done|]. split; [done|].
  destruct (read_all p []) as [originals|] eqn:Er; [|done]. simpl in Hn.
  apply read_all_ok in Er; [|done]. unfold render in Hn.
  destruct (render_files _ _ _ _) as [output|e] eqn:Eo; [|by destruct e].
  apply render_files_ok in Eo. rewrite Forall_forall in *. intros f Hf.
  destruct (Er f Hf) as [? ?], (Eo f Hf) as [section ?]. eapply file_prepared_intro; eauto.
Qed.

End checks.

(** ** Examples and witnesses *)

Definition nul : string := String (byte 0) "".
Definition tab : string := String (byte 9) "".

Example numstat_example :
  parse_git_numstat_paths
    ("1" +:+ tab +:+ "0" +:+ tab +:+ "b.txt" +:+ nul +:+ "-" +:+ tab +:+ "-" +:+ tab +:+ nul
     +:+ "old" +:+ nul +:+ "a.txt" +:+ nul +:+ "warning: x" +:+ nul) false
  = Ok ["a.txt"; "b.txt"; "old"].
Proof. vm_compute. reflexivity. Qed.

(** A change of [/w/src] and a new file next to it, on the small file system. *)
Definition small_metadata (path : string) : Metadata :=
  if bool_decide (path ∈ ["/w"; "/w/src"]) then Present else NotFound.
Definition small_read (path : string) : result string string :=
  if bool_decide (path = "/w/src") then Ok (patch_text ["one"; "two"; ""]) else Err "not found".
Definition small_diff (original edited old_name new_name : string) : string :=
  if bool_decide (original = edited) then "" else old_name +:+ " " +:+ new_name.

Definition small_patch : string :=
  patch_text ["*** Begin Patch"; "*** Update File: src"; "@@"; "-two"; "+2";
              "*** Add File: docs/new.txt"; "+hello"; "*** End Patch"].

Lemma prepared_patch_is_checked_witness :
  exists p, parse small_patch = Ok p /\
    Forall (@file_prepared small_fs small_metadata small_read small_policy 1) p.
Proof.
  destruct (@prepared_patch_is_checked small_fs small_metadata small_read small_diff small_policy 1
    small_patch
    (match @normalize_model_patch small_fs small_metadata small_read small_diff small_policy 1 small_patch
     with Ok out => out | Err _ => "" end))
    as (p & Hp & _ & Hf).
  - vm_compute. reflexivity.
  - vm_compute. reflexivity.
  - exists p. split; assumption.
Defined.
