(* ===== verification/Question.v ===== *)
(** * Questions to the user

    [golutra-agent-core/src/question.rs]: the request a tool raises and the
    validation of the request and of the resolution a client sends back. A
    [HashSet] of borrowed strings is the list of its elements in insertion order;
    the unspecified iteration order only selects which unknown option an error
    message names. *)
From S2P Require Import Prelude RustStr Core.
Open Scope N_scope.

(*@ core/src/question.rs MAX_QUESTIONS *)
Definition MAX_QUESTIONS : N := 3.
(*@ core/src/question.rs MAX_OPTIONS *)
Definition MAX_OPTIONS : N := 8.
(*@ core/src/question.rs MAX_TEXT_CHARS *)
Definition MAX_TEXT_CHARS : N := 2048.

Module UserQuestionMode.
(*@ core/src/question.rs UserQuestionMode *)
Inductive UserQuestionMode := Single | Multiple.
#[global] Instance UserQuestionMode_eq_dec : EqDecision UserQuestionMode.
Proof. solve_decision. Defined.
End UserQuestionMode.
Abbreviation UserQuestionMode := UserQuestionMode.UserQuestionMode.

(*@ core/src/question.rs UserQuestionOption *)
Record UserQuestionOption := mkOption {
  opt_id : string;
  opt_label : string;
  opt_description : option string;
}.

(*@ core/src/question.rs UserQuestionPrompt *)
Record UserQuestionPrompt := mkPrompt {
  q_id : string;
  q_header : string;
  q_question : string;
  q_mode : UserQuestionMode;
  q_options : list UserQuestionOption;
}.

(*@ core/src/question.rs UserQuestionRequest *)
Record UserQuestionRequest := mkQuestionRequest {
  req_question_id : N;
  req_task_id : TaskId;
  req_turn_id : TurnId;
  req_tool_call_id : ToolCallId;
  req_questions : list UserQuestionPrompt;
}.

(*@ core/src/question.rs UserQuestionAnswer *)
Record UserQuestionAnswer := mkAnswer {
  a_question_id : string;
  a_selected_option_ids : list string;
  a_free_text : option string;
}.

(*@ core/src/question.rs UserQuestionResolution *)
Record UserQuestionResolution := mkResolution {
  res_question_id : N;
  res_answers : list UserQuestionAnswer;
  res_reason : string;
}.

(*@ core/src/question.rs validate_text *)
Definition validate_text (label value : string) : result string unit :=
  let length := char_count value in
  if trim_is_empty value || (MAX_TEXT_CHARS <? length) then
    Err (label +:+ " must contain between 1 and " +:+ show MAX_TEXT_CHARS +:+ " characters")
  else Ok tt.

(*@ core/src/question.rs:83-97 UserQuestionRequest::validate *)
Fixpoint validate_options (question : string) (seen : list string)
    (options : list UserQuestionOption) : result string unit :=
  match options with
  | [] => Ok tt
  | o :: options' =>
      let? _ := validate_text "option id" (opt_id o) in
      let? _ := validate_text "option label" (opt_label o) in
      let? _ := match opt_description o with
                | Some d => validate_text "option description" d
                | None => Ok tt
                end in
      if bool_decide (opt_id o ∈ seen) then
        Err ("question `" +:+ question +:+ "` has duplicate option id `" +:+ opt_id o +:+ "`")
      else validate_options question (opt_id o :: seen) options'
  end.

(*@ core/src/question.rs:69-98 UserQuestionRequest::validate *)
Fixpoint validate_questions (seen : list string) (questions : list UserQuestionPrompt)
    : result string unit :=
  match questions with
  | [] => Ok tt
  | q :: questions' =>
      let? _ := validate_text "question id" (q_id q) in
      let? _ := validate_text "question header" (q_header q) in
      let? _ := validate_text "question text" (q_question q) in
      if bool_decide (q_id q ∈ seen) then
        Err ("duplicate question id `" +:+ q_id q +:+ "`")
      else
        let n := N.of_nat (length (q_options q)) in
        if (n <? 2) || (MAX_OPTIONS <? n) then
          Err ("question `" +:+ q_id q +:+ "` options must contain 2..=" +:+ show MAX_OPTIONS
                 +:+ " entries")
        else
          let? _ := validate_options (q_id q) [] (q_options q) in
          validate_questions (q_id q :: seen) questions'
  end.

(*@ core/src/question.rs UserQuestionRequest::validate *)
Definition validate_request (r : UserQuestionRequest) : result string unit :=
  let n := N.of_nat (length (req_questions r)) in
  if (n =? 0) || (MAX_QUESTIONS <? n) then
    Err ("questions must contain 1..=" +:+ show MAX_QUESTIONS +:+ " entries")
  else validate_questions [] (req_questions r).

(*@ core/src/question.rs:108-141 UserQuestionRequest::validate_resolution *)
Definition validate_answer (answers : list UserQuestionAnswer) (q : UserQuestionPrompt)
    : result string unit :=
  match list_find (fun a => a_question_id a = q_id q) answers with
  | None => Err ("question `" +:+ q_id q +:+ "` is unanswered")
  | Some (_, answer) =>
      let selected := remove_dups (a_selected_option_ids answer) in
      let? _ := match a_free_text answer with
                | Some t => validate_text ("question `" +:+ q_id q +:+ "` free text") t
                | None => Ok tt
                end in
      if bool_decide (selected = []) && bool_decide (a_free_text answer = None) then
        Err ("question `" +:+ q_id q +:+ "` requires a selection or free text")
      else if bool_decide (q_mode q = UserQuestionMode.Single)
              && (1 <? N.of_nat (length selected)) then
        Err ("question `" +:+ q_id q +:+ "` accepts one selection")
      else if negb (N.of_nat (length selected)
                    =? N.of_nat (length (a_selected_option_ids answer))) then
        Err ("question `" +:+ q_id q +:+ "` repeats a selection")
      else
        match list_find (fun id => id ∉ (opt_id <$> q_options q)) selected with
        | Some (_, unknown) =>
            Err ("question `" +:+ q_id q +:+ "` has unknown option `" +:+ unknown +:+ "`")
        | None => Ok tt
        end
  end.

Fixpoint validate_answers (answers : list UserQuestionAnswer) (qs : list UserQuestionPrompt)
    : result string unit :=
  match qs with
  | [] => Ok tt
  | q :: qs' => let? _ := validate_answer answers q in validate_answers answers qs'
  end.

(*@ core/src/question.rs UserQuestionRequest::validate_resolution *)
Definition validate_resolution (r : UserQuestionRequest) (res : UserQuestionResolution)
    : result string unit :=
  if negb (res_question_id res =? req_question_id r) then
    Err "question resolution does not match the pending request"
  else if negb (N.of_nat (length (res_answers res)) =? N.of_nat (length (req_questions r))) then
    Err "every pending question requires one answer"
  else validate_answers (res_answers res) (req_questions r).

(** ** What an accepted request and resolution are *)

Definition text_ok (s : string) : Prop := trim s <> "" /\ char_count s <= MAX_TEXT_CHARS.

Lemma validate_text_ok l v : validate_text l v = Ok tt <-> text_ok v.
Proof.
  unfold validate_text, text_ok. rewrite trim_empty_iff.
  destruct (trim_is_empty v); simpl; [naive_solver|].
  destruct (MAX_TEXT_CHARS <? char_count v) eqn:E; Nbool; split; try done; intros [_ ?]; lia.
Qed.

Ltac ok_step H :=
  match type of H with
  | (match ?x with Ok _ => _ | Err _ => _ end) = _ => destruct x as [[]|] eqn:?; [|discriminate H]
  | (if ?x then Err _ else _) = _ => destruct x eqn:?; [discriminate H|]
  end.

Lemma validate_options_nodup q os : forall seen,
  validate_options q seen os = Ok tt ->
  NoDup (opt_id <$> os) /\ forall s, s ∈ seen -> s ∉ (opt_id <$> os).
Proof.
  induction os as [|o os IH]; intros seen H.
  { split; [constructor|]. intros s _. apply not_elem_of_nil. }
  simpl in H. repeat ok_step H. boolhyps. apply IH in H as [Hn Hs].
  rewrite fmap_cons. split.
  - constructor; [|done]. apply Hs, list_elem_of_here.
  - intros s Hin [->|Hin']%elem_of_cons; [done|]. eapply Hs; [|done]. by apply list_elem_of_further.
Qed.

Definition prompt_ok (q : UserQuestionPrompt) : Prop :=
  text_ok (q_id q) /\ text_ok (q_header q) /\ text_ok (q_question q) /\
  2 <= N.of_nat (length (q_options q)) <= MAX_OPTIONS /\ NoDup (opt_id <$> q_options q).

Lemma validate_questions_ok qs : forall seen,
  validate_questions seen qs = Ok tt ->
  NoDup (q_id <$> qs) /\ Forall prompt_ok qs /\ forall s, s ∈ seen -> s ∉ (q_id <$> qs).
Proof.
  induction qs as [|q qs IH]; intros seen H.
  { split_and!; [constructor|constructor|]. intros s _. apply not_elem_of_nil. }
  cbn [validate_questions] in H. repeat ok_step H. boolhyps. Nbool. apply IH in H as (Hn & Hf & Hs).
  repeat match goal with E : validate_text _ _ = _ |- _ => apply validate_text_ok in E end.
  match goal with E : validate_options _ _ _ = _ |- _ => apply validate_options_nodup in E as [? _] end.
  rewrite fmap_cons. split_and!.
  - constructor; [|done]. apply Hs, list_elem_of_here.
  - constructor; [|done]. unfold prompt_ok. auto 10.
  - intros s Hin [->|Hin']%elem_of_cons; [done|]. eapply Hs; [|done]. by apply list_elem_of_further.
Qed.

(** An answer [a] that resolves the prompt [q]. *)
Definition answers_prompt (q : UserQuestionPrompt) (a : UserQuestionAnswer) : Prop :=
  a_question_id a = q_id q /\
  NoDup (a_selected_option_ids a) /\
  Forall (fun id => id ∈ (opt_id <$> q_options q)) (a_selected_option_ids a) /\
  (q_mode q = UserQuestionMode.Single -> (length (a_selected_option_ids a) <= 1)%nat) /\
  (a_selected_option_ids a <> [] \/ a_free_text a <> None) /\
  (forall t, a_free_text a = Some t -> text_ok t).

Lemma remove_dups_length_NoDup (l : list string) :
  length (remove_dups l) = length l -> NoDup l /\ remove_dups l = l.
Proof.
  intros H. assert (E : remove_dups l = l).
  { induction l as [|x l IH]; [done|]. simpl in *. case_decide; simpl in *.
    - assert (length (remove_dups l) <= length l)%nat; [|lia]. clear.
      induction l as [|y l IH]; simpl; [lia|]. case_decide; simpl; lia.
    - f_equal. apply IH. lia. }
  split; [rewrite <- E; apply NoDup_remove_dups|done].
Qed.

Lemma validate_answer_ok answers q :
  validate_answer answers q = Ok tt -> exists a, a ∈ answers /\ answers_prompt q a.
Proof.
  unfold validate_answer. intros H.
  destruct (list_find _ answers) as [[i a]|] eqn:Ef; [|done].
  apply list_find_Some in Ef as (Hi & Hid & _). repeat ok_step H. boolhyps.
  destruct (list_find (fun id => _) _) as [[? ?]|] eqn:Eu; [done|].
  apply list_find_None in Eu.
  match goal with E : (N.of_nat _ =? N.of_nat _) = true |- _ =>
    apply N.eqb_eq, Nat2N.inj, remove_dups_length_NoDup in E as [Hnd Er] end.
  rewrite Er in *. exists a. split; [by eapply list_elem_of_lookup_2|].
  split_and!; [done|done| | | |].
  - eapply Forall_impl; [exact Eu|]. simpl. intros x Hx. by destruct (decide (x ∈ opt_id <$> q_options q)).
  - intros Hm. rewrite (bool_decide_eq_true_2 _ Hm) in *. simpl in *. Nbool. lia.
  - destruct (a_selected_option_ids a); [right|by left]. by destruct (a_free_text a).
  - intros t Ht. rewrite Ht in *. by eapply validate_text_ok.
Qed.

(** An accepted resolution answers the request completely and
    unambiguously. For a validated request the answers' question ids are a
    permutation of the asked ids, so every question has exactly one answer and no
    answer is stray; that answer selects distinct declared options (at most one
    for a single-choice question) or carries a bounded non-blank text. *)
Theorem accepted_resolution_answers_all r res :
  validate_request r = Ok tt -> validate_resolution r res = Ok tt ->
  res_question_id res = req_question_id r /\
  (a_question_id <$> res_answers res) ≡ₚ (q_id <$> req_questions r) /\
  Forall (fun q => exists a, a ∈ res_answers res /\ answers_prompt q a) (req_questions r).
Proof.
  unfold validate_request, validate_resolution. intros Hr H. ok_step Hr. repeat ok_step H. boolhyps.
  apply validate_questions_ok in Hr as (Hn & _ & _). Nbool.
  assert (Hall : Forall (fun q => exists a, a ∈ res_answers res /\ answers_prompt q a)
                   (req_questions r)).
  { clear -H. induction (req_questions r) as [|q qs IH]; [constructor|].
    cbn [validate_answers] in H. ok_step H. constructor; [by apply validate_answer_ok|by apply IH]. }
  split_and!; [done| |done]. symmetry. apply submseteq_length_Permutation.
  - apply NoDup_submseteq; [done|]. intros s [q [-> Hq]]%list_elem_of_fmap.
    rewrite Forall_forall in Hall. destruct (Hall q Hq) as (a & Ha & Hid & _).
    rewrite <- Hid. by apply list_elem_of_fmap_2.
  - rewrite !length_fmap. lia.
Qed.

Definition format_question : UserQuestionRequest :=
  mkQuestionRequest 7 1 2 3
    [mkPrompt "format" "Output" "Which format?" UserQuestionMode.Single
       [mkOption "json" "JSON" None; mkOption "text" "Text" (Some "plain")];
     mkPrompt "scope" "Scope" "Which files?" UserQuestionMode.Multiple
       [mkOption "a" "A" None; mkOption "b" "B" None]].
Definition format_resolution : UserQuestionResolution :=
  mkResolution 7 [mkAnswer "scope" ["b"; "a"] None; mkAnswer "format" [] (Some "Use YAML.")] "ok".

Lemma accepted_resolution_answers_all_witness :
  (a_question_id <$> res_answers format_resolution) ≡ₚ ["format"; "scope"].
Proof.
  apply (accepted_resolution_answers_all format_question format_resolution);
    vm_compute; reflexivity.
Defined.
