(* ===== verification/Provider.v ===== *)
(** * The provider interface

    The types of [golutra-agent-llm/src/lib.rs] the runtime exchanges with a model
    provider: messages, requests, responses, streamed events and the error with its
    diagnostic metadata; and [golutra-agent-runtime/src/response_control.rs], which
    decides from a response's finish reason whether the turn is complete, goes on or
    fails. A [Duration] is a number of nanoseconds. *)
From S2P Require Import Prelude RustStr Core.
Open Scope N_scope.

(** ** Durations *)
Definition ns_of_ms (ms : N) : N := ms * 1000000.
(** [Duration::as_millis]. *)
Definition as_millis (d : N) : N := d / 1000000.

Lemma as_millis_of_ms ms : as_millis (ns_of_ms ms) = ms.
Proof. unfold as_millis, ns_of_ms. by rewrite N.div_mul. Qed.

Module ProviderRole.
(*@ llm/src/lib.rs ProviderRole *)
Inductive ProviderRole := System | User | Assistant | Tool.
#[global] Instance ProviderRole_eq_dec : EqDecision ProviderRole.
Proof. solve_decision. Defined.
End ProviderRole.
Abbreviation ProviderRole := ProviderRole.ProviderRole.

(*@ llm/src/lib.rs ProviderToolCall *)
Record ProviderToolCall := mkProviderToolCall {
  pc_tool_call_id : string;
  pc_tool_name : string;
  pc_arguments : json;
}.

(*@ llm/src/lib.rs ProviderMessageMetadata *)
Record ProviderMessageMetadata := mkMessageMetadata {
  openai_responses_replay_items : list json;
}.

(*@ llm/src/lib.rs ProviderMessageMetadata::is_empty *)
Definition message_metadata_is_empty (m : ProviderMessageMetadata) : bool :=
  match openai_responses_replay_items m with [] => true | _ => false end.

(*@ llm/src/lib.rs ProviderMessage *)
Record ProviderMessage := mkProviderMessage {
  pm_role : ProviderRole;
  pm_content : string;
  pm_tool_call_id : option string;
  pm_tool_name : option string;
  pm_tool_calls : list ProviderToolCall;
  pm_metadata : ProviderMessageMetadata;
}.

(** A request, without the prompt-cache fields no modelled code reads; the tools are
    represented by their estimated wire size. *)
(*@ llm/src/lib.rs ProviderRequest *)
Record ProviderRequest := mkProviderRequest {
  rq_request_id : ProviderRequestId;
  rq_task_id : TaskId;
  rq_turn_id : TurnId;
  rq_session_id : option SessionId;
  rq_provider_id : string;
  rq_model_id : string;
  rq_messages : list ProviderMessage;
  rq_tool_tokens : N;
  rq_max_output_tokens : option N;
}.

Module ProviderFinishReason.
(*@ llm/src/lib.rs ProviderFinishReason *)
Inductive ProviderFinishReason :=
| Stop | Continue | ToolCalls | Length | ContentFilter | Error | Unknown.
#[global] Instance ProviderFinishReason_eq_dec : EqDecision ProviderFinishReason.
Proof. solve_decision. Defined.
End ProviderFinishReason.
Abbreviation ProviderFinishReason := ProviderFinishReason.ProviderFinishReason.

(** A response, without its usage accounting and raw metadata. *)
(*@ llm/src/lib.rs ProviderResponse *)
Record ProviderResponse := mkProviderResponse {
  rs_response_id : N;
  rs_message : option ProviderMessage;
  rs_tool_calls : list ProviderToolCall;
  rs_finish_reason : ProviderFinishReason;
}.

Module ProviderStreamEvent.
(*@ llm/src/lib.rs ProviderStreamEvent *)
Inductive ProviderStreamEvent :=
| TextDelta (text : string)
| ReasoningDelta (text : string)
| ToolCallDelta (index : N) (tool_call_id tool_name : option string).
End ProviderStreamEvent.
Abbreviation ProviderStreamEvent := ProviderStreamEvent.ProviderStreamEvent.

(** ** Errors *)

(*@ llm/src/lib.rs ProviderAttemptError *)
Record ProviderAttemptError := mkAttemptError {
  ae_attempt : N;
  ae_transport : string;
  ae_elapsed_ms : N;
  ae_message : string;
  ae_response_http_status : option N;
  ae_http_status : option N;
  ae_error_type : option string;
  ae_request_id : option string;
  ae_upstream_response_id : option string;
}.

(*@ llm/src/lib.rs ProviderErrorMetadata *)
Record ProviderErrorMetadata := mkErrorMetadata {
  em_response_http_status : option N;
  em_http_status : option N;
  em_provider_code : option string;
  em_error_type : option string;
  em_error_detail : option string;
  em_stream_interrupted : bool;
  em_retry_after : option N;
  em_request_id : option string;
  em_upstream_response_id : option string;
  em_attempts : list ProviderAttemptError;
}.
Definition default_metadata : ProviderErrorMetadata :=
  mkErrorMetadata None None None None None false None None None [].

(*@ llm/src/lib.rs ProviderErrorMetadata::is_empty *)
Definition error_metadata_is_empty (m : ProviderErrorMetadata) : bool :=
  let none {A} (o : option A) := match o with None => true | Some _ => false end in
  none (em_response_http_status m) && none (em_http_status m) && none (em_provider_code m)
  && none (em_error_type m) && none (em_error_detail m) && negb (em_stream_interrupted m)
  && match em_attempts m with [] => true | _ => false end
  && none (em_retry_after m) && none (em_request_id m) && none (em_upstream_response_id m).

Module ProviderError.
(*@ llm/src/lib.rs ProviderError *)
Inductive ProviderError :=
| ConnectionFailed (message : string)
| Failed (message : string)
| Unavailable (message : string)
| RateLimited (message : string)
| NotConfigured (message : string)
| Malformed (message : string)
| Timeout (message : string)
| Cancelled
| WithMetadata (error : ProviderError) (metadata : ProviderErrorMetadata).

(** The [Display] text of the [#[error]] attributes. *)
(*@ llm/src/lib.rs:476-500 ProviderError *)
Fixpoint to_string (e : ProviderError) : string :=
  match e with
  | ConnectionFailed m => "provider connection failed: " +:+ m
  | Failed m => "provider failed: " +:+ m
  | Unavailable m => "provider is temporarily unavailable: " +:+ m
  | RateLimited m => "provider rate limited: " +:+ m
  | NotConfigured m => "provider is not configured: " +:+ m
  | Malformed m => "provider response is malformed: " +:+ m
  | Timeout m => "provider request timed out: " +:+ m
  | Cancelled => "provider request was cancelled"
  | WithMetadata e _ => to_string e
  end.

(*@ llm/src/lib.rs ProviderError::metadata *)
Definition metadata (e : ProviderError) : option ProviderErrorMetadata :=
  match e with WithMetadata _ m => Some m | _ => None end.

(*@ llm/src/lib.rs ProviderError::with_metadata *)
Definition with_metadata (e : ProviderError) (m : ProviderErrorMetadata) : ProviderError :=
  if error_metadata_is_empty m then e
  else
    let error := match e with WithMetadata error _ => error | error => error end in
    WithMetadata error m.

(*@ llm/src/lib.rs ProviderError::with_stream_interrupted *)
Definition with_stream_interrupted (e : ProviderError) : ProviderError :=
  let m := default default_metadata (metadata e) in
  with_metadata e
    (mkErrorMetadata (em_response_http_status m) (em_http_status m) (em_provider_code m)
       (em_error_type m) (em_error_detail m) true (em_retry_after m) (em_request_id m)
       (em_upstream_response_id m) (em_attempts m)).

(*@ llm/src/lib.rs ProviderError::retry_after *)
Definition retry_after (e : ProviderError) : option N := metadata e ≫= em_retry_after.

(*@ llm/src/lib.rs ProviderError::http_status *)
Definition http_status (e : ProviderError) : option N := metadata e ≫= em_http_status.

(*@ llm/src/lib.rs ProviderError::is_rate_limited *)
Fixpoint is_rate_limited (e : ProviderError) : bool :=
  match e with
  | RateLimited _ => true
  | WithMetadata e _ => is_rate_limited e
  | _ => false
  end.

(** [error == ProviderError::Cancelled]. *)
Definition is_cancelled (e : ProviderError) : bool :=
  match e with Cancelled => true | _ => false end.
End ProviderError.
Abbreviation ProviderError := ProviderError.ProviderError.

(** ** Response control *)

(*@ runtime/src/response_control.rs MAX_SILENT_CONTINUATIONS *)
Definition MAX_SILENT_CONTINUATIONS : N := 8.

(*@ runtime/src/response_control.rs ResponseControl *)
Record ResponseControl := mkResponseControl {
  empty_finals : N;
  silent_continuations : N;
}.
Definition default_response_control : ResponseControl := mkResponseControl 0 0.

(*@ runtime/src/response_control.rs invalid *)
Definition invalid (message : string) : ProviderError := ProviderError.Malformed message.

Definition no_tool_calls (r : ProviderResponse) : bool :=
  match rs_tool_calls r with [] => true | _ => false end.

(*@ runtime/src/response_control.rs:24-28 ResponseControl::observe *)
Definition has_content (r : ProviderResponse) : bool :=
  negb (no_tool_calls r)
  || is_some_and (fun m => negb (trim_is_empty (pm_content m))) (rs_message r).

(*@ runtime/src/response_control.rs:29-32 ResponseControl::observe *)
Definition is_continuation (r : ProviderResponse) : bool :=
  match rs_finish_reason r with
  | ProviderFinishReason.Continue | ProviderFinishReason.Length => true
  | _ => false
  end.

(** [observe] returns the updated state also when it fails. *)
(*@ runtime/src/response_control.rs ResponseControl::observe *)
Definition observe (c : ResponseControl) (r : ProviderResponse)
    : ResponseControl * result ProviderError bool :=
  let empties := if has_content r || is_continuation r then 0 else empty_finals c in
  let silent :=
    if is_continuation r && negb (has_content r) then silent_continuations c +|32 1 else 0 in
  let c' := mkResponseControl empties silent in
  if is_continuation r && negb (has_content r) && (MAX_SILENT_CONTINUATIONS <? silent) then
    (c', Err (invalid "provider continuation repeatedly produced no visible text or tool calls"))
  else
    (c', match rs_finish_reason r with
         | ProviderFinishReason.Stop => Ok false
         | ProviderFinishReason.ToolCalls =>
             if no_tool_calls r then
               Err (invalid "provider reported tool calls but returned none")
             else Ok false
         | ProviderFinishReason.Continue =>
             if negb (no_tool_calls r) then Ok false else Ok true
         | ProviderFinishReason.Length =>
             if negb (no_tool_calls r) then
               Err (invalid "provider truncated a response containing tool calls; tools were not executed")
             else Ok true
         | ProviderFinishReason.ContentFilter =>
             Err (invalid "provider stopped because of content_filter; response is not complete")
         | ProviderFinishReason.Error =>
             Err (invalid "provider reported an unsuccessful terminal response")
         | ProviderFinishReason.Unknown =>
             Err (invalid "provider returned an unknown finish reason; completion cannot be confirmed")
         end).

(*@ runtime/src/response_control.rs ResponseControl::record_empty_final *)
Definition record_empty_final (c : ResponseControl) : ResponseControl * N :=
  let n := empty_finals c +|32 1 in (mkResponseControl n (silent_continuations c), n).

(** Observe responses while each asks to continue; how many were accepted, and
    whether the run ended. *)
Fixpoint observe_all (c : ResponseControl) (rs : list ProviderResponse) : nat * bool :=
  match rs with
  | [] => (0%nat, false)
  | r :: rs' =>
      match observe c r with
      | (c', Ok true) => let '(n, ended) := observe_all c' rs' in (S n, ended)
      | (_, _) => (0%nat, true)
      end
  end.

Definition silent (r : ProviderResponse) : bool := is_continuation r && negb (has_content r).

Lemma observe_silent c r :
  silent r = true ->
  observe c r =
  (mkResponseControl 0 (silent_continuations c +|32 1),
   if MAX_SILENT_CONTINUATIONS <? silent_continuations c +|32 1 then
     Err (invalid "provider continuation repeatedly produced no visible text or tool calls")
   else Ok true).
Proof.
  unfold silent, observe. intros H. apply andb_true_iff in H as [Hc Hn]. rewrite Hc, Hn.
  apply negb_true_iff in Hn. rewrite Hn. simpl.
  destruct (MAX_SILENT_CONTINUATIONS <? _); [done|]. f_equal.
  unfold has_content in Hn. apply orb_false_iff in Hn as [Hn _]. apply negb_false_iff in Hn.
  unfold is_continuation in Hc. rewrite Hn. by destruct (rs_finish_reason r).
Qed.

Lemma observe_all_silent rs : forall c,
  forallb silent rs = true -> silent_continuations c <= MAX_SILENT_CONTINUATIONS ->
  fst (observe_all c rs)
    = Nat.min (length rs) (N.to_nat (MAX_SILENT_CONTINUATIONS - silent_continuations c)) /\
  (MAX_SILENT_CONTINUATIONS - silent_continuations c < N.of_nat (length rs) ->
   snd (observe_all c rs) = true).
Proof.
  induction rs as [|r rs IH]; intros c Hs Hc; [simpl; split; lia|].
  cbn [forallb] in Hs. apply andb_true_iff in Hs as [Hr Hs]. cbn [observe_all].
  rewrite observe_silent by done. unfold MAX_SILENT_CONTINUATIONS in *.
  rewrite sat_add_exact by (unfold u32_max; lia).
  destruct (8 <? silent_continuations c + 1) eqn:E; Nbool.
  - replace (silent_continuations c) with 8 by lia. simpl. split; [lia|done].
  - destruct (IH (mkResponseControl 0 (silent_continuations c + 1)) Hs) as [IH1 IH2]; [simpl; lia|].
    destruct (observe_all _ rs) as [n b].
    cbn [fst snd silent_continuations length] in *. split; [lia|]. intros. apply IH2. lia.
Qed.

(** A provider that keeps asking to continue without producing
    text or tool calls is cut off. From a fresh turn a run of silent continuations
    is accepted at most [MAX_SILENT_CONTINUATIONS] times, exactly so often when the
    run is long enough, and then ends with an error. *)
Theorem silent_continuations_bounded rs :
  forallb silent rs = true ->
  fst (observe_all default_response_control rs) = Nat.min (length rs) 8 /\
  ((8 < length rs)%nat -> snd (observe_all default_response_control rs) = true).
Proof.
  intros H. destruct (observe_all_silent rs default_response_control H) as [H1 H2]; [done|].
  split; [exact H1|]. intros Hl. apply H2. unfold MAX_SILENT_CONTINUATIONS. simpl. lia.
Qed.

Definition silent_response : ProviderResponse :=
  mkProviderResponse 1 (Some (mkProviderMessage ProviderRole.Assistant "  " None None []
    (mkMessageMetadata []))) [] ProviderFinishReason.Length.

Lemma silent_continuations_bounded_witness :
  observe_all default_response_control (replicate 12 silent_response) = (8%nat, true).
Proof.
  destruct (silent_continuations_bounded (replicate 12 silent_response)) as [H1 H2];
    [vm_compute; reflexivity|].
  rewrite (surjective_pairing (observe_all _ _)), H1, H2; [reflexivity|]. simpl. lia.
Defined.

(** Tools run only after a response the provider finished. [observe]
    lets the turn proceed to tool execution or completion (without continuing) only
    for a stop, a tool-call finish that carries tool calls, or an explicit continue
    that carries tool calls; it asks for a continuation only when there is no tool
    call; truncation with tool calls, filtering, errors and unknown reasons all
    fail. *)
Theorem observe_never_runs_truncated_tools c r :
  match snd (observe c r) with
  | Ok true => rs_tool_calls r = [] /\
      (rs_finish_reason r = ProviderFinishReason.Continue \/
       rs_finish_reason r = ProviderFinishReason.Length)
  | Ok false =>
      rs_finish_reason r = ProviderFinishReason.Stop \/
      (rs_tool_calls r <> [] /\
       (rs_finish_reason r = ProviderFinishReason.ToolCalls \/
        rs_finish_reason r = ProviderFinishReason.Continue))
  | Err _ => True
  end.
Proof.
  unfold observe. destruct (is_continuation r && _ && _); [done|]. simpl.
  unfold no_tool_calls. destruct (rs_finish_reason r), (rs_tool_calls r) eqn:E; simpl; naive_solver.
Qed.
