(* ===== verification/ProviderSession.v ===== *)
(** * Provider retries, recovery and sessions

    [golutra-agent-runtime/src/provider_retry.rs] classifies errors and computes
    delays, [provider_recovery.rs] keeps the retry counters and the bounded failure
    log, [provider_session.rs] drives one logical request: streaming attempts, the
    switch to the buffered transport, and the fallback provider. What the outside
    world decides is an argument: for each attempt which branch of its [select!]
    fires in which order, how long it took, and how the following wait ended. The
    loops recurse over these scripts, and [None] means the script ended before the
    request did; the theorems show how long a script is enough. *)
From S2P Require Import Prelude RustStr Core Provider.
Open Scope N_scope.

(** ** Retry classification *)

(*@ runtime/src/provider_retry.rs BASE_BACKOFF_MS *)
Definition BASE_BACKOFF_MS : N := 250.
(*@ runtime/src/provider_retry.rs MAX_BACKOFF_MS *)
Definition MAX_BACKOFF_MS : N := 30000.

Definition client_error_status (o : option N) : bool :=
  is_some_and (fun status => (400 <=? status) && (status <? 500) && negb (status =? 429)) o.

(*@ runtime/src/provider_retry.rs is_retryable *)
Fixpoint is_retryable (e : ProviderError) : bool :=
  if client_error_status (ProviderError.http_status e) then false
  else
    match e with
    | ProviderError.ConnectionFailed _ | ProviderError.Unavailable _
    | ProviderError.RateLimited _ | ProviderError.Timeout _ => true
    | ProviderError.Failed _ => false
    | ProviderError.WithMetadata e' _ => is_retryable e'
    | ProviderError.Cancelled | ProviderError.NotConfigured _ | ProviderError.Malformed _ => false
    end.

(*@ runtime/src/provider_retry.rs fallback_eligible *)
Fixpoint fallback_eligible (e : ProviderError) : bool :=
  if client_error_status (ProviderError.http_status e) then false
  else
    match e with
    | ProviderError.ConnectionFailed _ | ProviderError.Failed _ | ProviderError.Unavailable _
    | ProviderError.RateLimited _ | ProviderError.Timeout _ => true
    | ProviderError.WithMetadata e' _ => fallback_eligible e'
    | ProviderError.Cancelled | ProviderError.NotConfigured _ | ProviderError.Malformed _ => false
    end.

(*@ runtime/src/provider_retry.rs transport_fallback_eligible *)
Definition transport_fallback_eligible (e : ProviderError) : bool :=
  is_retryable e && is_some_and em_stream_interrupted (ProviderError.metadata e).

(*@ runtime/src/provider_retry.rs backoff *)
Definition backoff (attempt : N) : N :=
  let exponent := N.min (attempt - 1) 5 in
  ns_of_ms (N.min (BASE_BACKOFF_MS *|64 N.shiftl 1 exponent) MAX_BACKOFF_MS).

(*@ runtime/src/provider_retry.rs retry_delay *)
Definition retry_delay (e : ProviderError) (attempt request_seed : N) : N :=
  match ProviderError.retry_after e with
  | Some server_delay => server_delay
  | None =>
      let base := as_millis (backoff attempt) in
      let bucket := wrapping_add64 request_seed (wrapping_mul64 attempt 2654435769) mod 21 in
      let multiplier := 90 + bucket in
      ns_of_ms ((base *|64 multiplier) / 100)
  end.

(** ** Recovery state *)

Module ProviderTransport.
(*@ runtime/src/provider_session.rs ProviderTransport *)
Inductive ProviderTransport := Streaming | Buffered.

(*@ runtime/src/provider_session.rs ProviderTransport::label *)
Definition label (t : ProviderTransport) : string :=
  match t with Streaming => "streaming" | Buffered => "buffered" end.
End ProviderTransport.
Abbreviation ProviderTransport := ProviderTransport.ProviderTransport.

Module RecoveryPhase.
(*@ runtime/src/provider_recovery.rs RecoveryPhase *)
Inductive RecoveryPhase := Waiting | Retrying.
End RecoveryPhase.
Abbreviation RecoveryPhase := RecoveryPhase.RecoveryPhase.

(*@ runtime/src/provider_recovery.rs ProviderRecovery *)
Record ProviderRecovery := mkRecovery {
  rc_phase : RecoveryPhase;
  rc_attempt : N;
  rc_delay_ms : N;
  rc_waited_ms : N;
  rc_network : bool;
  rc_reset_stream : bool;
  rc_reason : string;
  rc_transport : ProviderTransport;
  rc_error_metadata : option ProviderErrorMetadata;
}.

(*@ runtime/src/provider_recovery.rs RetryState *)
Record RetryState := mkRetryState {
  ordinary_retries : N;
  connection_retries : N;
  rt_attempts : N;
  waited : N;
  rt_transport : ProviderTransport;
  failures : list ProviderAttemptError;
  failed_attempts : N;
}.
Definition default_retry_state : RetryState :=
  mkRetryState 0 0 0 0 ProviderTransport.Streaming [] 0.

(*@ runtime/src/provider_recovery.rs duration_ms *)
Definition duration_ms (d : N) : N := N.min (as_millis d) u64_max.

(*@ runtime/src/provider_recovery.rs is_connection_failure *)
Fixpoint is_connection_failure (e : ProviderError) : bool :=
  match ProviderError.http_status e with
  | Some _ => false
  | None =>
      match e with
      | ProviderError.ConnectionFailed _ => true
      | ProviderError.WithMetadata e' _ => is_connection_failure e'
      | _ => false
      end
  end.

(*@ runtime/src/provider_recovery.rs RetryState::switch_to_buffered *)
Definition switch_to_buffered (s : RetryState) : RetryState :=
  mkRetryState (ordinary_retries s) (connection_retries s) (rt_attempts s) (waited s)
    ProviderTransport.Buffered (failures s) (failed_attempts s).

(** ** Session types *)

(*@ runtime/src/provider_session.rs ProviderSessionPolicy *)
Record ProviderSessionPolicy := mkPolicy {
  max_stream_retries : N;
  max_request_retries : N;
  stream_idle_timeout : N;
  request_timeout : N;
  enable_transport_fallback : bool;
}.

(*@ runtime/src/provider_session.rs Default::default for ProviderSessionPolicy *)
Definition default_policy : ProviderSessionPolicy :=
  mkPolicy 2 2 (ns_of_ms 300000) (ns_of_ms 300000) true.

(*@ runtime/src/provider_session.rs ProviderSessionPolicy::bounded *)
Definition bounded (p : ProviderSessionPolicy) : ProviderSessionPolicy :=
  mkPolicy (N.min (max_stream_retries p) 8) (N.min (max_request_retries p) 8)
    (N.max (stream_idle_timeout p) (ns_of_ms 1)) (N.max (request_timeout p) (ns_of_ms 1))
    (enable_transport_fallback p).

(** What the session reads of an [LlmProvider]: its contract and whether it has a
    buffered transport. *)
Record LlmProvider := mkProvider {
  lp_provider_id : string;
  lp_model_id : string;
  lp_supports_buffered_transport : bool;
}.

Module ProviderSessionEvent.
(*@ runtime/src/provider_session.rs ProviderSessionEvent *)
Inductive ProviderSessionEvent :=
| Streamed (provider_id model_id : string) (event : ProviderStreamEvent)
| Recovery (r : ProviderRecovery)
| TransportFallback (provider_id : string) (from to : ProviderTransport) (reason : string)
| ProviderFallback (from_provider to_provider reason : string).
End ProviderSessionEvent.
Abbreviation ProviderSessionEvent := ProviderSessionEvent.ProviderSessionEvent.

Module ProviderSessionError.
(*@ runtime/src/provider_session.rs ProviderSessionError *)
Inductive ProviderSessionError := Provider (e : ProviderError) | DeadlineExceeded (reason : string).
End ProviderSessionError.
Abbreviation ProviderSessionError := ProviderSessionError.ProviderSessionError.

(*@ runtime/src/provider_session.rs StreamAttemptFailure *)
Record StreamAttemptFailure := mkStreamFailure {
  sf_error : ProviderError;
  sf_preview_seen : bool;
}.

(*@ runtime/src/provider_session.rs ProviderSession *)
Record ProviderSession := mkSession {
  ps_primary : LlmProvider;
  ps_fallback : option LlmProvider;
  ps_policy : ProviderSessionPolicy;
  ps_deadline : option N;
  ps_allow_connection_wait : bool;
  ps_input_budget : N;
}.

Section Session.
(** [golutra_agent_tools::redact_sensitive_text], of which the text is kept, and
    [golutra_agent_context::estimate_message_tokens]. *)
Context (redact_sensitive_text : string -> string)
        (estimate_message_tokens : list ProviderMessage -> N).

(** The entry [record_failure] pushes. *)
(*@ runtime/src/provider_recovery.rs:54-68 RetryState::record_failure *)
Definition attempt_entry (s : RetryState) (e : ProviderError) (elapsed : N)
    : ProviderAttemptError :=
  let m := default default_metadata (ProviderError.metadata e) in
  {| ae_attempt := failed_attempts s +|32 1;
     ae_transport := ProviderTransport.label (rt_transport s);
     ae_elapsed_ms := duration_ms elapsed;
     ae_message := take_chars 512 (redact_sensitive_text (ProviderError.to_string e));
     ae_response_http_status := em_response_http_status m;
     ae_http_status := em_http_status m;
     ae_error_type := em_error_type m;
     ae_request_id := em_request_id m;
     ae_upstream_response_id := em_upstream_response_id m |}.

(** [Vec::remove(1)]. *)
Definition remove_second {A} (l : list A) : list A := take 1 l ++ drop 2 l.

(*@ runtime/src/provider_recovery.rs RetryState::record_failure *)
Definition record_failure (s : RetryState) (e : ProviderError) (elapsed : N) : RetryState :=
  let kept := if (length (failures s) =? 8)%nat then remove_second (failures s) else failures s in
  mkRetryState (ordinary_retries s) (connection_retries s) (rt_attempts s) (waited s)
    (rt_transport s) (kept ++ [attempt_entry s e elapsed]) (failed_attempts s +|32 1).

(*@ runtime/src/provider_recovery.rs RetryState::with_failures *)
Definition with_failures (s : RetryState) (e : ProviderError) : ProviderError :=
  let m := default default_metadata (ProviderError.metadata e) in
  ProviderError.with_metadata e
    (mkErrorMetadata (em_response_http_status m) (em_http_status m) (em_provider_code m)
       (em_error_type m) (em_error_detail m) (em_stream_interrupted m) (em_retry_after m)
       (em_request_id m) (em_upstream_response_id m) (failures s)).

(** The wait before reconnection number [n]. *)
(*@ runtime/src/provider_recovery.rs:91-94 RetryState::schedule *)
Definition connection_delay (n seed : N) : N :=
  let seconds := N.min (N.shiftl 5 (N.min (n - 1) 4)) 60 in
  let jitter := 90 + wrapping_add64 seed n mod 11 in
  ns_of_ms (seconds * 1000 * jitter / 100).

(*@ runtime/src/provider_recovery.rs RetryState::schedule *)
Definition schedule (s : RetryState) (e : ProviderError) (max_retries : N)
    (allow_connection_wait : bool) (seed : N) (reset_stream : bool)
    : RetryState * option (N * ProviderRecovery) :=
  if negb (is_retryable e) then (s, None)
  else
    let network := allow_connection_wait && is_connection_failure e in
    if negb network && (max_retries <=? ordinary_retries s) then (s, None)
    else
      let conn := if network then connection_retries s +|32 1 else connection_retries s in
      let ord := if network then ordinary_retries s else ordinary_retries s + 1 in
      let delay := if network then connection_delay conn seed else retry_delay e ord seed in
      let attempts := rt_attempts s +|32 1 in
      (mkRetryState ord conn attempts (waited s) (rt_transport s) (failures s) (failed_attempts s),
       Some (delay,
             {| rc_phase := RecoveryPhase.Waiting;
                rc_attempt := attempts;
                rc_delay_ms := duration_ms delay;
                rc_waited_ms := duration_ms (waited s);
                rc_network := network;
                rc_reset_stream := reset_stream;
                rc_reason := ProviderError.to_string e;
                rc_transport := rt_transport s;
                rc_error_metadata := ProviderError.metadata e |})).

(** ** Sessions *)

(*@ runtime/src/provider_session.rs ProviderSession::new *)
Definition session_new (primary : LlmProvider) (fallback : option LlmProvider)
    (policy : ProviderSessionPolicy) : ProviderSession :=
  mkSession primary fallback (bounded policy) None true u64_max.

(*@ runtime/src/provider_session.rs ProviderSession::with_deadline *)
Definition with_deadline (s : ProviderSession) (d : option N) : ProviderSession :=
  mkSession (ps_primary s) (ps_fallback s) (ps_policy s) d (ps_allow_connection_wait s)
    (ps_input_budget s).

(*@ runtime/src/provider_session.rs ProviderSession::with_connection_wait *)
Definition with_connection_wait (s : ProviderSession) (enabled : bool) : ProviderSession :=
  mkSession (ps_primary s) (ps_fallback s) (ps_policy s) (ps_deadline s) enabled
    (ps_input_budget s).

(*@ runtime/src/provider_session.rs ProviderSession::with_input_budget *)
Definition with_input_budget (s : ProviderSession) (budget : N) : ProviderSession :=
  mkSession (ps_primary s) (ps_fallback s) (ps_policy s) (ps_deadline s)
    (ps_allow_connection_wait s) budget.

(*@ runtime/src/provider_session.rs is_preview_event *)
Definition is_preview_event (e : ProviderStreamEvent) : bool :=
  let nonempty s := negb (bool_decide (s = "")) in
  match e with
  | ProviderStreamEvent.ReasoningDelta _ => false
  | ProviderStreamEvent.TextDelta text => nonempty text
  | ProviderStreamEvent.ToolCallDelta _ id name => is_some_and nonempty id || is_some_and nonempty name
  end.

(*@ runtime/src/provider_session.rs retry_reason *)
Definition retry_reason (e : ProviderError) : string :=
  match ProviderError.metadata e with
  | None => ProviderError.to_string e
  | Some m =>
      let reason := ProviderError.to_string e in
      let reason :=
        match em_http_status m with
        | Some status => "HTTP " +:+ show status +:+ ": " +:+ reason
        | None => reason
        end in
      match em_provider_code m with
      | Some code => code +:+ ": " +:+ reason
      | None => reason
      end
  end.

(** One firing of the [select!] of a streaming attempt: cancellation, the provider's
    result with the events still queued, a received event ([None] when the channel
    is closed), or the idle deadline. *)
Inductive SelectEvent :=
| SelCancelled
| SelResult (queued : list ProviderStreamEvent) (r : result ProviderError ProviderResponse)
| SelEvent (e : option ProviderStreamEvent)
| SelIdle.

Definition streamed (p : LlmProvider) (e : ProviderStreamEvent) : ProviderSessionEvent :=
  ProviderSessionEvent.Streamed (lp_provider_id p) (lp_model_id p) e.

(*@ runtime/src/provider_session.rs ProviderSession::complete_stream_attempt *)
Fixpoint complete_stream_attempt (policy : ProviderSessionPolicy) (p : LlmProvider)
    (preview_seen : bool) (script : list SelectEvent)
    : option (result StreamAttemptFailure ProviderResponse) * list ProviderSessionEvent :=
  match script with
  | [] => (None, [])
  | SelCancelled :: _ => (Some (Err (mkStreamFailure ProviderError.Cancelled preview_seen)), [])
  | SelResult queued r :: _ =>
      let seen := preview_seen || existsb is_preview_event queued in
      (Some match r with
            | Ok response => Ok response
            | Err error => Err (mkStreamFailure error seen)
            end,
       streamed p <$> queued)
  | SelEvent None :: _ =>
      (Some (Err (mkStreamFailure (ProviderError.Failed "provider stream event channel closed")
                    preview_seen)), [])
  | SelEvent (Some e) :: script' =>
      let '(r, evs) := complete_stream_attempt policy p (preview_seen || is_preview_event e) script' in
      (r, streamed p e :: evs)
  | SelIdle :: _ =>
      (Some (Err (mkStreamFailure
         (ProviderError.with_metadata
            (ProviderError.Timeout ("provider stream idle for "
               +:+ show (as_millis (stream_idle_timeout policy)) +:+ " ms"))
            (mkErrorMetadata None None None None None true None None None []))
         preview_seen)), [])
  end.

(** The [select!] of a buffered attempt. *)
Inductive BufferedEvent :=
| BufCancelled | BufResult (r : result ProviderError ProviderResponse) | BufTimeout.

(*@ runtime/src/provider_session.rs ProviderSession::complete_buffered_attempt *)
Definition complete_buffered_attempt (policy : ProviderSessionPolicy) (e : BufferedEvent)
    : result ProviderError ProviderResponse :=
  match e with
  | BufCancelled => Err ProviderError.Cancelled
  | BufResult r => r
  | BufTimeout =>
      Err (ProviderError.Timeout ("buffered provider request exceeded "
             +:+ show (as_millis (request_timeout policy)) +:+ " ms"))
  end.

Definition REMINDER : string :=
  "Runtime recovery: this request waited at least 60 seconds. Continue the existing task using completed tool results. Before changing files or external state, recheck only the facts that may have changed during the wait. Do not repeat completed side effects.".

Definition reminder_message : ProviderMessage :=
  mkProviderMessage ProviderRole.User REMINDER None None [] (mkMessageMetadata []).

Definition set_messages (r : ProviderRequest) (ms : list ProviderMessage) : ProviderRequest :=
  mkProviderRequest (rq_request_id r) (rq_task_id r) (rq_turn_id r) (rq_session_id r)
    (rq_provider_id r) (rq_model_id r) ms (rq_tool_tokens r) (rq_max_output_tokens r).

(*@ runtime/src/provider_session.rs add_recovery_reminder *)
Definition add_recovery_reminder (r : ProviderRequest) (waited input_budget : N)
    : ProviderRequest :=
  if (waited <? ns_of_ms 60000)
     || existsb (fun m => bool_decide (pm_content m = REMINDER)) (rq_messages r) then r
  else
    let input_tokens :=
      (estimate_message_tokens (rq_messages r) +|64 rq_tool_tokens r)
        +|64 estimate_message_tokens [reminder_message] in
    if input_tokens <=? input_budget then set_messages r (rq_messages r ++ [reminder_message])
    else r.

(** [wait_for_recovery]: [wait] is how long [wait_backoff] took, or [None] when the
    wait was cancelled (an unrepresentable deadline waits for cancellation). *)
(*@ runtime/src/provider_session.rs wait_for_recovery *)
Definition wait_for_recovery (rec : ProviderRecovery) (s : RetryState) (wait : option N)
    : bool * RetryState * list ProviderSessionEvent :=
  match wait with
  | None => (false, s, [ProviderSessionEvent.Recovery rec])
  | Some elapsed =>
      let s' := mkRetryState (ordinary_retries s) (connection_retries s) (rt_attempts s)
                  (waited s + elapsed) (rt_transport s) (failures s) (failed_attempts s) in
      let rec' := mkRecovery RecoveryPhase.Retrying (rc_attempt rec) (rc_delay_ms rec)
                    (duration_ms (waited s')) (rc_network rec) false (rc_reason rec)
                    (rc_transport rec) (rc_error_metadata rec) in
      (true, s', [ProviderSessionEvent.Recovery rec; ProviderSessionEvent.Recovery rec'])
  end.

(** One attempt's script: the branches its [select!] takes, its duration, and the
    wait that follows a scheduled retry. *)
Record StreamAttempt := mkStreamAttempt {
  sa_script : list SelectEvent;
  sa_elapsed : N;
  sa_wait : option N;
}.
Record BufferedAttempt := mkBufferedAttempt {
  ba_event : BufferedEvent;
  ba_elapsed : N;
  ba_wait : option N;
}.

(** How a loop of attempts ends: it returns, breaks out, or its script ran out. *)
Inductive LoopEnd :=
| LReturn (r : result ProviderError ProviderResponse)
| LBreak (e : ProviderError)
| LPending.

Definition seed_of (r : ProviderRequest) : N := rq_request_id r mod 2 ^ 64.

Definition with_reminder (s : ProviderSession) (st : RetryState) (r : ProviderRequest)
    : ProviderRequest :=
  if ps_allow_connection_wait s then add_recovery_reminder r (waited st) (ps_input_budget s)
  else r.

Definition total_retries (p : ProviderSessionPolicy) : N :=
  N.max (max_stream_retries p) (max_request_retries p).

Definition can_fallback (s : ProviderSession) (p : LlmProvider) (e : ProviderError) : bool :=
  enable_transport_fallback (ps_policy s) && lp_supports_buffered_transport p
  && transport_fallback_eligible e.

(** The streaming loop of [complete_provider]. *)
(*@ runtime/src/provider_session.rs:239-282 ProviderSession::complete_provider *)
Fixpoint stream_loop (s : ProviderSession) (p : LlmProvider) (st : RetryState)
    (request : ProviderRequest) (env : list StreamAttempt)
    : LoopEnd * RetryState * ProviderRequest * list ProviderSessionEvent :=
  match env with
  | [] => (LPending, st, request, [])
  | a :: env' =>
      let request := with_reminder s st request in
      let '(outcome, evs) := complete_stream_attempt (ps_policy s) p false (sa_script a) in
      match outcome with
      | None => (LPending, st, request, evs)
      | Some (Ok response) => (LReturn (Ok response), st, request, evs)
      | Some (Err failure) =>
          if ProviderError.is_cancelled (sf_error failure) then
            (LReturn (Err ProviderError.Cancelled), st, request, evs)
          else
            let st := record_failure st (sf_error failure) (sa_elapsed a) in
            let error := with_failures st (sf_error failure) in
            let stream_retries :=
              if can_fallback s p error then
                N.min (max_stream_retries (ps_policy s)) (total_retries (ps_policy s) - 1)
              else max_stream_retries (ps_policy s) in
            match schedule st error stream_retries (ps_allow_connection_wait s) (seed_of request)
                    (sf_preview_seen failure) with
            | (st, None) => (LBreak error, st, request, evs)
            | (st, Some (_, recovery)) =>
                let '(go, st, evs2) := wait_for_recovery recovery st (sa_wait a) in
                if go then
                  let '(e, st, request, evs3) := stream_loop s p st request env' in
                  (e, st, request, evs ++ evs2 ++ evs3)
                else (LReturn (Err ProviderError.Cancelled), st, request, evs ++ evs2)
            end
      end
  end.

(*@ runtime/src/provider_session.rs emit_response_events *)
Definition emit_response_events (p : LlmProvider) (r : ProviderResponse)
    : list ProviderSessionEvent :=
  match option_filter (fun m => negb (bool_decide (pm_content m = ""))) (rs_message r) with
  | Some m => [streamed p (ProviderStreamEvent.TextDelta (pm_content m))]
  | None => []
  end
  ++ imap (fun i c => streamed p (ProviderStreamEvent.ToolCallDelta (N.of_nat i)
             (Some (pc_tool_call_id c)) (Some (pc_tool_name c)))) (rs_tool_calls r).

(*@ runtime/src/provider_session.rs ProviderSession::complete_buffered *)
Fixpoint complete_buffered (s : ProviderSession) (p : LlmProvider) (st : RetryState)
    (request : ProviderRequest) (env : list BufferedAttempt)
    : LoopEnd * RetryState * ProviderRequest * list ProviderSessionEvent :=
  match env with
  | [] => (LPending, st, request, [])
  | a :: env' =>
      let request := with_reminder s st request in
      match complete_buffered_attempt (ps_policy s) (ba_event a) with
      | Ok response => (LReturn (Ok response), st, request, emit_response_events p response)
      | Err error =>
          if ProviderError.is_cancelled error then (LReturn (Err error), st, request, [])
          else
            let st := record_failure st error (ba_elapsed a) in
            let error := with_failures st error in
            match schedule st error
                    (N.max (max_request_retries (ps_policy s)) (max_stream_retries (ps_policy s)))
                    (ps_allow_connection_wait s) (seed_of request) false with
            | (st, None) => (LReturn (Err (with_failures st error)), st, request, [])
            | (st, Some (_, recovery)) =>
                let '(go, st, evs2) := wait_for_recovery recovery st (ba_wait a) in
                if go then
                  let '(e, st, request, evs3) := complete_buffered s p st request env' in
                  (e, st, request, evs2 ++ evs3)
                else (LReturn (Err ProviderError.Cancelled), st, request, evs2)
            end
      end
  end.

(** The scripts of one provider: the streaming attempts, the wait before the
    transport switch, the buffered attempts. *)
Record ProviderScript := mkScript {
  sc_stream : list StreamAttempt;
  sc_switch_wait : option N;
  sc_buffered : list BufferedAttempt;
}.

Definition loop_result (e : LoopEnd) : option (result ProviderError ProviderResponse) :=
  match e with LReturn r => Some r | LBreak e => Some (Err e) | LPending => None end.

(*@ runtime/src/provider_session.rs ProviderSession::complete_provider *)
Definition complete_provider (s : ProviderSession) (p : LlmProvider) (request : ProviderRequest)
    (env : ProviderScript)
    : option (result ProviderError ProviderResponse) * RetryState * ProviderRequest
      * list ProviderSessionEvent :=
  let '(e, st, request, evs) := stream_loop s p default_retry_state request (sc_stream env) in
  match e with
  | LPending => (None, st, request, evs)
  | LReturn r => (Some r, st, request, evs)
  | LBreak error =>
      if can_fallback s p error then
        let st := switch_to_buffered st in
        match schedule st error (total_retries (ps_policy s)) false (seed_of request) true with
        | (st, None) => (Some (Err (with_failures st error)), st, request, evs)
        | (st, Some (_, recovery)) =>
            let '(go, st, evs2) := wait_for_recovery recovery st (sc_switch_wait env) in
            if go then
              let switch := ProviderSessionEvent.TransportFallback (lp_provider_id p)
                              ProviderTransport.Streaming ProviderTransport.Buffered
                              (retry_reason error) in
              let '(e, st, request, evs3) := complete_buffered s p st request (sc_buffered env) in
              (loop_result e, st, request, evs ++ evs2 ++ switch :: evs3)
            else (Some (Err ProviderError.Cancelled), st, request, evs ++ evs2)
        end
      else (Some (Err (with_failures st error)), st, request, evs)
  end.

(*@ runtime/src/provider_session.rs ProviderSession::complete_without_deadline *)
Definition complete_without_deadline (s : ProviderSession) (request : ProviderRequest)
    (primary_env fallback_env : ProviderScript)
    : option (result ProviderError (ProviderResponse * ProviderRequest))
      * list ProviderSessionEvent :=
  let '(r, _, request, evs) := complete_provider s (ps_primary s) request primary_env in
  match r with
  | None => (None, evs)
  | Some (Ok response) => (Some (Ok (response, request)), evs)
  | Some (Err failure) =>
      match ps_fallback s with
      | None => (Some (Err failure), evs)
      | Some fb =>
          if negb (fallback_eligible failure) then (Some (Err failure), evs)
          else
            let rec := mkRecovery RecoveryPhase.Retrying 0 0 0 false true "switching provider"
                         ProviderTransport.Streaming (ProviderError.metadata failure) in
            let switch := ProviderSessionEvent.ProviderFallback (lp_provider_id (ps_primary s))
                            (lp_provider_id fb) (retry_reason failure) in
            let request2 :=
              mkProviderRequest (rq_request_id request) (rq_task_id request) (rq_turn_id request)
                (rq_session_id request) (lp_provider_id fb) (lp_model_id fb) (rq_messages request)
                (rq_tool_tokens request) (rq_max_output_tokens request) in
            let '(r2, _, request2, evs2) := complete_provider s fb request2 fallback_env in
            (match r2 with
             | Some (Ok response) => Some (Ok (response, request2))
             | Some (Err e) => Some (Err e)
             | None => None
             end, evs ++ ProviderSessionEvent.Recovery rec :: switch :: evs2)
      end
  end.

(** [complete]: [expired] tells whether the deadline, if there is one, passed before
    the request ended. *)
(*@ runtime/src/provider_session.rs ProviderSession::complete *)
Definition complete (s : ProviderSession) (request : ProviderRequest)
    (primary_env fallback_env : ProviderScript) (expired : bool)
    : option (result ProviderSessionError (ProviderResponse * ProviderRequest)) :=
  let r := fst (complete_without_deadline s request primary_env fallback_env) in
  let mapped :=
    match r with
    | Some (Ok x) => Some (Ok x)
    | Some (Err e) => Some (Err (ProviderSessionError.Provider e))
    | None => None
    end in
  match ps_deadline s with
  | None => mapped
  | Some _ =>
      if expired then
        Some (Err (ProviderSessionError.DeadlineExceeded
          "provider session exceeded the runtime wall-clock deadline"))
      else mapped
  end.

End Session.

(** ** Delays *)

Lemma backoff_ms attempt : as_millis (backoff attempt) = 250 * 2 ^ N.min (attempt - 1) 5.
Proof.
  unfold backoff. rewrite as_millis_of_ms, N.shiftl_1_l. unfold BASE_BACKOFF_MS, MAX_BACKOFF_MS.
  assert (2 ^ N.min (attempt - 1) 5 <= 2 ^ 5) by (apply N.pow_le_mono_r; lia).
  change (2 ^ 5) with 32 in *. unfold sat_mul, u64_max. lia.
Qed.

Lemma backoff_range attempt : 250 <= as_millis (backoff attempt) <= 8000.
Proof.
  rewrite backoff_ms.
  assert (2 ^ 0 <= 2 ^ N.min (attempt - 1) 5 <= 2 ^ 5)
    by (split; apply N.pow_le_mono_r; lia).
  change (2 ^ 5) with 32 in *. change (2 ^ 0) with 1 in *. lia.
Qed.

Lemma connection_delay_range n seed : 4500 <= as_millis (connection_delay n seed) <= 60000.
Proof.
  unfold connection_delay. rewrite as_millis_of_ms. set (k := _ mod 11).
  assert (k < 11) by (by apply N.mod_lt). clearbody k.
  set (secs := N.min _ 60). assert (Hs : 5 <= secs <= 60).
  { unfold secs. rewrite N.shiftl_mul_pow2.
    assert (2 ^ 0 <= 2 ^ N.min (n - 1) 4) by (apply N.pow_le_mono_r; lia).
    change (2 ^ 0) with 1 in *. lia. }
  clearbody secs. split.
  - transitivity (450000 / 100); [done|]. apply N.Div0.div_le_mono. nia.
  - transitivity (6000000 / 100); [|done]. apply N.Div0.div_le_mono. nia.
Qed.

(** How long a retry waits. A delay the server asked for is kept
    exactly; a local one lies within ten percent of the exponential backoff, which
    starts at 250 ms and never exceeds 8 seconds, so that it is between 225 ms and
    8.8 s; a wait for the connection is between 4.5 s and one minute. *)
Theorem retry_delay_bounds e attempt seed n :
  (forall d, ProviderError.retry_after e = Some d -> retry_delay e attempt seed = d) /\
  (ProviderError.retry_after e = None ->
   let base := as_millis (backoff attempt) in
   let ms := as_millis (retry_delay e attempt seed) in
   base * 90 / 100 <= ms <= base * 110 / 100 /\ 225 <= ms <= 8800) /\
  4500 <= as_millis (connection_delay n seed) <= 60000.
Proof.
  split_and!.
  - intros d Hd. unfold retry_delay. by rewrite Hd.
  - intros Hn base ms. unfold ms, retry_delay. rewrite Hn. fold base. rewrite as_millis_of_ms.
    pose proof (backoff_range attempt) as Hb. fold base in Hb.
    set (k := _ mod 21). assert (Hk : k < 21) by (by apply N.mod_lt). clearbody k base.
    assert (Hs : base *|64 (90 + k) = base * (90 + k)) by (unfold sat_mul, u64_max; nia).
    rewrite Hs.
    assert (base * 90 <= base * (90 + k)) by nia. assert (base * (90 + k) <= base * 110) by nia.
    split_and!; [apply N.Div0.div_le_mono; lia..| |].
    + transitivity (22500 / 100); [done|]. apply N.Div0.div_le_mono. lia.
    + transitivity (880000 / 100); [|done]. apply N.Div0.div_le_mono. lia.
  - by apply connection_delay_range.
  - by apply connection_delay_range.
Qed.

Lemma retry_delay_bounds_witness :
  retry_delay (ProviderError.with_metadata (ProviderError.Unavailable "busy")
    (mkErrorMetadata None None None None None false (Some 45000000000) None None [])) 1 7
    = 45000000000 /\
  as_millis (retry_delay (ProviderError.Timeout "t") 2 123) <= 550.
Proof.
  split.
  - refine (proj1 (retry_delay_bounds _ 1 7 1) 45000000000 _). reflexivity.
  - refine (proj2 (proj1 (proj1 (proj2 (retry_delay_bounds (ProviderError.Timeout "t") 2 123 1)) _))).
    reflexivity.
Defined.

(** ** The failure log *)

Section Log.
Context (redact : string -> string).

(** Failures and transport switches, as the session records them. *)
Inductive LogOp := LFail (e : ProviderError) (elapsed : N) | LSwitch.

Definition log_step (st : RetryState) (o : LogOp) : RetryState :=
  match o with
  | LFail e elapsed => record_failure redact st e elapsed
  | LSwitch => switch_to_buffered st
  end.

(** Every entry ever recorded, in order. *)
Fixpoint log_entries (st : RetryState) (ops : list LogOp) : list ProviderAttemptError :=
  match ops with
  | [] => []
  | o :: ops' =>
      match o with LFail e elapsed => [attempt_entry redact st e elapsed] | LSwitch => [] end
      ++ log_entries (log_step st o) ops'
  end.

(** The first entry and the last seven. *)
Definition first_and_last_seven {A} (l : list A) : list A :=
  if (length l <=? 8)%nat then l else take 1 l ++ drop (length l - 7) l.

Lemma first_and_last_seven_snoc {A} (l : list A) x :
  let k := first_and_last_seven l in
  first_and_last_seven (l ++ [x]) =
  (if (length k =? 8)%nat then remove_second k else k) ++ [x].
Proof.
  intros k. unfold k, first_and_last_seven. rewrite length_app. simpl.
  destruct (length l <=? 8)%nat eqn:E.
  - apply Nat.leb_le in E. destruct (length l =? 8)%nat eqn:E8.
    + apply Nat.eqb_eq in E8. rewrite E8. simpl. unfold remove_second.
      do 9 (destruct l as [|? l]; [discriminate E8 || done|]). discriminate E8.
    + apply Nat.eqb_neq in E8. destruct (length l + 1 <=? 8)%nat eqn:E9; [done|].
      apply Nat.leb_gt in E9. lia.
  - apply Nat.leb_gt in E. destruct (length l + 1 <=? 8)%nat eqn:E9; [apply Nat.leb_le in E9; lia|].
    destruct l as [|y l]; [simpl in E; lia|].
    assert (Hlen : length (take 1 (y :: l) ++ drop (length (y :: l) - 7) (y :: l)) = 8%nat).
    { rewrite length_app, length_drop. simpl in *. lia. }
    rewrite Hlen. simpl (8 =? 8)%nat. unfold remove_second.
    replace (length (y :: l) + 1 - 7)%nat with (S (length (y :: l) - 7)) by (simpl in *; lia).
    rewrite drop_app_le by (simpl in *; lia). set (d := (length (y :: l) - 7)%nat).
    change (y :: (drop (S d) (y :: l) ++ [x]) = y :: (drop 1 (drop d (y :: l)) ++ [x])).
    rewrite drop_drop. by replace (d + 1)%nat with (S d) by lia.
Qed.

Lemma log_invariant ops : forall st l,
  failures st = first_and_last_seven l ->
  failures (fold_left log_step ops st) = first_and_last_seven (l ++ log_entries st ops).
Proof.
  induction ops as [|o ops IH]; intros st l H; simpl; [by rewrite app_nil_r|].
  destruct o as [e elapsed|]; simpl.
  - rewrite cons_middle, app_assoc. apply IH. unfold record_failure; cbn [failures].
    by rewrite first_and_last_seven_snoc, H.
  - by apply IH.
Qed.

(** The diagnostic log of a request is bounded and keeps what
    matters. After any number of failures and transport switches it holds the first
    failure and the last seven, in order, and all of them up to eight. *)
Theorem failure_log_keeps_first_and_last ops :
  failures (fold_left log_step ops default_retry_state)
    = first_and_last_seven (log_entries default_retry_state ops) /\
  (length (failures (fold_left log_step ops default_retry_state)) <= 8)%nat.
Proof.
  assert (H := log_invariant ops default_retry_state [] eq_refl). simpl in H. split; [done|].
  rewrite H. unfold first_and_last_seven. destruct (_ <=? 8)%nat eqn:E.
  - by apply Nat.leb_le.
  - apply Nat.leb_gt in E. rewrite length_app, length_take, length_drop. lia.
Qed.
End Log.

(** ** One provider's attempts *)

(** Attaching the log to an error changes neither its retry nor its connection
    classification. *)
Lemma with_failures_retryable st e : is_retryable (with_failures st e) = is_retryable e.
Proof.
  unfold with_failures, ProviderError.with_metadata.
  destruct (error_metadata_is_empty _); [done|]. by destruct e.
Qed.

Lemma with_failures_connection st e :
  is_connection_failure (with_failures st e) = is_connection_failure e.
Proof.
  unfold with_failures, ProviderError.with_metadata.
  destruct (error_metadata_is_empty _); [done|]. by destruct e.
Qed.

(** With a non-empty log the error carries it. *)
Lemma with_failures_attempts st e :
  failures st <> [] ->
  exists m, ProviderError.metadata (with_failures st e) = Some m /\ em_attempts m = failures st.
Proof.
  intros H. unfold with_failures, ProviderError.with_metadata.
  destruct (error_metadata_is_empty _) eqn:E; [|eexists; split; reflexivity].
  unfold error_metadata_is_empty in E. simpl in E. boolhyps. by destruct (failures st).
Qed.

(** What a granted retry changes. *)
Lemma schedule_Some st e mx allow seed rs st' d rc :
  schedule st e mx allow seed rs = (st', Some (d, rc)) ->
  is_retryable e = true /\ failures st' = failures st /\
  failed_attempts st' = failed_attempts st /\
  ((allow && is_connection_failure e = false /\ ordinary_retries st < mx /\
    ordinary_retries st' = ordinary_retries st + 1 /\
    connection_retries st' = connection_retries st) \/
   (allow && is_connection_failure e = true /\
    ordinary_retries st' = ordinary_retries st /\
    connection_retries st' = connection_retries st +|32 1)).
Proof.
  unfold schedule. intros H. destruct (is_retryable e); [|done].
  destruct (allow && is_connection_failure e) eqn:En; simpl in H.
  - simplify_eq. simpl. split_and!; try done. right. done.
  - destruct (mx <=? ordinary_retries st) eqn:Em; [done|]. Nbool. simplify_eq. simpl.
    split_and!; try done. by left.
Qed.

Lemma schedule_None st e mx allow seed rs st' :
  schedule st e mx allow seed rs = (st', None) -> st' = st.
Proof. unfold schedule. intros H. by repeat (case_hyp H; simplify_eq/=). Qed.

Lemma schedule_refused st e mx allow seed rs st' :
  schedule st e mx allow seed rs = (st', None) -> allow && is_connection_failure e = false ->
  is_retryable e = true -> mx <= ordinary_retries st.
Proof.
  unfold schedule. intros H Hn Hr. rewrite Hr, Hn in H. simpl in H.
  destruct (mx <=? ordinary_retries st) eqn:E; [by Nbool|done].
Qed.

(** Counters before an attempt ([retry_pre]) and after a recorded failure. *)
Definition retry_pre (total : N) (allow : bool) (st : RetryState) : Prop :=
  ordinary_retries st <= total /\ failed_attempts st <= u32_max /\
  connection_retries st <= u32_max /\
  failed_attempts st <= ordinary_retries st + connection_retries st /\
  (allow = false -> connection_retries st = 0).
Definition retry_post (total : N) (allow : bool) (st : RetryState) : Prop :=
  ordinary_retries st <= total /\
  failed_attempts st <= ordinary_retries st + connection_retries st + 1 /\
  (allow = false -> connection_retries st = 0).

Lemma retry_pre_post total allow st : retry_pre total allow st -> retry_post total allow st.
Proof. intros (? & ? & ? & ? & ?). unfold retry_post. split_and!; try done. lia. Qed.

Lemma retry_pre_default total allow : retry_pre total allow default_retry_state.
Proof. unfold retry_pre; simpl. split_and!; [apply N.le_0_l..|done]. Qed.

Section Attempts.
Context (redact : string -> string) (est : list ProviderMessage -> N).

Lemma record_post total allow st e el :
  retry_pre total allow st ->
  retry_post total allow (record_failure redact st e el) /\
  failed_attempts (record_failure redact st e el) <= u32_max /\
  connection_retries (record_failure redact st e el) <= u32_max /\
  failures (record_failure redact st e el) <> [].
Proof.
  intros (? & ? & ? & ? & ?). unfold retry_post, record_failure; simpl. split_and!; try done.
  - unfold sat_add. lia.
  - apply sat_add_le_max.
  - intros Hnil. by apply app_eq_nil in Hnil as [_ ?].
Qed.

Lemma schedule_pre total allow st e mx al seed rs st' d rc w :
  retry_post total allow st -> failed_attempts st <= u32_max ->
  connection_retries st <= u32_max -> mx <= total -> (al = true -> allow = true) ->
  schedule st e mx al seed rs = (st', Some (d, rc)) ->
  retry_pre total allow (snd (fst (wait_for_recovery rc st' w))).
Proof.
  intros (Ho & Hf & Hz) Hfm Hcm Hmx Hal H.
  apply schedule_Some in H as (_ & _ & Ef & [(_ & Hlt & Eo & Ec)|(Hn & Eo & Ec)]);
    destruct w; unfold retry_pre; simpl; rewrite Eo, Ec, Ef; split_and!; try lia; try done.
  1,4: unfold sat_add; lia.
  1,3: unfold sat_add; lia.
  all: intros ->; apply andb_true_iff in Hn as [Ha _]; by specialize (Hal Ha).
Qed.

Lemma switch_pre total allow st e seed rs st' d rc w :
  retry_post total allow st -> failed_attempts st <= u32_max -> connection_retries st <= u32_max ->
  schedule (switch_to_buffered st) e total false seed rs = (st', Some (d, rc)) ->
  retry_pre total allow (snd (fst (wait_for_recovery rc st' w))).
Proof.
  intros Hp Hf Hc Es.
  refine (schedule_pre total allow (switch_to_buffered st) _ _ _ _ _ _ _ _ w Hp Hf Hc _ _ Es); done.
Qed.

Lemma stream_retries_le s p e :
  (if can_fallback s p e then
     N.min (max_stream_retries (ps_policy s)) (total_retries (ps_policy s) - 1)
   else max_stream_retries (ps_policy s)) <= total_retries (ps_policy s).
Proof. unfold total_retries. destruct (can_fallback s p e); lia. Qed.

Lemma wait_fields rc st w :
  failures (snd (fst (wait_for_recovery rc st w))) = failures st /\
  ordinary_retries (snd (fst (wait_for_recovery rc st w))) = ordinary_retries st.
Proof. by destruct w. Qed.

(** The streaming loop keeps the counters; a break leaves a logged error. *)
Lemma stream_loop_counters s p env : forall st request e st' request' evs,
  retry_pre (total_retries (ps_policy s)) (ps_allow_connection_wait s) st ->
  stream_loop redact est s p st request env = (e, st', request', evs) ->
  retry_post (total_retries (ps_policy s)) (ps_allow_connection_wait s) st' /\
  match e with
  | LBreak _ => failures st' <> [] /\ failed_attempts st' <= u32_max /\
                connection_retries st' <= u32_max
  | LReturn (Err err) => err = ProviderError.Cancelled
  | _ => True
  end.
Proof.
  induction env as [|a env IH]; intros st request e st' request' evs Hpre H; cbn in H.
  { simplify_eq. split; [by apply retry_pre_post|done]. }
  destruct (complete_stream_attempt _ _ _ _) as [[[r|f]|] evs1]; simplify_eq;
    try (split; [by apply retry_pre_post|done]).
  destruct (ProviderError.is_cancelled _); simplify_eq; [split; [by apply retry_pre_post|done]|].
  destruct (record_post _ _ st (sf_error f) (sa_elapsed a) Hpre) as (Hpost & Hfm & Hcm & Hne).
  destruct (schedule _ _ _ _ _ _) as [st1 [[d rc]|]] eqn:Es.
  - pose proof (schedule_pre _ _ _ _ _ _ _ _ _ _ _ (sa_wait a) Hpost Hfm Hcm
                  (stream_retries_le s p _) (fun H => H) Es) as Hpre'.
    destruct (wait_for_recovery rc st1 (sa_wait a)) as [[go st2] evs2]. simpl in Hpre'.
    destruct go; simplify_eq; [|split; [by apply retry_pre_post|done]].
    destruct (stream_loop redact est s p st2 _ env) as [[[e3 st3] rq3] evs3] eqn:El. simplify_eq.
    by eapply IH.
  - apply schedule_None in Es. simplify_eq. done.
Qed.

Lemma buffered_counters s p env : forall st request e st' request' evs,
  retry_pre (total_retries (ps_policy s)) (ps_allow_connection_wait s) st ->
  complete_buffered redact est s p st request env = (e, st', request', evs) ->
  retry_post (total_retries (ps_policy s)) (ps_allow_connection_wait s) st' /\
  match e with
  | LReturn (Err err) =>
      err = ProviderError.Cancelled \/
      (exists m, ProviderError.metadata err = Some m /\ em_attempts m = failures st' /\
                 failures st' <> [])
  | LBreak _ => False
  | _ => True
  end.
Proof.
  induction env as [|a env IH]; intros st request e st' request' evs Hpre H; cbn in H.
  { simplify_eq. split; [by apply retry_pre_post|done]. }
  destruct (complete_buffered_attempt _ _) as [r|err]; simplify_eq;
    [split; [by apply retry_pre_post|done]|].
  destruct (ProviderError.is_cancelled err) eqn:Ec; simplify_eq.
  { split; [by apply retry_pre_post|]. left. by destruct err. }
  destruct (record_post _ _ st err (ba_elapsed a) Hpre) as (Hpost & Hfm & Hcm & Hne).
  destruct (schedule _ _ _ _ _ _) as [st1 [[d rc]|]] eqn:Es.
  - assert (Hmx : N.max (max_request_retries (ps_policy s)) (max_stream_retries (ps_policy s))
                  <= total_retries (ps_policy s)) by (unfold total_retries; lia).
    pose proof (schedule_pre _ _ _ _ _ _ _ _ _ _ _ (ba_wait a) Hpost Hfm Hcm Hmx
                  (fun H => H) Es) as Hpre'.
    destruct (wait_for_recovery rc st1 (ba_wait a)) as [[go st2] evs2]. simpl in Hpre'.
    destruct go; simplify_eq; [|split; [by apply retry_pre_post|by left]].
    destruct (complete_buffered redact est s p st2 _ env) as [[[e3 st3] rq3] evs3] eqn:El.
    simplify_eq. by eapply IH.
  - apply schedule_None in Es. simplify_eq. split; [done|]. right.
    destruct (with_failures_attempts _ (with_failures (record_failure redact st err (ba_elapsed a)) err)
                Hne) as (m & Hm & Ha). by exists m.
Qed.

(** One retry budget for both transports. Whatever the provider and the
    network do, a logical request makes at most as many ordinary retries as the
    larger of the two configured limits, and at most one more failed attempt than
    its ordinary and connection retries together, the switch of transport included;
    with connection waiting off there is no connection retry, so the configured
    limit plus one bounds all attempts. *)
Theorem attempts_within_budget s p request env r st request' evs :
  complete_provider redact est s p request env = (r, st, request', evs) ->
  ordinary_retries st <= total_retries (ps_policy s) /\
  failed_attempts st <= ordinary_retries st + connection_retries st + 1 /\
  (ps_allow_connection_wait s = false ->
     failed_attempts st <= total_retries (ps_policy s) + 1).
Proof.
  intros H.
  assert (Hpost : retry_post (total_retries (ps_policy s)) (ps_allow_connection_wait s) st).
  { unfold complete_provider in H.
    destruct (stream_loop _ _ _ _ _ _ _) as [[[e st1] rq1] evs1] eqn:El.
    apply stream_loop_counters in El as [Hp He]; [|by apply retry_pre_default].
    destruct e as [|error|]; simplify_eq; try done.
    destruct (can_fallback s p error); simplify_eq; [|done]. destruct He as (_ & Hfm & Hcm).
    destruct (schedule _ _ _ _ _ _) as [st2 [[d rc]|]] eqn:Es.
    - pose proof (switch_pre _ _ _ _ _ _ _ _ _ (sc_switch_wait env) Hp Hfm Hcm Es) as Hpre.
      destruct (wait_for_recovery rc st2 (sc_switch_wait env)) as [[go st3] evs2]. simpl in Hpre.
      destruct go; simplify_eq; [|by apply retry_pre_post].
      destruct (complete_buffered _ _ _ _ _ _ _) as [[[e4 st4] rq4] evs4] eqn:Eb. simplify_eq.
      by apply buffered_counters in Eb as [? _].
    - apply schedule_None in Es. by simplify_eq. }
  destruct Hpost as (Ho & Hf & Hz). split_and!; [done|done|]. intros Ha. specialize (Hz Ha). lia.
Qed.

(** A request that fails reports its whole failure history. An error other
    than cancellation carries the log of the attempts, which is not empty; and
    cancellation is returned bare. *)
Theorem failed_request_carries_log s p request env e st request' evs :
  complete_provider redact est s p request env = (Some (Err e), st, request', evs) ->
  e = ProviderError.Cancelled \/
  exists m, ProviderError.metadata e = Some m /\ em_attempts m = failures st /\
            failures st <> [].
Proof.
  intros H. unfold complete_provider in H.
  destruct (stream_loop _ _ _ _ _ _ _) as [[[e0 st1] rq1] evs1] eqn:El.
  apply stream_loop_counters in El as [Hp He]; [|by apply retry_pre_default].
  assert (Hlog : forall st error, failures st <> [] -> exists m,
    ProviderError.metadata (with_failures st error) = Some m /\ em_attempts m = failures st /\
    failures st <> []).
  { intros st0 error Hne. destruct (with_failures_attempts st0 error Hne) as (m & ? & ?). eauto. }
  destruct e0 as [r|error|]; simplify_eq; [by left|].
  destruct He as (Hne & Hfm & Hcm). destruct (can_fallback s p error); simplify_eq; [|by right; apply Hlog].
  destruct (schedule _ _ _ _ _ _) as [st2 [[d rc]|]] eqn:Es.
  - pose proof (switch_pre _ _ _ _ _ _ _ _ _ (sc_switch_wait env) Hp Hfm Hcm Es) as Hpre.
    destruct (wait_for_recovery rc st2 (sc_switch_wait env)) as [[go st3] evs2]. simpl in Hpre.
    destruct go; simplify_eq; [|by left].
    destruct (complete_buffered _ _ _ _ _ _ _) as [[[e4 st4] rq4] evs4] eqn:Eb. simplify_eq.
    apply buffered_counters in Eb as [_ Hb]; [|done]. destruct e4 as [r|?|]; simplify_eq/=; done.
  - apply schedule_None in Es. simplify_eq. right. by apply Hlog.
Qed.

(** The attempts of a script that come to an end, and those that fail to connect in a way
    the session waits out. *)
Definition stream_ends (s : ProviderSession) (p : LlmProvider) (a : StreamAttempt) : Prop :=
  fst (complete_stream_attempt (ps_policy s) p false (sa_script a)) <> None.
Definition stream_waited (s : ProviderSession) (p : LlmProvider) (a : StreamAttempt) : bool :=
  match fst (complete_stream_attempt (ps_policy s) p false (sa_script a)) with
  | Some (Err f) => ps_allow_connection_wait s && is_connection_failure (sf_error f)
  | _ => false
  end.
Definition buffered_waited (s : ProviderSession) (a : BufferedAttempt) : bool :=
  match complete_buffered_attempt (ps_policy s) (ba_event a) with
  | Err e => ps_allow_connection_wait s && is_connection_failure e
  | Ok _ => false
  end.

(** How many attempts are not waited out. *)
Definition counting {A} (waited : A -> bool) (env : list A) : N :=
  N.of_nat (length (List.filter (negb ∘ waited) env)).

Lemma counting_cons {A} (waited : A -> bool) a env :
  counting waited (a :: env) = (if waited a then 0 else 1) + counting waited env.
Proof. unfold counting. cbn. destruct (waited a); cbn; lia. Qed.

(** A granted retry uses up the budget, or answers a failure that is waited out. *)
Lemma granted_retry total st e el mx allow seed rs st1 d rc w :
  let st0 := record_failure redact st e el in
  schedule st0 (with_failures st0 e) mx allow seed rs = (st1, Some (d, rc)) -> mx <= total ->
  ordinary_retries st <= total ->
  let st2 := snd (fst (wait_for_recovery rc st1 w)) in
  ordinary_retries st2 <= total /\
  ordinary_retries st2 = ordinary_retries st + (if allow && is_connection_failure e then 0 else 1).
Proof.
  cbn zeta. intros Es Hmx Hle. rewrite (proj2 (wait_fields _ _ _)).
  apply schedule_Some in Es as (_ & _ & _ & [(Hn & Hlt & Eo & _)|(Hn & Eo & _)]);
    rewrite with_failures_connection in Hn; rewrite Hn, !Eo;
    change (ordinary_retries (record_failure redact st e el)) with (ordinary_retries st) in *; lia.
Qed.

Lemma stream_loop_ends s p env : forall st request e st' request' evs,
  Forall (stream_ends s p) env ->
  ordinary_retries st <= total_retries (ps_policy s) ->
  total_retries (ps_policy s) < ordinary_retries st + counting (stream_waited s p) env ->
  stream_loop redact est s p st request env = (e, st', request', evs) -> e <> LPending.
Proof.
  induction env as [|a env IH]; intros st request e st' request' evs Hs Hle Hl H.
  { change (counting _ []) with 0 in Hl. lia. }
  rewrite counting_cons in Hl. cbn [stream_loop] in H.
  apply Forall_cons in Hs as [Ha Hs]. unfold stream_ends in Ha. unfold stream_waited at 1 in Hl.
  destruct (complete_stream_attempt _ _ _ _) as [[[r|f]|] evs1]; simplify_eq/=; try done.
  destruct (ProviderError.is_cancelled _); simplify_eq; [done|].
  destruct (schedule _ _ _ _ _ _) as [st1 [[d rc]|]] eqn:Es; [|by simplify_eq].
  destruct (granted_retry _ _ _ _ _ _ _ _ _ _ _ (sa_wait a) Es (stream_retries_le s p _) Hle) as [Hle2 Heq].
  destruct (wait_for_recovery rc st1 (sa_wait a)) as [[go st2] evs2]. simpl in Hle2, Heq.
  destruct go; simplify_eq; [|done].
  destruct (stream_loop redact est s p st2 _ env) as [[[e3 st3] rq3] evs3] eqn:El. simplify_eq.
  eapply (IH st2); [done..| |exact El]. destruct (_ && _); lia.
Qed.

Lemma buffered_ends s p env : forall st request e st' request' evs,
  ordinary_retries st <= total_retries (ps_policy s) ->
  total_retries (ps_policy s) < ordinary_retries st + counting (buffered_waited s) env ->
  complete_buffered redact est s p st request env = (e, st', request', evs) -> e <> LPending.
Proof.
  induction env as [|a env IH]; intros st request e st' request' evs Hle Hl H.
  { change (counting _ []) with 0 in Hl. lia. }
  rewrite counting_cons in Hl. cbn [complete_buffered] in H. unfold buffered_waited at 1 in Hl.
  destruct (complete_buffered_attempt _ _) as [r|err]; simplify_eq/=; [done|].
  destruct (ProviderError.is_cancelled _); simplify_eq; [done|].
  destruct (schedule _ _ _ _ _ _) as [st1 [[d rc]|]] eqn:Es; [|by simplify_eq].
  assert (Hmx : N.max (max_request_retries (ps_policy s)) (max_stream_retries (ps_policy s))
                <= total_retries (ps_policy s)) by (unfold total_retries; lia).
  destruct (granted_retry _ _ _ _ _ _ _ _ _ _ _ (ba_wait a) Es Hmx Hle) as [Hle2 Heq].
  destruct (wait_for_recovery rc st1 (ba_wait a)) as [[go st2] evs2]. simpl in Hle2, Heq.
  destruct go; simplify_eq; [|done].
  destruct (complete_buffered redact est s p st2 _ env) as [[[e3 st3] rq3] evs3] eqn:El.
  simplify_eq. eapply (IH st2); [done| |exact El]. destruct (_ && _); lia.
Qed.

Lemma connection_failure_is_retryable e : is_connection_failure e = true ->
  is_retryable e = true /\ ProviderError.is_cancelled e = false.
Proof.
  intros H. split; [|by destruct e]. induction e as [| | | | | | | |e IH m]; cbn in *; try done.
  unfold ProviderError.http_status, client_error_status in *. cbn in *.
  destruct (em_http_status m); [done|]. cbn. by apply IH.
Qed.

(** Failures to connect that are waited out are never the last attempt. *)
Lemma waited_stream_goes_on s p env : forall st request,
  Forall (fun a => stream_waited s p a = true /\ is_Some (sa_wait a)) env ->
  fst (fst (fst (stream_loop redact est s p st request env))) = LPending.
Proof.
  induction env as [|a env IH]; intros st request Hs; [done|].
  apply Forall_cons in Hs as [[Ha [w Hw]] Hs]. cbn [stream_loop]. unfold stream_waited in Ha.
  destruct (complete_stream_attempt _ _ _ _) as [[[r|f]|] evs1]; simplify_eq/=; try done.
  apply andb_true_iff in Ha as [Hal Hc]. destruct (connection_failure_is_retryable _ Hc) as [Hr ->].
  unfold schedule. rewrite with_failures_retryable, Hr, Hal, with_failures_connection, Hc, Hw. cbn.
  match goal with |- context [stream_loop redact est s p ?st2 ?rq env] =>
    specialize (IH st2 rq Hs); destruct (stream_loop redact est s p st2 rq env) as [[[? ?] ?] ?] end.
  done.
Qed.


(** An error that is not retryable, such as a rejected request, ends the
    request at once: no wait, no second attempt and no other transport; the provider's
    own error is returned, with its log of one entry. *)
Theorem non_retryable_fails_at_once s p request a rest w buffered f evs1 :
  complete_stream_attempt (ps_policy s) p false (sa_script a) = (Some (Err f), evs1) ->
  ProviderError.is_cancelled (sf_error f) = false ->
  is_retryable (sf_error f) = false ->
  exists st request',
    let st1 := record_failure redact default_retry_state (sf_error f) (sa_elapsed a) in
    complete_provider redact est s p request (mkScript (a :: rest) w buffered)
      = (Some (Err (with_failures st1 (with_failures st1 (sf_error f)))), st, request', evs1) /\
    failed_attempts st = 1.
Proof.
  intros Ha Hc Hr. unfold complete_provider. cbn [sc_stream stream_loop]. rewrite Ha, Hc.
  set (st1 := record_failure redact default_retry_state (sf_error f) (sa_elapsed a)).
  unfold schedule at 1. rewrite with_failures_retryable, Hr. cbn [negb].
  assert (E : can_fallback s p (with_failures st1 (sf_error f)) = false).
  { unfold can_fallback, transport_fallback_eligible. rewrite with_failures_retryable, Hr.
    by destruct (enable_transport_fallback _), (lp_supports_buffered_transport p). }
  rewrite E. by do 2 eexists.
Qed.
End Attempts.

(** ** Witnesses *)

Definition demo_provider : LlmProvider := mkProvider "openai" "m1" true.
Definition demo_session : ProviderSession :=
  with_connection_wait (session_new demo_provider None default_policy) false.
Definition demo_request : ProviderRequest := mkProviderRequest 99 1 2 None "openai" "m1" [] 0 None.
Definition interrupted : ProviderError :=
  ProviderError.with_stream_interrupted (ProviderError.Unavailable "reset").
Definition failing_stream : StreamAttempt :=
  mkStreamAttempt [SelEvent (Some (ProviderStreamEvent.TextDelta "x")); SelResult [] (Err interrupted)]
    5 (Some 250000000).
Definition failing_buffered : BufferedAttempt := mkBufferedAttempt BufTimeout 7 (Some 250000000).
Definition demo_script : ProviderScript :=
  mkScript (replicate 3 failing_stream) (Some 1) (replicate 3 failing_buffered).
Definition rejected : StreamAttempt :=
  mkStreamAttempt [SelResult [] (Err (ProviderError.with_metadata (ProviderError.Unavailable "bad")
    (mkErrorMetadata (Some 200) (Some 400) None None None false None None None [])))] 5 None.
Definition demo_run := complete_provider (fun s => s) (fun ms => N.of_nat (length ms))
  demo_session demo_provider demo_request demo_script.

Lemma attempts_within_budget_witness : failed_attempts (snd (fst (fst demo_run))) <= 3.
Proof.
  destruct demo_run as [[[r st] rq] evs] eqn:E.
  exact (proj2 (proj2 (attempts_within_budget _ _ _ _ _ _ _ _ _ _ E)) eq_refl).
Defined.

Lemma failed_request_carries_log_witness :
  match demo_run with
  | (Some (Err e), st, _, _) =>
      e = ProviderError.Cancelled \/
      exists m, ProviderError.metadata e = Some m /\ em_attempts m = failures st /\ failures st <> []
  | _ => False
  end.
Proof.
  destruct demo_run as [[[[[r|e]|] st] rq] evs] eqn:E; [vm_compute in E; discriminate E| |
    vm_compute in E; discriminate E].
  exact (failed_request_carries_log _ _ _ _ _ _ _ _ _ _ E).
Defined.

(** With the default policy, which waits for the network: one failure to connect comes
    between the attempts. *)
Definition waiting_session : ProviderSession := session_new demo_provider None default_policy.
Definition unconnected : StreamAttempt :=
  mkStreamAttempt [SelResult [] (Err (ProviderError.ConnectionFailed "no route"))] 5 (Some 5000000000).
Definition waiting_script : ProviderScript :=
  mkScript (failing_stream :: unconnected :: replicate 2 failing_stream) (Some 1) (replicate 3 failing_buffered).


Lemma non_retryable_fails_at_once_witness :
  exists st rq e, complete_provider (fun s => s) (fun _ => 0) demo_session demo_provider demo_request
    (mkScript [rejected; failing_stream] (Some 1) [failing_buffered]) = (Some (Err e), st, rq, []) /\
    failed_attempts st = 1.
Proof.
  destruct (non_retryable_fails_at_once (fun s => s) (fun _ => 0) demo_session demo_provider
    demo_request rejected [failing_stream] (Some 1) [failing_buffered]
    (mkStreamFailure (ProviderError.with_metadata (ProviderError.Unavailable "bad")
    (mkErrorMetadata (Some 200) (Some 400) None None None false None None None [])) false) [])
    as (st & rq & H & Hf); [reflexivity..|].
  by do 3 eexists.
Defined.
