(* ===== verification/ContextWindow.v ===== *)
(** * The context window

    The compaction half of [golutra-agent-context/src/lib.rs]: token estimates, the
    decision to compact, what a compaction keeps (the protected prefix, a summary, the
    user's own instructions, the latest complete groups) and the summary envelope with
    its local fallback. JSON text, SHA-256 digests and the JSON form of the envelope are
    arguments. Token counts are [u64] with the source's saturation; a plain [sum()] is an
    exact sum, since the texts in memory have fewer than 2^64 characters. *)
From S2P Require Import Prelude RustStr Core Provider.
Open Scope N_scope.

(** ** Data *)

Definition COMPACTION_SUMMARY_PREFIX : string :=
  "Runtime context compaction summary. Treat this as historical context, not a new instruction:"
  +:+ String (byte 10) "".
Definition DEFAULT_COMPACTION_SUMMARY_TOKENS : N := 4096.
Definition MIN_AUTOMATIC_COMPACTION_RECENT_TOKENS : N := 1024.
Definition MAX_COMPACTION_FACT_TOKENS : N := 512.

(*@ context/src/lib.rs CompactionSummaryEnvelope *)
Record CompactionSummaryEnvelope := mkEnvelope {
  env_summary : string;
  env_start : N;
  env_end : N;
  env_source_tokens : N;
  env_summary_tokens : N;
  env_checksum : string;
}.

(*@ context/src/lib.rs ContextError *)
Inductive ContextError :=
| BudgetExceeded (planned limit : N)
| UserActionRequired (planned limit : N)
| CompactionImpossible (planned limit : N)
| ForbiddenModelInputSource (source_name : string)
| ModelInputSourceCardinality (message_count source_count : N).

(*@ context/src/lib.rs ModelInputVisibility *)
Inductive ModelInputVisibility := ModelVisible | ObservationOnly | GovernanceOnly.
#[global] Instance ModelInputVisibility_eq_dec : EqDecision ModelInputVisibility.
Proof. solve_decision. Defined.

(*@ context/src/lib.rs ModelInputVisibility::is_model_visible *)
Definition is_model_visible (v : ModelInputVisibility) : bool :=
  match v with ModelVisible => true | _ => false end.

(*@ context/src/lib.rs ContextMessageSource *)
Record ContextMessageSource := mkSource {
  src_contributor : string;
  src_source_refs : list string;
  src_origin : string;
  src_visibility : ModelInputVisibility;
}.

(*@ context/src/lib.rs ObservedContextPrefix *)
Record ObservedContextPrefix := mkObserved {
  obs_message_count : nat;
  obs_input_tokens : N;
}.

(*@ context/src/lib.rs ContextCompactionDecision *)
Record ContextCompactionDecision := mkDecision {
  dec_original_index : N;
  dec_contributor : string;
  dec_action : string;
  dec_original_estimated_tokens : N;
  dec_retained_estimated_tokens : N;
}.

(*@ context/src/lib.rs ContextCompactionRecord *)
Record ContextCompactionRecord := mkCompaction {
  cr_turn_id : TurnId;
  cr_compaction_id : string;
  cr_mode : string;
  cr_strategy : string;
  cr_summary_attempts : N;
  cr_summary_failure : option string;
  cr_original_message_count : nat;
  cr_replacement_message_count : nat;
  cr_dropped_message_count : nat;
  cr_protected_prefix_len : nat;
  cr_original_estimated_tokens : N;
  cr_replacement_estimated_tokens : N;
  cr_planned_tool_tokens : N;
  cr_compaction_limit : N;
  cr_target_input_tokens : N;
  cr_budget_limit : N;
  cr_summary : string;
  cr_checksum : string;
  cr_replacement_messages : list ProviderMessage;
  cr_replacement_sources : list ContextMessageSource;
  cr_message_decisions : list ContextCompactionDecision;
  cr_summary_source_messages : list ProviderMessage;
  cr_summary_source_sources : list ContextMessageSource;
  cr_summary_token_budget : N;
}.

(*@ context/src/lib.rs ContextWindowManager *)
Record ContextWindowManager := mkWindow {
  wm_budget_limit : N;
  wm_target_percent : N;
}.

(*@ context/src/lib.rs ContextWindowManager::new *)
Definition new_window (budget_limit : N) : ContextWindowManager := mkWindow budget_limit 80.

(*@ context/src/lib.rs ContextWindowManager::with_target_percent *)
Definition with_target_percent (m : ContextWindowManager) (target_percent : N) : ContextWindowManager :=
  mkWindow (wm_budget_limit m) (clamp 50 95 target_percent).

(** ** Estimates *)

(*@ context/src/lib.rs estimate_tokens *)
Definition estimate_tokens (content : string) : N := (char_count content + 3) / 4.

(*@ context/src/lib.rs sum_estimates *)
Definition sum_estimates (estimates : list N) : N := fold_left (sat_add u64_max) estimates 0.

(*@ context/src/lib.rs compact_text *)
Definition compact_text (value : string) (token_budget : N) : string :=
  take_chars (sat_mul u64_max token_budget 4) (join " " (split_whitespace value)).

(*@ context/src/lib.rs truncate_to_tokens *)
Definition truncate_to_tokens (value : string) (token_budget : N) : string :=
  compact_text value token_budget.

Definition exact_sum (l : list N) : N := fold_right N.add 0 l.

(** [&messages\[a..b\]] with [a <= b <= len]. *)
Definition range {A} (a b : nat) (l : list A) : list A := take (b - a) (drop a l).

Section context.
(** [Value::to_string], the JSON of a message's metadata, and the digests. *)
Variable json_text : json -> string.
Variable metadata_text : ProviderMessageMetadata -> string.
Variable messages_digest : list ProviderMessage -> string.
Variable empty_digest : string.
(** [serde_json] on the envelope. *)
Variable render_envelope : CompactionSummaryEnvelope -> string.
Variable read_envelope : string -> option CompactionSummaryEnvelope.

(*@ context/src/lib.rs estimate_message_token *)
Definition estimate_message_token (m : ProviderMessage) : N :=
  let metadata_tokens :=
    if message_metadata_is_empty (pm_metadata m) then 0
    else estimate_tokens (metadata_text (pm_metadata m)) in
  sat_add u64_max
    (sat_add u64_max (estimate_tokens (pm_content m))
       (exact_sum ((fun c => estimate_tokens (json_text (pc_arguments c))) <$> pm_tool_calls m)))
    metadata_tokens.

(*@ context/src/lib.rs estimate_message_tokens *)
Definition estimate_message_tokens (messages : list ProviderMessage) : N :=
  exact_sum (estimate_message_token <$> messages).

(** The estimates given if there is one per message, fresh ones otherwise. *)
Definition checked_estimates (messages : list ProviderMessage) (message_estimates : list N) : list N :=
  if bool_decide (length message_estimates = length messages) then message_estimates
  else estimate_message_token <$> messages.

(*@ context/src/lib.rs context_tokens_with_observed_prefix_and_total *)
Definition context_tokens_with_observed_prefix_and_total (messages : list ProviderMessage)
    (message_estimates : list N) (total_message_tokens planned_tool_tokens : N)
    (observed_prefix : option ObservedContextPrefix) : N :=
  let estimates := checked_estimates messages message_estimates in
  match option_filter (fun o => bool_decide (obs_message_count o <= length messages)%nat) observed_prefix with
  | Some observed =>
      sat_add u64_max (obs_input_tokens observed)
        (sum_estimates (drop (obs_message_count observed) estimates))
  | None => sat_add u64_max total_message_tokens planned_tool_tokens
  end.

(*@ context/src/lib.rs context_tokens_with_observed_prefix *)
Definition context_tokens_with_observed_prefix (messages : list ProviderMessage)
    (message_estimates : list N) (planned_tool_tokens : N)
    (observed_prefix : option ObservedContextPrefix) : N :=
  let estimates := checked_estimates messages message_estimates in
  context_tokens_with_observed_prefix_and_total messages estimates (sum_estimates estimates)
    planned_tool_tokens observed_prefix.

(*@ context/src/lib.rs protected_context_tokens *)
Definition protected_context_tokens (protected_prefix_len : nat) (message_estimates : list N)
    (planned_tool_tokens : N) (observed_prefix : option ObservedContextPrefix) : N :=
  let prefix := Nat.min protected_prefix_len (length message_estimates) in
  let local_estimate := sat_add u64_max (sum_estimates (take prefix message_estimates)) planned_tool_tokens in
  match option_filter (fun o => bool_decide (obs_message_count o <= length message_estimates)%nat)
          observed_prefix with
  | None => local_estimate
  | Some observed =>
      let count := obs_message_count observed in
      N.max local_estimate
        (if bool_decide (count < prefix)%nat then
           sat_add u64_max (obs_input_tokens observed) (sum_estimates (range count prefix message_estimates))
         else obs_input_tokens observed - sum_estimates (range prefix count message_estimates))
  end.

(*@ context/src/lib.rs ContextWindowManager::required_compaction_limit_with_observed_prefix *)
Definition required_compaction_limit_with_observed_prefix (w : ContextWindowManager)
    (messages : list ProviderMessage) (message_estimates : list N) (planned_tool_tokens : N)
    (observed_prefix : option ObservedContextPrefix) : option N :=
  if wm_budget_limit w =? 0 then None
  else
    let estimates := checked_estimates messages message_estimates in
    if context_tokens_with_observed_prefix messages estimates planned_tool_tokens observed_prefix
       <=? wm_budget_limit w then None
    else Some (wm_budget_limit w).

(** ** Groups and instructions *)

Definition opens_group (m : ProviderMessage) : bool :=
  bool_decide (pm_role m = ProviderRole.Assistant) && negb (bool_decide (length (pm_tool_calls m) = 0%nat)).
Definition is_tool (m : ProviderMessage) : bool := bool_decide (pm_role m = ProviderRole.Tool).

(** The loops of [message_groups]: the group begun at [start] takes in tool results as
    long as it was opened by an assistant's calls. *)
(*@ context/src/lib.rs message_groups *)
Fixpoint groups_from (start index : nat) (open : bool) (messages : list ProviderMessage)
    : list (nat * nat) :=
  match messages with
  | [] => [(start, index)]
  | m :: rest =>
      if open && is_tool m then groups_from start (S index) open rest
      else (start, index) :: groups_from index (S index) (opens_group m) rest
  end.
(*@ context/src/lib.rs message_groups *)
Definition message_groups (messages : list ProviderMessage) : list (nat * nat) :=
  match messages with [] => [] | m :: rest => groups_from 0 1 (opens_group m) rest end.

Definition is_user_instruction (messages : list ProviderMessage) (sources : list ContextMessageSource)
    (index : nat) : bool :=
  is_some_and (fun m => bool_decide (pm_role m = ProviderRole.User)) (messages !! index)
  && is_some_and (fun s => bool_decide (src_contributor s ∈ ["user_message"; "objective"])
                           && is_model_visible (src_visibility s)) (sources !! index).

(** The candidates that fit, in the order they are tried. *)
Fixpoint fit_instructions (messages : list ProviderMessage) (remaining : N) (retained : list nat)
    (candidates : list nat) : list nat :=
  match candidates with
  | [] => retained
  | index :: rest =>
      let tokens := from_option estimate_message_token 0 (messages !! index) in
      if negb (bool_decide (index ∈ retained)) && (tokens <=? remaining)
      then fit_instructions messages (remaining - tokens) (retained ++ [index]) rest
      else fit_instructions messages remaining retained rest
  end.

(*@ context/src/lib.rs retained_user_instructions *)
Definition retained_user_instructions (messages : list ProviderMessage)
    (sources : list ContextMessageSource) (start : nat) (budget : N) : list nat :=
  let candidates :=
    List.filter (is_user_instruction messages sources) (seq start (length messages - start)) in
  merge_sort Nat.le
    (fit_instructions messages budget [] (option_list (head candidates) ++ reverse candidates)).

(** ** Compacted groups *)

Definition compacted_arguments : json := JObject [("compacted", JBool true)].

(*@ context/src/lib.rs compact_message_group *)
Definition compact_message_group (messages : list ProviderMessage) (budget : N) : list ProviderMessage :=
  if bool_decide (length messages = 0%nat) || (budget =? 0) then []
  else
    let per_message := N.max (budget / N.of_nat (length messages)) 1 in
    let arguments_tokens c := estimate_tokens (json_text (pc_arguments c)) in
    (fun m =>
       let content_budget := per_message - exact_sum (arguments_tokens <$> pm_tool_calls m) in
       mkProviderMessage (pm_role m) (truncate_to_tokens (pm_content m) content_budget)
         (pm_tool_call_id m) (pm_tool_name m)
         ((fun c => if per_message <? arguments_tokens c
                    then mkProviderToolCall (pc_tool_call_id c) (pc_tool_name c) compacted_arguments
                    else c) <$> pm_tool_calls m)
         (mkMessageMetadata [])) <$> messages.

(** ** Summaries *)

Definition is_hex_digit (c : N) : bool :=
  is_ascii_digit c || ((65 <=? c) && (c <=? 70)) || ((97 <=? c) && (c <=? 102)).

(*@ context/src/lib.rs parse_compaction_summary_envelope *)
Definition parse_compaction_summary_envelope (value : string) : option CompactionSummaryEnvelope :=
  parsed ← read_envelope (trim value);
  checksum ← strip_prefix "sha256:" (env_checksum parsed);
  if trim_is_empty (env_summary parsed) || (env_end parsed <? env_start parsed)
     || negb (env_summary_tokens parsed =? estimate_tokens (env_summary parsed))
     || negb (str_len checksum =? 64)
     || negb (forallb (fun a => is_hex_digit (byte_of a)) (String.list_ascii_of_string checksum))
  then None else Some parsed.

(*@ context/src/lib.rs compaction_context_content *)
Definition compaction_context_content (value : string) : option string :=
  (fun _ => COMPACTION_SUMMARY_PREFIX +:+ trim value) <$> parse_compaction_summary_envelope value.

(*@ context/src/lib.rs compaction_summary_from_context_content *)
Definition compaction_summary_from_context_content (value : string) : option CompactionSummaryEnvelope :=
  parse_compaction_summary_envelope (default value (strip_prefix COMPACTION_SUMMARY_PREFIX value)).

(*@ context/src/lib.rs empty_compaction_summary_envelope *)
Definition empty_compaction_summary_envelope : string :=
  render_envelope (mkEnvelope "" 0 0 0 0 empty_digest).

(** The bisection of [compaction_summary_envelope] on the characters kept; each turn
    halves the interval, so the number of characters is fuel enough. *)
(*@ context/src/lib.rs:2587-2605 compaction_summary_envelope *)
Fixpoint bisect (fits : nat -> bool) (fuel lower upper : nat) (best : option nat) : option nat :=
  match fuel with
  | O => best
  | S fuel =>
      if bool_decide (lower <= upper)%nat then
        let middle := (lower + (upper - lower) / 2)%nat in
        if fits middle then bisect fits fuel (S middle) upper (Some middle)
        else bisect fits fuel lower (middle - 1) best
      else best
  end.

(*@ context/src/lib.rs compaction_summary_envelope *)
Definition compaction_summary_envelope (summary : string) (range_start range_end source_tokens : N)
    (checksum : string) (token_budget : N) : string :=
  let summary := trim summary in
  if bool_decide (summary = "") || (range_end <? range_start) then ""
  else
    let render summary :=
      render_envelope (mkEnvelope summary range_start range_end source_tokens
                         (estimate_tokens summary) checksum) in
    if (token_budget =? u64_max) || (estimate_tokens (render summary) <=? token_budget)
    then render summary
    else
      let characters := chars summary in
      let prefix n := render (of_chars (take n characters)) in
      from_option prefix ""
        (bisect (fun n => estimate_tokens (prefix n) <=? token_budget)
           (length characters) 1 (length characters - 1) None).

(*@ context/src/lib.rs complete_compaction_summary_envelope *)
Definition complete_compaction_summary_envelope (summary : string)
    (range_start range_end source_tokens : N) (checksum : string) (token_budget : N) : option string :=
  let rendered :=
    compaction_summary_envelope summary range_start range_end source_tokens checksum u64_max in
  if negb (bool_decide (rendered = "")) && (estimate_tokens rendered <=? token_budget)
  then Some rendered else None.

(*@ context/src/lib.rs embedded_compaction_summary *)
Definition embedded_compaction_summary (m : ProviderMessage) (source : option ContextMessageSource)
    : option string :=
  let value :=
    match strip_prefix COMPACTION_SUMMARY_PREFIX (pm_content m) with
    | Some value => Some value
    | None =>
        (fun _ => pm_content m) <$>
          option_filter (fun s => bool_decide (src_contributor s = "working_summary")
                                  || bool_decide (src_origin s = "compaction_summary")) source
    end in
  env_summary <$> (value ≫= parse_compaction_summary_envelope).

Definition role_name (role : ProviderRole) : string :=
  match role with
  | ProviderRole.System => "system"
  | ProviderRole.User => "user"
  | ProviderRole.Assistant => "assistant"
  | ProviderRole.Tool => "tool"
  end.

(*@ context/src/lib.rs compaction_fact_from_message *)
Definition compaction_fact_from_message (m : ProviderMessage) : string :=
  let tool_names := join "," (pc_tool_name <$> pm_tool_calls m) in
  let suffix := if bool_decide (tool_names = "") then "" else " tools=" +:+ tool_names in
  let prefix := "[" +:+ role_name (pm_role m) +:+ suffix +:+ "] " in
  let content_budget := MAX_COMPACTION_FACT_TOKENS - estimate_tokens prefix in
  prefix +:+ compact_text (pm_content m) content_budget.

(** The recent facts, latest first, as long as they fit. *)
Fixpoint recent_facts (recent_budget used : N) (recent_reversed : list string)
    (lines_reversed : list string) : list string :=
  match lines_reversed with
  | [] => recent_reversed
  | line :: rest =>
      let fact := join " " (split_whitespace line) in
      if bool_decide (fact = "") || bool_decide (last recent_reversed = Some fact) then
        recent_facts recent_budget used recent_reversed rest
      else
        let fact_tokens := sat_add u64_max (estimate_tokens fact) 1 in
        if recent_budget <? sat_add u64_max used fact_tokens then
          match recent_reversed with
          | [] => let fitted := compact_text fact recent_budget in
                  if bool_decide (fitted = "") then [] else [fitted]
          | _ => recent_reversed
          end
        else recent_facts recent_budget (sat_add u64_max used fact_tokens) (recent_reversed ++ [fact]) rest
  end.

(*@ context/src/lib.rs deterministic_compaction_fallback *)
Definition deterministic_compaction_fallback (previous_summary : option string) (lines : list string)
    (token_budget : N) : string :=
  if token_budget =? 0 then ""
  else
    let nonempty := option_filter (fun v => negb (bool_decide (v = ""))) in
    let previous :=
      nonempty ((fun v => compact_text v (if bool_decide (lines = []) then token_budget
                                          else (token_budget + 1) / 2))
                <$> nonempty (trim <$> previous_summary)) in
    let previous_tokens := from_option estimate_tokens 0 previous in
    let recent_budget := token_budget - previous_tokens
                         - (match previous with Some _ => 1 | None => 0 end) in
    let recent := reverse (recent_facts recent_budget 0 [] (reverse lines)) in
    join (String (byte 10) "") (option_list previous ++ recent).

(** The lines of the messages, latest first, up to the budget and one fact more. *)
Fixpoint fallback_lines (token_budget candidate_tokens : N)
    (reversed : list (ProviderMessage * option ContextMessageSource)) : list string :=
  match reversed with
  | [] => []
  | (m, source) :: rest =>
      match embedded_compaction_summary m source with
      | Some _ => fallback_lines token_budget candidate_tokens rest
      | None =>
          let line := compaction_fact_from_message m in
          let candidate_tokens := sat_add u64_max candidate_tokens (estimate_tokens line) in
          line :: (if sat_add u64_max token_budget MAX_COMPACTION_FACT_TOKENS <=? candidate_tokens
                   then [] else fallback_lines token_budget candidate_tokens rest)
      end
  end.

(** Each message with its source, if there is one. *)
Definition with_sources (messages : list ProviderMessage) (sources : list ContextMessageSource)
    : list (ProviderMessage * option ContextMessageSource) :=
  imap (fun i m => (m, sources !! i)) messages.

(*@ context/src/lib.rs fallback_compaction_summary *)
Definition fallback_compaction_summary (messages : list ProviderMessage)
    (message_sources : list ContextMessageSource) (token_budget : N) : string :=
  if bool_decide (length messages = 0%nat) || (token_budget =? 0) then ""
  else
    let reversed := reverse (with_sources messages message_sources) in
    let previous_summary := head (omap (fun '(m, s) => embedded_compaction_summary m s) reversed) in
    deterministic_compaction_fallback previous_summary
      (reverse (fallback_lines token_budget 0 reversed)) token_budget.

(** ** Compaction *)

Definition inferred_contributor (role : ProviderRole) : string :=
  match role with
  | ProviderRole.System => "system_prompt"
  | ProviderRole.User => "runtime_context"
  | ProviderRole.Assistant => "assistant_recent"
  | ProviderRole.Tool => "tool_result_excerpt"
  end.

(*@ context/src/lib.rs normalized_message_sources *)
Definition normalized_message_sources (messages : list ProviderMessage)
    (message_sources : list ContextMessageSource) : list ContextMessageSource :=
  imap (fun index m =>
    default (mkSource (inferred_contributor (pm_role m))
               ["request:message:" +:+ show (N.of_nat index)] "inferred_legacy" ModelVisible)
      (message_sources !! index)) messages.

Record CompactionBudgets := mkBudgets {
  target_limit : N;
  target_available : N;
  summary_reserve : N;
  instruction_budget : N;
}.

(*@ context/src/lib.rs:605-629 ContextWindowManager::compact_if_needed_with_observed_prefix *)
Definition compaction_budgets (w : ContextWindowManager) (protected_tokens : N) : CompactionBudgets :=
  let compaction_limit := wm_budget_limit w in
  let hard_available := compaction_limit - protected_tokens in
  let target_limit :=
    N.min (N.max (sat_mul u64_max (wm_target_percent w) compaction_limit / 100)
                 (sat_add u64_max protected_tokens (N.min hard_available 128)))
      compaction_limit in
  let target_available := target_limit - protected_tokens in
  let minimum_summary_reserve :=
    sat_add u64_max (sat_add u64_max (estimate_tokens COMPACTION_SUMMARY_PREFIX)
                       (estimate_tokens empty_compaction_summary_envelope)) 16 in
  let recent_reserve := N.min target_available MIN_AUTOMATIC_COMPACTION_RECENT_TOKENS in
  let summary_reserve :=
    N.max (N.min (target_available - recent_reserve) DEFAULT_COMPACTION_SUMMARY_TOKENS)
          (N.min minimum_summary_reserve (target_available - 1)) in
  mkBudgets target_limit target_available summary_reserve
    (N.min ((target_available - summary_reserve) / 4) 2048).

(** The latest groups that fit together, as their total and where they begin. *)
(*@ context/src/lib.rs:645-662 ContextWindowManager::compact_if_needed_with_observed_prefix *)
Fixpoint retain_groups (tail_estimates : list N) (tail_budget retained_tokens : N) (start : nat)
    (groups_reversed : list (nat * nat)) : N * nat :=
  match groups_reversed with
  | [] => (retained_tokens, start)
  | (a, b) :: rest =>
      let total := sat_add u64_max retained_tokens (sum_estimates (range a b tail_estimates)) in
      if tail_budget <? total then (retained_tokens, start)
      else retain_groups tail_estimates tail_budget total a rest
  end.

(** What stays of the tail: the latest complete groups, or else the last group in
    shortened form. *)
(*@ context/src/lib.rs:643-673 ContextWindowManager::compact_if_needed_with_observed_prefix *)
Definition retained_tail (tail : list ProviderMessage) (tail_estimates : list N) (tail_budget : N)
    : list ProviderMessage * N :=
  let groups := message_groups tail in
  let '(tokens, start) := retain_groups tail_estimates tail_budget 0 (length tail) (reverse groups) in
  let retained := drop start tail in
  if bool_decide (length retained = 0%nat) && negb (bool_decide (length tail = 0%nat)) && (0 <? tail_budget)
  then
    let '(a, b) := default ((length tail - 1)%nat, length tail) (last groups) in
    let retained := compact_message_group (range a b tail) tail_budget in
    (retained, estimate_message_tokens retained)
  else (retained, tokens).

Definition summary_message (content : string) : ProviderMessage :=
  mkProviderMessage ProviderRole.User content None None [] (mkMessageMetadata []).

(** The source of a summary: what it was made from, and hidden if any of it was. *)
(*@ context/src/lib.rs:718-735 ContextWindowManager::compact_if_needed_with_observed_prefix *)
Definition summary_source (dropped_sources : list ContextMessageSource) : ContextMessageSource :=
  mkSource "working_summary" (dedup (sort_strings (flat_map src_source_refs dropped_sources)))
    "compaction_summary"
    (default ModelVisible
       (List.find (fun v => negb (is_model_visible v)) (src_visibility <$> dropped_sources))).

(*@ context/src/lib.rs:753-780 ContextWindowManager::compact_if_needed_with_observed_prefix *)
Definition message_decisions (sources : list ContextMessageSource) (estimates : list N)
    (protected_prefix_len retained_source_start : nat) (instruction_indices : list nat)
    : list ContextCompactionDecision :=
  imap (fun index source =>
    let retained := bool_decide (index < protected_prefix_len)%nat
                    || bool_decide (index ∈ instruction_indices)
                    || bool_decide (retained_source_start <= index)%nat in
    mkDecision (N.min (N.of_nat index) u32_max) (src_contributor source)
      (if bool_decide (index < protected_prefix_len)%nat then "protected"
       else if retained then "retained" else "summarized")
      (default 0 (estimates !! index))
      (if retained then default 0 (estimates !! index) else 0)) sources.

(*@ context/src/lib.rs ContextWindowManager::compact_if_needed_with_observed_prefix *)
Definition compact_if_needed_with_observed_prefix (w : ContextWindowManager) (turn_id : TurnId)
    (protected_prefix_len : nat) (messages : list ProviderMessage)
    (message_sources : list ContextMessageSource) (message_estimates : list N)
    (planned_tool_tokens : N) (observed_prefix : option ObservedContextPrefix)
    : result ContextError (option ContextCompactionRecord) :=
  let estimates := checked_estimates messages message_estimates in
  let original_estimated_tokens :=
    context_tokens_with_observed_prefix messages estimates planned_tool_tokens observed_prefix in
  let limit := wm_budget_limit w in
  if (limit =? 0) || (original_estimated_tokens <=? limit) then Ok None
  else
    let prefix := Nat.min protected_prefix_len (length messages) in
    let protected_message_tokens := sum_estimates (take prefix estimates) in
    let protected_tokens :=
      protected_context_tokens prefix estimates planned_tool_tokens observed_prefix in
    if limit <=? protected_tokens then Err (CompactionImpossible protected_tokens limit)
    else
      let budgets := compaction_budgets w protected_tokens in
      let sources := normalized_message_sources messages message_sources in
      let instructions :=
        retained_user_instructions messages sources prefix (instruction_budget budgets) in
      let instruction_tokens := exact_sum ((fun i => default 0 (estimates !! i)) <$> instructions) in
      let tail_budget := target_available budgets - summary_reserve budgets - instruction_tokens in
      let tail := drop prefix messages in
      let '(retained, retained_message_tokens) := retained_tail tail (drop prefix estimates) tail_budget in
      let dropped_end := (length tail - length retained)%nat in
      let dropped := take dropped_end tail in
      let dropped_sources := range prefix (prefix + dropped_end) sources in
      let dropped_message_count :=
        (length dropped
         - length (List.filter (fun i => bool_decide (i < prefix + dropped_end)%nat) instructions))%nat in
      let summary_overhead := estimate_message_tokens [summary_message COMPACTION_SUMMARY_PREFIX] in
      let summary_token_budget := summary_reserve budgets - summary_overhead in
      let summary :=
        compaction_summary_envelope
          (fallback_compaction_summary dropped dropped_sources summary_token_budget)
          0 (N.of_nat dropped_end) (sum_estimates (range prefix (prefix + dropped_end) estimates))
          (messages_digest dropped) summary_token_budget in
      let '(summary_messages, summary_sources) :=
        if bool_decide (summary = "") then ([], [])
        else ([summary_message (COMPACTION_SUMMARY_PREFIX +:+ summary)], [summary_source dropped_sources]) in
      let summary_message_tokens := exact_sum (estimate_message_token <$> summary_messages) in
      let retained_source_start := (length messages - length retained)%nat in
      let instructions :=
        List.filter (fun i => bool_decide (i < retained_source_start)%nat) instructions in
      let instruction_message_tokens :=
        sum_estimates ((fun i => default 0 (estimates !! i)) <$> instructions) in
      let replacement_messages :=
        take prefix messages ++ summary_messages ++ omap (messages !!.) instructions ++ retained in
      let replacement_sources :=
        take prefix sources ++ summary_sources ++ omap (sources !!.) instructions
        ++ drop retained_source_start sources in
      let replacement_estimated_tokens :=
        sat_add u64_max (sat_add u64_max (sat_add u64_max
          (sat_add u64_max protected_message_tokens summary_message_tokens) instruction_message_tokens)
          retained_message_tokens) planned_tool_tokens in
      if limit <? replacement_estimated_tokens then
        Err (CompactionImpossible replacement_estimated_tokens limit)
      else
        Ok (Some (mkCompaction turn_id "" "automatic" "fallback_facts_tail" 0 None
          (length messages) (length replacement_messages) dropped_message_count prefix
          original_estimated_tokens replacement_estimated_tokens planned_tool_tokens limit
          (target_limit budgets) limit summary (messages_digest replacement_messages)
          replacement_messages replacement_sources
          (message_decisions sources estimates prefix retained_source_start instructions)
          dropped dropped_sources summary_token_budget)).

(*@ context/src/lib.rs ContextCompactionRecord::supports_model_summary *)
Definition supports_model_summary (r : ContextCompactionRecord) : bool :=
  negb (bool_decide (length (cr_summary_source_messages r) = 0%nat))
  && bool_decide (length (cr_summary_source_sources r) = length (cr_summary_source_messages r))
  && forallb (fun s => is_model_visible (src_visibility s)) (cr_summary_source_sources r).

(** A provider's summary replaces the fallback, or [None] and nothing changes. *)
(*@ context/src/lib.rs ContextCompactionRecord::apply_model_summary *)
Definition apply_model_summary (r : ContextCompactionRecord) (summary : string)
    : option ContextCompactionRecord :=
  previous ← parse_compaction_summary_envelope (cr_summary r);
  rendered ← complete_compaction_summary_envelope summary (env_start previous) (env_end previous)
               (env_source_tokens previous) (env_checksum previous) (cr_summary_token_budget r);
  message ← cr_replacement_messages r !! cr_protected_prefix_len r;
  source ← cr_replacement_sources r !! cr_protected_prefix_len r;
  if negb (bool_decide (src_origin source = "compaction_summary")) then None
  else
    let messages :=
      <[cr_protected_prefix_len r :=
          mkProviderMessage (pm_role message) (COMPACTION_SUMMARY_PREFIX +:+ rendered)
            (pm_tool_call_id message) (pm_tool_name message) (pm_tool_calls message)
            (pm_metadata message)]> (cr_replacement_messages r) in
    Some (mkCompaction (cr_turn_id r) (cr_compaction_id r) (cr_mode r) "model_summary_tail"
      (cr_summary_attempts r) None (cr_original_message_count r) (length messages)
      (cr_dropped_message_count r) (cr_protected_prefix_len r) (cr_original_estimated_tokens r)
      (sat_add u64_max (estimate_message_tokens messages) (cr_planned_tool_tokens r))
      (cr_planned_tool_tokens r) (cr_compaction_limit r) (cr_target_input_tokens r)
      (cr_budget_limit r) rendered (messages_digest messages) messages
      (cr_replacement_sources r) (cr_message_decisions r) (cr_summary_source_messages r)
      (cr_summary_source_sources r) (cr_summary_token_budget r)).


(** ** Sums *)

Lemma exact_sum_app l k : exact_sum (l ++ k) = exact_sum l + exact_sum k.
Proof. induction l as [|x l IH]; simpl; [done|]. rewrite IH. lia. Qed.

Lemma sum_estimates_min l : sum_estimates l = N.min (exact_sum l) u64_max.
Proof.
  unfold sum_estimates.
  assert (H : forall acc, acc <= u64_max ->
    fold_left (sat_add u64_max) l acc = N.min (acc + exact_sum l) u64_max).
  { induction l as [|x l IH]; intros acc Ha; simpl; [lia|]. rewrite IH by apply sat_add_le_max.
    unfold sat_add. lia. }
  by rewrite H.
Qed.

(** ** Groups are consecutive *)

(** Ranges that follow one another from [a] to [c], none of them empty. *)
Fixpoint consecutive (a : nat) (l : list (nat * nat)) (c : nat) : Prop :=
  match l with
  | [] => a = c
  | (x, y) :: rest => x = a /\ (x < y)%nat /\ consecutive y rest c
  end.

Lemma consecutive_snoc a l x y c :
  consecutive a (l ++ [(x, y)]) c <-> consecutive a l x /\ (x < y)%nat /\ y = c.
Proof.
  revert a. induction l as [|[x' y'] l IH]; intros a; simpl; [naive_solver|]. rewrite IH. naive_solver.
Qed.

Lemma groups_from_consecutive messages : forall start index open,
  (start < index)%nat ->
  consecutive start (groups_from start index open messages) (index + length messages).
Proof.
  induction messages as [|m messages IH]; intros start index open Hs; simpl.
  - split_and!; [done|done|lia].
  - case_match.
    + replace (index + S (length messages))%nat with (S index + length messages)%nat by lia.
      apply IH. lia.
    + simpl. split_and!; [done|done|].
      replace (index + S (length messages))%nat with (S index + length messages)%nat by lia.
      apply IH. lia.
Qed.

Lemma message_groups_consecutive messages :
  consecutive 0 (message_groups messages) (length messages).
Proof. destruct messages as [|m messages]; [done|]. apply (groups_from_consecutive messages 0 1). lia. Qed.

(** ** What a suffix of groups costs *)

Lemma exact_sum_drop_range a b l :
  (a <= b)%nat -> exact_sum (drop a l) = exact_sum (range a b l) + exact_sum (drop b l).
Proof.
  intros Hab. unfold range. rewrite <- exact_sum_app.
  rewrite <- (take_drop (b - a) (drop a l)) at 1. rewrite drop_drop.
  by replace (a + (b - a))%nat with b by lia.
Qed.

Lemma retain_groups_spec estimates budget groups : forall start,
  consecutive 0 groups start ->
  forall tokens, tokens = N.min (exact_sum (drop start estimates)) u64_max ->
  forall tokens' start', retain_groups estimates budget tokens start (reverse groups) = (tokens', start') ->
  tokens' = N.min (exact_sum (drop start' estimates)) u64_max /\
  (start' <= start)%nat /\
  (start' = start \/ tokens' <= budget /\ exists stop, (start', stop) ∈ groups).
Proof.
  induction groups as [|[x y] groups IH] using rev_ind; intros start Hc tokens Ht tokens' start' Hr.
  { simpl in Hr. simplify_eq. auto. }
  rewrite reverse_snoc in Hr. simpl in Hr. apply consecutive_snoc in Hc as (Hc & Hxy & ->).
  destruct (budget <? _) eqn:E; Nbool; [simplify_eq; auto|].
  assert (Htot : sat_add u64_max tokens (sum_estimates (range x start estimates))
    = N.min (exact_sum (drop x estimates)) u64_max).
  { rewrite sum_estimates_min, (exact_sum_drop_range x start) by lia. subst tokens.
    unfold sat_add. lia. }
  rewrite Htot in *. destruct (IH x Hc _ eq_refl _ _ Hr) as (H1 & H2 & H3).
  split; [done|]. split; [lia|]. right. destruct H3 as [->|[Hb [stop Hin]]].
  - split; [by rewrite H1|]. exists start. apply elem_of_app. right. apply list_elem_of_here.
  - split; [done|]. exists stop. apply elem_of_app. by left.
Qed.

Lemma retained_tail_spec tail budget retained tokens :
  retained_tail tail (estimate_message_token <$> tail) budget = (retained, tokens) ->
  N.min tokens u64_max = N.min (estimate_message_tokens retained) u64_max /\
  ((exists s, retained = drop s tail /\ (s <= length tail)%nat /\
      (s = length tail \/ tokens <= budget /\ exists stop, (s, stop) ∈ message_groups tail)) \/
   (exists a, (a, length tail) ∈ message_groups tail /\
      retained = compact_message_group (range a (length tail) tail) budget)).
Proof.
  unfold retained_tail. set (ests := estimate_message_token <$> tail).
  assert (Hlen : length ests = length tail) by apply length_fmap.
  destruct (retain_groups ests budget 0 (length tail) (reverse (message_groups tail))) as [tok start] eqn:E.
  apply retain_groups_spec in E as (Htok & Hs & Hcase);
    [|apply message_groups_consecutive|rewrite drop_ge by lia; done].
  case_match eqn:Ec.
  - boolhyps. assert (Hg : tail <> []) by (by intros ->).
    assert (Hgr := message_groups_consecutive tail).
    destruct (message_groups tail) as [|g groups] using rev_ind.
    { simpl in Hgr. destruct tail; [done|]. simpl in Hgr. lia. }
    rewrite last_snoc. destruct g as [a b]. simpl. apply consecutive_snoc in Hgr as (_ & _ & ->).
    intros [= <- <-]. split; [done|]. right. exists a. split; [|done].
    apply elem_of_app. right. apply list_elem_of_here.
  - intros [= <- <-]. split.
    + rewrite Htok. unfold estimate_message_tokens, ests. rewrite <- fmap_drop. lia.
    + left. exists start. auto.
Qed.

Lemma omap_lookup_fmap {A B} (f : A -> B) (l : list A) (d : B) indices :
  Forall (fun i => (i < length l)%nat) indices ->
  f <$> omap (l !!.) indices = (fun i => default d ((f <$> l) !! i)) <$> indices.
Proof.
  induction 1 as [|i indices Hi _ IH]; [done|]. cbn [omap list_omap].
  destruct (lookup_lt_is_Some_2 l i Hi) as [x Hx]. rewrite Hx, !fmap_cons, IH, list_lookup_fmap, Hx.
  done.
Qed.

(** The instructions kept are user messages after the prefix. *)
Lemma fit_instructions_subset messages : forall candidates remaining retained i,
  i ∈ fit_instructions messages remaining retained candidates -> i ∈ retained \/ i ∈ candidates.
Proof.
  induction candidates as [|c candidates IH]; intros remaining retained i; simpl; [auto|].
  case_match; intros Hi; apply IH in Hi; set_solver.
Qed.

Lemma retained_instructions_spec messages sources start budget i :
  i ∈ retained_user_instructions messages sources start budget ->
  is_user_instruction messages sources i = true /\ (start <= i < length messages)%nat.
Proof.
  unfold retained_user_instructions. rewrite merge_sort_Permutation.
  intros Hi. apply fit_instructions_subset in Hi as [Hi|Hi]; [by apply not_elem_of_nil in Hi|].
  set (cs := List.filter _ _) in *.
  assert (Hcs : i ∈ cs).
  { apply elem_of_app in Hi as [Hi|Hi]; [|by rewrite elem_of_reverse in Hi].
    destruct cs; simpl in Hi; [by apply not_elem_of_nil in Hi|].
    apply list_elem_of_singleton in Hi as ->. apply list_elem_of_here. }
  subst cs. apply elem_of_lfilter in Hcs as [Hseq Hu]. apply elem_of_seq in Hseq. split; [done|lia].
Qed.

(** ** What a compaction makes *)

(** The parts of a replacement, and the totals they were checked with. *)
Record compacted (w : ContextWindowManager) (prefix : nat) (messages : list ProviderMessage)
    (sources : list ContextMessageSource) (planned_tool_tokens : N) (r : ContextCompactionRecord)
    (summary_part : list ProviderMessage) (instructions : list nat) (retained : list ProviderMessage)
    : Prop := mkCompacted {
  compacted_messages :
    cr_replacement_messages r
    = take prefix messages ++ summary_part ++ omap (messages !!.) instructions ++ retained;
  compacted_sources :
    cr_replacement_sources r
    = take prefix sources ++ (if bool_decide (length summary_part = 0%nat) then []
                              else [summary_source (cr_summary_source_sources r)])
      ++ omap (sources !!.) instructions ++ drop (length messages - length retained) sources;
  compacted_summary :
    summary_part = (if bool_decide (cr_summary r = "") then []
                    else [summary_message (COMPACTION_SUMMARY_PREFIX +:+ cr_summary r)]);
  compacted_dropped :
    cr_summary_source_sources r
    = range prefix (prefix + (length (drop prefix messages) - length retained)) sources;
  compacted_instructions :
    Forall (fun i => is_user_instruction messages sources i = true /\
                     (prefix <= i < length messages - length retained)%nat) instructions;
  compacted_tail :
    exists budget tokens, retained_tail (drop prefix messages)
      (estimate_message_token <$> drop prefix messages) budget = (retained, tokens) /\
    sat_add u64_max (sat_add u64_max (sat_add u64_max (sat_add u64_max
        (sum_estimates (take prefix (estimate_message_token <$> messages)))
        (exact_sum (estimate_message_token <$> summary_part)))
        (sum_estimates ((fun i => default 0 ((estimate_message_token <$> messages) !! i)) <$> instructions)))
        tokens) planned_tool_tokens = cr_replacement_estimated_tokens r;
  compacted_limit :
    cr_replacement_estimated_tokens r <= wm_budget_limit w < u64_max;
}.

Lemma checked_estimates_fresh messages :
  checked_estimates messages (estimate_message_token <$> messages) = estimate_message_token <$> messages.
Proof. unfold checked_estimates. by rewrite length_fmap, bool_decide_eq_true_2. Qed.

Lemma context_tokens_le_max messages estimates planned observed :
  context_tokens_with_observed_prefix messages estimates planned observed <= u64_max.
Proof.
  unfold context_tokens_with_observed_prefix, context_tokens_with_observed_prefix_and_total.
  case_match; apply sat_add_le_max.
Qed.

Lemma compaction_parts w turn_id protected messages message_sources planned observed r :
  compact_if_needed_with_observed_prefix w turn_id protected messages message_sources
    (estimate_message_token <$> messages) planned observed = Ok (Some r) ->
  let prefix := Nat.min protected (length messages) in
  exists summary_part instructions retained,
    compacted w prefix messages (normalized_message_sources messages message_sources) planned r
      summary_part instructions retained.
Proof.
  unfold compact_if_needed_with_observed_prefix. rewrite checked_estimates_fresh.
  set (prefix := Nat.min protected (length messages)).
  set (sources := normalized_message_sources messages message_sources).
  set (original := context_tokens_with_observed_prefix _ _ _ _).
  assert (Horig : original <= u64_max) by apply context_tokens_le_max.
  destruct (_ || _) eqn:E0; [done|]. apply orb_false_iff in E0 as [_ E0]. Nbool.
  destruct (_ <=? protected_context_tokens _ _ _ _); [done|].
  set (budgets := compaction_budgets w _). set (instr := retained_user_instructions _ _ _ _).
  rewrite <- fmap_drop. set (tail_budget := _ - _ - _).
  destruct (retained_tail _ _ tail_budget) as [retained tokens] eqn:Et.
  set (dropped_end := (length (drop prefix messages) - length retained)%nat).
  set (summary := compaction_summary_envelope _ _ _ _ _ _).
  set (kept := List.filter _ instr).
  destruct (if bool_decide (summary = "") then _ else _) as [summary_part summary_src] eqn:Es.
  destruct (_ <? _) eqn:El; [done|]. Nbool. intros [= <-].
  exists summary_part, kept, retained.
  split; cbn -[COMPACTION_SUMMARY_PREFIX].
  - reflexivity.
  - f_equal. f_equal. case_bool_decide; by simplify_eq/=.
  - by destruct (bool_decide (summary = "")); simplify_eq.
  - reflexivity.
  - apply Forall_forall. intros i Hi. apply elem_of_lfilter in Hi as [Hi Hlt]. boolhyps.
    apply retained_instructions_spec in Hi as [? ?]. split; [done|lia].
  - by exists tail_budget, tokens.
  - lia.
Qed.

(** The estimate of a replacement is the sum over its parts. *)
Lemma compacted_total w prefix messages sources planned r summary_part instructions retained :
  compacted w prefix messages sources planned r summary_part instructions retained ->
  estimate_message_tokens (cr_replacement_messages r) + planned = cr_replacement_estimated_tokens r.
Proof.
  intros [Hm _ _ _ Hi (budget & tokens & Ht & Htot) Hlim].
  apply retained_tail_spec in Ht as [Ht _]. rewrite Hm. unfold estimate_message_tokens in *.
  rewrite !fmap_app, !exact_sum_app, fmap_take.
  rewrite (omap_lookup_fmap estimate_message_token messages 0).
  - rewrite !sum_estimates_min in Htot. unfold sat_add in Htot. lia.
  - eapply Forall_impl; [exact Hi|]. simpl. lia.
Qed.

(** A compacted conversation fits the budget: by the same estimate that
    triggered the compaction, the messages that replace the conversation and the planned
    tool schemas together stay within the limit, and this total is the one recorded. *)
Theorem compaction_fits w turn_id protected messages message_sources planned observed r :
  compact_if_needed_with_observed_prefix w turn_id protected messages message_sources
    (estimate_message_token <$> messages) planned observed = Ok (Some r) ->
  estimate_message_tokens (cr_replacement_messages r) + planned = cr_replacement_estimated_tokens r /\
  cr_replacement_estimated_tokens r <= wm_budget_limit w.
Proof.
  intros H. apply compaction_parts in H as (summary_part & instructions & retained & Hc).
  split; [by eapply compacted_total|]. by destruct Hc as [_ _ _ _ _ _ [? _]].
Qed.

(** ** Tool results stay with their calls *)

(** Every tool result follows the assistant message whose calls it answers, or another
    result of the same calls. *)
Fixpoint results_attached (open : bool) (messages : list ProviderMessage) : bool :=
  match messages with
  | [] => true
  | m :: rest =>
      (negb (is_tool m) || open) && results_attached (if is_tool m then open else opens_group m) rest
  end.

Lemma results_attached_no_tool open m rest :
  is_tool m = false -> results_attached open (m :: rest) = results_attached (opens_group m) rest.
Proof. intros Ht. simpl. by rewrite Ht. Qed.

Lemma group_start_attached messages : forall start index open a b,
  results_attached open messages = true ->
  (a, b) ∈ groups_from start index open messages -> a <> start ->
  (index <= a)%nat /\ results_attached false (drop (a - index) messages) = true.
Proof.
  induction messages as [|m messages IH]; intros start index open a b Hr Hin Hne; simpl in Hin.
  { apply list_elem_of_singleton in Hin. by simplify_eq. }
  simpl in Hr. apply andb_true_iff in Hr as [Hm Hr].
  assert (Hdrop : forall k, (S index <= k)%nat -> drop (k - index) (m :: messages) = drop (k - S index) messages).
  { intros k Hk. replace (k - index)%nat with (S (k - S index)) by lia. done. }
  destruct (open && is_tool m) eqn:E.
  - apply andb_true_iff in E as [-> Et]. rewrite Et in Hr.
    destruct (IH _ _ _ _ _ Hr Hin Hne) as [? ?]. split; [lia|]. by rewrite Hdrop.
  - assert (Et : is_tool m = false).
    { destruct (is_tool m); [|done]. rewrite andb_true_r in E. subst open. done. }
    apply elem_of_cons in Hin as [|Hin]; [by simplify_eq|]. rewrite Et in Hr.
    destruct (decide (a = index)) as [->|Ha].
    + split; [lia|]. rewrite Nat.sub_diag. simpl. by rewrite Et.
    + destruct (IH _ _ _ _ _ Hr Hin Ha) as [? ?]. split; [lia|]. by rewrite Hdrop.
Qed.

Lemma message_group_attached messages a b :
  results_attached false messages = true -> (a, b) ∈ message_groups messages ->
  results_attached false (drop a messages) = true.
Proof.
  intros Hr Hin. destruct (decide (a = 0%nat)) as [->|Ha]; [done|].
  destruct messages as [|m messages]; [by apply not_elem_of_nil in Hin|]. simpl in Hin, Hr.
  apply andb_true_iff in Hr as [Hm Hr].
  assert (Et : is_tool m = false) by (by destruct (is_tool m)). rewrite Et in Hr.
  destruct (group_start_attached _ _ _ _ _ _ Hr Hin Ha) as [? Hd].
  destruct a as [|a]; [done|]. simpl in *. by rewrite Nat.sub_0_r in Hd.
Qed.

Lemma results_attached_fmap (f : ProviderMessage -> ProviderMessage) messages :
  (forall m, is_tool (f m) = is_tool m) -> (forall m, opens_group (f m) = opens_group m) ->
  forall open, results_attached open (f <$> messages) = results_attached open messages.
Proof.
  intros Ht Ho. induction messages as [|m messages IH]; intros open; [done|].
  rewrite fmap_cons. cbn [results_attached]. by rewrite Ht, Ho, IH.
Qed.

Lemma compact_group_attached messages budget open :
  results_attached open messages = true ->
  results_attached open (compact_message_group messages budget) = true.
Proof.
  intros Hr. unfold compact_message_group. case_match; [done|].
  rewrite results_attached_fmap; [done|done|].
  intros m. unfold opens_group. simpl. by rewrite length_fmap.
Qed.

Lemma compact_group_length messages budget :
  (length (compact_message_group messages budget) <= length messages)%nat.
Proof. unfold compact_message_group. case_match; simpl; [lia|]. by rewrite length_fmap. Qed.

Lemma results_attached_weaken messages open :
  results_attached false messages = true -> results_attached open messages = true.
Proof.
  destruct messages as [|m messages]; [done|]. simpl. destruct (is_tool m); [done|]. done.
Qed.

Lemma results_attached_app l k : forall open,
  results_attached open l = true -> results_attached false k = true ->
  results_attached open (l ++ k) = true.
Proof.
  induction l as [|m l IH]; intros open Hl Hk; simpl in *; [by apply results_attached_weaken|].
  apply andb_true_iff in Hl as [-> Hl]. by rewrite IH.
Qed.

Lemma results_attached_take n messages : forall open,
  results_attached open messages = true -> results_attached open (take n messages) = true.
Proof.
  revert n. induction messages as [|m messages IH]; intros [|n] open Hm; simpl in *; try done.
  apply andb_true_iff in Hm as [-> Hm]. by rewrite IH.
Qed.

Lemma results_attached_no_tools messages :
  Forall (fun m => is_tool m = false) messages -> forall open, results_attached open messages = true.
Proof. induction 1 as [|m messages Hm _ IH]; intros open; simpl; [done|]. by rewrite Hm, IH. Qed.

(** The kept suffix, whichever way it was made. *)
Lemma retained_tail_attached tail budget retained tokens :
  retained_tail tail (estimate_message_token <$> tail) budget = (retained, tokens) ->
  (length retained <= length tail)%nat /\
  (results_attached false tail = true -> results_attached false retained = true).
Proof.
  intros [_ [(s & -> & Hs & Hcase)|(a & Hg & ->)]]%retained_tail_spec.
  - split; [rewrite length_drop; lia|]. intros Ht.
    destruct Hcase as [->|[_ [stop Hin]]]; [by rewrite drop_all|by eapply message_group_attached].
  - split.
    + etrans; [apply compact_group_length|]. unfold range. rewrite length_take, length_drop. lia.
    + intros Ht. apply compact_group_attached. unfold range.
      rewrite take_ge by (rewrite length_drop; lia). by eapply message_group_attached.
Qed.

Lemma user_instructions_not_tools messages sources indices :
  Forall (fun i => is_user_instruction messages sources i = true) indices ->
  Forall (fun m => pm_role m = ProviderRole.User) (omap (messages !!.) indices).
Proof.
  induction 1 as [|i indices Hi _ IH]; [done|]. cbn [omap list_omap].
  unfold is_user_instruction in Hi. destruct (messages !! i) as [m|]; [|done].
  constructor; [|done]. apply andb_true_iff in Hi as [Hi _]. simpl in Hi. by boolhyps.
Qed.

Lemma omap_lookup_length {A} (l : list A) indices :
  Forall (fun i => (i < length l)%nat) indices -> length (omap (l !!.) indices) = length indices.
Proof.
  induction 1 as [|i indices Hi _ IH]; [done|]. cbn [omap list_omap].
  destruct (lookup_lt_is_Some_2 l i Hi) as [x ->]. simpl. by rewrite IH.
Qed.

Lemma normalized_length messages sources :
  length (normalized_message_sources messages sources) = length messages.
Proof. apply length_imap. Qed.

Lemma compacted_aligned w prefix messages message_sources planned r summary_part instructions retained :
  (prefix <= length messages)%nat ->
  compacted w prefix messages (normalized_message_sources messages message_sources) planned r
    summary_part instructions retained ->
  length (cr_replacement_sources r) = length (cr_replacement_messages r).
Proof.
  intros Hp [Hm Hs Hsum _ Hi (budget & tokens & Ht & _) _].
  apply retained_tail_attached in Ht as [Hl _]. rewrite length_drop in Hl.
  rewrite Hm, Hs, !length_app, !length_take, length_drop, normalized_length.
  assert (Hlt : Forall (fun i => (i < length messages)%nat) instructions).
  { eapply Forall_impl; [exact Hi|]. simpl. lia. }
  rewrite !omap_lookup_length by (by rewrite ?normalized_length).
  rewrite Hsum. case_bool_decide; simpl; lia.
Qed.

Lemma compacted_attached w prefix messages sources planned r summary_part instructions retained :
  compacted w prefix messages sources planned r summary_part instructions retained ->
  results_attached false messages = true -> results_attached false (drop prefix messages) = true ->
  results_attached false (cr_replacement_messages r) = true.
Proof.
  intros [-> _ Hsum _ Hi (budget & tokens & Ht & _) _] Hm Htail.
  apply retained_tail_attached in Ht as [_ Ht].
  apply results_attached_app; [by apply results_attached_take|].
  apply results_attached_app; [rewrite Hsum; by case_bool_decide|].
  apply results_attached_app; [|by apply Ht].
  apply results_attached_no_tools. eapply Forall_impl.
  - eapply user_instructions_not_tools. eapply Forall_impl; [exact Hi|]. by intros ? [? _].
  - intros m Hu. unfold is_tool. by rewrite Hu.
Qed.

(** ** What is kept is the most that fits *)

(** The user's instructions from [start] on, oldest first, and what a list of them costs. *)
Definition user_instructions (messages : list ProviderMessage) (sources : list ContextMessageSource)
    (start : nat) : list nat :=
  List.filter (is_user_instruction messages sources) (seq start (length messages - start)).

Definition instruction_cost (messages : list ProviderMessage) (indices : list nat) : N :=
  exact_sum ((fun i => from_option estimate_message_token 0 (messages !! i)) <$> indices).

(** An instruction that is tried before the one at [i]: the oldest, or a later one. *)
Definition tried_before (instructions : list nat) (i j : nat) : bool :=
  bool_decide (head instructions = Some j) || bool_decide (i < j)%nat.

(** The instructions kept under a budget: in their order, the oldest whenever it fits
    alone, and every other one unless it does not fit beside the oldest and the later ones
    that are kept. *)
Record best_instructions (messages : list ProviderMessage) (sources : list ContextMessageSource)
    (start : nat) (budget : N) (kept : list nat) : Prop := mkBest {
  best_in_order : StronglySorted Nat.lt kept;
  best_instruction i : i ∈ kept -> i ∈ user_instructions messages sources start;
  best_fit : instruction_cost messages kept <= budget;
  best_oldest i :
    head (user_instructions messages sources start) = Some i ->
    instruction_cost messages [i] <= budget -> i ∈ kept;
  best_latest i :
    i ∈ user_instructions messages sources start ->
    i ∈ kept \/
    budget < instruction_cost messages [i]
             + instruction_cost messages
                 (List.filter (tried_before (user_instructions messages sources start) i) kept);
}.

(** A message with its texts cut: who it is from and which calls it makes or answers stay. *)
Definition shortened (m m' : ProviderMessage) : Prop :=
  pm_role m' = pm_role m /\ pm_tool_call_id m' = pm_tool_call_id m /\ pm_tool_name m' = pm_tool_name m /\
  (pc_tool_call_id <$> pm_tool_calls m') = (pc_tool_call_id <$> pm_tool_calls m) /\
  (pc_tool_name <$> pm_tool_calls m') = (pc_tool_name <$> pm_tool_calls m).

(** The latest groups kept under a budget: a suffix of whole groups that fits and that the
    group before it would make too long; or, if the last group alone is too long, that
    group with its texts cut. *)
Definition latest_groups (tail : list ProviderMessage) (budget : N) (retained : list ProviderMessage)
    : Prop :=
  (exists start, retained = drop start tail /\ estimate_message_tokens retained <= budget /\
     (tail <> [] -> (start < length tail)%nat /\ exists stop, (start, stop) ∈ message_groups tail) /\
     (start = 0%nat \/
      exists before, (before, start) ∈ message_groups tail /\
        budget < estimate_message_tokens (drop before tail))) \/
  (exists start, (start, length tail) ∈ message_groups tail /\
     budget < estimate_message_tokens (drop start tail) /\
     Forall2 shortened (drop start tail) retained).

Lemma filter_bool_perm {A} (f : A -> bool) l k : l ≡ₚ k -> List.filter f l ≡ₚ List.filter f k.
Proof.
  induction 1 as [|x l k _ IH|x y l|l k j _ IH1 _ IH2]; simpl; [done| | |by etrans].
  - destruct (f x); [by constructor|done].
  - destruct (f x), (f y); done || constructor.
Qed.

Lemma instruction_cost_app messages l k :
  instruction_cost messages (l ++ k) = instruction_cost messages l + instruction_cost messages k.
Proof. unfold instruction_cost. by rewrite fmap_app, exact_sum_app. Qed.

Lemma instruction_cost_perm messages l k :
  l ≡ₚ k -> instruction_cost messages l = instruction_cost messages k.
Proof.
  unfold instruction_cost, exact_sum.
  induction 1 as [|x l k _ IH|x y l|l k j _ IH1 _ IH2]; rewrite ?fmap_cons; cbn [fold_right];
    [done|by f_equal|lia|congruence].
Qed.

(** What the first candidates take, whatever comes after them. *)
Lemma fit_instructions_app messages before : forall remaining retained,
  NoDup retained ->
  exists taken, instruction_cost messages taken <= remaining /\ NoDup (retained ++ taken) /\
    Forall (.∈ before) taken /\
    forall after, fit_instructions messages remaining retained (before ++ after)
      = fit_instructions messages (remaining - instruction_cost messages taken) (retained ++ taken) after.
Proof.
  induction before as [|c before IH]; intros remaining retained Hd.
  { exists []. rewrite app_nil_r. split_and!; [apply N.le_0_l|done|constructor|].
    intros after. by rewrite N.sub_0_r. }
  simpl. set (tokens := from_option _ _ _).
  destruct (_ && _) eqn:E.
  - apply andb_true_iff in E as [E Et]. apply negb_true_iff, bool_decide_eq_false in E. Nbool.
    destruct (IH (remaining - tokens) (retained ++ [c])) as (taken & Hc & Hn & Hin & Heq).
    { apply NoDup_app. split_and!; [done|set_solver|apply NoDup_singleton]. }
    rewrite <- app_assoc in Hn.
    assert (Hcost : instruction_cost messages ([c] ++ taken) = tokens + instruction_cost messages taken).
    { rewrite instruction_cost_app. unfold instruction_cost at 1, exact_sum. simpl.
      by rewrite N.add_0_r. }
    exists ([c] ++ taken). rewrite Hcost. split_and!; [lia|done| |].
    + constructor; [apply list_elem_of_here|]. eapply Forall_impl; [exact Hin|].
      intros i Hi. by apply list_elem_of_further.
    + intros after. rewrite Heq, <- app_assoc. by rewrite N.sub_add_distr.
  - destruct (IH remaining retained Hd) as (taken & Hc & Hn & Hin & Heq).
    exists taken. split_and!; [done|done| |exact Heq].
    eapply Forall_impl; [exact Hin|]. intros i Hi. by apply list_elem_of_further.
Qed.

Lemma fit_instructions_extends messages candidates remaining retained :
  NoDup retained ->
  exists more, instruction_cost messages more <= remaining /\ NoDup (retained ++ more) /\
    Forall (.∈ candidates) more /\
    fit_instructions messages remaining retained candidates = retained ++ more.
Proof.
  intros Hd. destruct (fit_instructions_app messages candidates remaining retained Hd)
    as (more & Hc & Hn & Hin & Heq).
  exists more. specialize (Heq []). rewrite app_nil_r in Heq. by rewrite Heq.
Qed.

(** A candidate is taken unless it does not fit beside those taken before it. *)
Lemma fit_instructions_best messages before i after budget :
  let kept := fit_instructions messages budget [] (before ++ i :: after) in
  i ∈ kept \/
  exists taken rest, kept = taken ++ rest /\ Forall (.∈ before) taken /\
    budget < instruction_cost messages [i] + instruction_cost messages taken.
Proof.
  intros kept. destruct (fit_instructions_app messages before budget []) as (taken & Hc & Hn & Hin & Heq);
    [constructor|].
  assert (Hi : instruction_cost messages [i] = from_option estimate_message_token 0 (messages !! i)).
  { unfold instruction_cost, exact_sum. simpl. by rewrite N.add_0_r. }
  subst kept. rewrite Heq. simpl in *. rewrite <- Hi.
  assert (Hext := fun rem ret Hd => fit_instructions_extends messages after rem ret Hd).
  destruct (_ && _) eqn:E.
  - left. apply andb_true_iff in E as [E _]. apply negb_true_iff, bool_decide_eq_false in E.
    edestruct Hext as (more & _ & _ & _ & ->).
    { apply NoDup_app. split_and!; [done|set_solver|apply NoDup_singleton]. }
    set_solver.
  - destruct (Hext (budget - instruction_cost messages taken) taken Hn) as (more & _ & _ & _ & ->).
    apply andb_false_iff in E as [E|E].
    + left. apply negb_false_iff, bool_decide_eq_true in E. set_solver.
    + right. Nbool. exists taken, more. split_and!; [done|done|lia].
Qed.

Lemma user_instructions_sorted messages sources start :
  StronglySorted Nat.lt (user_instructions messages sources start).
Proof.
  unfold user_instructions. generalize (length messages - start)%nat as n. intros n.
  revert start. induction n as [|n IH]; intros start; simpl; [constructor|].
  case_match; [|apply IH]. constructor; [apply IH|].
  apply Forall_forall. intros j Hj. apply elem_of_lfilter in Hj as [Hj _].
  apply elem_of_seq in Hj. unfold Nat.lt. lia.
Qed.

Lemma sorted_lt_later l k i j : StronglySorted Nat.lt (l ++ i :: k) -> j ∈ k -> (i < j)%nat.
Proof.
  induction l as [|x l IH]; simpl; intros Hs Hj; apply StronglySorted_inv in Hs as [Hs Hf]; [|by apply IH].
  rewrite Forall_forall in Hf. by apply Hf.
Qed.

Lemma strongly_sorted_lt l : StronglySorted Nat.le l -> NoDup l -> StronglySorted Nat.lt l.
Proof.
  induction 1 as [|x l _ IH Hf]; intros Hd; [constructor|]. apply NoDup_cons in Hd as [Hx Hd].
  constructor; [by apply IH|]. rewrite Forall_forall in *. intros y Hy.
  assert (x <> y) by (by intros ->). specialize (Hf y Hy). unfold Nat.lt, Nat.le in *. lia.
Qed.

Lemma retained_instructions_best messages sources start budget :
  best_instructions messages sources start budget
    (retained_user_instructions messages sources start budget).
Proof.
  unfold retained_user_instructions. fold (user_instructions messages sources start).
  set (cs := user_instructions messages sources start).
  set (fitted := fit_instructions _ _ _ _).
  assert (Hp : merge_sort Nat.le fitted ≡ₚ fitted) by apply merge_sort_Permutation.
  destruct (fit_instructions_extends messages (option_list (head cs) ++ reverse cs) budget [])
    as (kept & Hc & Hn & Hin & Heq); [constructor|]. fold fitted in Heq. simpl in Heq, Hn. subst kept.
  split; fold cs.
  - apply strongly_sorted_lt; [apply (StronglySorted_merge_sort Nat.le)|by rewrite Hp].
  - intros i Hi. rewrite Hp in Hi. rewrite Forall_forall in Hin. specialize (Hin i Hi).
    apply elem_of_app in Hin as [Hin|Hin]; [|by rewrite elem_of_reverse in Hin].
    destruct cs; simpl in Hin; set_solver.
  - by rewrite (instruction_cost_perm _ _ _ Hp).
  - intros i Hi Hfit. rewrite Hp.
    destruct (fit_instructions_best messages [] i (reverse cs) budget) as [H|(taken & rest & _ & Ht & Hb)].
    + subst fitted. by rewrite Hi.
    + destruct taken as [|t taken]; [|apply Forall_cons in Ht as [Ht _]; by apply not_elem_of_nil in Ht].
      unfold instruction_cost at 2, exact_sum in Hb. simpl in Hb. lia.
  - intros i Hi. apply list_elem_of_split in Hi as (l1 & l2 & Hcs).
    assert (Hsort : StronglySorted Nat.lt cs) by apply user_instructions_sorted.
    destruct (fit_instructions_best messages (option_list (head cs) ++ reverse l2) i (reverse l1) budget)
      as [H|(taken & rest & Hk & Ht & Hb)];
      replace ((option_list (head cs) ++ reverse l2) ++ i :: reverse l1)
        with (option_list (head cs) ++ reverse cs) in *
        by (by rewrite Hcs at 2; rewrite reverse_app, reverse_cons, <- !app_assoc).
    + left. rewrite Hp. exact H.
    + right. fold fitted in Hk. rewrite (instruction_cost_perm messages _ _ (filter_bool_perm (tried_before cs i) _ _ Hp)).
      rewrite Hk, List.filter_app, instruction_cost_app.
      replace (List.filter (tried_before cs i) taken) with taken; [lia|]. symmetry.
      apply forallb_filter_id, forallb_elem. eapply Forall_impl; [exact Ht|]. intros j Hj. unfold tried_before.
      apply elem_of_app in Hj as [Hj|Hj].
      * destruct (head cs); simpl in Hj; [|by apply not_elem_of_nil in Hj].
        apply list_elem_of_singleton in Hj as ->. by rewrite bool_decide_eq_true_2.
      * rewrite elem_of_reverse in Hj. rewrite Hcs in Hsort.
        rewrite (bool_decide_eq_true_2 (i < j)%nat) by (by eapply sorted_lt_later).
        apply orb_true_r.
Qed.

(** The group before the suffix that is kept would not fit. *)
Lemma retain_groups_latest estimates budget groups : forall start,
  consecutive 0 groups start ->
  forall tokens, tokens = N.min (exact_sum (drop start estimates)) u64_max ->
  forall tokens' start', retain_groups estimates budget tokens start (reverse groups) = (tokens', start') ->
  start' = 0%nat \/
  exists before, (before, start') ∈ groups /\ budget < exact_sum (drop before estimates).
Proof.
  induction groups as [|[x y] groups IH] using rev_ind; intros start Hc tokens Ht tokens' start' Hr.
  { simpl in Hr, Hc. simplify_eq. by left. }
  rewrite reverse_snoc in Hr. simpl in Hr. apply consecutive_snoc in Hc as (Hc & Hxy & ->).
  assert (Htot : sat_add u64_max tokens (sum_estimates (range x start estimates))
    = N.min (exact_sum (drop x estimates)) u64_max).
  { rewrite sum_estimates_min, (exact_sum_drop_range x start) by lia. subst tokens.
    unfold sat_add. lia. }
  rewrite Htot in *. destruct (budget <? _) eqn:E; Nbool.
  - simplify_eq. right. exists x. split; [|lia]. apply elem_of_app. right. apply list_elem_of_here.
  - destruct (IH x Hc _ eq_refl _ _ Hr) as [->|(before & Hb & Hlt)]; [by left|].
    right. exists before. split; [apply elem_of_app; by left|done].
Qed.

Lemma compact_group_shortens messages budget :
  0 < budget -> Forall2 shortened messages (compact_message_group messages budget).
Proof.
  intros Hb. unfold compact_message_group.
  destruct (_ || _) eqn:E.
  { apply orb_true_iff in E as [E|E]; [boolhyps; by destruct messages|Nbool; lia]. }
  apply Forall2_fmap_r, Forall_Forall2_diag, Forall_forall. intros m _. unfold shortened. simpl.
  split_and!; [done..| |]; rewrite <- list_fmap_compose; apply list_fmap_ext; intros i c _; simpl;
    by case_match.
Qed.

Lemma consecutive_bounds groups : forall a c x y,
  consecutive a groups c -> (x, y) ∈ groups -> (x < y /\ y <= c)%nat.
Proof.
  induction groups as [|[u v] groups IH] using rev_ind; intros a c x y Hc Hin;
    [by apply not_elem_of_nil in Hin|].
  apply consecutive_snoc in Hc as (Hc & Huv & <-).
  apply elem_of_app in Hin as [Hin|Hin].
  - specialize (IH _ _ _ _ Hc Hin). lia.
  - apply list_elem_of_singleton in Hin as [= -> ->]. lia.
Qed.

Lemma retained_tail_latest tail budget retained tokens :
  0 < budget < u64_max ->
  retained_tail tail (estimate_message_token <$> tail) budget = (retained, tokens) ->
  latest_groups tail budget retained.
Proof.
  intros Hb. unfold retained_tail, latest_groups, estimate_message_tokens. set (ests := _ <$> tail).
  assert (Hlen : length ests = length tail) by apply length_fmap.
  assert (Hgr := message_groups_consecutive tail).
  destruct (retain_groups _ _ _ _ _) as [tok start] eqn:E.
  assert (E' := E). apply retain_groups_spec in E as (Htok & Hs & Hcase); [|done|by rewrite drop_ge by lia].
  apply retain_groups_latest in E'; [|done|by rewrite drop_ge by lia].
  assert (Hd : forall n, estimate_message_token <$> drop n tail = drop n ests) by (intros n; apply fmap_drop).
  destruct (_ && (0 <? budget)) eqn:Ec.
  - intros Heq. boolhyps. rewrite length_drop in *. assert (start = length tail) as -> by lia.
    right. destruct E' as [?|(before & Hin & Hlt)]; [lia|].
    destruct (message_groups tail) as [|[a b] groups _] using rev_ind; [by apply not_elem_of_nil in Hin|].
    rewrite last_snoc in Heq. simpl in Heq. apply consecutive_snoc in Hgr as (Hgr & Hab & ->).
    injection Heq as <- _. unfold range. rewrite take_ge by (rewrite length_drop; lia).
    exists a. split_and!; [set_solver| |apply compact_group_shortens, Hb].
    apply elem_of_app in Hin as [Hin|Hin].
    + assert (length tail <= a)%nat by (by eapply consecutive_bounds). lia.
    + apply list_elem_of_singleton in Hin as [= ->]. by rewrite Hd.
  - intros [= <- _]. left. exists start. rewrite Hd. split_and!; [done| | |].
    + destruct Hcase as [->|[Hle _]]; [rewrite drop_ge by lia; apply N.le_0_l|lia].
    + intros Hne. destruct Hcase as [->|[_ Hst]].
      * rewrite drop_all, (bool_decide_eq_false_2 (length tail = 0%nat)) in Ec by (by destruct tail).
        apply (N.ltb_ge 0 budget) in Ec. lia.
      * split; [|done]. destruct Hst as [stop Hin].
        assert (start < stop /\ stop <= length tail)%nat by (by eapply consecutive_bounds). lia.
    + destruct E' as [->|(before & Hin & Hlt)]; [by left|right]. exists before. by rewrite Hd.
Qed.

Lemma latest_groups_nonempty tail budget retained :
  latest_groups tail budget retained -> tail <> [] -> retained <> [].
Proof.
  intros [(start & -> & _ & Hs & _)|(start & Hg & _ & Hf)] Hne Hnil.
  - destruct (Hs Hne) as [Hlt _]. apply (f_equal length) in Hnil. rewrite length_drop in Hnil.
    simpl in Hnil. lia.
  - subst retained. apply Forall2_length in Hf. rewrite length_drop in Hf. simpl in Hf.
    assert (start < length tail /\ length tail <= length tail)%nat; [|lia].
    eapply consecutive_bounds; [apply message_groups_consecutive|done].
Qed.

(** There is always room for at least one token beside the summary. *)
Lemma budgets_leave_room w protected_tokens :
  protected_tokens < wm_budget_limit w -> wm_budget_limit w < u64_max ->
  let budgets := compaction_budgets w protected_tokens in
  0 < target_available budgets - summary_reserve budgets <= wm_budget_limit w /\
  instruction_budget budgets
  = N.min ((target_available budgets - summary_reserve budgets) / 4) 2048.
Proof.
  intros Hp Hl budgets. split; [|done]. subst budgets. unfold compaction_budgets. simpl.
  generalize (sat_mul u64_max (wm_target_percent w) (wm_budget_limit w) / 100). intros share.
  unfold MIN_AUTOMATIC_COMPACTION_RECENT_TOKENS, DEFAULT_COMPACTION_SUMMARY_TOKENS, sat_add. lia.
Qed.

(** The kept instructions and the retained part are chosen with the budgets. *)
Lemma compaction_choices w turn_id protected messages message_sources planned observed r :
  compact_if_needed_with_observed_prefix w turn_id protected messages message_sources
    (estimate_message_token <$> messages) planned observed = Ok (Some r) ->
  let prefix := Nat.min protected (length messages) in
  let protected_tokens :=
    protected_context_tokens prefix (estimate_message_token <$> messages) planned observed in
  let budgets := compaction_budgets w protected_tokens in
  let room := target_available budgets - summary_reserve budgets in
  let kept := retained_user_instructions messages (normalized_message_sources messages message_sources)
                prefix (instruction_budget budgets) in
  exists retained tokens,
    protected_tokens < wm_budget_limit w /\ wm_budget_limit w < u64_max /\
    retained_tail (drop prefix messages) (estimate_message_token <$> drop prefix messages)
      (room - instruction_cost messages kept) = (retained, tokens) /\
    cr_replacement_messages r
    = take prefix messages
      ++ (if bool_decide (cr_summary r = "") then []
          else [summary_message (COMPACTION_SUMMARY_PREFIX +:+ cr_summary r)])
      ++ omap (messages !!.)
           (List.filter (fun i => bool_decide (i < length messages - length retained)%nat) kept)
      ++ retained.
Proof.
  unfold compact_if_needed_with_observed_prefix. rewrite checked_estimates_fresh.
  set (prefix := Nat.min protected (length messages)).
  set (original := context_tokens_with_observed_prefix _ _ _ _).
  assert (Horig : original <= u64_max) by apply context_tokens_le_max.
  destruct (_ || _) eqn:E0; [done|]. apply orb_false_iff in E0 as [_ E0]. Nbool.
  set (protected_tokens := protected_context_tokens _ _ _ _).
  destruct (_ <=? protected_tokens) eqn:E1; [done|]. Nbool.
  set (budgets := compaction_budgets w _). set (kept := retained_user_instructions _ _ _ _).
  rewrite <- fmap_drop.
  assert (Hcost : exact_sum ((fun i => default 0 ((estimate_message_token <$> messages) !! i)) <$> kept)
                  = instruction_cost messages kept).
  { unfold instruction_cost. f_equal. apply list_fmap_ext. intros _ i _.
    rewrite list_lookup_fmap. by destruct (messages !! i). }
  rewrite Hcost. set (tail_budget := _ - _ - instruction_cost _ _).
  destruct (retained_tail _ _ tail_budget) as [retained tokens] eqn:Et.
  set (summary := compaction_summary_envelope _ _ _ _ _ _).
  destruct (if bool_decide (summary = "") then _ else _) as [summary_part summary_src] eqn:Es.
  destruct (_ <? _); [done|]. intros [= <-]. cbv zeta.
  exists retained, tokens. split_and!; [done|lia|done|].
  cbn -[COMPACTION_SUMMARY_PREFIX]. f_equal. f_equal.
  by destruct (bool_decide (summary = "")); simplify_eq.
Qed.

(** C30 (safety): compaction rewrites only the middle of a conversation, and keeps as much
    of it as its budgets allow. The protected prefix stays as it was; after it come at most
    one summary, the kept instructions of the user that lie before the retained part, word
    for word and in their order, and the retained part. The instructions are chosen under a
    quarter of the room left beside the summary, 2048 tokens at most: the oldest one is kept
    whenever it fits alone, and any other one is dropped only if it does not fit beside the
    oldest and the later ones that are kept. The retained part is the longest suffix of whole
    groups of messages that fits in the rest of the room, which is never empty; only if not
    even the last group fits does that group stay with its texts cut. A tool result is never
    cut off from the assistant message whose calls it answers, and every message still has
    its source. *)
Theorem compaction_keeps_conversation w turn_id protected messages message_sources planned observed r :
  compact_if_needed_with_observed_prefix w turn_id protected messages message_sources
    (estimate_message_token <$> messages) planned observed = Ok (Some r) ->
  let prefix := Nat.min protected (length messages) in
  let budgets := compaction_budgets w
    (protected_context_tokens prefix (estimate_message_token <$> messages) planned observed) in
  let room := target_available budgets - summary_reserve budgets in
  0 < room /\
  (exists kept retained,
     best_instructions messages (normalized_message_sources messages message_sources) prefix
       (N.min (room / 4) 2048) kept /\
     latest_groups (drop prefix messages) (room - instruction_cost messages kept) retained /\
     (drop prefix messages <> [] -> retained <> []) /\
     cr_replacement_messages r
     = take prefix messages
       ++ (if bool_decide (cr_summary r = "") then []
           else [summary_message (COMPACTION_SUMMARY_PREFIX +:+ cr_summary r)])
       ++ omap (messages !!.)
            (List.filter (fun i => bool_decide (i < length messages - length retained)%nat) kept)
       ++ retained) /\
  length (cr_replacement_sources r) = length (cr_replacement_messages r) /\
  (results_attached false messages = true -> results_attached false (drop prefix messages) = true ->
   results_attached false (cr_replacement_messages r) = true).
Proof.
  intros H prefix budgets room. assert (H' := H).
  apply compaction_parts in H as (summary_part & instructions & retained' & Hc).
  apply compaction_choices in H' as (retained & tokens & Hp & Hl & Ht & Hm).
  apply budgets_leave_room in Hp as [Hroom Hb]; [|done]. fold prefix budgets room in Ht, Hm, Hroom, Hb.
  rewrite Hb in Ht, Hm. split; [apply Hroom|].
  split; [|split; [eapply compacted_aligned, Hc; lia|by eapply compacted_attached]].
  set (kept := retained_user_instructions _ _ _ _) in *.
  assert (Hbest := retained_instructions_best messages
    (normalized_message_sources messages message_sources) prefix (N.min (room / 4) 2048)).
  fold kept in Hbest. assert (Hcost := best_fit _ _ _ _ _ Hbest).
  assert (Hquarter : room / 4 < room) by (apply N.div_lt; lia).
  apply retained_tail_latest in Ht; [|lia].
  exists kept, retained. split_and!; [done|done|by apply latest_groups_nonempty with (1 := Ht)|done].
Qed.

(** ** Visibility *)

Lemma summary_source_visible dropped :
  is_model_visible (src_visibility (summary_source dropped))
  = forallb (fun s => is_model_visible (src_visibility s)) dropped.
Proof.
  unfold summary_source. simpl. induction dropped as [|s dropped IH]; [done|]. simpl.
  destruct (is_model_visible (src_visibility s)) eqn:E; simpl; [done|]. by rewrite E.
Qed.

(** Compaction does not launder hidden context. If every source of the
    replacement is visible to the model, so is every source the summary was made from:
    a hidden message makes the summary that mentions it hidden too. *)
Theorem summary_keeps_visibility w turn_id protected messages message_sources planned observed r :
  compact_if_needed_with_observed_prefix w turn_id protected messages message_sources
    (estimate_message_token <$> messages) planned observed = Ok (Some r) ->
  cr_summary r <> "" ->
  Forall (fun s => is_model_visible (src_visibility s) = true) (cr_replacement_sources r) ->
  Forall (fun s => is_model_visible (src_visibility s) = true) (cr_summary_source_sources r).
Proof.
  intros H Hne. apply compaction_parts in H as (summary_part & instructions & retained & Hc).
  destruct Hc as [_ -> -> _ _ _ _]. rewrite (bool_decide_eq_false_2 (cr_summary r = "")) by done.
  rewrite bool_decide_eq_false_2 by discriminate.
  intros Hv. apply Forall_app in Hv as [_ Hv]. apply Forall_app in Hv as [Hv _].
  apply forallb_elem. rewrite <- summary_source_visible. exact (Forall_inv Hv).
Qed.

(** ** The summary's length *)

Lemma bisect_fits fits fuel : forall lower upper best n,
  (forall b, best = Some b -> fits b = true) ->
  bisect fits fuel lower upper best = Some n -> fits n = true.
Proof.
  induction fuel as [|fuel IH]; intros lower upper best n Hb; simpl; [auto|].
  case_bool_decide; [|auto]. destruct (fits _) eqn:E; apply IH; [|done].
  intros b [= <-]. exact E.
Qed.

(** A bisection with enough fuel finds the largest of the candidates that fit, if every
    candidate below one that fits does too. *)
Lemma bisect_largest fits fuel : forall lower upper best,
  (upper < lower + fuel)%nat -> (1 <= lower)%nat ->
  (forall i j, (i <= j)%nat -> fits j = true -> fits i = true) ->
  (forall i, (1 <= i < lower)%nat -> fits i = true) ->
  best = (if bool_decide (1 < lower)%nat then Some (lower - 1)%nat else None) ->
  match bisect fits fuel lower upper best with
  | Some n => (1 <= n)%nat /\ forall i, (n < i <= upper)%nat -> fits i = false
  | None => forall i, (1 <= i <= upper)%nat -> fits i = false
  end.
Proof.
  induction fuel as [|fuel IH]; intros lower upper best Hf Hl Hmono Hlow ->.
  { simpl. case_bool_decide; repeat split; intros; lia. }
  cbn [bisect]. case_bool_decide as Hlu; [|case_bool_decide; repeat split; intros; lia].
  set (middle := (lower + (upper - lower) / 2)%nat).
  assert (Hmid : (lower <= middle <= upper)%nat).
  { subst middle. pose proof (Nat.Div0.div_le_upper_bound (upper - lower) 2 (upper - lower)). lia. }
  destruct (fits middle) eqn:E.
  - apply IH; [lia|lia|done| |].
    + intros i Hi. by apply (Hmono i middle); [lia|].
    + rewrite bool_decide_eq_true_2 by lia. f_equal. lia.
  - assert (Habove : forall i, (middle <= i)%nat -> fits i = false).
    { intros i Hi. destruct (fits i) eqn:Ei; [|done].
      by rewrite (Hmono _ _ Hi Ei) in E. }
    specialize (IH lower (middle - 1)%nat
                  (if bool_decide (1 < lower)%nat then Some (lower - 1)%nat else None)).
    assert (Hgo := IH ltac:(lia) Hl Hmono Hlow eq_refl).
    destruct (bisect _ _ _ _ _) as [n|].
    + split; [apply Hgo|]. intros i Hi. destruct (decide (middle <= i)%nat); [by apply Habove|].
      apply Hgo. lia.
    + intros i Hi. destruct (decide (middle <= i)%nat); [by apply Habove|]. apply Hgo. lia.
Qed.

(** The envelope with the first [n] characters of a summary. *)
Definition cut_envelope (summary : string) (range_start range_end source_tokens : N)
    (checksum : string) (n : nat) : string :=
  let text := of_chars (take n (chars (trim summary))) in
  render_envelope (mkEnvelope text range_start range_end source_tokens (estimate_tokens text) checksum).

(** A summary that is too long is cut, not refused, and no more than it must
    be. An envelope that is not empty fits its token budget; when the text had to be cut
    and longer texts never have shorter envelopes, one character more would not fit, and
    the result is empty only if not even one character fits. *)
Theorem envelope_is_longest_that_fits summary range_start range_end source_tokens checksum budget :
  let cut := cut_envelope summary range_start range_end source_tokens checksum in
  let result := compaction_summary_envelope summary range_start range_end source_tokens checksum budget in
  let size := length (chars (trim summary)) in
  (forall i j, (i <= j)%nat -> estimate_tokens (cut i) <= estimate_tokens (cut j)) ->
  budget < u64_max -> trim summary <> "" -> range_start <= range_end ->
  budget < estimate_tokens (render_envelope (mkEnvelope (trim summary) range_start range_end
                              source_tokens (estimate_tokens (trim summary)) checksum)) ->
  (exists n, result = cut n /\ (1 <= n)%nat /\ estimate_tokens (cut n) <= budget /\
             forall i, (n < i < size)%nat -> budget < estimate_tokens (cut i)) \/
  (result = "" /\ forall i, (1 <= i < size)%nat -> budget < estimate_tokens (cut i)).
Proof.
  intros cut result size Hmono Hb Hne Hr Hlong. subst result. unfold compaction_summary_envelope.
  rewrite bool_decide_eq_false_2 by done.
  assert (H1 : (range_end <? range_start) = false) by (apply N.ltb_ge; lia).
  assert (H2 : (budget =? u64_max) = false) by (apply N.eqb_neq; lia).
  assert (H3 : forall t, budget < estimate_tokens t -> (estimate_tokens t <=? budget) = false).
  { intros t Ht. apply N.leb_gt. lia. }
  rewrite H1, H2, (H3 _ Hlong). cbn [orb].
  set (fits := fun n => _ <=? budget).
  assert (Hfits : forall n, fits n = (estimate_tokens (cut n) <=? budget)) by reflexivity.
  assert (Hdown : forall i j, (i <= j)%nat -> fits j = true -> fits i = true).
  { intros i j Hij. rewrite !Hfits, !N.leb_le. specialize (Hmono i j Hij). lia. }
  assert (Hlargest := bisect_largest fits size 1 (size - 1) None
                        ltac:(lia) ltac:(lia) Hdown ltac:(intros; lia) eq_refl).
  assert (Hfit := bisect_fits fits size 1 (size - 1) None).
  fold size. destruct (bisect fits _ _ _ _) as [n|]; [left; exists n|right].
  - specialize (Hfit n ltac:(done) eq_refl). rewrite Hfits in Hfit. Nbool.
    destruct Hlargest as [Hn Hlargest]. split_and!; [done|done|lia|]. intros i Hi.
    specialize (Hlargest i ltac:(lia)). rewrite Hfits in Hlargest. Nbool. lia.
  - split; [done|]. intros i Hi. specialize (Hlargest i ltac:(lia)). rewrite Hfits in Hlargest. Nbool. lia.
Qed.

End context.

(** ** Witnesses *)

(** A conversation of a system prompt, an instruction, two tool exchanges and a long
    answer, over a budget of 160 tokens. *)
Definition example_text (n : N) : string := of_chars (replicate (N.to_nat (4 * n)) 97).
Definition example_message (role : ProviderRole) (content : string) (calls : list ProviderToolCall)
    : ProviderMessage := mkProviderMessage role content None None calls (mkMessageMetadata []).
Definition example_call : ProviderToolCall := mkProviderToolCall "c1" "read_file" JNull.
Definition example_messages : list ProviderMessage :=
  [example_message ProviderRole.System (example_text 10) [];
   example_message ProviderRole.User "fix it" [];
   example_message ProviderRole.Assistant (example_text 60) [example_call];
   example_message ProviderRole.Tool (example_text 80) [];
   example_message ProviderRole.Assistant "again" [example_call];
   example_message ProviderRole.Tool (example_text 12) []].
Definition example_sources : list ContextMessageSource :=
  [mkSource "system_prompt" ["s"] "initial_contributor" ModelVisible;
   mkSource "user_message" ["u"] "pending_turn" ModelVisible].
Definition example_render (e : CompactionSummaryEnvelope) : string := env_summary e.
Definition example_result : result ContextError (option ContextCompactionRecord) :=
  compact_if_needed_with_observed_prefix (fun _ => "null") (fun _ => "") (fun _ => "") "" example_render
    (fun _ => None) (new_window 160) 7 1 example_messages example_sources
    (estimate_message_token (fun _ => "null") (fun _ => "") <$> example_messages) 5 None.

Lemma compaction_fits_witness :
  exists r, example_result = Ok (Some r) /\ cr_replacement_estimated_tokens r <= 160.
Proof.
  eexists. split; [vm_compute; reflexivity|].
  apply (compaction_fits (fun _ => "null") (fun _ => "") (fun _ => "") "" example_render (fun _ => None)
           (new_window 160) 7 1 example_messages example_sources 5 None).
  vm_compute. reflexivity.
Defined.

Lemma compaction_keeps_conversation_witness :
  exists r, example_result = Ok (Some r) /\
    results_attached false (cr_replacement_messages r) = true.
Proof.
  eexists. split; [vm_compute; reflexivity|].
  eapply (compaction_keeps_conversation (fun _ => "null") (fun _ => "") (fun _ => "") "" example_render
            (fun _ => None) (new_window 160) 7 1 example_messages example_sources 5 None).
  - vm_compute. reflexivity.
  - reflexivity.
  - reflexivity.
Defined.

Lemma summary_keeps_visibility_witness :
  exists r, example_result = Ok (Some r) /\
    Forall (fun s => is_model_visible (src_visibility s) = true) (cr_summary_source_sources r).
Proof.
  eexists. split; [vm_compute; reflexivity|].
  eapply (summary_keeps_visibility (fun _ => "null") (fun _ => "") (fun _ => "") "" example_render
            (fun _ => None) (new_window 160) 7 1 example_messages example_sources 5 None).
  - vm_compute. reflexivity.
  - discriminate.
  - repeat constructor.
Defined.

(** Twelve characters for one token: four of them stay. *)
Lemma envelope_is_longest_that_fits_witness :
  exists n, compaction_summary_envelope example_render (example_text 3) 0 1 9 "" 1
            = cut_envelope example_render (example_text 3) 0 1 9 "" n /\ (1 <= n)%nat.
Proof.
  destruct (envelope_is_longest_that_fits example_render (example_text 3) 0 1 9 "" 1)
    as [(n & Hn & H1 & _)|[Hn _]].
  - set (cut := cut_envelope _ _ _ _ _ _). intros i j Hij.
    assert (Hmin : forall k, cut k = cut (Nat.min k 12)).
    { intros k. destruct (decide (k <= 12)%nat) as [Hk|Hk]; [by rewrite Nat.min_l|].
      rewrite Nat.min_r by lia. unfold cut, cut_envelope.
      by rewrite (take_ge _ k), (take_ge _ 12) by (vm_compute; lia). }
    assert (Hall : forallb (fun a => forallb (fun b =>
      (estimate_tokens (cut a) <=? estimate_tokens (cut b)) || Nat.ltb b a) (seq 0 13)) (seq 0 13) = true)
      by (vm_compute; reflexivity).
    rewrite (Hmin i), (Hmin j). rewrite forallb_forall in Hall.
    specialize (Hall (Nat.min i 12) ltac:(apply in_seq; lia)). rewrite forallb_forall in Hall.
    specialize (Hall (Nat.min j 12) ltac:(apply in_seq; lia)).
    apply orb_true_iff in Hall as [Hall|Hall]; Nbool; [done|]. apply Nat.ltb_lt in Hall. lia.
  - done.
  - discriminate.
  - lia.
  - vm_compute. reflexivity.
  - by exists n.
  - vm_compute in Hn. discriminate.
Defined.
