(* ===== verification/ContextBuild.v ===== *)
(** * Building and compiling the model's input

    The other half of [golutra-agent-context/src/lib.rs]: contributors become a plan of
    messages within a budget policy, a plan is rebuilt for a replay, extended and
    replaced, the stable prefix is found, a plan is compiled to a provider request behind
    the visibility boundary, and the provider's token count is attributed to the
    contributors. SHA-256 digests, JSON texts, the clock and fresh ids are arguments. *)
From S2P Require Import Prelude RustStr Core Provider ContextWindow.
Open Scope N_scope.

(** ** Data *)

(*@ context/src/lib.rs ContextContributor *)
Record ContextContributor := mkContributor {
  cc_name : string;
  cc_role : ProviderRole;
  cc_content : string;
  cc_token_budget_hint : N;
  cc_source_refs : list string;
}.

Module BudgetOverflowAction.
(*@ core/src/token.rs BudgetOverflowAction *)
Inductive BudgetOverflowAction := Trim | Compact | AskUser | Block.
#[global] Instance BudgetOverflowAction_eq_dec : EqDecision BudgetOverflowAction.
Proof. solve_decision. Defined.
End BudgetOverflowAction.
Abbreviation BudgetOverflowAction := BudgetOverflowAction.BudgetOverflowAction.

(*@ core/src/token.rs TokenBudgetSnapshot *)
Record TokenBudgetSnapshot := mkBudgetSnapshot {
  bs_snapshot_id : N;
  bs_task_id : TaskId;
  bs_turn_id : TurnId;
  bs_context_window : N;
  bs_max_output : N;
  bs_reserved_output_tokens : N;
  bs_planned_input_tokens : N;
  bs_planned_tool_tokens : N;
  bs_planned_summary_tokens : N;
  bs_budget_limit : N;
  bs_budget_policy : string;
  bs_action_if_exceeded : BudgetOverflowAction;
}.

(*@ core/src/governance.rs ContextContributorSnapshot *)
Record ContextContributorSnapshot := mkContributorSnapshot {
  cs_name : string;
  cs_role : string;
  cs_source_refs : list string;
  cs_included : bool;
  cs_trimmed : bool;
  cs_original_estimated_tokens : N;
  cs_retained_estimated_tokens : N;
  cs_strategy : string;
  cs_estimated_tokens : N;
  cs_content_digest : string;
  cs_redacted_content_ref : option ArtifactId;
  cs_invalidation_refs : list string;
  cs_message_indexes : list N;
}.

(*@ core/src/governance.rs ContextMessageSnapshot *)
Record ContextMessageSnapshot := mkMessageSnapshot {
  ms_index : N;
  ms_role : string;
  ms_content_digest : string;
  ms_wire_digest : string;
  ms_estimated_tokens : N;
  ms_tool_call_ids : list string;
  ms_contributor : string;
  ms_source_refs : list string;
  ms_origin : string;
}.

(*@ context/src/lib.rs ContextBuildPlan *)
Record ContextBuildPlan := mkPlan {
  pl_contributors : list string;
  pl_contributor_manifest : list ContextContributorSnapshot;
  pl_messages : list ProviderMessage;
  pl_message_estimates : list N;
  pl_message_digests : list string;
  pl_message_sources : list ContextMessageSource;
  pl_budget_snapshot : TokenBudgetSnapshot;
  pl_original_planned_input_tokens : N;
  pl_trimmed_contributors : list string;
}.

(*@ context/src/lib.rs ContextBudgetPolicy *)
Record ContextBudgetPolicy := mkBudgetPolicy {
  bp_context_window : N;
  bp_max_output : N;
  bp_budget_limit : N;
  bp_action_if_exceeded : BudgetOverflowAction;
}.

(*@ context/src/lib.rs Default::default for ContextBudgetPolicy *)
Definition default_budget_policy : ContextBudgetPolicy :=
  mkBudgetPolicy 8192 1024 6000 BudgetOverflowAction.Compact.

(** A builder is its policy. *)
(*@ context/src/lib.rs ContextBuilder::window_manager *)
Definition window_manager (policy : ContextBudgetPolicy) : ContextWindowManager :=
  new_window (bp_budget_limit policy).

(*@ core/src/tool.rs ToolContract *)
Record ToolContract := mkToolContract {
  tc_tool_name : string;
  tc_input_schema : json;
  tc_output_schema : json;
  tc_error_schema : json;
  tc_side_effect_type : SideEffectType;
  tc_idempotency_key_policy : string;
  tc_timeout_policy : string;
  tc_cancellation_policy : string;
  tc_retry_policy : string;
  tc_artifact_policy : string;
  tc_permission_policy_ref : option PolicyId;
}.

Module PromptCachePolicy.
(*@ core/src/provider.rs PromptCachePolicy *)
Inductive PromptCachePolicy := Auto | None | Short | Long.
End PromptCachePolicy.
Abbreviation PromptCachePolicy := PromptCachePolicy.PromptCachePolicy.

(** The request a plan is compiled to, with its tools and cache policy. The cache scope
    is not set here and is left out. *)
(*@ llm/src/lib.rs ProviderRequest *)
Record CompiledRequest := mkCompiledRequest {
  cq_request_id : ProviderRequestId;
  cq_task_id : TaskId;
  cq_turn_id : TurnId;
  cq_session_id : option SessionId;
  cq_provider_id : string;
  cq_model_id : string;
  cq_messages : list ProviderMessage;
  cq_tools : list ToolContract;
  cq_cache_policy : PromptCachePolicy;
  cq_max_output_tokens : option N;
}.

(*@ core/src/governance.rs ContextSnapshot *)
Record ContextSnapshot := mkContextSnapshot {
  sn_snapshot_id : N;
  sn_session_id : SessionId;
  sn_task_id : TaskId;
  sn_turn_id : TurnId;
  sn_provider_request_id : ProviderRequestId;
  sn_provider_id : string;
  sn_model_id : string;
  sn_contributor_manifest : list ContextContributorSnapshot;
  sn_message_manifest : list ContextMessageSnapshot;
  sn_tool_schema_digests : list string;
  sn_generation_config_digest : option string;
  sn_budget_snapshot : TokenBudgetSnapshot;
  sn_canonical_request_digest : string;
  sn_cache_scope_key : option string;
  sn_redacted_request_artifact_ref : option ArtifactId;
  sn_restricted_request_artifact_ref : option ArtifactId;
  sn_estimate_source : string;
  sn_created_at : Timestamp;
}.

(*@ context/src/lib.rs ModelInputEnvelope *)
Record ModelInputEnvelope := mkModelInput {
  mi_provider_request : CompiledRequest;
  mi_audit_snapshot : ContextSnapshot;
}.

(** ** Where a message comes from *)

(** [take_while(..).count()]. *)
Fixpoint count_while {A} (f : A -> bool) (l : list A) : nat :=
  match l with
  | [] => 0
  | x :: rest => if f x then S (count_while f rest) else 0
  end.

Definition HIDDEN_ORIGINS : list string :=
  ["observation_projection"; "debug_projection"; "evaluation_projection"; "governance_projection";
   "runtime_event"].
Definition HIDDEN_CONTRIBUTORS : list string :=
  ["observation"; "debug_projection"; "evaluation_projection"; "governance_projection";
   "runtime_events"].

(*@ context/src/lib.rs is_observation_source *)
Definition is_observation_source (s : ContextMessageSource) : bool :=
  bool_decide (src_origin s ∈ HIDDEN_ORIGINS) || bool_decide (src_contributor s ∈ HIDDEN_CONTRIBUTORS).

(*@ context/src/lib.rs is_dynamic_context_source *)
Definition is_dynamic_context_source (s : ContextMessageSource) : bool :=
  let contributor := src_contributor s in
  bool_decide (contributor ∈
    ["memory"; "workspace_entries"; "conversation_history"; "project_skills"; "objective";
     "user_message"; "assistant_recent"; "runtime_context"; "verification_feedback";
     "tool_result_excerpt"; "working_summary"])
  || starts_with "history:" contributor
  || starts_with "replay_message_" contributor
  || bool_decide (src_origin s ∈
       ["pending_turn"; "compaction_summary"; "runtime_history"; "tool_result_compaction";
        "runtime_recovery"; "runtime_deadline_advisory"; "runtime_progress_advisory";
        "verification_feedback"]).

(*@ context/src/lib.rs ContextBuilder::stable_prefix_len *)
Definition stable_prefix_len (messages : list ProviderMessage) (sources : list ContextMessageSource) : nat :=
  count_while (fun '(m, s) =>
    negb (is_some_and is_dynamic_context_source s)
    && negb (bool_decide (pm_role m = ProviderRole.Assistant) || bool_decide (pm_role m = ProviderRole.Tool)))
    (with_sources messages sources).

(*@ context/src/lib.rs snapshot_message_is_dynamic *)
Definition snapshot_message_is_dynamic (m : ContextMessageSnapshot) : bool :=
  let contributor := ms_contributor m in
  bool_decide (contributor ∈
    ["memory"; "workspace_entries"; "conversation_history"; "project_skills"; "objective";
     "user_message"; "assistant_recent"; "runtime_context"; "verification_feedback";
     "tool_result_excerpt"; "working_summary"])
  || starts_with "history:" contributor
  || starts_with "replay_message_" contributor
  || bool_decide (ms_origin m ∈
       ["pending_turn"; "compaction_summary"; "runtime_history"; "tool_result_compaction";
        "runtime_recovery"; "runtime_deadline_advisory"; "runtime_progress_advisory";
        "verification_feedback"]).

(*@ context/src/lib.rs stable_prefix_message_count *)
Definition stable_prefix_message_count (snapshot : ContextSnapshot) : nat :=
  count_while (fun m => negb (snapshot_message_is_dynamic m)
                        && negb (bool_decide (ms_role m ∈ ["assistant"; "tool"])))
    (sn_message_manifest snapshot).

(*@ context/src/lib.rs stable_prefix_token_estimate *)
Definition stable_prefix_token_estimate (snapshot : ContextSnapshot) : N :=
  fold_left (sat_add u64_max)
    (ms_estimated_tokens <$> take (stable_prefix_message_count snapshot) (sn_message_manifest snapshot)) 0.

(** ** Trimming *)

(*@ context/src/lib.rs truncate_contributor *)
Definition truncate_contributor (name content : string) (token_limit : N) : string :=
  let character_limit := N.to_nat (sat_mul u64_max token_limit 4) in
  let characters := chars content in
  if bool_decide (length characters <= character_limit)%nat then content
  else if bool_decide (name = "project_skills") then ""
  else if bool_decide (name ∈ ["conversation_history"; "memory"])
  then of_chars (drop (length characters - character_limit) characters)
  else of_chars (take character_limit characters).

Definition set_content (c : ContextContributor) (content : string) : ContextContributor :=
  mkContributor (cc_name c) (cc_role c) content (cc_token_budget_hint c) (cc_source_refs c).

(** A contributor with its estimate cut to [limit] tokens, and the new running total. *)
(*@ context/src/lib.rs:1192-1202 trim_contributors_with_estimates *)
Definition cut_contributor (total limit : N) (entry : ContextContributor * N)
    : N * (ContextContributor * N) :=
  let '(c, tokens) := entry in
  let content := truncate_contributor (cc_name c) (cc_content c) limit in
  let retained_tokens := estimate_tokens content in
  (sat_add u64_max (total - tokens) retained_tokens, (set_content c content, retained_tokens)).

(** The first loop: every contributor within its own hint. *)
(*@ context/src/lib.rs:1186-1206 trim_contributors_with_estimates *)
Fixpoint trim_hints (total : N) (entries : list (ContextContributor * N))
    : N * list (ContextContributor * N) * list string :=
  match entries with
  | [] => (total, [], [])
  | (c, tokens) :: rest =>
      if (0 <? cc_token_budget_hint c) && (cc_token_budget_hint c <? tokens) then
        let '(total, entry) := cut_contributor total (cc_token_budget_hint c) (c, tokens) in
        let '(total, entries, trimmed) := trim_hints total rest in
        (total, entry :: entries, cc_name c :: trimmed)
      else
        let '(total, entries, trimmed) := trim_hints total rest in
        (total, (c, tokens) :: entries, trimmed)
  end.

(** The first contributor of that name, cut by what is over the budget. *)
(*@ context/src/lib.rs:1220-1235 trim_contributors_with_estimates *)
Fixpoint trim_first (name : string) (total budget_limit : N) (entries : list (ContextContributor * N))
    : option (N * list (ContextContributor * N)) :=
  match entries with
  | [] => None
  | (c, tokens) :: rest =>
      if bool_decide (cc_name c = name) then
        let target := N.max (tokens - (total - budget_limit)) 16 in
        let '(total, entry) := cut_contributor total target (c, tokens) in
        Some (total, entry :: rest)
      else
        '(total, rest) ← trim_first name total budget_limit rest;
        Some (total, (c, tokens) :: rest)
  end.

Definition TRIM_PRIORITY : list string :=
  ["project_skills"; "memory"; "conversation_history"; "environment_context"; "system"; "objective"].

(** The second loop, until the total fits. *)
(*@ context/src/lib.rs:1208-1237 trim_contributors_with_estimates *)
Fixpoint trim_by_priority (names : list string) (total budget_limit : N)
    (entries : list (ContextContributor * N)) (trimmed : list string)
    : list (ContextContributor * N) * list string :=
  match names with
  | [] => (entries, trimmed)
  | name :: names =>
      if total <=? budget_limit then (entries, trimmed)
      else
        match trim_first name total budget_limit entries with
        | Some (total, entries) =>
            trim_by_priority names total budget_limit entries
              (if bool_decide (name ∈ trimmed) then trimmed else trimmed ++ [name])
        | None => trim_by_priority names total budget_limit entries trimmed
        end
  end.

(** The contributors and their estimates after trimming, and the names trimmed. *)
(*@ context/src/lib.rs trim_contributors_with_estimates *)
Definition trim_contributors_with_estimates (entries : list (ContextContributor * N)) (budget_limit : N)
    : list (ContextContributor * N) * list string :=
  let '(total, entries, trimmed) := trim_hints (sum_estimates (snd <$> entries)) entries in
  trim_by_priority TRIM_PRIORITY total budget_limit entries trimmed.

Section builder.
Variable json_text : json -> string.
Variable metadata_text : ProviderMessageMetadata -> string.
(** [provider_message_digest], [digest_bytes], [provider_tool_wire_digest] and
    [canonical_provider_request_digest]. *)
Variable message_digest : ProviderMessage -> string.
Variable digest_text : string -> string.
Variable tool_digest : ToolContract -> string.
Variable request_digest : CompiledRequest -> list string -> string.
(** [SessionId::to_string]. *)
Variable id_text : N -> string.

Abbreviation estimate := (estimate_message_token json_text metadata_text).

(** ** Plans *)

Definition contributor_refs (c : ContextContributor) : list string :=
  match cc_source_refs c with [] => ["contributor:" +:+ cc_name c] | refs => refs end.

Definition contributor_message (c : ContextContributor) : ProviderMessage :=
  mkProviderMessage (cc_role c) (cc_content c) None None [] (mkMessageMetadata []).

(** The manifest entry of a built contributor. *)
(*@ context/src/lib.rs:983-1013 ContextBuilder::build *)
Definition built_snapshot (trimmed_set : list string) (originals : list N) (index : nat)
    (entry : ContextContributor * N) : ContextContributorSnapshot :=
  let '(c, retained) := entry in
  let trimmed := bool_decide (cc_name c ∈ trimmed_set) in
  mkContributorSnapshot (cc_name c) (role_name (cc_role c)) (contributor_refs c) true trimmed
    (default 0 (originals !! index)) retained
    (if trimmed then
       if bool_decide (cc_name c ∈ ["conversation_history"; "memory"]) then "retain_tail" else "retain_head"
     else "include_full")
    retained (digest_text (cc_content c)) None [] [N.min (N.of_nat index) u32_max].

Definition budget_snapshot (policy : ContextBudgetPolicy) (snapshot_id : N) (task_id : TaskId)
    (turn_id : TurnId) (planned_input_tokens : N) (name : string) : TokenBudgetSnapshot :=
  mkBudgetSnapshot snapshot_id task_id turn_id (bp_context_window policy) (bp_max_output policy)
    (bp_max_output policy) planned_input_tokens 0 0 (bp_budget_limit policy) name
    (bp_action_if_exceeded policy).

(*@ context/src/lib.rs ContextBuilder::build *)
Definition build (policy : ContextBudgetPolicy) (snapshot_id : N) (task_id : TaskId) (turn_id : TurnId)
    (contributors : list ContextContributor) : result ContextError ContextBuildPlan :=
  let originals := (fun c => estimate_tokens (cc_content c)) <$> contributors in
  let entries := zip contributors originals in
  let original := sum_estimates originals in
  let limit := bp_budget_limit policy in
  let? trimming :=
    if limit <? original then
      match bp_action_if_exceeded policy with
      | BudgetOverflowAction.Block => Err (BudgetExceeded original limit)
      | BudgetOverflowAction.AskUser => Err (UserActionRequired original limit)
      | BudgetOverflowAction.Trim => Ok (trim_contributors_with_estimates entries limit)
      | BudgetOverflowAction.Compact => Ok (entries, [])
      end
    else Ok (entries, []) in
  let '(entries, trimmed) := trimming in
  let planned := sum_estimates (snd <$> entries) in
  if (limit <? planned)
     && negb (bool_decide (bp_action_if_exceeded policy = BudgetOverflowAction.Compact))
  then Err (BudgetExceeded planned limit)
  else
    let messages := (fun e => contributor_message (fst e)) <$> entries in
    Ok (mkPlan ((fun e => cc_name (fst e)) <$> entries) (imap (built_snapshot trimmed originals) entries)
          messages (snd <$> entries) (message_digest <$> messages)
          ((fun e => mkSource (cc_name (fst e)) (contributor_refs (fst e)) "initial_contributor" ModelVisible)
             <$> entries)
          (budget_snapshot policy snapshot_id task_id turn_id planned "token_window_compaction")
          original trimmed).

(** Which messages of a replay are the reusable system block at its start. *)
(*@ context/src/lib.rs:1098-1115 ContextBuilder::build_from_messages *)
Fixpoint replay_sources (prefix_open : bool) (index : nat) (messages : list ProviderMessage)
    : list (string * string) :=
  match messages with
  | [] => []
  | m :: rest =>
      let stable := prefix_open && bool_decide (pm_role m = ProviderRole.System) in
      (if stable then ("replay_static_prefix_" +:+ show (N.of_nat index), "deterministic_replay_static_prefix")
       else ("replay_message_" +:+ show (N.of_nat index), "deterministic_replay"))
      :: replay_sources stable (S index) rest
  end.

(*@ context/src/lib.rs ContextBuilder::build_from_messages *)
Definition build_from_messages (policy : ContextBudgetPolicy) (snapshot_id : N) (task_id : TaskId)
    (turn_id : TurnId) (messages : list ProviderMessage) : result ContextError ContextBuildPlan :=
  let estimates := estimate <$> messages in
  let planned := sum_estimates estimates in
  if (bp_budget_limit policy <? planned)
     && negb (bool_decide (bp_action_if_exceeded policy = BudgetOverflowAction.Compact))
  then Err (BudgetExceeded planned (bp_budget_limit policy))
  else
    let digests := message_digest <$> messages in
    let sources := replay_sources true 0 messages in
    let message_ref index := ["replay:provider-message:" +:+ show (N.of_nat index)] in
    Ok (mkPlan (fst <$> sources)
          (imap (fun index '(m, (contributor, _)) =>
             mkContributorSnapshot contributor (role_name (pm_role m)) (message_ref index) true false
               (default 0 (estimates !! index)) (default 0 (estimates !! index)) "replay_exact"
               (default 0 (estimates !! index)) (default "" (digests !! index)) None []
               [N.min (N.of_nat index) u32_max]) (zip messages sources))
          messages estimates digests
          (imap (fun index '(contributor, origin) =>
             mkSource contributor (message_ref index) origin ModelVisible) sources)
          (budget_snapshot policy snapshot_id task_id turn_id planned "deterministic_replay")
          planned []).

(*@ context/src/lib.rs ContextBuildPlan::append_message *)
Definition append_message (p : ContextBuildPlan) (m : ProviderMessage) (s : ContextMessageSource)
    : ContextBuildPlan * N :=
  (mkPlan (pl_contributors p) (pl_contributor_manifest p) (pl_messages p ++ [m])
     (pl_message_estimates p ++ [estimate m]) (pl_message_digests p ++ [message_digest m])
     (pl_message_sources p ++ [s]) (pl_budget_snapshot p) (pl_original_planned_input_tokens p)
     (pl_trimmed_contributors p), estimate m).

(*@ context/src/lib.rs ContextBuildPlan::replace_messages *)
Definition replace_messages (p : ContextBuildPlan) (messages : list ProviderMessage)
    (sources : list ContextMessageSource) : ContextBuildPlan * N :=
  let estimates := estimate <$> messages in
  (mkPlan (pl_contributors p) (pl_contributor_manifest p) messages estimates (message_digest <$> messages)
     sources (pl_budget_snapshot p) (pl_original_planned_input_tokens p) (pl_trimmed_contributors p),
   sum_estimates estimates).

(*@ context/src/lib.rs ContextBuildPlan::estimated_message_tokens *)
Definition estimated_message_tokens (p : ContextBuildPlan) : N := sum_estimates (pl_message_estimates p).

(*@ context/src/lib.rs:213-224 ContextBuildPlan::restore_user_instruction_sources *)
Definition restorable (p : ContextBuildPlan) (entry : ContextMessageSnapshot) : bool :=
  let index := N.to_nat (ms_index entry) in
  bool_decide (ms_role entry = "user")
  && bool_decide (ms_contributor entry ∈ ["objective"; "user_message"])
  && is_some_and (fun m => bool_decide (pm_role m = ProviderRole.User)) (pl_messages p !! index)
  && bool_decide (pl_message_digests p !! index = Some (ms_wire_digest entry)).

Definition set_sources (p : ContextBuildPlan) (sources : list ContextMessageSource) : ContextBuildPlan :=
  mkPlan (pl_contributors p) (pl_contributor_manifest p) (pl_messages p) (pl_message_estimates p)
    (pl_message_digests p) sources (pl_budget_snapshot p) (pl_original_planned_input_tokens p)
    (pl_trimmed_contributors p).

(*@ context/src/lib.rs ContextBuildPlan::restore_user_instruction_sources *)
Definition restore_user_instruction_sources (p : ContextBuildPlan) (manifest : list ContextMessageSnapshot)
    : ContextBuildPlan :=
  fold_left (fun p entry =>
    if restorable p entry then
      set_sources p (<[N.to_nat (ms_index entry) :=
        mkSource (ms_contributor entry) (ms_source_refs entry) (ms_origin entry) ModelVisible]>
        (pl_message_sources p))
    else p) manifest p.

(** ** Attribution *)

(** The contributors of the plan by name; of two with one name the later stays. *)
Definition manifest_base (manifest : list ContextContributorSnapshot)
    : gmap string ContextContributorSnapshot :=
  fold_left (fun base c => <[cs_name c := c]> base) manifest ∅.

(** The entry a contributor's first message starts from. *)
(*@ context/src/lib.rs:1737-1763 attributed_contributor_manifest_with_estimates *)
Definition fresh_entry (base : gmap string ContextContributorSnapshot) (m : ProviderMessage)
    (s : ContextMessageSource) : ContextContributorSnapshot :=
  match base !! src_contributor s with
  | None =>
      mkContributorSnapshot (src_contributor s) (role_name (pm_role m)) [] true
        (str_contains "compaction" (src_origin s)) 0 0 (src_origin s) 0 "" None [] []
  | Some b =>
      mkContributorSnapshot (cs_name b) (cs_role b) [] (cs_included b) (cs_trimmed b)
        (cs_original_estimated_tokens b) 0 (cs_strategy b) 0 "" (cs_redacted_content_ref b)
        (cs_invalidation_refs b) []
  end.

(** A message added to its contributor's entry. *)
(*@ context/src/lib.rs:1764-1785 attributed_contributor_manifest_with_estimates *)
Definition add_to_entry (has_base : bool) (index : nat) (tokens : N) (digest : string)
    (refs : list string) (e : ContextContributorSnapshot) : ContextContributorSnapshot :=
  let first := match cs_message_indexes e with [] => true | _ => false end in
  let retained := sat_add u64_max (cs_retained_estimated_tokens e) tokens in
  mkContributorSnapshot (cs_name e) (cs_role e)
    (dedup (sort_strings (cs_source_refs e ++ refs))) (cs_included e) (cs_trimmed e)
    (if negb has_base || negb first then sat_add u64_max (cs_original_estimated_tokens e) tokens
     else cs_original_estimated_tokens e)
    retained (cs_strategy e) retained (cs_content_digest e +:+ digest) (cs_redacted_content_ref e)
    (cs_invalidation_refs e) (cs_message_indexes e ++ [N.min (N.of_nat index) u32_max]).

(** The groups, and the contributors in the order of their first messages. *)
Abbreviation groups := (gmap string ContextContributorSnapshot * list string)%type.

(*@ context/src/lib.rs:1725-1786 attributed_contributor_manifest_with_estimates *)
Definition attribute_message (base : gmap string ContextContributorSnapshot) (estimates : list N)
    (digests : list string) (st : groups) (entry : nat * (ProviderMessage * ContextMessageSource)) : groups :=
  let '(grouped, order) := st in
  let '(index, (m, s)) := entry in
  let name := src_contributor s in
  let tokens := default (estimate m) (estimates !! index) in
  let digest := default (message_digest m) (digests !! index) in
  let e := default (fresh_entry base m s) (grouped !! name) in
  (<[name := add_to_entry (bool_decide (is_Some (base !! name))) index tokens digest (src_source_refs s) e]>
     grouped,
   match grouped !! name with Some _ => order | None => order ++ [name] end).

Definition set_digest (e : ContextContributorSnapshot) (digest : string) : ContextContributorSnapshot :=
  mkContributorSnapshot (cs_name e) (cs_role e) (cs_source_refs e) (cs_included e) (cs_trimmed e)
    (cs_original_estimated_tokens e) (cs_retained_estimated_tokens e) (cs_strategy e)
    (cs_estimated_tokens e) digest (cs_redacted_content_ref e) (cs_invalidation_refs e)
    (cs_message_indexes e).

(*@ context/src/lib.rs:1790-1815 attributed_contributor_manifest_with_estimates *)
Definition tool_entry (planned_tool_tokens : N) (tools : list ToolContract) (tool_digests : list string)
    : ContextContributorSnapshot :=
  mkContributorSnapshot "tool_instructions" "tool_schema"
    ((fun t => "tool-contract:" +:+ tc_tool_name t) <$> tools) true false planned_tool_tokens
    planned_tool_tokens "include_schema" planned_tool_tokens
    (digest_text (join "" tool_digests)) None [] [].

Definition indexed {A} (l : list A) : list (nat * A) := imap pair l.

(** [grouped.remove(name)] for each name is a lookup: the names are distinct. *)
(*@ context/src/lib.rs attributed_contributor_manifest_with_estimates *)
Definition attributed_contributor_manifest_with_estimates (p : ContextBuildPlan)
    (messages : list ProviderMessage) (tools : list ToolContract) (sources : list ContextMessageSource)
    (tool_digests : list string) (estimates : list N) (digests : list string)
    : list ContextContributorSnapshot :=
  let base := manifest_base (pl_contributor_manifest p) in
  let '(grouped, order) :=
    fold_left (attribute_message base estimates digests) (indexed (zip messages sources)) (∅, []) in
  let grouped := (fun e => set_digest e (digest_text (cs_content_digest e))) <$> grouped in
  let planned := bs_planned_tool_tokens (pl_budget_snapshot p) in
  let '(grouped, order) :=
    if 0 <? planned then
      (<["tool_instructions" := tool_entry planned tools tool_digests]> grouped,
       match grouped !! "tool_instructions" with
       | Some _ => order
       | None => order ++ ["tool_instructions"]
       end)
    else (grouped, order) in
  omap (grouped !!.) order.

(** ** Compiling *)

Definition checked_sources (messages : list ProviderMessage) (sources : list ContextMessageSource)
    : list ContextMessageSource :=
  if bool_decide (length sources = length messages) then sources
  else normalized_message_sources messages sources.

(*@ context/src/lib.rs context_snapshot_from_request_with_estimates_and_tool_digests_and_message_digests *)
Definition context_snapshot (snapshot_id : N) (now : Timestamp) (session_id : SessionId)
    (p : ContextBuildPlan) (request : CompiledRequest) (estimates : list N) (tool_digests : list string)
    (digests : list string) : ContextSnapshot :=
  let messages := cq_messages request in
  let estimates := checked_estimates json_text metadata_text messages estimates in
  let sources := checked_sources messages (pl_message_sources p) in
  let manifest :=
    imap (fun index '(m, s) =>
      mkMessageSnapshot (N.min (N.of_nat index) u32_max) (role_name (pm_role m)) (digest_text (pm_content m))
        (default (message_digest m) (digests !! index)) (default 0 (estimates !! index))
        (pc_tool_call_id <$> pm_tool_calls m) (src_contributor s) (src_source_refs s) (src_origin s))
      (zip messages sources) in
  let tool_digests :=
    if bool_decide (length tool_digests = length (cq_tools request)) then tool_digests
    else tool_digest <$> cq_tools request in
  mkContextSnapshot snapshot_id session_id (cq_task_id request) (cq_turn_id request)
    (cq_request_id request) (cq_provider_id request) (cq_model_id request)
    (attributed_contributor_manifest_with_estimates p messages (cq_tools request) sources tool_digests
       estimates digests)
    manifest tool_digests None (pl_budget_snapshot p) (request_digest request tool_digests)
    (match cq_session_id request with Some id => Some (id_text id) | None => Some (id_text session_id) end)
    None None "character_div_4" now.

Definition tool_before (l r : ToolContract) : Prop := str_le (tc_tool_name l) (tc_tool_name r).
#[local] Instance tool_before_dec : RelDecision tool_before.
Proof. intros l r. unfold tool_before. apply _. Defined.
#[local] Instance tool_before_trans : Transitive tool_before.
Proof. intros a b c. unfold tool_before. apply transitivity. Qed.
#[local] Instance tool_before_total : Total tool_before.
Proof. intros a b. unfold tool_before. apply total. apply _. Qed.

(** [sort_by] on the tool names is stable. *)
(*@ context/src/lib.rs provider_request_from_plan *)
Definition provider_request_from_plan (request_id : ProviderRequestId) (p : ContextBuildPlan)
    (task_id : TaskId) (turn_id : TurnId) (provider_id model_id : string) (tools : list ToolContract)
    : CompiledRequest :=
  mkCompiledRequest request_id task_id turn_id None provider_id model_id (pl_messages p)
    (merge_sort tool_before tools) PromptCachePolicy.Auto None.

(** The first source the boundary refuses. *)
(*@ context/src/lib.rs:1403-1409 compile_model_input_with_cache_policy_and_estimates_and_tool_digests *)
Definition forbidden_source (sources : list ContextMessageSource) : option ContextMessageSource :=
  List.find (fun s => negb (is_model_visible (src_visibility s)) || is_observation_source s) sources.

(*@ context/src/lib.rs compile_model_input_with_cache_policy_and_estimates_and_tool_digests *)
Definition compile_model_input (request_id snapshot_id : N) (now : Timestamp) (session_id : SessionId)
    (p : ContextBuildPlan) (task_id : TaskId) (turn_id : TurnId) (provider_id model_id : string)
    (tools : list ToolContract) (cache_policy : PromptCachePolicy) (estimates : list N)
    (tool_digests : list string) : result ContextError ModelInputEnvelope :=
  if negb (bool_decide (length (pl_messages p) = length (pl_message_sources p))) then
    Err (ModelInputSourceCardinality (N.of_nat (length (pl_messages p)))
           (N.of_nat (length (pl_message_sources p))))
  else
    match forbidden_source (pl_message_sources p) with
    | Some s => Err (ForbiddenModelInputSource (src_origin s))
    | None =>
        let r := provider_request_from_plan request_id p task_id turn_id provider_id model_id tools in
        let r := mkCompiledRequest (cq_request_id r) (cq_task_id r) (cq_turn_id r) (Some session_id)
                   (cq_provider_id r) (cq_model_id r) (cq_messages r) (cq_tools r) cache_policy
                   (cq_max_output_tokens r) in
        Ok (mkModelInput r (context_snapshot snapshot_id now session_id p r estimates tool_digests
                              (pl_message_digests p)))
    end.

(** ** Plans are consistent *)

(** Every message has its source, its own estimate and its own digest. *)
Definition plan_ok (p : ContextBuildPlan) : Prop :=
  length (pl_message_sources p) = length (pl_messages p) /\
  pl_message_estimates p = estimate <$> pl_messages p /\
  pl_message_digests p = message_digest <$> pl_messages p.

Lemma truncate_fits name content limit :
  char_count (truncate_contributor name content limit) <= char_count content /\
  (limit <= u64_max -> estimate_tokens (truncate_contributor name content limit) <= limit).
Proof.
  unfold truncate_contributor, estimate_tokens, char_count.
  set (k := N.to_nat (sat_mul u64_max limit 4)).
  assert (Hk : N.of_nat k <= 4 * limit) by (unfold k, sat_mul; lia).
  assert (Hmin : forall n, (n <= k)%nat -> (N.of_nat n + 3) / 4 <= limit).
  { intros n Hn. transitivity ((4 * limit + 3) / 4); [apply N.Div0.div_le_mono; lia|].
    rewrite (N.mul_comm 4), N.div_add_l by done. change (3 / 4) with 0. lia. }
  case_bool_decide as Hle; [split; [lia|intros _; by apply Hmin]|].
  case_bool_decide; [simpl; split; [lia|intros _; apply (Hmin 0%nat); lia]|].
  assert (Hsub : forall l, l ⊆ chars content -> (length l <= k)%nat ->
    N.of_nat (length (chars (of_chars l))) <= N.of_nat (length (chars content)) /\
    (limit <= u64_max -> (N.of_nat (length (chars (of_chars l))) + 3) / 4 <= limit)).
  { intros l Hl Hlen. rewrite (chars_of_sub l content) by done. split; [lia|]. intros _. by apply Hmin. }
  case_bool_decide; apply Hsub.
  - apply subseteq_drop.
  - rewrite length_drop. lia.
  - apply subseteq_take.
  - rewrite length_take. lia.
Qed.

(** An entry of a contributor list: the estimate is that of its content, and fits. *)
Definition entry_ok (e : ContextContributor * N) : Prop :=
  snd e = estimate_tokens (cc_content (fst e)) /\ snd e <= u64_max.

Lemma cut_ok total limit e total' e' :
  entry_ok e -> cut_contributor total limit e = (total', e') ->
  entry_ok e' /\ snd e' <= snd e /\ cc_name (fst e') = cc_name (fst e) /\
  cc_role (fst e') = cc_role (fst e) /\
  total' = sat_add u64_max (total - snd e) (snd e') /\ (limit <= u64_max -> snd e' <= limit).
Proof.
  destruct e as [c tokens]. unfold entry_ok, cut_contributor. simpl. intros [-> Hmax] [= <- <-]. simpl.
  destruct (truncate_fits (cc_name c) (cc_content c) limit) as [Hle Hlim].
  assert (estimate_tokens (truncate_contributor (cc_name c) (cc_content c) limit)
          <= estimate_tokens (cc_content c)) by (apply N.Div0.div_le_mono; lia).
  split_and!; [done|lia|done|done|done|done|done].
Qed.

Lemma trim_hints_ok entries : forall total total' entries' trimmed,
  Forall entry_ok entries -> trim_hints total entries = (total', entries', trimmed) ->
  Forall entry_ok entries'.
Proof.
  induction entries as [|[c tokens] entries IH]; intros total total' entries' trimmed Hok Hr; cbn [trim_hints] in Hr.
  { by simplify_eq. }
  apply Forall_cons in Hok as [Hc Hok]. case_match.
  - destruct (cut_contributor _ _ _) as [t e] eqn:E. apply cut_ok in E as [He _]; [|done].
    destruct (trim_hints t entries) as [[t2 es] tr] eqn:Et. simplify_eq.
    constructor; [done|]. by eapply IH.
  - destruct (trim_hints total entries) as [[t2 es] tr] eqn:Et. simplify_eq.
    constructor; [done|]. by eapply IH.
Qed.

Lemma trim_first_ok name total limit entries : forall total' entries',
  Forall entry_ok entries -> trim_first name total limit entries = Some (total', entries') ->
  Forall entry_ok entries'.
Proof.
  induction entries as [|[c tokens] entries IH]; intros total' entries' Hok Hr;
    cbn [trim_first] in Hr; [done|].
  apply Forall_cons in Hok as [Hc Hok]. case_bool_decide.
  - destruct (cut_contributor _ _ _) as [t e] eqn:E. apply cut_ok in E as [He _]; [|done].
    simplify_eq. by constructor.
  - destruct (trim_first _ _ _ entries) as [[t es]|] eqn:E; simplify_eq/=. constructor; [done|].
    by eapply IH.
Qed.

Lemma trim_by_priority_ok names limit : forall total entries trimmed,
  Forall entry_ok entries -> Forall entry_ok (fst (trim_by_priority names total limit entries trimmed)).
Proof.
  induction names as [|name names IH]; intros total entries trimmed Hok; simpl; [done|].
  case_match; [done|]. destruct (trim_first name total limit entries) as [[t es]|] eqn:E; [|by apply IH].
  apply IH. by eapply trim_first_ok.
Qed.

Lemma trim_ok entries limit :
  Forall entry_ok entries -> Forall entry_ok (fst (trim_contributors_with_estimates entries limit)).
Proof.
  intros Hok. unfold trim_contributors_with_estimates.
  destruct (trim_hints _ entries) as [[total es] trimmed] eqn:E.
  apply trim_by_priority_ok. by eapply trim_hints_ok.
Qed.

Lemma contributor_estimate e : entry_ok e -> estimate (contributor_message (fst e)) = snd e.
Proof.
  destruct e as [c tokens]. intros [Ht Hmax]. unfold estimate_message_token, contributor_message, sat_add.
  simpl in *. rewrite Ht in *. lia.
Qed.

Lemma zip_entries_ok contributors :
  Forall (fun c => estimate_tokens (cc_content c) <= u64_max) contributors ->
  Forall entry_ok (zip contributors ((fun c => estimate_tokens (cc_content c)) <$> contributors)).
Proof. induction 1; simpl; constructor; [split; done|done]. Qed.

(** What a successful build made its plan from. *)
Lemma build_entries policy snapshot_id task_id turn_id contributors p :
  Forall (fun c => estimate_tokens (cc_content c) <= u64_max) contributors ->
  build policy snapshot_id task_id turn_id contributors = Ok p ->
  exists entries, Forall entry_ok entries /\
    pl_messages p = (fun e => contributor_message (fst e)) <$> entries /\
    pl_message_estimates p = snd <$> entries /\
    length (pl_message_sources p) = length entries /\
    pl_message_digests p = message_digest <$> pl_messages p /\
    Forall (fun s => src_visibility s = ModelVisible /\ src_origin s = "initial_contributor")
      (pl_message_sources p) /\
    (bp_action_if_exceeded policy <> BudgetOverflowAction.Compact ->
     sum_estimates (snd <$> entries) <= bp_budget_limit policy).
Proof.
  intros Hc. apply zip_entries_ok in Hc. unfold build.
  set (entries0 := zip _ _) in *.
  match goal with |- match ?t with Ok _ => _ | Err _ => _ end = _ -> _ =>
    destruct t as [[entries trimmed]|err] eqn:E end; [|done].
  assert (Hok : Forall entry_ok entries).
  { destruct (_ <? _); [|by simplify_eq].
    destruct (bp_action_if_exceeded policy); simplify_eq; try done.
    pose proof (trim_ok entries0 (bp_budget_limit policy) Hc) as Ht.
    by destruct (trim_contributors_with_estimates _ _); simplify_eq/=. }
  match goal with |- (if ?b then _ else _) = _ -> _ => destruct b eqn:El end; [done|]. intros [= <-]. exists entries. simpl.
  split_and!; [done|done|done|by rewrite length_fmap|done| |].
  - apply Forall_fmap, Forall_true. done.
  - intros Hn. rewrite (bool_decide_eq_false_2 _ Hn), andb_true_r in El. Nbool. done.
Qed.

Lemma build_plan_ok policy snapshot_id task_id turn_id contributors p :
  Forall (fun c => estimate_tokens (cc_content c) <= u64_max) contributors ->
  build policy snapshot_id task_id turn_id contributors = Ok p -> plan_ok p.
Proof.
  intros Hc H. apply build_entries in H as (entries & Hok & Hm & He & Hs & Hd & _); [|done].
  unfold plan_ok. rewrite Hd, Hm, He, Hs, length_fmap. split_and!; [done| |done].
  rewrite <- list_fmap_compose. apply list_fmap_ext. intros i e Hi. symmetry.
  apply contributor_estimate. by eapply Forall_lookup_1.
Qed.

Lemma replay_sources_length messages : forall open index,
  length (replay_sources open index messages) = length messages.
Proof. induction messages as [|m messages IH]; intros open index; simpl; [done|]. by rewrite IH. Qed.

Lemma replay_plan_ok policy snapshot_id task_id turn_id messages p :
  build_from_messages policy snapshot_id task_id turn_id messages = Ok p -> plan_ok p.
Proof.
  unfold build_from_messages. case_match; [done|]. intros [= <-]. unfold plan_ok. simpl.
  by rewrite length_imap, replay_sources_length.
Qed.

Lemma append_plan_ok p m s : plan_ok p -> plan_ok (fst (append_message p m s)).
Proof.
  intros (Hs & He & Hd). unfold plan_ok. simpl. by rewrite !length_app, Hs, He, Hd, !fmap_app.
Qed.

Lemma restore_plan_ok manifest : forall p, plan_ok p ->
  let p' := restore_user_instruction_sources p manifest in
  plan_ok p' /\ pl_messages p' = pl_messages p.
Proof.
  induction manifest as [|entry manifest IH]; intros p Hp; [done|].
  unfold restore_user_instruction_sources in *. cbn [fold_left].
  destruct (restorable p entry); [|by apply IH].
  destruct Hp as (Hs & He & Hd).
  destruct (IH (set_sources p (<[N.to_nat (ms_index entry) := mkSource (ms_contributor entry)
    (ms_source_refs entry) (ms_origin entry) ModelVisible]> (pl_message_sources p)))) as [? Hm].
  - split_and!; simpl; [by rewrite length_insert|done|done].
  - done.
Qed.


Lemma sum_estimates_snoc l e : sum_estimates (l ++ [e]) = sat_add u64_max (sum_estimates l) e.
Proof. unfold sum_estimates. by rewrite fold_left_app. Qed.

(** ** The stable prefix *)

Lemma count_while_ext {A B} (f : A -> bool) (g : B -> bool) l k :
  Forall2 (fun a b => f a = g b) l k -> count_while f l = count_while g k.
Proof. induction 1 as [|a b l k Hab _ IH]; simpl; [done|]. by rewrite Hab, IH. Qed.

(** Up to the stable prefix nothing opens a group. *)
Lemma stable_prefix_attached messages : forall sources k,
  (k <= stable_prefix_len messages sources)%nat -> results_attached false messages = true ->
  results_attached false (drop k messages) = true.
Proof.
  unfold stable_prefix_len, with_sources.
  induction messages as [|m messages IH]; intros sources k Hk Hr; [by rewrite drop_nil|].
  destruct k as [|k]; [done|]. rewrite imap_cons in Hk. cbn [count_while] in Hk.
  case_match eqn:E; [|lia]. apply andb_true_iff in E as [_ E].
  assert (Hm : is_tool m = false /\ opens_group m = false).
  { unfold is_tool, opens_group. destruct (pm_role m); simpl in E; try done. }
  destruct Hm as [Ht Ho]. simpl in Hr. rewrite Ht, Ho in Hr. simpl in Hr. cbn [drop].
  apply (IH (tail sources)); [|done]. apply le_S_n in Hk.
  erewrite count_while_ext; [exact Hk|]. clear. unfold compose.
  apply Forall2_lookup. intros i. rewrite !list_lookup_imap.
  destruct (messages !! i) as [m|]; simpl; constructor. by destruct sources.
Qed.

Lemma with_sources_zip messages sources :
  length sources = length messages ->
  with_sources messages sources = (fun '(m, s) => (m, Some s)) <$> zip messages sources.
Proof.
  intros Hl. apply list_eq. intros i. unfold with_sources.
  rewrite list_lookup_imap, list_lookup_fmap, lookup_zip_with.
  destruct (messages !! i) as [m|] eqn:Em; [|done]. simpl.
  destruct (lookup_lt_is_Some_2 sources i) as [s Hs]; [|by rewrite Hs].
  rewrite Hl. by eapply lookup_lt_Some.
Qed.

(** The stable prefix read back from a request's audit snapshot, from
    role names and source labels, is the one computed from the plan the request was
    compiled from; and protecting it never separates tool results from their calls. *)
Theorem stable_prefix_of_snapshot request_id snapshot_id now session_id p task_id turn_id provider_id
    model_id tools cache_policy estimates tool_digests env :
  compile_model_input request_id snapshot_id now session_id p task_id turn_id provider_id model_id tools
    cache_policy estimates tool_digests = Ok env ->
  stable_prefix_message_count (mi_audit_snapshot env)
  = stable_prefix_len (pl_messages p) (pl_message_sources p) /\
  (results_attached false (pl_messages p) = true ->
   results_attached false
     (drop (stable_prefix_message_count (mi_audit_snapshot env)) (pl_messages p)) = true).
Proof.
  unfold compile_model_input. case_bool_decide as Hl; [|done]. cbn [negb]. case_match; [done|].
  intros [= <-].
  match goal with |- ?a = ?b /\ _ => assert (Heq : a = b) end.
  { unfold stable_prefix_message_count, stable_prefix_len. cbn [mi_audit_snapshot sn_message_manifest context_snapshot].
    unfold checked_sources. cbn [cq_messages provider_request_from_plan].
    rewrite bool_decide_eq_true_2, with_sources_zip by done. apply count_while_ext.
    apply Forall2_lookup. intros i. rewrite list_lookup_imap, list_lookup_fmap.
    destruct (zip _ _ !! i) as [[m s]|]; simpl; constructor.
    unfold snapshot_message_is_dynamic, is_dynamic_context_source. cbn [ms_contributor ms_origin ms_role].
    by destruct (pm_role m). }
  split; [done|]. intros Hr. rewrite Heq. by eapply stable_prefix_attached.
Qed.

(** ** The visibility boundary *)

Definition allowed_source (s : ContextMessageSource) : Prop :=
  is_model_visible (src_visibility s) = true /\ is_observation_source s = false.

Lemma forbidden_source_spec sources :
  match forbidden_source sources with
  | Some s => exists before after, sources = before ++ s :: after /\
                ~ allowed_source s /\ Forall allowed_source before
  | None => Forall allowed_source sources
  end.
Proof.
  unfold forbidden_source, allowed_source. induction sources as [|s sources IH]; simpl; [constructor|].
  destruct (is_model_visible (src_visibility s)) eqn:Ev; simpl.
  - destruct (is_observation_source s) eqn:Eo.
    + exists [], sources. split_and!; [done| |done]. rewrite Eo. naive_solver.
    + destruct (List.find _ sources).
      * destruct IH as (before & after & -> & Hn & Hb). exists (s :: before), after.
        split_and!; [done|done|by constructor].
      * by constructor.
  - exists [], sources. split_and!; [done| |done]. rewrite Ev. naive_solver.
Qed.

(** What the boundary between the runtime and the provider lets through. A
    plan is compiled exactly when every message has a source and every source is allowed;
    the request then carries the plan's messages unchanged and the tools ordered by name.
    Otherwise the error names the first forbidden source, or the two lengths. *)
Theorem compile_boundary request_id snapshot_id now session_id p task_id turn_id provider_id model_id
    tools cache_policy estimates tool_digests :
  match compile_model_input request_id snapshot_id now session_id p task_id turn_id provider_id model_id
          tools cache_policy estimates tool_digests with
  | Ok env =>
      length (pl_messages p) = length (pl_message_sources p) /\
      Forall allowed_source (pl_message_sources p) /\
      cq_messages (mi_provider_request env) = pl_messages p /\
      cq_tools (mi_provider_request env) ≡ₚ tools /\
      StronglySorted tool_before (cq_tools (mi_provider_request env))
  | Err (ForbiddenModelInputSource origin) =>
      exists before s after, pl_message_sources p = before ++ s :: after /\
        ~ allowed_source s /\ Forall allowed_source before /\ origin = src_origin s
  | Err (ModelInputSourceCardinality m n) =>
      m = N.of_nat (length (pl_messages p)) /\ n = N.of_nat (length (pl_message_sources p)) /\ m <> n
  | Err _ => False
  end.
Proof.
  unfold compile_model_input. case_bool_decide as Hl; cbn [negb].
  - pose proof (forbidden_source_spec (pl_message_sources p)) as H.
    destruct (forbidden_source (pl_message_sources p)) as [s|].
    + destruct H as (before & after & ? & ? & ?). by exists before, s, after.
    + cbn. split_and!; [done|done|done|apply merge_sort_Permutation|].
      apply (StronglySorted_merge_sort tool_before).
  - split_and!; [done|done|lia].
Qed.

(** ** Attribution covers every message *)

Abbreviation attributed := (nat * (ProviderMessage * ContextMessageSource))%type.
Definition key (x : attributed) : string := src_contributor (snd (snd x)).
Definition index_of (x : attributed) : N := N.min (N.of_nat (fst x)) u32_max.
Definition tokens_of (estimates : list N) (x : attributed) : N :=
  default (estimate (fst (snd x))) (estimates !! fst x).
Definition of_key (name : string) (l : list attributed) : list attributed := filter (fun x => key x = name) l.

(** Grouping by key loses and repeats nothing. *)
Lemma groups_perm order : forall l,
  NoDup order -> Forall (fun x => key x ∈ order) l ->
  concat ((fun name => of_key name l) <$> order) ≡ₚ l.
Proof.
  unfold of_key. induction order as [|name order IH]; intros l Hnd Hin.
  { destruct l as [|x l]; [done|]. apply Forall_cons in Hin as [Hx _]. by apply not_elem_of_nil in Hx. }
  apply NoDup_cons in Hnd as [Hn Hnd]. rewrite fmap_cons. cbn [concat].
  etrans; [|apply (filter_app_complement (fun x => key x = name) l)]. apply Permutation_app_head.
  rewrite <- (IH (filter (fun x => key x <> name) l)); [|done|].
  - apply reflexive_eq. f_equal. apply list_fmap_ext. intros i n Hi.
    rewrite list_filter_filter. apply list_filter_iff. intros x.
    assert (n <> name) by (intros ->; apply Hn; by eapply list_elem_of_lookup_2). naive_solver.
  - apply Forall_forall. intros x Hx. apply list_elem_of_filter in Hx as [Hne Hx].
    apply (proj1 (Forall_forall _ _) Hin) in Hx. set_solver.
Qed.

(** What the loop over the messages has collected. *)
Record collected (estimates : list N) (l : list attributed) (st : groups) : Prop := mkCollected {
  collected_nodup : NoDup (snd st);
  collected_dom : forall name, name ∈ snd st <-> is_Some (fst st !! name);
  collected_entry : forall name e, fst st !! name = Some e ->
    of_key name l <> [] /\ cs_message_indexes e = index_of <$> of_key name l /\
    cs_retained_estimated_tokens e = sum_estimates (tokens_of estimates <$> of_key name l);
  collected_none : forall name, fst st !! name = None -> of_key name l = [];
}.

Lemma of_key_snoc name l x :
  of_key name (l ++ [x]) = of_key name l ++ (if decide (key x = name) then [x] else []).
Proof. unfold of_key. by rewrite filter_app, filter_cons. Qed.

Lemma fresh_entry_empty base m s :
  cs_message_indexes (fresh_entry base m s) = [] /\
  cs_retained_estimated_tokens (fresh_entry base m s) = 0.
Proof. unfold fresh_entry. by case_match. Qed.

Lemma attribute_collected base estimates digests l :
  collected estimates l (fold_left (attribute_message base estimates digests) l (∅, [])).
Proof.
  induction l as [|x l IH] using rev_ind.
  { split; simpl; [constructor|intros name; split; [by intros ?%not_elem_of_nil|by intros [? ?]]|done|done]. }
  rewrite fold_left_app. cbn [fold_left].
  destruct (fold_left _ l _) as [grouped order]. destruct IH as [Hnd Hdom He Hnone]. simpl in *.
  destruct x as [index [m s]]. unfold attribute_message.
  set (e := default (fresh_entry base m s) (grouped !! src_contributor s)).
  assert (Hold : cs_message_indexes e = index_of <$> of_key (src_contributor s) l /\
    cs_retained_estimated_tokens e = sum_estimates (tokens_of estimates <$> of_key (src_contributor s) l)).
  { subst e. destruct (grouped !! src_contributor s) as [e|] eqn:E; simpl; [by apply He|].
    rewrite (Hnone _ E). apply fresh_entry_empty. }
  destruct Hold as [Hidx Hret]. split; cbn [fst snd].
  - destruct (grouped !! src_contributor s) eqn:E; [done|]. apply NoDup_app. split_and!; [done| |apply NoDup_singleton].
    intros n Hn ->%list_elem_of_singleton. apply Hdom in Hn as [? ?]. congruence.
  - intros name. rewrite lookup_insert_is_Some'. destruct (grouped !! src_contributor s) eqn:E.
    + rewrite Hdom. split; [auto|]. intros [<-|?]; [|done]. rewrite E. by eexists.
    + rewrite elem_of_app, list_elem_of_singleton, Hdom. naive_solver.
  - intros name e' H. rewrite of_key_snoc. change (key (index, (m, s))) with (src_contributor s).
    destruct (decide (src_contributor s = name)) as [<-|Hne].
    + rewrite lookup_insert_eq in H. simplify_eq. split_and!; [by intros [_ ?]%app_nil| |].
      * cbn [cs_message_indexes add_to_entry]. by rewrite Hidx, fmap_app.
      * cbn [cs_retained_estimated_tokens add_to_entry]. rewrite Hret, fmap_app.
        symmetry. apply sum_estimates_snoc.
    + rewrite lookup_insert_ne in H by done. rewrite !app_nil_r. by apply He.
  - intros name H. apply lookup_insert_None in H as [H Hne]. rewrite of_key_snoc.
    change (key (index, (m, s))) with (src_contributor s). rewrite decide_False by done. rewrite app_nil_r. by apply Hnone.
Qed.

Lemma exact_sum_perm {A} (f : A -> N) l k : l ≡ₚ k -> exact_sum (f <$> l) = exact_sum (f <$> k).
Proof.
  induction 1 as [|x l k _ IH|x y l|l k j _ IH1 _ IH2]; rewrite ?fmap_cons; cbn [exact_sum fold_right];
    [done|by f_equal|unfold exact_sum; simpl; lia|congruence].
Qed.

Lemma exact_sum_concat ll : exact_sum (concat ll) = exact_sum (exact_sum <$> ll).
Proof. induction ll as [|l ll IH]; [done|]. cbn [concat fmap list_fmap]. by rewrite exact_sum_app, IH. Qed.

Lemma fmap_concat {A B} (f : A -> B) (ll : list (list A)) :
  f <$> concat ll = concat ((fun l : list A => f <$> l) <$> ll).
Proof. induction ll as [|l ll IH]; [done|]. cbn [concat]. by rewrite fmap_app, IH, fmap_cons. Qed.

(** The collected entries, in order: their indexes and totals are those of all messages. *)
Lemma collected_totals estimates l st manifest :
  collected estimates l st -> Forall (fun x => key x ∈ snd st) l ->
  Forall2 (fun name e => exists e0, fst st !! name = Some e0 /\
             cs_message_indexes e = cs_message_indexes e0 /\
             cs_retained_estimated_tokens e = cs_retained_estimated_tokens e0) (snd st) manifest ->
  exact_sum (tokens_of estimates <$> l) <= u64_max ->
  concat (cs_message_indexes <$> manifest) ≡ₚ index_of <$> l /\
  exact_sum (cs_retained_estimated_tokens <$> manifest) = exact_sum (tokens_of estimates <$> l).
Proof.
  intros [Hnd Hdom He Hnone] Hin Hm Hmax. assert (Hperm := groups_perm (snd st) l Hnd Hin).
  assert (Hgroup : forall name, exact_sum (tokens_of estimates <$> of_key name l) <= u64_max).
  { intros name. etrans; [|exact Hmax].
    rewrite <- (exact_sum_perm _ _ _ (filter_app_complement (fun x => key x = name) l)), fmap_app, exact_sum_app.
    unfold of_key. lia. }
  assert (Hidx : cs_message_indexes <$> manifest = (fun name => index_of <$> of_key name l) <$> snd st).
  { symmetry. apply list_eq_Forall2, Forall2_fmap. eapply Forall2_impl; [exact Hm|].
    intros name e (e0 & H0 & -> & _). by destruct (He _ _ H0) as (_ & -> & _). }
  assert (Hret : cs_retained_estimated_tokens <$> manifest
                 = (fun name => exact_sum (tokens_of estimates <$> of_key name l)) <$> snd st).
  { symmetry. apply list_eq_Forall2, Forall2_fmap. eapply Forall2_impl; [exact Hm|].
    intros name e (e0 & H0 & _ & ->). destruct (He _ _ H0) as (_ & _ & ->).
    rewrite sum_estimates_min. specialize (Hgroup name). lia. }
  rewrite Hidx, Hret. split.
  - rewrite <- Hperm. rewrite fmap_concat, <- list_fmap_compose. done.
  - rewrite <- (exact_sum_perm _ _ _ Hperm).
    by rewrite fmap_concat, <- list_fmap_compose, exact_sum_concat, <- list_fmap_compose.
Qed.

Lemma omap_Forall2 {A B} (g : A -> option B) (Q : A -> B -> Prop) l :
  Forall (fun x => exists y, g x = Some y /\ Q x y) l -> Forall2 Q l (omap g l).
Proof.
  induction 1 as [|x l (y & Hy & HQ) _ IH]; [constructor|]. cbn [omap list_omap]. rewrite Hy. by constructor.
Qed.

Lemma index_of_indexed l :
  index_of <$> indexed l = (fun i => N.min (N.of_nat i) u32_max) <$> seq 0 (length l).
Proof.
  apply list_eq. intros i. unfold indexed. rewrite !list_lookup_fmap, list_lookup_imap.
  destruct (l !! i) as [x|] eqn:E; simpl.
  - rewrite lookup_seq_lt by (by eapply lookup_lt_Some). done.
  - rewrite lookup_seq_ge by (by apply lookup_ge_None). done.
Qed.

Lemma tokens_of_indexed estimates l :
  length estimates = length l -> tokens_of estimates <$> indexed l = estimates.
Proof.
  intros Hl. apply list_eq. intros i. unfold indexed. rewrite list_lookup_fmap, list_lookup_imap.
  destruct (l !! i) as [x|] eqn:E; simpl.
  - destruct (lookup_lt_is_Some_2 estimates i) as [t Ht]; [rewrite Hl; by eapply lookup_lt_Some|].
    unfold tokens_of. simpl. by rewrite Ht.
  - symmetry. apply lookup_ge_None. rewrite Hl. by apply lookup_ge_None.
Qed.

(** The manifest list of the collected groups, from any map that agrees with them. *)
Lemma manifest_totals estimates l st (h : gmap string ContextContributorSnapshot) :
  collected estimates l st -> Forall (fun x => key x ∈ snd st) l ->
  (forall name, name ∈ snd st ->
     h !! name = (fun e => set_digest e (digest_text (cs_content_digest e))) <$> (fst st !! name)) ->
  exact_sum (tokens_of estimates <$> l) <= u64_max ->
  concat (cs_message_indexes <$> omap (h !!.) (snd st)) ≡ₚ index_of <$> l /\
  exact_sum (cs_retained_estimated_tokens <$> omap (h !!.) (snd st)) = exact_sum (tokens_of estimates <$> l).
Proof.
  intros Hc Hin Hh Hmax. eapply collected_totals; [exact Hc|exact Hin| |exact Hmax].
  apply omap_Forall2, Forall_forall. intros name Hn. rewrite (Hh name Hn).
  destruct (proj1 (collected_dom _ _ _ Hc name) Hn) as [e He]. rewrite He.
  exists (set_digest e (digest_text (cs_content_digest e))). split; [done|]. by exists e.
Qed.

(** A name no source has groups no message. *)
Lemma of_key_absent name messages sources :
  Forall (fun s => src_contributor s <> name) sources -> of_key name (indexed (zip messages sources)) = [].
Proof.
  intros Hs. destruct (of_key name _) as [|x k] eqn:E; [done|]. exfalso.
  assert (Hx : x ∈ of_key name (indexed (zip messages sources))) by (rewrite E; apply list_elem_of_here).
  apply list_elem_of_filter in Hx as [Hk Hx]. apply list_elem_of_lookup in Hx as [j Hj].
  unfold indexed in Hj. rewrite list_lookup_imap in Hj.
  destruct (zip messages sources !! j) as [[m s]|] eqn:Ez; simplify_eq/=.
  apply lookup_zip_Some in Ez as [_ Ez]. by apply (proj1 (Forall_lookup _ _) Hs _ _ Ez).
Qed.

Lemma manifest_accounts p messages tools sources tool_digests estimates digests :
  let planned := bs_planned_tool_tokens (pl_budget_snapshot p) in
  let manifest := attributed_contributor_manifest_with_estimates p messages tools sources tool_digests
                    estimates digests in
  length sources = length messages -> length estimates = length messages ->
  exact_sum estimates <= u64_max ->
  (planned = 0 \/ Forall (fun s => src_contributor s <> "tool_instructions") sources) ->
  concat (cs_message_indexes <$> manifest)
    ≡ₚ (fun i => N.min (N.of_nat i) u32_max) <$> seq 0 (length messages) /\
  exact_sum (cs_retained_estimated_tokens <$> manifest) = exact_sum estimates + planned.
Proof.
  intros planned manifest Hs He Hmax Htool. subst manifest. unfold attributed_contributor_manifest_with_estimates.
  set (base := manifest_base _). set (l := indexed (zip messages sources)).
  assert (Hlen : length (zip messages sources) = length messages) by (rewrite length_zip; lia).
  assert (Hc := attribute_collected base estimates digests l).
  destruct (fold_left _ l _) as [grouped order].
  assert (Hin : Forall (fun x => key x ∈ order) l).
  { apply Forall_forall. intros x Hx. destruct Hc as [_ Hdom _ Hnone]. apply Hdom. simpl in *.
    destruct (grouped !! key x) eqn:E; [by eexists|]. apply Hnone in E.
    assert (Hx' : x ∈ of_key (key x) l) by (by apply list_elem_of_filter).
    rewrite E in Hx'. by apply not_elem_of_nil in Hx'. }
  assert (Hidx := index_of_indexed (zip messages sources)). rewrite Hlen in Hidx.
  assert (Htok := tokens_of_indexed estimates (zip messages sources) ltac:(lia)). fold l in Hidx, Htok.
  rewrite <- Hidx, <- Htok. rewrite <- Htok in Hmax.
  destruct (0 <? _) eqn:E; Nbool.
  - destruct Htool as [?|Htool]; [subst planned; lia|].
    assert (Hnone : grouped !! "tool_instructions" = None).
    { destruct (grouped !! "tool_instructions") as [e|] eqn:Eg; [|done].
      destruct (collected_entry _ _ _ Hc _ _ Eg) as [Hne _]. exfalso.
      by apply Hne, of_key_absent. }
    rewrite lookup_fmap, Hnone. cbn [fmap option_fmap option_map].
    rewrite omap_app. cbn [omap list_omap]. rewrite lookup_insert_eq, !fmap_app, concat_app, exact_sum_app.
    destruct (manifest_totals estimates l (grouped, order)
      (<["tool_instructions":=tool_entry planned tools tool_digests]>
         ((fun e => set_digest e (digest_text (cs_content_digest e))) <$> grouped)) Hc Hin) as [Hp Hq]; [|done|].
    + intros name Hn. rewrite lookup_insert_ne, lookup_fmap; [done|]. intros <-.
      apply (collected_dom _ _ _ Hc) in Hn as [? ?]. simpl in *. congruence.
    + cbn [snd] in Hp, Hq. fold planned. rewrite Hp, Hq. cbn. rewrite app_nil_r. split; [done|]. lia.
  - destruct (manifest_totals estimates l (grouped, order)
      ((fun e => set_digest e (digest_text (cs_content_digest e))) <$> grouped) Hc Hin) as [Hp Hq]; [|done|].
    + intros name _. apply lookup_fmap.
    + cbn [snd] in Hp, Hq. rewrite Hp, Hq. split; [done|]. unfold planned. lia.
Qed.

(** The audit manifest accounts for the whole request. Whatever the
    contributors are called and however they are interleaved, every message is listed
    under exactly one contributor, and the contributors' token counts add up to the
    messages' estimates and the planned tool schemas: nothing is lost, nothing counted
    twice. (A message whose contributor is itself called [tool_instructions] would be
    replaced by the tool entry.) *)
Theorem attribution_covers p messages tools sources tool_digests estimates digests :
  let planned := bs_planned_tool_tokens (pl_budget_snapshot p) in
  let manifest := attributed_contributor_manifest_with_estimates p messages tools sources tool_digests
                    estimates digests in
  length sources = length messages -> length estimates = length messages ->
  exact_sum estimates <= u64_max ->
  (planned = 0 \/ Forall (fun s => src_contributor s <> "tool_instructions") sources) ->
  concat (cs_message_indexes <$> manifest)
    ≡ₚ (fun i => N.min (N.of_nat i) u32_max) <$> seq 0 (length messages) /\
  exact_sum (cs_retained_estimated_tokens <$> manifest) = exact_sum estimates + planned.
Proof. apply manifest_accounts. Qed.

End builder.

(** ** The agent loop's working set *)

Definition DEFAULT_ACTIVE_TOOL_RESULT_TOKENS : N := 2048.
Definition MIN_ACTIVE_TOOL_RESULT_TOKENS : N := 256.
Definition MUTATION_ACTIVE_TOOL_RESULT_TOKENS : N := 1024.
Definition ACTIVE_WORKING_SET_MIN_HARD_BUDGET_TOKENS : N := 64 * 1024.
Definition ACTIVE_WORKING_SET_HEADROOM_PERCENT : N := 10.
Definition ACTIVE_WORKING_SET_MIN_HEADROOM_TOKENS : N := 8 * 1024.

(*@ runtime/src/lib.rs active_working_set_soft_limit *)
Definition active_working_set_soft_limit (hard_budget : N) : option N :=
  if (hard_budget =? u64_max) || (hard_budget <? ACTIVE_WORKING_SET_MIN_HARD_BUDGET_TOKENS) then None
  else
    let percentage_headroom := sat_mul u64_max hard_budget ACTIVE_WORKING_SET_HEADROOM_PERCENT / 100 in
    let headroom := N.max (N.max percentage_headroom ACTIVE_WORKING_SET_MIN_HEADROOM_TOKENS)
                      MIN_ACTIVE_TOOL_RESULT_TOKENS in
    Some (N.max (hard_budget - headroom) MIN_ACTIVE_TOOL_RESULT_TOKENS).

(*@ runtime/src/lib.rs active_tool_result_token_budget *)
Definition active_tool_result_token_budget (p : ContextBuildPlan)
    (message_token_total planned_tool_tokens cap : N) : N :=
  let limit := bs_budget_limit (pl_budget_snapshot p) in
  if limit =? u64_max then cap
  else
    let used := sat_add u64_max message_token_total planned_tool_tokens in
    clamp MIN_ACTIVE_TOOL_RESULT_TOKENS cap (limit - used - MIN_ACTIVE_TOOL_RESULT_TOKENS).

(*@ runtime/src/lib.rs active_tool_result_token_budget_for_tool *)
Definition active_tool_result_token_budget_for_tool (p : ContextBuildPlan)
    (message_token_total planned_tool_tokens : N) (tool_name : string) : N :=
  let cap :=
    if bool_decide (tool_name ∈ ["write_file"; "edit_file"; "apply_patch"])
    then MUTATION_ACTIVE_TOOL_RESULT_TOKENS
    else if bool_decide (tool_name ∈ ["shell"; "shell_session"]) then 4096
    else if bool_decide (tool_name = "web_search") then 1024
    else if bool_decide (tool_name ∈ ["read_file"; "subagent"]) then 2048
    else DEFAULT_ACTIVE_TOOL_RESULT_TOKENS in
  active_tool_result_token_budget p message_token_total planned_tool_tokens cap.

Section working_set.
Variable json_text : json -> string.
Variable metadata_text : ProviderMessageMetadata -> string.
Variable message_digest : ProviderMessage -> string.
Variable digest_text : string -> string.
(** The digest of a message list, and serde's forms of the summary envelope. *)
Variable messages_digest : list ProviderMessage -> string.
Variable empty_digest : string.
Variable render_envelope : CompactionSummaryEnvelope -> string.
Variable read_envelope : string -> option CompactionSummaryEnvelope.

(*@ runtime/src/lib.rs compact_context_with_headroom *)
Definition compact_context_with_headroom (p : ContextBuildPlan) (protected_prefix_len : nat)
    (observed : option ObservedContextPrefix) : result ContextError (option ContextCompactionRecord) :=
  let budget := pl_budget_snapshot p in
  let hard_limit := bs_budget_limit budget in
  let soft_limit := default hard_limit (active_working_set_soft_limit hard_limit) in
  let compact limit :=
    compact_if_needed_with_observed_prefix json_text metadata_text messages_digest empty_digest
      render_envelope read_envelope (new_window limit) (bs_turn_id budget) protected_prefix_len
      (pl_messages p) (pl_message_sources p) (pl_message_estimates p) (bs_planned_tool_tokens budget)
      observed in
  match compact soft_limit with
  | Err e => if (soft_limit <? hard_limit) && (hard_limit <? bs_planned_input_tokens budget)
             then compact hard_limit else Err e
  | Ok r => Ok r
  end.

(** The plan the loop keeps, with the running total of its messages' estimates. *)
Record WorkingSet := mkWorkingSet { ws_plan : ContextBuildPlan; ws_message_token_total : N }.

(*@ runtime/src/lib.rs append_plan_message *)
Definition append_plan_message (w : WorkingSet) (m : ProviderMessage) (s : ContextMessageSource) : WorkingSet :=
  let '(p, tokens) := append_message json_text metadata_text message_digest (ws_plan w) m s in
  mkWorkingSet p (sat_add u64_max (ws_message_token_total w) tokens).

Definition set_budget (p : ContextBuildPlan) (b : TokenBudgetSnapshot) : ContextBuildPlan :=
  mkPlan (pl_contributors p) (pl_contributor_manifest p) (pl_messages p) (pl_message_estimates p)
    (pl_message_digests p) (pl_message_sources p) b (pl_original_planned_input_tokens p)
    (pl_trimmed_contributors p).

Definition set_planned (b : TokenBudgetSnapshot) (input summary : N) : TokenBudgetSnapshot :=
  mkBudgetSnapshot (bs_snapshot_id b) (bs_task_id b) (bs_turn_id b) (bs_context_window b) (bs_max_output b)
    (bs_reserved_output_tokens b) input (bs_planned_tool_tokens b) summary (bs_budget_limit b)
    (bs_budget_policy b) (bs_action_if_exceeded b).

(** What the next request is planned to cost, before the budget check. *)
(*@ runtime/src/lib.rs:2001-2008 AgentLoop::run_with_control_trace_contract_and_replay_context *)
Definition plan_input_tokens (w : WorkingSet) (planned_tool_tokens : N)
    (observed : option ObservedContextPrefix) : WorkingSet :=
  let p := ws_plan w in
  let planned := context_tokens_with_observed_prefix_and_total json_text metadata_text (pl_messages p)
                   (pl_message_estimates p) (ws_message_token_total w) planned_tool_tokens observed in
  mkWorkingSet (set_budget p (set_planned (pl_budget_snapshot p) planned
                                (bs_planned_summary_tokens (pl_budget_snapshot p))))
    (ws_message_token_total w).

(** A compaction takes effect. *)
(*@ runtime/src/lib.rs:2053-2060 AgentLoop::run_with_control_trace_contract_and_replay_context *)
Definition commit_compaction (w : WorkingSet) (r : ContextCompactionRecord) : WorkingSet :=
  let '(p, total) := replace_messages json_text metadata_text message_digest (ws_plan w) (cr_replacement_messages r) (cr_replacement_sources r) in
  mkWorkingSet (set_budget p (set_planned (pl_budget_snapshot p) (cr_replacement_estimated_tokens r)
                                (estimate_tokens (cr_summary r)))) total.

(** ** The working set of a run *)

(** The steps of the loop that change the working set: a message is appended, the cost of
    the next request is planned, a compaction is committed, with the local summary or with
    the model's. *)
Inductive working_set_step (protected : nat) : WorkingSet -> WorkingSet -> Prop :=
| step_append w m s : working_set_step protected w (append_plan_message w m s)
| step_plan w tools observed : working_set_step protected w (plan_input_tokens w tools observed)
| step_compact w observed r :
    compact_context_with_headroom (ws_plan w) protected observed = Ok (Some r) ->
    working_set_step protected w (commit_compaction w r)
| step_compact_model w observed r summary r' :
    compact_context_with_headroom (ws_plan w) protected observed = Ok (Some r) ->
    apply_model_summary json_text metadata_text messages_digest render_envelope read_envelope r summary
      = Some r' ->
    working_set_step protected w (commit_compaction w r').

(** A run starts from a plan built from contributors or from a replay. *)
Inductive working_set_reachable (protected : nat) : WorkingSet -> Prop :=
| reach_built policy snapshot_id task_id turn_id contributors p :
    Forall (fun c => estimate_tokens (cc_content c) <= u64_max) contributors ->
    build message_digest digest_text policy snapshot_id task_id turn_id contributors = Ok p ->
    working_set_reachable protected (mkWorkingSet p (estimated_message_tokens p))
| reach_replayed policy snapshot_id task_id turn_id messages manifest p :
    build_from_messages json_text metadata_text message_digest policy snapshot_id task_id turn_id messages = Ok p ->
    let p' := restore_user_instruction_sources p manifest in
    working_set_reachable protected (mkWorkingSet p' (estimated_message_tokens p'))
| reach_step w w' :
    working_set_reachable protected w -> working_set_step protected w w' ->
    working_set_reachable protected w'.

Lemma headroom_compacts p protected observed r :
  compact_context_with_headroom p protected observed = Ok (Some r) ->
  exists limit, limit <= bs_budget_limit (pl_budget_snapshot p) /\
    compact_if_needed_with_observed_prefix json_text metadata_text messages_digest empty_digest
      render_envelope read_envelope (new_window limit) (bs_turn_id (pl_budget_snapshot p)) protected
      (pl_messages p) (pl_message_sources p) (pl_message_estimates p)
      (bs_planned_tool_tokens (pl_budget_snapshot p)) observed = Ok (Some r).
Proof.
  unfold compact_context_with_headroom.
  set (hard := bs_budget_limit _). set (soft := default hard _).
  assert (Hs : soft <= hard).
  { subst soft. unfold active_working_set_soft_limit.
    destruct (_ || _) eqn:E; simpl; [done|]. apply orb_false_iff in E as [_ E]. Nbool.
    unfold ACTIVE_WORKING_SET_MIN_HARD_BUDGET_TOKENS, MIN_ACTIVE_TOOL_RESULT_TOKENS in *. lia. }
  destruct (compact_if_needed_with_observed_prefix _ _ _ _ _ _ (new_window soft) _ _ _ _ _ _ _)
    as [o|e] eqn:E; intros H.
  - simplify_eq. by exists soft.
  - case_match; [|done]. by exists hard.
Qed.

Lemma compaction_aligned p protected observed r :
  plan_ok json_text metadata_text message_digest p -> compact_context_with_headroom p protected observed = Ok (Some r) ->
  length (cr_replacement_sources r) = length (cr_replacement_messages r).
Proof.
  intros (_ & He & _) H. apply headroom_compacts in H as (limit & _ & H). rewrite He in H.
  apply compaction_parts in H as (summary_part & instructions & retained & Hc).
  eapply compacted_aligned; [..|exact Hc]; [done..|]. apply Nat.le_min_r.
Qed.

Lemma model_summary_keeps_lengths r summary r' :
  apply_model_summary json_text metadata_text messages_digest render_envelope read_envelope r summary
    = Some r' ->
  length (cr_replacement_messages r') = length (cr_replacement_messages r) /\
  cr_replacement_sources r' = cr_replacement_sources r.
Proof.
  unfold apply_model_summary. intros H.
  repeat (apply bind_Some in H as (? & _ & H)). case_match; [done|]. simplify_eq/=.
  by rewrite length_insert.
Qed.

Lemma commit_ok w r :
  length (cr_replacement_sources r) = length (cr_replacement_messages r) ->
  plan_ok json_text metadata_text message_digest (ws_plan (commit_compaction w r)) /\
  ws_message_token_total (commit_compaction w r) = estimated_message_tokens (ws_plan (commit_compaction w r)).
Proof. intros Hl. done. Qed.

(** C31 (invariant): the loop's bookkeeping never drifts. In every state a run can reach,
    each message of the plan has a source, its own token estimate and its own digest, and
    the running total is the sum of the estimates; whatever messages were appended and
    however the history was compacted. *)
Theorem working_set_consistent protected w :
  working_set_reachable protected w ->
  plan_ok json_text metadata_text message_digest (ws_plan w) /\ ws_message_token_total w = estimated_message_tokens (ws_plan w).
Proof.
  induction 1 as [policy sid tid uid contributors p Hc Hb|policy sid tid uid messages manifest p Hb p'
                 |w w' _ [Hok Ht] Hstep].
  - split; [by eapply build_plan_ok|done].
  - split; [|done]. apply restore_plan_ok. by eapply replay_plan_ok.
  - destruct Hstep as [w m s|w tools observed|w observed r Hr|w observed r summary r' Hr Hs].
    + split; [by apply append_plan_ok|]. simpl. rewrite Ht. unfold estimated_message_tokens. simpl.
      by rewrite sum_estimates_snoc.
    + done.
    + apply commit_ok. by eapply compaction_aligned.
    + apply commit_ok. apply model_summary_keeps_lengths in Hs as [-> ->]. by eapply compaction_aligned.
Qed.

End working_set.

(** ** Witnesses *)

Abbreviation ex_json := (fun _ : json => "null").
Abbreviation ex_meta := (fun _ : ProviderMessageMetadata => "").
Abbreviation ex_digest := (fun _ : ProviderMessage => "d").
Abbreviation ex_read := (fun _ : string => @None CompactionSummaryEnvelope).

Definition ex_policy : ContextBudgetPolicy := mkBudgetPolicy 1000 100 160 BudgetOverflowAction.Compact.
Definition ex_system : ContextContributor :=
  mkContributor "system_prompt" ProviderRole.System (example_text 10) 0 [].
Definition ex_plan : result ContextError ContextBuildPlan :=
  build ex_digest id ex_policy 1 2 3 [ex_system].
Definition ex_start : WorkingSet :=
  match ex_plan with
  | Ok p => mkWorkingSet p (estimated_message_tokens p)
  | Err _ => mkWorkingSet (mkPlan [] [] [] [] [] [] (budget_snapshot ex_policy 1 2 3 0 "") 0 []) 0
  end.
Definition ex_append (w : WorkingSet) (m : ProviderMessage) (s : ContextMessageSource) : WorkingSet :=
  append_plan_message ex_json ex_meta ex_digest w m s.
(** A long message whose source is only named as an event, then a short exchange. *)
Definition ex_working_set : WorkingSet :=
  ex_append
    (ex_append (ex_append ex_start (example_message ProviderRole.User (example_text 120) [])
                  (mkSource "note" ["n"] "runtime_event" ModelVisible))
       (example_message ProviderRole.Assistant (example_text 30) [example_call])
       (mkSource "assistant_recent" ["a"] "runtime_history" ModelVisible))
    (example_message ProviderRole.Tool (example_text 20) [])
    (mkSource "tool_result_excerpt" ["t"] "runtime_history" ModelVisible).
Definition ex_compile (p : ContextBuildPlan) : result ContextError ModelInputEnvelope :=
  compile_model_input ex_json ex_meta ex_digest id (fun _ => "") (fun _ _ => "") (fun _ => "")
    1 2 3 4 p 5 6 "provider" "model" [] PromptCachePolicy.Auto [] [].
Definition ex_compact (w : WorkingSet) : result ContextError (option ContextCompactionRecord) :=
  compact_context_with_headroom ex_json ex_meta (fun _ => "") "" example_render ex_read (ws_plan w) 1 None.
Definition ex_commit (w : WorkingSet) : WorkingSet :=
  match ex_compact w with Ok (Some r) => commit_compaction ex_json ex_meta ex_digest w r | _ => w end.

(** A source that is hidden by its name alone is refused as long as its message is in the
    plan; the summary that replaces the message has another name and is let through. *)
Theorem compaction_forgets_hidden_names :
  ex_compile (ws_plan ex_working_set) = Err (ForbiddenModelInputSource "runtime_event") /\
  is_ok (ex_compile (ws_plan (ex_commit ex_working_set))) = true /\
  (pl_message_sources (ws_plan (ex_commit ex_working_set)) !! 1%nat ≫= fun s => Some (src_origin s))
  = Some "compaction_summary".
Proof. split_and!; vm_compute; reflexivity. Qed.

Lemma ex_reachable :
  working_set_reachable ex_json ex_meta ex_digest id (fun _ => "") "" example_render ex_read 1 ex_working_set.
Proof.
  eapply reach_step; [|apply step_append]. eapply reach_step; [|apply step_append].
  eapply reach_step; [|apply step_append].
  apply (reach_built _ _ _ _ _ _ _ _ _ ex_policy 1 2 3 [ex_system]); [|reflexivity].
  repeat constructor. vm_compute. discriminate.
Defined.

Lemma working_set_consistent_witness :
  ws_message_token_total (ex_commit ex_working_set) = estimated_message_tokens (ws_plan (ex_commit ex_working_set)).
Proof.
  eapply (working_set_consistent ex_json ex_meta ex_digest id (fun _ => "") "" example_render ex_read 1).
  eapply reach_step; [exact ex_reachable|]. unfold ex_commit.
  destruct (ex_compact ex_working_set) as [[r|]|] eqn:E; [|vm_compute in E; discriminate..].
  by eapply step_compact.
Defined.

Lemma stable_prefix_of_snapshot_witness :
  exists env, ex_compile (ws_plan (ex_commit ex_working_set)) = Ok env /\
    stable_prefix_message_count (mi_audit_snapshot env) = 1%nat.
Proof.
  destruct (ex_compile (ws_plan (ex_commit ex_working_set))) as [env|e] eqn:E; [|vm_compute in E; discriminate].
  exists env. split; [done|]. etrans; [eapply stable_prefix_of_snapshot; exact E|]. vm_compute. reflexivity.
Defined.

Lemma attribution_covers_witness :
  exact_sum (cs_retained_estimated_tokens <$>
    attributed_contributor_manifest_with_estimates ex_json ex_meta ex_digest id (ws_plan ex_working_set)
      (pl_messages (ws_plan ex_working_set)) [] (pl_message_sources (ws_plan ex_working_set)) []
      (pl_message_estimates (ws_plan ex_working_set)) []) = 181.
Proof.
  destruct (attribution_covers ex_json ex_meta ex_digest id (ws_plan ex_working_set)
    (pl_messages (ws_plan ex_working_set)) [] (pl_message_sources (ws_plan ex_working_set)) []
    (pl_message_estimates (ws_plan ex_working_set)) []) as [_ H].
  - reflexivity.
  - reflexivity.
  - vm_compute. discriminate.
  - left. reflexivity.
  - etrans; [exact H|]. vm_compute. reflexivity.
Defined.
