(* ===== verification/TokenUsage.v ===== *)
(** * Token usage and its attribution

    A provider's usage report normalised ([golutra-agent-core/src/provider.rs]), the
    usage record made from it ([golutra-agent-context/src/lib.rs],
    [golutra-agent-core/src/token.rs]) and the proportional attribution of the input
    tokens to the contributors of the request. *)
From S2P Require Import Prelude RustStr Core Provider ContextWindow ContextBuild.
Open Scope N_scope.

(** ** Data *)

Module UsageSource.
(*@ core/src/provider.rs UsageSource *)
Inductive UsageSource := Provider | Estimated | Unknown.
#[global] Instance UsageSource_eq_dec : EqDecision UsageSource.
Proof. solve_decision. Defined.
End UsageSource.
Abbreviation UsageSource := UsageSource.UsageSource.

(*@ core/src/provider.rs ProviderUsage *)
Record ProviderUsage := mkUsage {
  us_input_tokens : option N;
  us_output_tokens : option N;
  us_reasoning_tokens : option N;
  us_cached_input_tokens : option N;
  us_total_tokens : option N;
  us_usage_source : UsageSource;
  us_raw : json;
}.

(** A cost is an [f64] by its bits. *)
(*@ core/src/provider.rs NormalizedUsage *)
Record NormalizedUsage := mkNormalized {
  nu_input_tokens_total : option N;
  nu_input_tokens_non_cached : option N;
  nu_cache_read_tokens : option N;
  nu_cache_write_tokens : option N;
  nu_output_tokens : option N;
  nu_reasoning_tokens : option N;
  nu_provider_total_tokens : option N;
  nu_estimated_cost : option N;
  nu_tool_schema_tokens_estimated : option N;
  nu_tool_result_tokens_estimated : option N;
  nu_usage_source : UsageSource;
  nu_usage_complete : bool;
}.

(*@ core/src/provider.rs CacheIdentity *)
Record CacheIdentity := mkCacheIdentity {
  ci_session_id : SessionId;
  ci_thread_id : option ThreadId;
  ci_provider_id : string;
  ci_model_id : string;
  ci_route_namespace : string;
  ci_key : string;
}.

(*@ core/src/token.rs TokenContributorAttribution *)
Record TokenContributorAttribution := mkContributorAttribution {
  ca_contributor : string;
  ca_source_refs : list string;
  ca_message_indexes : list N;
  ca_estimated_input_tokens : N;
  ca_attributed_input_tokens : option N;
  ca_attribution_method : string;
}.

(*@ core/src/token.rs TokenAttribution *)
Record TokenAttribution := mkAttribution {
  ta_system_prompt_tokens : option N;
  ta_developer_instruction_tokens : option N;
  ta_runtime_context_tokens : option N;
  ta_policy_tokens : option N;
  ta_user_message_tokens : option N;
  ta_assistant_recent_tokens : option N;
  ta_working_summary_tokens : option N;
  ta_memory_tokens : option N;
  ta_evidence_tokens : option N;
  ta_tool_instruction_tokens : option N;
  ta_tool_result_excerpt_tokens : option N;
  ta_output_tokens : option N;
  ta_reasoning_tokens : option N;
  ta_cached_input_tokens : option N;
  ta_contributors : list TokenContributorAttribution;
  ta_unattributed_input_tokens : option N;
  ta_source : string;
}.

(*@ core/src/token.rs TokenUsageRecord *)
Record TokenUsageRecord := mkUsageRecord {
  ur_session_id : option SessionId;
  ur_task_id : TaskId;
  ur_turn_id : TurnId;
  ur_provider_id : string;
  ur_model_id : string;
  ur_request_event_id : ProviderRequestId;
  ur_response_event_id : N;
  ur_input_tokens : option N;
  ur_output_tokens : option N;
  ur_reasoning_tokens : option N;
  ur_estimated_cost : option N;
  ur_budget_snapshot_ref : N;
  ur_attribution_ref : option TokenAttribution;
  ur_usage_source : string;
  ur_cache_read_tokens : option N;
  ur_cache_write_tokens : option N;
  ur_non_cached_input_tokens : option N;
  ur_tool_schema_tokens_estimated : option N;
  ur_tool_result_tokens_estimated : option N;
  ur_tool_estimated_tokens : option N;
  ur_provider_total_tokens : option N;
  ur_usage_complete : bool;
  ur_cache_identity : option CacheIdentity;
}.

(** ** Normalisation *)

(** [Value::pointer] for the paths used here: no [~], and no segment that would index an
    array. *)
Definition pointer (v : json) (path : string) : option json :=
  fold_left (fun v segment => v ≫= fun v => json_get v segment) (tail (split_on (byte 47) path)) (Some v).

(** Negative numbers are neither [as_u64] nor convertible from [as_i64]. *)
(*@ core/src/provider.rs non_negative_u64 *)
Definition non_negative_u64 (v : json) : option N :=
  match as_u64 v with
  | Some n => Some n
  | None => s ← as_str v; parse_usize (trim s)
  end.

(*@ core/src/provider.rs first_raw_u64 *)
Definition first_raw_u64 (raw : json) (paths : list string) : option N :=
  head (omap (fun path => pointer raw path ≫= non_negative_u64) paths).

Definition or_else {A} (o o' : option A) : option A := match o with Some x => Some x | None => o' end.

Definition CACHE_READ_PATHS : list string :=
  ["/prompt_tokens_details/cached_tokens"; "/prompt_tokens_details/cache_read_tokens";
   "/prompt_tokens_details/cache_read_input_tokens"; "/input_tokens_details/cached_tokens";
   "/input_tokens_details/cache_read_tokens"; "/input_tokens_details/cache_read_input_tokens";
   "/input_tokens_details/cache_read"; "/prompt_tokens_details/cached_input_tokens";
   "/prompt_tokens_details/cached_input"; "/input_tokens_details/cached_input_tokens";
   "/input_tokens_details/cached_input"; "/usage/prompt_tokens_details/cached_tokens";
   "/usage/prompt_tokens_details/cache_read_tokens";
   "/usage/prompt_tokens_details/cache_read_input_tokens"; "/usage/input_tokens_details/cached_tokens";
   "/usage/input_tokens_details/cache_read_tokens"; "/usage/input_tokens_details/cache_read_input_tokens";
   "/cache_read_tokens"; "/cache_read_input_tokens"; "/cached_tokens"; "/cached_input_tokens";
   "/usage/cache_read_tokens"; "/usage/cache_read_input_tokens"].
Definition NON_CACHED_PATHS : list string :=
  ["/input_tokens_non_cached"; "/non_cached_input_tokens"; "/uncached_input_tokens";
   "/prompt_tokens_details/uncached_tokens"; "/prompt_tokens_details/input_tokens_non_cached";
   "/input_tokens_details/uncached_tokens"; "/input_tokens_details/input_tokens_non_cached";
   "/usage/input_tokens_non_cached"; "/usage/non_cached_input_tokens"; "/usage/uncached_input_tokens"].
Definition CACHE_WRITE_PATHS : list string :=
  ["/prompt_tokens_details/cache_creation_tokens"; "/prompt_tokens_details/cache_write_tokens";
   "/prompt_tokens_details/cache_creation_input_tokens"; "/input_tokens_details/cache_creation_tokens";
   "/input_tokens_details/cache_write_tokens"; "/input_tokens_details/cache_creation_input_tokens";
   "/input_tokens_details/cache_write"; "/usage/prompt_tokens_details/cache_creation_tokens";
   "/usage/prompt_tokens_details/cache_write_tokens";
   "/usage/prompt_tokens_details/cache_creation_input_tokens";
   "/usage/input_tokens_details/cache_creation_tokens"; "/usage/input_tokens_details/cache_write_tokens";
   "/usage/input_tokens_details/cache_creation_input_tokens"; "/cache_write_tokens";
   "/cache_creation_tokens"; "/cache_creation_input_tokens"; "/usage/cache_write_tokens";
   "/usage/cache_creation_tokens"; "/usage/cache_creation_input_tokens"].

(*@ core/src/provider.rs ProviderUsage::normalize *)
Definition normalize (u : ProviderUsage) : NormalizedUsage :=
  let raw := us_raw u in
  let cache_read_tokens := or_else (us_cached_input_tokens u) (first_raw_u64 raw CACHE_READ_PATHS) in
  let input_tokens_non_cached :=
    or_else (first_raw_u64 raw NON_CACHED_PATHS)
      (input ← us_input_tokens u; cached ← cache_read_tokens; checked_sub input cached) in
  let estimated key nested := or_else (json_get raw key ≫= as_u64) (pointer raw nested ≫= as_u64) in
  mkNormalized (us_input_tokens u) input_tokens_non_cached cache_read_tokens
    (first_raw_u64 raw CACHE_WRITE_PATHS) (us_output_tokens u) (us_reasoning_tokens u)
    (us_total_tokens u) None (estimated "tool_schema_tokens" "/tool/schema_tokens")
    (estimated "tool_result_tokens" "/tool/result_tokens") (us_usage_source u)
    (bool_decide (is_Some (us_input_tokens u)) && bool_decide (is_Some (us_output_tokens u))).

(*@ core/src/provider.rs NormalizedUsage::aggregate_total *)
Definition aggregate_total (n : NormalizedUsage) : option N :=
  or_else (nu_provider_total_tokens n)
    (input ← nu_input_tokens_total n; output ← nu_output_tokens n; Some (sat_add u64_max input output)).

Definition source_name (s : UsageSource) : string :=
  match s with
  | UsageSource.Provider => "provider"
  | UsageSource.Estimated => "estimated"
  | UsageSource.Unknown => "unknown"
  end.

(*@ core/src/token.rs TokenUsageRecord::usage *)
Definition usage (r : TokenUsageRecord) : NormalizedUsage :=
  mkNormalized (ur_input_tokens r) (ur_non_cached_input_tokens r) (ur_cache_read_tokens r)
    (ur_cache_write_tokens r) (ur_output_tokens r) (ur_reasoning_tokens r) (ur_provider_total_tokens r)
    (ur_estimated_cost r) (ur_tool_schema_tokens_estimated r) (ur_tool_result_tokens_estimated r)
    (if bool_decide (ur_usage_source r = "provider") then UsageSource.Provider
     else if bool_decide (ur_usage_source r = "estimated") then UsageSource.Estimated
     else UsageSource.Unknown)
    (ur_usage_complete r).

(** ** Attribution in proportion *)

(** Larger remainders first, earlier entries first among equals. *)
Definition remainder_before (l r : nat * N) : Prop :=
  snd r < snd l \/ (snd r = snd l /\ (fst l <= fst r)%nat).
#[global] Instance remainder_before_dec : RelDecision remainder_before.
Proof. intros l r. unfold remainder_before. apply _. Defined.

(*@ context/src/lib.rs proportional_token_attribution *)
Definition proportional_token_attribution (actual : N) (weights : list N) : list N :=
  let total_weight := exact_sum weights in
  if total_weight =? 0 then (fun _ => 0) <$> weights
  else
    let numerators := sat_mul u128_max actual <$> weights in
    let shares := (fun n => N.min (n / total_weight) u64_max) <$> numerators in
    let assigned := sum_estimates shares in
    let remainders := imap (fun i n => (i, n mod total_weight)) numerators in
    let remainder := N.min actual u64_max - assigned in
    fold_left (fun shares i => alter (fun s => sat_add u64_max s 1) i shares)
      (fst <$> take (N.to_nat remainder) (merge_sort remainder_before remainders)) shares.

(** [ProviderMessage == ProviderMessage]. *)
Definition list_eqb {A} (f : A -> A -> bool) : list A -> list A -> bool :=
  fix go l k :=
    match l, k with
    | [], [] => true
    | x :: l, y :: k => f x y && go l k
    | _, _ => false
    end.
Definition call_eqb (a b : ProviderToolCall) : bool :=
  bool_decide (pc_tool_call_id a = pc_tool_call_id b) && bool_decide (pc_tool_name a = pc_tool_name b)
  && json_eqb (pc_arguments a) (pc_arguments b).
Definition message_eqb (a b : ProviderMessage) : bool :=
  bool_decide (pm_role a = pm_role b) && bool_decide (pm_content a = pm_content b)
  && bool_decide (pm_tool_call_id a = pm_tool_call_id b) && bool_decide (pm_tool_name a = pm_tool_name b)
  && list_eqb call_eqb (pm_tool_calls a) (pm_tool_calls b)
  && list_eqb json_eqb (openai_responses_replay_items (pm_metadata a))
       (openai_responses_replay_items (pm_metadata b)).
Definition same_messages : list ProviderMessage -> list ProviderMessage -> bool := list_eqb message_eqb.

Section usage.
Variable json_text : json -> string.
Variable metadata_text : ProviderMessageMetadata -> string.
Variable message_digest : ProviderMessage -> string.
Variable digest_text : string -> string.
Variable tool_digest : ToolContract -> string.

(** The estimates of the messages of one role. *)
(*@ context/src/lib.rs:2053-2071 token_usage_record_with_cache_identity_and_estimates_and_tool_digests *)
Definition role_tokens (role : ProviderRole) (messages : list ProviderMessage) (estimates : list N) : N :=
  fold_left (fun total '(m, tokens) =>
    if bool_decide (pm_role m = role) then sat_add u64_max total tokens else total)
    (zip messages estimates) 0.

(*@ context/src/lib.rs:2113-2135 token_usage_record_with_cache_identity_and_estimates_and_tool_digests *)
Definition contributor_attributions (manifest : list ContextContributorSnapshot)
    (input_tokens : option N) : list TokenContributorAttribution :=
  let attributed :=
    (fun actual => proportional_token_attribution actual (cs_retained_estimated_tokens <$> manifest))
      <$> input_tokens in
  imap (fun index c =>
    mkContributorAttribution (cs_name c) (cs_source_refs c) (cs_message_indexes c)
      (cs_retained_estimated_tokens c) (tokens ← attributed; tokens !! index)
      (match input_tokens with
       | Some _ => "proportional_provider_total"
       | None => "estimated_request_tokens"
       end)) manifest.

Definition attributed_total (l : list TokenContributorAttribution) : N :=
  fold_left (sat_add u64_max) (omap ca_attributed_input_tokens l) 0.

(*@ context/src/lib.rs:2140-2146 token_usage_record_with_cache_identity_and_estimates_and_tool_digests *)
Definition contributor_tokens (manifest : list ContextContributorSnapshot) (name : string) : N :=
  exact_sum (cs_retained_estimated_tokens <$>
             List.filter (fun c => bool_decide (cs_name c = name)) manifest).

(*@ context/src/lib.rs token_usage_record_with_cache_identity_and_estimates_and_tool_digests *)
Definition token_usage_record (p : ContextBuildPlan) (request : CompiledRequest) (response_event_id : N)
    (budget : TokenBudgetSnapshot) (u : ProviderUsage) (cost_model : string)
    (cache_identity : option CacheIdentity) (estimates : list N) (tool_digests : list string)
    : TokenUsageRecord :=
  let messages := cq_messages request in
  let estimates := checked_estimates json_text metadata_text messages estimates in
  let tool_result_tokens := role_tokens ProviderRole.Tool messages estimates in
  let sources := checked_sources messages (pl_message_sources p) in
  let tool_digests :=
    if bool_decide (length tool_digests = length (cq_tools request)) then tool_digests
    else tool_digest <$> cq_tools request in
  let manifest :=
    attributed_contributor_manifest_with_estimates json_text metadata_text message_digest digest_text p
      messages (cq_tools request) sources tool_digests estimates
      (if same_messages (pl_messages p) messages then pl_message_digests p else []) in
  let contributors := contributor_attributions manifest (us_input_tokens u) in
  let tokens name := Some (contributor_tokens manifest name) in
  let normalized := normalize u in
  let tool_schema :=
    or_else (nu_tool_schema_tokens_estimated normalized)
      (match cq_tools request with [] => None | _ => Some (bs_planned_tool_tokens budget) end) in
  let tool_result := or_else (nu_tool_result_tokens_estimated normalized) (Some tool_result_tokens) in
  mkUsageRecord (cq_session_id request) (cq_task_id request) (cq_turn_id request)
    (cq_provider_id request) (cq_model_id request) (cq_request_id request) response_event_id
    (us_input_tokens u) (us_output_tokens u) (us_reasoning_tokens u)
    (if bool_decide (cost_model = "zero") then Some 0 else None) (bs_snapshot_id budget)
    (Some (mkAttribution (Some (role_tokens ProviderRole.System messages estimates))
       (tokens "developer_instructions") (tokens "runtime_context") (tokens "policy")
       (Some (role_tokens ProviderRole.User messages estimates))
       (Some (role_tokens ProviderRole.Assistant messages estimates)) (tokens "working_summary")
       (tokens "memory") (tokens "evidence") (tokens "tool_instructions") (Some tool_result_tokens)
       (us_output_tokens u) (us_reasoning_tokens u) (us_cached_input_tokens u) contributors
       ((fun actual => actual - attributed_total contributors) <$> us_input_tokens u)
       (match us_usage_source u with UsageSource.Provider => "mixed" | _ => "tokenizer" end)))
    (source_name (us_usage_source u)) (nu_cache_read_tokens normalized)
    (nu_cache_write_tokens normalized) (nu_input_tokens_non_cached normalized) tool_schema tool_result
    (match tool_schema, tool_result with
     | Some schema, Some result => Some (sat_add u64_max schema result)
     | Some value, None | None, Some value => Some value
     | None, None => None
     end)
    (nu_provider_total_tokens normalized) (nu_usage_complete normalized) cache_identity.

End usage.

(** ** The shares add up *)

#[local] Instance remainder_before_total : Total remainder_before.
Proof.
  intros [i a] [j b]. unfold remainder_before. simpl.
  destruct (N.lt_trichotomy a b) as [?|[?|?]]; [by right; left| |by left; left].
  destruct (Nat.le_ge_cases i j); [left|right]; right; split; lia.
Qed.
#[local] Instance remainder_before_trans : Transitive remainder_before.
Proof. intros [i a] [j b] [k c]. unfold remainder_before. simpl. lia. Qed.

(** One more for each of some distinct shares. *)
Definition bump (shares : list N) (indices : list nat) : list N :=
  fold_left (fun shares i => alter (fun s => sat_add u64_max s 1) i shares) indices shares.

Lemma exact_sum_alter f i l x :
  l !! i = Some x -> exact_sum (alter f i l) + x = exact_sum l + f x.
Proof.
  revert i. induction l as [|y l IH]; intros [|i] H; simplify_eq/=; [lia|]. specialize (IH i H).
  unfold exact_sum in *. simpl. change (list_alter f i l) with (alter f i l). lia.
Qed.

Lemma bump_spec indices : forall shares,
  NoDup indices -> Forall (fun i => exists s, shares !! i = Some s /\ s < u64_max) indices ->
  exact_sum (bump shares indices) = exact_sum shares + N.of_nat (length indices) /\
  (forall i, bump shares indices !! i = (fun s => if decide (i ∈ indices) then s + 1 else s) <$> shares !! i).
Proof.
  unfold bump. induction indices as [|k indices IH]; intros shares Hnd Hlt; cbn [fold_left].
  { split; [simpl; lia|]. intros i. by destruct (shares !! i). }
  apply NoDup_cons in Hnd as [Hk Hnd]. apply Forall_cons in Hlt as [(s & Hs & Hmax) Hlt].
  assert (Hsat : sat_add u64_max s 1 = s + 1) by (unfold sat_add; lia).
  destruct (IH (alter (fun s => sat_add u64_max s 1) k shares) Hnd) as [Hsum Hlook].
  { apply Forall_forall. intros i Hi. destruct (proj1 (Forall_forall _ _) Hlt i Hi) as (t & Ht & ?).
    exists t. rewrite list_lookup_alter_ne by (intros ->; by apply Hk). done. }
  split.
  - rewrite Hsum. pose proof (exact_sum_alter (fun s => sat_add u64_max s 1) k shares s Hs) as Ha.
    simpl in Ha. cbn [length]. lia.
  - intros i. rewrite Hlook. destruct (decide (i = k)) as [->|Hne].
    + rewrite list_lookup_alter_eq, Hs. simpl. rewrite Hsat, decide_False by done.
      by rewrite decide_True by apply list_elem_of_here.
    + rewrite list_lookup_alter_ne by done. destruct (shares !! i); [|done]. simpl. f_equal.
      destruct (decide (i ∈ indices)), (decide (i ∈ k :: indices)); set_solver.
Qed.

Lemma exact_sum_cons x l : exact_sum (x :: l) = x + exact_sum l.
Proof. reflexivity. Qed.

(** Division with remainder, summed. *)
Lemma exact_sum_div_mod l t : t <> 0 ->
  exact_sum l = t * exact_sum ((fun n => n / t) <$> l) + exact_sum ((fun n => n mod t) <$> l).
Proof.
  intros Ht. induction l as [|n l IH]; [simpl; lia|]. rewrite !fmap_cons, !exact_sum_cons, IH.
  pose proof (N.div_mod n t Ht). lia.
Qed.

Lemma exact_sum_mul a l : exact_sum ((fun w => a * w) <$> l) = a * exact_sum l.
Proof. induction l as [|w l IH]; [simpl; lia|]. rewrite !fmap_cons, !exact_sum_cons, IH. lia. Qed.

Lemma exact_sum_bound l b : Forall (fun x => x <= b) l -> exact_sum l <= b * N.of_nat (length l).
Proof. induction 1; [simpl; lia|]. rewrite exact_sum_cons. cbn [length]. lia. Qed.

Lemma exact_sum_elem x l : x ∈ l -> x <= exact_sum l.
Proof. induction 1; rewrite exact_sum_cons; lia. Qed.

(** Without saturation a share is its quotient. *)
Lemma shares_exact actual weights total :
  Forall (fun w => w <= total) weights -> total <> 0 -> actual <= u64_max ->
  Forall (fun w => w <= u64_max) weights ->
  sat_mul u128_max actual <$> weights = (fun w => actual * w) <$> weights /\
  (fun n => N.min (n / total) u64_max) <$> ((fun w => actual * w) <$> weights)
  = (fun n => n / total) <$> ((fun w => actual * w) <$> weights).
Proof.
  intros Hw Ht Ha Hmax. split.
  - apply list_fmap_ext. intros i w Hi. apply (Forall_lookup_1 _ _ _ _ Hmax) in Hi.
    unfold sat_mul. apply N.min_l. transitivity (u64_max * u64_max); [by apply N.mul_le_mono|]. done.
  - rewrite <- !list_fmap_compose. apply list_fmap_ext. intros i w Hi. unfold compose.
    apply (Forall_lookup_1 _ _ _ _ Hw) in Hi. apply N.min_l. transitivity actual; [|done].
    apply N.Div0.div_le_upper_bound. nia.
Qed.

(** What is left after the quotients is at most one per entry. *)
Lemma remainder_bound actual weights :
  let total := exact_sum weights in
  let quotients := (fun n => n / total) <$> ((fun w => actual * w) <$> weights) in
  total <> 0 ->
  exact_sum quotients <= actual /\ actual - exact_sum quotients <= N.of_nat (length weights).
Proof.
  intros total quotients Ht.
  assert (Hsum := exact_sum_div_mod ((fun w => actual * w) <$> weights) total Ht).
  rewrite exact_sum_mul in Hsum. fold total quotients in Hsum.
  set (rems := (fun n => n mod total) <$> _) in Hsum.
  assert (Hrem : exact_sum rems <= (total - 1) * N.of_nat (length weights)).
  { etrans; [apply (exact_sum_bound _ (total - 1))|].
    - subst rems. apply Forall_fmap, Forall_true. intros n. pose proof (N.mod_lt n total Ht). simpl. lia.
    - subst rems. by rewrite !length_fmap. }
  split; nia.
Qed.

(** The entries that get one more, largest remainders first. *)
Lemma remainder_indices (ns : list N) total k :
  let sorted := merge_sort remainder_before (imap (fun i n => (i, n mod total)) ns) in
  let chosen := fst <$> take k sorted in
  NoDup chosen /\ Forall (fun i => (i < length ns)%nat) chosen /\
  ((k <= length ns)%nat -> length chosen = k) /\
  (forall i j n m, i ∈ chosen -> j ∉ chosen -> ns !! i = Some n -> ns !! j = Some m ->
     m mod total <= n mod total).
Proof.
  intros sorted chosen.
  assert (Hperm : sorted ≡ₚ imap (fun i n => (i, n mod total)) ns) by apply merge_sort_Permutation.
  assert (Hfst : fst <$> sorted ≡ₚ seq 0 (length ns)).
  { rewrite Hperm. apply reflexive_eq, list_eq. intros i. rewrite list_lookup_fmap, list_lookup_imap.
    destruct (ns !! i) as [n|] eqn:E; simpl; symmetry.
    - rewrite lookup_seq_lt; [done|]. by eapply lookup_lt_Some.
    - apply lookup_seq_ge. by apply lookup_ge_None. }
  assert (Hlen : length sorted = length ns) by (rewrite Hperm; apply length_imap).
  assert (Hnd : NoDup (fst <$> sorted)) by (rewrite Hfst; apply NoDup_seq).
  assert (Hsplit : fst <$> sorted = chosen ++ (fst <$> drop k sorted)).
  { subst chosen. by rewrite <- fmap_app, take_drop. }
  assert (Hentry : forall i v, (i, v) ∈ sorted -> exists n, ns !! i = Some n /\ v = n mod total).
  { intros i v Hi. rewrite Hperm in Hi. apply elem_of_lookup_imap in Hi as (j & n & [= -> ->] & Hj).
    by exists n. }
  split_and!.
  - rewrite Hsplit in Hnd. by apply NoDup_app in Hnd as [? _].
  - apply Forall_forall. intros i Hi. assert (Hin : i ∈ fst <$> sorted) by (rewrite Hsplit; set_solver).
    rewrite Hfst in Hin. apply elem_of_seq in Hin. lia.
  - intros Hk. subst chosen. rewrite length_fmap, length_take. lia.
  - intros i j n m Hi Hj Hn Hm.
    assert (Hj' : j ∈ fst <$> drop k sorted).
    { assert (Hin : j ∈ fst <$> sorted).
      { rewrite Hfst. apply elem_of_seq. apply lookup_lt_Some in Hm. lia. }
      rewrite Hsplit in Hin. set_solver. }
    apply list_elem_of_fmap in Hi as ([i' v] & -> & Hv). apply list_elem_of_fmap in Hj' as ([j' u] & -> & Hu).
    assert (Hs := StronglySorted_merge_sort remainder_before (imap (fun i n => (i, n mod total)) ns)).
    fold sorted in Hs. rewrite <- (take_drop k sorted) in Hs.
    assert (Hb : remainder_before (i', v) (j', u)) by (eapply StronglySorted_app_1_elem_of; eauto).
    destruct (Hentry i' v) as (n' & Hn' & ->).
    { rewrite <- (take_drop k sorted). set_solver. }
    destruct (Hentry j' u) as (m' & Hm' & ->).
    { rewrite <- (take_drop k sorted). set_solver. }
    simpl in *. simplify_eq. unfold remainder_before in Hb. simpl in Hb. lia.
Qed.

Lemma proportional_shares actual weights :
  let total := exact_sum weights in
  total <> 0 -> Forall (fun w => w <= u64_max) weights -> actual <= u64_max ->
  let shares := proportional_token_attribution actual weights in
  exact_sum shares = actual /\
  exists chosen : list nat,
    shares = imap (fun i w => actual * w / total + (if decide (i ∈ chosen) then 1 else 0)) weights /\
    (forall i j w v, i ∈ chosen -> j ∉ chosen -> weights !! i = Some w -> weights !! j = Some v ->
       (actual * v) mod total <= (actual * w) mod total).
Proof.
  intros total Ht Hmax Ha. unfold proportional_token_attribution. fold total.
  rewrite (proj2 (N.eqb_neq total 0) Ht).
  assert (Hw : Forall (fun w => w <= total) weights).
  { apply Forall_forall. intros w. apply exact_sum_elem. }
  destruct (shares_exact actual weights total Hw Ht Ha Hmax) as [-> ->].
  destruct (remainder_bound actual weights Ht) as [Hq Hr]. fold total in Hq, Hr.
  set (ns := (fun w => actual * w) <$> weights) in *.
  set (quotients := (fun n => n / total) <$> ns) in *.
  rewrite sum_estimates_min, (N.min_l actual), (N.min_l (exact_sum quotients)) by lia.
  set (k := N.to_nat (actual - exact_sum quotients)).
  assert (Hlen : length ns = length weights) by apply length_fmap.
  destruct (remainder_indices ns total k) as (Hnd & Hlt & Hk & Hlarge).
  set (chosen := fst <$> take k _) in *. specialize (Hk ltac:(lia)).
  destruct (bump_spec chosen quotients Hnd) as [Hsum Hlook].
  { apply Forall_forall. intros i Hi. assert (Hil := proj1 (Forall_forall _ _) Hlt i Hi).
    destruct (lookup_lt_is_Some_2 quotients i) as [s Hs]; [subst quotients; by rewrite length_fmap|].
    exists s. split; [done|]. assert (Hse := exact_sum_elem s quotients ltac:(by eapply list_elem_of_lookup_2)).
    assert (Hpos : (0 < k)%nat) by (rewrite <- Hk; destruct chosen; [by apply not_elem_of_nil in Hi|simpl; lia]).
    lia. }
  fold (bump quotients chosen). split; [rewrite Hsum, Hk; lia|]. exists chosen. split.
  - apply list_eq. intros i. rewrite Hlook, list_lookup_imap. subst quotients ns.
    rewrite !list_lookup_fmap. destruct (weights !! i); [|done]. simpl. f_equal. case_match; lia.
  - intros i j w v Hi Hj Hiw Hjv. apply (Hlarge i j); [done|done| |]; subst ns; rewrite list_lookup_fmap.
    + by rewrite Hiw.
    + by rewrite Hjv.
Qed.

(** Attribution by largest remainders. When any contributor has weight, the
    provider's input tokens are divided among the contributors without a token lost or
    invented; each gets its exact proportion rounded down, or one more, and those that get
    one more have the largest remainders. *)
Theorem proportional_attribution_exact actual weights :
  let total := exact_sum weights in
  let shares := proportional_token_attribution actual weights in
  total <> 0 -> Forall (fun w => w <= u64_max) weights -> actual <= u64_max ->
  exact_sum shares = actual /\ length shares = length weights /\
  (forall i w s, weights !! i = Some w -> shares !! i = Some s ->
     actual * w / total <= s <= actual * w / total + 1) /\
  (forall i j w v s t, weights !! i = Some w -> weights !! j = Some v ->
     shares !! i = Some s -> shares !! j = Some t ->
     s = actual * w / total + 1 -> t = actual * v / total ->
     (actual * v) mod total <= (actual * w) mod total).
Proof.
  intros total shares Ht Hmax Ha.
  destruct (proportional_shares actual weights Ht Hmax Ha) as (Hsum & chosen & Hlook & Hlarge).
  fold total shares in Hsum, Hlook, Hlarge. split; [done|].
  split_and!; [by rewrite Hlook, length_imap| |].
  - intros i w s Hw Hs. rewrite Hlook, list_lookup_imap, Hw in Hs. simplify_eq/=. case_match; lia.
  - intros i j w v s t Hw Hv Hs Hst Hsw Htv. apply (Hlarge i j); [| |done|done].
    + rewrite Hlook, list_lookup_imap, Hw in Hs. simplify_eq/=. destruct (decide (i ∈ chosen)); [done|lia].
    + rewrite Hlook, list_lookup_imap, Hv in Hst. simplify_eq/=. destruct (decide (j ∈ chosen)); [lia|done].
Qed.

(** ** The record accounts for the provider's count *)

Lemma contributor_attributions_tokens manifest actual :
  length (proportional_token_attribution actual (cs_retained_estimated_tokens <$> manifest)) = length manifest ->
  omap ca_attributed_input_tokens (contributor_attributions manifest (Some actual))
  = proportional_token_attribution actual (cs_retained_estimated_tokens <$> manifest).
Proof.
  unfold contributor_attributions. cbn [fmap option_fmap option_map].
  set (shares := proportional_token_attribution actual _). clearbody shares. revert shares.
  induction manifest as [|c manifest IH]; intros [|s shares] Hl; [done..|].
  rewrite imap_cons. cbn. f_equal. apply IH. by injection Hl.
Qed.

(** The usage record of a response explains its whole input. If the
    provider reports [actual] input tokens for a compiled request with anything in it,
    the contributors of the record are attributed exactly [actual] tokens, none is left
    unattributed, and every message of the request appears under exactly one of them. *)
Theorem usage_record_accounts json_text metadata_text message_digest digest_text tool_digest p request
    response_id budget u cost_model cache_identity estimates tool_digests actual :
  let planned := bs_planned_tool_tokens (pl_budget_snapshot p) in
  let r := token_usage_record json_text metadata_text message_digest digest_text tool_digest p request
             response_id budget u cost_model cache_identity estimates tool_digests in
  length (pl_message_sources p) = length (cq_messages request) ->
  length estimates = length (cq_messages request) ->
  (planned = 0 \/ Forall (fun s => src_contributor s <> "tool_instructions") (pl_message_sources p)) ->
  0 < exact_sum estimates + planned <= u64_max ->
  us_input_tokens u = Some actual -> actual <= u64_max ->
  exists a, ur_attribution_ref r = Some a /\
    exact_sum (omap ca_attributed_input_tokens (ta_contributors a)) = actual /\
    ta_unattributed_input_tokens a = Some 0 /\
    concat (ca_message_indexes <$> ta_contributors a)
      ≡ₚ (fun i => N.min (N.of_nat i) u32_max) <$> seq 0 (length (cq_messages request)).
Proof.
  intros planned r Hs He Htool Htot Hu Ha. eexists. split; [reflexivity|]. cbn [ta_contributors ta_unattributed_input_tokens].
  rewrite Hu. unfold checked_estimates, checked_sources. rewrite (bool_decide_eq_true_2 _ He), (bool_decide_eq_true_2 _ Hs).
  set (manifest := attributed_contributor_manifest_with_estimates _ _ _ _ _ _ _ _ _ _ _).
  destruct (manifest_accounts json_text metadata_text message_digest digest_text p (cq_messages request)
    (cq_tools request) (pl_message_sources p)
    (if bool_decide (length tool_digests = length (cq_tools request)) then tool_digests
     else tool_digest <$> cq_tools request) estimates
    (if same_messages (pl_messages p) (cq_messages request) then pl_message_digests p else [])
    Hs He ltac:(lia) Htool) as [Hidx Hsum].
  fold manifest planned in Hidx, Hsum.
  set (weights := cs_retained_estimated_tokens <$> manifest) in *.
  destruct (proportional_shares actual weights) as (Hshares & chosen & Hlook & _); [lia| |done|].
  { apply Forall_forall. intros w Hw. apply exact_sum_elem in Hw. lia. }
  assert (Htok : omap ca_attributed_input_tokens (contributor_attributions manifest (Some actual))
                 = proportional_token_attribution actual weights).
  { apply contributor_attributions_tokens. fold weights. rewrite Hlook, length_imap. apply length_fmap. }
  split_and!.
  - by rewrite Htok.
  - unfold attributed_total. rewrite Htok. fold (sum_estimates (proportional_token_attribution actual weights)).
    cbn [fmap option_fmap option_map]. rewrite sum_estimates_min, Hshares. f_equal. lia.
  - rewrite <- Hidx. apply reflexive_eq. f_equal. unfold contributor_attributions.
    apply list_eq. intros i. rewrite !list_lookup_fmap, list_lookup_imap. by destruct (manifest !! i).
Qed.

(** ** Witnesses *)

Lemma proportional_attribution_exact_witness :
  proportional_token_attribution 10 [1; 1; 1] = [4; 3; 3] /\
  exact_sum (proportional_token_attribution 10 [1; 1; 1]) = 10.
Proof.
  split; [vm_compute; reflexivity|].
  apply (proportional_attribution_exact 10 [1; 1; 1]); [discriminate| |discriminate].
  repeat constructor; discriminate.
Defined.

Definition ex_usage : ProviderUsage :=
  mkUsage (Some 200) (Some 7) None None None UsageSource.Provider JNull.
Definition ex_request (p : ContextBuildPlan) : CompiledRequest :=
  provider_request_from_plan 1 p 2 3 "provider" "model" [].

Lemma usage_record_accounts_witness :
  exists a,
    ur_attribution_ref
      (token_usage_record ex_json ex_meta ex_digest id (fun _ => "") (ws_plan ex_working_set)
         (ex_request (ws_plan ex_working_set)) 9 (pl_budget_snapshot (ws_plan ex_working_set)) ex_usage
         "zero" None (pl_message_estimates (ws_plan ex_working_set)) []) = Some a /\
    ta_unattributed_input_tokens a = Some 0.
Proof.
  destruct (usage_record_accounts ex_json ex_meta ex_digest id (fun _ => "") (ws_plan ex_working_set)
    (ex_request (ws_plan ex_working_set)) 9 (pl_budget_snapshot (ws_plan ex_working_set)) ex_usage
    "zero" None (pl_message_estimates (ws_plan ex_working_set)) [] 200) as (a & Hr & _ & H0 & _).
  - reflexivity.
  - reflexivity.
  - left. reflexivity.
  - vm_compute. split; [reflexivity|discriminate].
  - reflexivity.
  - discriminate.
  - exists a. split; [exact Hr|exact H0].
Defined.
