(* ===== verification/PendingTurns.v ===== *)
(** * Queued turns and approvals of a running task

    The execution channel of [golutra-agent-runtime/src/lib.rs]: the queue of pending
    turns, its two-phase reservations (a turn is reserved, then made durable; an update or
    a cancellation is reserved, then committed or rolled back when its handle is dropped),
    the consumer's side, and the approvals a user gives during an execution. The queue's
    state is behind a mutex, so every method is one step; handles are values that several
    threads hold, and the theorems are about every interleaving of their steps. *)
From S2P Require Import Prelude RustStr Core TaskContract ShellSyntax.
Open Scope N_scope.

(** ** Data *)

Module AgentExecutionMode.
(*@ protocol/src/agent.rs AgentExecutionMode *)
Inductive AgentExecutionMode := Open | Strict.
#[global] Instance AgentExecutionMode_eq_dec : EqDecision AgentExecutionMode.
Proof. solve_decision. Defined.
End AgentExecutionMode.
Abbreviation AgentExecutionMode := AgentExecutionMode.AgentExecutionMode.

Module AgentToolProfile.
(*@ protocol/src/agent.rs AgentToolProfile *)
Inductive AgentToolProfile := Coding | Full | None.
#[global] Instance AgentToolProfile_eq_dec : EqDecision AgentToolProfile.
Proof. solve_decision. Defined.
End AgentToolProfile.
Abbreviation AgentToolProfile := AgentToolProfile.AgentToolProfile.

(*@ protocol/src/agent.rs ExternalVerificationSpec *)
Record ExternalVerificationSpec := mkVerificationSpec {
  ev_program : string;
  ev_args : list string;
  ev_cwd : string;
  ev_timeout_ms : N;
  ev_expected_exit_code : Z;
  ev_max_output_bytes : N;
}.

(*@ runtime/src/lib.rs PendingAgentTurn *)
Record PendingAgentTurn := mkPendingTurn {
  pt_command_id : CommandId;
  pt_turn_id : TurnId;
  pt_content : string;
  pt_task_contract : option TaskContract;
  pt_output_schema : option json;
  pt_external_verifiers : list ExternalVerificationSpec;
  pt_max_elapsed_ms : option N;
  pt_defer_external_verification : bool;
  pt_external_verifiers_require_os_sandbox : bool;
  pt_allow_network : bool;
  pt_yolo : bool;
  pt_steer : bool;
}.

(*@ runtime/src/lib.rs PendingTurnExecutionOptions *)
Record PendingTurnExecutionOptions := mkExecutionOptions {
  eo_execution_mode : option AgentExecutionMode;
  eo_tool_profile : option AgentToolProfile;
}.

(*@ runtime/src/lib.rs ConfiguredPendingAgentTurn *)
Record ConfiguredPendingAgentTurn := mkConfiguredTurn {
  ct_turn : PendingAgentTurn;
  ct_execution : PendingTurnExecutionOptions;
}.

(*@ runtime/src/lib.rs ConfiguredPendingAgentTurn::new *)
Definition configured (turn : PendingAgentTurn) : ConfiguredPendingAgentTurn :=
  mkConfiguredTurn turn (mkExecutionOptions None None).

Module PendingTurnExecutionOrigin.
(*@ runtime/src/lib.rs PendingTurnExecutionOrigin *)
Inductive PendingTurnExecutionOrigin := Legacy | Configured.
End PendingTurnExecutionOrigin.
Abbreviation PendingTurnExecutionOrigin := PendingTurnExecutionOrigin.PendingTurnExecutionOrigin.

(*@ runtime/src/lib.rs PendingTurnEntry *)
Record PendingTurnEntry := mkEntry {
  en_turn : ConfiguredPendingAgentTurn;
  en_execution_origin : PendingTurnExecutionOrigin;
  en_durable : bool;
}.

(*@ runtime/src/lib.rs TakenPendingTurn *)
Record TakenPendingTurn := mkTaken {
  tk_turn : ConfiguredPendingAgentTurn;
  tk_execution_origin : PendingTurnExecutionOrigin;
}.

(** The queue with the state its mutex guards. *)
(*@ runtime/src/lib.rs:936-947 PendingTurnQueue *)
Record PendingTurnQueue := mkQueue {
  pq_capacity : nat;
  pq_accepting : bool;
  pq_turns : list PendingTurnEntry;
}.

(*@ runtime/src/lib.rs PendingTurnMutationKind *)
Inductive PendingTurnMutationKind :=
| Update (original : ConfiguredPendingAgentTurn) (original_execution_origin : PendingTurnExecutionOrigin)
| Cancel.

(** The errors of the queue, of those in [AgentLoopError]. *)
(*@ runtime/src/lib.rs AgentLoopError *)
Inductive QueueError :=
| PendingTurnQueueClosed
| PendingTurnQueueFull
| PendingTurnNotFound
| PendingTurnMutationInProgress.

Definition turn_id (t : ConfiguredPendingAgentTurn) : TurnId := pt_turn_id (ct_turn t).
Definition entry_id (e : PendingTurnEntry) : TurnId := turn_id (en_turn e).
Definition is_steer (e : PendingTurnEntry) : bool := pt_steer (ct_turn (en_turn e)).
Definition set_durable (e : PendingTurnEntry) (b : bool) : PendingTurnEntry :=
  mkEntry (en_turn e) (en_execution_origin e) b.
Definition set_turns (q : PendingTurnQueue) (l : list PendingTurnEntry) : PendingTurnQueue :=
  mkQueue (pq_capacity q) (pq_accepting q) l.

(** [turns.iter_mut().find(|entry| id)]: the first entry of that id, changed. *)
Fixpoint change_first (id : TurnId) (f : PendingTurnEntry -> PendingTurnEntry) (l : list PendingTurnEntry)
    : list PendingTurnEntry :=
  match l with
  | [] => []
  | e :: rest => if entry_id e =? id then f e :: rest else e :: change_first id f rest
  end.
Definition find_entry (id : TurnId) (l : list PendingTurnEntry) : option PendingTurnEntry :=
  List.find (fun e => entry_id e =? id) l.
Definition without (id : TurnId) (l : list PendingTurnEntry) : list PendingTurnEntry :=
  List.filter (fun e => negb (entry_id e =? id)) l.

(** ** The queue *)

(*@ runtime/src/lib.rs PendingTurnQueue::new *)
Definition new_queue (capacity : nat) : PendingTurnQueue := mkQueue (Nat.max capacity 1) true [].

(** A reservation is identified by the turn it holds. *)
(*@ runtime/src/lib.rs PendingTurnQueue::reserve_with_origin *)
Definition reserve_with_origin (q : PendingTurnQueue) (turn : ConfiguredPendingAgentTurn)
    (origin : PendingTurnExecutionOrigin) : result QueueError (PendingTurnQueue * TurnId) :=
  if negb (pq_accepting q) then Err PendingTurnQueueClosed
  else if bool_decide (pq_capacity q <= length (pq_turns q))%nat then Err PendingTurnQueueFull
  else Ok (set_turns q (pq_turns q ++ [mkEntry turn origin false]), turn_id turn).

(*@ runtime/src/lib.rs PendingTurnQueue::reserve_update_with_origin *)
Definition reserve_update_with_origin (q : PendingTurnQueue) (id : TurnId)
    (replacement : ConfiguredPendingAgentTurn) (origin : PendingTurnExecutionOrigin)
    : result QueueError (PendingTurnQueue * PendingTurnMutationKind) :=
  if negb (turn_id replacement =? id) then Err PendingTurnNotFound
  else
    match find_entry id (pq_turns q) with
    | None => Err PendingTurnNotFound
    | Some e =>
        if negb (en_durable e) then Err PendingTurnMutationInProgress
        else Ok (set_turns q (change_first id (fun _ => mkEntry replacement origin false) (pq_turns q)),
                 Update (en_turn e) (en_execution_origin e))
    end.

(*@ runtime/src/lib.rs PendingTurnQueue::reserve_cancellation *)
Definition reserve_cancellation (q : PendingTurnQueue) (id : TurnId)
    : result QueueError (PendingTurnQueue * PendingTurnMutationKind) :=
  match find_entry id (pq_turns q) with
  | None => Err PendingTurnNotFound
  | Some e =>
      if negb (en_durable e) then Err PendingTurnMutationInProgress
      else Ok (set_turns q (change_first id (fun e => set_durable e false) (pq_turns q)), Cancel)
  end.

(*@ runtime/src/lib.rs PendingTurnQueue::commit *)
Definition commit (q : PendingTurnQueue) (id : TurnId) : PendingTurnQueue :=
  set_turns q (change_first id (fun e => set_durable e true) (pq_turns q)).

(*@ runtime/src/lib.rs PendingTurnQueue::rollback *)
Definition rollback (q : PendingTurnQueue) (id : TurnId) : PendingTurnQueue :=
  set_turns q (without id (pq_turns q)).

(*@ runtime/src/lib.rs PendingTurnQueue::commit_mutation *)
Definition commit_mutation (q : PendingTurnQueue) (id : TurnId) (kind : PendingTurnMutationKind)
    : PendingTurnQueue :=
  match kind with
  | Update _ _ => set_turns q (change_first id (fun e => set_durable e true) (pq_turns q))
  | Cancel => set_turns q (without id (pq_turns q))
  end.

(*@ runtime/src/lib.rs PendingTurnQueue::rollback_mutation *)
Definition rollback_mutation (q : PendingTurnQueue) (id : TurnId) (kind : PendingTurnMutationKind)
    : PendingTurnQueue :=
  set_turns q (change_first id (fun e =>
    match kind with
    | Update original origin => mkEntry original origin true
    | Cancel => set_durable e true
    end) (pq_turns q)).

(*@ runtime/src/lib.rs PendingTurnQueue::push *)
Definition push (q : PendingTurnQueue) (turn : PendingAgentTurn) : result QueueError PendingTurnQueue :=
  let? (q, id) := reserve_with_origin q (configured turn) PendingTurnExecutionOrigin.Legacy in
  Ok (commit q id).

(*@ runtime/src/lib.rs PendingTurnQueue::push_configured *)
Definition push_configured (q : PendingTurnQueue) (turn : ConfiguredPendingAgentTurn)
    : result QueueError PendingTurnQueue :=
  let? (q, id) := reserve_with_origin q turn PendingTurnExecutionOrigin.Configured in
  Ok (commit q id).

(** [turns.iter().position(|entry| entry.turn.turn.steer)]. *)
Definition steer_position (l : list PendingTurnEntry) : option nat :=
  fst <$> list_find (fun e => is_steer e = true) l.

Definition taken_of (e : PendingTurnEntry) : TakenPendingTurn := mkTaken (en_turn e) (en_execution_origin e).

Inductive TakeResult :=
| Took (t : TakenPendingTurn)
| Closed
| Waiting.

(** One turn of the loop of [take_or_close]; [Waiting] goes on when a change is notified. *)
(*@ runtime/src/lib.rs PendingTurnQueue::take_or_close *)
Definition take_attempt (q : PendingTurnQueue) : PendingTurnQueue * TakeResult :=
  if negb (pq_accepting q) then (q, Closed)
  else
    let next := default 0%nat (steer_position (pq_turns q)) in
    match pq_turns q !! next with
    | Some e => if en_durable e then (set_turns q (delete next (pq_turns q)), Took (taken_of e))
                else (q, Waiting)
    | None => (mkQueue (pq_capacity q) false (pq_turns q), Closed)
    end.

(** The loop of [take_ready_steers]; every turn removes an entry, so their number is fuel
    enough. *)
(*@ runtime/src/lib.rs:1293-1305 PendingTurnQueue::take_ready_steers *)
Fixpoint steer_loop (fuel : nat) (turns : list PendingTurnEntry) (ready : list TakenPendingTurn)
    : list PendingTurnEntry * list TakenPendingTurn :=
  match fuel with
  | O => (turns, ready)
  | S fuel =>
      match steer_position turns with
      | None => (turns, ready)
      | Some index =>
          match turns !! index with
          | Some e => if en_durable e then steer_loop fuel (delete index turns) (ready ++ [taken_of e])
                      else (turns, ready)
          | None => (turns, ready)
          end
      end
  end.

(*@ runtime/src/lib.rs PendingTurnQueue::take_ready_steers *)
Definition take_ready_steers (q : PendingTurnQueue) : PendingTurnQueue * list TakenPendingTurn :=
  if negb (pq_accepting q) then (q, [])
  else
    let '(turns, ready) := steer_loop (length (pq_turns q)) (pq_turns q) [] in
    (set_turns q turns, ready).

(*@ runtime/src/lib.rs PendingTurnQueue::close *)
Definition close (q : PendingTurnQueue) : PendingTurnQueue :=
  mkQueue (pq_capacity q) false (pq_turns q).

(** ** Handles *)

(** An open handle, neither committed nor dropped. *)
(*@ runtime/src/lib.rs:969-999 PendingTurnReservation *)
Inductive Handle :=
| Reservation (id : TurnId)
| Mutation (id : TurnId) (kind : PendingTurnMutationKind).

Definition handle_id (h : Handle) : TurnId := match h with Reservation id | Mutation id _ => id end.

(*@ runtime/src/lib.rs:992-1013 PendingTurnMutation::commit *)
Definition commit_handle (q : PendingTurnQueue) (h : Handle) : PendingTurnQueue :=
  match h with Reservation id => commit q id | Mutation id kind => commit_mutation q id kind end.

(*@ runtime/src/lib.rs:1000-1021 Drop::drop for PendingTurnMutation *)
Definition drop_handle (q : PendingTurnQueue) (h : Handle) : PendingTurnQueue :=
  match h with Reservation id => rollback q id | Mutation id kind => rollback_mutation q id kind end.

(** ** Approvals *)

(*@ core/src/approval.rs ApprovalRequest *)
Record ApprovalRequest := mkApprovalRequest {
  aq_approval_id : N;
  aq_task_id : TaskId;
  aq_turn_id : TurnId;
  aq_tool_call_id : ToolCallId;
  aq_tool_name : string;
  aq_resource : string;
  aq_reason : string;
}.

Module ApprovalDecision.
(*@ core/src/approval.rs ApprovalDecision *)
Inductive ApprovalDecision := Approved | Denied.
#[global] Instance ApprovalDecision_eq_dec : EqDecision ApprovalDecision.
Proof. solve_decision. Defined.
End ApprovalDecision.
Abbreviation ApprovalDecision := ApprovalDecision.ApprovalDecision.

Module ApprovalScope.
(*@ core/src/approval.rs ApprovalScope *)
Inductive ApprovalScope := Once | ResourcePrefix | Session.
#[global] Instance ApprovalScope_eq_dec : EqDecision ApprovalScope.
Proof. solve_decision. Defined.
End ApprovalScope.
Abbreviation ApprovalScope := ApprovalScope.ApprovalScope.

(*@ core/src/approval.rs ApprovalResolution *)
Record ApprovalResolution := mkResolution {
  ar_approval_id : N;
  ar_decision : ApprovalDecision;
  ar_scope : ApprovalScope;
  ar_resource_prefix : option string;
  ar_reason : string;
}.

(*@ runtime/src/lib.rs ApprovalGrant *)
Record ApprovalGrant := mkGrant {
  ag_scope : ApprovalScope;
  ag_tool_name : string;
  ag_resource_prefix : option string;
}.

Section approvals.
(** The word splitter and the Bash grammar behind [approval_resource_matches]. *)
Variable shlex_split : string -> option (list string).
Variable bash_parse : string -> option Node.

Abbreviation resource_matches := (approval_resource_matches shlex_split bash_parse).

(*@ runtime/src/lib.rs:4876-4885 AgentExecutionControl::scoped_approval *)
Definition grant_matches (grant : ApprovalGrant) (request : ApprovalRequest) : result Panic bool :=
  match ag_scope grant with
  | ApprovalScope.Session => Ok true
  | ApprovalScope.ResourcePrefix =>
      if bool_decide (ag_tool_name grant = aq_tool_name request) then
        match ag_resource_prefix grant with
        | Some prefix => resource_matches (aq_tool_name request) prefix (aq_resource request)
        | None => Ok false
        end
      else Ok false
  | ApprovalScope.Once => Ok false
  end.

(*@ runtime/src/lib.rs AgentExecutionControl::scoped_approval *)
Fixpoint scoped_approval (grants : list ApprovalGrant) (request : ApprovalRequest)
    : result Panic (option ApprovalResolution) :=
  match grants with
  | [] => Ok None
  | grant :: rest =>
      let? matches := grant_matches grant request in
      if matches then
        Ok (Some (mkResolution (aq_approval_id request) ApprovalDecision.Approved (ag_scope grant)
                    (ag_resource_prefix grant) "matched an explicit scoped approval from this execution"))
      else scoped_approval rest request
  end.

Definition with_scope (r : ApprovalResolution) (scope : ApprovalScope) (prefix : option string)
    : ApprovalResolution := mkResolution (ar_approval_id r) (ar_decision r) scope prefix (ar_reason r).

(** A resolution narrowed to what it may grant. *)
(*@ runtime/src/lib.rs:4906-4927 AgentExecutionControl::wait_for_approval *)
Definition narrowed (request : ApprovalRequest) (r : ApprovalResolution) : result Panic ApprovalResolution :=
  if negb (bool_decide (ar_decision r = ApprovalDecision.Approved)) then
    Ok (with_scope r ApprovalScope.Once None)
  else if bool_decide (ar_scope r = ApprovalScope.ResourcePrefix) then
    match option_filter (fun prefix => negb (bool_decide (prefix = ""))) (ar_resource_prefix r) with
    | Some prefix =>
        let? matches := resource_matches (aq_tool_name request) prefix (aq_resource request) in
        Ok (if matches then r else with_scope r ApprovalScope.Once None)
    | None => Ok (with_scope r ApprovalScope.Once None)
    end
  else Ok (with_scope r (ar_scope r) None).

(** A resolution received while the loop waits: one of another request is ignored. *)
(*@ runtime/src/lib.rs AgentExecutionControl::wait_for_approval *)
Definition receive_approval (grants : list ApprovalGrant) (request : ApprovalRequest)
    (r : ApprovalResolution) : result Panic (list ApprovalGrant * option ApprovalResolution) :=
  if ar_approval_id r =? aq_approval_id request then
    let? r := narrowed request r in
    let grants :=
      if bool_decide (ar_decision r = ApprovalDecision.Approved)
         && negb (bool_decide (ar_scope r = ApprovalScope.Once))
      then grants ++ [mkGrant (ar_scope r) (aq_tool_name request) (ar_resource_prefix r)]
      else grants in
    Ok (grants, Some r)
  else Ok (grants, None).

End approvals.

(** ** Runs *)

(** The queue with the open handles, and what has happened: the ids ever reserved, the
    ids whose reservation and whose cancellation were committed, and the turns taken. *)
Record Run := mkRun {
  queue : PendingTurnQueue;
  handles : list Handle;
  used : list TurnId;
  committed : list TurnId;
  cancelled : list TurnId;
  taken : list TakenPendingTurn;
}.

(** What a step does to the turns a client has committed. *)
Inductive Action :=
| Hidden
| Added (id : TurnId)
| Changed (id : TurnId)
| Removed (id : TurnId)
| Delivered (ts : list TakenPendingTurn).

Definition commit_action (h : Handle) : Action :=
  match h with
  | Reservation id => Added id
  | Mutation id (Update _ _) => Changed id
  | Mutation id Cancel => Removed id
  end.

Definition commit_ids (c : Run) (h : Handle) : list TurnId * list TurnId :=
  match h with
  | Reservation id => (committed c ++ [id], cancelled c)
  | Mutation id Cancel => (committed c, cancelled c ++ [id])
  | Mutation _ (Update _ _) => (committed c, cancelled c)
  end.

(** The steps of the threads that share a queue. A turn that is reserved has a fresh id. *)
Inductive run_step : Run -> Action -> Run -> Prop :=
| run_reserve c turn origin q id :
    reserve_with_origin (queue c) turn origin = Ok (q, id) -> id ∉ used c ->
    run_step c Hidden
      (mkRun q (handles c ++ [Reservation id]) (used c ++ [id]) (committed c) (cancelled c) (taken c))
| run_reserve_update c id replacement origin q kind :
    reserve_update_with_origin (queue c) id replacement origin = Ok (q, kind) ->
    run_step c Hidden
      (mkRun q (handles c ++ [Mutation id kind]) (used c) (committed c) (cancelled c) (taken c))
| run_reserve_cancellation c id q kind :
    reserve_cancellation (queue c) id = Ok (q, kind) ->
    run_step c Hidden
      (mkRun q (handles c ++ [Mutation id kind]) (used c) (committed c) (cancelled c) (taken c))
| run_commit c before h after :
    handles c = before ++ h :: after ->
    run_step c (commit_action h)
      (mkRun (commit_handle (queue c) h) (before ++ after) (used c) (fst (commit_ids c h))
         (snd (commit_ids c h)) (taken c))
| run_drop c before h after :
    handles c = before ++ h :: after ->
    run_step c Hidden
      (mkRun (drop_handle (queue c) h) (before ++ after) (used c) (committed c) (cancelled c) (taken c))
| run_take c q t :
    take_attempt (queue c) = (q, Took t) ->
    run_step c (Delivered [t])
      (mkRun q (handles c) (used c) (committed c) (cancelled c) (taken c ++ [t]))
| run_take_closed c q :
    take_attempt (queue c) = (q, Closed) ->
    run_step c Hidden (mkRun q (handles c) (used c) (committed c) (cancelled c) (taken c))
| run_steers c q ts :
    take_ready_steers (queue c) = (q, ts) ->
    run_step c (Delivered ts)
      (mkRun q (handles c) (used c) (committed c) (cancelled c) (taken c ++ ts))
| run_close c :
    run_step c Hidden
      (mkRun (close (queue c)) (handles c) (used c) (committed c) (cancelled c) (taken c)).

Inductive run_reachable (capacity : nat) : Run -> Prop :=
| run_start : run_reachable capacity (mkRun (new_queue capacity) [] [] [] [] [])
| run_next c a c' : run_reachable capacity c -> run_step c a c' -> run_reachable capacity c'.

Definition taken_id (t : TakenPendingTurn) : TurnId := turn_id (tk_turn t).
Abbreviation turns c := (pq_turns (queue c)).

(** The turns a client has committed and not seen leave, in order: a reservation is not
    there yet, an open update still shows the original, an open cancellation the turn. *)
Definition find_handle (hs : list Handle) (id : TurnId) : option Handle :=
  List.find (fun h => handle_id h =? id) hs.
Definition visible_entry (hs : list Handle) (e : PendingTurnEntry) : option TakenPendingTurn :=
  if en_durable e then Some (taken_of e)
  else match find_handle hs (entry_id e) with
       | Some (Mutation _ (Update original origin)) => Some (mkTaken original origin)
       | Some (Mutation _ Cancel) => Some (taken_of e)
       | _ => None
       end.
Definition visible (c : Run) : list TakenPendingTurn := omap (visible_entry (handles c)) (turns c).

(** The specification: a list of turns, changed one turn at a time. *)
Inductive spec_step : Action -> list TakenPendingTurn -> list TakenPendingTurn -> Prop :=
| spec_hidden l : spec_step Hidden l l
| spec_add l r t : spec_step (Added (taken_id t)) (l ++ r) (l ++ t :: r)
| spec_change l r t t' :
    taken_id t = taken_id t' -> spec_step (Changed (taken_id t)) (l ++ t :: r) (l ++ t' :: r)
| spec_remove l r t : spec_step (Removed (taken_id t)) (l ++ t :: r) (l ++ r)
| spec_done l : spec_step (Delivered []) l l
| spec_deliver l r t ts l' :
    spec_step (Delivered ts) (l ++ r) l' -> spec_step (Delivered (t :: ts)) (l ++ t :: r) l'.

(** ** The invariant *)

Record run_ok (c : Run) : Prop := mkRunOk {
  ok_capacity : (length (turns c) <= pq_capacity (queue c))%nat;
  ok_unique : NoDup ((entry_id <$> turns c) ++ (taken_id <$> taken c) ++ cancelled c);
  ok_used : (entry_id <$> turns c) ++ (taken_id <$> taken c) ++ cancelled c ⊆ used c;
  ok_handles : NoDup (handle_id <$> handles c);
  ok_open : Forall (fun e => en_durable e = false <-> entry_id e ∈ handle_id <$> handles c) (turns c);
  ok_home : Forall (fun h => handle_id h ∈ entry_id <$> turns c) (handles c);
  ok_original : Forall (fun h => match h with Mutation id (Update o _) => turn_id o = id | _ => True end)
                  (handles c);
  ok_ledger : committed c ≡ₚ (taken_id <$> visible c) ++ (taken_id <$> taken c) ++ cancelled c;
}.

(** *** Lists of entries and handles *)

Lemma find_handle_spec hs i h : find_handle hs i = Some h -> h ∈ hs /\ handle_id h = i.
Proof.
  intros H. apply find_some in H as [Hin Hi]. Nbool. split; [by apply list_elem_of_In|done].
Qed.

Lemma find_handle_ids hs i : i ∈ handle_id <$> hs <-> is_Some (find_handle hs i).
Proof.
  unfold find_handle. induction hs as [|h hs IH]; simpl.
  - split; [by intros ?%not_elem_of_nil|by intros [? ?]].
  - rewrite elem_of_cons, IH. destruct (handle_id h =? i) eqn:E; Nbool; [split; [by eexists|by left]|].
    split; [by intros [->|?]|by right].
Qed.

Lemma find_handle_app hs k i :
  find_handle (hs ++ k) i = match find_handle hs i with Some h => Some h | None => find_handle k i end.
Proof. unfold find_handle. induction hs as [|h hs IH]; simpl; [done|]. by destruct (handle_id h =? i). Qed.

Lemma find_handle_other before h after i :
  handle_id h <> i -> find_handle (before ++ h :: after) i = find_handle (before ++ after) i.
Proof.
  intros Hne. rewrite !find_handle_app. case_match; [done|]. unfold find_handle. simpl.
  by rewrite (proj2 (N.eqb_neq _ _) Hne).
Qed.

Lemma find_handle_here before h after :
  NoDup (handle_id <$> before ++ h :: after) ->
  find_handle (before ++ h :: after) (handle_id h) = Some h /\
  find_handle (before ++ after) (handle_id h) = None.
Proof.
  rewrite fmap_app, fmap_cons, NoDup_app, NoDup_cons. intros (_ & Hb & Ha & _).
  assert (Hnb : find_handle before (handle_id h) = None).
  { apply eq_None_not_Some. rewrite <- find_handle_ids. intros ?. apply (Hb (handle_id h)); set_solver. }
  rewrite !find_handle_app, Hnb. split.
  - unfold find_handle. simpl. by rewrite N.eqb_refl.
  - apply eq_None_not_Some. by rewrite <- find_handle_ids.
Qed.

Lemma find_entry_split id l e :
  find_entry id l = Some e -> exists before after, l = before ++ e :: after /\ entry_id e = id.
Proof.
  unfold find_entry. induction l as [|x l IH]; simpl; [done|]. destruct (entry_id x =? id) eqn:E; Nbool.
  - intros [= ->]. by exists [], l.
  - intros H. destruct (IH H) as (before & after & -> & ?). by exists (x :: before), after.
Qed.

Lemma change_first_split id f before e after :
  entry_id e = id -> id ∉ entry_id <$> before ->
  change_first id f (before ++ e :: after) = before ++ f e :: after.
Proof.
  intros He. induction before as [|x before IH]; simpl; intros Hn.
  - by rewrite He, N.eqb_refl.
  - rewrite not_elem_of_cons in Hn. destruct Hn as [Hx Hn].
    rewrite (proj2 (N.eqb_neq (entry_id x) id)) by congruence. by rewrite IH.
Qed.

Lemma without_none id l : id ∉ entry_id <$> l -> without id l = l.
Proof.
  unfold without. induction l as [|x l IH]; simpl; intros Hn; [done|]. apply not_elem_of_cons in Hn as [Hx Hn].
  rewrite (proj2 (N.eqb_neq (entry_id x) id)) by congruence. simpl. by rewrite IH.
Qed.

Lemma without_split id before e after :
  entry_id e = id -> id ∉ entry_id <$> before -> id ∉ entry_id <$> after ->
  without id (before ++ e :: after) = before ++ after.
Proof.
  intros He Hb Ha. unfold without. rewrite List.filter_app. cbn [List.filter].
  rewrite He, N.eqb_refl. cbn [negb]. f_equal; by apply without_none.
Qed.

Lemma visible_entry_agree hs hs' id (l : list PendingTurnEntry) :
  id ∉ entry_id <$> l -> (forall i, i <> id -> find_handle hs' i = find_handle hs i) ->
  omap (visible_entry hs') l = omap (visible_entry hs) l.
Proof.
  intros Hn Ha. induction l as [|e l IH]; [done|]. rewrite fmap_cons, not_elem_of_cons in Hn. destruct Hn as [He Hn].
  cbn [omap list_omap]. rewrite (IH Hn).
  assert (Hve : visible_entry hs' e = visible_entry hs e).
  { unfold visible_entry. by rewrite (Ha (entry_id e)) by congruence. }
  by rewrite Hve.
Qed.

(** *** One entry in its place *)

(** The entry of an id, between others of different ids. *)
Record placed (c : Run) (before : list PendingTurnEntry) (e : PendingTurnEntry)
    (after : list PendingTurnEntry) : Prop := mkPlaced {
  placed_turns : turns c = before ++ e :: after;
  placed_before : entry_id e ∉ entry_id <$> before;
  placed_after : entry_id e ∉ entry_id <$> after;
}.

Lemma entry_placed c before e after :
  run_ok c -> turns c = before ++ e :: after -> placed c before e after.
Proof.
  intros Hok Ht. pose proof (ok_unique c Hok) as Hu. rewrite Ht, fmap_app, fmap_cons in Hu.
  apply NoDup_app in Hu as [Hu _]. apply NoDup_app in Hu as (_ & Hb & Ha). apply NoDup_cons in Ha as [Ha _].
  split; [done| |done]. intros Hin. apply (Hb _ Hin). set_solver.
Qed.

Lemma id_placed c id : run_ok c -> id ∈ entry_id <$> turns c ->
  exists before e after, placed c before e after /\ entry_id e = id.
Proof.
  intros Hok Hin. apply list_elem_of_fmap in Hin as (e & -> & He).
  apply list_elem_of_split in He as (before & after & Ht). exists before, e, after.
  split; [by apply entry_placed|done].
Qed.

Lemma placed_open c before e after : run_ok c -> placed c before e after ->
  en_durable e = false <-> is_Some (find_handle (handles c) (entry_id e)).
Proof.
  intros Hok [Ht _ _]. rewrite <- find_handle_ids. pose proof (ok_open c Hok) as Ho. rewrite Ht in Ho.
  apply Forall_app in Ho as [_ Ho]. by apply Forall_cons in Ho as [Ho _].
Qed.

Lemma omap_placed hs before e after :
  omap (visible_entry hs) (before ++ e :: after)
  = omap (visible_entry hs) before ++ option_list (visible_entry hs e) ++ omap (visible_entry hs) after.
Proof. rewrite omap_app. cbn [omap list_omap]. by destruct (visible_entry hs e). Qed.

Lemma visible_split c before e after : placed c before e after ->
  visible c = omap (visible_entry (handles c)) before ++ option_list (visible_entry (handles c) e)
              ++ omap (visible_entry (handles c)) after.
Proof. intros [Ht _ _]. unfold visible. by rewrite Ht, omap_placed. Qed.

Definition same_elsewhere (id : TurnId) (hs hs' : list Handle) : Prop :=
  forall i, i <> id -> find_handle hs' i = find_handle hs i.

Definition originals_ok (hs : list Handle) : Prop :=
  Forall (fun h => match h with Mutation id (Update o _) => turn_id o = id | _ => True end) hs.

Lemma open_elsewhere id hs hs' : same_elsewhere id hs hs' -> forall l,
  id ∉ entry_id <$> l ->
  Forall (fun x => en_durable x = false <-> entry_id x ∈ handle_id <$> hs) l ->
  Forall (fun x => en_durable x = false <-> entry_id x ∈ handle_id <$> hs') l.
Proof.
  intros Hsame l Hn Hl. apply Forall_forall. intros x Hx. rewrite (proj1 (Forall_forall _ _) Hl x Hx).
  rewrite !find_handle_ids, Hsame; [done|]. intros Heq. apply Hn. rewrite <- Heq. by apply list_elem_of_fmap_2.
Qed.

(** An entry changes and with it the handle on its id. *)
Lemma ok_change c before e after e' hs committed' :
  run_ok c -> placed c before e after -> entry_id e' = entry_id e ->
  same_elsewhere (entry_id e) (handles c) hs -> NoDup (handle_id <$> hs) -> originals_ok hs ->
  (en_durable e' = false <-> is_Some (find_handle hs (entry_id e))) ->
  (committed' ≡ₚ (taken_id <$> omap (visible_entry (handles c)) before
                   ++ option_list (visible_entry hs e') ++ omap (visible_entry (handles c)) after)
                 ++ (taken_id <$> taken c) ++ cancelled c) ->
  run_ok (mkRun (set_turns (queue c) (before ++ e' :: after)) hs (used c) committed' (cancelled c) (taken c)).
Proof.
  intros Hok Hp Hid Hsame Hnd Horig Hdur Hled. destruct Hok as [Hcap Huniq Hused _ Hopen Hhome _ _].
  destruct Hp as [Ht Hb Ha]. rewrite Ht in Hcap, Huniq, Hused, Hopen, Hhome.
  assert (Hids : entry_id <$> before ++ e' :: after = entry_id <$> before ++ e :: after)
    by (by rewrite !fmap_app, !fmap_cons, Hid).
  assert (Hopen' := open_elsewhere (entry_id e) (handles c) hs Hsame).
  split; simpl.
  - by rewrite length_app in *.
  - by rewrite Hids.
  - by rewrite Hids.
  - done.
  - apply Forall_app in Hopen as [Ho1 Ho2]. apply Forall_cons in Ho2 as [_ Ho2].
    apply Forall_app. split; [by apply Hopen'|]. constructor; [|by apply Hopen'].
    by rewrite Hid, find_handle_ids.
  - rewrite Hids. apply Forall_forall. intros h Hh.
    destruct (decide (handle_id h = entry_id e)) as [->|Hne]; [rewrite fmap_app; set_solver|].
    assert (Hin : handle_id h ∈ handle_id <$> handles c).
    { apply find_handle_ids. rewrite <- Hsame by done. apply find_handle_ids. by apply list_elem_of_fmap_2. }
    apply list_elem_of_fmap in Hin as (h' & -> & Hh'). by apply (proj1 (Forall_forall _ _) Hhome).
  - done.
  - unfold visible. simpl. rewrite omap_placed. by rewrite !(visible_entry_agree (handles c) hs (entry_id e)).
Qed.

(** An entry leaves; its id may go to the turns taken or cancelled. *)
Lemma ok_remove c before e after hs committed' cancelled' taken' gone :
  run_ok c -> placed c before e after ->
  same_elsewhere (entry_id e) (handles c) hs -> find_handle hs (entry_id e) = None ->
  NoDup (handle_id <$> hs) -> originals_ok hs ->
  gone = [] \/ gone = [entry_id e] ->
  (taken_id <$> taken') ++ cancelled' ≡ₚ gone ++ (taken_id <$> taken c) ++ cancelled c ->
  (committed' ≡ₚ (taken_id <$> omap (visible_entry (handles c)) before
                   ++ omap (visible_entry (handles c)) after)
                 ++ (taken_id <$> taken') ++ cancelled') ->
  run_ok (mkRun (set_turns (queue c) (before ++ after)) hs (used c) committed' cancelled' taken').
Proof.
  intros Hok Hp Hsame Hnone Hnd Horig Hgone Hperm Hled. destruct Hok as [Hcap Huniq Hused _ Hopen Hhome _ _].
  destruct Hp as [Ht Hb Ha]. rewrite Ht in Hcap, Huniq, Hused, Hopen, Hhome.
  set (rest := (taken_id <$> taken c) ++ cancelled c) in *.
  assert (Hold : (entry_id <$> before ++ e :: after) ++ rest
                 ≡ₚ entry_id e :: (entry_id <$> before ++ after) ++ rest).
  { rewrite !fmap_app, fmap_cons. by rewrite <- Permutation_middle. }
  assert (Hnew : (entry_id <$> before ++ after) ++ gone ++ rest
                 ≡ₚ gone ++ (entry_id <$> before ++ after) ++ rest).
  { rewrite !app_assoc. by rewrite (Permutation_app_comm _ gone). }
  assert (Hopen' := open_elsewhere (entry_id e) (handles c) hs Hsame).
  split; simpl.
  - rewrite length_app in *. simpl in Hcap. lia.
  - rewrite Hperm, Hnew. rewrite Hold in Huniq. destruct Hgone as [->| ->]; [|done].
    by apply NoDup_cons in Huniq as [_ ?].
  - intros i Hi. rewrite Hperm, Hnew in Hi. apply Hused. rewrite Hold.
    destruct Hgone as [->| ->]; set_solver.
  - done.
  - apply Forall_app in Hopen as [Ho1 Ho2]. apply Forall_cons in Ho2 as [_ Ho2].
    apply Forall_app. split; by apply Hopen'.
  - apply Forall_forall. intros h Hh.
    assert (Hin : handle_id h ∈ handle_id <$> hs) by (by apply list_elem_of_fmap_2).
    assert (Hne : handle_id h <> entry_id e).
    { intros Heq. apply find_handle_ids in Hin as [? ?]. congruence. }
    assert (Hin' : handle_id h ∈ handle_id <$> handles c).
    { apply find_handle_ids. rewrite <- Hsame by done. by apply find_handle_ids. }
    apply list_elem_of_fmap in Hin' as (h' & Heq & Hh'). rewrite Heq in *.
    apply (proj1 (Forall_forall _ _) Hhome) in Hh'. rewrite fmap_app, fmap_cons in Hh'. rewrite fmap_app. set_solver.
  - done.
  - unfold visible. simpl. rewrite omap_app. by rewrite !(visible_entry_agree (handles c) hs (entry_id e)).
Qed.

(** ** Every step *)

(** What an open handle knows about its entry. *)
Lemma handle_placed c before h after :
  run_ok c -> handles c = before ++ h :: after ->
  exists l e r, placed c l e r /\ entry_id e = handle_id h /\ en_durable e = false /\
    find_handle (handles c) (entry_id e) = Some h /\ find_handle (before ++ after) (entry_id e) = None /\
    same_elsewhere (entry_id e) (handles c) (before ++ after) /\
    NoDup (handle_id <$> before ++ after) /\ originals_ok (before ++ after) /\
    match h with Mutation _ (Update o _) => turn_id o = entry_id e | _ => True end.
Proof.
  intros Hok Hh. pose proof (ok_handles c Hok) as Hnd. pose proof (ok_home c Hok) as Hhome.
  pose proof (ok_original c Hok) as Horig. rewrite Hh in Hnd, Hhome, Horig.
  destruct (find_handle_here _ _ _ Hnd) as [Hhere Hgone].
  apply Forall_app in Hhome as [_ Hhome]. apply Forall_cons in Hhome as [Hhome _].
  destruct (id_placed c (handle_id h) Hok Hhome) as (l & e & r & Hp & He).
  exists l, e, r. rewrite He, Hh. split_and!; [done|done| |done|done| | | |].
  - apply (placed_open c l e r Hok Hp). rewrite He, Hh, Hhere. by eexists.
  - intros i Hi. symmetry. apply find_handle_other. congruence.
  - rewrite fmap_app, fmap_cons in Hnd. rewrite fmap_app.
    rewrite <- Permutation_middle in Hnd. by apply NoDup_cons in Hnd as [_ ?].
  - apply Forall_app in Horig as [Ho1 Ho2]. apply Forall_cons in Ho2 as [_ Ho2]. by apply Forall_app.
  - apply Forall_app in Horig as [_ Ho2]. apply Forall_cons in Ho2 as [Ho2 _]. by destruct h as [|? []].
Qed.

(** A new handle on an entry that had none. *)
Lemma new_handle c l e r h :
  run_ok c -> placed c l e r -> en_durable e = true -> handle_id h = entry_id e ->
  match h with Mutation _ (Update o _) => turn_id o = entry_id e | _ => True end ->
  find_handle (handles c ++ [h]) (entry_id e) = Some h /\
  same_elsewhere (entry_id e) (handles c) (handles c ++ [h]) /\
  NoDup (handle_id <$> handles c ++ [h]) /\ originals_ok (handles c ++ [h]).
Proof.
  intros Hok Hp Hd Hid Horig.
  assert (Hnone : find_handle (handles c) (entry_id e) = None).
  { apply eq_None_not_Some. rewrite <- (placed_open c l e r Hok Hp). by rewrite Hd. }
  split_and!.
  - rewrite find_handle_app, Hnone. unfold find_handle. simpl. by rewrite Hid, N.eqb_refl.
  - intros i Hi. rewrite find_handle_app. unfold find_handle at 2. simpl.
    rewrite (proj2 (N.eqb_neq _ _)) by congruence. by destruct (find_handle (handles c) i).
  - rewrite fmap_app. apply NoDup_app. split_and!; [by apply ok_handles| |apply NoDup_singleton].
    intros i Hi ->%list_elem_of_singleton. rewrite Hid, find_handle_ids, Hnone in Hi. by destruct Hi.
  - apply Forall_app. split; [by apply ok_original|]. constructor; [|done].
    destruct h as [|? []]; [done| |done]. simpl in *. congruence.
Qed.

Lemma ledger_split c l e r : run_ok c -> placed c l e r ->
  committed c ≡ₚ (taken_id <$> omap (visible_entry (handles c)) l
                   ++ option_list (visible_entry (handles c) e) ++ omap (visible_entry (handles c)) r)
                 ++ (taken_id <$> taken c) ++ cancelled c.
Proof. intros Hok Hp. rewrite <- (visible_split c l e r Hp). by apply ok_ledger. Qed.

(** The reachable steps, by what they do to one entry: it changes or it leaves. *)
Lemma step_change c l e r e' hs committed' a :
  run_ok c -> placed c l e r -> entry_id e' = entry_id e ->
  same_elsewhere (entry_id e) (handles c) hs -> NoDup (handle_id <$> hs) -> originals_ok hs ->
  (en_durable e' = false <-> is_Some (find_handle hs (entry_id e))) ->
  let v := visible_entry (handles c) e in
  let v' := visible_entry hs e' in
  (forall x y, spec_step a (x ++ option_list v ++ y) (x ++ option_list v' ++ y)) ->
  committed' ++ option_list (taken_id <$> v) ≡ₚ committed c ++ option_list (taken_id <$> v') ->
  let c' := mkRun (set_turns (queue c) (l ++ e' :: r)) hs (used c) committed' (cancelled c) (taken c) in
  run_ok c' /\ spec_step a (visible c) (visible c').
Proof.
  intros Hok Hp Hid Hsame Hnd Horig Hdur v v' Hspec Hcom c'. split.
  - eapply ok_change; [done|done|done|done|done|done|done|]. fold v'.
    pose proof (ledger_split c l e r Hok Hp) as Hled. fold v in Hled.
    rewrite !fmap_app in Hled. rewrite !fmap_app.
    assert (Hopt : forall o : option TakenPendingTurn, taken_id <$> option_list o = option_list (taken_id <$> o))
      by (by intros []).
    rewrite !Hopt in *. apply (Permutation_app_inv_r (option_list (taken_id <$> v))). rewrite Hcom, Hled. solve_Permutation.
  - rewrite (visible_split c l e r Hp). unfold visible, c'. simpl. rewrite omap_placed.
    rewrite !(visible_entry_agree (handles c) hs (entry_id e)) by (done || by destruct Hp). apply Hspec.
Qed.

Lemma step_remove c l e r hs cancelled' taken' gone a :
  run_ok c -> placed c l e r ->
  same_elsewhere (entry_id e) (handles c) hs -> find_handle hs (entry_id e) = None ->
  NoDup (handle_id <$> hs) -> originals_ok hs ->
  gone = option_list (taken_id <$> visible_entry (handles c) e) ->
  gone = [] \/ gone = [entry_id e] ->
  (taken_id <$> taken') ++ cancelled' ≡ₚ gone ++ (taken_id <$> taken c) ++ cancelled c ->
  (forall x y, spec_step a (x ++ option_list (visible_entry (handles c) e) ++ y) (x ++ y)) ->
  let c' := mkRun (set_turns (queue c) (l ++ r)) hs (used c) (committed c) cancelled' taken' in
  run_ok c' /\ spec_step a (visible c) (visible c').
Proof.
  intros Hok Hp Hsame Hnone Hnd Horig Hgone Hcase Hperm Hspec c'. split.
  - eapply (ok_remove c l e r hs _ _ _ gone); [done..|]. rewrite Hperm.
    pose proof (ledger_split c l e r Hok Hp) as Hled. rewrite Hled, !fmap_app.
    assert (Hopt : forall o : option TakenPendingTurn, taken_id <$> option_list o = option_list (taken_id <$> o))
      by (by intros []).
    rewrite Hopt, <- Hgone. solve_Permutation.
  - rewrite (visible_split c l e r Hp). unfold visible, c'. simpl. rewrite omap_app.
    rewrite !(visible_entry_agree (handles c) hs (entry_id e)) by (done || by destruct Hp). apply Hspec.
Qed.

Lemma reserve_ok c turn origin q id :
  run_ok c -> reserve_with_origin (queue c) turn origin = Ok (q, id) -> id ∉ used c ->
  let c' := mkRun q (handles c ++ [Reservation id]) (used c ++ [id]) (committed c) (cancelled c) (taken c) in
  run_ok c' /\ visible c' = visible c.
Proof.
  intros Hok Hr Hfresh. unfold reserve_with_origin in Hr. case_match; [done|]. case_bool_decide as Hcap; [done|].
  simplify_eq. set (id := turn_id turn) in *. intros c'.
  destruct Hok as [Hc Hu Hused Hnd Hopen Hhome Horig Hled].
  assert (Hids : id ∉ entry_id <$> turns c) by (intros Hin; apply Hfresh, Hused; set_solver).
  assert (Hnone : find_handle (handles c) id = None).
  { apply eq_None_not_Some. rewrite <- find_handle_ids. intros Hin. apply list_elem_of_fmap in Hin as (h & Heq & Hh).
    apply Hids. rewrite Heq. by apply (proj1 (Forall_forall _ _) Hhome). }
  assert (Hsame : same_elsewhere id (handles c) (handles c ++ [Reservation id])).
  { intros i Hi. rewrite find_handle_app. unfold find_handle at 2. simpl.
    rewrite (proj2 (N.eqb_neq _ _)) by congruence. by destruct (find_handle (handles c) i). }
  assert (Hvis : visible c' = visible c).
  { assert (Hnew : visible_entry (handles c ++ [Reservation id]) (mkEntry turn origin false) = None).
    { unfold visible_entry. cbn [en_durable]. change (entry_id _) with id.
      rewrite find_handle_app, Hnone. unfold find_handle. simpl. by rewrite N.eqb_refl. }
    unfold visible, c'. simpl. rewrite omap_app. cbn [omap list_omap]. rewrite Hnew, app_nil_r.
    by apply (visible_entry_agree _ _ id). }
  split; [|done]. split; simpl.
  - rewrite length_app. simpl. lia.
  - rewrite fmap_app, <- app_assoc. simpl. rewrite <- Permutation_middle. apply NoDup_cons. split; [|done].
    intros Hin. by apply Hfresh, Hused.
  - rewrite fmap_app. simpl. set_solver.
  - rewrite fmap_app. apply NoDup_app. split_and!; [done| |apply NoDup_singleton].
    intros i Hi ->%list_elem_of_singleton. rewrite find_handle_ids in Hi. simpl in Hi. rewrite Hnone in Hi. by destruct Hi.
  - apply Forall_app. split; [by apply (open_elsewhere id (handles c))|].
    constructor; [|done]. simpl. rewrite fmap_app. set_solver.
  - rewrite fmap_app. apply Forall_app. split; [|constructor; [|done]; set_solver].
    eapply Forall_impl; [exact Hhome|]. simpl. set_solver.
  - apply Forall_app. by split; [|constructor].
  - by rewrite Hvis.
Qed.

(** A durable entry is taken. *)
Lemma take_one c index e :
  run_ok c -> turns c !! index = Some e -> en_durable e = true ->
  let c' := mkRun (set_turns (queue c) (delete index (turns c))) (handles c) (used c) (committed c)
              (cancelled c) (taken c ++ [taken_of e]) in
  run_ok c' /\ exists l r, visible c = l ++ taken_of e :: r /\ visible c' = l ++ r.
Proof.
  intros Hok Hi Hd.
  assert (Ht : turns c = take index (turns c) ++ e :: drop (S index) (turns c))
    by (symmetry; by apply take_drop_middle).
  pose proof (entry_placed c _ _ _ Hok Ht) as Hp. rewrite delete_take_drop.
  assert (Hv : visible_entry (handles c) e = Some (taken_of e)) by (unfold visible_entry; by rewrite Hd).
  assert (Hnone : find_handle (handles c) (entry_id e) = None).
  { apply eq_None_not_Some. rewrite <- (placed_open c _ e _ Hok Hp). by rewrite Hd. }
  destruct (step_remove c _ e _ (handles c) (cancelled c) (taken c ++ [taken_of e]) [entry_id e]
              (Delivered [taken_of e]) Hok Hp) as [Hok' _].
  - by intros i _.
  - done.
  - by apply ok_handles.
  - by apply ok_original.
  - by rewrite Hv.
  - by right.
  - rewrite fmap_app. simpl. change (taken_id (taken_of e)) with (entry_id e). solve_Permutation.
  - intros x y. rewrite Hv. apply (spec_deliver x y). constructor.
  - split; [exact Hok'|].
    exists (omap (visible_entry (handles c)) (take index (turns c))),
           (omap (visible_entry (handles c)) (drop (S index) (turns c))).
    split; [by rewrite (visible_split c _ e _ Hp), Hv|]. unfold visible. simpl. apply omap_app.
Qed.

(** Reserving an update or a cancellation of a durable entry shows nothing. *)
Lemma reserve_mutation_ok c id e f h :
  run_ok c -> find_entry id (turns c) = Some e -> en_durable e = true ->
  entry_id (f e) = entry_id e -> en_durable (f e) = false -> handle_id h = id ->
  match h with Mutation _ (Update o _) => turn_id o = entry_id e | _ => True end ->
  visible_entry [h] (f e) = Some (taken_of e) ->
  let c' := mkRun (set_turns (queue c) (change_first id f (turns c))) (handles c ++ [h]) (used c)
              (committed c) (cancelled c) (taken c) in
  run_ok c' /\ spec_step Hidden (visible c) (visible c').
Proof.
  intros Hok Hf Hd Hid Hopen Hh Horig Hv. apply find_entry_split in Hf as (l & r & Ht & He).
  pose proof (entry_placed c l e r Hok Ht) as Hp. subst id.
  destruct (new_handle c l e r h Hok Hp Hd Hh Horig) as (Hfind & Hsame & Hnd & Horigs).
  rewrite Ht, change_first_split by (done || by destruct Hp).
  assert (Hve : visible_entry (handles c) e = Some (taken_of e)) by (unfold visible_entry; by rewrite Hd).
  assert (Hve' : visible_entry (handles c ++ [h]) (f e) = Some (taken_of e)).
  { rewrite <- Hv. unfold visible_entry. rewrite Hopen, Hid, Hfind. unfold find_handle. simpl.
    by rewrite Hh, N.eqb_refl. }
  apply (step_change c l e r); [done..| | |].
  - rewrite Hopen, Hfind. split; [by eexists|done].
  - intros x y. rewrite Hve, Hve'. constructor.
  - by rewrite Hve, Hve'.
Qed.

Lemma reserve_update_ok c id replacement origin q kind :
  run_ok c -> reserve_update_with_origin (queue c) id replacement origin = Ok (q, kind) ->
  let c' := mkRun q (handles c ++ [Mutation id kind]) (used c) (committed c) (cancelled c) (taken c) in
  run_ok c' /\ spec_step Hidden (visible c) (visible c').
Proof.
  intros Hok Hr. unfold reserve_update_with_origin in Hr. destruct (turn_id replacement =? id) eqn:Eid; [|done].
  simpl in Hr. destruct (find_entry id (turns c)) as [e|] eqn:Ef; [|done].
  destruct (en_durable e) eqn:Ed; [|done]. simpl in Hr. simplify_eq. Nbool.
  assert (He : entry_id e = id) by (by apply find_entry_split in Ef as (? & ? & _ & ?)).
  apply (reserve_mutation_ok c id e (fun _ => mkEntry replacement origin false)); try done.
  - unfold entry_id at 1. simpl. congruence.
  - unfold visible_entry, find_handle. simpl. unfold entry_id. simpl. rewrite Eid, N.eqb_refl. done.
Qed.

Lemma reserve_cancellation_ok c id q kind :
  run_ok c -> reserve_cancellation (queue c) id = Ok (q, kind) ->
  let c' := mkRun q (handles c ++ [Mutation id kind]) (used c) (committed c) (cancelled c) (taken c) in
  run_ok c' /\ spec_step Hidden (visible c) (visible c').
Proof.
  intros Hok Hr. unfold reserve_cancellation in Hr. destruct (find_entry id (turns c)) as [e|] eqn:Ef; [|done].
  destruct (en_durable e) eqn:Ed; [|done]. simpl in Hr. simplify_eq.
  assert (He : entry_id e = id) by (by apply find_entry_split in Ef as (? & ? & _ & ?)).
  apply (reserve_mutation_ok c id e (fun e => set_durable e false)); try done.
  unfold visible_entry, find_handle. simpl. change (entry_id (set_durable e false)) with (entry_id e).
  by rewrite He, N.eqb_refl.
Qed.

(** A handle's entry in the queue's operations. *)
Lemma handle_entry c l e r h :
  placed c l e r -> entry_id e = handle_id h ->
  (forall f, change_first (handle_id h) f (turns c) = l ++ f e :: r) /\
  without (handle_id h) (turns c) = l ++ r.
Proof.
  intros [Ht Hb Ha] Hid. rewrite Ht. rewrite Hid in *. split.
  - intros f. by apply change_first_split.
  - by apply without_split.
Qed.

(** The entry of a handle becomes durable and the handle is gone. *)
Lemma settle_ok c before h after l e r e' committed' a :
  run_ok c -> handles c = before ++ h :: after -> placed c l e r -> entry_id e = handle_id h ->
  entry_id e' = entry_id e -> en_durable e' = true ->
  let v := visible_entry (handles c) e in
  (forall x y, spec_step a (x ++ option_list v ++ y) (x ++ taken_of e' :: y)) ->
  committed' ++ option_list (taken_id <$> v) ≡ₚ committed c ++ [entry_id e] ->
  let c' := mkRun (set_turns (queue c) (l ++ e' :: r)) (before ++ after) (used c) committed' (cancelled c) (taken c) in
  run_ok c' /\ spec_step a (visible c) (visible c').
Proof.
  intros Hok Hh Hp Hid Hid' Hd v Hspec Hcom.
  destruct (handle_placed c before h after Hok Hh)
    as (l' & x & r' & Hp' & Hidx & _ & _ & Hnone & Hsame & Hnd & Horigs & _).
  rewrite Hidx, <- Hid in Hnone, Hsame.
  assert (Hv' : visible_entry (before ++ after) e' = Some (taken_of e')) by (unfold visible_entry; by rewrite Hd).
  apply (step_change c l e r); [done..| | |].
  - rewrite Hd, Hnone. split; [done|by intros [? ?]].
  - intros y z. rewrite Hv'. apply Hspec.
  - rewrite Hv'. simpl. change (taken_id (taken_of e')) with (entry_id e'). by rewrite Hid'.
Qed.

Lemma commit_handle_ok c before h after :
  run_ok c -> handles c = before ++ h :: after ->
  let c' := mkRun (commit_handle (queue c) h) (before ++ after) (used c) (fst (commit_ids c h))
              (snd (commit_ids c h)) (taken c) in
  run_ok c' /\ spec_step (commit_action h) (visible c) (visible c').
Proof.
  intros Hok Hh.
  destruct (handle_placed c before h after Hok Hh)
    as (l & e & r & Hp & Hid & Hd & Hfind & Hnone & Hsame & Hnd & Horigs & Horig).
  destruct (handle_entry c l e r h Hp Hid) as [Hch Hwo].
  assert (Hv : visible_entry (handles c) e = match h with
            | Mutation _ (Update o oo) => Some (mkTaken o oo)
            | Mutation _ Cancel => Some (taken_of e)
            | Reservation _ => None end) by (unfold visible_entry; rewrite Hd, Hfind; by destruct h as [|? []]).
  destruct h as [id|id [o oo|]]; simpl in Hid, Hch, Hwo, Horig |- *; subst id.
  - unfold commit. rewrite Hch. apply (settle_ok c before (Reservation (entry_id e)) after l e r); try done.
    + intros x y. rewrite Hv. apply (spec_add x y (taken_of e)).
    + rewrite Hv. simpl. by rewrite app_nil_r.
  - rewrite Hch. eapply (settle_ok c before _ after l e r); [done|exact Hh|done..| |].
    + intros x y. rewrite Hv, <- Horig. by apply (spec_change x y (mkTaken o oo)).
    + rewrite Hv. simpl. by rewrite <- Horig.
  - rewrite Hwo. apply (step_remove c l e r _ _ _ [entry_id e]); [done..| | | |].
    + by rewrite Hv.
    + by right.
    + simpl. solve_Permutation.
    + intros x y. rewrite Hv. apply (spec_remove x y (taken_of e)).
Qed.

Lemma drop_handle_ok c before h after :
  run_ok c -> handles c = before ++ h :: after ->
  let c' := mkRun (drop_handle (queue c) h) (before ++ after) (used c) (committed c) (cancelled c) (taken c) in
  run_ok c' /\ spec_step Hidden (visible c) (visible c').
Proof.
  intros Hok Hh.
  destruct (handle_placed c before h after Hok Hh)
    as (l & e & r & Hp & Hid & Hd & Hfind & Hnone & Hsame & Hnd & Horigs & Horig).
  destruct (handle_entry c l e r h Hp Hid) as [Hch Hwo].
  assert (Hv : visible_entry (handles c) e = match h with
            | Mutation _ (Update o oo) => Some (mkTaken o oo)
            | Mutation _ Cancel => Some (taken_of e)
            | Reservation _ => None end) by (unfold visible_entry; rewrite Hd, Hfind; by destruct h as [|? []]).
  destruct h as [id|id [o oo|]]; simpl in Hid, Hch, Hwo, Horig |- *; subst id.
  - unfold rollback. rewrite Hwo. apply (step_remove c l e r _ _ _ []); [done..| | | |].
    + by rewrite Hv.
    + by left.
    + done.
    + intros x y. rewrite Hv. constructor.
  - unfold rollback_mutation. rewrite Hch. eapply (settle_ok c before _ after l e r); [done|exact Hh|done..| |].
    + intros x y. rewrite Hv. constructor.
    + rewrite Hv. simpl. by rewrite <- Horig.
  - unfold rollback_mutation. rewrite Hch. eapply (settle_ok c before _ after l e r); [done|exact Hh|done..| |].
    + intros x y. rewrite Hv. constructor.
    + by rewrite Hv.
Qed.

Lemma steer_position_spec l :
  match steer_position l with
  | Some i => exists e, l !! i = Some e /\ is_steer e = true
  | None => Forall (fun e => is_steer e = false) l
  end.
Proof.
  unfold steer_position. destruct (list_find _ l) as [[i e]|] eqn:E; simpl.
  - apply list_find_Some in E as (Hi & Hs & _). by exists e.
  - apply list_find_None in E. eapply Forall_impl; [exact E|]. simpl. intros e. by destruct (is_steer e).
Qed.

(** With fuel for every entry the loop stops for one of its own reasons. *)
Lemma steer_loop_stops fuel : forall l ready l' ready',
  (length l <= fuel)%nat -> steer_loop fuel l ready = (l', ready') ->
  Forall (fun e => is_steer e = false) l' \/
  exists i e, steer_position l' = Some i /\ l' !! i = Some e /\ en_durable e = false.
Proof.
  induction fuel as [|fuel IH]; intros l ready l' ready' Hf Hl; cbn [steer_loop] in Hl.
  { destruct l; [|simpl in Hf; lia]. simplify_eq. left. constructor. }
  pose proof (steer_position_spec l) as Hs. destruct (steer_position l) as [i|] eqn:Ep; [|simplify_eq; by left].
  destruct Hs as (e & Hi & _). rewrite Hi in Hl. destruct (en_durable e) eqn:Ed.
  - eapply IH; [|exact Hl]. rewrite length_delete by (by eexists). apply lookup_lt_Some in Hi. lia.
  - simplify_eq. right. by exists i, e.
Qed.

Lemma steer_loop_ok fuel : forall c ready turns' ready',
  run_ok c -> steer_loop fuel (turns c) ready = (turns', ready') ->
  exists ts, ready' = ready ++ ts /\
    let c' := mkRun (set_turns (queue c) turns') (handles c) (used c) (committed c) (cancelled c)
                (taken c ++ ts) in
    run_ok c' /\ spec_step (Delivered ts) (visible c) (visible c').
Proof.
  induction fuel as [|fuel IH]; intros c ready turns' ready' Hok Hl; cbn [steer_loop] in Hl.
  all: assert (Hstop : exists ts, ready = ready ++ ts /\
    let c' := mkRun (set_turns (queue c) (turns c)) (handles c) (used c) (committed c) (cancelled c)
                (taken c ++ ts) in
    run_ok c' /\ spec_step (Delivered ts) (visible c) (visible c')).
  1, 3: exists []; rewrite !app_nil_r; destruct c as [[] ? ? ? ? ?]; (split; [done|]); split; [exact Hok|constructor].
  { simplify_eq. exact Hstop. }
  destruct (steer_position (turns c)) as [i|]; [|by simplify_eq].
  destruct (turns c !! i) as [e|] eqn:Hi; [|by simplify_eq].
  destruct (en_durable e) eqn:Ed; [|by simplify_eq].
  destruct (take_one c i e Hok Hi Ed) as (Hok1 & l & r & Hv & Hv1).
  destruct (IH _ (ready ++ [taken_of e]) turns' ready' Hok1 Hl) as (ts & -> & Hok2 & Hs).
  exists (taken_of e :: ts). rewrite <- app_assoc. split; [done|]. simpl in Hok2, Hs.
  rewrite <- app_assoc in Hok2. simpl in Hok2. split; [exact Hok2|]. rewrite Hv. constructor.
  rewrite <- Hv1. exact Hs.
Qed.

Lemma step_ok c a c' : run_ok c -> run_step c a c' -> run_ok c' /\ spec_step a (visible c) (visible c').
Proof.
  intros Hok Hstep.
  destruct Hstep as [c turn origin q id Hr Hf|c id rep origin q kind Hr|c id q kind Hr|c b h af Hh|c b h af Hh
                    |c q t Ht|c q Ht|c q ts Ht|c].
  - destruct (reserve_ok c turn origin q id Hok Hr Hf) as [? ->]. split; [done|constructor].
  - by eapply reserve_update_ok.
  - by eapply reserve_cancellation_ok.
  - by apply commit_handle_ok.
  - by apply drop_handle_ok.
  - unfold take_attempt in Ht. case_match; [done|]. destruct (turns c !! _) as [e|] eqn:Hi; [|done].
    destruct (en_durable e) eqn:Ed; [|done]. simplify_eq.
    destruct (take_one c _ e Hok Hi Ed) as (Hok1 & l & r & Hv & Hv1). split; [done|].
    rewrite Hv, Hv1. repeat constructor.
  - unfold take_attempt in Ht. destruct c as [[cap acc l] ? ? ? ? ?]. simpl in Ht.
    case_match; [simplify_eq; split; [done|constructor]|].
    destruct (l !! _) as [e|] eqn:Hi; [by destruct (en_durable e)|]. simplify_eq.
    split; [by destruct Hok|constructor].
  - unfold take_ready_steers in Ht. destruct (pq_accepting (queue c)) eqn:Ea; simpl in Ht.
    + destruct (steer_loop _ _ _) as [l' ready] eqn:El. simplify_eq.
      by destruct (steer_loop_ok _ c [] _ _ Hok El) as (ts' & -> & ?).
    + simplify_eq. rewrite app_nil_r. destruct c. split; [done|constructor].
  - destruct c as [[cap acc l] ? ? ? ? ?]. split; [by destruct Hok|constructor].
Qed.

Lemma reachable_ok capacity c : run_reachable capacity c ->
  run_ok c /\ pq_capacity (queue c) = Nat.max capacity 1.
Proof.
  induction 1 as [|c a c' _ [Hok Hcap] Hstep].
  - split; [|done]. split; simpl; [lia|apply NoDup_nil_2|done|apply NoDup_nil_2|constructor..|done].
  - split; [by eapply step_ok|]. rewrite <- Hcap. clear -Hstep.
    destruct Hstep as [c turn origin q id Hr Hf|c id rep origin q kind Hr|c id q kind Hr|c b h af Hh|c b h af Hh
                      |c q t Ht|c q Ht|c q ts Ht|c]; simpl.
    + unfold reserve_with_origin in Hr. by repeat case_match; simplify_eq.
    + unfold reserve_update_with_origin in Hr. by repeat case_match; simplify_eq.
    + unfold reserve_cancellation in Hr. by repeat case_match; simplify_eq.
    + by destruct h as [|? []].
    + by destruct h as [|? []].
    + unfold take_attempt in Ht. by repeat case_match; simplify_eq.
    + unfold take_attempt in Ht. by repeat case_match; simplify_eq.
    + unfold take_ready_steers in Ht. by repeat case_match; simplify_eq.
    + done.
Qed.

(** ** The queue's promises *)

(** C32 (refinement): reservations are invisible and commits atomic, under every
    interleaving of the threads that share the queue. What a client has committed is a
    plain list: reserving, dropping a handle and closing never change it; committing a
    reservation adds exactly that turn, committing an update replaces exactly one turn by
    one of the same id, committing a cancellation removes it, and the consumer takes turns
    out of it one by one. *)
Theorem pending_turns_refine capacity c a c' :
  run_reachable capacity c -> run_step c a c' -> spec_step a (visible c) (visible c').
Proof. intros Hr Hs. apply reachable_ok in Hr as [Hok _]. by apply (step_ok c a c'). Qed.

(** C33 (safety): every committed turn is run exactly once or cancelled. At any time the
    committed turns are those still queued, those taken and those cancelled, each once;
    the queue never holds more than its capacity; and when the consumer finds nothing left
    and closes the queue, nothing is lost: all committed turns were taken or cancelled,
    and no later reservation succeeds. *)
Theorem committed_turns_run_once capacity c :
  run_reachable capacity c ->
  committed c ≡ₚ (taken_id <$> visible c) ++ (taken_id <$> taken c) ++ cancelled c /\
  NoDup ((taken_id <$> taken c) ++ cancelled c) /\
  (length (turns c) <= Nat.max capacity 1)%nat /\
  (pq_accepting (queue c) = true -> snd (take_attempt (queue c)) = Closed ->
   committed c ≡ₚ (taken_id <$> taken c) ++ cancelled c /\
   forall turn origin, reserve_with_origin (fst (take_attempt (queue c))) turn origin
                       = Err PendingTurnQueueClosed).
Proof.
  intros Hr. apply reachable_ok in Hr as [Hok Hcap]. split_and!.
  - by apply ok_ledger.
  - pose proof (ok_unique c Hok) as Hu. by apply NoDup_app in Hu as (_ & _ & ?).
  - rewrite <- Hcap. by apply ok_capacity.
  - intros Ha. unfold take_attempt. rewrite Ha. simpl.
    pose proof (steer_position_spec (turns c)) as Hs.
    destruct (turns c !! _) as [e|] eqn:Hi; [by destruct (en_durable e)|]. intros _.
    assert (Hnil : turns c = []).
    { destruct (steer_position (turns c)) as [i|]; simpl in Hi.
      - destruct Hs as (e & He & _). congruence.
      - by destruct (turns c). }
    split; [|done]. rewrite (ok_ledger c Hok). unfold visible. by rewrite Hnil.
Qed.

(** The consumer waits only for a client. If it has to wait, the turn it
    would take is held by an open handle, whose commit or drop wakes it; while no handle is
    open it takes a turn or closes the queue, and the steering turns it collects at a
    boundary are all there are. *)
Theorem consumer_waits_for_handle capacity c :
  run_reachable capacity c ->
  (snd (take_attempt (queue c)) = Waiting ->
   exists e h, turns c !! default 0%nat (steer_position (turns c)) = Some e /\
     h ∈ handles c /\ handle_id h = entry_id e) /\
  (handles c = [] -> snd (take_attempt (queue c)) <> Waiting) /\
  (handles c = [] -> pq_accepting (queue c) = true ->
   Forall (fun e => is_steer e = false) (pq_turns (fst (take_ready_steers (queue c))))).
Proof.
  intros Hr. apply reachable_ok in Hr as [Hok _].
  assert (Hopen : forall i e, turns c !! i = Some e -> en_durable e = false ->
    exists h, h ∈ handles c /\ handle_id h = entry_id e).
  { intros i e Hi Hd. apply (proj1 (Forall_lookup _ _) (ok_open c Hok) i e Hi) in Hd.
    apply list_elem_of_fmap in Hd as (h & ? & ?). by exists h. }
  assert (Hwait : snd (take_attempt (queue c)) = Waiting ->
    exists e h, turns c !! default 0%nat (steer_position (turns c)) = Some e /\
      h ∈ handles c /\ handle_id h = entry_id e).
  { unfold take_attempt. case_match; [done|]. destruct (turns c !! _) as [e|] eqn:Hi; [|done].
    destruct (en_durable e) eqn:Ed; [done|]. intros _. destruct (Hopen _ _ Hi Ed) as (h & ? & ?).
    by exists e, h. }
  split_and!; [done| |].
  - intros Hnil Hw. destruct (Hwait Hw) as (e & h & _ & Hin & _). rewrite Hnil in Hin.
    by apply not_elem_of_nil in Hin.
  - intros Hnil Ha. unfold take_ready_steers. rewrite Ha. simpl.
    destruct (steer_loop _ _ _) as [l ready] eqn:El. simpl.
    destruct (steer_loop_ok _ c [] _ _ Hok El) as (ts & _ & Hok' & _).
    apply steer_loop_stops in El as [?|(i & e & _ & Hi & Hd)]; [done| |done].
    apply (proj1 (Forall_lookup _ _) (ok_open _ Hok') i e Hi) in Hd. simpl in Hd. rewrite Hnil in Hd.
    by apply not_elem_of_nil in Hd.
Qed.

(** ** Approvals are the user's *)

Section approval_history.
Variable shlex_split : string -> option (list string).
Variable bash_parse : string -> option Node.

(** The grants of an execution, with every resolution received and the request it met. *)
Inductive grants_reachable : list ApprovalGrant -> list (ApprovalRequest * ApprovalResolution) -> Prop :=
| grants_start : grants_reachable [] []
| grants_receive grants history request r grants' answer :
    grants_reachable grants history ->
    receive_approval shlex_split bash_parse grants request r = Ok (grants', answer) ->
    grants_reachable grants' (history ++ [(request, r)]).

(** What the user approved: this request for the session, or a prefix that covers it. *)
Definition approved_by (grant : ApprovalGrant) (request : ApprovalRequest) (r : ApprovalResolution) : Prop :=
  ar_approval_id r = aq_approval_id request /\ ar_decision r = ApprovalDecision.Approved /\
  ag_scope grant = ar_scope r /\ ag_tool_name grant = aq_tool_name request /\
  (ar_scope r = ApprovalScope.Session \/
   ar_scope r = ApprovalScope.ResourcePrefix /\
   exists prefix, ar_resource_prefix r = Some prefix /\ ag_resource_prefix grant = Some prefix /\
     approval_resource_matches shlex_split bash_parse (aq_tool_name request) prefix (aq_resource request)
     = Ok true).

Lemma receive_grants grants request r grants' answer :
  receive_approval shlex_split bash_parse grants request r = Ok (grants', answer) ->
  grants' = grants \/ exists g, grants' = grants ++ [g] /\ approved_by g request r.
Proof.
  unfold receive_approval. destruct (ar_approval_id r =? aq_approval_id request) eqn:Eid; [|intros; simplify_eq; by left].
  Nbool. unfold narrowed. case_bool_decide as Hd; cbn [negb]; [|intros; simplify_eq/=; left; by rewrite andb_false_r].
  case_bool_decide as Hs.
  - destruct (ar_resource_prefix r) as [prefix|] eqn:Ep; simpl; [|intros; simplify_eq/=; left; by rewrite andb_false_r].
    case_bool_decide as Hp; simpl; [intros; simplify_eq/=; left; by rewrite andb_false_r|].
    destruct (approval_resource_matches _ _ _ _ _) as [[]|] eqn:Em; [| |done].
    + rewrite Hd, Hs. cbn. intros; simplify_eq. right. eexists. split; [done|].
      unfold approved_by. simpl. split_and!; [done..|]. right. split; [done|]. by exists prefix.
    + intros; simplify_eq/=. left. by rewrite andb_false_r.
  - intros Hr. simplify_eq/=. rewrite Hd. simpl. case_bool_decide as Ho; simpl; [by left|]. right.
    eexists. split; [done|]. unfold approved_by. simpl. split_and!; [done..|]. left. by destruct (ar_scope r).
Qed.

Lemma reachable_grants grants history : grants_reachable grants history ->
  Forall (fun g => exists request r, (request, r) ∈ history /\ approved_by g request r) grants.
Proof.
  induction 1 as [|grants history request r grants' answer _ IH Hr]; [constructor|].
  assert (Hold : Forall (fun g => exists q s, (q, s) ∈ history ++ [(request, r)] /\ approved_by g q s) grants).
  { eapply Forall_impl; [exact IH|]. intros g (q & s & Hin & ?). exists q, s. split; [set_solver|done]. }
  apply receive_grants in Hr as [->|(g & -> & Hg)]; [done|]. apply Forall_app. split; [done|].
  constructor; [|done]. exists request, r. split; [set_solver|done].
Qed.

Lemma scoped_approval_grant grants request r :
  scoped_approval shlex_split bash_parse grants request = Ok (Some r) ->
  ar_decision r = ApprovalDecision.Approved /\
  exists g, g ∈ grants /\ grant_matches shlex_split bash_parse g request = Ok true.
Proof.
  induction grants as [|g grants IH]; simpl; [done|].
  destruct (grant_matches _ _ g request) as [[]|] eqn:E; [| |done].
  - intros; simplify_eq. split; [done|]. exists g. split; [apply list_elem_of_here|done].
  - intros H. destruct (IH H) as (? & g' & ? & ?). split; [done|]. exists g'. split; [set_solver|done].
Qed.

(** C34 (safety): nothing runs on an approval nobody gave. When a tool call is approved
    without asking, the user has approved an earlier request of this execution, addressed
    by its own id, either for the whole session or for a resource prefix of the same tool
    that covers both that request and this one. *)
Theorem scoped_approval_was_granted grants history request r :
  grants_reachable grants history ->
  scoped_approval shlex_split bash_parse grants request = Ok (Some r) ->
  exists request0 r0, (request0, r0) ∈ history /\
    ar_approval_id r0 = aq_approval_id request0 /\ ar_decision r0 = ApprovalDecision.Approved /\
    (ar_scope r0 = ApprovalScope.Session \/
     ar_scope r0 = ApprovalScope.ResourcePrefix /\ aq_tool_name request0 = aq_tool_name request /\
     exists prefix, ar_resource_prefix r0 = Some prefix /\
       approval_resource_matches shlex_split bash_parse (aq_tool_name request) prefix (aq_resource request0)
       = Ok true /\
       approval_resource_matches shlex_split bash_parse (aq_tool_name request) prefix (aq_resource request)
       = Ok true).
Proof.
  intros Hr Hs. apply scoped_approval_grant in Hs as (_ & g & Hg & Hm).
  apply reachable_grants in Hr. apply (proj1 (Forall_forall _ _) Hr) in Hg as (q & s & Hin & Hid & Hd & Hsc & Ht & Hcase).
  exists q, s. split_and!; [done..|]. destruct Hcase as [?|(Hscope & prefix & Hp & Hgp & Hmq)]; [by left|right].
  unfold grant_matches in Hm. rewrite Hsc, Hscope in Hm. case_bool_decide as Htool; [|done].
  rewrite Hgp in Hm. rewrite <- Ht in Hmq. rewrite <- Htool. split_and!; [done|congruence|].
  exists prefix. split_and!; [done|done|]. by rewrite Htool.
Qed.

End approval_history.

(** ** Witnesses *)

Definition ex_turn (id : N) (steer : bool) : ConfiguredPendingAgentTurn :=
  configured (mkPendingTurn 0 id "next" None None [] None false false false false steer).
(** A turn reserved, committed, taken; then nothing is left. *)
Definition ex_run1 : Run :=
  mkRun (mkQueue 2 true [mkEntry (ex_turn 7 false) PendingTurnExecutionOrigin.Legacy false])
    [Reservation 7] [7] [] [] [].
Definition ex_run2 : Run :=
  mkRun (mkQueue 2 true [mkEntry (ex_turn 7 false) PendingTurnExecutionOrigin.Legacy true]) [] [7] [7] [] [].
Definition ex_run3 : Run :=
  mkRun (mkQueue 2 true []) [] [7] [7] [] [mkTaken (ex_turn 7 false) PendingTurnExecutionOrigin.Legacy].

Lemma ex_run1_reachable : run_reachable 2 ex_run1.
Proof.
  eapply run_next; [apply run_start|].
  exact (run_reserve (mkRun (new_queue 2) [] [] [] [] []) (ex_turn 7 false) PendingTurnExecutionOrigin.Legacy
           (queue ex_run1) 7 eq_refl (not_elem_of_nil 7)).
Defined.
Lemma ex_run2_step : run_step ex_run1 (Added 7) ex_run2.
Proof. exact (run_commit ex_run1 [] (Reservation 7) [] eq_refl). Defined.
Lemma ex_run3_reachable : run_reachable 2 ex_run3.
Proof.
  eapply run_next; [eapply run_next; [exact ex_run1_reachable|exact ex_run2_step]|].
  exact (run_take ex_run2 (queue ex_run3) (mkTaken (ex_turn 7 false) PendingTurnExecutionOrigin.Legacy) eq_refl).
Defined.

Lemma pending_turns_refine_witness : spec_step (Added 7) (visible ex_run1) (visible ex_run2).
Proof. exact (pending_turns_refine 2 ex_run1 (Added 7) ex_run2 ex_run1_reachable ex_run2_step). Defined.

Lemma committed_turns_run_once_witness : committed ex_run3 ≡ₚ (taken_id <$> taken ex_run3) ++ cancelled ex_run3.
Proof.
  destruct (committed_turns_run_once 2 ex_run3 ex_run3_reachable) as (_ & _ & _ & H).
  exact (proj1 (H eq_refl eq_refl)).
Defined.

Lemma consumer_waits_for_handle_witness : exists h, h ∈ handles ex_run1 /\ handle_id h = 7.
Proof.
  destruct (consumer_waits_for_handle 2 ex_run1 ex_run1_reachable) as (H & _).
  destruct (H eq_refl) as (e & h & He & Hh & Hid). vm_compute in He. injection He as <-.
  exists h. split; [exact Hh|exact Hid].
Defined.

Definition ex_approval : ApprovalRequest := mkApprovalRequest 1 2 3 4 "write_file" "src/a.rs" "change".
Definition ex_resolution : ApprovalResolution :=
  mkResolution 1 ApprovalDecision.Approved ApprovalScope.ResourcePrefix (Some "src/a.rs") "yes".
Definition ex_grant : ApprovalGrant := mkGrant ApprovalScope.ResourcePrefix "write_file" (Some "src/a.rs").

Lemma scoped_approval_was_granted_witness :
  exists q r, (q, r) ∈ [(ex_approval, ex_resolution)] /\ ar_decision r = ApprovalDecision.Approved.
Proof.
  destruct (scoped_approval_was_granted (fun _ => None) (fun _ => None) [ex_grant]
    [(ex_approval, ex_resolution)] (mkApprovalRequest 9 2 3 5 "write_file" "src/a.rs" "again")
    (mkResolution 9 ApprovalDecision.Approved ApprovalScope.ResourcePrefix (Some "src/a.rs")
       "matched an explicit scoped approval from this execution")) as (q & r & Hin & _ & Hd & _).
  - apply (grants_receive (fun _ => None) (fun _ => None) [] [] ex_approval ex_resolution [ex_grant] (Some ex_resolution)).
    + constructor.
    + vm_compute. reflexivity.
  - vm_compute. reflexivity.
  - exists q, r. split; [exact Hin|exact Hd].
Defined.
