(* ===== verification/Verify.v ===== *)
(** * The completion verifier

    [golutra-agent-verify/src/lib.rs]: classify a finished task, fix the plan of
    assertions before looking at results, fill each assertion's status from the
    recorded checks, and aggregate to the verification record. Fresh ids and the
    creation time are arguments: [new_id i] is the id of the [i]-th assertion the
    plan creates. *)
From S2P Require Import Prelude RustStr Core.
Open Scope N_scope.

(*@ core/src/governance.rs VerificationDimensions *)
Record VerificationDimensions := mkDimensions {
  evidence_status : VerificationDimensionStatus;
  objective_status : VerificationDimensionStatus;
  policy_status : VerificationDimensionStatus;
}.
Definition default_dimensions : VerificationDimensions :=
  mkDimensions VerificationDimensionStatus.Unknown VerificationDimensionStatus.Unknown
    VerificationDimensionStatus.Unknown.

(*@ core/src/governance.rs VerificationPlan *)
Record VerificationPlan := mkPlan {
  plan_id : VerificationPlanId;
  plan_task_id : TaskId;
  plan_task_class : TaskClass;
  plan_criteria : list string;
  plan_assertions : list VerificationAssertion;
  policy_assertions : list VerificationAssertion;
  required_artifact_types : list string;
  generated_by : string;
  verifier_versions : list string;
  dimensions : VerificationDimensions;
  plan_revision : N;
  plan_created_at : N;
}.

(*@ verify/src/lib.rs VerificationInput *)
Record VerificationInput := mkInput {
  in_task_id : TaskId;
  in_objective : string;
  in_completion_criteria : list string;
  in_evidence_refs : list EvidenceId;
  in_command_checks : list VerificationCheck;
  in_requires_workspace_evidence : bool;
  in_code_files_changed : bool;
}.

Definition is_kind (k : VerificationCheckKind) (c : VerificationCheck) : bool :=
  bool_decide (check_kind c = k).
Definition is_nil {A} (l : list A) : bool := match l with [] => true | _ => false end.

(** ** Text classification *)

(*@ verify/src/lib.rs contains_word *)
Definition contains_word (text word : string) : bool :=
  existsb (fun token => bool_decide
             (trim_matches (fun c => negb (is_ascii_alphanumeric c)) token = word))
    (split_whitespace text).

Definition contains_any (phrases : list string) (text : string) : bool :=
  existsb (fun p => str_contains p text) phrases.

(*@ verify/src/lib.rs criterion_requests_test *)
Definition criterion_requests_test (lower original : string) : bool :=
  contains_any ["tests pass"; "tests passed"; "test passes"; "test passed"; "run tests";
    "run the tests"; "test suite"; "test command"; "test result"; "fixture passes";
    "fixture passed"] lower
  || contains_any ["测试通过"; "测试成功"; "运行测试"; "测试命令"; "用例通过"; "用例成功"] original.

(*@ verify/src/lib.rs criterion_requests_diagnostic *)
Definition criterion_requests_diagnostic (lower original : string) : bool :=
  contains_any ["check passes"; "check passed"; "run the check"; "run checks"; "build passes";
    "build passed"; "compile succeeds"; "compiles successfully"; "lint passes"; "typecheck passes";
    "diagnostic passes"; "schema validates"] lower
  || contains_any ["检查通过"; "检查成功"; "运行检查"; "构建通过"; "编译通过"; "诊断通过"; "协议通过"]
       original.

(*@ verify/src/lib.rs criterion_assertion_kind *)
Definition criterion_assertion_kind (class : TaskClass) (criterion : string)
    : VerificationAssertionKind :=
  if bool_decide (class = TaskClass.PlainConversation) then
    VerificationAssertionKind.AssistantResponse
  else
    let lower := to_ascii_lowercase criterion in
    if criterion_requests_test lower criterion then VerificationAssertionKind.Test
    else if criterion_requests_diagnostic lower criterion then VerificationAssertionKind.Diagnostic
    else if existsb (contains_word lower) ["content"; "contains"; "equals"; "match"]
            || contains_any ["内容"; "包含"; "等于"; "匹配"] criterion then
      VerificationAssertionKind.Diagnostic
    else if existsb (contains_word lower) ["file"; "path"; "diff"; "write"; "edit"; "create"]
            || contains_any ["文件"; "路径"; "差异"; "写入"; "修改"; "创建"] criterion then
      VerificationAssertionKind.FileState
    else VerificationAssertionKind.Delivery.

(*@ verify/src/lib.rs requires_objective_validation *)
Definition requires_objective_validation (objective : string) : bool :=
  let lower := to_ascii_lowercase objective in
  let words := split_chars (fun c => negb (is_ascii_alphabetic c)) lower in
  existsb (fun marker => existsb (fun word => bool_decide (word = marker)) words)
    ["create"; "created"; "configure"; "configured"; "deploy"; "edit"; "enable"; "extract"; "fix";
     "generate"; "implement"; "install"; "modify"; "move"; "rename"; "recover"; "remove"; "restart";
     "save"; "setup"; "start"; "stop"; "update"; "upload"; "write"]
  || contains_any
       ["创建"; "配置"; "部署"; "编辑"; "启用"; "提取"; "修复"; "生成"; "实现"; "安装"; "修改";
        "移动"; "重命名"; "恢复"; "删除"; "重启"; "保存"; "启动"; "停止"; "更新"; "上传"; "写入"]
       objective.

(** ** Checks *)

(*@ verify/src/lib.rs passed_check *)
Definition passed_check (checks : list VerificationCheck) (kind : VerificationCheckKind) : bool :=
  existsb (fun c => is_kind kind c && check_passed c) checks.

(*@ verify/src/lib.rs requires_objective_evidence *)
Definition requires_objective_evidence (task_touched_code : bool) : bool := task_touched_code.

(*@ verify/src/lib.rs is_unknown_objective_check *)
Definition is_unknown_objective_check (c : VerificationCheck) : bool :=
  is_kind VerificationCheckKind.ObjectiveValidation c
  && starts_with "objective:unknown:" (check_name c).

(*@ verify/src/lib.rs is_external_verifier *)
Definition is_external_verifier (c : VerificationCheck) : bool :=
  bool_decide (check_name c = "objective:test:external_verifier").

(*@ verify/src/lib.rs is_contract_objective_check *)
Definition is_contract_objective_check (c : VerificationCheck) : bool :=
  starts_with "objective:path:" (check_name c) || starts_with "objective:content:" (check_name c).

(*@ verify/src/lib.rs:796-807 latest_distinct_checks *)
Definition check_identity (c : VerificationCheck) : string :=
  if is_kind VerificationCheckKind.ObjectiveValidation c
     && starts_with "objective:" (check_name c) && str_contains ":identity:" (check_name c)
  then check_name c
  else check_name c +:+ String Ascii.zero (default "" (check_command c)).

(** The loop of [latest_distinct_checks] over the reversed checks; [latest] grows at
    its end. *)
Fixpoint latest_loop (seen : list string) (latest : list VerificationCheck)
    (rev_checks : list VerificationCheck) : list VerificationCheck :=
  match rev_checks with
  | [] => latest
  | c :: cs =>
      if bool_decide (check_identity c ∈ seen) then latest_loop seen latest cs
      else latest_loop (check_identity c :: seen) (latest ++ [c]) cs
  end.

(*@ verify/src/lib.rs latest_distinct_checks *)
Definition latest_distinct_checks (checks : list VerificationCheck) : list VerificationCheck :=
  reverse (latest_loop [] [] (reverse checks)).

(*@ verify/src/lib.rs authoritative_objective_checks *)
Definition authoritative_objective_checks (checks : list VerificationCheck)
    : list VerificationCheck :=
  let latest := latest_distinct_checks checks in
  if negb (existsb is_external_verifier latest) then latest
  else
    let external_commands := omap check_command (List.filter is_external_verifier latest) in
    List.filter (fun c => is_external_verifier c || is_contract_objective_check c
                     || is_none_or (fun cmd => negb (bool_decide (cmd ∈ external_commands)))
                          (check_command c)) latest.

(** ** The plan *)

(** [assertion]; the id is assigned when the plan is complete. *)
(*@ verify/src/lib.rs assertion *)
Definition assertion (id : VerificationAssertionId) (criterion : string)
    (kind : VerificationAssertionKind) (subject expected : string) (blocking : bool)
    : VerificationAssertion :=
  {| assertion_id := id;
     criterion_id := criterion;
     assertion_kind := kind;
     assertion_subject := subject;
     assertion_expected := expected;
     verifier_id := "golutra-agent-verifier/semantic";
     required_evidence_strength := if blocking then "medium" else "none";
     assertion_blocking := blocking;
     assertion_status_field := VerificationAssertionStatus.Pending;
     assertion_evidence_refs := [];
     assertion_message := "assertion is pending execution facts" |}.

(*@ verify/src/lib.rs classify_task *)
Definition classify_task (i : VerificationInput) : TaskClass :=
  if in_code_files_changed i then TaskClass.CodeChange
  else if in_requires_workspace_evidence i
          && existsb (is_kind VerificationCheckKind.WorkspaceChange) (in_command_checks i) then
    TaskClass.WorkspaceChange
  else if in_requires_workspace_evidence i then TaskClass.ReadOnlyAnalysis
  else if is_nil (in_evidence_refs i)
          && forallb (fun c => match check_kind c with
                               | VerificationCheckKind.AssistantResponse
                               | VerificationCheckKind.Schema
                               | VerificationCheckKind.Policy => true
                               | _ => false
                               end) (in_command_checks i) then
    TaskClass.PlainConversation
  else TaskClass.ReadOnlyAnalysis.

(** A pending assertion before it has an id: the arguments of [assertion]. *)
Definition Spec : Type := string * VerificationAssertionKind * string * string * bool.

(*@ verify/src/lib.rs:29-114 VerificationRunner::plan *)
Definition class_specs (class : TaskClass) (i : VerificationInput) : list Spec :=
  match class with
  | TaskClass.PlainConversation =>
      [("assistant_response", VerificationAssertionKind.AssistantResponse, "assistant response",
        "a non-empty assistant response is emitted", false)]
  | TaskClass.ReadOnlyAnalysis =>
      [("assistant_response", VerificationAssertionKind.AssistantResponse, "assistant response",
        "a non-empty answer is emitted", false)]
      ++ (if is_nil (in_command_checks i) then []
          else
            [("analysis_evidence", VerificationAssertionKind.Delivery, "analysis evidence",
              "observations are backed by durable tool evidence", true)]
            ++ (if existsb (is_kind VerificationCheckKind.ObjectiveValidation)
                     (in_command_checks i)
                then [("analysis_objective", VerificationAssertionKind.Diagnostic,
                       "requested observation",
                       "the observed file or command target matches the objective", true)]
                else []))
  | TaskClass.WorkspaceChange =>
      [("workspace_diff", VerificationAssertionKind.Diff, "workspace",
        "the requested workspace change is recorded", true);
       ("file_state", VerificationAssertionKind.FileState, "changed files",
        "changed file state is represented by durable evidence", true);
       ("workspace_validation", VerificationAssertionKind.Diagnostic, "objective",
        "an objective validation command or check succeeds", true)]
  | TaskClass.CodeChange =>
      [("workspace_diff", VerificationAssertionKind.Diff, "workspace",
        "the requested code change is recorded", true);
       ("file_state", VerificationAssertionKind.FileState, "changed code files",
        "the changed code files have durable before/after evidence", true);
       ("tests_or_diagnostics", VerificationAssertionKind.Test, "objective",
        "a test, check, build, or diagnostic command succeeds", true)]
  end.

Definition criterion_specs (class : TaskClass) (criteria : list string) : list Spec :=
  imap (fun index criterion =>
          ("criterion-" +:+ show (N.of_nat index + 1), criterion_assertion_kind class criterion,
           criterion, criterion, true)) criteria.

(*@ verify/src/lib.rs:115-164 VerificationRunner::plan *)
Definition plan_specs (i : VerificationInput) : list Spec :=
  let class := classify_task i in
  class_specs class i
  ++ (if existsb (fun c => bool_decide (check_name c = "objective:path:delivery"))
           (in_command_checks i)
      then [("delivery_paths", VerificationAssertionKind.Delivery, "requested delivery paths",
             "all explicitly requested delivery paths are present in the workspace change", true)]
      else [])
  ++ (if bool_decide (class = TaskClass.ReadOnlyAnalysis)
         && requires_objective_validation (in_objective i)
         && negb (existsb (fun c => is_kind VerificationCheckKind.ObjectiveValidation c
                    && negb (bool_decide (check_name c = "objective:path:delivery")))
                    (in_command_checks i))
      then [("effect_validation", VerificationAssertionKind.Diagnostic, "objective",
             "a command independently validates the requested external or workspace effect", true)]
      else [])
  ++ criterion_specs class (in_completion_criteria i)
  ++ (if existsb (is_kind VerificationCheckKind.Schema) (in_command_checks i)
      then [("output_schema", VerificationAssertionKind.Schema, "assistant output",
             "the final assistant response validates against the requested JSON Schema", true)]
      else []).

Definition of_spec (id : VerificationAssertionId) (s : Spec) : VerificationAssertion :=
  let '(criterion, kind, subject, expected, blocking) := s in
  assertion id criterion kind subject expected blocking.

(*@ verify/src/lib.rs VerificationRunner::plan *)
Definition plan (new_id : nat -> VerificationAssertionId) (plan_id created_at : N)
    (i : VerificationInput) : VerificationPlan :=
  let class := classify_task i in
  let assertions := imap (fun n s => of_spec (new_id n) s) (plan_specs i) in
  {| plan_id := plan_id;
     plan_task_id := in_task_id i;
     plan_task_class := class;
     plan_criteria := in_completion_criteria i;
     plan_assertions := assertions;
     policy_assertions :=
       [assertion (new_id (length assertions)) "policy" VerificationAssertionKind.Policy
          "runtime policy" "no blocking policy decision is present" true];
     required_artifact_types :=
       match class with
       | TaskClass.WorkspaceChange | TaskClass.CodeChange => ["tool_output"; "evidence"]
       | _ => []
       end;
     generated_by := "golutra-agent-verifier/v3";
     verifier_versions := ["semantic-assertions-v2"];
     dimensions := default_dimensions;
     plan_revision := 1;
     plan_created_at := created_at |}.

(** ** Assertion status *)

Definition flat_refs (cs : list VerificationCheck) : list EvidenceId := cs ≫= check_evidence_refs.

Definition is_test_name (n : string) : bool := starts_with "objective:test:" n.
Definition is_diagnostic_name (n : string) : bool := starts_with "objective:diagnostic:" n.
Definition is_content_name (n : string) : bool := starts_with "objective:content:" n.

(** Which objective checks speak for a test or diagnostic assertion. *)
(*@ verify/src/lib.rs:643-670 assertion_status *)
Definition validates (a : VerificationAssertion) (c : VerificationCheck) : bool :=
  let id s := bool_decide (criterion_id a = s) in
  let name := check_name c in
  is_external_verifier c
  || (id "tests_or_diagnostics" && (is_test_name name || is_diagnostic_name name))
  || (id "analysis_objective" && starts_with "objective:" name)
  || (id "effect_validation"
      && (is_external_verifier c || is_test_name name || is_diagnostic_name name))
  || (id "workspace_validation"
      && (is_external_verifier c || is_test_name name || is_diagnostic_name name
          || is_content_name name))
  || (negb (id "tests_or_diagnostics") && negb (id "analysis_objective")
      && negb (id "effect_validation") && negb (id "workspace_validation")
      && match assertion_kind a with
         | VerificationAssertionKind.Test => is_test_name name
         | VerificationAssertionKind.Diagnostic => negb (is_test_name name)
         | _ => false
         end).

Definition stop_tokens : list string :=
  ["the"; "and"; "for"; "with"; "from"; "that"; "this"; "exists"; "available"; "returned"].

(*@ verify/src/lib.rs delivery_check_matches *)
Definition delivery_check_matches (a : VerificationAssertion) (c : VerificationCheck) : bool :=
  if bool_decide (criterion_id a = "delivery_paths") then
    bool_decide (check_name c = "objective:path:delivery")
  else if bool_decide (criterion_id a = "analysis_evidence") then true
  else
    let criterion := to_ascii_lowercase (trim (assertion_expected a)) in
    let check_text :=
      to_ascii_lowercase (check_name c) +:+ " " +:+ to_ascii_lowercase (check_message c) +:+ " "
        +:+ to_ascii_lowercase (default "" (check_command c)) in
    let tokens :=
      List.filter (fun t => negb (bool_decide (t ∈ stop_tokens)))
        (List.filter (fun t => 3 <=? str_len t)
           (split_chars (fun ch => negb (is_ascii_alphanumeric ch) && negb (ch =? 95)) criterion)) in
    if is_nil tokens
       || forallb (fun t => bool_decide (t ∈ ["evidence"; "artifact"; "output"; "delivery"])) tokens
    then true
    else existsb (fun t => str_contains t check_text) tokens
         || (negb (is_ascii criterion) && str_contains criterion check_text).

(** The objective checks an assertion is judged by. *)
Definition validation_checks (a : VerificationAssertion) (i : VerificationInput)
    : list VerificationCheck :=
  authoritative_objective_checks
    (List.filter (validates a)
       (List.filter (fun c => negb (is_unknown_objective_check c))
          (List.filter (is_kind VerificationCheckKind.ObjectiveValidation) (in_command_checks i)))).

Abbreviation St := VerificationAssertionStatus.VerificationAssertionStatus.

(*@ verify/src/lib.rs:586-607 assertion_status *)
Definition schema_status (i : VerificationInput) : St * string * list EvidenceId :=
  let refs := in_evidence_refs i in
  let checks := List.filter (is_kind VerificationCheckKind.Schema) (in_command_checks i) in
  if existsb (fun c => negb (check_passed c)) checks then
    (VerificationAssertionStatus.Fail,
     "assistant response does not satisfy the requested JSON Schema", refs)
  else if existsb check_passed checks then
    (VerificationAssertionStatus.Pass,
     "assistant response satisfies the requested JSON Schema", refs)
  else (VerificationAssertionStatus.Unknown, "no output schema validation fact was recorded", refs).

(*@ verify/src/lib.rs:608-635 assertion_status *)
Definition change_status (i : VerificationInput) : St * string * list EvidenceId :=
  let refs := in_evidence_refs i in
  let checks := List.filter (is_kind VerificationCheckKind.WorkspaceChange) (in_command_checks i) in
  if existsb (fun c => check_passed c && negb (is_nil (check_evidence_refs c))) checks then
    (VerificationAssertionStatus.Pass, "workspace change is linked to evidence", flat_refs checks)
  else if existsb check_passed checks then
    (VerificationAssertionStatus.Unknown, "workspace change has no linked evidence", refs)
  else (VerificationAssertionStatus.Fail, "workspace change was not recorded", refs).

(*@ verify/src/lib.rs:636-705 assertion_status *)
Definition validation_status (a : VerificationAssertion) (i : VerificationInput)
    (has_evidence : bool) : St * string * list EvidenceId :=
  let refs := in_evidence_refs i in
  let checks := validation_checks a i in
  match List.filter (fun c => negb (check_passed c)) checks with
  | failed :: _ =>
      let message := trim (check_message failed) in
      (VerificationAssertionStatus.Fail,
       if bool_decide (message = "") then "at least one objective validation failed"
       else "objective validation failed: " +:+ message, refs)
  | [] =>
      if existsb check_passed checks && has_evidence then
        (VerificationAssertionStatus.Pass, "objective validation passed with evidence",
         flat_refs checks)
      else (VerificationAssertionStatus.Unknown, "no objective validation fact was recorded", refs)
  end.

(*@ verify/src/lib.rs:706-744 assertion_status *)
Definition delivery_status (a : VerificationAssertion) (i : VerificationInput)
    (has_evidence : bool) : St * string * list EvidenceId :=
  let matching := List.filter (delivery_check_matches a) (in_command_checks i) in
  if existsb (fun c => negb (check_passed c)
                       && is_kind VerificationCheckKind.ObjectiveValidation c) matching then
    (VerificationAssertionStatus.Fail, "a requested delivery check failed", flat_refs matching)
  else if has_evidence
          && existsb (fun c => check_passed c && negb (is_nil (check_evidence_refs c))) matching then
    (VerificationAssertionStatus.Pass, "matching delivered evidence is available",
     flat_refs (List.filter check_passed matching))
  else (VerificationAssertionStatus.Unknown, "no matching delivered evidence is available",
        in_evidence_refs i).

(*@ verify/src/lib.rs:745-778 assertion_status *)
Definition policy_check_status (i : VerificationInput) : St * string * list EvidenceId :=
  let checks :=
    List.filter (fun c => is_kind VerificationCheckKind.Policy c
                          || starts_with "policy:" (check_name c)) (in_command_checks i) in
  if existsb (fun c => negb (check_passed c)) checks then
    (VerificationAssertionStatus.Fail, "a policy assertion failed", flat_refs checks)
  else if negb (is_nil checks) then
    (VerificationAssertionStatus.Pass, "all recorded policy decisions allowed execution",
     flat_refs checks)
  else (VerificationAssertionStatus.Unknown, "no policy decision fact was recorded",
        in_evidence_refs i).

(*@ verify/src/lib.rs assertion_status *)
Definition assertion_status (a : VerificationAssertion) (i : VerificationInput)
    (has_evidence : bool) : St * string * list EvidenceId :=
  let refs := in_evidence_refs i in
  match assertion_kind a with
  | VerificationAssertionKind.AssistantResponse =>
      if existsb (fun c => is_kind VerificationCheckKind.AssistantResponse c && check_passed c)
           (in_command_checks i)
         || (is_nil (in_command_checks i) && negb (trim_is_empty (in_objective i))) then
        (VerificationAssertionStatus.Pass, "assistant response exists", refs)
      else (VerificationAssertionStatus.Unknown, "assistant response fact is missing", refs)
  | VerificationAssertionKind.Schema => schema_status i
  | VerificationAssertionKind.Diff | VerificationAssertionKind.FileState => change_status i
  | VerificationAssertionKind.Test | VerificationAssertionKind.Diagnostic =>
      validation_status a i has_evidence
  | VerificationAssertionKind.Delivery => delivery_status a i has_evidence
  | VerificationAssertionKind.Policy => policy_check_status i
  | VerificationAssertionKind.CommandExit =>
      (VerificationAssertionStatus.NotApplicable,
       "assertion kind is not emitted by the current tool adapter", refs)
  end.

(** ** Aggregation *)

(*@ verify/src/lib.rs aggregate_dimension *)
Definition aggregate_dimension (l : list VerificationAssertion) : VerificationDimensionStatus :=
  let statuses := assertion_status_field <$> l in
  let has s := bool_decide (s ∈ statuses) in
  if is_nil statuses then VerificationDimensionStatus.Unknown
  else if has VerificationAssertionStatus.Fail then VerificationDimensionStatus.Fail
  else if has VerificationAssertionStatus.Unknown then VerificationDimensionStatus.Partial
  else if forallb (fun s => bool_decide (s = VerificationAssertionStatus.Pass)) statuses then
    VerificationDimensionStatus.Pass
  else VerificationDimensionStatus.Partial.

(*@ verify/src/lib.rs verification_dimensions *)
Definition verification_dimensions (p : VerificationPlan) (has_evidence : bool)
    : VerificationDimensions :=
  {| evidence_status :=
       if bool_decide (plan_task_class p = TaskClass.PlainConversation) || has_evidence then
         VerificationDimensionStatus.Pass
       else if existsb assertion_blocking (plan_assertions p) then VerificationDimensionStatus.Fail
       else VerificationDimensionStatus.Unknown;
     objective_status := aggregate_dimension (List.filter assertion_blocking (plan_assertions p));
     policy_status := aggregate_dimension (List.filter assertion_blocking (policy_assertions p)) |}.

(*@ verify/src/lib.rs residual_risks *)
Definition residual_risks (r : VerificationResult) : list string :=
  match r with
  | VerificationResult.Pass => []
  | VerificationResult.Fail => ["objective evidence is missing or failed"]
  | VerificationResult.Partial => ["some objective checks failed"]
  | VerificationResult.Unknown => ["verification evidence is insufficient"]
  end.

(** The objective checks of [verify_legacy] all pass, and there is one. *)
(*@ verify/src/lib.rs:275-283 VerificationRunner::verify_legacy *)
Definition objective_checks_passed (i : VerificationInput) : bool :=
  let latest := authoritative_objective_checks
    (List.filter (is_kind VerificationCheckKind.ObjectiveValidation) (in_command_checks i)) in
  negb (is_nil latest) && forallb check_passed latest.

(*@ verify/src/lib.rs:284-337 VerificationRunner::verify_legacy *)
Definition legacy_result (i : VerificationInput) : VerificationResult :=
  let has_evidence := negb (is_nil (in_evidence_refs i)) in
  let checks := in_command_checks i in
  let objective_validated := objective_checks_passed i in
  let commands_passed :=
    objective_validated || passed_check checks VerificationCheckKind.ToolExecution in
  let change_recorded := passed_check checks VerificationCheckKind.WorkspaceChange in
  let assistant_response := passed_check checks VerificationCheckKind.AssistantResponse in
  let schema_passed :=
    forallb check_passed (List.filter (is_kind VerificationCheckKind.Schema) checks) in
  if negb (in_code_files_changed i) && negb (in_requires_workspace_evidence i)
     && assistant_response && schema_passed
     && forallb check_passed
          (List.filter (fun c => negb (is_kind VerificationCheckKind.AssistantResponse c
                                       || is_kind VerificationCheckKind.Schema c)) checks) then
    VerificationResult.Pass
  else if in_code_files_changed i then
    match has_evidence, commands_passed, change_recorded, objective_validated with
    | true, true, true, true => VerificationResult.Pass
    | true, _, true, _ => VerificationResult.Partial
    | _, _, _, _ => VerificationResult.Fail
    end
  else
    match has_evidence, commands_passed with
    | true, true => VerificationResult.Pass
    | true, false => VerificationResult.Partial
    | false, _ =>
        if in_requires_workspace_evidence i then VerificationResult.Fail
        else VerificationResult.Unknown
    end.

(*@ verify/src/lib.rs VerificationRunner::verify_legacy *)
Definition verify_legacy (verification_id : VerificationId) (i : VerificationInput)
    : VerificationRecord :=
  let result := legacy_result i in
  {| vr_verification_id := verification_id;
     vr_task_id := in_task_id i;
     vr_objective := in_objective i;
     vr_completion_criteria := in_completion_criteria i;
     vr_checks := in_command_checks i;
     vr_evidence_refs := in_evidence_refs i;
     vr_result := result;
     vr_policy_status := "p0_policy_checked";
     vr_residual_risks := residual_risks result;
     vr_plan_id := None;
     vr_assertions := [];
     vr_source := VerificationSource.Runtime;
     vr_independence := VerificationIndependence.Unspecified;
     vr_environment_digest := None |}.

(*@ verify/src/lib.rs:204-213 VerificationRunner::verify_with_plan *)
Definition fill (i : VerificationInput) (has_evidence : bool) (a : VerificationAssertion)
    : VerificationAssertion :=
  let '(status, message, refs) := assertion_status a i has_evidence in
  {| assertion_id := assertion_id a; criterion_id := criterion_id a;
     assertion_kind := assertion_kind a; assertion_subject := assertion_subject a;
     assertion_expected := assertion_expected a; verifier_id := verifier_id a;
     required_evidence_strength := required_evidence_strength a;
     assertion_blocking := assertion_blocking a; assertion_status_field := status;
     assertion_evidence_refs := refs; assertion_message := message |}.

Definition has_status (s : VerificationAssertionStatus) (a : VerificationAssertion) : bool :=
  bool_decide (assertion_status_field a = s).

Definition push_risk (r : VerificationResult) (risk : string) (rec : VerificationRecord)
    : VerificationRecord :=
  {| vr_verification_id := vr_verification_id rec; vr_task_id := vr_task_id rec;
     vr_objective := vr_objective rec; vr_completion_criteria := vr_completion_criteria rec;
     vr_checks := vr_checks rec; vr_evidence_refs := vr_evidence_refs rec; vr_result := r;
     vr_policy_status := vr_policy_status rec;
     vr_residual_risks := vr_residual_risks rec ++ [risk]; vr_plan_id := vr_plan_id rec;
     vr_assertions := vr_assertions rec; vr_source := vr_source rec;
     vr_independence := vr_independence rec; vr_environment_digest := vr_environment_digest rec |}.

(*@ verify/src/lib.rs VerificationRunner::verify_with_plan *)
Definition verify_with_plan (verification_id : VerificationId) (i : VerificationInput)
    (p : VerificationPlan) : VerificationRecord * VerificationPlan :=
  let record := verify_legacy verification_id i in
  let has_evidence := negb (is_nil (in_evidence_refs i)) in
  let filled := fill i has_evidence <$> plan_assertions p in
  let filled_policy := fill i has_evidence <$> policy_assertions p in
  let with_dims d :=
    {| plan_id := plan_id p; plan_task_id := plan_task_id p; plan_task_class := plan_task_class p;
       plan_criteria := plan_criteria p; plan_assertions := filled;
       policy_assertions := filled_policy; required_artifact_types := required_artifact_types p;
       generated_by := generated_by p; verifier_versions := verifier_versions p; dimensions := d;
       plan_revision := plan_revision p; plan_created_at := plan_created_at p |} in
  let p' := with_dims (verification_dimensions (with_dims (dimensions p)) has_evidence) in
  let source :=
    if existsb is_external_verifier (in_command_checks i) then VerificationSource.ExternalVerifier
    else VerificationSource.Runtime in
  let independence :=
    if bool_decide (source = VerificationSource.ExternalVerifier) then
      VerificationIndependence.Independent
    else if has_evidence then VerificationIndependence.RuntimeEvidence
    else VerificationIndependence.Unspecified in
  let record :=
    {| vr_verification_id := vr_verification_id record; vr_task_id := vr_task_id record;
       vr_objective := vr_objective record;
       vr_completion_criteria := vr_completion_criteria record; vr_checks := vr_checks record;
       vr_evidence_refs := vr_evidence_refs record; vr_result := vr_result record;
       vr_policy_status := vr_policy_status record; vr_residual_risks := vr_residual_risks record;
       vr_plan_id := Some (plan_id p); vr_assertions := filled ++ filled_policy;
       vr_source := source; vr_independence := independence;
       vr_environment_digest := vr_environment_digest record |} in
  let blocking_failed :=
    existsb (fun a => assertion_blocking a && has_status VerificationAssertionStatus.Fail a)
      (filled ++ filled_policy) in
  let blocking_unresolved :=
    existsb (fun a => assertion_blocking a && negb (has_status VerificationAssertionStatus.Pass a)
                      && negb (has_status VerificationAssertionStatus.Fail a)) filled in
  (if blocking_failed then
     push_risk VerificationResult.Fail "semantic verification has failed blocking assertions" record
   else if blocking_unresolved && bool_decide (vr_result record = VerificationResult.Pass) then
     push_risk VerificationResult.Partial
       "semantic verification has unresolved blocking assertions" record
   else record, p').

(*@ verify/src/lib.rs VerificationRunner::verify *)
Definition verify (new_id : nat -> VerificationAssertionId) (plan_id created_at : N)
    (verification_id : VerificationId) (i : VerificationInput) : VerificationRecord :=
  fst (verify_with_plan verification_id i (plan new_id plan_id created_at i)).

(** ** The latest check of each identity *)

(** Reference definition: a check counts unless a later one has its identity. *)
Fixpoint keep_last (cs : list VerificationCheck) : list VerificationCheck :=
  match cs with
  | [] => []
  | c :: cs' =>
      if bool_decide (check_identity c ∈ (check_identity <$> cs')) then keep_last cs'
      else c :: keep_last cs'
  end.

Fixpoint first_distinct (seen : list string) (cs : list VerificationCheck)
    : list VerificationCheck :=
  match cs with
  | [] => []
  | c :: cs' =>
      if bool_decide (check_identity c ∈ seen) then first_distinct seen cs'
      else c :: first_distinct (check_identity c :: seen) cs'
  end.

Lemma latest_loop_first_distinct cs : forall seen acc,
  latest_loop seen acc cs = acc ++ first_distinct seen cs.
Proof.
  induction cs as [|c cs IH]; intros seen acc; simpl; [by rewrite app_nil_r|].
  destruct (bool_decide _); rewrite IH; [done|]. by rewrite <- app_assoc.
Qed.

Lemma first_distinct_snoc cs c : forall seen,
  first_distinct seen (cs ++ [c]) =
  first_distinct seen cs ++
    (if bool_decide (check_identity c ∈ seen \/ check_identity c ∈ (check_identity <$> cs))
     then [] else [c]).
Proof.
  induction cs as [|d cs IH]; intros seen; simpl.
  - repeat case_bool_decide; try done; exfalso; rewrite ?elem_of_nil in *; tauto.
  - case_bool_decide as Hd; rewrite IH; cbn [app]; [|f_equal]; f_equal;
      apply (f_equal (fun b : bool => if b then [] else [c])), bool_decide_ext;
      rewrite !elem_of_cons; [|tauto]. split; [tauto|]. intros [?|[->|?]]; tauto.
Qed.

Lemma latest_is_keep_last cs : latest_distinct_checks cs = keep_last cs.
Proof.
  unfold latest_distinct_checks. rewrite latest_loop_first_distinct. simpl.
  induction cs as [|c cs IH]; [done|].
  rewrite reverse_cons, first_distinct_snoc, reverse_app, IH. simpl.
  assert (E : check_identity c ∈ (check_identity <$> reverse cs)
              <-> check_identity c ∈ (check_identity <$> cs))
    by (by rewrite fmap_reverse, elem_of_reverse).
  repeat case_bool_decide; try done; exfalso; rewrite ?elem_of_nil in *; tauto.
Qed.

Lemma keep_last_elem c cs :
  c ∈ keep_last cs <->
  exists l1 l2, cs = l1 ++ c :: l2 /\ check_identity c ∉ (check_identity <$> l2).
Proof.
  induction cs as [|d cs IH]; simpl.
  - split; [by intros ?%not_elem_of_nil|]. intros (l1 & l2 & H & _). by destruct l1.
  - assert (Hex : forall l1 l2, d :: cs = l1 ++ c :: l2 ->
              check_identity c ∉ (check_identity <$> l2) ->
              (l1 = [] /\ d = c /\ cs = l2) \/ c ∈ keep_last cs).
    { intros [|x l1] l2 H Hn; simplify_eq/=; [by left|right]. apply IH. eauto. }
    case_bool_decide as Hd.
    + rewrite IH. split.
      * intros (l1 & l2 & -> & Hn). by exists (d :: l1), l2.
      * intros (l1 & l2 & H & Hn). destruct (Hex l1 l2 H Hn) as [(-> & -> & ->)|Hc]; [done|].
        by apply IH.
    + rewrite elem_of_cons, IH. split.
      * intros [->|(l1 & l2 & -> & Hn)]; [by exists [], cs|by exists (d :: l1), l2].
      * intros (l1 & l2 & H & Hn). destruct (Hex l1 l2 H Hn) as [(-> & -> & ->)|Hc]; [by left|].
        right. by apply IH.
Qed.

Lemma keep_last_ids cs s : s ∈ (check_identity <$> keep_last cs) -> s ∈ (check_identity <$> cs).
Proof.
  induction cs as [|c cs IH]; simpl; [done|]. rewrite elem_of_cons. case_bool_decide; [auto|].
  rewrite fmap_cons, elem_of_cons. tauto.
Qed.

(** Re-running a check replaces its earlier verdict. The loop of
    [latest_distinct_checks] keeps a check exactly when no later check has its
    identity, keeps one check per identity, and keeps them in recorded order. *)
Theorem latest_verdict_per_identity cs :
  (forall c, c ∈ latest_distinct_checks cs <->
     exists l1 l2, cs = l1 ++ c :: l2 /\ check_identity c ∉ (check_identity <$> l2)) /\
  NoDup (check_identity <$> latest_distinct_checks cs) /\
  latest_distinct_checks cs `sublist_of` cs.
Proof.
  rewrite latest_is_keep_last. split_and!.
  - intros c. apply keep_last_elem.
  - induction cs as [|c cs IH]; simpl; [constructor|]. case_bool_decide; [done|].
    rewrite fmap_cons. constructor; [|done]. intros ?%keep_last_ids. done.
  - induction cs as [|c cs IH]; simpl; [constructor|]. case_bool_decide; by constructor.
Qed.

(** ** What a pass means *)

(** The authoritative checks are among the recorded ones. *)
Lemma latest_in c cs : c ∈ latest_distinct_checks cs -> c ∈ cs.
Proof.
  rewrite latest_is_keep_last, keep_last_elem. intros (l1 & l2 & -> & _).
  apply elem_of_app. right. apply list_elem_of_here.
Qed.

Lemma authoritative_in c cs : c ∈ authoritative_objective_checks cs -> c ∈ cs.
Proof.
  unfold authoritative_objective_checks. destruct (negb _); [apply latest_in|].
  intros [H _]%elem_of_lfilter. by apply latest_in.
Qed.

(** A contract check that is the last of its identity stays authoritative, also
    beside an external verifier of the same command. *)
Lemma contract_authoritative c l1 l2 :
  is_contract_objective_check c = true -> check_identity c ∉ (check_identity <$> l2) ->
  c ∈ authoritative_objective_checks (l1 ++ c :: l2).
Proof.
  intros Hc Hn.
  assert (Hl : c ∈ latest_distinct_checks (l1 ++ c :: l2))
    by (rewrite latest_is_keep_last, keep_last_elem; eauto).
  unfold authoritative_objective_checks. destruct (negb _); [done|].
  apply elem_of_lfilter. split; [done|]. rewrite Hc. by rewrite orb_true_r.
Qed.

Lemma fill_fields i h a :
  assertion_blocking (fill i h a) = assertion_blocking a /\
  assertion_status_field (fill i h a) = fst (fst (assertion_status a i h)).
Proof. unfold fill. by destruct (assertion_status a i h) as [[? ?] ?]. Qed.

(** The verdict in terms of the statuses. *)
Lemma verify_pass_inv vid i p :
  vr_result (fst (verify_with_plan vid i p)) = VerificationResult.Pass ->
  let h := negb (is_nil (in_evidence_refs i)) in
  legacy_result i = VerificationResult.Pass /\
  (forall a, a ∈ plan_assertions p -> assertion_blocking a = true ->
     fst (fst (assertion_status a i h)) = VerificationAssertionStatus.Pass) /\
  (forall a, a ∈ policy_assertions p -> assertion_blocking a = true ->
     fst (fst (assertion_status a i h)) <> VerificationAssertionStatus.Fail).
Proof.
  intros H h. unfold verify_with_plan in H. cbn [fst] in H. fold h in H.
  destruct (existsb _ (_ ++ _)) eqn:Ef; [done|]. rewrite existsb_none in Ef.
  assert (Hfail : forall a, a ∈ plan_assertions p ++ policy_assertions p ->
    assertion_blocking a = true ->
    fst (fst (assertion_status a i h)) <> VerificationAssertionStatus.Fail).
  { intros a Ha Hb Hs. rewrite <- fmap_app in Ef.
    specialize (Ef (fill i h a) ltac:(by apply list_elem_of_fmap_2)).
    destruct (fill_fields i h a) as [E1 E2]. unfold has_status in Ef.
    rewrite E1, E2, Hb, Hs in Ef. done. }
  destruct (existsb _ _) eqn:Eu; simpl in H.
  { destruct (bool_decide _) eqn:Er; [done|]. boolhyps. done. }
  rewrite existsb_none in Eu. split_and!; [done| |].
  - intros a Ha Hb. specialize (Eu (fill i h a) ltac:(by apply list_elem_of_fmap_2)).
    destruct (fill_fields i h a) as [E1 E2]. unfold has_status in Eu. rewrite E1, E2, Hb in Eu.
    assert (Hn := Hfail a ltac:(apply elem_of_app; by left) Hb).
    rewrite (bool_decide_eq_false_2 _ Hn) in Eu. simpl in Eu. rewrite andb_true_r in Eu. by boolhyps.
  - intros a Ha. apply Hfail. apply elem_of_app. by right.
Qed.

Lemma plan_assertion_elem new_id pid t i k sp :
  plan_specs i !! k = Some sp -> of_spec (new_id k) sp ∈ plan_assertions (plan new_id pid t i).
Proof.
  intros H. simpl. apply list_elem_of_lookup. exists k. by rewrite list_lookup_imap, H.
Qed.

(** A passed validation assertion: nothing failed, something passed, with evidence. *)
Lemma validation_pass a i h :
  fst (fst (validation_status a i h)) = VerificationAssertionStatus.Pass ->
  h = true /\ Forall (fun c => check_passed c = true) (validation_checks a i) /\
  exists c, c ∈ validation_checks a i /\ check_passed c = true.
Proof.
  unfold validation_status. destruct (List.filter _ _) as [|f fs] eqn:Ef; [|done].
  destruct (existsb check_passed _ && h) eqn:Ee; [|done]. intros _.
  apply andb_true_iff in Ee as [Ee ->]. apply existsb_elem in Ee. split_and!; [done| |done].
  apply Forall_forall. intros c Hc. destruct (check_passed c) eqn:Ep; [done|].
  assert (Hin : c ∈ List.filter (fun c => negb (check_passed c)) (validation_checks a i))
    by (apply elem_of_lfilter; by rewrite Ep).
  rewrite Ef in Hin. by apply not_elem_of_nil in Hin.
Qed.

Lemma validation_checks_in a i c :
  c ∈ validation_checks a i ->
  c ∈ in_command_checks i /\ is_kind VerificationCheckKind.ObjectiveValidation c = true /\
  is_unknown_objective_check c = false /\ validates a c = true.
Proof.
  intros H%authoritative_in. rewrite !elem_of_lfilter in H.
  destruct H as [[[? ?] Hu%negb_true_iff] ?]. done.
Qed.

Lemma code_change_pass i :
  in_code_files_changed i = true -> legacy_result i = VerificationResult.Pass ->
  in_evidence_refs i <> [] /\ objective_checks_passed i = true.
Proof.
  unfold legacy_result. intros ->. simpl.
  destruct (in_evidence_refs i), (objective_checks_passed i),
    (passed_check _ VerificationCheckKind.ToolExecution),
    (passed_check _ VerificationCheckKind.WorkspaceChange); done.
Qed.

(** C4 (safety): a code change is never accepted on the model's word. If code files
    changed and the verifier answers [Pass], then there is evidence; a workspace
    change was recorded and is linked to evidence of its own; a test, a diagnostic or
    the external verifier ran for it and passed, and every authoritative objective
    check passed; every schema check passed; and no policy check failed. *)
Theorem passed_code_change_is_evidenced new_id pid t vid i :
  in_code_files_changed i = true ->
  vr_result (verify new_id pid t vid i) = VerificationResult.Pass ->
  in_evidence_refs i <> [] /\
  (exists c, c ∈ in_command_checks i /\ check_kind c = VerificationCheckKind.WorkspaceChange /\
     check_passed c = true /\ check_evidence_refs c <> []) /\
  (exists c, c ∈ in_command_checks i /\
     check_kind c = VerificationCheckKind.ObjectiveValidation /\ check_passed c = true /\
     (is_external_verifier c || is_test_name (check_name c) || is_diagnostic_name (check_name c))
       = true) /\
  Forall (fun c => check_passed c = true)
    (authoritative_objective_checks
       (List.filter (is_kind VerificationCheckKind.ObjectiveValidation) (in_command_checks i))) /\
  (forall c, c ∈ in_command_checks i -> check_kind c = VerificationCheckKind.Schema ->
     check_passed c = true) /\
  (forall c, c ∈ in_command_checks i -> check_kind c = VerificationCheckKind.Policy ->
     check_passed c = true).
Proof.
  intros Hcode H. apply verify_pass_inv in H as (Hl & Hpass & Hpol).
  destruct (code_change_pass i Hcode Hl) as [Hev Hobj].
  assert (Hcl : classify_task i = TaskClass.CodeChange) by (unfold classify_task; by rewrite Hcode).
  assert (Hsp : forall k sp, class_specs TaskClass.CodeChange i !! k = Some sp ->
    plan_specs i !! k = Some sp).
  { intros k sp Hk. unfold plan_specs. rewrite Hcl. by apply lookup_app_l_Some. }
  split_and!; [done| | | | |].
  - specialize (Hpass _ (plan_assertion_elem new_id pid t i 0 _ (Hsp 0%nat _ eq_refl)) eq_refl).
    cbn in Hpass. unfold change_status in Hpass.
    destruct (existsb _ _) eqn:E in Hpass; [|by destruct (existsb check_passed _)].
    apply existsb_elem in E as (c & [Hc Hk]%elem_of_lfilter & Hp). boolhyps.
    exists c. split_and!; [done|by apply bool_decide_eq_true in Hk|done|].
    by destruct (check_evidence_refs c).
  - specialize (Hpass _ (plan_assertion_elem new_id pid t i 2 _ (Hsp 2%nat _ eq_refl)) eq_refl).
    apply validation_pass in Hpass as (_ & _ & c & Hc & Hp).
    apply validation_checks_in in Hc as (Hin & Hk & _ & Hv). exists c.
    split_and!; [done|by apply bool_decide_eq_true in Hk|done|].
    unfold validates in Hv. cbn in Hv. revert Hv.
    destruct (is_external_verifier c), (is_test_name _), (is_diagnostic_name _); done.
  - unfold objective_checks_passed in Hobj. boolhyps. by apply forallb_elem.
  - intros c Hc Hk. destruct (check_passed c) eqn:Ep; [done|exfalso].
    assert (Hex : existsb (is_kind VerificationCheckKind.Schema) (in_command_checks i) = true).
    { apply existsb_elem. exists c. split; [done|]. by apply bool_decide_eq_true. }
    assert (Hin : ("output_schema", VerificationAssertionKind.Schema, "assistant output",
             "the final assistant response validates against the requested JSON Schema", true)
             ∈ plan_specs i).
    { unfold plan_specs. rewrite Hex. rewrite !elem_of_app. do 4 right. apply list_elem_of_here. }
    apply list_elem_of_lookup in Hin as [k Hk'].
    specialize (Hpass _ (plan_assertion_elem new_id pid t i k _ Hk') eq_refl).
    cbn in Hpass. unfold schema_status in Hpass.
    rewrite (proj2 (existsb_elem _ _)) in Hpass; [done|]. exists c. rewrite elem_of_lfilter, Ep.
    split_and!; [done|by apply bool_decide_eq_true|done].
  - intros c Hc Hk. destruct (check_passed c) eqn:Ep; [done|exfalso].
    apply (Hpol _ (list_elem_of_here _ _) eq_refl). cbn. unfold policy_check_status.
    rewrite (proj2 (existsb_elem _ _)); [done|]. exists c. rewrite elem_of_lfilter, Ep.
    split_and!; [done| |done]. unfold is_kind. by rewrite (bool_decide_eq_true_2 _ Hk).
Qed.

Definition passing_input : VerificationInput :=
  mkInput 1 "fix the parser" ["tests pass"] [7]
    [mkVerificationCheck VerificationCheckKind.ObjectiveValidation "objective:test:cargo"
       (Some "cargo test") false [7] "1 failed";
     mkVerificationCheck VerificationCheckKind.WorkspaceChange "workspace_diff" None true [7] "";
     mkVerificationCheck VerificationCheckKind.ObjectiveValidation "objective:test:cargo"
       (Some "cargo test") true [7] "ok"] true true.

Lemma passed_code_change_is_evidenced_witness :
  in_evidence_refs passing_input <> [] /\
  Forall (fun c => check_passed c = true)
    (authoritative_objective_checks
       (List.filter (is_kind VerificationCheckKind.ObjectiveValidation)
          (in_command_checks passing_input))).
Proof.
  destruct (passed_code_change_is_evidenced N.of_nat 1 2 3 passing_input)
    as (H1 & _ & _ & H2 & _); [reflexivity|vm_compute; reflexivity|].
  exact (conj H1 H2).
Defined.

(** ** Contract checks cannot be overruled *)

Lemma prefix_of_prefix p : forall q s,
  starts_with p s = true -> starts_with q s = true -> (String.length p <= String.length q)%nat ->
  starts_with p q = true.
Proof.
  unfold starts_with. induction p as [|a p IH]; intros q s Hp Hq Hl; [by destruct q|].
  destruct q as [|b q]; [simpl in Hl; lia|]. destruct s as [|c s]; [done|]. simpl in *.
  destruct (Ascii.ascii_dec a c) as [->|]; [|done]. destruct (Ascii.ascii_dec b c) as [->|]; [|done].
  destruct (Ascii.ascii_dec c c); [|done]. apply (IH q s); [done|done|lia].
Qed.

Lemma prefix_trans p : forall q s,
  starts_with p q = true -> starts_with q s = true -> starts_with p s = true.
Proof.
  unfold starts_with. induction p as [|a p IH]; intros q s Hp Hq; [by destruct s|].
  destruct q as [|b q]; [done|]. destruct s as [|c s]; [done|]. simpl in *.
  destruct (Ascii.ascii_dec a b) as [->|]; [|done]. destruct (Ascii.ascii_dec b c); [|done].
  by apply (IH q s).
Qed.

Lemma content_check_names c :
  is_content_name (check_name c) = true ->
  is_contract_objective_check c = true /\ is_unknown_objective_check c = false /\
  starts_with "objective:" (check_name c) = true.
Proof.
  intros H. unfold is_content_name in H. split_and!.
  - unfold is_contract_objective_check. rewrite H. by rewrite orb_true_r.
  - unfold is_unknown_objective_check. destruct (is_kind _ _); [|done]. simpl.
    destruct (starts_with "objective:unknown:" (check_name c)) eqn:E; [|done].
    discriminate (prefix_of_prefix _ _ _ E H (le_n _)).
  - by apply (prefix_trans _ "objective:content:").
Qed.

(** Filtering keeps the last check of an identity last. *)
Lemma filter_keeps_last f c l1 l2 :
  f c = true -> check_identity c ∉ (check_identity <$> l2) ->
  exists l1' l2', List.filter f (l1 ++ c :: l2) = l1' ++ c :: l2' /\
    check_identity c ∉ (check_identity <$> l2').
Proof.
  intros Hf Hn. exists (List.filter f l1), (List.filter f l2). split.
  - rewrite List.filter_app. simpl. by rewrite Hf.
  - intros (d & Hd & [Hin _]%elem_of_lfilter)%list_elem_of_fmap. apply Hn. rewrite Hd.
    by apply list_elem_of_fmap_2.
Qed.

(** A validation assertion that looks at a failed content check is not passed. *)
Lemma failed_content_fails_assertion a i h c l1 l2 :
  in_command_checks i = l1 ++ c :: l2 ->
  check_kind c = VerificationCheckKind.ObjectiveValidation ->
  is_content_name (check_name c) = true -> check_passed c = false ->
  check_identity c ∉ (check_identity <$> l2) -> validates a c = true ->
  fst (fst (validation_status a i h)) <> VerificationAssertionStatus.Pass.
Proof.
  intros Hcs Hk Hname Hp Hn Hv H%validation_pass. destruct H as (_ & Hall & _).
  destruct (content_check_names c Hname) as (Hc & Hu & _).
  unfold validation_checks in Hall. rewrite Hcs in Hall.
  edestruct (filter_keeps_last (is_kind VerificationCheckKind.ObjectiveValidation) c l1 l2)
    as (x1 & x2 & E1 & N1); [by apply bool_decide_eq_true|done|]. rewrite E1 in Hall.
  edestruct (filter_keeps_last (fun c => negb (is_unknown_objective_check c)) c x1 x2)
    as (y1 & y2 & E2 & N2); [by rewrite Hu|done|]. rewrite E2 in Hall.
  edestruct (filter_keeps_last (validates a) c y1 y2) as (z1 & z2 & E3 & N3); [done|done|].
  rewrite E3, Forall_forall in Hall. specialize (Hall c (contract_authoritative c z1 z2 Hc N3)).
  congruence.
Qed.

(** Where the plan of a non-conversation task looks at content checks. *)
Lemma content_assertion_planned i c :
  c ∈ in_command_checks i -> check_kind c = VerificationCheckKind.ObjectiveValidation ->
  is_content_name (check_name c) = true -> in_code_files_changed i = false ->
  exists k sp, plan_specs i !! k = Some sp /\ forall id,
    assertion_blocking (of_spec id sp) = true /\ validates (of_spec id sp) c = true /\
    assertion_kind (of_spec id sp) = VerificationAssertionKind.Diagnostic.
Proof.
  intros Hc Hk Hname Hcode. destruct (content_check_names c Hname) as (_ & _ & Hobj).
  assert (Hnil : is_nil (in_command_checks i) = false)
    by (by destruct (in_command_checks i); [apply not_elem_of_nil in Hc|]).
  assert (Hex : existsb (is_kind VerificationCheckKind.ObjectiveValidation) (in_command_checks i) = true).
  { apply existsb_elem. exists c. split; [done|]. by apply bool_decide_eq_true. }
  assert (Hclass : classify_task i = TaskClass.WorkspaceChange \/
                   classify_task i = TaskClass.ReadOnlyAnalysis).
  { unfold classify_task. rewrite Hcode. repeat case_match; auto. exfalso. boolhyps.
    rewrite forallb_elem, Forall_forall in *. specialize (H2 c Hc). by rewrite Hk in H2. }
  unfold plan_specs. destruct Hclass as [->| ->]; exists 2%nat.
  - eexists. split; [reflexivity|]. intros id. split_and!; [done| |done]. unfold validates. cbn.
    rewrite Hname. by rewrite !orb_true_r.
  - eexists. split; [unfold class_specs; rewrite Hnil, Hex; reflexivity|]. intros id.
    split_and!; [done| |done]. unfold validates. cbn. rewrite Hobj. by rewrite !orb_true_r.
Qed.

Lemma delivery_paths_matches a c :
  criterion_id a = "delivery_paths" -> check_name c = "objective:path:delivery" ->
  delivery_check_matches a c = true.
Proof.
  intros Ha Hc. unfold delivery_check_matches.
  rewrite (bool_decide_eq_true_2 _ Ha). by apply bool_decide_eq_true.
Qed.

(** A failed contract check cannot be overruled. If a required delivery
    path check failed, or the last content check of a required file failed, then the
    verifier does not answer [Pass], for any class of task, whatever the other checks
    and an external verifier say. *)
Theorem failed_contract_check_blocks_pass new_id pid t vid i c l1 l2 :
  in_command_checks i = l1 ++ c :: l2 ->
  check_kind c = VerificationCheckKind.ObjectiveValidation -> check_passed c = false ->
  check_name c = "objective:path:delivery" \/
  (is_content_name (check_name c) = true /\ check_identity c ∉ (check_identity <$> l2)) ->
  vr_result (verify new_id pid t vid i) <> VerificationResult.Pass.
Proof.
  intros Hcs Hk Hp Hname H. apply verify_pass_inv in H as (Hl & Hpass & _).
  assert (Hc : c ∈ in_command_checks i)
    by (rewrite Hcs; apply elem_of_app; right; apply list_elem_of_here).
  destruct Hname as [Hname|[Hname Hn]].
  - assert (Hin : ("delivery_paths", VerificationAssertionKind.Delivery, "requested delivery paths",
             "all explicitly requested delivery paths are present in the workspace change", true)
             ∈ plan_specs i).
    { unfold plan_specs. rewrite (proj2 (existsb_elem _ _));
        [rewrite !elem_of_app; right; left; apply list_elem_of_here|].
      exists c. split; [done|]. by apply bool_decide_eq_true. }
    apply list_elem_of_lookup in Hin as [k Hk'].
    specialize (Hpass _ (plan_assertion_elem new_id pid t i k _ Hk') eq_refl).
    cbn in Hpass. unfold delivery_status in Hpass.
    rewrite (proj2 (existsb_elem _ _)) in Hpass; [done|]. exists c. rewrite elem_of_lfilter, Hp.
    split_and!; [done|by apply delivery_paths_matches|by apply bool_decide_eq_true].
  - destruct (in_code_files_changed i) eqn:Hcode.
    + destruct (code_change_pass i Hcode Hl) as [_ Hobj]. unfold objective_checks_passed in Hobj.
      boolhyps. rewrite forallb_elem, Hcs in H0.
      edestruct (filter_keeps_last (is_kind VerificationCheckKind.ObjectiveValidation) c l1 l2)
        as (x1 & x2 & E1 & N1); [by apply bool_decide_eq_true|done|]. rewrite E1 in H0.
      destruct (content_check_names c Hname) as (Hcc & _).
      rewrite Forall_forall in H0. specialize (H0 c (contract_authoritative c x1 x2 Hcc N1)).
      congruence.
    + destruct (content_assertion_planned i c Hc Hk Hname Hcode) as (k & sp & Hsp & Ha).
      destruct (Ha (new_id k)) as (Hb & Hv & Hkind).
      specialize (Hpass _ (plan_assertion_elem new_id pid t i k _ Hsp) Hb).
      unfold assertion_status in Hpass. rewrite Hkind in Hpass. revert Hpass.
      by eapply failed_content_fails_assertion.
Qed.

Lemma failed_contract_check_blocks_pass_witness :
  vr_result (verify N.of_nat 1 2 3
    (mkInput 1 "write result.txt" [] [7]
       [mkVerificationCheck VerificationCheckKind.WorkspaceChange "workspace_diff" None true [7] "";
        mkVerificationCheck VerificationCheckKind.ObjectiveValidation "objective:content:write_file"
          (Some "result.txt") false [7] "content differs";
        mkVerificationCheck VerificationCheckKind.ObjectiveValidation
          "objective:test:external_verifier" (Some "result.txt") true [7] "ok"] true false))
  <> VerificationResult.Pass.
Proof.
  eapply (failed_contract_check_blocks_pass N.of_nat 1 2 3 _
    (mkVerificationCheck VerificationCheckKind.ObjectiveValidation "objective:content:write_file"
       (Some "result.txt") false [7] "content differs")
    [mkVerificationCheck VerificationCheckKind.WorkspaceChange "workspace_diff" None true [7] ""]);
    [reflexivity|reflexivity|reflexivity|].
  right. split; [reflexivity|]. by apply (bool_decide_unpack (_ ∉ _)).
Defined.

(** ** The summary of a verdict *)

Lemma aggregate_all_pass l :
  Forall (fun a => assertion_status_field a = VerificationAssertionStatus.Pass) l ->
  aggregate_dimension l =
  if is_nil l then VerificationDimensionStatus.Unknown else VerificationDimensionStatus.Pass.
Proof.
  intros H. unfold aggregate_dimension.
  apply (proj2 (Forall_fmap _ (fun s => s = VerificationAssertionStatus.Pass) l)) in H.
  assert (Hn : forall s, s <> VerificationAssertionStatus.Pass ->
    bool_decide (s ∈ (assertion_status_field <$> l)) = false).
  { intros s Hs. apply bool_decide_eq_false_2. intros Hin.
    rewrite Forall_forall in H. by apply Hs, H. }
  rewrite !Hn by done. destruct l as [|a l]; [done|]. cbn [is_nil fmap list_fmap].
  rewrite (proj2 (forallb_elem _ _)); [done|]. eapply Forall_impl; [exact H|].
  simpl. intros x ->. done.
Qed.

Lemma is_nil_blocking i h l :
  is_nil (List.filter assertion_blocking (fill i h <$> l)) = negb (existsb assertion_blocking l).
Proof.
  induction l as [|a l IH]; [done|]. rewrite fmap_cons. simpl.
  destruct (fill_fields i h a) as [-> _]. by destruct (assertion_blocking a).
Qed.

Lemma aggregate_fail l :
  aggregate_dimension (List.filter assertion_blocking l) = VerificationDimensionStatus.Fail ->
  existsb (fun a => assertion_blocking a && has_status VerificationAssertionStatus.Fail a) l = true.
Proof.
  unfold aggregate_dimension. cbv zeta. intros H.
  destruct (is_nil _) in H; [discriminate H|].
  destruct (bool_decide (_ ∈ _)) eqn:Hf in H; [|by repeat case_hyp H].
  apply bool_decide_eq_true in Hf.
  apply list_elem_of_fmap in Hf as (a & Ha & [Hin Hb]%elem_of_lfilter).
  apply existsb_elem. exists a. split; [done|]. unfold has_status. rewrite Hb.
  by apply bool_decide_eq_true.
Qed.

(** The dimensions the plan reports agree with the verdict. The
    objective dimension is [Fail] only if the verdict is [Fail], and a [Pass] verdict
    has a passed objective dimension, or an unknown one when the plan has no blocking
    assertion; a failed policy dimension makes the verdict [Fail]. *)
Theorem dimensions_agree_with_verdict vid i p :
  let '(record, p') := verify_with_plan vid i p in
  (objective_status (dimensions p') = VerificationDimensionStatus.Fail \/
   policy_status (dimensions p') = VerificationDimensionStatus.Fail ->
     vr_result record = VerificationResult.Fail) /\
  (vr_result record = VerificationResult.Pass ->
     objective_status (dimensions p') =
       (if existsb assertion_blocking (plan_assertions p)
        then VerificationDimensionStatus.Pass else VerificationDimensionStatus.Unknown)).
Proof.
  destruct (verify_with_plan vid i p) as [record p'] eqn:E.
  assert (Hr : record = fst (verify_with_plan vid i p)) by (by rewrite E).
  set (h := negb (is_nil (in_evidence_refs i))).
  assert (Hp' : objective_status (dimensions p') =
      aggregate_dimension (List.filter assertion_blocking (fill i h <$> plan_assertions p)) /\
    policy_status (dimensions p') =
      aggregate_dimension (List.filter assertion_blocking (fill i h <$> policy_assertions p))).
  { unfold verify_with_plan in E. by simplify_eq. }
  destruct Hp' as [Ho Hpo]. rewrite Ho, Hpo.
  split.
  - intros Hf. rewrite Hr. unfold verify_with_plan. cbn [fst]. fold h.
    rewrite existsb_app. destruct Hf as [Hf|Hf]; rewrite (aggregate_fail _ Hf); [done|].
    by rewrite orb_true_r.
  - intros Hpass. rewrite Hr in Hpass. apply verify_pass_inv in Hpass as (_ & Hall & _). fold h in Hall.
    rewrite aggregate_all_pass.
    + rewrite is_nil_blocking. by destruct (existsb _ _).
    + apply Forall_forall. intros x [Hx Hb]%elem_of_lfilter.
      apply list_elem_of_fmap in Hx as (a & -> & Ha). destruct (fill_fields i h a) as [Eb Es].
      rewrite Es. apply Hall; [done|]. by rewrite <- Eb.
Qed.
