(* ===== verification/Governed.v ===== *)
(** * Governed verification

    [golutra-agent-runtime/src/verification.rs]: the runtime's policy boundary
    around the verifier. The plan is narrowed to what the task contract asks for
    and to the validation that was observed; the verifier's record then passes the
    policy gate and the contract gate, which alone decide the final result. *)
From S2P Require Import Prelude RustStr Core TaskContract Verify.
Open Scope N_scope.

(** ** The governed plan *)

(*@ runtime/src/verification.rs:38-42 RuntimeVerificationService::plan_governed *)
Definition tests_or_diagnostics_observed (i : VerificationInput) : bool :=
  existsb (fun c => is_kind VerificationCheckKind.ObjectiveValidation c
                    && (is_test_name (check_name c) || is_diagnostic_name (check_name c)))
    (in_command_checks i).

(*@ runtime/src/verification.rs:43-46 RuntimeVerificationService::plan_governed *)
Definition content_validation_observed (i : VerificationInput) : bool :=
  existsb (fun c => is_kind VerificationCheckKind.ObjectiveValidation c
                    && is_content_name (check_name c)) (in_command_checks i).

(*@ runtime/src/verification.rs:47-57 RuntimeVerificationService::plan_governed *)
Definition retained (i : VerificationInput) (contract : TaskContract)
    (a : VerificationAssertion) : bool :=
  if require_objective_validation contract then true
  else if bool_decide (criterion_id a = "workspace_validation") then
    tests_or_diagnostics_observed i || content_validation_observed i
  else if bool_decide (criterion_id a = "tests_or_diagnostics")
          || bool_decide (criterion_id a = "effect_validation") then
    tests_or_diagnostics_observed i
  else true.

(*@ runtime/src/verification.rs RuntimeVerificationService::plan_governed *)
Definition plan_governed (new_id : nat -> VerificationAssertionId) (plan_id created_at : N)
    (i : VerificationInput) (contract : TaskContract) : VerificationPlan :=
  let p := plan new_id plan_id created_at i in
  {| Verify.plan_id := Verify.plan_id p; plan_task_id := plan_task_id p;
     plan_task_class := plan_task_class p; plan_criteria := plan_criteria p;
     plan_assertions := List.filter (retained i contract) (plan_assertions p);
     policy_assertions := policy_assertions p;
     required_artifact_types := required_artifact_types p; generated_by := generated_by p;
     verifier_versions := verifier_versions p; dimensions := dimensions p;
     plan_revision := plan_revision p; plan_created_at := plan_created_at p |}.

(** ** The gates *)

(** Assignments to the result, the policy status and the risks of a record. *)
Definition with_verdict (rec : VerificationRecord) (result : VerificationResult)
    (policy : string) (risks : list string) : VerificationRecord :=
  {| vr_verification_id := vr_verification_id rec; vr_task_id := vr_task_id rec;
     vr_objective := vr_objective rec; vr_completion_criteria := vr_completion_criteria rec;
     vr_checks := vr_checks rec; vr_evidence_refs := vr_evidence_refs rec; vr_result := result;
     vr_policy_status := policy; vr_residual_risks := risks; vr_plan_id := vr_plan_id rec;
     vr_assertions := vr_assertions rec; vr_source := vr_source rec;
     vr_independence := vr_independence rec; vr_environment_digest := vr_environment_digest rec |}.

Definition with_environment (rec : VerificationRecord) (independence : VerificationIndependence)
    (digest : option string) : VerificationRecord :=
  {| vr_verification_id := vr_verification_id rec; vr_task_id := vr_task_id rec;
     vr_objective := vr_objective rec; vr_completion_criteria := vr_completion_criteria rec;
     vr_checks := vr_checks rec; vr_evidence_refs := vr_evidence_refs rec;
     vr_result := vr_result rec; vr_policy_status := vr_policy_status rec;
     vr_residual_risks := vr_residual_risks rec; vr_plan_id := vr_plan_id rec;
     vr_assertions := vr_assertions rec; vr_source := vr_source rec;
     vr_independence := independence; vr_environment_digest := digest |}.

(*@ runtime/src/verification.rs:81-85 RuntimeVerificationService::verify_governed *)
Definition workspace_changed (i : VerificationInput) : bool :=
  in_code_files_changed i
  || passed_check (in_command_checks i) VerificationCheckKind.WorkspaceChange.

(*@ runtime/src/verification.rs:86-89 RuntimeVerificationService::verify_governed *)
Definition objective_validated (i : VerificationInput) : bool :=
  passed_check (in_command_checks i) VerificationCheckKind.ObjectiveValidation.

(*@ runtime/src/verification.rs:91-94 RuntimeVerificationService::verify_governed *)
Definition external_verified (i : VerificationInput) : bool :=
  existsb (fun c => is_external_verifier c && check_passed c) (in_command_checks i).

(*@ runtime/src/verification.rs:98-108 RuntimeVerificationService::verify_governed *)
Definition assertion_satisfied (a : VerificationAssertion) : bool :=
  has_status VerificationAssertionStatus.Pass a
  || has_status VerificationAssertionStatus.NotApplicable a.

Definition blocking_assertions_satisfied (p : VerificationPlan) : bool :=
  forallb assertion_satisfied
    (List.filter assertion_blocking (plan_assertions p ++ policy_assertions p)).

(*@ runtime/src/verification.rs:110-114 RuntimeVerificationService::verify_governed *)
Definition recorded_policy_status (p : VerificationPlan) : option VerificationAssertionStatus :=
  assertion_status_field <$>
    List.find (fun a => bool_decide (criterion_id a = "policy")) (policy_assertions p).

(*@ runtime/src/verification.rs:115-135 RuntimeVerificationService::verify_governed *)
Definition policy_gate (status : option VerificationAssertionStatus) (rec : VerificationRecord)
    : VerificationRecord :=
  match status with
  | Some VerificationAssertionStatus.Fail =>
      with_verdict rec VerificationResult.Fail "policy_blocked"
        (vr_residual_risks rec ++ ["a blocking policy decision was recorded"])
  | Some VerificationAssertionStatus.Unknown | None =>
      with_verdict rec
        (if bool_decide (vr_result rec = VerificationResult.Pass) then VerificationResult.Partial
         else vr_result rec)
        "policy_unknown" (vr_residual_risks rec ++ ["policy decision evidence is missing"])
  | Some VerificationAssertionStatus.Pass | Some VerificationAssertionStatus.Pending
  | Some VerificationAssertionStatus.NotApplicable => rec
  end.

(*@ runtime/src/verification.rs:137-154 RuntimeVerificationService::verify_governed *)
Definition contract_failures (contract : TaskContract) (i : VerificationInput) : list string :=
  match workspace_change contract with
  | WorkspaceChangeRequirement.Required =>
      if workspace_changed i then [] else ["task contract requires a workspace change"]
  | WorkspaceChangeRequirement.Forbidden =>
      if workspace_changed i then ["task contract forbids workspace changes"] else []
  | WorkspaceChangeRequirement.Optional => []
  end
  ++ (if require_objective_validation contract && negb (objective_validated i)
      then ["task contract requires objective validation"] else [])
  ++ (if requires_independent_verification contract && negb (external_verified i)
      then ["task contract requires an independent verifier"] else []).

Definition without_risk (risk : string) (risks : list string) : list string :=
  List.filter (fun r => negb (bool_decide (r = risk))) risks.

(*@ runtime/src/verification.rs:156-192 RuntimeVerificationService::verify_governed *)
Definition contract_gate (contract : TaskContract) (i : VerificationInput)
    (blocking_satisfied : bool) (rec : VerificationRecord) : VerificationRecord :=
  let failures := contract_failures contract i in
  let risks := vr_residual_risks rec in
  if negb (is_nil failures) then
    with_verdict rec VerificationResult.Fail "task_contract_failed" (risks ++ failures)
  else if bool_decide (vr_policy_status rec = "policy_unknown") then
    with_verdict rec (vr_result rec) (vr_policy_status rec)
      (risks ++ ["task contract cannot be satisfied without policy evidence"])
  else if negb (bool_decide (vr_policy_status rec = "policy_blocked")) then
    let independence :=
      if requires_independent_verification contract then VerificationIndependence.Independent
      else vr_independence rec in
    let partial := bool_decide (vr_result rec = VerificationResult.Partial) in
    let '(result, risks) :=
      if partial && workspace_changed i && negb (require_objective_validation contract)
         && blocking_satisfied && negb (in_code_files_changed i) then
        (VerificationResult.Pass, without_risk "some objective checks failed" risks)
      else if partial && in_code_files_changed i && negb (objective_validated i) then
        (vr_result rec,
         without_risk "some objective checks failed" risks
           ++ ["behavioral changes were not objectively validated"])
      else (vr_result rec, risks) in
    with_environment (with_verdict rec result "task_contract_satisfied" risks) independence
      (vr_environment_digest rec)
  else rec.

(*@ runtime/src/verification.rs RuntimeVerificationService::verify_governed *)
Definition verify_governed (verification_id : VerificationId) (i : VerificationInput)
    (p : VerificationPlan) (contract : TaskContract) (environment_digest : string)
    : VerificationRecord * VerificationPlan :=
  let '(record, p') := verify_with_plan verification_id i p in
  let record := with_environment record (vr_independence record) (Some environment_digest) in
  (contract_gate contract i (blocking_assertions_satisfied p')
     (policy_gate (recorded_policy_status p') record), p').

(** The verification record of a runtime failure. *)
(*@ runtime/src/verification.rs:213-233 RuntimeVerificationService::verify_runtime_failure *)
Definition runtime_failure_input (task_id : TaskId) (objective : string)
    (completion_criteria : list string) (requires_workspace_evidence : bool) (reason : string)
    : VerificationInput :=
  mkInput task_id objective completion_criteria []
    [mkVerificationCheck
       (if requires_workspace_evidence then VerificationCheckKind.ObjectiveValidation
        else VerificationCheckKind.AssistantResponse)
       "runtime_execution" None false [] reason]
    requires_workspace_evidence false.

(*@ runtime/src/verification.rs RuntimeVerificationService::verify_runtime_failure *)
Definition verify_runtime_failure (new_id : nat -> VerificationAssertionId)
    (plan_id created_at : N) (verification_id : VerificationId) (task_id : TaskId)
    (objective : string) (completion_criteria : list string)
    (requires_workspace_evidence : bool) (reason : string)
    : VerificationRecord * VerificationPlan :=
  let i := runtime_failure_input task_id objective completion_criteria
             requires_workspace_evidence reason in
  let '(record, p') := verify_with_plan verification_id i (plan new_id plan_id created_at i) in
  let risks := vr_residual_risks record in
  (with_verdict record VerificationResult.Fail "runtime_failed"
     (if bool_decide (reason ∈ risks) then risks else risks ++ [reason]), p').

(** ** When the gates let a pass through *)

Lemma verify_with_plan_result vid i p :
  let h := negb (is_nil (in_evidence_refs i)) in
  let filled := fill i h <$> plan_assertions p in
  let filled_policy := fill i h <$> policy_assertions p in
  vr_result (fst (verify_with_plan vid i p)) =
  (if existsb (fun a => assertion_blocking a && has_status VerificationAssertionStatus.Fail a)
        (filled ++ filled_policy) then VerificationResult.Fail
   else if existsb (fun a => assertion_blocking a
             && negb (has_status VerificationAssertionStatus.Pass a)
             && negb (has_status VerificationAssertionStatus.Fail a)) filled
           && bool_decide (legacy_result i = VerificationResult.Pass)
   then VerificationResult.Partial else legacy_result i).
Proof.
  cbv zeta. unfold verify_with_plan. cbn [fst].
  destruct (existsb _ (_ ++ _)); [done|]. by destruct (existsb _ _ && _).
Qed.

Lemma verify_with_plan_policy vid i p :
  vr_policy_status (fst (verify_with_plan vid i p)) = "p0_policy_checked".
Proof.
  unfold verify_with_plan. cbn [fst].
  destruct (existsb _ (_ ++ _)); [done|]. by destruct (existsb _ _ && _).
Qed.

Lemma verify_with_plan_filled vid i p :
  let h := negb (is_nil (in_evidence_refs i)) in
  plan_assertions (snd (verify_with_plan vid i p)) = fill i h <$> plan_assertions p /\
  policy_assertions (snd (verify_with_plan vid i p)) = fill i h <$> policy_assertions p.
Proof. done. Qed.

(** The gates, over the runner's record and plan. *)
Lemma gates_pass vid i p contract d :
  let rec := fst (verify_with_plan vid i p) in
  let p' := snd (verify_with_plan vid i p) in
  vr_result (fst (verify_governed vid i p contract d)) = VerificationResult.Pass <->
  contract_failures contract i = [] /\
  match recorded_policy_status p' with
  | Some VerificationAssertionStatus.Fail | Some VerificationAssertionStatus.Unknown | None => False
  | _ => True
  end /\
  (vr_result rec = VerificationResult.Pass \/
   vr_result rec = VerificationResult.Partial /\ workspace_changed i = true /\
   require_objective_validation contract = false /\ blocking_assertions_satisfied p' = true /\
   in_code_files_changed i = false).
Proof.
  intros rec p'. unfold verify_governed.
  rewrite (surjective_pairing (verify_with_plan vid i p)). fold rec p'. cbn [fst].
  assert (Hs : vr_policy_status rec = "p0_policy_checked") by apply verify_with_plan_policy.
  clearbody rec p'. unfold contract_gate.
  destruct (contract_failures contract i) as [|f fs]; [|split; [done|by intros [? _]]].
  cbn [is_nil negb].
  destruct (recorded_policy_status p') as [[]|]; cbn; rewrite ?Hs; cbn;
    try (destruct (vr_result rec) eqn:Hr; cbn; rewrite ?Hr; by split; [|intros (_ & ? & _)]).
  all: destruct (vr_result rec) eqn:Hr; cbn; rewrite ?Hr;
    try (split; [first [discriminate|intros _; by auto]|by intros (_ & _ & [?|[? _]])]).
  all: match goal with |- context [if ?b then (VerificationResult.Pass, _) else _] =>
         destruct b eqn:E end; cbn.
  all: try (split; [intros _; boolhyps; by auto 10|done]).
  all: split; [by destruct (_ && in_code_files_changed i && _); cbn; rewrite ?Hr|].
  all: intros (_ & _ & [?|(_ & Hw & Ho & Hb & Hc)]); [done|]; rewrite Hw, Ho, Hb, Hc in E; done.
Qed.

(** ** Statuses of a fresh plan *)

Lemma plan_specs_kinds i sp :
  sp ∈ plan_specs i -> sp.1.1.1.2 <> VerificationAssertionKind.CommandExit.
Proof.
  assert (Hc : forall class s, criterion_assertion_kind class s
                               <> VerificationAssertionKind.CommandExit)
    by (intros; unfold criterion_assertion_kind; by repeat case_match).
  intros H. unfold plan_specs, criterion_specs in H. rewrite !elem_of_app in H.
  destruct H as [H|[H|[H|[H|H]]]].
  - unfold class_specs in H. revert H.
    destruct (classify_task i); repeat case_match; cbn [app]; rewrite ?elem_of_cons, elem_of_nil;
      naive_solver.
  - revert H. case_match; rewrite ?list_elem_of_singleton, ?elem_of_nil; naive_solver.
  - revert H. case_match; rewrite ?list_elem_of_singleton, ?elem_of_nil; naive_solver.
  - apply elem_of_lookup_imap in H as (k & s & -> & _). apply Hc.
  - revert H. case_match; rewrite ?list_elem_of_singleton, ?elem_of_nil; naive_solver.
Qed.

Lemma plan_kinds new_id pid t i a :
  a ∈ plan_assertions (plan new_id pid t i) ->
  assertion_kind a <> VerificationAssertionKind.CommandExit.
Proof.
  cbn. intros (k & sp & -> & Hk)%elem_of_lookup_imap.
  apply list_elem_of_lookup_2, plan_specs_kinds in Hk. by destruct sp as [[[[? ?] ?] ?] ?].
Qed.

(** An assertion of a plan is passed, failed or unresolved. *)
Lemma status_decided a i h :
  assertion_kind a <> VerificationAssertionKind.CommandExit ->
  let s := fst (fst (assertion_status a i h)) in
  s = VerificationAssertionStatus.Pass \/ s = VerificationAssertionStatus.Fail \/
  s = VerificationAssertionStatus.Unknown.
Proof.
  intros Hk s. subst s. unfold assertion_status.
  destruct (assertion_kind a); try done;
    unfold schema_status, change_status, validation_status, delivery_status, policy_check_status;
    repeat (case_match; cbn); auto.
Qed.

Definition is_policy_check (c : VerificationCheck) : bool :=
  is_kind VerificationCheckKind.Policy c || starts_with "policy:" (check_name c).

Lemma policy_check_pass i :
  fst (fst (policy_check_status i)) = VerificationAssertionStatus.Pass <->
  (exists c, c ∈ in_command_checks i /\ is_policy_check c = true) /\
  (forall c, c ∈ in_command_checks i -> is_policy_check c = true -> check_passed c = true).
Proof.
  unfold policy_check_status. fold is_policy_check.
  set (cs := List.filter _ _).
  assert (Hcs : forall c, c ∈ cs <-> c ∈ in_command_checks i /\ is_policy_check c = true)
    by (intros c; apply elem_of_lfilter).
  destruct (existsb (fun c => negb (check_passed c)) cs) eqn:E.
  - split; [done|]. intros [_ H]. apply existsb_elem in E as (c & [? ?]%Hcs & Hp).
    by rewrite H in Hp.
  - rewrite existsb_none in E. destruct cs as [|c cs'] eqn:Ec; cbn.
    + split; [done|]. intros [(c & ? & ?) _]. exfalso.
      eapply (not_elem_of_nil c), Hcs. done.
    + split; [|done]. intros _. split; [exists c; apply Hcs, list_elem_of_here|].
      intros x Hx Hp. specialize (E x (proj2 (Hcs x) (conj Hx Hp))). by apply negb_false_iff.
Qed.

Lemma governed_policy_status new_id pid t vid i contract :
  recorded_policy_status
    (snd (verify_with_plan vid i (plan_governed new_id pid t i contract))) =
  Some (fst (fst (policy_check_status i))).
Proof.
  destruct (policy_check_status i) as [[s m] r] eqn:E. unfold recorded_policy_status.
  cbn -[policy_check_status]. unfold fill. cbn -[policy_check_status]. by rewrite E.
Qed.

(** The blocking assertions of the governed plan, the policy one included. *)
Lemma governed_blocking_satisfied new_id pid t vid i contract :
  let p := plan_governed new_id pid t i contract in
  let h := negb (is_nil (in_evidence_refs i)) in
  blocking_assertions_satisfied (snd (verify_with_plan vid i p)) = true <->
  (forall a, a ∈ plan_assertions p -> assertion_blocking a = true ->
     fst (fst (assertion_status a i h)) = VerificationAssertionStatus.Pass) /\
  fst (fst (policy_check_status i)) = VerificationAssertionStatus.Pass.
Proof.
  intros p h. unfold blocking_assertions_satisfied.
  destruct (verify_with_plan_filled vid i p) as [-> ->]. fold h.
  rewrite <- fmap_app, forallb_elem, Forall_forall.
  assert (Hdec : forall a, a ∈ plan_assertions p ++ policy_assertions p ->
    assertion_satisfied (fill i h a) = true <->
    fst (fst (assertion_status a i h)) = VerificationAssertionStatus.Pass).
  { intros a Ha. unfold assertion_satisfied, has_status.
    destruct (fill_fields i h a) as [_ ->].
    assert (Hk : assertion_kind a <> VerificationAssertionKind.CommandExit).
    { apply elem_of_app in Ha as [[Ha _]%elem_of_lfilter|Ha].
      - by eapply plan_kinds.
      - by apply list_elem_of_singleton in Ha as ->. }
    destruct (status_decided a i h Hk) as [->|[->| ->]]; done. }
  split.
  - intros H. split.
    + intros a Ha Hb. apply Hdec; [apply elem_of_app; by left|].
      apply H, elem_of_lfilter. split; [apply list_elem_of_fmap_2, elem_of_app; by left|].
      by destruct (fill_fields i h a) as [-> _].
    + set (a := assertion (new_id (length (plan_assertions (plan new_id pid t i)))) "policy"
                  VerificationAssertionKind.Policy "runtime policy"
                  "no blocking policy decision is present" true).
      assert (Ha : a ∈ plan_assertions p ++ policy_assertions p)
        by (apply elem_of_app; right; apply list_elem_of_here).
      apply (Hdec a Ha), H, elem_of_lfilter. split; [by apply list_elem_of_fmap_2|].
      by destruct (fill_fields i h a) as [-> _].
  - intros [H Hp] x [(a & -> & Ha)%list_elem_of_fmap Hb]%elem_of_lfilter. apply Hdec; [done|].
    destruct (fill_fields i h a) as [E _]. rewrite E in Hb.
    apply elem_of_app in Ha as [Ha|Ha]; [by apply H|].
    by apply list_elem_of_singleton in Ha as ->.
Qed.

(** Once every blocking assertion is passed, the runner answers the legacy result. *)
Lemma runner_result_when_satisfied new_id pid t vid i contract :
  let p := plan_governed new_id pid t i contract in
  blocking_assertions_satisfied (snd (verify_with_plan vid i p)) = true ->
  vr_result (fst (verify_with_plan vid i p)) = legacy_result i.
Proof.
  intros p [Hall Hp]%governed_blocking_satisfied. rewrite verify_with_plan_result.
  set (h := negb _) in *.
  rewrite (proj2 (existsb_none _ _)), (proj2 (existsb_none _ _)); [done| |].
  - intros x (a & -> & Ha)%list_elem_of_fmap. destruct (fill_fields i h a) as [Eb Es].
    unfold has_status. rewrite Eb, Es. destruct (assertion_blocking a) eqn:Hb; [|done].
    by rewrite (Hall a Ha Hb).
  - intros x. rewrite <- fmap_app. intros (a & -> & Ha)%list_elem_of_fmap.
    destruct (fill_fields i h a) as [Eb Es]. unfold has_status. rewrite Eb, Es.
    destruct (assertion_blocking a) eqn:Hb; [|done].
    apply elem_of_app in Ha as [Ha|Ha]; [by rewrite (Hall a Ha Hb)|].
    apply list_elem_of_singleton in Ha as ->. cbn -[policy_check_status]. by rewrite Hp.
Qed.

(** ** What a governed pass means *)

(** What a contract asks of the recorded facts. *)
Definition contract_demands (contract : TaskContract) (i : VerificationInput) : Prop :=
  (workspace_change contract = WorkspaceChangeRequirement.Required ->
     workspace_changed i = true) /\
  (workspace_change contract = WorkspaceChangeRequirement.Forbidden ->
     workspace_changed i = false) /\
  (require_objective_validation contract = true ->
     exists c, c ∈ in_command_checks i /\
       check_kind c = VerificationCheckKind.ObjectiveValidation /\ check_passed c = true) /\
  (contract_verification contract = VerificationRequirement.Independent ->
     exists c, c ∈ in_command_checks i /\
       check_name c = "objective:test:external_verifier" /\ check_passed c = true).

Lemma objective_validated_spec i :
  objective_validated i = true <->
  exists c, c ∈ in_command_checks i /\
    check_kind c = VerificationCheckKind.ObjectiveValidation /\ check_passed c = true.
Proof.
  unfold objective_validated, passed_check, is_kind. rewrite existsb_elem.
  setoid_rewrite andb_true_iff. by setoid_rewrite bool_decide_eq_true.
Qed.

Lemma external_verified_spec i :
  external_verified i = true <->
  exists c, c ∈ in_command_checks i /\
    check_name c = "objective:test:external_verifier" /\ check_passed c = true.
Proof.
  unfold external_verified, is_external_verifier. rewrite existsb_elem.
  setoid_rewrite andb_true_iff. by setoid_rewrite bool_decide_eq_true.
Qed.

Lemma contract_failures_nil contract i :
  contract_failures contract i = [] <-> contract_demands contract i.
Proof.
  unfold contract_failures, contract_demands, requires_independent_verification.
  rewrite <- objective_validated_spec, <- external_verified_spec.
  destruct (contract_verification contract), (workspace_change contract),
    (workspace_changed i), (require_objective_validation contract), (objective_validated i),
    (external_verified i); cbn; split; intros H;
    first [done|by split_and!|exfalso; destruct H as (H1 & H2 & H3 & H4)];
    first [by specialize (H1 eq_refl)|by specialize (H2 eq_refl)|by specialize (H3 eq_refl)
          |by specialize (H4 eq_refl)].
Qed.

Lemma governed_pass_spec new_id pid t vid i contract d :
  let p := plan_governed new_id pid t i contract in
  let h := negb (is_nil (in_evidence_refs i)) in
  vr_result (fst (verify_governed vid i p contract d)) = VerificationResult.Pass <->
  contract_demands contract i /\
  (exists c, c ∈ in_command_checks i /\ is_policy_check c = true) /\
  (forall c, c ∈ in_command_checks i -> is_policy_check c = true -> check_passed c = true) /\
  (forall a, a ∈ plan_assertions p -> assertion_blocking a = true ->
     fst (fst (assertion_status a i h)) = VerificationAssertionStatus.Pass) /\
  (legacy_result i = VerificationResult.Pass \/
   legacy_result i = VerificationResult.Partial /\ workspace_changed i = true /\
   require_objective_validation contract = false /\ in_code_files_changed i = false).
Proof.
  intros p h. subst p. rewrite gates_pass, governed_policy_status, contract_failures_nil.
  set (p := plan_governed new_id pid t i contract).
  assert (Hsat := governed_blocking_satisfied new_id pid t vid i contract). fold p h in Hsat.
  assert (Hrun := runner_result_when_satisfied new_id pid t vid i contract). fold p in Hrun.
  assert (Hpc := policy_check_pass i).
  split.
  - intros (Hd & Hpol & Hres).
    assert (Hp : fst (fst (policy_check_status i)) = VerificationAssertionStatus.Pass).
    { destruct (status_decided (assertion 0 "" VerificationAssertionKind.Policy "" "" true) i h)
        as [H|[H|H]]; [done|done| |]; cbn -[policy_check_status] in H; by rewrite H in Hpol. }
    assert (Hall : blocking_assertions_satisfied (snd (verify_with_plan vid i p)) = true).
    { destruct Hres as [Hres|(_ & _ & _ & ? & _)]; [|done]. apply Hsat. split; [|done].
      by apply verify_pass_inv in Hres as (_ & ? & _). }
    rewrite (Hrun Hall) in Hres. apply Hsat in Hall as [Hall _]. apply Hpc in Hp as [? ?].
    split_and!; [done|done|done|done|]. destruct Hres as [?|(? & ? & ? & _ & ?)]; [by left|by right].
  - intros (Hd & Hex & Hpol & Hall & Hres).
    assert (Hb : blocking_assertions_satisfied (snd (verify_with_plan vid i p)) = true)
      by (apply Hsat; split; [done|]; by apply Hpc).
    rewrite (Hrun Hb). split_and!; [done| |destruct Hres as [?|(? & ? & ? & ?)]; [by left|by right]].
    by rewrite (proj2 Hpc (conj Hex Hpol)).
Qed.

(** C5 (functional): exactly when a governed task is verified. With the plan of
    [plan_governed], the result is [Pass] iff the demands of the task contract hold of
    the recorded checks; at least one policy decision was recorded and every one
    allowed execution; every blocking assertion left in the plan is passed; and the
    runner's base result is [Pass], or it is [Partial] for a change without behavioural
    files under a contract that asks for no validation. *)
Theorem governed_pass_iff new_id pid t vid i contract d :
  let p := plan_governed new_id pid t i contract in
  let h := negb (is_nil (in_evidence_refs i)) in
  vr_result (fst (verify_governed vid i p contract d)) = VerificationResult.Pass <->
  contract_demands contract i /\
  (exists c, c ∈ in_command_checks i /\ is_policy_check c = true) /\
  (forall c, c ∈ in_command_checks i -> is_policy_check c = true -> check_passed c = true) /\
  (forall a, a ∈ plan_assertions p -> assertion_blocking a = true ->
     fst (fst (assertion_status a i h)) = VerificationAssertionStatus.Pass) /\
  (legacy_result i = VerificationResult.Pass \/
   legacy_result i = VerificationResult.Partial /\ workspace_changed i = true /\
   require_objective_validation contract = false /\ in_code_files_changed i = false).
Proof. apply governed_pass_spec. Qed.

(** Nothing overrules a broken contract or a denied policy decision. For
    any plan, the record is marked [task_contract_failed] exactly when a demand of the
    contract does not hold, its result is then [Fail] and the broken demands are listed
    among its risks; and with the governed plan a failed policy check makes the result
    [Fail] even if the contract holds. *)
Theorem broken_contract_fails vid i p contract d :
  let record := fst (verify_governed vid i p contract d) in
  (vr_policy_status record = "task_contract_failed" <-> ~ contract_demands contract i) /\
  (~ contract_demands contract i ->
     vr_result record = VerificationResult.Fail /\
     contract_failures contract i <> [] /\
     contract_failures contract i `suffix_of` vr_residual_risks record) /\
  (forall new_id pid t c, p = plan_governed new_id pid t i contract ->
     c ∈ in_command_checks i -> is_policy_check c = true -> check_passed c = false ->
     vr_result record = VerificationResult.Fail).
Proof.
  intros record. subst record. rewrite <- contract_failures_nil.
  assert (Hs := verify_with_plan_policy vid i p).
  assert (Hpol : forall new_id pid t c, p = plan_governed new_id pid t i contract ->
     c ∈ in_command_checks i -> is_policy_check c = true -> check_passed c = false ->
     recorded_policy_status (snd (verify_with_plan vid i p)) =
     Some VerificationAssertionStatus.Fail).
  { intros new_id pid t c -> Hc Hk Hp. rewrite governed_policy_status. f_equal.
    unfold policy_check_status. fold is_policy_check.
    rewrite (proj2 (existsb_elem _ _)); [done|]. exists c. by rewrite elem_of_lfilter, Hp. }
  unfold verify_governed. rewrite (surjective_pairing (verify_with_plan vid i p)). cbn [fst].
  set (rec := fst (verify_with_plan vid i p)) in *.
  set (p' := snd (verify_with_plan vid i p)) in *. clearbody rec p'. unfold contract_gate.
  destruct (contract_failures contract i) as [|f fs]; cbn [is_nil negb]; split_and!.
  - split; [|done]. revert Hs. destruct (recorded_policy_status p') as [[]|]; cbn; intros Hs;
      rewrite ?Hs; cbn; try done; by repeat case_match.
  - done.
  - intros new_id pid t c Hp Hc Hk Hf. by rewrite (Hpol new_id pid t c Hp Hc Hk Hf).
  - done.
  - intros _. split_and!; [done|done|]. cbn. by eexists.
  - done.
Qed.

(** ** The crate's own cases *)

Definition doc_change (code policy_ok : bool) (extra : list VerificationCheck)
    : VerificationInput :=
  mkInput 1 "update the workspace" [] [7]
    ([mkVerificationCheck VerificationCheckKind.WorkspaceChange "workspace_diff" None true [7] "";
      mkVerificationCheck VerificationCheckKind.Policy "policy:write_file" None policy_ok [7] ""]
     ++ extra) true code.
Definition change_contract : TaskContract :=
  mkTaskContract 1 WorkspaceChangeRequirement.Required [] [] [] false
    VerificationRequirement.Required None.
Definition governed (i : VerificationInput) : VerificationResult :=
  vr_result (fst (verify_governed 3 i (plan_governed N.of_nat 1 2 i change_contract)
                    change_contract "test")).

Example governed_cases :
  governed (doc_change false true []) = VerificationResult.Pass /\
  governed (doc_change true true []) = VerificationResult.Partial /\
  governed (doc_change false false []) = VerificationResult.Fail /\
  governed (doc_change true true
    [mkVerificationCheck VerificationCheckKind.ObjectiveValidation "objective:test:project"
       (Some "project-test") false [7] "project test failed"]) = VerificationResult.Fail.
Proof. by vm_compute. Qed.

Lemma runtime_failure_fails new_id pid t vid task objective criteria ws reason :
  let record := fst (verify_runtime_failure new_id pid t vid task objective criteria ws reason) in
  vr_result record = VerificationResult.Fail /\ reason ∈ vr_residual_risks record.
Proof.
  unfold verify_runtime_failure. rewrite (surjective_pairing (verify_with_plan _ _ _)). cbn [fst].
  split; [done|]. cbn [vr_residual_risks with_verdict]. case_bool_decide; [done|].
  apply elem_of_app. right. apply list_elem_of_here.
Qed.
