(* ===== verification/FailureFamily.v ===== *)
(** * Tool failure families

    [golutra-agent-core/src/tool.rs] names the semantic family of a failed tool
    call (which packages an install was about, which process was waited for), and
    [golutra-agent-runtime/src/failure_guard.rs] counts the failures of a family and
    call signature so that the loop does not repeat an operation that keeps failing
    in an unchanged environment. [Value::to_string] of [serde_json] is an argument. *)
From Stdlib Require Import Ascii.
From S2P Require Import Prelude RustStr Core.
Open Scope N_scope.

(** ** Install targets *)

Definition one_of (cs : list N) (c : N) : bool := existsb (N.eqb c) cs.
Definition str_in (l : list string) (s : string) : bool := bool_decide (s ∈ l).

(** [s.starts_with([..])], [s.ends_with([..])], [s.contains([..])] for characters. *)
Definition starts_with_any (cs : list N) (s : string) : bool :=
  is_some_and (one_of cs) (head (chars s)).
Definition ends_with_any (cs : list N) (s : string) : bool :=
  is_some_and (one_of cs) (last (chars s)).
Definition contains_char_of (cs : list N) (s : string) : bool := existsb (one_of cs) (chars s).

Definition quote : list N := [39; 34].

(*@ core/src/tool.rs dependency_option_takes_value *)
Definition dependency_option_takes_value : string -> bool :=
  str_in ["-c"; "--cert"; "--client-cert"; "--config-settings"; "--constraint";
    "--extra-index-url"; "-f"; "--find-links"; "--global-option"; "-i"; "--index-url";
    "--install-option"; "-o"; "--option"; "--prefix"; "--proxy"; "-r"; "--requirement"; "--root";
    "--target"; "--trusted-host"].

(** [. _ - \[ \] :] besides letters and digits. *)
Definition target_char (c : N) : bool :=
  is_ascii_alphanumeric c || one_of [46; 95; 45; 91; 93; 58] c.

(*@ core/src/tool.rs normalized_dependency_target *)
Definition normalized_dependency_target (raw : string) (max_chars : N) : option string :=
  if bool_decide (raw = "") || str_contains "://" raw || contains_char_of [47; 92] raw
     || starts_with "." raw
  then None
  else
    let direct_name := List.hd raw (split_on "@"%char raw) in
    let name := trim (List.hd "" (split_chars (one_of [60; 62; 61; 33; 126]) direct_name)) in
    if bool_decide (name = "") || negb (forallb target_char (chars name)) then None
    else
      let bounded := take_chars max_chars name in
      if bool_decide (bounded = "") then None else Some bounded.

(*@ core/src/tool.rs:206-207 dependency_install_scope *)
Definition MAX_TARGETS : N := 8.
Definition MAX_TARGET_CHARS : N := 64.

(** One target kept by the loop of [dependency_install_scope]. *)
(*@ core/src/tool.rs:241-247 dependency_install_scope *)
Definition add_target (targets : list string) (target : string) : list string :=
  if negb (starts_with "-" target) && (N.of_nat (length targets) <? MAX_TARGETS) then
    match normalized_dependency_target target MAX_TARGET_CHARS with
    | Some t => if bool_decide (t ∈ targets) then targets else targets ++ [t]
    | None => targets
    end
  else targets.

(** The [while let] over the tokens after [install]; an option with a value skips two. *)
(*@ core/src/tool.rs:227-252 dependency_install_scope *)
Fixpoint install_targets (targets : list string) (tokens : list string) : list string :=
  match tokens with
  | [] => targets
  | raw :: rest =>
      if starts_with_any [124; 38; 59; 62; 60] raw then targets
      else
        let terminal := ends_with_any [124; 38; 59] raw in
        let target := trim_matches (one_of [39; 34; 44; 59; 124; 38]) raw in
        if dependency_option_takes_value target then
          match rest with
          | [] => targets
          | _ :: rest' => install_targets targets rest'
          end
        else
          let targets := add_target targets target in
          if terminal then targets else install_targets targets rest
  end.

(** The tokens after the first one that satisfies [f]. *)
Fixpoint after (f : string -> bool) (tokens : list string) : option (list string) :=
  match tokens with
  | [] => None
  | t :: ts => if f t then Some ts else after f ts
  end.

(*@ core/src/tool.rs:210-218 dependency_install_scope *)
Definition is_manager (managers : list string) (token : string) : bool :=
  is_some_and (str_in managers)
    (last (split_chars (one_of [47; 92]) (trim_matches (one_of quote) token))).

(*@ core/src/tool.rs dependency_install_scope *)
Definition dependency_install_scope (command : string) (managers : list string) : string :=
  match after (is_manager managers) (split_whitespace command) with
  | None => "unspecified"
  | Some rest =>
      match after (fun t => bool_decide (trim_matches (one_of quote) t = "install")) rest with
      | None => "unspecified"
      | Some args =>
          match sort_strings (install_targets [] args) with
          | [] => "unspecified"
          | targets => join "," targets
          end
      end
  end.

(** ** The family of a call *)

Section Family.
Variable value_to_string : json -> string.

(*@ core/src/tool.rs:160-172 semantic_tool_failure_family *)
Definition command_text (facts : json) : string :=
  to_ascii_lowercase
    match json_get facts "command" with
    | Some (JString c) => c
    | Some (JArray parts) => join " " (omap as_str parts)
    | _ => ""
    end.

(*@ core/src/tool.rs semantic_tool_failure_family *)
Definition semantic_tool_failure_family (tool_name : string) (facts : json) : option string :=
  let command := command_text facts in
  let has s := str_contains s command in
  let shell := bool_decide (tool_name = "shell") in
  if shell && (has "apt-get" && has "install") then
    Some ("dependency_install:apt:" +:+ dependency_install_scope command ["apt-get"; "apt"])
  else if shell && ((has "pip install" || has "pip3 install") || (has "-m pip" && has "install"))
  then Some ("dependency_install:pip:" +:+ dependency_install_scope command ["pip"; "pip3"])
  else if shell && (has "apt-get" && has "update") then Some "dependency_index:apt"
  else if bool_decide (tool_name = "process_poll") || bool_decide (tool_name = "process_reconnect")
  then
    let process_id :=
      match json_get facts "process_id" with
      | Some (JString s) => s
      | Some v => value_to_string v
      | None => "unknown"
      end in
    Some ("process_wait:" +:+ process_id)
  else None.
End Family.

(** ** The ledger of failed calls *)

(*@ runtime/src/failure_guard.rs FailureFamilyLedger *)
Definition FailureFamilyLedger : Type := gmap (string * string) N.

(*@ runtime/src/failure_guard.rs FailureFamilyLedger::failures *)
Definition failures (l : FailureFamilyLedger) (family signature : string) : N :=
  default 0 (l !! (family, signature)).

(*@ runtime/src/failure_guard.rs FailureFamilyLedger::observe *)
Definition observe (l : FailureFamilyLedger) (family signature : string)
    (status : ToolResultStatus) : FailureFamilyLedger :=
  if bool_decide (status = ToolResultStatus.Ok) then delete (family, signature) l
  else <[(family, signature) := default 0 (l !! (family, signature)) +|32 1]> l.

(*@ runtime/src/failure_guard.rs FailureFamilyLedger::workspace_changed *)
Definition ledger_workspace_changed (l : FailureFamilyLedger) : FailureFamilyLedger := ∅.

(** What the loop does with the ledger after a tool call: a successful call that
    changed files clears it first. *)
(*@ runtime/src/lib.rs:3314-3323 run_with_control_trace_contract_and_replay_context *)
Definition record_result (l : FailureFamilyLedger) (family signature : string)
    (status : ToolResultStatus) (changed_files : list string) : FailureFamilyLedger :=
  let l := if bool_decide (status = ToolResultStatus.Ok)
              && negb (match changed_files with [] => true | _ => false end)
           then ledger_workspace_changed l else l in
  observe l family signature status.

(** ** Checks on concrete commands *)

Example family_of_commands :
  let shell c := semantic_tool_failure_family (fun _ => "") "shell" (JObject [("command", c)]) in
  shell (JString "sudo apt-get install parquet-tools")
    = Some "dependency_install:apt:parquet-tools" /\
  shell (JArray [JString "python"; JString "-m"; JString "pip"; JString "install";
                 JString "pyarrow"]) = Some "dependency_install:pip:pyarrow" /\
  shell (JString "apt-get -qq install build-essential git -y")
    = shell (JString "apt-get install -y git build-essential").
Proof. by vm_compute. Qed.

(** ** The ledger counts failure streaks *)

Inductive LedgerOp :=
| Result (family signature : string) (status : ToolResultStatus) (changed_files : list string).

Definition run_op (l : FailureFamilyLedger) (op : LedgerOp) : FailureFamilyLedger :=
  let 'Result f s st cs := op in record_result l f s st cs.
Definition run_ops (ops : list LedgerOp) : FailureFamilyLedger := fold_left run_op ops ∅.

(** Failed calls of one family and signature since its last success and since the
    last successful call that changed the workspace. *)
Definition streak_step (family signature : string) (n : N) (op : LedgerOp) : N :=
  let 'Result f s st cs := op in
  let same := bool_decide (f = family) && bool_decide (s = signature) in
  match st with
  | ToolResultStatus.Ok =>
      if same || negb (match cs with [] => true | _ => false end) then 0 else n
  | _ => if same then n + 1 else n
  end.
Definition failure_streak (family signature : string) (ops : list LedgerOp) : N :=
  fold_left (streak_step family signature) ops 0.

Lemma failures_delete (l : gmap (string * string) N) f s f' s' :
  failures (delete (f, s) l) f' s' =
  if bool_decide (f = f') && bool_decide (s = s') then 0 else failures l f' s'.
Proof.
  unfold failures, FailureFamilyLedger. case_bool_decide; [subst f'|by rewrite lookup_delete_ne by congruence].
  case_bool_decide; [subst s'|by rewrite lookup_delete_ne by congruence].
  by rewrite lookup_delete_eq.
Qed.

Lemma failures_insert (l : gmap (string * string) N) f s f' s' n :
  failures (<[(f, s) := n]> l) f' s' =
  if bool_decide (f = f') && bool_decide (s = s') then n else failures l f' s'.
Proof.
  unfold failures, FailureFamilyLedger. case_bool_decide; [subst f'|by rewrite lookup_insert_ne by congruence].
  case_bool_decide; [subst s'|by rewrite lookup_insert_ne by congruence].
  by rewrite lookup_insert_eq.
Qed.

(** The failure guard counts streaks. After any sequence of tool
    results, the counter of a family and call signature is the number of failed calls
    of that pair since its last success and since the last successful call that
    changed files, up to [u32::MAX]; so the guard fires (a positive counter) exactly
    when that operation failed and nothing has changed since, and results of other
    operations never arm or disarm it unless they changed the workspace. *)
Theorem ledger_counts_streaks ops family signature :
  failures (run_ops ops) family signature =
    N.min u32_max (failure_streak family signature ops) /\
  (0 < failures (run_ops ops) family signature <-> 0 < failure_streak family signature ops).
Proof.
  assert (H : failures (run_ops ops) family signature =
    N.min u32_max (failure_streak family signature ops)).
  { unfold run_ops, failure_streak.
    induction ops as [|[f s st cs] ops IH] using rev_ind; [done|].
    rewrite !fold_left_app. cbn [fold_left].
    set (l := fold_left run_op ops ∅) in *.
    set (n := fold_left (streak_step family signature) ops 0) in *. clearbody l n.
    assert (Hf : st <> ToolResultStatus.Ok ->
      failures (run_op l (Result f s st cs)) family signature =
      N.min u32_max (streak_step family signature n (Result f s st cs))).
    { intros Hst. unfold run_op, record_result, observe.
      rewrite (bool_decide_eq_false_2 _ Hst). cbn [andb]. rewrite failures_insert.
      replace (streak_step _ _ _ _) with
        (if bool_decide (f = family) && bool_decide (s = signature) then n + 1 else n)
        by (by destruct st).
      destruct (bool_decide (f = family) && bool_decide (s = signature)) eqn:E; [|done].
      boolhyps. subst. fold (failures l family signature). rewrite IH. sat_lia. }
    destruct st; try (by apply Hf). unfold run_op, streak_step, record_result, observe.
    rewrite (bool_decide_eq_true_2 (ToolResultStatus.Ok = _)) by done.
    rewrite failures_delete. destruct cs; cbn [andb negb]; by destruct (_ && _). }
  split; [done|]. rewrite H. unfold u32_max. lia.
Qed.
