(* ===== verification/Correction.v ===== *)
(** * Automatic corrections

    What the runtime tells the model after a failed verification
    ([correction_envelope] of [golutra-agent-runtime/src/lib.rs] and
    [correction_feedback.rs]) and when it stops doing so
    ([correction_progress.rs]): a correction whose fingerprint was issued recently
    brings no new validation fact and is refused. The SHA-256 digest of the
    serialised fingerprint is an argument. *)
From S2P Require Import Prelude RustStr Core TaskContract Verify Governed.
Open Scope N_scope.

(** ** Tool reports *)

Module FileContentKind.
(*@ core/src/change.rs FileContentKind *)
Inductive FileContentKind := Text | Binary | Unknown.
End FileContentKind.
Abbreviation FileContentKind := FileContentKind.FileContentKind.

(*@ core/src/change.rs FileStateMetadata *)
Record FileStateMetadata := mkFileStateMetadata {
  fm_size_bytes : N;
  fm_checksum : option string;
  fm_unix_mode : option N;
  fm_content_kind : FileContentKind;
  fm_content_available : bool;
}.

(*@ tools/src/lib.rs FileBeforeImage *)
Record FileBeforeImage := mkFileBeforeImage {
  image_path : string;
  image_content : option (list N);
  image_unix_mode : option N;
  image_metadata : option FileStateMetadata;
}.

(*@ tools/src/lib.rs ArtifactContent *)
Record ArtifactContent := mkArtifactContent {
  content_artifact_id : ArtifactId;
  content_bytes : list N;
}.

(** The parts of a report that validation, completion and correction read; evidence
    records are known by their ids. *)
(*@ tools/src/lib.rs ToolExecutionReport *)
Record ToolExecutionReport := mkReport {
  rp_envelope : ToolResultEnvelope;
  rp_evidence : list EvidenceId;
  rp_changed_files : list string;
  rp_policy_evaluation : PolicyEvaluation;
  rp_artifact_contents : list ArtifactContent;
  rp_after_images : list FileBeforeImage;
}.

(** ** The requested action *)

(*@ runtime/src/correction_feedback.rs is_unknown_validation *)
Definition is_unknown_validation (c : VerificationCheck) : bool := is_unknown_objective_check c.

(** The [any] over the reversed checks; [seen] is the hash set it fills. *)
Fixpoint failed_latest (seen : list (string * option string)) (rev_checks : list VerificationCheck)
    : bool :=
  match rev_checks with
  | [] => false
  | c :: cs =>
      let key := (check_name c, check_command c) in
      if bool_decide (key ∈ seen) then failed_latest seen cs
      else if negb (check_passed c) && negb (is_unknown_validation c) then true
      else failed_latest (key :: seen) cs
  end.

(*@ runtime/src/correction_feedback.rs latest_check_failed *)
Definition latest_check_failed (v : VerificationRecord) (kind : VerificationCheckKind) : bool :=
  failed_latest [] (List.filter (is_kind kind) (reverse (vr_checks v))).

(*@ runtime/src/correction_feedback.rs missing_validation *)
Definition missing_validation (v : VerificationRecord) : bool :=
  existsb is_unknown_validation (vr_checks v)
  || (negb (existsb (is_kind VerificationCheckKind.ObjectiveValidation) (vr_checks v))
      && existsb (fun risk => bool_decide (risk = "task contract requires objective validation")
            || bool_decide (risk = "behavioral changes were not objectively validated"))
           (vr_residual_risks v)).

Definition unmet (a : VerificationAssertion) : bool :=
  assertion_blocking a && negb (assertion_satisfied a).

(*@ runtime/src/correction_feedback.rs:45-57 requested_action *)
Definition delivery_kind (k : VerificationAssertionKind) : bool :=
  match k with
  | VerificationAssertionKind.FileState | VerificationAssertionKind.Diff
  | VerificationAssertionKind.CommandExit | VerificationAssertionKind.Test
  | VerificationAssertionKind.Diagnostic | VerificationAssertionKind.Delivery => true
  | _ => false
  end.

Definition policy_action : string :=
  "Respect the reported permission boundary. Explain the limitation and request missing authorization if needed; do not bypass it or repeat the denied action".
Definition schema_action : string :=
  "Correct the final response to match the requested output schema; formatting alone requires no tools or workspace validation".
Definition delivery_action : string :=
  "Address the reported delivery or validation issue within the requested scope, then rerun only the affected checks; report any check that cannot be performed".
Definition validation_action : string :=
  "Supply the missing relevant validation evidence, or explain why validation is unavailable; do not add unrelated tests or work".
Definition generic_action : string :=
  "Address only the reported unmet requirements; use tools when additional facts or changes are needed and state any unresolved limitation".

(*@ runtime/src/correction_feedback.rs requested_action *)
Definition requested_action (v : VerificationRecord) : string :=
  let failed_assertions := assertion_kind <$> List.filter unmet (vr_assertions v) in
  let failed k := bool_decide (k ∈ failed_assertions) in
  if latest_check_failed v VerificationCheckKind.Policy || failed VerificationAssertionKind.Policy
  then policy_action
  else
    let actions :=
      (if latest_check_failed v VerificationCheckKind.Schema
          || failed VerificationAssertionKind.Schema then [schema_action] else [])
      ++ (if latest_check_failed v VerificationCheckKind.ObjectiveValidation
             || latest_check_failed v VerificationCheckKind.WorkspaceChange
             || existsb delivery_kind failed_assertions then [delivery_action] else [])
      ++ (if missing_validation v then [validation_action] else []) in
    join ". " match actions with [] => [generic_action] | _ => actions end.

(** ** The envelope *)

(*@ runtime/src/lib.rs:5115-5137 correction_envelope *)
Definition requirement_text (a : VerificationAssertion) : string :=
  assertion_subject a +:+ ": " +:+
    (if trim_is_empty (assertion_message a) then assertion_expected a else assertion_message a).

Definition raw_requirements (v : VerificationRecord) : list string :=
  (requirement_text <$> List.filter unmet (vr_assertions v)) ++ vr_residual_risks v.

(*@ runtime/src/lib.rs correction_envelope *)
Definition correction_envelope (v : VerificationRecord) (attempt : N)
    (remaining_attempts : option N) : CorrectionEnvelope :=
  {| ce_verification_id := vr_verification_id v;
     ce_attempt := attempt;
     ce_remaining_attempts := remaining_attempts;
     ce_failed_requirements :=
       take_chars 512 <$> take 8 (dedup (sort_strings (raw_requirements v)));
     ce_evidence_refs := take 16 (vr_evidence_refs v);
     ce_requested_action := requested_action v |}.

(** ** Progress between corrections *)

(** What a fingerprint is the digest of. A path is keyed by its components, as
    [PathBuf] compares, with the spelling inserted first. *)
Record Fingerprint := mkFingerprint {
  fp_failed_requirements : list string;
  fp_checks : gmap (string * option string) (bool * string);
  fp_candidate : gmap (list string) (string * (option string * option N));
  fp_answer : option (option string);
}.

Section Progress.
Variable sha256_hex : list N -> string.
Variable digest : Fingerprint -> string.

(*@ runtime/src/correction_progress.rs:25-38 CorrectionProgress::permits_retry *)
Definition counts_as_check (c : VerificationCheck) : bool :=
  match check_kind c with
  | VerificationCheckKind.ToolExecution | VerificationCheckKind.AssistantResponse
  | VerificationCheckKind.WorkspaceChange => false
  | _ => true
  end.

Definition add_check (m : gmap (string * option string) (bool * string)) (c : VerificationCheck) :=
  if counts_as_check c then <[(check_name c, check_command c) := (check_passed c, check_message c)]> m
  else m.
Definition check_facts (cs : list VerificationCheck) := fold_left add_check cs ∅.

(*@ runtime/src/correction_progress.rs:47-61 CorrectionProgress::permits_retry *)
Definition add_image (m : gmap (list string) (string * (option string * option N)))
    (image : FileBeforeImage) : gmap (list string) (string * (option string * option N)) :=
  let checksum :=
    match image_metadata image ≫= fm_checksum with
    | Some c => Some c
    | None => sha256_hex <$> image_content image
    end in
  let key := path_key (image_path image) in
  let spelling := default (image_path image) (fst <$> m !! key) in
  <[key := (spelling, (checksum, image_unix_mode image))]> m.

(*@ runtime/src/correction_progress.rs:39-62 CorrectionProgress::permits_retry *)
Definition candidate_state (v : VerificationRecord) (reports : list ToolExecutionReport) :=
  if existsb (is_kind VerificationCheckKind.ObjectiveValidation) (vr_checks v) then
    fold_left (fun m r => fold_left add_image (rp_after_images r) m) reports ∅
  else ∅.

(*@ runtime/src/correction_progress.rs:65-77 CorrectionProgress::permits_retry *)
Definition answer_fingerprint (v : VerificationRecord) (assistant_message : option string)
    : option (option string) :=
  if negb (existsb (is_kind VerificationCheckKind.ObjectiveValidation) (vr_checks v))
     || existsb (fun c => is_kind VerificationCheckKind.Schema c && negb (check_passed c))
          (vr_checks v)
  then Some (m ← assistant_message;
             let t := trim m in if bool_decide (t = "") then None else Some t)
  else None.

(*@ runtime/src/correction_progress.rs:78-89 CorrectionProgress::permits_retry *)
Definition fingerprint (correction : CorrectionEnvelope) (v : VerificationRecord)
    (reports : list ToolExecutionReport) (assistant_message : option string) : Fingerprint :=
  {| fp_failed_requirements := ce_failed_requirements correction;
     fp_checks := check_facts (vr_checks v);
     fp_candidate := candidate_state v reports;
     fp_answer := answer_fingerprint v assistant_message |}.

(*@ runtime/src/correction_progress.rs CorrectionProgress *)
Definition CorrectionProgress : Type := list string.
(*@ runtime/src/correction_progress.rs:93-93 CorrectionProgress::permits_retry *)
Definition MAX_FINGERPRINT_HISTORY : N := 8.

(** The history test on one digest. *)
(*@ runtime/src/correction_progress.rs:90-99 CorrectionProgress::permits_retry *)
Definition admit_digest (p : CorrectionProgress) (f : string) : bool * CorrectionProgress :=
  if bool_decide (f ∈ p) then (false, p)
  else
    let p := p ++ [f] in
    (true, if MAX_FINGERPRINT_HISTORY <? N.of_nat (length p) then drop 1 p else p).

(*@ runtime/src/correction_progress.rs CorrectionProgress::permits_retry *)
Definition permits_retry (p : CorrectionProgress) (correction : CorrectionEnvelope)
    (v : VerificationRecord) (reports : list ToolExecutionReport)
    (assistant_message : option string) : bool * CorrectionProgress :=
  admit_digest p (digest (fingerprint correction v reports assistant_message)).
End Progress.

(** ** Repeated corrections are refused *)

(** The corrections accepted over a run of fingerprints. *)
Fixpoint admit_run (p : CorrectionProgress) (fs : list string) : list bool * CorrectionProgress :=
  match fs with
  | [] => ([], p)
  | f :: fs' =>
      let '(ok, p1) := admit_digest p f in
      let '(oks, p2) := admit_run p1 fs' in (ok :: oks, p2)
  end.
Definition accepted (oks : list bool) : nat := length (List.filter id oks).

Definition progress_inv (p : CorrectionProgress) : Prop := (length p <= 8)%nat /\ NoDup p.

(** An accepted digest ends the history; a refused one changes nothing. *)
Lemma admit_digest_cases p f :
  (admit_digest p f = (false, p) /\ f ∈ p) \/
  (admit_digest p f = (true, drop (if decide (8 <= length p)%nat then 1 else 0) p ++ [f])
   /\ f ∉ p).
Proof.
  unfold admit_digest. case_bool_decide as H; [by left|right]. split; [|done]. f_equal.
  unfold MAX_FINGERPRINT_HISTORY. rewrite length_app. simpl length.
  destruct (8 <? _) eqn:E; Nbool; case_decide; try lia; [|done]. destruct p; [simpl in *; lia|done].
Qed.

Lemma admit_digest_inv p f : progress_inv p -> progress_inv (snd (admit_digest p f)).
Proof.
  intros [Hl Hn]. destruct (admit_digest_cases p f) as [[-> _]|[-> Hf]]; [done|]. cbn [snd]. split.
  - rewrite length_app, length_drop. simpl. case_decide; lia.
  - apply NoDup_app. split_and!; [|intros x Hx ->%list_elem_of_singleton|apply NoDup_singleton].
    + eapply sublist_NoDup; [exact Hn|apply sublist_drop].
    + by apply Hf, (subseteq_drop _ p _ Hx).
Qed.

(** A digest with few later ones stays in the history. *)
Lemma digest_survives fs : forall q l1 f l2,
  progress_inv q -> q = l1 ++ f :: l2 ->
  (length l2 + accepted (fst (admit_run q fs)) <= 7)%nat ->
  f ∈ snd (admit_run q fs).
Proof.
  induction fs as [|g fs IH]; intros q l1 f l2 Hq E Ha; simpl.
  { subst q. apply elem_of_app. right. apply list_elem_of_here. }
  simpl in Ha. assert (Hinv := admit_digest_inv q g Hq).
  destruct (admit_digest_cases q g) as [[Eq _]|[Eq _]]; rewrite Eq in *; cbn [snd] in Hinv.
  - specialize (IH q l1 f l2 Hq E). destruct (admit_run q fs) as [oks p2]. by apply IH.
  - set (k := if decide (8 <= length q)%nat then 1%nat else 0%nat) in *.
    assert (Hd : exists l1', drop k q ++ [g] = l1' ++ f :: (l2 ++ [g])).
    { assert (Hk : (k <= length l1)%nat).
      { subst k. case_decide; [|lia]. destruct Hq as [Hl _]. rewrite E, length_app in *. simpl in *.
        destruct (admit_run _ fs) as [oks p2]. unfold accepted in Ha. simpl in Ha. lia. }
      exists (drop k l1). rewrite E, drop_app_le by done. by rewrite <- app_assoc. }
    destruct Hd as [l1' Hd]. specialize (IH _ l1' f (l2 ++ [g]) Hinv Hd).
    destruct (admit_run _ fs) as [oks p2]. apply IH. unfold accepted in *. simpl in *.
    rewrite length_app. simpl. lia.
Qed.

(** Histories reachable from the empty one. *)
Lemma admit_run_inv fs : forall p, progress_inv p -> progress_inv (snd (admit_run p fs)).
Proof.
  induction fs as [|f fs IH]; intros p Hp; simpl; [done|].
  assert (H := admit_digest_inv p f Hp). destruct (admit_digest p f) as [ok p1].
  specialize (IH p1 H). by destruct (admit_run p1 fs).
Qed.

(** Automatic correction does not go in circles. Whatever was tried
    before, once a correction was issued for a verification state, a correction for a
    state with the same fingerprint is refused while at most seven others were issued
    in between, so a cycle through up to eight states ends; and the history never
    holds more than eight digests, all different. *)
Theorem correction_cycles_stop digest sha history c v reports m mid c' v' reports' m' :
  let p0 := snd (admit_run [] history) in
  let '(ok, p1) := permits_retry sha digest p0 c v reports m in
  let '(oks, p2) := admit_run p1 mid in
  progress_inv p2 /\
  (ok = true -> (accepted oks <= 7)%nat ->
   fingerprint sha c v reports m = fingerprint sha c' v' reports' m' ->
   permits_retry sha digest p2 c' v' reports' m' = (false, p2)).
Proof.
  intros p0. unfold permits_retry.
  assert (H0 : progress_inv p0) by (apply admit_run_inv; split; [simpl; lia|constructor]).
  set (f := digest (fingerprint sha c v reports m)).
  assert (H1 := admit_digest_inv p0 f H0). assert (Hc := admit_digest_cases p0 f).
  destruct (admit_digest p0 f) as [ok p1] eqn:E1. cbn [snd] in H1.
  assert (H2 := admit_run_inv mid p1 H1).
  assert (Hs := fun l1 l2 => digest_survives mid p1 l1 f l2 H1).
  destruct (admit_run p1 mid) as [oks p2]. split; [done|]. intros -> Ha Ef. rewrite <- Ef.
  destruct Hc as [[? _]|[Hp _]]; [by simplify_eq|]. fold f.
  unfold admit_digest. rewrite bool_decide_eq_true_2; [done|].
  injection Hp as Hp. by apply (Hs _ [] Hp).
Qed.

Definition sample_record (risk : string) : VerificationRecord :=
  {| vr_verification_id := 1; vr_task_id := 2; vr_objective := "change";
     vr_completion_criteria := []; vr_checks := []; vr_evidence_refs := [];
     vr_result := VerificationResult.Partial; vr_policy_status := "task_contract_satisfied";
     vr_residual_risks := [risk]; vr_plan_id := None; vr_assertions := [];
     vr_source := VerificationSource.Runtime;
     vr_independence := VerificationIndependence.Unspecified; vr_environment_digest := None |}.

Lemma correction_cycles_stop_witness :
  let digest fp := join ";" (fp_failed_requirements fp) in
  let retry p risk :=
    permits_retry (fun _ => "") digest p (correction_envelope (sample_record risk) 1 None)
      (sample_record risk) [] None in
  snd (retry (snd (admit_run (snd (retry [] "A")) ["B"])) "A") = ["A"; "B"] /\
  fst (retry (snd (admit_run (snd (retry [] "A")) ["B"])) "A") = false.
Proof.
  intros digest retry.
  pose proof (correction_cycles_stop digest (fun _ => "") []
    (correction_envelope (sample_record "A") 1 None) (sample_record "A") [] None ["B"]
    (correction_envelope (sample_record "A") 1 None) (sample_record "A") [] None) as H.
  destruct H as [_ H]. specialize (H eq_refl ltac:(vm_compute; lia) eq_refl).
  unfold retry. split; [vm_compute; reflexivity|].
  transitivity (fst (false, ["A"; "B"])); [|reflexivity].
  exact (f_equal fst H).
Defined.

(** ** A correction always says what is missing *)

Lemma snoc_not_nil {A} (l : list A) x : l ++ [x] <> [].
Proof. by destruct l. Qed.

Lemma legacy_risks i :
  legacy_result i <> VerificationResult.Pass -> residual_risks (legacy_result i) <> [].
Proof. by destruct (legacy_result i). Qed.

Lemma runner_risks vid i p :
  vr_result (fst (verify_with_plan vid i p)) <> VerificationResult.Pass ->
  vr_residual_risks (fst (verify_with_plan vid i p)) <> [].
Proof.
  unfold verify_with_plan. cbn [fst]. destruct (existsb _ (_ ++ _)); [intros _; apply snoc_not_nil|].
  destruct (existsb _ _ && _); [intros _; apply snoc_not_nil|apply legacy_risks].
Qed.

Lemma governed_risks vid i p contract d :
  vr_result (fst (verify_governed vid i p contract d)) <> VerificationResult.Pass ->
  vr_residual_risks (fst (verify_governed vid i p contract d)) <> [].
Proof.
  unfold verify_governed. assert (Hr := runner_risks vid i p).
  rewrite (surjective_pairing (verify_with_plan vid i p)). cbn [fst].
  set (rec := fst (verify_with_plan vid i p)) in *.
  set (rec' := with_environment rec _ _). set (st := recorded_policy_status _).
  assert (Hg : vr_result (policy_gate st rec') <> VerificationResult.Pass ->
               vr_residual_risks (policy_gate st rec') <> []).
  { destruct st as [[]|]; try exact Hr; intros _; apply snoc_not_nil. }
  clearbody rec st. set (g := policy_gate st rec') in *. clearbody g. unfold contract_gate.
  destruct (contract_failures contract i) as [|f fs]; cbn [is_nil negb];
    [|intros _ H; by destruct (proj1 (app_nil _ _) H)].
  case_bool_decide; [intros _; apply snoc_not_nil|].
  destruct (negb _); [|done].
  destruct (_ && negb (in_code_files_changed i)); [done|].
  destruct (_ && negb (objective_validated i)); [intros _; apply snoc_not_nil|exact Hg].
Qed.

Lemma envelope_requirements v n r s :
  s ∈ ce_failed_requirements (correction_envelope v n r) ->
  exists req, req ∈ raw_requirements v /\ s = take_chars 512 req.
Proof.
  cbn. intros (req & -> & Hreq)%list_elem_of_fmap. exists req. split; [|done].
  apply (subseteq_take 8) in Hreq. by rewrite dedup_elem, sort_strings_perm in Hreq.
Qed.

(** A correction always says what is missing. When a governed
    verification does not pass, the correction envelope built from its record names
    between one and eight requirements, each the first 512 characters of an unmet
    blocking assertion or a residual risk of the record, with at most 16 evidence
    references; and if there are at most eight different ones, none is left out. *)
Theorem correction_names_requirements vid i p contract d n r :
  let v := fst (verify_governed vid i p contract d) in
  let e := correction_envelope v n r in
  vr_result v <> VerificationResult.Pass ->
  ce_failed_requirements e <> [] /\
  (length (ce_failed_requirements e) <= 8)%nat /\ (length (ce_evidence_refs e) <= 16)%nat /\
  (forall s, s ∈ ce_failed_requirements e ->
     exists req, req ∈ raw_requirements v /\ s = take_chars 512 req) /\
  ((length (remove_dups (raw_requirements v)) <= 8)%nat -> forall req,
     req ∈ raw_requirements v -> take_chars 512 req ∈ ce_failed_requirements e).
Proof.
  intros v e Hr. assert (Hrisk := governed_risks vid i p contract d Hr). fold v in Hrisk.
  clearbody v. subst e. cbn [ce_failed_requirements ce_evidence_refs correction_envelope].
  set (l := dedup (sort_strings (raw_requirements v))).
  assert (Hl : forall s, s ∈ l <-> s ∈ raw_requirements v)
    by (intros s; subst l; by rewrite dedup_elem, sort_strings_perm).
  split_and!.
  - destruct (vr_residual_risks v) as [|x xs] eqn:Ev; [done|].
    assert (Hx : x ∈ l).
    { apply Hl. unfold raw_requirements. rewrite Ev. apply elem_of_app. right.
      apply list_elem_of_here. }
    destruct l; [by apply not_elem_of_nil in Hx|done].
  - rewrite length_fmap, length_take. lia.
  - rewrite length_take. lia.
  - intros s Hs. by apply (envelope_requirements v n r).
  - intros Hlen req Hreq. apply list_elem_of_fmap_2. rewrite take_ge; [by apply Hl|].
    etrans; [|exact Hlen]. apply submseteq_length, NoDup_submseteq.
    + apply (dedup_nodup str_le), sort_strings_sorted.
    + intros s Hs. by apply elem_of_remove_dups, Hl.
Qed.

Lemma correction_names_requirements_witness :
  let i := doc_change true true [] in
  let v := fst (verify_governed 3 i (plan_governed N.of_nat 1 2 i change_contract)
                  change_contract "test") in
  vr_result v <> VerificationResult.Pass /\
  ce_failed_requirements (correction_envelope v 1 None) <> [].
Proof.
  intros i v. assert (H : vr_result v <> VerificationResult.Pass) by (by vm_compute).
  split; [exact H|]. exact (proj1 (correction_names_requirements _ _ _ _ _ 1 None H)).
Defined.

(** ** The latest verdict of a kind *)

Definition check_key (c : VerificationCheck) : string * option string :=
  (check_name c, check_command c).

Lemma failed_latest_spec cs : forall seen,
  failed_latest seen cs = true <->
  exists l1 c l2, cs = l1 ++ c :: l2 /\ (check_key c ∉ seen) /\
    (check_key c ∉ (check_key <$> l1)) /\
    check_passed c = false /\ is_unknown_validation c = false.
Proof.
  induction cs as [|c cs IH]; intros seen; simpl.
  { split; [done|]. intros (l1 & ? & ? & H & _). by destruct l1. }
  fold (check_key c). case_bool_decide as Hs.
  { rewrite IH. split.
    - intros (l1 & x & l2 & -> & H1 & H2 & H3). exists (c :: l1), x, l2.
      assert (check_key x <> check_key c) by congruence.
      rewrite fmap_cons, not_elem_of_cons. naive_solver.
    - intros ([|y l1] & x & l2 & H & H1 & H2 & H3); simplify_eq/=; [done|].
      rewrite not_elem_of_cons in H2. exists l1, x, l2. naive_solver. }
  destruct (negb (check_passed c) && negb (is_unknown_validation c)) eqn:E.
  { boolhyps. split; [|done]. intros _. exists [], c, cs.
    split_and!; [done|done|apply not_elem_of_nil|done|done]. }
  rewrite IH. split.
  - intros (l1 & x & l2 & -> & H1 & H2 & H3). rewrite not_elem_of_cons in H1.
    exists (c :: l1), x, l2. rewrite fmap_cons, not_elem_of_cons. naive_solver.
  - intros ([|y l1] & x & l2 & H & H1 & H2 & H3 & H4); simplify_eq/=.
    { by rewrite H3, H4 in E. }
    rewrite not_elem_of_cons in H2. exists l1, x, l2. rewrite not_elem_of_cons. naive_solver.
Qed.

(** A kind has failed when the last check of some name and command of that kind
    failed, and is not merely unknown. *)
Lemma latest_check_failed_spec v kind :
  latest_check_failed v kind = true <->
  exists l1 c l2, List.filter (is_kind kind) (vr_checks v) = l1 ++ c :: l2 /\
    (check_key c ∉ (check_key <$> l2)) /\ check_passed c = false /\ is_unknown_validation c = false.
Proof.
  unfold latest_check_failed.
  assert (Hrev : List.filter (is_kind kind) (reverse (vr_checks v)) =
                 reverse (List.filter (is_kind kind) (vr_checks v))).
  { induction (vr_checks v) as [|c cs IH]; [done|].
    rewrite reverse_cons, List.filter_app, IH. simpl.
    destruct (is_kind kind c); [by rewrite reverse_cons|by rewrite app_nil_r]. }
  rewrite Hrev, failed_latest_spec. set (l := List.filter _ _). split.
  - intros (l1 & c & l2 & H & _ & Hn & Hp & Hu). exists (reverse l2), c, (reverse l1).
    rewrite <- (reverse_involutive l), H, reverse_app, reverse_cons, <- app_assoc.
    rewrite fmap_reverse, elem_of_reverse. done.
  - intros (l1 & c & l2 & H & Hn & Hp & Hu). exists (reverse l2), c, (reverse l1).
    rewrite H, reverse_app, reverse_cons, <- app_assoc, fmap_reverse, elem_of_reverse.
    split_and!; try done. apply not_elem_of_nil.
Qed.

(** A correction after a denied policy decision never asks the model to work on the
    delivery: the permission boundary is all it states. *)
Lemma denied_policy_action v l1 c l2 :
  vr_checks v = l1 ++ c :: l2 -> check_kind c = VerificationCheckKind.Policy ->
  check_passed c = false -> check_key c ∉ (check_key <$> l2) ->
  requested_action v = policy_action.
Proof.
  intros Hv Hk Hp Hn. unfold requested_action.
  rewrite (proj2 (latest_check_failed_spec v VerificationCheckKind.Policy)); [done|].
  rewrite Hv, List.filter_app. simpl. unfold is_kind at 2. rewrite (bool_decide_eq_true_2 _ Hk).
  eexists _, c, _. split_and!; [done| |done|].
  - intros (x & E & [Hx _]%elem_of_lfilter)%list_elem_of_fmap. apply Hn. rewrite E.
    by apply list_elem_of_fmap_2.
  - unfold is_unknown_validation, is_unknown_objective_check, is_kind. by rewrite Hk.
Qed.
