(* ===== verification/Evidence.v ===== *)
(** * Validation evidence

    What the runtime makes of the reports of commands that validate the task: the output
    of a background process put together from its reads ([validation_output.rs]), the
    terminal result of a process as the result of the command that started it
    ([process_validation.rs]), and whether a validation still holds for the workspace as
    it is now ([validation_freshness.rs], [is_documentation_only_file] of [lib.rs]).
    Fresh artifact ids are an argument; a path is its text. *)
From S2P Require Import Prelude RustStr Core TaskContract Verify Governed Correction.
Open Scope N_scope.

Definition facts_of (r : ToolExecutionReport) : json := structured_facts (rp_envelope r).
Definition tool_of (r : ToolExecutionReport) : string := env_tool_name (rp_envelope r).
Definition status_of (r : ToolExecutionReport) : ToolResultStatus := env_status (rp_envelope r).
Definition call_of (r : ToolExecutionReport) : ToolCallId := env_tool_call_id (rp_envelope r).
Definition fact (r : ToolExecutionReport) (key : string) : json := json_index (facts_of r) key.
Definition is_external (r : ToolExecutionReport) : bool :=
  bool_decide (env_risk (rp_envelope r) = "external_mcp_tool").

(** ** The output of a process, from its reads *)

(*@ runtime/src/validation_output.rs MAX_PENDING_LINE_BYTES *)
Definition MAX_PENDING_LINE_BYTES : N := 16 * 1024.
Definition newline : N := 10.

Section Normalize.
Context (new_id : nat -> ArtifactId).

(*@ runtime/src/validation_output.rs push_content *)
Definition push_content (output : list ArtifactContent) (bytes : list N) : list ArtifactContent :=
  match bytes with
  | [] => output
  | _ => output ++ [{| content_artifact_id := new_id (length output); content_bytes := bytes |}]
  end.

(** The output; the caller's pending bytes are cleared. *)
(*@ runtime/src/validation_output.rs finish_line *)
Definition finish_line (output : list ArtifactContent) (pending : list N) (discard : bool)
    : list ArtifactContent :=
  if discard then output else push_content output pending.

(** The local variables of [normalize]. *)
(*@ runtime/src/validation_output.rs:9-13 normalize *)
Record Scan := mkScan {
  sc_output : list ArtifactContent;
  sc_pending : list N;
  sc_cursor : option N;
  sc_discard_line : bool;
  sc_seen : list ArtifactId;
}.

(*@ runtime/src/validation_output.rs:19-27 normalize *)
Definition read_range (r : ToolExecutionReport) (a : ArtifactContent) : option (N * N) :=
  match as_u64 (fact r "output_start_cursor"), as_u64 (fact r "output_end_cursor") with
  | Some start, Some stop =>
      if (start <=? stop) && (stop - start =? N.of_nat (length (content_bytes a)))
         && negb (json_is_true (fact r "output_lost"))
         && bool_decide (length (rp_artifact_contents r) = 1%nat)
      then Some (start, stop) else None
  | _, _ => None
  end.

(** [lines], [pending] and [discard_line] after one more byte. *)
(*@ runtime/src/validation_output.rs:35-50 normalize *)
Definition scan_byte (st : list N * list N * bool) (b : N) : list N * list N * bool :=
  let '(lines, pending, discard) := st in
  if b =? newline then
    ((if discard then lines else lines ++ pending ++ [newline]), [], false)
  else if discard then st
  else if N.of_nat (length pending) <? MAX_PENDING_LINE_BYTES then (lines, pending ++ [b], false)
  else (lines, [], true).

Definition contiguous (cursor : option N) (range : option (N * N)) : bool :=
  match range with Some (start, _) => bool_decide (cursor = Some start) | None => false end.

(*@ runtime/src/validation_output.rs:16-54 normalize *)
Definition scan_artifact (s : Scan) (ra : ToolExecutionReport * ArtifactContent) : Scan :=
  let '(r, a) := ra in
  if bool_decide (content_artifact_id a ∈ sc_seen s) then s
  else
    let range := read_range r a in
    let '(output, pending, discard) :=
      if contiguous (sc_cursor s) range then (sc_output s, sc_pending s, sc_discard_line s)
      else (finish_line (sc_output s) (sc_pending s) (sc_discard_line s), [], false) in
    let '(lines, pending, discard) := foldl scan_byte ([], pending, discard) (content_bytes a) in
    {| sc_output := push_content output lines;
       sc_pending := pending;
       sc_cursor := snd <$> range;
       sc_discard_line := discard;
       sc_seen := content_artifact_id a :: sc_seen s |}.

Definition artifact_pairs (reports : list ToolExecutionReport)
    : list (ToolExecutionReport * ArtifactContent) :=
  r ← reports; pair r <$> rp_artifact_contents r.

(*@ runtime/src/validation_output.rs normalize *)
Definition normalize (reports : list ToolExecutionReport) : list ArtifactContent :=
  let s := foldl scan_artifact (mkScan [] [] None false []) (artifact_pairs reports) in
  finish_line (sc_output s) (sc_pending s) (sc_discard_line s).
End Normalize.

(** ** The result of a process *)

Definition identity_keys : list string := ["process_id"; "command"; "workdir"].

Definition nonempty_str (v : json) : bool :=
  match as_str v with Some s => negb (bool_decide (s = "")) | None => false end.

(*@ runtime/src/process_validation.rs same_process_observation *)
Definition same_process_observation (start later : ToolExecutionReport) : bool :=
  bool_decide (tool_of later = "shell_session")
  && negb (is_external later)
  && forallb (fun key => nonempty_str (fact start key)) identity_keys
  && match as_str (fact later "action") with
     | Some a => bool_decide (a ∈ ["read"; "write"; "wait"; "terminate"])
     | None => false
     end
  && forallb (fun key => json_eqb (fact start key) (fact later key)) identity_keys
  && (bool_decide ((json_get (facts_of start) "authoritative_pid" ≫= as_u64) = None)
      || json_eqb (fact start "authoritative_pid") (fact later "authoritative_pid")).

(*@ runtime/src/process_validation.rs same_terminal_event *)
Definition same_terminal_event (first later : ToolExecutionReport) : bool :=
  match as_u64 (fact first "terminal_event_id") with Some id => 0 <? id | None => false end
  && bool_decide (status_of first = status_of later)
  && forallb (fun key => json_eqb (fact first key) (fact later key))
       ["terminal_event_id"; "process_state"; "exit_code"; "terminal"].

(** The reports after the first one of the given call. *)
Fixpoint reports_after (id : ToolCallId) (reports : list ToolExecutionReport)
    : option (list ToolExecutionReport) :=
  match reports with
  | [] => None
  | c :: reports' => if bool_decide (call_of c = id) then Some reports' else reports_after id reports'
  end.

Definition is_terminal (r : ToolExecutionReport) : bool := json_is_true (fact r "terminal").

(** The observations before the first terminal one, that one, and the rest. *)
Fixpoint split_terminal (observations : list ToolExecutionReport)
    : option (list ToolExecutionReport * ToolExecutionReport * list ToolExecutionReport) :=
  match observations with
  | [] => None
  | o :: rest =>
      if is_terminal o then Some ([], o, rest)
      else '(before, terminal, after) ← split_terminal rest; Some (o :: before, terminal, after)
  end.

(** Insertion in an object, which is its sorted entries. *)
Fixpoint entries_insert (k : string) (v : json) (m : list (string * json)) : list (string * json) :=
  match m with
  | [] => [(k, v)]
  | (k', v') :: m' =>
      if bool_decide (k = k') then (k, v) :: m'
      else if String.ltb k k' then (k, v) :: m
      else (k', v') :: entries_insert k v m'
  end.

(** [value[key] = x]. On a value that is neither an object nor [Null] it panics; the facts
    it is used on have a [terminal] entry. *)
Definition json_set (v : json) (k : string) (x : json) : json :=
  match v with JObject m => JObject (entries_insert k x m) | JNull => JObject [(k, x)] | _ => v end.

Definition push_evidence (refs : list EvidenceId) (e : EvidenceId) : list EvidenceId :=
  if bool_decide (e ∈ refs) then refs else refs ++ [e].

(*@ runtime/src/process_validation.rs:16-25 resolve_validation_report *)
Definition runs_in_background (r : ToolExecutionReport) : bool :=
  bool_decide (tool_of r = "shell")
  && bool_decide (status_of r = ToolResultStatus.Ok)
  && negb (is_external r)
  && json_is_str (fact r "process_state") "running"
  && forallb (fun key => nonempty_str (fact r key)) identity_keys.

Section Resolve.
Context (new_id : nat -> ArtifactId).

(** The view [r] takes from its process once that has ended. *)
(*@ runtime/src/process_validation.rs:44-71 resolve_validation_report *)
Definition terminal_view (r : ToolExecutionReport) (before : list ToolExecutionReport)
    (terminal : ToolExecutionReport) (after : list ToolExecutionReport) : ToolExecutionReport :=
  let observed := before ++ terminal :: List.filter (same_terminal_event terminal) after in
  let e := rp_envelope r in
  let facts := facts_of terminal in
  {| rp_envelope :=
       {| env_tool_call_id := env_tool_call_id e;
          env_tool_name := env_tool_name e;
          env_status := status_of terminal;
          env_summary := env_summary (rp_envelope terminal);
          structured_facts :=
            match json_get (facts_of r) "runtime_objective_validation" with
            | Some metadata => json_set facts "runtime_objective_validation" metadata
            | None => facts
            end;
          model_visible_excerpt := model_visible_excerpt e;
          raw_artifact_ref := raw_artifact_ref e;
          env_evidence_refs :=
            foldl push_evidence (env_evidence_refs e)
              (o ← observed; env_evidence_refs (rp_envelope o));
          env_risk := env_risk e;
          verification_hint := verification_hint e |};
     rp_evidence := rp_evidence r;
     rp_changed_files := rp_changed_files r;
     rp_policy_evaluation := rp_policy_evaluation r;
     rp_artifact_contents := normalize new_id (r :: observed);
     rp_after_images := rp_after_images r |}.

(** [Cow::Owned] as [Some], [Cow::Borrowed] as [None]. *)
(*@ runtime/src/process_validation.rs:26-43 resolve_validation_report *)
Definition ended_view (r : ToolExecutionReport) (reports : list ToolExecutionReport)
    : option ToolExecutionReport :=
  if runs_in_background r then
    later ← reports_after (call_of r) reports;
    '(before, terminal, after) ← split_terminal (List.filter (same_process_observation r) later);
    Some (terminal_view r before terminal after)
  else None.

(*@ runtime/src/process_validation.rs resolve_validation_report *)
Definition resolve_validation_report (r : ToolExecutionReport)
    (reports : list ToolExecutionReport) : ToolExecutionReport :=
  default r (ended_view r reports).
End Resolve.

(** The candidates before the report itself. *)
Fixpoint find_origin (r : ToolExecutionReport) (reports : list ToolExecutionReport)
    : option ToolExecutionReport :=
  match reports with
  | [] => None
  | c :: reports' =>
      if bool_decide (call_of c = call_of r) then None
      else if bool_decide (tool_of c = "shell") && negb (is_external c)
              && same_process_observation c r then Some c
      else find_origin r reports'
  end.

(*@ runtime/src/process_validation.rs validation_origin *)
Definition validation_origin (r : ToolExecutionReport) (reports : list ToolExecutionReport)
    : ToolExecutionReport :=
  if bool_decide (tool_of r = "shell_session") then default r (find_origin r reports) else r.

(** ** Whether a validation is current *)

(** [Path::file_name], [Path::file_stem] and [Path::extension]. *)
Definition file_name (path : string) : option string :=
  match last (path_components path) with Some (Normal s) => Some s | _ => None end.

(** The text before and after the last dot. *)
Fixpoint rsplit_dot (s : string) : option (string * string) :=
  match s with
  | EmptyString => None
  | String a s' =>
      match rsplit_dot s' with
      | Some (before, after) => Some (String a before, after)
      | None => if byte_of a =? 46 then Some ("", s') else None
      end
  end.

Definition stem_and_extension (name : string) : string * option string :=
  match rsplit_dot name with
  | None | Some ("", _) => (name, None)
  | Some (before, after) => (before, Some after)
  end.
Definition file_stem (path : string) : option string := fst ∘ stem_and_extension <$> file_name path.
Definition extension (path : string) : option string := file_name path ≫= snd ∘ stem_and_extension.

Definition documentation_names : list string :=
  ["authors"; "changelog"; "changes"; "contributors"; "copying"; "license"; "notice"; "readme"].

(*@ runtime/src/lib.rs is_documentation_only_file *)
Definition is_documentation_only_file (path : string) : bool :=
  let ext := extension path in
  match ext with
  | Some e => bool_decide (e ∈ ["md"; "mdown"; "markdown"; "rst"])
  | None => false
  end
  || ((bool_decide (ext = None) || bool_decide (ext = Some "txt"))
      && match to_ascii_lowercase <$> file_stem path with
         | Some name =>
             existsb (fun p => bool_decide (name = p) || starts_with (p +:+ ".") name)
               documentation_names
         | None => false
         end).

Definition is_quote (c : N) : bool := (c =? 39) || (c =? 34).
Definition unquoted (part : string) : string := trim_matches is_quote part.
Definition scope_path (path : string) : string := replace_char backslash slash path.

(** [None] for a command that is not a direct check. *)
(*@ runtime/src/validation_freshness.rs direct_file_check_paths *)
Definition direct_file_check_paths (r : ToolExecutionReport) : option (list string) :=
  command ← json_get (facts_of r) "command" ≫= as_str;
  let parts := split_whitespace command in
  paths ← match parts with
    | [] => None
    | program :: _ =>
        if bool_decide (program = "test") then
          part ← last parts;
          let path := unquoted part in
          Some (if negb (bool_decide (path = "test")) && negb (starts_with "-" path)
                then [scope_path path] else [])
        else if (bool_decide (program = "cmp") || bool_decide (program = "diff"))
                && (3 <=? N.of_nat (length parts)) then
          Some (scope_path <$> List.filter (fun p => negb (starts_with "-" p))
                  (unquoted <$> take 2 (reverse parts)))
        else None
    end;
  match paths with [] => None | _ => Some paths end.

Definition in_scope (normalized scope : string) : bool :=
  bool_decide (normalized = scope) || starts_with (scope +:+ "/") normalized
  || starts_with (normalized +:+ "/") scope.

(*@ runtime/src/validation_freshness.rs direct_file_check_is_unaffected *)
Definition direct_file_check_is_unaffected (validation later : ToolExecutionReport) : bool :=
  match direct_file_check_paths validation with
  | None => false
  | Some paths =>
      negb (existsb (fun path =>
        negb (is_documentation_only_file path)
        && existsb (in_scope (scope_path path)) paths) (rp_changed_files later))
  end.

(*@ runtime/src/validation_freshness.rs only_proven_derived_outputs_changed *)
Definition only_proven_derived_outputs_changed (r : ToolExecutionReport) : bool :=
  bool_decide (tool_of r ∈ ["shell"; "shell_session"])
  && negb (is_external r)
  && bool_decide (status_of r = ToolResultStatus.Ok)
  && json_is_true (fact r "workspace_changes_known")
  && json_is_true (fact r "workspace_only_derived_changes")
  && negb (is_nil (rp_changed_files r)).

(** Whether a later report makes the validation out of date. *)
(*@ runtime/src/validation_freshness.rs:25-38 validation_is_current *)
Definition outdates (r later : ToolExecutionReport) : bool :=
  if only_proven_derived_outputs_changed later then false
  else if direct_file_check_is_unaffected r later then false
  else existsb (fun path => negb (is_documentation_only_file path)) (rp_changed_files later)
       || (json_is_true (fact later "workspace_mutation_detected")
           && negb (json_is_true (fact later "workspace_changes_known"))).

(*@ runtime/src/validation_freshness.rs validation_is_current *)
Definition validation_is_current (r : ToolExecutionReport) (reports : list ToolExecutionReport)
    : bool :=
  if bool_decide (tool_of r ∈ ["read_file"; "list_dir"]) then true
  else match reports_after (call_of r) reports with
       | None => false
       | Some later => negb (existsb (outdates r) later)
       end.

(*@ runtime/src/lib.rs effective_validation_is_current *)
Definition effective_validation_is_current (r : ToolExecutionReport)
    (reports : list ToolExecutionReport) : bool :=
  validation_is_current (validation_origin r reports) reports.

(** ** Reading the output as a stream *)

(** The complete lines of a text that starts inside the line [cur], and what is left of
    the last one. *)
Fixpoint cut (cur s : list N) : list (list N) * list N :=
  match s with
  | [] => ([], cur)
  | b :: s' =>
      if b =? newline then let '(ls, rest) := cut [] s' in (cur :: ls, rest)
      else cut (cur ++ [b]) s'
  end.

(** [str::lines], on bytes. *)
Definition lines (s : list N) : list (list N) :=
  let '(ls, rest) := cut [] s in ls ++ match rest with [] => [] | _ => [rest] end.

Definition short (line : list N) : bool := N.of_nat (length line) <=? MAX_PENDING_LINE_BYTES.
Definition kept_lines (s : list N) : list (list N) := List.filter short (lines s).

(** The reads that count: the first of each artifact. *)
Fixpoint reads (seen : list ArtifactId) (pairs : list (ToolExecutionReport * ArtifactContent))
    : list (option (N * N) * list N) :=
  match pairs with
  | [] => []
  | (r, a) :: pairs' =>
      if bool_decide (content_artifact_id a ∈ seen) then reads seen pairs'
      else (read_range r a, content_bytes a) :: reads (content_artifact_id a :: seen) pairs'
  end.

(** The stretches of the stream the reads cover: a read goes on with the stretch when it
    starts at the cursor where the one before ended. *)
Fixpoint streams (cursor : option N) (acc : list N) (rs : list (option (N * N) * list N))
    : list (list N) :=
  match rs with
  | [] => [acc]
  | (range, bytes) :: rs' =>
      if contiguous cursor range then streams (snd <$> range) (acc ++ bytes) rs'
      else acc :: streams (snd <$> range) bytes rs'
  end.

Definition output_streams (reports : list ToolExecutionReport) : list (list N) :=
  streams None [] (reads [] (artifact_pairs reports)).

Definition output_lines (contents : list ArtifactContent) : list (list N) :=
  c ← contents; lines (content_bytes c).

Definition unbroken (line : list N) : Prop := newline ∉ line.
Definition ended (line : list N) : list N := line ++ [newline].

Lemma cut_app cur s t :
  cut cur (s ++ t) =
    let '(ls, c) := cut cur s in let '(ls', c') := cut c t in (ls ++ ls', c').
Proof.
  revert cur. induction s as [|b s IH]; intros cur; simpl.
  - by destruct (cut cur t).
  - destruct (b =? newline); [|apply IH]. rewrite IH.
    destruct (cut [] s) as [ls c], (cut c t). done.
Qed.

Lemma cut_unbroken cur s : unbroken cur ->
  Forall unbroken (cut cur s).1 /\ unbroken (cut cur s).2.
Proof.
  unfold unbroken. revert cur. induction s as [|b s IH]; intros cur Hc; simpl; [done|].
  destruct (N.eqb_spec b newline) as [->|Hb].
  - destruct (IH []) as [H1 H2]; [set_solver|]. destruct (cut [] s). simpl in *. auto.
  - apply IH. set_solver.
Qed.

Lemma cut_line cur l s : unbroken l ->
  cut cur (l ++ newline :: s) = let '(ls, c) := cut [] s in ((cur ++ l) :: ls, c).
Proof.
  unfold unbroken. revert cur. induction l as [|b l IH]; intros cur Hl; simpl.
  - by rewrite app_nil_r.
  - destruct (N.eqb_spec b newline) as [->|Hb]; [set_solver|].
    rewrite IH by set_solver. by rewrite <- app_assoc.
Qed.

Lemma cut_partial cur l : unbroken l -> cut cur l = ([], cur ++ l).
Proof.
  unfold unbroken. revert cur. induction l as [|b l IH]; intros cur Hl; simpl.
  - by rewrite app_nil_r.
  - destruct (N.eqb_spec b newline) as [->|Hb]; [set_solver|].
    rewrite IH by set_solver. by rewrite <- app_assoc.
Qed.

Lemma lines_ended ls : Forall unbroken ls -> lines (ls ≫= ended) = ls.
Proof.
  intros H. unfold lines. assert (cut [] (ls ≫= ended) = (ls, [])) as ->; [|by rewrite app_nil_r].
  induction H as [|l ls Hl _ IH]; [done|]. cbn [mbind list_bind]. unfold ended at 1.
  rewrite <- app_assoc. simpl. by rewrite cut_line, IH.
Qed.

Lemma lines_partial l : unbroken l -> lines l = match l with [] => [] | _ => [l] end.
Proof. intros H. unfold lines. by rewrite cut_partial. Qed.

Lemma output_lines_push new_id out bytes :
  output_lines (push_content new_id out bytes) = output_lines out ++ lines bytes.
Proof.
  unfold output_lines, push_content. destruct bytes as [|b bs].
  - by rewrite app_nil_r.
  - rewrite bind_app. cbn [mbind list_bind content_bytes]. by rewrite app_nil_r.
Qed.

(** What [pending] and [discard_line] hold of the unfinished line [c]. *)
Definition carried (c : list N) : list N := if short c then c else [].

Lemma short_snoc c b :
  short (c ++ [b]) = short c && (N.of_nat (length c) <? MAX_PENDING_LINE_BYTES).
Proof. unfold short. rewrite length_app. simpl length.
  apply eq_true_iff_eq. rewrite andb_true_iff, !N.leb_le, N.ltb_lt. lia. Qed.

Lemma scan_bytes c bytes ln :
  foldl scan_byte (ln, carried c, negb (short c)) bytes =
    let '(ls, c') := cut c bytes in
    (ln ++ (List.filter short ls ≫= ended), carried c', negb (short c')).
Proof.
  revert c ln. induction bytes as [|b bs IH]; intros c ln; cbn [foldl cut].
  - cbn [List.filter mbind list_bind]. by rewrite app_nil_r.
  - unfold scan_byte at 2. destruct (N.eqb_spec b newline) as [->|Hb].
    + specialize (IH [] (if short c then ln ++ ended c else ln)).
      change (carried []) with (@nil N) in IH. change (negb (short [])) with false in IH.
      unfold carried. destruct (short c) eqn:E; simpl; unfold ended in *; rewrite IH;
        destruct (cut [] bs); simpl; rewrite ?E; cbn [mbind list_bind]; by rewrite <- ?app_assoc.
    + rewrite <- IH. f_equal. unfold carried. rewrite short_snoc.
      destruct (short c) eqn:E; simpl; [|done]. by destruct (_ <? _).
Qed.

(** The scan has handed out the short lines of the stretches before, those of the present
    stretch [acc] that are complete, and holds the unfinished one. *)
Record scan_holds (base : list (list N)) (acc : list N) (s : Scan) : Prop := {
  sh_output : output_lines (sc_output s) = base ++ List.filter short (cut [] acc).1;
  sh_pending : sc_pending s = carried (cut [] acc).2;
  sh_discard : sc_discard_line s = negb (short (cut [] acc).2);
}.

Lemma kept_lines_cut s :
  kept_lines s =
    List.filter short (cut [] s).1 ++ (if short (cut [] s).2 then lines (cut [] s).2 else []).
Proof.
  assert (Hu : unbroken (cut [] s).2) by (apply cut_unbroken; unfold unbroken; set_solver).
  rewrite (lines_partial _ Hu). unfold kept_lines, lines. destruct (cut [] s) as [ls c]; simpl.
  rewrite List.filter_app. f_equal. destruct c as [|b c]; [done|]. simpl. by destruct (short (b :: c)).
Qed.

Lemma finish_line_lines new_id base acc s : scan_holds base acc s ->
  output_lines (finish_line new_id (sc_output s) (sc_pending s) (sc_discard_line s)) =
    base ++ kept_lines acc.
Proof.
  intros [Ho Hp Hd]. rewrite kept_lines_cut. unfold finish_line. rewrite Hd, Hp. unfold carried.
  destruct (short (cut [] acc).2); simpl; rewrite ?output_lines_push, Ho, ?app_nil_r, ?app_assoc;
    done.
Qed.

Lemma scan_lines new_id base acc range seen (s : Scan) bytes : scan_holds base acc s ->
  let '(ln, p, d) := foldl scan_byte ([], sc_pending s, sc_discard_line s) bytes in
  scan_holds base (acc ++ bytes) (mkScan (push_content new_id (sc_output s) ln) p range d seen).
Proof.
  intros [Ho Hp Hd]. rewrite Hp, Hd, scan_bytes.
  assert (Hu : unbroken (cut [] acc).2) by (apply cut_unbroken; unfold unbroken; set_solver).
  pose proof (cut_app [] acc bytes) as Hc. destruct (cut [] acc) as [ls c]; simpl in *.
  destruct (cut_unbroken c bytes Hu) as [Hl _]. destruct (cut c bytes) as [ls' c']; simpl in *.
  split; simpl; rewrite Hc; try done. simpl.
  rewrite output_lines_push, Ho, lines_ended, List.filter_app; [by rewrite app_assoc|].
  apply Forall_forall. intros l [H _]%elem_of_lfilter. rewrite Forall_forall in Hl. by apply Hl.
Qed.

Lemma scan_holds_start new_id base acc s cursor seen : scan_holds base acc s ->
  scan_holds (base ++ kept_lines acc) []
    (mkScan (finish_line new_id (sc_output s) (sc_pending s) (sc_discard_line s)) []
       cursor false seen).
Proof.
  intros H. apply (finish_line_lines new_id) in H. split; simpl; rewrite ?app_nil_r; done.
Qed.

Lemma scan_pairs new_id pairs base acc s : scan_holds base acc s ->
  let s' := foldl (scan_artifact new_id) s pairs in
  output_lines (finish_line new_id (sc_output s') (sc_pending s') (sc_discard_line s')) =
    base ++ (streams (sc_cursor s) acc (reads (sc_seen s) pairs) ≫= kept_lines).
Proof.
  revert base acc s. induction pairs as [|[r a] pairs IH]; intros base acc s H; cbn [foldl reads].
  - cbn [streams mbind list_bind]. rewrite app_nil_r. by apply finish_line_lines.
  - unfold scan_artifact at 2 4 6. destruct (bool_decide _); [by apply IH|]. cbn [streams].
    destruct (contiguous (sc_cursor s) (read_range r a)).
    + pose proof (scan_lines new_id base acc (snd <$> read_range r a)
        (content_artifact_id a :: sc_seen s) s (content_bytes a) H) as H'.
      destruct (foldl scan_byte _ _) as [[ln p] d]. by apply IH in H'.
    + pose proof (scan_lines new_id _ _ (snd <$> read_range r a)
        (content_artifact_id a :: sc_seen s) _ (content_bytes a)
        (scan_holds_start new_id base acc s None [] H)) as H'.
      cbn [sc_pending sc_discard_line sc_output] in H'.
      destruct (foldl scan_byte _ _) as [[ln p] d]. apply IH in H'. cbn zeta in H' |- *.
      rewrite H'. cbn [mbind list_bind sc_cursor sc_seen]. by rewrite <- app_assoc.
Qed.

Lemma normalize_reads new_id reports :
  output_lines (normalize new_id reports) = output_streams reports ≫= kept_lines.
Proof. apply (scan_pairs new_id _ [] []). by split. Qed.

(** Every read starts where the one before ended. *)
Fixpoint chained (cursor : option N) (rs : list (option (N * N) * list N)) : bool :=
  match rs with
  | [] => true
  | (range, _) :: rs' => contiguous cursor range && chained (snd <$> range) rs'
  end.

Lemma streams_chained cursor acc rs : chained cursor rs = true ->
  streams cursor acc rs = [acc ++ (rs ≫= snd)].
Proof.
  revert cursor acc. induction rs as [|[range bytes] rs IH]; intros cursor acc H; simpl in *.
  - by rewrite app_nil_r.
  - apply andb_true_iff in H as [-> H]. rewrite IH by done. by rewrite <- app_assoc.
Qed.

(** Put together from any reads, the output of a process has exactly the
    lines of the stretches of its stream that the reads cover without a gap, lines over
    16 KiB left out: no line joins bytes from both sides of a gap, an overlap or a lost
    read. When every read starts where the one before ended these are the lines of the
    bytes in one piece, wherever the stream was cut. *)
Theorem normalize_equals_whole_reads new_id reports :
  output_lines (normalize new_id reports) = output_streams reports ≫= kept_lines
  /\ (forall first rest, reads [] (artifact_pairs reports) = first :: rest ->
      chained (snd <$> first.1) rest = true ->
      output_lines (normalize new_id reports) = kept_lines (first.2 ++ (rest ≫= snd))).
Proof.
  rewrite normalize_reads. split; [done|]. intros [range bytes] rest E H. unfold output_streams.
  rewrite E. cbn [streams]. assert (contiguous None range = false) as -> by (by destruct range as [[]|]).
  rewrite streams_chained by done. cbn [mbind list_bind fst snd]. by rewrite app_nil_r.
Qed.

Definition sample_report (call : ToolCallId) (tool : string) (facts : list (string * json))
    (contents : list ArtifactContent) (files : list string) : ToolExecutionReport :=
  {| rp_envelope :=
       {| env_tool_call_id := call; env_tool_name := tool; env_status := ToolResultStatus.Ok;
          env_summary := ""; structured_facts := JObject facts; model_visible_excerpt := None;
          raw_artifact_ref := None; env_evidence_refs := []; env_risk := "low";
          verification_hint := None |};
     rp_evidence := []; rp_changed_files := files;
     rp_policy_evaluation :=
       {| pe_policy_ref := 0; pe_subject := "tool"; pe_action := tool; pe_resource := "";
          pe_decision := PolicyDecision.Allow; pe_block_disposition := None; pe_reason := "";
          pe_evidence_refs := [] |};
     rp_artifact_contents := contents; rp_after_images := [] |}.

Definition sample_read (call : ToolCallId) (start stop : Z) (id : ArtifactId) (bytes : list N) :=
  sample_report call "shell_session"
    [("output_end_cursor", JInt stop); ("output_start_cursor", JInt start)]
    [{| content_artifact_id := id; content_bytes := bytes |}] [].

(** "ok 1\nok 2\n" cut inside its second line. *)
Lemma normalize_equals_whole_reads_witness :
  output_lines (normalize N.of_nat
    [sample_read 1 0 7 5 [111; 107; 32; 49; 10; 111; 107]; sample_read 2 7 10 6 [32; 50; 10]])
  = [[111; 107; 32; 49]; [111; 107; 32; 50]].
Proof.
  rewrite (proj2 (normalize_equals_whole_reads N.of_nat _) (Some (0, 7), [111; 107; 32; 49; 10; 111; 107])
    [(Some (7, 10), [32; 50; 10])]); by vm_compute.
Defined.

(** ** The result a background command takes from its process *)

Lemma reports_after_app id l later extra :
  reports_after id l = Some later -> reports_after id (l ++ extra) = Some (later ++ extra).
Proof.
  induction l as [|c l IH]; simpl; [done|]. destruct (bool_decide _); [by intros [= ->]|auto].
Qed.

Lemma reports_after_elem id l later o :
  reports_after id l = Some later -> o ∈ later -> o ∈ l.
Proof.
  induction l as [|c l IH]; simpl; [done|]. rewrite elem_of_cons.
  destruct (bool_decide _); [intros [= ->]|]; auto.
Qed.

Lemma split_terminal_spec l b t a : split_terminal l = Some (b, t, a) ->
  l = b ++ t :: a /\ is_terminal t = true.
Proof.
  revert b. induction l as [|o l IH]; intros b; simpl; [done|].
  destruct (is_terminal o) eqn:E; [by intros [= <- <- <-]|].
  destruct (split_terminal l) as [[[b' t'] a']|]; simpl; [|done]. intros [= <- <- <-].
  by destruct (IH b') as [-> ?].
Qed.

Lemma split_terminal_app l b t a extra : split_terminal l = Some (b, t, a) ->
  split_terminal (l ++ extra) = Some (b, t, a ++ extra).
Proof.
  revert b. induction l as [|o l IH]; intros b; simpl; [done|].
  destruct (is_terminal o); [by intros [= <- <- <-]|].
  destruct (split_terminal l) as [[[b' t'] a']|]; simpl; [|done]. intros [= <- <- <-].
  by rewrite (IH b').
Qed.

Lemma push_evidence_prefix refs es es' :
  foldl push_evidence refs es `prefix_of` foldl push_evidence refs (es ++ es').
Proof.
  rewrite foldl_app. generalize (foldl push_evidence refs es). clear refs es. intros refs.
  revert refs. induction es' as [|e es' IH]; intros refs; simpl; [done|].
  etrans; [|apply IH]. unfold push_evidence. case_bool_decide; [done|]. by apply prefix_app_r.
Qed.

Lemma filter_none {A} (f : A -> bool) l : Forall (fun x => f x = false) l -> List.filter f l = [].
Proof. by induction 1 as [|x l E _ IH]; simpl; rewrite ?E. Qed.

(** What a view keeps however many continuations follow the terminal observation. *)
Definition extends (v v' : ToolExecutionReport) : Prop :=
  status_of v' = status_of v /\ facts_of v' = facts_of v
  /\ env_summary (rp_envelope v') = env_summary (rp_envelope v)
  /\ env_evidence_refs (rp_envelope v) `prefix_of` env_evidence_refs (rp_envelope v').

Lemma terminal_view_extends new_id r b t a extra :
  extends (terminal_view new_id r b t a) (terminal_view new_id r b t (a ++ extra)).
Proof.
  unfold extends, terminal_view. cbn [rp_envelope env_evidence_refs env_summary status_of facts_of].
  split_and!; [done..|]. rewrite List.filter_app, !bind_app. cbn [mbind list_bind].
  rewrite bind_app, !app_assoc. apply push_evidence_prefix.
Qed.

Lemma ended_view_inv new_id r reports v : ended_view new_id r reports = Some v ->
  exists later b t a, reports_after (call_of r) reports = Some later
  /\ split_terminal (List.filter (same_process_observation r) later) = Some (b, t, a)
  /\ v = terminal_view new_id r b t a.
Proof.
  unfold ended_view. destruct (runs_in_background r); [|done].
  destruct (reports_after _ _) as [later|]; simpl; [|done].
  destruct (split_terminal _) as [[[b t] a]|] eqn:E; simpl; [|done]. intros [= <-]. eauto 8.
Qed.

(** The result of a command left running is that of its own process and final.
    Its status is the status of a terminal observation of the same process among the later
    reports; reports of other processes, wherever they are interleaved, change nothing;
    and later reports change neither status nor facts nor summary, they only add evidence,
    and only if they observe that process. *)
Theorem background_result_is_own_and_final new_id r reports v :
  ended_view new_id r reports = Some v ->
  (exists t, t ∈ reports /\ same_process_observation r t = true /\ is_terminal t = true
     /\ status_of v = status_of t)
  /\ (forall reports' later later',
        reports_after (call_of r) reports = Some later ->
        reports_after (call_of r) reports' = Some later' ->
        List.filter (same_process_observation r) later
          = List.filter (same_process_observation r) later' ->
        ended_view new_id r reports' = Some v)
  /\ (forall extra, exists v', ended_view new_id r (reports ++ extra) = Some v' /\ extends v v'
        /\ (Forall (fun o => same_process_observation r o = false) extra -> v' = v)).
Proof.
  intros H. destruct (ended_view_inv _ _ _ _ H) as (later & b & t & a & Hl & Hs & ->).
  unfold ended_view in *. destruct (runs_in_background r); [|done]. split_and!.
  - destruct (split_terminal_spec _ _ _ _ Hs) as [El Ht]. exists t.
    assert (t ∈ List.filter (same_process_observation r) later) as [Hin Hp]%elem_of_lfilter
      by (rewrite El; set_solver).
    split_and!; try done. by eapply reports_after_elem.
  - intros reports' l l' E E' Ef. rewrite Hl in E. injection E as <-.
    rewrite E'. simpl. by rewrite <- Ef, Hs.
  - intros extra. rewrite (reports_after_app _ _ _ extra Hl). simpl.
    rewrite List.filter_app, (split_terminal_app _ _ _ _ _ Hs). simpl. eexists. split; [done|].
    split; [apply terminal_view_extends|]. intros Hn. by rewrite filter_none, app_nil_r.
Qed.

Definition sample_process : list (string * json) :=
  [("action", JString "wait"); ("command", JString "cargo test"); ("process_id", JString "p1");
   ("terminal", JBool true); ("workdir", JString "/w")].

Definition sample_start : ToolExecutionReport :=
  sample_report 1 "shell"
    [("command", JString "cargo test"); ("process_id", JString "p1");
     ("process_state", JString "running"); ("workdir", JString "/w")] [] [].

Lemma background_result_is_own_and_final_witness :
  exists v, ended_view N.of_nat sample_start
      ([sample_start; sample_report 2 "shell_session" sample_process [] []]
       ++ [sample_report 3 "write_file" [] [] ["a.rs"]]) = Some v
    /\ status_of v = ToolResultStatus.Ok.
Proof.
  destruct (background_result_is_own_and_final N.of_nat sample_start
    [sample_start; sample_report 2 "shell_session" sample_process [] []] _ eq_refl) as (_ & _ & H).
  destruct (H [sample_report 3 "write_file" [] [] ["a.rs"]]) as (v & Hv & He & _).
  exists v. split; [exact Hv|]. destruct He as [-> _]. reflexivity.
Defined.

(** ** A current validation *)

(** What a later report may have done without making a validation of unknown
    dependencies out of date. *)
Definition harmless (l : ToolExecutionReport) : Prop :=
  only_proven_derived_outputs_changed l = true
  \/ (Forall (fun path => is_documentation_only_file path = true) (rp_changed_files l)
      /\ (json_is_true (fact l "workspace_mutation_detected") = true ->
          json_is_true (fact l "workspace_changes_known") = true)).

Lemma existsb_negb_false {A} (f : A -> bool) l :
  existsb (fun x => negb (f x)) l = false <-> Forall (fun x => f x = true) l.
Proof. rewrite existsb_false. apply Forall_iff. intros x. apply negb_false_iff. Qed.

Lemma outdates_harmless r l : direct_file_check_paths r = None ->
  outdates r l = false <-> harmless l.
Proof.
  intros Hd. unfold outdates, harmless, direct_file_check_is_unaffected. rewrite Hd.
  destruct (only_proven_derived_outputs_changed l); [naive_solver|].
  rewrite orb_false_iff, existsb_negb_false, andb_false_iff, negb_false_iff.
  destruct (json_is_true (fact l "workspace_mutation_detected")); naive_solver.
Qed.

(** A command whose first word is one of the file checks. *)
Definition begins_with_file_check (r : ToolExecutionReport) : Prop :=
  exists command program words, json_get (facts_of r) "command" ≫= as_str = Some command
    /\ split_whitespace command = program :: words /\ program ∈ ["test"; "cmp"; "diff"].

(** Nothing but documentation was changed at, above or below one of the paths. *)
Definition spares (paths : list string) (l : ToolExecutionReport) : Prop :=
  Forall (fun file => is_documentation_only_file file = true
    \/ Forall (fun path => scope_path file <> path /\ starts_with (path +:+ "/") (scope_path file) = false
                 /\ starts_with (scope_path file +:+ "/") path = false) paths) (rp_changed_files l).

Lemma direct_paths_begin r paths : direct_file_check_paths r = Some paths -> begins_with_file_check r.
Proof.
  unfold direct_file_check_paths, begins_with_file_check. intros (command & -> & H)%bind_Some.
  exists command. destruct (split_whitespace command) as [|program words]; [done|]. exists program, words.
  split_and!; [done..|]. destruct (bool_decide_reflect (program = "test")) as [->|_]; [set_solver|].
  destruct (bool_decide_reflect (program = "cmp")) as [->|_]; [set_solver|].
  destruct (bool_decide_reflect (program = "diff")) as [->|_]; [set_solver|]. done.
Qed.

Lemma unaffected_spares r l : direct_file_check_is_unaffected r l = true ->
  exists paths, direct_file_check_paths r = Some paths /\ spares paths l.
Proof.
  unfold direct_file_check_is_unaffected, spares. destruct (direct_file_check_paths r) as [paths|]; [|done].
  intros H%negb_true_iff. exists paths. split; [done|]. apply existsb_false in H.
  eapply Forall_impl; [exact H|]. intros file Hf. cbn in Hf.
  destruct (is_documentation_only_file file); [by left|right]. apply existsb_false in Hf.
  eapply Forall_impl; [exact Hf|]. unfold in_scope. intros path Hp.
  apply orb_false_iff in Hp as [[Hp%bool_decide_eq_false ?]%orb_false_iff ?]. done.
Qed.

(** What cannot outdate a validation: harmless reports and, for a command that begins with
    a file check, those that spare the paths its last words name. *)
Lemma not_outdated r l : outdates r l = false ->
  harmless l \/ (begins_with_file_check r /\ exists paths, direct_file_check_paths r = Some paths /\ spares paths l).
Proof.
  intros H. destruct (direct_file_check_is_unaffected r l) eqn:E.
  - right. apply unaffected_spares in E as (paths & Hp & Hs). split; [by eapply direct_paths_begin|by exists paths].
  - left. unfold outdates in H. rewrite E in H. unfold harmless.
    destruct (only_proven_derived_outputs_changed l); [by left|right].
    rewrite orb_false_iff, existsb_negb_false, andb_false_iff, negb_false_iff in H.
    destruct (json_is_true (fact l "workspace_mutation_detected")); naive_solver.
Qed.

Lemma reports_after_split id l later : reports_after id l = Some later ->
  exists before o, l = before ++ o :: later /\ call_of o = id.
Proof.
  induction l as [|c l IH]; simpl; [done|]. case_bool_decide as Hc.
  - intros [= <-]. by exists [], c.
  - intros (before & o & -> & Ho)%IH. by exists (c :: before), o.
Qed.

Lemma current_after r reports : tool_of r ∉ ["read_file"; "list_dir"] ->
  validation_is_current r reports = true ->
  exists before o later, reports = before ++ o :: later /\ call_of o = call_of r
    /\ Forall (fun l => harmless l \/ (begins_with_file_check r /\
         exists paths, direct_file_check_paths r = Some paths /\ spares paths l)) later.
Proof.
  intros Ht. unfold validation_is_current. rewrite bool_decide_false by done.
  destruct (reports_after _ _) as [later|] eqn:E; [|done]. intros H%negb_true_iff%existsb_false.
  apply reports_after_split in E as (before & o & -> & Ho). exists before, o, later.
  split_and!; [done..|]. eapply Forall_impl; [exact H|]. apply not_outdated.
Qed.

Lemma stale_stays_stale r reports later more :
  reports_after (call_of r) reports = Some later ->
  validation_is_current r reports = false -> validation_is_current r (reports ++ more) = false.
Proof.
  intros H. unfold validation_is_current. destruct (bool_decide _); [done|].
  rewrite (reports_after_app _ _ _ more H), H, existsb_app, !negb_false_iff. by intros ->.
Qed.

(** A passed check whose dependencies are not known counts as current
    exactly as long as nothing that could matter has happened since: every later report
    changed only documentation and left no workspace change unaccounted for, or is a
    successful run of the built-in shell that is known to have rewritten derived files
    only. Once out of date it stays so. *)
Theorem current_iff_nothing_changed r reports later more :
  reports_after (call_of r) reports = Some later ->
  tool_of r ∉ ["read_file"; "list_dir"] -> direct_file_check_paths r = None ->
  (validation_is_current r reports = true <-> Forall harmless later)
  /\ (validation_is_current r reports = false ->
      validation_is_current r (reports ++ more) = false).
Proof.
  intros Hl Ht Hd. split; [|by apply stale_stays_stale with later].
  unfold validation_is_current. rewrite bool_decide_false, Hl, negb_true_iff, existsb_false by done.
  apply Forall_iff. intros l. by apply outdates_harmless.
Qed.

Definition sample_test : ToolExecutionReport :=
  sample_report 1 "shell" [("command", JString "cargo test")] [] [].
Definition sample_edit (file : string) : ToolExecutionReport :=
  sample_report 2 "write_file" [] [] [file].

Lemma current_iff_nothing_changed_witness :
  validation_is_current sample_test [sample_test; sample_edit "docs/guide.md"] = true
  /\ validation_is_current sample_test ([sample_test; sample_edit "a.rs"] ++ [sample_test]) = false.
Proof.
  split.
  - apply (current_iff_nothing_changed sample_test _ [sample_edit "docs/guide.md"] []);
      [reflexivity|by vm_compute; set_solver|reflexivity|].
    constructor; [|constructor]. right. by split; [repeat constructor|].
  - apply (current_iff_nothing_changed sample_test _ [sample_edit "a.rs"]);
      [reflexivity|by vm_compute; set_solver|reflexivity|by vm_compute].
Defined.

(** ** Direct file checks *)

(** A direct check never goes out of date by a report that changed no file in its scope,
    also when that report's changes to the workspace are not known. *)
Lemma direct_check_ignores_unknown_changes r l paths :
  direct_file_check_paths r = Some paths -> rp_changed_files l = [] -> outdates r l = false.
Proof.
  intros Hp Hl. unfold outdates, direct_file_check_is_unaffected. rewrite Hp, Hl.
  by destruct (only_proven_derived_outputs_changed l).
Qed.

(** The scope is read off the words of the command, so a chain that begins with a file
    test has its last word as scope, and a build at its end survives every edit of a
    source file. *)
Lemma chained_build_survives_edit r edit :
  json_get (facts_of r) "command" = Some (JString "test -f Cargo.toml && cargo check") ->
  rp_changed_files edit = ["src/lib.rs"] -> outdates r edit = false.
Proof.
  intros Hr He. unfold outdates. destruct (only_proven_derived_outputs_changed edit); [done|].
  unfold direct_file_check_is_unaffected, direct_file_check_paths. by rewrite Hr, He.
Qed.

(** ** The command an observation belongs to *)

Lemma find_origin_spec r reports c : find_origin r reports = Some c ->
  exists before after, reports = before ++ c :: after
  /\ Forall (fun o => call_of o <> call_of r) before
  /\ tool_of c = "shell" /\ is_external c = false /\ same_process_observation c r = true.
Proof.
  induction reports as [|o reports IH]; simpl; [done|]. case_bool_decide as Ho; [done|].
  destruct (_ && _ && same_process_observation o r) eqn:E.
  - intros [= ->]. boolhyps. exists [], reports. split_and!; done.
  - intros (b & a & -> & Hb & ?)%IH. exists (o :: b), a. auto.
Qed.

(** The same process is observed through the start and through its origin: the view of
    an observation is the view of the command it was traced to. *)
Lemma origin_is_observed r reports :
  validation_origin r reports = r
  \/ (tool_of (validation_origin r reports) = "shell"
      /\ validation_origin r reports ∈ reports
      /\ same_process_observation (validation_origin r reports) r = true).
Proof.
  unfold validation_origin. case_bool_decide; [|by left].
  destruct (find_origin r reports) as [c|] eqn:E; [|by left]. right.
  destruct (find_origin_spec _ _ _ E) as (b & a & -> & _ & ? & _ & ?). simpl. set_solver.
Qed.
