(* ===== verification/Regex.v ===== *)
(** * Regular expressions

    What the [regex] crate documents of the patterns of
    [golutra-agent-runtime/src/objective_evidence.rs]: classes, alternation, repetition,
    the anchors [^] and [$] and the word boundary [\b], searched for in a text. Whether a
    character is a word character is an argument. The matcher takes derivatives, with the
    character before the present position, which the anchors look at. *)
From S2P Require Import Prelude RustStr.
Open Scope N_scope.

Inductive regex :=
| RNone
| REps
| RClass (f : N -> bool)
| RSeq (a b : regex)
| RAlt (a b : regex)
| RStar (a : regex)
| RStart
| REnd
| RBound.

Section Matching.
Context (is_word : N -> bool).

Definition word_at (c : option N) : bool := match c with Some c => is_word c | None => false end.

(** What stands before the end, and after the beginning, of a stretch of text. *)
Definition before_end (prev : option N) (s : list N) : option N :=
  match last s with Some c => Some c | None => prev end.
Definition after_start (s : list N) (next : option N) : option N :=
  match s with c :: _ => Some c | [] => next end.

(** [matches r prev s next]: the stretch [s] between the characters [prev] and [next]. *)
Inductive matches : regex -> option N -> list N -> option N -> Prop :=
| m_eps prev next : matches REps prev [] next
| m_class f c prev next : f c = true -> matches (RClass f) prev [c] next
| m_seq a b s t prev next :
    matches a prev s (after_start t next) -> matches b (before_end prev s) t next ->
    matches (RSeq a b) prev (s ++ t) next
| m_alt_l a b s prev next : matches a prev s next -> matches (RAlt a b) prev s next
| m_alt_r a b s prev next : matches b prev s next -> matches (RAlt a b) prev s next
| m_star_nil a prev next : matches (RStar a) prev [] next
| m_star_cons a s t prev next :
    matches a prev s (after_start t next) -> matches (RStar a) (before_end prev s) t next ->
    matches (RStar a) prev (s ++ t) next
| m_start next : matches RStart None [] next
| m_end prev : matches REnd prev [] None
| m_bound prev next : word_at prev <> word_at next -> matches RBound prev [] next.

(** ** The matcher *)

Fixpoint nullable (r : regex) (prev next : option N) : bool :=
  match r with
  | RNone | RClass _ => false
  | REps | RStar _ => true
  | RSeq a b => nullable a prev next && nullable b prev next
  | RAlt a b => nullable a prev next || nullable b prev next
  | RStart => match prev with None => true | _ => false end
  | REnd => match next with None => true | _ => false end
  | RBound => xorb (word_at prev) (word_at next)
  end.

Definition seq (a b : regex) : regex := match a with RNone => RNone | _ => RSeq a b end.
Definition alt (a b : regex) : regex :=
  match a, b with RNone, _ => b | _, RNone => a | _, _ => RAlt a b end.

Fixpoint deriv (r : regex) (prev : option N) (c : N) : regex :=
  match r with
  | RNone | REps | RStart | REnd | RBound => RNone
  | RClass f => if f c then REps else RNone
  | RSeq a b =>
      alt (seq (deriv a prev c) b) (if nullable a prev (Some c) then deriv b prev c else RNone)
  | RAlt a b => alt (deriv a prev c) (deriv b prev c)
  | RStar a => seq (deriv a prev c) (RStar a)
  end.

Fixpoint matches_prefix (r : regex) (prev : option N) (s : list N) : bool :=
  nullable r prev (head s)
  || match s with [] => false | c :: s' => matches_prefix (deriv r prev c) (Some c) s' end.

Fixpoint search_from (r : regex) (prev : option N) (s : list N) : bool :=
  matches_prefix r prev s
  || match s with [] => false | c :: s' => search_from r (Some c) s' end.

(** [Regex::is_match]. *)
Definition is_match (r : regex) (text : string) : bool := search_from r None (chars text).

(** ** The matcher decides *)

Lemma matches_none prev s next : ~ matches RNone prev s next.
Proof. by inversion 1. Qed.

Lemma matches_seq_inv a b prev s next : matches (RSeq a b) prev s next ->
  exists u v, s = u ++ v /\ matches a prev u (after_start v next)
    /\ matches b (before_end prev u) v next.
Proof. inversion 1; subst. eauto 6. Qed.

Lemma seq_spec a b prev s next : matches (seq a b) prev s next <-> matches (RSeq a b) prev s next.
Proof.
  destruct a; try done. split; [by intros ?%matches_none|].
  intros (u & v & _ & []%matches_none & _)%matches_seq_inv.
Qed.

Lemma matches_alt_iff a b prev s next :
  matches (RAlt a b) prev s next <-> matches a prev s next \/ matches b prev s next.
Proof.
  split; [inversion 1; subst; auto|]. intros [H|H]; [by apply m_alt_l|by apply m_alt_r].
Qed.

Lemma alt_spec a b prev s next :
  matches (alt a b) prev s next <-> matches a prev s next \/ matches b prev s next.
Proof.
  pose proof (matches_none prev s next).
  destruct a; simpl; [naive_solver|..]; destruct b; rewrite ?matches_alt_iff; naive_solver.
Qed.

Lemma before_end_cons prev c s : before_end prev (c :: s) = before_end (Some c) s.
Proof. unfold before_end. by destruct s as [|d s] using rev_ind; rewrite ?last_snoc, ?app_comm_cons, ?last_snoc. Qed.

Lemma nullable_spec r prev next : nullable r prev next = true <-> matches r prev [] next.
Proof.
  induction r as [| |f|a IHa b IHb|a IHa b IHb|a IHa| | |]; simpl.
  - split; [done|by intros ?%matches_none].
  - split; [constructor|done].
  - split; [done|by inversion 1].
  - rewrite andb_true_iff, IHa, IHb. split.
    + intros [Ha Hb]. by apply (m_seq a b [] []).
    + intros (u & v & E & Ha & Hb)%matches_seq_inv. symmetry in E.
      apply app_eq_nil in E as [-> ->]. done.
  - by rewrite orb_true_iff, IHa, IHb, matches_alt_iff.
  - split; [constructor|done].
  - split; [destruct prev; [done|constructor]|by inversion 1].
  - split; [destruct next; [done|constructor]|by inversion 1].
  - split.
    + intros H. constructor. intros E. by rewrite E, xorb_nilpotent in H.
    + inversion 1. subst. destruct (word_at prev), (word_at next); done.
Qed.

(** A repetition of a text that is not empty begins with a part that is not empty. *)
Lemma star_cons_inv a prev c s next : matches (RStar a) prev (c :: s) next ->
  exists u v, s = u ++ v /\ matches a prev (c :: u) (after_start v next)
    /\ matches (RStar a) (before_end (Some c) u) v next.
Proof.
  remember (RStar a) as r eqn:Er. remember (c :: s) as w eqn:Ew.
  intros H. revert Er c s Ew. induction H; intros Er d u Ew; try done. injection Er as ->.
  destruct s as [|e s]; simpl in *.
  - by apply IHmatches2.
  - injection Ew as -> <-. rewrite before_end_cons in *. eauto.
Qed.

Lemma deriv_spec r prev c s next :
  matches (deriv r prev c) (Some c) s next <-> matches r prev (c :: s) next.
Proof.
  revert prev s next. induction r as [| |f|a IHa b IHb|a IHa b IHb|a IHa| | |]; intros prev s next; simpl;
    try (split; [by intros ?%matches_none|by inversion 1]).
  - destruct (f c) eqn:E.
    + split; inversion 1; subst; by constructor.
    + split; [by intros ?%matches_none|]. inversion 1; congruence.
  - rewrite alt_spec, seq_spec. split.
    + intros [(u & v & -> & Ha%IHa & Hb)%matches_seq_inv|H].
      * apply (m_seq a b (c :: u) v); [done|]. by rewrite before_end_cons.
      * destruct (nullable a prev (Some c)) eqn:En; [|by apply matches_none in H].
        apply nullable_spec in En. apply IHb in H. by apply (m_seq a b [] (c :: s)).
    + intros (u & v & E & Ha & Hb)%matches_seq_inv. destruct u as [|d u]; simpl in *.
      * subst v. right. apply nullable_spec in Ha. simpl in Ha. rewrite Ha. by apply IHb.
      * injection E as <- ->. left. rewrite before_end_cons in Hb. constructor; [by apply IHa|done].
  - by rewrite alt_spec, IHa, IHb, matches_alt_iff.
  - rewrite seq_spec. split.
    + intros (u & v & -> & Ha%IHa & Hb)%matches_seq_inv.
      apply (m_star_cons a (c :: u) v); [done|]. by rewrite before_end_cons.
    + intros (u & v & -> & Ha & Hb)%star_cons_inv. constructor; [by apply IHa|done].
Qed.

Lemma matches_prefix_spec s : forall r prev,
  matches_prefix r prev s = true <-> exists u v, s = u ++ v /\ matches r prev u (head v).
Proof.
  induction s as [|c s IH]; intros r prev; cbn [matches_prefix head].
  - rewrite orb_false_r, nullable_spec. split; [by exists [], []|].
    intros (u & v & E & H). symmetry in E. by apply app_eq_nil in E as [-> ->].
  - rewrite orb_true_iff, nullable_spec, IH. split.
    + intros [H|(u & v & -> & H%deriv_spec)]; [by exists [], (c :: s)|by exists (c :: u), v].
    + intros (u & v & E & H). destruct u as [|d u]; simpl in *; [left; by subst|right].
      injection E as <- ->. apply deriv_spec in H. eauto.
Qed.

Lemma search_from_spec s : forall r prev,
  search_from r prev s = true <->
  exists x u v, s = x ++ u ++ v /\ matches r (before_end prev x) u (head v).
Proof.
  induction s as [|c s IH]; intros r prev; cbn [search_from].
  - rewrite orb_false_r, matches_prefix_spec. split.
    + intros (u & v & E & H). exists [], u, v. done.
    + intros (x & u & v & E & H). symmetry in E. apply app_eq_nil in E as [-> E]. eauto.
  - rewrite orb_true_iff, matches_prefix_spec, IH. split.
    + intros [(u & v & E & H)|(x & u & v & -> & H)].
      * by exists [], u, v.
      * exists (c :: x), u, v. by rewrite before_end_cons.
    + intros ([|d x] & u & v & E & H); simpl in E; [left; eauto|right].
      injection E as <- ->. rewrite before_end_cons in H. eauto.
Qed.

Lemma is_match_spec r text :
  is_match r text = true <->
  exists x u v, chars text = x ++ u ++ v /\ matches r (last x) u (head v).
Proof.
  unfold is_match. rewrite search_from_spec. split; intros (x & u & v & E & H); exists x, u, v;
    (split; [done|]); unfold before_end in *; by destruct (last x).
Qed.
End Matching.

(** ** Notations of patterns *)

Fixpoint lit (s : string) : regex :=
  match s with
  | EmptyString => REps
  | String a s' => RSeq (RClass (N.eqb (byte_of a))) (lit s')
  end.
Definition one_of (l : list regex) : regex := foldr RAlt RNone l.
Definition all_of (l : list regex) : regex := foldr RSeq REps l.
Definition words (l : list string) : regex := one_of (lit <$> l).
Definition opt (r : regex) : regex := RAlt r REps.
Definition plus (r : regex) : regex := RSeq r (RStar r).
Definition space : regex := RClass is_whitespace.
Definition digit : regex := RClass is_ascii_digit.
(** [.] is every character but the line feed. *)
Definition any_char : regex := RClass (fun c => negb (c =? 10)).
Definition set_of (s : string) : regex :=
  RClass (fun c => existsb (N.eqb c) (byte_of <$> String.list_ascii_of_string s)).
(** [[1-9][0-9]*]. *)
Definition positive : regex :=
  RSeq (RClass (fun c => (49 <=? c) && (c <=? 57))) (RStar digit).
