(* ===== verification/TestOutput.v ===== *)
(** * What test output proves

    The second half of [golutra-agent-runtime/src/objective_evidence.rs]: which lines of
    the output of a command show that tests ran, which contradict it, the structured
    facts a trusted runner may add, and the outcome a shell report has as a validation.
    The word characters of the [regex] crate and SHA-256 are arguments. *)
From S2P Require Import Prelude RustStr Core TaskContract Verify Governed Correction Evidence Regex.
Open Scope N_scope.

Module ObjectiveValidationKind.
(*@ runtime/src/objective_evidence.rs ObjectiveValidationKind *)
Inductive ObjectiveValidationKind := Test | Diagnostic | FileState.
#[global] Instance ObjectiveValidationKind_eq_dec : EqDecision ObjectiveValidationKind.
Proof. solve_decision. Defined.
End ObjectiveValidationKind.
Abbreviation ObjectiveValidationKind := ObjectiveValidationKind.ObjectiveValidationKind.

Module ObjectiveValidationStatus.
(*@ runtime/src/objective_evidence.rs ObjectiveValidationStatus *)
Inductive ObjectiveValidationStatus := Passed | Failed | Unknown.
#[global] Instance ObjectiveValidationStatus_eq_dec : EqDecision ObjectiveValidationStatus.
Proof. solve_decision. Defined.
End ObjectiveValidationStatus.
Abbreviation ObjectiveValidationStatus := ObjectiveValidationStatus.ObjectiveValidationStatus.

(*@ runtime/src/objective_evidence.rs ObjectiveValidationKind::label *)
Definition kind_label (k : ObjectiveValidationKind) : string :=
  match k with
  | ObjectiveValidationKind.Test => "test"
  | ObjectiveValidationKind.Diagnostic => "diagnostic"
  | ObjectiveValidationKind.FileState => "file_state"
  end.

(*@ runtime/src/objective_evidence.rs ObjectiveValidationKind::from_label *)
Definition kind_from_label (value : string) : option ObjectiveValidationKind :=
  if bool_decide (value = "test") then Some ObjectiveValidationKind.Test
  else if bool_decide (value = "diagnostic") then Some ObjectiveValidationKind.Diagnostic
  else if bool_decide (value = "file_state") then Some ObjectiveValidationKind.FileState
  else None.

(*@ runtime/src/objective_evidence.rs ObjectiveValidationOutcome *)
Record ObjectiveValidationOutcome := mkOutcome {
  ov_kind : ObjectiveValidationKind;
  ov_identity : string;
  ov_status : ObjectiveValidationStatus;
  ov_passed : bool;
  ov_message : string;
}.

(** ** The lines of an output *)

Definition replacement : N := 65533.
Definition between (lo hi b : N) : bool := (lo <=? b) && (b <=? hi).
Definition low_bits (b : N) : N := N.land b 63.

(** [String::from_utf8_lossy], as characters: the longest beginning of a sequence that
    cannot be completed is one replacement character. *)
Fixpoint from_utf8_lossy (s : list N) : list N :=
  match s with
  | [] => []
  | b0 :: s1 =>
      if b0 <? 128 then b0 :: from_utf8_lossy s1
      else if between 194 223 b0 then
        match s1 with
        | b1 :: s2 =>
            if between 128 191 b1 then
              N.lor (N.shiftl (N.land b0 31) 6) (low_bits b1) :: from_utf8_lossy s2
            else replacement :: from_utf8_lossy s1
        | [] => [replacement]
        end
      else if between 224 239 b0 then
        match s1 with
        | b1 :: s2 =>
            if between (if b0 =? 224 then 160 else 128) (if b0 =? 237 then 159 else 191) b1 then
              match s2 with
              | b2 :: s3 =>
                  if between 128 191 b2 then
                    N.lor (N.shiftl (N.land b0 15) 12)
                      (N.lor (N.shiftl (low_bits b1) 6) (low_bits b2)) :: from_utf8_lossy s3
                  else replacement :: from_utf8_lossy s2
              | [] => [replacement]
              end
            else replacement :: from_utf8_lossy s1
        | [] => [replacement]
        end
      else if between 240 244 b0 then
        match s1 with
        | b1 :: s2 =>
            if between (if b0 =? 240 then 144 else 128) (if b0 =? 244 then 143 else 191) b1 then
              match s2 with
              | b2 :: s3 =>
                  if between 128 191 b2 then
                    match s3 with
                    | b3 :: s4 =>
                        if between 128 191 b3 then
                          N.lor (N.shiftl (N.land b0 7) 18)
                            (N.lor (N.shiftl (low_bits b1) 12)
                               (N.lor (N.shiftl (low_bits b2) 6) (low_bits b3)))
                          :: from_utf8_lossy s4
                        else replacement :: from_utf8_lossy s3
                    | [] => [replacement]
                    end
                  else replacement :: from_utf8_lossy s2
              | [] => [replacement]
              end
            else replacement :: from_utf8_lossy s1
        | [] => [replacement]
        end
      else replacement :: from_utf8_lossy s1
  end.

Definition strip_return (line : list N) : list N :=
  match last line with
  | Some c => if c =? 13 then take (length line - 1) line else line
  | None => line
  end.

(** [str::lines]: a line loses its line feed and the carriage return before it. *)
Definition text_lines (s : list N) : list string :=
  let '(ls, rest) := cut [] s in
  of_chars <$> (strip_return <$> ls) ++ match rest with [] => [] | _ => [rest] end.

Definition report_lines (r : ToolExecutionReport) : list string :=
  a ← rp_artifact_contents r; text_lines (from_utf8_lossy (content_bytes a)).

(** ** Patterns *)

Definition tests : regex := RSeq (lit "test") (opt (lit "s")).
Definition specs : regex := RSeq (lit "spec") (opt (lit "s")).
Definition spaces : regex := plus space.
Definition anything : regex := RStar any_char.

(*@ runtime/src/objective_evidence.rs POSITIVE_RUNNING_TESTS *)
Definition POSITIVE_RUNNING_TESTS : regex :=
  all_of [RStart; words ["running"; "executing"]; spaces; positive; spaces;
          one_of [tests; specs]; RBound].

(*@ runtime/src/objective_evidence.rs POSITIVE_PYTHON_UNITTEST *)
Definition POSITIVE_PYTHON_UNITTEST : regex :=
  all_of [RStart; lit "ran"; spaces; positive; spaces; tests; RBound].

(*@ runtime/src/objective_evidence.rs POSITIVE_TEST_RESULT *)
Definition POSITIVE_TEST_RESULT : regex :=
  all_of [RStart; lit "test"; spaces; lit "result"; RBound; anything; RBound; positive; spaces;
          one_of [lit "passed"; lit "failed"; all_of [tests; spaces; lit "passed"];
                  all_of [tests; spaces; lit "failed"]]; RBound].

(*@ runtime/src/objective_evidence.rs POSITIVE_NAMED_TEST_SUMMARY *)
Definition POSITIVE_NAMED_TEST_SUMMARY : regex :=
  all_of [RStart; one_of [tests; all_of [lit "test"; spaces; lit "suite"; opt (lit "s")]];
          RStar space; set_of ":="; anything; RBound; positive; spaces;
          one_of [lit "passed"; lit "failed"; RSeq (lit "error") (opt (lit "s")); lit "error"];
          RBound; anything; RBound; one_of [lit "total"; tests]; RBound].

(*@ runtime/src/objective_evidence.rs POSITIVE_TESTS_COMPLETED *)
Definition POSITIVE_TESTS_COMPLETED : regex :=
  all_of [RStart; RStar (RClass (fun c => negb (is_ascii_digit c))); positive; spaces;
          one_of [tests; all_of [lit "test"; spaces; lit "case"; opt (lit "s")]; specs]; spaces;
          words ["completed"; "executed"; "ran"; "passed"; "failed"]; RBound].

(*@ runtime/src/objective_evidence.rs POSITIVE_MAVEN_TESTS *)
Definition POSITIVE_MAVEN_TESTS : regex :=
  all_of [RStart; tests; spaces; lit "run"; RStar space; lit ":"; RStar space; positive; RBound].

(*@ runtime/src/objective_evidence.rs POSITIVE_SWIFT_TESTS *)
Definition POSITIVE_SWIFT_TESTS : regex :=
  all_of [RStart; lit "executed"; spaces; positive; spaces; tests; RBound].

(*@ runtime/src/objective_evidence.rs POSITIVE_TEST_STATUS_SUMMARY *)
Definition POSITIVE_TEST_STATUS_SUMMARY : regex :=
  all_of [one_of [RStart; set_of "=:"; space]; positive; spaces;
          one_of [lit "passed"; lit "passing"; lit "failed"; RSeq (lit "error") (opt (lit "s"))];
          one_of [REnd; all_of [spaces; lit "in"; spaces; digit];
                  all_of [RStar space; set_of ",;()[]"]]].

(** ** What a line reports *)

Definition lowered (line : string) : string := to_ascii_lowercase (trim line).

(*@ runtime/src/objective_evidence.rs node_pass_count *)
Definition node_pass_count (line : string) : option N :=
  let line := trim line in
  rest ← match strip_prefix "# pass " line with
         | Some rest => Some rest
         | None => strip_prefix "ℹ pass " line
         end;
  parse_usize rest.

Section Lines.
Context (is_word : N -> bool).

(*@ runtime/src/objective_evidence.rs line_reports_explicit_test_execution *)
Definition line_reports_explicit_test_execution (line : string) : bool :=
  let line := lowered line in
  is_match is_word POSITIVE_RUNNING_TESTS line
  || is_match is_word POSITIVE_PYTHON_UNITTEST line
  || is_match is_word POSITIVE_TEST_RESULT line
  || is_match is_word POSITIVE_NAMED_TEST_SUMMARY line
  || is_match is_word POSITIVE_TESTS_COMPLETED line
  || is_match is_word POSITIVE_MAVEN_TESTS line
  || is_match is_word POSITIVE_SWIFT_TESTS line
  || starts_with "=== run " line
  || starts_with "--- pass:" line
  || match node_pass_count line with Some count => 0 <? count | None => false end.

(*@ runtime/src/objective_evidence.rs line_reports_status_test_execution *)
Definition line_reports_status_test_execution (line : string) : bool :=
  is_match is_word POSITIVE_TEST_STATUS_SUMMARY (lowered line).
End Lines.

Definition tab_after (s : string) : string := s +:+ String (byte 9) "".

(*@ runtime/src/objective_evidence.rs line_reports_go_package_success *)
Definition line_reports_go_package_success (line : string) : bool :=
  let line := lowered line in
  (starts_with "ok " line || starts_with (tab_after "ok") line)
  && negb (str_contains "[no test files]" line).

(*@ runtime/src/objective_evidence.rs line_reports_weak_test_execution *)
Definition line_reports_weak_test_execution (line : string) : bool :=
  line_reports_go_package_success line.

(*@ runtime/src/objective_evidence.rs line_reports_go_package_failure *)
Definition line_reports_go_package_failure (line : string) : bool :=
  let line := lowered line in
  bool_decide (line = "fail")
  || (starts_with "fail " line && negb (str_contains "failure:" line)).

(*@ runtime/src/objective_evidence.rs line_reports_global_no_test_execution *)
Definition line_reports_global_no_test_execution (line : string) : bool :=
  let line := lowered line in
  bool_decide (line ∈ ["# tests 0"; "ℹ tests 0"])
  || existsb (fun marker => str_contains marker line)
       ["no tests to run"; "no tests found"; "no matching tests"; "did not match any tests"].

(*@ runtime/src/objective_evidence.rs line_reports_package_no_test_execution *)
Definition line_reports_package_no_test_execution (line : string) : bool :=
  str_contains "[no test files]" (lowered line).

(** ** Trusted facts *)

(*@ runtime/src/objective_evidence.rs TRUSTED_TEST_EXECUTION_FACT *)
Definition TRUSTED_TEST_EXECUTION_FACT : string := "golutra_agent_test_execution".

Module TrustedTestExecutionStatus.
(*@ runtime/src/objective_evidence.rs TrustedTestExecutionStatus *)
Inductive TrustedTestExecutionStatus := Passed.
End TrustedTestExecutionStatus.
Abbreviation TrustedTestExecutionStatus := TrustedTestExecutionStatus.TrustedTestExecutionStatus.

(*@ runtime/src/objective_evidence.rs TrustedTestExecutionFacts *)
Record TrustedTestExecutionFacts := mkTrusted {
  tf_schema_version : N;
  tf_status : TrustedTestExecutionStatus;
  tf_executed : N;
  tf_passed : N;
  tf_failed : N;
  tf_skipped : N;
}.

(** serde's reader: an object of known fields, or the array of the fields in order; the
    last two default to 0. *)
Definition trusted_fields : list string :=
  ["schema_version"; "status"; "executed"; "passed"; "failed"; "skipped"].

Definition read_trusted (field : string -> option json) : option TrustedTestExecutionFacts :=
  version ← field "schema_version" ≫= as_u64;
  status ← field "status" ≫= variant_name;
  executed ← field "executed" ≫= as_u64;
  passed ← field "passed" ≫= as_u64;
  let count key := match field key with None => Some 0 | Some v => as_u64 v end in
  failed ← count "failed";
  skipped ← count "skipped";
  if (version <=? 255) && bool_decide (status = "passed")
  then Some (mkTrusted version TrustedTestExecutionStatus.Passed executed passed failed skipped)
  else None.

Definition trusted_from_value (v : json) : option TrustedTestExecutionFacts :=
  match v with
  | JObject m =>
      if forallb (fun '(k, _) => bool_decide (k ∈ trusted_fields)) m
      then read_trusted (json_get v) else None
  | JArray l =>
      if (length l <=? 6)%nat
      then read_trusted (json_get (JObject (zip trusted_fields l))) else None
  | _ => None
  end.

(*@ runtime/src/objective_evidence.rs trusted_structured_test_execution *)
Definition trusted_structured_test_execution (facts : json) : option bool :=
  value ← json_get facts TRUSTED_TEST_EXECUTION_FACT;
  parsed ← trusted_from_value value;
  Some ((tf_schema_version parsed =? 1)
        && (0 <? tf_executed parsed) && (0 <? tf_passed parsed) && (tf_failed parsed =? 0)
        && (sat_add u64_max (sat_add u64_max (tf_passed parsed) (tf_failed parsed))
              (tf_skipped parsed) <=? tf_executed parsed)).

(** ** What a report proves *)

(*@ runtime/src/objective_evidence.rs TestOutputEvidence *)
Record TestOutputEvidence := mkEvidence {
  te_node_pass_count : option N;
  te_explicit : bool;
  te_go_package_success : bool;
  te_go_package_failure : bool;
  te_weak : bool;
  te_global_no_test : bool;
  te_package_no_test : bool;
}.

Section Executed.
Context (is_word : N -> bool).

(*@ runtime/src/objective_evidence.rs:2085-2095 test_report_executed_tests *)
Definition observe_line (e : TestOutputEvidence) (line : string) : TestOutputEvidence :=
  {| te_node_pass_count :=
       match node_pass_count line with Some count => Some count | None => te_node_pass_count e end;
     te_explicit := te_explicit e || line_reports_explicit_test_execution is_word line;
     te_go_package_success := te_go_package_success e || line_reports_weak_test_execution line;
     te_go_package_failure := te_go_package_failure e || line_reports_go_package_failure line;
     te_weak := te_weak e || line_reports_status_test_execution is_word line;
     te_global_no_test := te_global_no_test e || line_reports_global_no_test_execution line;
     te_package_no_test := te_package_no_test e || line_reports_package_no_test_execution line |}.

Definition no_evidence : TestOutputEvidence := mkEvidence None false false false false false false.

(*@ runtime/src/objective_evidence.rs test_report_executed_tests *)
Definition test_report_executed_tests (r : ToolExecutionReport) : bool :=
  let e := foldl observe_line no_evidence (report_lines r) in
  if te_global_no_test e || te_go_package_failure e
     || bool_decide (te_node_pass_count e = Some 0) then false
  else
    match trusted_structured_test_execution (facts_of r) with
    | Some trusted_result => trusted_result
    | None =>
        negb (te_go_package_failure e)
        && (te_explicit e
            || (te_go_package_success e && negb (te_global_no_test e))
            || (te_weak e && negb (te_global_no_test e) && negb (te_package_no_test e)))
    end.

Definition fact_is_zero (v : option json) : bool :=
  match v with Some (JInt z) => (z =? 0)%Z | _ => false end.
Definition flag (r : ToolExecutionReport) (key : string) : bool :=
  default false (json_get (facts_of r) key ≫= as_bool).

(*@ runtime/src/objective_evidence.rs shell_report_exited_cleanly *)
Definition shell_report_exited_cleanly (r : ToolExecutionReport) : bool :=
  bool_decide (tool_of r = "shell")
  && bool_decide (status_of r = ToolResultStatus.Ok)
  && fact_is_zero (json_get (facts_of r) "exit_code")
  && negb (flag r "timed_out") && negb (flag r "cancelled").

(*@ runtime/src/objective_evidence.rs pending_validation *)
Definition pending_validation (r : ToolExecutionReport) (kind : ObjectiveValidationKind)
    (identity : string) : option ObjectiveValidationOutcome :=
  if bool_decide (status_of r = ToolResultStatus.Ok)
     && json_is_str (fact r "process_state") "running"
  then Some (mkOutcome kind identity ObjectiveValidationStatus.Unknown false
               "validation process is still running; wait for its terminal result")
  else None.

(*@ runtime/src/objective_evidence.rs shell_validation_outcome *)
Definition shell_validation_outcome (r : ToolExecutionReport) (kind : ObjectiveValidationKind)
    (identity : string) : ObjectiveValidationOutcome :=
  match pending_validation r kind identity with
  | Some pending => pending
  | None =>
      let exited_cleanly := shell_report_exited_cleanly r in
      let is_test := bool_decide (kind = ObjectiveValidationKind.Test) in
      let executed_tests := negb is_test || test_report_executed_tests r in
      let status :=
        if negb exited_cleanly then ObjectiveValidationStatus.Failed
        else if is_test && negb executed_tests then ObjectiveValidationStatus.Unknown
        else ObjectiveValidationStatus.Passed in
      mkOutcome kind identity status (bool_decide (status = ObjectiveValidationStatus.Passed))
        (if negb exited_cleanly then "validation command did not exit successfully"
         else if is_test && negb executed_tests then
           "test command exited successfully but no executed test was observed"
         else match kind with
              | ObjectiveValidationKind.Test => "test command passed with executed tests"
              | ObjectiveValidationKind.FileState => "file-state command passed"
              | ObjectiveValidationKind.Diagnostic => "diagnostic command passed"
              end)
  end.
End Executed.

(** ** Examples *)

Definition ascii_word (c : N) : bool := is_ascii_alphanumeric c || (c =? 95).

Example summary_lines :
  line_reports_explicit_test_execution ascii_word "test result: ok. 3 passed; 0 failed" = true
  /\ line_reports_explicit_test_execution ascii_word "running 0 tests" = false
  /\ line_reports_explicit_test_execution ascii_word "Ran 12 tests in 0.3s" = true
  /\ line_reports_explicit_test_execution ascii_word "Tests:  2 failed, 7 passed, 9 total" = true
  /\ line_reports_status_test_execution ascii_word "==== 5 passed in 0.12s ====" = true
  /\ line_reports_status_test_execution ascii_word "==== 0 passed in 0.12s ====" = false.
Proof. vm_compute. done. Qed.

(** ** Lines that report tests *)

Definition codes (s : string) : list N := byte_of <$> String.list_ascii_of_string s.

(** A number that is not zero, and white space between words. *)
Definition is_count (n : list N) : Prop :=
  exists d ds, n = d :: ds /\ 49 <= d <= 57 /\ Forall (fun c => 48 <= c <= 57) ds.
Definition blank (g : list N) : Prop := Forall (fun c => is_whitespace c = true) g.
Definition is_gap (g : list N) : Prop := g <> [] /\ blank g.

(** [counted nouns s]: the text [s] begins with a number that is not zero, white space, and
    one of the nouns. *)
Definition counted (nouns : list string) (s : list N) : Prop :=
  exists n g noun rest, s = n ++ g ++ codes noun ++ rest /\ is_count n /\ is_gap g /\ noun ∈ nouns.

(** What a line with a number of tests looks like. *)
Inductive test_line : list N -> Prop :=
| announced verb g s : verb ∈ ["running"; "executing"; "ran"; "executed"] -> is_gap g ->
    counted ["test"; "spec"] s -> test_line (codes verb ++ g ++ s)
| result_of_tests g mid s : is_gap g -> counted ["passed"; "failed"; "test"] s ->
    test_line (codes "test" ++ g ++ codes "result" ++ mid ++ s)
| summary_of_tests mid sep mid' s : sep = 58 \/ sep = 61 -> counted ["passed"; "failed"; "error"] s ->
    test_line (codes "test" ++ mid ++ sep :: mid' ++ s)
| tests_run mid g g' n rest : blank g -> blank g' -> is_count n ->
    test_line (codes "test" ++ mid ++ codes "run" ++ g ++ 58 :: g' ++ n ++ rest)
| tests_done before n g noun mid g' verb rest :
    Forall (fun c => is_ascii_digit c = false) before -> is_count n -> is_gap g ->
    noun ∈ ["test"; "spec"] -> is_gap g' ->
    verb ∈ ["completed"; "executed"; "ran"; "passed"; "failed"] ->
    test_line (before ++ n ++ g ++ codes noun ++ mid ++ g' ++ codes verb ++ rest).

(** A count of results, at the beginning or after [=], [:] or white space. *)
Definition status_line (s : list N) : Prop :=
  exists before rest, s = before ++ rest /\ counted ["passed"; "passing"; "failed"; "error"] rest
    /\ (before = [] \/ exists b c, before = b ++ [c] /\ (c = 61 \/ c = 58 \/ is_whitespace c = true)).

Section Patterns.
Context (is_word : N -> bool).

Lemma matches_lit t prev u next : matches is_word (lit t) prev u next -> u = codes t.
Proof.
  unfold codes. revert prev u next. induction t as [|a t IH]; intros prev u next H; cbn in *.
  - by inversion H.
  - apply matches_seq_inv in H as (x & y & -> & Ha & Hb). inversion Ha; subst.
    match goal with E : (_ =? _) = true |- _ => apply N.eqb_eq in E as <- end.
    by rewrite (IH _ _ _ Hb).
Qed.

Lemma matches_words l prev u next : matches is_word (words l) prev u next -> exists t, t ∈ l /\ u = codes t.
Proof.
  unfold words, one_of. induction l as [|t l IH]; cbn; [by intros ?%matches_none|].
  intros [H%matches_lit|(t' & ? & ?)%IH]%matches_alt_iff; [exists t|exists t']; set_solver.
Qed.

Lemma matches_class f prev u next : matches is_word (RClass f) prev u next -> exists c, u = [c] /\ f c = true.
Proof. inversion 1; subst. eauto. Qed.

Lemma matches_star f prev u next :
  matches is_word (RStar (RClass f)) prev u next -> Forall (fun c => f c = true) u.
Proof.
  remember (RStar (RClass f)) as r eqn:Er. intros H. induction H; simplify_eq; [done|].
  match goal with H : matches _ (RClass _) _ _ _ |- _ => apply matches_class in H as (c & -> & Hc) end.
  constructor; auto.
Qed.

Lemma matches_spaces prev u next : matches is_word spaces prev u next -> is_gap u.
Proof.
  intros (x & y & -> & (c & -> & Hc)%matches_class & Hy%matches_star)%matches_seq_inv.
  split; [done|by constructor].
Qed.

Lemma matches_positive prev u next : matches is_word positive prev u next -> is_count u.
Proof.
  intros (x & y & -> & (c & -> & [?%N.leb_le ?%N.leb_le]%andb_true_iff)%matches_class
    & Hy%matches_star)%matches_seq_inv.
  exists c, y. split_and!; [done..|]. eapply Forall_impl; [exact Hy|]. intros d Hd.
  unfold is_ascii_digit in Hd. apply andb_true_iff in Hd as [?%N.leb_le ?%N.leb_le]. lia.
Qed.

Lemma matches_start prev u next : matches is_word RStart prev u next -> prev = None /\ u = [].
Proof. by inversion 1. Qed.
Lemma matches_bound prev u next : matches is_word RBound prev u next -> u = [].
Proof. by inversion 1. Qed.
Lemma matches_eps prev u next : matches is_word REps prev u next -> u = [].
Proof. by inversion 1. Qed.
End Patterns.

(** Takes a match of a pattern apart. *)
Ltac match_parts :=
  repeat match goal with
  | H : matches _ (lit _) _ _ _ |- _ => apply matches_lit in H
  | H : matches _ (words _) _ _ _ |- _ => apply matches_words in H as (? & ? & H)
  | H : matches _ spaces _ _ _ |- _ => apply matches_spaces in H
  | H : matches _ positive _ _ _ |- _ => apply matches_positive in H
  | H : matches _ RStart _ _ _ |- _ => apply matches_start in H as [? H]
  | H : matches _ RBound _ _ _ |- _ => apply matches_bound in H
  | H : matches _ REps _ _ _ |- _ => apply matches_eps in H
  | H : matches _ RNone _ _ _ |- _ => by apply matches_none in H
  | H : matches _ (RSeq _ _) _ _ _ |- _ => apply matches_seq_inv in H as (? & ? & ? & ? & H)
  | H : matches _ (RAlt _ _) _ _ _ |- _ => apply matches_alt_iff in H as [H|H]
  | H : matches _ tests _ _ _ |- _ => unfold tests in H
  | H : matches _ specs _ _ _ |- _ => unfold specs in H
  | H : matches _ anything _ _ _ |- _ => clear H
  | H : matches _ (opt _) _ _ _ |- _ => clear H
  | H : matches _ (set_of _) _ _ _ |- _ => apply matches_class in H as (? & H & ?)
  | H : matches _ space _ _ _ |- _ => apply matches_class in H as (? & H & ?)
  | H : matches _ (RStar space) _ _ _ |- _ => apply matches_star in H
  | H : matches _ (all_of _) _ _ _ |- _ => cbn [all_of foldr] in H
  | H : matches _ (one_of _) _ _ _ |- _ => cbn [one_of foldr] in H
  end.

(** A match of a pattern that begins with an anchor begins at the beginning. *)
Lemma anchored is_word l text : is_match is_word (all_of (RStart :: l)) text = true ->
  exists u v prev next, chars text = u ++ v /\ matches is_word (all_of l) prev u next.
Proof.
  intros (x & u & v & E & (u' & u'' & -> & [Hx ->]%matches_start & H)%matches_seq_inv)%is_match_spec.
  apply last_None in Hx as ->. exists u'', v. eauto.
Qed.

Lemma counted_intro n g noun rest nouns s : s = n ++ g ++ codes noun ++ rest ->
  is_count n -> is_gap g -> noun ∈ nouns -> counted nouns s.
Proof. intros. by exists n, g, noun, rest. Qed.

(** Takes an anchored match apart and counts. *)
Ltac anchored_parts H :=
  let u := fresh "u" in let v := fresh "v" in
  apply anchored in H as (u & v & ? & ? & -> & H); match_parts; subst; rewrite <- ?app_assoc, ?app_nil_l.
Ltac count_them := eapply counted_intro; [reflexivity|assumption|assumption|set_solver].

Section Reports.
Context (is_word : N -> bool).

Lemma announced_reports r text : r ∈ [POSITIVE_RUNNING_TESTS; POSITIVE_PYTHON_UNITTEST; POSITIVE_SWIFT_TESTS] ->
  is_match is_word r text = true -> test_line (chars text).
Proof.
  intros Hr H. rewrite !elem_of_cons in Hr. destruct Hr as [->|[->|[->|Hr]]]; [..|set_solver]; anchored_parts H.
  all: (eapply announced; [|eassumption|count_them]; set_solver).
Qed.

Lemma result_reports text : is_match is_word POSITIVE_TEST_RESULT text = true -> test_line (chars text).
Proof. intros H. anchored_parts H. all: (eapply result_of_tests; [eassumption|count_them]). Qed.

Lemma set_of_elem c t : existsb (N.eqb c) (byte_of <$> String.list_ascii_of_string t) = true -> c ∈ codes t.
Proof. intros (d & Hd & ->%N.eqb_eq)%existsb_elem. done. Qed.

Lemma separator c : existsb (N.eqb c) (byte_of <$> String.list_ascii_of_string ":=") = true -> c = 58 \/ c = 61.
Proof. intros H%set_of_elem. vm_compute in H. set_solver. Qed.

Lemma summary_reports text : is_match is_word POSITIVE_NAMED_TEST_SUMMARY text = true -> test_line (chars text).
Proof.
  intros H. anchored_parts H. all: match goal with Hc : existsb _ _ = true |- _ => apply separator in Hc end.
  all: cbn [app]. all: rewrite ?(app_assoc _ _ (_ :: _)).
  all: (eapply summary_of_tests; [eassumption|count_them]).
Qed.

Lemma run_reports text : is_match is_word POSITIVE_MAVEN_TESTS text = true -> test_line (chars text).
Proof.
  intros H. anchored_parts H. all: rewrite ?(app_assoc _ _ (codes "run" ++ _)).
  all: match goal with |- context [codes ":" ++ ?l] => change (codes ":" ++ l) with (58 :: l) end.
  all: (eapply tests_run; eassumption).
Qed.

Lemma done_reports text : is_match is_word POSITIVE_TESTS_COMPLETED text = true -> test_line (chars text).
Proof.
  intros H. anchored_parts H.
  all: match goal with Hd : matches _ (RStar _) _ _ _ |- _ => apply matches_star in Hd end.
  all: try rewrite (app_assoc (codes "case")), (app_assoc _ (codes "case" ++ _)).
  all: (eapply tests_done; [|eassumption|eassumption|set_solver|eassumption..]).
  all: (eapply Forall_impl; [eassumption|]; intros c Hc; by apply negb_true_iff).
Qed.

Lemma status_reports text : is_match is_word POSITIVE_TEST_STATUS_SUMMARY text = true -> status_line (chars text).
Proof.
  intros (x & u & v & -> & (o & u' & -> & Ho & H)%matches_seq_inv)%is_match_spec.
  exists (x ++ o), (u' ++ v). rewrite <- !app_assoc. split_and!; [done| |].
  - clear Ho. cbn [foldr all_of] in H.
    do 3 (apply matches_seq_inv in H as (? & ? & -> & ? & H)). match_parts; subst; rewrite <- !app_assoc; count_them.
  - clear H. cbn [one_of foldr] in Ho. match_parts; subst.
    + left. match goal with Hx : last x = None |- _ => apply last_None in Hx; by subst end.
    + right. match goal with Hc : existsb _ _ = true |- _ => apply set_of_elem in Hc; vm_compute in Hc end.
      eexists _, _. split; [done|]. set_solver.
    + right. eexists _, _. split; [done|]. auto.
Qed.
End Reports.

(** A line that reports a test by its name, as [go test -v] does, or how many passed, as
    Node's runner does. *)
Definition named_test (line : string) : Prop :=
  starts_with "=== run " (lowered line) = true \/ starts_with "--- pass:" (lowered line) = true
  \/ exists n, node_pass_count (lowered line) = Some n /\ 0 < n.

(** The line [go test] prints for a package whose tests passed. *)
Definition go_package_ok (line : string) : Prop :=
  (starts_with "ok " (lowered line) = true \/ starts_with (tab_after "ok") (lowered line) = true)
  /\ str_contains "[no test files]" (lowered line) = false.

(** What a line of the output shows of a test that was run; the count of results alone
    only where no package was without tests. *)
Definition shows_a_test (all : list string) (line : string) : Prop :=
  test_line (chars (lowered line)) \/ named_test line \/ go_package_ok line
  \/ (status_line (chars (lowered line))
      /\ Forall (fun l => str_contains "[no test files]" (lowered l) = false) all).

(** A line that says that there were no tests, or that a package failed. *)
Definition denies_tests (line : string) : Prop :=
  lowered line ∈ ["# tests 0"; "ℹ tests 0"; "fail"]
  \/ (exists marker, marker ∈ ["no tests to run"; "no tests found"; "no matching tests"; "did not match any tests"]
       /\ str_contains marker (lowered line) = true)
  \/ (starts_with "fail " (lowered line) = true /\ str_contains "failure:" (lowered line) = false).

Lemma explicit_shows_a_test is_word line :
  line_reports_explicit_test_execution is_word line = true ->
  test_line (chars (lowered line)) \/ named_test line.
Proof.
  unfold line_reports_explicit_test_execution, named_test. rewrite !orb_true_iff. intros H.
  repeat match goal with H : _ \/ _ |- _ => destruct H as [H|H] end; auto;
    try (left; eapply announced_reports; [|exact H]; set_solver).
  - left. by apply (result_reports is_word).
  - left. by apply (summary_reports is_word).
  - left. by apply (done_reports is_word).
  - left. by apply (run_reports is_word).
  - right. destruct (node_pass_count _) as [n|]; [|done]. apply N.ltb_lt in H. eauto.
Qed.

Lemma go_success_line line : line_reports_go_package_success line = true -> go_package_ok line.
Proof.
  unfold line_reports_go_package_success, go_package_ok. rewrite andb_true_iff, orb_true_iff, negb_true_iff. done.
Qed.

Lemma denial_is_seen line :
  denies_tests line <-> line_reports_global_no_test_execution line = true
                        \/ line_reports_go_package_failure line = true.
Proof.
  unfold denies_tests, line_reports_global_no_test_execution, line_reports_go_package_failure.
  rewrite !orb_true_iff, !bool_decide_eq_true, existsb_elem, andb_true_iff, negb_true_iff.
  rewrite !elem_of_cons, !elem_of_nil. naive_solver.
Qed.

(** ** The evidence of all lines *)

Lemma observe_lines is_word ls e :
  let e' := foldl (observe_line is_word) e ls in
  te_explicit e' = te_explicit e || existsb (line_reports_explicit_test_execution is_word) ls
  /\ te_go_package_success e' = te_go_package_success e || existsb line_reports_weak_test_execution ls
  /\ te_go_package_failure e' = te_go_package_failure e || existsb line_reports_go_package_failure ls
  /\ te_weak e' = te_weak e || existsb (line_reports_status_test_execution is_word) ls
  /\ te_global_no_test e' = te_global_no_test e || existsb line_reports_global_no_test_execution ls
  /\ te_package_no_test e' = te_package_no_test e || existsb line_reports_package_no_test_execution ls
  /\ te_node_pass_count e' =
      match last (omap node_pass_count ls) with Some n => Some n | None => te_node_pass_count e end.
Proof.
  revert e. induction ls as [|l ls IH]; intros e; simpl.
  - by rewrite !orb_false_r.
  - destruct (IH (observe_line is_word e l)) as (H1 & H2 & H3 & H4 & H5 & H6 & H7).
    rewrite H1, H2, H3, H4, H5, H6, H7. simpl. rewrite !orb_assoc. split_and!; try done.
    destruct (node_pass_count l) as [n|]; simpl; [|done]. rewrite last_cons.
    by destruct (last _).
Qed.

(** What the lines of an output show, read as a whole. *)
Definition contradicted (ls : list string) : Prop :=
  Exists denies_tests ls \/ last (omap node_pass_count ls) = Some 0.

Lemma contradicted_seen ls :
  contradicted ls <->
  Exists (fun l => line_reports_global_no_test_execution l = true) ls
  \/ Exists (fun l => line_reports_go_package_failure l = true) ls
  \/ last (omap node_pass_count ls) = Some 0.
Proof.
  unfold contradicted. rewrite !Exists_exists. setoid_rewrite denial_is_seen. naive_solver.
Qed.

Definition supported (is_word : N -> bool) (ls : list string) : Prop :=
  Exists (fun l => line_reports_explicit_test_execution is_word l = true) ls
  \/ Exists (fun l => line_reports_go_package_success l = true) ls
  \/ (Exists (fun l => line_reports_status_test_execution is_word l = true) ls
      /\ ~ Exists (fun l => line_reports_package_no_test_execution l = true) ls).

Lemma existsb_Exists {A} (f : A -> bool) l : existsb f l = true <-> Exists (fun x => f x = true) l.
Proof. rewrite existsb_elem, Exists_exists. done. Qed.

Lemma executed_tests_spec is_word r :
  test_report_executed_tests is_word r = true <->
  ~ contradicted (report_lines r)
  /\ match trusted_structured_test_execution (facts_of r) with
     | Some b => b = true
     | None => supported is_word (report_lines r)
     end.
Proof.
  rewrite contradicted_seen. unfold test_report_executed_tests, supported.
  destruct (observe_lines is_word (report_lines r) no_evidence)
    as (-> & -> & -> & -> & -> & -> & ->). simpl.
  assert (Hlast : forall o : option N, match o with Some n => Some n | None => None end = o)
    by (by intros []). rewrite Hlast. rewrite <- !existsb_Exists.
  destruct (existsb line_reports_global_no_test_execution _); simpl; [naive_solver|].
  destruct (existsb line_reports_go_package_failure _); simpl; [naive_solver|].
  case_bool_decide as Hn; [naive_solver|].
  destruct (trusted_structured_test_execution _) as [b|]; [naive_solver|].
  change line_reports_weak_test_execution with line_reports_go_package_success.
  rewrite <- !existsb_Exists.
  destruct (existsb (line_reports_explicit_test_execution is_word) _),
    (existsb line_reports_go_package_success _),
    (existsb (line_reports_status_test_execution is_word) _),
    (existsb line_reports_package_no_test_execution _); simpl; naive_solver.
Qed.

Lemma exited_cleanly_facts r : shell_report_exited_cleanly r = true ->
  tool_of r = "shell" /\ status_of r = ToolResultStatus.Ok
  /\ json_get (facts_of r) "exit_code" = Some (JInt 0)
  /\ json_get (facts_of r) "timed_out" <> Some (JBool true)
  /\ json_get (facts_of r) "cancelled" <> Some (JBool true).
Proof.
  unfold shell_report_exited_cleanly, fact_is_zero, flag. intros H. boolhyps. split_and!; try done.
  - destruct (json_get _ "exit_code") as [[]|]; try done.
    match goal with H : (_ =? _)%Z = true |- _ => by apply Z.eqb_eq in H as -> end.
  - intros E. rewrite E in *. done.
  - intros E. rewrite E in *. done.
Qed.

Lemma trusted_facts facts : trusted_structured_test_execution facts = Some true ->
  exists value f, json_get facts TRUSTED_TEST_EXECUTION_FACT = Some value
    /\ trusted_from_value value = Some f /\ 0 < tf_executed f /\ 0 < tf_passed f /\ tf_failed f = 0
    /\ sat_add u64_max (tf_passed f) (tf_skipped f) <= tf_executed f.
Proof.
  unfold trusted_structured_test_execution. intros (value & Hv & (f & Hf & [= H])%bind_Some)%bind_Some.
  boolhyps. Nbool. exists value, f. split_and!; try done.
  match goal with H : tf_failed f = 0 |- _ => rewrite H in * end. sat_lia.
Qed.

Lemma supported_shows is_word ls : supported is_word ls -> Exists (shows_a_test ls) ls.
Proof.
  intros [H|[H|[H Hp]]]; eapply Exists_impl; try exact H; intros l Hl; unfold shows_a_test.
  - destruct (explicit_shows_a_test _ _ Hl); auto.
  - right. right. left. by apply go_success_line.
  - right. right. right. split; [by apply (status_reports is_word)|].
    apply Forall_forall. intros l' Hl'. apply not_true_iff_false. intros Hc. apply Hp, Exists_exists. by exists l'.
Qed.


Definition sample_output (text : string) : list ArtifactContent :=
  [{| content_artifact_id := 7; content_bytes := byte_of <$> String.list_ascii_of_string text |}].

