(* ===== verification/ValidationCommand.v ===== *)
(** * Which commands validate

    The first half of [golutra-agent-runtime/src/objective_evidence.rs] at the level of an
    argument vector and of Python source: which programs with which arguments check the
    result of a task, and which Python texts assert something about the running system.
    The Python grammar is an argument; a syntax tree is a [Node]. *)
From S2P Require Import Prelude RustStr Core TaskContract Verify Governed Correction Evidence Regex TestOutput ShellSyntax.
Open Scope N_scope.

(** ** Text helpers *)

(** [s.strip_suffix(p)], [s.rsplit_once(p)]. *)
Definition strip_suffix (p s : string) : option string :=
  if ends_with p s then Some (String.substring 0 (String.length s - String.length p) s) else None.
Fixpoint rsplit_once (p s : string) : option (string * string) :=
  match s with
  | EmptyString => None
  | String a s' =>
      match rsplit_once p s' with
      | Some (before, after) => Some (String a before, after)
      | None => (fun rest => ("", rest)) <$> strip_prefix p s
      end
  end.

(** A program by the last component of its path. *)
Definition program_name (program : string) : string := default program (file_name program).

Definition short_flag (flag : N) (part : string) : bool :=
  starts_with "-" part && negb (starts_with "--" part)
  && existsb (N.eqb flag) (drop 1 (chars part)).
Definition plain (part : string) : bool := negb (starts_with "-" part).

(*@ runtime/src/objective_evidence.rs stronger_validation_kind *)
Definition stronger_validation_kind (current : option ObjectiveValidationKind)
    (candidate : ObjectiveValidationKind) : ObjectiveValidationKind :=
  match current, candidate with
  | Some ObjectiveValidationKind.Test, _ | _, ObjectiveValidationKind.Test =>
      ObjectiveValidationKind.Test
  | Some ObjectiveValidationKind.Diagnostic, _ | _, ObjectiveValidationKind.Diagnostic =>
      ObjectiveValidationKind.Diagnostic
  | _, _ => ObjectiveValidationKind.FileState
  end.

(** ** Task names and options *)

Definition is_ascii_uppercase (c : N) : bool := (65 <=? c) && (c <=? 90).
Definition is_ascii_lowercase (c : N) : bool := (97 <=? c) && (c <=? 122).
Definition lower_char (c : N) : N := if is_ascii_uppercase c then c + 32 else c.
Definition flush (current : list N) (rest : list (list N)) : list (list N) :=
  match current with [] => rest | _ => current :: rest end.

Fixpoint words_from (previous : option N) (current : list N) (l : list N) : list (list N) :=
  match l with
  | [] => flush current []
  | c :: l' =>
      if negb (is_ascii_alphanumeric c) then flush current (words_from (Some c) [] l')
      else if is_ascii_uppercase c && negb (is_nil current)
              && (is_some_and (fun p => is_ascii_lowercase p || is_ascii_digit p) previous
                  || is_some_and is_ascii_lowercase (head l'))
      then current :: words_from (Some c) [lower_char c] l'
      else words_from (Some c) (current ++ [lower_char c]) l'
  end.

(*@ runtime/src/objective_evidence.rs task_name_words *)
Definition task_name_words (task : string) : list string :=
  of_chars <$> words_from None [] (chars task).

(*@ runtime/src/objective_evidence.rs named_validation_task_kind *)
Definition named_validation_task_kind (task : string) : option ObjectiveValidationKind :=
  let words := task_name_words task in
  if existsb (fun w => among w ["test"; "tests"]) words then Some ObjectiveValidationKind.Test
  else if existsb (fun w => among w ["build"; "check"; "lint"; "typecheck"; "verify"]) words
  then Some ObjectiveValidationKind.Diagnostic
  else None.

Fixpoint operands_from (options_with_values arguments : list string) : list string :=
  match arguments with
  | [] => []
  | argument :: rest =>
      if bool_decide (argument = "--") then []
      else if starts_with "-" argument && negb (bool_decide (argument = "-")) then
        if among argument options_with_values then
          match rest with [] => [] | _ :: rest' => operands_from options_with_values rest' end
        else operands_from options_with_values rest
      else argument :: operands_from options_with_values rest
  end.

(*@ runtime/src/objective_evidence.rs positional_operands *)
Definition positional_operands (argv options_with_values : list string) : list string :=
  operands_from options_with_values (drop 1 argv).

(*@ runtime/src/objective_evidence.rs CARGO_OPTIONS_WITH_VALUES *)
Definition CARGO_OPTIONS_WITH_VALUES : list string :=
  ["--color"; "--config"; "--manifest-path"; "--target-dir"; "-C"; "-Z"].
(*@ runtime/src/objective_evidence.rs PACKAGE_MANAGER_OPTIONS_WITH_VALUES *)
Definition PACKAGE_MANAGER_OPTIONS_WITH_VALUES : list string :=
  ["--access"; "--before"; "--cache"; "--cache-folder"; "--cwd"; "--dir"; "--filter"; "--heading";
   "--loglevel"; "--modules-folder"; "--mutex"; "--network-timeout"; "--otp"; "--prefix";
   "--registry"; "--scope"; "--script-shell"; "--tag"; "--userconfig"; "--use-yarnrc"; "--viewer";
   "--workspace"; "-C"; "-w"].
(*@ runtime/src/objective_evidence.rs MAKE_OPTIONS_WITH_VALUES *)
Definition MAKE_OPTIONS_WITH_VALUES : list string :=
  ["--directory"; "--eval"; "--file"; "--include-dir"; "--jobs"; "--load-average"; "--old-file";
   "--what-if"; "-C"; "-I"; "-W"; "-f"; "-j"; "-l"; "-o"].
(*@ runtime/src/objective_evidence.rs MAVEN_OPTIONS_WITH_VALUES *)
Definition MAVEN_OPTIONS_WITH_VALUES : list string :=
  ["--builder"; "--file"; "--global-settings"; "--projects"; "--resume-from"; "--settings";
   "--threads"; "--toolchains"; "-b"; "-f"; "-gs"; "-pl"; "-rf"; "-s"; "-t"; "-T"].
(*@ runtime/src/objective_evidence.rs GRADLE_OPTIONS_WITH_VALUES *)
Definition GRADLE_OPTIONS_WITH_VALUES : list string :=
  ["--build-file"; "--console"; "--gradle-user-home"; "--include-build"; "--init-script";
   "--max-workers"; "--priority"; "--project-dir"; "--settings-file"; "--warning-mode";
   "-b"; "-c"; "-g"; "-I"; "-p"].
(*@ runtime/src/objective_evidence.rs SWIFT_OPTIONS_WITH_VALUES *)
Definition SWIFT_OPTIONS_WITH_VALUES : list string :=
  ["--cache-path"; "--chdir"; "--config-path"; "--package-path"; "--scratch-path";
   "--security-path"].

(** ** Programs *)

(*@ runtime/src/objective_evidence.rs cargo_validation_kind *)
Definition cargo_validation_kind (argv : list string) : option ObjectiveValidationKind :=
  subcommand ← head (List.filter (fun a => negb (starts_with "+" a))
                       (positional_operands argv CARGO_OPTIONS_WITH_VALUES));
  if bool_decide (subcommand = "test") then Some ObjectiveValidationKind.Test
  else if among subcommand ["build"; "check"; "clippy"] then Some ObjectiveValidationKind.Diagnostic
  else if bool_decide (subcommand = "fmt") && existsb (fun p => bool_decide (p = "--check")) argv
  then Some ObjectiveValidationKind.Diagnostic
  else None.

(*@ runtime/src/objective_evidence.rs package_manager_validation_kind *)
Definition package_manager_validation_kind (argv : list string) : option ObjectiveValidationKind :=
  match positional_operands argv PACKAGE_MANAGER_OPTIONS_WITH_VALUES with
  | [] => None
  | command :: remaining =>
      if among command ["run"; "run-script"] then head remaining ≫= named_validation_task_kind
      else named_validation_task_kind command
  end.

(*@ runtime/src/objective_evidence.rs build_task_validation_kind *)
Definition build_task_validation_kind (argv options_with_values : list string)
    : option ObjectiveValidationKind :=
  foldl (fun current kind => Some (stronger_validation_kind current kind)) None
    (omap named_validation_task_kind
       (List.filter (fun a => negb (str_contains "=" a))
          (positional_operands argv options_with_values))).

(*@ runtime/src/objective_evidence.rs swift_validation_kind *)
Definition swift_validation_kind (argv : list string) : option ObjectiveValidationKind :=
  head (positional_operands argv SWIFT_OPTIONS_WITH_VALUES) ≫= named_validation_task_kind.

Fixpoint node_scan (test_mode : bool) (arguments : list string) : bool :=
  match arguments with
  | [] => test_mode
  | part :: rest =>
      if bool_decide (part = "--test") then node_scan true rest
      else if among part ["-e"; "--eval"; "-p"; "--print"; "--"; "--help"; "-h"; "--version"; "-v"]
      then false
      else if starts_with "--eval=" part || starts_with "--print=" part then false
      else if starts_with "-" part then node_scan test_mode rest
      else test_mode
  end.

(*@ runtime/src/objective_evidence.rs node_runs_tests *)
Definition node_runs_tests (argv : list string) : bool := node_scan false (drop 1 argv).

(*@ runtime/src/objective_evidence.rs curl_is_fail_fast_http_probe *)
Definition curl_is_fail_fast_http_probe (argv : list string) : bool :=
  existsb (fun part => among part ["--fail"; "--fail-with-body"] || short_flag 102 part) (drop 1 argv)
  && existsb (fun part => starts_with "http://" part || starts_with "https://" part) (drop 1 argv).

(*@ runtime/src/objective_evidence.rs comparison_has_two_operands *)
Definition comparison_has_two_operands (argv : list string) : bool :=
  (2 <=? length (List.filter plain (drop 1 argv)))%nat.

(*@ runtime/src/objective_evidence.rs test_command_validates_file_state *)
Definition test_command_validates_file_state (argv : list string) : bool :=
  is_some_and (fun a => among a ["-b"; "-c"; "-d"; "-e"; "-f"; "-g"; "-h"; "-L"; "-p"; "-r"; "-s";
                                 "-S"; "-u"; "-w"; "-x"]) (argv !! 1%nat)
  && is_some_and (fun path => negb (bool_decide (path = ""))) (argv !! 2%nat).

(*@ runtime/src/objective_evidence.rs shell_operand_depends_on_runtime *)
Definition shell_operand_depends_on_runtime (operand : string) : bool := has_byte [36; 96] operand.

(*@ runtime/src/objective_evidence.rs test_command_validates_runtime_comparison *)
Definition test_command_validates_runtime_comparison (argv : list string) : bool :=
  match argv with
  | [program; operator; operand] =>
      bool_decide (program = "test") && among operator ["-n"; "-z"]
      && shell_operand_depends_on_runtime operand
  | [program; lhs; operator; rhs] =>
      bool_decide (program = "test")
      && among operator ["-eq"; "-ne"; "-gt"; "-ge"; "-lt"; "-le"]
      && negb (bool_decide (lhs = rhs))
      && (shell_operand_depends_on_runtime lhs || shell_operand_depends_on_runtime rhs)
  | _ => false
  end.

(*@ runtime/src/objective_evidence.rs quiet_content_check *)
Definition quiet_content_check (argv : list string) (piped_input : bool) : bool :=
  match head argv ≫= file_name with
  | None => false
  | Some program =>
      among program ["grep"; "rg"]
      && existsb (fun part => among part ["--quiet"; "--silent"] || short_flag 113 part) (drop 1 argv)
      && ((if piped_input then 1 else 2) <=? length (List.filter plain (drop 1 argv)))%nat
  end.

Fixpoint take_until (stop : string) (l : list string) : list string :=
  match l with
  | [] => []
  | part :: l' => if bool_decide (part = stop) then [] else part :: take_until stop l'
  end.

(*@ runtime/src/objective_evidence.rs git_command_validates_result *)
Definition git_command_validates_result (argv : list string) : bool :=
  if bool_decide (argv !! 1%nat = Some "merge-base")
     && bool_decide (argv !! 2%nat = Some "--is-ancestor") then (5 <=? length argv)%nat
  else if negb (bool_decide (argv !! 1%nat = Some "diff"))
          || negb (existsb (fun part => among part ["--exit-code"; "--quiet"]) argv) then false
  else
    let revisions := List.filter plain (take_until "--" (drop 2 argv)) in
    let has_explicit_pathspec :=
      match list_find (fun p => p = "--") argv with
      | Some (separator, _) => (separator + 1 <? length argv)%nat
      | None => false
      end in
    (2 <=? length revisions)%nat || existsb (str_contains "..") revisions
    || (bool_decide (length revisions = 1%nat) && has_explicit_pathspec).

(*@ runtime/src/objective_evidence.rs python_module_runs_tests *)
Fixpoint python_module_runs_tests (argv : list string) : bool :=
  match argv with
  | option :: ((module :: _) as rest) =>
      (bool_decide (option = "-m") && among module ["pytest"; "unittest"])
      || python_module_runs_tests rest
  | _ => false
  end.

(*@ runtime/src/objective_evidence.rs shell_command_is_read_only *)
Definition shell_command_is_read_only (argv : list string) : bool :=
  match head argv ≫= file_name with
  | None => false
  | Some program =>
      if among program ["cat"; "cut"; "du"; "file"; "grep"; "head"; "ls"; "printf"; "pwd"; "readlink";
                        "rg"; "sort"; "stat"; "strings"; "tail"; "tr"; "uniq"; "wc"] then true
      else if bool_decide (program = "find") then
        negb (existsb (fun p => among p ["-delete"; "-exec"; "-execdir"; "-ok"; "-okdir"]) argv)
      else if bool_decide (program = "git") then
        match argv !! 1%nat with
        | Some sub =>
            if bool_decide (sub = "branch") then
              forallb (fun p => bool_decide (p = "--show-current")) (drop 2 argv)
            else among sub ["diff"; "log"; "merge-base"; "rev-parse"; "show"; "status"]
        | None => false
        end
      else if bool_decide (program = "tmux") then
        let has option := existsb (fun p => bool_decide (p = option)) argv in
        match argv !! 1%nat with
        | Some sub =>
            if bool_decide (sub = "capture-pane") then has "-p" && negb (has "-b")
            else if bool_decide (sub = "display-message") then has "-p"
            else among sub ["has-session"; "list-buffers"; "list-clients"; "list-commands";
                            "list-keys"; "list-panes"; "list-sessions"; "list-windows";
                            "server-info"; "show-environment"; "show-hooks"; "show-messages";
                            "show-options"; "show-window-options"]
        | None => false
        end
      else false
  end.

Fixpoint errexit_scan (enabled : bool) (arguments : list string) : bool :=
  match arguments with
  | [] => enabled
  | part :: rest =>
      if bool_decide (part = "+e") || (starts_with "+" part && str_contains "e" (rest_of part))
      then false
      else
        match rest with
        | name :: rest' =>
            if bool_decide (part = "-o") && bool_decide (name = "errexit")
            then errexit_scan true rest'
            else errexit_scan (enabled || bool_decide (part = "-e")
                   || (starts_with "-" part && str_contains "e" (rest_of part))) rest
        | [] => enabled || bool_decide (part = "-e")
                || (starts_with "-" part && str_contains "e" (rest_of part))
        end
  end.

(*@ runtime/src/objective_evidence.rs shell_command_enables_errexit *)
Definition shell_command_enables_errexit (argv : list string) : bool :=
  match argv with
  | program :: arguments => bool_decide (program = "set") && errexit_scan false arguments
  | [] => false
  end.

(*@ runtime/src/objective_evidence.rs shell_command_can_change_or_skip_validation *)
Definition shell_command_can_change_or_skip_validation (argv : list string) : bool :=
  match argv with
  | [] => true
  | program :: _ =>
      among (program_name program)
        ["."; "alias"; "bash"; "break"; "builtin"; "command"; "continue"; "enable"; "eval"; "exec";
         "exit"; "hash"; "return"; "set"; "sh"; "source"; "trap"; "unalias"; "zsh"]
  end.

(** ** Python *)

Definition is_kind_of (n : Node) (kinds : list string) : bool := among (node_kind n) kinds.

(** The children with what has been computed for each. *)
Definition below {A} (f : Node -> A) (n : Node) : list (Node * A) :=
  List.map (fun c => (c, f c)) (node_children n).
Definition named_below {A} (l : list (Node * A)) : list (Node * A) :=
  List.filter (fun c => node_named c.1) l.
Definition field_below {A} (field : string) (l : list (Node * A)) : option (Node * A) :=
  List.find (fun c => bool_decide (node_field c.1 = Some field)) l.

(** [s.parse::<f64>()] and whether the value differs from zero. A decimal number is
    rounded to zero exactly when it is at most half the least subnormal, 2^-1075. *)
Definition take_digits (l : list N) : list N * list N :=
  let rest := drop_while is_ascii_digit l in (take (length l - length rest) l, rest).
Definition digits_value (l : list N) : N := foldl (fun v c => v * 10 + (c - 48)) 0 l.
Definition unsigned (l : list N) : list N :=
  match l with c :: l' => if (c =? 43) || (c =? 45) then l' else l | [] => [] end.

Definition exponent_of (l : list N) : option Z :=
  match l with
  | [] => Some 0%Z
  | e :: l' =>
      if (e =? 101) || (e =? 69) then
        let '(digits, rest) := take_digits (unsigned l') in
        match digits, rest with
        | _ :: _, [] =>
            let value := Z.of_N (digits_value digits) in
            Some (if bool_decide (head l' = Some 45) then Z.opp value else value)
        | _, _ => None
        end
      else None
  end.

Definition decimal_is_nonzero (mantissa : N) (exponent : Z) : bool :=
  negb (mantissa =? 0)
  && ((0 <=? exponent) || (10 ^ (- exponent) <? Z.of_N mantissa * 2 ^ 1075))%Z.

Definition parse_f64_is_nonzero (s : string) : option bool :=
  let body := unsigned (chars s) in
  if among (to_ascii_lowercase (of_chars body)) ["inf"; "infinity"; "nan"] then Some true
  else
    let '(whole, rest) := take_digits body in
    let '(fraction, rest) :=
      match rest with
      | c :: rest' => if c =? 46 then take_digits rest' else ([], rest)
      | [] => ([], [])
      end in
    if is_nil (whole ++ fraction) then None
    else
      exponent ← exponent_of rest;
      Some (decimal_is_nonzero (digits_value (whole ++ fraction))
              (exponent - Z.of_nat (length fraction))).

Definition number_is_nonzero (source : string) (n : Node) : option bool :=
  text ← node_text source n;
  parse_f64_is_nonzero (String.concat "" (split_on (byte 95) text)).

Definition quotes (n : nat) (q : N) : string := of_chars (replicate n q).

(*@ runtime/src/objective_evidence.rs python_constant_truthiness *)
Fixpoint python_constant_truthiness (source : string) (n : Node) : option bool :=
  if is_kind_of n ["true"] then Some true
  else if is_kind_of n ["false"; "none"] then Some false
  else if is_kind_of n ["parenthesized_expression"] then
    head (named_below (below (python_constant_truthiness source) n)) ≫= snd
  else if is_kind_of n ["integer"; "float"] then number_is_nonzero source n
  else if is_kind_of n ["string"] then
    text ← node_text source n;
    Some (negb (among text [quotes 2 39; quotes 2 34; quotes 6 39; quotes 6 34]))
  else if is_kind_of n ["list"; "dictionary"; "set"; "tuple"] then
    Some (negb (is_nil (named_children n)))
  else if is_kind_of n ["unary_operator"] then number_is_nonzero source n
  else None.

(*@ runtime/src/objective_evidence.rs python_string_names_external_resource *)
Definition python_string_names_external_resource (raw : string) : bool :=
  let value :=
    trim_matches is_quote
      (of_chars (drop_while (fun c => existsb (N.eqb (lower_char c)) [98; 102; 114; 117]) (chars raw))) in
  str_contains "://" value || has_byte [47; 92] value
  || match rsplit_once "." value with
     | Some (stem, extension) =>
         negb (bool_decide (stem = "")) && negb (bool_decide (extension = ""))
         && (str_len extension <=? 16)
         && forallb (fun c => is_ascii_alphanumeric c || (c =? 95)) (chars extension)
     | None => false
     end.

(*@ runtime/src/objective_evidence.rs python_node_names_external_resource *)
Fixpoint python_node_names_external_resource (source : string) (n : Node) : bool :=
  (is_kind_of n ["string"]
   && is_some_and python_string_names_external_resource (node_text source n))
  || existsb (fun c => node_named c && python_node_names_external_resource source c)
       (node_children n).

(*@ runtime/src/objective_evidence.rs python_call_reads_runtime_state *)
Definition python_call_reads_runtime_state (source function : string) (arguments : Node) : bool :=
  let leaf := default function (last (split_on (byte 46) function)) in
  among function
    ["input"; "open"; "os.access"; "os.getcwd"; "os.getenv"; "os.listdir"; "os.lstat"; "os.readlink";
     "os.scandir"; "os.stat"; "os.walk"; "os.path.exists"; "os.path.getsize"; "os.path.isdir";
     "os.path.isfile"; "socket.create_connection"; "socket.getaddrinfo"; "urllib.request.urlopen"]
  || among function
    ["subprocess.call"; "subprocess.check_call"; "subprocess.check_output"; "subprocess.Popen";
     "subprocess.run"; "requests.delete"; "requests.get"; "requests.head"; "requests.options";
     "requests.patch"; "requests.post"; "requests.put"; "requests.request"; "httpx.delete";
     "httpx.get"; "httpx.head"; "httpx.options"; "httpx.patch"; "httpx.post"; "httpx.put";
     "httpx.request"]
  || among leaf
    ["exists"; "glob"; "is_dir"; "is_file"; "iterdir"; "lstat"; "read_bytes"; "read_text";
     "readlink"; "recv"; "rglob"; "samefile"; "stat"]
  || ((among leaf ["connect"; "load"; "open"] || starts_with "load_" leaf
       || starts_with "open_" leaf || starts_with "read_" leaf)
      && python_node_names_external_resource source arguments).

(*@ runtime/src/objective_evidence.rs python_attribute_reads_runtime_state *)
Definition python_attribute_reads_runtime_state (attribute : string) : bool :=
  bool_decide (attribute = "os.environ").

Section Bindings.
Context (source : string).

(*@ runtime/src/objective_evidence.rs python_expression_depends_on_runtime_state *)
Fixpoint python_expression_depends_on_runtime_state (runtime_bindings : gset string) (n : Node)
    {struct n} : bool :=
  let depends := python_expression_depends_on_runtime_state runtime_bindings in
  if is_kind_of n ["true"; "false"; "none"; "integer"; "float"; "string"] then false
  else if is_kind_of n ["identifier"] then
    is_some_and (fun identifier => bool_decide (identifier ∈ runtime_bindings)) (node_text source n)
  else if is_kind_of n ["attribute"] then
    is_some_and python_attribute_reads_runtime_state (node_text source n)
    || is_some_and snd (field_below "object" (below depends n))
  else if is_kind_of n ["call"] then
    match field_below "function" (below depends n) with
    | None => false
    | Some (function_node, function_depends) =>
        if function_depends then true
        else
          match field_below "arguments"
                  (below (fun c => existsb (fun d => node_named d && depends d) (node_children c)) n) with
          | None => false
          | Some (arguments, arguments_depend) =>
              arguments_depend
              || is_some_and (fun function => python_call_reads_runtime_state source function arguments)
                   (node_text source function_node)
          end
    end
  else if is_kind_of n ["class_definition"; "function_definition"; "lambda"] then false
  else existsb (fun c => node_named c && depends c) (node_children n).

(*@ runtime/src/objective_evidence.rs python_assertion_is_runtime_check *)
Definition python_assertion_is_runtime_check (runtime_bindings : gset string) (n : Node) : bool :=
  match python_constant_truthiness source n with
  | Some true => false
  | Some false => true
  | None => python_expression_depends_on_runtime_state runtime_bindings n
  end.

(*@ runtime/src/objective_evidence.rs python_call_exits_nonzero *)
Definition python_call_exits_nonzero (n : Node) : bool :=
  let function := default "" (child_by_field_name "function" n ≫= node_text source) in
  if negb (among function ["exit"; "quit"; "sys.exit"; "SystemExit"]) then false
  else
    match named_children <$> child_by_field_name "arguments" n with
    | Some [value] => bool_decide (python_constant_truthiness source value = Some true)
    | _ => false
    end.

(*@ runtime/src/objective_evidence.rs python_raise_is_failure *)
Definition python_raise_is_failure (n : Node) : bool :=
  match named_children n with
  | [] => true
  | expression :: _ =>
      negb (is_kind_of expression ["call"])
      || negb (bool_decide
           (default "" (child_by_field_name "function" expression ≫= node_text source) = "SystemExit"))
      || python_call_exits_nonzero expression
  end.

(** The children without the first one that has the field. *)
Fixpoint without_field {A} (field : string) (l : list (Node * A)) : list (Node * A) :=
  match l with
  | [] => []
  | c :: l' =>
      if bool_decide (node_field c.1 = Some field) then l' else c :: without_field field l'
  end.

(** The test of an [if], with what is known of the suites below it. *)
(*@ runtime/src/objective_evidence.rs python_if_has_runtime_failure *)
Definition if_has_runtime_failure (runtime_bindings : gset string) (suites : list (Node * bool)) : bool :=
  match field_below "condition" suites with
  | None => false
  | Some (condition, _) =>
      match python_constant_truthiness source condition with
      | Some _ => false
      | None =>
          python_expression_depends_on_runtime_state runtime_bindings condition
          && existsb snd (named_below (without_field "condition" suites))
      end
  end.

(*@ runtime/src/objective_evidence.rs python_suite_has_failure *)
Fixpoint python_suite_has_failure (runtime_bindings : gset string) (n : Node) {struct n} : bool :=
  if is_kind_of n ["raise_statement"] then python_raise_is_failure n
  else if is_kind_of n ["call"] then python_call_exits_nonzero n
  else if is_kind_of n ["if_statement"] then
    if_has_runtime_failure runtime_bindings (below (python_suite_has_failure runtime_bindings) n)
  else if is_kind_of n ["class_definition"; "for_statement"; "function_definition"; "lambda";
                        "try_statement"; "while_statement"] then false
  else existsb (fun c => node_named c && python_suite_has_failure runtime_bindings c)
         (node_children n).

Definition python_if_has_runtime_failure (runtime_bindings : gset string) (n : Node) : bool :=
  if_has_runtime_failure runtime_bindings (below (python_suite_has_failure runtime_bindings) n).

(*@ runtime/src/objective_evidence.rs python_assignment_parts *)
Definition python_assignment_parts (statement : Node) : option (Node * Node * bool) :=
  assignment ← (if is_kind_of statement ["expression_statement"]
                then head (named_children statement) else Some statement);
  if negb (is_kind_of assignment ["assignment"; "augmented_assignment"]) then None
  else
    target ← child_by_field_name "left" assignment;
    value ← child_by_field_name "right" assignment;
    Some (target, value, is_kind_of assignment ["augmented_assignment"]).

(*@ runtime/src/objective_evidence.rs update_python_runtime_bindings *)
Fixpoint update_python_runtime_bindings (depends_on_runtime : bool) (target : Node)
    (runtime_bindings : gset string) {struct target} : gset string :=
  if is_kind_of target ["identifier"] then
    match node_text source target with
    | Some identifier =>
        if depends_on_runtime then {[identifier]} ∪ runtime_bindings
        else runtime_bindings ∖ {[identifier]}
    | None => runtime_bindings
    end
  else if is_kind_of target ["list"; "list_pattern"; "pattern_list"; "tuple"; "tuple_pattern"] then
    fold_left (fun bindings c =>
      if node_named c then update_python_runtime_bindings depends_on_runtime c bindings else bindings)
      (node_children target) runtime_bindings
  else runtime_bindings.

Fixpoint python_statements_assert (runtime_bindings : gset string) (statements : list Node) : bool :=
  match statements with
  | [] => false
  | statement :: rest =>
      match python_assignment_parts statement with
      | Some (target, value, augmented) =>
          let depends_on_runtime :=
            python_expression_depends_on_runtime_state runtime_bindings value
            || (augmented && python_expression_depends_on_runtime_state runtime_bindings target) in
          python_statements_assert
            (update_python_runtime_bindings depends_on_runtime target runtime_bindings) rest
      | None =>
          (is_kind_of statement ["assert_statement"]
           && is_some_and (python_assertion_is_runtime_check runtime_bindings)
                (head (named_children statement)))
          || (is_kind_of statement ["if_statement"]
              && python_if_has_runtime_failure runtime_bindings statement)
          || python_statements_assert runtime_bindings rest
      end
  end.
End Bindings.

Section Commands.
Context (python_parse : string -> option Node).

(*@ runtime/src/objective_evidence.rs python_source_asserts_runtime_state *)
Definition python_source_asserts_runtime_state (source : string) : bool :=
  match python_parse source with
  | None => false
  | Some root =>
      negb (node_has_error root) && python_statements_assert source ∅ (named_children root)
  end.

(*@ runtime/src/objective_evidence.rs python_inline_asserts_runtime_state *)
Definition python_inline_asserts_runtime_state (argv : list string) : bool :=
  match list_find (fun part => part = "-c") argv with
  | None => false
  | Some (command_index, _) =>
      if existsb (fun part => among part ["-O"; "-OO"]) (drop 1 (take command_index argv)) then false
      else is_some_and python_source_asserts_runtime_state (argv !! S command_index)
  end.

(** The kind of a single command, by its program and arguments. *)
(*@ runtime/src/objective_evidence.rs:658-691 objective_validation_command_kind_with_depth *)
Definition program_validation_kind (program : string) (argv : list string)
    : option ObjectiveValidationKind :=
  let diagnostic (b : bool) := if b then Some ObjectiveValidationKind.Diagnostic else None in
  let test (b : bool) := if b then Some ObjectiveValidationKind.Test else None in
  if bool_decide (program = "cargo") then cargo_validation_kind argv
  else if among program ["npm"; "pnpm"; "yarn"; "bun"] then package_manager_validation_kind argv
  else if bool_decide (program = "pytest") then Some ObjectiveValidationKind.Test
  else if bool_decide (program = "node") then test (node_runs_tests argv)
  else if among program ["python"; "python3"] then
    if python_module_runs_tests argv then Some ObjectiveValidationKind.Test
    else diagnostic (python_inline_asserts_runtime_state argv)
  else if bool_decide (program = "curl") then diagnostic (curl_is_fail_fast_http_probe argv)
  else if among program ["cmp"; "diff"] then diagnostic (comparison_has_two_operands argv)
  else if bool_decide (program = "test") then
    if test_command_validates_file_state argv then Some ObjectiveValidationKind.FileState
    else diagnostic (test_command_validates_runtime_comparison argv)
  else if among program ["grep"; "rg"] then diagnostic (quiet_content_check argv false)
  else if bool_decide (program = "git") then diagnostic (git_command_validates_result argv)
  else if bool_decide (program = "go") then test (bool_decide (argv !! 1%nat = Some "test"))
  else if bool_decide (program = "make") then build_task_validation_kind argv MAKE_OPTIONS_WITH_VALUES
  else if among program ["mvn"; "mvnw"] then build_task_validation_kind argv MAVEN_OPTIONS_WITH_VALUES
  else if among program ["gradle"; "gradlew"] then
    build_task_validation_kind argv GRADLE_OPTIONS_WITH_VALUES
  else if bool_decide (program = "swift") then swift_validation_kind argv
  else None.
End Commands.
