(* ===== verification/ValidationScript.v ===== *)
(** * Which scripts validate

    The shell side of [golutra-agent-runtime/src/objective_evidence.rs]: a command line, or
    a script handed to a shell, validates when its exit status 0 can only mean that a
    validating command ran and succeeded. [&&] chains, scripts under [set -e], a
    validating last statement, here-documents fed to Python. Also the identity of a
    validation, a digest of the commands it consists of. [shlex], both grammars, the JSON
    text of a value and SHA-256 are arguments. *)
From S2P Require Import Prelude RustStr Core TaskContract Verify Governed Correction Evidence Regex TestOutput ShellSyntax ValidationCommand.
Open Scope N_scope.

(** ** Control flow *)

(*@ runtime/src/objective_evidence.rs shell_script_has_unsafe_control_flow *)
Definition shell_script_has_unsafe_control_flow (n : Node) : bool :=
  has_named_kind
    ["case"; "case_statement"; "compound_statement"; "c_style_for_statement"; "file_redirect"; "for";
     "for_statement"; "function"; "function_definition"; "heredoc_redirect"; "herestring_redirect";
     "if"; "if_statement"; "list"; "negated_command"; "pipeline"; "process_substitution";
     "redirected_statement"; "subshell"; "until_statement"; "while"; "while_statement"] n.

(*@ runtime/src/objective_evidence.rs shell_assignment_is_safe *)
Definition shell_assignment_is_safe (source : string) (n : Node) : bool :=
  match child_by_field_name "name" n ≫= node_text source with
  | None => false
  | Some name =>
      negb (among name ["BASHOPTS"; "BASH_ENV"; "CDPATH"; "ENV"; "GIT_EXEC_PATH"; "IFS"; "PATH";
                        "SHELLOPTS"])
      && negb (starts_with "GIT_CONFIG_" name)
  end.

Definition is_operator (texts : list string) (text : string) : bool := among (trim text) texts.

(** The named nodes below a here-document redirect that are bodies; [None] when something
    outside them is expanded. *)
Fixpoint heredoc_bodies (n : Node) : option (list Node) :=
  if is_kind_of n ["command_substitution"; "expansion"; "simple_expansion"] then None
  else if is_kind_of n ["heredoc_body"] then Some [n]
  else
    foldr (fun c found =>
      if node_named c.1 then ls ← c.2; rest ← found; Some (ls ++ rest) else found)
      (Some []) (below heredoc_bodies n).

Section Scripts.
Variable shlex_split : string -> option (list string).
Variable bash_parse : string -> option Node.
Variable python_parse : string -> option Node.
Variable to_json : json -> string.

Abbreviation python_asserts := (python_source_asserts_runtime_state python_parse).

Definition split_trimmed (text : string) : option (list string) := shlex_split (trim text).

(*@ runtime/src/objective_evidence.rs shell_setup_statement_is_allowed *)
Fixpoint shell_setup_statement_is_allowed (source : string) (n : Node) : bool :=
  if is_kind_of n ["comment"] then true
  else if is_kind_of n ["variable_assignment"] then shell_assignment_is_safe source n
  else if is_kind_of n ["command"] then
    is_some_and (fun argv => negb (shell_command_can_change_or_skip_validation argv))
      (split_trimmed (default "" (node_text source n)))
  else if is_kind_of n ["redirected_statement"] then
    is_some_and snd (field_below "body" (below (shell_setup_statement_is_allowed source) n))
  else if is_kind_of n ["pipeline"] then
    negb (is_nil (named_children n))
    && forallb (fun c => negb (node_named c) || shell_setup_statement_is_allowed source c)
         (node_children n)
  else false.

(*@ runtime/src/objective_evidence.rs shell_statement_is_read_only *)
Fixpoint shell_statement_is_read_only (source : string) (n : Node) : bool :=
  if is_kind_of n ["command"] then
    is_some_and shell_command_is_read_only (split_trimmed (default "" (node_text source n)))
  else if is_kind_of n ["pipeline"] then
    negb (is_nil (named_children n))
    && forallb (fun c => negb (node_named c) || shell_statement_is_read_only source c)
         (node_children n)
  else false.

(*@ runtime/src/objective_evidence.rs shell_terminal_setup_statement_is_allowed *)
Definition shell_terminal_setup_statement_is_allowed (source : string) (n : Node) : bool :=
  if is_kind_of n ["comment"] then true
  else if is_kind_of n ["variable_assignment"] then shell_assignment_is_safe source n
  else if is_kind_of n ["command"; "pipeline"] then shell_statement_is_read_only source n
  else if is_kind_of n ["redirected_statement"] then
    is_some_and (shell_setup_statement_is_allowed source) (child_by_field_name "body" n)
  else false.

(*@ runtime/src/objective_evidence.rs objective_validation_test_node_kind *)
Definition objective_validation_test_node_kind (source : string) (n : Node)
    : option ObjectiveValidationKind :=
  text ← trim <$> node_text source n;
  inner ← match strip_prefix "[[" text ≫= strip_suffix "]]" with
          | Some inner => Some inner
          | None => strip_prefix "[" text ≫= strip_suffix "]"
          end;
  words ← shlex_split (trim inner);
  if test_command_validates_file_state ("test" :: words) then Some ObjectiveValidationKind.FileState
  else if test_command_validates_runtime_comparison ("test" :: words)
  then Some ObjectiveValidationKind.Diagnostic
  else None.

(*@ runtime/src/objective_evidence.rs objective_validation_pipeline_kind *)
Definition objective_validation_pipeline_kind (source : string) (n : Node)
    : option ObjectiveValidationKind :=
  let commands := List.filter (fun c => is_kind_of c ["command"]) (named_children n) in
  final ← last commands;
  let inputs := take (length commands - 1) commands in
  if is_nil inputs || existsb (fun c => negb (shell_statement_is_read_only source c)) inputs then None
  else
    argv ← node_text source final ≫= split_trimmed;
    if quiet_content_check argv true then Some ObjectiveValidationKind.Diagnostic else None.

(** ** Here-documents *)

(** The command before [<<] on the first line that has one. *)
Definition command_prefix (text : string) : option string :=
  head (omap (fun line => trim ∘ fst <$> split_once "<<" line) (text_lines (chars text))).

(** The command a here-document is fed to: the last one of a collected list. *)
(*@ runtime/src/objective_evidence.rs:1318-1331 objective_validation_python_heredoc_source *)
Definition heredoc_command (prefix : string) (body : Node) (body_ok : bool) : option string :=
  if is_kind_of body ["command"] then Some prefix
  else if is_kind_of body ["list"] && body_ok then
    Some (match rsplit_once "&&" prefix with Some (_, command) => trim command | None => prefix end)
  else None.

(** [list_ok] says of each child whether, as a list, its steps are collected. *)
(*@ runtime/src/objective_evidence.rs objective_validation_python_heredoc_source *)
Definition objective_validation_python_heredoc_source (source : string) (statement : Node)
    (list_ok : list (Node * bool)) : option (string * string) :=
  if negb (is_kind_of statement ["redirected_statement"]) then None
  else
    '(body, body_ok) ← field_below "body" list_ok;
    prefix ← node_text source statement ≫= command_prefix;
    command ← heredoc_command prefix body body_ok;
    argv ← shlex_split command;
    program ← program_name <$> head argv;
    if negb (among program ["python"; "python3"]) || negb (bool_decide (argv !! 1%nat = Some "-"))
       || negb (bool_decide (length argv = 2%nat)) then None
    else
      match List.filter (fun c => is_kind_of c ["heredoc_redirect"]) (named_children statement) with
      | [redirect] =>
          match heredoc_bodies redirect with
          | Some [python_body] => text ← node_text source python_body; Some (program, text)
          | _ => None
          end
      | _ => None
      end.

(*@ runtime/src/objective_evidence.rs objective_validation_python_heredoc *)
Definition objective_validation_python_heredoc (source : string) (statement : Node)
    (list_ok : list (Node * bool)) : option (ObjectiveValidationKind * string) :=
  '(program, python_source) ← objective_validation_python_heredoc_source source statement list_ok;
  if python_asserts python_source
  then Some (ObjectiveValidationKind.Diagnostic,
             to_json (JArray [JString program; JString "stdin"; JString python_source]))
  else None.

(** ** Statements *)

Section Nodes.
(** [objective_validation_command_kind_with_depth] at the depth of the script. *)
Variable command_kind : string -> option ObjectiveValidationKind.
Variable source : string.

Definition own_kind (n : Node) : option ObjectiveValidationKind :=
  if shell_script_has_unsafe_control_flow n then None
  else node_text source n ≫= command_kind ∘ trim.

(** The kind of a statement, given what a here-document is worth. *)
(*@ runtime/src/objective_evidence.rs objective_validation_statement_kind *)
Definition statement_kind (n : Node) (heredoc : option (ObjectiveValidationKind * string))
    : option ObjectiveValidationKind :=
  if is_kind_of n ["command"] then own_kind n
  else if is_kind_of n ["redirected_statement"] then fst <$> heredoc
  else if is_kind_of n ["pipeline"] then objective_validation_pipeline_kind source n
  else if is_kind_of n ["test_command"] then objective_validation_test_node_kind source n
  else None.

Definition Collected : Type := bool * option ObjectiveValidationKind.

(** The step of [collect_validation_and_chain] at a node that is not a list. *)
(*@ runtime/src/objective_evidence.rs:1404-1434 collect_validation_and_chain *)
Definition chain_statement (n : Node) (heredoc : option (ObjectiveValidationKind * string))
    (validation : option ObjectiveValidationKind) : Collected :=
  if is_kind_of n ["command"] && negb (shell_script_has_unsafe_control_flow n) then
    match node_text source n with
    | None => (false, validation)
    | Some text =>
        match split_trimmed text with
        | None => (false, validation)
        | Some argv =>
            if shell_command_can_change_or_skip_validation argv then (false, validation)
            else
              (true, match command_kind (trim text) with
                     | Some kind => Some (stronger_validation_kind validation kind)
                     | None => validation
                     end)
        end
    end
  else if is_kind_of n ["redirected_statement"] then
    match heredoc with
    | Some (kind, _) => (true, Some (stronger_validation_kind validation kind))
    | None => (false, validation)
    end
  else (is_kind_of n ["test_command"], validation).

(** The step of [collect_fail_fast_nodes] at a node that is neither a program nor a list;
    the state is [fail_fast] and [validation]. *)
Definition FailFast : Type := bool * (bool * option ObjectiveValidationKind).

(*@ runtime/src/objective_evidence.rs:1045-1099 collect_fail_fast_nodes *)
Definition fail_fast_statement (n : Node) (heredoc : option (ObjectiveValidationKind * string))
    (fail_fast : bool) (validation : option ObjectiveValidationKind) : FailFast :=
  let keep ok := (ok, (fail_fast, validation)) in
  let note kind := (true, (fail_fast, Some (stronger_validation_kind validation kind))) in
  let kind := statement_kind n heredoc in
  if is_kind_of n ["comment"] then keep true
  else if is_kind_of n ["command"] then
    match node_text source n ≫= split_trimmed with
    | None => keep false
    | Some argv =>
        if negb fail_fast then
          if shell_command_enables_errexit argv then (true, (true, validation)) else keep false
        else if shell_command_can_change_or_skip_validation argv then keep false
        else
          match kind with
          | Some k => note k
          | None =>
              keep (bool_decide (validation = None) || shell_statement_is_read_only source n)
          end
    end
  else if is_kind_of n ["variable_assignment"] then keep (fail_fast && shell_assignment_is_safe source n)
  else if negb fail_fast then keep false
  else if is_kind_of n ["test_command"] then
    match kind with Some k => note k | None => keep true end
  else if is_kind_of n ["redirected_statement"] then
    match kind with
    | Some k => note k
    | None => keep (bool_decide (validation = None) && shell_setup_statement_is_allowed source n)
    end
  else if is_kind_of n ["pipeline"] then
    match kind with
    | Some k => note k
    | None =>
        keep (if bool_decide (validation = None) then shell_setup_statement_is_allowed source n
              else shell_statement_is_read_only source n)
    end
  else keep false.

(** Both collections, by recursion on the tree. A here-document whose body is a list asks
    both of them about that list. *)
(*@ runtime/src/objective_evidence.rs collect_validation_and_chain *)
Fixpoint collect_validation_and_chain (n : Node) (validation : option ObjectiveValidationKind)
    {struct n} : Collected :=
  if is_kind_of n ["list"] then
    (fix steps (children : list Node) (validation : option ObjectiveValidationKind) : Collected :=
       match children with
       | [] => (true, validation)
       | c :: rest =>
           if node_named c then
             match collect_validation_and_chain c validation with
             | (true, validation) => steps rest validation
             | rejected => rejected
             end
           else if is_some_and (fun text => negb (is_operator ["&&"] text)) (node_text source c)
           then (false, validation)
           else steps rest validation
       end) (node_children n) validation
  else
    chain_statement n
      (objective_validation_python_heredoc source n
         (below (fun c =>
            let '(ok, found) := collect_validation_and_chain c None in
            ok || (let '(ok, (on, _)) := collect_fail_fast_nodes c false found in ok && on)) n))
      validation
(*@ runtime/src/objective_evidence.rs collect_fail_fast_nodes *)
with collect_fail_fast_nodes (n : Node) (fail_fast : bool)
    (validation : option ObjectiveValidationKind) {struct n} : FailFast :=
  if is_kind_of n ["program"; "list"] then
    (fix steps (children : list Node) (fail_fast : bool)
         (validation : option ObjectiveValidationKind) : FailFast :=
       match children with
       | [] => (true, (fail_fast, validation))
       | c :: rest =>
           if node_named c then
             match collect_fail_fast_nodes c fail_fast validation with
             | (true, (fail_fast, validation)) => steps rest fail_fast validation
             | rejected => rejected
             end
           else if is_some_and (is_operator [""; ";"; "&&"]) (node_text source c)
           then steps rest fail_fast validation
           else (false, (fail_fast, validation))
       end) (node_children n) fail_fast validation
  else
    fail_fast_statement n
      (objective_validation_python_heredoc source n
         (below (fun c =>
            let '(ok, found) := collect_validation_and_chain c None in
            ok || (let '(ok, (on, _)) := collect_fail_fast_nodes c false found in ok && on)) n))
      fail_fast validation.

Definition list_ok (n : Node) : list (Node * bool) :=
  below (fun c =>
    let '(ok, found) := collect_validation_and_chain c None in
    ok || (let '(ok, (on, _)) := collect_fail_fast_nodes c false found in ok && on)) n.
Definition python_heredoc (n : Node) : option (ObjectiveValidationKind * string) :=
  objective_validation_python_heredoc source n (list_ok n).
Definition objective_validation_statement_kind (n : Node) : option ObjectiveValidationKind :=
  statement_kind n (python_heredoc n).

(*@ runtime/src/objective_evidence.rs objective_validation_and_chain_kind *)
Definition objective_validation_and_chain_kind (n : Node) : option ObjectiveValidationKind :=
  match collect_validation_and_chain n None with (true, validation) => validation | _ => None end.

(*@ runtime/src/objective_evidence.rs collect_fail_fast_validation *)
Definition collect_fail_fast_validation (root : Node) : Collected :=
  let '(ok, (fail_fast, validation)) := collect_fail_fast_nodes root false None in
  (ok && fail_fast, validation).

(*@ runtime/src/objective_evidence.rs collect_terminal_statement_validation *)
Definition collect_terminal_statement_validation (root : Node) : option ObjectiveValidationKind :=
  if existsb (fun c => negb (node_named c)
                && negb (is_some_and (is_operator [""; ";"]) (node_text source c)))
       (node_children root) then None
  else
    let statements := List.filter (fun c => negb (is_kind_of c ["comment"])) (named_children root) in
    final ← last statements;
    if existsb (fun c => negb (shell_terminal_setup_statement_is_allowed source c))
         (take (length statements - 1) statements) then None
    else objective_validation_statement_kind final.

Definition starts_background (root : Node) : bool :=
  existsb (fun c => negb (node_named c) && bool_decide (node_text source c = Some "&"))
    (node_children root).

(** The script as a whole, from its last case on. *)
(*@ runtime/src/objective_evidence.rs:996-1002 objective_validation_shell_script_kind *)
Definition several_statements_kind (root : Node) : option ObjectiveValidationKind :=
  match collect_fail_fast_validation root with
  | (true, Some kind) => Some kind
  | _ => collect_terminal_statement_validation root
  end.

(*@ runtime/src/objective_evidence.rs:977-1003 objective_validation_shell_script_kind *)
Definition root_kind (root : Node) : option ObjectiveValidationKind :=
  match named_children root with
  | [statement] =>
      match python_heredoc statement with
      | Some (kind, _) => Some kind
      | None =>
          if is_kind_of statement ["list"] then objective_validation_and_chain_kind statement
          else if is_kind_of statement ["command"]
                  && negb (shell_script_has_unsafe_control_flow statement) then
            text ← trim <$> node_text source statement;
            argv ← shlex_split text;
            if shell_command_can_change_or_skip_validation argv then None else command_kind text
          else several_statements_kind root
      end
  | _ => several_statements_kind root
  end.
End Nodes.

(*@ runtime/src/objective_evidence.rs objective_validation_shell_script_kind *)
Definition objective_validation_shell_script_kind
    (command_kind : string -> option ObjectiveValidationKind) (script : string)
    : option ObjectiveValidationKind :=
  root ← bash_parse script;
  if node_has_error root || starts_background script root then None
  else root_kind command_kind script root.

(*@ runtime/src/objective_evidence.rs requires_shell_script_analysis *)
Definition requires_shell_script_analysis (command : string) : option bool :=
  root ← bash_parse command;
  if node_has_error root then None
  else
    match node_children root with
    | [child] => Some (negb (is_kind_of child ["command"]))
    | _ => Some true
    end.

(** The argument vector and input of a command. Where the parser panics, so does every
    function here; such a command is no command to them. *)
Definition parsed_command (command : string) : option ParsedShellCommand :=
  match parse_shell_command_with_input shlex_split bash_parse command with
  | Ok parsed => parsed
  | Err _ => None
  end.

(** The script of [bash -c script], if wrappers may still be opened. *)
Definition wrapped_script (depth : N) (program : string) (argv : list string) : option string :=
  match argv with
  | [_; option; script] =>
      if (depth <? 2) && among program ["bash"; "sh"; "zsh"] && among option ["-c"; "-lc"]
      then Some (trim script) else None
  | _ => None
  end.

(** With fuel for the scripts inside scripts. *)
(*@ runtime/src/objective_evidence.rs objective_validation_command_kind_with_depth *)
Fixpoint objective_validation_command_kind_with_depth (fuel : nat) (depth : N) (command : string)
    : option ObjectiveValidationKind :=
  match fuel with
  | O => None
  | S fuel =>
      parsed ← parsed_command command;
      program ← program_name <$> head (parts parsed);
      match wrapped_script depth program (parts parsed) with
      | Some script =>
          objective_validation_shell_script_kind
            (objective_validation_command_kind_with_depth fuel (depth + 1)) script
      | None =>
          match stdin parsed with
          | Some text =>
              if among program ["python"; "python3"]
                 && bool_decide (parts parsed !! 1%nat = Some "-")
                 && bool_decide (length (parts parsed) = 2%nat) && python_asserts text
              then Some ObjectiveValidationKind.Diagnostic else None
          | None =>
              match requires_shell_script_analysis command with
              | None => None
              | Some true =>
                  objective_validation_shell_script_kind
                    (objective_validation_command_kind_with_depth fuel depth) command
              | Some false => program_validation_kind python_parse program (parts parsed)
              end
          end
      end
  end.

(** The commands of a script are shorter than the command that runs it. *)
Definition script_fuel_of (command : string) : nat := S (length (chars command)).

(*@ runtime/src/objective_evidence.rs objective_validation_command_kind *)
Definition objective_validation_command_kind (command : string) : option ObjectiveValidationKind :=
  objective_validation_command_kind_with_depth (script_fuel_of command) 0 command.

(** ** The identity of a validation *)

(** The atoms so far and [validation_end]. *)
Definition Atoms : Type := list string * nat.

Definition shell_context_programs : list string :=
  ["cd"; "pushd"; "popd"; "read"; "readarray"; "mapfile"; "getopts"; "let"; "shift"; "set"; "shopt";
   "umask"; "ulimit"].

(*@ runtime/src/objective_evidence.rs shell_setup_changes_context *)
Fixpoint shell_setup_changes_context (source : string) (n : Node) : bool :=
  if is_kind_of n ["variable_assignment"] then true
  else if is_kind_of n ["command"] then
    match node_text source n ≫= shlex_split with
    | None => true
    | Some argv =>
        is_some_and (fun program => among program shell_context_programs) (head argv)
        || (bool_decide (head argv = Some "printf") && existsb (fun p => bool_decide (p = "-v")) argv)
    end
  else existsb (fun c => node_named c && shell_setup_changes_context source c) (node_children n).

(*@ runtime/src/objective_evidence.rs append_shell_validation_atom *)
Definition append_shell_validation_atom (source : string) (n : Node) (atoms : list string)
    : option (list string) :=
  statement ← node_text source n;
  Some (atoms ++ [to_json (JArray [JString (node_kind n); JString (trim statement)])]).

(*@ runtime/src/objective_evidence.rs append_shell_setup_atom *)
Definition append_shell_setup_atom (source : string) (n : Node) (atoms : list string)
    : option (list string) :=
  if shell_setup_changes_context source n then append_shell_validation_atom source n atoms
  else Some atoms.

Section Identity.
Variable command_kind : string -> option ObjectiveValidationKind.
Variable command_atoms : string -> option (list string).
Variable source : string.

(** The step at a node that is neither a program nor a list; [None] is the refusal. *)
(*@ runtime/src/objective_evidence.rs:525-567 collect_objective_validation_atoms *)
Definition statement_atoms (n : Node) (st : Atoms) : option Atoms :=
  let '(atoms, validation_end) := st in
  let validated atoms := (atoms, length atoms) in
  let setup := (fun atoms => (atoms, validation_end)) <$> append_shell_setup_atom source n atoms in
  if is_kind_of n ["command"] then
    text ← node_text source n;
    match command_atoms (trim text) with
    | Some more => Some (validated (atoms ++ more))
    | None => setup
    end
  else if is_kind_of n ["redirected_statement"] then
    match python_heredoc command_kind source n with
    | Some (_, atom) => Some (validated (atoms ++ [atom]))
    | None => setup
    end
  else if is_kind_of n ["pipeline"; "test_command"] then
    match objective_validation_statement_kind command_kind source n with
    | Some _ => validated <$> append_shell_validation_atom source n atoms
    | None => setup
    end
  else if is_kind_of n ["comment"] then Some st
  else if is_kind_of n ["variable_assignment"] then
    (fun atoms => (atoms, validation_end)) <$> append_shell_validation_atom source n atoms
  else None.

(*@ runtime/src/objective_evidence.rs collect_objective_validation_atoms *)
Fixpoint collect_objective_validation_atoms (n : Node) (st : Atoms) {struct n} : option Atoms :=
  if is_kind_of n ["program"; "list"] then
    (fix steps (children : list Node) (st : Atoms) : option Atoms :=
       match children with
       | [] => Some st
       | c :: rest =>
           if node_named c then st ← collect_objective_validation_atoms c st; steps rest st
           else steps rest st
       end) (node_children n) st
  else statement_atoms n st.
End Identity.

(*@ runtime/src/objective_evidence.rs objective_validation_shell_script_atoms *)
Definition objective_validation_shell_script_atoms
    (command_kind : string -> option ObjectiveValidationKind)
    (command_atoms : string -> option (list string)) (script : string) : option (list string) :=
  _ ← objective_validation_shell_script_kind command_kind script;
  root ← bash_parse script;
  '(atoms, validation_end) ← collect_objective_validation_atoms command_kind command_atoms script
                               root ([], 0%nat);
  if bool_decide (validation_end = 0%nat) then None else Some (take validation_end atoms).

(*@ runtime/src/objective_evidence.rs objective_validation_command_atoms_with_depth *)
Fixpoint objective_validation_command_atoms_with_depth (fuel : nat) (depth : N) (command : string)
    : option (list string) :=
  match fuel with
  | O => None
  | S fuel' =>
      parsed ← parsed_command command;
      program ← program_name <$> head (parts parsed);
      match wrapped_script depth program (parts parsed) with
      | Some script =>
          objective_validation_shell_script_atoms
            (objective_validation_command_kind_with_depth fuel' (depth + 1))
            (objective_validation_command_atoms_with_depth fuel' (depth + 1)) script
      | None =>
          match stdin parsed with
          | Some text =>
              _ ← objective_validation_command_kind_with_depth fuel depth command;
              Some [to_json (JArray [JString program; JString "stdin"; JString text])]
          | None =>
              match requires_shell_script_analysis command with
              | None => None
              | Some true =>
                  objective_validation_shell_script_atoms
                    (objective_validation_command_kind_with_depth fuel' depth)
                    (objective_validation_command_atoms_with_depth fuel' depth) command
              | Some false =>
                  _ ← objective_validation_command_kind_with_depth fuel depth command;
                  Some [to_json (JArray (JString <$> program :: drop 1 (parts parsed)))]
              end
          end
      end
  end.

(** [u64::to_le_bytes]. *)
Fixpoint le_bytes (width : nat) (n : N) : string :=
  match width with O => "" | S w => String (byte (n mod 256)) (le_bytes w (n / 256)) end.

Definition length_prefixed (atom : string) : string := le_bytes 8 (str_len atom) +:+ atom.
Definition digest_input (atoms : list string) : string := String.concat "" (length_prefixed <$> atoms).

Variable sha256_hex : string -> string.

(*@ runtime/src/objective_evidence.rs objective_validation_command_identity *)
Definition objective_validation_command_identity (command : string) : option string :=
  atoms ← objective_validation_command_atoms_with_depth (script_fuel_of command) 0 command;
  if is_nil atoms then None else Some (sha256_hex (digest_input atoms)).

(*@ runtime/src/objective_evidence.rs safe_objective_validation_command_identity *)
Definition safe_objective_validation_command_identity (redact_sensitive_text : string -> string)
    (command : string) : option string :=
  atoms ← objective_validation_command_atoms_with_depth (script_fuel_of command) 0 command;
  if is_nil atoms then None
  else Some (sha256_hex (digest_input (redact_sensitive_text <$> atoms))).

(*@ runtime/src/objective_evidence.rs validation_identity_in_workdir *)
Definition validation_identity_in_workdir (identity : string) (r : ToolExecutionReport) : string :=
  match json_get (facts_of r) "workdir" ≫= as_str with
  | None => identity
  | Some workdir => sha256_hex (length_prefixed identity +:+ workdir)
  end.

(** ** The outcome of a report *)

Variable is_word : N -> bool.

(*@ runtime/src/objective_evidence.rs PREPARED_OBJECTIVE_VALIDATION_FACT *)
Definition PREPARED_OBJECTIVE_VALIDATION_FACT : string := "runtime_objective_validation".

(*@ runtime/src/objective_evidence.rs prepared_objective_validation_report *)
Definition prepared_objective_validation_report (r : ToolExecutionReport)
    : option ObjectiveValidationOutcome :=
  metadata ← json_get (facts_of r) PREPARED_OBJECTIVE_VALIDATION_FACT;
  label ← json_get metadata "kind" ≫= as_str;
  kind ← kind_from_label label;
  identity ← json_get metadata "identity" ≫= as_str;
  Some (shell_validation_outcome is_word r kind (validation_identity_in_workdir identity r)).

(*@ runtime/src/objective_evidence.rs objective_validation_report *)
Definition objective_validation_report (r : ToolExecutionReport) : option ObjectiveValidationOutcome :=
  if bool_decide (tool_of r = "external_verifier") then
    let ok := bool_decide (status_of r = ToolResultStatus.Ok) in
    Some (mkOutcome ObjectiveValidationKind.Test "external-verifier"
            (if ok then ObjectiveValidationStatus.Passed else ObjectiveValidationStatus.Failed) ok
            (env_summary (rp_envelope r)))
  else if bool_decide (tool_of r = "shell") then
    match prepared_objective_validation_report r with
    | Some outcome => Some outcome
    | None =>
        command ← json_get (facts_of r) "command" ≫= as_str;
        kind ← objective_validation_command_kind command;
        identity ← objective_validation_command_identity command;
        Some (shell_validation_outcome is_word r kind (validation_identity_in_workdir identity r))
    end
  else None.

(*@ runtime/src/objective_evidence.rs prepare_objective_validation_metadata *)
Definition prepare_objective_validation_metadata (redact_sensitive_text : string -> string)
    (tool_name : string) (arguments : json) : option json :=
  if bool_decide (tool_name = "shell") then
    command ← json_get arguments "command" ≫= as_str;
    kind ← objective_validation_command_kind command;
    identity ← safe_objective_validation_command_identity redact_sensitive_text command;
    Some (JObject [("identity", JString identity); ("kind", JString (kind_label kind))])
  else None.

(*@ runtime/src/objective_evidence.rs attach_prepared_objective_validation *)
Definition attach_prepared_objective_validation (facts : json) (metadata : option json) : json :=
  match metadata, facts with
  | Some metadata, JObject m => JObject (entries_insert PREPARED_OBJECTIVE_VALIDATION_FACT metadata m)
  | _, _ => facts
  end.
End Scripts.
