(* ===== verification/ScriptRuns.v ===== *)
(** * What the exit status of a validating script means

    A script counts as a validation when its exit status 0 can only mean that its
    validating commands ran and succeeded. Here the part of the shell that this depends on
    is a relation between a statement, the statements that were run with their results, and
    the outcome: [&&] and [||] lists, sequences, and [set -e], which ends the script at a
    failing statement unless the statement stands before a connective. The collections of
    [objective_evidence.rs] are sound for it, except for one shape. *)
From S2P Require Import Prelude RustStr Core TaskContract Verify Governed Correction Evidence Regex TestOutput ShellSyntax ValidationCommand ValidationScript.
Open Scope N_scope.

(** ** Running a script *)

Inductive RunResult := Done (ok : bool) | Exited.

(** A statement is [tested] when a connective follows it. *)
Definition Trace : Type := list (Node * bool).

Inductive Connective := AndIf | OrIf.

Definition skips (k : Connective) (ok : bool) : bool :=
  match k with AndIf => negb ok | OrIf => ok end.

(** What the [set] builtin does to [errexit]: clusters of flags, [-o name], up to [--] or
    the first operand. *)
Fixpoint set_builtin (on : bool) (arguments : list string) : bool :=
  match arguments with
  | [] => on
  | part :: rest =>
      if among part ["--"; "-"] then on
      else if starts_with "-" part || starts_with "+" part then
        let turn := starts_with "-" part in
        let on := if str_contains "e" (rest_of part) then turn else on in
        if str_contains "o" (rest_of part) then
          match rest with
          | name :: rest' => set_builtin (if bool_decide (name = "errexit") then turn else on) rest'
          | [] => on
          end
        else set_builtin on rest
      else on
  end.

Section Runs.
Variable shlex_split : string -> option (list string).
Variable source : string.

Definition connective_of (n : Node) : option Connective :=
  text ← node_text source n;
  if is_operator ["&&"] text then Some AndIf
  else if is_operator ["||"] text then Some OrIf else None.

Definition words_of (n : Node) : option (list string) := node_text source n ≫= split_trimmed shlex_split.

Definition errexit_after (on : bool) (n : Node) : bool :=
  if is_kind_of n ["command"] then
    match words_of n with
    | Some (program :: arguments) =>
        if bool_decide (program = "set") then set_builtin on arguments else on
    | _ => on
    end
  else on.

Definition simple_statement (n : Node) : bool :=
  is_kind_of n ["command"; "pipeline"; "test_command"; "variable_assignment"].

Definition separator (n : Node) : bool :=
  negb (node_named n) && is_some_and (is_operator [""; ";"]) (node_text source n).

Definition more {A} (rest : list A) : bool := negb (is_nil rest).

(** [runs on tested n tr on' res]: [n] is run with [errexit] as [on]; [tr] is what was run. *)
Inductive runs : bool -> bool -> Node -> Trace -> bool -> RunResult -> Prop :=
| runs_simple on tested n ok :
    simple_statement n = true ->
    runs on tested n [(n, ok)] (errexit_after on n)
      (if ok || tested || negb on then Done ok else Exited)
| runs_redirected on tested n body tr on' ok :
    node_kind n = "redirected_statement" -> child_by_field_name "body" n = Some body ->
    runs on tested body tr on' (Done ok) ->
    runs on tested n (tr ++ [(n, ok)]) on' (Done ok)
| runs_redirected_exits on tested n body tr on' :
    node_kind n = "redirected_statement" -> child_by_field_name "body" n = Some body ->
    runs on tested body tr on' Exited -> runs on tested n tr on' Exited
| runs_not_redirected on tested n :
    node_kind n = "redirected_statement" ->
    runs on tested n [(n, false)] on (if tested || negb on then Done false else Exited)
| runs_list on tested n first rest tr on1 ok tr' on' res :
    node_kind n = "list" -> node_children n = first :: rest -> node_named first = true ->
    runs on (tested || more rest) first tr on1 (Done ok) ->
    chain on1 tested ok rest tr' on' res ->
    runs on tested n (tr ++ tr') on' res
| runs_list_exits on tested n first rest tr on' :
    node_kind n = "list" -> node_children n = first :: rest -> node_named first = true ->
    runs on (tested || more rest) first tr on' Exited -> runs on tested n tr on' Exited
(** The rest of a list, after a statement with the result [ok]. *)
with chain : bool -> bool -> bool -> list Node -> Trace -> bool -> RunResult -> Prop :=
| chain_nil on tested ok : chain on tested ok [] [] on (Done ok)
| chain_skip on tested ok op c rest k tr on' res :
    node_named op = false -> node_named c = true -> connective_of op = Some k -> skips k ok = true ->
    chain on tested ok rest tr on' res -> chain on tested ok (op :: c :: rest) tr on' res
| chain_run on tested ok op c rest k tr on1 ok1 tr' on' res :
    node_named op = false -> node_named c = true -> connective_of op = Some k -> skips k ok = false ->
    runs on (tested || more rest) c tr on1 (Done ok1) ->
    chain on1 tested ok1 rest tr' on' res ->
    chain on tested ok (op :: c :: rest) (tr ++ tr') on' res
| chain_exits on tested ok op c rest k tr on' :
    node_named op = false -> node_named c = true -> connective_of op = Some k -> skips k ok = false ->
    runs on (tested || more rest) c tr on' Exited ->
    chain on tested ok (op :: c :: rest) tr on' Exited.

(** The statements of a script; its status is that of the last one. *)
Inductive script_runs : bool -> bool -> list Node -> Trace -> RunResult -> Prop :=
| script_nil on ok : script_runs on ok [] [] (Done ok)
| script_separator on ok c rest tr res :
    separator c = true -> script_runs on ok rest tr res -> script_runs on ok (c :: rest) tr res
| script_comment on ok c rest tr res :
    node_named c = true -> node_kind c = "comment" -> script_runs on ok rest tr res -> script_runs on ok (c :: rest) tr res
| script_statement on ok c rest tr on1 ok1 tr' res :
    node_named c = true -> runs on false c tr on1 (Done ok1) ->
    script_runs on1 ok1 rest tr' res -> script_runs on ok (c :: rest) (tr ++ tr') res
| script_exits on ok c rest tr on1 :
    node_named c = true -> runs on false c tr on1 Exited ->
    script_runs on ok (c :: rest) tr Exited.

(** ** Chains *)

(** The statements of a list, through nested lists. *)
Fixpoint leaves (n : Node) : list Node :=
  if is_kind_of n ["list"] then
    flat_map (fun c => if node_named c then leaves c else []) (node_children n)
  else [n].
End Runs.

Scheme runs_ind' := Induction for runs Sort Prop
  with chain_ind' := Induction for chain Sort Prop.
Combined Scheme runs_chain_ind from runs_ind', chain_ind'.

(** ** Chains *)

Lemma kind_is n k : node_kind n = k -> is_kind_of n [k] = true.
Proof. intros <-. apply bool_decide_eq_true. set_solver. Qed.

Lemma kind_among n k : is_kind_of n [k] = true -> node_kind n = k.
Proof. intros H%bool_decide_eq_true. set_solver. Qed.

Section Chains.
Variable shlex_split : string -> option (list string).
Variable python_parse : string -> option Node.
Variable to_json : json -> string.
Variable command_kind : string -> option ObjectiveValidationKind.
Variable source : string.

Abbreviation collect := (collect_validation_and_chain shlex_split python_parse to_json command_kind source).
Abbreviation heredoc := (python_heredoc shlex_split python_parse to_json command_kind source).
Abbreviation runs := (runs shlex_split source).
Abbreviation chain := (chain shlex_split source).

Fixpoint collect_steps (children : list Node) (validation : option ObjectiveValidationKind) : Collected :=
  match children with
  | [] => (true, validation)
  | c :: rest =>
      if node_named c then
        match collect c validation with
        | (true, validation) => collect_steps rest validation
        | rejected => rejected
        end
      else if is_some_and (fun text => negb (is_operator ["&&"] text)) (node_text source c)
      then (false, validation)
      else collect_steps rest validation
  end.

Lemma collect_unfold n validation :
  collect n validation =
  if is_kind_of n ["list"] then collect_steps (node_children n) validation
  else chain_statement shlex_split command_kind source n (heredoc n) validation.
Proof. by destruct n. Qed.

(** What a statement of a chain contributes. *)
Definition leaf_kind (c : Node) : option ObjectiveValidationKind :=
  if is_kind_of c ["redirected_statement"] then fst <$> heredoc c
  else if is_kind_of c ["command"] then node_text source c ≫= command_kind ∘ trim
  else None.

Definition strongest (validation : option ObjectiveValidationKind)
    (kinds : list ObjectiveValidationKind) : option ObjectiveValidationKind :=
  foldl (fun current kind => Some (stronger_validation_kind current kind)) validation kinds.

Definition child_leaves (children : list Node) : list Node :=
  flat_map (fun c => if node_named c then leaves c else []) children.

Definition chain_ran (leaves : list Node) (tr : Trace) (validation validation' : option ObjectiveValidationKind)
    : Prop :=
  (forall c, c ∈ leaves -> (c, true) ∈ tr) /\ validation' = strongest validation (omap leaf_kind leaves).

Lemma chain_statement_ran n v v' on tested tr on' :
  is_kind_of n ["list"] = false ->
  chain_statement shlex_split command_kind source n (heredoc n) v = (true, v') ->
  runs on tested n tr on' (Done true) -> chain_ran [n] tr v v'.
Proof.
  intros Hl Hs Hr. unfold chain_ran. split.
  - intros c ->%list_elem_of_singleton. inversion Hr; subst;
      try match goal with H : (if ?b then _ else _) = Done true |- _ => destruct b; simplify_eq end;
      try set_solver.
    by match goal with H : node_kind _ = "list" |- _ => apply kind_is in H; congruence end.
  - unfold chain_statement in Hs. unfold leaf_kind. cbn [omap list_omap].
    destruct (is_kind_of n ["redirected_statement"]) eqn:Er.
    + apply kind_among in Er. unfold is_kind_of in Hs. rewrite Er in Hs. simpl in Hs.
      destruct (heredoc n) as [[k a]|]; [|done]. by simplify_eq.
    + destruct (is_kind_of n ["command"]) eqn:Ec; [|by injection Hs as _ <-].
      destruct (shell_script_has_unsafe_control_flow n); simpl in Hs.
      { apply kind_among in Ec. unfold is_kind_of in Hs. rewrite Ec in Hs. done. }
      destruct (node_text source n) as [text|]; [|done].
      destruct (split_trimmed shlex_split text) as [argv|]; [|done].
      destruct (shell_command_can_change_or_skip_validation argv); [done|]. simpl.
      unfold compose. destruct (command_kind (trim text)); by simplify_eq/=.
Qed.

Lemma collect_step op c rest k v v' :
  node_named op = false -> node_named c = true -> connective_of source op = Some k ->
  collect_steps (op :: c :: rest) v = (true, v') ->
  k = AndIf /\ exists v1, collect c v = (true, v1) /\ collect_steps rest v1 = (true, v').
Proof.
  intros Ho Hn Hk Hv. cbn [collect_steps] in Hv. rewrite Ho, Hn in Hv. unfold connective_of in Hk.
  destruct (node_text source op) as [text|]; [|done]. simpl in Hk, Hv.
  destruct (is_operator ["&&"] text); [|done]. simpl in Hv. injection Hk as <-.
  destruct (collect c v) as [[] v1]; [|done]. eauto.
Qed.

Lemma steps_ran children on tested ok tr on' :
  Forall (fun n => forall v v' on tested tr on', collect n v = (true, v') ->
    runs on tested n tr on' (Done true) -> chain_ran (leaves n) tr v v') children ->
  chain on tested ok children tr on' (Done true) ->
  forall v v', collect_steps children v = (true, v') ->
  ok = true /\ chain_ran (child_leaves children) tr v v'.
Proof.
  intros IH Hc. remember (Done true) as res eqn:Er.
  induction Hc as [on tested ok|on tested ok op c rest k tr on' res Ho Hn Hk Hs Hc IHc
    |on tested ok op c rest k tr on1 ok1 tr' on' res Ho Hn Hk Hs Hr Hc IHc
    |on tested ok op c rest k tr on' Ho Hn Hk Hs Hr]; intros v v' Hv; subst; try done.
  - injection Er as ->. injection Hv as ->. split; [done|]. by split; [set_solver|].
  - destruct (collect_step op c rest k v v' Ho Hn Hk Hv) as (-> & v1 & Ec & Hv1).
    rewrite !Forall_cons in IH. destruct IH as (_ & _ & IH).
    destruct (IHc eq_refl IH _ _ Hv1) as [-> _]. done.
  - destruct (collect_step op c rest k v v' Ho Hn Hk Hv) as (-> & v1 & Ec & Hv1).
    rewrite !Forall_cons in IH. destruct IH as (_ & IHn & IH).
    destruct (IHc eq_refl IH _ _ Hv1) as [-> [Hin ->]].
    destruct (IHn _ _ _ _ _ _ Ec Hr) as [Hin1 ->]. split; [by destruct ok|].
    unfold child_leaves. cbn [flat_map]. rewrite Ho, Hn. split.
    + intros d Hd. simpl in Hd. apply elem_of_app in Hd as [Hd|Hd]; apply elem_of_app; auto.
    + simpl. rewrite omap_app. unfold strongest. by rewrite foldl_app.
Qed.

Lemma chain_accepted_ran n : forall v v' on tested tr on', collect n v = (true, v') ->
  runs on tested n tr on' (Done true) -> chain_ran (leaves n) tr v v'.
Proof.
  induction n as [n IH] using Node_rect_list. intros v v' on tested tr on' Hc Hr.
  rewrite collect_unfold in Hc. destruct (is_kind_of n ["list"]) eqn:El.
  2: { assert (leaves n = [n]) as -> by (destruct n; simpl; by rewrite El). by eapply chain_statement_ran. }
  assert (leaves n = child_leaves (node_children n)) as -> by (destruct n; simpl; by rewrite El).
  apply kind_among in El. inversion Hr; subst;
    try (unfold simple_statement, is_kind_of in *; rewrite El in *; done).
  match goal with H : node_children n = _ |- _ => rewrite H in * end.
  rewrite Forall_cons in IH. destruct IH as [IHf IH]. cbn [collect_steps] in Hc.
  match goal with H : node_named first = true |- _ => rename H into Hn end. rewrite Hn in Hc.
  destruct (collect first v) as [[] v1] eqn:Ef; [|done].
  match goal with H : ScriptRuns.chain _ _ _ _ _ _ _ _ _ |- _ =>
    destruct (steps_ran _ _ _ _ _ _ IH H _ _ Hc) as [-> [Hin ->]] end.
  match goal with H : ScriptRuns.runs _ _ _ _ first _ _ _ |- _ =>
    destruct (IHf _ _ _ _ _ _ Ef H) as [Hin1 ->] end.
  unfold child_leaves. cbn [flat_map]. rewrite Hn. split.
  - intros d [Hd|Hd]%elem_of_app; apply elem_of_app; auto.
  - rewrite omap_app. unfold strongest. by rewrite foldl_app.
Qed.
End Chains.

(** ** Scripts of one chain *)

Section ScriptLevel.
Variable shlex_split : string -> option (list string).
Variable bash_parse : string -> option Node.
Variable python_parse : string -> option Node.
Variable to_json : json -> string.
Variable command_kind : string -> option ObjectiveValidationKind.

Abbreviation script_kind :=
  (objective_validation_shell_script_kind shlex_split bash_parse python_parse to_json command_kind).

Lemma unnamed_rest source on ok cs tr res : List.filter node_named cs = [] ->
  script_runs shlex_split source on ok cs tr res -> res = Done ok.
Proof.
  intros Hf H. induction H as [|on ok c rest tr res Hs H IH|on ok c rest tr res Hn Hk H IH
    |on ok c rest tr on1 ok1 tr' res Hn Hr H IH|on ok c rest tr on1 Hn Hr]; simpl in Hf;
    rewrite ?Hn in Hf; try done.
  destruct (node_named c); [done|]. auto.
Qed.

(** The only statement of a script decides. *)
Lemma single_statement source on ok cs tr s :
  List.filter node_named cs = [s] -> node_kind s <> "comment" ->
  script_runs shlex_split source on ok cs tr (Done true) ->
  exists tr1 tr2 on', tr = tr1 ++ tr2 /\ runs shlex_split source on false s tr1 on' (Done true).
Proof.
  intros Hf Hs H. remember (Done true) as res eqn:Er.
  induction H as [|on ok c rest tr res Hsep H IH|on ok c rest tr res Hn Hk H IH
    |on ok c rest tr on1 ok1 tr' res Hn Hr H IH|on ok c rest tr on1 Hn Hr]; simpl in Hf; try done.
  - unfold separator in Hsep. destruct (node_named c); [done|]. auto.
  - rewrite Hn in Hf. by injection Hf as -> _.
  - rewrite Hn in Hf. injection Hf as -> Hf. subst res.
    apply (unnamed_rest source) in H; [|done]. injection H as <-. eauto.
Qed.

(** When a script that consists of one list is taken for a validation and a run
    of it ends with status 0, every statement of the list was run and succeeded, also in
    nested lists, and the kind reported is the strongest kind of a validating command among
    them. A command that can skip or replace others ([exit], [set], [eval], a shell), an
    [||] or a background [&] makes the script no validation. *)
Theorem and_chain_success_means_all_ran script root statement k tr :
  bash_parse script = Some root -> named_children root = [statement] ->
  node_kind statement = "list" ->
  script_kind script = Some k ->
  script_runs shlex_split script false true (node_children root) tr (Done true) ->
  (forall c, c ∈ leaves statement -> (c, true) ∈ tr)
  /\ Some k = strongest None
       (omap (leaf_kind shlex_split python_parse to_json command_kind script) (leaves statement)).
Proof.
  intros Hp Hn Hl Hk Hr. unfold objective_validation_shell_script_kind in Hk. rewrite Hp in Hk.
  simpl in Hk. destruct (node_has_error root || starts_background script root); [done|].
  unfold root_kind in Hk. rewrite Hn in Hk.
  assert (python_heredoc shlex_split python_parse to_json command_kind script statement = None) as E.
  { unfold python_heredoc, objective_validation_python_heredoc,
      objective_validation_python_heredoc_source, is_kind_of. by rewrite Hl. }
  rewrite E, (kind_is _ _ Hl) in Hk. unfold objective_validation_and_chain_kind in Hk.
  destruct (collect_validation_and_chain _ _ _ _ _ _ _) as [[] v] eqn:Ec; [|done]. subst v.
  destruct (single_statement script false true (node_children root) tr statement) as (tr1 & tr2 & on' & -> & Hs);
    try done; [congruence|].
  destruct (chain_accepted_ran _ _ _ _ _ _ _ _ _ _ _ _ Ec Hs) as [Hin Hv].
  split; [|done]. intros c Hc. apply elem_of_app. auto.
Qed.
End ScriptLevel.

(** ** Scripts under [set -e] *)

Section FailFast.
Variable shlex_split : string -> option (list string).
Variable python_parse : string -> option Node.
Variable to_json : json -> string.
Variable command_kind : string -> option ObjectiveValidationKind.
Variable source : string.

Abbreviation collect_ff :=
  (collect_fail_fast_nodes shlex_split python_parse to_json command_kind source).
Abbreviation kind_of :=
  (objective_validation_statement_kind shlex_split python_parse to_json command_kind source).
Abbreviation step :=
  (fun n => fail_fast_statement shlex_split command_kind source n
              (python_heredoc shlex_split python_parse to_json command_kind source n)).

Fixpoint fail_fast_steps (children : list Node) (fail_fast : bool)
    (validation : option ObjectiveValidationKind) : FailFast :=
  match children with
  | [] => (true, (fail_fast, validation))
  | c :: rest =>
      if node_named c then
        match collect_ff c fail_fast validation with
        | (true, (fail_fast, validation)) => fail_fast_steps rest fail_fast validation
        | rejected => rejected
        end
      else if is_some_and (is_operator [""; ";"; "&&"]) (node_text source c)
      then fail_fast_steps rest fail_fast validation
      else (false, (fail_fast, validation))
  end.

Lemma collect_ff_unfold n ff v :
  collect_ff n ff v =
  if is_kind_of n ["program"; "list"] then fail_fast_steps (node_children n) ff v else step n ff v.
Proof. by destruct n. Qed.

(** Statements without a structure of their own. *)
Definition flat (n : Node) : bool := is_kind_of n ["comment"] || simple_statement n.

(** The [set] commands the collection recognises do turn [errexit] on. *)
Definition honest_set (n : Node) : Prop :=
  forall argv, words_of shlex_split source n = Some argv ->
  shell_command_enables_errexit argv = true -> forall on, set_builtin on (drop 1 argv) = true.

Lemma stronger_cases v k : stronger_validation_kind v k = k \/ v = Some (stronger_validation_kind v k).
Proof. destruct v as [[]|], k; auto. Qed.

(** One statement that is collected: [errexit] stays on once it is, a statement run under it
    succeeds, and the validation noted is its own. *)
Lemma fail_fast_step n ff v ff' v' on tr on' ok :
  simple_statement n = true -> honest_set n ->
  step n ff v = (true, (ff', v')) -> (ff = true -> on = true) ->
  runs shlex_split source on false n tr on' (Done ok) ->
  (ff' = true -> on' = true) /\ (ff = true -> (n, true) ∈ tr)
  /\ (v' = v \/ (ff = true /\ exists k, kind_of n = Some k /\ v' = Some (stronger_validation_kind v k))).
Proof.
  intros Hsimple Hset Hstep Hon Hr.
  assert (on' = errexit_after shlex_split source on n /\ tr = [(n, ok)] /\ (on = true -> ok = true)) as (-> & -> & Hok).
  { inversion Hr; subst; try (unfold simple_statement, is_kind_of in Hsimple;
      match goal with H : node_kind n = _ |- _ => by rewrite H in Hsimple end).
    match goal with H : (if ?b then _ else _) = Done ok |- _ => destruct b eqn:E; simplify_eq end.
    split_and!; [done..|]. intros ->. by destruct ok. }
  unfold fail_fast_statement in Hstep.
  change (statement_kind shlex_split command_kind source n
    (python_heredoc shlex_split python_parse to_json command_kind source n)) with (kind_of n) in Hstep.
  assert (Hnc : is_kind_of n ["comment"] = false).
  { destruct (is_kind_of n ["comment"]) eqn:E; [|done]. apply kind_among in E.
    unfold simple_statement, is_kind_of in Hsimple. by rewrite E in Hsimple. }
  rewrite Hnc in Hstep. unfold errexit_after. destruct (is_kind_of n ["command"]) eqn:Ec.
  - unfold honest_set, words_of in *. destruct (node_text source n ≫= split_trimmed shlex_split) as [argv|]; [|done].
    destruct ff; simpl in Hstep.
    + destruct (shell_command_can_change_or_skip_validation argv) eqn:Es; [done|].
      assert (Hsame : match argv with program :: arguments =>
          if bool_decide (program = "set") then set_builtin on arguments else on | [] => on end = on).
      { destruct argv as [|program arguments]; [done|]. 
        destruct (decide (program = "set")) as [->|]; [by vm_compute in Es|by rewrite bool_decide_false]. }
      rewrite Hsame. destruct (kind_of n) as [k|]; simplify_eq;
        (split_and!; [by auto|intros _; rewrite Hok by auto; set_solver|by eauto]).
    + destruct (shell_command_enables_errexit argv) eqn:Ee; simplify_eq. split_and!; [|done|by left].
      intros _. specialize (Hset argv eq_refl Ee on). destruct argv as [|program arguments]; [done|].
      unfold shell_command_enables_errexit in Ee. apply andb_true_iff in Ee as [-> _]. done.
  - destruct (is_kind_of n ["variable_assignment"]).
    { simplify_eq. split_and!; [by auto| |by left]. intros ->. rewrite Hok by auto. set_solver. }
    destruct ff; [|done]. simpl in Hstep.
    assert (Hin : (n, true) ∈ [(n, ok)]) by (rewrite Hok by auto; set_solver).
    destruct (kind_of n) as [k|]; repeat case_match; simplify_eq; split_and!; eauto.
Qed.

Lemma fail_fast_steps_ran cs on ok tr ff v ff' v' :
  Forall (fun c => node_named c = true -> flat c = true /\ honest_set c) cs ->
  fail_fast_steps cs ff v = (true, (ff', v')) -> (ff = true -> on = true) ->
  script_runs shlex_split source on ok cs tr (Done true) ->
  forall k, v' = Some k -> v = Some k \/ exists c, c ∈ cs /\ (c, true) ∈ tr /\ kind_of c = Some k.
Proof.
  intros Hf Hs Hon H. remember (Done true) as res eqn:Er. revert ff v Hs Hon.
  induction H as [|on ok c rest tr res Hsep H IH|on ok c rest tr res Hn Hk H IH
    |on ok c rest tr on1 ok1 tr' res Hn Hr H IH|on ok c rest tr on1 Hn Hr]; intros ff v Hs Hon k Hv'; try done.
  - simpl in Hs. simplify_eq. by left.
  - apply Forall_cons in Hf as [_ Hf]. cbn [fail_fast_steps] in Hs.
    unfold separator in Hsep. destruct (node_named c); [done|].
    destruct (is_some_and (is_operator [""; ";"; "&&"]) (node_text source c)); [|done].
    destruct (IH Hf Er _ _ Hs Hon k Hv') as [?|(d & ? & ? & ?)]; [by left|right].
    exists d. split_and!; try done. set_solver.
  - apply Forall_cons in Hf as [_ Hf]. cbn [fail_fast_steps] in Hs. rewrite Hn, collect_ff_unfold in Hs.
    unfold is_kind_of, fail_fast_statement in Hs. rewrite Hk in Hs. simpl in Hs.
    unfold is_kind_of in Hs. rewrite Hk in Hs. simpl in Hs.
    destruct (IH Hf Er _ _ Hs Hon k Hv') as [?|(d & ? & ? & ?)]; [by left|right].
    exists d. split_and!; try done. set_solver.
  - apply Forall_cons in Hf as [Hc Hf]. destruct (Hc Hn) as [Hflat Hset].
    cbn [fail_fast_steps] in Hs. rewrite Hn, collect_ff_unfold in Hs.
    assert (Hsimple : simple_statement c = true).
    { unfold flat in Hflat. destruct (simple_statement c) eqn:E; [done|]. rewrite orb_false_r in Hflat.
      apply kind_among in Hflat. inversion Hr; congruence. }
    assert (is_kind_of c ["program"; "list"] = false) as Hk.
    { apply not_true_is_false. intros E. apply bool_decide_eq_true in E. unfold simple_statement, is_kind_of in Hsimple.
      rewrite !elem_of_cons in E. destruct E as [E|[E|E]]; [by rewrite E in Hsimple..|set_solver]. }
    rewrite Hk in Hs. destruct (step c ff v) as [[] [ff1 v1]] eqn:Est; [|done].
    destruct (fail_fast_step c ff v ff1 v1 on tr on1 ok1 Hsimple Hset Est Hon Hr) as (Hon1 & Hin & Hv1).
    destruct (IH Hf Er _ _ Hs Hon1 k Hv') as [Hk1|(d & ? & ? & ?)].
    + destruct Hv1 as [->|(Hff & k1 & Hk1' & Ev1)]; [by left|]. rewrite Hk1 in Ev1. injection Ev1 as Ek.
      destruct (stronger_cases v k1) as [E|E]; [right|left; congruence].
      exists c. rewrite Ek, E. split_and!; [set_solver| |done]. apply elem_of_app. auto.
    + right. exists d. split_and!; [set_solver| |done]. apply elem_of_app. auto.
Qed.

(** A script of plain statements under [set -e] that is collected as a validation and ends
    with status 0 ran a validating statement of that kind, and it succeeded. *)
Lemma fail_fast_success_means_ran root k tr :
  is_kind_of root ["program"; "list"] = true ->
  Forall (fun c => node_named c = true -> flat c = true /\ honest_set c) (node_children root) ->
  collect_fail_fast_validation shlex_split python_parse to_json command_kind source root = (true, Some k) ->
  script_runs shlex_split source false true (node_children root) tr (Done true) ->
  exists c, c ∈ node_children root /\ (c, true) ∈ tr /\ kind_of c = Some k.
Proof.
  intros Hk Hf Hc Hr. unfold collect_fail_fast_validation in Hc. rewrite collect_ff_unfold, Hk in Hc.
  destruct (fail_fast_steps _ _ _) as [[] [ff v]] eqn:Es; [|done].
  assert (v = Some k) as -> by (by injection Hc).
  by destruct (fail_fast_steps_ran _ _ _ _ _ _ _ _ Hf Es (fun H => False_ind _ (diff_false_true H)) Hr k eq_refl)
    as [?|?].
Qed.
End FailFast.

(** ** Examples *)

Definition sample_node (kind : string) (start stop : nat) (children : list Node) : Node :=
  mkNode kind (negb (among kind [";"; "&&"])) None start stop false children.

Definition chain_script : string := "cargo check && cargo test".
Definition chain_list : Node :=
  sample_node "list" 0 25
    [sample_node "command" 0 11 []; sample_node "&&" 12 14 []; sample_node "command" 15 25 []].

Definition masked_script : string := "set -e; cargo test && ls; ls".
Definition masked_test : Node := sample_node "command" 8 18 [].
Definition masked_root : Node :=
  sample_node "program" 0 28
    [sample_node "command" 0 6 []; sample_node ";" 6 7 [];
     sample_node "list" 8 24 [masked_test; sample_node "&&" 19 21 []; sample_node "command" 22 24 []];
     sample_node ";" 24 25 []; sample_node "command" 26 28 []].

(** A grammar for the two scripts and for single commands. *)
Definition sample_parse (text : string) : option Node :=
  if bool_decide (text = chain_script) then Some (sample_node "program" 0 25 [chain_list])
  else if bool_decide (text = masked_script) then Some masked_root
  else one_command text.

Definition sample_kind : string -> option ObjectiveValidationKind :=
  objective_validation_command_kind blank_split sample_parse (fun _ => None) (fun _ => "").

Lemma and_chain_success_means_all_ran_witness :
  Forall (fun c => (c, true) ∈ [(sample_node "command" 0 11 [], true); (sample_node "command" 15 25 [], true)])
    (leaves chain_list).
Proof.
  apply Forall_forall.
  apply (and_chain_success_means_all_ran blank_split sample_parse (fun _ => None) (fun _ => "") sample_kind
    chain_script (sample_node "program" 0 25 [chain_list]) chain_list ObjectiveValidationKind.Test);
    try reflexivity.
  apply (script_statement blank_split chain_script false true chain_list []
    [(sample_node "command" 0 11 [], true); (sample_node "command" 15 25 [], true)] false true []);
    [reflexivity| |constructor].
  eapply (runs_list blank_split chain_script false false chain_list _ _ [_] false true [_]);
    [reflexivity..| |].
  - apply (runs_simple blank_split chain_script false true (sample_node "command" 0 11 []) true). reflexivity.
  - eapply (chain_run blank_split chain_script false false true _ _ [] AndIf [_] false true []);
      [reflexivity..| |constructor].
    apply (runs_simple blank_split chain_script false false (sample_node "command" 15 25 []) true). reflexivity.
Defined.

(** A failing command before [&&] does not end a script under [set -e]: the script below
    counts as a passed test run although its test command failed. *)
Lemma fail_fast_masks_failed_test :
  sample_kind masked_script = Some ObjectiveValidationKind.Test
  /\ exists tr, (masked_test, false) ∈ tr
     /\ script_runs blank_split masked_script false true (node_children masked_root) tr (Done true).
Proof.
  split; [by vm_compute|].
  exists ([(sample_node "command" 0 6 [], true)] ++ ([(masked_test, false)] ++ []) ++
     [(sample_node "command" 26 28 [], true)] ++ []).
  split; [set_solver|].
  apply (script_statement blank_split masked_script _ _ _ _ _ true true);
    [reflexivity|apply (runs_simple blank_split masked_script false false); reflexivity|].
  apply script_separator; [by vm_compute|].
  apply (script_statement blank_split masked_script _ _ _ _ _ true false); [reflexivity| |].
  - eapply (runs_list blank_split masked_script true false _ masked_test _ _ true false); [reflexivity..| |].
    + apply (runs_simple blank_split masked_script true true masked_test false). reflexivity.
    + eapply (chain_skip blank_split masked_script true false false _ _ [] AndIf); try reflexivity. constructor.
  - apply script_separator; [by vm_compute|].
    apply (script_statement blank_split masked_script _ _ _ _ _ true true);
      [reflexivity|apply (runs_simple blank_split masked_script true false); reflexivity|].
    constructor.
Qed.
