(* ===== verification/ScriptFuel.v ===== *)
(** * Scripts inside scripts

    The analysis of a command opens the scripts it runs, and the analysis of a script looks
    at its commands ([objective_evidence.rs]). The definitions take fuel for this
    recursion; here it is shown that the fuel they start with never decides: a script
    inside a command, and a command inside a script, have fewer characters. *)
From S2P Require Import Prelude RustStr Utf8 Core TaskContract Verify Governed Correction Evidence Regex TestOutput ShellSyntax ValidationCommand ValidationScript ScriptRuns.
Open Scope nat_scope.

Definition size (s : string) : nat := length (chars s).
Definition total_size (argv : list string) : nat := sum_list_with size argv.

Lemma drop_while_suffix {A} (f : A -> bool) l : drop_while f l `suffix_of` l.
Proof.
  induction l as [|x l IH]; simpl; [done|]. destruct (f x); [|done]. by apply suffix_cons_r.
Qed.

Lemma trim_chars_length l : length (trim_matches_chars is_whitespace l) <= length l.
Proof.
  unfold trim_matches_chars. rewrite length_reverse.
  etrans; [apply suffix_length, drop_while_suffix|]. rewrite length_reverse.
  apply suffix_length, drop_while_suffix.
Qed.

Lemma drop_while_subset {A} (f : A -> bool) l : drop_while f l ⊆ l.
Proof. destruct (drop_while_suffix f l) as [k Hk]. rewrite Hk at 2. set_solver. Qed.

Lemma trim_chars_subset l : trim_matches_chars is_whitespace l ⊆ l.
Proof.
  unfold trim_matches_chars. intros c Hc. rewrite elem_of_reverse in Hc.
  apply drop_while_subset in Hc. rewrite elem_of_reverse in Hc. by apply drop_while_subset in Hc.
Qed.

Lemma trim_size s : size (trim s) <= size s.
Proof.
  unfold size, trim. rewrite (chars_of_sub _ s) by apply trim_chars_subset. apply trim_chars_length.
Qed.

Lemma break_whitespace_app l a b : break_whitespace l = Some (a, b) -> l = a ++ b.
Proof.
  revert a. induction l as [|c l IH]; intros a; simpl; [done|].
  destruct (is_whitespace c); [by intros [= <- <-]|].
  destruct (break_whitespace l) as [[a' b']|]; simpl; [|done]. intros [= <- <-]. by rewrite (IH a').
Qed.

(** The script of an explicit wrapper, as characters of the command. *)
Lemma wrapper_words_rest command program option rest :
  wrapper_words command = Some (program, option, rest) ->
  length rest <= size command /\ rest ⊆ chars command.
Proof.
  unfold wrapper_words. destruct (break_whitespace _) as [[a b]|] eqn:Ea; simpl; [|done].
  destruct (is_shell_program _); simpl; [|done].
  destruct (break_whitespace (drop_while is_whitespace b)) as [[a' b']|] eqn:Eb; simpl; [|done].
  destruct (among _ _); simpl; [|done]. intros [= <- <- <-].
  apply break_whitespace_app in Ea, Eb.
  assert (H1 : drop_while is_whitespace b' `suffix_of` trim_matches_chars is_whitespace (chars command)).
  { rewrite Ea. apply suffix_app_r. etrans; [apply drop_while_suffix|].
    etrans; [|apply (drop_while_suffix is_whitespace b)]. rewrite Eb. by apply suffix_app_r. }
  split.
  - etrans; [apply suffix_length, H1|apply trim_chars_length].
  - etrans; [|apply trim_chars_subset]. destruct H1 as [k ->]. set_solver.
Qed.

Lemma raw_script_size command a option script q :
  parse_explicit_wrapper_raw command = Ok (Some ([a; option; script], q)) -> size script < size command.
Proof.
  unfold parse_explicit_wrapper_raw. destruct (wrapper_words command) as [[[p o] [|c body]]|] eqn:Ew; try done.
  destruct (_ || _); [done|]. destruct body as [|d body]; [done|]. intros [= <- <- <- <-].
  apply wrapper_words_rest in Ew as [Hl Hs]. simpl in Hl.
  unfold size at 1. rewrite (chars_of_sub _ command).
  - rewrite length_take. simpl. lia.
  - intros x Hx. apply Hs, list_elem_of_further. by eapply subseteq_take.
Qed.

(** A predicate at every node of a tree. *)
Inductive everywhere (P : Node -> Prop) (n : Node) : Prop :=
| everywhere_node : P n -> Forall (everywhere P) (node_children n) -> everywhere P n.

Lemma everywhere_intro (P : Node -> Prop) : (forall n, P n) -> forall n, everywhere P n.
Proof.
  intros HP n. induction n as [n IH] using Node_rect_list. by constructor.
Qed.

Lemma everywhere_impl (P Q : Node -> Prop) n :
  (forall c, P c -> Q c) -> everywhere P n -> everywhere Q n.
Proof.
  intros HPQ. induction n as [n IH] using Node_rect_list. intros [Hn Hc]. constructor; [auto|].
  rewrite Forall_forall in *. auto.
Qed.

Lemma everywhere_child P n c : everywhere P n -> c ∈ node_children n -> everywhere P c.
Proof. intros [_ H]. by apply Forall_forall. Qed.

Lemma named_child n c : c ∈ named_children n -> c ∈ node_children n.
Proof. unfold named_children. by intros [? _]%elem_of_lfilter. Qed.

(** ** The analysis of a script asks only about its commands *)

Section Congruence.
Variable shlex_split : string -> option (list string).
Variable python_parse : string -> option Node.
Variable to_json : json -> string.
Variables f g : string -> option ObjectiveValidationKind.
Variable source : string.

Definition same_kind (c : Node) : Prop :=
  is_kind_of c ["command"] = true -> forall text, node_text source c = Some text ->
  f (trim text) = g (trim text).

Lemma own_kind_same n : is_kind_of n ["command"] = true -> same_kind n ->
  own_kind f source n = own_kind g source n.
Proof.
  intros Hk Hn. unfold own_kind. destruct (shell_script_has_unsafe_control_flow n); [done|].
  destruct (node_text source n) as [text|] eqn:E; [|done]. simpl. by apply Hn.
Qed.

Lemma statement_kind_same n h : same_kind n ->
  statement_kind shlex_split f source n h = statement_kind shlex_split g source n h.
Proof.
  intros Hn. unfold statement_kind. destruct (is_kind_of n ["command"]) eqn:E; [|done].
  by apply own_kind_same.
Qed.

Lemma chain_statement_same n h v : same_kind n ->
  chain_statement shlex_split f source n h v = chain_statement shlex_split g source n h v.
Proof.
  intros Hn. unfold chain_statement, same_kind in *. destruct (is_kind_of n ["command"]); [|done]. simpl.
  destruct (negb _); [|done]. destruct (node_text source n) as [text|]; [|done].
  by rewrite (Hn eq_refl text eq_refl).
Qed.

Lemma fail_fast_statement_same n h ff v : same_kind n ->
  fail_fast_statement shlex_split f source n h ff v = fail_fast_statement shlex_split g source n h ff v.
Proof. intros Hn. unfold fail_fast_statement. by rewrite statement_kind_same. Qed.

Abbreviation chain_of k := (collect_validation_and_chain shlex_split python_parse to_json k source).
Abbreviation fail_fast_of k := (collect_fail_fast_nodes shlex_split python_parse to_json k source).
Abbreviation heredoc_of k := (python_heredoc shlex_split python_parse to_json k source).

Definition same_collections (n : Node) : Prop :=
  (forall v, chain_of f n v = chain_of g n v) /\ (forall ff v, fail_fast_of f n ff v = fail_fast_of g n ff v).

Lemma heredoc_same n : Forall same_collections (node_children n) -> heredoc_of f n = heredoc_of g n.
Proof.
  intros H. unfold python_heredoc. f_equal. unfold list_ok, below. apply List.map_ext_in. intros c Hc.
  apply list_elem_of_In in Hc. destruct (proj1 (Forall_forall _ _) H c Hc) as [H1 H2].
  rewrite H1. f_equal. destruct (chain_of g c None) as [ok found]. by rewrite H2.
Qed.

Lemma collections_same n : everywhere same_kind n -> same_collections n.
Proof.
  induction n as [n IH] using Node_rect_list. intros [Hn Hc].
  assert (Hall : Forall same_collections (node_children n)).
  { rewrite Forall_forall in *. auto. }
  split.
  - intros v. rewrite !collect_unfold. destruct (is_kind_of n ["list"]).
    + revert v. clear IH Hc. induction Hall as [|c cs [H1 _] _ IHc]; intros v; [done|]. cbn [collect_steps].
      rewrite H1. destruct (node_named c); [|by rewrite IHc].
      destruct (chain_of g c v) as [[] v1]; [apply IHc|done].
    + rewrite heredoc_same by done. by apply chain_statement_same.
  - intros ff v. rewrite !collect_ff_unfold. destruct (is_kind_of n ["program"; "list"]).
    + revert ff v. clear IH Hc. induction Hall as [|c cs [_ H2] _ IHc]; intros ff v; [done|].
      cbn [fail_fast_steps]. rewrite H2. destruct (node_named c); [|by rewrite IHc].
      destruct (fail_fast_of g c ff v) as [[] [ff1 v1]]; [apply IHc|done].
    + rewrite heredoc_same by done. by apply fail_fast_statement_same.
Qed.

Lemma everywhere_heredoc n : everywhere same_kind n -> heredoc_of f n = heredoc_of g n.
Proof.
  intros [_ H]. apply heredoc_same. eapply Forall_impl; [exact H|]. apply collections_same.
Qed.

Lemma statement_same n : everywhere same_kind n ->
  objective_validation_statement_kind shlex_split python_parse to_json f source n =
  objective_validation_statement_kind shlex_split python_parse to_json g source n.
Proof.
  intros H. unfold objective_validation_statement_kind. rewrite everywhere_heredoc by done.
  destruct H. by apply statement_kind_same.
Qed.

Lemma several_statements_same root : everywhere same_kind root ->
  several_statements_kind shlex_split python_parse to_json f source root =
  several_statements_kind shlex_split python_parse to_json g source root.
Proof.
  intros H. unfold several_statements_kind, collect_fail_fast_validation.
  rewrite (proj2 (collections_same root H)).
  destruct (fail_fast_of g root false None) as [ok [ff v]].
  assert (Ht : collect_terminal_statement_validation shlex_split python_parse to_json f source root =
               collect_terminal_statement_validation shlex_split python_parse to_json g source root).
  { unfold collect_terminal_statement_validation. destruct (existsb _ _); [done|].
    destruct (last _) as [final|] eqn:El; [|done]. simpl. destruct (existsb _ _); [done|].
    apply statement_same. eapply everywhere_child; [done|]. apply named_child.
    apply last_Some_elem_of in El. by apply elem_of_lfilter in El as [? _]. }
  by rewrite Ht.
Qed.

Lemma root_kind_same root : everywhere same_kind root ->
  root_kind shlex_split python_parse to_json f source root =
  root_kind shlex_split python_parse to_json g source root.
Proof.
  intros H. unfold root_kind. rewrite several_statements_same by done.
  destruct (named_children root) as [|s [|]] eqn:En; try done.
  assert (Hs : everywhere same_kind s).
  { eapply everywhere_child; [done|]. apply named_child. rewrite En. set_solver. }
  rewrite everywhere_heredoc by done. destruct (heredoc_of g s) as [[]|]; [done|].
  unfold objective_validation_and_chain_kind. rewrite (proj1 (collections_same s Hs)).
  destruct (is_kind_of s ["list"]); [done|]. destruct Hs as [Hs _]. unfold same_kind in Hs.
  destruct (is_kind_of s ["command"]); [|done]. simpl. destruct (negb _); [|done].
  destruct (node_text source s) as [text|]; [|done]. simpl. by rewrite (Hs eq_refl text eq_refl).
Qed.
End Congruence.

(** ** The recursion ends *)

Section Fuel.
Variable shlex_split : string -> option (list string).
Variable bash_parse : string -> option Node.
Variable python_parse : string -> option Node.
Variable to_json : json -> string.

(** [shlex] only drops characters. The grammar gives each node a range of the text, and in
    a text that is not one command every command is a part of it. *)
Hypothesis shlex_shrinks : forall text argv,
  shlex_split text = Some argv -> total_size argv <= size text.
Hypothesis nodes_within : forall script root, bash_parse script = Some root ->
  everywhere (fun c => forall text, node_text script c = Some text -> size text <= size script) root.
Hypothesis commands_inside : forall command root, bash_parse command = Some root ->
  requires_shell_script_analysis bash_parse command = Some true ->
  everywhere (fun c => is_kind_of c ["command"] = true -> forall text,
    node_text command c = Some text -> size (trim text) < size command) root.

Abbreviation kind_with := (objective_validation_command_kind_with_depth shlex_split bash_parse python_parse to_json).
Abbreviation parsed := (parsed_command shlex_split bash_parse).

Lemma heredoc_two_words command p :
  parse_direct_quoted_python_heredoc shlex_split bash_parse command = Some p -> length (parts p) = 2.
Proof.
  assert (Ha : forall source body redirect argv, heredoc_argv shlex_split source body redirect = Some argv ->
    length argv = 2).
  { intros source body redirect argv H. unfold heredoc_argv in H.
    destruct (node_text source body) as [text|]; simpl in H; [|done].
    destruct (shlex_split (trim text)) as [first|]; simpl in H; [|done].
    destruct (if valid_utf8 _ then _ else _) as [second|]; simpl in H; [|done].
    destruct (head (first ++ second)); simpl in H; [|done].
    destruct (_ && bool_decide (length (first ++ second) = 2)) eqn:E; [|done]. injection H as <-.
    apply andb_true_iff in E as [_ E]. by apply bool_decide_eq_true in E. }
  unfold parse_direct_quoted_python_heredoc. intros H.
  apply bind_Some in H as (root & _ & H). destruct (node_has_error root); [done|].
  destruct (named_children root) as [|s [|]]; try done. destruct (negb _); [done|].
  apply bind_Some in H as (body & _ & H). destruct (negb _); [done|].
  destruct (List.filter _ _) as [|redirect [|]]; try done. destruct (existsb _ _); [done|].
  apply bind_Some in H as (argv & Ea & H). apply bind_Some in H as (text & _ & H).
  injection H as <-. by eapply Ha.
Qed.

Lemma option_size option : among option ["-c"; "-lc"] = true -> 2 <= size option.
Proof.
  intros H%bool_decide_eq_true. rewrite !elem_of_cons in H.
  destruct H as [->|[->|H]]; [vm_compute; lia..|set_solver].
Qed.

Lemma decoded_script_size command a option script :
  shlex_split command = Some [a; option; script] -> among option ["-c"; "-lc"] = true ->
  size script < size command.
Proof.
  intros H%shlex_shrinks Ho%option_size. unfold total_size in H. simpl in H. lia.
Qed.

Lemma wrapped_script_size command p depth program script :
  parsed command = Some p -> wrapped_script depth program (parts p) = Some script ->
  size script < size command.
Proof.
  intros Hp Hw. unfold wrapped_script in Hw.
  destruct (parts p) as [|a [|option [|s [|]]]] eqn:Eparts; try done.
  destruct (_ && among option ["-c"; "-lc"]) eqn:Ec; [|done]. injection Hw as <-.
  apply andb_true_iff in Ec as [_ Ho]. eapply Nat.le_lt_trans; [apply trim_size|].
  assert (Hdecoded : forall argv, shlex_split command = Some argv -> argv = parts p -> size s < size command).
  { intros argv E ->. rewrite Eparts in E. by eapply decoded_script_size. }
  unfold parsed_command, parse_shell_command_with_input in Hp.
  destruct (parse_direct_quoted_python_heredoc _ _ _) as [q|] eqn:Eh.
  { injection Hp as ->. apply heredoc_two_words in Eh. by rewrite Eparts in Eh. }
  destruct (parse_explicit_wrapper_raw command) as [o|] eqn:Er; simpl in Hp; [|done].
  destruct o as [[raw q]|].
  - destruct (explicit_shell_script raw) as [raw_script|]; [|done].
    assert (Hraw : (if explicit_script_is_complete bash_parse raw_script
                    then Some (mkParsed raw None) else None) = Some p -> size s < size command).
    { destruct (explicit_script_is_complete _ _); [|done]. intros [= <-]. simpl in Eparts. subst raw.
      by eapply raw_script_size. }
    destruct (shlex_split command) as [argv|] eqn:Es; simpl in Hp; repeat case_match; simplify_eq; eauto.
  - destruct (shlex_split command) as [argv|] eqn:Es; [|done]. injection Hp as <-. eauto.
Qed.

Lemma script_kind_same k k' script bound :
  (forall text, size text < bound -> k text = k' text) ->
  (forall root, bash_parse script = Some root -> everywhere (fun c => is_kind_of c ["command"] = true ->
     forall text, node_text script c = Some text -> size (trim text) < bound) root) ->
  objective_validation_shell_script_kind shlex_split bash_parse python_parse to_json k script =
  objective_validation_shell_script_kind shlex_split bash_parse python_parse to_json k' script.
Proof.
  intros Hk Hn. unfold objective_validation_shell_script_kind.
  destruct (bash_parse script) as [root|]; [|done]. simpl. destruct (_ || _); [done|].
  apply root_kind_same. eapply everywhere_impl; [|by apply Hn].
  intros c Hc Hcmd text Ht. apply Hk. by apply Hc.
Qed.

Lemma kind_fuel fuel : forall fuel' depth command,
  size command < fuel -> size command < fuel' -> kind_with fuel depth command = kind_with fuel' depth command.
Proof.
  induction fuel as [|fuel IH]; intros [|fuel'] depth command H1 H2; [lia..|].
  cbn [objective_validation_command_kind_with_depth].
  destruct (parsed command) as [p|] eqn:Ep; [|done]. cbn [mbind option_bind].
  destruct (program_name <$> head (parts p)) as [program|]; [|done]. cbn [mbind option_bind].
  destruct (wrapped_script depth program (parts p)) as [script|] eqn:Ew.
  - pose proof (wrapped_script_size _ _ _ _ _ Ep Ew) as Hlt.
    apply (script_kind_same _ _ _ (size command)).
    + intros text Ht. apply IH; lia.
    + intros root Hr. eapply everywhere_impl; [|by apply nodes_within].
      intros c Hc _ text Ht. specialize (Hc text Ht). pose proof (trim_size text). lia.
  - destruct (stdin p); [done|].
    destruct (requires_shell_script_analysis bash_parse command) as [[]|] eqn:Ea; [|done..].
    apply (script_kind_same _ _ _ (size command)); [intros text Ht; apply IH; lia|].
    intros root Hr. by apply commands_inside.
Qed.

(** The kind of a command satisfies the recursive equation of the source: the fuel, one more
    than its characters, never decides. *)
Theorem command_kind_unfolds command :
  objective_validation_command_kind shlex_split bash_parse python_parse to_json command =
  kind_with (S (script_fuel_of command)) 0 command
  /\ forall fuel depth text, size text < fuel ->
     kind_with fuel depth text = kind_with (S fuel) depth text.
Proof.
  unfold objective_validation_command_kind, script_fuel_of, size in *.
  split; [apply kind_fuel; unfold size; lia|]. intros fuel depth text H. apply kind_fuel; unfold size; lia.
Qed.
End Fuel.

(** ** Identities *)

Lemma le_bytes_length w n : String.length (le_bytes w n) = w.
Proof. revert n. induction w as [|w IH]; intros n; simpl; [done|]. by rewrite IH. Qed.

Lemma le_bytes_inj w : forall n m,
  (n < 256 ^ N.of_nat w)%N -> (m < 256 ^ N.of_nat w)%N -> le_bytes w n = le_bytes w m -> n = m.
Proof.
  induction w as [|w IH]; intros n m Hn Hm H; [simpl in *; lia|]. cbn [le_bytes] in H.
  injection H as Hb H. rewrite Nat2N.inj_succ, N.pow_succ_r' in Hn, Hm.
  assert (Hmod : (n mod 256 = m mod 256)%N).
  { assert (Hlt : forall x, (x mod 256 < 256)%N) by (intros x; apply N.mod_lt; lia).
    rewrite <- (byte_of_byte (n mod 256)) by apply Hlt. rewrite <- (byte_of_byte (m mod 256)) by apply Hlt.
    by rewrite Hb. }
  apply IH in H; [|by apply N.Div0.div_lt_upper_bound..].
  rewrite (N.div_mod n 256), (N.div_mod m 256) by lia. by rewrite H, Hmod.
Qed.

Lemma str_app_inj a b c d : String.length a = String.length b -> a +:+ c = b +:+ d -> a = b /\ c = d.
Proof.
  revert b. induction a as [|x a IH]; intros [|y b] Hl H; simpl in *; try done.
  injection H as -> H. injection Hl as Hl. by destruct (IH b Hl H) as [-> ->].
Qed.

Definition fits_u64 (atom : string) : Prop := (str_len atom < 2 ^ 64)%N.

Lemma length_prefixed_inj a b c d : fits_u64 a -> fits_u64 b ->
  length_prefixed a +:+ c = length_prefixed b +:+ d -> a = b /\ c = d.
Proof.
  unfold length_prefixed, fits_u64. rewrite !str_app_assoc. intros Ha Hb H.
  apply str_app_inj in H as [Hl H]; [|by rewrite !le_bytes_length].
  apply le_bytes_inj in Hl; [|done..]. apply str_app_inj in H; [done|]. unfold str_len in Hl. lia.
Qed.

Lemma digest_input_cons a l : digest_input (a :: l) = length_prefixed a +:+ digest_input l.
Proof.
  destruct l as [|b l]; [|reflexivity]. change (digest_input []) with "". by rewrite str_app_nil_r.
Qed.

Lemma digest_input_inj l : forall l', Forall fits_u64 l -> Forall fits_u64 l' ->
  digest_input l = digest_input l' -> l = l'.
Proof.
  induction l as [|a l IH]; intros [|b l'] Ha Hb H; rewrite ?digest_input_cons in H; try done.
  apply Forall_cons in Ha as [Ha Hl]. apply Forall_cons in Hb as [Hb Hl'].
  apply length_prefixed_inj in H as [-> H]; [|done..]. f_equal. auto.
Qed.
