(* ===== verification/Inspection.v ===== *)
(** * Requested inspections

    [golutra-agent-runtime/src/objective_evidence.rs]: reading a file or listing a directory
    that the task asked for by name counts as a diagnostic. The path a tool reports is
    brought to one workspace-relative spelling; a bare file name that does not exist is
    resolved to the only file of that name in the workspace. Path resolution and
    directory listings are arguments, as classes. *)
From S2P Require Import Prelude RustStr Core TaskContract Verify Governed Correction Evidence Regex TestOutput PathPolicy.
Open Scope N_scope.

Module EntryType.
Inductive EntryType := Symlink | Directory | RegularFile | Other.
#[global] Instance EntryType_eq_dec : EqDecision EntryType.
Proof. solve_decision. Defined.
End EntryType.
Abbreviation EntryType := EntryType.EntryType.

(** A directory entry; [None] is a type that cannot be read. *)
Record DirEntry := mkDirEntry {
  entry_path : string;
  entry_name : string;
  entry_type : option EntryType;
}.

(** [fs::read_dir]; an entry may fail. *)
Class Directories := {
  read_dir : string -> option (list (option DirEntry));
}.

Fixpoint normalize_components (acc : list string) (cs : list Component) : option (list string) :=
  match cs with
  | [] => Some acc
  | CurDir :: cs' => normalize_components acc cs'
  | Normal value :: cs' => normalize_components (acc ++ [value]) cs'
  | ParentDir :: cs' =>
      match acc with [] => None | _ => normalize_components (take (length acc - 1) acc) cs' end
  | RootDir :: _ => None
  end.

(*@ runtime/src/objective_evidence.rs normalize_relative_path *)
Definition normalize_relative_path (path : string) : option string :=
  components ← normalize_components [] (path_components path);
  if is_nil components then None else Some (join "/" components).

(*@ runtime/src/objective_evidence.rs MAX_INSPECTION_INDEX_ENTRIES *)
Definition MAX_INSPECTION_INDEX_ENTRIES : N := 16384.

Section Search.
Context `{directories : Directories}.
Variable basename : string.

Definition names_match (e : DirEntry) : bool :=
  bool_decide (to_ascii_lowercase (entry_name e) = to_ascii_lowercase basename).

Record SearchState := mkSearch {
  ss_pending : list string;
  ss_match : option string;
  ss_inspected : N;
}.

(** The entries of one directory; [None] is the early return. *)
(*@ runtime/src/objective_evidence.rs:377-403 unique_workspace_basename_match *)
Fixpoint scan_entries (s : SearchState) (entries : list (option DirEntry)) : option SearchState :=
  match entries with
  | [] => Some s
  | entry :: rest =>
      let inspected := sat_add usize_max (ss_inspected s) 1 in
      if MAX_INSPECTION_INDEX_ENTRIES <? inspected then None
      else
        e ← entry;
        t ← entry_type e;
        match t with
        | EntryType.Symlink => scan_entries (mkSearch (ss_pending s) (ss_match s) inspected) rest
        | EntryType.Directory =>
            scan_entries (mkSearch (entry_path e :: ss_pending s) (ss_match s) inspected) rest
        | EntryType.RegularFile =>
            if names_match e then
              match ss_match s with
              | Some _ => None
              | None => scan_entries (mkSearch (ss_pending s) (Some (entry_path e)) inspected) rest
              end
            else scan_entries (mkSearch (ss_pending s) (ss_match s) inspected) rest
        | EntryType.Other => scan_entries (mkSearch (ss_pending s) (ss_match s) inspected) rest
        end
  end.

(** The stack of directories has its top first. *)
Fixpoint search_loop (fuel : nat) (s : SearchState) : option string :=
  match fuel with
  | O => None
  | S fuel =>
      match ss_pending s with
      | [] => ss_match s
      | directory :: pending =>
          entries ← read_dir directory;
          s ← scan_entries (mkSearch pending (ss_match s) (ss_inspected s)) entries;
          search_loop fuel s
      end
  end.

(** Every directory but the first was an entry that was counted. *)
Definition search_fuel : nat := N.to_nat MAX_INSPECTION_INDEX_ENTRIES + 2.

(*@ runtime/src/objective_evidence.rs unique_workspace_basename_match *)
Definition unique_workspace_basename_match (workspace_root : string) : option string :=
  search_loop search_fuel (mkSearch [workspace_root] None 0).
End Search.

Section Inspect.
Context `{fs : FileSystem} `{directories : Directories}.

(** A bare name that is the only one of its kind, by its resolved place. *)
(*@ runtime/src/objective_evidence.rs:336-346 canonical_inspection_relative_path *)
Definition unique_relative (relative workspace_root : string) : option string :=
  if negb (bool_decide (length (path_components relative) = 1%nat)) then None
  else
    basename ← file_name relative;
    match_path ← unique_workspace_basename_match basename workspace_root;
    root ← fs_canonicalize workspace_root;
    canonical_match ← fs_canonicalize match_path;
    match_relative ← path_strip_prefix canonical_match root;
    normalize_relative_path match_relative.

(** What an existing path resolves to, relative to the resolved root. *)
(*@ runtime/src/objective_evidence.rs:304-317 canonical_inspection_relative_path *)
Definition resolved_relative (resource workspace_root : string) : option string :=
  root ← fs_canonicalize workspace_root;
  canonical ← fs_canonicalize (if is_absolute resource then resource else push workspace_root resource);
  relative ← path_strip_prefix canonical root;
  normalize_relative_path relative.

(*@ runtime/src/objective_evidence.rs canonical_inspection_relative_path *)
Definition canonical_inspection_relative_path (resource workspace_root : string) : option string :=
  match resolved_relative resource workspace_root with
  | Some relative => Some relative
  | None =>
      relative ← (if is_absolute resource then
                    match path_strip_prefix resource workspace_root with
                    | Some relative => Some relative
                    | None => fs_canonicalize workspace_root ≫= path_strip_prefix resource
                    end
                  else Some resource);
      relative ← normalize_relative_path relative;
      Some (default relative (unique_relative relative workspace_root))
  end.

Variable sha256_hex : string -> string.

Definition lower_name (relative : string) : option string := to_ascii_lowercase <$> file_name relative.

(*@ runtime/src/objective_evidence.rs explicitly_requested_inspection_validation *)
Definition explicitly_requested_inspection_validation (r : ToolExecutionReport) (objective : string)
    (completion_criteria : list string) (contract : TaskContract) (workspace_root : string)
    : option ObjectiveValidationOutcome :=
  if requires_workspace_evidence contract || require_objective_validation contract
     || negb (bool_decide (contract_verification contract = VerificationRequirement.BestEffort))
  then None
  else if negb (bool_decide (tool_of r ∈ ["read_file"; "list_dir"])) then None
  else
    let resource := default (pe_resource (rp_policy_evaluation r))
                      (json_get (facts_of r) "path" ≫= as_str) in
    relative ← canonical_inspection_relative_path resource workspace_root;
    if bool_decide (relative = "") || bool_decide (relative = ".") then None
    else
      let requested_text :=
        to_ascii_lowercase (join (String (byte 10) "") (objective :: completion_criteria)) in
      let relative_lower := to_ascii_lowercase relative in
      let named :=
        match lower_name relative with
        | Some name =>
            (3 <=? str_len name) && negb (bool_decide (name = ".")) && str_contains name requested_text
        | None => false
        end in
      if negb (str_contains relative_lower requested_text || named) then None
      else
        let passed := bool_decide (status_of r = ToolResultStatus.Ok) in
        Some (mkOutcome ObjectiveValidationKind.Diagnostic ("inspection:" +:+ sha256_hex relative_lower)
                (if passed then ObjectiveValidationStatus.Passed else ObjectiveValidationStatus.Failed)
                passed
                (if passed
                 then "explicitly requested workspace input was inspected: " +:+ relative
                 else "explicitly requested workspace input could not be inspected: " +:+ relative)).
End Inspect.

(** ** The search *)

Section SearchProperties.
Context `{directories : Directories}.
Variable basename : string.

Definition is_file_match (e : DirEntry) : Prop :=
  entry_type e = Some EntryType.RegularFile /\ names_match basename e = true.

(** Directories reached from one of [l] without following a link. *)
Inductive reached (l : list string) : string -> Prop :=
| reached_here d : d ∈ l -> reached l d
| reached_below d entries e :
    reached l d -> read_dir d = Some entries -> Some e ∈ entries ->
    entry_type e = Some EntryType.Directory -> reached l (entry_path e).

Definition found_below (l : list string) (p : string) : Prop :=
  exists d entries e, reached l d /\ read_dir d = Some entries /\ Some e ∈ entries
  /\ is_file_match e /\ entry_path e = p.

Lemma inspected_exact n : sat_add usize_max n 1 <= MAX_INSPECTION_INDEX_ENTRIES ->
  sat_add usize_max n 1 = n + 1 /\ n + 1 <= MAX_INSPECTION_INDEX_ENTRIES.
Proof.
  assert (Hm : MAX_INSPECTION_INDEX_ENTRIES < usize_max) by (by vm_compute).
  intros H. pose proof (sat_add_below _ _ _ _ H Hm). split; [|done]. apply sat_add_exact. lia.
Qed.

(** One entry: the stack and the match before the remaining entries. *)
Lemma scan_entries_cons entry rest s s' : scan_entries basename s (entry :: rest) = Some s' ->
  exists e t pending matched, entry = Some e /\ entry_type e = Some t
  /\ scan_entries basename (mkSearch pending matched (ss_inspected s + 1)) rest = Some s'
  /\ (t = EntryType.Directory /\ pending = entry_path e :: ss_pending s
      \/ t <> EntryType.Directory /\ pending = ss_pending s)
  /\ (matched = ss_match s /\ ~ is_file_match e
      \/ ss_match s = None /\ matched = Some (entry_path e) /\ is_file_match e)
  /\ ss_inspected s + 1 <= MAX_INSPECTION_INDEX_ENTRIES.
Proof.
  cbn [scan_entries]. destruct (MAX_INSPECTION_INDEX_ENTRIES <? _) eqn:El; [done|].
  apply N.ltb_ge in El.
  destruct (inspected_exact _ El) as [Hsat Hle]. clear El. generalize MAX_INSPECTION_INDEX_ENTRIES, Hle. clear Hle.
  intros bound Hle.
  rewrite Hsat. destruct entry as [e|]; cbn [mbind option_bind]; [|done].
  destruct (entry_type e) as [t|] eqn:Et; cbn [mbind option_bind]; [|done]. intros H. exists e, t.
  assert (Hnf : t <> EntryType.RegularFile -> ~ is_file_match e) by (intros Hne [Hf _]; congruence).
  destruct t; [by eauto 15..| |by eauto 15].
  destruct (names_match basename e) eqn:En.
  - destruct (ss_match s) eqn:Em; [done|]. do 2 eexists. split_and!; [done..|exact H|by right|right; by split_and!|done].
  - do 2 eexists. split_and!; [done..|exact H|by right| |done]. left. split; [done|]. intros [_ Hm]. congruence.
Qed.

(** The entries of one directory: its directories go on the stack, at most one of its files
    is the match. *)
Record scanned (entries : list (option DirEntry)) (s s' : SearchState) : Prop := {
  sd_readable : Forall (fun o => exists e t, o = Some e /\ entry_type e = Some t) entries;
  sd_dirs : exists dirs, ss_pending s' = dirs ++ ss_pending s
    /\ forall d, d ∈ dirs <->
       exists e, Some e ∈ entries /\ entry_type e = Some EntryType.Directory /\ entry_path e = d;
  sd_match :
    ss_match s' = ss_match s /\ (forall e, Some e ∈ entries -> ~ is_file_match e)
    \/ ss_match s = None /\ exists p, ss_match s' = Some p
       /\ (exists e, Some e ∈ entries /\ is_file_match e /\ entry_path e = p)
       /\ (forall e, Some e ∈ entries -> is_file_match e -> entry_path e = p);
  sd_inspected : ss_inspected s <= ss_inspected s';
  sd_bound : ss_inspected s' <= N.max (ss_inspected s) MAX_INSPECTION_INDEX_ENTRIES;
  sd_pending : N.of_nat (length (ss_pending s')) + ss_inspected s
    <= N.of_nat (length (ss_pending s)) + ss_inspected s';
}.

Lemma scan_entries_spec entries s s' :
  scan_entries basename s entries = Some s' -> scanned entries s s'.
Proof.
  revert s. induction entries as [|entry rest IH]; intros s H.
  - injection H as <-. split; [constructor|exists []; set_solver|left; set_solver|lia..].
  - apply scan_entries_cons in H as (e & t & pending & matched & -> & Et & H & Hp & Hm & Hle).
    destruct (IH _ H) as [Hall (dirs & Hd & Hdirs) Hmatch Hi Hb Hlen]. simpl in *.
    split; [by constructor; eauto| | |lia|lia|destruct Hp as [[_ ->]|[_ ->]]; simpl in Hlen; lia].
    + destruct Hp as [[-> ->]|[Ht ->]].
      * exists (dirs ++ [entry_path e]). rewrite Hd, <- app_assoc. split; [done|].
        intros d. rewrite elem_of_app, Hdirs, list_elem_of_singleton. split.
        -- intros [(e' & ? & ? & ?)| ->]; [exists e'|exists e]; set_solver.
        -- intros (e' & [[= ->]|?]%elem_of_cons & ? & ?); [by right|left; eauto].
      * exists dirs. split; [done|]. intros d. rewrite Hdirs. split.
        -- intros (e' & ? & ? & ?). exists e'. set_solver.
        -- intros (e' & [[= ->]|?]%elem_of_cons & ? & ?); [congruence|eauto].
    + destruct Hm as [[-> Hno]|(Hs & -> & Hyes)].
      * destruct Hmatch as [[-> Hnone]|(Hs & p & Hp' & (e' & He' & Hf & Hpe) & Huniq)].
        -- left. split; [done|]. intros e' [[= ->]|?]%elem_of_cons; auto.
        -- right. split; [done|]. exists p. split_and!; [done|exists e'; set_solver|].
           intros e'' [[= ->]|?]%elem_of_cons Hf'; [done|auto].
      * destruct Hmatch as [[-> Hnone]|[? _]]; [|done].
        right. split; [done|]. exists (entry_path e). split_and!; [done|exists e; set_solver|].
        intros e'' [[= ->]|He]%elem_of_cons Hf'; [done|]. by destruct (Hnone e'' He).
Qed.

Lemma reached_mono l l' d : l ⊆ l' -> reached l d -> reached l' d.
Proof. intros Hl. induction 1; [apply reached_here; set_solver|by eapply reached_below]. Qed.

(** Below a stack is below its top or below the rest with the directories of the top. *)
Lemma reached_pop d pending dirs entries x :
  read_dir d = Some entries ->
  (forall y, y ∈ dirs <-> exists e, Some e ∈ entries /\ entry_type e = Some EntryType.Directory
                                 /\ entry_path e = y) ->
  reached (d :: pending) x -> x = d \/ reached (dirs ++ pending) x.
Proof.
  intros Hr Hdirs. induction 1 as [x [->|Hx]%elem_of_cons|x es e Hx IH Hes He Ht].
  - by left.
  - right. apply reached_here. set_solver.
  - right. destruct IH as [->|IH].
    + rewrite Hr in Hes. injection Hes as <-. apply reached_here, elem_of_app. left. apply Hdirs. eauto.
    + by eapply reached_below.
Qed.

Lemma search_loop_spec fuel : forall s p, search_loop basename fuel s = Some p ->
  (ss_match s = Some p /\ forall q, ~ found_below (ss_pending s) q)
  \/ (ss_match s = None /\ found_below (ss_pending s) p
      /\ forall q, found_below (ss_pending s) q -> q = p).
Proof.
  induction fuel as [|fuel IH]; intros s p H; [done|]. cbn [search_loop] in H.
  destruct (ss_pending s) as [|d pending] eqn:Ep.
  - left. split; [done|]. intros q (x & es & e & Hr & _). clear -Hr. remember [] as l. induction Hr; set_solver.
  - destruct (read_dir d) as [entries|] eqn:Er; cbn [mbind option_bind] in H; [|done].
    destruct (scan_entries _ _ entries) as [s'|] eqn:Es; cbn [mbind option_bind] in H; [|done].
    destruct (scan_entries_spec _ _ _ Es) as [_ (dirs & Hd & Hdirs) Hmatch _ _ _]. simpl in *.
    assert (Hfound : forall q, found_below (d :: pending) q <->
      (exists e, Some e ∈ entries /\ is_file_match e /\ entry_path e = q) \/ found_below (dirs ++ pending) q).
    { intros q. split.
      - intros (x & es & e & Hx & Hes & He & Hf & Hq).
        apply (reached_pop d pending dirs entries) in Hx as [->|Hx]; [| |done..].
        + left. rewrite Er in Hes. injection Hes as <-. eauto.
        + right. by exists x, es, e.
      - intros [(e & He & Hf & Hq)|(x & es & e & Hx & ?)].
        + exists d, entries, e. split_and!; try done. apply reached_here. set_solver.
        + exists x, es, e. split; [|done]. clear -Hx Hdirs Er. induction Hx as [x [Hx|Hx]%elem_of_app|x es e Hx IH Hes He Ht].
          * apply Hdirs in Hx as (e & He & Ht & <-). eapply reached_below; try done. apply reached_here. set_solver.
          * apply reached_here. set_solver.
          * by eapply reached_below. }
    setoid_rewrite Hfound. rewrite <- Hd. apply IH in H.
    destruct Hmatch as [[Hm Hnone]|(Hm & q & Hq & (e & He & Hf & Hpe) & Huniq)]; rewrite Hm in *.
    + destruct H as [[H1 H2]|(H1 & H2 & H3)]; [left|right]; split_and!; try done; try by right.
      * intros q [(e & He & Hf & _)|Hq]; [by apply (Hnone e)|by apply (H2 q)].
      * intros q [(e & He & Hf & _)|Hq]; [by destruct (Hnone e)|auto].
    + right. split; [done|]. destruct H as [[H1 H2]|(H1 & _)]; [|congruence]. rewrite Hq in H1. injection H1 as ->.
      split; [by left; eauto|]. intros q [(e' & He' & Hf' & <-)|Hq']; [auto|by destruct (H2 q)].
Qed.

(** Every round takes a directory from the stack and puts back at most as many as it counts
    entries, so a fuel above what may still be put on the stack never runs out. *)
Lemma search_loop_fuel fuel fuel' s : ss_inspected s <= MAX_INSPECTION_INDEX_ENTRIES ->
  N.of_nat (length (ss_pending s)) + (MAX_INSPECTION_INDEX_ENTRIES - ss_inspected s) < N.of_nat fuel ->
  N.of_nat (length (ss_pending s)) + (MAX_INSPECTION_INDEX_ENTRIES - ss_inspected s) < N.of_nat fuel' ->
  search_loop basename fuel s = search_loop basename fuel' s.
Proof.
  revert fuel' s. generalize sd_bound. generalize MAX_INSPECTION_INDEX_ENTRIES. intros bound Hbound.
  induction fuel as [|fuel IH]; intros [|fuel'] s Hi H H'; [lia..|]. cbn [search_loop].
  destruct (ss_pending s) as [|d pending] eqn:Ep; [done|]. cbn [length] in *.
  destruct (read_dir d) as [entries|]; cbn [mbind option_bind]; [|done].
  destruct (scan_entries _ _ entries) as [s'|] eqn:Es; cbn [mbind option_bind]; [|done].
  pose proof (scan_entries_spec _ _ _ Es) as Hs. pose proof (sd_pending _ _ _ Hs) as Hp.
  pose proof (sd_inspected _ _ _ Hs) as Hle. pose proof (Hbound _ _ _ Hs) as Hb.
  cbn [ss_pending ss_inspected] in *. apply IH; lia.
Qed.
End SearchProperties.

(** The search of the workspace returns a file of the asked name that is the only one below
    the root; and the fuel is enough: more of it changes nothing. *)
Lemma unique_workspace_basename_match_spec `{directories : Directories} basename root p :
  unique_workspace_basename_match basename root = Some p ->
  found_below basename [root] p /\ forall q, found_below basename [root] q -> q = p.
Proof.
  unfold unique_workspace_basename_match. generalize search_fuel. intros fuel H.
  by destruct (search_loop_spec _ _ _ _ H) as [[? _]|(_ & ? & ?)].
Qed.

Lemma unique_workspace_basename_match_fuel `{directories : Directories} basename root more :
  search_loop basename (search_fuel + more) (mkSearch [root] None 0)
  = unique_workspace_basename_match basename root.
Proof.
  unfold unique_workspace_basename_match, search_fuel.
  apply search_loop_fuel; cbn [ss_inspected ss_pending length]; [apply N.le_0_l|..];
    generalize MAX_INSPECTION_INDEX_ENTRIES; lia.
Qed.
