(* ===== verification/ToolReport.v ===== *)
(** * Tool reports

    [golutra-agent-tools/src/lib.rs]: how a finished tool call becomes a report. Text and
    structured facts are redacted first; the report keeps a bounded excerpt. Two internal
    steps report on the paths and file contents a task contract requires. The regular
    expression engine behind the redaction ([Regex::replace_all]), the pretty printer of
    JSON, SHA-256 and the file system are arguments. *)
From S2P Require Import Prelude RustStr Core PathPolicy TaskContract Verify Governed Correction Evidence.
Open Scope N_scope.

(** ** The built-in tools *)

Module BuiltinTool.
(*@ tools/src/builtin.rs BuiltinTool *)
Inductive BuiltinTool :=
| ReadFile | WriteFile | EditFile | ApplyPatch | ListDir | RgSearch | SymbolSearch
| FindReferences | AskUser | Shell | ShellSession | RuntimeStatus | Subagent | ProcessList
| ProcessPoll | ProcessWrite | ProcessTerminate | ProcessReconnect | DelegateTask.
#[global] Instance BuiltinTool_eq_dec : EqDecision BuiltinTool.
Proof. solve_decision. Defined.

(*@ tools/src/builtin.rs BuiltinTool::name *)
Definition name (t : BuiltinTool) : string :=
  match t with
  | ReadFile => "read_file"
  | WriteFile => "write_file"
  | EditFile => "edit_file"
  | ApplyPatch => "apply_patch"
  | ListDir => "list_dir"
  | RgSearch => "rg_search"
  | SymbolSearch => "symbol_search"
  | FindReferences => "find_references"
  | AskUser => "ask_user"
  | Shell => "shell"
  | ShellSession => "shell_session"
  | RuntimeStatus => "runtime_status"
  | Subagent => "subagent"
  | ProcessList => "process_list"
  | ProcessPoll => "process_poll"
  | ProcessWrite => "process_write"
  | ProcessTerminate => "process_terminate"
  | ProcessReconnect => "process_reconnect"
  | DelegateTask => "delegate_task"
  end.

(*@ tools/src/builtin.rs BuiltinTool::from_name *)
Definition from_name (s : string) : option BuiltinTool :=
  assoc s
    [("read_file", ReadFile); ("write_file", WriteFile); ("edit_file", EditFile);
     ("apply_patch", ApplyPatch); ("list_dir", ListDir); ("rg_search", RgSearch);
     ("symbol_search", SymbolSearch); ("find_references", FindReferences); ("ask_user", AskUser);
     ("shell", Shell); ("shell_session", ShellSession); ("runtime_status", RuntimeStatus);
     ("subagent", Subagent); ("process_list", ProcessList); ("process_poll", ProcessPoll);
     ("process_write", ProcessWrite); ("process_terminate", ProcessTerminate);
     ("process_reconnect", ProcessReconnect); ("delegate_task", DelegateTask)].
End BuiltinTool.
Abbreviation BuiltinTool := BuiltinTool.BuiltinTool.

(*@ tools/src/lib.rs PI_PLUS_TOOL_NAMES *)
Definition PI_PLUS_TOOL_NAMES : list string :=
  ["read_file"; "shell"; "edit_file"; "write_file"; "apply_patch"; "shell_session"; "subagent";
   "runtime_status"].

(*@ tools/src/lib.rs is_pi_plus_tool *)
Definition is_pi_plus_tool (tool_name : string) : bool := bool_decide (tool_name ∈ PI_PLUS_TOOL_NAMES).

(*@ tools/src/lib.rs mutation_tool_name *)
Definition mutation_tool_name (tool_name : string) : bool :=
  match BuiltinTool.from_name tool_name with
  | Some (BuiltinTool.WriteFile | BuiltinTool.EditFile | BuiltinTool.ApplyPatch) => true
  | _ => false
  end.

(*@ tools/src/lib.rs model_output_truncation_key *)
Definition model_output_truncation_key (tool_name : string) : option string :=
  if bool_decide (tool_name ∈ ["read_file"; "subagent"]) then Some "model_visible_truncated"
  else if bool_decide (tool_name ∈ ["shell"; "shell_session"]) then Some "output_truncated"
  else None.

(** [facts.get(key).and_then(Value::as_bool).unwrap_or(false)]. *)
Definition fact_flag (r : ToolExecutionReport) (k : string) : bool :=
  default false (json_get (facts_of r) k ≫= as_bool).

(** ** Bounded text *)

(*@ tools/src/lib.rs DEFAULT_EXCERPT_LIMIT *)
Definition DEFAULT_EXCERPT_LIMIT : N := 2048.
(*@ tools/src/lib.rs MAX_AUDIT_RESOURCE_CHARS *)
Definition MAX_AUDIT_RESOURCE_CHARS : N := 64 * 1024.
(*@ tools/src/lib.rs MAX_MODEL_TOOL_RESULT_EXCERPT_BYTES *)
Definition MAX_MODEL_TOOL_RESULT_EXCERPT_BYTES : N := 16 * 1024.

(** [&s[..n]] by bytes, and [s.is_char_boundary(n)]: the end, or no continuation byte. *)
Fixpoint byte_prefix (n : nat) (s : string) : string :=
  match n, s with
  | S n', String a s' => String a (byte_prefix n' s')
  | _, _ => ""
  end.
Definition is_char_boundary (s : string) (n : nat) : bool :=
  match n with
  | O => true
  | _ =>
      match String.get n s with
      | None => bool_decide (n = String.length s)
      | Some a => negb ((128 <=? byte_of a) && (byte_of a <? 192))
      end
  end.

(** The loop that steps back to a boundary. *)
Fixpoint boundary_at_most (s : string) (n : nat) : nat :=
  match n with
  | O => O
  | S n' => if is_char_boundary s n then n else boundary_at_most s n'
  end.

(*@ tools/src/lib.rs bounded_text_bytes *)
Definition bounded_text_bytes (value : string) (max_bytes : N) : string :=
  if str_len value <=? max_bytes then value
  else byte_prefix (boundary_at_most value (N.to_nat (N.min max_bytes (str_len value)))) value.

(*@ tools/src/lib.rs bounded_text *)
Definition bounded_text (value : string) (max_chars : N) : string := take_chars max_chars value.

(*@ tools/src/lib.rs excerpt *)
Definition excerpt (raw_output : string) (limit : N) : string := take_chars limit raw_output.

(** [json!({...})]: the entries in the order they are written. *)
Definition json_obj (entries : list (string * json)) : json :=
  JObject (foldl (fun m '(k, v) => entries_insert k v m) [] entries).
Definition json_u64 (n : N) : json := JInt (Z.of_N n).
Definition json_opt {A} (f : A -> json) (x : option A) : json := from_option f JNull x.

(** ** Redaction *)

Module RedactionStatus.
(*@ core/src/artifact.rs RedactionStatus *)
Inductive RedactionStatus := Raw | Redacted | NotRequired.
End RedactionStatus.
Abbreviation RedactionStatus := RedactionStatus.RedactionStatus.

Definition placeholder : string := "<redacted-secret>".
Definition dquote : string := String (byte 34) "".

(*@ tools/src/lib.rs:6845-6850 redact_sensitive_text *)
Definition QUOTED_SECRET : string :=
  "(?i)([" +:+ dquote +:+ "']?(?:api[_-]?key|authorization|access[_-]?token|token|secret|password)["
  +:+ dquote +:+ "']?\s*:\s*[" +:+ dquote +:+ "'])([^" +:+ dquote +:+ "'\r\n]*)([" +:+ dquote +:+ "'])".
(*@ tools/src/lib.rs:6851-6854 redact_sensitive_text *)
Definition AUTHORIZATION_HEADER : string := "(?im)(\bauthorization\s*:\s*)([^\r\n]+)".
(*@ tools/src/lib.rs:6855-6860 redact_sensitive_text *)
Definition SECRET_ASSIGNMENT : string :=
  "(?i)(\b(?:api[_-]?key|authorization|access[_-]?token|token|secret|password)\b\s*=\s*)([^\s,;]+)".
(*@ tools/src/lib.rs:6861-6864 redact_sensitive_text *)
Definition PREFIXED_SECRET : string :=
  "(?i)(?-u:\b)(?:sk-[a-z0-9_-]{9,}|ghp_[a-z0-9_-]{8,}|github_pat_[a-z0-9_-]{8,}|xox[bp]-[a-z0-9_-]{8,})".

(** [s.replace(c, "")] for an ASCII character. *)
Fixpoint remove_char (c : Ascii.ascii) (s : string) : string :=
  match s with
  | EmptyString => ""
  | String a s' => if Ascii.eqb a c then remove_char c s' else String a (remove_char c s')
  end.

(*@ tools/src/lib.rs sensitive_json_key *)
Definition sensitive_json_key (key : string) : bool :=
  let normalized := replace_char (byte 45) (byte 95) (to_ascii_lowercase key) in
  let collapsed := remove_char (byte 95) normalized in
  bool_decide (normalized ∈ ["api_key"; "authorization"; "token"; "secret"; "password"])
  || existsb (fun suffix => ends_with suffix normalized) ["_api_key"; "_token"; "_secret"; "_password"]
  || existsb (fun suffix => ends_with suffix collapsed) ["apikey"; "token"; "secret"; "password"].

Section Redaction.
(** [Regex::new(pattern).replace_all(text, replacement)]. *)
Variable replace_all : string -> string -> string -> string.

(*@ tools/src/lib.rs redact_sensitive_text *)
Definition redact_sensitive_text (raw_output : string) : string * RedactionStatus :=
  let redacted := replace_all QUOTED_SECRET "$1<redacted-secret>$3" raw_output in
  let redacted := replace_all AUTHORIZATION_HEADER "$1<redacted-secret>" redacted in
  let redacted := replace_all SECRET_ASSIGNMENT "$1<redacted-secret>" redacted in
  let redacted := replace_all PREFIXED_SECRET "<redacted-secret>" redacted in
  (redacted,
   if bool_decide (redacted = raw_output) then RedactionStatus.NotRequired
   else RedactionStatus.Redacted).

Definition redact (s : string) : string := fst (redact_sensitive_text s).

(*@ tools/src/lib.rs redact_sensitive_value_in_place *)
Fixpoint redact_value (v : json) (parent_is_sensitive : bool) : json :=
  if parent_is_sensitive then JString placeholder
  else match v with
       | JObject m => JObject ((fun '(k, x) => (k, redact_value x (sensitive_json_key k))) <$> m)
       | JArray l => JArray ((fun x => redact_value x false) <$> l)
       | JString text => JString (redact text)
       | _ => v
       end.

(*@ tools/src/lib.rs redact_sensitive_value *)
Definition redact_sensitive_value (v : json) : json := redact_value v false.
End Redaction.

(** ** Building a report *)

(*@ tools/src/lib.rs ToolRequest *)
Record ToolRequest := mkToolRequest {
  tr_tool_call_id : ToolCallId;
  tr_provider_tool_call_id : option string;
  tr_session_id : SessionId;
  tr_turn_id : option TurnId;
  tr_tool_name : string;
  tr_arguments : json;
}.

(** The ids a report generates. *)
Record FreshIds := mkFreshIds {
  fresh_artifact : ArtifactId;
  fresh_evidence : EvidenceId;
}.

(*@ tools/src/lib.rs optional_string_arg *)
Definition optional_string_arg (arguments : json) (key : string) : option string :=
  json_get arguments key ≫= as_str.

Section Report.
Variable replace_all : string -> string -> string -> string.

(** The excerpt is cut: the facts say so. *)
(*@ tools/src/lib.rs:4487-4500 report *)
Definition mark_truncated (tool_name redacted_output : string) (facts : json) : json :=
  match model_output_truncation_key tool_name, facts with
  | Some truncation_key, JObject m =>
      if MAX_MODEL_TOOL_RESULT_EXCERPT_BYTES <? str_len redacted_output then
        let m := entries_insert truncation_key (JBool true) m in
        JObject (if bool_decide (tool_name = "read_file")
                 then entries_insert "model_visible_bytes"
                        (json_u64 MAX_MODEL_TOOL_RESULT_EXCERPT_BYTES) m
                 else m)
      else facts
  | _, _ => facts
  end.

(*@ tools/src/lib.rs report *)
Definition report (ids : FreshIds) (request : ToolRequest) (status : ToolResultStatus) (summary : string)
    (facts : json) (raw_output : string) (changed_files : list string) (policy : PolicyEvaluation)
    : ToolExecutionReport :=
  let redacted_output := redact replace_all raw_output in
  let redacted_summary := redact replace_all summary in
  let tool := tr_tool_name request in
  {| rp_envelope :=
       {| env_tool_call_id := tr_tool_call_id request;
          env_tool_name := tool;
          env_status := status;
          env_summary := redacted_summary;
          structured_facts :=
            redact_sensitive_value replace_all (mark_truncated tool redacted_output facts);
          model_visible_excerpt :=
            Some (if mutation_tool_name tool then redacted_summary
                  else match model_output_truncation_key tool with
                       | Some _ => bounded_text_bytes redacted_output MAX_MODEL_TOOL_RESULT_EXCERPT_BYTES
                       | None => excerpt redacted_output DEFAULT_EXCERPT_LIMIT
                       end);
          raw_artifact_ref := Some (fresh_artifact ids);
          env_evidence_refs := [fresh_evidence ids];
          env_risk := "p0_local_tool";
          verification_hint := Some "use artifact/evidence refs for verification" |};
     rp_evidence := [fresh_evidence ids];
     rp_changed_files := changed_files;
     rp_policy_evaluation := policy;
     rp_artifact_contents :=
       [mkArtifactContent (fresh_artifact ids)
          (byte_of <$> String.list_ascii_of_string redacted_output)];
     rp_after_images := [] |}.

(** [Value::to_string] and [serde_json::to_string_pretty]. *)
Variable value_to_string : json -> string.
Variable to_string_pretty : json -> string.
Variable sha256_hex : string -> string.

(*@ tools/src/lib.rs execution_policy *)
Definition execution_policy (policy_ref : PolicyId) (request : ToolRequest) (decision : PolicyDecision)
    (reason : string) : PolicyEvaluation :=
  mkPolicyEvaluation policy_ref "tool" (tr_tool_name request)
    (bounded_text (redact replace_all (value_to_string (tr_arguments request)))
       MAX_AUDIT_RESOURCE_CHARS)
    decision None reason [].

Definition with_hint (hint : string) (r : ToolExecutionReport) : ToolExecutionReport :=
  let e := rp_envelope r in
  {| rp_envelope :=
       {| env_tool_call_id := env_tool_call_id e; env_tool_name := env_tool_name e;
          env_status := env_status e; env_summary := env_summary e;
          structured_facts := structured_facts e; model_visible_excerpt := model_visible_excerpt e;
          raw_artifact_ref := raw_artifact_ref e; env_evidence_refs := env_evidence_refs e;
          env_risk := env_risk e; verification_hint := Some hint |};
     rp_evidence := rp_evidence r; rp_changed_files := rp_changed_files r;
     rp_policy_evaluation := rp_policy_evaluation r;
     rp_artifact_contents := rp_artifact_contents r; rp_after_images := rp_after_images r |}.

(*@ tools/src/lib.rs file_content_verification_report *)
Definition file_content_verification_report (ids : FreshIds) (request : ToolRequest)
    (status : ToolResultStatus) (summary : string) (facts : json) (policy : PolicyEvaluation)
    : ToolExecutionReport :=
  with_hint "exact task-contract content comparison evidence"
    (report ids request status summary facts (to_string_pretty facts) [] policy).

(*@ tools/src/lib.rs path_verification_report *)
Definition path_verification_report (ids : FreshIds) (request : ToolRequest)
    (status : ToolResultStatus) (summary : string) (facts : json) (policy : PolicyEvaluation)
    : ToolExecutionReport :=
  with_hint "task-contract path existence and bounded metadata evidence"
    (report ids request status summary facts (to_string_pretty facts) [] policy).

(** ** The steps that check a task contract *)

(** What [fs::metadata] tells of a file. *)
Record Metadata := mkMetadata {
  md_is_file : bool;
  md_is_dir : bool;
  md_len : N;
  md_readonly : bool;
  md_modified_unix_ms : option N;
}.

(** An opened file: its metadata, and its bytes when they can be read. *)
Record OpenFile := mkOpenFile {
  of_metadata : result string Metadata;
  of_bytes : result string string;
}.

(*@ tools/src/lib.rs checksum *)
Definition checksum (bytes : string) : string := "sha256:" +:+ sha256_hex bytes.

(*@ tools/src/lib.rs FileContentComparison *)
Record FileContentComparison := mkComparison {
  fc_matches : bool;
  fc_actual_bytes : N;
  fc_actual_checksum : option string;
}.

(** Errors are the text of [ToolError::Execution]. *)
(*@ tools/src/lib.rs compare_file_content *)
Definition compare_file_content (file : result string OpenFile) (expected : string)
    : result string FileContentComparison :=
  let? file := file in
  let? metadata := of_metadata file in
  let actual_bytes := md_len metadata in
  if negb (md_is_file metadata) || negb (actual_bytes =? str_len expected) then
    Ok (mkComparison false actual_bytes None)
  else
    let? bytes := of_bytes file in
    let content := byte_prefix (N.to_nat (sat_add u64_max actual_bytes 1)) bytes in
    Ok (mkComparison (bool_decide (content = expected)) actual_bytes (Some (checksum content))).

Section Contract.
Context `{fs : FileSystem}.
Variable open_file : string -> result string OpenFile.
Variable metadata_of : string -> result string Metadata.
Variable policy : WorkspacePolicy.

(*@ tools/src/lib.rs ToolRuntime::verify_workspace_file_content *)
Definition verify_workspace_file_content (ids : FreshIds) (policy_ref : PolicyId)
    (request : ToolRequest) (expected : string) : ToolExecutionReport :=
  match optional_string_arg (tr_arguments request) "path" with
  | None =>
      let facts := json_obj [("matches", JBool false); ("error", JString "path is required")] in
      report ids request ToolResultStatus.Error "required file content verification is missing a path"
        facts ("{" +:+ dquote +:+ "matches" +:+ dquote +:+ ":false," +:+ dquote +:+ "error" +:+ dquote
               +:+ ":" +:+ dquote +:+ "path is required" +:+ dquote +:+ "}") []
        (execution_policy policy_ref request PolicyDecision.Block
           "required file content verification requires a path")
  | Some path =>
      let evaluation := evaluate_path policy policy_ref "verify_file_content" path true in
      let report := file_content_verification_report ids request in
      if negb (bool_decide (pe_decision evaluation = PolicyDecision.Allow)) then
        report ToolResultStatus.Blocked "required file content could not be inspected"
          (json_obj [("path", JString path); ("matches", JBool false);
                     ("error", JString (pe_reason evaluation));
                     ("expected_bytes", json_u64 (str_len expected));
                     ("expected_checksum", JString (checksum expected))]) evaluation
      else
        let resolved_path := pe_resource evaluation in
        match compare_file_content (open_file resolved_path) expected with
        | Ok comparison =>
            report ToolResultStatus.Ok
              (if fc_matches comparison then "required file content matches the task contract"
               else "required file content does not match the task contract")
              (json_obj [("path", JString path); ("resolved_path", JString resolved_path);
                         ("matches", JBool (fc_matches comparison));
                         ("expected_bytes", json_u64 (str_len expected));
                         ("actual_bytes", json_u64 (fc_actual_bytes comparison));
                         ("expected_checksum", JString (checksum expected));
                         ("actual_checksum", json_opt JString (fc_actual_checksum comparison))])
              evaluation
        | Err error =>
            report ToolResultStatus.Error "required file content inspection failed"
              (json_obj [("path", JString path); ("resolved_path", JString resolved_path);
                         ("matches", JBool false); ("expected_bytes", json_u64 (str_len expected));
                         ("expected_checksum", JString (checksum expected));
                         ("error", JString error)]) evaluation
        end
  end.

(** [serde_json::to_string] of the metadata, for its checksum. *)
Definition metadata_facts (m : Metadata) : json :=
  json_obj
    [("file_type", JString (if md_is_file m then "file" else if md_is_dir m then "directory" else "other"));
     ("size_bytes", json_u64 (md_len m)); ("readonly", JBool (md_readonly m));
     ("modified_unix_ms", json_opt json_u64 (md_modified_unix_ms m))].

(*@ tools/src/lib.rs ToolRuntime::verify_workspace_path *)
Definition verify_workspace_path (ids : FreshIds) (policy_ref : PolicyId) (request : ToolRequest)
    : ToolExecutionReport :=
  let report := path_verification_report ids request in
  match optional_string_arg (tr_arguments request) "path" with
  | None =>
      report ToolResultStatus.Error "required path verification is missing a path"
        (json_obj [("exists", JBool false); ("error", JString "path is required")])
        (execution_policy policy_ref request PolicyDecision.Block
           "required path verification requires a path")
  | Some path =>
      let evaluation := evaluate_path policy policy_ref "verify_path" path true in
      if negb (bool_decide (pe_decision evaluation = PolicyDecision.Allow)) then
        report ToolResultStatus.Blocked "required path could not be inspected"
          (json_obj [("path", JString path); ("exists", JBool false);
                     ("error", JString (pe_reason evaluation))]) evaluation
      else
        let resolved_path := pe_resource evaluation in
        match metadata_of resolved_path with
        | Ok metadata =>
            report ToolResultStatus.Ok "required workspace path exists"
              (json_obj [("path", JString path); ("resolved_path", JString resolved_path);
                         ("exists", JBool true); ("metadata", metadata_facts metadata);
                         ("metadata_checksum",
                          JString (checksum (value_to_string (metadata_facts metadata))))])
              evaluation
        | Err error =>
            report ToolResultStatus.Error "required path inspection failed"
              (json_obj [("path", JString path); ("resolved_path", JString resolved_path);
                         ("exists", JBool false); ("error", JString error)]) evaluation
        end
  end.
End Contract.
End Report.

(** ** Redaction reaches every secret *)

(** One step into a JSON value. *)
Inductive json_step := StepKey (k : string) | StepIndex (i : nat).
#[global] Instance json_step_eq_dec : EqDecision json_step.
Proof. solve_decision. Defined.

Definition json_child (v : json) (st : json_step) : option json :=
  match st, v with
  | StepKey k, JObject m => assoc k m
  | StepIndex i, JArray l => l !! i
  | _, _ => None
  end.
Fixpoint json_at (v : json) (path : list json_step) : option json :=
  match path with
  | [] => Some v
  | st :: path' => json_child v st ≫= fun x => json_at x path'
  end.

Definition step_is_secret (st : json_step) : bool :=
  match st with StepKey k => sensitive_json_key k | StepIndex _ => false end.

Section RedactionProperties.
Variable replace_all : string -> string -> string -> string.
Abbreviation redacted := (redact_sensitive_value replace_all).

Lemma assoc_fmap {V W} (f : string -> V -> W) k (m : list (string * V)) :
  assoc k ((fun '(k', x) => (k', f k' x)) <$> m) = f k <$> assoc k m.
Proof.
  induction m as [|[k' x] m IH]; [done|]. cbn [fmap list_fmap assoc]. case_bool_decide; [by subst|done].
Qed.

(** A step goes to the same place; behind a secret key there is the placeholder only. *)
Lemma redacted_child v st :
  json_child (redacted v) st
  = (fun x => if step_is_secret st then JString placeholder else redacted x) <$> json_child v st.
Proof.
  unfold redact_sensitive_value. destruct st as [k|i]; cbn [step_is_secret].
  - destruct v as [| | | | | |m]; try done. cbn [redact_value json_child].
    rewrite (assoc_fmap (fun k x => redact_value replace_all x (sensitive_json_key k))).
    destruct (assoc k m) as [x|]; [|done]. cbn. by destruct (sensitive_json_key k), x.
  - destruct v as [| | | | |l|]; try done. cbn [redact_value json_child]. by rewrite list_lookup_fmap.
Qed.

Lemma redacted_at v path : existsb step_is_secret path = false ->
  json_at (redacted v) path = redacted <$> json_at v path.
Proof.
  revert v. induction path as [|st path IH]; intros v; [done|].
  cbn [existsb json_at]. intros [Hs Hp]%orb_false_iff. rewrite redacted_child, Hs.
  destruct (json_child v st) as [x|]; [|done]. cbn [fmap option_fmap option_map mbind option_bind]. auto.
Qed.

Lemma redacted_behind_secret v public k rest : existsb step_is_secret public = false ->
  sensitive_json_key k = true ->
  json_at (redacted v) (public ++ StepKey k :: rest)
  = match json_at v (public ++ [StepKey k]), rest with
    | Some _, [] => Some (JString placeholder)
    | _, _ => None
    end.
Proof.
  revert v. induction public as [|st public IH]; intros v Hp Hk; cbn [app json_at].
  - rewrite redacted_child. cbn [step_is_secret]. rewrite Hk.
    destruct (json_child v (StepKey k)) as [x|]; [|done]. cbn. destruct rest as [|[?|?] rest]; done.
  - cbn [existsb] in Hp. apply orb_false_iff in Hp as [Hs Hp]. rewrite redacted_child, Hs.
    destruct (json_child v st) as [x|]; [|done]. cbn [fmap option_fmap option_map mbind option_bind]. auto.
Qed.

(** [v] with [x] at a place, if it has that place. *)
Fixpoint set_at (path : list json_step) (x v : json) : json :=
  match path with
  | [] => x
  | StepKey k :: path' =>
      match v with
      | JObject m => JObject ((fun '(k', y) => (k', if bool_decide (k' = k) then set_at path' x y else y)) <$> m)
      | _ => v
      end
  | StepIndex i :: path' =>
      match v with JArray l => JArray (alter (set_at path' x) i l) | _ => v end
  end.

(** What is behind a secret key leaves no trace. *)
Lemma redacted_set_at public k rest x v : existsb step_is_secret public = false ->
  sensitive_json_key k = true -> redacted (set_at (public ++ StepKey k :: rest) x v) = redacted v.
Proof.
  unfold redact_sensitive_value. revert v. induction public as [|st public IH]; intros v Hp Hk.
  - cbn [app set_at]. destruct v as [| | | | | |m]; try done. cbn [redact_value]. f_equal.
    rewrite <- list_fmap_compose. apply list_fmap_ext. intros _ [k' y] _. cbn. f_equal.
    case_bool_decide as E; [subst k'; rewrite Hk|done]. by destruct y, (set_at rest x _).
  - cbn [existsb] in Hp. apply orb_false_iff in Hp as [Hs Hp]. destruct st as [k1|i]; cbn [app set_at].
    + destruct v as [| | | | | |m]; try done. cbn [redact_value]. f_equal.
      rewrite <- list_fmap_compose. apply list_fmap_ext. intros _ [k' y] _. cbn. f_equal.
      case_bool_decide as E; [subst k'|done]. cbn [step_is_secret] in Hs. rewrite Hs. by apply IH.
    + destruct v as [| | | | |l|]; try done. cbn [redact_value]. f_equal.
      apply list_eq. intros j. rewrite !list_lookup_fmap.
      destruct (decide (i = j)) as [<-|Hij]; [|by rewrite list_lookup_alter_ne].
      rewrite list_lookup_alter_eq. destruct (l !! i); [|done]. cbn. f_equal. by apply IH.
Qed.
End RedactionProperties.

(** ** Bounded text *)

Lemma byte_prefix_length n s : (String.length (byte_prefix n s) <= n)%nat.
Proof. revert s. induction n as [|n IH]; intros [|a s]; cbn; [lia..|]. specialize (IH s). lia. Qed.

Lemma byte_prefix_exact n s t : byte_prefix (S n) s = t -> String.length t = n -> s = t.
Proof.
  revert s t. induction n as [|n IH]; intros [|a s] t <-; try done.
  rewrite (eq_refl : byte_prefix (S (S n)) (String a s) = String a (byte_prefix (S n) s)).
  cbn [String.length]. intros [= H]. f_equal. by apply IH.
Qed.

Lemma byte_prefix_all n s : (String.length s <= n)%nat -> byte_prefix n s = s.
Proof. revert s. induction n as [|n IH]; intros [|a s] H; cbn in *; [done|lia|done|]. f_equal. apply IH. lia. Qed.

Lemma boundary_le s n : (boundary_at_most s n <= n)%nat.
Proof. induction n as [|n IH]; cbn [boundary_at_most]; [done|]. destruct (is_char_boundary s (S n)); lia. Qed.

Lemma boundary_is_boundary s n : is_char_boundary s (boundary_at_most s n) = true.
Proof.
  induction n as [|n IH]; cbn [boundary_at_most]; [done|]. by destruct (is_char_boundary s (S n)) eqn:E.
Qed.

(** Text bounded by bytes is at most that long; text within the bound is unchanged. *)
Lemma bounded_text_bytes_len s n : str_len (bounded_text_bytes s n) <= n.
Proof.
  unfold bounded_text_bytes. destruct (str_len s <=? n) eqn:E; Nbool; [done|]. unfold str_len.
  set (k := N.to_nat (N.min n (N.of_nat (String.length s)))).
  pose proof (byte_prefix_length (boundary_at_most s k) s). pose proof (boundary_le s k). lia.
Qed.

(** ** The content check is exact *)

Section ContractProperties.
Variable replace_all : string -> string -> string -> string.
Variable to_string_pretty value_to_string : json -> string.
Variable sha256_hex : string -> string.

Lemma compare_matches file expected c : str_len expected < u64_max ->
  compare_file_content sha256_hex file expected = Ok c ->
  fc_matches c = true <->
  exists f m, file = Ok f /\ of_metadata f = Ok m /\ md_is_file m = true
    /\ md_len m = str_len expected /\ of_bytes f = Ok expected.
Proof.
  intros Hlen H. unfold compare_file_content in H. destruct file as [f|]; [|done]. cbn in H.
  destruct (of_metadata f) as [m|] eqn:Em; [|done]. cbn in H. destruct (md_is_file m) eqn:Ef; cbn in H.
  2: { injection H as <-. cbn. split; [done|]. intros (? & ? & [= <-] & Hm & ? & ?). rewrite Em in Hm. injection Hm as <-. congruence. }
  destruct (md_len m =? str_len expected) eqn:El; cbn in H; Nbool.
  2: { injection H as <-. cbn. split; [done|]. intros (? & ? & [= <-] & Hm & ? & ? & _).
       rewrite Em in Hm. by injection Hm as <-. }
  destruct (of_bytes f) as [bytes|] eqn:Eb; [|done]. cbn in H. injection H as <-. cbn [fc_matches].
  rewrite bool_decide_eq_true, El, sat_add_exact by lia.
  replace (N.to_nat (str_len expected + 1)) with (S (String.length expected)) by (unfold str_len; lia).
  split.
  - intros Hc. apply byte_prefix_exact in Hc as ->; [|done]. exists f, m. by split_and!.
  - intros (f' & m' & [= <-] & _ & _ & _ & Hb). rewrite Hb in Eb. injection Eb as ->.
    apply byte_prefix_all. lia.
Qed.

(** The facts of a report are the redacted facts, where no output was cut. *)
Lemma report_fact ids request status summary facts raw files policy k :
  model_output_truncation_key (tr_tool_name request) = None -> sensitive_json_key k = false ->
  json_get (structured_facts (rp_envelope
     (report replace_all ids request status summary facts raw files policy))) k
  = redact_sensitive_value replace_all <$> json_get facts k.
Proof.
  intros Ht Hk. cbn [report rp_envelope structured_facts]. unfold mark_truncated. rewrite Ht.
  pose proof (redacted_child replace_all facts (StepKey k)) as H. cbn [step_is_secret] in H.
  rewrite Hk in H. unfold json_child in H. unfold json_get.
  by destruct facts.
Qed.

Context `{fs : FileSystem}.
Variable policy : WorkspacePolicy.

(** The content step says that a file matches exactly when the policy lets the path be
    read and the file there has the required bytes and nothing else. *)
Lemma content_matches_iff open_file ids ref request expected :
  model_output_truncation_key (tr_tool_name request) = None -> str_len expected < u64_max ->
  fact_flag (verify_workspace_file_content replace_all value_to_string to_string_pretty sha256_hex
    open_file policy ids ref request expected) "matches" = true <->
  exists path f m, optional_string_arg (tr_arguments request) "path" = Some path
    /\ pe_decision (evaluate_path policy ref "verify_file_content" path true) = PolicyDecision.Allow
    /\ open_file (pe_resource (evaluate_path policy ref "verify_file_content" path true)) = Ok f
    /\ of_metadata f = Ok m /\ md_is_file m = true /\ md_len m = str_len expected
    /\ of_bytes f = Ok expected.
Proof.
  intros Ht Hlen. unfold fact_flag, facts_of, verify_workspace_file_content.
  destruct (optional_string_arg _ _) as [path|].
  2: { rewrite report_fact by done. split; [done|naive_solver]. }
  set (evaluation := evaluate_path _ _ _ _ _).
  unfold file_content_verification_report. cbn [with_hint rp_envelope structured_facts].
  destruct (bool_decide (pe_decision evaluation = PolicyDecision.Allow)) eqn:Ep; cbn [negb].
  2: { apply bool_decide_eq_false in Ep. cbn [with_hint rp_envelope structured_facts].
       rewrite report_fact by done. split; [done|naive_solver]. }
  apply bool_decide_eq_true in Ep.
  destruct (compare_file_content _ _ _) as [c|e] eqn:Ec; cbn [with_hint rp_envelope structured_facts];
    rewrite report_fact by done.
  - pose proof (compare_matches _ _ _ Hlen Ec) as Hc.
    transitivity (fc_matches c = true); [done|]. rewrite Hc. naive_solver.
  - split; [done|]. intros (? & f & m & [= <-] & _ & Hf & Hm & Hi & Hl & Hb). fold evaluation in Hf.
    unfold compare_file_content in Ec. rewrite Hf in Ec. cbn in Ec. rewrite Hm in Ec. cbn in Ec.
    rewrite Hi, Hl, N.eqb_refl in Ec. cbn in Ec. by rewrite Hb in Ec.
Qed.

(** The path step says that a path exists exactly when the policy lets it be inspected
    and the file system has it. *)
Lemma path_exists_iff metadata_of ids ref request :
  model_output_truncation_key (tr_tool_name request) = None ->
  fact_flag (verify_workspace_path replace_all value_to_string to_string_pretty sha256_hex metadata_of
    policy ids ref request) "exists" = true <->
  exists path m, optional_string_arg (tr_arguments request) "path" = Some path
    /\ pe_decision (evaluate_path policy ref "verify_path" path true) = PolicyDecision.Allow
    /\ metadata_of (pe_resource (evaluate_path policy ref "verify_path" path true)) = Ok m.
Proof.
  intros Ht. unfold fact_flag, facts_of, verify_workspace_path, path_verification_report.
  destruct (optional_string_arg _ _) as [path|]; cbn [with_hint rp_envelope structured_facts].
  2: { rewrite report_fact by done. split; [done|naive_solver]. }
  set (evaluation := evaluate_path _ _ _ _ _).
  destruct (bool_decide (pe_decision evaluation = PolicyDecision.Allow)) eqn:Ep; cbn [negb].
  2: { apply bool_decide_eq_false in Ep. cbn [with_hint rp_envelope structured_facts].
       rewrite report_fact by done. split; [done|naive_solver]. }
  apply bool_decide_eq_true in Ep.
  destruct (metadata_of _) as [m|e] eqn:Em; cbn [with_hint rp_envelope structured_facts];
    rewrite report_fact by done.
  2: { split; [done|]. intros (? & m & [= <-] & _ & Hm). fold evaluation in Hm. congruence. }
  split; [|done]. intros _. eauto.
Qed.
End ContractProperties.
