(* ===== verification/ToolProjection.v ===== *)
(** * What the model sees of a tool call

    [golutra-agent-tools/src/lib.rs], [model_visible_tool_result_with_limit] and
    [redact_tool_arguments]: a finished call is shown to the model as a JSON header with
    the facts that matter for the tool and, for files and processes, the output as plain
    text; the arguments of a call are shown to the user. Both are redacted and have a hard
    size limit, which is reached by giving up detail in stages. The compact JSON printer of
    [serde_json] is an argument with three laws. *)
From S2P Require Import Prelude RustStr Utf8 Core PathPolicy TaskContract Verify Governed Correction Evidence ToolReport.
Open Scope N_scope.

(** [serde_json::to_string]. *)
Class JsonText := json_text : json -> string.

(** What the format fixes: an object is its entries between braces, a character takes six
    bytes at most, the length of [\u0000], and how a boolean is written. *)
Class JsonTextLaws `{JsonText} := {
  text_object m :
    json_text (JObject m)
    = "{" +:+ join "," ((fun '(k, v) => json_text (JString k) +:+ ":" +:+ json_text v) <$> m) +:+ "}";
  text_string s : str_len (json_text (JString s)) <= 6 * char_count s + 2;
  text_bool b : json_text (JBool b) = if b then "true" else "false";
}.

(*@ tools/src/lib.rs MAX_MODEL_TOOL_RESULT_BYTES *)
Definition MAX_MODEL_TOOL_RESULT_BYTES : N := 16 * 1024.
(*@ tools/src/lib.rs DEFAULT_MODEL_TOOL_RESULT_BYTES *)
Definition DEFAULT_MODEL_TOOL_RESULT_BYTES : N := 8 * 1024.
(*@ tools/src/lib.rs MIN_MODEL_TOOL_RESULT_BYTES *)
Definition MIN_MODEL_TOOL_RESULT_BYTES : N := 1024.
(*@ tools/src/lib.rs MAX_MODEL_TOOL_RESULT_SUMMARY_CHARS *)
Definition MAX_MODEL_TOOL_RESULT_SUMMARY_CHARS : N := 2 * 1024.
(*@ tools/src/lib.rs MAX_MODEL_TOOL_RESULT_COMPACT_EXCERPT_CHARS *)
Definition MAX_MODEL_TOOL_RESULT_COMPACT_EXCERPT_CHARS : N := 512.
(*@ tools/src/lib.rs MAX_MODEL_TOOL_RESULT_FACT_STRING_CHARS *)
Definition MAX_MODEL_TOOL_RESULT_FACT_STRING_CHARS : N := 4 * 1024.
(*@ tools/src/lib.rs MAX_MODEL_TOOL_RESULT_ITEMS *)
Definition MAX_MODEL_TOOL_RESULT_ITEMS : nat := 32.
(*@ tools/src/lib.rs MAX_MODEL_TOOL_RESULT_DEPTH *)
Definition MAX_MODEL_TOOL_RESULT_DEPTH : nat := 5.
(*@ tools/src/lib.rs MAX_MODEL_CHANGE_PREVIEW_FILES *)
Definition MAX_MODEL_CHANGE_PREVIEW_FILES : nat := 8.
(*@ tools/src/lib.rs MAX_MODEL_CHANGE_PREVIEW_LINE_BYTES *)
Definition MAX_MODEL_CHANGE_PREVIEW_LINE_BYTES : N := 512.
(*@ tools/src/lib.rs MAX_MODEL_TOOL_OUTPUT_CHARS *)
Definition MAX_MODEL_TOOL_OUTPUT_CHARS : N := 2 * 1024.
(*@ tools/src/lib.rs MAX_MODEL_TOOL_REASON_CHARS *)
Definition MAX_MODEL_TOOL_REASON_CHARS : N := 512.
(*@ tools/src/lib.rs MAX_MODEL_TOOL_SEARCH_QUERY_CHARS *)
Definition MAX_MODEL_TOOL_SEARCH_QUERY_CHARS : N := 512.
(*@ tools/src/lib.rs MAX_MODEL_TOOL_SEARCH_RESULTS *)
Definition MAX_MODEL_TOOL_SEARCH_RESULTS : nat := 8.

(** ** Objects *)

(** [Map::insert] for each entry in turn. *)
Definition insert_all (entries m : list (string * json)) : list (string * json) :=
  foldl (fun m '(k, v) => entries_insert k v m) m entries.
Definition entries_remove (k : string) (m : list (string * json)) : list (string * json) :=
  List.filter (fun '(k', _) => negb (bool_decide (k' = k))) m.
Definition has_key {V} (k : string) (m : list (string * V)) : bool :=
  match assoc k m with Some _ => true | None => false end.
Definition truncated_mark : string * json := ("_golutra_truncated", JBool true).
Definition additional_items (n : nat) : json :=
  JString ("<omitted " +:+ show (N.of_nat n) +:+ " additional items>").

(** [object.get(key) == Some(&value)]. *)
Definition fact_eq (m : list (string * json)) (k : string) (v : json) : bool :=
  match assoc k m with Some x => json_eqb x v | None => false end.

(** ** Bounded values *)

(*@ tools/src/lib.rs omitted_model_tool_value *)
Definition omitted_model_tool_value (value : json) : json :=
  JString match value with
          | JObject m => "<omitted object with " +:+ show (N.of_nat (length m)) +:+ " fields>"
          | JArray l => "<omitted array with " +:+ show (N.of_nat (length l)) +:+ " items>"
          | JString text => "<omitted " +:+ show (char_count text) +:+ " characters>"
          | _ => "<omitted value>"
          end.

(*@ tools/src/lib.rs project_model_tool_value *)
Fixpoint project_model_tool_value (value : json) (depth : nat) : json :=
  if (MAX_MODEL_TOOL_RESULT_DEPTH <=? depth)%nat then omitted_model_tool_value value
  else match value with
       | JObject m =>
           let projected := insert_all
             (take MAX_MODEL_TOOL_RESULT_ITEMS
                ((fun '(k, x) => (bounded_text k 128, project_model_tool_value x (S depth))) <$> m)) [] in
           JObject (if (MAX_MODEL_TOOL_RESULT_ITEMS <? length m)%nat
                    then insert_all [truncated_mark] projected else projected)
       | JArray l =>
           let projected := take MAX_MODEL_TOOL_RESULT_ITEMS
             ((fun x => project_model_tool_value x (S depth)) <$> l) in
           JArray (if (MAX_MODEL_TOOL_RESULT_ITEMS <? length l)%nat
                   then projected ++ [additional_items (length l - MAX_MODEL_TOOL_RESULT_ITEMS)]
                   else projected)
       | JString text => JString (bounded_text text MAX_MODEL_TOOL_RESULT_FACT_STRING_CHARS)
       | _ => value
       end.

(*@ tools/src/lib.rs compact_model_tool_value *)
Fixpoint compact_model_tool_value (value : json) (depth : nat) : json :=
  if (2 <=? depth)%nat then
    match value with
    | JString text => JString (bounded_text_bytes text 256)
    | JObject m => JString ("<omitted object with " +:+ show (N.of_nat (length m)) +:+ " fields>")
    | JArray l => JString ("<omitted array with " +:+ show (N.of_nat (length l)) +:+ " items>")
    | _ => value
    end
  else match value with
       | JObject m =>
           let projected := insert_all
             (take 8 ((fun '(k, x) => (bounded_text k 64, compact_model_tool_value x (S depth))) <$> m)) [] in
           JObject (if (8 <? length m)%nat then insert_all [truncated_mark] projected else projected)
       | JArray l =>
           let projected := take 8 ((fun x => compact_model_tool_value x (S depth)) <$> l) in
           JArray (if (8 <? length l)%nat then projected ++ [additional_items (length l - 8)]
                   else projected)
       | JString text => JString (bounded_text_bytes text 256)
       | _ => value
       end.

(** ** The facts kept for each tool *)

(*@ tools/src/lib.rs READ_FILE_MODEL_FACTS *)
Definition READ_FILE_MODEL_FACTS : list string :=
  ["path"; "requested_path"; "path_normalized"; "content_digest"; "path_resolution";
   "candidates"; "next_action"; "bytes"; "lines"; "truncated"; "continuation"; "next_cursor";
   "next_offset"; "cursor"; "offset"; "limit"; "total_bytes"; "total_lines"; "has_more"; "eof";
   "error"; "reason"; "timed_out"; "cancelled"; "blocked"; "model_visible_truncated";
   "model_visible_bytes"].

(*@ tools/src/lib.rs MUTATION_MODEL_FACTS *)
Definition MUTATION_MODEL_FACTS : list string :=
  ["path"; "changed_paths"; "changed"; "idempotent"; "content_digest"; "current_content";
   "current_content_truncated"; "changed_files"; "changed_file_count"; "workspace_change_count";
   "workspace_changes_known"; "workspace_mutation_detected"; "change_preview"; "bytes";
   "replacements"; "edit_count"; "edit_index"; "error_kind"; "conflict"; "search_found";
   "overlap"; "max_bytes"; "exit_code"; "timed_out"; "cancelled"; "error"; "reason"; "parent";
   "parent_missing"; "action_required"; "next_action"; "checkpointed_paths"; "resolved_paths";
   "output_truncated"; "blocked"].

(*@ tools/src/lib.rs PROCESS_MODEL_FACTS *)
Definition PROCESS_MODEL_FACTS : list string :=
  ["process_id"; "process_count"; "running_count"; "total_count"; "has_more"; "next_offset";
   "execution_mode"; "dispatch_batch_size"; "elapsed_ms"; "workspace_scan_pending";
   "output_start_cursor"; "output_end_cursor"; "output_has_more"; "authoritative_pid";
   "process_state"; "exit_code"; "timed_out"; "cancelled"; "output_cursor"; "output_lost";
   "output_bytes"; "output_lines"; "output_truncated"; "workspace_changes_known";
   "workspace_change_count"; "process_lifetime_scope"; "survives_runtime_exit"; "terminal";
   "wait_strategy"; "effective_yield_time_ms"; "effective_wait_ms"; "effective_output_bytes";
   "ignored_arguments"; "wait_for_terminal"; "next_action"; "error"; "reason"; "blocked"].

(*@ tools/src/lib.rs:5861-5861 model_fact_priority *)
Definition search_priority : list string :=
  ["error"; "reason"; "query"; "result_count"; "cached"].

(*@ tools/src/lib.rs:5862-5890 model_fact_priority *)
Definition subagent_priority : list string :=
  ["child_pending_ids"; "child_results"; "child_terminal"; "child_cancel_requested";
   "child_task_id"; "child_result_has_more"; "child_result_next_offset";
   "model_visible_truncated"; "child_session_id"; "child_verification_status";
   "child_verification_issues"; "child_diagnostic"; "child_findings_available"; "wait_expired";
   "input_accepted"; "child_status"; "completed"; "success"; "status"; "error"; "reason";
   "cancelled"; "timed_out"; "blocked"; "partial"; "truncated"; "continuation"].

(*@ tools/src/lib.rs:5891-5898 model_fact_priority *)
Definition other_priority : list string :=
  ["status"; "error"; "reason"; "continuation"; "next_offset"; "next_cursor"].

(*@ tools/src/lib.rs:5904-5919 model_fact_mandatory *)
Definition read_mandatory : list string :=
  ["path"; "content_digest"; "continuation"; "next_offset"; "next_cursor"; "has_more"; "eof";
   "truncated"; "model_visible_truncated"; "error"; "reason"; "timed_out"; "cancelled";
   "blocked"].

(*@ tools/src/lib.rs:5920-5934 model_fact_mandatory *)
Definition mutation_mandatory : list string :=
  ["path"; "parent"; "parent_missing"; "action_required"; "error_kind"; "changed_file_count";
   "workspace_change_count"; "workspace_changes_known"; "workspace_mutation_detected";
   "conflict"; "error"; "reason"; "blocked"].

(*@ tools/src/lib.rs:5935-5954 model_fact_mandatory *)
Definition process_mandatory : list string :=
  ["processes"; "has_more"; "next_offset"; "process_id"; "output_has_more"; "authoritative_pid";
   "process_state"; "exit_code"; "output_cursor"; "output_truncated"; "output_lost"; "timed_out";
   "cancelled"; "terminal"; "next_action"; "error"; "reason"; "blocked"].

(*@ tools/src/lib.rs:5955-5955 model_fact_mandatory *)
Definition search_mandatory : list string :=
  ["error"; "reason"; "query"; "result_count"; "cached"].

(*@ tools/src/lib.rs:5956-5981 model_fact_mandatory *)
Definition subagent_mandatory : list string :=
  ["child_pending_ids"; "child_results"; "child_terminal"; "child_cancel_requested";
   "child_task_id"; "child_result_has_more"; "child_result_next_offset";
   "model_visible_truncated"; "child_session_id"; "child_verification_status";
   "child_findings_available"; "wait_expired"; "input_accepted"; "child_status"; "completed";
   "success"; "error"; "reason"; "cancelled"; "timed_out"; "blocked"; "partial"; "truncated";
   "continuation"].

(*@ tools/src/lib.rs:5982-5989 model_fact_mandatory *)
Definition other_mandatory : list string :=
  ["status"; "error"; "reason"; "continuation"; "next_offset"; "next_cursor"].

Definition is_mutation (tool_name : string) : bool :=
  bool_decide (tool_name ∈ ["write_file"; "edit_file"; "apply_patch"]).
Definition is_process (tool_name : string) : bool :=
  bool_decide (tool_name ∈ ["shell"; "shell_session"]).

(*@ tools/src/lib.rs model_fact_priority *)
Definition model_fact_priority (tool_name : string) : list string :=
  if bool_decide (tool_name = "read_file") then READ_FILE_MODEL_FACTS
  else if is_mutation tool_name then MUTATION_MODEL_FACTS
  else if is_process tool_name then PROCESS_MODEL_FACTS
  else if bool_decide (tool_name = "web_search") then search_priority
  else if bool_decide (tool_name = "subagent") then subagent_priority
  else other_priority.

(*@ tools/src/lib.rs model_fact_mandatory *)
Definition model_fact_mandatory (tool_name : string) : list string :=
  if bool_decide (tool_name = "read_file") then read_mandatory
  else if is_mutation tool_name then mutation_mandatory
  else if is_process tool_name then process_mandatory
  else if bool_decide (tool_name = "web_search") then search_mandatory
  else if bool_decide (tool_name = "subagent") then subagent_mandatory
  else other_mandatory.

(** ** Selecting facts *)

(** The entries of [m] for [keys], in that order. *)
Definition pick (f : json -> json) (keys : list string) (m : list (string * json))
    : list (string * json) :=
  omap (fun k => (fun v => (k, f v)) <$> assoc k m) keys.

(*@ tools/src/lib.rs selected_model_facts *)
Definition selected_model_facts (value : json) (keys : list string) : json :=
  match value with
  | JObject m => JObject (insert_all (pick (fun v => project_model_tool_value v 0) keys m) [])
  | _ => project_model_tool_value value 0
  end.

(*@ tools/src/lib.rs model_process_list_facts *)
Definition model_process_list_facts (facts : json) : json :=
  let projected := selected_model_facts facts PROCESS_MODEL_FACTS in
  match json_get facts "processes" ≫= as_array with
  | None => projected
  | Some processes =>
      let visible := (fun process =>
        json_obj [("process_id", json_index process "process_id");
                  ("process_state", json_index process "process_state");
                  ("output_has_more", json_index process "output_has_more");
                  ("command", JString (bounded_text_bytes
                     (default "" (as_str (json_index process "command"))) 64))]) <$> take 4 processes in
      let omitted := N.of_nat (length processes - length visible) in
      let projected := json_set projected "process_count" (json_u64 (N.of_nat (length visible))) in
      let projected :=
        if 0 <? omitted then
          json_set (json_set projected "has_more" (JBool true)) "next_offset"
            (json_u64 (default 0 (as_u64 (json_index facts "next_offset")) - omitted))
        else projected in
      json_set projected "processes" (JArray visible)
  end.

Definition status_text (s : ToolResultStatus) : string :=
  match s with
  | ToolResultStatus.Ok => "ok"
  | ToolResultStatus.Error => "error"
  | ToolResultStatus.Blocked => "blocked"
  | ToolResultStatus.Cancelled => "cancelled"
  | ToolResultStatus.Timeout => "timeout"
  end.

(*@ tools/src/lib.rs model_tool_result_base *)
Definition model_tool_result_base (tool_name : string) (status : ToolResultStatus)
    : list (string * json) :=
  insert_all [("tool_name", JString (bounded_text tool_name 128));
              ("status", JString (status_text status))] [].

(*@ tools/src/lib.rs remove_false_fact *)
Definition remove_false_fact (k : string) (m : list (string * json)) : list (string * json) :=
  if fact_eq m k (JBool false) then entries_remove k m else m.
(*@ tools/src/lib.rs remove_true_fact *)
Definition remove_true_fact (k : string) (m : list (string * json)) : list (string * json) :=
  if fact_eq m k (JBool true) then entries_remove k m else m.
Definition remove_all (keys : list string) (m : list (string * json)) : list (string * json) :=
  foldl (fun m k => entries_remove k m) m keys.

(*@ tools/src/lib.rs:5518-5537 prune_redundant_success_facts *)
Definition prune_read_file (m : list (string * json)) : list (string * json) :=
  let m := remove_all ["bytes"; "lines"; "offset"; "limit"; "total_bytes"; "total_lines";
                       "model_visible_bytes"] m in
  let m := remove_false_fact "has_more" m in
  let m := remove_false_fact "truncated" m in
  let m := remove_false_fact "model_visible_truncated" m in
  if fact_eq m "eof" (JBool false) then entries_remove "eof" m else m.

Definition option_json_eqb (a b : option json) : bool :=
  match a, b with
  | Some x, Some y => json_eqb x y
  | None, None => true
  | _, _ => false
  end.

(*@ tools/src/lib.rs:5538-5550 prune_redundant_success_facts *)
Definition prune_mutation (m : list (string * json)) : list (string * json) :=
  let m := entries_remove "change_preview" m in
  let m := if has_key "changed_paths" m then entries_remove "changed_files" m else m in
  let m := remove_true_fact "changed" m in
  let m := remove_true_fact "workspace_changes_known" m in
  let m := remove_true_fact "workspace_mutation_detected" m in
  if option_json_eqb (assoc "workspace_change_count" m) (assoc "changed_file_count" m)
  then entries_remove "workspace_change_count" m else m.

(*@ tools/src/lib.rs:5551-5577 prune_redundant_success_facts *)
Definition prune_process (m : list (string * json)) : list (string * json) :=
  let m :=
    if fact_eq m "terminal" (JBool true) && fact_eq m "exit_code" (JInt 0) then
      remove_all ["execution_mode"; "dispatch_batch_size"; "elapsed_ms"; "process_lifetime_scope";
                  "survives_runtime_exit"; "wait_strategy"; "wait_for_terminal"] m
    else m in
  let m := entries_remove "output_bytes" m in
  let m := entries_remove "output_lines" m in
  let m := remove_false_fact "timed_out" m in
  let m := remove_false_fact "cancelled" m in
  let m := remove_false_fact "output_truncated" m in
  let m := remove_true_fact "workspace_changes_known" m in
  if fact_eq m "workspace_change_count" (JInt 0) then entries_remove "workspace_change_count" m else m.

(*@ tools/src/lib.rs prune_redundant_success_facts *)
Definition prune_redundant_success_facts (tool_name : string) (status : ToolResultStatus) (facts : json)
    : json :=
  match status, facts with
  | ToolResultStatus.Ok, JObject m =>
      let m := List.filter (fun '(_, v) => match v with JNull => false | _ => true end) m in
      JObject (if bool_decide (tool_name = "read_file") then prune_read_file m
               else if is_mutation tool_name then prune_mutation m
               else if is_process tool_name then prune_process m
               else m)
  | _, _ => facts
  end.

(*@ tools/src/lib.rs:5633-5646 project_search_model_facts *)
Definition search_result (result : json) : option json :=
  match result with
  | JObject m =>
      let item := omap (fun '(k, limit) =>
        (fun s => (k, JString (bounded_text s limit))) <$> (assoc k m ≫= as_str))
        [("title", 160); ("url", 512); ("snippet", 320)] in
      if is_nil item then None else Some (JObject (insert_all item []))
  | _ => None
  end.

(*@ tools/src/lib.rs project_search_model_facts *)
Definition project_search_model_facts (value : json) : json :=
  match value with
  | JObject m =>
      let fact k v :=
        match v with
        | JString query => if bool_decide (k = "query")
                           then JString (bounded_text query MAX_MODEL_TOOL_SEARCH_QUERY_CHARS)
                           else project_model_tool_value v 0
        | _ => project_model_tool_value v 0
        end in
      let projected := insert_all
        (omap (fun k => (fun v => (k, fact k v)) <$> assoc k m)
           ["query"; "result_count"; "cached"; "error"; "reason"]) [] in
      JObject match assoc "results" m ≫= as_array with
              | Some results =>
                  entries_insert "results"
                    (JArray (omap search_result (take MAX_MODEL_TOOL_SEARCH_RESULTS results))) projected
              | None => projected
              end
  | _ => project_model_tool_value value 0
  end.

(*@ tools/src/lib.rs:5706-5710 project_subagent_batch *)
Definition batch_fact_keys : list string :=
  ["child_task_id"; "child_status"; "child_terminal"; "completed"; "child_cancel_requested";
   "child_verification_status"; "child_verification_issues"; "child_diagnostic";
   "child_findings_available"; "child_result_has_more"; "child_result_next_offset";
   "model_visible_truncated"; "child_workspace_path"; "child_isolation"; "error"; "reason";
   "cancelled"; "timed_out"; "blocked"].

Definition empty_fact (v : json) : bool := match v with JNull | JArray [] => true | _ => false end.

Definition remaining_results (n : nat) : json :=
  json_obj [("omitted_results", json_u64 (N.of_nat n));
            ("next_action", JString "read status for the remaining requested child handles")].

(*@ tools/src/lib.rs:5703-5732 project_subagent_batch *)
Definition batch_item (result : json) : json :=
  let source := json_index result "facts" in
  let facts := insert_all
    (omap (fun k => v ← json_get source k;
                    if empty_fact v then None else Some (k, project_model_tool_value v 0))
       batch_fact_keys) [] in
  let content := default "" (json_get result "content" ≫= as_str) in
  let facts :=
    if MAX_MODEL_TOOL_RESULT_FACT_STRING_CHARS <? char_count content
    then entries_insert "model_visible_truncated" (JBool true) facts else facts in
  let item := json_obj
    [("child_session_id", json_opt id (json_get result "child_session_id"));
     ("content", JString (bounded_text content MAX_MODEL_TOOL_RESULT_FACT_STRING_CHARS));
     ("facts", JObject facts)] in
  let item :=
    match json_get result "error" with
    | Some error => json_set item "error" (project_model_tool_value error 0)
    | None => item
    end in
  if bool_decide (content = "") || negb (json_is_true (json_index source "completed")) then
    match json_get result "summary" ≫= as_str with
    | Some summary =>
        json_set item "summary" (JString (bounded_text summary MAX_MODEL_TOOL_RESULT_SUMMARY_CHARS))
    | None => item
    end
  else item.

(*@ tools/src/lib.rs project_subagent_batch *)
Definition project_subagent_batch (value : json) : json :=
  match value with
  | JArray results =>
      let projected := batch_item <$> take MAX_MODEL_TOOL_RESULT_ITEMS results in
      JArray (if (MAX_MODEL_TOOL_RESULT_ITEMS <? length results)%nat
              then projected ++ [remaining_results (length results - MAX_MODEL_TOOL_RESULT_ITEMS)]
              else projected)
  | _ => JNull
  end.

(*@ tools/src/lib.rs:5664-5689 project_subagent_model_facts *)
Definition subagent_fact_keys : list string :=
  ["completed"; "success"; "workspace_changes_known"; "workspace_change_count"; "changed_files";
   "artifact_ref"; "artifact_refs"; "evidence_ref"; "evidence_refs"; "result_ref"; "error"; "reason";
   "cancelled"; "timed_out"; "blocked"; "partial"; "truncated"; "continuation"; "wait_expired";
   "model_visible_truncated"; "input_accepted"; "execution_mode"; "dispatch_batch_size"].

(*@ tools/src/lib.rs project_subagent_model_facts *)
Definition project_subagent_model_facts (value : json) : json :=
  match value with
  | JObject m =>
      JObject (insert_all
        (omap (fun '(k, v) =>
           if bool_decide (k = "child_results") then Some (k, project_subagent_batch v)
           else if starts_with "child_" k || bool_decide (k ∈ subagent_fact_keys)
           then Some (bounded_text k 96, project_model_tool_value v 0)
           else None) m) [])
  | _ => project_model_tool_value value 0
  end.

(** ** Compact facts *)

(** The first [n] of the keys not taken yet. *)
Definition remaining_keys (n : nat) (projected m : list (string * json)) : list (string * json) :=
  take n (List.filter (fun '(k, _) => negb (has_key k projected)) m).

Definition mark_if_shorter (projected m : list (string * json)) : list (string * json) :=
  if (length projected <? length m)%nat then insert_all [truncated_mark] projected else projected.

(*@ tools/src/lib.rs compact_priority_model_object *)
Definition compact_priority_model_object (m : list (string * json)) (priority : list string)
    (max_fields : nat) : json :=
  let projected := insert_all (pick (fun v => compact_model_tool_value v 1) priority m) [] in
  let rest := remaining_keys (max_fields - length projected) projected m in
  let projected := insert_all ((fun '(k, v) => (k, compact_model_tool_value v 1)) <$> rest) projected in
  JObject (mark_if_shorter projected m).

(*@ tools/src/lib.rs:6136-6164 compact_change_preview *)
Definition compact_preview_item (item : json) : option json :=
  match item with
  | JObject m =>
      let line v := match v with
                    | JString l => JString (bounded_text_bytes l MAX_MODEL_CHANGE_PREVIEW_LINE_BYTES)
                    | other => compact_model_tool_value other 0
                    end in
      let compact := insert_all
        (pick (fun v => compact_model_tool_value v 0) ["path"; "content_digest"; "truncated"] m) [] in
      Some (JObject (insert_all
        (omap (fun k => lines ← assoc k m ≫= as_array; Some (k, JArray (line <$> take 12 lines)))
           ["added_lines"; "removed_lines"]) compact))
  | _ => None
  end.

(*@ tools/src/lib.rs compact_change_preview *)
Definition compact_change_preview (value : json) : json :=
  match value with
  | JArray items => JArray (omap compact_preview_item (take MAX_MODEL_CHANGE_PREVIEW_FILES items))
  | _ => compact_model_tool_value value 0
  end.

(*@ tools/src/lib.rs:6052-6055 compact_model_fact_value *)
Definition compact_child_result (result : json) : json :=
  json_obj [("child_session_id", json_opt id (json_get result "child_session_id"));
            ("child_status",
             json_opt id (match json_get result "facts" ≫= fun f => json_get f "child_status" with
                          | Some s => Some s
                          | None => json_get result "error"
                          end))].

(*@ tools/src/lib.rs compact_model_fact_value *)
Definition compact_model_fact_value (key : string) (value : json) : json :=
  let compact := compact_model_tool_value value 0 in
  if bool_decide (key = "child_results") then
    match value with
    | JArray results =>
        let shown := compact_child_result <$> take 10 results in
        JArray (if (10 <? length results)%nat then shown ++ [remaining_results (length results - 10)]
                else shown)
    | _ => compact
    end
  else if bool_decide (key = "child_pending_ids") then value
  else if bool_decide (key = "continuation") then
    match value with
    | JObject m => compact_priority_model_object m
                     ["next_offset"; "next_cursor"; "has_more"; "eof"; "cursor"; "offset"] 8
    | _ => compact
    end
  else if bool_decide (key = "next_action") then
    match value with
    | JObject m => compact_priority_model_object m
                     ["action"; "process_id"; "authoritative_pid"; "cursor"; "wait_ms";
                      "wait_for_terminal"; "max_output_bytes"] 8
    | _ => compact
    end
  else if bool_decide (key = "error") then
    match value with
    | JObject m => compact_priority_model_object m ["code"; "message"; "reason"] 6
    | _ => compact
    end
  else if bool_decide (key = "change_preview") then compact_change_preview value
  else if bool_decide (key ∈ ["changed_files"; "checkpointed_paths"; "resolved_paths"]) then
    match value with
    | JArray l =>
        let shown := (fun v => match v with
                               | JString text => JString (bounded_text_bytes text 96)
                               | _ => compact_model_tool_value v 1
                               end) <$> take 4 l in
        JArray (if (4 <? length l)%nat then shown ++ [additional_items (length l - 4)] else shown)
    | _ => compact
    end
  else compact.

Definition compact_entries (keys : list string) (m : list (string * json)) : list (string * json) :=
  omap (fun k => (fun v => (k, compact_model_fact_value k v)) <$> assoc k m) keys.

(** The loop over the priority keys: a full object takes no more. *)
Fixpoint add_priority (keys : list string) (m projected : list (string * json)) : list (string * json) :=
  match keys with
  | [] => projected
  | k :: keys' =>
      if (16 <=? length projected)%nat || has_key k projected then add_priority keys' m projected
      else match assoc k m with
           | Some v => add_priority keys' m (entries_insert k (compact_model_fact_value k v) projected)
           | None => add_priority keys' m projected
           end
  end.

(*@ tools/src/lib.rs compact_model_tool_facts *)
Definition compact_model_tool_facts (tool_name : string) (value : json) : json :=
  match value with
  | JObject m =>
      let projected := insert_all (compact_entries (model_fact_mandatory tool_name) m) [] in
      let projected := add_priority (model_fact_priority tool_name) m projected in
      let rest := remaining_keys (8 - length projected) projected m in
      let projected := insert_all ((fun '(k, v) => (k, compact_model_fact_value k v)) <$> rest) projected in
      JObject (mark_if_shorter projected m)
  | _ => compact_model_tool_value value 0
  end.

(*@ tools/src/lib.rs minimal_model_tool_facts *)
Definition minimal_model_tool_facts (tool_name : string) (value : json) : json :=
  match value with
  | JObject m =>
      let projected := insert_all (compact_entries (model_fact_mandatory tool_name) m) [] in
      JObject (if is_nil projected && negb (is_nil m) then insert_all [truncated_mark] projected
               else projected)
  | _ => compact_model_tool_value value 0
  end.

(** ** Fitting the size limit *)

(*@ tools/src/lib.rs model_tool_summary_is_required *)
Definition model_tool_summary_is_required (tool_name : string) (status : ToolResultStatus) : bool :=
  negb (bool_decide (status = ToolResultStatus.Ok))
  || negb (is_pi_plus_tool tool_name)
  || bool_decide (tool_name ∈ ["write_file"; "edit_file"; "apply_patch"; "subagent"]).

Section Projection.
Context `{JsonText}.
Variable replace_all : string -> string -> string -> string.

(*@ tools/src/lib.rs serialized_value_len *)
Definition serialized_value_len (v : json) : N := str_len (json_text v).

Definition shorten (k : string) (limit : N) (m : list (string * json)) : list (string * json) :=
  match assoc k m with
  | Some (JString text) => entries_insert k (JString (bounded_text_bytes text limit)) m
  | _ => m
  end.

Definition summary_limit (max_bytes : N) : N :=
  N.min MAX_MODEL_TOOL_RESULT_SUMMARY_CHARS (max_bytes - 256).

(** Compact facts and a short excerpt. *)
(*@ tools/src/lib.rs:5755-5771 serialize_model_tool_projection *)
Definition compact_projection (tool_name : string) (max_bytes : N) (m : list (string * json))
    : list (string * json) :=
  if max_bytes <? serialized_value_len (JObject m) then
    let m := match assoc "structured_facts" m with
             | Some facts => entries_insert "structured_facts" (compact_model_tool_facts tool_name facts) m
             | None => m
             end in
    shorten "model_visible_excerpt"
      (N.min (sat_mul usize_max MAX_MODEL_TOOL_RESULT_COMPACT_EXCERPT_CHARS 4) (max_bytes / 2)) m
  else m.

(** No excerpt, and a short summary where one is needed. *)
(*@ tools/src/lib.rs:5772-5790 serialize_model_tool_projection *)
Definition drop_excerpt (keep_summary : bool) (max_bytes : N) (m : list (string * json))
    : list (string * json) :=
  if max_bytes <? serialized_value_len (JObject m) then
    let m := entries_remove "model_visible_excerpt" m in
    if keep_summary then shorten "summary" (summary_limit max_bytes) m else entries_remove "summary" m
  else m.

(** The status, and whether output was cut. *)
(*@ tools/src/lib.rs:5822-5844 serialize_model_tool_projection *)
Definition minimal_text (tool_name : string) (status : ToolResultStatus) (summary : string)
    (max_bytes : N) (original_facts : json) (keep_summary : bool) : string :=
  let base := model_tool_result_base tool_name status in
  let minimal :=
    match model_output_truncation_key tool_name with
    | Some key => if json_is_true (json_index original_facts key)
                  then entries_insert "structured_facts" (JObject [(key, JBool true)]) base else base
    | None => base
    end in
  let minimal :=
    if keep_summary
    then entries_insert "summary" (JString (bounded_text_bytes summary (N.min (max_bytes - 192) 256))) minimal
    else minimal in
  let serialized := json_text (JObject minimal) in
  if str_len serialized <=? max_bytes then serialized else json_text (JObject base).

(*@ tools/src/lib.rs serialize_model_tool_projection *)
Definition serialize_model_tool_projection (m : list (string * json)) (tool_name : string)
    (status : ToolResultStatus) (summary : string) (max_bytes : N) : string :=
  let original_facts := default JNull (assoc "structured_facts" m) in
  let keep_summary := model_tool_summary_is_required tool_name status in
  let m := drop_excerpt keep_summary max_bytes (compact_projection tool_name max_bytes m) in
  if serialized_value_len (JObject m) <=? max_bytes then json_text (JObject m)
  else
    let m := entries_insert "structured_facts" (minimal_model_tool_facts tool_name original_facts) m in
    let m := if keep_summary then m else entries_remove "summary" m in
    if serialized_value_len (JObject m) <=? max_bytes then json_text (JObject m)
    else
      let fallback := entries_insert "structured_facts" (minimal_model_tool_facts tool_name original_facts)
                        (model_tool_result_base tool_name status) in
      let fallback :=
        if keep_summary
        then entries_insert "summary" (JString (bounded_text_bytes summary (summary_limit max_bytes))) fallback
        else fallback in
      let serialized := json_text (JObject fallback) in
      if str_len serialized <=? max_bytes then serialized
      else minimal_text tool_name status summary max_bytes original_facts keep_summary.

(*@ tools/src/lib.rs MODEL_OUTPUT_SEPARATOR *)
Definition MODEL_OUTPUT_SEPARATOR : string :=
  String (byte 10) ("--- output ---" +:+ String (byte 10) "").

(*@ tools/src/lib.rs append_model_visible_excerpt *)
Definition append_model_visible_excerpt (header : string) (excerpt : option string) (max_bytes : N)
    : string :=
  match excerpt with
  | None | Some EmptyString => header
  | Some excerpt =>
      let available :=
        max_bytes - sat_add usize_max (str_len header) (str_len MODEL_OUTPUT_SEPARATOR) in
      if available =? 0 then header
      else header +:+ MODEL_OUTPUT_SEPARATOR +:+ bounded_text_bytes excerpt available
  end.

(** What is kept of a call: its facts, its excerpt, and whether the summary and the
    excerpt are shown. *)
Record Kept := mkKept {
  kept_facts : json;
  kept_excerpt : option string;
  keep_summary : bool;
  keep_excerpt : bool;
}.

(*@ tools/src/lib.rs:5180-5245 model_visible_tool_result_with_limit *)
Definition kept_of (tool_name : string) (status : ToolResultStatus) (summary : string) (facts : json)
    (excerpt : option string) : Kept :=
  let failed := negb (bool_decide (status = ToolResultStatus.Ok)) in
  let known := is_pi_plus_tool tool_name in
  if bool_decide (tool_name = "read_file") then
    let content :=
      match excerpt with
      | Some e => Some e
      | None => (fun s => bounded_text_bytes s MAX_MODEL_TOOL_RESULT_EXCERPT_BYTES)
                  <$> (json_get facts "content" ≫= as_str)
      end in
    mkKept (selected_model_facts facts READ_FILE_MODEL_FACTS) content failed true
  else if is_mutation tool_name then
    mkKept (selected_model_facts facts MUTATION_MODEL_FACTS) None true false
  else if bool_decide (tool_name = "shell_session")
          && match json_get facts "processes" with Some _ => true | None => false end then
    mkKept (model_process_list_facts facts) None false false
  else if is_process tool_name then
    mkKept (selected_model_facts facts PROCESS_MODEL_FACTS) excerpt failed true
  else if bool_decide (tool_name = "web_search") then
    mkKept (project_search_model_facts facts) None failed false
  else if bool_decide (tool_name = "subagent") then
    mkKept (project_subagent_model_facts facts)
      ((fun e => bounded_text e MAX_MODEL_TOOL_OUTPUT_CHARS) <$> excerpt) true
      (is_some_and (fun e => negb (bool_decide (e = summary))) excerpt)
  else mkKept (project_model_tool_value facts 0) excerpt (negb known) (negb known).

(** The changed paths under the name the model knows. *)
(*@ tools/src/lib.rs:5246-5256 model_visible_tool_result_with_limit *)
Definition name_changed_paths (tool_name : string) (facts : json) : json :=
  match facts with
  | JObject m =>
      if is_mutation tool_name && negb (has_key "changed_paths" m) then
        match assoc "changed_files" m with
        | Some paths => JObject (entries_insert "changed_paths" paths m)
        | None => facts
        end
      else facts
  | _ => facts
  end.

Definition is_nonempty (s : string) : bool := match s with EmptyString => false | _ => true end.

(** The output does not fit below the header: the facts say so, and where to read on. *)
(*@ tools/src/lib.rs:5306-5326 model_visible_tool_result_with_limit *)
Definition mark_cut (tool_name key : string) (raw_facts : json) (m : list (string * json))
    : list (string * json) :=
  let facts := match assoc "structured_facts" m with Some (JObject f) => f | _ => [] end in
  let facts := entries_insert key (JBool true) facts in
  let facts :=
    match json_get raw_facts "output_start_cursor" ≫= as_u64, json_get raw_facts "process_id" with
    | Some cursor, Some process_id =>
        if is_process tool_name then
          insert_all
            [("output_cursor", json_u64 cursor); ("output_has_more", JBool true);
             ("next_action",
              json_obj [("action", JString "read"); ("process_id", process_id);
                        ("cursor", json_u64 cursor); ("max_output_bytes", JInt 256)])] facts
        else facts
    | _, _ => facts
    end in
  entries_insert "structured_facts" (JObject facts) m.

(*@ tools/src/lib.rs:5267-5286 model_visible_tool_result_with_limit *)
Definition projection_of (tool_name : string) (status : ToolResultStatus) (summary : string) (facts : json)
    (keep_summary keep_excerpt : bool) (excerpt : option string) : list (string * json) :=
  let m := entries_insert "structured_facts" facts (model_tool_result_base tool_name status) in
  let m :=
    if keep_summary then
      entries_insert "summary"
        (JString (bounded_text summary
           (if is_pi_plus_tool tool_name then MAX_MODEL_TOOL_REASON_CHARS
            else MAX_MODEL_TOOL_RESULT_SUMMARY_CHARS))) m
    else m in
  match excerpt with
  | Some e => if keep_excerpt && is_nonempty e
              then entries_insert "model_visible_excerpt" (JString e) m else m
  | None => m
  end.

(** The part that reads redacted values, and the two raw facts of a process. *)
(*@ tools/src/lib.rs:5246-5336 model_visible_tool_result_with_limit *)
Definition render_result (tool_name : string) (status : ToolResultStatus) (raw_facts : json)
    (summary : string) (facts : json) (excerpt : option string) (max_bytes : N) : string :=
  let kept := kept_of tool_name status summary facts excerpt in
  let facts := prune_redundant_success_facts tool_name status
                 (name_changed_paths tool_name (kept_facts kept)) in
  let inline := keep_excerpt kept && bool_decide (tool_name ∈ ["read_file"; "shell"; "shell_session"]) in
  let inline_excerpt := if inline then kept_excerpt kept else None in
  let excerpt := if inline then None else kept_excerpt kept in
  let projection :=
    projection_of tool_name status summary facts (keep_summary kept) (keep_excerpt kept) excerpt in
  let header_budget :=
    match inline_excerpt with
    | Some _ => if is_process tool_name
                then max_bytes - (str_len MODEL_OUTPUT_SEPARATOR + 256) else max_bytes
    | None => max_bytes
    end in
  let header := serialize_model_tool_projection projection tool_name status summary header_budget in
  let header :=
    match inline_excerpt, model_output_truncation_key tool_name with
    | Some e, Some key =>
        if is_nonempty e
           && (max_bytes <? str_len header + str_len MODEL_OUTPUT_SEPARATOR + str_len e)
        then serialize_model_tool_projection (mark_cut tool_name key raw_facts projection)
               tool_name status summary header_budget
        else header
    | _, _ => header
    end in
  append_model_visible_excerpt header inline_excerpt max_bytes.

(*@ tools/src/lib.rs model_visible_tool_result_with_limit *)
Definition model_visible_tool_result_with_limit (e : ToolResultEnvelope) (max_bytes : N) : string :=
  render_result (env_tool_name e) (env_status e) (structured_facts e)
    (bounded_text (redact replace_all (env_summary e)) MAX_MODEL_TOOL_RESULT_SUMMARY_CHARS)
    (redact_sensitive_value replace_all (structured_facts e))
    ((fun v => bounded_text_bytes (redact replace_all v) MAX_MODEL_TOOL_RESULT_EXCERPT_BYTES)
       <$> model_visible_excerpt e)
    (clamp MIN_MODEL_TOOL_RESULT_BYTES MAX_MODEL_TOOL_RESULT_BYTES max_bytes).

(*@ tools/src/lib.rs model_visible_tool_result *)
Definition model_visible_tool_result (e : ToolResultEnvelope) : string :=
  model_visible_tool_result_with_limit e DEFAULT_MODEL_TOOL_RESULT_BYTES.

(*@ tools/src/lib.rs model_visible_tool_result_with_token_budget *)
Definition model_visible_tool_result_with_token_budget (e : ToolResultEnvelope) (max_tokens : N) : string :=
  model_visible_tool_result_with_limit e (N.min (sat_mul u64_max max_tokens 4) usize_max).

(** ** The arguments of a call, for display *)

(*@ tools/src/lib.rs MAX_TOOL_ARGUMENT_DISPLAY_BYTES *)
Definition MAX_TOOL_ARGUMENT_DISPLAY_BYTES : N := 8 * 1024.
(*@ tools/src/lib.rs MAX_TOOL_ARGUMENT_DISPLAY_STRING_BYTES *)
Definition MAX_TOOL_ARGUMENT_DISPLAY_STRING_BYTES : N := 1024.
(*@ tools/src/lib.rs MAX_TOOL_ARGUMENT_COMPACT_STRING_BYTES *)
Definition MAX_TOOL_ARGUMENT_COMPACT_STRING_BYTES : N := 96.
(*@ tools/src/lib.rs MAX_TOOL_ARGUMENT_DISPLAY_ITEMS *)
Definition MAX_TOOL_ARGUMENT_DISPLAY_ITEMS : nat := 24.
(*@ tools/src/lib.rs MAX_TOOL_ARGUMENT_DISPLAY_DEPTH *)
Definition MAX_TOOL_ARGUMENT_DISPLAY_DEPTH : nat := 4.

(*@ tools/src/lib.rs PREFERRED_TOOL_ARGUMENT_KEYS *)
Definition PREFERRED_TOOL_ARGUMENT_KEYS : list string :=
  ["path"; "offset"; "limit"; "command"; "workdir"; "pattern"; "query"; "symbol"; "timeout_ms";
   "background"; "yield-time_ms"; "cwd"; "glob"; "url"; "method"; "search"; "replace"; "edits";
   "content"].

(*@ tools/src/lib.rs payload_argument_key *)
Definition payload_argument_key (key : string) : bool :=
  bool_decide (replace_char (byte 45) (byte 95) (to_ascii_lowercase key) ∈
    ["body"; "content"; "data"; "input"; "new_text"; "old_text"; "patch"; "payload"; "replace";
     "replacement"; "search"]).

(*@ tools/src/lib.rs omitted_argument_summary *)
Definition omitted_argument_summary (value : json) : json :=
  JString match value with
          | JString text => "<omitted " +:+ show (str_len text) +:+ " bytes>"
          | JArray l => "<omitted array with " +:+ show (N.of_nat (length l)) +:+ " items>"
          | JObject m => "<omitted object with " +:+ show (N.of_nat (length m)) +:+ " fields>"
          | _ => "<omitted value>"
          end.

(*@ tools/src/lib.rs bounded_argument_string *)
Definition bounded_argument_string (value : string) (max_bytes : N) : string :=
  if str_len value <=? max_bytes then value
  else
    let boundary := boundary_at_most value (N.to_nat (N.min max_bytes (str_len value))) in
    byte_prefix boundary value +:+ "<truncated " +:+ show (str_len value - N.of_nat boundary) +:+ " bytes>".

(** The loop over the remaining entries: a full object is marked and takes no more. *)
Fixpoint add_arguments (entries projected : list (string * json)) : list (string * json) :=
  match entries with
  | [] => projected
  | (k, v) :: entries' =>
      if (MAX_TOOL_ARGUMENT_DISPLAY_ITEMS <=? length projected)%nat
      then insert_all [truncated_mark] projected
      else if has_key k projected then add_arguments entries' projected
      else add_arguments entries' (entries_insert k v projected)
  end.

(*@ tools/src/lib.rs project_tool_argument_value *)
Fixpoint project_tool_argument_value (value : json) (key : option string) (depth : nat) : json :=
  if is_some_and payload_argument_key key then omitted_argument_summary value
  else if (MAX_TOOL_ARGUMENT_DISPLAY_DEPTH <=? depth)%nat then omitted_argument_summary value
  else match value with
       | JObject m =>
           let entries := (fun '(k, v) => (k, project_tool_argument_value v (Some k) (S depth))) <$> m in
           JObject (add_arguments entries (insert_all (pick id PREFERRED_TOOL_ARGUMENT_KEYS entries) []))
       | JArray l =>
           let projected := take MAX_TOOL_ARGUMENT_DISPLAY_ITEMS
             ((fun v => project_tool_argument_value v None (S depth)) <$> l) in
           JArray (if (MAX_TOOL_ARGUMENT_DISPLAY_ITEMS <? length l)%nat
                   then projected ++ [additional_items (length l - MAX_TOOL_ARGUMENT_DISPLAY_ITEMS)]
                   else projected)
       | JString text => JString (bounded_argument_string text MAX_TOOL_ARGUMENT_DISPLAY_STRING_BYTES)
       | _ => value
       end.

(*@ tools/src/lib.rs compact_tool_argument_value *)
Definition compact_tool_argument_value (value : json) (key : option string) : json :=
  if is_some_and payload_argument_key key then omitted_argument_summary value
  else match value with
       | JString text => JString (bounded_argument_string text MAX_TOOL_ARGUMENT_COMPACT_STRING_BYTES)
       | JArray _ | JObject _ => omitted_argument_summary value
       | _ => value
       end.

(*@ tools/src/lib.rs compact_tool_argument_projection *)
Definition compact_tool_argument_projection (value : json) : json :=
  match value with
  | JObject m =>
      JObject (insert_all
        (omap (fun k => (fun v => (k, compact_tool_argument_value v (Some k))) <$> assoc k m)
           PREFERRED_TOOL_ARGUMENT_KEYS ++ [truncated_mark]) [])
  | _ => compact_tool_argument_value value None
  end.

(*@ tools/src/lib.rs redact_tool_arguments *)
Definition redact_tool_arguments (arguments : json) : json :=
  let redacted := redact_sensitive_value replace_all arguments in
  let projected := project_tool_argument_value redacted None 0 in
  if serialized_value_len projected <=? MAX_TOOL_ARGUMENT_DISPLAY_BYTES then projected
  else
    let compact := compact_tool_argument_projection redacted in
    if serialized_value_len compact <=? MAX_TOOL_ARGUMENT_DISPLAY_BYTES then compact
    else JObject [truncated_mark].
End Projection.

(** ** The projection is bounded *)

Lemma str_len_app a b : str_len (a +:+ b) = str_len a + str_len b.
Proof. unfold str_len. induction a as [|c a IH]; [done|]. rewrite str_app_cons. cbn [String.length]. lia. Qed.

Lemma char_count_take n s : char_count (take_chars n s) <= n.
Proof.
  unfold char_count, take_chars. rewrite (chars_of_sub _ s).
  - rewrite length_take. lia.
  - apply subseteq_take.
Qed.

Lemma assoc_insert_ne k k' v m : k <> k' -> assoc k (entries_insert k' v m) = assoc k m.
Proof.
  intros Hne. induction m as [|[k0 v0] m IH]; cbn [entries_insert assoc].
  - by rewrite bool_decide_eq_false_2.
  - case_bool_decide as E; [subst; cbn [assoc]; by rewrite !bool_decide_eq_false_2|].
    destruct (String.ltb k' k0); cbn [assoc]; [by rewrite (bool_decide_eq_false_2 (k = k'))|by rewrite IH].
Qed.

Lemma assoc_insert_eq k v m : assoc k (entries_insert k v m) = Some v.
Proof.
  induction m as [|[k0 v0] m IH]; cbn [entries_insert assoc]; [by rewrite bool_decide_eq_true_2|].
  case_bool_decide as E; cbn [assoc]; [by rewrite bool_decide_eq_true_2|].
  destruct (String.ltb k k0); cbn [assoc]; [by rewrite bool_decide_eq_true_2|by rewrite bool_decide_eq_false_2].
Qed.

Lemma assoc_remove_ne k k' m : k <> k' -> assoc k (entries_remove k' m) = assoc k m.
Proof.
  intros Hne. induction m as [|[k0 v0] m IH]; [done|]. unfold entries_remove in *. cbn [List.filter assoc].
  destruct (bool_decide (k0 = k')) eqn:E; cbn [negb assoc]; rewrite IH; [|done].
  apply bool_decide_eq_true in E as ->. by rewrite bool_decide_eq_false_2.
Qed.

(** The header of a result names the tool and the status of the call. *)
Definition names_call (tool_name : string) (status : ToolResultStatus) (m : list (string * json)) : Prop :=
  assoc "tool_name" m = Some (JString (bounded_text tool_name 128))
  /\ assoc "status" m = Some (JString (status_text status)).

Definition other_key (k : string) : Prop := k <> "tool_name" /\ k <> "status".

Lemma names_call_insert t s k v m : other_key k -> names_call t s m -> names_call t s (entries_insert k v m).
Proof. intros [? ?] [? ?]. split; by rewrite assoc_insert_ne. Qed.
Lemma names_remove t s k m : other_key k -> names_call t s m -> names_call t s (entries_remove k m).
Proof. intros [? ?] [? ?]. split; by rewrite assoc_remove_ne. Qed.
Lemma names_base t s : names_call t s (model_tool_result_base t s).
Proof. done. Qed.
Lemma names_shorten t s k n m : other_key k -> names_call t s m -> names_call t s (shorten k n m).
Proof. intros Hk Hm. unfold shorten. destruct (assoc k m) as [[]|]; try done. by apply names_call_insert. Qed.
#[local] Hint Resolve names_call_insert names_remove names_base names_shorten : core.
#[local] Hint Extern 1 (other_key _) => (split; discriminate) : core.

Section ProjectionProperties.
Context `{JsonTextLaws}.
Variable replace_all : string -> string -> string -> string.

Lemma base_text tool_name status :
  json_text (JObject (model_tool_result_base tool_name status))
  = "{" +:+ (json_text (JString "status") +:+ ":" +:+ json_text (JString (status_text status))) +:+ ","
    +:+ (json_text (JString "tool_name") +:+ ":" +:+ json_text (JString (bounded_text tool_name 128)))
    +:+ "}".
Proof.
  change (model_tool_result_base tool_name status)
    with [("status", JString (status_text status)); ("tool_name", JString (bounded_text tool_name 128))].
  rewrite text_object. cbn [fmap list_fmap]. rewrite join_cons by done. cbn [join]. by rewrite !str_app_assoc.
Qed.

(** The header with nothing but the name and the status always fits. *)
Lemma base_fits tool_name status :
  serialized_value_len (JObject (model_tool_result_base tool_name status)) <= MIN_MODEL_TOOL_RESULT_BYTES.
Proof.
  unfold serialized_value_len. rewrite base_text, !str_len_app.
  pose proof (text_string "status"). pose proof (text_string "tool_name").
  pose proof (text_string (status_text status)). pose proof (text_string (bounded_text tool_name 128)).
  pose proof (char_count_take 128 tool_name). fold (bounded_text tool_name 128) in *.
  assert (char_count (status_text status) <= 9) by (by destruct status).
  change (char_count "status") with 6 in *. change (char_count "tool_name") with 9 in *.
  change (str_len "{") with 1. change (str_len ":") with 1. change (str_len ",") with 1.
  change (str_len "}") with 1. unfold MIN_MODEL_TOOL_RESULT_BYTES. lia.
Qed.

(** The two tools that leave room for output have short names. *)
Lemma process_base_fits tool_name status : is_process tool_name = true ->
  serialized_value_len (JObject (model_tool_result_base tool_name status)) <= 512.
Proof.
  intros Hp. unfold is_process in Hp. apply bool_decide_eq_true in Hp.
  unfold serialized_value_len. rewrite base_text, !str_len_app.
  pose proof (text_string "status"). pose proof (text_string "tool_name").
  pose proof (text_string (status_text status)). pose proof (text_string (bounded_text tool_name 128)).
  assert (char_count (status_text status) <= 9) by (by destruct status).
  assert (char_count (bounded_text tool_name 128) <= 13) by (by set_unfold in Hp; destruct Hp as [->|[->|[]]]).
  change (char_count "status") with 6 in *. change (char_count "tool_name") with 9 in *.
  change (str_len "{") with 1. change (str_len ":") with 1. change (str_len ",") with 1.
  change (str_len "}") with 1. lia.
Qed.

Lemma names_compact_projection t s tool n m : names_call t s m -> names_call t s (compact_projection tool n m).
Proof.
  intros Hm. unfold compact_projection. destruct (n <? _); [|done].
  apply names_shorten; [auto|]. destruct (assoc "structured_facts" m); auto.
Qed.

Lemma names_drop_excerpt t s keep n m : names_call t s m -> names_call t s (drop_excerpt keep n m).
Proof. intros Hm. unfold drop_excerpt. destruct (n <? _); [|done]. destruct keep; auto. Qed.

(** Whatever the stages give up, what is left names the call and fits. *)
Definition fits (t : string) (s : ToolResultStatus) (n : N) (text : string) : Prop :=
  exists m, names_call t s m /\ text = json_text (JObject m) /\ str_len text <= n.

Lemma fits_text t s n m : names_call t s m -> (str_len (json_text (JObject m)) <=? n) = true ->
  fits t s n (json_text (JObject m)).
Proof. intros Hm Hn. Nbool. by exists m. Qed.

Lemma minimal_text_fits t s summary n facts keep :
  serialized_value_len (JObject (model_tool_result_base t s)) <= n ->
  fits t s n (minimal_text t s summary n facts keep).
Proof.
  intros Hb. unfold minimal_text. set (m1 := match model_output_truncation_key t with Some _ => _ | None => _ end).
  assert (H1 : names_call t s m1).
  { unfold m1. destruct (model_output_truncation_key t); [|auto]. destruct (json_is_true _); auto. }
  set (m2 := if keep then _ else _). assert (H2 : names_call t s m2) by (unfold m2; destruct keep; auto).
  destruct (str_len (json_text (JObject m2)) <=? n) eqn:E; [by apply fits_text|].
  exists (model_tool_result_base t s). by split_and!.
Qed.

Lemma serialize_fits m t s summary n : names_call t s m ->
  serialized_value_len (JObject (model_tool_result_base t s)) <= n ->
  fits t s n (serialize_model_tool_projection m t s summary n).
Proof.
  intros Hm Hb. unfold serialize_model_tool_projection.
  set (keep := model_tool_summary_is_required t s). set (facts := default JNull _).
  set (m1 := drop_excerpt _ _ _).
  assert (H1 : names_call t s m1) by (by apply names_drop_excerpt, names_compact_projection).
  unfold serialized_value_len. destruct (_ <=? n) eqn:E1; [by apply fits_text|].
  set (m2 := if keep then _ else _).
  assert (H2 : names_call t s m2) by (unfold m2; destruct keep; auto).
  destruct (str_len (json_text (JObject m2)) <=? n) eqn:E2; [by apply fits_text|].
  set (m3 := if keep then _ else _). assert (H3 : names_call t s m3) by (unfold m3; destruct keep; auto).
  destruct (str_len (json_text (JObject m3)) <=? n) eqn:E3; [by apply fits_text|].
  by apply minimal_text_fits.
Qed.

(** The output below the header: nothing, or the separator and a part of the excerpt. *)
Definition output_part (excerpt : option string) (tail : string) : Prop :=
  tail = "" \/ exists e k, excerpt = Some e /\ tail = MODEL_OUTPUT_SEPARATOR +:+ bounded_text_bytes e k.

Lemma append_fits header excerpt n : n <= MAX_MODEL_TOOL_RESULT_BYTES -> str_len header <= n ->
  exists tail, append_model_visible_excerpt header excerpt n = header +:+ tail
    /\ output_part excerpt tail /\ str_len (header +:+ tail) <= n.
Proof.
  intros Hn Hh. assert (Hmax : MAX_MODEL_TOOL_RESULT_BYTES < usize_max) by (by vm_compute).
  unfold append_model_visible_excerpt. revert Hn Hmax. generalize MAX_MODEL_TOOL_RESULT_BYTES, usize_max. intros bound max Hn Hmax.
  assert (Hnil : exists tail, header = header +:+ tail /\ output_part excerpt tail /\ str_len (header +:+ tail) <= n).
  { exists "". rewrite str_app_nil_r. split_and!; [done|by left|done]. }
  destruct excerpt as [[|a e]|]; [done| |done].
  set (text := String a e). set (available := n - _). destruct (available =? 0) eqn:Ea; [done|]. Nbool.
  eexists. split; [done|]. split; [right; by exists text, available|].
  pose proof (bounded_text_bytes_len text available). rewrite !str_len_app.
  unfold available, sat_add in *. lia.
Qed.

Lemma projection_names t s summary facts ks ke e : names_call t s (projection_of t s summary facts ks ke e).
Proof.
  unfold projection_of. set (m := if ks then _ else _).
  assert (names_call t s m) by (unfold m; destruct ks; auto).
  destruct e as [e|]; [|done]. destruct (ke && is_nonempty e); auto.
Qed.

Lemma mark_cut_names t s tool key raw m : names_call t s m -> names_call t s (mark_cut tool key raw m).
Proof. unfold mark_cut. auto. Qed.

Lemma header_room tool status (inline : option string) n : MIN_MODEL_TOOL_RESULT_BYTES <= n ->
  serialized_value_len (JObject (model_tool_result_base tool status))
  <= match inline with
     | Some _ => if is_process tool then n - (str_len MODEL_OUTPUT_SEPARATOR + 256) else n
     | None => n
     end <= n.
Proof.
  intros Hn. pose proof (base_fits tool status) as Hb.
  destruct inline; [|lia]. destruct (is_process tool) eqn:Ep; [|lia].
  pose proof (process_base_fits tool status Ep). change (str_len MODEL_OUTPUT_SEPARATOR) with 16.
  unfold MIN_MODEL_TOOL_RESULT_BYTES in *. lia.
Qed.

(** A rendered result: a header that names the call, and then part of the output. *)
Lemma render_fits tool status raw summary facts excerpt n :
  MIN_MODEL_TOOL_RESULT_BYTES <= n <= MAX_MODEL_TOOL_RESULT_BYTES ->
  exists m tail, names_call tool status m
    /\ render_result tool status raw summary facts excerpt n = json_text (JObject m) +:+ tail
    /\ output_part (kept_excerpt (kept_of tool status summary facts excerpt)) tail
    /\ str_len (json_text (JObject m) +:+ tail) <= n.
Proof.
  intros [Hmin Hmax]. unfold render_result. set (kept := kept_of _ _ _ _ _). set (pruned := prune_redundant_success_facts _ _ _).
  set (inline := keep_excerpt kept && _). set (inline_excerpt := if inline then kept_excerpt kept else None).
  set (proj := projection_of _ _ _ _ _ _ _).
  pose proof (header_room tool status inline_excerpt n Hmin) as [Hroom Hle].
  set (budget := match inline_excerpt with Some _ => _ | None => n end) in *.
  assert (Hproj : names_call tool status proj) by apply projection_names.
  set (header := match inline_excerpt, _ with Some _, Some _ => _ | _, _ => _ end).
  assert (Hh : fits tool status budget header).
  { unfold header. pose proof (serialize_fits proj tool status summary budget Hproj Hroom) as Hs.
    destruct inline_excerpt as [e|]; [|done]. destruct (model_output_truncation_key tool) as [key|]; [|done].
    destruct (is_nonempty e && _); [|done]. by apply serialize_fits; [apply mark_cut_names|]. }
  clearbody header. destruct Hh as (m & Hm & -> & Hlen).
  destruct (append_fits (json_text (JObject m)) inline_excerpt n Hmax ltac:(lia)) as (tail & Ht & Hp & Hl).
  exists m, tail. split_and!; [done..| |done]. unfold inline_excerpt in Hp. destruct inline; [done|].
  destruct Hp as [->|(? & ? & ? & ?)]; [by left|done].
Qed.
End ProjectionProperties.

(** ** The guarantees *)

(** A compact printer of JSON, with its laws. *)
Definition hex_digit (n : N) : Ascii.ascii := byte (if n <? 10 then 48 + n else 87 + n).
Definition escape (c : N) : string :=
  if c <? 32 then "\u00" +:+ String (hex_digit (c / 16)) (String (hex_digit (c mod 16)) "")
  else if (c =? 34) || (c =? 92) then String (byte 92) (String (byte c) "")
  else encode_char c.
Definition plain_string (s : string) : string :=
  dquote +:+ foldr (fun c acc => escape c +:+ acc) "" (chars s) +:+ dquote.
Fixpoint plain_text (v : json) : string :=
  match v with
  | JNull => "null"
  | JBool b => if b then "true" else "false"
  | JInt z => pretty z
  | JFloat bits => show bits
  | JString s => plain_string s
  | JArray l => "[" +:+ join "," (plain_text <$> l) +:+ "]"
  | JObject m => "{" +:+ join "," ((fun '(k, x) => plain_string k +:+ ":" +:+ plain_text x) <$> m) +:+ "}"
  end.
#[export] Instance plain_json : JsonText := plain_text.

Lemma escape_len c : str_len (escape c) <= 6.
Proof.
  unfold escape. destruct (c <? 32); [done|]. destruct (_ || _); [done|]. unfold encode_char.
  destruct (c <? 128); [done|]. destruct (c <? 2048); [done|]. by destruct (c <? 65536).
Qed.

#[export] Instance plain_json_laws : JsonTextLaws.
Proof.
  split; [done| |done]. intros s. change (json_text (JString s)) with (plain_string s).
  unfold plain_string, char_count. rewrite !str_len_app. change (str_len dquote) with 1.
  enough (str_len (foldr (fun c acc => escape c +:+ acc) "" (chars s)) <= 6 * N.of_nat (length (chars s))) by lia.
  induction (chars s) as [|c l IH]; [done|]. cbn [foldr length]. rewrite str_len_app.
  pose proof (escape_len c). lia.
Qed.

(** The model is never shown more of a tool call than the budget. Whatever a
    tool returned and whatever limit is asked for, the text has at most that many bytes,
    the limit taken into the range from 1 KiB to 16 KiB; it is a JSON object that names the
    tool and the status of the call, followed by nothing or by a part of the output cut at
    a character boundary. *)
Theorem model_result_is_bounded `{JsonTextLaws} replace_all e n :
  let text := model_visible_tool_result_with_limit replace_all e n in
  str_len text <= clamp MIN_MODEL_TOOL_RESULT_BYTES MAX_MODEL_TOOL_RESULT_BYTES n /\
  exists m tail, names_call (env_tool_name e) (env_status e) m /\ text = json_text (JObject m) +:+ tail /\
    (tail = "" \/ exists output k, tail = MODEL_OUTPUT_SEPARATOR +:+ bounded_text_bytes output k).
Proof.
  intros text. unfold text, model_visible_tool_result_with_limit.
  edestruct render_fits as (m & tail & Hm & Ht & Hp & Hl);
    [by apply (clamp_bounds MIN_MODEL_TOOL_RESULT_BYTES MAX_MODEL_TOOL_RESULT_BYTES)|].
  rewrite Ht. split; [done|]. exists m, tail. split_and!; [done..|].
  destruct Hp as [->|(output & k & _ & ->)]; [by left|eauto].
Qed.

Definition no_redaction (pattern replacement text : string) : string := text.
Definition sample_envelope (tool : string) (facts : json) (output : string) : ToolResultEnvelope :=
  mkToolResultEnvelope 1 tool ToolResultStatus.Ok "done" facts (Some output) None [] "p0_local_tool" None.

Lemma model_result_is_bounded_witness :
  str_len (model_visible_tool_result no_redaction
    (sample_envelope "shell" (json_obj [("exit_code", JInt 0)]) "ok")) <= 8192.
Proof.
  exact (proj1 (@model_result_is_bounded plain_json plain_json_laws no_redaction
    (sample_envelope "shell" (json_obj [("exit_code", JInt 0)]) "ok") DEFAULT_MODEL_TOOL_RESULT_BYTES)).
Defined.

(** The facts of an envelope replaced. *)
Definition with_facts (e : ToolResultEnvelope) (facts : json) : ToolResultEnvelope :=
  mkToolResultEnvelope (env_tool_call_id e) (env_tool_name e) (env_status e) (env_summary e) facts
    (model_visible_excerpt e) (raw_artifact_ref e) (env_evidence_refs e) (env_risk e) (verification_hint e).

Lemma assoc_set_other k k' path x m : k <> k' ->
  json_get (set_at (StepKey k' :: path) x (JObject m)) k = json_get (JObject m) k.
Proof.
  intros Hne. cbn [set_at json_get].
  rewrite (assoc_fmap (fun k0 y => if bool_decide (k0 = k') then set_at path x y else y)).
  rewrite bool_decide_eq_false_2 by done. by destruct (assoc k m).
Qed.

Lemma raw_fact_kept facts path k x : head path <> Some (StepKey k) -> path <> [] ->
  json_get (set_at path x facts) k = json_get facts k.
Proof.
  destruct path as [|[k'|i] path]; [done| |]; intros Hh _.
  - destruct facts as [| | | | | |m]; try done. apply assoc_set_other. intros ->. by apply Hh.
  - by destruct facts.
Qed.

(** A replaced value below a key is no number before or after. *)
Lemma below_is_no_number facts k st path x :
  json_get (set_at (StepKey k :: st :: path) x facts) k ≫= as_u64 = json_get facts k ≫= as_u64.
Proof.
  destruct facts as [| | | | | |m]; try done. cbn [set_at json_get].
  rewrite (assoc_fmap (fun k0 y => if bool_decide (k0 = k) then set_at (st :: path) x y else y)).
  destruct (assoc k m) as [y|]; [|done]. cbn [fmap option_fmap option_map mbind option_bind].
  rewrite bool_decide_eq_true_2 by done. by destruct st, y.
Qed.

(** C37 (safety): a secret value in the facts of a call never reaches the model. Replacing
    what is stored behind a key such as [api_key] or [access_token], at any depth of the
    facts and by anything, does not change one byte of what the model is shown; the place
    must not be inside [process_id], the one fact that is shown as it is. *)
Theorem secret_facts_do_not_reach_model `{JsonText} replace_all e n public k rest x :
  existsb step_is_secret public = false -> sensitive_json_key k = true ->
  head public <> Some (StepKey "process_id") ->
  model_visible_tool_result_with_limit replace_all
    (with_facts e (set_at (public ++ StepKey k :: rest) x (structured_facts e))) n
  = model_visible_tool_result_with_limit replace_all e n.
Proof.
  intros Hp Hk Hh. unfold model_visible_tool_result_with_limit, with_facts.
  cbn [env_tool_name env_status structured_facts env_summary model_visible_excerpt].
  rewrite redacted_set_at by done. set (facts := structured_facts e).
  set (path := public ++ StepKey k :: rest).
  assert (Hid : json_get (set_at path x facts) "process_id" = json_get facts "process_id").
  { apply raw_fact_kept; unfold path; [|by destruct public].
    destruct public as [|st public]; [|done]. intros [= ->]. done. }
  assert (Hcur : json_get (set_at path x facts) "output_start_cursor" ≫= as_u64
                 = json_get facts "output_start_cursor" ≫= as_u64).
  { destruct (decide (head path = Some (StepKey "output_start_cursor"))) as [E|E].
    - unfold path in *. destruct public as [|st public]; [injection E as ->; done|].
      injection E as ->. destruct public; apply below_is_no_number.
    - rewrite raw_fact_kept; [done..|]. unfold path. by destruct public. }
  assert (Hcut : forall t key m, mark_cut t key (set_at path x facts) m = mark_cut t key facts m)
    by (intros; unfold mark_cut; by rewrite Hid, Hcur).
  unfold render_result. cbv zeta.
  destruct (if keep_excerpt _ && _ then kept_excerpt _ else None) as [?|]; [|done].
  destruct (model_output_truncation_key _); [|done]. by rewrite Hcut.
Qed.

Lemma secret_facts_do_not_reach_model_witness :
  let facts token := JObject [("exit_code", JInt 0); ("login", JObject [("access_token", JString token)])] in
  model_visible_tool_result no_redaction (sample_envelope "remote" (facts "hunter2") "ok")
  = model_visible_tool_result no_redaction (sample_envelope "remote" (facts "") "ok").
Proof.
  intros facts.
  exact (secret_facts_do_not_reach_model no_redaction (sample_envelope "remote" (facts "") "ok")
    DEFAULT_MODEL_TOOL_RESULT_BYTES [StepKey "login"] "access_token" [] (JString "hunter2")
    eq_refl eq_refl ltac:(discriminate)).
Defined.

(** The arguments of a call are shown in at most 8 KiB. *)
Lemma shown_arguments_are_bounded `{JsonTextLaws} replace_all arguments :
  serialized_value_len (redact_tool_arguments replace_all arguments) <= MAX_TOOL_ARGUMENT_DISPLAY_BYTES.
Proof.
  unfold redact_tool_arguments.
  destruct (serialized_value_len (project_tool_argument_value _ _ _) <=? _) eqn:E1; Nbool; [done|].
  destruct (serialized_value_len (compact_tool_argument_projection _) <=? _) eqn:E2; Nbool; [done|].
  clear E1 E2. unfold serialized_value_len, truncated_mark. rewrite text_object. cbn [fmap list_fmap join].
  rewrite text_bool, !str_len_app. pose proof (text_string "_golutra_truncated") as Ht.
  change (char_count "_golutra_truncated") with 18 in Ht. change (str_len "{") with 1.
  change (str_len ":") with 1. change (str_len "true") with 4. change (str_len "}") with 1.
  unfold MAX_TOOL_ARGUMENT_DISPLAY_BYTES. lia.
Qed.
