(* ===== verification/FileEdits.v ===== *)
(** * Edits and read windows

    The text side of the file tools of [golutra-agent-tools/src/lib.rs]: the batched exact
    replacements of [edit_file] ([parse_file_edits], [apply_file_edits]) and the line
    windows of [read_file] ([read_offset], [read_limit], [select_read_window]). A slice
    that is out of order, out of range or not on a character boundary is a panic. *)
From S2P Require Import Prelude RustStr Utf8 Core ModelPatch PatchTool ToolReport.
Open Scope N_scope.

(** ** Searching and slicing *)

(** [s.find(p)], the byte offset of the first occurrence. *)
Fixpoint find_at (p s : string) : option nat :=
  if starts_with p s then Some O
  else match s with EmptyString => None | String _ s' => S <$> find_at p s' end.

Fixpoint byte_drop (n : nat) (s : string) : string :=
  match n, s with
  | S n', String _ s' => byte_drop n' s'
  | _, _ => s
  end.

(** [s.match_indices(p)] past its first match at [i]: the search goes on behind the
    match; behind an empty match it goes on one character later. *)
Definition occurs_again (p s : string) (i : nat) : bool :=
  match p with
  | EmptyString => negb (bool_decide (s = ""))
  | _ => str_contains p (byte_drop (i + String.length p) s)
  end.

(** [&s\[a..b\]]; [None] is the panic. *)
Definition slice (s : string) (a b : nat) : option string :=
  if (a <=? b)%nat && (b <=? String.length s)%nat && is_char_boundary s a && is_char_boundary s b
  then Some (byte_prefix (b - a) (byte_drop a s)) else None.

(** ** The edits of a request *)

(*@ tools/src/lib.rs MAX_FILE_EDITS *)
Definition MAX_FILE_EDITS : N := 128.
(*@ tools/src/lib.rs:32-33 MAX_FILE_CONTENT_BYTES *)
Definition MAX_FILE_CONTENT_BYTES : N := 16 * 1024 * 1024.

(*@ tools/src/lib.rs FileEdit *)
Record FileEdit := mkFileEdit {
  old_text : string;
  new_text : string;
}.
#[global] Instance FileEdit_eq_dec : EqDecision FileEdit.
Proof. solve_decision. Defined.

(*@ tools/src/lib.rs EditFailure *)
Record EditFailure := mkEditFailure {
  ef_summary : string;
  ef_edit_index : nat;
  ef_search_found : bool;
  ef_overlap : bool;
}.

Definition edit_slot (index : nat) : string := "edits[" +:+ show (N.of_nat index) +:+ "]".

(*@ tools/src/lib.rs:3886-3918 parse_file_edits *)
Definition parse_file_edit (index : nat) (edit : json) : result ToolError FileEdit :=
  let missing_old := InvalidArguments (edit_slot index +:+ ".old_text must be a non-empty string") in
  let? old := ok_or missing_old (json_get edit "old_text" ≫= as_str) in
  if bool_decide (old = "") then Err missing_old
  else
    let? new := ok_or (InvalidArguments (edit_slot index +:+ ".new_text must be a string"))
                  (json_get edit "new_text" ≫= as_str) in
    if (MAX_FILE_CONTENT_BYTES <? str_len old) || (MAX_FILE_CONTENT_BYTES <? str_len new) then
      Err (InvalidArguments (edit_slot index +:+ " exceeds the file content limit"))
    else Ok (mkFileEdit old new).

Fixpoint parse_edit_list (index : nat) (edits : list json) : result ToolError (list FileEdit) :=
  match edits with
  | [] => Ok []
  | edit :: edits =>
      let? e := parse_file_edit index edit in
      let? es := parse_edit_list (S index) edits in
      Ok (e :: es)
  end.

(*@ tools/src/lib.rs parse_file_edits *)
Definition parse_file_edits (arguments : json) : result ToolError (list FileEdit) :=
  let? edits := ok_or (InvalidArguments "edits must be a non-empty array")
                  (json_get arguments "edits" ≫= as_array) in
  if bool_decide (edits = []) || (MAX_FILE_EDITS <? N.of_nat (length edits)) then
    Err (InvalidArguments ("edits must contain between 1 and " +:+ show MAX_FILE_EDITS
                           +:+ " replacements"))
  else parse_edit_list 0 edits.

(** ** Applying them *)

(** How [apply_file_edits] does not return a text. *)
Inductive EditFault := EditFailed (failure : EditFailure) | EditPanicked.

(** A match: where it starts, where it ends, and the edit it belongs to. *)
Definition Match : Type := nat * nat * nat.

(*@ tools/src/lib.rs:3923-3943 apply_file_edits *)
Fixpoint locate_edits (original : string) (index : nat) (edits : list FileEdit)
    : result EditFault (list Match) :=
  match edits with
  | [] => Ok []
  | edit :: edits =>
      match find_at (old_text edit) original with
      | None =>
          Err (EditFailed (mkEditFailure ("edit target not found at " +:+ edit_slot index)
                             index false false))
      | Some start =>
          if occurs_again (old_text edit) original start then
            Err (EditFailed (mkEditFailure ("edit target is not unique at " +:+ edit_slot index)
                               index true false))
          else
            let? matches := locate_edits original (S index) edits in
            Ok ((start, (start + String.length (old_text edit))%nat, index) :: matches)
      end
  end.

(** [matches.sort_by_key(|(start, _, _)| *start)], a stable sort. *)
Definition match_start (m : Match) : nat := fst (fst m).
Fixpoint insert_match (m : Match) (l : list Match) : list Match :=
  match l with
  | [] => [m]
  | n :: l' => if (match_start m <=? match_start n)%nat then m :: l else n :: insert_match m l'
  end.
Definition sort_matches (l : list Match) : list Match := foldr insert_match [] l.

(** The loop over [matches.windows(2)]: the edit of the second of two that overlap. *)
(*@ tools/src/lib.rs:3946-3955 apply_file_edits *)
Fixpoint first_overlap (l : list Match) : option nat :=
  match l with
  | (_, stop, _) :: ((start, _, index) :: _) as l' =>
      if (start <? stop)%nat then Some index else first_overlap l'
  | _ => None
  end.

(*@ tools/src/lib.rs:3957-3964 apply_file_edits *)
Fixpoint splice (original : string) (edits : list FileEdit) (cursor : nat) (l : list Match)
    (output : string) : option string :=
  match l with
  | [] => rest ← slice original cursor (String.length original); Some (output +:+ rest)
  | (start, stop, index) :: l' =>
      gap ← slice original cursor start;
      edit ← edits !! index;
      splice original edits stop l' (output +:+ gap +:+ new_text edit)
  end.

(*@ tools/src/lib.rs apply_file_edits *)
Definition apply_file_edits (original : string) (edits : list FileEdit)
    : result EditFault (string * nat) :=
  let? matches := locate_edits original 0 edits in
  let matches := sort_matches matches in
  match first_overlap matches with
  | Some index =>
      Err (EditFailed (mkEditFailure "file edits overlap; merge the affected text into one edit"
                         index true true))
  | None =>
      let? output := ok_or EditPanicked (splice original edits 0 matches "") in
      Ok (output, length edits)
  end.

(** ** Read windows *)

(*@ tools/src/lib.rs DEFAULT_READ_MAX_LINES *)
Definition DEFAULT_READ_MAX_LINES : N := 200.
(*@ tools/src/lib.rs MAX_READ_LINES *)
Definition MAX_READ_LINES : N := 2000.

(*@ tools/src/lib.rs read_offset *)
Definition read_offset (arguments : json) : N :=
  default 1 (option_filter (N.ltb 0) (json_get arguments "offset" ≫= as_u64)).

(*@ tools/src/lib.rs read_limit *)
Definition read_limit (arguments : json) : N :=
  clamp 1 MAX_READ_LINES (default DEFAULT_READ_MAX_LINES (json_get arguments "limit" ≫= as_u64)).

(*@ tools/src/lib.rs ReadWindow *)
Record ReadWindow := mkReadWindow {
  rw_content : string;
  rw_lines : N;
  rw_next_offset : N;
  rw_has_more : bool;
}.

Definition newline_count (s : string) : N :=
  N.of_nat (length (List.filter (fun a => Ascii.eqb a newline) (String.list_ascii_of_string s))).

(*@ tools/src/lib.rs output_line_count *)
Definition output_line_count (output : string) : N :=
  if bool_decide (output = "") then 0
  else sat_add u64_max (N.min u64_max (newline_count output))
         (if ends_with (String newline "") output then 0 else 1).

(** [content.split_inclusive('\n')]. *)
Fixpoint split_inclusive (s : string) : list string :=
  match s with
  | EmptyString => []
  | String a s' =>
      if Ascii.eqb a newline then String a "" :: split_inclusive s'
      else match split_inclusive s' with
           | [] => [String a ""]
           | line :: lines => String a line :: lines
           end
  end.

(** The loop: [index] counts the lines seen, [selected] is the text taken so far. *)
(*@ tools/src/lib.rs:3840-3849 select_read_window *)
Fixpoint select_lines (start stop index : N) (lines : list string) (selected : string) (taken : N)
    : string * N :=
  match lines with
  | [] => (selected, taken)
  | line :: lines =>
      if index <? start then select_lines start stop (index + 1) lines selected taken
      else if stop <=? index then (selected, taken)
      else select_lines start stop (index + 1) lines (selected +:+ line) (sat_add usize_max taken 1)
  end.

(*@ tools/src/lib.rs select_read_window *)
Definition select_read_window (content : string) (offset limit total_lines : N) : ReadWindow :=
  if bool_decide (content = "") then mkReadWindow "" 0 offset false
  else
    let start := offset - 1 in
    let stop := N.min (sat_add usize_max start limit) total_lines in
    let '(selected, taken) := select_lines start stop 0 (split_inclusive content) "" 0 in
    mkReadWindow selected taken (sat_add usize_max stop 1) (stop <? total_lines).

(** ** Texts as pieces *)

Lemma byte_prefix_app a b : byte_prefix (String.length a) (a +:+ b) = a.
Proof. induction a as [|x a IH]; simpl; [by destruct b|]. by rewrite IH. Qed.

Lemma byte_drop_app a b : byte_drop (String.length a) (a +:+ b) = b.
Proof. induction a as [|x a IH]; simpl; [by destruct b|done]. Qed.

Lemma find_at_Some p s i :
  find_at p s = Some i -> exists a b, s = a +:+ p +:+ b /\ String.length a = i.
Proof.
  revert i. induction s as [|x s IH]; intros i; cbn [find_at];
    match goal with |- context [starts_with p ?t] => destruct (starts_with p t) eqn:Hp end.
  - intros [= <-]. destruct (starts_with_split _ _ Hp) as [t ->]. by exists "", t.
  - done.
  - intros [= <-]. destruct (starts_with_split _ _ Hp) as [t ->]. by exists "", t.
  - destruct (find_at p s) as [j|] eqn:Hj; [|done]. intros [= <-].
    destruct (IH j eq_refl) as (a & b & -> & <-). by exists (String x a), b.
Qed.

Lemma find_at_None p s : find_at p s = None <-> str_contains p s = false.
Proof.
  induction s as [|x s IH]; cbn [find_at str_contains];
    match goal with |- context [starts_with p ?t] => destruct (starts_with p t) end; try done.
  rewrite orb_false_l, <- IH. by destruct (find_at p s).
Qed.

Lemma boundary_at_cut a b : is_char_boundary (a +:+ b) (String.length a) = true <-> a = "" \/ begins_char b = true.
Proof.
  assert (forall a, String.get (String.length a) (a +:+ b) = String.get 0 b) as Hget.
  { clear. induction a as [|x a IH]; [done|]. by rewrite str_app_cons. }
  destruct a as [|x a]; [naive_solver|]. unfold is_char_boundary.
  pose proof (Hget (String x a)) as Hg. cbn [String.length] in Hg |- *. rewrite Hg.
  destruct b as [|y b]; simpl.
  - rewrite str_length_app, bool_decide_eq_true. simpl. naive_solver lia.
  - unfold is_continuation. naive_solver.
Qed.

(** ** The shape of an edited text *)

(** [g0 t0 g1 t1 .. gn]: texts set into gaps. *)
Fixpoint weave (gaps texts : list string) : string :=
  match gaps, texts with
  | g :: gaps, t :: texts => g +:+ t +:+ weave gaps texts
  | g :: _, [] => g
  | [], _ => ""
  end.

(** Where the texts lie in [weave], counted from [cursor]; each edit comes with its index. *)
Fixpoint place (cursor : nat) (gaps : list string) (l : list (nat * FileEdit)) : list Match :=
  match gaps, l with
  | g :: gaps, (index, e) :: l =>
      let start := (cursor + String.length g)%nat in
      let stop := (start + String.length (old_text e))%nat in
      (start, stop, index) :: place stop gaps l
  | _, _ => []
  end.

Abbreviation olds l := (old_text <$> (snd <$> l)).
Abbreviation news l := (new_text <$> (snd <$> l)).

(** What [match_indices] finds: one match and none behind it. *)
Definition single_match (original : string) (p : string) (start : nat) : Prop :=
  find_at p original = Some start /\ occurs_again p original start = false.

(** The edits of a request: texts, and targets that are not empty. *)
Definition edit_ok (e : FileEdit) : Prop :=
  old_text e <> "" /\ valid_utf8 (old_text e) = true /\ valid_utf8 (new_text e) = true.

Definition located (original : string) (x : nat * FileEdit) (m : Match) : Prop :=
  exists start, single_match original (old_text (snd x)) start /\
    m = (start, (start + String.length (old_text (snd x)))%nat, fst x).

Lemma locate_edits_spec original k edits :
  (forall ms, locate_edits original k edits = Ok ms ->
     Forall2 (located original) (zip (seq k (length edits)) edits) ms) /\
  (Forall (fun e => exists start, single_match original (old_text e) start) edits ->
     is_ok (locate_edits original k edits) = true).
Proof.
  revert k. induction edits as [|e edits IH]; intros k; simpl.
  { split; [by intros ms [= <-]|done]. }
  destruct (IH (S k)) as [IH1 IH2]. split.
  - destruct (find_at _ _) as [start|] eqn:Hf; [|done]. destruct (occurs_again _ _ _) eqn:Ho; [done|].
    destruct (locate_edits _ _ _) as [ms|]; [|done]. intros ? [= <-].
    constructor; [by exists start|by apply IH1].
  - intros [(start & Hf & Ho) Hr]%Forall_cons. rewrite Hf, Ho.
    specialize (IH2 Hr). by destruct (locate_edits _ _ _).
Qed.

(** ** The sort *)

Definition starts_le (m n : Match) : Prop := (match_start m <= match_start n)%nat.
#[local] Instance starts_le_trans : Transitive starts_le.
Proof. unfold starts_le. intros ???. lia. Qed.

Lemma insert_match_perm m l : insert_match m l ≡ₚ m :: l.
Proof. induction l as [|n l IH]; simpl; [done|]. case_match; [done|]. rewrite IH. apply perm_swap. Qed.

Lemma sort_matches_perm l : sort_matches l ≡ₚ l.
Proof. induction l as [|m l IH]; simpl; [done|]. by rewrite insert_match_perm, IH. Qed.

Lemma sort_matches_sorted l : StronglySorted starts_le (sort_matches l).
Proof.
  induction l as [|m l IH]; simpl; [constructor|].
  induction IH as [|n k Hk IHk Hn]; simpl; [repeat constructor|].
  destruct (Nat.leb_spec (match_start m) (match_start n)).
  - constructor; [by constructor|]. constructor; [done|].
    eapply Forall_impl; [exact Hn|]. intros x. unfold starts_le. lia.
  - constructor; [done|]. rewrite insert_match_perm. constructor; [unfold starts_le; lia|done].
Qed.

(** Matches that follow one another are already the sorted list. *)
Lemma sort_matches_unique l k :
  l ≡ₚ k -> StronglySorted (fun m n => match_start m < match_start n)%nat k -> sort_matches l = k.
Proof.
  intros Hp Hk. apply (StronglySorted_unique_strong starts_le).
  - intros m n Hm Hn H1 H2. rewrite sort_matches_perm, Hp in Hm.
    unfold starts_le in *. assert (match_start m = match_start n) as He by lia. clear -Hk Hm Hn He.
    induction Hk as [|x k Hk IH Hx]; [set_solver|]. rewrite Forall_forall in Hx.
    apply elem_of_cons in Hm as [->|Hm], Hn as [->|Hn]; auto; [specialize (Hx _ Hn)|specialize (Hx _ Hm)]; lia.
  - apply sort_matches_sorted.
  - clear Hp. induction Hk as [|x k Hk IH Hx]; [constructor|]. constructor; [done|]. eapply Forall_impl; [exact Hx|].
    intros y. unfold starts_le. simpl. lia.
  - by rewrite sort_matches_perm.
Qed.

(** ** Splicing *)

Lemma slice_piece a b c :
  (a = "" \/ begins_char (b +:+ c) = true) -> (a +:+ b = "" \/ begins_char c = true) ->
  slice (a +:+ b +:+ c) (String.length a) (String.length a + String.length b) = Some b.
Proof.
  intros Ha Hb. unfold slice. apply boundary_at_cut in Ha. apply boundary_at_cut in Hb.
  rewrite str_app_assoc, str_length_app in Hb. rewrite Ha, Hb, !str_length_app.
  rewrite (proj2 (Nat.leb_le _ _)) by lia. rewrite (proj2 (Nat.leb_le _ _)) by lia. simpl.
  rewrite byte_drop_app. replace (_ + _ - _)%nat with (String.length b) by lia.
  by rewrite byte_prefix_app.
Qed.

(** The loop over placed matches writes the new texts into the same gaps. *)
Lemma splice_place original edits gaps l : forall done output,
  length gaps = S (length l) ->
  original = done +:+ weave gaps (olds l) ->
  valid_utf8 (weave gaps (olds l)) = true ->
  Forall (fun x => edits !! fst x = Some (snd x) /\ edit_ok (snd x)) l ->
  splice original edits (String.length done) (place (String.length done) gaps l) output
  = Some (output +:+ weave gaps (news l)).
Proof.
  revert l. induction gaps as [|g gaps IH]; intros l dn output Hl Ho Hv He; [done|].
  destruct l as [|[index e] l]; cbn [weave place splice fmap list_fmap fst snd] in *.
  - pose proof (slice_piece dn g "") as Hs. rewrite str_app_nil_r, <- Ho in Hs.
    replace (String.length original) with (String.length dn + String.length g)%nat
      by (by rewrite Ho, str_length_app).
    rewrite Hs; [done|right; by apply valid_begins_char|by right].
  - apply Forall_cons in He as [[Hi (Hne & Hvo & Hvn)] He].
    cbn [snd] in Hne, Hvo, Hvn.
    pose proof (begins_char_app _ (weave gaps (olds l)) Hne Hvo) as Hb.
    destruct (valid_utf8_cut g _ Hv Hb) as [Hg Hr].
    rewrite valid_utf8_app in Hr by done.
    pose proof (slice_piece dn g (old_text e +:+ weave gaps (olds l))) as Hs.
    rewrite <- Ho in Hs.
    rewrite Hs; [simpl|right; by apply valid_begins_char|by right]. simpl in Hi. rewrite Hi. simpl.
    specialize (IH l (dn +:+ g +:+ old_text e) (output +:+ g +:+ new_text e)).
    rewrite !str_length_app, !Nat.add_assoc in IH. rewrite IH; [by rewrite !str_app_assoc|simpl in Hl; lia| |done|done].
    by rewrite Ho, !str_app_assoc.
Qed.

(** Matches that do not overlap lie in gaps of the text. *)
Lemma no_overlap_layout original l : forall ms dn rest,
  original = dn +:+ rest -> Forall2 (located original) l ms -> first_overlap ms = None ->
  Forall (fun m => (String.length dn <= match_start m)%nat) (option_list (head ms)) ->
  exists gaps, length gaps = S (length l) /\ rest = weave gaps (olds l) /\
    ms = place (String.length dn) gaps l.
Proof.
  induction l as [|[index e] l IH]; intros ms dn rest Ho Hf Hn Hh.
  { apply Forall2_nil_inv_l in Hf as ->. by exists [rest]. }
  apply Forall2_cons_inv_l in Hf as (m & ms' & (start & [Hf Hs] & ->) & Hr & ->). simpl in *.
  rewrite Forall_singleton in Hh. unfold match_start in Hh; simpl in Hh.
  destruct (find_at_Some _ _ _ Hf) as (a & b & Hab & Hla).
  pose proof Hab as Hab'. rewrite Ho in Hab'. symmetry in Hab'.
  destruct (str_app_split _ _ _ _ Hab' ltac:(lia)) as (g & -> & ->).
  destruct (IH ms' (dn +:+ g +:+ old_text e) b) as (gaps & Hlen & -> & Hms).
  - by rewrite Hab, !str_app_assoc.
  - done.
  - destruct ms' as [|[[start' stop'] index'] ms']; [done|]. by case_match.
  - destruct ms' as [|[[start' stop'] index'] ms']; [constructor|]. simpl. apply Forall_singleton.
    destruct (Nat.ltb_spec start' (start + String.length (old_text e))); [done|].
    unfold match_start; simpl. rewrite !str_length_app in *. lia.
  - exists (g :: gaps). rewrite !str_length_app in *. simpl. split_and!; [lia|done|].
    by rewrite Hms, Nat.add_assoc, Hla.
Qed.

Lemma zip_seq_lookup {A} (l : list A) x : x ∈ zip (seq 0 (length l)) l -> l !! fst x = Some (snd x).
Proof.
  destruct x as [j y]. intros (i & Hi)%list_elem_of_lookup. apply lookup_zip_Some in Hi as [Hi Hl].
  apply lookup_seq in Hi as [-> _]. by simpl in *.
Qed.

Lemma zip_seq_snd {A} (l : list A) : snd <$> zip (seq 0 (length l)) l = l.
Proof. apply snd_zip. rewrite length_seq. lia. Qed.

(** Edits with their indices, in the order of their matches. *)
Lemma indexed_ok edits l :
  Forall edit_ok edits -> zip (seq 0 (length edits)) edits ≡ₚ l ->
  Forall (fun x => edits !! fst x = Some (snd x) /\ edit_ok (snd x)) l.
Proof.
  intros He Hp. apply Forall_forall. intros x Hx. rewrite <- Hp in Hx. apply zip_seq_lookup in Hx.
  split; [done|]. rewrite Forall_forall in He. apply He. by eapply list_elem_of_lookup_2.
Qed.

(** The loop of [edit_file], once: what an accepted batch did to the text. *)
Lemma apply_file_edits_layout original edits :
  valid_utf8 original = true -> Forall edit_ok edits ->
  match apply_file_edits original edits with
  | Ok (edited, n) =>
      n = length edits /\
      (forall e, e ∈ edits -> exists start, single_match original (old_text e) start) /\
      exists order gaps, order ≡ₚ edits /\ length gaps = S (length order) /\
        original = weave gaps (old_text <$> order) /\ edited = weave gaps (new_text <$> order)
  | Err (EditFailed _) => True
  | Err EditPanicked => False
  end.
Proof.
  intros Hv He. unfold apply_file_edits.
  destruct (locate_edits original 0 edits) as [ms|f] eqn:Hms.
  2: { destruct f; [done|]. clear -Hms. revert Hms. generalize 0%nat as k.
       induction edits as [|e edits IH]; intros k; simpl; [done|].
       repeat case_match; intros ?; simplify_eq; by eapply IH. }
  apply locate_edits_spec in Hms. cbn [sum_rect].
  destruct (first_overlap (sort_matches ms)) as [i|] eqn:Hn; [done|].
  destruct (Permutation_Forall2 (l1 := ms) (l1' := sort_matches ms)
              (P := fun m x => located original x m) (l2 := zip (seq 0 (length edits)) edits))
    as (l & Hp & Hl); [by rewrite sort_matches_perm|by apply Forall2_flip|].
  apply Forall2_flip in Hl.
  destruct (no_overlap_layout original l (sort_matches ms) "" original) as (gaps & Hlen & Ho & Hs);
    [done|exact Hl|done|destruct (head _); repeat constructor; simpl; lia|].
  simpl in Hs. rewrite Hs. pose proof (splice_place original edits gaps l "" "") as Hsp. simpl in Hsp.
  rewrite Hsp; [|done|done|by rewrite <- Ho|by eapply indexed_ok]. simpl. split_and!; [done| |].
  - intros e (i & Hi)%list_elem_of_lookup.
    assert (zip (seq 0 (length edits)) edits !! i = Some (i, e)) as Hz.
    { apply lookup_zip_Some. split; [|done]. apply lookup_seq. split; [done|].
      by eapply lookup_lt_Some. }
    destruct (Forall2_lookup_l _ _ _ _ _ Hms Hz) as (m & _ & start & Hm & _). by exists start.
  - exists (snd <$> l), gaps. split_and!; [|by rewrite length_fmap|done|by rewrite str_app_nil].
    by rewrite <- Hp, zip_seq_snd.
Qed.

(** New texts keep a woven text valid. *)
Lemma weave_valid order : forall gaps,
  length gaps = S (length order) -> valid_utf8 (weave gaps (old_text <$> order)) = true ->
  Forall edit_ok order -> valid_utf8 (weave gaps (new_text <$> order)) = true.
Proof.
  induction order as [|e order IH]; intros [|g gaps] Hlen Hv He; simpl in *; try done.
  apply Forall_cons in He as [(Hne & Hvo & Hvn) He].
  destruct (valid_utf8_cut g _ Hv (begins_char_app _ _ Hne Hvo)) as [Hg Hr].
  rewrite valid_utf8_app in Hr by done. rewrite !valid_utf8_app by done. apply IH; [lia|done..].
Qed.

(** The text occurs at one place only, overlapping occurrences counted. *)
Definition occurs_once (s p : string) : Prop :=
  forall a b a' b', s = a +:+ p +:+ b -> s = a' +:+ p +:+ b' -> String.length a = String.length a'.

Lemma occurs_once_single s p a b :
  p <> "" -> occurs_once s p -> s = a +:+ p +:+ b -> single_match s p (String.length a).
Proof.
  intros Hp Hu Hs. split.
  - destruct (find_at p s) as [i|] eqn:Hf.
    + destruct (find_at_Some _ _ _ Hf) as (a' & b' & Hs' & <-). by rewrite (Hu _ _ _ _ Hs Hs').
    + apply find_at_None in Hf. rewrite Hs in Hf.
      by rewrite (str_contains_app_r p a _ (str_contains_here p b)) in Hf.
  - assert (str_contains p b = false) as Hb.
    { destruct (str_contains p b) eqn:Hc; [|done]. destruct (find_at p b) as [i|] eqn:Hf.
      2: { apply find_at_None in Hf. congruence. }
      destruct (find_at_Some _ _ _ Hf) as (a' & b' & -> & _).
      pose proof (Hu a (a' +:+ p +:+ b') (a +:+ p +:+ a') b' Hs) as Hl. rewrite !str_length_app in Hl.
      destruct p; [done|]. simpl in Hl.
      assert (s = (a +:+ String a0 p +:+ a') +:+ String a0 p +:+ b') as Hs2 by (by rewrite Hs, !str_app_assoc).
      specialize (Hl Hs2). lia. }
    unfold occurs_again. destruct p as [|x p]; [done|].
    rewrite Hs, <- str_length_app. rewrite <- str_app_assoc. by rewrite byte_drop_app.
Qed.

Lemma place_located original l : forall gaps dn,
  length gaps = S (length l) -> original = dn +:+ weave gaps (olds l) ->
  Forall (fun x => old_text (snd x) <> "" /\ occurs_once original (old_text (snd x))) l ->
  Forall2 (located original) l (place (String.length dn) gaps l).
Proof.
  induction l as [|[index e] l IH]; intros [|g gaps] dn Hl Ho Hu; simpl in *; try done.
  apply Forall_cons in Hu as [[Hne Hu] Hus]. simpl in *. constructor.
  - exists (String.length (dn +:+ g)). simpl. rewrite str_length_app. split; [|done].
    rewrite <- str_length_app. eapply occurs_once_single; [done..|]. by rewrite Ho, !str_app_assoc.
  - specialize (IH gaps (dn +:+ g +:+ old_text e)). rewrite !str_length_app, !Nat.add_assoc in IH.
    apply IH; [lia|by rewrite Ho, !str_app_assoc|done].
Qed.

Lemma place_from l : forall gaps c,
  Forall (fun x => old_text (snd x) <> "") l ->
  Forall (fun m => (c <= match_start m)%nat) (place c gaps l) /\
  StronglySorted (fun m n => match_start m < match_start n)%nat (place c gaps l) /\
  first_overlap (place c gaps l) = None.
Proof.
  induction l as [|[index e] l IH]; intros [|g gaps] c Hne; simpl;
    [split_and!; first [constructor|done]..|].
  apply Forall_cons in Hne as [Hn Hne]. simpl in Hn.
  assert (0 < String.length (old_text e))%nat by (destruct (old_text e); simpl; [done|lia]).
  destruct (IH gaps (c + String.length g + String.length (old_text e))%nat Hne) as (H1 & H2 & H3).
  split_and!.
  - constructor; [unfold match_start; simpl; lia|]. eapply Forall_impl; [exact H1|].
    intros m. simpl. lia.
  - constructor; [done|]. eapply Forall_impl; [exact H1|]. intros m. unfold match_start. simpl. lia.
  - destruct (place _ gaps l) as [|[[start stop] i] ms]; [done|].
    apply Forall_cons in H1 as [Hs _]. unfold match_start in Hs. simpl in Hs.
    by rewrite (proj2 (Nat.ltb_ge _ _)) by lia.
Qed.

Lemma located_functional original l : forall ms ms',
  Forall2 (located original) l ms -> Forall2 (located original) l ms' -> ms = ms'.
Proof.
  induction l as [|x l IH]; intros ms ms' H1 H2.
  - by apply Forall2_nil_inv_l in H1 as ->; apply Forall2_nil_inv_l in H2 as ->.
  - apply Forall2_cons_inv_l in H1 as (m & ms1 & (s1 & [Hf1 _] & ->) & Hr1 & ->).
    apply Forall2_cons_inv_l in H2 as (m' & ms2 & (s2 & [Hf2 _] & ->) & Hr2 & ->).
    rewrite Hf1 in Hf2. injection Hf2 as <-. by rewrite (IH _ _ Hr1 Hr2).
Qed.

(** A batch of edits that succeeds replaces its targets and nothing else: the
    original is the old texts of the edits, each edit once, set into gaps, the result is
    the new texts set into the same gaps, and each target is a single match. No batch on
    UTF-8 text panics on a slice, and the result is UTF-8 text again. *)
Theorem edits_replace_exactly_their_targets original edits :
  valid_utf8 original = true -> Forall edit_ok edits ->
  apply_file_edits original edits <> Err EditPanicked /\
  forall edited n, apply_file_edits original edits = Ok (edited, n) ->
    n = length edits /\ valid_utf8 edited = true /\
    (forall e, e ∈ edits -> exists start, single_match original (old_text e) start) /\
    exists order gaps, order ≡ₚ edits /\ length gaps = S (length order) /\
      original = weave gaps (old_text <$> order) /\ edited = weave gaps (new_text <$> order).
Proof.
  intros Hv He. pose proof (apply_file_edits_layout original edits Hv He) as Hl.
  destruct (apply_file_edits original edits) as [[edited n]|f]; [|by destruct f].
  split; [done|]. intros ? ? [= <- <-].
  destruct Hl as (Hn & Hu & order & gaps & Hp & Hlen & Ho & Hd).
  split_and!; [done| |done|by exists order, gaps]. rewrite Hd. rewrite Ho in Hv.
  apply weave_valid; [done|done|by rewrite Hp].
Qed.

(** When the targets of a batch are disjoint parts of the text and each
    occurs at no other place, the batch succeeds, in whatever order it lists them, with
    the new texts in their places. *)
Theorem disjoint_unique_edits_apply gaps order edits :
  let original := weave gaps (old_text <$> order) in
  length gaps = S (length order) -> order ≡ₚ edits -> valid_utf8 original = true ->
  Forall edit_ok edits -> Forall (fun e => occurs_once original (old_text e)) edits ->
  apply_file_edits original edits = Ok (weave gaps (new_text <$> order), length edits).
Proof.
  intros original Hlen Hp Hv He Hu.
  assert (order ≡ₚ map snd (zip (seq 0 (length edits)) edits)) as Hz.
  { change (order ≡ₚ snd <$> zip (seq 0 (length edits)) edits). by rewrite zip_seq_snd. }
  apply Permutation_map_inv in Hz as (l & -> & Hl).
  change (map snd l) with (snd <$> l) in *. rewrite length_fmap in Hlen.
  pose proof (indexed_ok edits l He Hl) as Hix.
  assert (Forall (fun x => old_text (snd x) <> "") l) as Hne.
  { eapply Forall_impl; [exact Hix|]. intros x [_ [Hx _]]. exact Hx. }
  assert (Forall2 (located original) l (place 0 gaps l)) as Hpl.
  { apply (place_located original l gaps ""); [done|by rewrite str_app_nil|].
    apply Forall_forall. intros x Hx. split; [by eapply Forall_forall in Hne|].
    rewrite Forall_forall in Hu. apply Hu. rewrite <- Hp. by apply list_elem_of_fmap_2. }
  unfold apply_file_edits.
  destruct (locate_edits original 0 edits) as [ms|f] eqn:Hms.
  2: { pose proof (proj2 (locate_edits_spec original 0 edits)) as Hok. rewrite Hms in Hok. simpl in Hok.
       enough (false = true) by done. apply Hok. apply Forall_forall. intros e Hel.
       rewrite <- Hp in Hel. apply list_elem_of_fmap in Hel as (x & -> & (i & Hx)%list_elem_of_lookup).
       destruct (Forall2_lookup_l _ _ _ _ _ Hpl Hx) as (m & _ & start & Hm & _). by exists start. }
  apply locate_edits_spec in Hms.
  destruct (Permutation_Forall2 Hl Hms) as (ms' & Hpm & Hms').
  rewrite (located_functional _ _ _ _ Hms' Hpl) in Hpm.
  destruct (place_from l gaps 0 Hne) as (_ & Hst & Hno).
  rewrite (sort_matches_unique ms (place 0 gaps l) Hpm Hst), Hno.
  pose proof (splice_place original edits gaps l "" "") as Hsp. simpl in Hsp.
  by rewrite Hsp.
Qed.

(** Two edits listed against their order in the text. *)
Definition sample_text : string := "let a = 1; let b = 2;".
Definition sample_edits : list FileEdit := [mkFileEdit "b = 2" "b = 3"; mkFileEdit "a = 1" "a = 10"].

Lemma edits_replace_exactly_witness :
  exists order gaps, order ≡ₚ sample_edits /\ length gaps = S (length order) /\
    sample_text = weave gaps (old_text <$> order) /\
    "let a = 10; let b = 3;" = weave gaps (new_text <$> order).
Proof.
  assert (valid_utf8 sample_text = true) as Hv by (by vm_compute).
  assert (Forall edit_ok sample_edits) as He by (repeat constructor; done).
  apply (proj2 (edits_replace_exactly_their_targets sample_text sample_edits Hv He)
           "let a = 10; let b = 3;" 2%nat); vm_compute; reflexivity.
Defined.

(** The first occurrence is no later than any. *)
Lemma find_at_first p a b i : find_at p (a +:+ p +:+ b) = Some i -> (i <= String.length a)%nat.
Proof.
  revert i. induction a as [|x a IH]; intros i.
  - rewrite str_app_nil. pose proof (starts_with_app p b) as Hp.
    destruct (p +:+ b); cbn [find_at]; rewrite Hp; intros [= <-]; simpl; lia.
  - rewrite str_app_cons. cbn [find_at]. destruct (starts_with _ _); [intros [= <-]; lia|].
    destruct (find_at p _) as [j|]; [|done]. intros [= <-]. simpl. specialize (IH j eq_refl). lia.
Qed.

Lemma str_cut a n : (n <= String.length a)%nat -> exists c d, a = c +:+ d /\ String.length c = n.
Proof.
  revert n. induction a as [|x a IH]; intros n Hl; simpl in Hl.
  { exists "", "". split; [done|]. simpl. lia. }
  destruct n as [|n]; [by exists "", (String x a)|].
  destruct (IH n ltac:(lia)) as (c & d & -> & Hc). exists (String x c), d.
  rewrite str_app_cons. split; [done|]. simpl. lia.
Qed.

(** No occurrence from the byte behind the first one on: the text occurs once. *)
Lemma occurs_once_check s p i :
  find_at p s = Some i -> find_at p (byte_drop (S i) s) = None -> occurs_once s p.
Proof.
  intros Hi Hn%find_at_None.
  assert (forall a b, s = a +:+ p +:+ b -> String.length a = i) as Hall.
  { intros a b ->. pose proof (find_at_first _ _ _ _ Hi).
    destruct (decide (String.length a = i)) as [|Hne]; [done|].
    destruct (str_cut a (S i) ltac:(lia)) as (c & d & -> & Hc).
    rewrite <- Hc, str_app_assoc, byte_drop_app in Hn.
    by rewrite (str_contains_app_r p d _ (str_contains_here p b)) in Hn. }
  intros a b a' b' H1 H2. by rewrite (Hall _ _ H1), (Hall _ _ H2).
Qed.

Lemma disjoint_unique_edits_apply_witness :
  apply_file_edits sample_text sample_edits = Ok ("let a = 10; let b = 3;", 2%nat).
Proof.
  assert (Forall edit_ok sample_edits) as He by (repeat constructor; done).
  apply (disjoint_unique_edits_apply ["let "; "; let "; ";"] (rev sample_edits) sample_edits);
    [done|apply perm_swap|by vm_compute|exact He|].
  constructor; [|constructor; [|constructor]];
    [apply (occurs_once_check _ _ 15)|apply (occurs_once_check _ _ 4)]; by vm_compute.
Defined.

(** A target that overlaps itself counts as a single match: [match_indices] goes on
    behind the first match. *)
Example self_overlapping_target_is_accepted :
  apply_file_edits "aaa" [mkFileEdit "aa" "b"] = Ok ("ba", 1%nat) /\ ~ occurs_once "aaa" "aa".
Proof.
  split; [by vm_compute|]. intros Hu.
  by specialize (Hu "" "a" "a" "" eq_refl eq_refl).
Qed.

(** ** Windows cover the file *)

Definition concat_lines (lines : list string) : string := foldr String.append "" lines.

Lemma concat_lines_cons x l : concat_lines (x :: l) = x +:+ concat_lines l.
Proof. done. Qed.

Lemma concat_lines_app l k : concat_lines (l ++ k) = concat_lines l +:+ concat_lines k.
Proof. induction l as [|x l IH]; simpl; [done|]. by rewrite IH, str_app_assoc. Qed.

Lemma split_inclusive_concat s : concat_lines (split_inclusive s) = s.
Proof.
  induction s as [|a s IH]; simpl; [done|]. case_match; simpl.
  - by rewrite IH, str_app_cons, str_app_nil.
  - destruct (split_inclusive s) as [|line lines]; simpl in *; [by rewrite str_app_nil_r, <- IH|].
    by rewrite str_app_cons, IH.
Qed.

Lemma ends_with_cons_newline a s :
  ends_with (String newline "") (String a s)
  = if bool_decide (s = "") then Ascii.eqb a newline else ends_with (String newline "") s.
Proof.
  destruct s as [|b s].
  - cbn [ends_with]. rewrite (bool_decide_true ("" = "")) by done.
    rewrite (bool_decide_false (String newline "" = "")), !orb_false_r by done.
    destruct (Ascii.eqb_spec a newline) as [->|Hne]; [by rewrite bool_decide_true|].
    rewrite bool_decide_false; [done|congruence].
  - rewrite (bool_decide_false (String b s = "")) by done.
    change (ends_with (String newline "") (String a (String b s)))
      with (bool_decide (String newline "" = String a (String b s)) || ends_with (String newline "") (String b s)).
    by rewrite bool_decide_false.
Qed.

Lemma split_inclusive_length s :
  N.of_nat (length (split_inclusive s))
  = newline_count s + (if bool_decide (s = "") || ends_with (String newline "") s then 0 else 1).
Proof.
  unfold newline_count. induction s as [|a s IH]; [done|].
  rewrite ends_with_cons_newline, (bool_decide_false (String a s = "")) by done.
  simpl. destruct (Ascii.eqb a newline) eqn:Ha; simpl.
  - case_bool_decide; simpl in *; lia.
  - destruct (split_inclusive s) as [|line lines] eqn:Hs; simpl in *.
    + assert (s = "") as ->. { rewrite <- (split_inclusive_concat s), Hs. done. } simpl. lia.
    + case_bool_decide as He; [subst; done|]. simpl in IH. lia.
Qed.

Lemma newline_count_le s : newline_count s <= str_len s.
Proof.
  unfold newline_count, str_len. induction s as [|a s IH]; simpl; [lia|].
  destruct (Ascii.eqb a newline); simpl; lia.
Qed.

Lemma output_line_count_exact s :
  str_len s <= MAX_FILE_CONTENT_BYTES ->
  output_line_count s = N.of_nat (length (split_inclusive s)) /\
  output_line_count s <= MAX_FILE_CONTENT_BYTES + 1.
Proof.
  intros Hl. pose proof (newline_count_le s). rewrite split_inclusive_length. unfold output_line_count.
  assert (MAX_FILE_CONTENT_BYTES + 1 < u64_max) as Hmax by (by vm_compute).
  revert Hl Hmax. generalize MAX_FILE_CONTENT_BYTES as m, u64_max as u. intros m u Hl Hmax.
  case_bool_decide as He; [subst; split; [done|lia]|]. rewrite orb_false_l.
  rewrite N.min_r by lia. destruct (ends_with _ s); rewrite sat_add_exact; lia.
Qed.

Lemma select_lines_spec start stop lines : forall index selected taken,
  taken + N.of_nat (length lines) <= usize_max ->
  let piece := take (N.to_nat (stop - N.max index start)) (drop (N.to_nat (start - index)) lines) in
  select_lines start stop index lines selected taken
  = (selected +:+ concat_lines piece, taken + N.of_nat (length piece)).
Proof.
  induction lines as [|line lines IH]; intros index selected taken Ht piece; subst piece.
  { rewrite drop_nil, take_nil. simpl. by rewrite str_app_nil_r, N.add_0_r. }
  assert (taken + 1 <= usize_max /\ taken + N.of_nat (length lines) <= usize_max /\
          taken + 1 + N.of_nat (length lines) <= usize_max) as (H1 & H2 & H3).
  { cbn [length] in Ht. revert Ht. generalize usize_max. lia. }
  cbn [select_lines]. destruct (N.ltb_spec index start).
  - rewrite IH by done.
    replace (N.to_nat (start - index)) with (S (N.to_nat (start - (index + 1)))) by lia.
    by replace (N.max (index + 1) start) with (N.max index start) by lia.
  - replace (N.to_nat (start - index)) with O by lia. rewrite drop_0.
    destruct (N.leb_spec stop index).
    + replace (N.to_nat (stop - N.max index start)) with O by lia. simpl.
      by rewrite str_app_nil_r, N.add_0_r.
    + rewrite sat_add_exact by done. rewrite IH by done.
      replace (N.to_nat (start - (index + 1))) with O by lia. rewrite drop_0.
      replace (N.to_nat (stop - N.max index start)) with (S (N.to_nat (stop - N.max (index + 1) start))) by lia.
      cbn [take length]. rewrite str_app_assoc. simpl. f_equal. lia.
Qed.

(** The window of [limit] lines from line [offset] on. *)
Lemma select_read_window_spec content offset limit :
  content <> "" -> 1 <= offset -> offset + limit <= u32_max ->
  str_len content <= MAX_FILE_CONTENT_BYTES ->
  let total := output_line_count content in
  let piece := take (N.to_nat limit) (drop (N.to_nat (offset - 1)) (split_inclusive content)) in
  select_read_window content offset limit total
  = mkReadWindow (concat_lines piece) (N.of_nat (length piece))
      (N.min (offset - 1 + limit) total + 1) (offset - 1 + limit <? total).
Proof.
  intros Hne Ho Hlim Hsz total piece. unfold select_read_window.
  rewrite bool_decide_false by done.
  destruct (output_line_count_exact content Hsz) as [Hlc Hle]. fold total in Hlc, Hle.
  assert (u32_max < usize_max /\ MAX_FILE_CONTENT_BYTES + 2 <= usize_max) as [Hu Hm]
    by (split; by vm_compute).
  rewrite (sat_add_exact usize_max (offset - 1) limit)
    by (revert Hlim Hu Ho; clear; generalize usize_max, u32_max; lia).
  rewrite select_lines_spec
    by (rewrite <- Hlc; revert Hle Hm; clear; generalize usize_max, MAX_FILE_CONTENT_BYTES; lia).
  rewrite N.max_r, N.sub_0_r by lia. rewrite str_app_nil, N.add_0_l.
  rewrite (sat_add_exact usize_max (N.min _ _) 1)
    by (revert Hle Hm; clear; generalize usize_max, MAX_FILE_CONTENT_BYTES; lia).
  assert (take (N.to_nat (N.min (offset - 1 + limit) total - (offset - 1)))
            (drop (N.to_nat (offset - 1)) (split_inclusive content)) = piece) as ->.
  { unfold piece. destruct (N.leb_spec (offset - 1 + limit) total).
    - f_equal. lia.
    - rewrite !take_ge; [done|..]; rewrite length_drop; lia. }
  f_equal. destruct (N.ltb_spec (offset - 1 + limit) total), (N.ltb_spec (N.min (offset - 1 + limit) total) total);
    try done; lia.
Qed.

(** A caller that follows [next_offset] while there is more. *)
Fixpoint read_pages (fuel : nat) (content : string) (offset limit : N) : option (list ReadWindow) :=
  match fuel with
  | O => None
  | S fuel =>
      let w := select_read_window content offset limit (output_line_count content) in
      if rw_has_more w then cons w <$> read_pages fuel content (rw_next_offset w) limit
      else Some [w]
  end.

Lemma read_limit_bounds arguments : 1 <= read_limit arguments <= MAX_READ_LINES.
Proof. unfold read_limit. apply clamp_bounds. by vm_compute. Qed.

Lemma read_pages_from content limit fuel : forall k,
  content <> "" -> str_len content <= MAX_FILE_CONTENT_BYTES -> 1 <= limit <= MAX_READ_LINES ->
  k <= output_line_count content -> (N.to_nat (output_line_count content - k) < fuel)%nat ->
  exists pages, read_pages fuel content (k + 1) limit = Some pages /\
    concat_lines (rw_content <$> pages) = concat_lines (drop (N.to_nat k) (split_inclusive content)) /\
    Forall (fun w => rw_lines w <= limit) pages.
Proof.
  induction fuel as [|fuel IH]; intros k Hne Hsz Hlim Hk Hf; [lia|]. cbn [read_pages].
  destruct (output_line_count_exact content Hsz) as [Hlc Hle].
  assert (MAX_FILE_CONTENT_BYTES + MAX_READ_LINES + 2 <= u32_max) as Hm by (by vm_compute).
  rewrite select_read_window_spec; [|done|lia| |done].
  2: { revert Hle Hm Hlim Hk. generalize MAX_FILE_CONTENT_BYTES, MAX_READ_LINES, u32_max. lia. }
  rewrite N.add_sub. cbn [rw_has_more rw_next_offset].
  assert (forall l : list string, N.of_nat (length (take (N.to_nat limit) l)) <= limit) as Hb.
  { intros l. rewrite length_take. lia. }
  destruct (N.ltb_spec (k + limit) (output_line_count content)) as [Hlt|Hge].
  - rewrite N.min_l by lia. destruct (IH (k + limit)) as (pages & -> & Hc & Hp); [done..|lia|lia|].
    eexists. split; [done|]. split; [|constructor; [apply Hb|done]].
    rewrite fmap_cons, concat_lines_cons, Hc. cbn [rw_content]. rewrite <- concat_lines_app.
    replace (N.to_nat (k + limit)) with (N.to_nat k + N.to_nat limit)%nat by lia.
    by rewrite <- drop_drop, take_drop.
  - eexists. split; [done|]. split; [|constructor; [apply Hb|constructor]].
    rewrite fmap_cons, concat_lines_cons. cbn [rw_content]. rewrite str_app_nil_r.
    rewrite take_ge; [done|]. rewrite length_drop. lia.
Qed.

(** Reading a file window by window, from its first line and then from each
    [next_offset], ends after at most one window for each line, no window has more lines
    than the limit of the call, which is at most 2,000, and the windows put together are
    the file. *)
Theorem read_windows_cover_the_file arguments content :
  str_len content <= MAX_FILE_CONTENT_BYTES ->
  exists pages,
    read_pages (S (N.to_nat (output_line_count content))) content 1 (read_limit arguments) = Some pages /\
    concat_lines (rw_content <$> pages) = content /\
    Forall (fun w => rw_lines w <= read_limit arguments <= MAX_READ_LINES) pages.
Proof.
  intros Hsz. pose proof (read_limit_bounds arguments) as Hlim.
  destruct (decide (content = "")) as [->|Hne].
  { exists [mkReadWindow "" 0 1 false]. split_and!; [done|done|]. repeat constructor; simpl; lia. }
  destruct (read_pages_from content (read_limit arguments)
              (S (N.to_nat (output_line_count content))) 0) as (pages & Hp & Hc & Hf); [done..|lia|lia|].
  exists pages. rewrite Hc. split_and!; [done|apply split_inclusive_concat|].
  eapply Forall_impl; [exact Hf|]. simpl. lia.
Qed.

Definition five_lines : string :=
  join (String newline "") ["one"; "two"; "three"; "four"; "five"].

Lemma read_windows_cover_the_file_witness :
  exists pages,
    read_pages 6 five_lines 1 (read_limit (JObject [("limit", JInt 2)])) = Some pages /\
    length pages = 3%nat /\ concat_lines (rw_content <$> pages) = five_lines.
Proof.
  assert (str_len five_lines <= MAX_FILE_CONTENT_BYTES) as Hs by (by vm_compute).
  destruct (read_windows_cover_the_file (JObject [("limit", JInt 2)]) five_lines Hs)
    as (pages & Hp & Hc & _).
  assert (S (N.to_nat (output_line_count five_lines)) = 6%nat) as Hf by (by vm_compute).
  rewrite Hf in Hp. exists pages. split_and!; [exact Hp| |exact Hc].
  vm_compute in Hp. injection Hp as <-. reflexivity.
Defined.
