(* ===== verification/ShellRequest.v ===== *)
(** * Shell requests

    What a request of the shell tool asks to run: [shell_command_for_request] and
    [shell_quote_argv_item] of [golutra-agent-tools/src/lib.rs], which turn an argument
    vector into one command text, [CommandLine::parse_for_execution] of [process.rs],
    which turns the text into a program and its arguments again, and the argument rules
    of [shell_contract.rs]. [shlex] and the Bash grammar are the arguments of
    [ShellSyntax.v]; [ShellGrammar] states what of them the round trip relies on. *)
From S2P Require Import Prelude RustStr Utf8 Core PathPolicy ShellSyntax ShellPolicy PatchTool ToolReport.
Open Scope N_scope.

(** ** The command of a request *)

(*@ tools/src/lib.rs MAX_SHELL_ARGV_ITEMS *)
Definition MAX_SHELL_ARGV_ITEMS : N := 1024.
(*@ tools/src/lib.rs MAX_SHELL_COMMAND_CHARS *)
Definition MAX_SHELL_COMMAND_CHARS : N := 64 * 1024.

(** The bytes an argument may have without quotes: letters, digits and [_+-=./@%:]. *)
Definition is_plain (c : N) : bool :=
  is_ascii_alphanumeric c || existsb (N.eqb c) [95; 43; 45; 61; 46; 47; 64; 37; 58].

Definition squote : Ascii.ascii := byte 39.
Definition quote_escape : string := (* '"'"' *)
  String squote (String (byte 34) (String squote (String (byte 34) (String squote "")))).

(** [argument.replace('\'', "'\"'\"'")]. *)
Fixpoint escape_squotes (s : string) : string :=
  match s with
  | EmptyString => ""
  | String a s' => (if Ascii.eqb a squote then quote_escape else String a "") +:+ escape_squotes s'
  end.

(*@ tools/src/lib.rs shell_quote_argv_item *)
Definition shell_quote_argv_item (argument : string) : string :=
  if all_bytes is_plain argument then argument
  else String squote (escape_squotes argument +:+ String squote "").

(** [items.iter().map(..).collect()]: every item a string. *)
Fixpoint string_items (items : list json) : option (list string) :=
  match items with
  | [] => Some []
  | item :: items => s ← as_str item; rest ← string_items items; Some (s :: rest)
  end.

Definition invalid {A} (message : string) : result ToolFault A := Err (Tool (InvalidArguments message)).

Section request.
Variable shlex_split : string -> option (list string).
Variable bash_parse : string -> option Node.

(*@ tools/src/lib.rs:6709-6729 shell_command_for_request *)
Definition request_argv (arguments : json) : result ToolFault (option (list string)) :=
  match json_get arguments "argv" with
  | None => Ok None
  | Some (JArray items) =>
      match string_items items with
      | Some argv => Ok (Some argv)
      | None => invalid "shell argv entries must be strings"
      end
  | Some _ => invalid "shell argv must be an array"
  end.

(** Whether a command given beside [argv] says the same. *)
(*@ tools/src/lib.rs:6772-6779 shell_command_for_request *)
Definition command_is_compatible (command : string) (argv : list string) : result ToolFault bool :=
  match parse_shell_command_with_input shlex_split bash_parse command with
  | Err _ => Err ToolPanicked
  | Ok (Some (mkParsed parts None)) => Ok (bool_decide (parts `prefix_of` argv))
  | Ok None => Ok (bool_decide (head argv = Some (trim command)))
  | Ok (Some _) => Ok false
  end.

(*@ tools/src/lib.rs:6743-6765 shell_command_for_request *)
Definition canonical_command (argv : list string) : result ToolFault string :=
  if bool_decide (argv = []) || (MAX_SHELL_ARGV_ITEMS <? N.of_nat (length argv)) then
    invalid ("shell argv must contain between 1 and " +:+ show MAX_SHELL_ARGV_ITEMS +:+ " entries")
  else if existsb (fun argument => bool_decide (argument = "") || has_byte [0] argument) argv then
    invalid "shell argv entries must be non-empty and cannot contain NUL bytes"
  else
    let canonical := join " " (shell_quote_argv_item <$> argv) in
    if MAX_SHELL_COMMAND_CHARS <? str_len canonical then
      invalid ("shell argv exceeds " +:+ show MAX_SHELL_COMMAND_CHARS +:+ " encoded bytes")
    else Ok canonical.

(*@ tools/src/lib.rs shell_command_for_request *)
Definition shell_command_for_request (arguments : json) : result ToolFault string :=
  let command := option_filter (fun c => negb (trim_is_empty c)) (optional_string_arg arguments "command") in
  let? argv := request_argv arguments in
  match argv with
  | None =>
      let? command := ok_or (Tool (InvalidArguments "shell requires command or argv")) command in
      if trim_is_empty command then invalid "shell command cannot be empty" else Ok command
  | Some argv =>
      let? canonical := canonical_command argv in
      match command with
      | None => Ok canonical
      | Some command =>
          if trim_is_empty command then invalid "shell command cannot be empty when argv is present"
          else
            let? compatible := command_is_compatible command argv in
            if compatible then Ok canonical
            else invalid "shell command and argv describe different commands"
      end
  end.

(*@ tools/src/lib.rs shell_request_is_strictly_read_only *)
Definition shell_request_is_strictly_read_only (arguments : json) : bool :=
  match shell_command_for_request arguments with
  | Ok command => shell_script_is_strictly_read_only shlex_split bash_parse command
  | Err _ => false
  end.

(** ** The process of a command *)

(*@ tools/src/process.rs CommandLine *)
Record CommandLine := mkCommandLine {
  cl_program : string;
  cl_args : list string;
  cl_stdin : option string;
}.

(*@ tools/src/process.rs CommandLine::parse_for_execution *)
Definition parse_for_execution (command : string) (allow_implicit_shell : bool)
    : result ToolFault CommandLine :=
  match parse_shell_command_with_input shlex_split bash_parse command with
  | Err _ => Err ToolPanicked
  | Ok None => invalid "shell command contains invalid quoting"
  | Ok (Some (mkParsed parts stdin)) =>
      if bool_decide (stdin = None)
         && match explicit_shell_script parts with None => true | Some _ => false end
         && contains_shell_metacharacter command then
        if allow_implicit_shell then Ok (mkCommandLine "bash" ["-c"; trim command] None)
        else invalid "unquoted shell operators require an explicit bash -lc wrapper"
      else
        match parts with
        | [] => invalid "shell command cannot be empty"
        | program :: args => Ok (mkCommandLine program args stdin)
        end
  end.

(** ** The arguments of the shell tools *)

(*@ tools/src/shell_contract.rs is_ignored_argument *)
Definition is_ignored_argument (action field : string) (value : json) : bool :=
  if bool_decide (field = "process_id") then
    bool_decide (action = "list") && bool_decide (as_str value = Some "")
  else if bool_decide (field = "authoritative_pid") then
    bool_decide (action = "list") && bool_decide (as_u64 value = Some 0)
  else if bool_decide (field = "input") then
    negb (bool_decide (action = "write")) && bool_decide (as_str value = Some "")
  else if among field ["offset"; "limit"] then negb (bool_decide (action = "list"))
  else if among field ["cursor"; "max_output_bytes"] then bool_decide (action = "list")
  else if bool_decide (field = "wait_ms") then among action ["list"; "read"; "terminate"]
  else if bool_decide (field = "wait_for_terminal") then negb (bool_decide (action = "wait"))
  else false.

(** [arguments\["action"\].as_str().unwrap_or_default()]. *)
Definition session_action (arguments : json) : string :=
  default "" (as_str (json_index arguments "action")).

(*@ tools/src/shell_contract.rs ignored_arguments *)
Definition ignored_arguments (arguments : json) : list string :=
  List.filter (fun field => is_some_and (is_ignored_argument (session_action arguments) field)
                              (json_get arguments field))
    ["offset"; "limit"; "input"; "process_id"; "authoritative_pid"; "cursor"; "max_output_bytes";
     "wait_ms"; "wait_for_terminal"].

(*@ tools/src/shell_contract.rs:36-68 validate_action_arguments *)
Definition allowed_arguments (action : string) : option (list string) :=
  if bool_decide (action = "list") then Some ["action"; "offset"; "limit"]
  else if among action ["wait"; "read"] then
    Some ["action"; "process_id"; "authoritative_pid"; "cursor"; "max_output_bytes"; "wait_ms";
          "wait_for_terminal"]
  else if bool_decide (action = "terminate") then
    Some ["action"; "process_id"; "authoritative_pid"; "cursor"; "max_output_bytes"]
  else if bool_decide (action = "write") then
    Some ["action"; "process_id"; "authoritative_pid"; "cursor"; "max_output_bytes"; "input"; "wait_ms"]
  else None.

Fixpoint check_fields (action : string) (allowed : list string) (fields : list (string * json))
    : result ToolFault unit :=
  match fields with
  | [] => Ok ()
  | (field, value) :: fields =>
      if negb (among field allowed) && negb (is_ignored_argument action field value) then
        invalid (field +:+ " does not apply to shell_session " +:+ action +:+ "; omit it")
      else check_fields action allowed fields
  end.

(*@ tools/src/shell_contract.rs:15-33 validate_action_arguments *)
Definition check_target (action : string) (arguments : json) : result ToolFault unit :=
  if bool_decide (action = "list") then Ok ()
  else if is_none_or trim_is_empty (as_str (json_index arguments "process_id")) then
    invalid "shell_session requires a non-empty process_id except for list"
  else if is_some_and (fun pid => bool_decide (as_u64 pid = Some 0)) (json_get arguments "authoritative_pid")
  then invalid "authoritative_pid must be positive when controlling a process"
  else Ok ().

(*@ tools/src/shell_contract.rs validate_action_arguments *)
Definition validate_action_arguments (tool : string) (arguments : json) : result ToolFault unit :=
  let? _ := (if bool_decide (tool = "shell")
             then let? _ := shell_command_for_request arguments in Ok () else Ok ()) in
  if negb (bool_decide (tool = "shell_session")) then Ok ()
  else
    let action := session_action arguments in
    let? _ := check_target action arguments in
    if bool_decide (action = "write") && match json_get arguments "input" with None => true | _ => false end
    then invalid "write requires input"
    else
      match allowed_arguments action with
      | None => invalid "unknown shell_session action"
      | Some allowed =>
          match arguments with
          | JObject fields => check_fields action allowed fields
          | _ => Ok ()
          end
      end.

End request.

(** ** Reading words *)

(** The words of a text in the part of the shell language that means the same to every
    reader: blanks, plain bytes, single quotes, and double quotes without expansions. Any
    other text is outside of it. *)
Inductive Reading := Between | InWord | InSingle | InDouble.

Definition is_blank (c : N) : bool := existsb (N.eqb c) [32; 9; 10].

Fixpoint read_words (r : Reading) (word : string) (s : string) : option (list string) :=
  match s with
  | EmptyString =>
      match r with Between => Some [] | InWord => Some [word] | _ => None end
  | String a s' =>
      let c := byte_of a in
      match r with
      | InSingle => if c =? 39 then read_words InWord word s'
                    else read_words InSingle (word +:+ String a "") s'
      | InDouble => if c =? 34 then read_words InWord word s'
                    else if existsb (N.eqb c) [36; 96; 92; 33] then None
                    else read_words InDouble (word +:+ String a "") s'
      | _ =>
          if c =? 39 then read_words InSingle word s'
          else if c =? 34 then read_words InDouble word s'
          else if is_plain c then read_words InWord (word +:+ String a "") s'
          else if is_blank c then
            match r with
            | InWord => cons word <$> read_words Between "" s'
            | _ => read_words Between "" s'
            end
          else None
      end
  end.

Definition plain_words (text : string) : option (list string) := read_words Between "" text.

(** What [shlex] and the Bash grammar are documented to do with such a text: the words
    are these words, and it has no redirection. *)
Class ShellGrammar (shlex_split : string -> option (list string)) (bash_parse : string -> option Node) := {
  shlex_reads_words text argv : plain_words text = Some argv -> shlex_split text = Some argv;
  words_are_not_redirected text argv root :
    plain_words text = Some argv -> bash_parse (trim text) = Some root ->
    Forall (fun n => node_kind n <> "redirected_statement") (named_children root);
}.

(** ** Quoting *)

Lemma snoc_app w a s : (w +:+ String a "") +:+ s = w +:+ String a s.
Proof. by rewrite str_app_assoc, str_app_cons, str_app_nil. Qed.

Lemma is_plain_not_quote c : is_plain c = true -> (c =? 39) = false /\ (c =? 34) = false.
Proof.
  intros Hp. split; apply N.eqb_neq; intros ->; by vm_compute in Hp.
Qed.

Lemma read_plain a : forall word s,
  all_bytes is_plain a = true -> read_words InWord word (a +:+ s) = read_words InWord (word +:+ a) s.
Proof.
  unfold all_bytes. induction a as [|x a IH]; intros word s; cbn [String.list_ascii_of_string forallb].
  { by rewrite str_app_nil_r. }
  intros [Hx Ha]%andb_true_iff. destruct (is_plain_not_quote _ Hx) as [H1 H2].
  rewrite str_app_cons. cbn [read_words]. rewrite H1, H2, Hx, IH by done. by rewrite snoc_app.
Qed.

Lemma read_single a : forall word s,
  read_words InSingle word (escape_squotes a +:+ String squote s) = read_words InWord (word +:+ a) s.
Proof.
  induction a as [|x a IH]; intros word s; cbn [escape_squotes].
  { rewrite str_app_nil, str_app_nil_r. done. }
  destruct (Ascii.eqb_spec x squote) as [->|Hne].
  - unfold quote_escape. rewrite !str_app_cons, !str_app_nil. 
    transitivity (read_words InSingle (word +:+ String squote "") (escape_squotes a +:+ String squote s)); [done|].
    by rewrite IH, snoc_app.
  - rewrite !str_app_cons, str_app_nil. cbn [read_words].
    destruct (N.eqb_spec (byte_of x) 39) as [He|_].
    { exfalso. apply Hne. unfold squote, byte. rewrite <- He. symmetry. apply Ascii.ascii_N_embedding. }
    by rewrite IH, snoc_app.
Qed.

(** The words of a quoted argument, up to where it ends. *)
Lemma read_quoted argument s :
  argument <> "" ->
  read_words Between "" (shell_quote_argv_item argument +:+ s) = read_words InWord argument s.
Proof.
  intros Hne. unfold shell_quote_argv_item. destruct (all_bytes is_plain argument) eqn:Hp.
  - destruct argument as [|x a]; [done|]. unfold all_bytes in Hp. cbn in Hp.
    apply andb_true_iff in Hp as [Hx Ha]. destruct (is_plain_not_quote _ Hx) as [H1 H2].
    rewrite str_app_cons. cbn [read_words]. rewrite H1, H2, Hx, read_plain by done.
    by rewrite str_app_nil.
  - rewrite str_app_cons, str_app_assoc, str_app_cons, str_app_nil.
    transitivity (read_words InSingle "" (escape_squotes argument +:+ String squote s)); [done|].
    by rewrite read_single, str_app_nil.
Qed.

Lemma read_joined argv :
  Forall (fun a => a <> "") argv ->
  plain_words (join " " (shell_quote_argv_item <$> argv)) = Some argv.
Proof.
  unfold plain_words. induction argv as [|a argv IH]; [done|]. intros [Ha Hr]%Forall_cons.
  destruct argv as [|b argv].
  - cbn [fmap list_fmap join]. pose proof (read_quoted a "" Ha) as Hq. by rewrite str_app_nil_r in Hq.
  - rewrite fmap_cons, join_cons by done. rewrite read_quoted by done.
    rewrite str_app_cons, str_app_nil.
    transitivity (cons a <$> read_words Between "" (join " " (shell_quote_argv_item <$> (b :: argv)))); [done|].
    by rewrite IH.
Qed.

(** ** The canonical text has no operators *)

Lemma is_plain_ascii c : is_plain c = true -> c < 128.
Proof.
  intros Hp. destruct (N.lt_ge_cases c 128) as [|Hge]; [done|]. exfalso. revert Hp.
  unfold is_plain, is_ascii_alphanumeric, is_ascii_alphabetic, is_ascii_digit.
  cbn [existsb].
  repeat match goal with
  | |- context [N.leb ?a ?b] => destruct (N.leb_spec a b); try lia
  | |- context [N.eqb c ?b] => destruct (N.eqb_spec c b); try lia
  end; done.
Qed.

Lemma is_plain_scan c : is_plain c = true -> metacharacter_step None false c = Some (None, false).
Proof.
  intros Hp. unfold metacharacter_step.
  assert (forall k, is_plain k = false -> (c =? k) = false) as Hk.
  { intros k Hk. apply N.eqb_neq. intros ->. congruence. }
  cbn [existsb]. rewrite !Hk by (by vm_compute). done.
Qed.

Lemma chars_ascii a s : byte_of a < 128 -> chars (String a s) = byte_of a :: chars s.
Proof. intros Ha. cbn [chars]. by rewrite (proj2 (N.ltb_lt _ _) Ha). Qed.

Lemma scan_plain a s :
  all_bytes is_plain a = true ->
  metacharacter_scan None false (chars (a +:+ s)) = metacharacter_scan None false (chars s).
Proof.
  unfold all_bytes. induction a as [|x a IH]; [done|]. cbn [String.list_ascii_of_string forallb].
  intros [Hx Ha]%andb_true_iff. rewrite str_app_cons, chars_ascii by (by apply is_plain_ascii).
  cbn [metacharacter_scan]. rewrite is_plain_scan by done. by apply IH.
Qed.

(** Continuation bytes are not quotes. *)
Lemma escape_continuation c t :
  all_continuation c = true -> escape_squotes (c +:+ t) = c +:+ escape_squotes t.
Proof.
  induction c as [|x c IH]; [done|]. cbn [all_continuation]. intros [Hx Hc]%andb_true_iff.
  rewrite !str_app_cons. cbn [escape_squotes].
  destruct (Ascii.eqb_spec x squote) as [->|_]; [by vm_compute in Hx|].
  by rewrite str_app_cons, str_app_nil, IH.
Qed.

Lemma scan_single a s :
  valid_utf8 a = true ->
  metacharacter_scan (Some 39) false (chars (escape_squotes a +:+ String squote s))
  = metacharacter_scan None false (chars s).
Proof.
  revert a. apply utf8_ind; [done|].
  intros x c t Hx Hc Ht Hf (y & Hy & Hch) IH. cbn [escape_squotes].
  destruct (Ascii.eqb_spec x squote) as [->|Hne].
  - assert (c = "") as ->.
    { destruct c as [|b c]; [done|]. specialize (Hf "z"). rewrite !str_app_cons in Hf. change (valid_utf8 "z") with true in Hf.
      cbn in Hc. apply andb_true_iff in Hc as [Hb _].
      assert (valid_utf8 (String squote (String b (c +:+ "z"))) = false) as Hv; [|congruence].
      unfold is_continuation in Hb. apply andb_true_iff in Hb as [Hb1 Hb2]. Nbool.
      cbn [valid_utf8]. change (byte_of squote <? 128) with true. cbv iota.
      rewrite (proj2 (N.ltb_ge _ _) Hb1).
      rewrite (proj2 (N.leb_gt 194 (byte_of b))) by lia.
      rewrite (proj2 (N.leb_gt 224 (byte_of b))) by lia.
      by rewrite (proj2 (N.leb_gt 240 (byte_of b))) by lia. }
    rewrite str_app_nil, str_app_assoc. unfold quote_escape. rewrite !str_app_cons, str_app_nil.
    by rewrite !chars_ascii.
  - rewrite escape_continuation by done. rewrite str_app_cons, str_app_nil, str_app_cons, str_app_assoc, Hch.
    cbn [metacharacter_scan].
    assert ((y =? 39) = false) as Hq.
    { apply N.eqb_neq. intros ->. destruct Hy as [[_ Hy]|]; [|lia]. apply Hne. unfold squote, byte.
      rewrite Hy. symmetry. apply Ascii.ascii_N_embedding. }
    unfold metacharacter_step. rewrite andb_false_r. change (39 =? 39) with true. cbv iota.
    rewrite Hq. exact IH.
Qed.

Lemma scan_quoted argument s :
  valid_utf8 argument = true ->
  metacharacter_scan None false (chars (shell_quote_argv_item argument +:+ s))
  = metacharacter_scan None false (chars s).
Proof.
  intros Hv. unfold shell_quote_argv_item. destruct (all_bytes is_plain argument) eqn:Hp; [by apply scan_plain|].
  rewrite str_app_cons, str_app_assoc, str_app_cons, str_app_nil, chars_ascii by done.
  cbn [metacharacter_scan]. by apply scan_single.
Qed.

Lemma scan_joined argv :
  Forall (fun a => valid_utf8 a = true) argv ->
  contains_shell_metacharacter (join " " (shell_quote_argv_item <$> argv)) = false.
Proof.
  unfold contains_shell_metacharacter. induction argv as [|a argv IH]; [done|].
  intros [Ha Hr]%Forall_cons. destruct argv as [|b argv].
  - cbn [fmap list_fmap join]. pose proof (scan_quoted a "" Ha) as Hq. by rewrite str_app_nil_r in Hq.
  - rewrite fmap_cons, join_cons, scan_quoted by done. rewrite str_app_cons, str_app_nil, chars_ascii by done.
    cbn [metacharacter_scan]. by apply IH.
Qed.

(** ** The first word of the text *)

Lemma drop_while_rest {A} (f : A -> bool) l :
  exists w, l = w ++ drop_while f l /\ forallb f w = true.
Proof.
  induction l as [|x l (w & Hw & Hf)]; simpl; [by exists []|].
  destruct (f x) eqn:Hx; [|by exists []]. exists (x :: w). simpl. by rewrite <- Hw, Hx.
Qed.

(** Trimming a text that begins with a word keeps the word, and cuts nothing in front of
    the blank behind it. *)
Lemma trim_word f (p r : list N) :
  p <> [] -> forallb (fun c => negb (f c)) p = true -> is_none_or f (head r) = true ->
  exists r', trim_matches_chars f (p ++ r) = p ++ r' /\ is_none_or f (head r') = true.
Proof.
  intros Hp Hf Hr. unfold trim_matches_chars.
  assert (drop_while f (p ++ r) = p ++ r) as ->.
  { destruct p as [|x p]; [done|]. simpl in *. apply andb_true_iff in Hf as [Hx _].
    by destruct (f x). }
  destruct (drop_while_rest f (reverse (p ++ r))) as (w & Hw & Hall).
  generalize dependent (drop_while f (reverse (p ++ r))). intros d Hw.
  assert (p ++ r = reverse d ++ reverse w) as He by (by rewrite <- reverse_app, <- Hw, reverse_involutive).
  apply forallb_elem in Hf. apply forallb_elem in Hall. apply Forall_reverse in Hall.
  apply app_eq_app in He as [l [[Hp' Hl]|[Hd Hl]]].
  - destruct l as [|x l].
    + rewrite app_nil_r in Hp'. exists []. by rewrite app_nil_r.
    + exfalso. rewrite Hp', Forall_app in Hf. destruct Hf as [_ [Hx _]%Forall_cons].
      rewrite Hl in Hall. apply Forall_cons in Hall as [Hx' _]. by rewrite Hx' in Hx.
  - exists l. split; [done|]. destruct l; [done|]. by rewrite Hl in Hr.
Qed.

Lemma break_word p r :
  forallb (fun c => negb (is_whitespace c)) p = true -> is_none_or is_whitespace (head r) = true ->
  break_whitespace (p ++ r) = match r with [] => None | _ => Some (p, r) end.
Proof.
  intros Hp Hr. induction p as [|x p IH]; simpl in *.
  - destruct r as [|c r]; [done|]. simpl in *. by rewrite Hr.
  - apply andb_true_iff in Hp as [Hx Hp]. apply negb_true_iff in Hx. rewrite Hx, IH by done. by destruct r.
Qed.

Lemma chars_plain a s :
  all_bytes is_plain a = true ->
  chars (a +:+ s) = (byte_of <$> String.list_ascii_of_string a) ++ chars s.
Proof.
  unfold all_bytes. induction a as [|x a IH]; [done|]. cbn [String.list_ascii_of_string forallb].
  intros [Hx Ha]%andb_true_iff. rewrite str_app_cons, chars_ascii by (by apply is_plain_ascii).
  by rewrite IH.
Qed.

Lemma of_chars_plain a :
  all_bytes is_plain a = true -> of_chars (byte_of <$> String.list_ascii_of_string a) = a.
Proof.
  unfold all_bytes. induction a as [|x a IH]; [done|]. cbn [String.list_ascii_of_string forallb].
  intros [Hx Ha]%andb_true_iff. rewrite fmap_cons. cbn [of_chars]. rewrite IH by done.
  unfold encode_char. rewrite (proj2 (N.ltb_lt _ _) (is_plain_ascii _ Hx)).
  rewrite str_app_cons, str_app_nil. unfold byte, byte_of. by rewrite Ascii.ascii_N_embedding.
Qed.

Lemma is_plain_not_whitespace c : is_plain c = true -> is_whitespace c = false.
Proof.
  intros Hp. pose proof (is_plain_ascii _ Hp) as Hc. destruct (is_whitespace c) eqn:Hw; [|done].
  exfalso. revert Hp Hw. clear -Hc.
  assert (forallb (fun k => negb (is_plain k && is_whitespace k)) (N.of_nat <$> seq 0 128) = true) as Hall
    by (by vm_compute).
  apply forallb_elem in Hall. rewrite Forall_fmap, Forall_seq in Hall.
  specialize (Hall (N.to_nat c) ltac:(lia)). simpl in Hall. rewrite N2Nat.id in Hall.
  intros Hp Hw. by rewrite Hp, Hw in Hall.
Qed.

(** Where the first argument is a plain word that does not name a shell, the text is not
    read as an explicit wrapper. *)
Lemma no_wrapper program argv :
  program <> "" -> all_bytes is_plain program = true -> is_shell_program program = false ->
  wrapper_words (join " " (shell_quote_argv_item <$> (program :: argv))) = None.
Proof.
  intros Hne Hp Hs. unfold wrapper_words.
  assert (exists r, chars (join " " (shell_quote_argv_item <$> (program :: argv)))
                    = (byte_of <$> String.list_ascii_of_string program) ++ r
                    /\ is_none_or is_whitespace (head r) = true) as (r & -> & Hr).
  { rewrite fmap_cons. unfold shell_quote_argv_item at 1. rewrite Hp. destruct argv as [|b argv].
    - cbn [fmap list_fmap join]. exists []. split; [|done].
      pose proof (chars_plain program "" Hp) as Hc. by rewrite str_app_nil_r in Hc.
    - rewrite join_cons by done. rewrite chars_plain by done. eexists. split; [done|].
      by rewrite str_app_cons, str_app_nil, chars_ascii. }
  assert (forallb (fun c => negb (is_whitespace c)) (byte_of <$> String.list_ascii_of_string program) = true) as Hw.
  { apply forallb_elem, Forall_fmap. unfold all_bytes in Hp. apply forallb_elem in Hp.
    eapply Forall_impl; [exact Hp|]. intros x Hx. simpl in *. by rewrite is_plain_not_whitespace. }
  destruct (trim_word is_whitespace (byte_of <$> String.list_ascii_of_string program) r)
    as (r' & -> & Hr'); [by destruct program|done|done|].
  rewrite break_word by done. destruct r' as [|c r']; [done|]. cbn [mbind option_bind].
  by rewrite of_chars_plain, Hs.
Qed.

(** ** From the argument vector to the process *)

Section round_trip.
Context `{ShellGrammar shlex_split bash_parse}.

(** A request with [argv] that is accepted has the canonical text of it. *)
Lemma request_is_canonical arguments argv command :
  request_argv arguments = Ok (Some argv) ->
  shell_command_for_request shlex_split bash_parse arguments = Ok command ->
  command = join " " (shell_quote_argv_item <$> argv) /\ argv <> [] /\ Forall (fun a => a <> "") argv /\
  str_len command <= MAX_SHELL_COMMAND_CHARS.
Proof.
  intros Ha. unfold shell_command_for_request. rewrite Ha.
  destruct (canonical_command argv) as [c|] eqn:Hc; [|done].
  intros Hr. assert (command = c) as -> by (unfold invalid in Hr; repeat case_match; by simplify_eq).
  unfold canonical_command, invalid in Hc. revert Hc.
  destruct (bool_decide (argv = []) || _) eqn:H1; [done|].
  destruct (existsb _ argv) eqn:H2; [done|].
  destruct (MAX_SHELL_COMMAND_CHARS <? _) eqn:H3; [done|]. intros [= <-]. boolhyps. Nbool.
  split_and!; try done. apply Forall_forall. intros a Ha'.
  pose proof (proj1 (existsb_none _ _) H2 a Ha') as Hx. simpl in Hx. by boolhyps.
Qed.

Lemma heredoc_none text argv :
  plain_words text = Some argv ->
  parse_direct_quoted_python_heredoc shlex_split bash_parse text = None.
Proof.
  intros Hw. unfold parse_direct_quoted_python_heredoc.
  destruct (bash_parse (trim text)) as [root|] eqn:Hb; [|done]. cbn [mbind option_bind].
  destruct (node_has_error root); [done|].
  pose proof (words_are_not_redirected _ _ _ Hw Hb) as Hk.
  destruct (named_children root) as [|n [|]]; [done| |done]. apply Forall_cons in Hk as [Hk _].
  by rewrite bool_decide_false.
Qed.

Lemma parse_plain text argv :
  plain_words text = Some argv -> wrapper_words text = None ->
  parse_shell_command_with_input shlex_split bash_parse text = Ok (Some (mkParsed argv None)).
Proof.
  intros Hw Hn. unfold parse_shell_command_with_input. rewrite (heredoc_none _ _ Hw).
  unfold parse_explicit_wrapper_raw. rewrite Hn. by rewrite (shlex_reads_words _ _ Hw).
Qed.

End round_trip.

(** C38 (roundtrip): the command text of an accepted [argv] request reads back as exactly the words of
    [argv], and when its first word is plain and does not name a shell, the process that
    is started is that program with those arguments, with no shell in between and no
    input, also where an implicit shell is allowed. *)
Theorem argv_reaches_the_process `{ShellGrammar shlex_split bash_parse} arguments argv command implicit :
  request_argv arguments = Ok (Some argv) ->
  Forall (fun a => valid_utf8 a = true) argv ->
  shell_command_for_request shlex_split bash_parse arguments = Ok command ->
  plain_words command = Some argv /\
  forall program args, argv = program :: args ->
    all_bytes is_plain program = true -> is_shell_program program = false ->
    parse_for_execution shlex_split bash_parse command implicit = Ok (mkCommandLine program args None).
Proof.
  intros Ha Hv Hc. destruct (request_is_canonical _ _ _ Ha Hc) as (-> & Hne & Hem & _).
  pose proof (read_joined argv Hem) as Hw. split; [done|].
  intros program args -> Hp Hs. unfold parse_for_execution.
  pose proof (proj1 (Forall_cons _ _ _) Hem) as [Hpn _].
  rewrite (parse_plain _ _ Hw) by (by apply no_wrapper).
  rewrite scan_joined by done. by rewrite andb_false_r.
Qed.

(** The readers of the witness: the words as read above, and a tree of one command. *)
#[global] Instance plain_grammar : ShellGrammar plain_words one_command.
Proof.
  split; [done|]. intros text argv root _ [= <-]. cbn. constructor; [done|constructor].
Qed.

Definition spaced_argv : json :=
  JObject [("argv", JArray [JString "git"; JString "commit"; JString "-m"; JString "it's; done"])].

Lemma argv_reaches_the_process_witness :
  exists command,
    shell_command_for_request plain_words one_command spaced_argv = Ok command /\
    parse_for_execution plain_words one_command command true
    = Ok (mkCommandLine "git" ["commit"; "-m"; "it's; done"] None).
Proof.
  eexists. split; [vm_compute; reflexivity|].
  apply (argv_reaches_the_process spaced_argv ["git"; "commit"; "-m"; "it's; done"] _ true);
    [by vm_compute|by repeat constructor|by vm_compute|done|by vm_compute|by vm_compute].
Defined.

(** A shell with a script and further arguments: the text is read as an explicit wrapper
    whose script runs from the first quote to the last. *)
Definition script_argv : list string := ["bash"; "-c"; "echo $1"; "bash"; "a b"].
Definition script_request : json := JObject [("argv", JArray (JString <$> script_argv))].
Definition merged_script : string := "echo $1' bash 'a b".

Theorem script_arguments_join_the_script `{ShellGrammar shlex_split bash_parse} root implicit :
  bash_parse merged_script = Some root -> node_has_error root = false ->
  exists command,
    shell_command_for_request shlex_split bash_parse script_request = Ok command /\
    plain_words command = Some script_argv /\
    parse_for_execution shlex_split bash_parse command implicit
    = Ok (mkCommandLine "bash" ["-c"; merged_script] None).
Proof.
  intros Hb He. eexists. split; [vm_compute; reflexivity|]. split; [by vm_compute|].
  unfold parse_for_execution, parse_shell_command_with_input.
  rewrite (heredoc_none _ script_argv) by (by vm_compute).
  match goal with |- context [parse_explicit_wrapper_raw ?c] =>
    assert (parse_explicit_wrapper_raw c = Ok (Some (["bash"; "-c"; merged_script], 39))) as -> by (by vm_compute)
  end.
  change (explicit_shell_script ["bash"; "-c"; merged_script]) with (Some merged_script).
  unfold explicit_script_is_complete. rewrite Hb. cbn [is_some_and]. rewrite He.
  change (trim_is_empty merged_script) with false. cbv iota.
  match goal with |- context [str_contains ?p merged_script] =>
    change (str_contains p merged_script) with false end.
  by destruct implicit.
Qed.

Lemma script_arguments_join_witness :
  exists command,
    shell_command_for_request plain_words one_command script_request = Ok command /\
    plain_words command = Some script_argv /\
    parse_for_execution plain_words one_command command false
    = Ok (mkCommandLine "bash" ["-c"; merged_script] None).
Proof. eapply (script_arguments_join_the_script _ false); vm_compute; reflexivity. Defined.

(** ** Session arguments *)

Lemma check_fields_ok action allowed fields :
  check_fields action allowed fields = Ok () ->
  forall field value, (field, value) ∈ fields ->
    field ∈ allowed \/ is_ignored_argument action field value = true.
Proof.
  induction fields as [|[f v] fields IH]; intros Hok field value Hin; [by apply elem_of_nil in Hin|].
  cbn [check_fields] in Hok. unfold invalid in Hok.
  destruct (negb (among f allowed) && _) eqn:Hc; [done|].
  apply elem_of_cons in Hin as [[= -> ->]|Hin]; [|by apply IH].
  unfold among in Hc. apply andb_false_iff in Hc as [Hc|Hc]; boolhyps; auto.
Qed.

Lemma assoc_elem {V} k (m : list (string * V)) v : assoc k m = Some v -> (k, v) ∈ m.
Proof.
  induction m as [|[k' v'] m IH]; cbn [assoc]; [done|].
  case_match; boolhyps; [intros [= ->]; subst; left|]. intros Ha. right. by apply IH.
Qed.

(** What is ignored is one of the fields the report lists. *)
Lemma ignored_is_reported arguments field value :
  json_get arguments field = Some value ->
  is_ignored_argument (session_action arguments) field value = true ->
  field ∈ ignored_arguments arguments.
Proof.
  intros Hg Hi. unfold ignored_arguments. apply elem_of_lfilter. split.
  - unfold is_ignored_argument, among in Hi.
    repeat case_bool_decide; subst; set_solver.
  - by rewrite Hg.
Qed.

Lemma ignored_placeholder action field value :
  is_ignored_argument action field value = true ->
  (field ∈ ["process_id"; "input"] -> as_str value = Some "") /\
  (field = "authoritative_pid" -> as_u64 value = Some 0).
Proof.
  unfold is_ignored_argument. intros Hi. split.
  - intros [->|[->|[]%elem_of_nil]%elem_of_cons]%elem_of_cons;
      repeat case_bool_decide; first [done|by boolhyps].
  - intros ->. repeat case_bool_decide; first [done|by boolhyps].
Qed.

(** An accepted [shell_session] request has one of the five actions; unless it lists,
    it names a process; every argument it has applies to its action or is reported as
    ignored; and an ignored process, process number or input is the empty placeholder, so
    no target and no text is dropped. *)
Theorem session_arguments_are_used_or_reported shlex_split bash_parse arguments :
  validate_action_arguments shlex_split bash_parse "shell_session" arguments = Ok () ->
  let action := session_action arguments in
  exists allowed, allowed_arguments action = Some allowed /\
    (action <> "list" -> exists id, json_get arguments "process_id" = Some (JString id) /\
       trim_is_empty id = false) /\
    forall field value, json_get arguments field = Some value ->
      field ∈ allowed \/
      field ∈ ignored_arguments arguments /\
      (field ∈ ["process_id"; "input"] -> value = JString "") /\
      (field = "authoritative_pid" -> as_u64 value = Some 0).
Proof.
  intros Hok action. revert Hok. unfold validate_action_arguments. fold action.
  rewrite (bool_decide_false ("shell_session" = "shell")) by done.
  rewrite (bool_decide_true ("shell_session" = "shell_session")) by done. cbn [negb].
  destruct (check_target action arguments) as [[]|] eqn:Ht; [|done].
  destruct (bool_decide (action = "write") && _); [done|].
  destruct (allowed_arguments action) as [allowed|] eqn:Ha; [|done]. intros Hok.
  exists allowed. split; [done|]. split.
  - intros Hl. unfold check_target in Ht. rewrite bool_decide_false in Ht by done.
    unfold json_index in Ht. destruct (json_get arguments "process_id") as [[]|] eqn:Hp; try done.
    eexists. split; [done|]. cbn in Ht. by destruct (trim_is_empty _).
  - intros field value Hg. destruct arguments as [| | | | | |fields]; try done.
    destruct (check_fields_ok _ _ _ Hok field value (assoc_elem _ _ _ Hg)) as [Hin|Hi]; [by left|].
    right. split; [by eapply ignored_is_reported|]. apply ignored_placeholder in Hi as [Hs Hn].
    split; [|exact Hn]. intros Hf. specialize (Hs Hf). destruct value; by simplify_eq/=.
Qed.

Definition poll_request : json :=
  JObject [("action", JString "read"); ("process_id", JString "proc-1"); ("input", JString "");
           ("limit", JInt 20)].

Lemma session_arguments_witness :
  ignored_arguments poll_request = ["limit"; "input"] /\
  exists id, json_get poll_request "process_id" = Some (JString id) /\ trim_is_empty id = false.
Proof.
  split; [vm_compute; reflexivity|].
  destruct (session_arguments_are_used_or_reported plain_words one_command poll_request)
    as (allowed & _ & Hid & _); [vm_compute; reflexivity|]. apply Hid. vm_compute. discriminate.
Defined.
