(* ===== verification/FileTools.v ===== *)
(** * The file tools

    [read_file], [write_file] and [edit_file] of [golutra-agent-tools/src/lib.rs] with the
    file images they check and report ([read_optional_file], [file_state_metadata],
    [before_image_still_current]) and the preview of a change
    ([attach_model_visible_change_preview]). What the operating system answers to a read
    is a value of [Observations]; the effect of a write on the files is explicit state, a
    [Disk]. The times and counts of a report ([metrics]) are not modelled. *)
From stdpp Require Import gmap.
From S2P Require Import Prelude RustStr Utf8 Core PathPolicy TaskContract Verify Governed Correction Evidence PatchTool ToolReport FileEdits.
Open Scope N_scope.

Definition bytes_of (s : string) : list N := byte_of <$> String.list_ascii_of_string s.
Definition text_of_bytes (l : list N) : string := String.string_of_list_ascii (byte <$> l).

(** ** Images of files *)

Inductive FileKind := IsFile | IsSymlink | IsOther.
#[global] Instance FileKind_eq_dec : EqDecision FileKind.
Proof. solve_decision. Defined.

(** [std::fs::Metadata] on Unix, as far as it is read. *)
Record FileMeta := mkFileMeta {
  fm_kind : FileKind;
  fm_len : N;
  fm_mode : N;
  fm_dev : N;
  fm_ino : N;
  fm_modified_nanos : N;
}.

(*@ tools/src/workspace_scan.rs:524-528 same_file_identity *)
Definition same_file_identity (left right : FileMeta) : bool :=
  (fm_dev left =? fm_dev right) && (fm_ino left =? fm_ino right).

(*@ tools/src/workspace_scan.rs same_file_state *)
Definition same_file_state (left right : FileMeta) : bool :=
  same_file_identity left right && (fm_len left =? fm_len right)
  && (fm_modified_nanos left =? fm_modified_nanos right).

(** An [io::Error]: whether its kind is [NotFound], and its text. *)
Record StatError := mkStatError {
  se_not_found : bool;
  se_text : string;
}.

(** The answers to the calls of [read_optional_file], in the order it makes them. *)
Record Observations := mkObservations {
  ob_path_metadata : result StatError FileMeta;
  ob_link_target : result string string;
  ob_opened : result string FileMeta;
  ob_bytes : result string string;
  ob_final_metadata : result string FileMeta;
  ob_current_metadata : result string FileMeta;
}.

(*@ tools/src/lib.rs:6650-6654 unix_mode *)
Definition unix_mode (m : FileMeta) : option N := Some (N.land (fm_mode m) 4095).

Definition io_err {A} (r : result string A) : result ToolFault A :=
  match r with Ok a => Ok a | Err e => Err (Tool (Execution e)) end.

Section images.
Variable sha256_hex : string -> string.

(*@ tools/src/lib.rs file_state_metadata *)
Definition file_state_metadata (bytes : string) (mode : option N) (content_available : bool)
    : FileStateMetadata :=
  mkFileStateMetadata (str_len bytes) (Some (checksum sha256_hex bytes)) mode
    (if valid_utf8 bytes && negb (has_byte [0] bytes) then FileContentKind.Text else FileContentKind.Binary)
    content_available.

Definition full_image (path content : string) (mode : option N) : FileBeforeImage :=
  mkFileBeforeImage path (Some (bytes_of content)) mode (Some (file_state_metadata content mode true)).

Definition missing_image (path : string) : FileBeforeImage := mkFileBeforeImage path None None None.

Definition execution {A} (message : string) : result ToolFault A := Err (Tool (Execution message)).

(** The part for a regular file. *)
(*@ tools/src/lib.rs:6530-6597 read_optional_file *)
Definition read_regular_file (path : string) (path_metadata : FileMeta) (ob : Observations)
    : result ToolFault FileBeforeImage :=
  let? metadata := io_err (ob_opened ob) in
  if negb (bool_decide (fm_kind metadata = IsFile)) || negb (same_file_identity path_metadata metadata) then
    execution ("path " +:+ path +:+ " changed type or identity while opening")
  else if MAX_FILE_CONTENT_BYTES <? fm_len metadata then
    execution ("file " +:+ path +:+ " exceeds " +:+ show MAX_FILE_CONTENT_BYTES +:+ " byte limit")
  else
    let? bytes := io_err (ob_bytes ob) in
    let content := byte_prefix (N.to_nat (sat_add u64_max MAX_FILE_CONTENT_BYTES 1)) bytes in
    if MAX_FILE_CONTENT_BYTES <? str_len content then
      execution ("file " +:+ path +:+ " grew beyond " +:+ show MAX_FILE_CONTENT_BYTES
                 +:+ " byte limit while reading")
    else
      let? final_metadata := io_err (ob_final_metadata ob) in
      let? current_metadata := io_err (ob_current_metadata ob) in
      if negb (bool_decide (fm_kind current_metadata = IsFile))
         || negb (same_file_state metadata final_metadata)
         || negb (same_file_state final_metadata current_metadata)
         || negb (fm_len final_metadata =? str_len content) then
        execution ("file " +:+ path +:+ " changed while reading")
      else Ok (full_image path content (unix_mode final_metadata)).

(*@ tools/src/lib.rs read_optional_file *)
Definition read_optional_file (path : string) (ob : Observations) : result ToolFault FileBeforeImage :=
  match ob_path_metadata ob with
  | Err e => if se_not_found e then Ok (missing_image path) else execution (se_text e)
  | Ok path_metadata =>
      match fm_kind path_metadata with
      | IsSymlink =>
          let? target := io_err (ob_link_target ob) in
          if MAX_FILE_CONTENT_BYTES <? str_len target then
            execution ("symlink target " +:+ path +:+ " exceeds " +:+ show MAX_FILE_CONTENT_BYTES
                       +:+ " byte limit")
          else Ok (full_image path target (unix_mode path_metadata))
      | IsOther => execution ("path " +:+ path +:+ " is not a regular file")
      | IsFile => read_regular_file path path_metadata ob
      end
  end.

(** [PathBuf]s compare by their components. *)
Definition same_path (a b : string) : bool := bool_decide (path_components a = path_components b).

Definition image_at (path : string) (images : list FileBeforeImage) : option FileBeforeImage :=
  List.find (fun image => same_path (image_path image) path) images.

Definition same_image (a b : FileBeforeImage) : bool :=
  bool_decide (image_content a = image_content b) && bool_decide (image_unix_mode a = image_unix_mode b).

(*@ tools/src/lib.rs before_image_still_current *)
Definition before_image_still_current (path : string) (before_images : list FileBeforeImage)
    (ob : Observations) : result ToolFault bool :=
  match image_at path before_images with
  | None => Ok (bool_decide (length before_images = O))
  | Some expected =>
      let? current := read_optional_file path ob in
      Ok (same_image current expected)
  end.

(*@ tools/src/lib.rs file_changes_since *)
Fixpoint file_changes_since (observe : string -> Observations) (before_images : list FileBeforeImage)
    : result ToolFault (list string * list FileBeforeImage) :=
  match before_images with
  | [] => Ok ([], [])
  | before_image :: rest =>
      let? after_image := read_optional_file (image_path before_image) (observe (image_path before_image)) in
      let? changes := file_changes_since observe rest in
      let '(changed_files, after_images) := changes in
      Ok (if same_image after_image before_image then (changed_files, after_image :: after_images)
          else (image_path before_image :: changed_files, after_image :: after_images))
  end.

(*@ tools/src/lib.rs MAX_WORKSPACE_SNAPSHOT_CONTENT_BYTES *)
Definition MAX_WORKSPACE_SNAPSHOT_CONTENT_BYTES : N := 32 * 1024 * 1024.

(*@ tools/src/lib.rs file_image_content_bytes *)
Definition file_image_content_bytes (image : FileBeforeImage) : N :=
  from_option (fun bytes => N.of_nat (length bytes)) 0 (image_content image).

(*@ tools/src/lib.rs validate_checkpoint_content_limit *)
Definition validate_checkpoint_content_limit (images : list FileBeforeImage) : result ToolFault unit :=
  let retained_bytes := foldl (sat_add usize_max) 0 (file_image_content_bytes <$> images) in
  if MAX_WORKSPACE_SNAPSHOT_CONTENT_BYTES <? retained_bytes then
    Err (Tool (InvalidArguments ("side-effect checkpoint exceeds "
                                 +:+ show MAX_WORKSPACE_SNAPSHOT_CONTENT_BYTES +:+ " retained bytes")))
  else Ok ().

End images.

(** ** Files as state *)

(** What is at a path, links not followed. *)
Inductive Entry :=
| Regular (content : string) (mode : N)
| Link (target : string) (mode : N)
| OtherEntry.

Definition Disk : Type := gmap string Entry.

(** [io::Error] of a write. *)
Record WriteError := mkWriteError {
  we_kind : string;
  we_errno : option Z;
  we_text : string;
}.

(** What becomes of [fs::write], which opens with [O_TRUNC] before it writes: all bytes
    are written; the open fails; or it fails after some bytes. *)
Inductive WriteOutcome :=
| Written
| OpenRefused (error : WriteError)
| Interrupted (written : nat) (error : WriteError).

(** The operating system: the path an open reaches, which for a path that is no link is
    the path; the mode of a new file; the device, inode and time of a file; whether a path
    is a directory. *)
Class Os := {
  os_reaches : Disk -> string -> string;
  os_new_mode : N;
  os_identity : string -> N * N * N;
  os_is_dir : string -> bool;
}.

Definition is_link (e : option Entry) : bool := match e with Some (Link _ _) => true | _ => false end.

Class OsLaws `{Os} := {
  reaches_itself d p : is_link (d !! p) = false -> os_reaches d p = p;
}.

Section disk.
Context `{Os}.

Definition mode_at (d : Disk) (p : string) : N :=
  match d !! p with Some (Regular _ mode) => mode | _ => os_new_mode end.

Definition put (d : Disk) (path content : string) : Disk :=
  let p := os_reaches d path in <[p := Regular content (mode_at d p)]> d.

Definition fs_write (d : Disk) (path content : string) (outcome : WriteOutcome) : Disk :=
  match outcome with
  | Written => put d path content
  | OpenRefused _ => d
  | Interrupted written _ => put d path (byte_prefix written content)
  end.

Definition write_error (outcome : WriteOutcome) : option WriteError :=
  match outcome with Written => None | OpenRefused e | Interrupted _ e => Some e end.

(** What a disk that nobody else changes answers. *)
Definition observe (d : Disk) (path : string) : Observations :=
  let '(dev, ino, nanos) := os_identity path in
  match d !! path with
  | None =>
      let none := "No such file or directory (os error 2)" in
      mkObservations (Err (mkStatError true none)) (Err none) (Err none) (Err none) (Err none) (Err none)
  | Some (Regular content mode) =>
      let m := mkFileMeta IsFile (str_len content) mode dev ino nanos in
      mkObservations (Ok m) (Err "Invalid argument (os error 22)") (Ok m) (Ok content) (Ok m) (Ok m)
  | Some (Link target mode) =>
      let m := mkFileMeta IsSymlink (str_len target) mode dev ino nanos in
      let loop := "Too many levels of symbolic links (os error 40)" in
      mkObservations (Ok m) (Ok target) (Err loop) (Err loop) (Err loop) (Ok m)
  | Some OtherEntry =>
      let m := mkFileMeta IsOther 0 0 dev ino nanos in
      let other := "Is a directory (os error 21)" in
      mkObservations (Ok m) (Err other) (Err other) (Err other) (Err other) (Ok m)
  end.

End disk.

(** ** The preview of a change *)

Inductive ChangeTag := Insert | Remove | Equal.

(*@ tools/src/lib.rs MAX_MODEL_CHANGE_PREVIEW_BYTES *)
Definition MAX_MODEL_CHANGE_PREVIEW_BYTES : N := 3 * 1024.
(*@ tools/src/lib.rs MAX_MODEL_CHANGE_PREVIEW_LINES *)
Definition MAX_MODEL_CHANGE_PREVIEW_LINES : N := 24.
(*@ tools/src/lib.rs MAX_MODEL_CHANGE_PREVIEW_FILES *)
Definition MAX_MODEL_CHANGE_PREVIEW_FILES : nat := 8.
(*@ tools/src/lib.rs MAX_MODEL_CHANGE_PREVIEW_LINE_BYTES *)
Definition MAX_MODEL_CHANGE_PREVIEW_LINE_BYTES : N := 512.
(*@ tools/src/lib.rs MAX_PATCH_RECOVERY_CONTENT_BYTES *)
Definition MAX_PATCH_RECOVERY_CONTENT_BYTES : N := 3 * 1024.
(*@ tools/src/lib.rs MAX_PATH_ARGUMENT_CHARS *)
Definition MAX_PATH_ARGUMENT_CHARS : N := 4 * 1024.

(** [trim_end_matches(['\r', '\n'])]. *)
Definition trim_line_end (s : string) : string :=
  of_chars (reverse (drop_while (fun c => (c =? 13) || (c =? 10)) (reverse (chars s)))).

(** [path.strip_prefix(root).unwrap_or(path)]. *)
Definition relative_to (root path : string) : string := default path (path_strip_prefix path root).

(** A report with the images of the files before the call. *)
Record MutationReport := mkMutationReport {
  mu_report : ToolExecutionReport;
  mu_before_images : list FileBeforeImage;
}.

Definition with_facts (facts : json) (r : ToolExecutionReport) : ToolExecutionReport :=
  let e := rp_envelope r in
  {| rp_envelope :=
       {| env_tool_call_id := env_tool_call_id e; env_tool_name := env_tool_name e;
          env_status := env_status e; env_summary := env_summary e;
          structured_facts := facts; model_visible_excerpt := model_visible_excerpt e;
          raw_artifact_ref := raw_artifact_ref e; env_evidence_refs := env_evidence_refs e;
          env_risk := env_risk e; verification_hint := verification_hint e |};
     rp_evidence := rp_evidence r; rp_changed_files := rp_changed_files r;
     rp_policy_evaluation := rp_policy_evaluation r;
     rp_artifact_contents := rp_artifact_contents r; rp_after_images := rp_after_images r |}.

Definition with_after_images (images : list FileBeforeImage) (r : ToolExecutionReport) : ToolExecutionReport :=
  mkReport (rp_envelope r) (rp_evidence r) (rp_changed_files r) (rp_policy_evaluation r)
    (rp_artifact_contents r) images.

(*@ tools/src/lib.rs preview_text *)
Definition preview_text (image : option FileBeforeImage) : option string :=
  match image with
  | None => Some ""
  | Some image =>
      match image_content image, image_metadata image with
      | Some bytes, _ => let text := text_of_bytes bytes in if valid_utf8 text then Some text else None
      | None, None => Some ""
      | None, Some _ => None
      end
  end.

(** What the preview has so far: bytes kept over all files, and of one file the lines kept,
    the two lists, and whether it was cut. *)
Record PreviewLines := mkPreviewLines {
  pl_retained_bytes : N;
  pl_line_count : N;
  pl_added : list string;
  pl_removed : list string;
  pl_truncated : bool;
}.

Section preview.
Variable replace_all : string -> string -> string -> string.
(** [TextDiff::from_lines(before, after).iter_all_changes()]. *)
Variable line_changes : string -> string -> list (ChangeTag * string).

(*@ tools/src/lib.rs:4609-4635 attach_model_visible_change_preview *)
Fixpoint preview_lines (path : string) (changes : list (ChangeTag * string)) (p : PreviewLines)
    : PreviewLines :=
  match changes with
  | [] => p
  | (Equal, _) :: changes => preview_lines path changes p
  | (tag, value) :: changes =>
      let cut := mkPreviewLines (pl_retained_bytes p) (pl_line_count p) (pl_added p) (pl_removed p) true in
      if MAX_MODEL_CHANGE_PREVIEW_LINES <=? pl_line_count p then cut
      else
        let prefix := match tag with Insert => "+" | _ => "-" end in
        let line := bounded_text_bytes (redact replace_all (prefix +:+ trim_line_end value))
                      MAX_MODEL_CHANGE_PREVIEW_LINE_BYTES in
        let line_bytes := sat_add usize_max (str_len line) 1 in
        if MAX_MODEL_CHANGE_PREVIEW_BYTES
           <? sat_add usize_max (sat_add usize_max (pl_retained_bytes p) line_bytes) (str_len path)
        then cut
        else
          preview_lines path changes
            (mkPreviewLines (sat_add usize_max (pl_retained_bytes p) line_bytes)
               (sat_add usize_max (pl_line_count p) 1)
               (match tag with Insert => pl_added p ++ [line] | _ => pl_added p end)
               (match tag with Insert => pl_removed p | _ => pl_removed p ++ [line] end) false)
  end.

(*@ tools/src/lib.rs:4640-4664 attach_model_visible_change_preview *)
Definition preview_item (root path : string) (after : option FileBeforeImage) (p : PreviewLines) : json :=
  redact_sensitive_value replace_all (json_obj
    ([("path", JString (relative_to root path));
      ("added_lines", JArray (JString <$> pl_added p));
      ("removed_lines", JArray (JString <$> pl_removed p));
      ("truncated", JBool (pl_truncated p))]
     ++ match (image ← after; metadata ← image_metadata image; fm_checksum metadata) with
        | Some digest => [("content_digest", JString digest)]
        | None => []
        end)).

(*@ tools/src/lib.rs:4589-4669 attach_model_visible_change_preview *)
Fixpoint preview_items (root : string) (before_images after_images : list FileBeforeImage)
    (paths : list string) (retained_bytes : N) : list json :=
  match paths with
  | [] => []
  | path :: paths =>
      let after := image_at path after_images in
      match preview_text (image_at path before_images), preview_text after with
      | Some before, Some after_text =>
          let p := preview_lines path (line_changes before after_text)
                     (mkPreviewLines retained_bytes 0 [] [] false) in
          if bool_decide (pl_added p = []) && bool_decide (pl_removed p = []) && negb (pl_truncated p) then
            preview_items root before_images after_images paths (pl_retained_bytes p)
          else
            preview_item root path after p
            :: (if pl_truncated p || (MAX_MODEL_CHANGE_PREVIEW_BYTES <=? pl_retained_bytes p) then []
                else preview_items root before_images after_images paths (pl_retained_bytes p))
      | _, _ => preview_items root before_images after_images paths retained_bytes
      end
  end.

(*@ tools/src/lib.rs attach_model_visible_change_preview *)
Definition attach_model_visible_change_preview (root : string) (m : MutationReport) : MutationReport :=
  let r := mu_report m in
  let e := rp_envelope r in
  if negb (bool_decide (env_status e = ToolResultStatus.Ok))
     || negb (mutation_tool_name (env_tool_name e))
     || bool_decide (rp_changed_files r = []) then m
  else
    let previews := preview_items root (mu_before_images m) (rp_after_images r)
                      (take MAX_MODEL_CHANGE_PREVIEW_FILES (rp_changed_files r)) 0 in
    match structured_facts e with
    | JObject facts =>
        let facts := match RustStr.assoc "path" facts with
                     | Some (JString path) => entries_insert "path" (JString (relative_to root path)) facts
                     | _ => facts
                     end in
        let facts := entries_insert "changed_paths"
                       (JArray ((fun path => JString (relative_to root path)) <$> rp_changed_files r)) facts in
        let facts := match previews with
                     | [] => facts
                     | _ => entries_insert "change_preview" (JArray previews) facts
                     end in
        mkMutationReport (with_facts (JObject facts) r) (mu_before_images m)
    | _ => m
    end.

End preview.

(** ** The tools *)

(*@ tools/src/lib.rs string_arg *)
Definition string_arg (arguments : json) (key : string) : result ToolFault string :=
  ok_or (Tool (InvalidArguments ("missing string argument `" +:+ key +:+ "`")))
    (optional_string_arg arguments key).

(** [Path::parent]. *)
Definition path_parent (path : string) : option string :=
  match reverse (trim_segments (split_on slash path)) with
  | [] => if is_absolute path || bool_decide (path = "") then None else Some ""
  | _ :: rest =>
      let up := join "/" (reverse (drop_while blank_segment rest)) in
      Some (if is_absolute path && bool_decide (up = "") then "/" else up)
  end.

Example path_parent_examples :
  path_parent <$> ["/w/a.txt"; "/w"; "/"; "a/b/"; "a"; "./a//b"; ""]
  = [Some "/w"; Some "/"; None; Some "a"; Some ""; Some "./a"; None].
Proof. vm_compute. reflexivity. Qed.

Section tools.
Context `{fs : FileSystem} `{os : Os}.
Variable replace_all : string -> string -> string -> string.
Variable sha256_hex : string -> string.
Variable line_changes : string -> string -> list (ChangeTag * string).
Variable utf8_error : string -> string.
Variable policy : WorkspacePolicy.
Variable policy_ref : PolicyId.
Variable ids : FreshIds.

Abbreviation digest := (checksum sha256_hex).
Abbreviation resolve := (resolve_tool_path policy policy_ref).

(*@ tools/src/lib.rs success_report *)
Definition success_report (request : ToolRequest) (summary : string) (facts : json) (raw_output : string)
    (changed_files : list string) (evaluation : PolicyEvaluation) : ToolExecutionReport :=
  report replace_all ids request ToolResultStatus.Ok summary facts raw_output changed_files evaluation.

(*@ tools/src/lib.rs error_report *)
Definition error_report (request : ToolRequest) (summary : string) (facts : json) (raw_output : string)
    (evaluation : PolicyEvaluation) : ToolExecutionReport :=
  report replace_all ids request ToolResultStatus.Error summary facts raw_output [] evaluation.

(*@ tools/src/lib.rs ToolRuntime::read_file *)
Definition read_file (observe : string -> Observations) (request : ToolRequest)
    (evaluation : PolicyEvaluation) : result ToolFault ToolExecutionReport :=
  let arguments := tr_arguments request in
  let? path := string_arg arguments "path" in
  let? resolved_path := resolve "read_file" path true in
  let? image := read_optional_file sha256_hex resolved_path (observe resolved_path) in
  let? bytes := ok_or (Tool (Execution "read target does not exist")) (image_content image) in
  let content := text_of_bytes bytes in
  if negb (valid_utf8 content) then Err (Tool (Execution (utf8_error content)))
  else
    let total_lines := output_line_count content in
    let offset := read_offset arguments in
    let limit := read_limit arguments in
    let window := select_read_window content offset limit total_lines in
    let facts := json_obj
      ([("path", JString path); ("resolved_path", JString resolved_path);
        ("content_digest", JString (digest content)); ("bytes", json_u64 (str_len (rw_content window)));
        ("lines", json_u64 (rw_lines window)); ("offset", json_u64 offset); ("limit", json_u64 limit);
        ("total_bytes", json_u64 (str_len content)); ("total_lines", json_u64 total_lines);
        ("has_more", JBool (rw_has_more window)); ("truncated", JBool (rw_has_more window));
        ("eof", JBool (negb (rw_has_more window)))]
       ++ if rw_has_more window
          then [("continuation", json_obj [("next_cursor", json_u64 (rw_next_offset window));
                                           ("next_offset", json_u64 (rw_next_offset window))])]
          else []) in
    Ok (success_report request "file read" facts (rw_content window) [] evaluation).

(** The report of a write that failed. *)
(*@ tools/src/lib.rs:2236-2268 ToolRuntime::write_file *)
Definition write_failure (request : ToolRequest) (summary resolved_path : string) (e : WriteError)
    (evaluation : PolicyEvaluation) : MutationReport :=
  let parent := path_parent resolved_path in
  let parent_missing := is_some_and (fun parent => negb (os_is_dir parent)) parent in
  mkMutationReport
    (error_report request summary
       (json_obj [("path", JString resolved_path); ("parent", json_opt JString parent);
                  ("parent_missing", JBool parent_missing); ("error_kind", JString (we_kind e));
                  ("errno", json_opt JInt (we_errno e)); ("error", JString (we_text e));
                  ("action_required", JString (if parent_missing then "create_parent_directory_explicitly"
                                               else "inspect_write_error"));
                  ("workspace_changes_known", JBool true)])
       (we_text e) evaluation) [].

Definition conflict_report (request : ToolRequest) (summary resolved_path : string)
    (evaluation : PolicyEvaluation) : MutationReport :=
  mkMutationReport
    (error_report request summary
       (json_obj [("path", JString resolved_path); ("conflict", JBool true)]) "" evaluation) [].

(** A file that was written: the report with its images and preview. *)
(*@ tools/src/lib.rs:2270-2300 ToolRuntime::write_file *)
Definition changed_report (request : ToolRequest) (summary : string) (facts : list (string * json))
    (resolved_path content : string) (before_images : list FileBeforeImage)
    (evaluation : PolicyEvaluation) : MutationReport :=
  let mode := head before_images ≫= image_unix_mode in
  attach_model_visible_change_preview replace_all line_changes (workspace_root policy)
    (mkMutationReport
       (with_after_images [full_image sha256_hex resolved_path content mode]
          (success_report request summary (json_obj facts) content [resolved_path] evaluation))
       before_images).

(** The call and the files after it. *)
(*@ tools/src/lib.rs ToolRuntime::write_file *)
Definition write_file (observe : string -> Observations) (outcome : WriteOutcome) (request : ToolRequest)
    (evaluation : PolicyEvaluation) (before_images : list FileBeforeImage) (d : Disk)
    : result ToolFault MutationReport * Disk :=
  let arguments := tr_arguments request in
  match (let? path := string_arg arguments "path" in
         let? content := string_arg arguments "content" in
         if MAX_FILE_CONTENT_BYTES <? str_len content then
           Err (Tool (InvalidArguments ("write content exceeds " +:+ show MAX_FILE_CONTENT_BYTES
                                        +:+ " byte limit")))
         else
           let? resolved_path := resolve "write_file" path false in
           let? current := before_image_still_current sha256_hex resolved_path before_images
                             (observe resolved_path) in
           Ok (content, resolved_path, current)) with
  | Err fault => (Err fault, d)
  | Ok (content, resolved_path, current) =>
      if negb current then
        (Ok (conflict_report request "write target changed after checkpoint" resolved_path evaluation), d)
      else if bool_decide ((image_at resolved_path before_images ≫= image_content)
                           = Some (bytes_of content)) then
        (Ok (mkMutationReport
               (with_after_images before_images
                  (success_report request "file already contains requested content"
                     (json_obj [("path", JString resolved_path); ("bytes", json_u64 (str_len content));
                                ("content_digest", JString (digest content)); ("changed", JBool false);
                                ("idempotent", JBool true); ("workspace_changes_known", JBool true)])
                     "" [] evaluation)) before_images), d)
      else
        (Ok match write_error outcome with
            | Some e => write_failure request "file write failed" resolved_path e evaluation
            | None =>
                changed_report request "file written"
                  [("path", JString resolved_path); ("bytes", json_u64 (str_len content));
                   ("content_digest", JString (digest content)); ("changed", JBool true);
                   ("workspace_changes_known", JBool true)] resolved_path content before_images evaluation
            end, fs_write d resolved_path content outcome)
  end.

(*@ tools/src/lib.rs current_mutation_content_facts *)
Definition current_mutation_content_facts (path content : string) : list (string * json) :=
  let redacted := redact replace_all content in
  [("path", JString (bounded_text (redact replace_all path) MAX_PATH_ARGUMENT_CHARS));
   ("content_digest", JString (digest content));
   ("current_content", JString (bounded_text_bytes redacted MAX_PATCH_RECOVERY_CONTENT_BYTES));
   ("current_content_truncated", JBool (MAX_PATCH_RECOVERY_CONTENT_BYTES <? str_len redacted))].

(*@ tools/src/lib.rs:2339-2387 ToolRuntime::edit_file *)
Definition edit_failure_report (request : ToolRequest) (path original : string) (failure : EditFailure)
    (evaluation : PolicyEvaluation) : MutationReport :=
  let truncated := MAX_PATCH_RECOVERY_CONTENT_BYTES <? str_len (redact replace_all original) in
  let error_kind := if ef_overlap failure then "edit_overlap"
                    else if ef_search_found failure then "edit_target_not_unique"
                    else "edit_target_not_found" in
  mkMutationReport
    (error_report request (ef_summary failure)
       (json_obj (current_mutation_content_facts path original ++
          [("edit_index", json_u64 (N.of_nat (ef_edit_index failure)));
           ("search_found", JBool (ef_search_found failure)); ("overlap", JBool (ef_overlap failure));
           ("replacements", json_u64 0); ("error_kind", JString error_kind);
           ("next_action", JString (if truncated
              then "read only the failed file range needed for exact edits, then retry once"
              else "regenerate exact edits from current_content and retry once; do not repeat workspace discovery"))]))
       original evaluation) [].

(** The bytes the edits are made on: the image of the checkpoint, or the file. *)
(*@ tools/src/lib.rs:2321-2334 ToolRuntime::edit_file *)
Definition edit_original (before_images : list FileBeforeImage) (resolved_path : string)
    (fs_read : string -> result string string) : result ToolFault string :=
  match image_at resolved_path before_images with
  | Some before_image =>
      let? bytes := ok_or (Tool (Execution "edit target does not exist")) (image_content before_image) in
      Ok (text_of_bytes bytes)
  | None => io_err (fs_read resolved_path)
  end.

(*@ tools/src/lib.rs ToolRuntime::edit_file *)
Definition edit_file (observe : string -> Observations) (fs_read : string -> result string string)
    (outcome : WriteOutcome) (request : ToolRequest) (evaluation : PolicyEvaluation)
    (before_images : list FileBeforeImage) (d : Disk) : result ToolFault MutationReport * Disk :=
  let arguments := tr_arguments request in
  match (let? path := string_arg arguments "path" in
         let? edits := match parse_file_edits arguments with Ok edits => Ok edits | Err e => Err (Tool e) end in
         let? resolved_path := resolve "edit_file" path true in
         let? current := before_image_still_current sha256_hex resolved_path before_images
                           (observe resolved_path) in
         Ok (path, edits, resolved_path, current)) with
  | Err fault => (Err fault, d)
  | Ok (path, edits, resolved_path, current) =>
      if negb current then
        (Ok (conflict_report request "edit target changed after checkpoint" resolved_path evaluation), d)
      else
        match (let? original := edit_original before_images resolved_path fs_read in
               if valid_utf8 original then Ok original
               else Err (Tool (Execution (utf8_error original)))) with
        | Err fault => (Err fault, d)
        | Ok original =>
            match apply_file_edits original edits with
            | Err EditPanicked => (Err ToolPanicked, d)
            | Err (EditFailed failure) =>
                (Ok (edit_failure_report request path original failure evaluation), d)
            | Ok (edited, replacement_count) =>
                let replacements := json_u64 (N.of_nat replacement_count) in
                if MAX_FILE_CONTENT_BYTES <? str_len edited then
                  (Ok (mkMutationReport
                         (error_report request "edited content exceeds file size limit"
                            (json_obj [("path", JString resolved_path);
                                       ("max_bytes", json_u64 MAX_FILE_CONTENT_BYTES);
                                       ("replacements", replacements)]) "" evaluation) []), d)
                else
                  (Ok match write_error outcome with
                      | Some e => write_failure request "file edit write failed" resolved_path e evaluation
                      | None =>
                          changed_report request "file edited"
                            [("path", JString resolved_path); ("replacements", replacements);
                             ("edit_count", json_u64 (N.of_nat (length edits)));
                             ("bytes", json_u64 (str_len edited));
                             ("content_digest", JString (digest edited)); ("changed", JBool true);
                             ("workspace_changes_known", JBool true)]
                            resolved_path edited before_images evaluation
                      end, fs_write d resolved_path edited outcome)
            end
        end
  end.

End tools.

(** ** Images of a quiet disk *)

Lemma text_of_bytes_of s : text_of_bytes (bytes_of s) = s.
Proof.
  unfold text_of_bytes, bytes_of. rewrite <- list_fmap_compose.
  rewrite <- (String.string_of_list_ascii_of_string s) at 2. f_equal.
  induction (String.list_ascii_of_string s) as [|a l IH]; [done|]. rewrite fmap_cons, IH. f_equal.
  unfold compose, byte, byte_of. apply Ascii.ascii_N_embedding.
Qed.

Lemma bytes_of_inj a b : bytes_of a = bytes_of b -> a = b.
Proof. intros He. by rewrite <- (text_of_bytes_of a), He, text_of_bytes_of. Qed.

Lemma same_file_state_refl m : same_file_state m m = true.
Proof. unfold same_file_state, same_file_identity. by rewrite !N.eqb_refl. Qed.

Section quiet.
Context `{Os}.
Variable sha256_hex : string -> string.

(** What the image of an entry is. *)
Definition image_of (d : Disk) (p : string) : result ToolFault FileBeforeImage :=
  read_optional_file sha256_hex p (observe d p).

Lemma image_of_missing d p : d !! p = None -> image_of d p = Ok (missing_image p).
Proof.
  intros Hd. unfold image_of, read_optional_file, observe. rewrite Hd.
  by destruct (os_identity p) as [[dev ino] nanos].
Qed.

Lemma image_of_regular d p content mode :
  d !! p = Some (Regular content mode) -> str_len content <= MAX_FILE_CONTENT_BYTES ->
  image_of d p = Ok (full_image sha256_hex p content (Some (N.land mode 4095))).
Proof.
  intros Hd Hl. unfold image_of, read_optional_file, observe. rewrite Hd.
  destruct (os_identity p) as [[dev ino] nanos]. cbn [ob_path_metadata fm_kind].
  unfold read_regular_file. cbn [ob_opened ob_bytes ob_final_metadata ob_current_metadata io_err fm_kind fm_len].
  unfold same_file_identity at 1. rewrite !N.eqb_refl, bool_decide_true by done. cbn [negb orb andb].
  rewrite (proj2 (N.ltb_ge _ _) Hl).
  rewrite byte_prefix_all.
  2: { rewrite sat_add_exact by (by vm_compute). unfold str_len in Hl.
       revert Hl. generalize MAX_FILE_CONTENT_BYTES. lia. }
  rewrite (proj2 (N.ltb_ge _ _) Hl). rewrite !same_file_state_refl, N.eqb_refl. done.
Qed.

Lemma image_of_inv d p b :
  image_of d p = Ok b ->
  match d !! p with
  | None => b = missing_image p
  | Some (Regular content mode) =>
      b = full_image sha256_hex p content (Some (N.land mode 4095)) /\
      str_len content <= MAX_FILE_CONTENT_BYTES
  | Some (Link target mode) => b = full_image sha256_hex p target (Some (N.land mode 4095))
  | Some OtherEntry => False
  end.
Proof.
  destruct (d !! p) as [[content mode|target mode|]|] eqn:Hd.
  - destruct (N.le_gt_cases (str_len content) MAX_FILE_CONTENT_BYTES) as [Hl|Hl].
    { rewrite (image_of_regular d p content mode) by done. by intros [= <-]. }
    unfold image_of, read_optional_file, observe. rewrite Hd.
    destruct (os_identity p) as [[dev ino] nanos]. cbn [ob_path_metadata fm_kind].
    unfold read_regular_file. cbn [ob_opened io_err fm_kind fm_len].
    rewrite (proj2 (N.ltb_lt _ _) Hl). unfold execution. by destruct (negb _ || negb _).
  - unfold image_of, read_optional_file, observe. rewrite Hd.
    destruct (os_identity p) as [[dev ino] nanos]. cbn [ob_path_metadata fm_kind ob_link_target io_err].
    unfold execution. destruct (_ <? _); [done|]. by intros [= <-].
  - unfold image_of, read_optional_file, observe. rewrite Hd.
    by destruct (os_identity p) as [[dev ino] nanos].
  - rewrite image_of_missing by done. by intros [= <-].
Qed.

End quiet.

(** ** What a call changes *)

Lemma attach_preview_keeps replace_all line_changes root m :
  let m' := attach_model_visible_change_preview replace_all line_changes root m in
  rp_changed_files (mu_report m') = rp_changed_files (mu_report m) /\
  rp_after_images (mu_report m') = rp_after_images (mu_report m) /\
  mu_before_images m' = mu_before_images m /\
  env_status (rp_envelope (mu_report m')) = env_status (rp_envelope (mu_report m)).
Proof.
  unfold attach_model_visible_change_preview. destruct (_ || _ || _); [done|]. by case_match.
Qed.

Section effects.
Context `{fs : FileSystem} `{os : Os}.
Variable replace_all : string -> string -> string -> string.
Variable sha256_hex : string -> string.
Variable line_changes : string -> string -> list (ChangeTag * string).
Variable utf8_error : string -> string.
Variable policy : WorkspacePolicy.
Variable policy_ref : PolicyId.
Variable ids : FreshIds.

Abbreviation write := (write_file replace_all sha256_hex line_changes policy policy_ref ids).
Abbreviation edit := (edit_file replace_all sha256_hex line_changes utf8_error policy policy_ref ids).
Abbreviation current := (before_image_still_current sha256_hex).
Abbreviation resolve := (resolve_tool_path policy policy_ref).

Definition ok_status (m : MutationReport) : Prop :=
  env_status (rp_envelope (mu_report m)) = ToolResultStatus.Ok.

(** A call that leaves the files alone, and says so. *)
Definition no_effect (r : result ToolFault MutationReport) (d d' : Disk) : Prop :=
  d' = d /\ forall m, r = Ok m -> rp_changed_files (mu_report m) = [].

(** A call that writes [content] to [p]. *)
Definition wrote (tool : string) (before : list FileBeforeImage) (outcome : WriteOutcome) (p content : string)
    (r : result ToolFault MutationReport) (d d' : Disk) : Prop :=
  d' = fs_write d p content outcome /\ str_len content <= MAX_FILE_CONTENT_BYTES /\
  exists m, r = Ok m /\
    match write_error outcome with
    | Some _ => ~ ok_status m /\ rp_changed_files (mu_report m) = [] /\
        (model_output_truncation_key tool = None ->
         fact_flag (mu_report m) "workspace_changes_known" = true)
    | None => ok_status m /\ rp_changed_files (mu_report m) = [p] /\ mu_before_images m = before /\
        rp_after_images (mu_report m)
        = [full_image sha256_hex p content (head before ≫= image_unix_mode)]
    end.

Lemma changed_report_says request summary facts p content before evaluation :
  let m := changed_report replace_all sha256_hex line_changes policy ids request summary facts p content
             before evaluation in
  ok_status m /\ rp_changed_files (mu_report m) = [p] /\ mu_before_images m = before /\
  rp_after_images (mu_report m) = [full_image sha256_hex p content (head before ≫= image_unix_mode)].
Proof.
  unfold changed_report, ok_status.
  match goal with |- context [attach_model_visible_change_preview _ _ ?root ?m] =>
    destruct (attach_preview_keeps replace_all line_changes root m) as (-> & -> & -> & ->) end.
  done.
Qed.

Lemma write_failure_says request summary p e evaluation :
  let m := write_failure replace_all ids request summary p e evaluation in
  ~ ok_status m /\ rp_changed_files (mu_report m) = [] /\
  (model_output_truncation_key (tr_tool_name request) = None ->
   fact_flag (mu_report m) "workspace_changes_known" = true).
Proof.
  split_and!; [done|done|]. intros Ht. unfold fact_flag, facts_of, write_failure, error_report.
  cbn [mu_report]. by rewrite report_fact.
Qed.

Lemma write_file_cases observe outcome request evaluation before d r d' :
  write observe outcome request evaluation before d = (r, d') ->
  no_effect r d d' \/
  exists path content p,
    string_arg (tr_arguments request) "path" = Ok path /\
    string_arg (tr_arguments request) "content" = Ok content /\
    resolve "write_file" path false = Ok p /\ current p before (observe p) = Ok true /\
    wrote (tr_tool_name request) before outcome p content r d d'.
Proof.
  unfold write_file, no_effect.
  destruct (string_arg _ "path") as [path|] eqn:Hp; [|intros [= <- <-]; by left].
  destruct (string_arg _ "content") as [content|] eqn:Hc; [|intros [= <- <-]; by left].
  destruct (_ <? str_len content) eqn:Hl; [intros [= <- <-]; by left|].
  destruct (resolve_tool_path _ _ _ _ _) as [p|] eqn:Hr; [|intros [= <- <-]; by left].
  destruct (before_image_still_current _ _ _ _) as [[]|] eqn:Hb; cbn [negb];
    [|intros [= <- <-]; left; split; [done|]; by intros m [= <-]|intros [= <- <-]; by left].
  case_bool_decide; [intros [= <- <-]; left; split; [done|]; by intros m [= <-]|].
  intros [= <- <-]. right. exists path, content, p. split_and!; [done..|]. Nbool.
  split_and!; [done|done|]. eexists. split; [done|].
  destruct (write_error outcome); [apply write_failure_says|apply changed_report_says].
Qed.

Lemma edit_file_cases observe fs_read outcome request evaluation before d r d' :
  edit observe fs_read outcome request evaluation before d = (r, d') ->
  no_effect r d d' \/
  exists path edits p original edited n,
    string_arg (tr_arguments request) "path" = Ok path /\
    parse_file_edits (tr_arguments request) = Ok edits /\
    resolve "edit_file" path true = Ok p /\ current p before (observe p) = Ok true /\
    edit_original before p fs_read = Ok original /\ valid_utf8 original = true /\
    apply_file_edits original edits = Ok (edited, n) /\
    wrote (tr_tool_name request) before outcome p edited r d d'.
Proof.
  unfold edit_file, no_effect.
  destruct (string_arg _ "path") as [path|] eqn:Hp; [|intros [= <- <-]; by left].
  destruct (parse_file_edits _) as [edits|] eqn:Hc; [|intros [= <- <-]; by left].
  destruct (resolve_tool_path _ _ _ _ _) as [p|] eqn:Hr; [|intros [= <- <-]; by left].
  destruct (before_image_still_current _ _ _ _) as [[]|] eqn:Hb; cbn [negb];
    [|intros [= <- <-]; left; split; [done|]; by intros m [= <-]|intros [= <- <-]; by left].
  destruct (edit_original _ _ _) as [original|] eqn:Ho; [|intros [= <- <-]; by left].
  destruct (valid_utf8 original) eqn:Hv; [|intros [= <- <-]; by left].
  destruct (apply_file_edits _ _) as [[edited n]|[]] eqn:Ha;
    [|intros [= <- <-]; left; split; [done|]; by intros m [= <-]|intros [= <- <-]; by left].
  destruct (_ <? str_len edited) eqn:Hl; [intros [= <- <-]; left; split; [done|]; by intros m [= <-]|].
  intros [= <- <-]. right. exists path, edits, p, original, edited, n. split_and!; [done..|]. Nbool.
  split_and!; [done|done|]. eexists. split; [done|].
  destruct (write_error outcome); [apply write_failure_says|apply changed_report_says].
Qed.

(** The two tools that write a file. *)
Inductive Mutation := WriteTool | EditTool.

Definition mutate (tool : Mutation) (observe : string -> Observations)
    (fs_read : string -> result string string) (outcome : WriteOutcome) (request : ToolRequest)
    (evaluation : PolicyEvaluation) (before_images : list FileBeforeImage) (d : Disk)
    : result ToolFault MutationReport * Disk :=
  match tool with
  | WriteTool => write observe outcome request evaluation before_images d
  | EditTool => edit observe fs_read outcome request evaluation before_images d
  end.

(** The path a request is resolved to. *)
Definition target (tool : Mutation) (request : ToolRequest) : result ToolFault string :=
  let? path := string_arg (tr_arguments request) "path" in
  match tool with WriteTool => resolve "write_file" path false | EditTool => resolve "edit_file" path true end.

Lemma mutation_cases tool observe fs_read outcome request evaluation before d r d' :
  mutate tool observe fs_read outcome request evaluation before d = (r, d') ->
  no_effect r d d' \/
  exists p content, target tool request = Ok p /\ current p before (observe p) = Ok true /\
    wrote (tr_tool_name request) before outcome p content r d d'.
Proof.
  unfold mutate, target. destruct tool.
  - intros [Hn|(path & content & p & Hp & _ & Hr & Hc & Hw)]%write_file_cases; [by left|right].
    exists p, content. rewrite Hp. by split_and!.
  - intros [Hn|(path & edits & p & original & edited & n & Hp & _ & Hr & Hc & _ & _ & _ & Hw)]%edit_file_cases;
      [by left|right]. exists p, edited. rewrite Hp. by split_and!.
Qed.

Lemma fs_write_elsewhere `{!OsLaws} d p content outcome q :
  is_link (d !! p) = false -> q <> p -> fs_write d p content outcome !! q = d !! q.
Proof.
  intros Hl Hq. unfold fs_write, put. cbv zeta. destruct outcome; [|done|];
    rewrite reaches_itself by done; by apply lookup_insert_ne.
Qed.

(** C13 (safety): whatever the files looked like while the call read them, a path whose file a
    [write_file] or [edit_file] call changed is the path the policy resolved the request
    to, and the report of the call lists it as changed, provided that path is no link and
    the write was not cut off in the middle. An error or a refusal changes no file. *)
Theorem changed_files_are_reported `{!OsLaws} tool observe fs_read outcome request evaluation before d r d' :
  mutate tool observe fs_read outcome request evaluation before d = (r, d') ->
  (forall p, target tool request = Ok p -> is_link (d !! p) = false) ->
  (forall n e, outcome <> Interrupted n e) ->
  (forall q, d' !! q <> d !! q ->
     target tool request = Ok q /\
     exists m, r = Ok m /\ ok_status m /\ rp_changed_files (mu_report m) = [q]) /\
  (forall fault, r = Err fault -> d' = d).
Proof.
  intros Hm Hlink Hout.
  apply mutation_cases in Hm as [[-> _]|(p & content & Ht & _ & Hd & _ & m & -> & Hr)]; [done|].
  split; [|done]. intros q Hq. rewrite Hd in Hq.
  destruct (decide (q = p)) as [->|Hne]; [|by rewrite (fs_write_elsewhere _ _ _ _ _ (Hlink p Ht) Hne) in Hq].
  split; [done|]. exists m. destruct outcome as [|e|n e]; simpl in *; [|done|by destruct (Hout n e)].
  destruct Hr as (? & ? & _). by split_and!.
Qed.

(** The same file: the same bytes and permission bits. *)
Definition same_entry (a b : option Entry) : Prop :=
  match a, b with
  | None, None => True
  | Some (Regular c m), Some (Regular c' m') => c = c' /\ N.land m 4095 = N.land m' 4095
  | _, _ => False
  end.

Lemma same_image_same_entry d d0 p b b0 :
  image_of sha256_hex d p = Ok b -> image_of sha256_hex d0 p = Ok b0 -> same_image b b0 = true ->
  is_link (d !! p) = false -> is_link (d0 !! p) = false -> same_entry (d !! p) (d0 !! p).
Proof.
  intros Hb Hb0 Hs Hl Hl0. apply image_of_inv in Hb. apply image_of_inv in Hb0.
  unfold same_image in Hs. boolhyps.
  destruct (d !! p) as [[c m| |]|], (d0 !! p) as [[c' m'| |]|]; try done; simpl.
  - destruct Hb as [-> _], Hb0 as [-> _]. simpl in *. simplify_eq. split; [|done].
    by apply bytes_of_inj.
  - destruct Hb as [-> _]. by subst.
  - destruct Hb0 as [-> _]. by subst.
Qed.

Lemma current_one p b0 ob :
  image_path b0 = p -> current p [b0] ob = Ok true ->
  exists b, read_optional_file sha256_hex p ob = Ok b /\ same_image b b0 = true.
Proof.
  intros <-. unfold before_image_still_current, image_at. cbn [List.find].
  unfold same_path at 1. rewrite bool_decide_true by done.
  destruct (read_optional_file _ _ _) as [b|]; [|done]. intros [= Hs]. by exists b.
Qed.

Lemma image_of_path d p b : image_of sha256_hex d p = Ok b -> image_path b = p.
Proof.
  intros Hb. apply image_of_inv in Hb. destruct (d !! p) as [[]|]; try done; destruct_and?; by subst.
Qed.

Lemma known_changes_do_not_outdate r v :
  rp_changed_files r = [] -> fact_flag r "workspace_changes_known" = true -> outdates v r = false.
Proof.
  intros Hc Hf. unfold outdates. destruct (only_proven_derived_outputs_changed r); [done|].
  destruct (direct_file_check_is_unaffected v r); [done|]. rewrite Hc. simpl.
  unfold fact_flag in Hf. unfold fact, json_index. revert Hf.
  destruct (json_get (facts_of r) "workspace_changes_known") as [x|]; [|done].
  destruct x as [|[]| | | | |]; try done. intros _. apply andb_false_r.
Qed.

(** A write that fails behind its open leaves the file truncated or partly written; the
    report lists no changed file, says that the changes are known, and makes no earlier
    validation out of date. *)
Theorem cut_write_is_reported_as_no_change tool observe fs_read n e request evaluation before d m d' :
  mutate tool observe fs_read (Interrupted n e) request evaluation before d = (Ok m, d') -> d' <> d ->
  rp_changed_files (mu_report m) = [] /\
  (model_output_truncation_key (tr_tool_name request) = None ->
   fact_flag (mu_report m) "workspace_changes_known" = true /\
   forall validation, outdates validation (mu_report m) = false) /\
  exists p content, target tool request = Ok p /\ d' = put d p (byte_prefix n content).
Proof.
  intros [[Hd _]|(p & content & Ht & _ & Hd & _ & m' & [= <-] & Hr)]%mutation_cases Hne; [done|].
  destruct Hr as (_ & Hc & Hf). split_and!; [done| |by exists p, content].
  intros Hk. split; [by apply Hf|]. intros v. apply known_changes_do_not_outdate; auto.
Qed.

Lemma changed_means_wrote tool observe fs_read outcome request evaluation before d m d' p :
  mutate tool observe fs_read outcome request evaluation before d = (Ok m, d') ->
  target tool request = Ok p -> rp_changed_files (mu_report m) = [p] ->
  exists content, current p before (observe p) = Ok true /\ outcome = Written /\
    str_len content <= MAX_FILE_CONTENT_BYTES /\ d' = put d p content /\ mu_before_images m = before /\
    rp_after_images (mu_report m) = [full_image sha256_hex p content (head before ≫= image_unix_mode)].
Proof.
  intros Hm Ht Hc.
  apply mutation_cases in Hm as [[_ Hn]|(p' & content & Ht' & Hcur & Hd & Hl & m' & [= <-] & Hr)].
  { by rewrite (Hn m eq_refl) in Hc. }
  rewrite Ht in Ht'. injection Ht' as <-. exists content. destruct outcome; simpl in *.
  - destruct Hr as (_ & _ & ? & ?). by split_and!.
  - destruct Hr as (_ & Hr & _). by rewrite Hr in Hc.
  - destruct Hr as (_ & Hr & _). by rewrite Hr in Hc.
Qed.

(** C10 (refinement): a change made against a checkpoint is exact, for a path that is no link
    at the checkpoint or at the call, and when nothing else writes between the call's check
    of the checkpoint and its own write (the check sees the disk [d] that is written). When
    the report of a call whose checkpoint was taken earlier, on the disk [d0], says that
    the file changed, the file was still the one of the checkpoint, with the same bytes and
    permission bits, so no change made in between is lost; only that file changed; the
    report has the checkpoint as the image before, and an image after with the bytes that
    are now in the file: the complete image of it when the file existed before, and one
    without permission bits when the call created the file. *)
Theorem checkpointed_change_is_exact `{!OsLaws} tool fs_read outcome request evaluation d0 d b0 p m d' :
  target tool request = Ok p -> image_of sha256_hex d0 p = Ok b0 ->
  is_link (d0 !! p) = false -> is_link (d !! p) = false ->
  mutate tool (observe d) fs_read outcome request evaluation [b0] d = (Ok m, d') ->
  rp_changed_files (mu_report m) = [p] ->
  same_entry (d !! p) (d0 !! p) /\ mu_before_images m = [b0] /\
  exists content mode a, d' = <[p := Regular content mode]> d /\
    rp_after_images (mu_report m) = [a] /\ image_content a = Some (bytes_of content) /\
    (d0 !! p <> None -> image_of sha256_hex d' p = Ok a) /\ (d0 !! p = None -> image_unix_mode a = None).
Proof.
  intros Ht H0 Hl0 Hl Hm Hc.
  destruct (changed_means_wrote _ _ _ _ _ _ _ _ _ _ _ Hm Ht Hc) as (content & Hcur & -> & Hlen & Hd & Hb & Ha).
  destruct (current_one p b0 _ (image_of_path _ _ _ H0) Hcur) as (b & Hob & Hs).
  pose proof (same_image_same_entry d d0 p b b0 Hob H0 Hs Hl Hl0) as Hse.
  split_and!; [done|done|]. exists content, (mode_at d p). eexists.
  unfold put in Hd. cbv zeta in Hd. rewrite reaches_itself in Hd by done.
  split_and!; [done|exact Ha|done| |].
  2: { intros Hn. apply image_of_inv in H0. rewrite Hn in H0. by subst. }
  intros Hex.
  rewrite (image_of_regular sha256_hex d' p content (mode_at d p)); [|rewrite Hd; apply lookup_insert_eq|done].
  do 2 f_equal. apply image_of_inv in H0. unfold mode_at. simpl.
  destruct (d !! p) as [[c mo| |]|], (d0 !! p) as [[c0 mo0| |]|]; try done.
  destruct Hse as [_ ->], H0 as [-> _]. done.
Qed.

Lemma parse_file_edit_ok index edit e : parse_file_edit index edit = Ok e -> old_text e <> "".
Proof.
  unfold parse_file_edit. destruct (json_get edit "old_text" ≫= as_str) as [old|]; [|done]. simpl.
  case_bool_decide; [done|]. destruct (json_get edit "new_text" ≫= as_str) as [new|]; [|done]. simpl.
  destruct (_ || _); [done|]. by intros [= <-].
Qed.

Lemma parse_file_edits_ok arguments edits :
  parse_file_edits arguments = Ok edits -> Forall (fun e => old_text e <> "") edits.
Proof.
  unfold parse_file_edits. destruct (_ ≫= as_array) as [l|]; [|done]. simpl. destruct (_ || _); [done|].
  generalize 0%nat as k. revert edits. induction l as [|x l IH]; intros edits k; simpl.
  { intros [= <-]. constructor. }
  destruct (parse_file_edit k x) as [e|] eqn:He; [|done].
  destruct (parse_edit_list (S k) l) as [es|] eqn:Hes; [|done]. intros [= <-].
  constructor; [by eapply parse_file_edit_ok|by eapply IH].
Qed.

(** C11 (refinement): an [edit_file] call that reports a change replaced, in the file of its checkpoint,
    each target by its new text, kept every other byte and the mode of the file, and
    touched no other file. The texts of the request are Rust strings. *)
Theorem edit_file_replaces_exactly `{!OsLaws} fs_read outcome request evaluation d b0 p edits m d' :
  target EditTool request = Ok p -> image_of sha256_hex d p = Ok b0 -> is_link (d !! p) = false ->
  parse_file_edits (tr_arguments request) = Ok edits ->
  Forall (fun e => valid_utf8 (old_text e) = true /\ valid_utf8 (new_text e) = true) edits ->
  edit (observe d) fs_read outcome request evaluation [b0] d = (Ok m, d') ->
  rp_changed_files (mu_report m) = [p] ->
  exists original mode order gaps,
    d !! p = Some (Regular original mode) /\ order ≡ₚ edits /\ length gaps = S (length order) /\
    original = weave gaps (old_text <$> order) /\
    d' = <[p := Regular (weave gaps (new_text <$> order)) mode]> d.
Proof.
  intros Ht H0 Hl He Hv Hm Hc.
  apply edit_file_cases in Hm
    as [[_ Hn]|(path & edits' & p' & original & edited & n & Hp & He' & Hr & Hcur & Ho & Hvo & Ha & Hw)].
  { by rewrite (Hn m eq_refl) in Hc. }
  unfold target in Ht. rewrite Hp, Hr in Ht. injection Ht as ->. rewrite He in He'. injection He' as <-.
  destruct Hw as (Hd & _ & m' & [= <-] & Hw). destruct outcome; simpl in Hw, Hd;
    [|destruct Hw as (_ & Hw & _); by rewrite Hw in Hc..].
  pose proof (image_of_path _ _ _ H0) as Hip. apply image_of_inv in H0.
  unfold edit_original, image_at in Ho. cbn [List.find] in Ho. unfold same_path in Ho.
  rewrite Hip, bool_decide_true in Ho by done.
  unfold put in Hd. cbv zeta in Hd. rewrite reaches_itself in Hd by done. unfold mode_at in Hd.
  destruct (d !! p) as [[content mode| |]|]; try done; [|by subst b0].
  destruct H0 as [-> _]. simpl in Ho. rewrite text_of_bytes_of in Ho. injection Ho as <-.
  assert (Forall edit_ok edits) as Hok.
  { apply parse_file_edits_ok in He. rewrite Forall_forall in He, Hv |- *. intros e Hin.
    destruct (Hv e Hin). split_and!; auto. }
  pose proof (apply_file_edits_layout content edits Hvo Hok) as Hlay. rewrite Ha in Hlay.
  destruct Hlay as (_ & _ & order & gaps & Hperm & Hlen & -> & ->).
  exists (weave gaps (old_text <$> order)), mode, order, gaps. by split_and!.
Qed.

End effects.

(** ** A small workspace *)

(** One level of links is followed. *)
#[global] Instance small_os : Os := {|
  os_reaches d p := match d !! p with Some (Link target _) => target | _ => p end;
  os_new_mode := 420;
  os_identity p := (1, str_len p, 7);
  os_is_dir p := bool_decide (p ∈ ["/"; "/w"]);
|}.

#[global] Instance small_os_laws : OsLaws.
Proof. split. intros d p. simpl. by destruct (d !! p) as [[]|]. Qed.

(** [/w] has a file, and a link to a file that is not there. *)
Definition work_fs : FileSystem := {|
  fs_exists p := bool_decide (p ∈ ["/"; "/w"; "/w/a.txt"]);
  fs_canonicalize p := if bool_decide (p ∈ ["/"; "/w"; "/w/a.txt"]) then Some p else None;
|}.

Definition work_disk : Disk :=
  {[ "/w" := OtherEntry; "/w/a.txt" := Regular "let a = 1; let b = 2;" 420;
     "/w/out" := Link "/etc/new.conf" 511 ]}.

Definition no_redaction (pattern text replacement : string) : string := text.
Definition no_digest (text : string) : string := "".
Definition no_changes (before after : string) : list (ChangeTag * string) := [].
Definition some_utf8_error (text : string) : string := "invalid utf-8 sequence".
Definition some_ids : FreshIds := mkFreshIds 1 2.
Definition file_request (tool : string) (arguments : list (string * json)) : ToolRequest :=
  mkToolRequest 1 None 1 None tool (JObject arguments).
Definition allowed : PolicyEvaluation :=
  mkPolicyEvaluation 1 "tool" "write" "" PolicyDecision.Allow None "" [].

Definition edit_request : ToolRequest :=
  file_request "edit_file"
    [("edits", JArray [JObject [("old_text", JString "b = 2"); ("new_text", JString "b = 3")];
                       JObject [("old_text", JString "a = 1"); ("new_text", JString "a = 10")]]);
     ("path", JString "a.txt")].
Definition write_request (path content : string) : ToolRequest :=
  file_request "write_file" [("content", JString content); ("path", JString path)].

Abbreviation small_mutate :=
  (@mutate work_fs small_os no_redaction no_digest no_changes some_utf8_error small_policy 1 some_ids).
Abbreviation small_target := (@target work_fs small_policy 1).

Definition checkpoint (d : Disk) (p : string) : list FileBeforeImage :=
  match image_of no_digest d p with Ok b => [b] | Err _ => [] end.

Definition no_read (path : string) : result string string := Err "not read".

(** The call of [edit_request] against its checkpoint. *)
Definition small_edit : result ToolFault MutationReport * Disk :=
  small_mutate EditTool (observe work_disk) no_read Written edit_request allowed
    (checkpoint work_disk "/w/a.txt") work_disk.

Definition after_small_edit : Disk :=
  <["/w/a.txt" := Regular "let a = 10; let b = 3;" 420]> work_disk.

Lemma small_edit_runs :
  exists m, small_edit = (Ok m, after_small_edit) /\ rp_changed_files (mu_report m) = ["/w/a.txt"].
Proof. eexists. split; [vm_compute; reflexivity|reflexivity]. Qed.

Lemma changed_files_are_reported_witness :
  exists m, fst small_edit = Ok m /\ rp_changed_files (mu_report m) = ["/w/a.txt"].
Proof.
  destruct small_edit_runs as (m0 & Hm & _).
  destruct (@changed_files_are_reported work_fs small_os no_redaction no_digest no_changes some_utf8_error
              small_policy 1 some_ids small_os_laws EditTool (observe work_disk) no_read Written edit_request
              allowed (checkpoint work_disk "/w/a.txt") work_disk (Ok m0) after_small_edit Hm) as [Hq _].
  - intros p. vm_compute. intros [= <-]. reflexivity.
  - discriminate.
  - destruct (Hq "/w/a.txt") as (_ & m & Hr & _ & Hc); [vm_compute; discriminate|].
    exists m. rewrite Hm. split; [exact Hr|exact Hc].
Defined.

Lemma checkpointed_change_is_exact_witness :
  exists m a, fst small_edit = Ok m /\ rp_after_images (mu_report m) = [a] /\
    image_of no_digest after_small_edit "/w/a.txt" = Ok a.
Proof.
  destruct small_edit_runs as (m & Hm & Hc).
  assert (exists b0, checkpoint work_disk "/w/a.txt" = [b0] /\
            image_of no_digest work_disk "/w/a.txt" = Ok b0) as (b0 & Hb & Hi)
    by (eexists; split; vm_compute; reflexivity).
  unfold small_edit in Hm. rewrite Hb in Hm.
  destruct (@checkpointed_change_is_exact work_fs small_os no_redaction no_digest no_changes some_utf8_error
              small_policy 1 some_ids small_os_laws EditTool no_read Written edit_request allowed
              work_disk work_disk b0 "/w/a.txt" m after_small_edit)
    as (_ & _ & content & mode & a & _ & Ha & _ & Hx); [vm_compute; reflexivity|exact Hi|by vm_compute|by vm_compute|exact Hm|exact Hc|].
  exists m, a. unfold small_edit. rewrite Hb, Hm. split_and!; [reflexivity|exact Ha|].
  apply Hx. vm_compute. discriminate.
Defined.

Lemma edit_file_replaces_exactly_witness :
  exists original mode order gaps,
    work_disk !! "/w/a.txt" = Some (Regular original mode) /\
    original = weave gaps (old_text <$> order) /\
    after_small_edit !! "/w/a.txt" = Some (Regular (weave gaps (new_text <$> order)) mode).
Proof.
  destruct small_edit_runs as (m & Hm & Hc).
  assert (exists b0, checkpoint work_disk "/w/a.txt" = [b0] /\
            image_of no_digest work_disk "/w/a.txt" = Ok b0) as (b0 & Hb & Hi)
    by (eexists; split; vm_compute; reflexivity).
  unfold small_edit in Hm. rewrite Hb in Hm.
  destruct (@edit_file_replaces_exactly work_fs small_os no_redaction no_digest no_changes some_utf8_error
              small_policy 1 some_ids small_os_laws no_read Written edit_request allowed
              work_disk b0 "/w/a.txt" [mkFileEdit "b = 2" "b = 3"; mkFileEdit "a = 1" "a = 10"] m after_small_edit)
    as (original & mode & order & gaps & Ho & _ & _ & Hg & Hd);
    [vm_compute; reflexivity|exact Hi|by vm_compute|vm_compute; reflexivity|by repeat constructor|exact Hm|exact Hc|].
  exists original, mode, order, gaps. split_and!; [exact Ho|exact Hg|]. rewrite Hd. apply lookup_insert_eq.
Defined.

(** ** Links and cut writes *)

(** A link in the workspace whose target does not exist: the policy resolves it as a new
    file of the workspace, and the write goes through the link. *)
Theorem dangling_link_is_written_through :
  let request := write_request "out" "owned" in
  small_target WriteTool request = Ok "/w/out" /\
  exists m, small_mutate WriteTool (observe work_disk) no_read Written request allowed
              (checkpoint work_disk "/w/out") work_disk
            = (Ok m, <["/etc/new.conf" := Regular "owned" 420]> work_disk) /\
    rp_changed_files (mu_report m) = ["/w/out"].
Proof. split; [vm_compute; reflexivity|]. eexists. split; [vm_compute; reflexivity|reflexivity]. Qed.

(** A write that is cut off behind its first byte. *)
Definition cut_write : result ToolFault MutationReport * Disk :=
  small_mutate WriteTool (observe work_disk) no_read (Interrupted 1 (mkWriteError "other" (Some 28%Z) "disk full"))
    (write_request "a.txt" "short") allowed (checkpoint work_disk "/w/a.txt") work_disk.

Lemma cut_write_witness :
  exists m, cut_write = (Ok m, <["/w/a.txt" := Regular "s" 420]> work_disk) /\
    rp_changed_files (mu_report m) = [] /\ forall validation, outdates validation (mu_report m) = false.
Proof.
  assert (exists m, cut_write = (Ok m, <["/w/a.txt" := Regular "s" 420]> work_disk)) as [m Hm]
    by (eexists; vm_compute; reflexivity).
  destruct (@cut_write_is_reported_as_no_change work_fs small_os no_redaction no_digest no_changes
              some_utf8_error small_policy 1 some_ids WriteTool (observe work_disk) no_read 1
              (mkWriteError "other" (Some 28%Z) "disk full") (write_request "a.txt" "short") allowed
              (checkpoint work_disk "/w/a.txt") work_disk m _ Hm) as (Hc & Hf & _).
  - intros Hd. apply (f_equal (lookup "/w/a.txt")) in Hd. revert Hd. vm_compute. discriminate.
  - exists m. split_and!; [exact Hm|exact Hc|]. apply Hf. vm_compute. reflexivity.
Defined.
