(* ===== verification/ToolErrors.v ===== *)
(** * Reports of calls that failed

    The reports [golutra-agent-tools/src/lib.rs] makes of calls that were rejected, blocked
    or failed, with the hints they give the model: the facts of an execution error, of a
    checkpoint error and of a patch that no longer matches, and the search for files with
    the name of a file that could not be read ([read_file_path_candidates]). *)
From stdpp Require Import gmap.
From S2P Require Import Prelude RustStr Utf8 Core PathPolicy TaskContract Verify Governed Correction Evidence Inspection ModelPatch PatchTool ToolReport ToolProjection FileEdits FileTools.
Open Scope N_scope.

(** ** Which errors get hints *)

(*@ tools/src/lib.rs MAX_READ_FILE_HINT_DEPTH *)
Definition MAX_READ_FILE_HINT_DEPTH : N := 6.
(*@ tools/src/lib.rs MAX_READ_FILE_HINT_ENTRIES *)
Definition MAX_READ_FILE_HINT_ENTRIES : nat := 2048.
(*@ tools/src/lib.rs MAX_READ_FILE_HINT_CANDIDATES *)
Definition MAX_READ_FILE_HINT_CANDIDATES : nat := 8.

(*@ tools/src/lib.rs read_file_hint_reason *)
Definition read_file_hint_reason (reason : string) : bool :=
  str_contains "read target does not exist" reason
  || str_contains "path canonicalization failed" reason
  || str_contains "not a regular file" reason.

(*@ tools/src/lib.rs read_file_path_resolution *)
Definition read_file_path_resolution (reason : string) : string :=
  if str_contains "not a regular file" reason then "directory_or_non_regular_file"
  else if str_contains "canonicalization failed" reason then "missing_or_unresolvable"
  else "validation_failed".

(*@ tools/src/lib.rs read_file_hint_ignored_directory *)
Definition read_file_hint_ignored_directory (name : string) : bool :=
  starts_with "." name
  || bool_decide (name ∈ ["target"; "node_modules"; "dist"; "build"; ".next"; "__pycache__"; ".venv"; "venv"]).

(*@ tools/src/lib.rs patch_context_error_kind *)
Definition patch_context_error_kind (reason : string) : option string :=
  if str_contains "model patch context does not match" reason then Some "patch_context_mismatch"
  else if str_contains "model patch context is ambiguous" reason then Some "patch_context_ambiguous"
  else None.

(*@ tools/src/lib.rs checkpoint_error_mentions_missing_path *)
Definition checkpoint_error_mentions_missing_path (reason : string) : bool :=
  let lower := to_ascii_lowercase reason in
  str_contains "no such file or directory" lower || str_contains "not found" lower
  || str_contains "cannot find the path" lower.

(** The [Display] of an error. *)
(*@ tools/src/lib.rs:156-165 ToolError *)
Definition error_text (e : ToolError) : string :=
  match e with
  | UnknownTool name => "tool is not registered: " +:+ name
  | InvalidArguments message => "tool arguments are invalid: " +:+ message
  | Execution message => "tool execution failed: " +:+ message
  | ExternalRegistration message => "external tool registration failed: " +:+ message
  end.

(** ** Files of the same name *)

Section hints.
Context `{fs : FileSystem} `{dirs : Directories}.
Variable policy : WorkspacePolicy.
Variable policy_ref : PolicyId.

(*@ tools/src/lib.rs ToolRuntime::read_file_hint_request_is_safe *)
Definition read_file_hint_request_is_safe (request : ToolRequest) : bool :=
  match json_get (tr_arguments request) "path" ≫= as_str with
  | None => false
  | Some requested_path =>
      let e := evaluate_path policy policy_ref "read_file" requested_path false in
      bool_decide (pe_decision e = PolicyDecision.Allow)
      && path_starts_with (pe_resource e) (workspace_root policy)
  end.

(** The entries that are read of one directory: up to the first failure and the limit. *)
Fixpoint read_entries (budget : nat) (entries : list (option DirEntry)) : list DirEntry :=
  match budget, entries with
  | S budget, Some entry :: entries => entry :: read_entries budget entries
  | _, _ => []
  end.

(** [entries.sort_by_key(..)], a stable sort by name. *)
Fixpoint insert_entry (e : DirEntry) (l : list DirEntry) : list DirEntry :=
  match l with
  | [] => [e]
  | x :: l' => if String.leb (entry_name e) (entry_name x) then e :: l else x :: insert_entry e l'
  end.
Definition sort_entries (l : list DirEntry) : list DirEntry := foldr insert_entry [] l.

(** A file with the name that the policy lets be read, as a path of the workspace. *)
(*@ tools/src/lib.rs:2040-2056 ToolRuntime::read_file_path_candidates *)
Definition candidate_of (basename : string) (e : DirEntry) : option string :=
  if negb (bool_decide (entry_type e = Some EntryType.RegularFile))
     || negb (bool_decide (entry_name e = basename)) then None
  else
    relative ← path_strip_prefix (entry_path e) (workspace_root policy);
    if negb (bool_decide (pe_decision (evaluate_path policy policy_ref "read_file" relative true)
                          = PolicyDecision.Allow)) then None
    else
      let relative := replace_char backslash slash relative in
      if bool_decide (relative = "") then None
      else Some (bounded_text relative MAX_PATH_ARGUMENT_CHARS).

(** A directory to look into. *)
(*@ tools/src/lib.rs:2032-2038 ToolRuntime::read_file_path_candidates *)
Definition descends (depth : N) (e : DirEntry) : bool :=
  bool_decide (entry_type e = Some EntryType.Directory)
  && (depth <? MAX_READ_FILE_HINT_DEPTH) && negb (read_file_hint_ignored_directory (entry_name e)).

(** The walk: [pending] is the stack with its top first, [visited] the entries read. *)
(*@ tools/src/lib.rs:2006-2058 ToolRuntime::read_file_path_candidates *)
Fixpoint walk (fuel : nat) (basename : string) (pending : list (string * N)) (visited : nat)
    (candidates : list string) : option (list string) :=
  match fuel with
  | O => None
  | S fuel =>
      match pending with
      | [] => Some candidates
      | (directory, depth) :: pending =>
          if (MAX_READ_FILE_HINT_ENTRIES <=? visited)%nat then Some candidates
          else
            match read_dir directory with
            | None => walk fuel basename pending visited candidates
            | Some entries =>
                let entries := read_entries (MAX_READ_FILE_HINT_ENTRIES - visited) entries in
                let sorted := sort_entries entries in
                let found := (fun e => (entry_path e, depth + 1)) <$> List.filter (descends depth) sorted in
                walk fuel basename (reverse found ++ pending) (visited + length entries)
                  (candidates ++ omap (candidate_of basename) sorted)
            end
      end
  end.

(** Enough for a walk from the root: an entry is pushed at most once. *)
Definition walk_fuel : nat := S (S MAX_READ_FILE_HINT_ENTRIES).

(** The [BTreeSet] of the candidates, in order. *)
Definition candidate_set (l : list string) : list string := dedup (sort_strings l).

(*@ tools/src/lib.rs ToolRuntime::read_file_path_candidates *)
Definition read_file_path_candidates (request : ToolRequest) (reason : string) : option (list string) :=
  if negb (bool_decide (tr_tool_name request = "read_file")) || negb (read_file_hint_reason reason) then None
  else
    requested_path ← json_get (tr_arguments request) "path" ≫= as_str;
    if negb (read_file_hint_request_is_safe request) then None
    else
      basename ← option_filter (fun name => negb (bool_decide (name ∈ [""; "."; ".."]))) (file_name requested_path);
      found ← walk walk_fuel basename [(workspace_root policy, 0)] 0 [];
      match candidate_set found with
      | [] => None
      | candidates => Some (take MAX_READ_FILE_HINT_CANDIDATES candidates)
      end.

(** ** The reports *)

Variable replace_all : string -> string -> string -> string.
Variable value_to_string : json -> string.
Variable sha256_hex : string -> string.
Variable ids : FreshIds.

Definition DISCOVERY_HINT : string :=
  "run one bounded read-only shell discovery such as rg --files, then read the exact file path".
Definition RETRY_HINT : string := "retry read_file with one of the candidate paths".

(*@ tools/src/lib.rs execution_error_facts *)
Definition execution_error_facts (request : ToolRequest) (reason : string) : list (string * json) :=
  insert_all
    (("error", JString reason)
     :: match (if bool_decide (tr_tool_name request = "read_file")
               then json_get (tr_arguments request) "path" ≫= as_str else None) with
        | Some path =>
            [("path", JString (bounded_text path MAX_PATH_ARGUMENT_CHARS));
             ("path_resolution", JString (read_file_path_resolution reason));
             ("next_action", JString DISCOVERY_HINT)]
        | None => []
        end) [].

(*@ tools/src/lib.rs ToolRuntime::invalid_request_report *)
Definition invalid_request_report (request : ToolRequest) (reason : string) : ToolExecutionReport :=
  let reason := bounded_text reason MAX_TOOL_ERROR_CHARS in
  let e := execution_policy replace_all value_to_string policy_ref request PolicyDecision.Block reason in
  let e := mkPolicyEvaluation (pe_policy_ref e) (pe_subject e) (pe_action e) (pe_resource e) (pe_decision e)
             (Some PolicyBlockDisposition.Recoverable) (pe_reason e) (pe_evidence_refs e) in
  error_report replace_all ids request "tool request is invalid" (json_obj [("error", JString reason)]) reason e.

(*@ tools/src/lib.rs ToolRuntime::argument_rejection_report *)
Definition argument_rejection_report (request : ToolRequest) (error : ToolError) : ToolExecutionReport :=
  let r := invalid_request_report request (error_text error) in
  match error with
  | InvalidArguments _ => with_facts (json_set (facts_of r) "rejected_before_execution" (JBool true)) r
  | _ => r
  end.

(*@ tools/src/lib.rs ToolRuntime::execution_error_report *)
Definition execution_error_report (request : ToolRequest) (evaluation : PolicyEvaluation) (error : string)
    : ToolExecutionReport :=
  let reason := bounded_text error MAX_TOOL_ERROR_CHARS in
  error_report replace_all ids request "tool execution failed" (JObject (execution_error_facts request reason))
    reason evaluation.

(*@ tools/src/lib.rs add_checkpoint_error_facts *)
Definition checkpoint_error_facts (request : ToolRequest) (reason : string) : list (string * json) :=
  match json_get (tr_arguments request) "path" ≫= as_str with
  | None =>
      [("error_kind", JString "checkpoint_io"); ("action_required", JString "inspect_checkpoint_error")]
  | Some path =>
      let path := redact replace_all path in
      let parent_missing := checkpoint_error_mentions_missing_path reason in
      ("path", JString (bounded_text path MAX_PATH_ARGUMENT_CHARS))
      :: match option_filter (fun parent => negb (bool_decide (parent ∈ [""; "."]))) (path_parent path) with
         | Some parent => [("parent", JString (bounded_text parent MAX_PATH_ARGUMENT_CHARS))]
         | None => []
         end
      ++ [("parent_missing", JBool parent_missing);
          ("error_kind", JString (if parent_missing then "checkpoint_parent_missing" else "checkpoint_io"));
          ("action_required", JString (if parent_missing then "create_parent_directory_explicitly"
                                       else "inspect_checkpoint_error"))]
  end.

(*@ tools/src/lib.rs ToolRuntime::checkpoint_error_report *)
Definition checkpoint_error_report (request : ToolRequest) (evaluation : PolicyEvaluation) (error : string)
    : ToolExecutionReport :=
  let reason := bounded_text error MAX_TOOL_ERROR_CHARS in
  let facts := insert_all (("error_origin", JString "checkpoint_persistence")
                           :: checkpoint_error_facts request reason) (execution_error_facts request reason) in
  error_report replace_all ids request "side-effect checkpoint failed" (JObject facts) reason evaluation.

Variable fs_read : string -> result string string.

(** The file of a patch that failed: the update the reason names, or the only update. *)
Definition failed_update (reason : string) (files : list ModelPatchFile) : option string :=
  let updates := List.filter (fun f => match pf_kind f with Update _ => true | _ => false end) files in
  match List.find (fun f => str_contains ("for `" +:+ pf_path f +:+ "`") reason) updates with
  | Some f => Some (pf_path f)
  | None => match updates with [f] => Some (pf_path f) | _ => None end
  end.

(*@ tools/src/lib.rs ToolRuntime::patch_context_failure_facts *)
Definition patch_context_failure_facts (request : ToolRequest) (reason : string)
    : option (list (string * json)) :=
  error_kind ← patch_context_error_kind reason;
  if negb (bool_decide (tr_tool_name request = "apply_patch")) then None
  else
    patch ← json_get (tr_arguments request) "patch" ≫= as_str;
    files ← match parse patch with Ok files => Some files | Err _ => None end;
    source_path ← failed_update reason files;
    resolved_path ← match resolve_tool_path policy policy_ref "apply_patch" source_path true with
                    | Ok p => Some p | Err _ => None end;
    text ← match fs_read resolved_path with
           | Ok content => if valid_utf8 content then Some content else None
           | Err _ => None
           end;
    let truncated := MAX_PATCH_RECOVERY_CONTENT_BYTES <? str_len (redact replace_all text) in
    Some (current_mutation_content_facts replace_all sha256_hex source_path text
          ++ [("error_kind", JString error_kind);
              ("next_action", JString (if truncated
                 then "read only the failed file range needed for an exact patch, then retry once"
                 else "regenerate one exact patch from current_content and retry once; do not repeat workspace discovery"))]).

(*@ tools/src/lib.rs ToolRuntime::execution_error_facts_with_hints *)
Definition execution_error_facts_with_hints (request : ToolRequest) (reason : string) : list (string * json) :=
  let facts := execution_error_facts request reason in
  let facts := insert_all (default [] (patch_context_failure_facts request reason)) facts in
  match read_file_path_candidates request reason with
  | Some candidates =>
      insert_all [("candidates", JArray (JString <$> candidates)); ("next_action", JString RETRY_HINT)] facts
  | None => facts
  end.

(*@ tools/src/lib.rs ToolRuntime::execution_error_report_with_hints *)
Definition execution_error_report_with_hints (request : ToolRequest) (evaluation : PolicyEvaluation)
    (error : string) : ToolExecutionReport :=
  let reason := bounded_text error MAX_TOOL_ERROR_CHARS in
  error_report replace_all ids request "tool execution failed"
    (JObject (execution_error_facts_with_hints request reason)) reason evaluation.

(*@ tools/src/lib.rs blocked_report *)
Definition blocked_report (request : ToolRequest) (evaluation : PolicyEvaluation) : ToolExecutionReport :=
  let reason := pe_reason evaluation in
  report replace_all ids request ToolResultStatus.Blocked reason
    (json_obj [("blocked", JBool true); ("reason", JString reason)]) "" [] evaluation.

Definition with_summary (summary : string) (r : ToolExecutionReport) : ToolExecutionReport :=
  let e := rp_envelope r in
  {| rp_envelope :=
       {| env_tool_call_id := env_tool_call_id e; env_tool_name := env_tool_name e;
          env_status := env_status e; env_summary := summary;
          structured_facts := structured_facts e; model_visible_excerpt := model_visible_excerpt e;
          raw_artifact_ref := raw_artifact_ref e; env_evidence_refs := env_evidence_refs e;
          env_risk := env_risk e; verification_hint := verification_hint e |};
     rp_evidence := rp_evidence r; rp_changed_files := rp_changed_files r;
     rp_policy_evaluation := rp_policy_evaluation r;
     rp_artifact_contents := rp_artifact_contents r; rp_after_images := rp_after_images r |}.

(*@ tools/src/lib.rs ToolRuntime::blocked_report_with_hints *)
Definition blocked_report_with_hints (request : ToolRequest) (evaluation : PolicyEvaluation)
    : ToolExecutionReport :=
  let r := blocked_report request evaluation in
  if negb (bool_decide (tr_tool_name request = "read_file"))
     || negb (read_file_hint_reason (pe_reason evaluation))
     || negb (read_file_hint_request_is_safe request) then r
  else
    let model_reason := "path resolution failed for the requested workspace path" in
    let r := with_summary model_reason r in
    match facts_of r with
    | JObject facts =>
        let facts := insert_all [("reason", JString model_reason)] facts in
        let facts := match json_get (tr_arguments request) "path" ≫= as_str with
                     | Some path =>
                         insert_all [("path", JString (bounded_text (redact replace_all path)
                                                         MAX_PATH_ARGUMENT_CHARS))] facts
                     | None => facts
                     end in
        let facts := insert_all [("path_resolution",
                       JString (read_file_path_resolution (pe_reason evaluation)))] facts in
        let facts := match read_file_path_candidates request (pe_reason evaluation) with
                     | Some candidates =>
                         insert_all [("candidates", JArray (JString <$> candidates));
                                     ("next_action", JString RETRY_HINT)] facts
                     | None => insert_all [("next_action", JString DISCOVERY_HINT)] facts
                     end in
        with_facts (JObject facts) r
    | _ => r
    end.

End hints.

(** ** Hints stay inside what may be read *)

Lemma insert_entry_perm e l : insert_entry e l ≡ₚ e :: l.
Proof. induction l as [|x l IH]; simpl; [done|]. case_match; [done|]. rewrite IH. apply perm_swap. Qed.

Lemma sort_entries_perm l : sort_entries l ≡ₚ l.
Proof. induction l as [|x l IH]; simpl; [done|]. by rewrite insert_entry_perm, IH. Qed.

Lemma read_entries_length budget entries : (length (read_entries budget entries) <= budget)%nat.
Proof.
  revert entries. induction budget as [|budget IH]; intros [|[e|] entries]; simpl; try lia.
  specialize (IH entries). lia.
Qed.

Lemma filter_length_le {A} (f : A -> bool) l : (length (List.filter f l) <= length l)%nat.
Proof. induction l as [|x l IH]; simpl; [lia|]. destruct (f x); simpl; lia. Qed.

Section hint_properties.
Context `{fs : FileSystem} `{dirs : Directories}.
Variable policy : WorkspacePolicy.
Variable policy_ref : PolicyId.

Abbreviation walk := (walk policy policy_ref).

(** Each round takes one directory off the stack and pushes no more than it read. *)
Lemma walk_ends basename fuel : forall pending visited candidates,
  (length pending + (MAX_READ_FILE_HINT_ENTRIES - visited) < fuel)%nat ->
  exists l, walk fuel basename pending visited candidates = Some l.
Proof.
  induction fuel as [|fuel IH]; intros pending visited candidates Hf; [lia|]. cbn [ToolErrors.walk].
  destruct pending as [|[directory depth] pending]; [by eexists|].
  destruct (Nat.leb_spec MAX_READ_FILE_HINT_ENTRIES visited) as [|Hlt]; [by eexists|]. cbn [length] in Hf.
  destruct (read_dir directory) as [entries|]; [|apply IH; lia].
  apply IH. set (read := read_entries _ entries).
  pose proof (read_entries_length (MAX_READ_FILE_HINT_ENTRIES - visited) entries) as Hr. fold read in Hr.
  pose proof (filter_length_le (descends depth) (sort_entries read)) as Hp.
  rewrite (Permutation_length (sort_entries_perm read)) in Hp.
  rewrite length_app, length_reverse, length_fmap.
  revert Hf Hlt Hr Hp. generalize MAX_READ_FILE_HINT_ENTRIES. intros limit. lia.
Qed.

Lemma walk_sound basename fuel : forall pending visited candidates l,
  walk fuel basename pending visited candidates = Some l ->
  forall c, c ∈ l -> c ∈ candidates \/ exists e, candidate_of policy policy_ref basename e = Some c.
Proof.
  induction fuel as [|fuel IH]; intros pending visited candidates l Hw c Hc; [done|].
  cbn [ToolErrors.walk] in Hw. destruct pending as [|[directory depth] pending]; [simplify_eq; by left|].
  destruct (_ <=? _)%nat; [simplify_eq; by left|].
  destruct (read_dir directory) as [entries|]; [|by eapply IH].
  destruct (IH _ _ _ _ Hw c Hc) as [Hin|He]; [|by right].
  apply elem_of_app in Hin as [Hin|Hin]; [by left|]. apply list_elem_of_omap in Hin as (e & _ & He).
  right. by exists e.
Qed.

(** The files a failed [read_file] call is told of are at most eight, and each is a
    regular file of the workspace that has the requested name and that the policy lets the
    model read; the search for them always ends within its bound. *)
Theorem hints_name_only_readable_files request reason candidates :
  read_file_path_candidates policy policy_ref request reason = Some candidates ->
  (forall basename, exists l, walk walk_fuel basename [(workspace_root policy, 0)] 0 [] = Some l) /\
  (length candidates <= MAX_READ_FILE_HINT_CANDIDATES)%nat /\
  forall c, c ∈ candidates -> exists path e relative,
    json_get (tr_arguments request) "path" = Some (JString path) /\
    entry_type e = Some EntryType.RegularFile /\ file_name path = Some (entry_name e) /\
    path_strip_prefix (entry_path e) (workspace_root policy) = Some relative /\
    pe_decision (evaluate_path policy policy_ref "read_file" relative true) = PolicyDecision.Allow /\
    c = bounded_text (replace_char backslash slash relative) MAX_PATH_ARGUMENT_CHARS.
Proof.
  intros Hc. split.
  { intros basename. apply walk_ends. unfold walk_fuel. cbn [length].
    generalize MAX_READ_FILE_HINT_ENTRIES. lia. }
  unfold read_file_path_candidates in Hc. destruct (negb _ || _); [done|].
  apply bind_Some in Hc as (path & Hp & Hc). destruct (negb _); [done|].
  apply bind_Some in Hc as (basename & Hb & Hc). apply bind_Some in Hc as (l & Hl & Hc).
  assert (candidates = take MAX_READ_FILE_HINT_CANDIDATES (candidate_set l)) as ->.
  { destruct (candidate_set l); [done|]. by injection Hc as <-. }
  split; [rewrite length_take; lia|]. intros c Hin.
  apply elem_of_take in Hin as (i & Hi & _). apply list_elem_of_lookup_2 in Hi.
  unfold candidate_set in Hi. rewrite dedup_elem, sort_strings_perm in Hi.
  destruct (walk_sound _ _ _ _ _ _ Hl c Hi) as [Hn|(e & He)]; [by apply elem_of_nil in Hn|].
  unfold candidate_of in He. destruct (negb _ || negb _) eqn:Hk; [done|]. boolhyps.
  apply bind_Some in He as (relative & Hr & He). destruct (negb _) eqn:Hd; [done|]. boolhyps.
  case_bool_decide; [done|]. injection He as <-.
  apply bind_Some in Hp as (v & Hv & Hs). destruct v; try done. injection Hs as ->.
  exists path, e, relative. split_and!; try done.
  destruct (file_name path) as [name|]; [|done]. cbn [option_filter] in Hb.
  destruct (negb _); [|done]. congruence.
Qed.
End hint_properties.

(** A workspace with the file in a directory and in an ignored one. *)
Definition hint_fs : FileSystem := {|
  fs_exists p := bool_decide (p ∈ ["/"; "/w"; "/w/src"; "/w/src/a.rs"; "/w/target"; "/w/target/a.rs"]);
  fs_canonicalize p :=
    if bool_decide (p ∈ ["/"; "/w"; "/w/src"; "/w/src/a.rs"; "/w/target"; "/w/target/a.rs"]) then Some p else None;
|}.

Definition hint_dirs : Directories := {|
  read_dir p :=
    if bool_decide (p = "/w") then
      Some [Some (mkDirEntry "/w/target" "target" (Some EntryType.Directory));
            Some (mkDirEntry "/w/src" "src" (Some EntryType.Directory))]
    else if bool_decide (p = "/w/src") then Some [Some (mkDirEntry "/w/src/a.rs" "a.rs" (Some EntryType.RegularFile))]
    else if bool_decide (p = "/w/target") then
      Some [Some (mkDirEntry "/w/target/a.rs" "a.rs" (Some EntryType.RegularFile))]
    else None;
|}.

Lemma hints_name_only_readable_witness :
  @read_file_path_candidates hint_fs hint_dirs small_policy 1 (file_request "read_file" [("path", JString "lib/a.rs")])
    "path canonicalization failed: /w/lib/a.rs" = Some ["src/a.rs"] /\
  (length ["src/a.rs"] <= MAX_READ_FILE_HINT_CANDIDATES)%nat.
Proof.
  assert (@read_file_path_candidates hint_fs hint_dirs small_policy 1
            (file_request "read_file" [("path", JString "lib/a.rs")])
            "path canonicalization failed: /w/lib/a.rs" = Some ["src/a.rs"]) as H by (by vm_compute).
  split; [exact H|].
  exact (proj1 (proj2 (@hints_name_only_readable_files hint_fs hint_dirs small_policy 1 _ _ _ H))).
Defined.
