(* ===== verification/ToolGate.v ===== *)
(** * Admission and execution of tool calls

    How [ToolRuntime] of [golutra-agent-tools/src/lib.rs] decides on a call and runs it:
    the check of its arguments ([validate_tool_arguments]), the policy decision
    ([evaluate]), the checkpoint of what it may change ([prepare_side_effect_snapshot]),
    the gate in front of every tool, the deadline and the cancellation around it
    ([invoke], [invoke_prepared]), and [apply_patch]. The JSON Schema validator, [git], the
    workspace scan and the tools modelled nowhere else are arguments of the definitions;
    progress events and the metrics of a report are not modelled. *)
From stdpp Require Import gmap.
From S2P Require Import Prelude RustStr Utf8 Core PathPolicy TaskContract Verify Governed Correction Evidence ModelPatch PatchTool ToolReport ShellSyntax ShellPolicy ShellRequest ContextBuild Inspection FileEdits FileTools ToolErrors.
Open Scope N_scope.

(** ** Applying a patch *)

(** What [run_patch_command] returns. *)
Record GitOutput := mkGitOutput {
  go_output : PatchOutput;
  go_cancelled : bool;
  go_timed_out : bool;
}.

Section patch.
Context `{fs : FileSystem}.
Variable replace_all : string -> string -> string -> string.
Variable sha256_hex : string -> string.
Variable line_changes : string -> string -> list (ChangeTag * string).
Variable unified_diff : string -> string -> string -> string -> string.
Variable policy : WorkspacePolicy.
Variable policy_ref : PolicyId.
Variable ids : FreshIds.
(** [git apply --numstat], and [git apply] on the files. *)
Variable run_numstat : list string -> string -> result ToolFault PatchOutput.
Variable run_git : list string -> string -> Disk -> result ToolFault GitOutput * Disk.
(** What a disk answers to reads. *)
Variable look : Disk -> string -> Observations.
Variable fs_metadata : string -> PatchTool.Metadata.
Variable fs_read : string -> result string string.

Fixpoint resolve_into (paths : list string) (resolved : list string) : result ToolFault (list string) :=
  match paths with
  | [] => Ok resolved
  | path :: paths =>
      let? p := resolve_tool_path policy policy_ref "apply_patch" path false in
      resolve_into paths (insert_path p resolved)
  end.

(*@ tools/src/lib.rs ToolRuntime::resolved_patch_paths *)
Definition resolved_patch_paths (patch : string) : result ToolFault (list string) :=
  let? paths := patch_paths policy run_numstat patch in
  resolve_into paths [].

(** [collect::<BTreeSet<PathBuf>>()], and the equality of two. *)
Definition path_set (paths : list string) : list string := foldl (fun s p => insert_path p s) [] paths.
Definition same_paths (a b : list string) : bool :=
  bool_decide (path_components <$> a = path_components <$> b).

(** The first image that is not current. *)
Fixpoint stale_image (observe : string -> Observations) (all images : list FileBeforeImage)
    : result ToolFault (option FileBeforeImage) :=
  match images with
  | [] => Ok None
  | image :: images =>
      let? current := before_image_still_current sha256_hex (image_path image) all (observe (image_path image)) in
      if current then stale_image observe all images else Ok (Some image)
  end.

Definition string_array (l : list string) : json := JArray (JString <$> l).

(*@ tools/src/lib.rs:2524-2566 ToolRuntime::apply_patch *)
Definition patch_to_apply (request : ToolRequest) (evaluation : PolicyEvaluation)
    (before_images : list FileBeforeImage) (d : Disk) : result ToolFault (MutationReport + (list string * string)) :=
  let? patch := string_arg (tr_arguments request) "patch" in
  let? _ := validate_patch_input patch in
  let checkpointed_paths := path_set (image_path <$> before_images) in
  let? resolved := resolved_patch_paths patch in
  let resolved_paths := path_set resolved in
  if negb (same_paths resolved_paths checkpointed_paths) then
    Ok (inl (mkMutationReport
      (error_report replace_all ids request "patch target paths changed after checkpoint"
         (json_obj [("conflict", JBool true); ("checkpointed_paths", string_array checkpointed_paths);
                    ("resolved_paths", string_array resolved_paths)]) "" evaluation) before_images))
  else
    let? stale := stale_image (look d) before_images before_images in
    match stale with
    | Some image =>
        Ok (inl (mkMutationReport
          (error_report replace_all ids request "patch target changed after checkpoint"
             (json_obj [("path", JString (image_path image)); ("conflict", JBool true)]) "" evaluation) []))
    | None =>
        let? patch := normalize_model_patch fs_metadata fs_read unified_diff policy policy_ref patch in
        Ok (inr (["apply"]
          ++ (if bool_decide (mode policy = Unrestricted) then ["--unsafe-paths"] else [])
          ++ ["--whitespace=nowarn"; "-"], patch))
    end.

(** The facts of a patch that was stopped or did not apply. *)
Definition patch_change_facts (changed_files : list string) : list (string * json) :=
  let count := N.of_nat (length changed_files) in
  [("workspace_changes_known", JBool true); ("workspace_change_count", json_u64 count);
   ("workspace_mutation_detected", JBool (0 <? count)); ("changed_files", string_array changed_files)].

(*@ tools/src/lib.rs:2572-2636 ToolRuntime::apply_patch *)
Definition patch_report (request : ToolRequest) (evaluation : PolicyEvaluation) (patch : string)
    (before_images after_images : list FileBeforeImage) (changed_files : list string) (output : GitOutput)
    : MutationReport :=
  let o := go_output output in
  let failed status summary facts :=
    mkMutationReport
      (with_after_images after_images
         (report replace_all ids request status summary (json_obj (facts ++ patch_change_facts changed_files))
            (bounded_text (po_raw_output o) MAX_TOOL_ERROR_CHARS) changed_files evaluation)) before_images in
  if go_cancelled output then
    failed ToolResultStatus.Cancelled "patch application cancelled" [("cancelled", JBool true)]
  else if go_timed_out output || negb (bool_decide (po_exit_code o = Some 0%Z))
          || match po_stdin_error o with Some _ => true | None => false end then
    failed ToolResultStatus.Error "patch could not be applied atomically"
      [("exit_code", json_opt JInt (po_exit_code o)); ("timed_out", JBool (go_timed_out output));
       ("stdin_error", json_opt JString (po_stdin_error o))]
  else
    attach_model_visible_change_preview replace_all line_changes (workspace_root policy)
      (mkMutationReport
         (with_after_images after_images
            (success_report replace_all ids request "patch applied"
               (json_obj [("changed_files", string_array changed_files);
                          ("changed_file_count", json_u64 (N.of_nat (length changed_files)));
                          ("patch_digest", JString (checksum sha256_hex patch));
                          ("workspace_changes_known", JBool true)])
               ("patch applied to " +:+ show (N.of_nat (length changed_files)) +:+ " file(s)")
               changed_files evaluation)) before_images).

(*@ tools/src/lib.rs ToolRuntime::apply_patch *)
Definition apply_patch (request : ToolRequest) (evaluation : PolicyEvaluation)
    (before_images : list FileBeforeImage) (d : Disk) : result ToolFault MutationReport * Disk :=
  match patch_to_apply request evaluation before_images d with
  | Err fault => (Err fault, d)
  | Ok (inl m) => (Ok m, d)
  | Ok (inr (args, patch)) =>
      let '(output, d') := run_git args patch d in
      (let? output := output in
       let? changes := file_changes_since sha256_hex (look d') before_images in
       Ok (patch_report request evaluation patch before_images (snd changes) (fst changes) output), d')
  end.

End patch.

(** ** What a patch changed *)

Section patch_effects.
Context `{fs : FileSystem} `{os : Os}.
Variable replace_all : string -> string -> string -> string.
Variable sha256_hex : string -> string.
Variable line_changes : string -> string -> list (ChangeTag * string).
Variable unified_diff : string -> string -> string -> string -> string.
Variable policy : WorkspacePolicy.
Variable policy_ref : PolicyId.
Variable ids : FreshIds.
Variable run_numstat : list string -> string -> result ToolFault PatchOutput.
Variable run_git : list string -> string -> Disk -> result ToolFault GitOutput * Disk.
Variable fs_metadata : string -> PatchTool.Metadata.
Variable fs_read : string -> result string string.

Abbreviation patch_call :=
  (apply_patch replace_all sha256_hex line_changes unified_diff policy policy_ref ids run_numstat run_git
     observe fs_metadata fs_read).

Lemma file_changes_spec d before changed after :
  file_changes_since sha256_hex (observe d) before = Ok (changed, after) ->
  (forall b, b ∈ before -> exists a, image_of sha256_hex d (image_path b) = Ok a) /\
  forall q, q ∈ changed <-> exists b a, b ∈ before /\ image_path b = q /\
    image_of sha256_hex d q = Ok a /\ same_image a b = false.
Proof.
  revert changed after. induction before as [|b before IH]; intros changed after; cbn [file_changes_since].
  { intros [= <- <-]. split; [by intros b Hb%elem_of_nil|]. intros q. rewrite elem_of_nil.
    split; [done|]. intros (b & a & Hb & _). by apply elem_of_nil in Hb. }
  destruct (read_optional_file _ _ _) as [a|] eqn:Ha; [|done].
  destruct (file_changes_since _ _ _) as [[ch af]|] eqn:Hr; [|done].
  destruct (IH ch af eq_refl) as [IH1 IH2]. intros Hok. split.
  - intros b' [->|Hb]%elem_of_cons; [by exists a|by apply IH1].
  - intros q. assert (q ∈ changed <-> (q = image_path b /\ same_image a b = false) \/ q ∈ ch) as ->.
    { destruct (same_image a b); simplify_eq; [naive_solver|]. rewrite elem_of_cons. naive_solver. }
    rewrite IH2. setoid_rewrite elem_of_cons. split.
    + intros [[-> Hs]|(b' & a' & ? & ? & ? & ?)]; [exists b, a; eauto|exists b', a'; eauto].
    + intros (b' & a' & [->|Hb] & Hq & Hi & Hs).
      * left. split; [done|]. rewrite <- Hq in Hi. unfold image_of in Hi. rewrite Ha in Hi. by injection Hi as <-.
      * right. by exists b', a'.
Qed.

(** The images of a checkpoint: one of each path, of files that are no links. *)
Definition checkpoint_of (d0 : Disk) (before : list FileBeforeImage) : Prop :=
  NoDup (path_components <$> (image_path <$> before)) /\
  Forall (fun b => image_of sha256_hex d0 (image_path b) = Ok b /\ is_link (d0 !! image_path b) = false) before.

Definition no_links (d : Disk) (before : list FileBeforeImage) : Prop :=
  Forall (fun b => is_link (d !! image_path b) = false) before.

Lemma image_at_member before b :
  NoDup (path_components <$> (image_path <$> before)) -> b ∈ before ->
  image_at (image_path b) before = Some b.
Proof.
  unfold image_at. induction before as [|c before IH]; intros Hnd Hb; [by apply elem_of_nil in Hb|].
  rewrite !fmap_cons in Hnd. apply NoDup_cons in Hnd as [Hc Hnd]. cbn [List.find]. unfold same_path at 1.
  apply elem_of_cons in Hb as [->|Hb]; [by rewrite bool_decide_true|].
  rewrite bool_decide_false; [by apply IH|]. intros He. apply Hc. rewrite He.
  by do 2 apply list_elem_of_fmap_2.
Qed.

Lemma stale_image_none d before images :
  stale_image sha256_hex (observe d) before images = Ok None ->
  forall b, b ∈ images -> before_image_still_current sha256_hex (image_path b) before
    (observe d (image_path b)) = Ok true.
Proof.
  induction images as [|c images IH]; intros Hs b Hb; [by apply elem_of_nil in Hb|].
  cbn [stale_image] in Hs. destruct (before_image_still_current _ _ _ _) as [[]|] eqn:Hc; try done.
  apply elem_of_cons in Hb as [->|Hb]; [done|by apply IH].
Qed.

(** A current checkpoint: each file is still the file of its image. *)
Lemma current_checkpoint d0 d before b :
  checkpoint_of d0 before -> no_links d before ->
  stale_image sha256_hex (observe d) before before = Ok None -> b ∈ before ->
  exists c, image_of sha256_hex d (image_path b) = Ok c /\ same_image c b = true /\
    same_entry (d !! image_path b) (d0 !! image_path b).
Proof.
  intros [Hnd Hf] Hl Hs Hb. pose proof (stale_image_none d before before Hs b Hb) as Hc.
  unfold before_image_still_current in Hc. rewrite image_at_member in Hc by done.
  destruct (read_optional_file _ _ _) as [c|] eqn:Hi; [|done]. injection Hc as Hsame.
  unfold no_links in Hl. rewrite Forall_forall in Hf, Hl. destruct (Hf b Hb) as [H0 Hl0].
  exists c. split_and!; [done|done|]. by apply (same_image_same_entry sha256_hex d d0 (image_path b) c b); auto.
Qed.

Lemma patch_report_changed request evaluation patch before after changed output :
  rp_changed_files (mu_report (patch_report replace_all sha256_hex line_changes policy ids request evaluation
    patch before after changed output)) = changed.
Proof.
  unfold patch_report. destruct (go_cancelled output); [done|].
  destruct (_ || _ || _); [done|].
  match goal with |- context [attach_model_visible_change_preview _ _ ?root ?m] =>
    destruct (attach_preview_keeps replace_all line_changes root m) as (-> & _) end. done.
Qed.

Lemma patch_to_apply_cases request evaluation before d look :
  match patch_to_apply replace_all sha256_hex unified_diff policy policy_ref ids run_numstat look fs_metadata
          fs_read request evaluation before d with
  | Ok (inl m) => rp_changed_files (mu_report m) = []
  | Ok (inr _) => stale_image sha256_hex (look d) before before = Ok None
  | Err _ => True
  end.
Proof.
  unfold patch_to_apply. destruct (string_arg _ _); [|done]. destruct (validate_patch_input _); [|done].
  destruct (resolved_patch_paths _ _ _ _); [|done]. destruct (negb _); [done|].
  destruct (stale_image _ _ _ _) as [[]|] eqn:Hs; [done| |done].
  by destruct (normalize_model_patch _ _ _ _ _ _).
Qed.

(** The report of an [apply_patch] call lists exactly the files that differ after it
    from what they were before it, whether [git] applied the patch, failed, ran out of time
    or was cancelled, when [git] touched no file but those of the checkpoint. *)
Theorem patch_changes_are_reported request evaluation before d0 d m d' :
  checkpoint_of d0 before -> no_links d before -> no_links d' before ->
  (forall args patch q, snd (run_git args patch d) !! q <> d !! q -> q ∈ image_path <$> before) ->
  patch_call request evaluation before d = (Ok m, d') ->
  forall q, q ∈ rp_changed_files (mu_report m) <-> d' !! q <> d !! q /\ ~ same_entry (d' !! q) (d !! q).
Proof.
  intros H0 Hl Hl' Hgit Hcall q. unfold apply_patch in Hcall.
  pose proof (patch_to_apply_cases request evaluation before d observe) as Hcases.
  destruct (patch_to_apply _ _ _ _ _ _ _ _ _ _ _ _ _ _) as [[m0|[args patch]]|]; [| |done].
  { injection Hcall as <- <-. rewrite Hcases, elem_of_nil. naive_solver. }
  specialize (Hgit args patch). destruct (run_git args patch d) as [output d1]. simpl in Hgit.
  injection Hcall as Hr <-.
  destruct output as [output|]; [|done].
  destruct (file_changes_since _ _ _) as [[changed after]|] eqn:Hch; [|done]. injection Hr as <-.
  rewrite patch_report_changed. simpl. destruct (file_changes_spec _ _ _ _ Hch) as [Hread Hspec].
  rewrite Hspec. unfold no_links in Hl'. rewrite Forall_forall in Hl'. split.
  - intros (b & a & Hb & <- & Ha & Hs).
    destruct (current_checkpoint d0 d before b H0 Hl Hcases Hb) as (c & Hc & Hcs & Hse).
    assert (d1 !! image_path b <> d !! image_path b) as Hne.
    { intros He. assert (image_of sha256_hex d1 (image_path b) = image_of sha256_hex d (image_path b)) as Hi
        by (unfold image_of, observe; by rewrite He).
      rewrite Ha, Hc in Hi. injection Hi as ->. congruence. }
    split; [done|]. intros Hsame. apply image_of_inv in Ha. apply image_of_inv in Hc.
    assert (same_image a c = true) as Hac.
    { destruct (d1 !! image_path b) as [[]|], (d !! image_path b) as [[]|]; try done.
      destruct Ha as [-> _], Hc as [-> _], Hsame as [-> Hm]. unfold same_image. simpl. rewrite Hm.
      by rewrite !bool_decide_true. }
    unfold same_image in *. boolhyps.
    assert (bool_decide (image_content a = image_content b) && bool_decide (image_unix_mode a = image_unix_mode b) = true);
      [|congruence].
    apply andb_true_intro; split; apply bool_decide_eq_true_2; congruence.
  - intros [Hne Hsame]. destruct (proj1 (list_elem_of_fmap _ _ _) (Hgit q Hne)) as (b & -> & Hb).
    destruct (Hread b Hb) as [a Ha]. exists b, a. split_and!; [done..|].
    destruct (same_image a b) eqn:Hs; [|done]. exfalso. apply Hsame.
    destruct (current_checkpoint d0 d before b H0 Hl Hcases Hb) as (c & _ & _ & Hse).
    destruct H0 as [_ Hf]. rewrite Forall_forall in Hf. destruct (Hf b Hb) as [H0 Hl0].
    pose proof (same_image_same_entry sha256_hex d1 d0 (image_path b) a b Ha H0 Hs (Hl' b Hb) Hl0) as Hse'.
    destruct (d1 !! image_path b) as [[]|], (d0 !! image_path b) as [[]|], (d !! image_path b) as [[]|]; try done.
    simpl in *. naive_solver congruence.
Qed.

End patch_effects.

(** ** The decision on a call *)

(** What [ToolRuntime] has: its policy, its contracts by name, and which backends. *)
Record ToolRuntime := mkToolRuntime {
  rt_policy : WorkspacePolicy;
  rt_contracts : list (string * ToolContract);
  rt_replay : bool;
  rt_delegation : bool;
  rt_external : bool;
}.

Definition contract (rt : ToolRuntime) (tool_name : string) : option ToolContract :=
  assoc tool_name (rt_contracts rt).

(*@ tools/src/lib.rs ToolRuntime::without_tool *)
Definition without_tool (rt : ToolRuntime) (tool_name : string) : ToolRuntime :=
  mkToolRuntime (rt_policy rt)
    (List.filter (fun '(k, _) => negb (bool_decide (k = tool_name))) (rt_contracts rt)) (rt_replay rt)
    (match BuiltinTool.from_name tool_name with
     | Some (BuiltinTool.Subagent | BuiltinTool.DelegateTask) => false
     | _ => rt_delegation rt
     end) (rt_external rt).

(*@ tools/src/lib.rs SideEffectPreparation *)
Record SideEffectPreparation := mkPreparation {
  sp_before_images : list FileBeforeImage;
  sp_complete : bool;
  sp_tracks_workspace : bool;
}.

Definition default_preparation : SideEffectPreparation := mkPreparation [] false false.
Definition complete_preparation (images : list FileBeforeImage) : SideEffectPreparation :=
  mkPreparation images true false.

Definition set_resource (resource : string) (e : PolicyEvaluation) : PolicyEvaluation :=
  mkPolicyEvaluation (pe_policy_ref e) (pe_subject e) (pe_action e) resource (pe_decision e)
    (pe_block_disposition e) (pe_reason e) (pe_evidence_refs e).

Section decide.
Context `{fs : FileSystem}.
Variable replace_all : string -> string -> string -> string.
Variable value_to_string : json -> string.
Variable session_text : SessionId -> string.
Variable sha256_hex : string -> string.
Variable shlex_split : string -> option (list string).
Variable bash_parse : string -> option Node.
(** The errors of the JSON Schema validator as [validate_tool_arguments] writes them, or
    why the schema does not compile. *)
Variable schema_errors : ToolContract -> json -> result string (list string).
Variable rt : ToolRuntime.
Variable policy_ref : PolicyId.

(*@ tools/src/lib.rs ToolRegistry::validate_tool_arguments *)
Definition validate_tool_arguments (c : ToolContract) (arguments : json) : result ToolFault unit :=
  match schema_errors c arguments with
  | Err error =>
      ShellRequest.invalid ("tool `" +:+ tc_tool_name c +:+ "` has an invalid input schema: " +:+ error)
  | Ok [] => validate_action_arguments shlex_split bash_parse (tc_tool_name c) arguments
  | Ok errors =>
      ShellRequest.invalid ("tool `" +:+ tc_tool_name c +:+ "` arguments do not match its contract: "
                            +:+ join "; " errors)
  end.

(** The contract of a call whose arguments it admits. *)
Definition admitted (request : ToolRequest) : result ToolFault ToolContract :=
  let? c := ok_or (Tool (UnknownTool (tr_tool_name request))) (contract rt (tr_tool_name request)) in
  let? _ := validate_tool_arguments c (tr_arguments request) in
  Ok c.

Abbreviation policy_of := (execution_policy replace_all value_to_string policy_ref).

(*@ tools/src/lib.rs process_list_policy *)
Definition process_list_policy (request : ToolRequest) : PolicyEvaluation :=
  set_resource ("process-session:" +:+ session_text (tr_session_id request))
    (policy_of request PolicyDecision.Allow "managed process discovery is scoped to the current session").

(*@ tools/src/lib.rs process_control_policy *)
Definition process_control_policy (request : ToolRequest) : PolicyEvaluation :=
  let process_id := default "<invalid-process-id>" (json_get (tr_arguments request) "process_id" ≫= as_str) in
  set_resource ("process:" +:+ process_id)
    (policy_of request PolicyDecision.Allow "process session control is scoped to the current session").

(*@ tools/src/lib.rs delegation_policy *)
Definition delegation_policy (request : ToolRequest) : PolicyEvaluation :=
  set_resource ("delegated-task:" +:+ session_text (tr_session_id request))
    (policy_of request PolicyDecision.Allow "delegated child inherits the enclosing agent capabilities").

Abbreviation path_policy := (evaluate_path (rt_policy rt) policy_ref).

(*@ tools/src/lib.rs:1224-1236 ToolRuntime::evaluate *)
Definition shell_policy (request : ToolRequest) : result ToolFault PolicyEvaluation :=
  let arguments := tr_arguments request in
  let? command := shell_command_for_request shlex_split bash_parse arguments in
  let? shell := match evaluate_shell shlex_split bash_parse (rt_policy rt) policy_ref command with
                | Ok e => Ok e | Err _ => Err ToolPanicked end in
  match optional_string_arg arguments "workdir" with
  | None => Ok shell
  | Some workdir =>
      let workdir_policy := path_policy "shell" workdir true in
      Ok (if bool_decide (pe_decision workdir_policy = PolicyDecision.Allow) then shell else workdir_policy)
  end.

(*@ tools/src/lib.rs:1189-1268 ToolRuntime::evaluate *)
Definition tool_policy (request : ToolRequest) : result ToolFault PolicyEvaluation :=
  let arguments := tr_arguments request in
  let directory := default "." (optional_string_arg arguments "path") in
  let unknown := Err (Tool (UnknownTool (tr_tool_name request))) in
  match BuiltinTool.from_name (tr_tool_name request) with
  | Some BuiltinTool.ReadFile =>
      let? path := string_arg arguments "path" in Ok (path_policy "read_file" path true)
  | Some BuiltinTool.WriteFile =>
      let? path := string_arg arguments "path" in Ok (path_policy "write_file" path false)
  | Some BuiltinTool.EditFile =>
      let? path := string_arg arguments "path" in Ok (path_policy "edit_file" path true)
  | Some BuiltinTool.ApplyPatch =>
      let? patch := string_arg arguments "patch" in
      let? _ := (if looks_like_model_patch patch then
                   match parse patch with Ok _ => Ok () | Err e => ShellRequest.invalid e end
                 else Ok ()) in
      Ok (path_policy "apply_patch" "." true)
  | Some BuiltinTool.ListDir => Ok (path_policy "list_dir" directory true)
  | Some BuiltinTool.RgSearch => Ok (path_policy "rg_search" directory true)
  | Some (BuiltinTool.SymbolSearch | BuiltinTool.FindReferences) =>
      Ok (path_policy (tr_tool_name request) "." true)
  | Some BuiltinTool.Shell => shell_policy request
  | Some BuiltinTool.ProcessList => Ok (process_list_policy request)
  | Some BuiltinTool.RuntimeStatus =>
      Ok (policy_of request PolicyDecision.Allow "read-only current runtime observation")
  | Some (BuiltinTool.ShellSession | BuiltinTool.ProcessPoll | BuiltinTool.ProcessWrite
          | BuiltinTool.ProcessTerminate | BuiltinTool.ProcessReconnect) =>
      Ok (process_control_policy request)
  | Some (BuiltinTool.Subagent | BuiltinTool.DelegateTask) =>
      if rt_delegation rt then Ok (delegation_policy request) else unknown
  | None =>
      if rt_external rt then
        Ok (set_resource ("external-tool:" +:+ tr_tool_name request)
              (policy_of request PolicyDecision.Ask "external MCP tool execution requires explicit approval"))
      else unknown
  | Some BuiltinTool.AskUser => unknown
  end.

(*@ tools/src/lib.rs ToolRuntime::evaluate *)
Definition evaluate (request : ToolRequest) : result ToolFault PolicyEvaluation :=
  if rt_replay rt then
    Ok (policy_of request PolicyDecision.Allow "deterministic replay injects a recorded tool result")
  else
    let? _ := admitted request in
    let? e := tool_policy request in
    let e := if bool_decide (mode (rt_policy rt) = Unrestricted) then
               mkPolicyEvaluation (pe_policy_ref e) (pe_subject e) (pe_action e) (pe_resource e)
                 PolicyDecision.Allow None "unrestricted workspace policy enabled" (pe_evidence_refs e)
             else e in
    Ok (set_resource (bounded_text (redact replace_all (pe_resource e)) MAX_AUDIT_RESOURCE_CHARS) e).

(** ** The checkpoint of a call *)

Variable observe : string -> Observations.
Variable run_numstat : list string -> string -> result ToolFault PatchOutput.
(** The images of a workspace scan, and whether it is complete. *)
Variable captured : list FileBeforeImage * bool.

Abbreviation read_image := (fun path => read_optional_file sha256_hex path (observe path)).

(*@ tools/src/lib.rs:1332-1349 ToolRuntime::prepare_side_effect_snapshot *)
Fixpoint patch_images (paths : list string) (retained_bytes : N) (images : list FileBeforeImage)
    : result ToolFault (list FileBeforeImage) :=
  match paths with
  | [] => Ok images
  | path :: paths =>
      let? image := read_image path in
      let retained_bytes := sat_add usize_max retained_bytes (file_image_content_bytes image) in
      if MAX_WORKSPACE_SNAPSHOT_CONTENT_BYTES <? retained_bytes then
        ShellRequest.invalid ("patch checkpoint exceeds " +:+ show MAX_WORKSPACE_SNAPSHOT_CONTENT_BYTES
                              +:+ " retained bytes")
      else patch_images paths retained_bytes (images ++ [image])
  end.

(*@ tools/src/lib.rs ToolRuntime::prepare_side_effect_snapshot *)
Definition prepare_side_effect_snapshot (request : ToolRequest) : result ToolFault SideEffectPreparation :=
  let arguments := tr_arguments request in
  let resolve := resolve_tool_path (rt_policy rt) policy_ref in
  let scan := Ok (mkPreparation (fst captured) (snd captured) true) in
  if rt_replay rt then Ok default_preparation
  else
    let? c := admitted request in
    match BuiltinTool.from_name (tr_tool_name request) with
    | Some BuiltinTool.WriteFile =>
        let? path := string_arg arguments "path" in
        let? resolved_path := resolve "write_file" path false in
        let? image := read_image resolved_path in
        Ok (complete_preparation [image])
    | Some BuiltinTool.EditFile =>
        let? path := string_arg arguments "path" in
        let? resolved_path := resolve "edit_file" path true in
        let? image := read_image resolved_path in
        match image_content image with
        | None => execution "edit target does not exist"
        | Some _ => Ok (complete_preparation [image])
        end
    | Some BuiltinTool.ApplyPatch =>
        let? patch := string_arg arguments "patch" in
        let? paths := resolved_patch_paths (rt_policy rt) policy_ref run_numstat patch in
        let? images := patch_images paths 0 [] in
        Ok (complete_preparation images)
    | Some BuiltinTool.Shell =>
        if shell_request_is_strictly_read_only shlex_split bash_parse arguments
        then Ok (complete_preparation []) else scan
    | Some (BuiltinTool.Subagent | BuiltinTool.DelegateTask) => scan
    | None =>
        match tc_side_effect_type c with
        | SideEffectType.ExternalSystem | SideEffectType.Network => Ok default_preparation
        | _ => Ok (complete_preparation [])
        end
    | Some _ => Ok (complete_preparation [])
    end.

(*@ tools/src/lib.rs ToolRuntime::resolve_keyed_write_paths *)
Definition resolve_keyed_write_paths (request : ToolRequest) : result ToolFault (list string) :=
  let arguments := tr_arguments request in
  let tool := tr_tool_name request in
  let resolve := resolve_tool_path (rt_policy rt) policy_ref in
  if negb (among tool ["write_file"; "edit_file"; "apply_patch"]) then Ok []
  else
    let? _ := admitted request in
    if bool_decide (tool = "write_file") then
      let? path := string_arg arguments "path" in
      let? p := resolve "write_file" path false in Ok [p]
    else if bool_decide (tool = "edit_file") then
      let? path := string_arg arguments "path" in
      let? p := resolve "edit_file" path true in Ok [p]
    else
      let? patch := string_arg arguments "patch" in
      resolved_patch_paths (rt_policy rt) policy_ref run_numstat patch.

End decide.

(** ** Running a call *)

(*@ tools/src/lib.rs ToolInvocationStop *)
Inductive ToolInvocationStop := StopCancelled | StopTimedOut.

(*@ tools/src/lib.rs ToolInvocation *)
Record ToolInvocation := mkInvocation {
  ti_request : ToolRequest;
  ti_policy : PolicyEvaluation;
  ti_approved : bool;
  ti_preparation : option SideEffectPreparation;
  ti_pre_execution_stop : option ToolInvocationStop;
}.

(** How the wait for an operation ends: it completes; it is cancelled, or its deadline
    comes, and it completes in the time for cleaning up or not; or the deadline was over
    before it was polled. *)
Inductive OperationEnd :=
| RanToEnd
| CancelledMidway (completed : bool)
| DeadlineMidway (completed : bool)
| DeadlineBefore.

(*@ tools/src/lib.rs ToolOperationOutcome *)
Inductive ToolOperationOutcome (T : Type) :=
| Completed (output : T)
| OutcomeCancelled
| OutcomeTimedOut (output : option T).
Arguments Completed {T}. Arguments OutcomeCancelled {T}. Arguments OutcomeTimedOut {T}.

(*@ tools/src/lib.rs await_tool_operation *)
Definition await_tool_operation {T} (output : T) (how : OperationEnd) : ToolOperationOutcome T :=
  match how with
  | DeadlineBefore => OutcomeTimedOut None
  | RanToEnd | CancelledMidway true => Completed output
  | CancelledMidway false => OutcomeCancelled
  | DeadlineMidway completed => OutcomeTimedOut (if completed then Some output else None)
  end.

(** An operation that was polled to its end. *)
Definition ends (how : OperationEnd) : bool :=
  match how with RanToEnd | CancelledMidway true | DeadlineMidway true => true | _ => false end.

(** What the operation of a call does first: it settles without a tool, or starts one. *)
Inductive Operation :=
| Settled (r : result ToolFault MutationReport)
| Started (r : result ToolFault MutationReport) (after : Disk).

Section run.
Context `{fs : FileSystem} `{dirs : Directories}.
Variable replace_all : string -> string -> string -> string.
Variable ids : FreshIds.
Variable rt : ToolRuntime.
Variable validate : ToolContract -> json -> result ToolFault unit.
(** The recorded result of a call, and the tools. *)
Variable replay : ToolRequest -> result ToolFault ToolResultEnvelope.
Variable run_tool : option BuiltinTool -> ToolRequest -> PolicyEvaluation -> list FileBeforeImage -> Disk ->
  result ToolFault MutationReport * Disk.
Variable policy_ref : PolicyId.

Definition bare (r : ToolExecutionReport) : MutationReport := mkMutationReport r [].

(*@ tools/src/lib.rs denied_report *)
Definition denied_report (request : ToolRequest) (evaluation : PolicyEvaluation) (reason : string)
    : ToolExecutionReport :=
  report replace_all ids request ToolResultStatus.Blocked reason
    (json_obj [("blocked", JBool true); ("reason", JString reason)]) "" [] evaluation.

(*@ tools/src/lib.rs cancelled_report_with_policy *)
Definition cancelled_report_with_policy (request : ToolRequest) (evaluation : PolicyEvaluation)
    (reason : string) : ToolExecutionReport :=
  report replace_all ids request ToolResultStatus.Cancelled reason
    (json_obj [("cancelled", JBool true)]) "" [] evaluation.

Definition with_risk (risk : string) (r : ToolExecutionReport) : ToolExecutionReport :=
  let e := rp_envelope r in
  {| rp_envelope :=
       {| env_tool_call_id := env_tool_call_id e; env_tool_name := env_tool_name e;
          env_status := env_status e; env_summary := env_summary e;
          structured_facts := structured_facts e; model_visible_excerpt := model_visible_excerpt e;
          raw_artifact_ref := raw_artifact_ref e; env_evidence_refs := env_evidence_refs e;
          env_risk := risk; verification_hint := verification_hint e |};
     rp_evidence := rp_evidence r; rp_changed_files := rp_changed_files r;
     rp_policy_evaluation := rp_policy_evaluation r;
     rp_artifact_contents := rp_artifact_contents r; rp_after_images := rp_after_images r |}.

(*@ tools/src/lib.rs ToolRuntime::deadline_exceeded_report *)
Definition deadline_exceeded_report (request : ToolRequest) (evaluation : PolicyEvaluation) (stage : string)
    : ToolExecutionReport :=
  let known := is_some_and (fun c => bool_decide (tc_side_effect_type c = SideEffectType.None))
                 (contract rt (tr_tool_name request)) in
  let r := report replace_all ids request ToolResultStatus.Timeout
             "tool call exceeded its enclosing runtime deadline"
             (json_obj [("timed_out", JBool true); ("deadline_stage", JString stage);
                        ("workspace_changes_known", JBool known)]) "" [] evaluation in
  match BuiltinTool.from_name (env_tool_name (rp_envelope r)) with
  | Some (BuiltinTool.Subagent | BuiltinTool.DelegateTask) => with_risk "delegated_agent" r
  | None => with_risk "external_mcp_tool" r
  | _ => r
  end.

Definition with_outcome (status : ToolResultStatus) (summary : string) (facts : json)
    (r : ToolExecutionReport) : ToolExecutionReport :=
  let e := rp_envelope r in
  {| rp_envelope :=
       {| env_tool_call_id := env_tool_call_id e; env_tool_name := env_tool_name e;
          env_status := status; env_summary := summary;
          structured_facts := facts; model_visible_excerpt := model_visible_excerpt e;
          raw_artifact_ref := raw_artifact_ref e; env_evidence_refs := env_evidence_refs e;
          env_risk := env_risk e; verification_hint := verification_hint e |};
     rp_evidence := rp_evidence r; rp_changed_files := rp_changed_files r;
     rp_policy_evaluation := rp_policy_evaluation r;
     rp_artifact_contents := rp_artifact_contents r; rp_after_images := rp_after_images r |}.

(*@ tools/src/lib.rs mark_report_deadline_exceeded *)
Definition mark_report_deadline_exceeded (r : ToolExecutionReport) : ToolExecutionReport :=
  let facts := facts_of r in
  let known := default true (json_get facts "workspace_changes_known" ≫= as_bool) in
  let late := [("timed_out", JBool true); ("deadline_stage", JString "execution");
               ("completed_during_deadline_cleanup", JBool true); ("workspace_changes_known", JBool known)] in
  with_outcome ToolResultStatus.Timeout "tool call completed after its enclosing runtime deadline"
    (match facts with
     | JObject m => JObject (foldl (fun m '(k, v) => entries_insert k v m) m late)
     | value => json_obj (("result", value) :: late)
     end) r.

(** [Allow], or [Ask] with an approval. *)
(*@ tools/src/lib.rs:928-933 ToolRuntime::invoke *)
Definition permitted (i : ToolInvocation) : bool :=
  match pe_decision (ti_policy i) with
  | PolicyDecision.Allow => true
  | PolicyDecision.Ask => ti_approved i
  | PolicyDecision.Deny | PolicyDecision.Block => false
  end.

(*@ tools/src/lib.rs:1534-1592 ToolRuntime::invoke_prepared *)
Definition operation (i : ToolInvocation) (before_images : list FileBeforeImage) (cancelled : bool) (d : Disk)
    : Operation :=
  let request := ti_request i in
  let evaluation := ti_policy i in
  let settle r := Settled (Ok (bare r)) in
  if rt_replay rt then
    if cancelled then
      settle (cancelled_report_with_policy request evaluation "tool replay cancelled before result injection")
    else
      Settled (let? e := replay request in
               Ok (bare (mkReport
                 {| env_tool_call_id := tr_tool_call_id request; env_tool_name := tr_tool_name request;
                    env_status := env_status e; env_summary := env_summary e;
                    structured_facts := structured_facts e; model_visible_excerpt := model_visible_excerpt e;
                    raw_artifact_ref := raw_artifact_ref e; env_evidence_refs := env_evidence_refs e;
                    env_risk := env_risk e; verification_hint := verification_hint e |}
                 [] [] evaluation [] [])))
  else
    match (let? c := ok_or (Tool (UnknownTool (tr_tool_name request))) (contract rt (tr_tool_name request)) in
           validate c (tr_arguments request)) with
    | Err fault => Settled (Err fault)
    | Ok _ =>
        if cancelled then
          settle (cancelled_report_with_policy request evaluation "tool call cancelled before execution")
        else if permitted i then
          match BuiltinTool.from_name (tr_tool_name request) with
          | Some BuiltinTool.AskUser => Settled (Err (Tool (UnknownTool "ask_user")))
          | tool => let '(r, after) := run_tool tool request evaluation before_images d in Started r after
          end
        else
          match pe_decision evaluation with
          | PolicyDecision.Ask => settle (denied_report request evaluation "tool execution requires approval")
          | _ =>
              settle (blocked_report_with_hints (rt_policy rt) policy_ref replace_all ids request evaluation)
          end
    end.

(** The files an operation leaves: a tool that was stopped may have done any part of its
    work, which is [partial]. *)
Definition files_after (op : Operation) (how : OperationEnd) (partial d : Disk) : Disk :=
  match op, how with
  | Settled _, _ => d
  | Started _ _, DeadlineBefore => d
  | Started _ after, how => if ends how then after else partial
  end.

Definition outcome_of (op : Operation) : result ToolFault MutationReport :=
  match op with Settled r | Started r _ => r end.

(*@ tools/src/lib.rs ToolRuntime::invoke_prepared *)
Definition invoke_prepared (i : ToolInvocation) (cancelled : bool) (how : OperationEnd) (partial d : Disk)
    : result ToolFault MutationReport * Disk :=
  let request := ti_request i in
  let evaluation := ti_policy i in
  match ti_preparation i with
  | None => (Err (Tool (Execution "tool invocation was not prepared")), d)
  | Some preparation =>
      match validate_checkpoint_content_limit (sp_before_images preparation) with
      | Err fault => (Err fault, d)
      | Ok _ =>
          match ti_pre_execution_stop i with
          | Some StopCancelled =>
              (Ok (bare (cancelled_report_with_policy request evaluation
                           "tool call cancelled during side-effect preparation")), d)
          | Some StopTimedOut =>
              (Ok (bare (deadline_exceeded_report request evaluation "side-effect preparation")), d)
          | None =>
              let op := operation i (sp_before_images preparation) cancelled d in
              (match await_tool_operation (outcome_of op) how with
               | Completed r => r
               | OutcomeCancelled =>
                   Ok (bare (cancelled_report_with_policy request evaluation
                               "tool call cancelled during execution"))
               | OutcomeTimedOut (Some (Ok m)) =>
                   Ok (mkMutationReport (mark_report_deadline_exceeded (mu_report m)) (mu_before_images m))
               | OutcomeTimedOut (Some (Err fault)) => Err fault
               | OutcomeTimedOut None =>
                   Ok (bare (deadline_exceeded_report request evaluation "execution"))
               end, files_after op how partial d)
          end
      end
  end.

(** [prepared] is what preparing the side effects gives: a checkpoint, an error, or the
    reason why it was stopped. *)
(*@ tools/src/lib.rs ToolRuntime::invoke *)
Definition invoke (prepared : ToolRequest -> result ToolInvocationStop (result ToolFault SideEffectPreparation))
    (i : ToolInvocation) (cancelled : bool) (how : OperationEnd) (partial d : Disk)
    : result ToolFault MutationReport * Disk :=
  let ready preparation stop :=
    invoke_prepared (mkInvocation (ti_request i) (ti_policy i) (ti_approved i) (Some preparation) stop)
      cancelled how partial d in
  match ti_preparation i with
  | Some preparation => ready preparation (ti_pre_execution_stop i)
  | None =>
      if negb cancelled && permitted i then
        match prepared (ti_request i) with
        | Ok (Ok preparation) => ready preparation (ti_pre_execution_stop i)
        | Ok (Err fault) => (Err fault, d)
        | Err stop => ready default_preparation (Some stop)
        end
      else ready default_preparation (ti_pre_execution_stop i)
  end.

End run.

(** ** The gate *)

Lemma blocked_report_keeps `{FileSystem} `{Directories} policy ref replace_all ids request evaluation :
  let r := blocked_report_with_hints policy ref replace_all ids request evaluation in
  rp_changed_files r = [] /\ env_status (rp_envelope r) = ToolResultStatus.Blocked.
Proof.
  unfold blocked_report_with_hints. destruct (_ || _ || _); [done|]. cbv zeta. by case_match.
Qed.

Lemma deadline_report_keeps replace_all ids rt request evaluation stage :
  let r := deadline_exceeded_report replace_all ids rt request evaluation stage in
  rp_changed_files r = [] /\ env_status (rp_envelope r) = ToolResultStatus.Timeout.
Proof. unfold deadline_exceeded_report. cbv zeta. repeat case_match; done. Qed.

Section gate.
Context `{fs : FileSystem} `{dirs : Directories}.
Variable replace_all : string -> string -> string -> string.
Variable ids : FreshIds.
Variable rt : ToolRuntime.
Variable validate : ToolContract -> json -> result ToolFault unit.
Variable replay : ToolRequest -> result ToolFault ToolResultEnvelope.
Variable run_tool : option BuiltinTool -> ToolRequest -> PolicyEvaluation -> list FileBeforeImage -> Disk ->
  result ToolFault MutationReport * Disk.
Variable policy_ref : PolicyId.

Abbreviation call := (invoke replace_all ids rt validate replay run_tool policy_ref).
Abbreviation op := (operation replace_all ids rt validate replay run_tool policy_ref).

(** Without permission nothing is started, and what is reported lists no change and is no
    success. *)
Lemma unpermitted_settles i before cancelled d :
  permitted i = false -> rt_replay rt = false ->
  exists r, op i before cancelled d = Settled r /\
    forall m, r = Ok m -> rp_changed_files (mu_report m) = [] /\ ~ ok_status m.
Proof.
  intros Hp Hr. unfold operation. rewrite Hr.
  destruct (contract rt _) as [c|]; [|by eexists]. cbn [ok_or].
  destruct (validate c _); [|by eexists]. destruct cancelled; [eexists; split; [done|]; by intros m [= <-]|].
  rewrite Hp. destruct (pe_decision (ti_policy i)) eqn:Hd.
  all: eexists; (split; [done|]); intros m [= <-]; unfold ok_status; cbn [mu_report bare];
    destruct (blocked_report_keeps (rt_policy rt) policy_ref replace_all ids (ti_request i) (ti_policy i))
      as [H1 H2]; rewrite ?H1, ?H2; done.
Qed.

Lemma invoke_prepared_unpermitted i cancelled how partial d r d' :
  permitted i = false -> rt_replay rt = false ->
  invoke_prepared replace_all ids rt validate replay run_tool policy_ref i cancelled how partial d = (r, d') ->
  d' = d /\ forall m, r = Ok m -> rp_changed_files (mu_report m) = [] /\ ~ ok_status m.
Proof.
  intros Hp Hr. unfold invoke_prepared.
  destruct (ti_preparation i) as [preparation|]; [|by intros [= <- <-]].
  destruct (validate_checkpoint_content_limit _); [|by intros [= <- <-]].
  destruct (ti_pre_execution_stop i) as [[]|].
  - intros [= <- <-]. split; [done|]. by intros m [= <-].
  - intros [= <- <-]. split; [done|]. intros m [= <-]. unfold ok_status. cbn [mu_report bare].
    destruct (deadline_report_keeps replace_all ids rt (ti_request i) (ti_policy i) "side-effect preparation")
      as [-> ->]. done.
  - destruct (unpermitted_settles i (sp_before_images preparation) cancelled d Hp Hr) as (s & -> & Hs).
    intros [= <- <-]. split; [done|]. cbn [outcome_of].
    assert (forall m, Ok (bare (deadline_exceeded_report replace_all ids rt (ti_request i) (ti_policy i) "execution"))
              = Ok (E := ToolFault) m -> rp_changed_files (mu_report m) = [] /\ ~ ok_status m) as Hlate.
    { intros m [= <-]. unfold ok_status. cbn [mu_report bare].
      destruct (deadline_report_keeps replace_all ids rt (ti_request i) (ti_policy i) "execution") as [-> ->]. done. }
    destruct how as [|[]|[]|]; cbn [await_tool_operation]; try done.
    + by intros m [= <-].
    + destruct s as [m0|]; [|done]. intros m [= <-]. destruct (Hs m0 eq_refl) as [Hc _].
      split; [exact Hc|done].
Qed.

(** C12 (safety): without a replay backend, a call that the policy blocks or denies, or for which it asks and nobody approved,
    changes no file, whatever its tool would do, with or without a checkpoint and however
    the wait for it ends; it is not reported as a success and lists no changed file. *)
Theorem unpermitted_call_changes_nothing prepared i cancelled how partial d r d' :
  permitted i = false -> rt_replay rt = false ->
  call prepared i cancelled how partial d = (r, d') ->
  d' = d /\ forall m, r = Ok m -> rp_changed_files (mu_report m) = [] /\ ~ ok_status m.
Proof.
  intros Hp Hr. unfold invoke. rewrite Hp, andb_false_r.
  destruct (ti_preparation i); intros Hc; by eapply invoke_prepared_unpermitted in Hc.
Qed.

Lemma deadline_report_flag request evaluation stage c :
  contract rt (tr_tool_name request) = Some c -> tc_side_effect_type c <> SideEffectType.None ->
  model_output_truncation_key (tr_tool_name request) = None ->
  fact_flag (deadline_exceeded_report replace_all ids rt request evaluation stage) "workspace_changes_known" = false.
Proof.
  intros Hc Hs Ht. unfold deadline_exceeded_report. rewrite Hc. cbn [is_some_and].
  rewrite bool_decide_false by done. cbv zeta.
  match goal with |- context [report ?a ?b ?c ?d ?e ?f ?g ?h ?i] =>
    assert (fact_flag (report a b c d e f g h i) "workspace_changes_known" = false) as Hf
      by (unfold fact_flag, facts_of; by rewrite report_fact) end.
  repeat case_match; exact Hf.
Qed.

(** A call whose wait ends without its result: what its report is. *)
Lemma invoke_prepared_late i c cancelled how partial d r d' :
  contract rt (tr_tool_name (ti_request i)) = Some c -> tc_side_effect_type c <> SideEffectType.None ->
  model_output_truncation_key (tr_tool_name (ti_request i)) = None ->
  (how = DeadlineBefore \/ how = DeadlineMidway false) ->
  invoke_prepared replace_all ids rt validate replay run_tool policy_ref i cancelled how partial d = (r, d') ->
  (how = DeadlineBefore -> d' = d) /\
  forall m, r = Ok m -> fact_flag (mu_report m) "workspace_changes_known" = false /\ ~ ok_status m.
Proof.
  intros Hc Hs Ht Hhow. unfold invoke_prepared.
  assert (forall stage m, Ok (bare (deadline_exceeded_report replace_all ids rt (ti_request i) (ti_policy i) stage))
            = Ok (E := ToolFault) m ->
            fact_flag (mu_report m) "workspace_changes_known" = false /\ ~ ok_status m) as Hlate.
  { intros stage m [= <-]. unfold ok_status. cbn [mu_report bare].
    split; [by eapply deadline_report_flag|].
    destruct (deadline_report_keeps replace_all ids rt (ti_request i) (ti_policy i) stage) as [_ ->]. done. }
  destruct (ti_preparation i) as [preparation|]; [|by intros [= <- <-]].
  destruct (validate_checkpoint_content_limit _); [|by intros [= <- <-]].
  destruct (ti_pre_execution_stop i) as [[]|].
  - intros [= <- <-]. split; [done|]. intros m [= <-]. split; [|done].
    unfold fact_flag, facts_of, cancelled_report_with_policy. cbn [mu_report bare]. by rewrite report_fact.
  - intros [= <- <-]. split; [done|]. by apply Hlate.
  - intros [= <- <-]. destruct Hhow as [-> | ->]; cbn [await_tool_operation]; (split; [|by apply Hlate]).
    + intros _. by destruct (operation _ _ _ _ _ _ _ _ _ _).
    + done.
Qed.

(** A tool that the deadline stops in the middle of its work is not reported as a
    success, and when its contract admits side effects the report says that what it
    changed is not known; a deadline that was over before the call lets no tool run. *)
Theorem late_call_admits_unknown_changes prepared i c cancelled how partial d r d' :
  contract rt (tr_tool_name (ti_request i)) = Some c -> tc_side_effect_type c <> SideEffectType.None ->
  model_output_truncation_key (tr_tool_name (ti_request i)) = None ->
  (how = DeadlineBefore \/ how = DeadlineMidway false) ->
  call prepared i cancelled how partial d = (r, d') ->
  (how = DeadlineBefore -> d' = d) /\
  forall m, r = Ok m -> fact_flag (mu_report m) "workspace_changes_known" = false /\ ~ ok_status m.
Proof.
  intros Hc Hs Ht Hhow. unfold invoke.
  destruct (ti_preparation i); [intros Hi; by eapply invoke_prepared_late in Hi|].
  destruct (negb cancelled && permitted i); [|intros Hi; by eapply invoke_prepared_late in Hi].
  destruct (prepared (ti_request i)) as [[preparation|fault]|stop];
    [intros Hi; by eapply invoke_prepared_late in Hi|by intros [= <- <-]|
     intros Hi; by eapply invoke_prepared_late in Hi].
Qed.
End gate.

(** ** The keys of a write *)

Lemma read_image_path sha256_hex path ob b :
  read_optional_file sha256_hex path ob = Ok b -> image_path b = path.
Proof.
  unfold read_optional_file, execution. destruct (ob_path_metadata ob) as [meta|e].
  2: { destruct (se_not_found e); [|done]. by intros [= <-]. }
  destruct (fm_kind meta); [|destruct (io_err _); [|done]; destruct (_ <? _); [done|]; by intros [= <-]|done].
  unfold read_regular_file, execution. destruct (io_err (ob_opened ob)); [|done].
  destruct (negb _ || negb _); [done|]. destruct (_ <? _); [done|].
  destruct (io_err (ob_bytes ob)) as [bytes|]; [|discriminate].
  generalize (byte_prefix (N.to_nat (sat_add u64_max MAX_FILE_CONTENT_BYTES 1)) bytes). intros content.
  destruct (_ <? _); [discriminate|].
  destruct (io_err (ob_final_metadata ob)); [|done]. destruct (io_err (ob_current_metadata ob)); [|done].
  destruct (_ || _ || _ || _); [done|]. by intros [= <-].
Qed.

Section keys.
Context `{fs : FileSystem}.
Variable sha256_hex : string -> string.
Variable shlex_split : string -> option (list string).
Variable bash_parse : string -> option Node.
Variable schema_errors : ToolContract -> json -> result string (list string).
Variable rt : ToolRuntime.
Variable policy_ref : PolicyId.
Variable observe : string -> Observations.
Variable run_numstat : list string -> string -> result ToolFault PatchOutput.
Variable captured : list FileBeforeImage * bool.

Lemma patch_images_paths paths : forall retained images result,
  patch_images sha256_hex observe paths retained images = Ok result ->
  image_path <$> result = (image_path <$> images) ++ paths.
Proof.
  induction paths as [|path paths IH]; intros retained images result; cbn [patch_images].
  { intros [= <-]. by rewrite app_nil_r. }
  destruct (read_optional_file _ _ _) as [b|] eqn:Hb; [|done]. apply read_image_path in Hb.
  unfold ShellRequest.invalid. destruct (_ <? _); [done|]. intros Hr. apply IH in Hr.
  rewrite Hr, fmap_app, <- app_assoc. cbn. by rewrite Hb.
Qed.

(** The paths by which the scheduler orders a file mutation are exactly the paths of
    its checkpoint, in the same order: two calls that would write the same file never get
    different keys for it. *)
Theorem write_keys_are_the_checkpoint request prep keys :
  rt_replay rt = false -> tr_tool_name request ∈ ["write_file"; "edit_file"; "apply_patch"] ->
  prepare_side_effect_snapshot sha256_hex shlex_split bash_parse schema_errors rt policy_ref observe run_numstat
    captured request = Ok prep ->
  resolve_keyed_write_paths shlex_split bash_parse schema_errors rt policy_ref run_numstat request = Ok keys ->
  image_path <$> sp_before_images prep = keys /\ sp_complete prep = true.
Proof.
  intros Hr Ht. unfold prepare_side_effect_snapshot, resolve_keyed_write_paths, among.
  rewrite Hr, (bool_decide_true (tr_tool_name request ∈ _)) by done. cbn [negb].
  destruct (admitted _ _ _ _ _) as [c|]; [|done].
  apply elem_of_cons in Ht as [->|[->|[->|[]%elem_of_nil]%elem_of_cons]%elem_of_cons].
  - change (BuiltinTool.from_name "write_file") with (Some BuiltinTool.WriteFile).
    rewrite bool_decide_true by done. destruct (string_arg _ _); [|done].
    destruct (resolve_tool_path _ _ _ _ _); [|done].
    destruct (read_optional_file _ _ _) as [b|] eqn:Hb; [|done]. intros [= <-] [= <-].
    by rewrite <- (read_image_path _ _ _ _ Hb).
  - change (BuiltinTool.from_name "edit_file") with (Some BuiltinTool.EditFile).
    rewrite (bool_decide_false ("edit_file" = "write_file")), bool_decide_true by done.
    destruct (string_arg _ _); [|done]. destruct (resolve_tool_path _ _ _ _ _); [|done].
    destruct (read_optional_file _ _ _) as [b|] eqn:Hb; [|done].
    destruct (image_content b); [|done]. intros [= <-] [= <-]. by rewrite <- (read_image_path _ _ _ _ Hb).
  - change (BuiltinTool.from_name "apply_patch") with (Some BuiltinTool.ApplyPatch).
    rewrite (bool_decide_false ("apply_patch" = "write_file")), (bool_decide_false ("apply_patch" = "edit_file")) by done.
    destruct (string_arg _ _); [|done]. destruct (resolved_patch_paths _ _ _ _) as [paths|]; [|done].
    destruct (patch_images _ _ _ _ _) as [images|] eqn:Hi; [|done]. intros [= <-] [= <-].
    apply patch_images_paths in Hi. split; [exact Hi|done].
Qed.

End keys.

(** ** The tools behind the gate *)

Section dispatch.
Context `{fs : FileSystem} `{os : Os}.
Variable replace_all : string -> string -> string -> string.
Variable sha256_hex : string -> string.
Variable line_changes : string -> string -> list (ChangeTag * string).
Variable unified_diff : string -> string -> string -> string -> string.
Variable utf8_error : string -> string.
Variable policy : WorkspacePolicy.
Variable policy_ref : PolicyId.
Variable ids : FreshIds.
Variable run_numstat : list string -> string -> result ToolFault PatchOutput.
Variable run_git : list string -> string -> Disk -> result ToolFault GitOutput * Disk.
Variable fs_metadata : string -> PatchTool.Metadata.
Variable fs_read : string -> result string string.
Variable outcome : WriteOutcome.
(** The tools that are not modelled. *)
Variable run_other : option BuiltinTool -> ToolRequest -> PolicyEvaluation -> list FileBeforeImage -> Disk ->
  result ToolFault MutationReport * Disk.

(*@ tools/src/lib.rs:1594-1684 ToolRuntime::invoke_prepared *)
Definition run_builtin (tool : option BuiltinTool) (request : ToolRequest) (evaluation : PolicyEvaluation)
    (before_images : list FileBeforeImage) (d : Disk) : result ToolFault MutationReport * Disk :=
  match tool with
  | Some BuiltinTool.ReadFile =>
      (let? r := read_file replace_all sha256_hex utf8_error policy policy_ref ids (observe d) request evaluation in
       Ok (bare r), d)
  | Some BuiltinTool.WriteFile =>
      write_file replace_all sha256_hex line_changes policy policy_ref ids (observe d) outcome request evaluation
        before_images d
  | Some BuiltinTool.EditFile =>
      edit_file replace_all sha256_hex line_changes utf8_error policy policy_ref ids (observe d) fs_read outcome
        request evaluation before_images d
  | Some BuiltinTool.ApplyPatch =>
      apply_patch replace_all sha256_hex line_changes unified_diff policy policy_ref ids run_numstat run_git
        observe fs_metadata fs_read request evaluation before_images d
  | _ => run_other tool request evaluation before_images d
  end.

End dispatch.

(** ** A small runtime *)

Definition plain_contract (name : string) (side_effect : SideEffectType) : ToolContract :=
  mkToolContract name JNull JNull JNull side_effect "" "" "" "" "" None.

Definition small_rt : ToolRuntime :=
  mkToolRuntime small_policy
    [("write_file", plain_contract "write_file" SideEffectType.File);
     ("edit_file", plain_contract "edit_file" SideEffectType.File);
     ("apply_patch", plain_contract "apply_patch" SideEffectType.File)] false false false.

Definition no_schema_errors (c : ToolContract) (arguments : json) : result string (list string) := Ok [].
Definition small_validate : ToolContract -> json -> result ToolFault unit :=
  validate_tool_arguments plain_words one_command no_schema_errors.
Definition no_replay (request : ToolRequest) : result ToolFault ToolResultEnvelope :=
  Err (Tool (Execution "no recording")).
Definition no_diff (original edited old_name new_name : string) : string := "".
Definition no_numstat (args : list string) (patch : string) : result ToolFault PatchOutput :=
  Ok (mkPatchOutput (Some 0%Z) None ("1" +:+ tab +:+ "1" +:+ tab +:+ "a.txt" +:+ nul) false).
Definition no_metadata (path : string) : PatchTool.Metadata := PatchTool.NotFound.
(** A [git] that writes [patched] to the one file. *)
Definition small_git (args : list string) (patch : string) (d : Disk) : result ToolFault GitOutput * Disk :=
  (Ok (mkGitOutput (mkPatchOutput (Some 0%Z) None "" false) false false),
   <["/w/a.txt" := Regular "patched" 420]> d).
Definition no_other (tool : option BuiltinTool) (request : ToolRequest) (evaluation : PolicyEvaluation)
    (before : list FileBeforeImage) (d : Disk) : result ToolFault MutationReport * Disk :=
  (Err (Tool (UnknownTool (tr_tool_name request))), d).

Definition small_run : option BuiltinTool -> ToolRequest -> PolicyEvaluation -> list FileBeforeImage -> Disk ->
    result ToolFault MutationReport * Disk :=
  @run_builtin work_fs small_os no_redaction no_digest no_changes no_diff some_utf8_error small_policy 1 some_ids
    no_numstat small_git no_metadata no_read Written no_other.

Definition small_checkpoint (request : ToolRequest) : result ToolFault SideEffectPreparation :=
  @prepare_side_effect_snapshot work_fs no_digest plain_words one_command no_schema_errors small_rt 1
    (observe work_disk) no_numstat ([], true) request.
Definition small_prepare (request : ToolRequest)
    : result ToolInvocationStop (result ToolFault SideEffectPreparation) := Ok (small_checkpoint request).

Abbreviation small_invoke :=
  (@invoke work_fs hint_dirs no_redaction some_ids small_rt small_validate no_replay small_run 1 small_prepare).

Definition decided (decision : PolicyDecision) (request : ToolRequest) : ToolInvocation :=
  mkInvocation request (mkPolicyEvaluation 1 "tool" (tr_tool_name request) "" decision None "" []) false None None.

(** The whole path of a call: decided, checkpointed, run. *)
Example allowed_edit_goes_through :
  exists m, small_invoke (decided PolicyDecision.Allow edit_request) false RanToEnd work_disk work_disk
            = (Ok m, after_small_edit) /\ ok_status m /\ rp_changed_files (mu_report m) = ["/w/a.txt"].
Proof. eexists. split; [vm_compute; reflexivity|]. split; reflexivity. Qed.

Lemma unpermitted_call_changes_nothing_witness :
  snd (small_invoke (decided PolicyDecision.Ask edit_request) false RanToEnd after_small_edit work_disk) = work_disk.
Proof.
  destruct (small_invoke _ _ _ _ _) as [r d'] eqn:He.
  exact (proj1 (@unpermitted_call_changes_nothing work_fs hint_dirs no_redaction some_ids small_rt small_validate
    no_replay small_run 1 small_prepare (decided PolicyDecision.Ask edit_request) false RanToEnd after_small_edit
    work_disk r d' eq_refl eq_refl He)).
Defined.

Lemma late_call_admits_unknown_changes_witness :
  exists m, fst (small_invoke (decided PolicyDecision.Allow edit_request) false (DeadlineMidway false)
                   after_small_edit work_disk) = Ok m /\
    fact_flag (mu_report m) "workspace_changes_known" = false.
Proof.
  destruct (small_invoke _ _ _ _ _) as [r d'] eqn:He.
  assert (exists m, r = Ok m) as [m Hm].
  { apply (f_equal fst) in He. simpl in He. rewrite <- He. eexists. vm_compute. reflexivity. }
  exists m. split; [exact Hm|].
  refine (proj1 (proj2 (@late_call_admits_unknown_changes work_fs hint_dirs no_redaction some_ids small_rt
    small_validate no_replay small_run 1 small_prepare (decided PolicyDecision.Allow edit_request)
    (plain_contract "edit_file" SideEffectType.File) false (DeadlineMidway false) after_small_edit work_disk r d'
    eq_refl _ eq_refl (or_intror eq_refl) He) m Hm)).
  discriminate.
Defined.

Lemma write_keys_are_the_checkpoint_witness :
  exists prep, small_checkpoint edit_request = Ok prep /\ image_path <$> sp_before_images prep = ["/w/a.txt"].
Proof.
  assert (exists prep, small_checkpoint edit_request = Ok prep) as [prep Hp]
    by (eexists; vm_compute; reflexivity).
  exists prep. split; [exact Hp|].
  refine (proj1 (@write_keys_are_the_checkpoint work_fs no_digest plain_words one_command no_schema_errors small_rt 1
    (observe work_disk) no_numstat ([], true) edit_request prep ["/w/a.txt"] eq_refl _ Hp _)).
  - apply elem_of_cons. right. apply elem_of_cons. left. reflexivity.
  - vm_compute. reflexivity.
Defined.

Definition patch_request : ToolRequest := file_request "apply_patch" [("patch", JString "--- a/a.txt")].

Lemma patch_changes_are_reported_witness :
  exists m, @apply_patch work_fs no_redaction no_digest no_changes no_diff small_policy 1 some_ids no_numstat small_git
      observe no_metadata no_read patch_request allowed (checkpoint work_disk "/w/a.txt") work_disk
    = (Ok m, <["/w/a.txt" := Regular "patched" 420]> work_disk) /\ "/w/a.txt" ∈ rp_changed_files (mu_report m).
Proof.
  assert (exists m, @apply_patch work_fs no_redaction no_digest no_changes no_diff small_policy 1 some_ids no_numstat
      small_git observe no_metadata no_read patch_request allowed (checkpoint work_disk "/w/a.txt") work_disk
    = (Ok m, <["/w/a.txt" := Regular "patched" 420]> work_disk)) as [m Hm] by (eexists; vm_compute; reflexivity).
  exists m. split; [exact Hm|].
  refine (proj2 (@patch_changes_are_reported work_fs small_os no_redaction no_digest no_changes no_diff small_policy 1
    some_ids no_numstat small_git no_metadata no_read patch_request allowed (checkpoint work_disk "/w/a.txt")
    work_disk work_disk m _ _ _ _ _ Hm "/w/a.txt") _).
  - split; [apply NoDup_singleton|]. constructor; [|constructor]. split; vm_compute; reflexivity.
  - constructor; [vm_compute; reflexivity|constructor].
  - constructor; [vm_compute; reflexivity|constructor].
  - intros args patch q Hq. cbn in Hq. destruct (decide (q = "/w/a.txt")) as [->|Hne].
    + apply elem_of_cons. left. vm_compute. reflexivity.
    + exfalso. apply Hq. apply lookup_insert_ne. congruence.
  - split; [vm_compute; discriminate|]. vm_compute. intros [H _]. discriminate H.
Defined.
