(* ===== verification/ToolBatch.v ===== *)
(** * Batches of tool calls

    How the agent loop of [golutra-agent-runtime/src/lib.rs] runs the tool calls of one
    response of the model: the registry that says what a tool may do
    ([golutra-agent-tools/src/lib.rs], [builtin.rs]), the kind of a call
    ([provider_parallel_batch_kind]), the batches the calls are cut into
    ([extend_parallel_batch] and the loop around it), the checks before a batch is run in
    parallel, and its run ([invoke_parallel_calls]) with the checkpoints before it. The
    files a batch writes are the shared disk of [FileTools]; the calls of a batch take
    their steps in any order. The trace events and the pauses are not modelled. *)
From stdpp Require Import gmap relations.
From S2P Require Import Prelude RustStr Utf8 Core PathPolicy TaskContract Verify Governed Correction Evidence ModelPatch PatchTool ToolReport ShellSyntax ShellPolicy ShellRequest Provider PendingTurns Governor FailureFamily ContextBuild Inspection FileEdits FileTools ToolErrors ToolGate.
Open Scope N_scope.

(** ** The registry of tools *)

(*@ tools/src/lib.rs ToolCapabilities *)
Record ToolCapabilities := mkCapabilities {
  available_in_coding_profile : bool;
  parallel_read_safe : bool;
  coding_profile_hidden_arguments : list string;
}.
Definition default_capabilities : ToolCapabilities := mkCapabilities false false [].

(** The maps by tool name; the cache of compiled schemas holds nothing else. *)
(*@ tools/src/lib.rs ToolRegistry *)
Record ToolRegistry := mkRegistry {
  rg_contracts : list (string * ToolContract);
  rg_capabilities : list (string * ToolCapabilities);
}.

(*@ tools/src/lib.rs ToolRegistry::contract *)
Definition registry_contract (rg : ToolRegistry) (tool_name : string) : option ToolContract :=
  assoc tool_name (rg_contracts rg).
(*@ tools/src/lib.rs ToolRegistry::capabilities *)
Definition registry_capabilities (rg : ToolRegistry) (tool_name : string) : option ToolCapabilities :=
  assoc tool_name (rg_capabilities rg).

(*@ tools/src/builtin.rs BuiltinTool::side_effect_type *)
Definition builtin_side_effect_type (t : BuiltinTool) : SideEffectType :=
  match t with
  | BuiltinTool.WriteFile | BuiltinTool.EditFile | BuiltinTool.ApplyPatch => SideEffectType.File
  | BuiltinTool.Shell | BuiltinTool.ShellSession | BuiltinTool.Subagent | BuiltinTool.ProcessWrite
  | BuiltinTool.ProcessTerminate | BuiltinTool.DelegateTask => SideEffectType.Process
  | BuiltinTool.ReadFile | BuiltinTool.RuntimeStatus | BuiltinTool.ListDir | BuiltinTool.RgSearch
  | BuiltinTool.SymbolSearch | BuiltinTool.FindReferences | BuiltinTool.AskUser | BuiltinTool.ProcessList
  | BuiltinTool.ProcessPoll | BuiltinTool.ProcessReconnect => SideEffectType.None
  end.

(*@ tools/src/builtin.rs BuiltinTool::capabilities *)
Definition builtin_capabilities (t : BuiltinTool) : ToolCapabilities :=
  mkCapabilities
    match t with
    | BuiltinTool.ReadFile | BuiltinTool.WriteFile | BuiltinTool.EditFile | BuiltinTool.ApplyPatch
    | BuiltinTool.Shell | BuiltinTool.ShellSession | BuiltinTool.Subagent | BuiltinTool.RuntimeStatus => true
    | _ => false
    end
    match t with
    | BuiltinTool.ReadFile | BuiltinTool.ListDir | BuiltinTool.RgSearch | BuiltinTool.SymbolSearch
    | BuiltinTool.FindReferences => true
    | _ => false
    end [].

(*@ tools/src/builtin.rs:41-50 BuiltinTool::P0_DEFAULT *)
Definition P0_DEFAULT : list BuiltinTool :=
  [BuiltinTool.ReadFile; BuiltinTool.WriteFile; BuiltinTool.EditFile; BuiltinTool.ApplyPatch;
   BuiltinTool.Shell; BuiltinTool.ShellSession; BuiltinTool.Subagent; BuiltinTool.RuntimeStatus].
(*@ tools/src/builtin.rs:53-64 BuiltinTool::INTERNAL *)
Definition INTERNAL : list BuiltinTool :=
  [BuiltinTool.ListDir; BuiltinTool.RgSearch; BuiltinTool.SymbolSearch; BuiltinTool.FindReferences;
   BuiltinTool.AskUser; BuiltinTool.ProcessList; BuiltinTool.ProcessPoll; BuiltinTool.ProcessWrite;
   BuiltinTool.ProcessTerminate; BuiltinTool.ProcessReconnect].

Section registry.
(** The JSON schemas of a tool, which only the schema validator reads. *)
Variable schemas : string -> json * json * json.

(*@ tools/src/builtin.rs:408-426 contract *)
Definition contract_with (tool_name : string) (side_effect_type : SideEffectType) : ToolContract :=
  let '(input_schema, output_schema, error_schema) := schemas tool_name in
  mkToolContract tool_name input_schema output_schema error_schema side_effect_type
    match side_effect_type with
    | SideEffectType.None => "not_required"
    | SideEffectType.File | SideEffectType.Process => "required_for_retry"
    | SideEffectType.Network | SideEffectType.ExternalSystem => "blocked_in_p0"
    end
    "bounded_by_tool_or_default_timeout" "returns_cancelled_envelope"
    (if bool_decide (side_effect_type = SideEffectType.None) then "retry_allowed"
     else "no_implicit_retry_for_side_effects")
    "raw_output_to_artifact_ref" None.

(*@ tools/src/builtin.rs BuiltinTool::contract *)
Definition builtin_contract (t : BuiltinTool) : ToolContract :=
  contract_with (BuiltinTool.name t) (builtin_side_effect_type t).

(** [HashMap::insert] of a tool in both maps. *)
Definition put_tool (rg : ToolRegistry) (name : string) (c : ToolContract) (k : ToolCapabilities) : ToolRegistry :=
  mkRegistry ((name, c) :: rg_contracts rg) ((name, k) :: rg_capabilities rg).

(*@ tools/src/lib.rs ToolRegistry::p0_default *)
Definition p0_default : ToolRegistry :=
  foldl (fun rg t => put_tool rg (BuiltinTool.name t) (builtin_contract t) (builtin_capabilities t))
    (mkRegistry [] []) (P0_DEFAULT ++ INTERNAL).

(*@ tools/src/lib.rs:866-877 ToolRuntime::with_task_delegation_backend *)
Definition with_task_delegation (rg : ToolRegistry) : ToolRegistry :=
  match registry_contract rg (BuiltinTool.name BuiltinTool.Subagent) with
  | None =>
      put_tool rg (BuiltinTool.name BuiltinTool.Subagent) (builtin_contract BuiltinTool.Subagent)
        (builtin_capabilities BuiltinTool.Subagent)
  | Some _ => rg
  end.

(*@ tools/src/lib.rs:885-887 ToolRuntime::without_tool *)
Definition registry_without_tool (rg : ToolRegistry) (tool_name : string) : ToolRegistry :=
  let others {V} := List.filter (fun '(k, _) => negb (bool_decide (k = tool_name))) : list (string * V) -> _ in
  mkRegistry (others (rg_contracts rg)) (others (rg_capabilities rg)).

(** The contracts in their order; [declared] is the map of what is not yet taken, in the
    order it is iterated. *)
(*@ tools/src/lib.rs:531-565 ToolRegistry::register_external *)
Fixpoint register_all (rg : ToolRegistry) (contracts : list ToolContract)
    (declared : list (string * ToolCapabilities)) : result ToolError ToolRegistry :=
  match contracts with
  | [] => Ok rg
  | c :: contracts =>
      let name := tc_tool_name c in
      let k := default default_capabilities (assoc name declared) in
      if trim_is_empty name then Err (ExternalRegistration "external tool name cannot be empty")
      else if is_some_and (fun _ => true) (registry_contract rg name) then
        Err (ExternalRegistration ("tool `" +:+ name +:+ "` conflicts with an existing contract"))
      else if parallel_read_safe k && negb (bool_decide (tc_side_effect_type c = SideEffectType.None)) then
        Err (ExternalRegistration ("tool `" +:+ name
               +:+ "` cannot be parallel-read-safe because its contract admits side effects"))
      else if negb (available_in_coding_profile k)
              && negb (bool_decide (coding_profile_hidden_arguments k = [])) then
        Err (ExternalRegistration ("tool `" +:+ name
               +:+ "` hides coding arguments but is not available in the coding profile"))
      else
        register_all (put_tool rg name c k) contracts
          (List.filter (fun '(n, _) => negb (bool_decide (n = name))) declared)
  end.

(*@ tools/src/lib.rs ToolRegistry::register_external *)
Definition register_external (rg : ToolRegistry) (contracts : list ToolContract)
    (declared : list (string * ToolCapabilities)) : result ToolError ToolRegistry :=
  match List.find (fun '(n, _) => negb (existsb (fun c => bool_decide (tc_tool_name c = n)) contracts)) declared with
  | Some (n, _) => Err (ExternalRegistration ("capabilities declared for unknown tool `" +:+ n +:+ "`"))
  | None => register_all rg contracts declared
  end.

(*@ tools/src/lib.rs ToolRuntime::with_replay_contracts *)
Definition with_replay_contracts (rg : ToolRegistry) (contracts : list ToolContract)
    : result ToolError ToolRegistry :=
  let contracts := List.filter (fun c => match registry_contract rg (tc_tool_name c) with
                                         | None => true | Some _ => false end) contracts in
  register_external rg contracts
    ((fun c => (tc_tool_name c, mkCapabilities (is_pi_plus_tool (tc_tool_name c)) false [])) <$> contracts).

(** The registries of a runtime. *)
Inductive registered : ToolRegistry -> Prop :=
| reg_default : registered p0_default
| reg_external rg contracts declared rg' :
    registered rg -> register_external rg contracts declared = Ok rg' -> registered rg'
| reg_replay rg contracts rg' :
    registered rg -> with_replay_contracts rg contracts = Ok rg' -> registered rg'
| reg_delegation rg : registered rg -> registered (with_task_delegation rg)
| reg_without rg name : registered rg -> registered (registry_without_tool rg name).

(** A tool with a contract has capabilities, and one that may run beside others has no
    side effects. *)
Definition registry_ok (rg : ToolRegistry) : Prop :=
  forall name c, registry_contract rg name = Some c ->
  exists k, registry_capabilities rg name = Some k /\
    (parallel_read_safe k = true -> tc_side_effect_type c = SideEffectType.None).

Lemma put_tool_ok rg name c k :
  registry_ok rg -> (parallel_read_safe k = true -> tc_side_effect_type c = SideEffectType.None) ->
  registry_ok (put_tool rg name c k).
Proof.
  intros Hrg Hk n c'. unfold registry_contract, registry_capabilities, put_tool. cbn.
  case_bool_decide; [intros [= <-]; by exists k|apply Hrg].
Qed.

Lemma builtin_ok t :
  parallel_read_safe (builtin_capabilities t) = true ->
  tc_side_effect_type (builtin_contract t) = SideEffectType.None.
Proof.
  unfold builtin_contract, contract_with. destruct (schemas _) as [[i o] e]. by destruct t.
Qed.

Lemma register_all_ok contracts : forall rg declared rg',
  registry_ok rg -> register_all rg contracts declared = Ok rg' -> registry_ok rg'.
Proof.
  induction contracts as [|c contracts IH]; intros rg declared rg' Hrg; cbn [register_all];
    [by intros [= <-]|].
  destruct (trim_is_empty _); [done|]. destruct (is_some_and _ _); [done|].
  destruct (parallel_read_safe _ && _) eqn:Hp; [done|]. destruct (negb (available_in_coding_profile _) && _); [done|].
  apply IH, put_tool_ok; [done|]. intros Hs. rewrite Hs in Hp. cbn in Hp. by boolhyps.
Qed.

Lemma register_external_ok rg contracts declared rg' :
  registry_ok rg -> register_external rg contracts declared = Ok rg' -> registry_ok rg'.
Proof. unfold register_external. destruct (List.find _ _) as [[]|]; [done|]. apply register_all_ok. Qed.

Lemma assoc_without {V} (l : list (string * V)) name n :
  assoc n (List.filter (fun '(k, _) => negb (bool_decide (k = name))) l)
  = if bool_decide (n = name) then None else assoc n l.
Proof.
  induction l as [|[k v] l IH]; cbn; [by case_bool_decide|].
  repeat (case_bool_decide; subst; cbn); try done; rewrite IH; by repeat case_bool_decide.
Qed.

Lemma registered_ok rg : registered rg -> registry_ok rg.
Proof.
  induction 1 as [|rg contracts declared rg' _ IH Hr|rg contracts rg' _ IH Hr|rg _ IH|rg name _ IH].
  - unfold p0_default. assert (registry_ok (mkRegistry [] [])) as Hrg by done. revert Hrg.
    generalize (mkRegistry [] []). induction (P0_DEFAULT ++ INTERNAL) as [|t l IH]; intros rg Hrg; [done|].
    apply IH, put_tool_ok; [done|apply builtin_ok].
  - by eapply register_external_ok.
  - by eapply register_external_ok.
  - unfold with_task_delegation. destruct (registry_contract _ _); [done|].
    by apply put_tool_ok, builtin_ok.
  - intros n c. unfold registry_contract, registry_capabilities, registry_without_tool. cbn.
    rewrite !assoc_without. case_bool_decide; [done|apply IH].
Qed.

End registry.

(** ** The kind of a call *)

(*@ runtime/src/lib.rs PARALLEL_READ_CONCURRENCY_LIMIT *)
Definition PARALLEL_READ_CONCURRENCY_LIMIT : nat := 8.

(** A [BTreeSet<PathBuf>] is the sorted list of its paths. *)
(*@ runtime/src/lib.rs ParallelBatchKind *)
Inductive ParallelBatchKind :=
| SharedRead
| ProcessWait (targets : gset string)
| ProcessStart
| SubagentStart (targets : gset string)
| SubagentWait (targets : gset string)
| KeyedWrite (paths : list string)
| Exclusive.
#[global] Instance ParallelBatchKind_eq_dec : EqDecision ParallelBatchKind.
Proof. solve_decision. Defined.

(*@ runtime/src/lib.rs tool_allowed_for_profile *)
Definition tool_allowed_for_profile (tool_name : string) (profile : AgentToolProfile) (rg : ToolRegistry) : bool :=
  match profile with
  | AgentToolProfile.None => false
  | AgentToolProfile.Full => true
  | AgentToolProfile.Coding => is_some_and available_in_coding_profile (registry_capabilities rg tool_name)
  end.

Definition has_argument (arguments : json) (name : string) : bool :=
  match json_get arguments name with Some _ => true | None => false end.

(*@ runtime/src/lib.rs tool_profile_rejection_reason *)
Definition tool_profile_rejection_reason (request : ToolRequest) (profile : AgentToolProfile) (rg : ToolRegistry)
    : option string :=
  let tool := tr_tool_name request in
  if negb (is_pi_plus_tool tool) then Some "tool is not part of the active provider surface"
  else if negb (tool_allowed_for_profile tool profile rg) then
    Some (if bool_decide (profile = AgentToolProfile.None)
          then "the active tool profile disables provider tools"
          else "tool is not available in the active coding profile; select the full tool profile explicitly")
  else if bool_decide (profile = AgentToolProfile.Coding)
          && is_some_and (fun k => existsb (has_argument (tr_arguments request)) (coding_profile_hidden_arguments k))
               (registry_capabilities rg tool) then
    Some "managed shell controls require the full tool profile so their process controls remain available"
  else None.

(** Existing paths that [next] has too; [BTreeSet] compares paths by their components. *)
Definition shares_path (existing next : list string) : bool :=
  existsb (fun p => existsb (same_path p) next) existing.

(** The batch's kind with the next call in it, if it may join. *)
(*@ runtime/src/lib.rs extend_parallel_batch *)
Definition extend_parallel_batch (current next : ParallelBatchKind) : option ParallelBatchKind :=
  match current, next with
  | SharedRead, SharedRead => Some SharedRead
  | ProcessStart, ProcessStart => Some ProcessStart
  | ProcessWait existing, ProcessWait next =>
      if bool_decide (existing ## next) then Some (ProcessWait (existing ∪ next)) else None
  | SubagentStart existing, SubagentStart next =>
      if bool_decide (existing ## next) then Some (SubagentStart (existing ∪ next)) else None
  | SubagentWait existing, SubagentWait next =>
      if bool_decide (existing ## next) then Some (SubagentWait (existing ∪ next)) else None
  | KeyedWrite existing, KeyedWrite next =>
      if shares_path existing next then None
      else Some (KeyedWrite (foldl (fun s p => insert_path p s) existing next))
  | _, _ => None
  end.

Section kinds.
Variable shlex_split : string -> option (list string).
Variable bash_parse : string -> option Node.
Variable profile : AgentToolProfile.
Variable rg : ToolRegistry.
(** [resolve_keyed_write_paths] of the executor, and the fresh ids of the request it is
    asked about. *)
Variable write_paths : ToolRequest -> result ToolFault (list string).
Variable probe_id : ToolCallId.
Variable probe_session : SessionId.

Abbreviation strictly_read_only := (shell_request_is_strictly_read_only shlex_split bash_parse).

(*@ runtime/src/lib.rs provider_tool_call_is_parallel_read_safe *)
Definition provider_tool_call_is_parallel_read_safe (c : ProviderToolCall) : bool :=
  let tool := pc_tool_name c in
  let read_only_shell := bool_decide (tool = "shell") && strictly_read_only (pc_arguments c) in
  is_pi_plus_tool tool && tool_allowed_for_profile tool profile rg
  && is_some_and
       (fun k => (parallel_read_safe k || read_only_shell)
          && (bool_decide (profile = AgentToolProfile.Full)
              || forallb (fun a => negb (has_argument (pc_arguments c) a)) (coding_profile_hidden_arguments k)))
       (registry_capabilities rg tool)
  && is_some_and
       (fun contract => bool_decide (tc_side_effect_type contract = SideEffectType.None) || read_only_shell)
       (registry_contract rg tool).

(** The children a [subagent] call names, unless one is no text. *)
Fixpoint string_targets (ids : list json) (targets : gset string) : option (gset string) :=
  match ids with
  | [] => Some targets
  | id :: ids => s ← as_str id; string_targets ids ({[s]} ∪ targets)
  end.

(*@ runtime/src/lib.rs:5466-5504 provider_parallel_batch_kind *)
Definition subagent_kind (arguments : json) : ParallelBatchKind :=
  let action := default "spawn" (json_get arguments "action" ≫= as_str) in
  let one : gset string :=
    match json_get arguments "child_session_id" ≫= as_str with Some id => {[id]} | None => ∅ end in
  match string_targets (default [] (json_get arguments "child_session_ids" ≫= as_array)) one with
  | None => Exclusive
  | Some targets =>
      if bool_decide (action = "wait") && negb (bool_decide (targets = ∅)) then SubagentWait targets
      else if among action ["spawn"; "resume"]
              && bool_decide ((json_get arguments "run_in_background" ≫= as_bool) = Some true)
              && (bool_decide (action = "spawn") || negb (bool_decide (targets = ∅))) then
        SubagentStart targets
      else Exclusive
  end.

Definition process_to_wait_for (c : ProviderToolCall) : option string :=
  match json_get (pc_arguments c) "action" ≫= as_str with
  | Some action =>
      if bool_decide (pc_tool_name c = "shell_session") && among action ["wait"; "read"]
         && tool_allowed_for_profile (pc_tool_name c) profile rg
      then json_get (pc_arguments c) "process_id" ≫= as_str else None
  | None => None
  end.

Definition probe (c : ProviderToolCall) : ToolRequest :=
  mkToolRequest probe_id (Some (pc_tool_call_id c)) probe_session None (pc_tool_name c) (pc_arguments c).

(*@ runtime/src/lib.rs:5532-5556 provider_parallel_batch_kind *)
Definition write_kind (c : ProviderToolCall) : ParallelBatchKind :=
  let tool := pc_tool_name c in
  if negb (among tool ["write_file"; "edit_file"; "apply_patch"])
     || negb (is_pi_plus_tool tool)
     || negb (tool_allowed_for_profile tool profile rg)
     || is_none_or (fun contract => negb (bool_decide (tc_side_effect_type contract = SideEffectType.File)))
          (registry_contract rg tool)
  then Exclusive
  else
    match write_paths (probe c) with
    | Ok ((_ :: _) as paths) => KeyedWrite (foldl (fun s p => insert_path p s) [] paths)
    | _ => Exclusive
    end.

(*@ runtime/src/lib.rs provider_parallel_batch_kind *)
Definition provider_parallel_batch_kind (c : ProviderToolCall) : ParallelBatchKind :=
  let tool := pc_tool_name c in
  if bool_decide (tool = "subagent") && tool_allowed_for_profile tool profile rg then
    subagent_kind (pc_arguments c)
  else
    match process_to_wait_for c with
    | Some process_id => ProcessWait {[process_id]}
    | None =>
        if provider_tool_call_is_parallel_read_safe c then SharedRead
        else if bool_decide (tool = "shell")
                && bool_decide ((json_get (pc_arguments c) "background" ≫= as_bool) = Some true)
                && tool_allowed_for_profile tool profile rg then ProcessStart
        else write_kind c
    end.

End kinds.

(** ** Cutting the calls into batches *)

Section batches.
Variable kind_of : ProviderToolCall -> ParallelBatchKind.

(** The loop that lets calls join. *)
(*@ runtime/src/lib.rs:2633-2655 run_with_control_trace_contract_and_replay_context *)
Fixpoint join_batch (batch : list ProviderToolCall) (kind : ParallelBatchKind) (pending : list ProviderToolCall)
    : list ProviderToolCall * ParallelBatchKind * list ProviderToolCall :=
  if (PARALLEL_READ_CONCURRENCY_LIMIT <=? length batch)%nat then (batch, kind, pending)
  else
    match pending with
    | [] => (batch, kind, [])
    | next :: rest =>
        match extend_parallel_batch kind (kind_of next) with
        | None => (batch, kind, pending)
        | Some kind => join_batch (batch ++ [next]) kind rest
        end
    end.

Definition forbidden_kind (k : ParallelBatchKind) : bool :=
  match k with KeyedWrite _ | ProcessStart | SubagentStart _ => true | _ => false end.

(** The kind of a batch's first call: in a replay, and where the task may not change the
    workspace, what could change it stays alone. *)
(*@ runtime/src/lib.rs:2601-2623 run_with_control_trace_contract_and_replay_context *)
Definition first_kind (replay_context_active : bool) (workspace_change : WorkspaceChangeRequirement)
    (c : ProviderToolCall) : ParallelBatchKind :=
  let kind := if replay_context_active then Exclusive else kind_of c in
  if bool_decide (workspace_change = WorkspaceChangeRequirement.Forbidden) && forbidden_kind kind
  then Exclusive else kind.

(*@ runtime/src/lib.rs:2600-2656 run_with_control_trace_contract_and_replay_context *)
Definition next_batch (replay_context_active : bool) (workspace_change : WorkspaceChangeRequirement)
    (c : ProviderToolCall) (pending : list ProviderToolCall)
    : list ProviderToolCall * ParallelBatchKind * list ProviderToolCall :=
  match first_kind replay_context_active workspace_change c with
  | Exclusive => ([c], Exclusive, pending)
  | kind => join_batch [c] kind pending
  end.

End batches.

(** ** Independent calls *)

(** Two calls that may run at the same time. *)
Definition compatible (a b : ParallelBatchKind) : Prop :=
  match a, b with
  | SharedRead, SharedRead | ProcessStart, ProcessStart => True
  | ProcessWait x, ProcessWait y | SubagentStart x, SubagentStart y | SubagentWait x, SubagentWait y => x ## y
  | KeyedWrite x, KeyedWrite y => forall p q, p ∈ x -> q ∈ y -> path_components p <> path_components q
  | _, _ => False
  end.

(** What a batch of kind [b] has taken in: [a] is a part of it. *)
Definition within (a b : ParallelBatchKind) : Prop :=
  match a, b with
  | SharedRead, SharedRead | ProcessStart, ProcessStart => True
  | ProcessWait x, ProcessWait y | SubagentStart x, SubagentStart y | SubagentWait x, SubagentWait y => x ⊆ y
  | KeyedWrite x, KeyedWrite y => forall p, p ∈ x -> exists q, q ∈ y /\ path_components q = path_components p
  | _, _ => False
  end.

Lemma within_refl k : k <> Exclusive -> within k k.
Proof. destruct k; cbn; try done. intros _ p Hp. by exists p. Qed.

Lemma components_compare_eq a : forall b, components_compare a b = Eq -> a = b.
Proof.
  induction a as [|x a IH]; intros [|y b]; cbn; try done.
  destruct (component_compare x y) eqn:Hc; try done. intros Hb%IH. f_equal; [|done].
  revert Hc. destruct x, y; cbn; try done. by intros ->%String.compare_eq_iff.
Qed.

Lemma insert_path_keeps p s q : q ∈ s -> q ∈ insert_path p s.
Proof.
  induction s as [|x s IH]; cbn; [by intros ?%elem_of_nil|].
  destruct (components_compare _ _); rewrite ?elem_of_cons; naive_solver.
Qed.

Lemma insert_path_adds p s : exists q, q ∈ insert_path p s /\ path_components q = path_components p.
Proof.
  induction s as [|x s IH]; cbn; [exists p; by rewrite elem_of_cons; auto|].
  destruct (components_compare _ _) eqn:Hc.
  - apply components_compare_eq in Hc. exists x. rewrite elem_of_cons. auto.
  - exists p. rewrite elem_of_cons. auto.
  - destruct IH as (q & Hq & He). exists q. rewrite elem_of_cons. auto.
Qed.

Lemma insert_paths_keep ps : forall s q, q ∈ s -> q ∈ foldl (fun s p => insert_path p s) s ps.
Proof. induction ps as [|p ps IH]; cbn; [done|]. intros s q Hq. by apply IH, insert_path_keeps. Qed.

Lemma insert_paths_add ps : forall s p, p ∈ ps ->
  exists q, q ∈ foldl (fun s p => insert_path p s) s ps /\ path_components q = path_components p.
Proof.
  induction ps as [|x ps IH]; intros s p; [by intros ?%elem_of_nil|].
  intros [->|Hp]%elem_of_cons; cbn; [|by apply IH].
  destruct (insert_path_adds x s) as (q & Hq & He). exists q. split; [by apply insert_paths_keep|done].
Qed.

Lemma shares_path_false x y :
  shares_path x y = false -> forall p q, p ∈ x -> q ∈ y -> path_components p <> path_components q.
Proof.
  intros Hs p q Hp Hq He. unfold shares_path in Hs. rewrite existsb_none in Hs.
  specialize (Hs p Hp). rewrite existsb_none in Hs. specialize (Hs q Hq).
  unfold same_path in Hs. by rewrite bool_decide_true in Hs.
Qed.

Lemma extend_within current next k :
  extend_parallel_batch current next = Some k ->
  (forall a, within a current -> compatible a next /\ within a k) /\ within next k.
Proof.
  destruct current as [|x| |x|x|x|], next as [|y| |y|y|y|]; cbn; try done; intros Hk.
  1,3: injection Hk as <-; split; [by intros []|done].
  1-3: case_bool_decide; [|done]; injection Hk as <-; split; [intros []; cbn; try done|set_solver];
    intros; split; set_solver.
  destruct (shares_path x y) eqn:Hs; [done|]. injection Hk as <-. split.
  - intros [| | | | |z|]; cbn; try done. intros Hz. split.
    + intros p q Hp Hq. destruct (Hz p Hp) as (r & Hr & <-). by eapply shares_path_false.
    + intros p Hp. destruct (Hz p Hp) as (r & Hr & He). exists r. split; [by apply insert_paths_keep|done].
  - intros p Hp. by apply insert_paths_add.
Qed.

(** Every call may run beside every later one. *)
Definition independent (ks : list ParallelBatchKind) : Prop :=
  forall i j a b, (i < j)%nat -> ks !! i = Some a -> ks !! j = Some b -> compatible a b.

Lemma independent_one k : independent [k].
Proof. intros [|i] [|j] a b Hij; cbn; try done; lia. Qed.

Lemma independent_snoc ks k :
  independent ks -> Forall (fun a => compatible a k) ks -> independent (ks ++ [k]).
Proof.
  intros Hi Hk i j a b Hij Ha Hb.
  apply lookup_snoc_Some in Ha as [[Hil Ha]|[-> <-]]; apply lookup_snoc_Some in Hb as [[Hjl Hb]|[-> <-]]; try lia.
  - by apply (Hi i j).
  - rewrite Forall_forall in Hk. apply Hk. by eapply list_elem_of_lookup_2.
Qed.

Section cut.
Variable kind_of : ProviderToolCall -> ParallelBatchKind.

Lemma join_batch_spec pending : forall batch kind batch' kind' rest,
  join_batch kind_of batch kind pending = (batch', kind', rest) ->
  (length batch <= PARALLEL_READ_CONCURRENCY_LIMIT)%nat ->
  Forall (fun c => within (kind_of c) kind) batch -> independent (kind_of <$> batch) ->
  batch ++ pending = batch' ++ rest /\ batch `prefix_of` batch' /\
  (length batch' <= PARALLEL_READ_CONCURRENCY_LIMIT)%nat /\
  Forall (fun c => within (kind_of c) kind') batch' /\ independent (kind_of <$> batch').
Proof.
  induction pending as [|next pending IH]; intros batch kind batch' kind' rest; cbn [join_batch].
  { destruct (_ <=? _)%nat; intros [= <- <- <-] Hl Hw Hi; by split_and!. }
  destruct (_ <=? _)%nat eqn:Hroom; [intros [= <- <- <-] Hl Hw Hi; by split_and!|].
  apply Nat.leb_gt in Hroom.
  destruct (extend_parallel_batch kind (kind_of next)) as [k|] eqn:Hx;
    [|intros [= <- <- <-] Hl Hw Hi; by split_and!].
  intros Hj Hl Hw Hi. apply extend_within in Hx as [Hx Hn].
  destruct (IH _ _ _ _ _ Hj) as (He & Hp & ?).
  - rewrite length_app. cbn [length]. lia.
  - apply Forall_app. split; [|by constructor]. eapply Forall_impl; [exact Hw|]. intros a Ha. by apply Hx.
  - rewrite fmap_app. apply independent_snoc; [done|]. apply Forall_fmap.
    eapply Forall_impl; [exact Hw|]. intros a Ha. by apply Hx.
  - rewrite <- He, <- app_assoc. split_and!; [done| |naive_solver..].
    etrans; [apply prefix_app_r; reflexivity|exact Hp].
Qed.

Lemma compatible_exclusive a b : compatible a b -> a <> Exclusive /\ b <> Exclusive.
Proof. by destruct a, b. Qed.

Lemma within_forbidden a b : within a b -> forbidden_kind a = forbidden_kind b.
Proof. by destruct a, b. Qed.

(** The calls of a response are cut into batches in their order: a batch is a non-empty
    initial part of the calls that are left, of at most eight, and its calls are pairwise
    independent: readers, or calls that name different processes, children or files. A
    batch of several calls is never formed in a replay, and never of calls that change the
    workspace under a contract that forbids it. *)
Theorem batches_are_independent replay workspace_change c pending batch kind rest :
  next_batch kind_of replay workspace_change c pending = (batch, kind, rest) ->
  c :: pending = batch ++ rest /\ batch <> [] /\ (length batch <= PARALLEL_READ_CONCURRENCY_LIMIT)%nat /\
  independent (kind_of <$> batch) /\
  ((1 < length batch)%nat -> replay = false /\
     (workspace_change = WorkspaceChangeRequirement.Forbidden ->
      Forall (fun c => forbidden_kind (kind_of c) = false) batch)).
Proof.
  unfold next_batch. destruct (decide (first_kind kind_of replay workspace_change c = Exclusive)) as [Hf|Hf].
  { rewrite Hf. intros [= <- <- <-]. split_and!; [done|done|unfold PARALLEL_READ_CONCURRENCY_LIMIT; cbn; lia|apply independent_one|cbn; lia]. }
  assert (replay = false /\ first_kind kind_of replay workspace_change c = kind_of c /\
    (workspace_change = WorkspaceChangeRequirement.Forbidden -> forbidden_kind (kind_of c) = false))
    as (-> & Hk & Hfb).
  { revert Hf. unfold first_kind. destruct replay; [by rewrite andb_false_r|].
    case_bool_decide; cbn [andb]; [|done]. by destruct (forbidden_kind (kind_of c)). }
  rewrite Hk in Hf |- *. intros Hj.
  assert (join_batch kind_of [c] (kind_of c) pending = (batch, kind, rest)) as Hj'
    by (by destruct (kind_of c)).
  destruct (join_batch_spec _ _ _ _ _ _ Hj') as (He & [tail ->] & Hl & Hw & Hi).
  - unfold PARALLEL_READ_CONCURRENCY_LIMIT. cbn. lia.
  - constructor; [by apply within_refl|constructor].
  - apply independent_one.
  - split_and!; [done|done|done|done|]. intros _. split; [done|]. intros Hc%Hfb.
    pose proof (Forall_inv Hw) as Hcw. apply within_forbidden in Hcw.
    eapply Forall_impl; [exact Hw|]. intros a Ha%within_forbidden. by rewrite Ha, <- Hcw.
Qed.

End cut.

(** ** Calls that share a disk

    A call looks at its files and then writes them; between the two, and between its own
    steps and those of other calls, anything may happen. [kc_run i seen d] is the second
    step of call [i], of what it saw on the disk as it finds it. *)

Class KeyedCalls (R : Type) := {
  kc_keys : nat -> list string;
  kc_run : nat -> Disk -> Disk -> R * Disk;
}.

(** The disks agree on some paths. *)
Definition agree (ps : list string) (d d' : Disk) : Prop := forall p, p ∈ ps -> d !! p = d' !! p.
(** None of the paths is a link. *)
Definition plain_files (ps : list string) (d : Disk) : Prop := forall p, p ∈ ps -> is_link (d !! p) = false.

(** What a call promises: it reads and writes the files of its keys only. *)
Class KeyedCallsLaws (R : Type) `{KeyedCalls R} := {
  kc_frame i seen d q : plain_files (kc_keys i) d -> q ∉ kc_keys i -> snd (kc_run i seen d) !! q = d !! q;
  kc_local i seen seen' d d' :
    plain_files (kc_keys i) d -> agree (kc_keys i) seen seen' -> agree (kc_keys i) d d' ->
    fst (kc_run i seen d) = fst (kc_run i seen' d') /\
    agree (kc_keys i) (snd (kc_run i seen d)) (snd (kc_run i seen' d'));
}.

Inductive CallState (R : Type) := NotStarted | Looked (seen : Disk) | Answered (r : R).
Arguments NotStarted {R}. Arguments Looked {R}. Arguments Answered {R}.

Record SharedBatch (R : Type) := mkSharedBatch {
  sb_disk : Disk;
  sb_calls : list (CallState R);
}.
Arguments mkSharedBatch {R}. Arguments sb_disk {R}. Arguments sb_calls {R}.

Section interleaving.
Context {R : Type} `{kc : KeyedCalls R}.

(** Call [i] takes its next step. *)
Definition advance (b : SharedBatch R) (i : nat) : SharedBatch R :=
  match sb_calls b !! i with
  | Some NotStarted => mkSharedBatch (sb_disk b) (<[i := Looked (sb_disk b)]> (sb_calls b))
  | Some (Looked seen) =>
      let '(r, d) := kc_run i seen (sb_disk b) in mkSharedBatch d (<[i := Answered r]> (sb_calls b))
  | _ => b
  end.

Definition start (n : nat) (d : Disk) : SharedBatch R := mkSharedBatch d (replicate n NotStarted).

Definition answer (s : CallState R) : option R := match s with Answered r => Some r | _ => None end.
(** The answers in the order of the calls, when all are there. *)
Definition answers (b : SharedBatch R) : option (list R) := mapM answer (sb_calls b).

Definition run_schedule (n : nat) (d : Disk) (schedule : list nat) : SharedBatch R :=
  foldl advance (start n d) schedule.

(** One call after the other, from call [i] on. *)
Fixpoint run_in_order (i n : nat) (d : Disk) : list R * Disk :=
  match n with
  | O => ([], d)
  | S n => let '(r, d) := kc_run i d d in let '(rs, d) := run_in_order (S i) n d in (r :: rs, d)
  end.

(** ** Every fair schedule ends *)

Definition rank (s : CallState R) : nat := match s with NotStarted => 0 | Looked _ => 1 | Answered _ => 2 end.
Definition rank_of (b : SharedBatch R) (i : nat) : nat := default 2%nat (rank <$> sb_calls b !! i).

Lemma advance_rank b i j :
  ((if decide (i = j) then Nat.min 2 (S (rank_of b j)) else rank_of b j) <= rank_of (advance b i) j)%nat /\
  length (sb_calls (advance b i)) = length (sb_calls b).
Proof.
  unfold advance, rank_of. destruct (sb_calls b !! i) as [[|seen|r]|] eqn:Hi.
  3,4: split; [|done]; destruct (decide (i = j)) as [<-|]; [rewrite Hi; cbn; lia|done].
  - cbn [sb_calls]. split; [|by rewrite length_insert]. destruct (decide (i = j)) as [<-|Hne].
    + rewrite list_lookup_insert_eq by (by eapply lookup_lt_Some). rewrite Hi. done.
    + by rewrite list_lookup_insert_ne.
  - destruct (kc_run i seen (sb_disk b)) as [r d]. cbn [sb_calls]. split; [|by rewrite length_insert].
    destruct (decide (i = j)) as [<-|Hne].
    + rewrite list_lookup_insert_eq by (by eapply lookup_lt_Some). rewrite Hi. cbn. lia.
    + by rewrite list_lookup_insert_ne.
Qed.

Lemma schedule_rank schedule : forall b j,
  (Nat.min 2 (rank_of b j + count_occ Nat.eq_dec schedule j) <= rank_of (foldl advance b schedule) j)%nat /\
  length (sb_calls (foldl advance b schedule)) = length (sb_calls b).
Proof.
  induction schedule as [|i l IH]; intros b j; cbn [foldl count_occ]; [split; [lia|done]|].
  destruct (IH (advance b i) j) as [Hr Hl], (advance_rank b i j) as [Ha Hl']. rewrite Hl, Hl'. split; [|done].
  destruct (Nat.eq_dec i j), (decide (i = j)); try done; lia.
Qed.

(** A schedule that gives every call its two steps ends with an answer for each. *)
Lemma fair_schedule_answers m d schedule :
  (forall i, (i < m)%nat -> (2 <= count_occ Nat.eq_dec schedule i)%nat) ->
  exists rs, answers (run_schedule m d schedule) = Some rs /\ length rs = m.
Proof.
  intros Hf. unfold answers, run_schedule.
  assert (length (sb_calls (foldl advance (start m d) schedule)) = m) as Hlen.
  { rewrite (proj2 (schedule_rank schedule (start m d) 0)). apply length_replicate. }
  assert (exists rs, mapM answer (sb_calls (foldl advance (start m d) schedule)) = Some rs) as [rs Hrs].
  { apply mapM_is_Some, Forall_lookup. intros i s Hs.
    destruct (schedule_rank schedule (start m d) i) as [Hr _]. unfold rank_of at 2 in Hr. rewrite Hs in Hr.
    apply lookup_lt_Some in Hs. rewrite Hlen in Hs. specialize (Hf i Hs).
    change (default 2%nat (rank <$> Some s)) with (rank s) in Hr. destruct s; cbn [rank] in Hr; [lia|lia|by eexists]. }
  exists rs. split; [done|]. apply length_mapM in Hrs. lia.
Qed.

(** ** Disjoint calls *)

Context `{!KeyedCallsLaws R}.
Variable n : nat.
Variable d0 : Disk.
Hypothesis keys_disjoint : forall i j p, (i < n)%nat -> (j < n)%nat -> i <> j -> p ∈ kc_keys i -> p ∉ kc_keys j.
Hypothesis keys_plain : forall i, (i < n)%nat -> plain_files (kc_keys i) d0.

(** Where a call stands: its files are as they were at first until it writes them, and
    then as it would have written them alone. *)
Definition call_inv (d : Disk) (i : nat) (s : CallState R) : Prop :=
  match s with
  | NotStarted => agree (kc_keys i) d d0
  | Looked seen => agree (kc_keys i) d d0 /\ agree (kc_keys i) seen d0
  | Answered r => r = fst (kc_run i d0 d0) /\ agree (kc_keys i) d (snd (kc_run i d0 d0))
  end.

Definition batch_inv (b : SharedBatch R) : Prop :=
  length (sb_calls b) = n /\
  (forall i s, sb_calls b !! i = Some s -> call_inv (sb_disk b) i s) /\
  forall q, (forall i, (i < n)%nat -> q ∉ kc_keys i) -> sb_disk b !! q = d0 !! q.

Lemma start_inv : batch_inv (start n d0).
Proof.
  split; [apply length_replicate|]. split; [|done].
  intros i s [-> _]%lookup_replicate_1. by intros p _.
Qed.

Lemma call_inv_frame d d' i s : agree (kc_keys i) d' d -> call_inv d i s -> call_inv d' i s.
Proof.
  intros Ha. unfold call_inv, agree in *. destruct s; [| |]; intros Hs.
  - intros p Hp. by rewrite Ha, Hs.
  - destruct Hs. split; [|done]. intros p Hp. rewrite Ha; auto.
  - destruct Hs. split; [done|]. intros p Hp. rewrite Ha; auto.
Qed.

Lemma advance_inv b i : batch_inv b -> batch_inv (advance b i).
Proof.
  intros (Hl & Hc & Hq). unfold advance.
  destruct (sb_calls b !! i) as [[|seen|r]|] eqn:Hi; [| |done|done]; pose proof (Hc i _ Hi) as Hs.
  - split; [cbn [sb_calls]; by rewrite length_insert|]. split; [|done]. intros j s Hj. cbn [sb_calls sb_disk] in *.
    destruct (decide (i = j)) as [->|Hne]; [|rewrite list_lookup_insert_ne in Hj by done; by apply Hc].
    rewrite list_lookup_insert_eq in Hj by (by eapply lookup_lt_Some). injection Hj as <-. by split.
  - pose proof (lookup_lt_Some _ _ _ Hi) as Hlt. destruct Hs as [Hd Hseen].
    assert (plain_files (kc_keys i) (sb_disk b)) as Hp.
    { intros p Hp. rewrite Hd by done. apply (keys_plain i); [lia|done]. }
    destruct (kc_local i seen d0 (sb_disk b) d0 Hp Hseen Hd) as [Hr Ha].
    pose proof (fun q => kc_frame i seen (sb_disk b) q Hp) as Hf.
    destruct (kc_run i seen (sb_disk b)) as [r d]. cbn [fst snd] in *.
    split; [cbn [sb_calls]; by rewrite length_insert|]. cbn [sb_calls sb_disk]. split.
    + intros j s Hj. destruct (decide (i = j)) as [->|Hne].
      { rewrite list_lookup_insert_eq in Hj by done. injection Hj as <-. by split. }
      rewrite list_lookup_insert_ne in Hj by done. eapply call_inv_frame; [|by apply Hc].
      intros p Hpj. apply Hf. intros Hpi.
      apply (keys_disjoint i j p); [lia| |done|done|done]. apply lookup_lt_Some in Hj. lia.
    + intros q Hall. rewrite Hf by (apply Hall; lia). by apply Hq.
Qed.

Lemma schedule_inv schedule b : batch_inv b -> batch_inv (foldl advance b schedule).
Proof. revert b. induction schedule as [|i l IH]; intros b Hb; cbn; [done|]. by apply IH, advance_inv. Qed.

(** When every call has answered, the invariant leaves one disk and one answer each. *)
Lemma inv_determines b b' rs rs' :
  batch_inv b -> batch_inv b' -> answers b = Some rs -> answers b' = Some rs' ->
  rs = rs' /\ sb_disk b = sb_disk b'.
Proof.
  intros (Hl & Hc & Hq) (Hl' & Hc' & Hq') Ha Ha'. unfold answers in *.
  apply mapM_Some in Ha, Ha'.
  assert (forall i, (i < n)%nat -> exists r, sb_calls b !! i = Some (Answered r) /\ rs !! i = Some r) as Hb.
  { intros i Hi. rewrite <- Hl in Hi. apply lookup_lt_is_Some in Hi as [s Hs].
    destruct (Forall2_lookup_l _ _ _ _ _ Ha Hs) as (r & Hr & He). exists r. by destruct s; simplify_eq/=. }
  assert (forall i, (i < n)%nat -> exists r, sb_calls b' !! i = Some (Answered r) /\ rs' !! i = Some r) as Hb'.
  { intros i Hi. rewrite <- Hl' in Hi. apply lookup_lt_is_Some in Hi as [s Hs].
    destruct (Forall2_lookup_l _ _ _ _ _ Ha' Hs) as (r & Hr & He). exists r. by destruct s; simplify_eq/=. }
  apply Forall2_length in Ha, Ha'. split.
  - apply (list_eq_same_length _ _ n); [lia|lia|]. intros i x y Hi Hx Hy.
    destruct (Hb i Hi) as (r & Hs & Hr), (Hb' i Hi) as (r' & Hs' & Hr'). simplify_eq.
    apply Hc in Hs as [-> _]. by apply Hc' in Hs' as [-> _].
  - apply map_eq. intros q. destruct (decide (Exists (fun i => q ∈ kc_keys i) (seq 0 n))) as [Hin|Hout].
    + apply Exists_exists in Hin as (i & Hi & Hk). apply elem_of_seq in Hi.
      destruct (Hb i ltac:(lia)) as (r & Hs & _), (Hb' i ltac:(lia)) as (r' & Hs' & _).
      apply Hc in Hs as [_ Hd]. apply Hc' in Hs' as [_ Hd']. etrans; [exact (Hd q Hk)|symmetry; exact (Hd' q Hk)].
    + assert (forall i, (i < n)%nat -> q ∉ kc_keys i) as Hn.
      { intros i Hi Hk. apply Hout, Exists_exists. exists i. rewrite elem_of_seq. split; [lia|done]. }
      etrans; [exact (Hq q Hn)|symmetry; exact (Hq' q Hn)].
Qed.

(** Taking both steps of the call that stands after [done]. *)
Lemma advance_twice (pre rest : list (CallState R)) d :
  foldl advance (mkSharedBatch d (pre ++ NotStarted :: rest)) [length pre; length pre]
  = mkSharedBatch (snd (kc_run (length pre) d d)) (pre ++ Answered (fst (kc_run (length pre) d d)) :: rest).
Proof.
  cbn [foldl]. unfold advance at 2. cbn [sb_calls sb_disk].
  rewrite list_lookup_middle by done. rewrite insert_app_r_alt, Nat.sub_diag by done. cbn [insert list_insert].
  unfold advance. cbn [sb_calls sb_disk]. rewrite list_lookup_middle by done.
  destruct (kc_run (length pre) d d) as [r d']. cbn [fst snd].
  rewrite insert_app_r_alt, Nat.sub_diag by done. done.
Qed.

(** The calls one after the other are one of the schedules. *)
Lemma in_order_is_a_schedule m : forall (pre : list (CallState R)) d,
  let '(rs, d') := run_in_order (length pre) m d in
  foldl advance (mkSharedBatch d (pre ++ replicate m NotStarted)) (flat_map (fun j => [j; j]) (seq (length pre) m))
  = mkSharedBatch d' (pre ++ (Answered <$> rs)).
Proof.
  induction m as [|m IH]; intros pre d; [done|]. cbn [run_in_order seq flat_map replicate].
  rewrite foldl_app, advance_twice.
  destruct (kc_run (length pre) d d) as [r d1]. cbn [fst snd].
  specialize (IH (pre ++ [Answered r]) d1). rewrite length_app in IH. cbn [length] in IH.
  rewrite Nat.add_1_r in IH. destruct (run_in_order (S (length pre)) m d1) as [rs d2].
  rewrite <- !app_assoc in IH. cbn [app] in IH. rewrite IH. by rewrite fmap_cons.
Qed.

Lemma answers_all (rs : list R) d : answers (mkSharedBatch d (Answered <$> rs)) = Some rs.
Proof. unfold answers. cbn [sb_calls]. apply mapM_Some. induction rs; constructor; [done|done]. Qed.

(** Whatever the schedule, once every call has answered the answers and the files are
    those of the calls one after the other. *)
Lemma any_schedule_is_in_order schedule rs :
  answers (run_schedule n d0 schedule) = Some rs ->
  run_in_order 0 n d0 = (rs, sb_disk (run_schedule n d0 schedule)).
Proof.
  intros Ha. pose proof (in_order_is_a_schedule n [] d0) as Ho. cbn [length app] in Ho.
  destruct (run_in_order 0 n d0) as [rs' d'].
  destruct (inv_determines (run_schedule n d0 schedule) (mkSharedBatch d' (Answered <$> rs')) rs rs')
    as [-> Hd]; [by apply schedule_inv, start_inv| |done|apply answers_all|by rewrite Hd].
  rewrite <- Ho. apply schedule_inv, start_inv.
Qed.

End interleaving.
