(* ===== verification/ToolDispatch.v ===== *)
(** * Running the tool calls of a response

    The part of the agent loop ([golutra-agent-runtime/src/lib.rs]) that runs tool calls:
    the checks before a batch is run in parallel, the checkpoints of the whole batch
    before any of its calls writes ([invoke_parallel_calls]), a call on its own with its
    questions, its contract, its approval, its checkpoint and its time, and what the loop
    records of each result. The batches are those of [ToolBatch], the calls go through the
    gate of [ToolGate]. The tools, the recorder of checkpoints, the user's answers and the
    clock are arguments; trace events and progress are not modelled. *)
From stdpp Require Import gmap.
From S2P Require Import Prelude RustStr Utf8 Core PathPolicy TaskContract Verify Governed Correction Evidence ModelPatch PatchTool ToolReport ShellSyntax ShellPolicy ShellRequest Provider PendingTurns Question Governor FailureFamily ContextBuild Inspection FileEdits FileTools ToolErrors ToolGate ToolBatch.
Open Scope N_scope.
Open Scope rust_scope.

(** ** Identities of calls *)

(*@ runtime/src/lib.rs canonical_json_value *)
Fixpoint canonical_json_value (v : json) : json :=
  match v with
  | JObject m =>
      JObject ((fix entries m :=
                  match m with
                  | [] => []
                  | (k, x) :: m => entries_insert k (canonical_json_value x) (entries m)
                  end) m)
  | JArray l => JArray (map canonical_json_value l)
  | _ => v
  end.

Section identity.
Variable sha256_hex : string -> string.
(** [serde_json::to_vec]. *)
Variable json_text : json -> string.

(*@ runtime/src/lib.rs tool_attempt_signature *)
Definition tool_attempt_signature (tool_name : string) (arguments : json) : string :=
  tool_name +:+ ":" +:+ sha256_hex (tool_name +:+ nul +:+ json_text (canonical_json_value arguments)).

(*@ runtime/src/lib.rs digest_value *)
Definition digest_value (v : json) : string := sha256_hex (json_text v).

(*@ runtime/src/lib.rs semantic_failure_family *)
Definition semantic_failure_family (tool_name : string) (arguments : json) : string :=
  default (tool_name +:+ ":" +:+ digest_value arguments)
    (semantic_tool_failure_family json_text tool_name arguments).
End identity.

(** ** Waiting *)

Module RuntimeOperationOutcome.
(*@ runtime/src/lib.rs RuntimeOperationOutcome *)
Inductive RuntimeOperationOutcome (T : Type) := Completed (output : T) | Cancelled | TimedOut.
Arguments Completed {T}. Arguments Cancelled {T}. Arguments TimedOut {T}.
End RuntimeOperationOutcome.
Abbreviation RuntimeOperationOutcome := RuntimeOperationOutcome.RuntimeOperationOutcome.

(** What a recorder of checkpoints answers. *)
Definition Recorder : Type :=
  ToolRequest -> list FileBeforeImage -> bool -> RuntimeOperationOutcome (result string unit).

(** ** The counters of the loop *)

(** The variables of the loop that its tool calls read and write. *)
(*@ runtime/src/lib.rs:1568-1570 run_with_control_trace_contract_and_replay_context *)
Record LoopState := mkLoop {
  lp_iteration : N;
  lp_tool_call_count : N;
  lp_failed_tool_call_count : N;
  lp_consecutive_failed_tool_call_count : N;
  lp_planned_input_tokens : N;
  lp_estimated_cost_microusd : option N;
  lp_failure_families : FailureFamilyLedger;
}.

(** The observation before a tool is run. *)
(*@ runtime/src/lib.rs:2710-2731 run_with_control_trace_contract_and_replay_context *)
Definition tool_observation (ls : LoopState) (tool_calls elapsed_ms : N) (latest_action : string)
    : GovernorObservation :=
  {| obs_phase := GovernorPhase.Tool;
     obs_iteration := lp_iteration ls +|32 1;
     obs_tool_calls := tool_calls;
     obs_failed_tool_calls := lp_failed_tool_call_count ls;
     obs_consecutive_failed_tool_calls := lp_consecutive_failed_tool_call_count ls;
     obs_planned_input_tokens := lp_planned_input_tokens ls;
     obs_elapsed_ms := elapsed_ms;
     obs_latest_action := latest_action;
     obs_estimated_cost_microusd := lp_estimated_cost_microusd ls;
     obs_policy_decision := None;
     obs_policy_block_disposition := None;
     obs_security_risk := "medium" |}.

(** ** Preparing a batch *)

(*@ runtime/src/lib.rs PreparedParallelCall *)
Record PreparedParallelCall := mkPreparedCall {
  pp_provider_tool_call_id : string;
  pp_failure_signature : string;
  pp_failure_family : string;
  pp_request : ToolRequest;
  pp_policy : PolicyEvaluation;
  pp_governance : RuntimeGovernorDecision;
  pp_tool_call_count : N;
  pp_preparation : option SideEffectPreparation;
}.

Section prepare.
Variable is_alphanumeric : N -> bool.
Variable to_lowercase : string -> string.
Variable sha256_hex : string -> string.
Variable json_text : json -> string.
Variable limits : GovernorLimits.
Variable ledger : GoalLedger.
Variable profile : AgentToolProfile.
Variable rg : ToolRegistry.
Variable session_id : SessionId.
Variable turn_id : TurnId.
(** The executor: the policy decision and the checkpoint of a request. *)
Variable evaluate_request : ToolRequest -> result ToolFault PolicyEvaluation.
Variable prepare : ToolRequest -> RuntimeOperationOutcome (result ToolFault SideEffectPreparation).
(** The fresh id of each call, and the time it is looked at. *)
Variable fresh_id : nat -> ToolCallId.
Variable elapsed_ms : nat -> N.

Definition request_of (id : ToolCallId) (c : ProviderToolCall) : ToolRequest :=
  mkToolRequest id (Some (pc_tool_call_id c)) session_id (Some turn_id) (pc_tool_name c) (pc_arguments c).

Definition action_text (c : ProviderToolCall) : string := pc_tool_name c +:+ " " +:+ json_text (pc_arguments c).

(** The checkpoint of a call of the batch: one for all processes that are started, none
    for calls that change nothing. [None] is a batch that is not run in parallel. *)
(*@ runtime/src/lib.rs:2736-2770 run_with_control_trace_contract_and_replay_context *)
Definition batch_preparation (kind : ParallelBatchKind) (shared : option SideEffectPreparation)
    (request : ToolRequest) : result ToolFault (option (option SideEffectPreparation)) :=
  if bool_decide (kind = ProcessStart) && is_some_and (fun _ => true) shared then Ok (Some shared)
  else if forbidden_kind kind then
    match prepare request with
    | RuntimeOperationOutcome.Completed (Ok preparation) => Ok (Some (Some preparation))
    | RuntimeOperationOutcome.Completed (Err ToolPanicked) => Err ToolPanicked
    | _ => Ok None
    end
  else Ok (Some None).

(** The loop over the batch; [offset] counts the calls before this one, [seen] are their
    signatures. *)
(*@ runtime/src/lib.rs:2662-2789 run_with_control_trace_contract_and_replay_context *)
Fixpoint prepare_batch (ls : LoopState) (kind : ParallelBatchKind) (shared : option SideEffectPreparation)
    (offset : nat) (seen : list string) (calls : list ProviderToolCall)
    : result ToolFault (option (list PreparedParallelCall)) :=
  match calls with
  | [] => Ok (Some [])
  | c :: calls =>
      let signature := tool_attempt_signature sha256_hex json_text (pc_tool_name c) (pc_arguments c) in
      let family := semantic_failure_family sha256_hex json_text (pc_tool_name c) (pc_arguments c) in
      if (0 <? failures (lp_failure_families ls) family signature) || bool_decide (signature ∈ seen) then Ok None
      else
        let request := request_of (fresh_id offset) c in
        match tool_profile_rejection_reason request profile rg with
        | Some _ => Ok None
        | None =>
            match evaluate_request request with
            | Err ToolPanicked => Err ToolPanicked
            | Err (Tool _) => Ok None
            | Ok policy =>
                if negb (bool_decide (pe_decision policy = PolicyDecision.Allow)) then Ok None
                else
                  let count := lp_tool_call_count ls +|32 (N.min (N.of_nat offset) u32_max +|32 1) in
                  let governance := Governor.evaluate is_alphanumeric to_lowercase limits ledger
                    (tool_observation ls count (elapsed_ms offset) (action_text c)) in
                  if negb (permits_execution governance) then Ok None
                  else
                    let? preparation := batch_preparation kind shared request in
                    match preparation with
                    | None => Ok None
                    | Some preparation =>
                        let shared := match shared with
                                      | Some p => Some p
                                      | None => if bool_decide (kind = ProcessStart) then preparation else None
                                      end in
                        let? rest := prepare_batch ls kind shared (S offset) (signature :: seen) calls in
                        Ok (cons (mkPreparedCall (pc_tool_call_id c) signature family request policy governance
                                    count preparation) <$> rest)
                    end
            end
        end
  end.

(** What was decided about a call before its batch is run. *)
Definition cleared (ls : LoopState) (offset : nat) (c : ProviderToolCall) (p : PreparedParallelCall) : Prop :=
  pp_provider_tool_call_id p = pc_tool_call_id c /\ pp_request p = request_of (fresh_id offset) c /\
  pp_failure_signature p = tool_attempt_signature sha256_hex json_text (pc_tool_name c) (pc_arguments c) /\
  failures (lp_failure_families ls) (pp_failure_family p) (pp_failure_signature p) = 0 /\
  tool_profile_rejection_reason (pp_request p) profile rg = None /\
  evaluate_request (pp_request p) = Ok (pp_policy p) /\ pe_decision (pp_policy p) = PolicyDecision.Allow /\
  permits_execution (pp_governance p) = true /\
  (max_tool_calls limits <> 0 -> pp_tool_call_count p <= max_tool_calls limits) /\
  pp_tool_call_count p = lp_tool_call_count ls +|32 (N.min (N.of_nat offset) u32_max +|32 1).

Lemma prepare_batch_cleared ls kind calls : forall shared offset seen ps,
  prepare_batch ls kind shared offset seen calls = Ok (Some ps) ->
  length ps = length calls /\
  (forall i c p, calls !! i = Some c -> ps !! i = Some p -> cleared ls (offset + i) c p) /\
  NoDup (pp_failure_signature <$> ps) /\ (forall s, s ∈ pp_failure_signature <$> ps -> s ∉ seen).
Proof.
  induction calls as [|c calls IH]; intros shared offset seen ps; cbn [prepare_batch].
  { intros [= <-]. split_and!; [done|by intros []|constructor|by intros s ?%elem_of_nil]. }
  destruct (_ || _) eqn:Hseen; [done|]. boolhyps.
  destruct (tool_profile_rejection_reason _ _ _) eqn:Hprofile; [done|].
  destruct (evaluate_request _) as [policy|[|]] eqn:Hpolicy; try done.
  case_bool_decide as Hallow; [|done]. cbn [negb].
  destruct (permits_execution _) eqn:Hgov; [|done]. cbn [negb].
  destruct (batch_preparation _ _ _) as [[preparation|]|]; try done. cbv zeta.
  match goal with |- context [prepare_batch ls kind ?sh (S offset) ?se calls] =>
    specialize (IH sh (S offset) se); destruct (prepare_batch ls kind sh (S offset) se calls) as [[rest|]|] end;
    try done.
  intros [= <-]. destruct (IH rest eq_refl) as (Hl & Hc & Hnd & Hns).
  split_and!; [cbn [length]; by rewrite Hl| | |].
  - intros [|i] c' p; cbn; [intros [= <-] [= <-]|].
    + rewrite Nat.add_0_r. unfold cleared. cbn. split_and!; try done; [Nbool; lia|].
      apply governor_permits_iff in Hgov as (_ & _ & _ & _ & _ & _ & Ht & _). exact Ht.
    + rewrite <- Nat.add_succ_comm. apply Hc.
  - rewrite fmap_cons. cbn. constructor; [|done]. intros Hin. apply (Hns _ Hin), elem_of_cons. by left.
  - intros s. rewrite fmap_cons, elem_of_cons. cbn. intros [->|Hs]; [done|].
    intros Hi. apply (Hns s Hs), elem_of_cons. by right.
Qed.

(** A batch that is run in parallel was cleared call by call, as if each had been run
    alone: none has failed before, none is repeated in the batch, the profile offers the
    tool, the policy allows it without asking, the governor permits it with the number of
    calls made by then, which stays within the limit of calls. *)
Theorem parallel_calls_were_cleared ls kind calls ps :
  prepare_batch ls kind None 0 [] calls = Ok (Some ps) ->
  Forall2 (fun c p => exists offset, cleared ls offset c p) calls ps /\
  NoDup (pp_failure_signature <$> ps) /\
  (max_tool_calls limits <> 0 -> Forall (fun p => pp_tool_call_count p <= max_tool_calls limits) ps).
Proof.
  intros Hp. apply prepare_batch_cleared in Hp as (Hl & Hc & Hnd & _). split_and!; [|done|].
  - apply Forall2_same_length_lookup_2; [done|]. intros i c p Hi Hp. by exists (0 + i)%nat; apply Hc.
  - intros Hm. apply Forall_lookup. intros i p Hi.
    destruct (lookup_lt_is_Some_2 calls i) as [c Hci]; [rewrite <- Hl; by eapply lookup_lt_Some|].
    by destruct (Hc i c p Hci Hi) as (_ & _ & _ & _ & _ & _ & _ & _ & Ht & _); apply Ht.
Qed.
End prepare.

(** ** Running a batch *)

(*@ runtime/src/lib.rs ParallelCallOutcome *)
Record ParallelCallOutcome := mkCallOutcome {
  po_provider_tool_call_id : string;
  po_failure_signature : string;
  po_failure_family : string;
  po_report : ToolExecutionReport;
  po_tool_call_count : N;
}.

Definition outcome_for (p : PreparedParallelCall) (r : ToolExecutionReport) : ParallelCallOutcome :=
  mkCallOutcome (pp_provider_tool_call_id p) (pp_failure_signature p) (pp_failure_family p) r
    (pp_tool_call_count p).

(*@ runtime/src/lib.rs ParallelCheckpointOutcome *)
Inductive ParallelCheckpointOutcome :=
| Ready
| CheckpointError (error : string)
| CheckpointCancelled
| CheckpointTimedOut.

Definition is_ready (o : ParallelCheckpointOutcome) : bool := match o with Ready => true | _ => false end.

(*@ runtime/src/lib.rs:5591-5611 invoke_parallel_calls *)
Definition checkpoint_call (recorder : Recorder) (p : PreparedParallelCall) : ParallelCheckpointOutcome :=
  match pp_preparation p with
  | None => Ready
  | Some preparation =>
      match recorder (pp_request p) (sp_before_images preparation) (sp_complete preparation) with
      | RuntimeOperationOutcome.Completed (Ok _) => Ready
      | RuntimeOperationOutcome.Completed (Err error) => CheckpointError error
      | RuntimeOperationOutcome.Cancelled => CheckpointCancelled
      | RuntimeOperationOutcome.TimedOut => CheckpointTimedOut
      end
  end.

(** A write that a call made: the file and its content. *)
Definition Write : Type := option (string * string).
Definition written `{Os} (w : Write) (outcome : WriteOutcome) (d : Disk) : Disk :=
  match w with None => d | Some (p, content) => fs_write d p content outcome end.

Section batch_run.
Context `{fs : FileSystem} `{dirs : Directories} `{os : Os}.
Variable replace_all : string -> string -> string -> string.
Variable sha256_hex : string -> string.
Variable line_changes : string -> string -> list (ChangeTag * string).
Variable utf8_error : string -> string.
Variable policy_ref : PolicyId.
Variable ids : FreshIds.
Variable rt : ToolRuntime.
Variable validate : ToolContract -> json -> result ToolFault unit.
Variable replay : ToolRequest -> result ToolFault ToolResultEnvelope.
Variable prepared : ToolRequest -> result ToolInvocationStop (result ToolFault SideEffectPreparation).
Variable fs_read : string -> result string string.
(** The tools other than the file tools. *)
Variable run_other : option BuiltinTool -> ToolRequest -> PolicyEvaluation -> list FileBeforeImage -> Disk ->
  result ToolFault MutationReport * Disk.
(** What such a tool leaves of the files when it is stopped. *)
Variable stop_other : ToolRequest -> Disk -> Disk.

(** The tools, with what the call saw of the files before. *)
Definition look_and_run (seen : Disk) (outcome : WriteOutcome) (tool : option BuiltinTool) (request : ToolRequest)
    (evaluation : PolicyEvaluation) (before_images : list FileBeforeImage) (d : Disk)
    : result ToolFault MutationReport * Disk :=
  match tool with
  | Some BuiltinTool.WriteFile =>
      write_file replace_all sha256_hex line_changes (rt_policy rt) policy_ref ids (observe seen) outcome request
        evaluation before_images d
  | Some BuiltinTool.EditFile =>
      edit_file replace_all sha256_hex line_changes utf8_error (rt_policy rt) policy_ref ids (observe seen) fs_read
        outcome request evaluation before_images d
  | _ => run_other tool request evaluation before_images d
  end.

(** The files a tool leaves when it is stopped before its end: a file tool makes one
    write, which got as far as [stopped] says. *)
Definition stopped_files (seen : Disk) (stopped : WriteOutcome) (p : PreparedParallelCall) (d : Disk) : Disk :=
  let before :=
    match pp_preparation p with
    | Some preparation => sp_before_images preparation
    | None => match prepared (pp_request p) with Ok (Ok preparation) => sp_before_images preparation | _ => [] end
    end in
  match BuiltinTool.from_name (tr_tool_name (pp_request p)) with
  | Some (BuiltinTool.WriteFile | BuiltinTool.EditFile) as tool =>
      snd (look_and_run seen stopped tool (pp_request p) (pp_policy p) before d)
  | _ => stop_other (pp_request p) d
  end.

(** The future of one call: [runnable] says that it was not cancelled while it waited,
    [cancelled] that it is when the tool is about to start, and [how] how the wait for the
    tool ends: with its result, by a cancellation, or by the deadline that the invocation
    is given. *)
(*@ runtime/src/lib.rs:5668-5733 invoke_parallel_calls *)
Definition run_parallel_call (runnable cancelled : bool) (how : OperationEnd) (outcome stopped : WriteOutcome)
    (p : PreparedParallelCall) (seen d : Disk) : result ToolFault ToolExecutionReport * Disk :=
  if negb runnable then
    (Ok (cancelled_report_with_policy replace_all ids (pp_request p) (pp_policy p) "agent task was cancelled"), d)
  else
    let '(r, d') :=
      invoke replace_all ids rt validate replay (look_and_run seen outcome) policy_ref prepared
        (mkInvocation (pp_request p) (pp_policy p) false (pp_preparation p) None) cancelled how
        (stopped_files seen stopped p d) d in
    (match r with
     | Ok m => Ok (mu_report m)
     | Err (Tool error) =>
         Ok (execution_error_report_with_hints (rt_policy rt) policy_ref replace_all sha256_hex ids fs_read
               (pp_request p) (pp_policy p) (error_text error))
     | Err ToolPanicked => Err ToolPanicked
     end, d').

(** What a call is told when a checkpoint of its batch was not made. *)
(*@ runtime/src/lib.rs:5621-5663 invoke_parallel_calls *)
Definition refused_outcome (p : PreparedParallelCall) (checkpoint : ParallelCheckpointOutcome)
    : ParallelCallOutcome :=
  outcome_for p
    match checkpoint with
    | Ready => checkpoint_error_report replace_all ids (pp_request p) (pp_policy p)
                 "a sibling side-effect checkpoint failed; no mutation was executed"
    | CheckpointError error => checkpoint_error_report replace_all ids (pp_request p) (pp_policy p) error
    | CheckpointCancelled =>
        cancelled_report_with_policy replace_all ids (pp_request p) (pp_policy p)
          "tool call cancelled while persisting its side-effect checkpoint"
    | CheckpointTimedOut =>
        deadline_exceeded_report replace_all ids rt (pp_request p) (pp_policy p) "side-effect checkpoint"
    end.

(** The first phase: [None] lets the batch run. *)
(*@ runtime/src/lib.rs:5567-5665 invoke_parallel_calls *)
Definition checkpoint_batch (recorder : option Recorder) (ps : list PreparedParallelCall)
    : option (list ParallelCallOutcome) :=
  match recorder with
  | None => None
  | Some recorder =>
      if existsb (fun p => is_some_and (fun _ => true) (pp_preparation p)) ps then
        let checkpoints := checkpoint_call recorder <$> ps in
        if forallb is_ready checkpoints then None
        else Some (zip_with refused_outcome ps checkpoints)
      else None
  end.

(** The batch as calls on a shared disk. *)
Variable runnable cancelled : nat -> bool.
Variable how : nat -> OperationEnd.
Variable outcome stopped : nat -> WriteOutcome.
Variable ps : list PreparedParallelCall.

Definition write_tool (tool_name : string) : option Mutation :=
  match BuiltinTool.from_name tool_name with
  | Some BuiltinTool.WriteFile => Some WriteTool
  | Some BuiltinTool.EditFile => Some EditTool
  | _ => None
  end.

Definition written_path (request : ToolRequest) : list string :=
  match write_tool (tr_tool_name request) with
  | Some tool => match target (rt_policy rt) policy_ref tool request with Ok p => [p] | Err _ => [] end
  | None => []
  end.

#[local] Instance batch_calls : KeyedCalls (result ToolFault ToolExecutionReport) := {
  kc_keys i := match ps !! i with Some p => written_path (pp_request p) | None => [] end;
  kc_run i seen d :=
    match ps !! i with
    | Some p => run_parallel_call (runnable i) (cancelled i) (how i) (outcome i) (stopped i) p seen d
    | None => (Err ToolPanicked, d)
    end;
}.

(** The whole call: the outcomes in the order of the calls and the files after it, for a
    schedule of the steps of the calls that ends with an answer for each. *)
(*@ runtime/src/lib.rs invoke_parallel_calls *)
Definition invoke_parallel_calls (recorder : option Recorder) (schedule : list nat) (d : Disk)
    : option (list (result ToolFault ParallelCallOutcome) * Disk) :=
  match checkpoint_batch recorder ps with
  | Some outcomes => Some (Ok <$> outcomes, d)
  | None =>
      let b := run_schedule (length ps) d schedule in
      rs ← answers b;
      Some (zip_with (fun p r => let? report := r in Ok (outcome_for p report)) ps rs, sb_disk b)
  end.

End batch_run.

(** ** Locality of the file tools *)

Lemma from_name_name s t : BuiltinTool.from_name s = Some t -> BuiltinTool.name t = s.
Proof.
  unfold BuiltinTool.from_name. cbn [assoc].
  repeat (case_bool_decide; [by intros [= <-]|]). done.
Qed.

Lemma observe_local `{Os} (d d' : Disk) p : d !! p = d' !! p -> observe d p = observe d' p.
Proof. intros He. unfold observe. by rewrite He. Qed.

Section locality.
Context `{fs : FileSystem} `{dirs : Directories} `{os : Os}.
Variable replace_all : string -> string -> string -> string.
Variable sha256_hex : string -> string.
Variable line_changes : string -> string -> list (ChangeTag * string).
Variable utf8_error : string -> string.
Variable policy_ref : PolicyId.
Variable ids : FreshIds.
Variable rt : ToolRuntime.
Variable validate : ToolContract -> json -> result ToolFault unit.
Variable replay : ToolRequest -> result ToolFault ToolResultEnvelope.
Variable prepared : ToolRequest -> result ToolInvocationStop (result ToolFault SideEffectPreparation).
Variable fs_read : string -> result string string.
Variable run_other : option BuiltinTool -> ToolRequest -> PolicyEvaluation -> list FileBeforeImage -> Disk ->
  result ToolFault MutationReport * Disk.
Variable stop_other : ToolRequest -> Disk -> Disk.

Abbreviation run_tool := (look_and_run replace_all sha256_hex line_changes utf8_error policy_ref ids rt fs_read
  run_other).
Abbreviation keys := (written_path policy_ref rt).
Abbreviation gate := (fun run => invoke replace_all ids rt validate replay run policy_ref prepared).

(** Two runs of a call give the same answer and the same write, to one of its keys. *)
Definition alike {A} (ks : list string) (d d' : Disk) (x y : A * Disk) : Prop :=
  exists r w o, x = (r, written w o d) /\ y = (r, written w o d') /\
    forall p content, w = Some (p, content) -> p ∈ ks.

Lemma alike_idle {A} ks d d' (r : A) : alike ks d d' (r, d) (r, d').
Proof. exists r, None, Written. by split_and!. Qed.

Lemma alike_wrote {A} ks outcome d d' (r : A) p content :
  p ∈ ks -> alike ks d d' (r, fs_write d p content outcome) (r, fs_write d' p content outcome).
Proof. intros Hp. exists r, (Some (p, content)), outcome. split_and!; [done|done|]. by intros ? ? [= <- <-]. Qed.

(** The same files with another answer. *)
Lemma alike_answer {A B} ks d d' (x y : A * Disk) (r : B) : alike ks d d' x y -> alike ks d d' (r, snd x) (r, snd y).
Proof. intros (r' & w & o & -> & -> & Hk). by exists r, w, o. Qed.
#[local] Hint Resolve alike_idle : core.

Lemma look_and_run_alike request outcome evaluation before seen seen' d d' tool :
  write_tool (tr_tool_name request) = Some tool -> agree (keys request) seen seen' ->
  let t := BuiltinTool.from_name (tr_tool_name request) in
  alike (keys request) d d' (run_tool seen outcome t request evaluation before d)
    (run_tool seen' outcome t request evaluation before d').
Proof.
  intros Ht. unfold written_path. rewrite Ht. unfold write_tool in Ht. unfold target.
  destruct (BuiltinTool.from_name _) as [[]|]; try done; injection Ht as <-; cbn [look_and_run].
  - unfold write_file. destruct (string_arg _ "path") as [path|]; [|auto].
    intros Ha. destruct (string_arg _ "content") as [content|]; [|auto].
    destruct (_ <? str_len content); [auto|].
    destruct (resolve_tool_path _ _ _ _ _) as [p|]; [|auto].
    rewrite (observe_local seen seen' p) by (apply Ha, list_elem_of_singleton; done).
    destruct (before_image_still_current _ _ _ _) as [[]|]; cbn [negb]; [|auto..].
    case_bool_decide; [auto|]. apply alike_wrote, list_elem_of_singleton. done.
  - unfold edit_file. destruct (string_arg _ "path") as [path|]; [|auto].
    intros Ha. destruct (parse_file_edits _) as [edits|]; [|auto].
    destruct (resolve_tool_path _ _ _ _ _) as [p|]; [|auto].
    rewrite (observe_local seen seen' p) by (apply Ha, list_elem_of_singleton; done).
    destruct (before_image_still_current _ _ _ _) as [[]|]; cbn [negb]; [|auto..].
    destruct (let? original := _ in _) as [original|]; [|auto].
    destruct (apply_file_edits _ _) as [[edited n]|[]]; [|auto..].
    destruct (_ <? str_len edited); [auto|]. apply alike_wrote, list_elem_of_singleton. done.
Qed.

(** The gate lets a tool run or not, and otherwise passes on what it did, or left when it
    was stopped. *)
Lemma invoke_alike run run' i cancelled how ks d d' partial partial' :
  (forall before,
     alike ks d d'
       (run (BuiltinTool.from_name (tr_tool_name (ti_request i))) (ti_request i) (ti_policy i) before d)
       (run' (BuiltinTool.from_name (tr_tool_name (ti_request i))) (ti_request i) (ti_policy i) before d')) ->
  alike ks d d' (tt, partial) (tt, partial') ->
  alike ks d d' (gate run i cancelled how partial d) (gate run' i cancelled how partial' d').
Proof.
  intros Hrun Hpart.
  assert (forall prep stop,
    alike ks d d'
      (invoke_prepared replace_all ids rt validate replay run policy_ref
         (mkInvocation (ti_request i) (ti_policy i) (ti_approved i) (Some prep) stop) cancelled how partial d)
      (invoke_prepared replace_all ids rt validate replay run' policy_ref
         (mkInvocation (ti_request i) (ti_policy i) (ti_approved i) (Some prep) stop) cancelled how partial' d'))
    as Hp.
  { intros prep stop. unfold invoke_prepared. cbn [ti_preparation ti_request ti_policy ti_pre_execution_stop].
    destruct (validate_checkpoint_content_limit _); [|auto]. destruct stop as [[]|]; [auto..|].
    unfold operation, outcome_of, files_after. cbn [ti_request ti_policy].
    change (permitted (mkInvocation (ti_request i) (ti_policy i) (ti_approved i) (Some prep) None))
      with (permitted i).
    destruct (rt_replay rt); [destruct cancelled; auto|].
    destruct (let? c := _ in _); [|auto]. destruct cancelled; [auto|].
    destruct (permitted i); [|destruct (pe_decision _); auto].
    specialize (Hrun (sp_before_images prep)). destruct Hrun as (r & w & o & Hx & Hy & Hk).
    destruct (BuiltinTool.from_name _) as [[]|]; rewrite ?Hx, ?Hy; auto;
      (destruct how as [|[]|[]|]; cbn [ends];
       first [by eexists _, w, o|exact (alike_answer _ _ _ (tt, partial) (tt, partial') _ Hpart)|auto]). }
  unfold invoke. destruct (ti_preparation i); [apply Hp|].
  destruct (negb cancelled && permitted i); [|apply Hp].
  destruct (prepared _) as [[|]|]; [apply Hp|auto|apply Hp].
Qed.

Lemma run_parallel_call_alike runnable cancelled how outcome stopped p seen seen' d d' tool :
  write_tool (tr_tool_name (pp_request p)) = Some tool -> agree (keys (pp_request p)) seen seen' ->
  let run := run_parallel_call replace_all sha256_hex line_changes utf8_error policy_ref ids rt validate replay
    prepared fs_read run_other stop_other runnable cancelled how outcome stopped p in
  alike (keys (pp_request p)) d d' (run seen d) (run seen' d').
Proof.
  intros Ht Ha. unfold run_parallel_call. destruct runnable; [|apply alike_idle]. cbn [negb].
  pose proof (invoke_alike (run_tool seen outcome) (run_tool seen' outcome)
    (mkInvocation (pp_request p) (pp_policy p) false (pp_preparation p) None) cancelled how (keys (pp_request p)) d d')
    as Hi.
  edestruct Hi as (r & w & o & -> & -> & Hk); [| |by eexists _, w, o].
  - intros before. by eapply look_and_run_alike.
  - pose proof (fun before => look_and_run_alike (pp_request p) stopped (pp_policy p) before seen seen' d d' tool Ht Ha)
      as Hs.
    unfold stopped_files. cbv zeta in *. unfold write_tool in Ht.
    destruct (BuiltinTool.from_name _) as [[]|]; try done; eapply alike_answer, Hs.
Qed.

End locality.

Section batch_laws.
Context `{fs : FileSystem} `{dirs : Directories} `{os : Os} `{laws : !OsLaws}.
Variable replace_all : string -> string -> string -> string.
Variable sha256_hex : string -> string.
Variable line_changes : string -> string -> list (ChangeTag * string).
Variable utf8_error : string -> string.
Variable policy_ref : PolicyId.
Variable ids : FreshIds.
Variable rt : ToolRuntime.
Variable validate : ToolContract -> json -> result ToolFault unit.
Variable replay : ToolRequest -> result ToolFault ToolResultEnvelope.
Variable prepared : ToolRequest -> result ToolInvocationStop (result ToolFault SideEffectPreparation).
Variable fs_read : string -> result string string.
Variable run_other : option BuiltinTool -> ToolRequest -> PolicyEvaluation -> list FileBeforeImage -> Disk ->
  result ToolFault MutationReport * Disk.
Variable stop_other : ToolRequest -> Disk -> Disk.
Variable runnable cancelled : nat -> bool.
Variable how : nat -> OperationEnd.
Variable outcome stopped : nat -> WriteOutcome.

(** The calls of a batch of file mutations keep to the interface of calls with keys. *)
Definition write_batch (ps : list PreparedParallelCall) : Prop :=
  Forall (fun p => write_tool (tr_tool_name (pp_request p)) <> None) ps.

Abbreviation calls_of := (batch_calls replace_all sha256_hex line_changes utf8_error policy_ref ids rt validate
  replay prepared fs_read run_other stop_other runnable cancelled how outcome stopped).

Lemma written_frame w o ks (d : Disk) q :
  (forall p content, w = Some (p, content) -> p ∈ ks) -> plain_files ks d -> q ∉ ks ->
  written w o d !! q = d !! q.
Proof.
  intros Hk Hp Hq. destruct w as [[p content]|]; [|done]. specialize (Hk p content eq_refl).
  apply fs_write_elsewhere; [by apply Hp|]. by intros ->.
Qed.

Lemma written_local w o ks (d d' : Disk) :
  (forall p content, w = Some (p, content) -> p ∈ ks) -> plain_files ks d -> agree ks d d' ->
  agree ks (written w o d) (written w o d').
Proof.
  intros Hk Hp Ha q Hq. destruct w as [[p content]|]; [|by apply Ha]. specialize (Hk p content eq_refl).
  assert (is_link (d' !! p) = false) as Hl by (rewrite <- (Ha p Hk); by apply Hp).
  assert (forall text, put d p text !! q = put d' p text !! q) as Hput.
  { intros text. unfold put. rewrite !reaches_itself by (done || by apply Hp). cbv zeta.
    unfold mode_at. rewrite (Ha p Hk).
    destruct (decide (p = q)) as [<-|Hne].
    - etrans; [apply lookup_insert_eq|symmetry; apply lookup_insert_eq].
    - etrans; [by apply lookup_insert_ne|]. etrans; [by apply Ha|]. symmetry. by apply lookup_insert_ne. }
  cbn [written]. unfold fs_write. destruct o; [apply Hput|by apply Ha|apply Hput].
Qed.

Lemma write_batch_laws ps : write_batch ps -> @KeyedCallsLaws _ (calls_of ps).
Proof.
  intros Hps. split.
  - intros i seen d q. cbn. destruct (ps !! i) as [p|] eqn:Hi; [|done]. intros Hp Hq.
    pose proof (proj1 (Forall_lookup _ _) Hps i p Hi) as Ht.
    cbv beta in Ht. destruct (write_tool (tr_tool_name (pp_request p))) as [tool|] eqn:Hw; [|done].
    edestruct (run_parallel_call_alike replace_all sha256_hex line_changes utf8_error policy_ref ids rt validate
      replay prepared fs_read run_other stop_other (runnable i) (cancelled i) (how i) (outcome i) (stopped i) p seen seen d d tool Hw)
      as (r & w & o & -> & _ & Hk); [done|]. cbn [snd]. by eapply written_frame.
  - intros i seen seen' d d'. cbn. destruct (ps !! i) as [p|] eqn:Hi; [|done]. intros Hp Hs Hd.
    pose proof (proj1 (Forall_lookup _ _) Hps i p Hi) as Ht.
    cbv beta in Ht. destruct (write_tool (tr_tool_name (pp_request p))) as [tool|] eqn:Hw; [|done].
    edestruct (run_parallel_call_alike replace_all sha256_hex line_changes utf8_error policy_ref ids rt validate
      replay prepared fs_read run_other stop_other (runnable i) (cancelled i) (how i) (outcome i) (stopped i) p seen seen' d d' tool Hw Hs)
      as (r & w & o & -> & -> & Hk). cbn [fst snd]. split; [done|]. by eapply written_local.
Qed.

(** ** The keys of a batch *)

Variable shlex_split : string -> option (list string).
Variable bash_parse : string -> option Node.
Variable schema_errors : ToolContract -> json -> result string (list string).
Variable run_numstat : list string -> string -> result ToolFault PatchOutput.
Variable profile : AgentToolProfile.
Variable rg : ToolRegistry.
Variable probe_id : ToolCallId.
Variable probe_session : SessionId.

Abbreviation kind_of := (provider_parallel_batch_kind shlex_split bash_parse profile rg
  (resolve_keyed_write_paths shlex_split bash_parse schema_errors rt policy_ref run_numstat) probe_id probe_session).

(** The kind of a call that writes a file: alone, or keyed by the file it writes. *)
Lemma write_call_kind c request :
  tr_tool_name request = pc_tool_name c -> tr_arguments request = pc_arguments c ->
  write_tool (pc_tool_name c) <> None ->
  is_some_and (fun k => bool_decide (tc_side_effect_type k = SideEffectType.File))
    (registry_contract rg (pc_tool_name c)) = true ->
  kind_of c = Exclusive \/ exists p, kind_of c = KeyedWrite [p] /\ written_path policy_ref rt request = [p].
Proof.
  intros Hn Hargs Hw Hf. unfold provider_parallel_batch_kind.
  assert (pc_tool_name c = "write_file" \/ pc_tool_name c = "edit_file") as Hc.
  { revert Hw. unfold write_tool. destruct (BuiltinTool.from_name (pc_tool_name c)) as [[]|] eqn:Hb; try done;
      apply from_name_name in Hb; rewrite <- Hb; auto. }
  assert (provider_tool_call_is_parallel_read_safe shlex_split bash_parse profile rg c = false) as Hr.
  { unfold provider_tool_call_is_parallel_read_safe. destruct (registry_contract rg _) as [k|]; [|done].
    cbn in Hf. apply bool_decide_eq_true in Hf. rewrite (bool_decide_false (pc_tool_name c = "shell")) by (destruct Hc as [Hc|Hc]; by rewrite Hc).
    cbn [is_some_and andb orb]. rewrite (bool_decide_false (tc_side_effect_type k = SideEffectType.None)) by congruence.
    apply andb_false_r. }
  rewrite Hr, (bool_decide_false (pc_tool_name c = "subagent")), (bool_decide_false (pc_tool_name c = "shell"))
    by (destruct Hc as [Hc|Hc]; by rewrite Hc).
  assert (process_to_wait_for profile rg c = None) as ->.
  { unfold process_to_wait_for. rewrite (bool_decide_false (pc_tool_name c = "shell_session"))
      by (destruct Hc as [Hc|Hc]; by rewrite Hc). by case_match. }
  cbn [andb]. unfold write_kind. destruct (_ || _); [by left|].
  unfold resolve_keyed_write_paths, written_path, probe. cbn [tr_tool_name tr_arguments].
  rewrite Hn. destruct (negb _); [by left|]. destruct (admitted _ _ _ _ _) as [k|]; [|by left].
  unfold write_tool, target. rewrite Hargs.
  destruct Hc as [Hc|Hc]; rewrite Hc; cbn [bool_decide]; rewrite ?bool_decide_true by done.
  - destruct (string_arg _ _) as [path|]; [|by left]. cbn.
    destruct (resolve_tool_path _ _ _ _ _) as [p|]; [right; by exists p|by left].
  - rewrite (bool_decide_false ("edit_file" = "write_file")) by done.
    destruct (string_arg _ _) as [path|]; [|by left]. cbn.
    destruct (resolve_tool_path _ _ _ _ _) as [p|]; [right; by exists p|by left].
Qed.

(** The prepared calls of a batch of calls that write files. *)
Definition prepared_for (batch : list ProviderToolCall) (ps : list PreparedParallelCall) : Prop :=
  Forall2 (fun c p => tr_tool_name (pp_request p) = pc_tool_name c /\ tr_arguments (pp_request p) = pc_arguments c)
    batch ps /\
  Forall (fun c => write_tool (pc_tool_name c) <> None /\
            is_some_and (fun k => bool_decide (tc_side_effect_type k = SideEffectType.File))
              (registry_contract rg (pc_tool_name c)) = true) batch.

Lemma prepared_write_batch batch ps : prepared_for batch ps -> write_batch ps.
Proof.
  intros [H2 Hw]. apply Forall_lookup. intros i p Hp.
  destruct (Forall2_lookup_r _ _ _ _ _ H2 Hp) as (c & Hc & Hn & _). rewrite Hn.
  by apply (proj1 (Forall_lookup _ _) Hw i c Hc).
Qed.

Lemma batch_keys_disjoint batch ps i j p :
  independent (kind_of <$> batch) -> prepared_for batch ps ->
  (i < length ps)%nat -> (j < length ps)%nat -> i <> j ->
  p ∈ @kc_keys _ (calls_of ps) i -> p ∉ @kc_keys _ (calls_of ps) j.
Proof.
  intros Hi [H2 Hw] Hil Hjl Hne Hpi Hpj. cbn in Hpi, Hpj.
  destruct (lookup_lt_is_Some_2 _ _ Hil) as [pi Hpi'], (lookup_lt_is_Some_2 _ _ Hjl) as [pj Hpj'].
  rewrite Hpi' in Hpi. rewrite Hpj' in Hpj.
  destruct (Forall2_lookup_r _ _ _ _ _ H2 Hpi') as (ci & Hci & Hni & Hai).
  destruct (Forall2_lookup_r _ _ _ _ _ H2 Hpj') as (cj & Hcj & Hnj & Haj).
  destruct (proj1 (Forall_lookup _ _) Hw i ci Hci) as [Hwi Hfi].
  destruct (proj1 (Forall_lookup _ _) Hw j cj Hcj) as [Hwj Hfj].
  assert (compatible (kind_of ci) (kind_of cj) \/ compatible (kind_of cj) (kind_of ci)) as Hco.
  { destruct (Nat.lt_gt_cases i j) as [[Hlt|Hlt] _]; [done|left|right];
      (eapply Hi; [exact Hlt|by rewrite list_lookup_fmap, ?Hci, ?Hcj..]). }
  destruct (write_call_kind ci (pp_request pi) Hni Hai Hwi Hfi) as [Hki|(a & Hki & Hka)],
    (write_call_kind cj (pp_request pj) Hnj Haj Hwj Hfj) as [Hkj|(b & Hkj & Hkb)];
    rewrite Hki, Hkj in Hco; cbn in Hco; [tauto..|].
  rewrite Hka in Hpi. rewrite Hkb in Hpj. apply list_elem_of_singleton in Hpi, Hpj. subst a b.
  destruct Hco as [Hco|Hco]; by apply (Hco p p); rewrite ?list_elem_of_singleton.
Qed.

Abbreviation parallel := (invoke_parallel_calls replace_all sha256_hex line_changes utf8_error policy_ref ids rt
  validate replay prepared fs_read run_other stop_other runnable cancelled how outcome stopped).

(** What the outcomes are made of. *)
Definition outcomes_of (ps : list PreparedParallelCall) (rs : list (result ToolFault ToolExecutionReport))
    : list (result ToolFault ParallelCallOutcome) :=
  zip_with (fun p r => let? report := r in Ok (outcome_for p report)) ps rs.

(** C14 (equivalence): a batch of calls of [write_file] and [edit_file] that the loop cut
    from the calls of a response gives, in whatever order its calls look at and write their
    files, the files and the results that the calls give one after the other, also where
    some of them are cancelled, fail, or are stopped by the deadline in the middle of a
    write; and it ends once each call has had its steps. No file of the batch is a link.
    (A batch with a call of [apply_patch] is not covered.) *)
Theorem parallel_writes_equal_sequential replay_active workspace_change c pending batch kind rest ps recorder d0 :
  next_batch kind_of replay_active workspace_change c pending = (batch, kind, rest) ->
  prepared_for batch ps ->
  (forall p q, p ∈ ps -> q ∈ written_path policy_ref rt (pp_request p) -> is_link (d0 !! q) = false) ->
  checkpoint_batch replace_all ids rt recorder ps = None ->
  let '(rs, d) := @run_in_order _ (calls_of ps) 0 (length ps) d0 in
  (forall schedule result, parallel ps recorder schedule d0 = Some result -> result = (outcomes_of ps rs, d)) /\
  (forall schedule, (forall i, (i < length ps)%nat -> (2 <= count_occ Nat.eq_dec schedule i)%nat) ->
     parallel ps recorder schedule d0 = Some (outcomes_of ps rs, d)).
Proof.
  intros Hb Hps Hlink Hcp. pose proof (write_batch_laws ps (prepared_write_batch _ _ Hps)) as Hlaws.
  apply batches_are_independent in Hb as (_ & _ & _ & Hind & _).
  assert (forall schedule result, parallel ps recorder schedule d0 = Some result ->
    exists rs, answers (@run_schedule _ (calls_of ps) (length ps) d0 schedule) = Some rs /\
      @run_in_order _ (calls_of ps) 0 (length ps) d0 = (rs, snd result) /\ fst result = outcomes_of ps rs) as Hrun.
  { intros schedule result. unfold invoke_parallel_calls. rewrite Hcp. cbv zeta.
    destruct (answers _) as [rs|] eqn:Ha; [|done]. intros [= <-]. exists rs. split_and!; [done| |done].
    apply (any_schedule_is_in_order (length ps) d0); [| |exact Ha].
    - intros i j p. by apply (batch_keys_disjoint batch).
    - intros i Hi q. cbn. destruct (lookup_lt_is_Some_2 _ _ Hi) as [p Hp]. rewrite Hp. apply Hlink.
      by eapply list_elem_of_lookup_2. }
  destruct (run_in_order 0 (length ps) d0) as [rs d] eqn:Ho. split.
  - intros schedule [outs d'] Hs. destruct (Hrun _ _ Hs) as (rs' & _ & He & Hf). cbn in *. congruence.
  - intros schedule Hfair.
    destruct (@fair_schedule_answers _ (calls_of ps) (length ps) d0 schedule Hfair) as (rs' & Ha & _).
    destruct (parallel ps recorder schedule d0) as [[outs d']|] eqn:Hs.
    + destruct (Hrun _ _ Hs) as (? & _ & He & Hf). cbn in *. congruence.
    + unfold invoke_parallel_calls in Hs. rewrite Hcp in Hs. cbv zeta in Hs. by rewrite Ha in Hs.
Qed.

Lemma refused_outcome_says p checkpoint :
  let o := refused_outcome replace_all ids rt p checkpoint in
  rp_changed_files (po_report o) = [] /\ env_status (rp_envelope (po_report o)) <> ToolResultStatus.Ok /\
  po_provider_tool_call_id o = pp_provider_tool_call_id p.
Proof.
  destruct checkpoint; cbn [refused_outcome outcome_for po_report po_provider_tool_call_id]; try done.
  destruct (deadline_report_keeps replace_all ids rt (pp_request p) (pp_policy p) "side-effect checkpoint")
    as [-> ->]. done.
Qed.

(** C16 (error): when the checkpoint of one call of a batch is not made, whether it failed, was
    cancelled or ran out of time, no call of the batch runs: the files stay as they are,
    and every call gets an outcome, in order, that is no success and lists no change. *)
Theorem failed_checkpoint_runs_nothing ps recorder p schedule d :
  p ∈ ps -> checkpoint_call recorder p <> Ready ->
  exists outcomes, parallel ps (Some recorder) schedule d = Some (Ok <$> outcomes, d) /\
    po_provider_tool_call_id <$> outcomes = pp_provider_tool_call_id <$> ps /\
    Forall (fun o => rp_changed_files (po_report o) = [] /\
              env_status (rp_envelope (po_report o)) <> ToolResultStatus.Ok) outcomes.
Proof.
  intros Hp Hc. unfold invoke_parallel_calls, checkpoint_batch.
  assert (existsb (fun p => is_some_and (fun _ => true) (pp_preparation p)) ps = true) as ->.
  { apply existsb_elem. exists p. split; [done|]. unfold checkpoint_call in Hc. by destruct (pp_preparation p). }
  assert (forallb is_ready (checkpoint_call recorder <$> ps) = false) as ->.
  { apply not_true_is_false. rewrite forallb_elem, Forall_forall. intros Hall. apply Hc.
    specialize (Hall (checkpoint_call recorder p) (list_elem_of_fmap_2 _ _ _ Hp)). by destruct (checkpoint_call _ _). }
  eexists. split; [done|]. clear Hp Hc. induction ps as [|p' ps IH]; [by split|]. cbn.
  destruct (refused_outcome_says p' (checkpoint_call recorder p')) as (Hch & Hst & Hid). destruct IH as [IH1 IH2].
  split; [apply (f_equal2 cons); [exact Hid|exact IH1]|]. by constructor.
Qed.
End batch_laws.

(** ** A small batch *)

(** A text for the values of the examples. *)
Fixpoint some_text (v : json) : string :=
  match v with
  | JString s => s
  | JObject m => join "," ((fix go m := match m with [] => [] | (k, x) :: m => (k +:+ "=" +:+ some_text x) :: go m end) m)
  | _ => ""
  end.

Definition small_registry : ToolRegistry := p0_default (fun _ => (JNull, JNull, JNull)).

Definition write_call (id path content : string) : ProviderToolCall :=
  mkProviderToolCall id "write_file" (JObject [("content", JString content); ("path", JString path)]).
Definition two_writes : list ProviderToolCall := [write_call "c1" "a.txt" "one"; write_call "c2" "b.txt" "two"].

Definition small_kind : ProviderToolCall -> ParallelBatchKind :=
  @provider_parallel_batch_kind plain_words one_command AgentToolProfile.Coding small_registry
    (@resolve_keyed_write_paths work_fs plain_words one_command no_schema_errors small_rt 1 no_numstat) 1 1.

Definition small_loop : LoopState := mkLoop 0 0 0 0 0 None ∅.
Definition small_ledger : GoalLedger := mkGoalLedger 1 "write two files" [] [] [] [].
Definition three_calls : GovernorLimits := mkGovernorLimits 0 3 0 0 0 0 0 0.
Definition allow_all (request : ToolRequest) : result ToolFault PolicyEvaluation := Ok allowed.
Definition prepare_small (request : ToolRequest) : RuntimeOperationOutcome (result ToolFault SideEffectPreparation) :=
  RuntimeOperationOutcome.Completed (small_checkpoint request).

Definition small_prepared : result ToolFault (option (list PreparedParallelCall)) :=
  prepare_batch ascii_alphanumeric to_ascii_lowercase (fun s => s) some_text three_calls small_ledger
    AgentToolProfile.Coding small_registry 1 1 allow_all prepare_small N.of_nat (fun _ => 0) small_loop
    (KeyedWrite ["/w/a.txt"; "/w/b.txt"]) None 0 [] two_writes.
Definition small_ps : list PreparedParallelCall :=
  match small_prepared with Ok (Some ps) => ps | _ => [] end.

Lemma parallel_calls_were_cleared_witness :
  length small_ps = 2%nat /\ NoDup (pp_failure_signature <$> small_ps).
Proof.
  split; [by vm_compute|].
  assert (small_prepared = Ok (Some small_ps)) as Hp by (by vm_compute).
  exact (proj1 (proj2 (parallel_calls_were_cleared ascii_alphanumeric to_ascii_lowercase (fun s => s) some_text
    three_calls small_ledger AgentToolProfile.Coding small_registry 1 1 allow_all prepare_small N.of_nat (fun _ => 0)
    small_loop (KeyedWrite ["/w/a.txt"; "/w/b.txt"]) two_writes small_ps Hp))).
Defined.

Definition record_all : Recorder := fun _ _ _ => RuntimeOperationOutcome.Completed (Ok tt).
Definition record_one_fails : Recorder := fun request _ _ =>
  if bool_decide (tr_provider_tool_call_id request = Some "c2")
  then RuntimeOperationOutcome.Completed (Err "disk full") else RuntimeOperationOutcome.Completed (Ok tt).

Definition stop_at_once (request : ToolRequest) (d : Disk) : Disk := d.
(** The second call runs into the deadline while it writes. *)
Definition small_how (i : nat) : OperationEnd := match i with 1%nat => DeadlineMidway false | _ => RanToEnd end.
Definition cut_write (i : nat) : WriteOutcome := Interrupted 2 (mkWriteError "Interrupted" None "stopped").

Abbreviation small_parallel :=
  (@invoke_parallel_calls work_fs hint_dirs small_os no_redaction no_digest no_changes some_utf8_error 1 some_ids
     small_rt small_validate no_replay small_prepare no_read no_other stop_at_once (fun _ => true) (fun _ => false)
     small_how (fun _ => Written) cut_write).

Definition files_written : Disk :=
  <["/w/b.txt" := Regular "tw" 420]> (<["/w/a.txt" := Regular "one" 420]> work_disk).

(** Both calls look before either writes, and the second writes first and is cut short. *)
Lemma parallel_writes_equal_sequential_witness :
  exists outcomes, small_parallel small_ps (Some record_all) [0; 1; 1; 0]%nat work_disk
    = Some (outcomes, files_written).
Proof.
  assert (next_batch small_kind false WorkspaceChangeRequirement.Required (write_call "c1" "a.txt" "one")
            [write_call "c2" "b.txt" "two"]
          = (two_writes, KeyedWrite ["/w/a.txt"; "/w/b.txt"], [])) as Hb by (by vm_compute).
  assert (prepared_for small_registry two_writes small_ps) as Hps.
  { split; [repeat constructor; vm_compute; done|]. repeat constructor; by vm_compute. }
  assert (forall p q, p ∈ small_ps -> q ∈ @written_path work_fs 1 small_rt (pp_request p) ->
            is_link (work_disk !! q) = false) as Hl.
  { assert (forallb (fun p => forallb (fun q => negb (is_link (work_disk !! q)))
              (@written_path work_fs 1 small_rt (pp_request p))) small_ps = true) as Hf by (by vm_compute).
    intros p q Hp Hq. rewrite forallb_elem, Forall_forall in Hf. specialize (Hf p Hp). cbv beta in Hf.
    rewrite forallb_elem, Forall_forall in Hf. specialize (Hf q Hq). cbv beta in Hf. by apply negb_true_iff in Hf. }
  assert (checkpoint_batch no_redaction some_ids small_rt (Some record_all) small_ps = None) as Hc by (by vm_compute).
  pose proof (@parallel_writes_equal_sequential work_fs hint_dirs small_os small_os_laws no_redaction no_digest
    no_changes some_utf8_error 1 some_ids small_rt small_validate no_replay small_prepare no_read no_other
    stop_at_once (fun _ => true) (fun _ => false) small_how (fun _ => Written) cut_write plain_words one_command no_schema_errors no_numstat
    AgentToolProfile.Coding small_registry 1 1 false WorkspaceChangeRequirement.Required
    (write_call "c1" "a.txt" "one") [write_call "c2" "b.txt" "two"] two_writes _ [] small_ps (Some record_all) work_disk
    Hb Hps Hl Hc) as Ht.
  match type of Ht with context [run_in_order ?i ?n ?d] =>
    destruct (run_in_order i n d) as [rs d'] eqn:Ho; assert (d' = files_written) as Hd
      by (apply (f_equal snd) in Ho; cbn [snd] in Ho; rewrite <- Ho; by vm_compute) end.
  destruct Ht as [_ Hfair]. eexists. rewrite <- Hd. apply Hfair.
  intros [|[|i]] Hi; [by vm_compute|by vm_compute|vm_compute in Hi; lia].
Defined.

Lemma failed_checkpoint_runs_nothing_witness :
  exists outcomes, small_parallel small_ps (Some record_one_fails) [0; 0; 1; 1]%nat work_disk
    = Some (Ok <$> outcomes, work_disk) /\
    po_provider_tool_call_id <$> outcomes = ["c1"; "c2"].
Proof.
  assert (exists p, p ∈ small_ps /\ checkpoint_call record_one_fails p <> Ready) as (p & Hp & Hc).
  { assert (small_ps <> []) as Hne by (by vm_compute).
    destruct (lookup_lt_is_Some_2 small_ps 1) as [p Hp]; [by vm_compute; lia|]. exists p.
    split; [by eapply list_elem_of_lookup_2|]. vm_compute in Hp. injection Hp as <-. by vm_compute. }
  destruct (@failed_checkpoint_runs_nothing work_fs hint_dirs small_os no_redaction no_digest no_changes
    some_utf8_error 1 some_ids small_rt small_validate no_replay small_prepare no_read no_other stop_at_once (fun _ => true)
    (fun _ => false) small_how (fun _ => Written) cut_write small_ps record_one_fails p [0; 0; 1; 1]%nat work_disk Hp Hc)
    as (outcomes & Hr & Hi & _).
  exists outcomes. split; [exact Hr|]. rewrite Hi. by vm_compute.
Defined.
