(* ===== verification/Completion.v ===== *)
(** * Completion

    The deterministic end of a turn: [golutra-agent-runtime/src/completion.rs] and
    the tail of the agent loop's completion cycle in [lib.rs]. A candidate is
    verified under its contract; the governor, the guards and the contract decide
    whether the turn ends, and how, or whether the model gets one more correction.
    The wording of the model never decides. [Uuid]'s and [serde_json]'s text forms
    and SHA-256 are arguments; the model-visible text appended to the provider's
    message plan on a correction is not part of the state here. *)
From S2P Require Import Prelude RustStr Core FailureFamily StepMachine Governor Outcome.
From S2P Require Import TaskContract Verify Governed Correction.
Open Scope N_scope.

(** ** Completion policy *)

(*@ runtime/src/completion.rs accepts_best_effort_completion *)
Definition accepts_best_effort_completion (contract : TaskContract) (v : VerificationRecord)
    : bool :=
  bool_decide (contract_verification contract = VerificationRequirement.BestEffort)
  && negb (require_objective_validation contract)
  && bool_decide (vr_result v = VerificationResult.Partial)
  && bool_decide (vr_policy_status v = "task_contract_satisfied")
  && forallb assertion_satisfied (List.filter assertion_blocking (vr_assertions v))
  && existsb (fun c => is_kind VerificationCheckKind.WorkspaceChange c && check_passed c)
       (vr_checks v)
  && negb (existsb (is_kind VerificationCheckKind.ObjectiveValidation) (vr_checks v))
  && forallb check_passed
       (List.filter (fun c => is_kind VerificationCheckKind.Schema c
                              || is_kind VerificationCheckKind.Policy c) (vr_checks v)).

(** [{:?}] of a result. *)
Definition result_debug (r : VerificationResult) : string :=
  match r with
  | VerificationResult.Pass => "Pass"
  | VerificationResult.Fail => "Fail"
  | VerificationResult.Partial => "Partial"
  | VerificationResult.Unknown => "Unknown"
  end.

(*@ runtime/src/completion.rs loop_decision *)
Definition loop_decision (decision_id : LoopDecisionId) (task_id : TaskId) (turn_id : TurnId)
    (v : VerificationRecord) (budget : LoopBudgetState) : LoopDecision :=
  {| ld_decision_id := decision_id;
     ld_task_id := task_id;
     ld_turn_id := turn_id;
     ld_action :=
       match vr_result v with
       | VerificationResult.Pass => LoopAction.StopSuccess
       | VerificationResult.Partial => LoopAction.StopPartial
       | VerificationResult.Fail => LoopAction.StopFailed
       | VerificationResult.Unknown => LoopAction.Blocked
       end;
     ld_reason := "verification result: " +:+ result_debug (vr_result v);
     ld_evidence_refs := vr_evidence_refs v;
     ld_verification_ref := Some (vr_verification_id v);
     ld_policy_ref := None;
     ld_budget_state := budget;
     ld_tool_state := "p0_tool_reports_recorded";
     ld_model_state := "p0_provider_response_recorded";
     ld_next_step := None |}.

(*@ runtime/src/completion.rs bounded_text *)
Definition bounded_text (value : string) (max_chars : N) : string :=
  let bounded := take_chars max_chars value in
  if max_chars <? char_count value then bounded +:+ "..." else bounded.

(** [families.into_iter().max_by_key(count)] on the counts of the families, in key
    order: of equally frequent families the last one. *)
(*@ runtime/src/completion.rs:150-159 evidence_backed_failure_message *)
Definition dominant_family (families : list string) : option (string * N) :=
  fold_left (fun best family =>
      let n := N.of_nat (length (List.filter (fun f => bool_decide (f = family)) families)) in
      match best with
      | Some (_, m) => if m <=? n then Some (family, n) else best
      | None => Some (family, n)
      end) (dedup (sort_strings families)) None.

Definition newline : string := String (Ascii.ascii_of_N 10) "".

Section Messages.
Variable value_to_string : json -> string.
Variable id_to_string : N -> string.

Definition is_failed_check (c : VerificationCheck) : bool :=
  negb (check_passed c) && negb (is_kind VerificationCheckKind.ToolExecution c).

(*@ runtime/src/completion.rs:136-158 evidence_backed_failure_message *)
Definition failed_report (v : VerificationRecord) (r : ToolExecutionReport) : bool :=
  negb (bool_decide (env_status (rp_envelope r) = ToolResultStatus.Ok))
  && existsb (fun c => is_failed_check c
       && existsb (fun id => bool_decide (id ∈ env_evidence_refs (rp_envelope r)))
            (check_evidence_refs c)) (vr_checks v).

Definition report_family (r : ToolExecutionReport) : string :=
  default ("tool:" +:+ env_tool_name (rp_envelope r))
    (semantic_tool_failure_family value_to_string (env_tool_name (rp_envelope r))
       (structured_facts (rp_envelope r))).

(*@ runtime/src/completion.rs:126-135 evidence_backed_failure_message *)
Definition failed_message (v : VerificationRecord) : string :=
  let from_check :=
    c ← List.find is_failed_check (reverse (vr_checks v));
    let m := trim (check_message c) in if bool_decide (m = "") then None else Some m in
  match from_check with
  | Some m => m
  | None => default "completion criteria were not proven" (head (vr_residual_risks v))
  end.

(*@ runtime/src/completion.rs evidence_backed_failure_message *)
Definition evidence_backed_failure_message (reports : list ToolExecutionReport)
    (v : VerificationRecord) : string :=
  let failed_check := List.find is_failed_check (reverse (vr_checks v)) in
  let families := report_family <$> List.filter (failed_report v) reports in
  let evidence :=
    id_to_string <$> take 3
      match failed_check with Some c => check_evidence_refs c | None => vr_evidence_refs v end in
  "Could not complete. Verification " +:+ result_debug (vr_result v) +:+ ": "
    +:+ bounded_text (failed_message v) 240 +:+ "."
    +:+ match dominant_family families with
        | Some (family, failures) =>
            " Root cause: `" +:+ family +:+ "`; failed tool attempts: " +:+ show failures +:+ "."
        | None => ""
        end
    +:+ match evidence with
        | [] => " Verification record: " +:+ id_to_string (vr_verification_id v) +:+ "."
        | _ => " Evidence: " +:+ join ", " evidence +:+ "."
        end.

Definition non_blank (m : option string) : bool :=
  is_some_and (fun m => negb (trim_is_empty m)) m.

(*@ runtime/src/completion.rs final_message *)
Definition final_message (assistant_message : option string) (reports : list ToolExecutionReport)
    (v : VerificationRecord) : option string :=
  match vr_result v with
  | VerificationResult.Pass =>
      if non_blank assistant_message then assistant_message
      else
        let summary :=
          default "verified completion"
            (List.find (fun s => negb (bool_decide (s = "")))
               ((fun r => trim (env_summary (rp_envelope r))) <$> reverse reports)) in
        Some ("Completed: " +:+ summary)
  | _ =>
      let diagnostic := evidence_backed_failure_message reports v in
      Some match assistant_message with
           | Some message =>
               if trim_is_empty message then diagnostic
               else diagnostic +:+ newline +:+ newline
                      +:+ "Findings (not verified as complete):" +:+ newline +:+ message
           | None => diagnostic
           end
  end.
End Messages.

(*@ runtime/src/completion.rs interaction_only_report *)
Definition interaction_only_report (r : ToolExecutionReport) : bool :=
  bool_decide (env_status (rp_envelope r) = ToolResultStatus.Ok)
  && bool_decide (env_risk (rp_envelope r) = "p0_user_input")
  && match raw_artifact_ref (rp_envelope r) with None => true | Some _ => false end
  && is_nil (env_evidence_refs (rp_envelope r)) && is_nil (rp_evidence r)
  && is_nil (rp_changed_files r).

(*@ runtime/src/completion.rs accepts_text_response_without_evidence *)
Definition accepts_text_response_without_evidence (requires_evidence : bool)
    (assistant_message : option string) (reports : list ToolExecutionReport) : bool :=
  negb requires_evidence && forallb interaction_only_report reports && non_blank assistant_message.

(** ** The completion cycle *)

Module LoopGuardTrigger.
(*@ core/src/loop_control.rs LoopGuardTrigger *)
Inductive LoopGuardTrigger :=
| RepeatedToolFailure | EmptyResponse | ContextOverflow | MaxIteration | NoProgress
| RuntimeDeadline | RetryCostExceeded | OversizedToolOutput.
End LoopGuardTrigger.
Abbreviation LoopGuardTrigger := LoopGuardTrigger.LoopGuardTrigger.

(** The trace events the cycle emits. *)
Inductive TraceEvent :=
| TVerificationReady (plan_id : VerificationPlanId)
| TVerificationPlanned (p : VerificationPlan)
| TVerificationAssertionCompleted (a : VerificationAssertion)
| TGovernorDecided (d : RuntimeGovernorDecision)
| TLoopGuardTriggered (trigger : LoopGuardTrigger) (reason : string)
| TVerificationCompleted (record : VerificationRecord) (terminal : bool)
| TCorrectionIssued (correction : CorrectionEnvelope)
| TAssistantMessage (turn_id : TurnId) (content : string).

(** What is fixed during one cycle: the turn's configuration, the counters the
    governor observes, the clock readings and fresh ids. *)
Record CycleContext := mkCycleContext {
  cx_task_id : TaskId;
  cx_turn_id : TurnId;
  cx_objective : string;
  cx_contract : TaskContract;
  cx_external_verifiers : list string;
  cx_defer_external_verification : bool;
  cx_candidate_complete : bool;
  cx_limits : GovernorLimits;
  cx_goal_ledger : GoalLedger;
  cx_used_iterations : N;
  cx_tool_calls : N;
  cx_failed_tool_calls : N;
  cx_consecutive_failed_tool_calls : N;
  cx_estimated_cost_microusd : option N;
  cx_budget_state : LoopBudgetState;
  cx_max_elapsed_ms : N;
  cx_deadline_guard_emitted : bool;
  cx_elapsed_ms : N;
  cx_correction_elapsed_ms : N;
  cx_environment_digest : string;
  cx_new_id : nat -> VerificationAssertionId;
  cx_plan_id : VerificationPlanId;
  cx_created_at : N;
  cx_verification_id : VerificationId;
  cx_decision_id : LoopDecisionId;
}.

(** The loop variables the cycle reads and writes. *)
Record CycleState := mkCycleState {
  cs_turn_state : TurnState;
  cs_step_machine : StepMachine;
  cs_correction_progress : CorrectionProgress;
  cs_guard_reason : option string;
  cs_governor_action : option GovernorAction;
  cs_last_assistant_message : option string;
  cs_last_emitted : option (TurnId * string);
  cs_tool_reports : list ToolExecutionReport;
}.

(*@ runtime/src/lib.rs AgentLoopOutcome *)
Record AgentLoopOutcome := mkAgentLoopOutcome {
  lo_runtime_stop_reason : option string;
  lo_runtime_failure_class : option FailureClass;
  lo_verification : VerificationRecord;
  lo_verification_plan : VerificationPlan;
  lo_loop_decision : LoopDecision;
  lo_tool_reports : list ToolExecutionReport;
  lo_final_message : option string;
  lo_final_turn_id : TurnId;
  lo_defer_external_verification : bool;
  lo_candidate_ready_for_external_verification : bool;
}.

(** [continue 'completion_cycle] after a correction, or [break Ok(outcome)]. *)
Inductive CycleResult :=
| Corrected (s : CycleState)
| Finished (o : AgentLoopOutcome).

Section Cycle.
Variable is_alphanumeric : N -> bool.
Variable to_lowercase : string -> string.
Variable value_to_string : json -> string.
Variable id_to_string : N -> string.
Variable sha256_hex : list N -> string.
Variable digest : Fingerprint -> string.

(*@ runtime/src/lib.rs:4022-4041 run_with_control_trace_contract_and_replay_context *)
Definition completion_observation (cx : CycleContext) (s : CycleState) : GovernorObservation :=
  {| obs_phase := GovernorPhase.Completion;
     obs_iteration :=
       cx_used_iterations cx +|32 cp_next_step_no (checkpoint (cs_step_machine s));
     obs_tool_calls := cx_tool_calls cx;
     obs_failed_tool_calls := cx_failed_tool_calls cx;
     obs_consecutive_failed_tool_calls := cx_consecutive_failed_tool_calls cx;
     obs_planned_input_tokens := default 0 (lbs_planned_input_tokens (cx_budget_state cx));
     obs_elapsed_ms := cx_elapsed_ms cx;
     obs_latest_action := default (cx_objective cx) (cs_last_assistant_message s);
     obs_estimated_cost_microusd := cx_estimated_cost_microusd cx;
     obs_policy_decision := None;
     obs_policy_block_disposition := None;
     obs_security_risk := "low" |}.

Definition completion_governance (cx : CycleContext) (s : CycleState) : RuntimeGovernorDecision :=
  evaluate is_alphanumeric to_lowercase (cx_limits cx) (cx_goal_ledger cx) (completion_observation cx s).

(** The guard reason and governor action after the completion decision. *)
(*@ runtime/src/lib.rs:4043-4047 run_with_control_trace_contract_and_replay_context *)
Definition gate_guard (cx : CycleContext) (s : CycleState) : option string :=
  if permits_execution (completion_governance cx s) then cs_guard_reason s
  else Some (gd_reason (completion_governance cx s)).
(*@ runtime/src/lib.rs:4043-4047 run_with_control_trace_contract_and_replay_context *)
Definition gate_action (cx : CycleContext) (s : CycleState) : option GovernorAction :=
  if permits_execution (completion_governance cx s) then cs_governor_action s
  else Some (gd_action (completion_governance cx s)).

(*@ runtime/src/lib.rs:4048-4060 run_with_control_trace_contract_and_replay_context *)
Definition deadline_trace (cx : CycleContext) (s : CycleState) : list TraceEvent :=
  if negb (permits_execution (completion_governance cx s)) && negb (cx_deadline_guard_emitted cx)
     && (0 <? cx_max_elapsed_ms cx) && (cx_max_elapsed_ms cx <=? cx_elapsed_ms cx)
  then [TLoopGuardTriggered LoopGuardTrigger.RuntimeDeadline
          (default "runtime wall-clock budget exceeded" (gate_guard cx s))]
  else [].

(** A guard downgrades a pass and is recorded as a risk. *)
(*@ runtime/src/lib.rs:4061-4066 run_with_control_trace_contract_and_replay_context *)
Definition guarded_record (guard : option string) (v : VerificationRecord) : VerificationRecord :=
  match guard with
  | Some reason =>
      with_verdict v
        (if bool_decide (vr_result v = VerificationResult.Pass) then VerificationResult.Partial
         else vr_result v)
        (vr_policy_status v) (vr_residual_risks v ++ [reason])
  | None => v
  end.

(*@ runtime/src/lib.rs:4067-4069 run_with_control_trace_contract_and_replay_context *)
Definition independent_verifier_unavailable (cx : CycleContext) : bool :=
  requires_independent_verification (cx_contract cx) && is_nil (cx_external_verifiers cx).

(*@ runtime/src/lib.rs:4070-4086 run_with_control_trace_contract_and_replay_context *)
Definition ready_for_external (cx : CycleContext) (guard : option string) (v : VerificationRecord)
    : bool :=
  let policy_verified :=
    existsb (fun a => assertion_blocking a
      && bool_decide (assertion_kind a = VerificationAssertionKind.Policy)
      && assertion_satisfied a) (vr_assertions v) in
  cx_candidate_complete cx && bool_decide (guard = None) && cx_defer_external_verification cx
  && policy_verified
  && negb (existsb (fun a => assertion_blocking a
             && has_status VerificationAssertionStatus.Fail a) (vr_assertions v)).

(*@ runtime/src/lib.rs:4087-4093 run_with_control_trace_contract_and_replay_context *)
Definition best_effort_complete (cx : CycleContext) (guard : option string)
    (v : VerificationRecord) : bool :=
  cx_candidate_complete cx && bool_decide (guard = None)
  && negb (cx_defer_external_verification cx)
  && accepts_best_effort_completion (cx_contract cx) v.

(*@ runtime/src/lib.rs:4094-4101 run_with_control_trace_contract_and_replay_context *)
Definition correction_due (cx : CycleContext) (attempt : N) (guard : option string)
    (v : VerificationRecord) : bool :=
  cx_candidate_complete cx && bool_decide (guard = None)
  && negb (bool_decide (vr_result v = VerificationResult.Pass))
  && negb (best_effort_complete cx guard v) && negb (independent_verifier_unavailable cx)
  && negb (ready_for_external cx guard v) && allows_correction (cx_contract cx) attempt.

(*@ runtime/src/lib.rs:4102-4108 run_with_control_trace_contract_and_replay_context *)
Definition next_envelope (cx : CycleContext) (attempt : N) (v : VerificationRecord)
    : CorrectionEnvelope :=
  correction_envelope v (attempt +|32 1)
    ((fun limit => limit - (attempt +|32 1)) <$> max_correction_rounds (cx_contract cx)).

Definition is_verifier_report (r : ToolExecutionReport) : bool :=
  bool_decide (env_tool_name (rp_envelope r)
                 ∈ ["external_verifier"; "contract_file_content_verifier";
                    "contract_path_verifier"]).

(** The loop variables when the cycle continues with a correction. *)
(*@ runtime/src/lib.rs:4119-4161 run_with_control_trace_contract_and_replay_context *)
Definition corrected_state (cx : CycleContext) (s : CycleState) (turn : TurnState)
    (progress : CorrectionProgress) : CycleState :=
  {| cs_turn_state := issue_correction turn ContinuationReason.VerificationFailed;
     cs_step_machine := begin_correction (cs_step_machine s) (cx_correction_elapsed_ms cx);
     cs_correction_progress := progress;
     cs_guard_reason := None;
     cs_governor_action := None;
     cs_last_assistant_message := None;
     cs_last_emitted := None;
     cs_tool_reports := List.filter (fun r => negb (is_verifier_report r)) (cs_tool_reports s) |}.

Definition no_progress_reason : string :=
  "automatic correction stopped: the same verification requirement remains unresolved without new validation evidence or a changed candidate".

(*@ runtime/src/lib.rs:4177-4201 run_with_control_trace_contract_and_replay_context *)
Definition terminal_decision (cx : CycleContext) (guard : option string)
    (action : option GovernorAction) (best_effort : bool) (v : VerificationRecord)
    : LoopDecision :=
  let d := loop_decision (cx_decision_id cx) (cx_task_id cx) (cx_turn_id cx) v
             (cx_budget_state cx) in
  let '(act, reason) :=
    if best_effort then
      (LoopAction.StopSuccess,
       "task contract satisfied; optional objective validation remains unverified (best effort)")
    else (ld_action d, default (ld_reason d) guard) in
  let '(act, reason, next_step) :=
    match action with
    | Some a =>
        (match a with
         | GovernorAction.AskUser => LoopAction.AskUser
         | GovernorAction.Block => LoopAction.Blocked
         | GovernorAction.Allow | GovernorAction.Warn => act
         end,
         default "runtime governor stopped execution" guard,
         Some "user must revise the objective or runtime budget")
    | None => (act, reason, ld_next_step d)
    end in
  {| ld_decision_id := ld_decision_id d; ld_task_id := ld_task_id d; ld_turn_id := ld_turn_id d;
     ld_action := act; ld_reason := reason; ld_evidence_refs := ld_evidence_refs d;
     ld_verification_ref := ld_verification_ref d; ld_policy_ref := ld_policy_ref d;
     ld_budget_state := ld_budget_state d; ld_tool_state := ld_tool_state d;
     ld_model_state := ld_model_state d; ld_next_step := next_step |}.

(** The turn ends with this record and guard. *)
(*@ runtime/src/lib.rs:4172-4238 run_with_control_trace_contract_and_replay_context *)
Definition finish (cx : CycleContext) (s : CycleState) (guard : option string)
    (action : option GovernorAction) (best_effort ready : bool) (v : VerificationRecord)
    (p : VerificationPlan) : list TraceEvent * CycleResult :=
  let message :=
    if best_effort then cs_last_assistant_message s
    else match guard with
         | Some reason => Some ("Could not complete: " +:+ reason +:+ ".")
         | None => final_message value_to_string id_to_string (cs_last_assistant_message s)
                     (cs_tool_reports s) v
         end in
  let emitted :=
    match message with
    | Some content =>
        if bool_decide (cs_last_emitted s = Some (cx_turn_id cx, content)) then []
        else [TAssistantMessage (cx_turn_id cx) content]
    | None => []
    end in
  (TVerificationCompleted v true :: emitted,
   Finished
     {| lo_runtime_stop_reason := guard;
        lo_runtime_failure_class :=
          (fun _ => if bool_decide (vr_policy_status v = "policy_blocked") then FailureClass.Policy
                    else FailureClass.RuntimeControlFlow) <$> guard;
        lo_verification := v;
        lo_verification_plan := p;
        lo_loop_decision := terminal_decision cx guard action best_effort v;
        lo_tool_reports := cs_tool_reports s;
        lo_final_message := message;
        lo_final_turn_id := cx_turn_id cx;
        lo_defer_external_verification := cx_defer_external_verification cx;
        lo_candidate_ready_for_external_verification := ready |}).

(** From the verified record to the end of the cycle. *)
(*@ runtime/src/lib.rs:4094-4176 run_with_control_trace_contract_and_replay_context *)
Definition settle (cx : CycleContext) (s : CycleState) (turn : TurnState) (v : VerificationRecord)
    (p : VerificationPlan) : list TraceEvent * CycleResult :=
  let guard := gate_guard cx s in
  let action := gate_action cx s in
  let best_effort := best_effort_complete cx guard v in
  let ready := ready_for_external cx guard v in
  let attempt := ts_correction_attempt turn in
  if correction_due cx attempt guard v then
    let correction := next_envelope cx attempt v in
    match permits_retry sha256_hex digest (cs_correction_progress s) correction v
            (cs_tool_reports s) (cs_last_assistant_message s) with
    | (true, progress) =>
        ([TVerificationCompleted v false; TCorrectionIssued correction],
         Corrected (corrected_state cx s turn progress))
    | (false, _) =>
        let v := with_verdict v (vr_result v) (vr_policy_status v)
                   (vr_residual_risks v ++ [no_progress_reason]) in
        let '(tr, r) := finish cx s (Some no_progress_reason) action best_effort ready v p in
        (TLoopGuardTriggered LoopGuardTrigger.NoProgress no_progress_reason :: tr, r)
    end
  else finish cx s guard action best_effort ready v p.

(** One pass of the completion cycle over a verification input. *)
(*@ runtime/src/lib.rs:3989-4093 run_with_control_trace_contract_and_replay_context *)
Definition completion_cycle (cx : CycleContext) (s : CycleState) (i : VerificationInput)
    : list TraceEvent * CycleResult :=
  let p0 := plan_governed (cx_new_id cx) (cx_plan_id cx) (cx_created_at cx) i (cx_contract cx) in
  let '(v, p) := verify_governed (cx_verification_id cx) i p0 (cx_contract cx)
                   (cx_environment_digest cx) in
  let turn := begin_verification (verification_ready (cs_turn_state s)) (vr_verification_id v) in
  let v := guarded_record (gate_guard cx s) v in
  let '(tr, r) := settle cx s turn v p in
  ([TVerificationReady (Verify.plan_id p0); TVerificationPlanned p0]
     ++ (TVerificationAssertionCompleted <$> (plan_assertions p ++ policy_assertions p))
     ++ [TGovernorDecided (completion_governance cx s)] ++ deadline_trace cx s ++ tr, r).
End Cycle.

(** ** Facts about governed records *)

Lemma governed_checks vid i p contract d :
  vr_checks (fst (verify_governed vid i p contract d)) = in_command_checks i.
Proof.
  unfold verify_governed. rewrite (surjective_pairing (verify_with_plan vid i p)). cbn [fst].
  assert (H : vr_checks (fst (verify_with_plan vid i p)) = in_command_checks i).
  { unfold verify_with_plan. cbn [fst].
    destruct (existsb _ (_ ++ _)); [done|]. by destruct (existsb _ _ && _). }
  set (rec := fst (verify_with_plan vid i p)) in *. clearbody rec.
  set (rec' := with_environment rec _ _). set (st := recorded_policy_status _).
  assert (Hg : vr_checks (policy_gate st rec') = in_command_checks i).
  { by destruct st as [[]|]. }
  clearbody st. set (g := policy_gate st rec') in *. clearbody g. unfold contract_gate.
  destruct (negb (is_nil _)); [done|]. case_bool_decide; [done|]. destruct (negb _); [|done].
  destruct (_ && negb (in_code_files_changed i)); [done|].
  by destruct (_ && negb (objective_validated i)).
Qed.

(** A record marked as satisfying its contract does, and its policy checks passed. *)
Lemma governed_satisfied new_id pid t vid i contract d :
  let p := plan_governed new_id pid t i contract in
  vr_policy_status (fst (verify_governed vid i p contract d)) = "task_contract_satisfied" ->
  contract_demands contract i /\
  (exists c, c ∈ in_command_checks i /\ is_policy_check c = true) /\
  (forall c, c ∈ in_command_checks i -> is_policy_check c = true -> check_passed c = true).
Proof.
  intros p. unfold verify_governed.
  assert (Hst := governed_policy_status new_id pid t vid i contract). fold p in Hst.
  assert (Hs := verify_with_plan_policy vid i p).
  rewrite (surjective_pairing (verify_with_plan vid i p)). cbn [fst].
  set (rec := fst (verify_with_plan vid i p)) in *. clearbody rec.
  rewrite Hst. clear Hst. rewrite <- contract_failures_nil, <- policy_check_pass.
  unfold contract_gate. destruct (contract_failures contract i); [|done]. cbn [is_nil negb].
  assert (Hd : let s := fst (fst (policy_check_status i)) in
    s = VerificationAssertionStatus.Pass \/ s = VerificationAssertionStatus.Fail \/
    s = VerificationAssertionStatus.Unknown).
  { exact (status_decided (assertion 0 "" VerificationAssertionKind.Policy "" "" true) i true
             ltac:(done)). }
  cbv zeta in Hd. destruct Hd as [->|[->| ->]]; [done| |]; cbn; rewrite ?Hs; done.
Qed.

Lemma best_effort_spec contract v :
  accepts_best_effort_completion contract v = true ->
  contract_verification contract = VerificationRequirement.BestEffort /\
  require_objective_validation contract = false /\
  vr_result v = VerificationResult.Partial /\
  vr_policy_status v = "task_contract_satisfied" /\
  (forall c, c ∈ vr_checks v -> check_kind c <> VerificationCheckKind.ObjectiveValidation) /\
  (exists c, c ∈ vr_checks v /\ check_kind c = VerificationCheckKind.WorkspaceChange /\
     check_passed c = true).
Proof.
  unfold accepts_best_effort_completion. intros H. boolhyps. split_and!; try done.
  - intros c Hc Hk. match goal with H : existsb _ _ = false |- _ =>
      rewrite existsb_none in H; specialize (H c Hc) end.
    unfold is_kind in *. by rewrite (bool_decide_eq_true_2 _ Hk) in *.
  - match goal with H : existsb _ _ = true |- _ => apply existsb_elem in H as (c & Hc & Hk) end.
    boolhyps. exists c. split_and!; try done.
    match goal with H : is_kind _ _ = true |- _ => by apply bool_decide_eq_true in H end.
Qed.

(** ** How a cycle can end *)

Section CycleProperties.
Context (is_alphanumeric : N -> bool) (to_lowercase : string -> string)
  (value_to_string : json -> string) (id_to_string : N -> string)
  (sha256_hex : list N -> string) (digest : Fingerprint -> string).

Abbreviation governance := (completion_governance is_alphanumeric to_lowercase).
Abbreviation guard_of := (gate_guard is_alphanumeric to_lowercase).
Abbreviation action_of := (gate_action is_alphanumeric to_lowercase).
Abbreviation cycle := (completion_cycle is_alphanumeric to_lowercase value_to_string id_to_string
                         sha256_hex digest).

Definition cycle_plan (cx : CycleContext) (i : VerificationInput) : VerificationPlan :=
  plan_governed (cx_new_id cx) (cx_plan_id cx) (cx_created_at cx) i (cx_contract cx).
Definition cycle_record (cx : CycleContext) (i : VerificationInput) : VerificationRecord :=
  fst (verify_governed (cx_verification_id cx) i (cycle_plan cx i) (cx_contract cx)
         (cx_environment_digest cx)).

Lemma gate_guard_none cx s :
  guard_of cx s = None <->
  permits_execution (governance cx s) = true /\ cs_guard_reason s = None.
Proof. unfold gate_guard. destruct (permits_execution _); naive_solver. Qed.

Lemma guarded_pass g v :
  vr_result (guarded_record g v) = VerificationResult.Pass <->
  g = None /\ vr_result v = VerificationResult.Pass.
Proof. destruct g; cbn; [case_bool_decide|]; naive_solver. Qed.

Lemma terminal_success cx g a be v :
  ld_action (terminal_decision cx g a be v) = LoopAction.StopSuccess <->
  (be = true \/ vr_result v = VerificationResult.Pass) /\
  a <> Some GovernorAction.AskUser /\ a <> Some GovernorAction.Block.
Proof.
  unfold terminal_decision, loop_decision.
  destruct be, a as [[]|], (vr_result v); cbn; naive_solver.
Qed.

(** The result of a cycle, from its record and guard. *)
Lemma cycle_result cx s i :
  let g := guard_of cx s in
  let v := guarded_record g (cycle_record cx i) in
  let attempt := ts_correction_attempt (cs_turn_state s) in
  exists turn p, ts_correction_attempt turn = attempt /\
  snd (cycle cx s i) =
  (if correction_due cx attempt g v then
     match permits_retry sha256_hex digest (cs_correction_progress s) (next_envelope cx attempt v) v
             (cs_tool_reports s) (cs_last_assistant_message s) with
     | (true, progress) => Corrected (corrected_state cx s turn progress)
     | (false, _) =>
         snd (finish value_to_string id_to_string cx s (Some no_progress_reason) (action_of cx s)
                (best_effort_complete cx g v) (ready_for_external cx g v)
                (with_verdict v (vr_result v) (vr_policy_status v)
                   (vr_residual_risks v ++ [no_progress_reason])) p)
     end
   else snd (finish value_to_string id_to_string cx s g (action_of cx s)
               (best_effort_complete cx g v) (ready_for_external cx g v) v p)).
Proof.
  intros g v attempt. unfold completion_cycle. fold (cycle_plan cx i).
  rewrite (surjective_pairing (verify_governed _ _ _ _ _)). fold (cycle_record cx i).
  set (p := snd (verify_governed _ _ _ _ _)).
  set (turn := begin_verification _ _).
  exists turn, p. split; [reflexivity|].
  assert (Ht : ts_correction_attempt turn = attempt) by done. clearbody p turn.
  unfold settle. fold g v. rewrite Ht.
  destruct (correction_due cx attempt g v); [|by destruct (finish _ _ _ _ _ _ _ _ _ _)].
  destruct (permits_retry _ _ _ _ _ _ _) as [[] ?]; [done|].
  by destruct (finish _ _ _ _ _ _ _ _ _ _).
Qed.

Definition succeeds (r : CycleResult) : Prop :=
  match r with
  | Finished o => ld_action (lo_loop_decision o) = LoopAction.StopSuccess
  | Corrected _ => False
  end.

Lemma correction_due_spec cx attempt g v :
  correction_due cx attempt g v = true ->
  cx_candidate_complete cx = true /\ g = None /\ vr_result v <> VerificationResult.Pass /\
  best_effort_complete cx g v = false /\ independent_verifier_unavailable cx = false /\
  ready_for_external cx g v = false /\ allows_correction (cx_contract cx) attempt = true.
Proof. unfold correction_due. intros H. boolhyps. by split_and!. Qed.

(** The condition under which a cycle succeeds. *)
Definition success_condition (cx : CycleContext) (s : CycleState) (i : VerificationInput) : Prop :=
  cs_guard_reason s = None /\ permits_execution (governance cx s) = true /\
  cs_governor_action s <> Some GovernorAction.AskUser /\
  cs_governor_action s <> Some GovernorAction.Block /\
  (vr_result (cycle_record cx i) = VerificationResult.Pass \/
   cx_candidate_complete cx = true /\ cx_defer_external_verification cx = false /\
   accepts_best_effort_completion (cx_contract cx) (cycle_record cx i) = true).

Lemma cycle_success cx s i : succeeds (snd (cycle cx s i)) <-> success_condition cx s i.
Proof.
  destruct (cycle_result cx s i) as (turn & p & _ & ->). set (g := guard_of cx s).
  set (v := guarded_record g (cycle_record cx i)).
  assert (Hg := gate_guard_none cx s). fold g in Hg.
  assert (Hv := guarded_pass g (cycle_record cx i)). fold v in Hv.
  assert (Ha : g = None -> action_of cx s = cs_governor_action s).
  { intros [Hp _]%Hg. unfold gate_action. by rewrite Hp. }
  assert (Hbe : g = None -> best_effort_complete cx g v = true <->
    cx_candidate_complete cx = true /\ cx_defer_external_verification cx = false /\
    accepts_best_effort_completion (cx_contract cx) (cycle_record cx i) = true).
  { intros E. subst v. rewrite E. unfold best_effort_complete. cbn [guarded_record].
    rewrite !andb_true_iff, negb_true_iff, bool_decide_eq_true. naive_solver. }
  assert (Hbg : best_effort_complete cx g v = true -> g = None)
    by (unfold best_effort_complete; intros ?; by boolhyps).
  destruct (correction_due cx _ g v) eqn:Hd.
  - apply correction_due_spec in Hd as (_ & Hn & Hr & Hb & _).
    assert (HF : ~ success_condition cx s i).
    { intros (_ & _ & _ & _ & [H|H]).
      - by destruct Hr; apply Hv.
      - apply (Hbe Hn) in H. congruence. }
    split; [|done]. intros Hs. exfalso. revert Hs.
    destruct (permits_retry _ _ _ _ _ _ _) as [[] ?]; [done|]. cbn.
    rewrite terminal_success, Hb. cbn. by intros ([?|?] & _).
  - cbn. rewrite terminal_success. unfold success_condition. split.
    + intros ([Hb|Hr] & Ha1 & Ha2).
      * specialize (Hbg Hb). rewrite (Ha Hbg) in *. apply (Hbe Hbg) in Hb.
        apply Hg in Hbg as [? ?]. auto 10.
      * apply Hv in Hr as [Hn Hr]. rewrite (Ha Hn) in *. apply Hg in Hn as [? ?]. auto 10.
    + intros (H1 & H2 & H3 & H4 & H5). assert (Hn : g = None) by (by apply Hg).
      rewrite (Ha Hn). split_and!; [|done|done]. rewrite (Hbe Hn), Hv.
      destruct H5 as [?|?]; auto.
Qed.

(** Exactly when a turn ends in success. A pass of the completion
    cycle finishes with [StopSuccess] iff no guard stopped the turn, the governor
    permits completion and left no stop action behind, and either the governed
    verification passed or, for a complete candidate whose verification is not
    deferred, the best-effort policy accepts the record. *)
Theorem success_iff cx s i :
  succeeds (snd (cycle cx s i)) <->
  cs_guard_reason s = None /\ permits_execution (governance cx s) = true /\
  cs_governor_action s <> Some GovernorAction.AskUser /\
  cs_governor_action s <> Some GovernorAction.Block /\
  (vr_result (cycle_record cx i) = VerificationResult.Pass \/
   cx_candidate_complete cx = true /\ cx_defer_external_verification cx = false /\
   accepts_best_effort_completion (cx_contract cx) (cycle_record cx i) = true).
Proof.
  apply cycle_success.
Qed.

(** C3 (safety): no turn succeeds on the model's word. If a cycle ends in
    [StopSuccess], the demands of the task contract hold of the recorded checks, a
    policy decision was recorded and every one allowed execution, and either the
    governed verification passed, or the contract is best effort and asks for no
    validation, a workspace change was recorded, and no objective validation was
    observed at all: a failed validation is never waved through. *)
Theorem success_is_earned cx s i :
  succeeds (snd (cycle cx s i)) ->
  contract_demands (cx_contract cx) i /\
  (exists c, c ∈ in_command_checks i /\ is_policy_check c = true) /\
  (forall c, c ∈ in_command_checks i -> is_policy_check c = true -> check_passed c = true) /\
  (vr_result (cycle_record cx i) = VerificationResult.Pass \/
   contract_verification (cx_contract cx) = VerificationRequirement.BestEffort /\
   require_objective_validation (cx_contract cx) = false /\
   (exists c, c ∈ in_command_checks i /\
      check_kind c = VerificationCheckKind.WorkspaceChange /\ check_passed c = true) /\
   (forall c, c ∈ in_command_checks i ->
      check_kind c <> VerificationCheckKind.ObjectiveValidation)).
Proof.
  intros (_ & _ & _ & _ & H)%cycle_success. destruct H as [H|(_ & _ & H)].
  - assert (H' := H). apply governed_pass_spec in H' as (? & ? & ? & _). auto.
  - apply best_effort_spec in H as (H1 & H2 & _ & H4 & H5 & H6).
    unfold cycle_record in H5, H6. rewrite governed_checks in H5, H6.
    apply governed_satisfied in H4 as (? & ? & ?). split_and!; try done. right. done.
Qed.

(** ** Corrections are bounded *)

(** [k] corrections in a row under one contract, from [a] to [a'] attempts; the rest of
    the loop does not touch the counter in between. *)
Inductive correction_chain (contract : TaskContract) : N -> nat -> N -> Prop :=
| chain_done a : correction_chain contract a 0 a
| chain_step cx s i s' k a' :
    cx_contract cx = contract -> snd (cycle cx s i) = Corrected s' ->
    correction_chain contract (ts_correction_attempt (cs_turn_state s')) k a' ->
    correction_chain contract (ts_correction_attempt (cs_turn_state s)) (S k) a'.

(** What a correction does to the loop variables. *)
Lemma corrected_inv cx s i s' :
  snd (cycle cx s i) = Corrected s' ->
  let a := ts_correction_attempt (cs_turn_state s) in
  allows_correction (cx_contract cx) a = true /\
  ts_correction_attempt (cs_turn_state s') = a +|32 1 /\
  cx_candidate_complete cx = true /\
  vr_result (cycle_record cx i) <> VerificationResult.Pass /\
  cs_guard_reason s' = None /\ cs_governor_action s' = None /\
  Forall (fun r => is_verifier_report r = false) (cs_tool_reports s').
Proof.
  intros H a. destruct (cycle_result cx s i) as (turn & p & Ht & E). rewrite E in H.
  destruct (correction_due _ _ _ _) eqn:Hd; [|done].
  apply correction_due_spec in Hd as (Hc & Hg & Hr & _ & _ & _ & Hall).
  destruct (permits_retry _ _ _ _ _ _ _) as [[] pr]; [|done]. injection H as <-.
  cbn [corrected_state cs_turn_state issue_correction ts_correction_attempt cs_guard_reason
       cs_governor_action cs_tool_reports]. rewrite Ht. split_and!; try done.
  - intros Hp. apply Hr, guarded_pass. done.
  - apply Forall_forall. intros r [_ ?%negb_true_iff]%elem_of_lfilter. done.
Qed.

(** Corrections are bounded by the contract. Under a contract with
    [max_correction_rounds = n], a correction is only issued while fewer than [n] were,
    each one counts, and so a turn that starts with none gets at most [n]. *)
Theorem correction_rounds_bounded contract n a k a' :
  max_correction_rounds contract = Some n -> n <= u32_max ->
  correction_chain contract a k a' ->
  a' = a + N.of_nat k /\ (k = 0%nat \/ a + N.of_nat k <= n).
Proof.
  intros Hn Hmax. induction 1 as [a|cx s i s' k a' Hc Hs Hk [IH1 IH2]]; [split; [lia|by left]|].
  apply corrected_inv in Hs as (Hall & Ha & _). unfold allows_correction in Hall.
  rewrite Hc, Hn in Hall. cbn in Hall. Nbool. rewrite Ha in *.
  assert (E : ts_correction_attempt (cs_turn_state s) +|32 1
              = ts_correction_attempt (cs_turn_state s) + 1) by (apply sat_add_exact; lia).
  rewrite E in IH1, IH2. split; [lia|right]. destruct IH2 as [->|?]; lia.
Qed.

Definition says_incomplete (m : string) : bool := starts_with "Could not complete" m.

Lemma says_incomplete_app m x : says_incomplete m = true -> says_incomplete (m +:+ x) = true.
Proof.
  unfold says_incomplete, starts_with. generalize "Could not complete". intros pre.
  revert m. induction pre as [|a pre IH]; intros m; [by destruct m, x|].
  destruct m as [|b m]; [done|]. simpl. destruct (Ascii.ascii_dec a b); [apply IH|done].
Qed.

Lemma diagnostic_says_incomplete reports v :
  says_incomplete (evidence_backed_failure_message value_to_string id_to_string reports v) = true.
Proof. unfold evidence_backed_failure_message. by apply says_incomplete_app. Qed.

Lemma final_message_says_incomplete m reports v :
  vr_result v <> VerificationResult.Pass ->
  exists t, final_message value_to_string id_to_string m reports v = Some t /\
    says_incomplete t = true.
Proof.
  intros Hr. unfold final_message. assert (Hd := diagnostic_says_incomplete reports v).
  set (d := evidence_backed_failure_message _ _ _ _) in *. clearbody d.
  destruct (vr_result v); [done|..]; (eexists; split; [reflexivity|]);
    destruct m as [m|]; try done; destruct (trim_is_empty m); try done; by apply says_incomplete_app.
Qed.

(** An unfinished turn says so. Whenever the cycle ends without success,
    the message shown to the user begins with the statement that the task could not be
    completed, whatever the model answered; governor actions are only ever set together
    with a guard reason. *)
Theorem unverified_message_says_so cx s i o :
  (cs_governor_action s <> None -> cs_guard_reason s <> None) ->
  snd (cycle cx s i) = Finished o ->
  ld_action (lo_loop_decision o) <> LoopAction.StopSuccess ->
  exists m, lo_final_message o = Some m /\ says_incomplete m = true.
Proof.
  intros Hpair H Hact. destruct (cycle_result cx s i) as (turn & p & _ & E). rewrite E in H. clear E.
  set (g := guard_of cx s) in *. set (v := guarded_record g (cycle_record cx i)) in *.
  assert (Hgov : g = None -> action_of cx s = None).
  { intros [Hp Hn]%gate_guard_none. unfold gate_action. rewrite Hp.
    destruct (cs_governor_action s); [|done]. by destruct Hpair. }
  assert (Hbg : best_effort_complete cx g v = true -> g = None)
    by (unfold best_effort_complete; intros ?; by boolhyps).
  destruct (correction_due cx _ g v) eqn:Hd.
  { apply correction_due_spec in Hd as (_ & _ & _ & Hb & _).
    destruct (permits_retry _ _ _ _ _ _ _) as [[] ?]; [done|]. injection H as <-.
    cbn [lo_final_message]. rewrite Hb. eexists. split; [reflexivity|]. by apply says_incomplete_app. }
  injection H as <-. cbn [lo_final_message lo_loop_decision] in *.
  rewrite terminal_success in Hact. destruct (best_effort_complete cx g v) eqn:Hb.
  { destruct Hact. rewrite (Hgov (Hbg eq_refl)). split_and!; [by left|done|done]. }
  clear Hbg. clearbody g v. destruct g as [reason|].
  { eexists. split; [reflexivity|]. by apply says_incomplete_app. }
  rewrite (Hgov eq_refl) in Hact. apply final_message_says_incomplete. intros Hr.
  apply Hact. split_and!; [by right|done|done].
Qed.
End CycleProperties.

(** ** Concrete cycles *)

Definition sample_contract (rounds : option N) : TaskContract :=
  mkTaskContract 1 WorkspaceChangeRequirement.Required [] [] [] false
    VerificationRequirement.Required rounds.
Definition sample_context (contract : TaskContract) : CycleContext :=
  mkCycleContext 1 2 "update the workspace" contract [] false true
    (mkGovernorLimits 0 0 0 0 0 0 0 0) (mkGoalLedger 1 "update the workspace" [] [] [] [])
    0 1 0 0 None (mkLoopBudgetState None None None None None None false "low") 0 false 10 20
    "env" N.of_nat 3 4 5 6.
Definition sample_state : CycleState :=
  mkCycleState (mkTurnState 2 TurnPhase.CandidateReady 0 None None) default_machine [] None None
    (Some "done") None [].
Definition sample_digest (fp : Fingerprint) : string := join ";" (fp_failed_requirements fp).
Definition no_text {A} (_ : A) : string := "".
Abbreviation sample_cycle :=
  (completion_cycle is_ascii_alphanumeric to_ascii_lowercase no_text show no_text sample_digest).

Lemma success_is_earned_witness :
  let cx := sample_context (sample_contract None) in
  succeeds (snd (sample_cycle cx sample_state (doc_change false true []))) /\
  contract_demands (cx_contract cx) (doc_change false true []).
Proof.
  intros cx. assert (H : succeeds (snd (sample_cycle cx sample_state (doc_change false true []))))
    by (by vm_compute).
  split; [exact H|]. exact (proj1 (success_is_earned is_ascii_alphanumeric to_ascii_lowercase no_text show no_text
                  sample_digest cx sample_state (doc_change false true []) H)).
Defined.

(** The loop variables after the first correction of a code change without tests. *)
Definition sample_corrected : CycleState :=
  match snd (sample_cycle (sample_context (sample_contract (Some 1))) sample_state
               (doc_change true true [])) with
  | Corrected s => s
  | Finished _ => sample_state
  end.

Lemma sample_correction :
  snd (sample_cycle (sample_context (sample_contract (Some 1))) sample_state
         (doc_change true true [])) = Corrected sample_corrected.
Proof. unfold sample_corrected. by vm_compute. Qed.

Lemma correction_rounds_bounded_witness :
  correction_chain is_ascii_alphanumeric to_ascii_lowercase no_text show no_text sample_digest
    (sample_contract (Some 1)) 0 1 (ts_correction_attempt (cs_turn_state sample_corrected)) /\
  ts_correction_attempt (cs_turn_state sample_corrected) = 0 + 1.
Proof.
  assert (H := chain_step is_ascii_alphanumeric to_ascii_lowercase no_text show no_text
    sample_digest (sample_contract (Some 1)) (sample_context (sample_contract (Some 1)))
    sample_state (doc_change true true []) sample_corrected 0 _ eq_refl sample_correction
    (chain_done is_ascii_alphanumeric to_ascii_lowercase no_text show no_text sample_digest _ _)).
  split; [exact H|].
  exact (proj1 (correction_rounds_bounded is_ascii_alphanumeric to_ascii_lowercase no_text show
    no_text sample_digest (sample_contract (Some 1)) 1 0 1 _ eq_refl ltac:(by vm_compute) H)).
Defined.

Abbreviation sample_outcome :=
  (snd (sample_cycle (sample_context (sample_contract (Some 0))) sample_state
          (doc_change true true []))).

Lemma unverified_message_says_so_witness :
  match sample_outcome with
  | Finished o => ld_action (lo_loop_decision o) = LoopAction.StopPartial /\
      exists m, lo_final_message o = Some m /\ says_incomplete m = true
  | Corrected _ => False
  end.
Proof.
  destruct sample_outcome as [s'|o] eqn:E.
  { assert (H : match sample_outcome with Corrected _ => false | Finished _ => true end = true)
      by (by vm_compute). by rewrite E in H. }
  assert (Ha : match sample_outcome with Corrected _ => LoopAction.Continue
               | Finished o => ld_action (lo_loop_decision o) end = LoopAction.StopPartial)
    by (by vm_compute).
  rewrite E in Ha. split; [exact Ha|].
  apply (unverified_message_says_so is_ascii_alphanumeric to_ascii_lowercase no_text show no_text
           sample_digest (sample_context (sample_contract (Some 0))) sample_state
           (doc_change true true []) o); [by intros []|exact E|by rewrite Ha].
Defined.
