(* ===== verification/Checks.v ===== *)
(** * From tool reports to verification checks

    [golutra-agent-runtime/src/lib.rs]: when the model ends its work, the runtime turns the
    reports of a turn into the checks the verifier judges. A failed call may have been
    recovered by a later one; a validation counts only while nothing changed after it; the
    paths and contents of the task contract are checked in the workspace itself. What the
    runtime calls outside the sources (parsers, hashing, the file system, the schema
    validator) is one class of arguments. *)
From S2P Require Import Prelude RustStr Core Governor StepMachine PathPolicy TaskContract Verify Governed ShellSyntax PendingTurns Correction Evidence Regex TestOutput ValidationCommand ValidationScript Inspection ToolReport Completion.
Open Scope N_scope.

(** ** What is called outside the sources *)

Class Externals := {
  ex_shlex_split : string -> option (list string);
  ex_bash_parse : string -> option Node;
  ex_python_parse : string -> option Node;
  ex_to_json : json -> string;
  ex_to_json_pretty : json -> string;
  ex_parse_json : string -> result string json;
  ex_schema_validator : json -> result string (json -> result string unit);
  ex_sha256_hex : string -> string;
  ex_is_word : N -> bool;
  ex_replace_all : string -> string -> string -> string;
  ex_fs : FileSystem;
  ex_directories : Directories;
  ex_open_file : string -> result string OpenFile;
  ex_metadata : string -> result string Metadata;
  ex_artifact_id : nat -> ArtifactId;
}.
#[export] Existing Instance ex_fs.
#[export] Existing Instance ex_directories.

(** ** Attempts and their recovery *)

(*@ runtime/src/lib.rs ToolAttemptMetadata *)
Record ToolAttemptMetadata := mkAttempt {
  ta_tool_call_id : ToolCallId;
  ta_signature : string;
  ta_step_no : N;
  ta_status : ToolResultStatus;
  ta_recoverable_failure : bool;
}.

(*@ tools/src/lib.rs CONTRACT_FILE_CONTENT_VERIFIER_TOOL *)
Definition CONTRACT_FILE_CONTENT_VERIFIER_TOOL : string := "contract_file_content_verifier".
(*@ tools/src/lib.rs CONTRACT_PATH_VERIFIER_TOOL *)
Definition CONTRACT_PATH_VERIFIER_TOOL : string := "contract_path_verifier".

Definition is_ok (r : ToolExecutionReport) : bool := bool_decide (status_of r = ToolResultStatus.Ok).

(*@ runtime/src/lib.rs tool_failure_is_recoverable *)
Definition tool_failure_is_recoverable (r : ToolExecutionReport) : bool :=
  let disposition := effective_block_disposition (rp_policy_evaluation r) in
  match status_of r with
  | ToolResultStatus.Blocked => bool_decide (disposition = Some PolicyBlockDisposition.Recoverable)
  | ToolResultStatus.Error =>
      negb (bool_decide (env_risk (rp_envelope r) = "external_mcp_tool"))
      && negb (bool_decide (disposition = Some PolicyBlockDisposition.Terminal))
      && negb (fact_flag r "hard_failure") && negb (fact_flag r "cancelled")
      && negb (fact_flag r "timed_out")
  | _ => false
  end.

(** The position of an attempt, as the attempt and those after it. *)
Fixpoint attempt_of (id : ToolCallId) (attempts : list ToolAttemptMetadata)
    : option (ToolAttemptMetadata * list ToolAttemptMetadata) :=
  match attempts with
  | [] => None
  | a :: rest => if bool_decide (ta_tool_call_id a = id) then Some (a, rest) else attempt_of id rest
  end.

(*@ runtime/src/lib.rs tool_execution_check_status *)
Definition tool_execution_check_status (r : ToolExecutionReport) (attempts : list ToolAttemptMetadata)
    : bool * bool :=
  if is_ok r then (true, false)
  else match attempt_of (call_of r) attempts with
       | None => (false, false)
       | Some (attempt, rest) =>
           if negb (ta_recoverable_failure attempt) then (false, false)
           else
             let admission_rejected :=
               bool_decide (pe_decision (rp_policy_evaluation r) = PolicyDecision.Block)
               && json_is_true (json_index (facts_of r) "rejected_before_execution") in
             let recovered := existsb (fun later =>
               (ta_step_no attempt <? ta_step_no later)
               && bool_decide (ta_status later = ToolResultStatus.Ok)
               && (bool_decide (ta_signature later = ta_signature attempt)
                   || (admission_rejected
                       && bool_decide (fst <$> split_once ":" (ta_signature later) = Some (tool_of r)))))
               rest in
             (recovered, recovered)
       end.

Section Checks.
Context `{ex : Externals}.

Abbreviation validation_report :=
  (objective_validation_report ex_shlex_split ex_bash_parse ex_python_parse ex_to_json ex_sha256_hex
     ex_is_word).
Abbreviation resolve := (resolve_validation_report ex_artifact_id).

(*@ runtime/src/lib.rs effective_objective_validation *)
Definition effective_objective_validation (r : ToolExecutionReport) (reports : list ToolExecutionReport)
    : option ObjectiveValidationOutcome :=
  validation_report (resolve (validation_origin r reports) reports).

(*@ runtime/src/lib.rs new_validation_progress *)
Definition new_validation_progress (r : ToolExecutionReport) (reports : list ToolExecutionReport)
    (before : nat) : bool :=
  let origin := validation_origin r reports in
  let earlier := take before reports in
  is_some_and ov_passed (effective_objective_validation origin reports)
  && validation_is_current origin reports
  && negb (is_some_and ov_passed (effective_objective_validation origin earlier)
           && validation_is_current origin earlier).

(*@ runtime/src/lib.rs ObjectiveValidationRecoveryContext *)
Record ObjectiveValidationRecoveryContext := mkRecoveryContext {
  rc_objective : string;
  rc_completion_criteria : list string;
  rc_contract : TaskContract;
  rc_workspace_root : string;
  rc_reports : list ToolExecutionReport;
  rc_attempts : list ToolAttemptMetadata;
}.

(*@ runtime/src/lib.rs objective_validation_for_report *)
Definition objective_validation_for_report (r : ToolExecutionReport)
    (cx : ObjectiveValidationRecoveryContext) : option ObjectiveValidationOutcome :=
  let r := resolve r (rc_reports cx) in
  match validation_report r with
  | Some v => Some v
  | None => explicitly_requested_inspection_validation ex_sha256_hex r (rc_objective cx)
              (rc_completion_criteria cx) (rc_contract cx) (rc_workspace_root cx)
  end.

(** A later report that makes good for a validation of [r], tried at [attempt]. *)
(*@ runtime/src/lib.rs:4801-4825 objective_validation_check_status *)
Definition makes_good (r : ToolExecutionReport) (validation : ObjectiveValidationOutcome)
    (attempt : ToolAttemptMetadata) (cx : ObjectiveValidationRecoveryContext)
    (later : ToolExecutionReport) : bool :=
  if negb (bool_decide (tool_of later = tool_of r)) || negb (is_ok later) then false
  else match attempt_of (call_of later) (rc_attempts cx) with
       | None => false
       | Some (later_attempt, _) =>
           if (ta_step_no later_attempt <=? ta_step_no attempt)
              || negb (bool_decide (ta_status later_attempt = ToolResultStatus.Ok)) then false
           else is_some_and (fun candidate =>
                  ov_passed candidate && validation_is_current later (rc_reports cx)
                  && bool_decide (ov_kind candidate = ov_kind validation)
                  && bool_decide (ov_identity candidate = ov_identity validation))
                  (objective_validation_for_report later cx)
       end.

(*@ runtime/src/lib.rs objective_validation_check_status *)
Definition objective_validation_check_status (r : ToolExecutionReport)
    (validation : ObjectiveValidationOutcome) (cx : ObjectiveValidationRecoveryContext) : bool * bool :=
  if ov_passed validation && validation_is_current r (rc_reports cx) then (true, false)
  else match attempt_of (call_of r) (rc_attempts cx) with
       | None => (false, false)
       | Some (attempt, _) =>
           let effective_report := resolve r (rc_reports cx) in
           let recoverable_process_failure :=
             is_ok r && json_is_str (fact r "process_state") "running"
             && tool_failure_is_recoverable effective_report in
           if negb (ov_passed validation || ta_recoverable_failure attempt
                    || recoverable_process_failure) then (false, false)
           else
             let recovered := existsb (makes_good r validation attempt cx) (rc_reports cx) in
             (recovered, recovered)
       end.

Definition passed_kind (p : ObjectiveValidationKind -> bool) (v : ObjectiveValidationOutcome) : bool :=
  ov_passed v && p (ov_kind v).

(*@ runtime/src/lib.rs optional_open_attempt *)
Definition optional_open_attempt (r : ToolExecutionReport) (mode : option AgentExecutionMode)
    (contract : TaskContract) (attempts : list ToolAttemptMetadata)
    (reports : list ToolExecutionReport) : bool :=
  let is_test k := bool_decide (k = ObjectiveValidationKind.Test) in
  let successful_diagnostic :=
    is_ok r
    && is_some_and (passed_kind (fun k => bool_decide (k = ObjectiveValidationKind.Diagnostic)))
         (effective_objective_validation r reports) in
  let diagnostic_superseded :=
    is_nil (completion_criteria contract) && successful_diagnostic
    && negb (effective_validation_is_current r reports)
    && existsb (fun later =>
         is_ok later
         && (bool_decide (tool_of later = "external_verifier")
             || is_some_and (passed_kind is_test) (effective_objective_validation later reports))
         && effective_validation_is_current later reports) reports in
  let later_success :=
    match attempt_of (call_of r) attempts with
    | None => false
    | Some (attempt, _) =>
        existsb (fun later =>
          is_ok later
          && (bool_decide (tool_of later = "external_verifier")
              || (is_some_and (fun check =>
                    ov_passed check && effective_validation_is_current later reports
                    && (negb (is_ok r) || is_test (ov_kind check)))
                    (effective_objective_validation later reports)
                  && existsb (fun candidate =>
                       bool_decide (ta_tool_call_id candidate = call_of later)
                       && (ta_step_no attempt <? ta_step_no candidate)) attempts))) reports
    end in
  bool_decide (mode = Some AgentExecutionMode.Open)
  && ((bool_decide (contract_verification contract = VerificationRequirement.BestEffort)
       && negb (require_objective_validation contract))
      || diagnostic_superseded)
  && negb (bool_decide (tool_of r ∈ ["external_verifier"; CONTRACT_FILE_CONTENT_VERIFIER_TOOL;
                                     CONTRACT_PATH_VERIFIER_TOOL]))
  && negb (match json_get (facts_of r) "workspace_changes_known" with
           | Some v => json_eqb v (JBool false)
           | None => false
           end)
  && (tool_failure_is_recoverable r || successful_diagnostic)
  && later_success.

(** ** The checks of a turn *)

(** What the turn has when its checks are made: the reports of the model's own calls and
    of the external verifiers, and the ids the contract steps generate. *)
Record TurnFacts := mkTurnFacts {
  tf_task_id : TaskId;
  tf_session_id : SessionId;
  tf_turn_id : TurnId;
  tf_objective : string;
  tf_completion_criteria : list string;
  tf_contract : TaskContract;
  tf_execution_mode : option AgentExecutionMode;
  tf_policy : WorkspacePolicy;
  tf_candidate_reports : list ToolExecutionReport;
  tf_verifier_reports : list ToolExecutionReport;
  tf_attempts : list ToolAttemptMetadata;
  tf_touched_code : bool;
  tf_last_assistant_message : option string;
  tf_output_schema : option json;
  tf_call_id : nat -> ToolCallId;
  tf_fresh : nat -> FreshIds;
  tf_policy_ref : nat -> PolicyId;
}.

(*@ runtime/src/lib.rs delivery_path_was_changed *)
Definition delivery_path_was_changed (normalized : string) (is_directory : bool)
    (changed_relative : list string) : bool :=
  bool_decide (normalized ∈ changed_relative)
  || (is_directory
      && existsb (fun changed =>
           starts_with (of_chars (reverse (drop_while (N.eqb 47) (reverse (chars normalized)))) +:+ "/")
             changed) changed_relative).

Definition forward_slashes (path : string) : string := replace_char backslash slash path.

(*@ runtime/src/lib.rs:3615-3621 run_with_control_trace_contract_and_replay_context *)
Definition changed_relative (t : TurnFacts) : list string :=
  forward_slashes
    <$> omap (fun path => path_strip_prefix path (workspace_root (tf_policy t)))
          (tf_candidate_reports t ≫= rp_changed_files).

(*@ runtime/src/lib.rs:3623-3643 run_with_control_trace_contract_and_replay_context *)
Definition path_report (t : TurnFacts) (k : nat) (required : string) : ToolExecutionReport :=
  verify_workspace_path ex_replace_all ex_to_json ex_to_json_pretty ex_sha256_hex ex_metadata (tf_policy t)
    (tf_fresh t k) (tf_policy_ref t k)
    (mkToolRequest (tf_call_id t k) None (tf_session_id t) (Some (tf_turn_id t))
       CONTRACT_PATH_VERIFIER_TOOL (json_obj [("path", JString required)])).

Definition report_is_directory (r : ToolExecutionReport) : bool :=
  json_is_str (json_index (json_index (facts_of r) "metadata") "file_type") "directory".

(*@ runtime/src/lib.rs:3644-3676 run_with_control_trace_contract_and_replay_context *)
Definition path_check (t : TurnFacts) (required : string) (report : ToolExecutionReport)
    : VerificationCheck :=
  let exists_ := fact_flag report "exists" in
  let normalized := forward_slashes required in
  let changed_when_required :=
    negb (bool_decide (workspace_change (tf_contract t) = WorkspaceChangeRequirement.Required))
    || delivery_path_was_changed normalized (report_is_directory report) (changed_relative t) in
  mkVerificationCheck VerificationCheckKind.ObjectiveValidation "objective:path:delivery"
    (Some required) (exists_ && changed_when_required) (env_evidence_refs (rp_envelope report))
    (if negb exists_ then "task contract delivery path is missing: " +:+ normalized
     else if negb changed_when_required
     then "task contract delivery path was not changed: " +:+ normalized
     else "task contract delivery path is present: " +:+ normalized).

(*@ runtime/src/lib.rs:3681-3711 run_with_control_trace_contract_and_replay_context *)
Definition content_report (t : TurnFacts) (k : nat) (requirement : RequiredFileContent)
    : ToolExecutionReport :=
  let content := rfc_content requirement in
  verify_workspace_file_content ex_replace_all ex_to_json ex_to_json_pretty ex_sha256_hex ex_open_file
    (tf_policy t) (tf_fresh t k) (tf_policy_ref t k)
    (mkToolRequest (tf_call_id t k) None (tf_session_id t) (Some (tf_turn_id t))
       CONTRACT_FILE_CONTENT_VERIFIER_TOOL
       (json_obj [("path", JString (rfc_path requirement));
                  ("expected_bytes", json_u64 (str_len content));
                  ("expected_checksum", JString ("sha256:" +:+ ex_sha256_hex content))])) content.

(*@ runtime/src/lib.rs:3712-3725 run_with_control_trace_contract_and_replay_context *)
Definition content_check (requirement : RequiredFileContent) (report : ToolExecutionReport)
    : VerificationCheck :=
  mkVerificationCheck VerificationCheckKind.ObjectiveValidation "objective:content:write_file"
    (Some (rfc_path requirement)) (fact_flag report "matches")
    (env_evidence_refs (rp_envelope report)) (env_summary (rp_envelope report)).

Definition path_reports (t : TurnFacts) : list (string * ToolExecutionReport) :=
  imap (fun k required => (required, path_report t k required)) (required_paths (tf_contract t)).
Definition content_reports (t : TurnFacts) : list (RequiredFileContent * ToolExecutionReport) :=
  imap (fun k requirement =>
          (requirement, content_report t (length (required_paths (tf_contract t)) + k) requirement))
    (required_file_contents (tf_contract t)).

(** [tool_reports] once the verifiers and the contract steps have reported. *)
Definition all_reports (t : TurnFacts) : list ToolExecutionReport :=
  tf_candidate_reports t ++ tf_verifier_reports t ++ (snd <$> path_reports t) ++ (snd <$> content_reports t).

(*@ runtime/src/lib.rs:3734-3741 run_with_control_trace_contract_and_replay_context *)
Definition objective_recovery (t : TurnFacts) : ObjectiveValidationRecoveryContext :=
  mkRecoveryContext (tf_objective t) (tf_completion_criteria t) (tf_contract t)
    (workspace_root (tf_policy t)) (all_reports t) (tf_attempts t).

Definition recovered_note (summary : string) : string :=
  summary +:+ " (recovered by a later successful correction; original error evidence retained)".
Definition retried_note (message : string) : string :=
  message +:+ " (recovered by a later equivalent retry; original error evidence retained)".

(*@ runtime/src/lib.rs:3742-3784 run_with_control_trace_contract_and_replay_context *)
Definition execution_check (t : TurnFacts) (r : ToolExecutionReport) : VerificationCheck :=
  let '(passed, recovered) := tool_execution_check_status r (tf_attempts t) in
  let origin := validation_origin r (all_reports t) in
  let objective_recovered :=
    negb passed
    && is_some_and (fun validation =>
         snd (objective_validation_check_status origin validation (objective_recovery t)))
         (objective_validation_for_report origin (objective_recovery t)) in
  mkVerificationCheck VerificationCheckKind.ToolExecution ("tool:" +:+ tool_of r) None
    (passed || objective_recovered) (env_evidence_refs (rp_envelope r))
    (if recovered || objective_recovered then recovered_note (env_summary (rp_envelope r))
     else env_summary (rp_envelope r)).

(*@ runtime/src/lib.rs:3787-3805 run_with_control_trace_contract_and_replay_context *)
Definition policy_check (r : ToolExecutionReport) : VerificationCheck :=
  let evaluation := rp_policy_evaluation r in
  mkVerificationCheck VerificationCheckKind.Policy ("policy:" +:+ tool_of r) None
    (match pe_decision evaluation with
     | PolicyDecision.Allow => true
     | PolicyDecision.Ask => is_ok r
     | PolicyDecision.Deny => false
     | PolicyDecision.Block =>
         negb (bool_decide (effective_block_disposition evaluation = Some PolicyBlockDisposition.Terminal))
     end)
    (pe_evidence_refs evaluation) (pe_reason evaluation).

(*@ runtime/src/lib.rs:3806-3815 run_with_control_trace_contract_and_replay_context *)
Definition no_tool_calls_check : VerificationCheck :=
  mkVerificationCheck VerificationCheckKind.Policy "policy:no_tool_calls" None true []
    "no side-effecting tool call was requested".

(*@ runtime/src/lib.rs:3816-3820 run_with_control_trace_contract_and_replay_context *)
Definition changed_files (t : TurnFacts) : list string := tf_candidate_reports t ≫= rp_changed_files.

(*@ runtime/src/lib.rs:3821-3834 run_with_control_trace_contract_and_replay_context *)
Definition change_check (t : TurnFacts) : VerificationCheck :=
  mkVerificationCheck VerificationCheckKind.WorkspaceChange "workspace_diff" None true
    (tf_candidate_reports t ≫= fun r => env_evidence_refs (rp_envelope r))
    (show (N.of_nat (length (changed_files t))) +:+ " workspace file(s) changed").

(*@ runtime/src/lib.rs:3835-3840 run_with_control_trace_contract_and_replay_context *)
Definition behavior_files_changed (t : TurnFacts) : bool :=
  existsb (fun path => negb (is_documentation_only_file path)) (changed_files t).

Definition reported_command (r : ToolExecutionReport) : option string :=
  json_get (facts_of r) "command" ≫= as_str.

(*@ runtime/src/lib.rs:3842-3857 run_with_control_trace_contract_and_replay_context *)
Definition verifier_check (r : ToolExecutionReport) : VerificationCheck :=
  mkVerificationCheck VerificationCheckKind.ObjectiveValidation "objective:test:external_verifier"
    (reported_command r) (is_ok r) (env_evidence_refs (rp_envelope r)) (env_summary (rp_envelope r)).

Definition check_prefix (s : ObjectiveValidationStatus) : string :=
  match s with
  | ObjectiveValidationStatus.Passed | ObjectiveValidationStatus.Failed => "objective"
  | ObjectiveValidationStatus.Unknown => "objective:unknown"
  end.

(*@ runtime/src/lib.rs:3858-3914 run_with_control_trace_contract_and_replay_context *)
Definition validation_check (t : TurnFacts) (r : ToolExecutionReport) : option VerificationCheck :=
  validation ← objective_validation_for_report r (objective_recovery t);
  let '(passed, recovered) := objective_validation_check_status r validation (objective_recovery t) in
  if negb passed && bool_decide (ov_kind validation = ObjectiveValidationKind.Diagnostic)
     && optional_open_attempt r (tf_execution_mode t) (tf_contract t) (tf_attempts t) (all_reports t)
  then None
  else Some (mkVerificationCheck VerificationCheckKind.ObjectiveValidation
    (check_prefix (ov_status validation) +:+ ":" +:+ kind_label (ov_kind validation) +:+ ":"
       +:+ tool_of r +:+ ":identity:" +:+ ov_identity validation)
    (reported_command r) passed
    (env_evidence_refs (rp_envelope (resolve r (all_reports t))))
    (if ov_passed validation && negb passed
     then "validation predates later workspace changes; rerun the relevant check"
     else if recovered then retried_note (ov_message validation) else ov_message validation)).

(*@ runtime/src/lib.rs:3841-3915 run_with_control_trace_contract_and_replay_context *)
Definition objective_check (t : TurnFacts) (r : ToolExecutionReport) : option VerificationCheck :=
  if bool_decide (tool_of r = "external_verifier") then Some (verifier_check r)
  else validation_check t r.

(*@ runtime/src/lib.rs output_schema_check *)
Definition output_schema_check (schema : json) (message : option string) : VerificationCheck :=
  let '(passed, detail) :=
    match message with
    | None => (false, "assistant response is empty")
    | Some message =>
        match ex_parse_json message with
        | Err error => (false, "assistant response is not valid JSON: " +:+ error)
        | Ok value =>
            match ex_schema_validator schema with
            | Err error => (false, "output schema is invalid: " +:+ error)
            | Ok validate =>
                match validate value with
                | Ok _ => (true, "assistant response validates against output schema")
                | Err error => (false, "assistant response failed output schema: " +:+ error)
                end
            end
        end
    end in
  mkVerificationCheck VerificationCheckKind.Schema "output_schema" None passed []
    (take_chars 512 detail).

Definition requested_schema (t : TurnFacts) : option json :=
  schema ← tf_output_schema t; match schema with JNull => None | _ => Some schema end.

(*@ runtime/src/lib.rs:3916-3930 run_with_control_trace_contract_and_replay_context *)
Definition response_check (t : TurnFacts) : list VerificationCheck :=
  if non_blank (tf_last_assistant_message t)
     && (negb (requires_workspace_evidence (tf_contract t)) || negb (is_nil (all_reports t)))
  then [mkVerificationCheck VerificationCheckKind.AssistantResponse "assistant_response" None true []
          "assistant response produced after tool execution"]
  else [].

(*@ runtime/src/lib.rs:3742-3943 run_with_control_trace_contract_and_replay_context *)
Definition command_checks (t : TurnFacts) : list VerificationCheck :=
  (execution_check t <$> all_reports t)
  ++ ((fun '(required, r) => path_check t required r) <$> path_reports t)
  ++ ((fun '(requirement, r) => content_check requirement r) <$> content_reports t)
  ++ (policy_check <$> all_reports t)
  ++ (if is_nil (all_reports t) then [no_tool_calls_check] else [])
  ++ (if is_nil (changed_files t) then [] else [change_check t])
  ++ omap (objective_check t) (all_reports t)
  ++ response_check t
  ++ from_option (fun schema => [output_schema_check schema (tf_last_assistant_message t)]) []
       (requested_schema t).

(*@ runtime/src/lib.rs:3931-3934 run_with_control_trace_contract_and_replay_context *)
Definition evidence_required (t : TurnFacts) : bool :=
  tf_touched_code t || existsb (fun r => negb (is_nil (rp_changed_files r))) (all_reports t).

(** An answer in text that needs no evidence. *)
(*@ runtime/src/lib.rs:3944-3950 run_with_control_trace_contract_and_replay_context *)
Definition is_plain_answer (t : TurnFacts) : bool :=
  accepts_text_response_without_evidence
    (requires_workspace_evidence (tf_contract t) || evidence_required t)
    (tf_last_assistant_message t) (all_reports t)
  && match requested_schema t with None => true | Some _ => false end.

(*@ runtime/src/lib.rs:3944-3988 run_with_control_trace_contract_and_replay_context *)
Definition verification_input (t : TurnFacts) : VerificationInput :=
  if is_plain_answer t then
    mkInput (tf_task_id t) (tf_objective t) (tf_completion_criteria t) []
      [mkVerificationCheck VerificationCheckKind.AssistantResponse "assistant_response" None true []
         "assistant response produced"; no_tool_calls_check] false false
  else
    mkInput (tf_task_id t) (tf_objective t) (tf_completion_criteria t)
      (all_reports t ≫= rp_evidence) (command_checks t) (evidence_required t) (behavior_files_changed t).
End Checks.

(** ** What a passed check rests on *)

Section CheckProperties.
Context `{ex : Externals}.

(** A validation of report [r] that passed, with nothing changed after it. *)
Definition current_pass (cx : ObjectiveValidationRecoveryContext) (r : ToolExecutionReport)
    (v : ObjectiveValidationOutcome) : Prop :=
  r ∈ rc_reports cx /\ objective_validation_for_report r cx = Some v /\ ov_passed v = true
  /\ validation_is_current r (rc_reports cx) = true.

(** A validation that counts as passed is current itself, or a later call of the same tool
    passed the same validation and is current. *)
Lemma status_passed r v cx recovered : r ∈ rc_reports cx ->
  objective_validation_for_report r cx = Some v ->
  objective_validation_check_status r v cx = (true, recovered) ->
  exists r' v', current_pass cx r' v' /\ ov_kind v' = ov_kind v /\ ov_identity v' = ov_identity v
    /\ tool_of r' = tool_of r.
Proof.
  intros Hr Hv H. unfold objective_validation_check_status in H.
  destruct (ov_passed v && _) eqn:Ec.
  { apply andb_true_iff in Ec as [? ?]. exists r, v. by split_and!. }
  destruct (attempt_of _ _) as [[attempt ?]|]; [|done]. destruct (negb _); [done|].
  injection H as H _. apply existsb_elem in H as (later & Hl & Hg). unfold makes_good in Hg.
  destruct (bool_decide (tool_of later = tool_of r)) eqn:Et; [|done]. apply bool_decide_eq_true in Et.
  destruct (is_ok later); [|done]. cbn [negb orb] in Hg.
  destruct (attempt_of _ _) as [[later_attempt ?]|]; [|done]. destruct (_ || _); [done|].
  destruct (objective_validation_for_report later cx) as [v'|] eqn:Ev; [|done]. cbn [is_some_and] in Hg.
  boolhyps. exists later, v'. by split_and!.
Qed.

(** The objective checks of a turn are those of its contract and of its reports. *)
Lemma objective_check_in t c : c ∈ command_checks t ->
  check_kind c = VerificationCheckKind.ObjectiveValidation ->
  (exists required r, (required, r) ∈ path_reports t /\ c = path_check t required r)
  \/ (exists requirement r, (requirement, r) ∈ content_reports t /\ c = content_check requirement r)
  \/ (exists r, r ∈ all_reports t /\ objective_check t r = Some c).
Proof.
  unfold command_checks. rewrite !elem_of_app. intros Hc Hk.
  destruct Hc as [Hc|[Hc|[Hc|[Hc|[Hc|[Hc|[Hc|[Hc|Hc]]]]]]]].
  - apply list_elem_of_fmap in Hc as (r & -> & _). unfold execution_check in Hk.
    by destruct (tool_execution_check_status r _).
  - apply list_elem_of_fmap in Hc as ([required r] & -> & Hin). left. eauto.
  - apply list_elem_of_fmap in Hc as ([requirement r] & -> & Hin). right. left. eauto.
  - by apply list_elem_of_fmap in Hc as (r & -> & _).
  - destruct (is_nil _); set_solver.
  - destruct (is_nil _); set_solver.
  - apply list_elem_of_omap in Hc as (r & Hr & Hc). right. right. eauto.
  - unfold response_check in Hc. destruct (_ && _); set_solver.
  - destruct (requested_schema t) as [schema|]; [|set_solver]. cbn [from_option] in Hc.
    apply list_elem_of_singleton in Hc as ->. unfold output_schema_check in Hk.
    by destruct (match tf_last_assistant_message t with Some _ => _ | None => _ end).
Qed.

Definition validating_name (c : VerificationCheck) : bool :=
  is_external_verifier c || is_test_name (check_name c) || is_diagnostic_name (check_name c).

Lemma external_is_test c : is_external_verifier c = true -> is_test_name (check_name c) = true.
Proof. unfold is_external_verifier. by intros ->%bool_decide_eq_true. Qed.

(** The name of a validation check says whether it is a test or a diagnostic. *)
Lemma validating_kind s k rest c :
  check_name c = check_prefix s +:+ ":" +:+ kind_label k +:+ ":" +:+ rest ->
  validating_name c = true -> k <> ObjectiveValidationKind.FileState.
Proof.
  intros Hn Hv ->. unfold validating_name in Hv.
  assert (Ht : is_test_name (check_name c) = false) by (rewrite Hn; by destruct s).
  assert (Hd : is_diagnostic_name (check_name c) = false) by (rewrite Hn; by destruct s).
  destruct (is_external_verifier c) eqn:E; [apply external_is_test in E; congruence|].
  by rewrite Ht, Hd in Hv.
Qed.

(** What vouches for a change: an external verifier, or a test or diagnostic that passed
    and still speaks about the workspace as it is. *)
Definition vouched (t : TurnFacts) (r : ToolExecutionReport) : Prop :=
  r ∈ all_reports t /\
  (tool_of r = "external_verifier" /\ status_of r = ToolResultStatus.Ok
   \/ exists v, current_pass (objective_recovery t) r v /\ ov_kind v <> ObjectiveValidationKind.FileState).

Lemma passed_check_vouched t c : c ∈ command_checks t ->
  check_kind c = VerificationCheckKind.ObjectiveValidation -> check_passed c = true ->
  validating_name c = true -> exists r, vouched t r.
Proof.
  intros Hc Hk Hp Hv. apply objective_check_in in Hc as [(? & ? & _ & ->)|[(? & ? & _ & ->)|(r & Hr & Ho)]];
    [done..| |done].
  unfold objective_check in Ho. case_bool_decide as Et.
  { injection Ho as <-. exists r. split; [done|left]. split; [done|].
    cbn in Hp. unfold is_ok in Hp. by apply bool_decide_eq_true in Hp. }
  unfold validation_check in Ho. apply bind_Some in Ho as (v & Hval & Ho).
  destruct (objective_validation_check_status _ _ _) as [passed recovered] eqn:Es.
  destruct (_ && _ && _); [done|]. injection Ho as <-. cbn [check_passed] in Hp. subst passed.
  destruct (status_passed r v (objective_recovery t) recovered Hr Hval Es) as (r' & v' & Hcp & Hkind & _).
  exists r'. split; [by destruct Hcp|right]. exists v'. split; [done|]. rewrite Hkind.
  eapply validating_kind; [|exact Hv]. reflexivity.
Qed.

(** A change of program files is no plain answer. *)
Lemma changed_is_not_plain t : behavior_files_changed t = true -> is_plain_answer t = false.
Proof.
  unfold behavior_files_changed, changed_files. intros (path & Hp & _)%existsb_elem.
  apply list_elem_of_bind in Hp as (r & Hpath & Hr).
  assert (He : evidence_required t = true).
  { unfold evidence_required. apply orb_true_iff. right. apply existsb_elem. exists r. split.
    - unfold all_reports. set_solver.
    - destruct (rp_changed_files r); [by apply not_elem_of_nil in Hpath|done]. }
  unfold is_plain_answer, accepts_text_response_without_evidence. rewrite He. by rewrite orb_true_r.
Qed.

(** Every planned assertion that blocks and is kept holds when a governed task passes. *)
Lemma kept_assertion_passes new_id pid time vid i contract d k sp :
  let p := plan_governed new_id pid time i contract in
  vr_result (fst (verify_governed vid i p contract d)) = VerificationResult.Pass ->
  plan_specs i !! k = Some sp -> retained i contract (of_spec (new_id k) sp) = true ->
  assertion_blocking (of_spec (new_id k) sp) = true ->
  fst (fst (assertion_status (of_spec (new_id k) sp) i (negb (is_nil (in_evidence_refs i)))))
    = VerificationAssertionStatus.Pass.
Proof.
  intros p H Hsp Hr Hb. apply governed_pass_spec in H as (_ & _ & _ & Hall & _). apply Hall; [|done].
  apply elem_of_lfilter. split; [|done]. by apply (plan_assertion_elem new_id pid time).
Qed.

(** A governed code change under a contract that asks for validation passes only with a
    test, a diagnostic or an external verifier that passed. *)
Lemma governed_change_validated new_id pid time vid i contract d :
  in_code_files_changed i = true -> require_objective_validation contract = true ->
  vr_result (fst (verify_governed vid i (plan_governed new_id pid time i contract) contract d))
    = VerificationResult.Pass ->
  exists c, c ∈ in_command_checks i /\ check_kind c = VerificationCheckKind.ObjectiveValidation
    /\ check_passed c = true /\ validating_name c = true.
Proof.
  intros Hcode Hreq H.
  assert (Hsp : plan_specs i !! 2%nat = Some
    ("tests_or_diagnostics", VerificationAssertionKind.Test, "objective",
     "a test, check, build, or diagnostic command succeeds", true)).
  { unfold plan_specs, classify_task. rewrite Hcode. done. }
  apply (kept_assertion_passes _ _ _ _ _ _ _ _ _ H) in Hsp; [|by unfold retained; rewrite Hreq|done].
  apply validation_pass in Hsp as (_ & _ & c & Hc & Hp).
  apply validation_checks_in in Hc as (Hin & Hk & _ & Hv). exists c.
  split_and!; [done|by apply bool_decide_eq_true in Hk|done|].
  unfold validates in Hv. cbn in Hv. revert Hv. unfold validating_name.
  destruct (is_external_verifier c), (is_test_name _), (is_diagnostic_name _); done.
Qed.

(** A governed task with a failed delivery check does not pass. *)
Lemma governed_path_checks_pass new_id pid time vid i contract d c :
  vr_result (fst (verify_governed vid i (plan_governed new_id pid time i contract) contract d))
    = VerificationResult.Pass ->
  c ∈ in_command_checks i -> check_kind c = VerificationCheckKind.ObjectiveValidation ->
  check_name c = "objective:path:delivery" -> check_passed c = true.
Proof.
  intros H Hc Hk Hn. destruct (check_passed c) eqn:Hp; [done|exfalso].
  assert (Hin : ("delivery_paths", VerificationAssertionKind.Delivery, "requested delivery paths",
             "all explicitly requested delivery paths are present in the workspace change", true)
             ∈ plan_specs i).
  { unfold plan_specs. rewrite (proj2 (existsb_elem _ _));
      [rewrite !elem_of_app; right; left; apply list_elem_of_here|].
    exists c. split; [done|]. by apply bool_decide_eq_true. }
  apply list_elem_of_lookup in Hin as [k Hsp].
  apply (kept_assertion_passes _ _ _ _ _ _ _ _ _ H) in Hsp;
    [|unfold retained; by destruct (require_objective_validation contract)|done].
  cbn in Hsp. unfold delivery_status in Hsp. rewrite (proj2 (existsb_elem _ _)) in Hsp; [done|].
  exists c. rewrite elem_of_lfilter, Hp.
  split_and!; [done|by apply delivery_paths_matches|by apply bool_decide_eq_true].
Qed.
End CheckProperties.

(** ** What a successful turn rests on *)

Section Success.
Context `{ex : Externals} (is_alphanumeric : N -> bool) (to_lowercase : string -> string)
  (id_to_string : N -> string) (fingerprint_sha : list N -> string) (digest : Fingerprint -> string).

Abbreviation turn_cycle :=
  (completion_cycle is_alphanumeric to_lowercase ex_to_json id_to_string fingerprint_sha digest).

(** Policy let the call of a report run, or the refusal was one the model can correct. *)
Definition policy_obeyed (r : ToolExecutionReport) : Prop :=
  match pe_decision (rp_policy_evaluation r) with
  | PolicyDecision.Allow => True
  | PolicyDecision.Ask => status_of r = ToolResultStatus.Ok
  | PolicyDecision.Deny => False
  | PolicyDecision.Block =>
      effective_block_disposition (rp_policy_evaluation r) = Some PolicyBlockDisposition.Recoverable
  end.

Lemma policy_check_obeyed r : check_passed (policy_check r) = true -> policy_obeyed r.
Proof.
  unfold policy_check, policy_obeyed, is_ok, effective_block_disposition. cbn [check_passed].
  destruct (pe_decision (rp_policy_evaluation r)); try done; intros H.
  - by apply bool_decide_eq_true in H.
  - apply negb_true_iff, bool_decide_eq_false in H. cbn in *.
    by destruct (pe_block_disposition (rp_policy_evaluation r)) as [[]|].
Qed.

Lemma plain_answer_facts t : is_plain_answer t = true ->
  required_paths (tf_contract t) = [] /\ Forall (fun r => interaction_only_report r = true) (all_reports t).
Proof.
  unfold is_plain_answer, accepts_text_response_without_evidence. intros H. boolhyps.
  match goal with H : requires_workspace_evidence _ = false |- _ => rename H into Hw end.
  unfold requires_workspace_evidence in Hw. split.
  - destruct (required_paths (tf_contract t)); [done|]. by rewrite orb_true_r in Hw.
  - by apply forallb_elem.
Qed.

(** The path of a delivery check is there, where the policy resolves it. *)
Definition delivered (t : TurnFacts) (required : string) : Prop :=
  exists ref m, pe_decision (evaluate_path (tf_policy t) ref "verify_path" required true) = PolicyDecision.Allow
    /\ ex_metadata (pe_resource (evaluate_path (tf_policy t) ref "verify_path" required true)) = Ok m.

Lemma path_check_delivered t k required :
  check_passed (path_check t required (path_report t k required)) = true -> delivered t required.
Proof.
  unfold path_check. cbn [check_passed]. intros [He _]%andb_true_iff.
  unfold path_report in He. rewrite path_exists_iff in He by done. destruct He as (path & m & Hp & Hd & Hm).
  injection Hp as <-. by exists (tf_policy_ref t k), m.
Qed.

Lemma path_check_in t required : required ∈ required_paths (tf_contract t) -> is_plain_answer t = false ->
  exists k, path_check t required (path_report t k required) ∈ in_command_checks (verification_input t).
Proof.
  intros [k Hk]%list_elem_of_lookup Hplain. exists k. unfold verification_input. rewrite Hplain.
  cbn [in_command_checks]. unfold command_checks. rewrite !elem_of_app. right. left.
  apply list_elem_of_fmap. exists (required, path_report t k required). split; [done|].
  apply list_elem_of_lookup. exists k. unfold path_reports. by rewrite list_lookup_imap, Hk.
Qed.

(** Where a contract asks for validation, a validation that passed comes from an external
    verifier that succeeded or from a shell command that ended with exit code 0. *)
Lemma required_validation_source t r v : require_objective_validation (tf_contract t) = true ->
  objective_validation_for_report r (objective_recovery t) = Some v -> ov_passed v = true ->
  tool_of r = "external_verifier" /\ status_of r = ToolResultStatus.Ok
  \/ tool_of r = "shell"
     /\ json_get (facts_of (resolve_validation_report ex_artifact_id r (all_reports t))) "exit_code" = Some (JInt 0).
Proof.
  intros Hreq Hv Hp. unfold objective_validation_for_report in Hv. cbn [rc_reports objective_recovery] in Hv.
  assert (Ht : tool_of (resolve_validation_report ex_artifact_id r (all_reports t)) = tool_of r).
  { unfold resolve_validation_report, ended_view. destruct (runs_in_background r); [|done].
    destruct (reports_after _ _) as [later|]; [|done]. cbn [mbind option_bind].
    by destruct (split_terminal _) as [[[? ?] ?]|]. }
  destruct (objective_validation_report _ _ _ _ _ _ _) as [v'|] eqn:E.
  2: { unfold explicitly_requested_inspection_validation in Hv. cbn [rc_contract objective_recovery] in Hv.
       by rewrite Hreq, orb_true_r in Hv. }
  injection Hv as ->. unfold objective_validation_report in E. rewrite Ht in E.
  destruct (bool_decide_reflect (tool_of r = "external_verifier")) as [He|_].
  { left. split; [done|]. injection E as <-. cbn [ov_passed] in Hp. apply bool_decide_eq_true in Hp.
    unfold resolve_validation_report, ended_view, runs_in_background in Hp. by rewrite He in Hp. }
  destruct (bool_decide_reflect (tool_of r = "shell")) as [Hs|_]; [|done]. right. split; [done|].
  assert (Hc : exists kind identity, v = shell_validation_outcome ex_is_word (resolve_validation_report ex_artifact_id r (all_reports t)) kind identity).
  { destruct (prepared_objective_validation_report _ _ _) as [o|] eqn:Eo.
    - injection E as <-. unfold prepared_objective_validation_report in Eo.
      repeat (apply bind_Some in Eo as (? & _ & Eo)). injection Eo as <-. eauto.
    - repeat (apply bind_Some in E as (? & _ & E)). injection E as <-. eauto. }
  destruct Hc as (kind & identity & ->). unfold shell_validation_outcome in Hp.
  destruct (pending_validation _ _ _) eqn:Epend.
  { unfold pending_validation in Epend. destruct (_ && _); [|done]. injection Epend as <-. done. }
  destruct (shell_report_exited_cleanly _) eqn:Ec; [|done]. by apply exited_cleanly_facts in Ec as (_ & _ & ? & _).
Qed.


(** C2 (safety): a successful turn kept to the policy and delivered what was named. Every
    call was allowed, or asked for and carried out, or refused in a way the model can
    correct (a report that only asked the user something is exempt); and every path the
    contract requires exists where the policy resolves it. *)
Theorem success_obeys_policy_and_delivers cx s t :
  cx_contract cx = tf_contract t -> succeeds (snd (turn_cycle cx s (verification_input t))) ->
  (forall r, r ∈ all_reports t -> policy_obeyed r \/ interaction_only_report r = true) /\
  (forall required, required ∈ required_paths (tf_contract t) -> delivered t required).
Proof.
  intros Hcx (_ & _ & _ & _ & H)%cycle_success. destruct (is_plain_answer t) eqn:Hplain.
  { destruct (plain_answer_facts t Hplain) as [Hp Hr]. rewrite Hp. rewrite Forall_forall in Hr. split; set_solver. }
  assert (Hpol : forall c, c ∈ in_command_checks (verification_input t) -> is_policy_check c = true ->
    check_passed c = true).
  { destruct H as [H|(_ & _ & H)]; [by apply governed_pass_spec in H as (_ & _ & ? & _)|].
    apply best_effort_spec in H as (_ & _ & _ & H & _). by apply governed_satisfied in H as (_ & _ & ?). }
  split.
  - intros r Hr. left. apply policy_check_obeyed, Hpol; [|done]. unfold verification_input. rewrite Hplain.
    cbn [in_command_checks]. unfold command_checks. rewrite !elem_of_app. do 3 right. left.
    by apply list_elem_of_fmap_2.
  - intros required Hreq. destruct (path_check_in t required Hreq Hplain) as [k Hk].
    apply (path_check_delivered t k). destruct H as [H|(_ & _ & H)].
    + by eapply governed_path_checks_pass.
    + apply best_effort_spec in H as (_ & _ & _ & _ & H & _). unfold cycle_record in H.
      rewrite governed_checks in H. by destruct (H _ Hk).
Qed.
End Success.

(** ** A turn that edits a file and runs its tests *)

#[local] Instance sample_externals : Externals := {|
  ex_shlex_split s := Some (split_whitespace s);
  ex_bash_parse _ := None;
  ex_python_parse _ := None;
  ex_to_json _ := "{}";
  ex_to_json_pretty _ := "{}";
  ex_parse_json _ := Err "unsupported";
  ex_schema_validator _ := Err "unsupported";
  ex_sha256_hex s := s;
  ex_is_word := is_ascii_alphanumeric;
  ex_replace_all _ _ text := text;
  ex_fs := small_fs;
  ex_directories := {| read_dir _ := None |};
  ex_open_file _ := Err "unsupported";
  ex_metadata p := if bool_decide (p = "/w/src") then Ok (mkMetadata false true 0 false None) else Err "missing";
  ex_artifact_id := N.of_nat;
|}.

Definition evidenced (id : EvidenceId) (r : ToolExecutionReport) : ToolExecutionReport :=
  let e := rp_envelope r in
  mkReport (mkToolResultEnvelope (env_tool_call_id e) (env_tool_name e) (env_status e) (env_summary e)
      (structured_facts e) (model_visible_excerpt e) (raw_artifact_ref e) [id] (env_risk e) (verification_hint e))
    [id] (rp_changed_files r) (rp_policy_evaluation r) (rp_artifact_contents r) (rp_after_images r).

Definition tested (call : ToolCallId) : ToolExecutionReport :=
  evidenced 12 (sample_report call "shell"
    [("command", JString "cargo test"); ("exit_code", JInt 0);
     ("runtime_objective_validation", JObject [("identity", JString "cargo"); ("kind", JString "test")])]
    (sample_output "test result: ok. 3 passed; 0 failed") []).
Definition edited (call : ToolCallId) : ToolExecutionReport :=
  evidenced 11 (sample_report call "write_file" [] [] ["/w/src/a.rs"]).

Definition sample_turn (reports : list ToolExecutionReport) : TurnFacts :=
  mkTurnFacts 1 1 2 "fix the parser" []
    (mkTaskContract 1 WorkspaceChangeRequirement.Required ["src"] [] [] true VerificationRequirement.Required None)
    None small_policy reports [] [] true (Some "done") None
    (fun k => 100 + N.of_nat k) (fun k => mkFreshIds (200 + N.of_nat k) (300 + N.of_nat k)) N.of_nat.
Abbreviation sample_turn_cycle t :=
  (completion_cycle is_ascii_alphanumeric to_ascii_lowercase ex_to_json show no_text sample_digest
     (sample_context (tf_contract t)) sample_state (verification_input t)).

(** Testing before the last edit is not enough. *)
Example stale_test_does_not_carry :
  (ld_action ∘ lo_loop_decision <$>
     match snd (sample_turn_cycle (sample_turn [tested 1; edited 2])) with Finished o => Some o | _ => None end,
   ld_action ∘ lo_loop_decision <$>
     match snd (sample_turn_cycle (sample_turn [edited 1; tested 2])) with Finished o => Some o | _ => None end)
  = (None, Some LoopAction.StopSuccess).
Proof. vm_compute. reflexivity. Qed.


Lemma success_obeys_policy_and_delivers_witness :
  delivered (sample_turn [edited 1; tested 2]) "src".
Proof.
  assert (Hs : succeeds (snd (sample_turn_cycle (sample_turn [edited 1; tested 2])))) by (by vm_compute).
  apply (success_obeys_policy_and_delivers is_ascii_alphanumeric to_ascii_lowercase show no_text sample_digest
    (sample_context (tf_contract (sample_turn [edited 1; tested 2]))) sample_state _ eq_refl Hs).
  by apply list_elem_of_singleton.
Defined.
