(* ===== verification/ToolLoop.v ===== *)
(** * The tool calls of a step

    The end of [run_with_control_trace_contract_and_replay_context] of
    [golutra-agent-runtime/src/lib.rs] for one response of the model: a call on its own
    (the governor, questions to the user, the profile and the task contract, the policy and
    the approval, the checkpoint, the time that is left, the gate), what the loop records of
    every result, and the loop over the batches of [ToolBatch] and [ToolDispatch]. A
    [CallScript] holds what happens outside: the clock, the user's answers, cancellation,
    and the answers of the executor and the recorder. *)
From stdpp Require Import gmap.
From S2P Require Import Prelude RustStr Utf8 Core PathPolicy TaskContract Verify Governed Correction Evidence ModelPatch PatchTool ToolReport ShellSyntax ShellPolicy ShellRequest Provider PendingTurns Question Governor FailureFamily ContextBuild Inspection FileEdits FileTools ToolErrors ToolGate ToolBatch ToolDispatch ValidationScript Checks.
Open Scope N_scope.
Open Scope rust_scope.

(** ** The time left for a command *)

(*@ runtime/src/lib.rs runtime_deadline_warning_window_ms *)
Definition runtime_deadline_warning_window_ms (max_elapsed_ms : N) : N :=
  N.min (N.max (max_elapsed_ms / 5) 1) 120000.

Definition div_ceil (a b : N) : N := if a mod b =? 0 then a / b else a / b + 1.

(*@ runtime/src/lib.rs runtime_deadline_advisory *)
Definition runtime_deadline_advisory (max_elapsed_ms elapsed_ms : N) : option string :=
  if max_elapsed_ms =? 0 then None
  else
    let remaining_ms := max_elapsed_ms - elapsed_ms in
    if runtime_deadline_warning_window_ms max_elapsed_ms <? remaining_ms then None
    else Some ("Runtime deadline advisory: about " +:+ show (div_ceil remaining_ms 1000)
      +:+ " seconds remain. Stop broad exploration, preserve and verify the best available deliverable, and return a final response before the deadline. Do not start work that cannot finish within the remaining time.").

(*@ runtime/src/lib.rs:5873-5873 shell_execution_budget *)
Definition FINAL_RESPONSE_RESERVE_MS : N := 30000.

(*@ runtime/src/lib.rs shell_execution_budget *)
Definition shell_execution_budget (max_elapsed_ms elapsed_ms : N) (deadline_advisory_emitted : bool) : N :=
  if max_elapsed_ms =? 0 then 0
  else
    let remaining_ms := N.max (max_elapsed_ms - elapsed_ms) 1 in
    if deadline_advisory_emitted then
      N.max (if FINAL_RESPONSE_RESERVE_MS <? remaining_ms then remaining_ms - FINAL_RESPONSE_RESERVE_MS
             else div_ceil remaining_ms 2) 1
    else
      let warning_window_ms := runtime_deadline_warning_window_ms max_elapsed_ms in
      if warning_window_ms <? remaining_ms then N.max (remaining_ms - warning_window_ms) 1
      else N.max (div_ceil remaining_ms 2) 1.

Definition with_arguments (request : ToolRequest) (arguments : json) : ToolRequest :=
  mkToolRequest (tr_tool_call_id request) (tr_provider_tool_call_id request) (tr_session_id request)
    (tr_turn_id request) (tr_tool_name request) arguments.

(*@ runtime/src/lib.rs clamp_shell_timeout_to_budget *)
Definition clamp_shell_timeout_to_budget (request : ToolRequest) (remaining_ms : N) : ToolRequest :=
  if (remaining_ms =? 0) || negb (bool_decide (tr_tool_name request = "shell")) then request
  else
    match tr_arguments request with
    | JObject m =>
        let clamped timeout_ms :=
          with_arguments request (JObject (entries_insert "timeout_ms" (json_u64 (N.min timeout_ms remaining_ms)) m)) in
        match json_get (JObject m) "timeout_ms" with
        | Some value => match as_u64 value with Some requested => clamped requested | None => request end
        | None =>
            clamped (if default false (json_get (JObject m) "background" ≫= as_bool) then 3600000 else 5000)
        end
    | _ => request
    end.

(** A command never gets more than what is left of the task's time, and always something. *)
Lemma shell_budget_within max elapsed advised :
  max <> 0 -> 1 <= shell_execution_budget max elapsed advised <= N.max (max - elapsed) 1.
Proof.
  intros Hm. unfold shell_execution_budget, runtime_deadline_warning_window_ms, div_ceil.
  rewrite (proj2 (N.eqb_neq _ _) Hm). unfold FINAL_RESPONSE_RESERVE_MS.
  set (r := N.max (max - elapsed) 1). assert (1 <= r) as Hr by lia. clearbody r.
  pose proof (N.div_mod r 2 ltac:(done)) as Hd. pose proof (N.mod_lt r 2 ltac:(done)) as Hl.
  revert Hd Hl. generalize (r / 2) (r mod 2). intros q m Hd Hl.
  destruct advised; (destruct (_ <? r) eqn:E1; [Nbool; lia|]); destruct (m =? 0) eqn:E2; Nbool; lia.
Qed.

(** ** A call on its own *)

(** What happens around a call. *)
Record CallScript := mkCallScript {
  cs_runnable : bool * bool * bool;
  cs_elapsed_ms : N;
  cs_tool_call_id : ToolCallId;
  cs_question_id : N;
  cs_resolution : option UserQuestionResolution;
  cs_approval : option bool;
  cs_prepared : RuntimeOperationOutcome (result ToolFault SideEffectPreparation);
  cs_invoke_elapsed_ms : N;
  cs_cancelled : bool;
  cs_how : OperationEnd;
  cs_partial : Disk;
  cs_result_elapsed_ms : N;
}.

(** How a call ends: the governor stops the loop, the loop ends with an error, or there is
    a report. *)
Inductive CallResult :=
| GovernorStopped (governance : RuntimeGovernorDecision)
| LoopFailed (error : string)
| CallPanicked
| Reported (validation : option json) (r : ToolExecutionReport) (d : Disk).

Definition answer_json (a : UserQuestionAnswer) : json :=
  json_obj ([("question_id", JString (a_question_id a));
             ("selected_option_ids", JArray (JString <$> a_selected_option_ids a))]
            ++ match a_free_text a with Some t => [("free_text", JString t)] | None => [] end).

Section call.
Context `{fs : FileSystem} `{dirs : Directories}.
Variable is_alphanumeric : N -> bool.
Variable to_lowercase : string -> string.
Variable replace_all : string -> string -> string -> string.
Variable sha256_hex : string -> string.
Variable json_text : json -> string.
Variable shlex_split : string -> option (list string).
Variable bash_parse : string -> option Node.
Variable ids : FreshIds.
Variable fresh_policy_ref policy_ref : PolicyId.
Variable rt : ToolRuntime.
Variable rg : ToolRegistry.
Variable fs_read : string -> result string string.
(** The gate of the executor, and its policy decision. *)
Variable execute : ToolInvocation -> bool -> OperationEnd -> Disk -> Disk -> result ToolFault MutationReport * Disk.
Variable evaluate_request : ToolRequest -> result ToolFault PolicyEvaluation.
Variable recorder : option Recorder.
(** [serde_json::from_value::<Vec<UserQuestionPrompt>>], and
    [prepare_objective_validation_metadata] of [ValidationScript]. *)
Variable parse_questions : json -> result string (list UserQuestionPrompt).
Variable validation_of : ToolRequest -> option json.
(** The turn. *)
Variable limits : GovernorLimits.
Variable ledger : GoalLedger.
Variable profile : AgentToolProfile.
Variable workspace_change : WorkspaceChangeRequirement.
Variable session_id : SessionId.
Variable turn_id : TurnId.
Variable task_id : TaskId.
Variable deadline_advisory_emitted : bool.

Abbreviation invalid_report := (invalid_request_report policy_ref replace_all json_text ids).

(*@ runtime/src/lib.rs user_question_report *)
Definition user_question_report (request : ToolRequest) (resolution : UserQuestionResolution)
    : ToolExecutionReport :=
  let answers := JArray (answer_json <$> res_answers resolution) in
  mkReport
    {| env_tool_call_id := tr_tool_call_id request; env_tool_name := tr_tool_name request;
       env_status := ToolResultStatus.Ok; env_summary := "user answered structured questions";
       structured_facts := json_obj [("answers", answers)];
       model_visible_excerpt := Some (json_text answers); raw_artifact_ref := None;
       env_evidence_refs := []; env_risk := "p0_user_input"; verification_hint := None |}
    [] []
    (mkPolicyEvaluation fresh_policy_ref "tool" (tr_tool_name request) "interactive_user_input"
       PolicyDecision.Allow None "structured user input is mediated by the active controller" [])
    [] [].

(** The answer to a question of the model; an error ends the loop. *)
(*@ runtime/src/lib.rs:2920-2970 run_with_control_trace_contract_and_replay_context *)
Definition question_report (s : CallScript) (request : ToolRequest)
    : result string (option ToolExecutionReport) :=
  if negb (bool_decide (tr_tool_name request = "ask_user")) then Ok None
  else
    match json_get (tr_arguments request) "questions" with
    | None => Ok (Some (invalid_report request "ask_user requires questions"))
    | Some v =>
        match parse_questions v with
        | Err error => Ok (Some (invalid_report request ("invalid ask_user questions: " +:+ error)))
        | Ok questions =>
            let question :=
              mkQuestionRequest (cs_question_id s) task_id turn_id (tr_tool_call_id request) questions in
            match validate_request question with
            | Err error => Ok (Some (invalid_report request error))
            | Ok _ =>
                match cs_resolution s with
                | None => Err "agent task was cancelled"
                | Some resolution =>
                    match validate_resolution question resolution with
                    | Err error => Err ("invalid user question response: " +:+ error)
                    | Ok _ => Ok (Some (user_question_report request resolution))
                    end
                end
            end
        end
    end.

(** A task that may not change the workspace runs no tool with side effects, but a shell
    command that only reads. *)
(*@ runtime/src/lib.rs:2980-2999 run_with_control_trace_contract_and_replay_context *)
Definition contract_blocks (request : ToolRequest) : bool :=
  bool_decide (workspace_change = WorkspaceChangeRequirement.Forbidden)
  && is_some_and (fun c => negb (bool_decide (tc_side_effect_type c = SideEffectType.None)))
       (registry_contract rg (tr_tool_name request))
  && negb (bool_decide (tr_tool_name request = "shell")
           && shell_request_is_strictly_read_only shlex_split bash_parse (tr_arguments request)).

(** A call whose checkpoint is made: the time it gets, and the gate. *)
(*@ runtime/src/lib.rs:3188-3244 run_with_control_trace_contract_and_replay_context *)
Definition run_checkpointed (s : CallScript) (request : ToolRequest) (policy : PolicyEvaluation) (approved : bool)
    (preparation : SideEffectPreparation) (validation : option json) (d : Disk) : CallResult :=
  let request := clamp_shell_timeout_to_budget request
    (shell_execution_budget (max_elapsed_ms limits) (cs_invoke_elapsed_ms s) deadline_advisory_emitted) in
  let '(r, d') := execute (mkInvocation request policy approved (Some preparation) None) (cs_cancelled s) (cs_how s)
                    (cs_partial s) d in
  match r with
  | Ok m => Reported validation (mu_report m) d'
  | Err (Tool error) =>
      Reported validation
        (execution_error_report_with_hints (rt_policy rt) policy_ref replace_all sha256_hex ids fs_read request policy
           (error_text error)) d'
  | Err ToolPanicked => CallPanicked
  end.

(*@ runtime/src/lib.rs:3137-3187 run_with_control_trace_contract_and_replay_context *)
Definition checkpoint_and_run (s : CallScript) (request : ToolRequest) (policy : PolicyEvaluation)
    (approved may_execute : bool) (preparation : SideEffectPreparation) (validation : option json) (d : Disk)
    : CallResult :=
  let needed := may_execute
    && (bool_decide (tr_tool_name request = "subagent") || sp_tracks_workspace preparation
        || negb (bool_decide (length (sp_before_images preparation) = O))) in
  let checkpoint :=
    match recorder with
    | Some recorder =>
        if needed then recorder request (sp_before_images preparation) (sp_complete preparation)
        else RuntimeOperationOutcome.Completed (Ok tt)
    | None => RuntimeOperationOutcome.Completed (Ok tt)
    end in
  match checkpoint with
  | RuntimeOperationOutcome.Cancelled =>
      Reported validation (cancelled_report_with_policy replace_all ids request policy
        "tool call cancelled while persisting its side-effect checkpoint") d
  | RuntimeOperationOutcome.TimedOut =>
      Reported validation (deadline_exceeded_report replace_all ids rt request policy "side-effect checkpoint") d
  | RuntimeOperationOutcome.Completed (Err error) =>
      Reported validation (checkpoint_error_report replace_all ids request policy
        ("before-side-effect checkpoint failed: " +:+ error)) d
  | RuntimeOperationOutcome.Completed (Ok _) =>
      if snd (cs_runnable s) then run_checkpointed s request policy approved preparation validation d
      else LoopFailed "agent task was cancelled"
  end.

(*@ runtime/src/lib.rs:3046-3136 run_with_control_trace_contract_and_replay_context *)
Definition decided_call (s : CallScript) (request : ToolRequest) (policy : PolicyEvaluation)
    (validation : option json) (d : Disk) : CallResult :=
  let approval := if bool_decide (pe_decision policy = PolicyDecision.Ask) then cs_approval s else Some false in
  match approval with
  | None => LoopFailed "agent task was cancelled"
  | Some approved =>
      if negb (snd (fst (cs_runnable s))) then LoopFailed "agent task was cancelled"
      else
        let may_execute := permitted (mkInvocation request policy approved None None) in
        match (if may_execute then cs_prepared s
               else RuntimeOperationOutcome.Completed (Ok default_preparation)) with
        | RuntimeOperationOutcome.Cancelled =>
            Reported validation (cancelled_report_with_policy replace_all ids request policy
              "tool call cancelled during side-effect preparation") d
        | RuntimeOperationOutcome.TimedOut =>
            Reported validation
              (deadline_exceeded_report replace_all ids rt request policy "side-effect preparation") d
        | RuntimeOperationOutcome.Completed (Err (Tool error)) =>
            Reported validation
              (execution_error_report_with_hints (rt_policy rt) policy_ref replace_all sha256_hex ids fs_read request
                 policy (error_text error)) d
        | RuntimeOperationOutcome.Completed (Err ToolPanicked) => CallPanicked
        | RuntimeOperationOutcome.Completed (Ok preparation) =>
            checkpoint_and_run s request policy approved may_execute preparation validation d
        end
  end.

(*@ runtime/src/lib.rs:2853-3045 run_with_control_trace_contract_and_replay_context *)
Definition single_call (ls : LoopState) (s : CallScript) (c : ProviderToolCall) (d : Disk) : CallResult :=
  if negb (fst (fst (cs_runnable s))) then LoopFailed "agent task was cancelled"
  else
    let governance := Governor.evaluate is_alphanumeric to_lowercase limits ledger
      (tool_observation ls (lp_tool_call_count ls +|32 1) (cs_elapsed_ms s) (action_text json_text c)) in
    if negb (permits_execution governance) then GovernorStopped governance
    else
      let request := request_of session_id turn_id (cs_tool_call_id s) c in
      let validation := validation_of request in
      match question_report s request with
      | Err error => LoopFailed error
      | Ok (Some r) => Reported validation r d
      | Ok None =>
          match tool_profile_rejection_reason request profile rg with
          | Some reason => Reported validation (invalid_report request reason) d
          | None =>
              if contract_blocks request then
                Reported validation (invalid_report request "task contract forbids side-effecting tools") d
              else
                match evaluate_request request with
                | Err (Tool error) =>
                    Reported validation (argument_rejection_report policy_ref replace_all json_text ids request error) d
                | Err ToolPanicked => CallPanicked
                | Ok policy => decided_call s request policy validation d
                end
          end
      end.
End call.

(** ** What the loop records *)

(*@ runtime/src/lib.rs update_tool_failure_counts *)
Definition update_tool_failure_counts (status : ToolResultStatus) (total consecutive : N) : N * N :=
  if bool_decide (status = ToolResultStatus.Ok) then (total, 0) else (total +|32 1, consecutive +|32 1).

(** How a call was run is added to the facts of commands and children. *)
(*@ runtime/src/lib.rs:3283-3300 run_with_control_trace_contract_and_replay_context *)
Definition mark_execution (parallel : bool) (dispatched_batch_size : N) (r : ToolExecutionReport)
    : ToolExecutionReport :=
  match facts_of r with
  | JObject m =>
      if among (env_tool_name (rp_envelope r)) ["shell"; "shell_session"; "subagent"] then
        FileTools.with_facts
          (JObject (entries_insert "dispatch_batch_size" (json_u64 dispatched_batch_size)
             (entries_insert "execution_mode"
                (JString (if parallel then "parallel_tool_batch" else "sequential_tool_call")) m))) r
      else r
  | _ => r
  end.

(** A result with the identity of its call. *)
Record CallReport := mkCallReport {
  cr_provider_tool_call_id : string;
  cr_failure_signature : string;
  cr_failure_family : string;
  cr_validation : option json;
  cr_tool_call_count : N;
  cr_report : ToolExecutionReport;
}.

(** The results are the reports with the provider's ids they are answered under. *)
Record Progress := mkProgress {
  pg_loop : LoopState;
  pg_disk : Disk;
  pg_results : list (string * ToolExecutionReport);
  pg_attempts : list ToolAttemptMetadata;
}.

Definition with_count (p : Progress) (count : N) (d : Disk) : Progress :=
  let l := pg_loop p in
  mkProgress
    (mkLoop (lp_iteration l) count (lp_failed_tool_call_count l) (lp_consecutive_failed_tool_call_count l)
       (lp_planned_input_tokens l) (lp_estimated_cost_microusd l) (lp_failure_families l))
    d (pg_results p) (pg_attempts p).

Section record.
Variable is_alphanumeric : N -> bool.
Variable to_lowercase : string -> string.
Variable limits : GovernorLimits.
Variable ledger : GoalLedger.
Variable step_no : N.

(*@ runtime/src/lib.rs:3325-3343 run_with_control_trace_contract_and_replay_context *)
Definition result_observation (ls : LoopState) (count elapsed_ms : N) (r : ToolExecutionReport)
    : GovernorObservation :=
  {| obs_phase := GovernorPhase.ToolResult;
     obs_iteration := lp_iteration ls +|32 1;
     obs_tool_calls := count;
     obs_failed_tool_calls := lp_failed_tool_call_count ls;
     obs_consecutive_failed_tool_calls := lp_consecutive_failed_tool_call_count ls;
     obs_planned_input_tokens := lp_planned_input_tokens ls;
     obs_elapsed_ms := elapsed_ms;
     obs_latest_action := env_summary (rp_envelope r);
     obs_estimated_cost_microusd := lp_estimated_cost_microusd ls;
     obs_policy_decision := Some (pe_decision (rp_policy_evaluation r));
     obs_policy_block_disposition := effective_block_disposition (rp_policy_evaluation r);
     obs_security_risk := env_risk (rp_envelope r) |}.

(** What is recorded of a result, and the governor's word on going on. *)
(*@ runtime/src/lib.rs:3279-3395 run_with_control_trace_contract_and_replay_context *)
Definition record_call (parallel : bool) (size : N) (elapsed_ms : N) (p : Progress) (c : CallReport)
    : Progress * RuntimeGovernorDecision :=
  let r := cr_report c in
  let r := FileTools.with_facts (attach_prepared_objective_validation (facts_of r) (cr_validation c)) r in
  let r := mark_execution parallel size r in
  let status := status_of r in
  let l := pg_loop p in
  let '(failed, consecutive) := update_tool_failure_counts status (lp_failed_tool_call_count l)
    (lp_consecutive_failed_tool_call_count l) in
  let families := record_result (lp_failure_families l) (cr_failure_family c) (cr_failure_signature c) status
    (rp_changed_files r) in
  let l := mkLoop (lp_iteration l) (lp_tool_call_count l) failed consecutive (lp_planned_input_tokens l)
    (lp_estimated_cost_microusd l) families in
  let attempt := mkAttempt (env_tool_call_id (rp_envelope r)) (cr_failure_signature c) step_no status
    (tool_failure_is_recoverable r) in
  (mkProgress l (pg_disk p) (pg_results p ++ [(cr_provider_tool_call_id c, r)]) (pg_attempts p ++ [attempt]),
   Governor.evaluate is_alphanumeric to_lowercase limits ledger
     (result_observation l (cr_tool_call_count c) elapsed_ms r)).

(** The results of a parallel batch are all recorded; the last refusal stops the loop. *)
(*@ runtime/src/lib.rs:3396-3412 run_with_control_trace_contract_and_replay_context *)
Fixpoint record_batch (size : N) (elapsed_ms : nat -> N) (i : nat) (p : Progress)
    (stop : option RuntimeGovernorDecision) (outcomes : list ParallelCallOutcome)
    : Progress * option RuntimeGovernorDecision :=
  match outcomes with
  | [] => (p, stop)
  | o :: outcomes =>
      let '(p, governance) := record_call true size (elapsed_ms i) p
        (mkCallReport (po_provider_tool_call_id o) (po_failure_signature o) (po_failure_family o) None
           (po_tool_call_count o) (po_report o)) in
      record_batch size elapsed_ms (S i) p (if permits_execution governance then stop else Some governance) outcomes
  end.
End record.

(** ** The loop over the batches *)

(** A run of prepared calls: [None] as long as some call has not answered. *)
Class ParallelRunner := {
  pr_run : nat -> list PreparedParallelCall -> Disk ->
    option (list (result ToolFault ParallelCallOutcome) * Disk);
}.

(** An outcome belongs to the call at its place. *)
Definition outcome_matches (p : PreparedParallelCall) (o : result ToolFault ParallelCallOutcome) : Prop :=
  forall outcome, o = Ok outcome ->
    po_provider_tool_call_id outcome = pp_provider_tool_call_id p /\
    po_tool_call_count outcome = pp_tool_call_count p.

Class ParallelRunnerLaws `{ParallelRunner} := {
  pr_outcomes round ps d outcomes d' :
    pr_run round ps d = Some (outcomes, d') -> Forall2 outcome_matches ps outcomes;
}.

(** How the calls of a response end: all are answered, the governor stops the loop, the
    loop fails, or a call has not answered yet. *)
Inductive DispatchEnd :=
| AllAnswered
| StoppedByGovernor (governance : RuntimeGovernorDecision)
| DispatchFailed (error : string)
| DispatchPanicked
| StillRunning.

(** What happens around a batch. *)
Record BatchScript := mkBatchScript {
  bs_runnable : bool;
  bs_fresh_id : nat -> ToolCallId;
  bs_elapsed_ms : nat -> N;
  bs_result_elapsed_ms : nat -> N;
  bs_prepare : ToolRequest -> RuntimeOperationOutcome (result ToolFault SideEffectPreparation);
  bs_call : nat -> CallScript;
}.

Fixpoint all_outcomes (l : list (result ToolFault ParallelCallOutcome)) : option (list ParallelCallOutcome) :=
  match l with
  | [] => Some []
  | Ok o :: l => cons o <$> all_outcomes l
  | Err _ :: _ => None
  end.

Section dispatch.
Context `{runner : ParallelRunner}.
Variable is_alphanumeric : N -> bool.
Variable to_lowercase : string -> string.
Variable sha256_hex : string -> string.
Variable json_text : json -> string.
Variable limits : GovernorLimits.
Variable ledger : GoalLedger.
Variable profile : AgentToolProfile.
Variable rg : ToolRegistry.
Variable session_id : SessionId.
Variable turn_id : TurnId.
Variable step_no : N.
Variable evaluate_request : ToolRequest -> result ToolFault PolicyEvaluation.
(** A call on its own, as above. *)
Variable call_alone : LoopState -> CallScript -> ProviderToolCall -> Disk -> CallResult.
(** The kinds of the calls as they are found when a batch is cut. *)
Variable kind_at : nat -> ProviderToolCall -> ParallelBatchKind.
Variable replay_context_active : bool.
Variable workspace_change : WorkspaceChangeRequirement.
Variable script : nat -> BatchScript.

Abbreviation record_one := (record_call is_alphanumeric to_lowercase limits ledger step_no).

Definition call_report (c : ProviderToolCall) (count : N) (validation : option json) (r : ToolExecutionReport)
    : CallReport :=
  mkCallReport (pc_tool_call_id c) (tool_attempt_signature sha256_hex json_text (pc_tool_name c) (pc_arguments c))
    (semantic_failure_family sha256_hex json_text (pc_tool_name c) (pc_arguments c)) validation count r.

(** Calls one after the other. *)
(*@ runtime/src/lib.rs:3396-3411 run_with_control_trace_contract_and_replay_context *)
Fixpoint run_alone (s : BatchScript) (i : nat) (p : Progress) (batch : list ProviderToolCall)
    : Progress * DispatchEnd :=
  match batch with
  | [] => (p, AllAnswered)
  | c :: batch =>
      match call_alone (pg_loop p) (bs_call s i) c (pg_disk p) with
      | GovernorStopped governance => (p, StoppedByGovernor governance)
      | LoopFailed error => (p, DispatchFailed error)
      | CallPanicked => (p, DispatchPanicked)
      | Reported validation r d =>
          let count := lp_tool_call_count (pg_loop p) +|32 1 in
          let '(p, governance) := record_one false 1 (cs_result_elapsed_ms (bs_call s i)) (with_count p count d)
            (call_report c count validation r) in
          if permits_execution governance then run_alone s (S i) p batch
          else (p, StoppedByGovernor governance)
      end
  end.

(*@ runtime/src/lib.rs:2658-2823 run_with_control_trace_contract_and_replay_context *)
Definition run_batch (round : nat) (p : Progress) (batch : list ProviderToolCall) (kind : ParallelBatchKind)
    : Progress * DispatchEnd :=
  let s := script round in
  if (1 <? length batch)%nat && negb (bool_decide (kind = Exclusive)) then
    if negb (bs_runnable s) then (p, DispatchFailed "agent task was cancelled")
    else
      match prepare_batch is_alphanumeric to_lowercase sha256_hex json_text limits ledger profile rg session_id turn_id
              evaluate_request (bs_prepare s) (bs_fresh_id s) (bs_elapsed_ms s) (pg_loop p) kind None 0 [] batch with
      | Err _ => (p, DispatchPanicked)
      | Ok None => run_alone s 0 p batch
      | Ok (Some ps) =>
          let count := from_option pp_tool_call_count (lp_tool_call_count (pg_loop p)) (last ps) in
          match pr_run round ps (pg_disk p) with
          | None => (p, StillRunning)
          | Some (outcomes, d) =>
              match all_outcomes outcomes with
              | None => (p, DispatchPanicked)
              | Some outcomes =>
                  let '(p, stop) := record_batch is_alphanumeric to_lowercase limits ledger step_no
                    (N.of_nat (length batch)) (bs_result_elapsed_ms s) 0 (with_count p count d) None outcomes in
                  (p, match stop with Some governance => StoppedByGovernor governance | None => AllAnswered end)
              end
          end
      end
  else run_alone s 0 p batch.

(** The loop; every batch has a call, so the number of calls is enough fuel. *)
(*@ runtime/src/lib.rs:2598-2601 run_with_control_trace_contract_and_replay_context *)
Fixpoint dispatch (fuel round : nat) (p : Progress) (pending : list ProviderToolCall) : Progress * DispatchEnd :=
  match fuel, pending with
  | _, [] => (p, AllAnswered)
  | O, _ => (p, StillRunning)
  | S fuel, c :: pending =>
      let '(batch, kind, rest) := next_batch (kind_at round) replay_context_active workspace_change c pending in
      match run_batch round p batch kind with
      | (p, AllAnswered) => dispatch fuel (S round) p rest
      | stopped => stopped
      end
  end.

Definition dispatch_calls (p : Progress) (calls : list ProviderToolCall) : Progress * DispatchEnd :=
  dispatch (length calls) 0 p calls.

End dispatch.

(** ** What the loop keeps *)

(** [p'] has, after the results of [p], one result for each of [ids], and with a limit on
    the number of calls, that many calls more, within the limit. *)
Definition advances (limits : GovernorLimits) (p p' : Progress) (ids : list string) : Prop :=
  (exists new, pg_results p' = pg_results p ++ new /\ fst <$> new = ids) /\
  (max_tool_calls limits <> 0 -> max_tool_calls limits < u32_max ->
   lp_tool_call_count (pg_loop p) <= max_tool_calls limits ->
   lp_tool_call_count (pg_loop p') = lp_tool_call_count (pg_loop p) + N.of_nat (length ids) /\
   lp_tool_call_count (pg_loop p') <= max_tool_calls limits).

Lemma advances_refl limits p : advances limits p p [].
Proof. split; [exists []; by rewrite app_nil_r|]. cbn. lia. Qed.

Lemma advances_trans limits p1 p2 p3 ids1 ids2 :
  advances limits p1 p2 ids1 -> advances limits p2 p3 ids2 -> advances limits p1 p3 (ids1 ++ ids2).
Proof.
  intros [(n1 & H1 & <-) Hc1] [(n2 & H2 & <-) Hc2]. split.
  - exists (n1 ++ n2). by rewrite H2, H1, <- app_assoc, fmap_app.
  - intros Hm Hu Hs. destruct (Hc1 Hm Hu Hs) as [E1 L1]. destruct (Hc2 Hm Hu L1) as [E2 L2].
    rewrite length_app, E2, E1. split; lia.
Qed.

Lemma record_call_keeps isa tl limits ledger step par size elapsed p c :
  let p' := fst (record_call isa tl limits ledger step par size elapsed p c) in
  (exists r, pg_results p' = pg_results p ++ [(cr_provider_tool_call_id c, r)]) /\
  lp_tool_call_count (pg_loop p') = lp_tool_call_count (pg_loop p).
Proof.
  unfold record_call. cbv zeta. destruct (update_tool_failure_counts _ _ _). cbn. split; [by eexists|done].
Qed.

Lemma record_batch_keeps isa tl limits ledger step size elapsed outcomes : forall i p stop,
  let p' := fst (record_batch isa tl limits ledger step size elapsed i p stop outcomes) in
  (exists new, pg_results p' = pg_results p ++ new /\ fst <$> new = po_provider_tool_call_id <$> outcomes) /\
  lp_tool_call_count (pg_loop p') = lp_tool_call_count (pg_loop p).
Proof.
  induction outcomes as [|o outcomes IH]; intros i p stop; cbn [record_batch].
  { split; [exists []; by rewrite app_nil_r|done]. }
  match goal with |- context [record_call isa tl limits ledger step ?b size ?e p ?c] =>
    destruct (record_call_keeps isa tl limits ledger step b size e p c) as [[r Hr] Hc];
    destruct (record_call isa tl limits ledger step b size e p c) as [p1 governance] end.
  cbn [fst] in Hr, Hc.
  destruct (IH (S i) p1 (if permits_execution governance then stop else Some governance)) as [(new & Hn & Hf) Hc'].
  cbv zeta. split; [|by rewrite Hc', Hc]. exists ((po_provider_tool_call_id o, r) :: new).
  rewrite Hn, Hr, <- app_assoc. cbn. by rewrite Hf.
Qed.

Lemma all_outcomes_match ps outcomes : forall outs,
  Forall2 outcome_matches ps outcomes -> all_outcomes outcomes = Some outs ->
  po_provider_tool_call_id <$> outs = pp_provider_tool_call_id <$> ps.
Proof.
  intros outs H. revert outs. induction H as [|p o ps outcomes Hm _ IH]; intros outs; [by intros [= <-]|].
  cbn [all_outcomes]. destruct o as [o|]; [|done]. destruct (all_outcomes outcomes) as [outs'|]; [|done].
  intros [= <-]. cbn. rewrite (IH outs' eq_refl). by destruct (Hm o eq_refl) as [-> _].
Qed.

Section loop_laws.
Context `{runner : ParallelRunner} `{!ParallelRunnerLaws}.
Variable is_alphanumeric : N -> bool.
Variable to_lowercase : string -> string.
Variable sha256_hex : string -> string.
Variable json_text : json -> string.
Variable limits : GovernorLimits.
Variable ledger : GoalLedger.
Variable profile : AgentToolProfile.
Variable rg : ToolRegistry.
Variable session_id : SessionId.
Variable turn_id : TurnId.
Variable step_no : N.
Variable evaluate_request : ToolRequest -> result ToolFault PolicyEvaluation.
Variable call_alone : LoopState -> CallScript -> ProviderToolCall -> Disk -> CallResult.
Variable kind_at : nat -> ProviderToolCall -> ParallelBatchKind.
Variable replay_context_active : bool.
Variable workspace_change : WorkspaceChangeRequirement.
Variable script : nat -> BatchScript.
(** A call that is run alone was within the limit of calls. *)
Hypothesis alone_within : forall ls s c d validation r d',
  call_alone ls s c d = Reported validation r d' -> max_tool_calls limits <> 0 ->
  lp_tool_call_count ls +|32 1 <= max_tool_calls limits.

Abbreviation alone := (run_alone is_alphanumeric to_lowercase sha256_hex json_text limits ledger step_no call_alone).
Abbreviation batch_run := (run_batch is_alphanumeric to_lowercase sha256_hex json_text limits ledger profile rg
  session_id turn_id step_no evaluate_request call_alone script).
Abbreviation loop := (dispatch is_alphanumeric to_lowercase sha256_hex json_text limits ledger profile rg
  session_id turn_id step_no evaluate_request call_alone kind_at replay_context_active workspace_change script).

(** The results are those of a first part of the calls, of all when all are answered. *)
Definition answers_calls (p p' : Progress) (calls : list ProviderToolCall) (e : DispatchEnd) : Prop :=
  exists n, advances limits p p' (pc_tool_call_id <$> take n calls) /\ (e = AllAnswered -> take n calls = calls).

Lemma answers_none p calls e : e <> AllAnswered -> answers_calls p p calls e.
Proof. intros He. exists O. split; [apply advances_refl|done]. Qed.

Lemma answers_app p1 p2 p3 calls1 calls2 e :
  advances limits p1 p2 (pc_tool_call_id <$> calls1) -> answers_calls p2 p3 calls2 e ->
  answers_calls p1 p3 (calls1 ++ calls2) e.
Proof.
  intros H1 (n & H2 & He). exists (length calls1 + n)%nat. rewrite take_app_add. split.
  - rewrite fmap_app. by eapply advances_trans.
  - intros ->. by rewrite He.
Qed.

Lemma run_alone_answers s batch : forall i p p' e,
  alone s i p batch = (p', e) -> answers_calls p p' batch e.
Proof.
  induction batch as [|c batch IH]; intros i p p' e; cbn [run_alone].
  { intros [= <- <-]. exists O. split; [apply advances_refl|done]. }
  destruct (call_alone _ _ _ _) as [| | |validation r d] eqn:Hc; try (intros [= <- <-]; by apply answers_none).
  match goal with |- context [record_call is_alphanumeric to_lowercase limits ledger step_no ?b ?sz ?el ?q ?cr] =>
    destruct (record_call_keeps is_alphanumeric to_lowercase limits ledger step_no b sz el q cr) as [[r' Hr] Hn];
    destruct (record_call is_alphanumeric to_lowercase limits ledger step_no b sz el q cr) as [p1 governance] end.
  cbn in Hr, Hn.
  assert (advances limits p p1 (pc_tool_call_id <$> [c])) as Ha.
  { split; [by eexists|]. intros Hm Hu Hs. rewrite Hn. specialize (alone_within _ _ _ _ _ _ _ Hc Hm).
    revert alone_within. unfold sat_add. cbn [length fmap list_fmap]. lia. }
  destruct (permits_execution governance).
  - intros Hrun. apply (answers_app p p1 p' [c] batch); [done|by eapply IH].
  - intros [= <- <-]. apply (answers_app p p1 p1 [c] batch); [done|by apply answers_none].
Qed.

Lemma prepared_counts ls kind prepare fresh elapsed batch ps :
  prepare_batch is_alphanumeric to_lowercase sha256_hex json_text limits ledger profile rg session_id turn_id
    evaluate_request prepare fresh elapsed ls kind None 0 [] batch = Ok (Some ps) ->
  pp_provider_tool_call_id <$> ps = pc_tool_call_id <$> batch /\
  forall i p, ps !! i = Some p ->
    (max_tool_calls limits <> 0 -> pp_tool_call_count p <= max_tool_calls limits) /\
    pp_tool_call_count p = lp_tool_call_count ls +|32 (N.min (N.of_nat i) u32_max +|32 1).
Proof.
  intros Hp. apply prepare_batch_cleared in Hp as (Hl & Hc & _). split.
  - apply (list_eq_same_length _ _ (length batch)); rewrite ?length_fmap; [done|done|].
    intros i x y Hi Hx Hy. apply list_lookup_fmap_Some in Hx as (p & -> & Hp).
    apply list_lookup_fmap_Some in Hy as (c & -> & Hci). by destruct (Hc i c p Hci Hp) as [-> _].
  - intros i p Hp. destruct (lookup_lt_is_Some_2 batch i) as [c Hci];
      [rewrite <- Hl; by eapply lookup_lt_Some|].
    by destruct (Hc i c p Hci Hp) as (_ & _ & _ & _ & _ & _ & _ & _ & Ht & He).
Qed.

Lemma run_batch_answers round p batch kind p' e :
  batch <> [] -> batch_run round p batch kind = (p', e) -> answers_calls p p' batch e.
Proof.
  intros Hne. unfold run_batch. destruct (_ && _); [|apply run_alone_answers].
  destruct (bs_runnable _); [|intros [= <- <-]; by apply answers_none]. cbn [negb].
  destruct (prepare_batch _ _ _ _ _ _ _ _ _ _ _ _ _ _ _ _ _ _ _ _) as [[ps|]|] eqn:Hp;
    [|apply run_alone_answers|intros [= <- <-]; by apply answers_none].
  apply prepared_counts in Hp as [Hids Hcounts].
  destruct (pr_run round ps (pg_disk p)) as [[outcomes d]|] eqn:Hr; [|intros [= <- <-]; by apply answers_none].
  apply pr_outcomes in Hr. destruct (all_outcomes outcomes) as [outs|] eqn:Ho;
    [|intros [= <- <-]; by apply answers_none].
  pose proof (all_outcomes_match _ _ _ Hr Ho) as Hout.
  match goal with |- context [record_batch ?a ?b ?c ?d' ?s ?sz ?el 0 ?q None outs] =>
    destruct (record_batch_keeps a b c d' s sz el outs 0 q None) as [(new & Hn & Hf) Hc];
    destruct (record_batch a b c d' s sz el 0 q None outs) as [p1 stop] end.
  cbn in Hn, Hc. intros [= <- <-].
  exists (length batch). rewrite firstn_all. split; [|done]. split.
  - exists new. split; [done|]. by rewrite Hf, Hout, Hids.
  - intros Hm Hu Hs. rewrite Hc.
    assert (length ps = length batch) as Hl by (apply (f_equal length) in Hids; by rewrite !length_fmap in Hids).
    destruct (exists_last (l := ps)) as (front & lastp & ->).
    { intros ->. by destruct batch. }
    rewrite last_snoc. cbn [from_option]. destruct (Hcounts (length front) lastp) as [Hle He].
    { by rewrite list_lookup_middle. }
    rewrite length_app in Hl. cbn in Hl. rewrite length_fmap, <- Hl. specialize (Hle Hm).
    revert He Hle. unfold sat_add. lia.
Qed.

Lemma dispatch_answers fuel : forall round p pending p' e,
  loop fuel round p pending = (p', e) -> answers_calls p p' pending e.
Proof.
  induction fuel as [|fuel IH]; intros round p [|c pending] p' e; cbn [dispatch].
  1,3: intros [= <- <-]; exists O; split; [apply advances_refl|done].
  { intros [= <- <-]. by apply answers_none. }
  destruct (next_batch _ _ _ _ _) as [[batch kind] rest] eqn:Hb.
  apply batches_are_independent in Hb as (-> & Hne & _).
  destruct (batch_run round p batch kind) as [p1 e1] eqn:Hr. apply run_batch_answers in Hr; [|done].
  destruct Hr as (n & Ha & Hall).
  assert (e1 <> AllAnswered -> answers_calls p p1 (batch ++ rest) e1) as Hstop.
  { intros He1. exists (Nat.min n (length batch)). split; [|done].
    rewrite take_app_le by lia. rewrite <- take_take, firstn_all. exact Ha. }
  destruct e1; try (intros [= <- <-]; by apply Hstop).
  intros Hd. rewrite (Hall eq_refl) in Ha. apply (answers_app p p1 p'); [done|by eapply IH].
Qed.

(** The fuel is enough: the loop waits only for a call that has not answered. *)
Lemma dispatch_ends fuel : forall round p pending,
  (forall round ps d, (length ps <= PARALLEL_READ_CONCURRENCY_LIMIT)%nat -> pr_run round ps d <> None) ->
  (length pending <= fuel)%nat ->
  snd (loop fuel round p pending) <> StillRunning.
Proof.
  intros round p pending Hruns. revert round p pending.
  induction fuel as [|fuel IH]; intros round p [|c pending] Hl; cbn [dispatch length] in *; try done; [lia|].
  destruct (next_batch _ _ _ _ _) as [[batch kind] rest] eqn:Hb.
  apply batches_are_independent in Hb as (Heq & Hne & Hlimit & _).
  destruct (batch_run round p batch kind) as [p1 e1] eqn:Hr.
  assert (e1 <> StillRunning) as He1.
  { intros ->. revert Hr. unfold run_batch.
    assert (forall s i q, snd (alone s i q batch) <> StillRunning) as Halone.
    { clear. induction batch as [|c batch IHb]; intros s i q; cbn [run_alone]; [done|].
      destruct (call_alone _ _ _ _); try done. destruct (record_call _ _ _ _ _ _ _ _ _ _) as [q' g].
      destruct (permits_execution g); [apply IHb|done]. }
    destruct (_ && _); [|intros He; by apply (f_equal snd) in He; apply Halone in He].
    destruct (negb _); [done|]. destruct (prepare_batch _ _ _ _ _ _ _ _ _ _ _ _ _ _ _ _ _ _ _ _) as [[ps|]|] eqn:Hp;
      [|intros He; by apply (f_equal snd) in He; apply Halone in He|done].
    apply prepare_batch_cleared in Hp as [Hps _].
    destruct (pr_run round ps _) as [[outcomes d]|] eqn:Hpr; [|apply Hruns in Hpr; [done|by rewrite Hps]].
    destruct (all_outcomes outcomes); [|done]. destruct (record_batch _ _ _ _ _ _ _ _ _ _ _) as [q []]; done. }
  destruct e1; try done. apply IH.
  apply (f_equal length) in Heq. rewrite length_app in Heq. cbn in Heq. destruct batch; [done|]. cbn in Heq. lia.
Qed.
End loop_laws.

(** ** The whole step *)

(** Everything the step takes from outside: the file system and the other libraries, the
    executor and its tools, the turn, and what happens in each round of the loop. *)
Record LoopEnv := mkLoopEnv {
  le_fs : FileSystem; le_dirs : Directories; le_os : Os;
  le_is_alphanumeric : N -> bool; le_to_lowercase : string -> string;
  le_replace_all : string -> string -> string -> string; le_sha256_hex : string -> string;
  le_json_text : json -> string; le_line_changes : string -> string -> list (ChangeTag * string);
  le_utf8_error : string -> string; le_shlex_split : string -> option (list string);
  le_bash_parse : string -> option Node; le_parse_questions : json -> result string (list UserQuestionPrompt);
  le_validation_of : ToolRequest -> option json;
  le_ids : FreshIds; le_fresh_policy_ref : PolicyId; le_policy_ref : PolicyId; le_rt : ToolRuntime;
  le_rg : ToolRegistry; le_validate : ToolContract -> json -> result ToolFault unit;
  le_replay : ToolRequest -> result ToolFault ToolResultEnvelope;
  le_prepared : ToolRequest -> result ToolInvocationStop (result ToolFault SideEffectPreparation);
  le_evaluate : ToolRequest -> result ToolFault PolicyEvaluation; le_fs_read : string -> result string string;
  le_run_tool : option BuiltinTool -> ToolRequest -> PolicyEvaluation -> list FileBeforeImage -> Disk ->
    result ToolFault MutationReport * Disk;
  le_recorder : option Recorder;
  le_limits : GovernorLimits; le_ledger : GoalLedger; le_profile : AgentToolProfile;
  le_workspace_change : WorkspaceChangeRequirement; le_session_id : SessionId; le_turn_id : TurnId;
  le_task_id : TaskId; le_step_no : N; le_deadline_advisory_emitted : bool; le_replay_context_active : bool;
  le_kind_at : nat -> ProviderToolCall -> ParallelBatchKind; le_script : nat -> BatchScript;
  le_schedule : nat -> list nat; le_runnable : nat -> nat -> bool; le_cancelled : nat -> nat -> bool;
  le_outcome : nat -> nat -> WriteOutcome;
  le_how : nat -> nat -> OperationEnd; le_stopped : nat -> nat -> WriteOutcome; le_stop_tool : ToolRequest -> Disk -> Disk;
}.

Section step.
Variable env : LoopEnv.
#[local] Existing Instance le_fs.
#[local] Existing Instance le_dirs.
#[local] Existing Instance le_os.

#[local] Instance step_runner : ParallelRunner := {
  pr_run round ps d :=
    @invoke_parallel_calls (le_fs env) (le_dirs env) (le_os env) (le_replace_all env) (le_sha256_hex env)
      (le_line_changes env) (le_utf8_error env) (le_policy_ref env) (le_ids env) (le_rt env) (le_validate env)
      (le_replay env) (le_prepared env) (le_fs_read env) (le_run_tool env) (le_stop_tool env)
      (le_runnable env round) (le_cancelled env round) (le_how env round) (le_outcome env round)
      (le_stopped env round) ps (le_recorder env) (le_schedule env round) d;
}.

Definition step_call : LoopState -> CallScript -> ProviderToolCall -> Disk -> CallResult :=
  @single_call (le_fs env) (le_dirs env) (le_is_alphanumeric env) (le_to_lowercase env) (le_replace_all env)
    (le_sha256_hex env) (le_json_text env) (le_shlex_split env) (le_bash_parse env) (le_ids env)
    (le_fresh_policy_ref env) (le_policy_ref env) (le_rt env) (le_rg env) (le_fs_read env)
    (fun i cancelled how partial d =>
       @invoke (le_fs env) (le_dirs env) (le_replace_all env) (le_ids env) (le_rt env) (le_validate env)
         (le_replay env) (le_run_tool env) (le_policy_ref env) (le_prepared env) i cancelled how partial d)
    (le_evaluate env) (le_recorder env) (le_parse_questions env) (le_validation_of env) (le_limits env)
    (le_ledger env) (le_profile env) (le_workspace_change env) (le_session_id env) (le_turn_id env) (le_task_id env)
    (le_deadline_advisory_emitted env).

(** The tool calls of a response. *)
Definition run_tool_calls : Progress -> list ProviderToolCall -> Progress * DispatchEnd :=
  dispatch_calls (le_is_alphanumeric env) (le_to_lowercase env) (le_sha256_hex env) (le_json_text env) (le_limits env)
    (le_ledger env) (le_profile env) (le_rg env) (le_session_id env) (le_turn_id env) (le_step_no env)
    (le_evaluate env) step_call (le_kind_at env) (le_replay_context_active env) (le_workspace_change env)
    (le_script env).

Lemma step_call_within ls s c d validation r d' :
  step_call ls s c d = Reported validation r d' -> max_tool_calls (le_limits env) <> 0 ->
  lp_tool_call_count ls +|32 1 <= max_tool_calls (le_limits env).
Proof.
  unfold step_call, single_call. destruct (negb (fst (fst _))); [done|]. cbv zeta.
  destruct (permits_execution _) eqn:Hg; [|done]. intros _ Hm.
  apply governor_permits_iff in Hg as (_ & _ & _ & _ & _ & _ & Ht & _). by apply Ht.
Qed.

#[local] Instance step_runner_laws : ParallelRunnerLaws.
Proof.
  split. intros round ps d outcomes d'. cbn. unfold invoke_parallel_calls.
  destruct (checkpoint_batch _ _ _ _ _) as [refused|] eqn:Hc.
  - intros [= <- <-]. unfold checkpoint_batch in Hc. destruct (le_recorder env) as [rec|]; [|done].
    destruct (existsb _ _); [|done]. destruct (forallb _ _); [done|]. injection Hc as <-.
    induction ps as [|p ps IH]; cbn; [constructor|]. constructor; [|exact IH]. by intros ? [= <-].
  - cbv zeta. destruct (answers _) as [rs|] eqn:Ha; [|done]. intros [= <- <-].
    assert (length rs = length ps) as Hl.
    { unfold answers in Ha. apply length_mapM in Ha. rewrite <- Ha.
      unfold run_schedule. rewrite (proj2 (schedule_rank _ _ 0)). apply length_replicate. }
    clear Ha Hc. revert rs Hl. induction ps as [|p ps IH]; intros [|r rs] Hl; cbn in *; [constructor|done|done|].
    constructor; [|apply IH; lia]. intros o Ho. destruct r; [|done]. by injection Ho as <-.
Qed.

(** The schedules give the calls of a batch their steps. *)
Definition fair_schedules : Prop :=
  forall round i, (i < PARALLEL_READ_CONCURRENCY_LIMIT)%nat ->
  (2 <= count_occ Nat.eq_dec (le_schedule env round) i)%nat.

(** C15 (liveness): under schedules that let every call of a batch finish the step over
    the tool calls of a response ends, and its results are those of a first part of the
    calls: one for each of them, under its own id and in the order of the response,
    whether they ran one by one or in batches. The first part is all of the calls when the
    step ends in [AllAnswered], that is when neither the governor, an error, a cancelled
    task nor a panic stops it; otherwise the calls after it have no result. *)
Theorem every_call_is_answered p calls p' e :
  fair_schedules -> run_tool_calls p calls = (p', e) ->
  e <> StillRunning /\
  exists n new, pg_results p' = pg_results p ++ new /\ fst <$> new = pc_tool_call_id <$> take n calls /\
    (e = AllAnswered -> fst <$> new = pc_tool_call_id <$> calls).
Proof.
  intros Hfair Hrun. split.
  - apply (f_equal snd) in Hrun. cbn in Hrun. rewrite <- Hrun. apply dispatch_ends; [|done].
    intros round ps d Hl. cbn. unfold invoke_parallel_calls. destruct (checkpoint_batch _ _ _ _ _); [done|].
    cbv zeta. match goal with |- context [@run_schedule ?R ?kc ?n ?d ?s] =>
      destruct (@fair_schedule_answers R kc n d s) as (rs & -> & _); [|done] end.
    intros i Hi. apply Hfair. lia.
  - unfold run_tool_calls, dispatch_calls in Hrun.
    apply dispatch_answers in Hrun as (n & [(new & Hn & Hf) _] & Hall); [|exact step_call_within].
    exists n, new. split_and!; [done|done|]. intros He. by rewrite Hf, (Hall He).
Qed.

(** The limit on tool calls holds over batches and single calls: with a limit below the
    range of the counter, a step ends with a count within it, and the count has grown by
    the number of calls that were answered. *)
Theorem tool_calls_within_limit p calls p' e :
  let limit := max_tool_calls (le_limits env) in
  limit <> 0 -> limit < u32_max -> lp_tool_call_count (pg_loop p) <= limit ->
  run_tool_calls p calls = (p', e) ->
  lp_tool_call_count (pg_loop p') <= limit /\
  N.of_nat (length (pg_results p')) + lp_tool_call_count (pg_loop p)
  = N.of_nat (length (pg_results p)) + lp_tool_call_count (pg_loop p').
Proof.
  intros limit Hm Hu Hs Hrun. unfold run_tool_calls, dispatch_calls in Hrun.
  apply dispatch_answers in Hrun as (n & [(new & Hn & Hf) Hc] & _); [|exact step_call_within].
  destruct (Hc Hm Hu Hs) as [He Hle]. split; [done|]. rewrite Hn, length_app, He.
  apply (f_equal length) in Hf. rewrite length_fmap in Hf. rewrite <- Hf. lia.
Qed.
End step.

(** ** A small step *)

Definition no_questions (v : json) : result string (list UserQuestionPrompt) := Err "no questions".
Definition quiet_script : CallScript :=
  mkCallScript (true, true, true) 0 7 1 None None (RuntimeOperationOutcome.Completed (Ok default_preparation)) 0 false
    RanToEnd work_disk 0.
Definition quiet_round (round : nat) : BatchScript :=
  mkBatchScript true N.of_nat (fun _ => 0) (fun _ => 0) prepare_small (fun _ => quiet_script).

Definition small_env : LoopEnv :=
  {| le_fs := work_fs; le_dirs := hint_dirs; le_os := small_os;
     le_is_alphanumeric := ascii_alphanumeric; le_to_lowercase := to_ascii_lowercase;
     le_replace_all := no_redaction; le_sha256_hex := fun s => s; le_json_text := some_text;
     le_line_changes := no_changes; le_utf8_error := some_utf8_error; le_shlex_split := plain_words;
     le_bash_parse := one_command; le_parse_questions := no_questions; le_validation_of := fun _ => None;
     le_ids := some_ids; le_fresh_policy_ref := 1; le_policy_ref := 1; le_rt := small_rt; le_rg := small_registry;
     le_validate := small_validate; le_replay := no_replay; le_prepared := small_prepare; le_evaluate := allow_all;
     le_fs_read := no_read; le_run_tool := small_run; le_recorder := Some record_all;
     le_limits := three_calls; le_ledger := small_ledger; le_profile := AgentToolProfile.Coding;
     le_workspace_change := WorkspaceChangeRequirement.Required; le_session_id := 1; le_turn_id := 1; le_task_id := 1;
     le_step_no := 1; le_deadline_advisory_emitted := false; le_replay_context_active := false;
     le_kind_at := fun _ => small_kind; le_script := quiet_round;
     le_schedule := fun _ => [0; 1; 2; 3; 4; 5; 6; 7; 7; 6; 5; 4; 3; 2; 1; 0]%nat;
     le_runnable := fun _ _ => true; le_cancelled := fun _ _ => false; le_outcome := fun _ _ => Written;
     le_how := fun _ _ => RanToEnd; le_stopped := fun _ _ => Written; le_stop_tool := stop_at_once |}.

Definition at_start : Progress := mkProgress small_loop work_disk [] [].

(** Two writes in one batch, then a third call that the limit still allows and a fourth
    that it does not. *)
Definition four_calls : list ProviderToolCall :=
  two_writes ++ [write_call "c3" "a.txt" "three"; write_call "c4" "b.txt" "four"].

Definition small_step : Progress * DispatchEnd := run_tool_calls small_env at_start four_calls.

Lemma every_call_is_answered_witness :
  snd small_step <> StillRunning /\
  exists n new, pg_results (fst small_step) = [] ++ new /\ fst <$> new = pc_tool_call_id <$> take n four_calls.
Proof.
  assert (fair_schedules small_env) as Hf.
  { intros round i Hi. unfold PARALLEL_READ_CONCURRENCY_LIMIT in Hi.
    do 8 (destruct i as [|i]; [by vm_compute; lia|]). lia. }
  destruct small_step as [p' e] eqn:Hs.
  destruct (every_call_is_answered small_env at_start four_calls p' e Hf Hs) as (He & n & new & Hr & Hn & _).
  split; [exact He|]. exists n, new. split; [exact Hr|exact Hn].
Defined.

Lemma tool_calls_within_limit_witness :
  lp_tool_call_count (pg_loop (fst small_step)) = 3 /\
  N.of_nat (length (pg_results (fst small_step))) = lp_tool_call_count (pg_loop (fst small_step)).
Proof.
  assert (lp_tool_call_count (pg_loop (fst small_step)) = 3) as Hc by (by vm_compute). split; [exact Hc|].
  destruct small_step as [p' e] eqn:Hs.
  assert (max_tool_calls (le_limits small_env) <> 0) as H0 by done.
  assert (max_tool_calls (le_limits small_env) < u32_max) as H1 by done.
  assert (lp_tool_call_count (pg_loop at_start) <= max_tool_calls (le_limits small_env)) as H2 by done.
  destruct (tool_calls_within_limit small_env at_start four_calls p' e H0 H1 H2 Hs) as [_ He].
  cbn [fst]. change (length (pg_results at_start)) with 0%nat in He.
  change (lp_tool_call_count (pg_loop at_start)) with 0 in He. lia.
Defined.

(** Under a contract that forbids changes a single wait for a process is refused, but two
    in one response are put in a batch, which does not look at the contract, and are
    cleared to run. *)
Definition wait_call (id process : string) : ProviderToolCall :=
  mkProviderToolCall id "shell_session" (JObject [("action", JString "wait"); ("process_id", JString process)]).

Example batched_waits_escape_the_contract :
  let forbidden := WorkspaceChangeRequirement.Forbidden in
  let kind := ProcessWait {["p1"; "p2"]} in
  contract_blocks plain_words one_command small_registry forbidden (request_of 1 1 7 (wait_call "c1" "p1")) = true /\
  next_batch small_kind false forbidden (wait_call "c1" "p1") [wait_call "c2" "p2"]
  = ([wait_call "c1" "p1"; wait_call "c2" "p2"], kind, []) /\
  exists ps, prepare_batch ascii_alphanumeric to_ascii_lowercase (fun s => s) some_text three_calls small_ledger
    AgentToolProfile.Coding small_registry 1 1 allow_all prepare_small N.of_nat (fun _ => 0) small_loop kind None 0 []
    [wait_call "c1" "p1"; wait_call "c2" "p2"] = Ok (Some ps) /\ length ps = 2%nat.
Proof.
  split; [by vm_compute|]. split; [by vm_compute|]. eexists. split; [vm_compute; reflexivity|reflexivity].
Qed.
