(* ===== verification/Recovery.v ===== *)
(** * Crash recovery of an orphaned task

    [golutra-agent-client/src/recovery.rs]: after the host that owned a task is gone,
    the durable event chain is reduced to a journal of what was started and never
    finished, and the task is classified as interrupted or uncertain. Payloads are
    JSON. Parsing an id is [Uuid::parse_str], an argument; the detection time is an
    argument too. A [BTreeMap] or [BTreeSet] is a [gmap] or [gset]; where the source
    collects one into a vector, the keys are sorted. *)
From S2P Require Import Prelude RustStr Core Events.
From stdpp Require Import sorting.
Open Scope N_scope.

(*@ core/src/runtime.rs IncompleteToolCall *)
Record IncompleteToolCall := mkIncompleteToolCall {
  itc_tool_call_id : ToolCallId;
  itc_tool_name : string;
  itc_side_effect_possible : bool;
  itc_recovery_policy : ToolRecoveryPolicy;
  itc_started_event_ref : EventId;
}.

(*@ core/src/runtime.rs TaskRecoveryRecord *)
Record TaskRecoveryRecord := mkTaskRecoveryRecord {
  trr_task_id : TaskId;
  trr_disposition : TaskRecoveryDisposition;
  trr_interrupted_turn_ids : list TurnId;
  trr_incomplete_tool_calls : list IncompleteToolCall;
  trr_incomplete_provider_request_ids : list ProviderRequestId;
  trr_running_process_ids : list string;
  trr_checkpoint_event_refs : list EventId;
  trr_last_event_ref : option EventId;
  trr_previous_runtime_identity : option string;
  trr_recovering_runtime_identity : string;
  trr_safe_to_replay : bool;
  trr_reconciliation_required : bool;
  trr_reason : string;
  trr_detected_at : N;
}.

(*@ client/src/recovery.rs DurableTurnJournal *)
Record DurableTurnJournal := mkJournal {
  started_tools : gmap N IncompleteToolCall;
  completed_tools : gset N;
  active_provider_requests : gset N;
  completed_provider_requests : gset N;
  interrupted_turn_ids : gset N;
  running_process_ids : gset string;
  terminal_process_ids : gset string;
  checkpoint_event_refs : list EventId;
  previous_runtime_identity : option string;
  unparseable_incomplete_tools : N;
}.
Definition default_journal : DurableTurnJournal := mkJournal ∅ ∅ ∅ ∅ ∅ ∅ ∅ [] None 0.

(** ** Deserialising a recovery policy

    serde's derived readers: a unit variant is its snake-case name, or an object of
    that one key with [null]; a struct is an object with all its fields, or the
    array of its fields in order. *)
Definition side_effect_of_name (s : string) : option SideEffectType :=
  if bool_decide (s = "none") then Some SideEffectType.None
  else if bool_decide (s = "file") then Some SideEffectType.File
  else if bool_decide (s = "process") then Some SideEffectType.Process
  else if bool_decide (s = "network") then Some SideEffectType.Network
  else if bool_decide (s = "external_system") then Some SideEffectType.ExternalSystem
  else None.

Definition interrupted_action_of_name (s : string) : option InterruptedToolAction :=
  if bool_decide (s = "replay_safe") then Some InterruptedToolAction.ReplaySafe
  else if bool_decide (s = "reconcile_before_retry") then
    Some InterruptedToolAction.ReconcileBeforeRetry
  else if bool_decide (s = "replay_forbidden") then Some InterruptedToolAction.ReplayForbidden
  else None.

Definition policy_of_fields (effect key retry action : json) : option ToolRecoveryPolicy :=
  effect ← variant_name effect ≫= side_effect_of_name;
  key ← as_str key;
  retry ← as_str retry;
  action ← variant_name action ≫= interrupted_action_of_name;
  Some (mkToolRecoveryPolicy effect key retry action).

Definition recovery_policy_from_value (v : json) : option ToolRecoveryPolicy :=
  match v with
  | JArray [effect; key; retry; action] => policy_of_fields effect key retry action
  | JObject _ =>
      effect ← json_get v "side_effect_type";
      key ← json_get v "idempotency_key_policy";
      retry ← json_get v "retry_policy";
      action ← json_get v "interrupted_action";
      policy_of_fields effect key retry action
  | _ => None
  end.

(*@ client/src/recovery.rs legacy_recovery_policy *)
Definition legacy_recovery_policy (tool_name : string) : ToolRecoveryPolicy :=
  for_side_effect
    (if bool_decide (tool_name ∈ ["read_file"; "list_dir"; "rg_search"; "symbol_search";
       "find_references"; "process_list"; "process_poll"; "process_reconnect"])
     then SideEffectType.None else SideEffectType.ExternalSystem).

(*@ client/src/recovery.rs runtime_identity_from_event *)
Definition runtime_identity_from_event (e : RuntimeEvent json) : option string :=
  match json_get (ev_payload e) "runtime_identity" with
  | Some v => as_str v
  | None =>
      v ← json_get (ev_payload e) "runtime" ≫= (fun r => json_get r "runtime_identity");
      as_str v
  end.

Section Journal.
(** [Uuid::parse_str]. *)
Context (parse_id : string -> option N).

(*@ client/src/recovery.rs provider_request_id *)
Definition provider_request_id (e : RuntimeEvent json) : option ProviderRequestId :=
  (json_get (ev_payload e) "provider_request_id" ≫= as_str) ≫= parse_id.

(*@ client/src/recovery.rs tool_call_id_from_completed *)
Definition tool_call_id_from_completed (e : RuntimeEvent json) : option ToolCallId :=
  match json_get (ev_payload e) "tool_call_id" with
  | Some v => as_str v ≫= parse_id
  | None =>
      v ← json_get (ev_payload e) "envelope" ≫= (fun r => json_get r "tool_call_id");
      as_str v ≫= parse_id
  end.

(** What an event says about a process: its id, and whether it may still run. *)
(*@ client/src/recovery.rs:237-252 update_running_processes *)
Definition process_report (e : RuntimeEvent json) : option (string * bool) :=
  facts ← match json_get (ev_payload e) "envelope" ≫= (fun r => json_get r "structured_facts") with
          | Some facts => Some facts
          | None =>
              if bool_decide (ev_event_type e = RuntimeEventType.ProcessUpdated)
              then Some (ev_payload e) else None
          end;
  process_id ← json_get facts "process_id" ≫= as_str;
  let state := default "unknown" (json_get facts "process_state" ≫= as_str) in
  Some (process_id, bool_decide (state = "running") || bool_decide (state = "unknown")).

(*@ client/src/recovery.rs update_running_processes *)
Definition update_running_processes (running terminal : gset string) (e : RuntimeEvent json)
    : gset string * gset string :=
  match process_report e with
  | None => (running, terminal)
  | Some (p, true) => (if bool_decide (p ∈ terminal) then running else {[ p ]} ∪ running, terminal)
  | Some (p, false) => (running ∖ {[ p ]}, {[ p ]} ∪ terminal)
  end.

(** The call a [ToolStarted] event records; [None] when it cannot be read. *)
(*@ client/src/recovery.rs:117-151 DurableTurnJournal::apply *)
Definition started_call (e : RuntimeEvent json) : option IncompleteToolCall :=
  tool_name ← json_get (ev_payload e) "tool_name" ≫= as_str;
  tool_call_id ← (json_get (ev_payload e) "tool_call_id" ≫= as_str) ≫= parse_id;
  let policy := default (legacy_recovery_policy tool_name)
                  (json_get (ev_payload e) "recovery_policy" ≫= recovery_policy_from_value) in
  Some (mkIncompleteToolCall tool_call_id tool_name (side_effect_possible policy) policy (ev_id e)).

(*@ client/src/recovery.rs DurableTurnJournal::apply *)
Definition apply (j : DurableTurnJournal) (e : RuntimeEvent json) : DurableTurnJournal :=
  let identity :=
    match previous_runtime_identity j with
    | None => runtime_identity_from_event e
    | Some i => Some i
    end in
  let turns :=
    match ev_event_type e, ev_turn_id e with
    | RuntimeEventType.TaskCreated, Some t | RuntimeEventType.TurnStarted, Some t =>
        {[ t ]} ∪ interrupted_turn_ids j
    | _, _ => interrupted_turn_ids j
    end in
  let checkpoints :=
    if bool_decide (ev_event_type e = RuntimeEventType.CheckpointCreated)
    then checkpoint_event_refs j ++ [ev_id e] else checkpoint_event_refs j in
  let upd started completed active_p completed_p running terminal unparseable :=
    mkJournal started completed active_p completed_p turns running terminal checkpoints identity
      unparseable in
  let same := upd (started_tools j) (completed_tools j) (active_provider_requests j)
                (completed_provider_requests j) (running_process_ids j) (terminal_process_ids j)
                (unparseable_incomplete_tools j) in
  match ev_event_type e with
  | RuntimeEventType.ProviderStarted =>
      match provider_request_id e with
      | Some r => upd (started_tools j) (completed_tools j) ({[ r ]} ∪ active_provider_requests j)
                    (completed_provider_requests j) (running_process_ids j)
                    (terminal_process_ids j) (unparseable_incomplete_tools j)
      | None => same
      end
  | RuntimeEventType.ProviderCompleted | RuntimeEventType.ProviderFailed =>
      match provider_request_id e with
      | Some r => upd (started_tools j) (completed_tools j) (active_provider_requests j ∖ {[ r ]})
                    ({[ r ]} ∪ completed_provider_requests j) (running_process_ids j)
                    (terminal_process_ids j) (unparseable_incomplete_tools j)
      | None => same
      end
  | RuntimeEventType.ToolStarted =>
      match started_call e with
      | Some c => upd (<[itc_tool_call_id c := c]> (started_tools j)) (completed_tools j)
                    (active_provider_requests j) (completed_provider_requests j)
                    (running_process_ids j) (terminal_process_ids j)
                    (unparseable_incomplete_tools j)
      | None => upd (started_tools j) (completed_tools j) (active_provider_requests j)
                  (completed_provider_requests j) (running_process_ids j) (terminal_process_ids j)
                  (unparseable_incomplete_tools j +|32 1)
      end
  | RuntimeEventType.ToolCompleted =>
      let '(running, terminal) :=
        update_running_processes (running_process_ids j) (terminal_process_ids j) e in
      match tool_call_id_from_completed e with
      | Some t => upd (delete t (started_tools j)) ({[ t ]} ∪ completed_tools j)
                    (active_provider_requests j) (completed_provider_requests j) running terminal
                    (unparseable_incomplete_tools j)
      | None => upd (started_tools j) (completed_tools j) (active_provider_requests j)
                  (completed_provider_requests j) running terminal (unparseable_incomplete_tools j)
      end
  | RuntimeEventType.ProcessUpdated =>
      let '(running, terminal) :=
        update_running_processes (running_process_ids j) (terminal_process_ids j) e in
      upd (started_tools j) (completed_tools j) (active_provider_requests j)
        (completed_provider_requests j) running terminal (unparseable_incomplete_tools j)
  | _ => same
  end.

(*@ client/src/recovery.rs DurableTurnJournal::reduce *)
Definition reduce (events : list (RuntimeEvent json)) : DurableTurnJournal :=
  fold_left apply events default_journal.

Definition sorted_ids (s : gset N) : list N := merge_sort N.le (elements s).
Definition sorted_strings (s : gset string) : list string := merge_sort String.le (elements s).

(*@ client/src/recovery.rs DurableTurnJournal::incomplete_tool_calls *)
Definition incomplete_tool_calls (j : DurableTurnJournal) : list IncompleteToolCall :=
  omap (fun k => started_tools j !! k)
    (filter (fun k => k ∉ completed_tools j) (sorted_ids (dom (started_tools j)))).

(*@ client/src/recovery.rs DurableTurnJournal::incomplete_provider_requests *)
Definition incomplete_provider_requests (j : DurableTurnJournal) : list ProviderRequestId :=
  filter (fun k => k ∉ completed_provider_requests j) (sorted_ids (active_provider_requests j)).

(*@ client/src/recovery.rs:30-34 analyze_task *)
Definition is_uncertain (j : DurableTurnJournal) : bool :=
  (0 <? unparseable_incomplete_tools j)
  || negb (bool_decide (running_process_ids j = ∅))
  || existsb (fun c => negb (bool_decide (interrupted_action (itc_recovery_policy c)
                                          = InterruptedToolAction.ReplaySafe)))
       (incomplete_tool_calls j).

(*@ client/src/recovery.rs analyze_task *)
Definition analyze_task (events : list (RuntimeEvent json)) (task_id : TaskId)
    (recovering_runtime_identity : string) (detected_at : N) : TaskRecoveryRecord :=
  let j := reduce events in
  let uncertain := is_uncertain j in
  {| trr_task_id := task_id;
     trr_disposition := if uncertain then TaskRecoveryDisposition.Uncertain
                        else TaskRecoveryDisposition.Interrupted;
     trr_interrupted_turn_ids := sorted_ids (interrupted_turn_ids j);
     trr_incomplete_tool_calls := incomplete_tool_calls j;
     trr_incomplete_provider_request_ids := incomplete_provider_requests j;
     trr_running_process_ids := sorted_strings (running_process_ids j);
     trr_checkpoint_event_refs := checkpoint_event_refs j;
     trr_last_event_ref := ev_id <$> last events;
     trr_previous_runtime_identity := previous_runtime_identity j;
     trr_recovering_runtime_identity := recovering_runtime_identity;
     trr_safe_to_replay := false;
     trr_reconciliation_required := uncertain;
     trr_reason :=
       if uncertain then
         "runtime host stopped while an interrupted tool or process requires reconciliation"
       else match incomplete_provider_requests j with
            | _ :: _ => "runtime host stopped with an incomplete provider request and no uncertain side effect"
            | [] => "runtime host stopped before the active task reached a durable terminal event"
            end;
     trr_detected_at := detected_at |}.
End Journal.

(** ** What the journal knows *)

Section Facts.
Context (parse_id : string -> option N).
Abbreviation ev := (RuntimeEvent json).

(** The readings of a single event. *)
Definition starts (e : ev) : option IncompleteToolCall :=
  if bool_decide (ev_event_type e = RuntimeEventType.ToolStarted) then started_call parse_id e
  else None.
Definition unreadable_start (e : ev) : bool :=
  bool_decide (ev_event_type e = RuntimeEventType.ToolStarted)
  && match started_call parse_id e with None => true | Some _ => false end.
Definition completes (e : ev) : option ToolCallId :=
  if bool_decide (ev_event_type e = RuntimeEventType.ToolCompleted)
  then tool_call_id_from_completed parse_id e else None.
Definition reports (e : ev) : option (string * bool) :=
  match ev_event_type e with
  | RuntimeEventType.ToolCompleted | RuntimeEventType.ProcessUpdated => process_report e
  | _ => None
  end.

(** The last readable start of a call. *)
Definition last_start (events : list ev) (id : ToolCallId) : option IncompleteToolCall :=
  last (filter (fun c => itc_tool_call_id c = id) (omap starts events)).

Definition completed_by (events : list ev) (id : ToolCallId) : Prop :=
  exists e, e ∈ events /\ completes e = Some id.
Definition reported (events : list ev) (p : string) (live : bool) : Prop :=
  exists e, e ∈ events /\ reports e = Some (p, live).

Lemma reduce_snoc events e : reduce parse_id (events ++ [e]) = apply parse_id (reduce parse_id events) e.
Proof. unfold reduce. by rewrite fold_left_app. Qed.

(** The effect of one event on each part of the journal. *)
Lemma apply_completed j e :
  completed_tools (apply parse_id j e) =
  match completes e with Some t => {[ t ]} ∪ completed_tools j | None => completed_tools j end.
Proof.
  unfold apply, completes. destruct (ev_event_type e); try done; simpl;
    try (destruct (provider_request_id _ e); done); try (destruct (started_call _ e); done);
    destruct (update_running_processes _ _ e); try done.
  by destruct (tool_call_id_from_completed _ e).
Qed.

Lemma apply_started j e :
  started_tools (apply parse_id j e) =
  match starts e, completes e with
  | Some c, _ => <[itc_tool_call_id c := c]> (started_tools j)
  | None, Some t => delete t (started_tools j)
  | None, None => started_tools j
  end.
Proof.
  unfold apply, starts, completes. destruct (ev_event_type e); try done; simpl;
    try (destruct (provider_request_id _ e); done); try (destruct (started_call _ e); done);
    destruct (update_running_processes _ _ e); try done.
  by destruct (tool_call_id_from_completed _ e).
Qed.

Lemma apply_unparseable j e :
  unparseable_incomplete_tools (apply parse_id j e) =
  if unreadable_start e then unparseable_incomplete_tools j +|32 1
  else unparseable_incomplete_tools j.
Proof.
  unfold apply, unreadable_start. destruct (ev_event_type e); try done; simpl;
    try (destruct (provider_request_id _ e); done); try (destruct (started_call _ e); done);
    destruct (update_running_processes _ _ e); try done.
  by destruct (tool_call_id_from_completed _ e).
Qed.

Lemma apply_processes j e :
  running_process_ids (apply parse_id j e) =
    match reports e with
    | None => running_process_ids j
    | Some (p, true) =>
        if bool_decide (p ∈ terminal_process_ids j) then running_process_ids j
        else {[ p ]} ∪ running_process_ids j
    | Some (p, false) => running_process_ids j ∖ {[ p ]}
    end /\
  terminal_process_ids (apply parse_id j e) =
    match reports e with
    | Some (p, false) => {[ p ]} ∪ terminal_process_ids j
    | _ => terminal_process_ids j
    end.
Proof.
  unfold apply, reports, update_running_processes. destruct (ev_event_type e); try done; simpl;
    try (destruct (provider_request_id _ e); done); try (destruct (started_call _ e); done);
    destruct (process_report e) as [[p []]|]; try done;
    by destruct (tool_call_id_from_completed _ e).
Qed.

(** Snoc forms of the facts. *)
Lemma completed_by_snoc events e id :
  completed_by (events ++ [e]) id <-> completed_by events id \/ completes e = Some id.
Proof. unfold completed_by. setoid_rewrite elem_of_app. setoid_rewrite list_elem_of_singleton. naive_solver. Qed.

Lemma reported_snoc events e p live :
  reported (events ++ [e]) p live <-> reported events p live \/ reports e = Some (p, live).
Proof. unfold reported. setoid_rewrite elem_of_app. setoid_rewrite list_elem_of_singleton. naive_solver. Qed.

Lemma last_start_snoc events e id :
  last_start (events ++ [e]) id =
  match starts e with
  | Some c => if bool_decide (itc_tool_call_id c = id) then Some c else last_start events id
  | None => last_start events id
  end.
Proof.
  unfold last_start. rewrite omap_app. simpl. destruct (starts e) as [c|]; simpl.
  - rewrite filter_app. simpl. rewrite filter_cons. case_bool_decide.
    + rewrite decide_True, filter_nil by done. by rewrite last_snoc.
    + rewrite decide_False by done. by rewrite filter_nil, app_nil_r.
  - by rewrite app_nil_r.
Qed.

Lemma journal_completed events id :
  id ∈ completed_tools (reduce parse_id events) <-> completed_by events id.
Proof.
  induction events as [|e events IH] using rev_ind.
  - split; [by intros ?%not_elem_of_empty|]. intros (e & He & _). by apply not_elem_of_nil in He.
  - rewrite reduce_snoc, apply_completed, completed_by_snoc, <- IH.
    destruct (completes e); set_solver.
Qed.

(** Unless it was completed, the journal holds the last start of a call. *)
Lemma journal_started events id :
  ~ completed_by events id -> started_tools (reduce parse_id events) !! id = last_start events id.
Proof.
  induction events as [|e events IH] using rev_ind; [done|].
  rewrite completed_by_snoc. intros Hn. specialize (IH ltac:(tauto)).
  rewrite reduce_snoc, apply_started, last_start_snoc. destruct (starts e) as [c|].
  - case_bool_decide as Hc; [by rewrite Hc, lookup_insert_eq|by rewrite lookup_insert_ne].
  - destruct (completes e) as [t|] eqn:Et; [|done]. rewrite lookup_delete_ne; [done|].
    intros ->. tauto.
Qed.

Lemma journal_processes events p :
  (p ∈ terminal_process_ids (reduce parse_id events) <-> reported events p false) /\
  (p ∈ running_process_ids (reduce parse_id events) <->
     reported events p true /\ ~ reported events p false).
Proof.
  induction events as [|e events [IH1 IH2]] using rev_ind.
  { split; split; try by intros ?%not_elem_of_empty.
    - intros (e & He & _). by apply not_elem_of_nil in He.
    - intros [(e & He & _) _]. by apply not_elem_of_nil in He. }
  rewrite reduce_snoc. destruct (apply_processes (reduce parse_id events) e) as [-> ->].
  rewrite !reported_snoc. destruct (reports e) as [[q []]|].
  - split; [rewrite IH1; naive_solver|]. case_bool_decide as Hq.
    + rewrite IH2. split; [naive_solver|]. intros [[?|?] ?]; [naive_solver|]. simplify_eq. tauto.
    + rewrite elem_of_union, elem_of_singleton, IH2. naive_solver.
  - split; [rewrite elem_of_union, elem_of_singleton, IH1; naive_solver|].
    rewrite elem_of_difference, elem_of_singleton, IH2. naive_solver.
  - split; [rewrite IH1; naive_solver|]. rewrite IH2. naive_solver.
Qed.

Lemma journal_unparseable events :
  (0 <? unparseable_incomplete_tools (reduce parse_id events)) = true <->
  exists e, e ∈ events /\ unreadable_start e = true.
Proof.
  rewrite N.ltb_lt. induction events as [|e events IH] using rev_ind.
  { split; [done|]. intros (e & He & _). by apply not_elem_of_nil in He. }
  rewrite reduce_snoc, apply_unparseable. setoid_rewrite elem_of_app.
  setoid_rewrite list_elem_of_singleton. destruct (unreadable_start e) eqn:E.
  - split; [eauto|]. intros _. unfold sat_add, u32_max. lia.
  - rewrite IH. split; [intros (e' & ? & ?); by eauto|].
    intros (e' & [?| ->] & ?); [by eauto|congruence].
Qed.

Lemma last_start_id events id c : last_start events id = Some c -> itc_tool_call_id c = id.
Proof.
  unfold last_start. intros H. apply last_Some_elem_of in H. by apply list_elem_of_filter in H as [? _].
Qed.

Lemma elem_of_sorted_ids s x : x ∈ sorted_ids s <-> x ∈ s.
Proof. unfold sorted_ids. by rewrite merge_sort_Permutation, elem_of_elements. Qed.

(** The calls the journal reports. *)
Lemma incomplete_call_iff events c :
  c ∈ incomplete_tool_calls (reduce parse_id events) <->
  last_start events (itc_tool_call_id c) = Some c /\ ~ completed_by events (itc_tool_call_id c).
Proof.
  unfold incomplete_tool_calls. rewrite list_elem_of_omap. split.
  - intros (k & Hk & Hc). apply list_elem_of_filter in Hk as [Hn _].
    rewrite journal_completed in Hn. rewrite journal_started in Hc by done.
    by rewrite (last_start_id _ _ _ Hc).
  - intros [Hl Hn]. exists (itc_tool_call_id c). rewrite journal_started by done. split; [|done].
    apply list_elem_of_filter. rewrite journal_completed. split; [done|].
    apply elem_of_sorted_ids, elem_of_dom. by rewrite journal_started, Hl.
Qed.

(** The calls a crash left open. A tool call is reported as
    incomplete exactly when some readable event started it and no event completed
    it, wherever in the chain the two events stand; the report carries its last
    start. *)
Theorem incomplete_calls_exact events task_id identity now c :
  c ∈ trr_incomplete_tool_calls (analyze_task parse_id events task_id identity now) <->
  last_start events (itc_tool_call_id c) = Some c /\ ~ completed_by events (itc_tool_call_id c).
Proof. apply incomplete_call_iff. Qed.

(** C8 (safety): recovery fails closed and never replays. The record never allows a
    replay. It says [Interrupted] exactly when every started tool could be read, no
    process was reported alive without also being reported finished, and every call
    that was started and not completed was declared safe to replay; in every other
    case it says [Uncertain] and requires reconciliation. *)
Theorem recovery_fails_closed events task_id identity now :
  let r := analyze_task parse_id events task_id identity now in
  trr_safe_to_replay r = false /\
  trr_reconciliation_required r
    = bool_decide (trr_disposition r = TaskRecoveryDisposition.Uncertain) /\
  (trr_disposition r = TaskRecoveryDisposition.Interrupted <->
     (forall e, e ∈ events -> unreadable_start e = false) /\
     (forall p, reported events p true -> reported events p false) /\
     (forall id c, last_start events id = Some c -> ~ completed_by events id ->
        interrupted_action (itc_recovery_policy c) = InterruptedToolAction.ReplaySafe)).
Proof.
  intros r. set (j := reduce parse_id events).
  assert (Hi : trr_disposition r = TaskRecoveryDisposition.Interrupted <-> is_uncertain j = false).
  { unfold r, analyze_task; simpl. fold j. by destruct (is_uncertain j). }
  split_and!; [done|by unfold r; simpl; fold j; destruct (is_uncertain j)|].
  rewrite Hi. unfold is_uncertain. rewrite !orb_false_iff. split.
  - intros [[Hu Hp] Ht]. split_and!.
    + intros e He. destruct (unreadable_start e) eqn:E; [|done].
      assert (Hx := proj2 (journal_unparseable events) (ex_intro _ e (conj He E))).
      fold j in Hx. congruence.
    + intros p Hr. apply negb_false_iff, bool_decide_eq_true in Hp.
      destruct (journal_processes events p) as [H1 H2]. fold j in H1, H2.
      destruct (decide (p ∈ terminal_process_ids j)) as [Hin|Hin]; [by apply H1|].
      assert (p ∈ running_process_ids j) by (apply H2; split; [done|by rewrite <- H1]).
      rewrite Hp in *. by apply not_elem_of_empty in H.
    + intros id c Hl Hc. pose proof (last_start_id _ _ _ Hl) as Hid. subst id.
      destruct (decide (interrupted_action (itc_recovery_policy c)
                        = InterruptedToolAction.ReplaySafe)) as [|Hne]; [done|exfalso].
      assert (Hex : existsb (fun c => negb (bool_decide (interrupted_action (itc_recovery_policy c)
                      = InterruptedToolAction.ReplaySafe))) (incomplete_tool_calls j) = true).
      { apply existsb_exists. exists c. split; [by apply list_elem_of_In, incomplete_call_iff|].
        by rewrite bool_decide_eq_false_2. }
      congruence.
  - intros (Hu & Hp & Ht). split_and!.
    + destruct (0 <? _) eqn:E; [|done]. apply journal_unparseable in E as (e & He & Hr).
      by rewrite (Hu e He) in Hr.
    + apply negb_false_iff, bool_decide_eq_true, set_eq. intros p.
      destruct (journal_processes events p) as [_ H2]. fold j in H2. rewrite H2.
      split; [|by intros ?%not_elem_of_empty]. intros [Hr Hn]. destruct Hn. by apply Hp.
    + destruct (existsb _ _) eqn:E; [|done]. apply existsb_exists in E as (c & Hc & Hne).
      apply list_elem_of_In, incomplete_call_iff in Hc as [Hl Hn].
      by rewrite (bool_decide_eq_true_2 _ (Ht _ _ Hl Hn)) in Hne.
Qed.
End Facts.

(** ** Examples *)

Definition mk_ev (t : RuntimeEventType) (payload : json) : RuntimeEvent json :=
  mkEvent 1 9 0 1 (Some 5) (Some 2) None t 0 RuntimeEventSource.Tool payload None true.
Definition demo_parse (s : string) : option N :=
  if bool_decide (s = "a") then Some 1 else if bool_decide (s = "b") then Some 2 else None.

(** A completion recorded before its start still settles the call; an unfinished
    read-only call leaves the task interrupted, an unfinished write makes it uncertain. *)
Example recovery_examples :
  let started id tool := mk_ev RuntimeEventType.ToolStarted
        (JObject [("tool_call_id", JString id); ("tool_name", JString tool)]) in
  let completed id := mk_ev RuntimeEventType.ToolCompleted
        (JObject [("tool_call_id", JString id)]) in
  let go evs := trr_disposition (analyze_task demo_parse evs 1 "host" 0) in
  (go [completed "a"; started "a" "write_file"], go [started "b" "read_file"],
   go [started "b" "write_file"; started "a" "read_file"; completed "a"],
   go [started "zzz" "read_file"])
  = (TaskRecoveryDisposition.Interrupted, TaskRecoveryDisposition.Interrupted,
     TaskRecoveryDisposition.Uncertain, TaskRecoveryDisposition.Uncertain).
Proof. vm_compute. reflexivity. Qed.
