(* ===== verification/Attachment.v ===== *)
(** * Runtime attachments

    [golutra-agent-app-server/src/attachment_registry.rs]: attachments are temporary
    controller capabilities of a shared runtime. A lease state is shared by its
    registry entry and by every lease handed out, so the states live in one heap and
    entries and leases hold their index. The transport and the actor an entry
    carries are the type [T]; an [Instant] and a [Duration] are nanoseconds, the
    clock is an argument.

    The registry's own operations run under its lock, while leases are dropped by
    request tasks at any time: [Registry] models the operations on the shared heap
    with drops in between. [Race] models the atomics of one lease state step by step,
    with every interleaving of the threads that acquire, revoke and release it. *)
From S2P Require Import Prelude RustStr Core.
Open Scope N_scope.

(*@ app-server/src/attachment_registry.rs DEFAULT_MAX_ATTACHMENTS *)
Definition DEFAULT_MAX_ATTACHMENTS : N := 1024.
(*@ app-server/src/attachment_registry.rs DEFAULT_IDLE_TTL *)
Definition DEFAULT_IDLE_TTL : N := 30 * 60 * 1000000000.

(** The lifecycle of a lease state, with its [revoked] flag and the state of its
    cancellation token. *)
(*@ app-server/src/attachment_registry.rs:62-74 AttachmentLeaseState *)
Record LeaseState := mkLeaseState {
  ls_active : N;
  ls_idle_since : N;
  ls_revoked : bool;
  ls_cancelled : bool;
}.

(*@ app-server/src/attachment_registry.rs AttachmentLeaseState::new *)
Definition lease_state_new (now : N) : LeaseState := mkLeaseState 0 now false false.

(** [acquire]: the load, the increment and the second load; with no revocation in
    between the second load sees the first value. *)
(*@ app-server/src/attachment_registry.rs AttachmentLeaseState::acquire *)
Definition acquire (s : LeaseState) : option LeaseState :=
  if ls_revoked s then None
  else Some (mkLeaseState (sat_add usize_max (ls_active s) 1) (ls_idle_since s) false
               (ls_cancelled s)).

(*@ app-server/src/attachment_registry.rs AttachmentLeaseState::revoke *)
Definition revoke (s : LeaseState) : LeaseState :=
  mkLeaseState (ls_active s) (ls_idle_since s) true true.

(*@ app-server/src/attachment_registry.rs AttachmentLeaseState::release *)
Definition release (s : LeaseState) (now : N) : LeaseState :=
  let active := ls_active s - 1 in
  mkLeaseState active (if active =? 0 then now else ls_idle_since s) (ls_revoked s) (ls_cancelled s).

(*@ app-server/src/attachment_registry.rs AttachmentLeaseState::idle_expired_at *)
Definition idle_expired_at (s : LeaseState) (now ttl : N) : bool :=
  (ls_active s =? 0) && (ttl <? now - ls_idle_since s).

Module AttachmentInsertError.
(*@ app-server/src/attachment_registry.rs AttachmentInsertError *)
Inductive AttachmentInsertError := Capacity | Duplicate.
End AttachmentInsertError.
Abbreviation AttachmentInsertError := AttachmentInsertError.AttachmentInsertError.

Section Registry.
Context {T : Type}.

(*@ app-server/src/attachment_registry.rs AttachmentEntry *)
Record AttachmentEntry := mkEntry {
  ae_transport_actor : T;
  ae_runtime_key : string;
  ae_lease_state : nat;
}.

(*@ app-server/src/attachment_registry.rs RevokedAttachment *)
Record RevokedAttachment := mkRevoked {
  rv_runtime_key : string;
  rv_lease_state : nat;
}.

(** The registry, with the heap of lease states. *)
(*@ app-server/src/attachment_registry.rs AttachmentRegistry *)
Record AttachmentRegistry := mkRegistry {
  entries : gmap string AttachmentEntry;
  revoked : list RevokedAttachment;
  max_entries : N;
  idle_ttl : N;
  heap : list LeaseState;
}.

(*@ app-server/src/attachment_registry.rs AttachmentRegistry::new *)
Definition registry_new (max ttl : N) : AttachmentRegistry :=
  mkRegistry ∅ [] (N.max max 1) ttl [].

Definition state_of (h : list LeaseState) (i : nat) : LeaseState :=
  default (lease_state_new 0) (h !! i).

(** [active() > 0]. *)
Definition in_use (h : list LeaseState) (i : nat) : bool := 0 <? ls_active (state_of h i).

Definition expired (r : AttachmentRegistry) (now : N) (e : AttachmentEntry) : Prop :=
  idle_expired_at (state_of (heap r) (ae_lease_state e)) now (idle_ttl r) = true.
#[global] Instance expired_dec r now e : Decision (expired r now e).
Proof. unfold expired. apply _. Defined.

Definition revoke_at (h : list LeaseState) (i : nat) : list LeaseState := alter revoke i h.

(** [prune_expired_at]; its vector of runtime keys is collected in map order. *)
(*@ app-server/src/attachment_registry.rs AttachmentRegistry::prune_expired_at *)
Definition prune_expired_at (r : AttachmentRegistry) (now : N) : AttachmentRegistry * list string :=
  let gone := filter (fun kv => expired r now kv.2) (entries r) in
  let kept := filter (fun kv => ~ expired r now kv.2) (entries r) in
  let h := foldr (fun kv h => revoke_at h (ae_lease_state kv.2)) (heap r) (map_to_list gone) in
  let still := List.filter (fun v => in_use h (rv_lease_state v)) (revoked r) in
  (mkRegistry kept still (max_entries r) (idle_ttl r) h,
   ((fun kv => ae_runtime_key kv.2) <$> map_to_list gone) ++ (rv_runtime_key <$> still)).

(*@ app-server/src/attachment_registry.rs AttachmentRegistry::insert *)
Definition insert_attachment (r : AttachmentRegistry) (id : string) (t : T) (key : string) (now : N)
    : AttachmentRegistry * result AttachmentInsertError unit :=
  let r := fst (prune_expired_at r now) in
  match entries r !! id with
  | Some _ => (r, Err AttachmentInsertError.Duplicate)
  | None =>
      let active_revoked :=
        N.of_nat (length (List.filter (fun v => in_use (heap r) (rv_lease_state v)) (revoked r))) in
      if max_entries r <=? sat_add usize_max (N.of_nat (size (entries r))) active_revoked then
        (r, Err AttachmentInsertError.Capacity)
      else
        (mkRegistry (<[id := mkEntry t key (length (heap r))]> (entries r)) (revoked r)
           (max_entries r) (idle_ttl r) (heap r ++ [lease_state_new now]), Ok tt)
  end.

(** [attachment]: the entry's payload and the lease, as the index of its state. *)
(*@ app-server/src/attachment_registry.rs AttachmentRegistry::attachment *)
Definition attachment (r : AttachmentRegistry) (id : string) (now : N)
    : AttachmentRegistry * option (T * nat) :=
  let r := fst (prune_expired_at r now) in
  match entries r !! id with
  | None => (r, None)
  | Some e =>
      match acquire (state_of (heap r) (ae_lease_state e)) with
      | None => (r, None)
      | Some s =>
          (mkRegistry (entries r) (revoked r) (max_entries r) (idle_ttl r)
             (<[ae_lease_state e := s]> (heap r)),
           Some (ae_transport_actor e, ae_lease_state e))
      end
  end.

(*@ app-server/src/attachment_registry.rs AttachmentRegistry::detach_attachment *)
Definition detach_attachment (r : AttachmentRegistry) (id : string)
    : AttachmentRegistry * option nat :=
  match entries r !! id with
  | None => (r, None)
  | Some e =>
      (mkRegistry (delete id (entries r))
         (revoked r ++ [mkRevoked (ae_runtime_key e) (ae_lease_state e)]) (max_entries r)
         (idle_ttl r) (revoke_at (heap r) (ae_lease_state e)), Some (ae_lease_state e))
  end.

(** Dropping an [AttachmentLease]. *)
(*@ app-server/src/attachment_registry.rs Drop::drop for AttachmentLease *)
Definition drop_lease (r : AttachmentRegistry) (i : nat) (now : N) : AttachmentRegistry :=
  mkRegistry (entries r) (revoked r) (max_entries r) (idle_ttl r)
    (alter (fun s => release s now) i (heap r)).

(*@ app-server/src/attachment_registry.rs AttachmentRegistry::runtime_keys *)
Definition runtime_keys (r : AttachmentRegistry) : gset string :=
  list_to_set ((fun kv => ae_runtime_key kv.2) <$> map_to_list (entries r))
  ∪ list_to_set (rv_runtime_key <$> List.filter (fun v => in_use (heap r) (rv_lease_state v)) (revoked r)).

(** ** Calls in any order

    A configuration is the registry with the leases held by requests, of which there
    are fewer than [usize] counts. *)
Record Config := mkConfig { cfg_registry : AttachmentRegistry; cfg_held : list nat }.

Inductive RStep : Config -> Config -> Prop :=
| RInsert r held id t key now :
    RStep (mkConfig r held) (mkConfig (fst (insert_attachment r id t key now)) held)
| RAttach r held id now r' t i :
    N.of_nat (length held) < usize_max ->
    attachment r id now = (r', Some (t, i)) ->
    RStep (mkConfig r held) (mkConfig r' (i :: held))
| RAttachNone r held id now r' :
    attachment r id now = (r', None) -> RStep (mkConfig r held) (mkConfig r' held)
| RDetach r held id : RStep (mkConfig r held) (mkConfig (fst (detach_attachment r id)) held)
| RPrune r held now : RStep (mkConfig r held) (mkConfig (fst (prune_expired_at r now)) held)
| RDrop r held1 i held2 now :
    RStep (mkConfig r (held1 ++ i :: held2)) (mkConfig (drop_lease r i now) (held1 ++ held2)).

Inductive RReachable : Config -> Prop :=
| RInit max ttl : max <= usize_max -> RReachable (mkConfig (registry_new max ttl) [])
| RNext c c' : RReachable c -> RStep c c' -> RReachable c'.
End Registry.
Arguments AttachmentEntry : clear implicits.
Arguments AttachmentRegistry : clear implicits.
Arguments Config : clear implicits.

(** ** The heap of lease states *)

Lemma state_of_alter f h i j :
  (i < length h)%nat ->
  state_of (alter f i h) j = if decide (i = j) then f (state_of h j) else state_of h j.
Proof.
  intros Hi. unfold state_of. destruct (decide (i = j)) as [<-|Hne].
  - rewrite list_lookup_alter_eq. by destruct (lookup_lt_is_Some_2 h i Hi) as [x ->].
  - by rewrite list_lookup_alter_ne.
Qed.

Lemma state_of_insert h i j s :
  (i < length h)%nat -> state_of (<[i := s]> h) j = if decide (i = j) then s else state_of h j.
Proof.
  intros Hi. unfold state_of. destruct (decide (i = j)) as [<-|Hne].
  - by rewrite list_lookup_insert_eq.
  - by rewrite list_lookup_insert_ne.
Qed.

Lemma state_of_app h s j : (j < length h)%nat -> state_of (h ++ [s]) j = state_of h j.
Proof. intros Hj. unfold state_of. by rewrite lookup_app_l. Qed.

Lemma state_of_oob h j : (length h <= j)%nat -> ls_active (state_of h j) = 0.
Proof. intros Hj. unfold state_of. by rewrite lookup_ge_None_2. Qed.

Section RegistryProofs.
Context {T : Type}.
Implicit Types (r : AttachmentRegistry T) (e : AttachmentEntry T).

Definition revoke_all (h : list LeaseState) (idxs : list nat) : list LeaseState :=
  foldr (fun i h => revoke_at h i) h idxs.

Lemma revoke_all_state h idxs j :
  Forall (fun i => (i < length h)%nat) idxs ->
  length (revoke_all h idxs) = length h /\
  state_of (revoke_all h idxs) j = if decide (j ∈ idxs) then revoke (state_of h j) else state_of h j.
Proof.
  induction 1 as [|i idxs Hi Hidxs [IHl IH]]; simpl.
  { split; [done|]. destruct (decide (j ∈ [])) as [H|]; [by apply not_elem_of_nil in H|done]. }
  unfold revoke_at. rewrite length_alter. split; [done|].
  rewrite state_of_alter by lia. rewrite IH. destruct (decide (i = j)) as [->|Hne].
  - rewrite (decide_True (P := j ∈ j :: idxs)) by apply list_elem_of_here.
    by destruct (decide (j ∈ idxs)).
  - destruct (decide (j ∈ idxs)) as [Hj|Hj].
    + by rewrite decide_True by (by apply list_elem_of_further).
    + rewrite decide_False; [done|]. rewrite elem_of_cons. intros [->|?]; done.
Qed.

Lemma foldr_revoke_all (l : list (string * AttachmentEntry T)) h :
  foldr (fun kv h => revoke_at h (ae_lease_state kv.2)) h l
  = revoke_all h ((fun kv => ae_lease_state kv.2) <$> l).
Proof. induction l as [|kv l IH]; simpl; [done|]. by rewrite IH. Qed.

Definition active_revoked r : N :=
  N.of_nat (length (List.filter (fun v => in_use (heap r) (rv_lease_state v)) (revoked r))).

(** The occurrences of a lease among the held ones. *)
Definition holders (held : list nat) (i : nat) : N := N.of_nat (count_occ Nat.eq_dec held i).

Record rinv (c : Config T) : Prop := mk_rinv {
  i_max : max_entries (cfg_registry c) <= usize_max;
  i_len : N.of_nat (length (cfg_held c)) <= usize_max;
  i_idx : forall id e, entries (cfg_registry c) !! id = Some e ->
            (ae_lease_state e < length (heap (cfg_registry c)))%nat;
  i_inj : forall a b e e', entries (cfg_registry c) !! a = Some e ->
            entries (cfg_registry c) !! b = Some e' -> ae_lease_state e = ae_lease_state e' -> a = b;
  i_rev : forall v, v ∈ revoked (cfg_registry c) ->
            (rv_lease_state v < length (heap (cfg_registry c)))%nat /\
            forall id e, entries (cfg_registry c) !! id = Some e ->
              ae_lease_state e <> rv_lease_state v;
  i_flag : forall id e, entries (cfg_registry c) !! id = Some e ->
            ls_revoked (state_of (heap (cfg_registry c)) (ae_lease_state e)) = false;
  i_count : forall i, ls_active (state_of (heap (cfg_registry c)) i) = holders (cfg_held c) i;
  i_held : forall i, i ∈ cfg_held c ->
            ls_cancelled (state_of (heap (cfg_registry c)) i) = true \/
            exists id e, entries (cfg_registry c) !! id = Some e /\ ae_lease_state e = i;
  i_cap : N.of_nat (size (entries (cfg_registry c))) + active_revoked (cfg_registry c)
            <= max_entries (cfg_registry c);
}.

Lemma holders_elem held i : i ∈ held -> 0 < holders held i.
Proof. intros H%list_elem_of_In. apply (count_occ_In Nat.eq_dec) in H. unfold holders. lia. Qed.

Lemma holders_oob c i : rinv c -> i ∈ cfg_held c -> (i < length (heap (cfg_registry c)))%nat.
Proof.
  intros Hc Hi. destruct (decide (i < length (heap (cfg_registry c)))%nat) as [|Hge]; [done|].
  apply holders_elem in Hi. rewrite <- (i_count _ Hc), state_of_oob in Hi; lia.
Qed.

Lemma active_revoked_ext r r' :
  revoked r' = revoked r ->
  (forall v, v ∈ revoked r -> in_use (heap r') (rv_lease_state v) = in_use (heap r) (rv_lease_state v)) ->
  active_revoked r' = active_revoked r.
Proof.
  intros E H. unfold active_revoked. rewrite E. do 2 f_equal. apply List.filter_ext_in.
  intros v Hv. apply H. by apply list_elem_of_In.
Qed.

Lemma filter_length_mono {A} (f g : A -> bool) l :
  (forall x, f x = true -> g x = true) -> (length (List.filter f l) <= length (List.filter g l))%nat.
Proof.
  intros H. induction l as [|x l IH]; simpl; [lia|]. specialize (H x).
  destruct (f x), (g x); simpl; lia || by discriminate H.
Qed.

Lemma filter_filter_same {A} (f : A -> bool) l : List.filter f (List.filter f l) = List.filter f l.
Proof.
  induction l as [|x l IH]; [done|]. simpl. destruct (f x) eqn:E; simpl; rewrite ?E, IH; done.
Qed.

(** What pruning does to the heap and to the entries. *)
Lemma prune_facts r held now :
  rinv (mkConfig r held) ->
  let r' := fst (prune_expired_at r now) in
  length (heap r') = length (heap r) /\ max_entries r' = max_entries r /\
  (forall j, ls_active (state_of (heap r') j) = ls_active (state_of (heap r) j)) /\
  (forall j, ls_cancelled (state_of (heap r) j) = true -> ls_cancelled (state_of (heap r') j) = true) /\
  (forall id e, entries r' !! id = Some e <-> entries r !! id = Some e /\ ~ expired r now e) /\
  (forall id e, entries r !! id = Some e -> expired r now e ->
     ls_cancelled (state_of (heap r') (ae_lease_state e)) = true) /\
  (forall id e, entries r' !! id = Some e ->
     state_of (heap r') (ae_lease_state e) = state_of (heap r) (ae_lease_state e)) /\
  revoked r' = List.filter (fun v => in_use (heap r') (rv_lease_state v)) (revoked r).
Proof.
  intros Hc r'. unfold r', prune_expired_at. simpl. rewrite foldr_revoke_all.
  set (G := (fun kv => ae_lease_state kv.2) <$> map_to_list (filter _ (entries r))).
  assert (HG : forall j, j ∈ G <-> exists id e, entries r !! id = Some e /\ expired r now e /\
                                      ae_lease_state e = j).
  { intros j. unfold G. rewrite list_elem_of_fmap. split.
    - intros ([id e] & -> & Hin). apply elem_of_map_to_list, map_lookup_filter_Some in Hin as [? ?].
      by exists id, e.
    - intros (id & e & ? & ? & <-). exists (id, e). split; [done|].
      by apply elem_of_map_to_list, map_lookup_filter_Some. }
  assert (Hall : Forall (fun i => (i < length (heap r))%nat) G).
  { apply Forall_forall. intros j (id & e & He & _ & <-)%HG. by apply (i_idx _ Hc id). }
  assert (Hst : forall j, state_of (revoke_all (heap r) G) j =
            if decide (j ∈ G) then revoke (state_of (heap r) j) else state_of (heap r) j)
    by (intros j; by apply revoke_all_state).
  split_and!.
  - by apply (revoke_all_state _ _ 0%nat).
  - done.
  - intros j. rewrite Hst. by destruct (decide _).
  - intros j Hj. rewrite Hst. by destruct (decide _).
  - intros id e. by rewrite map_lookup_filter_Some.
  - intros id e He Hx. rewrite Hst, decide_True; [done|]. apply HG. eauto.
  - intros id e [He Hx]%map_lookup_filter_Some. rewrite Hst, decide_False; [done|].
    intros (id' & e' & He' & Hx' & El)%HG. assert (id' = id) as -> by (by eapply (i_inj _ Hc)).
    simplify_eq. done.
  - done.
Qed.

Lemma prune_inv r held now :
  rinv (mkConfig r held) -> rinv (mkConfig (fst (prune_expired_at r now)) held).
Proof.
  intros Hc. destruct (prune_facts r held now Hc)
    as (Hlen & Hmax & Hact & Hcan & Hent & Hgone & Hkept & Hrev).
  set (r' := fst (prune_expired_at r now)) in *. clearbody r'. destruct Hc. constructor; simpl in *.
  - by rewrite Hmax.
  - done.
  - intros id e [He _]%Hent. rewrite Hlen. eauto.
  - intros a b e e' [He _]%Hent [He' _]%Hent. eauto.
  - intros v Hv. rewrite Hrev in Hv. apply list_elem_of_In, filter_In in Hv as [Hv%list_elem_of_In _].
    destruct (i_rev0 v Hv) as [Hl Hd]. rewrite Hlen. split; [done|].
    intros id e [He _]%Hent. eauto.
  - intros id e He. rewrite (Hkept _ _ He). apply Hent in He as [He _]. eauto.
  - intros i. by rewrite Hact.
  - intros i Hi. destruct (i_held0 i Hi) as [Hx|(id & e & He & <-)]; [left; by apply Hcan|].
    destruct (decide (expired r now e)) as [Hx|Hx]; [left; by eapply Hgone|].
    right. exists id, e. split; [|done]. by apply Hent.
  - rewrite Hmax. unfold active_revoked. rewrite Hrev, filter_filter_same.
    assert (Hsize : (size (entries r') <= size (entries r))%nat).
    { apply map_subseteq_size, map_subseteq_spec. intros id e [He _]%Hent. done. }
    assert (E : List.filter (fun v => in_use (heap r') (rv_lease_state v)) (revoked r)
              = List.filter (fun v => in_use (heap r) (rv_lease_state v)) (revoked r)).
    { apply List.filter_ext. intros v. unfold in_use. by rewrite Hact. }
    rewrite E. unfold active_revoked in i_cap0. lia.
Qed.

(** A heap change at the lease of an entry leaves the revoked ones as they are. *)
Lemma entry_not_revoked r held id e :
  rinv (mkConfig r held) -> entries r !! id = Some e ->
  forall v, v ∈ revoked r -> rv_lease_state v <> ae_lease_state e.
Proof. intros Hc He v Hv. destruct (i_rev _ Hc v Hv) as [_ H]. specialize (H id e He). congruence. Qed.

Lemma insert_inv r held id t key now :
  rinv (mkConfig r held) -> rinv (mkConfig (fst (insert_attachment r id t key now)) held).
Proof.
  intros Hc%(prune_inv _ _ now). unfold insert_attachment.
  set (r1 := fst (prune_expired_at r now)) in *. clearbody r1.
  destruct (entries r1 !! id) as [e0|] eqn:Ee; [done|].
  destruct (max_entries r1 <=? _) eqn:Em; [done|]. Nbool. destruct Hc; simpl in *.
  assert (Hold : forall id' e', <[id := mkEntry t key (length (heap r1))]> (entries r1) !! id' = Some e' ->
    (id' = id /\ ae_lease_state e' = length (heap r1)) \/ (id' <> id /\ entries r1 !! id' = Some e')).
  { intros id' e' H. apply lookup_insert_Some in H as [[<- <-]|[? ?]]; [by left|]. right. auto. }
  constructor; simpl.
  - done.
  - done.
  - intros id' e' [[-> ->]|[_ He]]%Hold; rewrite length_app; simpl; [lia|].
    specialize (i_idx0 _ _ He). lia.
  - intros a b e e' [[-> Ea]|[Ha Hea]]%Hold [[-> Eb]|[Hb Heb]]%Hold El; [done| | |by eapply i_inj0].
    + specialize (i_idx0 _ _ Heb). lia.
    + specialize (i_idx0 _ _ Hea). lia.
  - intros v Hv. destruct (i_rev0 v Hv) as [Hl Hd]. rewrite length_app; simpl. split; [lia|].
    intros id' e' [[-> ->]|[_ He]]%Hold; [lia|eauto].
  - intros id' e' [[-> ->]|[_ He]]%Hold.
    + unfold state_of. by rewrite lookup_app_r, Nat.sub_diag by lia.
    + rewrite state_of_app by eauto. eauto.
  - intros i. destruct (decide (i < length (heap r1))%nat) as [Hi|Hi].
    + by rewrite state_of_app.
    + rewrite <- i_count0, (state_of_oob (heap r1)) by lia. unfold state_of.
      destruct (decide (i = length (heap r1))) as [->|].
      * by rewrite lookup_app_r, Nat.sub_diag by lia.
      * rewrite lookup_ge_None_2; [done|]. rewrite length_app; simpl. lia.
  - intros i Hi. assert (Hlt : (i < length (heap r1))%nat).
    { apply (holders_oob (mkConfig r1 held)); [|done]. by constructor. }
    rewrite state_of_app by done. destruct (i_held0 i Hi) as [?|(id' & e' & He & <-)]; [by left|right].
    exists id', e'. rewrite lookup_insert_ne by congruence. done.
  - rewrite (active_revoked_ext r1); [|done|].
    + rewrite map_size_insert_None by done. unfold active_revoked. unfold sat_add in Em. lia.
    + intros v Hv. unfold in_use. simpl. rewrite state_of_app; [done|]. by apply i_rev0.
Qed.

Lemma holders_le held i : holders held i <= N.of_nat (length held).
Proof. unfold holders. pose proof (count_occ_bound Nat.eq_dec i held). lia. Qed.

Lemma holders_middle h1 i h2 j :
  holders (h1 ++ i :: h2) j = holders (h1 ++ h2) j + (if decide (i = j) then 1 else 0).
Proof.
  unfold holders. rewrite !count_occ_app. simpl. destruct (Nat.eq_dec i j), (decide (i = j)); lia.
Qed.

Lemma attach_inv r held id now r' t i :
  N.of_nat (length held) < usize_max -> rinv (mkConfig r held) ->
  attachment r id now = (r', Some (t, i)) -> rinv (mkConfig r' (i :: held)).
Proof.
  intros Hlen Hc%(prune_inv _ _ now) H. unfold attachment in H.
  set (r1 := fst (prune_expired_at r now)) in *. clearbody r1.
  destruct (entries r1 !! id) as [e|] eqn:Ee; [|done]. unfold acquire in H.
  pose proof (i_flag _ Hc _ _ Ee) as Hf. simpl in Hf. rewrite Hf in H. simplify_eq.
  pose proof (i_idx _ Hc _ _ Ee) as Hi. pose proof (entry_not_revoked _ _ _ _ Hc Ee) as Hnr.
  destruct Hc; simpl in *. constructor; simpl.
  - done.
  - lia.
  - intros id' e' He. rewrite length_insert. eauto.
  - eauto.
  - intros v Hv. rewrite length_insert. eauto.
  - intros id' e' He. rewrite state_of_insert by done. destruct (decide _); [done|eauto].
  - intros j. rewrite state_of_insert by done. pose proof (holders_middle [] (ae_lease_state e) held j) as Hm. simpl in Hm. rewrite Hm.
    destruct (decide (ae_lease_state e = j)) as [<-|]; simpl; [|rewrite i_count0; lia].
    rewrite i_count0. apply sat_add_exact. pose proof (holders_le held (ae_lease_state e)). lia.
  - intros j [->|Hj]%elem_of_cons; [right; eauto|]. rewrite state_of_insert by done.
    destruct (i_held0 j Hj) as [Hx|Hx]; [|by right].
    destruct (decide _) as [<-|]; [right; eauto|by left].
  - rewrite (active_revoked_ext r1); [done|done|]. intros v Hv. unfold in_use. simpl.
    rewrite state_of_insert, decide_False by (done || apply not_eq_sym; eauto). done.
Qed.

Lemma attach_none_inv r held id now r' :
  rinv (mkConfig r held) -> attachment r id now = (r', None) -> rinv (mkConfig r' held).
Proof.
  intros Hc%(prune_inv _ _ now) H. unfold attachment in H.
  destruct (entries _ !! id); [|by simplify_eq]. destruct (acquire _); by simplify_eq.
Qed.

Lemma detach_inv r held id : rinv (mkConfig r held) -> rinv (mkConfig (fst (detach_attachment r id)) held).
Proof.
  intros Hc. unfold detach_attachment. destruct (entries r !! id) as [e|] eqn:Ee; [|done].
  pose proof (i_idx _ Hc _ _ Ee) as Hi. pose proof (entry_not_revoked _ _ _ _ Hc Ee) as Hnr.
  destruct Hc; simpl in *. unfold revoke_at.
  assert (Hother : forall id' e', delete id (entries r) !! id' = Some e' ->
    entries r !! id' = Some e' /\ ae_lease_state e' <> ae_lease_state e).
  { intros id' e' [Hne He]%lookup_delete_Some. split; [done|]. intros E. apply Hne. symmetry.
    by eapply i_inj0. }
  constructor; simpl.
  - done.
  - done.
  - intros id' e' [He _]%Hother. rewrite length_alter. eauto.
  - intros a b e1 e2 [H1 _]%Hother [H2 _]%Hother. eauto.
  - intros v [Hv|Hv%list_elem_of_singleton]%elem_of_app; rewrite length_alter; [|subst v].
    + destruct (i_rev0 v Hv) as [? Hd]. split; [done|]. intros id' e' [He _]%Hother. eauto.
    + simpl. split; [done|]. by intros id' e' [_ Hne]%Hother.
  - intros id' e' [He Hne]%Hother. rewrite state_of_alter, decide_False by done. eauto.
  - intros j. rewrite state_of_alter by done. rewrite <- i_count0. by destruct (decide _).
  - intros j Hj. rewrite state_of_alter by done. destruct (decide (ae_lease_state e = j)) as [<-|Hne].
    { by left. }
    destruct (i_held0 j Hj) as [?|(id' & e' & He & <-)]; [by left|right]. exists id', e'.
    split; [|done]. apply lookup_delete_Some. split; [|done]. intros <-. by simplify_eq.
  - assert (Hs : (size (entries r) = S (size (delete id (entries r))))%nat).
    { rewrite <- (insert_delete_id (entries r) id e) at 1 by done.
      apply map_size_insert_None, lookup_delete_eq. }
    assert (Ha : active_revoked (mkRegistry (delete id (entries r))
        (revoked r ++ [mkRevoked (ae_runtime_key e) (ae_lease_state e)]) (max_entries r) (idle_ttl r)
        (alter revoke (ae_lease_state e) (heap r))) <= active_revoked r + 1).
    { unfold active_revoked. simpl. rewrite List.filter_app, length_app.
      assert (E : forall l, (forall v, v ∈ l -> v ∈ revoked r) ->
        List.filter (fun v => in_use (alter revoke (ae_lease_state e) (heap r)) (rv_lease_state v)) l
        = List.filter (fun v => in_use (heap r) (rv_lease_state v)) l).
      { intros l Hl. apply List.filter_ext_in. intros v Hv. unfold in_use.
        rewrite state_of_alter, decide_False; [done| |done]. intros E. symmetry in E. revert E.
        apply Hnr, Hl. by apply list_elem_of_In. }
      rewrite E by done. simpl. destruct (in_use _ _); simpl; lia. }
    lia.
Qed.

Lemma drop_inv r h1 i h2 now :
  rinv (mkConfig r (h1 ++ i :: h2)) -> rinv (mkConfig (drop_lease r i now) (h1 ++ h2)).
Proof.
  intros Hc. assert (Hin : i ∈ h1 ++ i :: h2) by (apply elem_of_app; right; apply list_elem_of_here).
  pose proof (holders_oob _ i Hc Hin) as Hi. destruct Hc; simpl in *. constructor; simpl.
  - done.
  - rewrite length_app in *. simpl in *. lia.
  - intros id' e' He. rewrite length_alter. eauto.
  - eauto.
  - intros v Hv. rewrite length_alter. eauto.
  - intros id' e' He. rewrite state_of_alter by done. specialize (i_flag0 _ _ He).
    by destruct (decide _).
  - intros j. rewrite state_of_alter by done. specialize (i_count0 j). rewrite holders_middle in i_count0.
    destruct (decide (i = j)); simpl; lia.
  - intros j Hj. assert (Hj' : j ∈ h1 ++ i :: h2).
    { apply elem_of_app in Hj as [?|?]; apply elem_of_app; [by left|right; by apply list_elem_of_further]. }
    rewrite state_of_alter by done. destruct (i_held0 j Hj') as [?|?]; [left|by right].
    by destruct (decide _).
  - etrans; [|exact i_cap0]. apply N.add_le_mono_l. unfold active_revoked. simpl.
    assert (Hle : (length (List.filter (fun v => in_use (alter (fun s => release s now) i (heap r))
                                                 (rv_lease_state v)) (revoked r))
                  <= length (List.filter (fun v => in_use (heap r) (rv_lease_state v)) (revoked r)))%nat);
      [|lia].
    apply filter_length_mono. intros v. unfold in_use. rewrite state_of_alter by done.
    destruct (decide _) as [<-|]; [|done]. simpl. rewrite !N.ltb_lt. lia.
Qed.

Lemma reachable_inv (c : Config T) : RReachable c -> rinv c.
Proof.
  induction 1 as [max ttl Hmax|c c' Hc IH Hstep].
  - constructor; simpl.
    + apply N.max_lub; [done|]. by vm_compute.
    + apply N.le_0_l.
    + intros id e He. by rewrite lookup_empty in He.
    + intros a b e e' He. by rewrite lookup_empty in He.
    + intros v Hv. by apply not_elem_of_nil in Hv.
    + intros id e He. by rewrite lookup_empty in He.
    + intros i. done.
    + intros i Hi. by apply not_elem_of_nil in Hi.
    + rewrite map_size_empty. unfold active_revoked; simpl. lia.
  - destruct Hstep; [by apply insert_inv|by eapply attach_inv|by eapply attach_none_inv
      |by apply detach_inv|by apply prune_inv|by apply drop_inv].
Qed.

(** The registry is bounded and its leases are accounted for. In every
    reachable configuration the entries together with the detached attachments still
    in use never exceed the configured capacity; each lease state counts exactly the
    leases held on it; an attachment with a held lease survives every pruning; and a
    held lease whose attachment is gone has been told so by its cancellation token. *)
Theorem attachments_bounded_and_accounted (c : Config T) :
  RReachable c ->
  let r := cfg_registry c in
  N.of_nat (size (entries r)) + active_revoked r <= max_entries r /\
  (forall i, ls_active (state_of (heap r) i) = holders (cfg_held c) i) /\
  (forall id e now, entries r !! id = Some e -> ae_lease_state e ∈ cfg_held c ->
     entries (fst (prune_expired_at r now)) !! id = Some e) /\
  (forall i, i ∈ cfg_held c ->
     (forall id e, entries r !! id = Some e -> ae_lease_state e <> i) ->
     ls_cancelled (state_of (heap r) i) = true).
Proof.
  intros Hc%reachable_inv r. destruct c as [r0 held]. simpl in *. subst r.
  split_and!; [apply (i_cap _ Hc)|apply (i_count _ Hc)| |].
  - intros id e now He Hi. destruct (prune_facts r0 held now Hc) as (_ & _ & _ & _ & Hent & _).
    apply Hent. split; [done|]. unfold expired, idle_expired_at.
    rewrite (i_count _ Hc). simpl. apply holders_elem in Hi.
    destruct (holders held _ =? 0) eqn:E; [Nbool; lia|done].
  - intros i Hi Hno. destruct (i_held _ Hc i Hi) as [?|(id & e & He & Hl)]; [done|].
    by destruct (Hno id e He).
Qed.
End RegistryProofs.

Definition demo_r1 : AttachmentRegistry unit :=
  fst (insert_attachment (registry_new 1 1000) "a" tt "ws" 0).
Definition demo_r2 : AttachmentRegistry unit := fst (attachment demo_r1 "a" 5).
Definition demo_ops : Config unit := mkConfig (fst (detach_attachment demo_r2 "a")) [0%nat].

Lemma demo_attach : attachment demo_r1 "a" 5 = (demo_r2, Some (tt, 0%nat)).
Proof. vm_compute. reflexivity. Qed.

Lemma demo_ops_reachable : RReachable demo_ops.
Proof.
  apply (RNext (mkConfig demo_r2 [0%nat])); [|apply RDetach].
  apply (RNext (mkConfig demo_r1 [])); [|exact (RAttach _ [] "a" 5 _ tt 0 eq_refl demo_attach)].
  apply (RNext (mkConfig (registry_new 1 1000) [])); [|apply RInsert].
  apply RInit. by vm_compute.
Qed.

(** A detached attachment that is still in use occupies the last slot. *)
Lemma attachments_bounded_and_accounted_witness :
  ls_active (state_of (heap (cfg_registry demo_ops)) 0) = 1 /\
  ls_cancelled (state_of (heap (cfg_registry demo_ops)) 0) = true /\
  snd (insert_attachment (cfg_registry demo_ops) "b" tt "ws" 6)
    = Err AttachmentInsertError.Capacity.
Proof.
  destruct (attachments_bounded_and_accounted demo_ops demo_ops_reachable) as (_ & H1 & _ & H2).
  split; [exact (H1 0%nat)|]. split; [|vm_compute; reflexivity].
  apply H2; [apply list_elem_of_here|]. intros id e He. vm_compute in He. discriminate He.
Defined.

(** ** Acquire against revoke, step by step

    Every thread runs [acquire] on one lease state: load the flag, count itself, load
    the flag again, and either hold the lease or undo the count. A revoker stores the
    flag and cancels the token. All steps interleave. *)
Inductive Pc := Start | Loaded | Counted | Holding | Undoing | Refused | Dropped.
#[global] Instance Pc_eq_dec : EqDecision Pc.
Proof. solve_decision. Defined.

Record Race := mkRace { rc_lease : LeaseState; rc_threads : list Pc }.

(*@ app-server/src/attachment_registry.rs:89-109 AttachmentLeaseState::acquire *)
Inductive race_step : Race -> Race -> Prop :=
| load_clear l ts i : ts !! i = Some Start -> ls_revoked l = false ->
    race_step (mkRace l ts) (mkRace l (<[i := Loaded]> ts))
| load_set l ts i : ts !! i = Some Start -> ls_revoked l = true ->
    race_step (mkRace l ts) (mkRace l (<[i := Refused]> ts))
| count_in l ts i : ts !! i = Some Loaded ->
    race_step (mkRace l ts)
      (mkRace (mkLeaseState (sat_add usize_max (ls_active l) 1) (ls_idle_since l) (ls_revoked l)
                 (ls_cancelled l)) (<[i := Counted]> ts))
| recheck_clear l ts i : ts !! i = Some Counted -> ls_revoked l = false ->
    race_step (mkRace l ts) (mkRace l (<[i := Holding]> ts))
| recheck_set l ts i : ts !! i = Some Counted -> ls_revoked l = true ->
    race_step (mkRace l ts) (mkRace l (<[i := Undoing]> ts))
| undo l ts i now : ts !! i = Some Undoing ->
    race_step (mkRace l ts) (mkRace (release l now) (<[i := Refused]> ts))
| drop_held l ts i now : ts !! i = Some Holding ->
    race_step (mkRace l ts) (mkRace (release l now) (<[i := Dropped]> ts))
| store_revoked l ts :
    race_step (mkRace l ts)
      (mkRace (mkLeaseState (ls_active l) (ls_idle_since l) true (ls_cancelled l)) ts)
| cancel_token l ts : ls_revoked l = true ->
    race_step (mkRace l ts)
      (mkRace (mkLeaseState (ls_active l) (ls_idle_since l) (ls_revoked l) true) ts).

Definition counted (p : Pc) : N := match p with Counted | Holding | Undoing => 1 | _ => 0 end.
Fixpoint count_pcs (ts : list Pc) : N :=
  match ts with [] => 0 | p :: ts' => counted p + count_pcs ts' end.

Lemma count_pcs_insert ts i p q :
  ts !! i = Some p -> count_pcs (<[i := q]> ts) + counted p = count_pcs ts + counted q.
Proof.
  revert i. induction ts as [|x ts IH]; intros [|i] H; simplify_eq/=; [lia|].
  specialize (IH i H). lia.
Qed.

Lemma count_pcs_le ts : count_pcs ts <= N.of_nat (length ts).
Proof. induction ts as [|p ts IH]; simpl; [lia|]. destruct p; simpl; lia. Qed.

Definition race_inv (r : Race) : Prop :=
  N.of_nat (length (rc_threads r)) <= usize_max /\
  ls_active (rc_lease r) = count_pcs (rc_threads r).

Lemma race_inv_step r r' : race_inv r -> race_step r r' -> race_inv r'.
Proof.
  intros [Hl Hc] Hs. unfold race_inv in *.
  destruct Hs; simpl in *; rewrite ?length_insert;
    repeat match goal with
    | |- context [count_pcs (<[?i := ?q]> ?ts)] =>
        match goal with
        | H : ts !! i = Some ?p |- _ =>
            pose proof (count_pcs_insert ts i p q H); pose proof (count_pcs_le (<[i := q]> ts));
            rewrite length_insert in *; generalize dependent (count_pcs (<[i := q]> ts)); intros
        end
    end; simpl in *; split; try done; try lia.
  rewrite sat_add_exact; lia.
Qed.

(** Revocation is final under every interleaving. Start from a fresh
    lease state with any number of threads about to acquire it, and run acquires, a
    revocation and releases step by step in any order. The counter always equals the
    number of threads that counted themselves and have not released, so it is zero
    once they have; and once the flag is stored no thread ever obtains a lease it did
    not already hold. *)
Theorem revocation_is_final n now r r' :
  N.of_nat n <= usize_max ->
  rtc race_step (mkRace (lease_state_new now) (replicate n Start)) r ->
  ls_active (rc_lease r) = count_pcs (rc_threads r) /\
  (ls_revoked (rc_lease r) = true -> rtc race_step r r' ->
     ls_revoked (rc_lease r') = true /\
     forall i, rc_threads r' !! i = Some Holding -> rc_threads r !! i = Some Holding).
Proof.
  intros Hn Hr.
  assert (Hinv : race_inv r).
  { assert (Hi : race_inv (mkRace (lease_state_new now) (replicate n Start))).
    { split; simpl; [by rewrite length_replicate|]. clear. induction n as [|n IH]; [done|]. exact IH. }
    clear Hn. induction Hr as [|x y z Hxy _ IH]; [done|]. apply IH. by eapply race_inv_step. }
  split; [apply Hinv|]. intros Hrev Hs. clear Hr Hinv Hn.
  induction Hs as [|x y z Hxy _ IH]; [done|].
  assert (Hstep : ls_revoked (rc_lease y) = true /\
    forall i, rc_threads y !! i = Some Holding -> rc_threads x !! i = Some Holding).
  { destruct Hxy; simpl in *; (split; [congruence || done|]); try done;
      intros j Hj; try congruence;
      (destruct (decide (i = j)) as [->|Hne];
       [rewrite list_lookup_insert_eq in Hj by (by eapply lookup_lt_Some); done
       |by rewrite list_lookup_insert_ne in Hj]). }
  destruct Hstep as [Hy Hh]. destruct (IH Hy) as [Hz Hzh]. split; [done|]. intros i Hi. auto.
Qed.

Lemma revocation_is_final_witness :
  let r1 := mkRace (mkLeaseState 1 0 true false) [Counted; Start] in
  let r2 := mkRace (mkLeaseState 1 0 true false) [Undoing; Start] in
  ls_active (rc_lease r1) = count_pcs (rc_threads r1) /\
  forall i, rc_threads r2 !! i = Some Holding -> rc_threads r1 !! i = Some Holding.
Proof.
  intros r1 r2.
  destruct (revocation_is_final 2 0 r1 r2) as [H1 H2]; [by vm_compute| |].
  - eapply rtc_l; [apply (load_clear _ _ 0); reflexivity|].
    eapply rtc_l; [apply (count_in _ _ 0); reflexivity|].
    eapply rtc_l; [apply store_revoked|]. apply rtc_refl.
  - split; [exact H1|]. apply H2; [reflexivity|].
    eapply rtc_l; [apply (recheck_set _ _ 0); reflexivity|]. apply rtc_refl.
Defined.
