(* ===== verification/Memory.v ===== *)
(** * Project memory

    [golutra-agent-memory/src/lib.rs]: facts a task has learnt are proposed, pass a gate,
    wait in quarantine, become active once a second task or a person vouches for them, and
    are retrieved by the words of a query until they expire or are taken back. This file
    holds the records, the gate and the change each operation makes to the records;
    [MemoryFiles] the store that keeps them in a file, and retrieval.

    Times are nanoseconds, ids numbers. The Unicode tables, the reader of RFC 3339 dates
    and the text of an id are arguments. *)
From stdpp Require Import gmap.
From S2P Require Import Prelude RustStr Core Regex.
Open Scope N_scope. Open Scope rust_scope.

Abbreviation MemoryId := N (only parsing).
Abbreviation MemoryCandidateId := N (only parsing).
Abbreviation DateTime := Z (only parsing).

(*@ memory/src/lib.rs MAX_MEMORY_CONTENT_BYTES *)
Definition MAX_MEMORY_CONTENT_BYTES : N := 64 * 1024.
(*@ memory/src/lib.rs MAX_MEMORY_STATE_BYTES *)
Definition MAX_MEMORY_STATE_BYTES : N := 32 * 1024 * 1024.

(** ** Data *)

Module MemoryScope.
(*@ memory/src/lib.rs MemoryScope *)
Inductive MemoryScope := Project | User | Global.
#[global] Instance MemoryScope_eq_dec : EqDecision MemoryScope.
Proof. solve_decision. Defined.

(** The name of a scope as [{:?}] prints it, in lower case. *)
Definition name (s : MemoryScope) : string :=
  match s with Project => "project" | User => "user" | Global => "global" end.
End MemoryScope.
Abbreviation MemoryScope := MemoryScope.MemoryScope.

Module MemoryFeedbackKind.
(*@ memory/src/lib.rs MemoryFeedbackKind *)
Inductive MemoryFeedbackKind := Helpful | Irrelevant | Incorrect.
End MemoryFeedbackKind.
Abbreviation MemoryFeedbackKind := MemoryFeedbackKind.MemoryFeedbackKind.

Module MemoryStatus.
(*@ memory/src/lib.rs MemoryStatus *)
Inductive MemoryStatus := Proposed | Quarantined | Active | Deprecated | RolledBack | Expired.
#[global] Instance MemoryStatus_eq_dec : EqDecision MemoryStatus.
Proof. solve_decision. Defined.
End MemoryStatus.
Abbreviation MemoryStatus := MemoryStatus.MemoryStatus.

(*@ core/src/governance.rs MemoryClaim *)
Record MemoryClaim := mkMemoryClaim {
  cl_candidate_id : MemoryCandidateId; cl_subject : string; cl_predicate : string;
  cl_object : string; cl_scope : string; cl_source_task_refs : list TaskId;
  cl_evidence_refs : list EvidenceId; cl_confidence : N; cl_valid_from : DateTime;
  cl_expires_at : option DateTime; cl_invalidation_refs : list string }.
#[global] Instance MemoryClaim_eq_dec : EqDecision MemoryClaim.
Proof. solve_decision. Defined.

(*@ memory/src/lib.rs MemoryCandidate *)
Record MemoryCandidate := mkMemoryCandidate {
  mc_claim : option MemoryClaim; mc_source_task_id : TaskId; mc_evidence_ids : list EvidenceId;
  mc_proposed_scope : MemoryScope; mc_confidence : N; mc_contradiction_ids : list string;
  mc_expiry : option string; mc_promotion_status : string }.

(*@ memory/src/lib.rs MemoryRecord *)
Record MemoryRecord := mkMemoryRecord {
  memory_id : MemoryId; content : string; scope : MemoryScope; confidence : N;
  source_task_id : TaskId; evidence_ids : list EvidenceId; contradiction_ids : list string;
  created_at : DateTime; expires_at : option DateTime; version : N; status : MemoryStatus;
  rollback_reason : option string; supporting_task_ids : list TaskId;
  invalidation_refs : list string; claim : option MemoryClaim;
  promotion_reviewer : option string; helpful_count : N; irrelevant_count : N;
  incorrect_count : N; access_count : N; last_accessed_at : option DateTime }.
#[global] Instance MemoryRecord_eq_dec : EqDecision MemoryRecord.
Proof. solve_decision. Defined.

(** The assignments to the fields of a record that the operations make. *)
Definition with_status (st : MemoryStatus) (refs : list string) (reason : option string)
    (r : MemoryRecord) : MemoryRecord :=
  let '(mkMemoryRecord i c s k t e x ca ea v _ _ su _ cl p h ir ic ac la) := r in
  mkMemoryRecord i c s k t e x ca ea v st reason su refs cl p h ir ic ac la.
Definition with_support (tasks : list TaskId) (reviewer : option string) (r : MemoryRecord)
    : MemoryRecord :=
  let '(mkMemoryRecord i c s k t e x ca ea v st rr _ iv cl _ h ir ic ac la) := r in
  mkMemoryRecord i c s k t e x ca ea v st rr tasks iv cl reviewer h ir ic ac la.
Definition with_counts (h ir ic : N) (r : MemoryRecord) : MemoryRecord :=
  let '(mkMemoryRecord i c s k t e x ca ea v st rr su iv cl p _ _ _ ac la) := r in
  mkMemoryRecord i c s k t e x ca ea v st rr su iv cl p h ir ic ac la.

(*@ memory/src/lib.rs RetrievedMemory *)
Record RetrievedMemory := mkRetrievedMemory {
  rm_record : MemoryRecord; rm_relevance_score : N; rm_matched_terms : list string;
  rm_reason : string }.

(*@ memory/src/lib.rs ScoredMemory *)
Record ScoredMemory := mkScoredMemory {
  sm_index : nat; sm_relevance_score : N; sm_matched_terms : list string }.

Module MemoryPromotionDecisionKind.
(*@ memory/src/lib.rs MemoryPromotionDecisionKind *)
Inductive MemoryPromotionDecisionKind := Approve | Reject | NeedsHumanReview.
#[global] Instance MemoryPromotionDecisionKind_eq_dec : EqDecision MemoryPromotionDecisionKind.
Proof. solve_decision. Defined.
End MemoryPromotionDecisionKind.
Abbreviation MemoryPromotionDecisionKind := MemoryPromotionDecisionKind.MemoryPromotionDecisionKind.

(*@ memory/src/lib.rs MemoryPromotionDecision *)
Record MemoryPromotionDecision := mkMemoryPromotionDecision {
  mpd_decision : MemoryPromotionDecisionKind; mpd_reason : string; mpd_reviewer : option string }.

Module MemoryError.
(*@ memory/src/lib.rs MemoryError *)
Inductive MemoryError :=
| Io (message : string)
| Json (message : string)
| LockPoisoned
| PromotionRejected (reason : string)
| NotFound (memory : MemoryId)
| Limit (message : string).
End MemoryError.
Abbreviation MemoryError := MemoryError.MemoryError.

(** ** Secrets *)

(** A letter of a [(?i)] pattern. Besides both cases it matches the long s and the Kelvin
    sign, which fold to [s] and [k]. *)
Definition letter_ci (a : N) (c : N) : bool :=
  (c =? a) || (is_ascii_alphabetic a && (c + 32 =? a))
  || ((a =? 115) && (c =? 383)) || ((a =? 107) && (c =? 8490)).
Fixpoint lit_ci (s : string) : regex :=
  match s with
  | EmptyString => REps
  | String a s' => RSeq (RClass (letter_ci (byte_of a))) (lit_ci s')
  end.
Definition quote_mark : regex := RClass (fun c => (c =? 34) || (c =? 39)).
Fixpoint times (n : nat) (r : regex) : regex :=
  match n with O => REps | S n' => RSeq r (times n' r) end.

(*@ memory/src/lib.rs:1044-1049 LABELED_SECRET *)
Definition LABELED_SECRET : regex :=
  let dash := opt (set_of "_-") in
  let value := RClass (fun c => negb (is_whitespace c) && negb (existsb (N.eqb c) [44; 59; 34; 39])) in
  all_of
    [one_of [all_of [lit_ci "api"; dash; lit_ci "key"]; all_of [lit_ci "access"; dash; lit_ci "token"];
       lit_ci "token"; lit_ci "secret"; lit_ci "password"; lit_ci "authorization"];
     opt quote_mark; RStar space; set_of ":="; RStar space; opt quote_mark;
     opt (RSeq (lit_ci "bearer") (plus space)); times 8 value; RStar value].

Fixpoint take_while {A} (f : A -> bool) (l : list A) : list A :=
  match l with
  | [] => []
  | c :: l' => if f c then c :: take_while f l' else []
  end.

(** [lower.match_indices(prefix)] with the text from each match on. No prefix overlaps
    itself, so each of its occurrences is a match. *)
Fixpoint secret_after (prefix value : string) : bool :=
  (starts_with prefix (to_ascii_lowercase value)
     && (12 <=? N.of_nat (length (take_while
           (fun c => is_ascii_alphanumeric c || (c =? 45) || (c =? 95)) (chars value)))))
  || match value with EmptyString => false | String _ rest => secret_after prefix rest end.

(*@ memory/src/lib.rs contains_secret *)
Definition contains_secret (value : string) : bool :=
  is_match (fun _ => false) LABELED_SECRET value
  || existsb (fun prefix => secret_after prefix value)
       ["sk-"; "ghp_"; "github_pat_"; "xoxb-"; "xoxp-"].

(** ** The gate *)

(*@ memory/src/lib.rs MemoryPromotionGate *)
Record MemoryPromotionGate := mkMemoryPromotionGate { minimum_confidence : N }.

(*@ memory/src/lib.rs Default::default for MemoryPromotionGate *)
Definition default_gate : MemoryPromotionGate := mkMemoryPromotionGate 75.

Section Gate.
Import MemoryPromotionDecisionKind.

(*@ memory/src/lib.rs:161-175 MemoryPromotionGate::evaluate *)
Definition rejection (g : MemoryPromotionGate) (c : MemoryCandidate) (text : string)
    : option string :=
  if bool_decide (mc_evidence_ids c = []) then Some "memory candidate has no durable evidence"
  else if mc_confidence c <? minimum_confidence g
  then Some "memory candidate confidence is below the promotion threshold"
  else if negb (bool_decide (mc_contradiction_ids c = []))
  then Some "memory candidate has unresolved contradictions"
  else if trim_is_empty text then Some "memory candidate content is empty"
  else if MAX_MEMORY_CONTENT_BYTES <? str_len text
  then Some "memory candidate content exceeds the promotion limit"
  else if contains_secret text then Some "memory candidate may contain a secret"
  else None.

(*@ memory/src/lib.rs MemoryPromotionGate::evaluate *)
Definition evaluate (g : MemoryPromotionGate) (c : MemoryCandidate) (text : string)
    : MemoryPromotionDecision :=
  match rejection g c text with
  | Some reason => mkMemoryPromotionDecision Reject reason None
  | None =>
      if negb (bool_decide (mc_proposed_scope c = MemoryScope.Project))
      then mkMemoryPromotionDecision NeedsHumanReview
             "user/global memory requires explicit human review" None
      else mkMemoryPromotionDecision Approve
             "evidence-backed project memory passed the promotion gate" (Some "system")
  end.
End Gate.

(** ** The life of a record *)

Section Records.
Context (is_alphanumeric : N -> bool) (to_lowercase : string -> string).
Context (id_to_string : N -> string).
Context (parse_rfc3339 : string -> result string DateTime).
Import MemoryStatus.

Definition days (n : Z) : Z := n * 86400000000000.

(*@ memory/src/lib.rs terms *)
Definition terms (value : string) : gset string :=
  list_to_set (List.filter (fun t => 2 <=? char_count t)
    (to_lowercase <$>
       split_chars (fun c => negb (is_alphanumeric c) && negb (c =? 95) && negb (c =? 45)) value)).

(*@ memory/src/lib.rs normalize_content *)
Definition normalize_content (value : string) : string :=
  to_lowercase (join " " (split_whitespace value)).

(*@ memory/src/lib.rs is_legacy_automatic_memory *)
Definition is_legacy_automatic_memory (r : MemoryRecord) : bool :=
  bool_decide (status r = Active)
  && bool_decide (scope r = MemoryScope.Project)
  && bool_decide (claim r = None)
  && bool_decide (supporting_task_ids r = [])
  && is_none_or (fun reviewer => bool_decide (reviewer = "system")) (promotion_reviewer r).

Definition legacy_note : string :=
  "legacy single-task project memory requires independent evidence or review".

Definition migrate (r : MemoryRecord) : MemoryRecord :=
  if is_legacy_automatic_memory r
  then with_status Quarantined (invalidation_refs r ++ [legacy_note]) (rollback_reason r) r else r.

(*@ memory/src/lib.rs migrate_legacy_active_memory *)
Definition migrate_legacy_active_memory (records : list MemoryRecord) : bool * list MemoryRecord :=
  (existsb is_legacy_automatic_memory records, migrate <$> records).

Definition is_expired (now : DateTime) (r : MemoryRecord) : bool :=
  is_some_and (fun e => (e <=? now)%Z) (expires_at r).

Definition expire_at (now : DateTime) (r : MemoryRecord) : MemoryRecord :=
  if bool_decide (status r = Active) && is_expired now r
  then with_status Expired (invalidation_refs r ++ ["memory expiry reached"]) (rollback_reason r) r
  else r.

(*@ memory/src/lib.rs mark_expired *)
Definition mark_expired (now : DateTime) (records : list MemoryRecord) : bool * list MemoryRecord :=
  (existsb (fun r => bool_decide (status r = Active) && is_expired now r) records,
   expire_at now <$> records).

(*@ memory/src/lib.rs next_memory_version *)
Definition next_memory_version (records : list MemoryRecord) : N :=
  foldr N.max 0 (version <$> records) +|64 1.

(*@ memory/src/lib.rs candidate_expiry *)
Definition candidate_expiry (c : MemoryCandidate) (now : DateTime)
    : result MemoryError (option DateTime) :=
  let fallback :=
    if bool_decide (mc_proposed_scope c = MemoryScope.Project) then Some (now + days 30)%Z else None in
  match mc_expiry c with
  | None => Ok fallback
  | Some text => match parse_rfc3339 text with
                 | Ok t => Ok (Some t)
                 | Err e => Err (MemoryError.Io e)
                 end
  end.

(** The share of words two texts have in common, of all their words, in percent. *)
Definition overlap (a b : gset string) : bool :=
  let union := N.of_nat (size (a ∪ b)) in
  (0 <? union) && (80 <=? N.of_nat (size (a ∩ b)) *|64 100 / union).

Definition contradicts (now : DateTime) (text : string) (sc : MemoryScope) (r : MemoryRecord)
    : bool :=
  bool_decide (status r = Active) && bool_decide (scope r = sc)
  && is_none_or (fun e => (now <? e)%Z) (expires_at r)
  && negb (bool_decide (normalize_content (content r) = normalize_content text))
  && overlap (terms text) (terms (content r)).

(*@ memory/src/lib.rs contradiction_ids_from_records *)
Definition contradiction_ids_from_records (now : DateTime) (records : list MemoryRecord)
    (text : string) (sc : MemoryScope) : list string :=
  if bool_decide (terms text = ∅) then []
  else (fun r => id_to_string (memory_id r)) <$> List.filter (contradicts now text sc) records.

(** What an operation takes from outside: the clock when [mark_expired], the search for
    contradictions and the operation itself read it, and fresh ids. *)
Record Clock := mkClock { at_mark : DateTime; at_compare : DateTime; at_now : DateTime }.

(*@ memory/src/lib.rs:299-308 MemoryStore::quarantine *)
Definition checked_candidate (k : Clock) (records : list MemoryRecord) (c : MemoryCandidate)
    (text : string) : MemoryCandidate :=
  let found := contradiction_ids_from_records (at_compare k) records text (mc_proposed_scope c) in
  mkMemoryCandidate (mc_claim c) (mc_source_task_id c) (mc_evidence_ids c) (mc_proposed_scope c)
    (mc_confidence c) (dedup (sort_strings (mc_contradiction_ids c ++ found))) (mc_expiry c)
    (mc_promotion_status c).

(*@ memory/src/lib.rs:314-337 MemoryStore::quarantine *)
Definition claim_of (k : Clock) (fresh : MemoryCandidateId) (c : MemoryCandidate) (text : string)
    : MemoryClaim :=
  match mc_claim c with
  | Some cl => cl
  | None =>
      let sc := MemoryScope.name (mc_proposed_scope c) in
      mkMemoryClaim fresh ("scope:" +:+ sc) "verified_task_outcome" (normalize_content text) sc
        [mc_source_task_id c] (mc_evidence_ids c) (mc_confidence c) (at_now k)
        (t ← mc_expiry c; match parse_rfc3339 t with Ok d => Some d | Err _ => None end) []
  end.

(*@ memory/src/lib.rs:339-361 MemoryStore::quarantine *)
Definition quarantined_record (k : Clock) (fresh : MemoryId * MemoryCandidateId)
    (records : list MemoryRecord) (c checked : MemoryCandidate) (text : string)
    (expiry : option DateTime) : MemoryRecord :=
  mkMemoryRecord (fst fresh) text (mc_proposed_scope c) (mc_confidence c) (mc_source_task_id c)
    (mc_evidence_ids c) (mc_contradiction_ids checked) (at_now k) expiry
    (next_memory_version records) Quarantined None [mc_source_task_id c] []
    (Some (claim_of k (snd fresh) c text)) None 0 0 0 0 None.

(** [migrate_legacy_active_memory(&mut records); mark_expired(&mut records);]. *)
Definition refresh (k : Clock) (records : list MemoryRecord) : list MemoryRecord :=
  snd (mark_expired (at_mark k) (snd (migrate_legacy_active_memory records))).

(** The change of the records that each operation makes, between reading and saving them:
    the new records and what is returned, or an error. *)
(*@ memory/src/lib.rs:297-362 MemoryStore::quarantine *)
Definition quarantine_records (k : Clock) (fresh : MemoryId * MemoryCandidateId)
    (c : MemoryCandidate) (text : string) (loaded : list MemoryRecord)
    : result MemoryError (list MemoryRecord * MemoryRecord) :=
  let records := refresh k loaded in
  let checked := checked_candidate k records c text in
  let decision := evaluate default_gate checked text in
  if bool_decide (mpd_decision decision = MemoryPromotionDecisionKind.Reject)
  then Err (MemoryError.PromotionRejected (mpd_reason decision))
  else
    let? expiry := candidate_expiry c (at_now k) in
    let r := quarantined_record k fresh records c checked text expiry in
    Ok (records ++ [r], r).

(** [records.iter_mut().find(|record| record.memory_id == id)] and the change made there. *)
Fixpoint update_first (id : MemoryId) (f : MemoryRecord -> result MemoryError MemoryRecord)
    (records : list MemoryRecord) : result MemoryError (list MemoryRecord * MemoryRecord) :=
  match records with
  | [] => Err (MemoryError.NotFound id)
  | r :: records' =>
      if memory_id r =? id then let? r' := f r in Ok (r' :: records', r')
      else let? p := update_first id f records' in Ok (r :: fst p, snd p)
  end.

Definition sort_ids (l : list N) : list N := merge_sort N.le l.

(*@ memory/src/lib.rs:392-411 MemoryStore::activate_quarantined_with_authority *)
Definition activate_record (supporting : list TaskId) (reviewer : option string)
    (human_approved : bool) (r : MemoryRecord) : result MemoryError MemoryRecord :=
  if negb (bool_decide (status r = Quarantined))
  then Err (MemoryError.PromotionRejected
              ("memory " +:+ id_to_string (memory_id r) +:+ " is not quarantined"))
  else
    let tasks := dedup (sort_ids (supporting_task_ids r ++ supporting)) in
    if (N.of_nat (length tasks) <? 2) && negb human_approved
    then Err (MemoryError.PromotionRejected
                "memory activation requires two independent task evidences or human review")
    else Ok (with_support tasks
               (Some (default "independent-task-evidence" reviewer))
               (with_status Active (invalidation_refs r) (rollback_reason r) r)).

(*@ memory/src/lib.rs:386-412 MemoryStore::activate_quarantined_with_authority *)
Definition activate_records (k : Clock) (id : MemoryId) (supporting : list TaskId)
    (reviewer : option string) (human_approved : bool) (loaded : list MemoryRecord)
    : result MemoryError (list MemoryRecord * MemoryRecord) :=
  update_first id (activate_record supporting reviewer human_approved) (refresh k loaded).

(** [status = RolledBack], [invalidation_refs.push(reason)], [rollback_reason = Some(reason)]. *)
(*@ memory/src/lib.rs:575-578 MemoryStore::rollback *)
Definition roll_back (reason : string) (r : MemoryRecord) : MemoryRecord :=
  with_status RolledBack (invalidation_refs r ++ [reason]) (Some reason) r.

(*@ memory/src/lib.rs:527-545 MemoryStore::record_feedback *)
Definition feedback_record (feedback : MemoryFeedbackKind) (reason : string) (r : MemoryRecord)
    : MemoryRecord :=
  match feedback with
  | MemoryFeedbackKind.Helpful =>
      with_counts (helpful_count r +|32 1) (irrelevant_count r) (incorrect_count r) r
  | MemoryFeedbackKind.Irrelevant =>
      with_counts (helpful_count r) (irrelevant_count r +|32 1) (incorrect_count r) r
  | MemoryFeedbackKind.Incorrect =>
      let reason :=
        if trim_is_empty reason then "memory marked incorrect by retrieval feedback" else reason in
      roll_back reason (with_counts (helpful_count r) (irrelevant_count r) (incorrect_count r +|32 1) r)
  end.

(*@ memory/src/lib.rs:592-595 MemoryStore::expire *)
Definition expired_record (r : MemoryRecord) : MemoryRecord :=
  with_status Expired (invalidation_refs r ++ ["explicitly expired by runtime controller"])
    (rollback_reason r) r.

(*@ memory/src/lib.rs propose_project_memory *)
Definition propose_project_memory (to_rfc3339 : DateTime -> string) (fresh : MemoryCandidateId)
    (now : DateTime) (source_task : TaskId) (evidence : list EvidenceId) : MemoryCandidate :=
  mkMemoryCandidate
    (Some (mkMemoryClaim fresh "project" "verified_task_outcome"
             ("task:" +:+ id_to_string source_task) "project" [source_task] evidence 80 now
             (Some (now + days 30)%Z) []))
    source_task evidence MemoryScope.Project 80 [] (Some (to_rfc3339 (now + days 30)%Z)) "proposed".
End Records.
