(* ===== verification/MemoryFiles.v ===== *)
(** * The store of the project memory

    [MemoryStore] of [golutra-agent-memory/src/lib.rs]. Several processes share one file,
    under a lock; retrieval takes no lock and reads through a cache with an inverted index,
    keyed by the length and the time of the file. The encoding of the file (its bytes and
    [serde_json]) is an argument, and so is what the operating system answers. *)
From stdpp Require Import gmap.
From S2P Require Import Prelude RustStr Core Memory.
Open Scope N_scope. Open Scope rust_scope.

(** ** The store *)

(** The bytes of the file with [serde_json::to_vec_pretty] and [from_slice]. *)
Class MemoryCodec := {
  Bytes : Type;
  encode : list MemoryRecord -> result string Bytes;
  decode : Bytes -> result string (list MemoryRecord);
  bytes_len : Bytes -> N }.

(** What was written is read back. *)
Class MemoryCodecLaws `{MemoryCodec} : Prop := {
  decode_encode records b : encode records = Ok b -> decode b = Ok records }.

(*@ memory/src/lib.rs MemoryFileFingerprint *)
Record MemoryFileFingerprint := mkMemoryFileFingerprint { fp_len : N; fp_modified_nanos : N }.
#[global] Instance MemoryFileFingerprint_eq_dec : EqDecision MemoryFileFingerprint.
Proof. solve_decision. Defined.

(*@ memory/src/lib.rs MemorySearchIndex *)
Record MemorySearchIndex := mkMemorySearchIndex {
  si_terms : gset string; si_normalized_content : string }.

(*@ memory/src/lib.rs MemoryCacheEntry *)
Record MemoryCacheEntry := mkMemoryCacheEntry {
  ce_fingerprint : option MemoryFileFingerprint; ce_records : list MemoryRecord;
  ce_search_index : list MemorySearchIndex; ce_term_index : gmap string (list nat) }.

(*@ memory/src/lib.rs MemoryCacheEntry::empty *)
Definition empty_cache (fp : option MemoryFileFingerprint) : MemoryCacheEntry :=
  mkMemoryCacheEntry fp [] [] ∅.

Section Store.
Context (is_alphanumeric : N -> bool) (to_lowercase : string -> string).
Context (id_to_string : N -> string).
Context (parse_rfc3339 : string -> result string DateTime).
Context `{codec : MemoryCodec}.

Abbreviation terms_of := (terms is_alphanumeric to_lowercase).
Abbreviation normal := (normalize_content to_lowercase).

(** A file on the disk with the time it was last changed. *)
Record MemoryFile := mkMemoryFile { mf_bytes : Bytes; mf_modified : N }.

(** One process's store, with the file all processes share. Locks are held for whole
    operations; the lock of the cache is never poisoned, since the code under it cannot panic. *)
(*@ memory/src/lib.rs MemoryStore *)
Record MemoryStore := mkMemoryStore {
  ms_path : option string; ms_cache : option MemoryCacheEntry; ms_file : option MemoryFile }.

(*@ memory/src/lib.rs MemoryStore::new *)
Definition store_at (path : string) (file : option MemoryFile) : MemoryStore :=
  mkMemoryStore (Some path) None file.
(*@ memory/src/lib.rs MemoryStore::in_memory *)
Definition in_memory : MemoryStore := mkMemoryStore None None None.

(** *** What the operating system answers *)

Record Metadata := mkMetadata { md_len : N; md_modified : option N }.
Inductive Stat := StatMissing | StatFailed (e : string) | StatFound (m : Metadata).
Inductive Opening :=
| OpenMissing
| OpenFailed (e : string)
| Opened (metadata : result string Metadata) (bytes : result string Bytes).

Definition fingerprint_of (m : Metadata) : MemoryFileFingerprint :=
  mkMemoryFileFingerprint (md_len m) (default 0 (md_modified m)).

(*@ memory/src/lib.rs memory_file_fingerprint *)
Definition memory_file_fingerprint (st : Stat) : result MemoryError (option MemoryFileFingerprint) :=
  match st with
  | StatMissing => Ok None
  | StatFailed e => Err (MemoryError.Io e)
  | StatFound m => Ok (Some (fingerprint_of m))
  end.

(*@ memory/src/lib.rs MemoryFileSnapshot *)
Record MemoryFileSnapshot := mkMemoryFileSnapshot {
  sn_fingerprint : option MemoryFileFingerprint; sn_bytes : option Bytes }.

(** At most one byte more than the limit is read, enough to see that it was exceeded. *)
(*@ memory/src/lib.rs read_memory_file_snapshot *)
Definition read_memory_file_snapshot (path : string) (o : Opening)
    : result MemoryError MemoryFileSnapshot :=
  match o with
  | OpenMissing => Ok (mkMemoryFileSnapshot None None)
  | OpenFailed e => Err (MemoryError.Io e)
  | Opened (Err e) _ => Err (MemoryError.Io e)
  | Opened (Ok m) bytes =>
      if MAX_MEMORY_STATE_BYTES <? md_len m
      then Err (MemoryError.Limit (path +:+ " exceeds " +:+ show MAX_MEMORY_STATE_BYTES +:+ " bytes"))
      else match bytes with
           | Err e => Err (MemoryError.Io e)
           | Ok b =>
               if MAX_MEMORY_STATE_BYTES <? bytes_len b
               then Err (MemoryError.Limit (path +:+ " grew beyond " +:+ show MAX_MEMORY_STATE_BYTES
                                              +:+ " bytes while reading"))
               else Ok (mkMemoryFileSnapshot (Some (fingerprint_of m)) (Some b))
           end
  end.

(** The answers about a file that does not change meanwhile. *)
Definition metadata_of (f : MemoryFile) : Metadata :=
  mkMetadata (bytes_len (mf_bytes f)) (Some (mf_modified f)).
Definition stat_of (f : option MemoryFile) : Stat :=
  match f with None => StatMissing | Some f => StatFound (metadata_of f) end.
Definition opening_of (f : option MemoryFile) : Opening :=
  match f with None => OpenMissing | Some f => Opened (Ok (metadata_of f)) (Ok (mf_bytes f)) end.

(** How writing the temporary file and renaming it over the old one ends: it fails before
    the rename, or after it (permissions, syncing, the new fingerprint), or it succeeds. *)
Inductive SaveOutcome :=
| SaveFailed (e : string)
| SaveUnconfirmed (e : string) (modified : N)
| Saved (modified : N).

(** What may go wrong in an operation that holds the locks. *)
Inductive ReadFault := FailsToOpen (e : string) | FailsMetadata (e : string) | FailsToRead (e : string).
Definition observed (file : option MemoryFile) (fault : option ReadFault) : Opening :=
  match fault, file with
  | Some (FailsToOpen e), _ => OpenFailed e
  | Some (FailsMetadata e), Some f => Opened (Err e) (Ok (mf_bytes f))
  | Some (FailsToRead e), Some f => Opened (Ok (metadata_of f)) (Err e)
  | _, _ => opening_of file
  end.
Record Faults := mkFaults {
  f_poisoned : bool; f_lock : option string; f_read : option ReadFault; f_save : SaveOutcome }.
Definition no_faults (modified : N) : Faults := mkFaults false None None (Saved modified).

(** *** Loading and saving *)

Definition step (A : Type) : Type := MemoryStore -> result MemoryError A * MemoryStore.
Definition ret {A} (r : result MemoryError A) : step A := fun s => (r, s).
Definition bind {A B} (m : step A) (k : A -> step B) : step B :=
  fun s => match m s with
           | (Ok a, s') => k a s'
           | (Err e, s') => (Err e, s')
           end.
Notation "'let!' x ':=' m 'in' k" := (bind m (fun x => k)) (at level 10, x pattern, k at level 200).

(*@ memory/src/lib.rs:717-723 MemoryStore::update_cached_records *)
Definition search_index_of (records : list MemoryRecord) : list MemorySearchIndex :=
  (fun r => mkMemorySearchIndex (terms_of (content r)) (normal (content r))) <$> records.

Definition add_terms (index : nat) (ts : list string) (m : gmap string (list nat))
    : gmap string (list nat) :=
  foldl (fun m t => <[t := default [] (m !! t) ++ [index]]> m) m ts.

(*@ memory/src/lib.rs:724-729 MemoryStore::update_cached_records *)
Fixpoint build_term_index (index : nat) (si : list MemorySearchIndex)
    (m : gmap string (list nat)) : gmap string (list nat) :=
  match si with
  | [] => m
  | x :: si' => build_term_index (S index) si' (add_terms index (elements (si_terms x)) m)
  end.

Definition cache_of (fp : option MemoryFileFingerprint) (records : list MemoryRecord)
    : MemoryCacheEntry :=
  let si := search_index_of records in
  mkMemoryCacheEntry fp records si (build_term_index 0 si ∅).

Definition set_cache (c : option MemoryCacheEntry) (s : MemoryStore) : MemoryStore :=
  mkMemoryStore (ms_path s) c (ms_file s).
Definition set_file (f : option MemoryFile) (s : MemoryStore) : MemoryStore :=
  mkMemoryStore (ms_path s) (ms_cache s) f.

(*@ memory/src/lib.rs MemoryStore::update_cached_records *)
Definition update_cached_records (fp : option MemoryFileFingerprint) (records : list MemoryRecord)
    : step unit :=
  fun s => (Ok tt, set_cache (Some (cache_of fp records)) s).

(** [serde_json::from_slice] of a snapshot, no records where there is no file. *)
Definition records_of_snapshot (sn : MemoryFileSnapshot) : result MemoryError (list MemoryRecord) :=
  match sn_bytes sn with
  | None => Ok []
  | Some b => match decode b with Ok rs => Ok rs | Err e => Err (MemoryError.Json e) end
  end.

(** The directory, its permissions, the lock file and the lock: all fail with [Io]. *)
(*@ memory/src/lib.rs MemoryStore::acquire_file_lock *)
Definition acquire_file_lock (f : Faults) : step unit :=
  fun s => match ms_path s, f_lock f with
           | Some _, Some e => (Err (MemoryError.Io e), s)
           | _, _ => (Ok tt, s)
           end.

(*@ memory/src/lib.rs MemoryStore::load_unlocked *)
Definition load_unlocked (f : Faults) : step (list MemoryRecord) :=
  fun s => match ms_path s with
           | None => (Ok (from_option ce_records [] (ms_cache s)), s)
           | Some path =>
               (let! sn := ret (read_memory_file_snapshot path
                                  (observed (ms_file s) (f_read f))) in
                let! records := ret (records_of_snapshot sn) in
                let! _ := update_cached_records (sn_fingerprint sn) records in
                ret (Ok records)) s
           end.

(*@ memory/src/lib.rs MemoryStore::save_unlocked *)
Definition save_unlocked (f : Faults) (records : list MemoryRecord) : step unit :=
  fun s =>
    match encode records with
    | Err e => (Err (MemoryError.Json e), s)
    | Ok encoded =>
        if MAX_MEMORY_STATE_BYTES <? bytes_len encoded
        then (Err (MemoryError.Limit ("serialized state exceeds " +:+ show MAX_MEMORY_STATE_BYTES
                                        +:+ " bytes")), s)
        else match ms_path s with
             | None => update_cached_records None records s
             | Some _ =>
                 match f_save f with
                 | SaveFailed e => (Err (MemoryError.Io e), s)
                 | SaveUnconfirmed e m =>
                     (Err (MemoryError.Io e), set_file (Some (mkMemoryFile encoded m)) s)
                 | Saved m =>
                     let file := mkMemoryFile encoded m in
                     update_cached_records (Some (fingerprint_of (metadata_of file))) records
                       (set_file (Some file) s)
                 end
             end
    end.

(** [self.lock.lock()] and the lock of the file. *)
Definition locked (f : Faults) : step unit :=
  if f_poisoned f then ret (Err MemoryError.LockPoisoned) else acquire_file_lock f.

(** The shape of the operations that change records: lock, load, change, save. *)
Definition modify {A} (f : Faults)
    (change : list MemoryRecord -> result MemoryError (list MemoryRecord * A)) : step A :=
  let! _ := locked f in
  let! records := load_unlocked f in
  let! p := ret (change records) in
  let! _ := save_unlocked f (fst p) in
  ret (Ok (snd p)).

(** *** Operations *)

(*@ memory/src/lib.rs:281-283 MemoryStore::list *)
Definition listed_records (k : Clock) (loaded : list MemoryRecord) : bool * list MemoryRecord :=
  let '(migrated, records) := migrate_legacy_active_memory loaded in
  if migrated then (true, records) else mark_expired (at_mark k) records.

(** The right operand of [||] is not evaluated when the left one is true. *)
(*@ memory/src/lib.rs MemoryStore::list *)
Definition list_memory (k : Clock) (f : Faults) : step (list MemoryRecord) :=
  let! _ := locked f in
  let! loaded := load_unlocked f in
  let '(changed, records) := listed_records k loaded in
  let! _ := if changed : bool then save_unlocked f records else ret (Ok tt) in
  ret (Ok records).

(*@ memory/src/lib.rs MemoryStore::quarantine *)
Definition quarantine (k : Clock) (f : Faults) (fresh : MemoryId * MemoryCandidateId)
    (c : MemoryCandidate) (text : string) : step MemoryRecord :=
  modify f (quarantine_records is_alphanumeric to_lowercase id_to_string parse_rfc3339
              k fresh c text).

(*@ memory/src/lib.rs MemoryStore::activate_quarantined_with_authority *)
Definition activate_quarantined_with_authority (k : Clock) (f : Faults) (id : MemoryId)
    (supporting : list TaskId) (reviewer : option string) (human_approved : bool)
    : step MemoryRecord :=
  modify f (activate_records id_to_string k id supporting reviewer human_approved).

(*@ memory/src/lib.rs MemoryStore::activate_quarantined *)
Definition activate_quarantined (k : Clock) (f : Faults) (id : MemoryId)
    (supporting : list TaskId) (reviewer : option string) : step MemoryRecord :=
  activate_quarantined_with_authority k f id supporting reviewer false.

(*@ memory/src/lib.rs MemoryStore::record_feedback *)
Definition record_feedback (f : Faults) (id : MemoryId) (feedback : MemoryFeedbackKind)
    (reason : string) : step MemoryRecord :=
  modify f (update_first id (fun r => Ok (feedback_record feedback reason r))).

(*@ memory/src/lib.rs MemoryStore::rollback *)
Definition rollback (f : Faults) (id : MemoryId) (reason : string) : step MemoryRecord :=
  modify f (update_first id (fun r => Ok (roll_back reason r))).

(*@ memory/src/lib.rs MemoryStore::expire *)
Definition expire (f : Faults) (id : MemoryId) : step MemoryRecord :=
  modify f (update_first id (fun r => Ok (expired_record r))).

(*@ memory/src/lib.rs MemoryStore::contradiction_ids *)
Definition contradiction_ids_for (k : Clock) (f : Faults) (text : string) (sc : MemoryScope)
    : step (list string) :=
  let! records := list_memory k f in
  ret (Ok (contradiction_ids_from_records is_alphanumeric to_lowercase id_to_string
             (at_compare k) records text sc)).

(** *** Retrieval *)

(** What the operating system answers while a reader, who holds no lock, looks at the file. *)
Record ReadAttempt := mkReadAttempt { ra_before : Stat; ra_opening : Opening; ra_after : Stat }.
Record ReadAnswers := mkReadAnswers { an_attempts : ReadAttempt * ReadAttempt; an_last : Opening }.

(** One turn of the loop: [None] is [continue]. *)
(*@ memory/src/lib.rs:665-692 MemoryStore::load_cached_for_read *)
Definition read_attempt (path : string) (a : ReadAttempt) : step (option MemoryCacheEntry) :=
  let! fp := ret (memory_file_fingerprint (ra_before a)) in
  fun s =>
    match option_filter (fun e => bool_decide (ce_fingerprint e = fp)) (ms_cache s) with
    | Some entry => (Ok (Some entry), s)
    | None =>
        (let! sn := ret (read_memory_file_snapshot path (ra_opening a)) in
         let! records := ret (records_of_snapshot sn) in
         let! after := ret (memory_file_fingerprint (ra_after a)) in
         if negb (bool_decide (after = sn_fingerprint sn)) then ret (Ok None)
         else
           let! _ := update_cached_records (sn_fingerprint sn) records in
           fun s' => (ok_or MemoryError.LockPoisoned (Some <$> ms_cache s'), s')) s
    end.

(*@ memory/src/lib.rs MemoryStore::load_cached_for_read *)
Definition load_cached_for_read (an : ReadAnswers) : step MemoryCacheEntry :=
  fun s =>
    match ms_path s with
    | None => (Ok (default (empty_cache None) (ms_cache s)), s)
    | Some path =>
        (let! first := read_attempt path (fst (an_attempts an)) in
         match first with
         | Some entry => ret (Ok entry)
         | None =>
             let! second := read_attempt path (snd (an_attempts an)) in
             match second with
             | Some entry => ret (Ok entry)
             | None =>
                 let! sn := ret (read_memory_file_snapshot path (an_last an)) in
                 let! records := ret (records_of_snapshot sn) in
                 let! _ := update_cached_records (sn_fingerprint sn) records in
                 fun s' => (ok_or MemoryError.LockPoisoned (ms_cache s'), s')
             end
         end) s
    end.

(*@ memory/src/lib.rs:445-452 MemoryStore::retrieve *)
Definition retrievable (now : DateTime) (sc : MemoryScope) (r : MemoryRecord) : bool :=
  bool_decide (status r = MemoryStatus.Active) && bool_decide (invalidation_refs r = [])
  && negb (is_legacy_automatic_memory r) && bool_decide (scope r = sc)
  && negb (is_expired now r).

(*@ memory/src/lib.rs:462-474 MemoryStore::retrieve *)
Definition relevance (now : DateTime) (normalized_query : string) (matched : list string)
    (r : MemoryRecord) (x : MemorySearchIndex) : N :=
  let phrase_bonus :=
    if negb (bool_decide (normalized_query = ""))
       && str_contains normalized_query (si_normalized_content x) then 200 else 0 in
  let recency_bonus := if (Z.quot (now - created_at r) (days 1) <=? 30)%Z then 25 else 0 in
  let positive :=
    sat_mul u32_max (N.min (N.of_nat (length matched)) u32_max) (confidence r)
      +|32 phrase_bonus +|32 recency_bonus +|32 sat_mul u32_max (helpful_count r) 50 in
  positive - sat_mul u32_max (irrelevant_count r) 100.

(*@ memory/src/lib.rs:443-480 MemoryStore::retrieve *)
Definition score (now : DateTime) (query : string) (sc : MemoryScope) (c : MemoryCacheEntry)
    (index : nat) : option ScoredMemory :=
  r ← ce_records c !! index;
  if negb (retrievable now sc r) then None
  else
    x ← ce_search_index c !! index;
    let matched := sort_strings (elements (terms_of query ∩ si_terms x)) in
    if bool_decide (matched = []) then None
    else Some (mkScoredMemory index (relevance now (normal query) matched r x) matched).

(** The records of two results exist: their indices come from [score]. *)
Definition created (records : list MemoryRecord) (m : ScoredMemory) : Z :=
  from_option created_at 0%Z (records !! sm_index m).
Definition id_of (records : list MemoryRecord) (m : ScoredMemory) : N :=
  from_option memory_id 0 (records !! sm_index m).

(*@ memory/src/lib.rs:482-490 MemoryStore::retrieve *)
Definition ranks_before (records : list MemoryRecord) (l r : ScoredMemory) : Prop :=
  sm_relevance_score r < sm_relevance_score l
  \/ (sm_relevance_score r = sm_relevance_score l
      /\ ((created records r < created records l)%Z
          \/ (created records r = created records l /\ id_of records r <= id_of records l))).
#[global] Instance ranks_before_dec records l r : Decision (ranks_before records l r).
Proof. unfold ranks_before. apply _. Defined.

(*@ memory/src/lib.rs:492-509 MemoryStore::retrieve *)
Definition present (records : list MemoryRecord) (m : ScoredMemory) : option RetrievedMemory :=
  r ← records !! sm_index m;
  Some (mkRetrievedMemory r (sm_relevance_score m) (sm_matched_terms m)
    ("matched " +:+ show (N.of_nat (length (sm_matched_terms m))) +:+ " term(s), confidence "
       +:+ show (confidence r) +:+ ", helpful " +:+ show (helpful_count r) +:+ ", irrelevant "
       +:+ show (irrelevant_count r))).

(** [iter] is the order in which the elements of a hash set come. *)
Context (iter : gset nat -> list nat).

(*@ memory/src/lib.rs:435-440 MemoryStore::retrieve *)
Definition candidate_indices (c : MemoryCacheEntry) (query : string) : gset nat :=
  list_to_set (mjoin (omap (fun t => ce_term_index c !! t) (elements (terms_of query)))).

(*@ memory/src/lib.rs:434-510 MemoryStore::retrieve *)
Definition retrieve_from (now : DateTime) (query : string) (sc : MemoryScope) (limit : N)
    (c : MemoryCacheEntry) : list RetrievedMemory :=
  let scored := omap (score now query sc c) (iter (candidate_indices c query)) in
  let sorted := merge_sort (ranks_before (ce_records c)) scored in
  omap (present (ce_records c)) (take (N.to_nat limit) sorted).

(*@ memory/src/lib.rs MemoryStore::retrieve *)
Definition retrieve (now : DateTime) (an : ReadAnswers) (query : string) (sc : MemoryScope)
    (limit : N) : step (list RetrievedMemory) :=
  if bool_decide (terms_of query = ∅) || (limit =? 0) then ret (Ok [])
  else
    let! c := load_cached_for_read an in
    ret (Ok (retrieve_from now query sc limit c)).
End Store.

(** ** The index answers like a full scan *)

Section ListFacts.
Context {A B : Type}.

Lemma omap_filter_dead (P : A -> Prop) `{forall x, Decision (P x)} (f : A -> option B) (l : list A) :
  (forall x, x ∈ l -> ~ P x -> f x = None) -> omap f (filter P l) = omap f l.
Proof.
  induction l as [|x l IH]; intros H'; [done|]. rewrite filter_cons.
  assert (IH' : omap f (filter P l) = omap f l) by (apply IH; intros; apply H'; [by right|done]).
  destruct (decide (P x)) as [|Hx]; cbn; rewrite IH'; [done|].
  by rewrite (H' x (list_elem_of_here _ _) Hx).
Qed.

(** Elements where a partial function is undefined do not matter. *)
Lemma omap_agree `{EqDecision A} (f : A -> option B) (l1 l2 : list A) :
  NoDup l1 -> NoDup l2 -> l1 ⊆ l2 -> (forall x, x ∈ l2 -> x ∉ l1 -> f x = None) ->
  omap f l1 ≡ₚ omap f l2.
Proof.
  intros H1 H2 Hsub Hdead. rewrite <- (omap_filter_dead (fun x => x ∈ l1) f l2); [|done].
  assert (l1 ≡ₚ filter (fun x => x ∈ l1) l2) as <-; [|done].
  apply NoDup_Permutation; [done|by apply NoDup_filter|].
  intros x. rewrite list_elem_of_filter. split; [intros Hx; split; [done|by apply Hsub]|by intros []].
Qed.

Lemma StronglySorted_omap (R : relation A) (R' : relation B) (g : A -> option B) (l : list A) :
  StronglySorted R l ->
  (forall x y a b, x ∈ l -> y ∈ l -> R x y -> g x = Some a -> g y = Some b -> R' a b) ->
  StronglySorted R' (omap g l).
Proof.
  induction 1 as [|x l Hs IH Hf]; intros H; cbn; [constructor|].
  assert (StronglySorted R' (omap g l)) by (apply IH; intros; eapply H; eauto; by right).
  destruct (g x) as [a|] eqn:E; [|done]. constructor; [done|].
  apply Forall_forall. intros b (y & Hy & Eb)%list_elem_of_omap.
  rewrite Forall_forall in Hf. eapply (H x y); eauto; [left|by right].
Qed.

Lemma omap_take (g : A -> option B) (l : list A) n :
  Forall (fun x => is_Some (g x)) l -> omap g (take n l) = take n (omap g l).
Proof.
  intros H. revert n. induction H as [|x l [y E] _ IH]; intros [|n]; cbn; rewrite ?E; [done..|].
  by rewrite IH.
Qed.

Lemma omap_seq (f : A -> option B) (l : list A) :
  omap f l = omap (fun i => l !! i ≫= f) (seq 0 (length l)).
Proof.
  induction l as [|x l IH]; [done|]. cbn [length seq omap list_omap]. cbn.
  rewrite <- fmap_S_seq.
  assert (E : omap (fun i => (x :: l) !! i ≫= f) (S <$> seq 0 (length l))
              = omap (fun i => l !! i ≫= f) (seq 0 (length l))).
  { generalize (seq 0 (length l)). intros k. induction k as [|i k IHk]; [done|]. cbn. by rewrite IHk. }
  by rewrite E, IH.
Qed.
End ListFacts.

Lemma NoDup_fmap_elem {A B} (f : A -> B) (l : list A) x y :
  NoDup (f <$> l) -> x ∈ l -> y ∈ l -> f x = f y -> x = y.
Proof.
  intros Hn [i Hi]%list_elem_of_lookup [j Hj]%list_elem_of_lookup E.
  assert (i = j) as ->; [|congruence].
  apply (NoDup_lookup _ _ _ (f x) Hn); rewrite list_lookup_fmap; [by rewrite Hi|by rewrite Hj, E].
Qed.

Section Index.
Context (is_alphanumeric : N -> bool) (to_lowercase : string -> string).
Context `{codec : MemoryCodec}.
Abbreviation terms_of := (terms is_alphanumeric to_lowercase).

Lemma add_terms_lookup i k ts m t :
  i ∈ default [] (add_terms k ts m !! t) <-> i ∈ default [] (m !! t) \/ (i = k /\ t ∈ ts).
Proof.
  revert m. unfold add_terms. induction ts as [|u ts IH]; intros m; cbn.
  { rewrite elem_of_nil. tauto. }
  rewrite IH, elem_of_cons. destruct (decide (u = t)) as [->|Hne].
  - rewrite lookup_insert_eq. cbn. rewrite elem_of_app, list_elem_of_singleton. tauto.
  - rewrite lookup_insert_ne by done. naive_solver.
Qed.

Lemma build_term_index_lookup i k si m t :
  i ∈ default [] (build_term_index k si m !! t) <->
  i ∈ default [] (m !! t) \/ exists j x, si !! j = Some x /\ i = (k + j)%nat /\ t ∈ si_terms x.
Proof.
  revert k m. induction si as [|x si IH]; intros k m; cbn [build_term_index].
  { split; [by left|]. intros [?|(j & x & H & _)]; [done|]. by rewrite lookup_nil in H. }
  rewrite IH, add_terms_lookup, elem_of_elements. split.
  - intros [[?|[-> ?]]|(j & y & Hy & -> & Ht)]; [by left|right; exists 0%nat, x|right; exists (S j), y];
      cbn; split_and!; (done || lia).
  - intros [?|([|j] & y & Hy & -> & Ht)]; [by left; left| |].
    + simplify_eq/=. left; right. split; [lia|done].
    + right. exists j, y. split_and!; [done|lia|done].
Qed.

(** The index leads to exactly the records that share a word with the query. *)
Lemma candidates_share_a_term fp records query i :
  i ∈ candidate_indices is_alphanumeric to_lowercase
        (cache_of is_alphanumeric to_lowercase fp records) query <->
  exists r, records !! i = Some r /\ terms_of query ∩ terms_of (content r) <> ∅.
Proof.
  unfold candidate_indices. rewrite elem_of_list_to_set, list_elem_of_join. split.
  - intros (l & Hi & (t & Ht & El)%list_elem_of_omap). apply elem_of_elements in Ht.
    assert (H : i ∈ default [] (ce_term_index (cache_of is_alphanumeric to_lowercase fp records) !! t))
      by by rewrite El.
    apply build_term_index_lookup in H as [H|(j & x & Hx & -> & Hm)].
    { rewrite lookup_empty in H. by apply elem_of_nil in H. }
    unfold search_index_of in Hx. rewrite list_lookup_fmap, fmap_Some in Hx.
    destruct Hx as (r & Hr & ->). exists r. split; [done|]. cbn in Hm. set_solver.
  - intros (r & Hr & Hne). apply set_choose_L in Hne as [t Ht]. apply elem_of_intersection in Ht as [Hq Hc].
    assert (H : i ∈ default [] (ce_term_index (cache_of is_alphanumeric to_lowercase fp records) !! t)).
    { apply build_term_index_lookup. right. exists i. eexists.
      split_and!; [unfold search_index_of; by rewrite list_lookup_fmap, Hr|done|exact Hc]. }
    destruct (_ !! t) as [l|] eqn:E in H; [|by apply elem_of_nil in H].
    exists l. split; [done|]. apply list_elem_of_omap. exists t. by rewrite elem_of_elements.
Qed.
End Index.

(** *** The reference: every record is looked at *)

Section FullScan.
Context (is_alphanumeric : N -> bool) (to_lowercase : string -> string).
Abbreviation terms_of := (terms is_alphanumeric to_lowercase).
Abbreviation normal := (normalize_content to_lowercase).

(** The words of a query that occur in a record. *)
Definition shared_terms (query : string) (r : MemoryRecord) : list string :=
  sort_strings (elements (terms_of query ∩ terms_of (content r))).

Definition scan_one (now : DateTime) (query : string) (sc : MemoryScope) (r : MemoryRecord)
    : option RetrievedMemory :=
  let matched := shared_terms query r in
  if retrievable now sc r && negb (bool_decide (matched = []))
  then Some (mkRetrievedMemory r
         (relevance now (normal query) matched r
            (mkMemorySearchIndex (terms_of (content r)) (normal (content r))))
         matched
         ("matched " +:+ show (N.of_nat (length matched)) +:+ " term(s), confidence "
            +:+ show (confidence r) +:+ ", helpful " +:+ show (helpful_count r) +:+ ", irrelevant "
            +:+ show (irrelevant_count r)))
  else None.

(** The best score first, then the newest, then the greatest id. *)
Definition best_first (a b : RetrievedMemory) : Prop :=
  rm_relevance_score b < rm_relevance_score a
  \/ (rm_relevance_score b = rm_relevance_score a
      /\ ((created_at (rm_record b) < created_at (rm_record a))%Z
          \/ (created_at (rm_record b) = created_at (rm_record a)
              /\ memory_id (rm_record b) <= memory_id (rm_record a)))).
#[global] Instance best_first_dec a b : Decision (best_first a b).
Proof. unfold best_first. apply _. Defined.
#[global] Instance best_first_trans : Transitive best_first.
Proof. unfold best_first. intros a b c. lia. Qed.
#[global] Instance best_first_total : Total best_first.
Proof. unfold best_first. intros a b. lia. Qed.

Definition full_scan (now : DateTime) (query : string) (sc : MemoryScope) (limit : N)
    (records : list MemoryRecord) : list RetrievedMemory :=
  take (N.to_nat limit) (merge_sort best_first (omap (scan_one now query sc) records)).

Lemma scan_one_record now query sc r m : scan_one now query sc r = Some m -> rm_record m = r.
Proof. unfold scan_one. cbn zeta. destruct (_ && _); [|done]. by intros [= <-]. Qed.
End FullScan.

Section Scan.
Context (is_alphanumeric : N -> bool) (to_lowercase : string -> string).
Context (iter : gset nat -> list nat) (iter_elements : forall s, iter s ≡ₚ elements s).
Context (now : DateTime) (query : string) (sc : MemoryScope).
Context (fp : option MemoryFileFingerprint) (records : list MemoryRecord).
Abbreviation cache := (cache_of is_alphanumeric to_lowercase fp records).
Abbreviation scan := (scan_one is_alphanumeric to_lowercase now query sc).
Abbreviation scored := (score is_alphanumeric to_lowercase now query sc cache).

#[local] Instance ranks_before_trans : Transitive (ranks_before records).
Proof. unfold ranks_before. intros a b c. lia. Qed.
#[local] Instance ranks_before_total : Total (ranks_before records).
Proof. unfold ranks_before. intros a b. lia. Qed.

(** What the index scores is what the scan finds. *)
Lemma score_present i : scored i ≫= present records = records !! i ≫= scan.
Proof.
  unfold score. cbn [ce_records ce_search_index cache_of]. unfold search_index_of.
  rewrite list_lookup_fmap. destruct (records !! i) as [r|] eqn:E; [|done]. cbn.
  unfold scan_one, shared_terms. cbn zeta. destruct (retrievable now sc r); [|done]. cbn.
  case_bool_decide; [done|]. cbn. unfold present. cbn. by rewrite E.
Qed.

Lemma score_in_range i m : scored i = Some m -> is_Some (present records m).
Proof.
  unfold score. cbn [ce_records ce_search_index cache_of]. unfold search_index_of.
  rewrite list_lookup_fmap. destruct (records !! i) as [r|] eqn:E; [|done]. cbn.
  destruct (negb _); [done|]. case_bool_decide; [done|]. intros [= <-].
  unfold present. cbn. by rewrite E.
Qed.

Lemma scan_outside i :
  i ∉ candidate_indices is_alphanumeric to_lowercase cache query -> records !! i ≫= scan = None.
Proof.
  rewrite candidates_share_a_term. intros H. destruct (records !! i) as [r|] eqn:E; [|done]. cbn.
  unfold scan_one, shared_terms. cbn zeta.
  destruct (decide (terms is_alphanumeric to_lowercase query
                      ∩ terms is_alphanumeric to_lowercase (content r) = ∅)) as [->|Hne].
  - rewrite elements_empty. cbn. by rewrite andb_comm.
  - exfalso. eauto.
Qed.

(** The same results, in some order. *)
Lemma index_finds_the_same :
  omap (present records) (omap scored (iter (candidate_indices is_alphanumeric to_lowercase cache query)))
    ≡ₚ omap scan records.
Proof.
  assert (E : forall l : list nat, omap (present records) (omap scored l) = omap (fun i => records !! i ≫= scan) l).
  { induction l as [|i l IH]; [done|]. cbn. rewrite <- (score_present i).
    destruct (scored i); cbn; by rewrite IH. }
  rewrite E, (omap_seq scan records). apply omap_agree.
  - rewrite iter_elements. apply NoDup_elements.
  - apply NoDup_seq.
  - intros i. rewrite iter_elements, elem_of_elements, candidates_share_a_term, elem_of_seq.
    intros (r & Hr%lookup_lt_Some & _). lia.
  - intros i _. rewrite iter_elements, elem_of_elements. apply scan_outside.
Qed.

Lemma present_order a b x y :
  present records a = Some x -> present records b = Some y ->
  ranks_before records a b <-> best_first x y.
Proof.
  unfold present, ranks_before, best_first, created, id_of.
  destruct (records !! sm_index a) as [r|]; [|done].
  destruct (records !! sm_index b) as [q|]; [|done]. cbn. by intros [= <-] [= <-].
Qed.

(** Results with the same place in the order are the same record, when ids are distinct. *)
Lemma best_first_unique x y :
  NoDup (memory_id <$> records) -> x ∈ omap scan records -> y ∈ omap scan records ->
  best_first x y -> best_first y x -> x = y.
Proof.
  intros Hn (r & Hr & Ex)%list_elem_of_omap (q & Hq & Ey)%list_elem_of_omap H1 H2.
  assert (Hid : memory_id r = memory_id q).
  { apply scan_one_record in Ex, Ey. subst r q. unfold best_first in *. lia. }
  assert (r = q) as -> by by apply (NoDup_fmap_elem memory_id records). congruence.
Qed.

Lemma retrieve_from_full_scan limit :
  NoDup (memory_id <$> records) ->
  retrieve_from is_alphanumeric to_lowercase iter now query sc limit cache
  = full_scan is_alphanumeric to_lowercase now query sc limit records.
Proof.
  intros Hn. unfold retrieve_from, full_scan. cbn [ce_records cache_of].
  set (l := omap scored _). assert (Hl := index_finds_the_same). fold l in Hl.
  assert (Hsome : Forall (fun m => is_Some (present records m)) (merge_sort (ranks_before records) l)).
  { rewrite merge_sort_Permutation. apply Forall_forall.
    intros m (i & _ & Hm)%list_elem_of_omap. by eapply score_in_range. }
  rewrite omap_take by done. f_equal.
  apply (StronglySorted_unique_strong best_first).
  - intros x y. rewrite !merge_sort_Permutation, Hl. by apply best_first_unique.
  - apply (StronglySorted_omap (ranks_before records)); [apply StronglySorted_merge_sort; apply _|].
    intros a b x y _ _ H Hx Hy. by apply (present_order a b).
  - apply StronglySorted_merge_sort; apply _.
  - by rewrite !merge_sort_Permutation, Hl.
Qed.
End Scan.
