(* ===== verification/MemoryLife.v ===== *)
(** * The life of memories that several processes share

    The operations of [MemoryFiles] as steps of a world: the store of one process, the
    file it shares with others, and, as ghost state, the versions the file has had. Other
    processes may change the file between any two steps of a retrieval, since retrieval
    takes no lock. What holds in every reachable world: a version only continues the one
    before it, the cache shows one whole version, and a retrieval is a full scan of one
    version. *)
From stdpp Require Import gmap.
From S2P Require Import Prelude RustStr Core Memory MemoryFiles.
Open Scope N_scope.

(** ** How records change *)

(** Taken back for good. *)
Definition retracted (r : MemoryRecord) : Prop :=
  status r = MemoryStatus.RolledBack \/ status r = MemoryStatus.Expired.

(** What is never assigned after a record has been made. *)
Definition identity (r : MemoryRecord) :=
  (memory_id r, content r, scope r, confidence r, source_task_id r, evidence_ids r, created_at r,
   expires_at r, version r, claim r).

Record evolves (r r' : MemoryRecord) : Prop := mkEvolves {
  ev_identity : identity r' = identity r;
  ev_refs : invalidation_refs r `prefix_of` invalidation_refs r';
  ev_retracted : retracted r -> retracted r' }.

#[global] Instance evolves_preorder : PreOrder evolves.
Proof.
  split.
  - intros r. by constructor.
  - intros a b c [i1 p1 t1] [i2 p2 t2]. constructor; [congruence|by etrans|auto].
Qed.

(** Every record stays where it is; new ones come at the end. *)
Definition records_evolve (rs rs' : list MemoryRecord) : Prop :=
  exists kept new, rs' = kept ++ new /\ Forall2 evolves rs kept.

#[global] Instance records_evolve_preorder : PreOrder records_evolve.
Proof.
  split.
  - intros rs. exists rs, []. split; [by rewrite app_nil_r|]. reflexivity.
  - intros a b c (k1 & n1 & -> & H1) (k2 & n2 & -> & H2).
    apply Forall2_app_inv_l in H2 as (x & y & Hx & Hy & ->). exists x, (y ++ n2).
    split; [by rewrite app_assoc|]. by etrans.
Qed.

Lemma records_evolve_map f rs : (forall r, evolves r (f r)) -> records_evolve rs (f <$> rs).
Proof.
  intros H. exists (f <$> rs), []. split; [by rewrite app_nil_r|].
  apply Forall2_fmap_r. induction rs; constructor; auto.
Qed.

Lemma records_evolve_elem rs rs' r :
  records_evolve rs rs' -> r ∈ rs -> exists r', r' ∈ rs' /\ evolves r r'.
Proof.
  intros (kept & new & -> & H) [i Hi]%list_elem_of_lookup.
  destruct (Forall2_lookup_l _ _ _ _ _ H Hi) as (r' & Hr' & He). exists r'.
  split; [|done]. apply elem_of_app. left. by eapply list_elem_of_lookup_2.
Qed.

(** An assignment to the status adds a reason and leaves the rest. *)
Lemma with_status_evolves st refs reason r :
  invalidation_refs r `prefix_of` refs -> (retracted r -> retracted (with_status st refs reason r)) ->
  evolves r (with_status st refs reason r).
Proof. destruct r. intros Hp Hr. by constructor. Qed.

Lemma not_retracted_active r : status r = MemoryStatus.Active -> ~ retracted r.
Proof. intros E [H|H]; congruence. Qed.

Lemma migrate_evolves r : evolves r (migrate r).
Proof.
  unfold migrate. destruct (is_legacy_automatic_memory r) eqn:E; [|done].
  apply with_status_evolves; [by apply prefix_app_r|]. intros H. exfalso. revert H.
  apply not_retracted_active. unfold is_legacy_automatic_memory in E. by boolhyps.
Qed.

Lemma expire_at_evolves now r : evolves r (expire_at now r).
Proof.
  unfold expire_at. destruct (_ && _); [|done].
  apply with_status_evolves; [by apply prefix_app_r|]. destruct r. by right.
Qed.

Lemma refresh_evolves k rs : records_evolve rs (refresh k rs).
Proof.
  unfold refresh, mark_expired, migrate_legacy_active_memory. cbn.
  etrans; apply records_evolve_map; [apply migrate_evolves|apply expire_at_evolves].
Qed.

(** [find] and the change of the record found there. *)
Lemma update_first_ok id f rs rs' r' :
  update_first id f rs = Ok (rs', r') ->
  exists l r l', rs = l ++ r :: l' /\ rs' = l ++ r' :: l' /\ memory_id r = id /\ f r = Ok r'.
Proof.
  revert rs'. induction rs as [|r rs IH]; intros rs' H; [done|]. cbn in H.
  destruct (memory_id r =? id) eqn:E.
  - destruct (f r) as [q|] eqn:Ef; [|done]. injection H as <- <-. exists [], r, rs.
    Nbool. split_and!; (done || congruence).
  - destruct (update_first id f rs) as [[k q]|]; [|done]. cbn in H. injection H as <- <-.
    destruct (IH k eq_refl) as (l & r0 & l' & -> & -> & Hid & Hf).
    exists (r :: l), r0, l'. by split_and!.
Qed.

Lemma update_first_evolves id f rs rs' r' :
  (forall r q, f r = Ok q -> evolves r q) -> update_first id f rs = Ok (rs', r') ->
  records_evolve rs rs'.
Proof.
  intros Hf (l & r & l' & -> & -> & _ & E)%update_first_ok.
  exists (l ++ r' :: l'), []. split; [by rewrite app_nil_r|].
  apply Forall2_app; [|constructor; [by apply Hf|]]; reflexivity.
Qed.

Lemma roll_back_evolves reason r : evolves r (roll_back reason r).
Proof. apply with_status_evolves; [by apply prefix_app_r|]. destruct r. by left. Qed.

Lemma feedback_evolves kind reason r : evolves r (feedback_record kind reason r).
Proof.
  destruct kind; [by destruct r; constructor..|].
  unfold feedback_record. etrans; [|apply roll_back_evolves]. by destruct r; constructor.
Qed.

Lemma expired_record_evolves r : evolves r (expired_record r).
Proof. apply with_status_evolves; [by apply prefix_app_r|]. destruct r. by right. Qed.

Lemma activate_record_ok show_id tasks reviewer human r q :
  activate_record show_id tasks reviewer human r = Ok q ->
  status r = MemoryStatus.Quarantined
  /\ q = with_support (dedup (sort_ids (supporting_task_ids r ++ tasks)))
           (Some (default "independent-task-evidence" reviewer))
           (with_status MemoryStatus.Active (invalidation_refs r) (rollback_reason r) r)
  /\ (2 <= N.of_nat (length (dedup (sort_ids (supporting_task_ids r ++ tasks)))) \/ human = true).
Proof.
  unfold activate_record. case_bool_decide as E; [|done]. cbn.
  destruct (_ && _) eqn:Eh; [done|]. intros [= <-]. split_and!; [done..|].
  apply andb_false_iff in Eh as [Eh|Eh]; Nbool; [left; lia|right; by destruct human].
Qed.

Lemma activate_evolves show_id tasks reviewer human r q :
  activate_record show_id tasks reviewer human r = Ok q -> evolves r q.
Proof.
  intros (E & -> & _)%activate_record_ok. destruct r. cbn in E. subst.
  constructor; [done..|]. by intros [H|H].
Qed.

(** ** Requests and what they do to the records *)

Inductive Change :=
| CQuarantine (fresh : MemoryId * MemoryCandidateId) (c : MemoryCandidate) (text : string)
| CActivate (id : MemoryId) (supporting : list TaskId) (reviewer : option string) (human : bool)
| CFeedback (id : MemoryId) (kind : MemoryFeedbackKind) (reason : string)
| CRollback (id : MemoryId) (reason : string)
| CExpire (id : MemoryId).

Inductive Request := RChange (c : Change) | RList.

Section Life.
Context (is_alphanumeric : N -> bool) (to_lowercase : string -> string).
Context (id_to_string : N -> string).
Context (parse_rfc3339 : string -> result string DateTime).
Context `{codec : MemoryCodec} `{laws : !MemoryCodecLaws}.
Context (iter : gset nat -> list nat).

Definition change_of (c : Change) (k : Clock) (rs : list MemoryRecord)
    : result MemoryError (list MemoryRecord * MemoryRecord) :=
  match c with
  | CQuarantine fresh c text =>
      quarantine_records is_alphanumeric to_lowercase id_to_string parse_rfc3339 k fresh c text rs
  | CActivate id tasks reviewer human => activate_records id_to_string k id tasks reviewer human rs
  | CFeedback id kind reason => update_first id (fun r => Ok (feedback_record kind reason r)) rs
  | CRollback id reason => update_first id (fun r => Ok (roll_back reason r)) rs
  | CExpire id => update_first id (fun r => Ok (expired_record r)) rs
  end.

(** The specification of a request: the records after it, if it has anything to save. *)
Definition next_records (q : Request) (k : Clock) (rs : list MemoryRecord)
    : option (list MemoryRecord) :=
  match q with
  | RChange c => match change_of c k rs with Ok (rs', _) => Some rs' | Err _ => None end
  | RList => let '(changed, rs') := listed_records k rs in if changed : bool then Some rs' else None
  end.

(** The store after a request, by the operations of the source. *)
Definition serve (q : Request) (k : Clock) (f : Faults) (s : MemoryStore) : MemoryStore :=
  match q with
  | RChange (CQuarantine fresh c text) =>
      snd (quarantine is_alphanumeric to_lowercase id_to_string parse_rfc3339 k f fresh c text s)
  | RChange (CActivate id tasks reviewer human) =>
      snd (activate_quarantined_with_authority is_alphanumeric to_lowercase id_to_string
             k f id tasks reviewer human s)
  | RChange (CFeedback id kind reason) =>
      snd (record_feedback is_alphanumeric to_lowercase f id kind reason s)
  | RChange (CRollback id reason) => snd (rollback is_alphanumeric to_lowercase f id reason s)
  | RChange (CExpire id) => snd (expire is_alphanumeric to_lowercase f id s)
  | RList => snd (list_memory is_alphanumeric to_lowercase k f s)
  end.

(** ** Versions of the file *)

Definition records_in (f : MemoryFile) : list MemoryRecord :=
  match decode (mf_bytes f) with Ok rs => rs | Err _ => [] end.
Definition durable (f : option MemoryFile) : list MemoryRecord := from_option records_in [] f.
Definition stamp (f : MemoryFile) : MemoryFileFingerprint := fingerprint_of (metadata_of f).

(** A file that some process saved: it can be read back, and its ids are distinct. *)
Definition readable (f : MemoryFile) : Prop :=
  decode (mf_bytes f) = Ok (records_in f) /\ bytes_len (mf_bytes f) <= MAX_MEMORY_STATE_BYTES
  /\ NoDup (memory_id <$> records_in f).

(** [a] was written after [b] and continues it. *)
Definition follows (a b : MemoryFile) : Prop :=
  mf_modified b < mf_modified a /\ records_evolve (records_in b) (records_in a).

(** The cache shows one of the versions, or the state before there was a file. *)
Definition shows (versions : list MemoryFile) (e : MemoryCacheEntry) : Prop :=
  e = cache_of is_alphanumeric to_lowercase (ce_fingerprint e) (ce_records e)
  /\ match ce_fingerprint e with
     | None => ce_records e = []
     | Some fp => exists f, f ∈ versions /\ fp = stamp f /\ ce_records e = records_in f
     end.

Record World := mkWorld { w_store : MemoryStore; w_versions : list MemoryFile }.

(** What the system may answer a reader while the file goes through [versions]: each answer
    is about one of them; the metadata of an open file belongs to what is read from it. *)
Definition stat_from (versions : list MemoryFile) (st : Stat) : Prop :=
  match st with StatFound m => exists f, f ∈ versions /\ m = metadata_of f | _ => True end.
Definition opening_from (versions : list MemoryFile) (o : Opening) : Prop :=
  match o with
  | Opened (Ok m) (Ok b) => exists f, f ∈ versions /\ m = metadata_of f /\ b = mf_bytes f
  | _ => True
  end.
Definition attempt_from (versions : list MemoryFile) (a : ReadAttempt) : Prop :=
  stat_from versions (ra_before a) /\ opening_from versions (ra_opening a)
  /\ stat_from versions (ra_after a).
Definition answers_from (versions : list MemoryFile) (an : ReadAnswers) : Prop :=
  attempt_from versions (fst (an_attempts an)) /\ attempt_from versions (snd (an_attempts an))
  /\ opening_from versions (an_last an).

(** The answers when nobody writes meanwhile. *)
Definition quiet (f : option MemoryFile) : ReadAnswers :=
  let a := mkReadAttempt (stat_of f) (opening_of f) (stat_of f) in
  mkReadAnswers (a, a) (opening_of f).

(** The versions after a request that began with file [before] and ended with [after]. *)
Definition record_version (before after : option MemoryFile) (versions : list MemoryFile)
    : list MemoryFile :=
  match after with
  | Some f =>
      match before with
      | Some g => if mf_modified g =? mf_modified f then versions else f :: versions
      | None => f :: versions
      end
  | None => versions
  end.

(** What the worlds below assume of the environment. The code recognises a version of the
    file by its length and its modification time only, so that two versions with the same
    length and time are one to it; a file system with a coarse clock can produce them. It
    is assumed that every save gives the file a strictly later time than it had, and that
    new ids are new. *)
Definition timely (f : Faults) (file : option MemoryFile) : Prop :=
  match f_save f, file with
  | (Saved m | SaveUnconfirmed _ m), Some g => mf_modified g < m
  | _, _ => True
  end.
Definition fresh_id (q : Request) (file : option MemoryFile) : Prop :=
  match q with
  | RChange (CQuarantine fresh _ _) => fst fresh ∉ (memory_id <$> durable file)
  | _ => True
  end.

(** Reachable worlds with the requests that were served, newest first. A process finds a
    file or none; then it serves requests itself, other processes (with caches of their own)
    serve requests, and it retrieves while others may write. *)
Inductive reachable (found : option MemoryFile) : list Request -> World -> Prop :=
| reach_start path :
    (forall f, found = Some f -> readable f) ->
    reachable found [] (mkWorld (store_at path found) (option_list found))
| reach_own tr w q k f s' :
    reachable found tr w -> timely f (ms_file (w_store w)) -> fresh_id q (ms_file (w_store w)) ->
    s' = serve q k f (w_store w) ->
    reachable found (q :: tr)
      (mkWorld s' (record_version (ms_file (w_store w)) (ms_file s') (w_versions w)))
| reach_foreign tr w q k f s' :
    reachable found tr w -> timely f (ms_file (w_store w)) -> fresh_id q (ms_file (w_store w)) ->
    s' = set_cache (ms_cache (w_store w)) (serve q k f (set_cache None (w_store w))) ->
    reachable found (q :: tr)
      (mkWorld s' (record_version (ms_file (w_store w)) (ms_file s') (w_versions w)))
| reach_retrieve tr w now an query sc limit :
    reachable found tr w -> answers_from (w_versions w) an ->
    reachable found tr
      (mkWorld (snd (retrieve is_alphanumeric to_lowercase iter now an query sc limit (w_store w)))
         (w_versions w)).

(** ** One request *)

(** A save writes [rs] with the time [m], confirmed or not. *)
Definition saves (f : Faults) (m : N) : Prop :=
  f_save f = Saved m \/ exists e, f_save f = SaveUnconfirmed e m.

(** The effect of an operation: the file is as before or holds the next records, and the
    cache is as before or shows the file before or after. *)
Record effect (f : Faults) (next : option (list MemoryRecord)) (s s' : MemoryStore) : Prop := mkEffect {
  ef_path : ms_path s' = ms_path s;
  ef_file : ms_file s' = ms_file s
            \/ exists rs b m, next = Some rs /\ encode rs = Ok b /\ saves f m
                 /\ bytes_len b <= MAX_MEMORY_STATE_BYTES /\ ms_file s' = Some (mkMemoryFile b m);
  ef_cache : ms_cache s' = ms_cache s
             \/ exists e, ms_cache s' = Some e
                  /\ shows (option_list (ms_file s') ++ option_list (ms_file s)) e }.

Abbreviation cache := (cache_of is_alphanumeric to_lowercase).

Lemma load_unlocked_effect f s path :
  ms_path s = Some path -> (forall g, ms_file s = Some g -> readable g) ->
  (exists e, load_unlocked is_alphanumeric to_lowercase f s = (Err e, s))
  \/ load_unlocked is_alphanumeric to_lowercase f s
     = (Ok (durable (ms_file s)),
        set_cache (Some (cache (stamp <$> ms_file s) (durable (ms_file s)))) s).
Proof.
  intros Hp Hr. unfold load_unlocked. rewrite Hp. unfold bind, ret, observed, opening_of.
  destruct (f_read f) as [[e|e|e]|], (ms_file s) as [g|] eqn:Eg; cbn; try by left; eexists.
  - by right.
  - left. destruct (MAX_MEMORY_STATE_BYTES <? bytes_len (mf_bytes g)); by eexists.
  - by right.
  - right. destruct (Hr g eq_refl) as (Hd & Hl & _). destruct (_ <? _) eqn:E; [Nbool; lia|].
    cbn. rewrite Hd. done.
  - by right.
Qed.

Lemma shows_file (file : option MemoryFile) vs :
  option_list file ⊆ vs -> shows vs (cache (stamp <$> file) (durable file)).
Proof.
  intros H. split; [done|]. destruct file as [f|]; cbn; [|done]. exists f. split; [|done].
  apply H. by left.
Qed.

Lemma no_effect f next s : effect f next s s.
Proof. by constructor; [|left..]. Qed.

Lemma save_unlocked_effect f rs s path :
  ms_path s = Some path ->
  let s' := snd (save_unlocked is_alphanumeric to_lowercase f rs s) in
  effect f (Some rs) s s'
  /\ (fst (save_unlocked is_alphanumeric to_lowercase f rs s) = Ok tt -> durable (ms_file s') = rs).
Proof.
  intros Hp. unfold save_unlocked. destruct (encode rs) as [b|e] eqn:Ee;
    [|split; [apply no_effect|done]].
  destruct (_ <? _) eqn:El; [split; [apply no_effect|done]|]. rewrite Hp. Nbool.
  assert (Hb := decode_encode _ _ Ee).
  destruct (f_save f) as [e|e m|m] eqn:Es; cbn.
  - split; [apply no_effect|done].
  - split; [|done]. constructor; cbn; [done| |by left].
    right. exists rs, b, m. split_and!; [done..|right; eauto|done|done].
  - split; [|intros _; cbn; unfold records_in; cbn; by rewrite Hb].
    assert (Hf : records_in (mkMemoryFile b m) = rs) by (unfold records_in; cbn; by rewrite Hb).
    constructor; cbn; [done| |].
    + right. exists rs, b, m. split_and!; [done..|by left|done|done].
    + right. eexists. split; [done|]. rewrite <- Hf at 1.
      apply (shows_file (Some (mkMemoryFile b m))). set_solver.
Qed.

(** Loading and saving one after the other. *)
Lemma load_then_save f next s s' :
  effect f next (set_cache (Some (cache (stamp <$> ms_file s) (durable (ms_file s)))) s) s' ->
  effect f next s s'.
Proof.
  intros [Hp Hf Hc]. constructor; [done..|]. cbn in Hc. right.
  destruct Hc as [Hc|(e & He & Hs)]; [|by exists e].
  eexists. split; [exact Hc|]. apply shows_file. set_solver.
Qed.

Lemma locked_keeps f s : snd (locked f s) = s.
Proof.
  unfold locked, acquire_file_lock. destruct (f_poisoned f); [done|].
  by destruct (ms_path s), (f_lock f).
Qed.

(** The operations that change records: what they did when they say so, and otherwise all
    of it or nothing. *)
Lemma modify_effect f change s path :
  ms_path s = Some path -> (forall g, ms_file s = Some g -> readable g) ->
  let next := match change (durable (ms_file s)) with
              | Ok p => Some (fst p : list MemoryRecord) | Err _ => None end in
  let out := modify (A := MemoryRecord) is_alphanumeric to_lowercase f change s in
  effect f next s (snd out)
  /\ (forall r, fst out = Ok r ->
        exists rs, change (durable (ms_file s)) = Ok (rs, r) /\ durable (ms_file (snd out)) = rs).
Proof.
  intros Hp Hr. cbn zeta. unfold modify, bind. assert (Hk := locked_keeps f s). destruct (locked f s) as [[u|e] s0]; cbn in Hk; subst s0;
    [|split; [apply no_effect|done]].
  destruct (load_unlocked_effect f s path Hp Hr) as [[e ->]| ->]; [split; [apply no_effect|done]|].
  unfold ret. set (s1 := set_cache _ s).
  destruct (change (durable (ms_file s))) as [[rs r]|e]; cbn;
    [|split; [apply load_then_save, no_effect|done]].
  destruct (save_unlocked_effect f rs s1 path Hp) as [He Hok]. revert He Hok.
  destruct (save_unlocked _ _ f rs s1) as [[[]|e] s2]; cbn; intros He Hok.
  - split; [by apply load_then_save|]. intros r' [= <-]. exists rs. auto.
  - split; [by apply load_then_save|done].
Qed.

Lemma list_effect k f s path :
  ms_path s = Some path -> (forall g, ms_file s = Some g -> readable g) ->
  effect f (next_records RList k (durable (ms_file s))) s
    (snd (list_memory is_alphanumeric to_lowercase k f s)).
Proof.
  intros Hp Hr. unfold list_memory, bind. assert (Hk := locked_keeps f s).
  destruct (locked f s) as [[u|e] s0]; cbn in Hk; subst s0; [|apply no_effect].
  destruct (load_unlocked_effect f s path Hp Hr) as [[e ->]| ->]; [apply no_effect|].
  cbn [next_records]. destruct (listed_records k (durable (ms_file s))) as [[] rs]; cbn;
    [|apply load_then_save, no_effect].
  set (s1 := set_cache _ s).
  destruct (save_unlocked_effect f rs s1 path Hp) as [He _]. revert He.
  destruct (save_unlocked _ _ f rs s1) as [[[]|e] s2]; cbn; intros He; by apply load_then_save.
Qed.

Lemma serve_effect q k f s path :
  ms_path s = Some path -> (forall g, ms_file s = Some g -> readable g) ->
  effect f (next_records q k (durable (ms_file s))) s (serve q k f s).
Proof.
  intros Hp Hr. destruct q as [c|]; [|by eapply list_effect].
  assert (E : serve (RChange c) k f s
              = snd (modify is_alphanumeric to_lowercase f (change_of c k) s)) by by destruct c.
  rewrite E. destruct (modify_effect f (change_of c k) s path Hp Hr) as [He _]. cbn.
  by destruct (change_of c k (durable (ms_file s))) as [[rs r]|e].
Qed.

(** ** Versions continue each other *)

Lemma evolves_id r r' : evolves r r' -> memory_id r' = memory_id r.
Proof. intros [E _ _]. by injection E. Qed.

Lemma kept_ids rs kept : Forall2 evolves rs kept -> memory_id <$> kept = memory_id <$> rs.
Proof. induction 1 as [|r r' rs kept H _ IH]; [done|]. cbn. by rewrite IH, (evolves_id r r' H). Qed.

(** The records a request adds: one, for a candidate that passed the gate. *)
Definition added (q : Request) (new : list MemoryRecord) : Prop :=
  new = [] \/ exists fresh c text r, q = RChange (CQuarantine fresh c text) /\ new = [r]
             /\ memory_id r = fst fresh /\ status r = MemoryStatus.Quarantined.

Definition continues (q : Request) (rs rs' : list MemoryRecord) : Prop :=
  exists kept new, rs' = kept ++ new /\ Forall2 evolves rs kept /\ added q new.

Lemma continues_same q rs rs' :
  records_evolve rs rs' -> length rs' = length rs -> continues q rs rs'.
Proof.
  intros (kept & new & -> & H) Hl. rewrite length_app, (Forall2_length _ _ _ H) in Hl.
  exists kept, new. split_and!; [done..|]. left. destruct new; [done|]. cbn in Hl. lia.
Qed.

Lemma refresh_length k rs : length (refresh k rs) = length rs.
Proof. unfold refresh, mark_expired, migrate_legacy_active_memory. cbn. by rewrite !length_fmap. Qed.

Lemma update_first_continues q id f rs rs' r :
  (forall r r', f r = Ok r' -> evolves r r') -> update_first id f rs = Ok (rs', r) ->
  continues q rs rs'.
Proof.
  intros Hf E. apply continues_same; [by eapply update_first_evolves|].
  apply update_first_ok in E as (a & x & b & -> & -> & _). by rewrite !length_app.
Qed.

Lemma update_all_continues q id g rs rs' r :
  (forall r, evolves r (g r)) -> update_first id (fun r => Ok (g r)) rs = Ok (rs', r) ->
  continues q rs rs'.
Proof. intros Hg. apply update_first_continues. intros r0 r1 E. injection E as <-. apply Hg. Qed.

Lemma quarantine_continues k fresh c text rs rs' r :
  change_of (CQuarantine fresh c text) k rs = Ok (rs', r) ->
  continues (RChange (CQuarantine fresh c text)) rs rs'.
Proof.
  cbn. unfold quarantine_records. cbn zeta. destruct (bool_decide _); [done|].
  destruct (candidate_expiry _ _ _) as [x|]; [|done]. intros [= <- _].
  destruct (continues_same RList rs _ (refresh_evolves k rs) (refresh_length k rs))
    as (kept & new & Ek & H & [->|(? & ? & ? & ? & ? & _)]); [|done].
  rewrite app_nil_r in Ek. exists kept. eexists. rewrite Ek. split_and!; [done..|].
  right. exists fresh, c, text. eexists. by split_and!.
Qed.

Lemma change_continues c k rs rs' r :
  change_of c k rs = Ok (rs', r) -> continues (RChange c) rs rs'.
Proof.
  destruct c as [fresh c text|id tasks reviewer human|id kind reason|id reason|id].
  - apply quarantine_continues.
  - intros E. apply continues_same.
    + etrans; [apply (refresh_evolves k)|]. eapply update_first_evolves; [apply activate_evolves|exact E].
    + rewrite <- (refresh_length k rs). apply update_first_ok in E as (a & x & b & -> & -> & _).
      by rewrite !length_app.
  - apply update_all_continues, feedback_evolves.
  - apply update_all_continues, roll_back_evolves.
  - apply update_all_continues, expired_record_evolves.
Qed.

Lemma next_records_continue q k rs rs' : next_records q k rs = Some rs' -> continues q rs rs'.
Proof.
  destruct q as [c|]; cbn [next_records].
  - destruct (change_of c k rs) as [[l r]|] eqn:E; [|done]. intros [= ->].
    by eapply change_continues.
  - unfold listed_records, migrate_legacy_active_memory, mark_expired.
    destruct (existsb is_legacy_automatic_memory rs).
    + intros [= <-]. apply continues_same; [apply records_evolve_map, migrate_evolves|by rewrite length_fmap].
    + destruct (existsb _ (migrate <$> rs)); [|done]. intros [= <-].
      apply continues_same; [|by rewrite !length_fmap].
      etrans; apply records_evolve_map; [apply migrate_evolves|apply expire_at_evolves].
Qed.

Lemma continues_distinct q rs rs' file :
  continues q rs rs' -> rs = durable file -> fresh_id q file -> NoDup (memory_id <$> rs) ->
  NoDup (memory_id <$> rs').
Proof.
  intros (kept & new & -> & H & Ha) -> Hf Hn. rewrite fmap_app, (kept_ids _ _ H).
  destruct Ha as [->|(fresh & c & text & r & -> & -> & Hid & _)]; cbn; [by rewrite app_nil_r|].
  apply NoDup_app. rewrite Hid. split_and!; [done| |apply NoDup_singleton].
  intros x Hx ->%list_elem_of_singleton. by apply Hf.
Qed.

Lemma continues_evolve q rs rs' : continues q rs rs' -> records_evolve rs rs'.
Proof. intros (kept & new & H1 & H2 & _). by exists kept, new. Qed.

(** ** Reachable worlds *)

Record coherent (w : World) : Prop := mkCoherent {
  co_path : is_Some (ms_path (w_store w));
  co_file : ms_file (w_store w) = head (w_versions w);
  co_order : StronglySorted follows (w_versions w);
  co_readable : Forall readable (w_versions w);
  co_cache : forall e, ms_cache (w_store w) = Some e -> shows (w_versions w) e }.

Lemma shows_more vs vs' e : vs ⊆ vs' -> shows vs e -> shows vs' e.
Proof.
  intros Hs [He Hf]. split; [done|]. destruct (ce_fingerprint e); [|done].
  destruct Hf as (f & Hin & Hrest). exists f. split; [by apply Hs|done].
Qed.

(** A request, by whichever process, makes the next version or none. *)
Lemma effect_versions q k f w s' :
  coherent w -> timely f (ms_file (w_store w)) -> fresh_id q (ms_file (w_store w)) ->
  effect f (next_records q k (durable (ms_file (w_store w)))) (w_store w) s' ->
  let vs := record_version (ms_file (w_store w)) (ms_file s') (w_versions w) in
  w_versions w ⊆ vs /\ ms_file s' = head vs /\ StronglySorted follows vs /\ Forall readable vs
  /\ option_list (ms_file s') ++ option_list (ms_file (w_store w)) ⊆ vs.
Proof.
  intros [Hp Hf Ho Hr Hc] Ht Hfr [_ He _]. cbn zeta. rewrite Hf in *.
  destruct (w_versions w) as [|g vs]; cbn [head] in *.
  - destruct He as [->|(rs & b & m & Hn & Hb & Hs & Hl & ->)]; cbn; [by split_and!|].
    assert (Hrs : records_in (mkMemoryFile b m) = rs)
      by (unfold records_in; cbn; by rewrite (decode_encode _ _ Hb)).
    split_and!; [set_solver|done|by repeat constructor| |set_solver].
    constructor; [|done]. unfold readable. rewrite Hrs. cbn. split_and!; [by apply decode_encode|done|].
    eapply continues_distinct; [by eapply next_records_continue|done|done|constructor].
  - destruct He as [->|(rs & b & m & Hn & Hb & Hs & Hl & ->)]; cbn.
    { rewrite N.eqb_refl. split_and!; [done..|set_solver]. }
    assert (Hlt : mf_modified g < m).
    { unfold timely in Ht. destruct Hs as [Hs|[e Hs]]; by rewrite Hs in Ht. }
    assert (Hrs : records_in (mkMemoryFile b m) = rs)
      by (unfold records_in; cbn; by rewrite (decode_encode _ _ Hb)).
    destruct (mf_modified g =? m) eqn:Em; [Nbool; lia|]. apply next_records_continue in Hn.
    assert (Hfo : follows (mkMemoryFile b m) g).
    { split; [done|]. rewrite Hrs. by eapply continues_evolve. }
    apply Forall_cons in Hr as [(Hd & Hlen & Hnd) Hr]. inversion_clear Ho as [|? ? Ho' Hall].
    split_and!; [set_solver|done| | |set_solver].
    + constructor; [by constructor|]. constructor; [done|]. eapply Forall_impl; [exact Hall|].
      intros x [Hx1 Hx2]. destruct Hfo as [H1 H2]. split; [lia|by etrans].
    + constructor; [|by constructor]. unfold readable. rewrite Hrs. cbn.
      split_and!; [by apply decode_encode|done|]. by eapply continues_distinct.
Qed.

(** *** Reading without the lock *)

Lemma snapshot_shows recent path o sn rs :
  opening_from recent o -> read_memory_file_snapshot path o = Ok sn ->
  records_of_snapshot sn = Ok rs -> shows recent (cache (sn_fingerprint sn) rs).
Proof.
  intros Ho Hs Hr. split; [done|]. cbn. destruct o as [|e|[m|e] b]; try done.
  - injection Hs as <-. by injection Hr as <-.
  - cbn in Hs. destruct (_ <? _); [done|]. destruct b as [b|e]; [|done].
    destruct (_ <? _); [done|]. injection Hs as <-. destruct Ho as (f & Hf & -> & ->).
    exists f. split_and!; [done..|]. unfold records_of_snapshot in Hr. cbn in Hr.
    unfold records_in. destruct (decode (mf_bytes f)); [|done]. by injection Hr as <-.
Qed.

(** The state a reader leaves: a cache that shows some version, and the same file. *)
Definition reads (vs : list MemoryFile) (s s' : MemoryStore) : Prop :=
  ms_path s' = ms_path s /\ ms_file s' = ms_file s
  /\ forall e, ms_cache s' = Some e -> shows vs e.

Section Reader.
Context (vs recent : list MemoryFile) (s : MemoryStore).
Context (stamps : forall f g, f ∈ vs -> g ∈ vs -> stamp f = stamp g -> f = g).
Context (recent_vs : recent ⊆ vs).

(** A cached version that answers for a recent one is that version. *)
Lemma hit_shows e fp :
  shows vs e -> ce_fingerprint e = fp ->
  match fp with None => True | Some x => exists f, f ∈ recent /\ x = stamp f end -> shows recent e.
Proof.
  intros [He Hf] <- Hfp. split; [done|]. destruct (ce_fingerprint e) as [x|]; [|done].
  destruct Hf as (f & Hin & -> & Hr), Hfp as (g & Hg & E). exists g. split_and!; [done..|].
  by rewrite <- (stamps f g Hin (recent_vs _ Hg) E).
Qed.

Lemma read_attempt_shows path a :
  (forall e, ms_cache s = Some e -> shows vs e) -> attempt_from recent a ->
  let out := read_attempt is_alphanumeric to_lowercase path a s in
  reads vs s (snd out) /\ (forall e, fst out = Ok (Some e) -> shows recent e).
Proof.
  intros Hc (Hb & Ho & _). cbn zeta. unfold read_attempt, bind, ret.
  assert (Hsame : reads vs s s) by done.
  destruct (memory_file_fingerprint (ra_before a)) as [fp|e] eqn:Efp; [|done].
  destruct (option_filter _ (ms_cache s)) as [e|] eqn:Ehit.
  { split; [done|]. intros e' [= <-]. destruct (ms_cache s) as [e'|]; [|done]. cbn in Ehit.
    case_bool_decide as Hfp; [|done]. injection Ehit as <-. apply (hit_shows e' fp); [by apply Hc|done|].
    destruct (ra_before a) as [|x|m]; [by injection Efp as <-|done|]. injection Efp as <-.
    by destruct Hb as (f & Hf & ->); exists f. }
  destruct (read_memory_file_snapshot path (ra_opening a)) as [sn|] eqn:Esn; [|done].
  destruct (records_of_snapshot sn) as [rs|] eqn:Ers; [|done].
  destruct (memory_file_fingerprint (ra_after a)) as [after|]; [|done].
  destruct (negb _); [done|]. assert (Hsh := snapshot_shows recent path _ sn rs Ho Esn Ers).
  cbn. split; [split_and!; [done..|]|]; intros e [= <-]; [|done]. by eapply shows_more.
Qed.
End Reader.

(** What a reader gets: an entry that shows one of the versions it was told about. *)
Definition reads_one (vs recent : list MemoryFile) (s : MemoryStore)
    (out : result MemoryError MemoryCacheEntry * MemoryStore) : Prop :=
  reads vs s (snd out) /\ (forall e, fst out = Ok e -> shows recent e).

Lemma reads_trans vs s s1 s2 : reads vs s s1 -> reads vs s1 s2 -> reads vs s s2.
Proof. intros (P1 & F1 & _) (P2 & F2 & C2). split_and!; [congruence..|done]. Qed.

Lemma load_for_read_shows vs recent s an :
  (forall f g, f ∈ vs -> g ∈ vs -> stamp f = stamp g -> f = g) -> recent ⊆ vs ->
  is_Some (ms_path s) -> (forall e, ms_cache s = Some e -> shows vs e) -> answers_from recent an ->
  reads_one vs recent s (load_cached_for_read is_alphanumeric to_lowercase an s).
Proof.
  intros Hst Hsub [path Hp] Hc (H1 & H2 & H3). unfold load_cached_for_read, bind, ret. rewrite Hp.
  destruct (read_attempt_shows vs recent s Hst Hsub path _ Hc H1) as [R1 E1].
  destruct (read_attempt _ _ path _ s) as [[[e|]|e] s1]; cbn in R1, E1;
    [split; [done|intros e' [= <-]; by apply E1]| |by split].
  destruct (read_attempt_shows vs recent s1 Hst Hsub path _ (proj2 (proj2 R1)) H2) as [R2 E2].
  destruct (read_attempt _ _ path _ s1) as [[[e|]|e] s2]; cbn in R2, E2;
    apply (reads_trans vs s s1 s2 R1) in R2; [split; [done|intros e' [= <-]; by apply E2]| |by split].
  destruct (read_memory_file_snapshot path (an_last an)) as [sn|] eqn:Esn; [|by split].
  destruct (records_of_snapshot sn) as [rs|] eqn:Ers; [|by split].
  assert (Hsh := snapshot_shows recent path _ sn rs H3 Esn Ers). destruct R2 as (P2 & F2 & C2).
  split; [split_and!; [done..|]|]; cbn; intros e [= <-]; [|done]. by eapply shows_more.
Qed.

Lemma retrieve_shows now an query sc limit vs recent s l :
  (forall f g, f ∈ vs -> g ∈ vs -> stamp f = stamp g -> f = g) -> recent ⊆ vs ->
  is_Some (ms_path s) -> (forall e, ms_cache s = Some e -> shows vs e) -> answers_from recent an ->
  let out := retrieve is_alphanumeric to_lowercase iter now an query sc limit s in
  reads vs s (snd out)
  /\ (fst out = Ok l -> l = [] \/ exists e, shows recent e
        /\ l = retrieve_from is_alphanumeric to_lowercase iter now query sc limit e).
Proof.
  intros Hst Hsub Hp Hc Ha. cbn zeta. unfold retrieve. destruct (_ || _).
  { split; [done|]. intros [= <-]. by left. }
  destruct (load_for_read_shows vs recent s an Hst Hsub Hp Hc Ha) as [R E]. unfold bind.
  destruct (load_cached_for_read _ _ an s) as [[e|x] s1]; cbn in *; [|done].
  split; [done|]. intros [= <-]. right. eauto.
Qed.

Lemma coherent_stamps w :
  coherent w -> forall f g, f ∈ w_versions w -> g ∈ w_versions w -> stamp f = stamp g -> f = g.
Proof.
  intros [_ _ Ho _ _]. induction Ho as [|x vs _ IH Hall]; intros f g; [by intros ?%elem_of_nil|].
  rewrite Forall_forall in Hall.
  assert (Hne : forall y, y ∈ vs -> stamp y <> stamp x).
  { intros y Hy [= _ E]. destruct (Hall y Hy) as [Hlt _]. lia. }
  rewrite !elem_of_cons. intros [->|Hf] [->|Hg] E; [done|by destruct (Hne g)|by destruct (Hne f)|auto].
Qed.

Lemma current_readable w g : coherent w -> ms_file (w_store w) = Some g -> readable g.
Proof.
  intros H E. rewrite (co_file _ H) in E. eapply Forall_forall; [apply (co_readable _ H)|].
  destruct (w_versions w); [done|]. injection E as ->. by left.
Qed.

Lemma request_coherent q k f w s' :
  coherent w -> timely f (ms_file (w_store w)) -> fresh_id q (ms_file (w_store w)) ->
  effect f (next_records q k (durable (ms_file (w_store w)))) (w_store w) s' ->
  coherent (mkWorld s' (record_version (ms_file (w_store w)) (ms_file s') (w_versions w))).
Proof.
  intros H Ht Hfr He. destruct (effect_versions q k f w _ H Ht Hfr He) as (V1 & V2 & V3 & V4 & V5).
  constructor; cbn; [rewrite (ef_path _ _ _ _ He); apply (co_path _ H)|done..|].
  intros e E. destruct (ef_cache _ _ _ _ He) as [C|(e' & C & Hs)]; rewrite C in E.
  - eapply shows_more; [exact V1|]. by apply (co_cache _ H).
  - injection E as <-. by eapply shows_more.
Qed.

(** Another process leaves this one's cache alone; what it does to the file does not depend
    on a cache. *)
Lemma foreign_effect q k f w :
  coherent w ->
  effect f (next_records q k (durable (ms_file (w_store w)))) (w_store w)
    (set_cache (ms_cache (w_store w)) (serve q k f (set_cache None (w_store w)))).
Proof.
  intros H. destruct (co_path _ H) as [path Hp].
  destruct (serve_effect q k f (set_cache None (w_store w)) path Hp) as [P F _].
  - cbn. intros g. by apply current_readable.
  - constructor; [done|exact F|by left].
Qed.

(** Every reachable world is coherent. *)
Lemma reachable_coherent found tr w :
  reachable found tr w -> coherent w.
Proof.
  induction 1 as [path Hf|tr w q k f s' _ IH Ht Hfr ->|tr w q k f s' _ IH Ht Hfr ->
                 |tr w now an query sc limit _ IH Ha].
  - constructor; cbn; [done|by destruct found|by destruct found; repeat constructor| |done].
    destruct found as [f|]; cbn; [|done]. constructor; [by apply Hf|done].
  - eapply request_coherent; [done..|]. destruct (co_path _ IH) as [path Hp].
    apply (serve_effect q k f (w_store w) path Hp). intros g. by apply current_readable.
  - eapply request_coherent; [done..|]. by apply foreign_effect.
  - destruct (retrieve_shows now an query sc limit (w_versions w) (w_versions w) (w_store w) []
                (coherent_stamps w IH) ltac:(done) (co_path _ IH) (co_cache _ IH) Ha) as [(P & F & C) _].
    destruct IH as [I1 I2 I3 I4 I5]. constructor; cbn; [by rewrite P|by rewrite F|done..].
Qed.

(** ** Who vouched for an active memory *)

(** Two tasks, a person, or nobody because the process found it active. *)
Definition vouched (found : option MemoryFile) (tr : list Request) (r : MemoryRecord) : Prop :=
  (NoDup (supporting_task_ids r) /\ (2 <= length (supporting_task_ids r))%nat)
  \/ (exists tasks reviewer, RChange (CActivate (memory_id r) tasks reviewer true) ∈ tr)
  \/ (exists r0, r0 ∈ durable found /\ memory_id r0 = memory_id r /\ status r0 = MemoryStatus.Active).

Definition vouching (found : option MemoryFile) (tr : list Request) (rs : list MemoryRecord) : Prop :=
  forall r, r ∈ rs -> status r = MemoryStatus.Active -> vouched found tr r.

(** A change after which an active record is as it was, as far as vouching is concerned. *)
Definition keeps_support (r r' : MemoryRecord) : Prop :=
  status r' = MemoryStatus.Active ->
  status r = MemoryStatus.Active /\ memory_id r' = memory_id r
  /\ supporting_task_ids r' = supporting_task_ids r.

Lemma vouched_keeps found tr q r r' :
  keeps_support r r' -> (status r = MemoryStatus.Active -> vouched found tr r) ->
  status r' = MemoryStatus.Active -> vouched found (q :: tr) r'.
Proof.
  intros Hk Hv Ha. destruct (Hk Ha) as (Hr & Hid & Hs). unfold vouched. rewrite Hid, Hs.
  destruct (Hv Hr) as [H|[(t & v & H)|H]]; [by left|right; left; exists t, v; by right|by right; right].
Qed.

Lemma migrate_keeps r : keeps_support r (migrate r).
Proof. unfold migrate. intros Ha. destruct (is_legacy_automatic_memory r); [by destruct r|done]. Qed.
Lemma expire_at_keeps now r : keeps_support r (expire_at now r).
Proof. unfold expire_at. intros Ha. destruct (_ && _); [by destruct r|done]. Qed.
Lemma feedback_keeps kind reason r : keeps_support r (feedback_record kind reason r).
Proof. intros Ha. by destruct kind, r. Qed.
Lemma roll_back_keeps reason r : keeps_support r (roll_back reason r).
Proof. intros Ha. by destruct r. Qed.
Lemma expired_record_keeps r : keeps_support r (expired_record r).
Proof. intros Ha. by destruct r. Qed.

Lemma keeps_support_trans a b c : keeps_support a b -> keeps_support b c -> keeps_support a c.
Proof. intros H1 H2 Hc. destruct (H2 Hc) as (Hb & -> & ->). by apply H1. Qed.

Lemma vouching_map found tr q f rs :
  (forall r, keeps_support r (f r)) -> vouching found tr rs -> vouching found (q :: tr) (f <$> rs).
Proof. intros Hf Hv r' (r & -> & Hr)%list_elem_of_fmap. eapply vouched_keeps; [apply Hf|auto]. Qed.

Lemma refresh_map k rs : refresh k rs = (fun r => expire_at (at_mark k) (migrate r)) <$> rs.
Proof. unfold refresh. cbn. by rewrite <- list_fmap_compose. Qed.

Lemma vouching_refresh found tr q k rs : vouching found tr rs -> vouching found (q :: tr) (refresh k rs).
Proof.
  rewrite refresh_map. apply vouching_map. intros r. eapply keeps_support_trans; [apply migrate_keeps|].
  apply expire_at_keeps.
Qed.

(** Replacing one record. *)
Lemma vouching_update found tr id f rs rs' r' :
  update_first id f rs = Ok (rs', r') -> vouching found tr rs ->
  (forall r, r ∈ rs -> memory_id r = id -> f r = Ok r' -> status r' = MemoryStatus.Active ->
     vouched found tr r') -> vouching found tr rs'.
Proof.
  intros (l & r & l' & -> & -> & Hid & Hf)%update_first_ok Hv Hn x.
  rewrite elem_of_app, elem_of_cons. intros [Hx|[->|Hx]].
  - apply Hv. set_solver.
  - eapply Hn; [|exact Hid|exact Hf]. set_solver.
  - apply Hv. set_solver.
Qed.

Lemma vouching_update_keeps found tr q id g rs rs' r' :
  update_first id (fun r => Ok (g r)) rs = Ok (rs', r') -> (forall r, keeps_support r (g r)) ->
  vouching found tr rs -> vouching found (q :: tr) rs'.
Proof.
  intros E Hg Hv.
  assert (Hv' : vouching found (q :: tr) rs).
  { rewrite <- (list_fmap_id rs). apply vouching_map; [done|exact Hv]. }
  eapply vouching_update; [exact E|exact Hv'|]. intros r Hr _ [= <-]. apply (vouched_keeps _ _ _ r); auto.
Qed.

Lemma sort_ids_nodup l : NoDup (dedup (sort_ids l)).
Proof. apply (dedup_nodup N.le). apply StronglySorted_merge_sort; apply _. Qed.

Lemma change_vouching found tr c k rs rs' r' :
  change_of c k rs = Ok (rs', r') -> vouching found tr rs -> vouching found (RChange c :: tr) rs'.
Proof.
  intros E Hv.
  destruct c as [fresh c text|id tasks reviewer human|id kind reason|id reason|id]; cbn in E.
  - unfold quarantine_records in E. cbn zeta in E. destruct (bool_decide _); [done|].
    destruct (candidate_expiry _ _ _) as [x|]; [|done]. injection E as <- <-.
    intros r. rewrite elem_of_app, list_elem_of_singleton. intros [Hr| ->]; [|done].
    by apply (vouching_refresh found tr _ k rs).
  - apply (vouching_refresh _ _ (RChange (CActivate id tasks reviewer human)) k) in Hv.
    eapply vouching_update; [exact E|exact Hv|]. intros r _ <- (_ & -> & Hs)%activate_record_ok _.
    destruct Hs as [Hs| ->].
    + left. destruct r. cbn in *. split; [apply sort_ids_nodup|lia].
    + right. left. exists tasks, reviewer. destruct r. by left.
  - by eapply vouching_update_keeps; [|apply feedback_keeps|].
  - by eapply vouching_update_keeps; [|apply roll_back_keeps|].
  - by eapply vouching_update_keeps; [|apply expired_record_keeps|].
Qed.

Lemma next_vouching found tr q k rs rs' :
  next_records q k rs = Some rs' -> vouching found tr rs -> vouching found (q :: tr) rs'.
Proof.
  destruct q as [c|]; cbn [next_records].
  - destruct (change_of c k rs) as [[l r]|] eqn:E; [|done]. intros [= ->]. by eapply change_vouching.
  - unfold listed_records, migrate_legacy_active_memory, mark_expired.
    destruct (existsb is_legacy_automatic_memory rs).
    + intros [= <-]. apply vouching_map, migrate_keeps.
    + destruct (existsb _ (migrate <$> rs)); [|done]. intros [= <-] Hv.
      by apply (vouching_refresh found tr RList k rs).
Qed.

Lemma vouching_weaken found tr q rs : vouching found tr rs -> vouching found (q :: tr) rs.
Proof. intros Hv. rewrite <- (list_fmap_id rs). by apply vouching_map. Qed.

Lemma request_vouching found tr q k f w s' :
  coherent w -> (forall g, g ∈ w_versions w -> vouching found tr (records_in g)) ->
  effect f (next_records q k (durable (ms_file (w_store w)))) (w_store w) s' ->
  forall g, g ∈ record_version (ms_file (w_store w)) (ms_file s') (w_versions w) ->
    vouching found (q :: tr) (records_in g).
Proof.
  intros H Hv [_ He _] g Hg.
  assert (Hcur : vouching found tr (durable (ms_file (w_store w)))).
  { rewrite (co_file _ H). destruct (w_versions w) as [|h vs]; [by intros ? ?%elem_of_nil|].
    apply Hv. by left. }
  destruct He as [E|(rs & b & m & Hn & Hb & _ & _ & E)]; rewrite E in Hg; unfold record_version in Hg.
  - assert (Hin : g ∈ w_versions w).
    { rewrite (co_file _ H) in Hg. destruct (w_versions w); cbn in Hg; [done|]. by rewrite N.eqb_refl in Hg. }
    by apply vouching_weaken, Hv.
  - assert (Hin : g = mkMemoryFile b m \/ g ∈ w_versions w).
    { destruct (ms_file (w_store w)); [destruct (_ =? _)|]; set_solver. }
    destruct Hin as [->|Hin]; [|by apply vouching_weaken, Hv].
    unfold records_in. cbn. rewrite (decode_encode _ _ Hb). by eapply next_vouching.
Qed.

(** C18 (invariant): in every version of the file a memory is active only if two different
    tasks support it, or a person approved it by a request that was served, or it was
    active in the file the process found. No sequence of requests by any number of
    processes, with failing reads and saves, gets around this. *)
Theorem active_memory_is_vouched found tr w f r :
  reachable found tr w -> f ∈ w_versions w -> r ∈ records_in f -> status r = MemoryStatus.Active ->
  vouched found tr r.
Proof.
  intros H Hf Hr. revert f Hf r Hr.
  enough (Hall : forall g, g ∈ w_versions w -> vouching found tr (records_in g)) by exact Hall.
  induction H as [path Hfound|tr w q k f s' Hw IH Ht Hfr ->|tr w q k f s' Hw IH Ht Hfr ->|]; [| | |done].
  - intros g Hg r Hr Ha. destruct found as [h|]; cbn in Hg; [|by apply elem_of_nil in Hg].
    apply list_elem_of_singleton in Hg as ->. right. right. by exists r.
  - apply reachable_coherent in Hw. destruct (co_path _ Hw) as [path Hp].
    apply (request_vouching found tr q k f w _ Hw IH), (serve_effect q k f (w_store w) path Hp).
    intros g. by apply current_readable.
  - apply reachable_coherent in Hw.
    by apply (request_vouching found tr q k f w _ Hw IH), foreign_effect.
Qed.

(** ** Retrieval *)

Context (iter_elements : forall s, iter s ≡ₚ elements s).

(** Taken back, or marked with a reason not to use it; the note that a memory from before
    the quarantine waits for evidence or a review is no such reason. *)
Definition withdrawn (r : MemoryRecord) : Prop :=
  retracted r \/ exists reason, reason ∈ invalidation_refs r /\ reason <> legacy_note.

Lemma evolves_withdrawn r r' : evolves r r' -> withdrawn r -> withdrawn r'.
Proof.
  intros [_ [k E] Hr] [H|(reason & Hin & Hne)]; [left; auto|right]. exists reason. rewrite E. set_solver.
Qed.

Lemma retrievable_not_withdrawn now sc r : retrievable now sc r = true -> ~ withdrawn r.
Proof.
  unfold retrievable. intros H [Hr|(reason & Hin & _)]; boolhyps; [by eapply not_retracted_active|].
  match goal with E : invalidation_refs r = [] |- _ => rewrite E in Hin end. by apply not_elem_of_nil in Hin.
Qed.

Lemma full_scan_elem now query sc limit rs m :
  m ∈ full_scan is_alphanumeric to_lowercase now query sc limit rs ->
  rm_record m ∈ rs /\ retrievable now sc (rm_record m) = true.
Proof.
  unfold full_scan. intros Hm%subseteq_take. rewrite merge_sort_Permutation in Hm.
  apply list_elem_of_omap in Hm as (r & Hr & E). rewrite (scan_one_record _ _ _ _ _ _ _ E).
  split; [done|]. unfold scan_one in E. cbn zeta in E. destruct (_ && _) eqn:Eb; [|done].
  by boolhyps.
Qed.

(** A shown version answers like a full scan of its records. *)
Lemma shows_full_scan vs e now query sc limit :
  Forall readable vs -> shows vs e ->
  retrieve_from is_alphanumeric to_lowercase iter now query sc limit e
  = full_scan is_alphanumeric to_lowercase now query sc limit (ce_records e).
Proof.
  intros Hr [He Hf]. rewrite He at 1. apply retrieve_from_full_scan; [done|].
  destruct (ce_fingerprint e) as [fp|]; [|rewrite Hf; constructor].
  destruct Hf as (f & Hin & _ & ->). rewrite Forall_forall in Hr. by apply Hr.
Qed.

(** When nobody writes meanwhile the first attempt succeeds, with the present records. *)
Lemma quiet_read w :
  coherent w ->
  exists e s, load_cached_for_read is_alphanumeric to_lowercase (quiet (ms_file (w_store w))) (w_store w)
              = (Ok e, s)
    /\ shows (w_versions w) e /\ ce_records e = durable (ms_file (w_store w)).
Proof.
  intros H. destruct (co_path _ H) as [path Hp]. assert (Hread := fun g => current_readable w g H).
  assert (Hcur : option_list (ms_file (w_store w)) ⊆ w_versions w).
  { rewrite (co_file _ H). destruct (w_versions w); set_solver. }
  unfold load_cached_for_read, read_attempt, bind, ret. rewrite Hp. cbn [quiet an_attempts fst ra_before].
  assert (Efp : memory_file_fingerprint (stat_of (ms_file (w_store w))) = Ok (stamp <$> ms_file (w_store w)))
    by by destruct (ms_file (w_store w)).
  rewrite Efp. destruct (option_filter _ _) as [e|] eqn:Ehit.
  - exists e. eexists. split; [done|]. destruct (ms_cache (w_store w)) as [e'|] eqn:Ec; [|done].
    cbn in Ehit. case_bool_decide as Hfp; [|done]. injection Ehit as <-.
    assert (Hs := co_cache _ H e' Ec). split; [done|]. destruct Hs as [_ Hs]. rewrite Hfp in Hs.
    destruct (ms_file (w_store w)) as [f|]; cbn in *; [|done]. destruct Hs as (g & Hg & E & ->).
    f_equal. symmetry. apply (coherent_stamps w H); [apply Hcur; by left|done..].
  - cbn [ra_opening ra_after]. set (e := cache (stamp <$> ms_file (w_store w)) (durable (ms_file (w_store w)))).
    exists e, (set_cache (Some e) (w_store w)). subst e. assert (Hsh := shows_file (ms_file (w_store w)) (w_versions w) Hcur).
    destruct (ms_file (w_store w)) as [f|]; cbn; [|by split_and!].
    destruct (Hread f eq_refl) as (Hd & Hl & _). destruct (_ <? _) eqn:E; [Nbool; lia|]. cbn.
    unfold records_of_snapshot. cbn. rewrite Hd. cbn. unfold stamp. case_bool_decide; [|done].
    cbn. by split_and!.
Qed.

(** C19 (equivalence): in every reachable world a retrieval during which nobody writes, through
    the cache and the inverted index, gives what a full scan of the records in the file
    gives: the records in use that share a word with the query, best first, cut at the
    limit. It never fails. Saves are assumed to give the file strictly later times
    ([timely] in [reachable]). *)
Theorem retrieval_is_a_full_scan found tr w now query sc limit :
  reachable found tr w ->
  fst (retrieve is_alphanumeric to_lowercase iter now (quiet (ms_file (w_store w))) query sc limit
         (w_store w))
  = Ok (full_scan is_alphanumeric to_lowercase now query sc limit (durable (ms_file (w_store w)))).
Proof.
  intros H%reachable_coherent. unfold retrieve. destruct (_ || _) eqn:Eb.
  - cbn. f_equal. unfold full_scan. apply orb_true_iff in Eb as [Eb|Eb]; Nbool; boolhyps.
    + enough (omap (scan_one is_alphanumeric to_lowercase now query sc) (durable (ms_file (w_store w))) = [])
        as -> by by destruct (N.to_nat limit).
      induction (durable _) as [|r rs IH]; [done|]. cbn. rewrite IH.
      unfold scan_one, shared_terms. rewrite Eb. cbn zeta.
      rewrite intersection_empty_l_L, elements_empty. cbn. by rewrite andb_comm.
    + by subst limit.
  - destruct (quiet_read w H) as (e & s & E & Hs & Hr). unfold bind. rewrite E. cbn. f_equal.
    rewrite (shows_full_scan (w_versions w) e _ _ _ _ (co_readable _ H) Hs). by rewrite Hr.
Qed.

(** The later of two versions continues the earlier one. *)
Lemma later_version_evolves w f0 f :
  coherent w -> f0 ∈ w_versions w -> f ∈ w_versions w -> mf_modified f0 <= mf_modified f ->
  records_evolve (records_in f0) (records_in f).
Proof.
  intros [_ _ Ho _ _]. induction Ho as [|x vs _ IH Hall]; [by intros ?%elem_of_nil|].
  rewrite Forall_forall in Hall. rewrite !elem_of_cons. intros [->|H0] [->|Hf] Hle.
  - done.
  - destruct (Hall f Hf) as [? _]. lia.
  - by apply Hall.
  - auto.
Qed.

Definition since (f0 : MemoryFile) (vs : list MemoryFile) : list MemoryFile :=
  List.filter (fun f => mf_modified f0 <=? mf_modified f) vs.

(** C17 (safety): once a version of the file has a record that was rolled back, expired or
    given another reason not to use it, no retrieval that is answered from this version or
    later ones returns that memory, whatever this and other processes have done before and
    since, and even when they write while it reads. The note that a memory from before the
    quarantine waits for evidence or a review does not count as such a reason. It is
    assumed that every save gives the file a strictly later time ([timely] in
    [reachable]). *)
Theorem withdrawn_memory_stays_out found tr w f0 r now an query sc limit l :
  reachable found tr w -> f0 ∈ w_versions w -> r ∈ records_in f0 -> withdrawn r ->
  answers_from (since f0 (w_versions w)) an ->
  fst (retrieve is_alphanumeric to_lowercase iter now an query sc limit (w_store w)) = Ok l ->
  forall m, m ∈ l -> memory_id (rm_record m) <> memory_id r.
Proof.
  intros H%reachable_coherent H0 Hr Hw Ha El m Hm Hid.
  assert (Hsub : since f0 (w_versions w) ⊆ w_versions w)
    by (intros f Hf; by apply elem_of_lfilter in Hf as []).
  destruct (retrieve_shows now an query sc limit (w_versions w) _ (w_store w) l
              (coherent_stamps w H) Hsub (co_path _ H) (co_cache _ H) Ha) as [_ Hl].
  destruct (Hl El) as [->|(e & Hs & ->)]; [by apply elem_of_nil in Hm|].
  rewrite (shows_full_scan (w_versions w)) in Hm;
    [|apply (co_readable _ H)|by eapply shows_more].
  apply full_scan_elem in Hm as [Hin Hret]. destruct Hs as [_ Hf].
  destruct (ce_fingerprint e); [|rewrite Hf in Hin; by apply elem_of_nil in Hin].
  destruct Hf as (f & [Hfv Hle]%elem_of_lfilter & _ & Ef). rewrite Ef in Hin. Nbool.
  destruct (records_evolve_elem _ _ r (later_version_evolves w f0 f H H0 Hfv Hle) Hr) as (r' & Hr' & Hev).
  assert (Hnd : NoDup (memory_id <$> records_in f))
    by (by apply (proj1 (Forall_forall _ _) (co_readable _ H))).
  assert (rm_record m = r') as E.
  { apply (NoDup_fmap_elem memory_id (records_in f)); [done..|]. by rewrite (evolves_id _ _ Hev). }
  apply (retrievable_not_withdrawn _ _ _ Hret). rewrite E. by eapply evolves_withdrawn.
Qed.

End Life.

(** ** Concrete runs *)

(** A file whose bytes are the records themselves. *)
#[local] Instance plain_codec : MemoryCodec := {
  Bytes := list MemoryRecord; encode := Ok; decode := Ok; bytes_len := fun rs => N.of_nat (length rs) }.
#[local] Instance plain_codec_laws : MemoryCodecLaws.
Proof. constructor. by intros records b [= ->]. Qed.

Definition ascii_ids (n : N) : string := show n.
Definition no_dates (s : string) : result string DateTime := Err "not a date".

Definition fact_text : string := "cargo test validates the runtime store".
Definition fact (task : TaskId) : MemoryCandidate :=
  mkMemoryCandidate None task [100] MemoryScope.Project 80 [] None "proposed".
Definition noon : Clock := mkClock 1000 1000 1000.

(** One process quarantines a fact of task 7, another activates it for task 8, and it is
    rolled back at the end. *)
Definition first_store : MemoryStore := store_at "memory.json" None.
Abbreviation serve_plain := (serve is_ascii_alphanumeric to_ascii_lowercase ascii_ids no_dates).
Definition quarantine_fact : Request := RChange (CQuarantine (1, 2) (fact 7) fact_text).
Definition activate_fact : Request := RChange (CActivate 1 [8] None false).
Definition roll_fact_back : Request := RChange (CRollback 1 "superseded").
Definition foreign_plain (q : Request) (f : Faults) (s : MemoryStore) : MemoryStore :=
  set_cache (ms_cache s) (serve_plain q noon f (set_cache None s)).
Definition quarantined_store := serve_plain quarantine_fact noon (no_faults 10) first_store.
Definition active_store := foreign_plain activate_fact (no_faults 20) quarantined_store.
Definition rolled_back_store := serve_plain roll_fact_back noon (no_faults 30) active_store.

Abbreviation reach := (reachable is_ascii_alphanumeric to_ascii_lowercase ascii_ids no_dates elements None).

Definition versions_of (ss : list MemoryStore) : list MemoryFile := omap ms_file ss.
Definition active_world : World := mkWorld active_store (versions_of [active_store; quarantined_store]).
Definition rolled_back_world : World :=
  mkWorld rolled_back_store (versions_of [rolled_back_store; active_store; quarantined_store]).

Lemma active_world_reachable : reach [activate_fact; quarantine_fact] active_world.
Proof.
  assert (H0 : reach [] (mkWorld first_store [])) by (by apply (reach_start _ _ _ _ _ None "memory.json")).
  assert (H1 : reach [quarantine_fact] (mkWorld quarantined_store (versions_of [quarantined_store]))).
  { apply (reach_own _ _ _ _ _ _ _ _ quarantine_fact noon (no_faults 10) quarantined_store H0);
      [done| |done]. cbn. by apply not_elem_of_nil. }
  apply (reach_foreign _ _ _ _ _ _ _ _ activate_fact noon (no_faults 20) active_store H1); [|done..].
  vm_compute. reflexivity.
Qed.

Lemma rolled_back_world_reachable :
  reach [roll_fact_back; activate_fact; quarantine_fact] rolled_back_world.
Proof.
  apply (reach_own _ _ _ _ _ _ _ _ roll_fact_back noon (no_faults 30) rolled_back_store
           active_world_reachable); [|done..].
  vm_compute. reflexivity.
Qed.

Abbreviation retrieve_plain := (retrieve is_ascii_alphanumeric to_ascii_lowercase elements).
Definition question : string := "validate runtime with cargo test".

Lemma retrieval_is_a_full_scan_witness :
  let file := ms_file (w_store active_world) in
  fst (retrieve_plain 2000%Z (quiet file) question MemoryScope.Project 3 (w_store active_world))
  = Ok (full_scan is_ascii_alphanumeric to_ascii_lowercase 2000%Z question MemoryScope.Project 3
          (durable file))
  /\ rm_matched_terms <$> full_scan is_ascii_alphanumeric to_ascii_lowercase 2000%Z question
       MemoryScope.Project 3 (durable file) = [["cargo"; "runtime"; "test"]].
Proof.
  split; [|vm_compute; reflexivity].
  exact (retrieval_is_a_full_scan is_ascii_alphanumeric to_ascii_lowercase ascii_ids no_dates elements
           (fun s => Permutation_refl (elements s)) None _ active_world 2000%Z question MemoryScope.Project 3
           active_world_reachable).
Defined.

Definition record_of (s : MemoryStore) : MemoryRecord :=
  default (quarantined_record to_ascii_lowercase no_dates noon (0, 0) [] (fact 0) (fact 0) "" None)
    (head (durable (ms_file s))).
Definition file_of (s : MemoryStore) : MemoryFile := default (mkMemoryFile [] 0) (ms_file s).

Lemma withdrawn_memory_stays_out_witness :
  memory_id (record_of rolled_back_store) = 1
  /\ forall m, m ∈ [] -> memory_id (rm_record m) <> memory_id (record_of rolled_back_store).
Proof.
  split; [vm_compute; reflexivity|].
  assert (Hf : file_of rolled_back_store ∈ w_versions rolled_back_world) by (vm_compute; left).
  assert (Hr : record_of rolled_back_store ∈ records_in (file_of rolled_back_store)) by (vm_compute; left).
  assert (Hw : withdrawn (record_of rolled_back_store)) by (left; left; vm_compute; reflexivity).
  assert (Ha : answers_from (since (file_of rolled_back_store) (w_versions rolled_back_world))
                 (quiet (ms_file rolled_back_store))).
  { assert (Ho : exists f, f ∈ since (file_of rolled_back_store) (w_versions rolled_back_world)
               /\ ms_file rolled_back_store = Some f)
      by (exists (file_of rolled_back_store); split; vm_compute; [left|reflexivity]).
    destruct Ho as (f & Hin & ->). unfold answers_from, attempt_from, quiet. cbn.
    split_and!; exists f; by split_and!. }
  assert (Hl : fst (retrieve_plain 2000%Z (quiet (ms_file rolled_back_store)) question
                      MemoryScope.Project 3 (w_store rolled_back_world)) = Ok []) by (vm_compute; reflexivity).
  exact (withdrawn_memory_stays_out is_ascii_alphanumeric to_ascii_lowercase ascii_ids no_dates elements
           (fun s => Permutation_refl (elements s)) None _ rolled_back_world _ _ 2000%Z _ question
           MemoryScope.Project 3 [] rolled_back_world_reachable Hf Hr Hw Ha Hl).
Defined.

Lemma active_memory_is_vouched_witness :
  supporting_task_ids (record_of active_store) = [7; 8]
  /\ vouched None [activate_fact; quarantine_fact] (record_of active_store).
Proof.
  split; [vm_compute; reflexivity|].
  assert (Hf : file_of active_store ∈ w_versions active_world) by (vm_compute; left).
  assert (Hr : record_of active_store ∈ records_in (file_of active_store)) by (vm_compute; left).
  assert (Ha : status (record_of active_store) = MemoryStatus.Active) by (vm_compute; reflexivity).
  exact (active_memory_is_vouched is_ascii_alphanumeric to_ascii_lowercase ascii_ids no_dates elements
           None _ active_world _ _ active_world_reachable Hf Hr Ha).
Defined.

(** *** What the rules do not cover *)

(** A memory for all projects of a user needs a person, says the gate; two tasks are enough. *)
Definition user_fact : MemoryCandidate :=
  mkMemoryCandidate None 7 [100] MemoryScope.User 80 [] None "proposed".
Example user_memory_without_a_person :
  let quarantined := match quarantine_records is_ascii_alphanumeric to_ascii_lowercase ascii_ids no_dates
                             noon (1, 2) user_fact fact_text [] with Ok (rs, _) => rs | Err _ => [] end in
  mpd_decision (evaluate default_gate user_fact fact_text) = MemoryPromotionDecisionKind.NeedsHumanReview
  /\ match activate_records ascii_ids noon 1 [8] None false quarantined with
     | Ok (_, r) => status r = MemoryStatus.Active /\ scope r = MemoryScope.User
     | Err _ => False
     end.
Proof. by vm_compute. Qed.

(** A memory from before the quarantine is put there to wait for evidence or a review.
    When it gets them it becomes active, but it is never found: the note of the migration
    stays with it. *)
Definition legacy_record : MemoryRecord :=
  mkMemoryRecord 1 fact_text MemoryScope.Project 80 7 [100] [] 1000 None 1 MemoryStatus.Active None
    [] [] None (Some "system") 0 0 0 0 None.
Example reviewed_legacy_memory_is_not_found :
  match activate_records ascii_ids noon 1 [7; 8] (Some "reviewer") true [legacy_record] with
  | Ok (rs, r) =>
      status r = MemoryStatus.Active
      /\ full_scan is_ascii_alphanumeric to_ascii_lowercase 2000%Z question MemoryScope.Project 3 rs = []
  | Err _ => False
  end.
Proof. by vm_compute. Qed.

(** A listing that migrates one record does not mark others that have expired. *)
Definition old_record : MemoryRecord :=
  mkMemoryRecord 2 "another fact" MemoryScope.User 80 7 [100] [] 0 (Some 500%Z) 2 MemoryStatus.Active None
    [7; 8] [] None (Some "someone") 0 0 0 0 None.
Example listing_skips_expiry :
  status <$> snd (listed_records noon [legacy_record; old_record])
    = [MemoryStatus.Quarantined; MemoryStatus.Active]
  /\ status <$> snd (listed_records noon [old_record]) = [MemoryStatus.Expired].
Proof. by vm_compute. Qed.

(** A rollback whose directory could not be synced reports an error and has been made. *)
Example unconfirmed_rollback_is_made :
  let f := mkFaults false None None (SaveUnconfirmed "sync failed" 30) in
  match rollback is_ascii_alphanumeric to_ascii_lowercase f 1 "superseded" active_store with
  | (Err (MemoryError.Io _), s) => status <$> durable (ms_file s) = [MemoryStatus.RolledBack]
  | _ => False
  end.
Proof. by vm_compute. Qed.
