(* ===== verification/FrameScheduler.v ===== *)
(** * Frames and events of the terminal

    The interactive loop of [golutra-agent-tui] takes its next event from three sources that
    have the first turn in rotation ([fair_select.rs]): a frame that is due, the keyboard,
    and the runtime's events. Frames are scheduled by [frame_scheduler.rs]: requests before a
    draw are merged into one deadline, and metrics are kept about streams and latencies.
    Instants are nanoseconds; the order in which a hash map gives its keys is an argument. *)
From stdpp Require Import gmap.
From S2P Require Import Prelude RustStr Core Events.
Open Scope N_scope. Open Scope rust_scope.

(** ** Three sources in rotation *)

Module Ready.
(*@ tui/src/fair_select.rs Ready *)
Inductive Ready (A B C : Type) := First (a : A) | Second (b : B) | Third (c : C).
Arguments First {A B C} a.
Arguments Second {A B C} b.
Arguments Third {A B C} c.
End Ready.
Abbreviation Ready := Ready.Ready.

Section FairSelect.
Context {A B C : Type}.

(** What polling the three futures gives: a value when it is ready. *)
Record Sources := mkSources { first : option A; second : option B; third : option C }.

Definition poll_slot (slot : N) (s : Sources) : option (Ready A B C) :=
  if slot =? 0 then Ready.First <$> first s
  else if slot =? 1 then Ready.Second <$> second s
  else Ready.Third <$> third s.

(** [for offset in 0..3]: the first ready slot from the priority on. *)
Fixpoint poll_from (priority : N) (offsets : list N) (s : Sources) : option (Ready A B C) * N :=
  match offsets with
  | [] => (None, priority)
  | offset :: rest =>
      let slot := (priority + offset) mod 3 in
      match poll_slot slot s with
      | Some r => (Some r, (slot + 1) mod 3)
      | None => poll_from priority rest s
      end
  end.

(** One poll of the future that [next] returns; [None] is [Poll::Pending]. *)
(*@ tui/src/fair_select.rs:23-36 next *)
Definition poll_next (priority : N) (s : Sources) : option (Ready A B C) * N :=
  poll_from priority [0; 1; 2] s.

(** [next(..).await]: polled until a source is ready. *)
(*@ tui/src/fair_select.rs next *)
Fixpoint next (priority : N) (polls : list Sources) : option (Ready A B C) * N :=
  match polls with
  | [] => (None, priority)
  | s :: polls' =>
      match poll_next priority s with
      | (Some r, p) => (Some r, p)
      | (None, p) => next p polls'
      end
  end.
End FairSelect.

(** ** Metrics *)

(*@ tui/src/frame_scheduler.rs MIN_FRAME_INTERVAL *)
Definition MIN_FRAME_INTERVAL : N := 8333334.

(** The last instant a Unix clock can name. *)
Definition instant_max : N := (2 ^ 63 - 1) * 10 ^ 9 + 999999999.
Definition checked_add (t d : N) : option N := if t + d <=? instant_max then Some (t + d) else None.

(*@ tui/src/frame_scheduler.rs RenderLatencyMetrics *)
Record RenderLatencyMetrics := mkRenderLatencyMetrics {
  samples : N; total_ms : N; max_ms : N; last_ms : N }.

(*@ tui/src/frame_scheduler.rs RenderLatencyMetrics::record *)
Definition record_latency (elapsed : N) (m : RenderLatencyMetrics) : RenderLatencyMetrics :=
  let millis := N.min (elapsed / 10 ^ 6) u64_max in
  mkRenderLatencyMetrics (samples m +|64 1) (total_ms m +|64 millis) (N.max (max_ms m) millis) millis.

(*@ tui/src/frame_scheduler.rs RenderMetrics *)
Record RenderMetrics := mkRenderMetrics {
  redraw_requests : N; redraws : N; coalesced_redraws : N; pending_redraws : N; delta_events : N; first_deltas : N;
  last_deltas : N; final_messages : N; stream_gaps : N; duplicate_frames : N; dropped_frames : N; pending_streams : N;
  first_token_latency : RenderLatencyMetrics; final_frame_latency : RenderLatencyMetrics }.

(** Assignments to the fields. *)
Definition set_redraw_requests (v : N) (m : RenderMetrics) : RenderMetrics :=
  let '(mkRenderMetrics _ b c d e f g h i j k l x y) := m in mkRenderMetrics v b c d e f g h i j k l x y.
Definition set_redraws (v : N) (m : RenderMetrics) : RenderMetrics :=
  let '(mkRenderMetrics a _ c d e f g h i j k l x y) := m in mkRenderMetrics a v c d e f g h i j k l x y.
Definition set_coalesced_redraws (v : N) (m : RenderMetrics) : RenderMetrics :=
  let '(mkRenderMetrics a b _ d e f g h i j k l x y) := m in mkRenderMetrics a b v d e f g h i j k l x y.
Definition set_pending_redraws (v : N) (m : RenderMetrics) : RenderMetrics :=
  let '(mkRenderMetrics a b c _ e f g h i j k l x y) := m in mkRenderMetrics a b c v e f g h i j k l x y.
Definition set_delta_events (v : N) (m : RenderMetrics) : RenderMetrics :=
  let '(mkRenderMetrics a b c d _ f g h i j k l x y) := m in mkRenderMetrics a b c d v f g h i j k l x y.
Definition set_first_deltas (v : N) (m : RenderMetrics) : RenderMetrics :=
  let '(mkRenderMetrics a b c d e _ g h i j k l x y) := m in mkRenderMetrics a b c d e v g h i j k l x y.
Definition set_last_deltas (v : N) (m : RenderMetrics) : RenderMetrics :=
  let '(mkRenderMetrics a b c d e f _ h i j k l x y) := m in mkRenderMetrics a b c d e f v h i j k l x y.
Definition set_final_messages (v : N) (m : RenderMetrics) : RenderMetrics :=
  let '(mkRenderMetrics a b c d e f g _ i j k l x y) := m in mkRenderMetrics a b c d e f g v i j k l x y.
Definition set_stream_gaps (v : N) (m : RenderMetrics) : RenderMetrics :=
  let '(mkRenderMetrics a b c d e f g h _ j k l x y) := m in mkRenderMetrics a b c d e f g h v j k l x y.
Definition set_duplicate_frames (v : N) (m : RenderMetrics) : RenderMetrics :=
  let '(mkRenderMetrics a b c d e f g h i _ k l x y) := m in mkRenderMetrics a b c d e f g h i v k l x y.
Definition set_dropped_frames (v : N) (m : RenderMetrics) : RenderMetrics :=
  let '(mkRenderMetrics a b c d e f g h i j _ l x y) := m in mkRenderMetrics a b c d e f g h i j v l x y.
Definition set_pending_streams (v : N) (m : RenderMetrics) : RenderMetrics :=
  let '(mkRenderMetrics a b c d e f g h i j k _ x y) := m in mkRenderMetrics a b c d e f g h i j k v x y.
Definition set_first_token_latency (v : RenderLatencyMetrics) (m : RenderMetrics) : RenderMetrics :=
  let '(mkRenderMetrics a b c d e f g h i j k l _ y) := m in mkRenderMetrics a b c d e f g h i j k l v y.
Definition set_final_frame_latency (v : RenderLatencyMetrics) (m : RenderMetrics) : RenderMetrics :=
  let '(mkRenderMetrics a b c d e f g h i j k l x _) := m in mkRenderMetrics a b c d e f g h i j k l x v.

Definition no_latency : RenderLatencyMetrics := mkRenderLatencyMetrics 0 0 0 0.
Definition no_metrics : RenderMetrics :=
  mkRenderMetrics 0 0 0 0 0 0 0 0 0 0 0 0 no_latency no_latency.

(*@ tui/src/frame_scheduler.rs StreamState *)
Record StreamState := mkStreamState {
  last_sequence : option N; has_delta : bool; completed : bool; first_delta_at : option N;
  last_delta_at : option N; first_frame_pending : bool; final_frame_pending : bool }.
Definition new_stream : StreamState := mkStreamState None false false None None false false.

(*@ tui/src/frame_scheduler.rs FrameScheduler *)
Record FrameScheduler := mkFrameScheduler {
  last_drawn_at : option N; deadline : option N; metrics : RenderMetrics;
  streams : gmap TurnId StreamState; drawn_delta_events : N }.
Definition new_scheduler : FrameScheduler := mkFrameScheduler None None no_metrics ∅ 0.

(** ** Requests *)

(** The counting every request does. *)
Definition count_request (s : FrameScheduler) : RenderMetrics :=
  let m := metrics s in
  let m := set_redraw_requests (redraw_requests m +|64 1) m in
  let m := if bool_decide (is_Some (deadline s))
           then set_coalesced_redraws (coalesced_redraws m +|64 1) m else m in
  set_pending_redraws 1 m.

Definition set_deadline (d : option N) (m : RenderMetrics) (s : FrameScheduler) : FrameScheduler :=
  mkFrameScheduler (last_drawn_at s) d m (streams s) (drawn_delta_events s).

(*@ tui/src/frame_scheduler.rs FrameScheduler::request_with_interval *)
Definition request_with_interval (now interval : N) (s : FrameScheduler) : FrameScheduler :=
  let earliest := from_option (fun allowed => N.max allowed now) now
                    (drawn ← last_drawn_at s; checked_add drawn interval) in
  set_deadline (Some (from_option (fun current => N.min current earliest) earliest (deadline s)))
    (count_request s) s.

(*@ tui/src/frame_scheduler.rs FrameScheduler::request_at *)
Definition request_at (now : N) (s : FrameScheduler) : FrameScheduler :=
  request_with_interval now MIN_FRAME_INTERVAL s.

(*@ tui/src/frame_scheduler.rs FrameScheduler::request_provider_at *)
Definition request_provider_at (now : N) (s : FrameScheduler) : FrameScheduler :=
  let pending := delta_events (metrics s) - drawn_delta_events s in
  let interval := if (1 <=? pending) && (pending <? 8) then 16666667 else MIN_FRAME_INTERVAL in
  request_with_interval now interval s.

(*@ tui/src/frame_scheduler.rs FrameScheduler::request_immediate_at *)
Definition request_immediate_at (now : N) (s : FrameScheduler) : FrameScheduler :=
  set_deadline (Some (from_option (fun current => N.min current now) now (deadline s)))
    (count_request s) s.

(** ** Drawing *)

(** One stream when a frame has been drawn: the metrics, the stream, and whether it is over. *)
(*@ tui/src/frame_scheduler.rs:165-181 FrameScheduler::mark_drawn_at *)
Definition draw_stream (now : N) (m : RenderMetrics) (st : StreamState)
    : RenderMetrics * StreamState * bool :=
  let m :=
    if first_frame_pending st
    then match first_delta_at st with
         | Some t => set_first_token_latency (record_latency (now - t) (first_token_latency m)) m
         | None => m
         end
    else m in
  let m :=
    if final_frame_pending st
    then match last_delta_at st with
         | Some t => set_final_frame_latency (record_latency (now - t) (final_frame_latency m)) m
         | None => m
         end
    else m in
  (m,
   mkStreamState (last_sequence st) (has_delta st) (completed st) (first_delta_at st)
     (last_delta_at st) false false,
   final_frame_pending st).

(** One turn of the loop over the streams. *)
Definition draw_one (now : N) (acc : RenderMetrics * gmap TurnId StreamState * list TurnId)
    (turn : TurnId) : RenderMetrics * gmap TurnId StreamState * list TurnId :=
  let '(m, streams, completed_turns) := acc in
  match streams !! turn with
  | None => (m, streams, completed_turns)
  | Some st =>
      let '(m', st', over) := draw_stream now m st in
      (m', <[turn := st']> streams, if over : bool then completed_turns ++ [turn] else completed_turns)
  end.

(*@ tui/src/frame_scheduler.rs:163-182 FrameScheduler::mark_drawn_at *)
Definition draw_streams (now : N) (order : list TurnId) (m : RenderMetrics)
    (streams : gmap TurnId StreamState) : RenderMetrics * gmap TurnId StreamState * list TurnId :=
  foldl (draw_one now) (m, streams, []) order.

(*@ tui/src/frame_scheduler.rs:183-191 FrameScheduler::mark_drawn_at *)
Definition remove_completed (m : RenderMetrics) (streams : gmap TurnId StreamState)
    (turns : list TurnId) : RenderMetrics * gmap TurnId StreamState :=
  foldl (fun '(m, streams) turn =>
    (if is_some_and has_delta (streams !! turn)
     then set_pending_streams (pending_streams m - 1) m else m,
     delete turn streams)) (m, streams) turns.

(*@ tui/src/frame_scheduler.rs FrameScheduler::mark_drawn_at *)
Definition mark_drawn_at (order : list TurnId) (now : N) (s : FrameScheduler) : FrameScheduler :=
  let m := metrics s in
  let drawn := delta_events m in
  let m := set_pending_redraws 0 (set_redraws (redraws m +|64 1) m) in
  let '(m, st, turns) := draw_streams now order m (streams s) in
  let '(m, st) := remove_completed m st turns in
  mkFrameScheduler (Some now) None m st drawn.

(** ** Streams *)

Definition set_streams (m : RenderMetrics) (st : gmap TurnId StreamState) (s : FrameScheduler)
    : FrameScheduler :=
  mkFrameScheduler (last_drawn_at s) (deadline s) m st (drawn_delta_events s).

(*@ tui/src/frame_scheduler.rs FrameScheduler::record_delta_at *)
Definition record_delta_at (turn : TurnId) (sequence : option N) (now : N) (s : FrameScheduler)
    : bool * FrameScheduler :=
  let st := default new_stream (streams s !! turn) in
  let first := negb (has_delta st) in
  let '(gap, duplicate) :=
    match last_sequence st, sequence with
    | Some last, Some n => (last +|64 1 <? n, n <=? last)
    | _, _ => (false, false)
    end in
  let st' := mkStreamState (match sequence with Some n => Some n | None => last_sequence st end)
    (has_delta st || first) (completed st) (if first then Some now else first_delta_at st) (Some now)
    (first_frame_pending st || first) (final_frame_pending st) in
  let m := metrics s in
  let m := set_delta_events (delta_events m +|64 1) m in
  let m := if first
           then set_pending_streams (pending_streams m +|64 1) (set_first_deltas (first_deltas m +|64 1) m)
           else m in
  let m := if gap
           then set_dropped_frames (dropped_frames m +|64 1) (set_stream_gaps (stream_gaps m +|64 1) m)
           else m in
  let m := if duplicate then set_duplicate_frames (duplicate_frames m +|64 1) m else m in
  (first, set_streams m (<[turn := st']> (streams s)) s).

(*@ tui/src/frame_scheduler.rs FrameScheduler::record_stream_completed *)
Definition record_stream_completed (turn : TurnId) (s : FrameScheduler) : FrameScheduler :=
  match streams s !! turn with
  | Some st =>
      if has_delta st && negb (completed st)
      then set_streams (set_last_deltas (last_deltas (metrics s) +|64 1) (metrics s))
             (<[turn := mkStreamState (last_sequence st) (has_delta st) true (first_delta_at st)
                          (last_delta_at st) (first_frame_pending st) (final_frame_pending st)]> (streams s)) s
      else s
  | None => s
  end.

Definition end_stream (st : StreamState) : StreamState :=
  mkStreamState (last_sequence st) (has_delta st) (completed st) (first_delta_at st)
    (last_delta_at st) (first_frame_pending st) true.

(*@ tui/src/frame_scheduler.rs FrameScheduler::record_stream_ended *)
Definition record_stream_ended (turn : TurnId) (s : FrameScheduler) : FrameScheduler :=
  match streams s !! turn with
  | Some st =>
      set_streams (metrics s)
        (if has_delta st then <[turn := end_stream st]> (streams s) else delete turn (streams s)) s
  | None => s
  end.

(*@ tui/src/frame_scheduler.rs FrameScheduler::record_final_message *)
Definition record_final_message (turn : TurnId) (s : FrameScheduler) : FrameScheduler :=
  match streams s !! turn with
  | Some st =>
      if has_delta st && negb (final_frame_pending st)
      then
        let m := metrics s in
        let m := if negb (completed st) then set_last_deltas (last_deltas m +|64 1) m else m in
        let m := set_final_messages (final_messages m +|64 1) m in
        set_streams m (<[turn := end_stream st]> (streams s)) s
      else s
  | None => s
  end.

(** ** The interactive loop *)

(** What the loop keeps about frames and events: the rotation, the scheduler, the flag for a
    frame at once, the last event seen, and the time of the last activity refresh. *)
Record App := mkApp {
  event_priority : N; render_metrics : FrameScheduler; immediate_frame_pending : bool;
  cursor : option N; last_activity_refresh_at : N }.

Definition set_scheduler (sch : FrameScheduler) (a : App) : App :=
  mkApp (event_priority a) sch (immediate_frame_pending a) (cursor a) (last_activity_refresh_at a).
Definition set_immediate (b : bool) (a : App) : App :=
  mkApp (event_priority a) (render_metrics a) b (cursor a) (last_activity_refresh_at a).
Definition set_priority (p : N) (a : App) : App :=
  mkApp p (render_metrics a) (immediate_frame_pending a) (cursor a) (last_activity_refresh_at a).
Definition set_cursor (c : N) (a : App) : App :=
  mkApp (event_priority a) (render_metrics a) (immediate_frame_pending a) (Some c)
    (last_activity_refresh_at a).

Definition nonempty_text (v : option json) : bool :=
  is_some_and (fun t => negb (bool_decide (t = ""))) (v ≫= as_str).

(*@ tui/src/main.rs provider_stream_event_is_meaningful *)
Definition provider_stream_event_is_meaningful (payload : json) : bool :=
  match json_get payload "delta" with
  | None => false
  | Some delta =>
      match json_get delta "kind" ≫= as_str with
      | Some kind =>
          if bool_decide (kind = "text_delta") then nonempty_text (json_get delta "text")
          else if bool_decide (kind = "tool_call_delta")
          then bool_decide (is_Some (json_get delta "index" ≫= as_u64))
               && existsb (fun field => nonempty_text (json_get delta field)) ["tool_call_id"; "tool_name"]
          else false
      | None => false
      end
  end.

Definition stream_sequence_no (payload : json) : option N :=
  match json_get payload "stream_sequence_no" ≫= as_u64 with
  | Some n => Some n
  | None => json_get payload "delta" ≫= fun delta => json_get delta "stream_sequence_no" ≫= as_u64
  end.

(*@ tui/src/main.rs:1406-1447 TuiApp::apply_runtime_event *)
Definition track_stream (now : N) (e : RuntimeEvent json) (a : App) : App :=
  let sch := render_metrics a in
  match ev_turn_id e with
  | None => a
  | Some turn =>
      match ev_event_type e with
      | RuntimeEventType.ProviderStreamed =>
          if provider_stream_event_is_meaningful (ev_payload e)
          then let '(first, sch') := record_delta_at turn (stream_sequence_no (ev_payload e)) now sch in
               let a' := set_scheduler sch' a in if first : bool then set_immediate true a' else a'
          else a
      | RuntimeEventType.ProviderCompleted =>
          set_immediate true (set_scheduler (record_stream_completed turn sch) a)
      | RuntimeEventType.ProviderFailed => set_scheduler (record_stream_ended turn sch) a
      | RuntimeEventType.AssistantMessage =>
          set_immediate true (set_scheduler (record_final_message turn sch) a)
      | ty => if RuntimeEventType.is_task_terminal ty
              then set_scheduler (record_stream_ended turn sch) a else a
      end
  end.

(** An event that is not newer than the last one is ignored. *)
(*@ tui/src/main.rs:1381-1388 TuiApp::apply_runtime_event *)
Definition apply_runtime_event (a : App) (x : N * RuntimeEvent json) : App :=
  let '(now, e) := x in
  if is_some_and (fun c => ev_sequence_no e <=? c) (cursor a) then a
  else track_stream now e (set_cursor (ev_sequence_no e) a).

(** What the loop did with an event: it drew a frame, asked for one, or neither. *)
Inductive Out := Drew (now : N) | AskedAtOnce (now : N) | Asked (now : N) | Idle.

(** [take_immediate_frame_request] and the request that follows it. *)
(*@ tui/src/main.rs TuiApp::take_immediate_frame_request *)
Definition take_immediate_frame_request (a : App) : bool * App :=
  (immediate_frame_pending a, set_immediate false a).

Definition ask (request : N -> FrameScheduler -> FrameScheduler) (now : N) (a : App) : App :=
  set_scheduler (request now (render_metrics a)) a.

(** One turn of the loop. What the world contributes: when the sources are polled and which
    of them are ready, a deadline of the overlay, the events and the clock of the handler. *)
Record Turn := mkTurn {
  polled_at : N; resize_deadline : option N; key_ready : bool; runtime_ready : bool;
  handled_at : N; events : list (N * RuntimeEvent json); order : list TurnId }.

(*@ tui/src/main.rs:4708-4714 run_app *)
Definition frame_deadline (t : Turn) (sch : FrameScheduler) : N :=
  match deadline sch, resize_deadline t with
  | Some d, Some r => N.min d r
  | Some d, None => d
  | None, Some r => r
  | None, None => polled_at t + 86400 * 10 ^ 9
  end.

Definition flag (b : bool) : option unit := if b then Some tt else None.
Definition sources_of (t : Turn) (sch : FrameScheduler) : Sources (A := unit) (B := unit) (C := unit) :=
  mkSources (flag (frame_deadline t sch <=? polled_at t)) (flag (key_ready t)) (flag (runtime_ready t)).

Inductive Step :=
| SNext (t : Turn)
| SMaintenance (now : N) (events : list (N * RuntimeEvent json)) (changed : bool)
| SActivity (now : N) (reduced_motion : bool).

(*@ tui/src/main.rs:4716-4768 run_app *)
Definition next_turn (t : Turn) (a : App) : Out * App :=
  let '(ready, p) := poll_next (event_priority a) (sources_of t (render_metrics a)) in
  let a := set_priority p a in
  let now := handled_at t in
  match ready with
  | None => (Idle, a)
  | Some (Ready.First _) => (Drew now, set_scheduler (mark_drawn_at (order t) now (render_metrics a)) a)
  | Some (Ready.Second _) => (Asked now, ask request_at now a)
  | Some (Ready.Third _) =>
      let '(at_once, a) := take_immediate_frame_request (foldl apply_runtime_event a (events t)) in
      if at_once : bool then (AskedAtOnce now, ask request_immediate_at now a)
      else (Asked now, ask request_provider_at now a)
  end.

(*@ tui/src/main.rs TuiApp::activity_refresh_due *)
Definition activity_refresh_due (reduced_motion : bool) (now : N) (a : App) : bool * App :=
  let cadence := if reduced_motion then 10 ^ 9 else 250 * 10 ^ 6 in
  if now - last_activity_refresh_at a <? cadence then (false, a)
  else (true, mkApp (event_priority a) (render_metrics a) (immediate_frame_pending a) (cursor a) now).

(*@ tui/src/main.rs:4773-4791 run_app *)
Definition loop_step (s : Step) (a : App) : Out * App :=
  match s with
  | SNext t => next_turn t a
  | SMaintenance now events changed =>
      let '(at_once, a) := take_immediate_frame_request (foldl apply_runtime_event a events) in
      if at_once : bool then (AskedAtOnce now, ask request_immediate_at now a)
      else if changed : bool then (Asked now, ask request_at now a) else (Idle, a)
  | SActivity now reduced_motion =>
      let '(due, a) := activity_refresh_due reduced_motion now a in
      if due : bool then (Asked now, ask request_at now a) else (Idle, a)
  end.

Fixpoint run_loop (ss : list Step) (a : App) : list Out * App :=
  match ss with
  | [] => ([], a)
  | s :: ss' => let '(o, a') := loop_step s a in let '(os, b) := run_loop ss' a' in (o :: os, b)
  end.

(** ** Rotation *)

(** How many other sources may still come before the first one. *)
Definition rank (priority : N) : nat :=
  if priority =? 0 then 0%nat else if priority =? 1 then 2%nat else 1%nat.

(** A poll is pending only when no source is ready, and it takes a value that is there. *)
Lemma poll_next_spec {A B C} p (s : Sources (A := A) (B := B) (C := C)) :
  p < 3 ->
  match poll_next p s with
  | (None, p') => first s = None /\ second s = None /\ third s = None /\ p' = p
  | (Some (Ready.First x), p') => first s = Some x /\ p' = 1
  | (Some (Ready.Second x), p') => second s = Some x /\ p' = 2
  | (Some (Ready.Third x), p') => third s = Some x /\ p' = 0
  end.
Proof.
  intros H. assert (p = 0 \/ p = 1 \/ p = 2) as [-> | [-> | ->]] by lia;
    destruct s as [[x|] [y|] [z|]]; vm_compute; tauto.
Qed.

(** A ready first source is taken, or comes closer. *)
Lemma poll_next_progress {A B C} p (s : Sources (A := A) (B := B) (C := C)) x :
  p < 3 -> first s = Some x ->
  fst (poll_next p s) = Some (Ready.First x) \/ (rank (snd (poll_next p s)) < rank p)%nat.
Proof.
  intros H E. assert (p = 0 \/ p = 1 \/ p = 2) as [-> | [-> | ->]] by lia;
    destruct s as [? [y|] [z|]]; cbn in E; subst; vm_compute; (left; reflexivity) || (right; lia).
Qed.

(** ** Requests only bring the frame forward *)

(** The deadline of a frame that is waiting does not move back. *)
Definition no_later (d : N) (sch : FrameScheduler) : Prop :=
  exists d', deadline sch = Some d' /\ d' <= d.

Lemma request_no_later d now interval sch :
  no_later d sch -> no_later d (request_with_interval now interval sch).
Proof. intros (d' & E & H). unfold no_later, request_with_interval. cbn. rewrite E. cbn. eexists. split; [done|lia]. Qed.
Lemma immediate_no_later d now sch : no_later d sch -> no_later d (request_immediate_at now sch).
Proof. intros (d' & E & H). unfold no_later, request_immediate_at. cbn. rewrite E. cbn. eexists. split; [done|lia]. Qed.

(** Tracking streams leaves what is scheduled alone. *)
Record same_schedule (sch sch' : FrameScheduler) : Prop := mkSameSchedule {
  ss_deadline : deadline sch' = deadline sch;
  ss_drawn : last_drawn_at sch' = last_drawn_at sch }.

Lemma track_stream_same now e a :
  same_schedule (render_metrics a) (render_metrics (track_stream now e a))
  /\ event_priority (track_stream now e a) = event_priority a.
Proof.
  unfold track_stream. destruct (ev_turn_id e) as [turn|]; [|done].
  assert (Hc : same_schedule (render_metrics a) (record_stream_completed turn (render_metrics a))).
  { unfold record_stream_completed. destruct (_ !! turn); [destruct (_ && _)|]; by constructor. }
  assert (He : same_schedule (render_metrics a) (record_stream_ended turn (render_metrics a))).
  { unfold record_stream_ended. destruct (_ !! turn); by constructor. }
  assert (Hf : same_schedule (render_metrics a) (record_final_message turn (render_metrics a))).
  { unfold record_final_message. destruct (_ !! turn); [destruct (_ && _)|]; by constructor. }
  destruct (ev_event_type e); cbn; try done.
  destruct (provider_stream_event_is_meaningful (ev_payload e)); [|done].
  unfold record_delta_at. destruct (match last_sequence _ with Some _ => _ | None => _ end) as [gap dup].
  cbn. destruct (negb _); cbn; by repeat split.
Qed.

Lemma apply_events_same es a :
  let a' := foldl apply_runtime_event a es in
  same_schedule (render_metrics a) (render_metrics a') /\ event_priority a' = event_priority a.
Proof.
  revert a. induction es as [|[now e] es IH]; intros a; cbn [foldl]; cbn zeta; [done|].
  destruct (IH (apply_runtime_event a (now, e))) as [[D L] P]. rewrite P.
  enough (same_schedule (render_metrics a) (render_metrics (apply_runtime_event a (now, e)))
          /\ event_priority (apply_runtime_event a (now, e)) = event_priority a) as [[D' L'] P'].
  { split; [|done]. constructor; congruence. }
  unfold apply_runtime_event. destruct (is_some_and _ _); [done|].
  apply (track_stream_same now e (set_cursor (ev_sequence_no e) a)).
Qed.

Lemma no_later_same d sch sch' : same_schedule sch sch' -> no_later d sch -> no_later d sch'.
Proof. intros [E _]. unfold no_later. by rewrite E. Qed.

(** ** Due frames are drawn *)

Definition is_next (s : Step) : bool := match s with SNext _ => true | _ => false end.
Definition polls_after (d : N) (s : Step) : Prop :=
  match s with SNext t => d <= polled_at t | _ => True end.

Lemma loop_step_keeps_due s a d :
  event_priority a < 3 -> no_later d (render_metrics a) -> polls_after d s ->
  let '(o, a') := loop_step s a in
  (exists now, o = Drew now)
  \/ (no_later d (render_metrics a') /\ event_priority a' < 3
      /\ (rank (event_priority a') + (if is_next s then 1 else 0) <= rank (event_priority a))%nat).
Proof.
  intros Hp Hd Hs. destruct s as [t|now es changed|now reduced]; cbn [loop_step is_next].
  - unfold next_turn.
    assert (Hf : first (sources_of t (render_metrics a)) = Some tt).
    { destruct Hd as (d' & E & Hle). cbn in Hs. unfold sources_of, frame_deadline. cbn. rewrite E.
      destruct (resize_deadline t); cbn; (destruct (_ <=? _) eqn:El; [done|Nbool; lia]). }
    destruct (poll_next_progress (event_priority a) _ tt Hp Hf) as [E|Hr]; assert (Hq := poll_next_spec (event_priority a) (sources_of t (render_metrics a)) Hp).
    + destruct (poll_next _ _) as [r p]. cbn in E. subst r. left. eauto.
    + destruct (poll_next _ _) as [[[x|x|x]|] p]; cbn in Hr; [left; eauto| | |].
      * destruct Hq as [_ ->]. right. split_and!; [by apply request_no_later|done|cbn in *; lia].
      * destruct Hq as [_ ->]. cbn [take_immediate_frame_request].
        destruct (apply_events_same (events t) (set_priority 0 a)) as [Hss Hpr].
        destruct (immediate_frame_pending _); right; cbn; rewrite Hpr;
          (split_and!; [|done|cbn in *; lia]);
          [apply immediate_no_later|apply request_no_later]; by eapply no_later_same.
      * destruct Hq as (E & _). congruence.
  - cbn [take_immediate_frame_request].
    destruct (apply_events_same es a) as [Hss Hpr].
    destruct (immediate_frame_pending _); [|destruct changed]; right; cbn; rewrite Hpr;
      (split_and!; [|done|lia]);
      [apply immediate_no_later|apply request_no_later|]; by eapply no_later_same.
  - unfold activity_refresh_due. destruct (_ <? _); right; cbn; split_and!; try done; try lia.
    by apply request_no_later.
Qed.

Lemma due_frame_drawn_ranked ss a d :
  event_priority a < 3 -> no_later d (render_metrics a) -> Forall (polls_after d) ss ->
  (rank (event_priority a) < length (List.filter is_next ss))%nat ->
  exists now, Drew now ∈ fst (run_loop ss a).
Proof.
  revert a. induction ss as [|s ss IH]; intros a Hp Hd Hall Hn; cbn in Hn; [lia|].
  apply Forall_cons in Hall as [Hs Hall]. assert (H := loop_step_keeps_due s a d Hp Hd Hs).
  cbn [run_loop]. destruct (loop_step s a) as [o a'].
  destruct H as [[now ->]|(Hd' & Hp' & Hr)].
  { exists now. destruct (run_loop ss a'). by left. }
  destruct (IH a' Hp' Hd' Hall) as [now Hnow].
  { destruct (is_next s); cbn in Hn; lia. }
  exists now. destruct (run_loop ss a'). by right.
Qed.

(** (liveness): a frame whose deadline has passed is drawn within three turns of the loop's
    event selection, however many keys and runtime events are waiting, and whatever the
    periodic tasks do in between: a busy stream cannot keep the screen from being drawn. *)
Theorem due_frame_is_drawn ss a d :
  event_priority a < 3 -> deadline (render_metrics a) = Some d -> Forall (polls_after d) ss ->
  (3 <= length (List.filter is_next ss))%nat ->
  exists now, Drew now ∈ fst (run_loop ss a).
Proof.
  intros Hp Hd Hall Hn. apply (due_frame_drawn_ranked ss a d); [done| |done|].
  - exists d. split; [done|lia].
  - unfold rank. repeat destruct (_ =? _); lia.
Qed.

(** ** Frames keep their distance *)

(** A frame may not be due before [t], when the last one was drawn at [last]. *)
Definition spaced (last t : N) (sch : FrameScheduler) : Prop :=
  last_drawn_at sch = Some last /\ forall d, deadline sch = Some d -> t <= d.

(** The times of a step: handled after it was polled, far from the end of the clock, and no
    deadline of the overlay. *)
Definition on_time (s : Step) : Prop :=
  match s with
  | SNext t => polled_at t <= handled_at t /\ resize_deadline t = None
               /\ handled_at t + 16666667 <= instant_max
  | _ => True
  end.

Definition is_drew (o : Out) : bool := match o with Drew _ => true | _ => false end.
Definition is_at_once (o : Out) : bool := match o with AskedAtOnce _ => true | _ => false end.

Lemma request_spaced last now interval sch :
  MIN_FRAME_INTERVAL <= interval -> last + interval <= instant_max ->
  spaced last (last + MIN_FRAME_INTERVAL) sch ->
  spaced last (last + MIN_FRAME_INTERVAL) (request_with_interval now interval sch).
Proof.
  intros Hi Hm [Hl Hd]. unfold request_with_interval. split; [done|]. cbn. rewrite Hl. cbn.
  unfold checked_add. destruct (_ <=? _) eqn:E; [|Nbool; lia]. intros d [= <-].
  destruct (deadline sch) as [c|]; cbn; [specialize (Hd c eq_refl)|]; lia.
Qed.

Lemma spaced_same last t sch sch' : same_schedule sch sch' -> spaced last t sch -> spaced last t sch'.
Proof. intros [D L] [H1 H2]. split; [by rewrite L|by rewrite D]. Qed.

Lemma request_at_spaced last now sch :
  last + 16666667 <= instant_max -> spaced last (last + MIN_FRAME_INTERVAL) sch ->
  spaced last (last + MIN_FRAME_INTERVAL) (request_at now sch).
Proof. intros H. apply request_spaced; [done|]. unfold MIN_FRAME_INTERVAL. lia. Qed.

Lemma request_provider_spaced last now sch :
  last + 16666667 <= instant_max -> spaced last (last + MIN_FRAME_INTERVAL) sch ->
  spaced last (last + MIN_FRAME_INTERVAL) (request_provider_at now sch).
Proof.
  intros H. unfold request_provider_at. cbn zeta.
  destruct (_ && _); apply request_spaced; unfold MIN_FRAME_INTERVAL; lia.
Qed.

Lemma mark_drawn_spaced order now t sch : spaced now t (mark_drawn_at order now sch).
Proof.
  unfold mark_drawn_at. cbn zeta. destruct (draw_streams _ _ _ _) as [[m st] turns].
  destruct (remove_completed m st turns) as [m' st']. by split.
Qed.

(** The rotation stays in range, and a drawn frame starts a new interval. *)
Lemma loop_step_drew s a :
  event_priority a < 3 -> on_time s ->
  let '(o, a') := loop_step s a in
  event_priority a' < 3
  /\ forall now, o = Drew now ->
       now + 16666667 <= instant_max /\ spaced now (now + MIN_FRAME_INTERVAL) (render_metrics a').
Proof.
  intros Hp Ht. destruct s as [t|now es changed|now reduced]; cbn [loop_step].
  - unfold next_turn. assert (Hq := poll_next_spec (event_priority a) (sources_of t (render_metrics a)) Hp).
    destruct (poll_next _ _) as [[[x|x|x]|] p]; cbn [take_immediate_frame_request].
    + destruct Hq as [_ ->]. split; [done|]. intros now [= <-]. destruct Ht as (_ & _ & Ht).
      split; [done|]. apply mark_drawn_spaced.
    + by destruct Hq as [_ ->].
    + destruct Hq as [_ ->]. destruct (apply_events_same (events t) (set_priority 0 a)) as [_ Hpr].
      destruct (immediate_frame_pending _); (split; [|done]); cbn; by rewrite Hpr.
    + destruct Hq as (_ & _ & _ & ->). by split.
  - cbn [take_immediate_frame_request]. destruct (apply_events_same es a) as [_ Hpr].
    destruct (immediate_frame_pending _); [|destruct changed]; (split; [|done]); cbn; by rewrite Hpr.
  - unfold activity_refresh_due. by destruct (_ <? _).
Qed.

Lemma loop_step_spaced s a last :
  event_priority a < 3 -> on_time s -> last + 16666667 <= instant_max ->
  spaced last (last + MIN_FRAME_INTERVAL) (render_metrics a) ->
  let '(o, a') := loop_step s a in
  match o with
  | Drew now => last + MIN_FRAME_INTERVAL <= now
  | AskedAtOnce _ => True
  | _ => spaced last (last + MIN_FRAME_INTERVAL) (render_metrics a')
  end.
Proof.
  intros Hp Ht Hm Hs. destruct s as [t|now es changed|now reduced]; cbn [loop_step].
  - unfold next_turn. assert (Hq := poll_next_spec (event_priority a) (sources_of t (render_metrics a)) Hp).
    destruct (poll_next _ _) as [[[x|x|x]|] p]; cbn [take_immediate_frame_request]; destruct Hq as [Hq _].
    + destruct Ht as (Hle & Hr & _). destruct Hs as [_ Hs]. unfold sources_of, frame_deadline in Hq.
      rewrite Hr in Hq. cbn in Hq. destruct (deadline (render_metrics a)) as [d|].
      * specialize (Hs d eq_refl). destruct (d <=? polled_at t) eqn:E; [Nbool; lia|done].
      * destruct (_ <=? polled_at t) eqn:E; [Nbool; lia|done].
    + by apply request_at_spaced.
    + destruct (apply_events_same (events t) (set_priority p a)) as [Hss _].
      destruct (immediate_frame_pending _); [done|]. apply request_provider_spaced; [done|].
      by eapply spaced_same.
    + done.
  - cbn [take_immediate_frame_request]. destruct (apply_events_same es a) as [Hss _].
    destruct (immediate_frame_pending _); [done|]. destruct changed; [apply request_at_spaced; [done|]|];
      by eapply spaced_same.
  - unfold activity_refresh_due. destruct (_ <? _); [done|]. by apply request_at_spaced.
Qed.

Definition calm (o : Out) : bool := negb (is_drew o) && negb (is_at_once o).

Lemma next_frame_is_spaced ss a last mid y post :
  event_priority a < 3 -> Forall on_time ss -> last + 16666667 <= instant_max ->
  spaced last (last + MIN_FRAME_INTERVAL) (render_metrics a) ->
  fst (run_loop ss a) = mid ++ Drew y :: post -> forallb calm mid = true ->
  last + MIN_FRAME_INTERVAL <= y.
Proof.
  revert a mid. induction ss as [|s ss IH]; intros a mid Hp Hall Hm Hs Hrun Hmid.
  { by destruct mid. }
  apply Forall_cons in Hall as [Ht Hall]. cbn [run_loop] in Hrun.
  assert (H1 := loop_step_spaced s a last Hp Ht Hm Hs). assert (H2 := loop_step_drew s a Hp Ht).
  destruct (loop_step s a) as [o a']. destruct (run_loop ss a') as [os b] eqn:Er. cbn in Hrun.
  destruct mid as [|o' mid]; injection Hrun as -> Hrun; [done|].
  cbn in Hmid. apply andb_true_iff in Hmid as [Ho Hmid].
  apply (IH a' mid); [by destruct H2|done|done| |by rewrite Er|done].
  by destruct o'.
Qed.

(** (bounds): two frames drawn one after the other are at least a 120th of a second apart,
    unless a frame was asked for at once in between, the overlay set a deadline of its own,
    or the clock is within 17 ms of its end. *)
Theorem frames_keep_their_distance ss a pre x mid y post :
  event_priority a < 3 -> Forall on_time ss ->
  fst (run_loop ss a) = pre ++ Drew x :: mid ++ Drew y :: post -> forallb calm mid = true ->
  x + MIN_FRAME_INTERVAL <= y.
Proof.
  revert a pre. induction ss as [|s ss IH]; intros a pre Hp Hall Hrun Hmid; [by destruct pre|].
  apply Forall_cons in Hall as [Ht Hall]. cbn [run_loop] in Hrun.
  assert (H2 := loop_step_drew s a Hp Ht). destruct (loop_step s a) as [o a']. destruct H2 as [Hp' H2].
  destruct (run_loop ss a') as [os b] eqn:Er. cbn in Hrun.
  destruct pre as [|o' pre]; injection Hrun as -> Hrun.
  - destruct (H2 x eq_refl) as [Hm Hs].
    apply (next_frame_is_spaced ss a' x mid y post); try done. by rewrite Er.
  - apply (IH a' pre); [done|done|by rewrite Er|done].
Qed.

(** ** Accounts *)

(** A stream is kept from its first delta on, with the times its latencies are measured from. *)
Definition tracked (st : StreamState) : Prop :=
  has_delta st = true /\ is_Some (first_delta_at st) /\ is_Some (last_delta_at st).

(** The counters that describe the present state do describe it. The count of streams is
    exact until the count of deltas has reached its maximum. *)
Record accounts (s : FrameScheduler) : Prop := mkAccounts {
  ac_streams : map_Forall (fun _ => tracked) (streams s);
  ac_redraws : pending_redraws (metrics s) = if bool_decide (is_Some (deadline s)) then 1 else 0;
  ac_drawn : drawn_delta_events s <= delta_events (metrics s) <= u64_max;
  ac_pending : delta_events (metrics s) < u64_max ->
    pending_streams (metrics s) = N.of_nat (size (streams s))
    /\ N.of_nat (size (streams s)) <= delta_events (metrics s) }.

Lemma request_accounts d s :
  accounts s -> accounts (set_deadline (Some d) (count_request s) s).
Proof.
  intros [H1 H2 H3 H4]. unfold count_request. destruct s as [l dl m st dd]. cbn in *.
  destruct m. case_bool_decide; constructor; cbn in *; done.
Qed.

Lemma insert_tracked turn st (m : gmap TurnId StreamState) :
  map_Forall (fun _ => tracked) m -> tracked st -> map_Forall (fun _ => tracked) (<[turn := st]> m).
Proof. intros Hm Hs. by apply map_Forall_insert_2. Qed.

Lemma record_delta_accounts turn n now s : accounts s -> accounts (snd (record_delta_at turn n now s)).
Proof.
  intros [H1 H2 H3 H4]. unfold record_delta_at.
  destruct (match last_sequence _ with Some _ => _ | None => _ end) as [gap dup]. cbn.
  destruct s as [l dl m st dd]. cbn in *.
  assert (Htr : forall st', has_delta st' = true -> is_Some (first_delta_at st') -> last_delta_at st' = Some now ->
                map_Forall (fun _ => tracked) (<[turn := st']> st)).
  { intros st' Ha Hb Hc. apply insert_tracked; [done|]. split_and!; [done..|by rewrite Hc]. }
  destruct (st !! turn) as [x|] eqn:E; cbn.
  - destruct (H1 turn x E) as (Hd & Hf & Hl). rewrite Hd. cbn.
    assert (Hsz : forall y, size (<[turn := y]> st) = size st)
      by (intros y; rewrite map_size_insert; by rewrite E).
    destruct m, gap, dup; constructor; cbn in *; try (apply Htr; done); try done; try sat_lia;
      intros Hlt; rewrite Hsz; (destruct H4 as [H4 H5]; [sat_lia|split; [done|sat_lia]]).
  - assert (Hsz : forall y, size (<[turn := y]> st) = S (size st))
      by (intros y; rewrite map_size_insert; by rewrite E).
    destruct m, gap, dup; constructor; cbn in *; try (apply Htr; done); try done; try sat_lia;
      intros Hlt; rewrite Hsz; (destruct H4 as [H4 H5]; [sat_lia|split; sat_lia]).
Qed.

(** Replacing a stream by one that is tracked changes no count of streams. *)
Lemma update_accounts turn st m s :
  accounts s -> is_Some (streams s !! turn) -> tracked st ->
  pending_redraws m = pending_redraws (metrics s) -> delta_events m = delta_events (metrics s) ->
  pending_streams m = pending_streams (metrics s) ->
  accounts (set_streams m (<[turn := st]> (streams s)) s).
Proof.
  intros [H1 H2 H3 H4] [x Hx] Ht E1 E2 E3. constructor; cbn; rewrite ?E1, ?E2, ?E3; try done.
  - by apply insert_tracked.
  - rewrite map_size_insert, Hx. cbn. done.
Qed.

Lemma stream_completed_accounts turn s : accounts s -> accounts (record_stream_completed turn s).
Proof.
  intros H. unfold record_stream_completed. destruct (streams s !! turn) as [st|] eqn:E; [|done].
  destruct (_ && _); [|done]. apply update_accounts; [done|by rewrite E| |by destruct (metrics s)..].
  apply (ac_streams s H turn st E).
Qed.

Lemma stream_ended_accounts turn s : accounts s -> accounts (record_stream_ended turn s).
Proof.
  intros H. unfold record_stream_ended. destruct (streams s !! turn) as [st|] eqn:E; [|done].
  assert (Ht := ac_streams s H turn st E). destruct Ht as (Hd & Hf & Hl). rewrite Hd.
  apply update_accounts; [done|by rewrite E|by split_and!|done..].
Qed.

Lemma final_message_accounts turn s : accounts s -> accounts (record_final_message turn s).
Proof.
  intros H. unfold record_final_message. destruct (streams s !! turn) as [st|] eqn:E; [|done].
  assert (Ht := ac_streams s H turn st E). destruct (_ && _); [|done]. cbn zeta.
  apply update_accounts; [done|by rewrite E|by destruct Ht as (? & ? & ?); split_and!|..];
    destruct (negb (completed st)), (metrics s); done.
Qed.

(** What drawing does to the streams: the same keys, still tracked, and the streams to remove
    are among them, each once. *)
Record drawn_state (m0 : RenderMetrics) (st0 : gmap TurnId StreamState)
    (acc : RenderMetrics * gmap TurnId StreamState * list TurnId) : Prop := mkDrawnState {
  dr_pending : pending_streams (acc.1.1) = pending_streams m0;
  dr_deltas : delta_events (acc.1.1) = delta_events m0;
  dr_redraws : pending_redraws (acc.1.1) = pending_redraws m0;
  dr_dom : dom (acc.1.2) = dom st0;
  dr_tracked : map_Forall (fun _ => tracked) (acc.1.2);
  dr_nodup : NoDup (acc.2);
  dr_turns : forall t, t ∈ acc.2 -> t ∈ dom (acc.1.2) }.

Lemma draw_stream_keeps now m x :
  tracked x ->
  let '(m', x', _) := draw_stream now m x in
  pending_streams m' = pending_streams m /\ delta_events m' = delta_events m
  /\ pending_redraws m' = pending_redraws m /\ tracked x'.
Proof.
  intros (Hd & Hf & Hl). unfold draw_stream.
  destruct (first_frame_pending x), (final_frame_pending x), (first_delta_at x), (last_delta_at x), m;
    cbn; by split_and!.
Qed.

Lemma draw_one_state now m0 st0 acc t :
  drawn_state m0 st0 acc -> t ∉ acc.2 ->
  drawn_state m0 st0 (draw_one now acc t) /\ forall u, u ∈ (draw_one now acc t).2 -> u ∈ acc.2 \/ u = t.
Proof.
  destruct acc as [[m st] turns]. intros [P D R Dm T Nd Tu] Ht. cbn [fst snd] in *.
  unfold draw_one. destruct (st !! t) as [x|] eqn:E; [|split; [by constructor|by left]].
  assert (Hk := draw_stream_keeps now m x (T t x E)).
  destruct (draw_stream now m x) as [[m2 x'] over]. destruct Hk as (E1 & E2 & E3 & Hx').
  assert (Htt : t ∈ dom st) by by apply elem_of_dom.
  assert (Hdom : dom (<[t := x']> st) = dom st) by (rewrite dom_insert_L; set_solver).
  split.
  - constructor; cbn; [congruence..| |by apply insert_tracked| |].
    + by rewrite Hdom.
    + destruct over; [|done]. apply NoDup_app. split_and!; [done| |apply NoDup_singleton].
      by intros u Hu ->%list_elem_of_singleton.
    + intros u Hu. rewrite Hdom. destruct over; [|auto].
      apply elem_of_app in Hu as [Hu| ->%list_elem_of_singleton]; auto.
  - cbn. intros u Hu. destruct over; [|by left].
    apply elem_of_app in Hu as [Hu|Hu%list_elem_of_singleton]; auto.
Qed.

Lemma draw_streams_state now order m st :
  NoDup order -> map_Forall (fun _ => tracked) st -> drawn_state m st (draw_streams now order m st).
Proof.
  intros Hn Ht. unfold draw_streams.
  assert (H : drawn_state m st (m, st, [])) by (constructor; [done..|constructor|by intros t ?%elem_of_nil]).
  assert (Hdis : forall t, t ∈ (m, st, [] : list TurnId).2 -> t ∉ order) by by intros t ?%elem_of_nil.
  revert H Hdis. generalize (m, st, [] : list TurnId). induction Hn as [|t order Hnin Hn IH]; intros acc H Hdis; [done|].
  cbn [foldl]. assert (Htn : t ∉ acc.2) by (intros Hin; apply (Hdis t Hin); by left).
  destruct (draw_one_state now m st acc t H Htn) as [H' Hu]. apply IH; [done|].
  intros u Hin Ho. destruct (Hu u Hin) as [Hin'| ->]; [|done]. apply (Hdis u Hin'). by right.
Qed.

(** Every removed stream is counted once. *)
Lemma remove_completed_counts turns m st :
  NoDup turns -> map_Forall (fun _ => tracked) st -> (forall t, t ∈ turns -> t ∈ dom st) ->
  let '(m', st') := remove_completed m st turns in
  map_Forall (fun _ => tracked) st' /\ delta_events m' = delta_events m
  /\ pending_redraws m' = pending_redraws m
  /\ (size st' + length turns = size st)%nat
  /\ pending_streams m' = pending_streams m - N.of_nat (length turns).
Proof.
  unfold remove_completed. intros Hn. revert m st. induction Hn as [|t turns Hnin Hn IH]; intros m st Ht Hin.
  { cbn. split_and!; (done || lia). }
  cbn [foldl]. assert (Hx : t ∈ dom st) by (apply Hin; by left). apply elem_of_dom in Hx as [x Hx].
  destruct (Ht t x Hx) as (Hd & _). rewrite Hx. cbn [is_some_and]. rewrite Hd.
  assert (Hs : (S (size (delete t st)) = size st)%nat).
  { rewrite map_size_delete, Hx. cbn. assert (size st <> 0)%nat; [|lia].
    intros E%map_size_empty_inv. subst st. by rewrite lookup_empty in Hx. }
  specialize (IH (set_pending_streams (pending_streams m - 1) m) (delete t st)).
  destruct (foldl _ _ turns) as [m' st']. destruct IH as (I1 & I2 & I3 & I4 & I5).
  - by apply map_Forall_delete.
  - intros u Hu. rewrite dom_delete_L, elem_of_difference, elem_of_singleton.
    split; [apply Hin; by right|]. by intros ->.
  - destruct m. cbn in *. split_and!; [done..|lia|lia].
Qed.

Lemma mark_drawn_accounts order now s :
  NoDup order -> accounts s -> accounts (mark_drawn_at order now s).
Proof.
  intros Hn [H1 H2 H3 H4]. unfold mark_drawn_at. cbn zeta.
  set (m0 := set_pending_redraws 0 _).
  assert (Hm0 : delta_events m0 = delta_events (metrics s) /\ pending_streams m0 = pending_streams (metrics s)
                /\ pending_redraws m0 = 0) by (subst m0; by destruct (metrics s)).
  destruct Hm0 as (M1 & M2 & M3).
  assert (Hd := draw_streams_state now order m0 (streams s) Hn H1).
  destruct (draw_streams now order m0 (streams s)) as [[m st] turns]. destruct Hd as [P D R Dm T Nd Tu].
  cbn in *. assert (Hr := remove_completed_counts turns m st Nd T Tu).
  destruct (remove_completed m st turns) as [m' st']. destruct Hr as (R1 & R2 & R3 & R4 & R5).
  assert (Hsz : size st = size (streams s)) by (rewrite <- !size_dom; by rewrite Dm).
  constructor; cbn; [done|by rewrite R3, R, M3|rewrite R2, D, M1; lia|].
  rewrite R2, D, M1, R5, P, M2. intros Hlt. destruct (H4 Hlt) as [H5 H6]. split; lia.
Qed.

Lemma apply_event_accounts a x : accounts (render_metrics a) -> accounts (render_metrics (apply_runtime_event a x)).
Proof.
  intros H. destruct x as [now e]. unfold apply_runtime_event. destruct (is_some_and _ _); [done|].
  unfold track_stream. destruct (ev_turn_id e) as [turn|]; [|done].
  destruct (ev_event_type e); cbn; try done;
    try (by apply stream_ended_accounts); try (by apply stream_completed_accounts);
    try (by apply final_message_accounts).
  destruct (provider_stream_event_is_meaningful (ev_payload e)); [|done].
  assert (Hr := record_delta_accounts turn (stream_sequence_no (ev_payload e)) now (render_metrics a) H).
  destruct (record_delta_at turn _ now (render_metrics a)) as [fr s']. by destruct fr.
Qed.

Lemma apply_events_accounts es a :
  accounts (render_metrics a) -> accounts (render_metrics (foldl apply_runtime_event a es)).
Proof. revert a. induction es as [|x es IH]; intros a H; [done|]. by apply IH, apply_event_accounts. Qed.

(** Each key of the map is visited once. *)
Definition visits_once (s : Step) : Prop := match s with SNext t => NoDup (order t) | _ => True end.

Lemma loop_step_accounts s a :
  visits_once s -> accounts (render_metrics a) -> accounts (render_metrics (snd (loop_step s a))).
Proof.
  intros Hv H. destruct s as [t|now es changed|now reduced]; cbn [loop_step].
  - unfold next_turn. destruct (poll_next _ _) as [[[x|x|x]|] p]; cbn [take_immediate_frame_request]; [| | |done].
    + by apply mark_drawn_accounts.
    + by apply request_accounts.
    + assert (He := apply_events_accounts (events t) (set_priority p a) H).
      destruct (immediate_frame_pending _); by apply request_accounts.
  - cbn [take_immediate_frame_request]. assert (He := apply_events_accounts es a H).
    destruct (immediate_frame_pending _); [|destruct changed]; [by apply request_accounts..|done].
  - unfold activity_refresh_due. destruct (_ <? _); [done|]. by apply request_accounts.
Qed.

(** The interactive loop keeps its accounts: there is at most one pending redraw, and the
    pending streams are the ones that have had a delta and no final frame. *)
Theorem scheduler_accounts ss a :
  accounts (render_metrics a) -> Forall visits_once ss -> accounts (render_metrics (snd (run_loop ss a))).
Proof.
  revert a. induction ss as [|s ss IH]; intros a H Hall; [done|]. apply Forall_cons in Hall as [Hs Hall].
  cbn [run_loop]. assert (H' := loop_step_accounts s a Hs H). destruct (loop_step s a) as [o a'].
  assert (H2 := IH a' H' Hall). by destruct (run_loop ss a').
Qed.

(** ** Concrete runs *)

Definition ms (n : N) : N := n * 1000000.
Definition busy_turn (t : N) : Step := SNext (mkTurn t None true true t [] []).
Definition frame_turn (t : N) : Step := SNext (mkTurn t None false false t [] []).
Definition key_turn (t : N) : Step := SNext (mkTurn t None true false t [] []).
Definition runtime_turn (t : N) (es : list (N * RuntimeEvent json)) : Step :=
  SNext (mkTurn t None false true t es []).

(** The loop after its first frame, at the start of the clock. *)
Definition started_app : App := mkApp 0 (mark_drawn_at [] 0 new_scheduler) false None 0.

Lemma started_accounts : accounts (render_metrics started_app).
Proof. constructor; cbn; try done. Qed.

Definition due_app : App := snd (run_loop [key_turn (ms 1)] started_app).

Lemma due_frame_is_drawn_witness :
  deadline (render_metrics due_app) = Some MIN_FRAME_INTERVAL
  /\ (exists now, Drew now ∈ fst (run_loop (busy_turn <$> [ms 9; ms 10; ms 11]) due_app)).
Proof.
  split; [vm_compute; reflexivity|].
  assert (Hp : event_priority due_app < 3) by (vm_compute; reflexivity).
  assert (Hd : deadline (render_metrics due_app) = Some MIN_FRAME_INTERVAL) by (vm_compute; reflexivity).
  assert (Ha : Forall (polls_after MIN_FRAME_INTERVAL) (busy_turn <$> [ms 9; ms 10; ms 11]))
    by (repeat (apply Forall_cons; split; [vm_compute; discriminate|]); apply Forall_nil_2).
  exact (due_frame_is_drawn _ due_app MIN_FRAME_INTERVAL Hp Hd Ha (le_n 3)).
Defined.

Lemma frames_keep_their_distance_witness :
  let run := [key_turn (ms 1); frame_turn (ms 9); key_turn (ms 10); key_turn (ms 11); frame_turn (ms 18)] in
  fst (run_loop run started_app)
    = [Asked (ms 1)] ++ Drew (ms 9) :: [Asked (ms 10); Asked (ms 11)] ++ Drew (ms 18) :: []
  /\ ms 9 + MIN_FRAME_INTERVAL <= ms 18.
Proof.
  intros run. assert (E : fst (run_loop run started_app)
    = [Asked (ms 1)] ++ Drew (ms 9) :: [Asked (ms 10); Asked (ms 11)] ++ Drew (ms 18) :: [])
    by (vm_compute; reflexivity).
  split; [exact E|]. assert (Hp : event_priority started_app < 3) by (vm_compute; reflexivity).
  assert (Ht : Forall on_time run)
    by (repeat (apply Forall_cons; split; [vm_compute; split; [discriminate|split; [reflexivity|discriminate]]|]);
        apply Forall_nil_2).
  exact (frames_keep_their_distance run started_app [Asked (ms 1)] (ms 9) [Asked (ms 10); Asked (ms 11)]
           (ms 18) [] Hp Ht E eq_refl).
Defined.

(** The first deltas of two turns, each with a frame at once. *)
Definition delta_event (sequence turn : N) (stream : N) : RuntimeEvent json :=
  mkEvent 1 sequence sequence 1 (Some turn) None None RuntimeEventType.ProviderStreamed 0
    RuntimeEventSource.Provider
    (JObject [("stream_sequence_no", JInt (Z.of_N stream));
              ("delta", JObject [("kind", JString "text_delta"); ("text", JString "x")])]) None false.

(** Requests at once are not held to the limit of 120 frames per second. *)
Example immediate_frames_exceed_the_limit :
  fst (run_loop [runtime_turn (ms 20) [(ms 20, delta_event 1 1 1)]; frame_turn (ms 20);
                 runtime_turn (ms 21) [(ms 21, delta_event 2 2 1)]; frame_turn (ms 21)] started_app)
  = [AskedAtOnce (ms 20); Drew (ms 20); AskedAtOnce (ms 21); Drew (ms 21)].
Proof. by vm_compute. Qed.

(** A repeated old delta sets the sequence back, so that the next one counts as a gap and a
    dropped frame, although no delta is missing. *)
Example duplicate_delta_counts_as_a_gap :
  let m := metrics (render_metrics (foldl apply_runtime_event started_app
             [(1, delta_event 1 1 1); (2, delta_event 2 1 2); (3, delta_event 3 1 3);
              (4, delta_event 4 1 1); (5, delta_event 5 1 4)])) in
  (duplicate_frames m, stream_gaps m, dropped_frames m) = (1, 1, 1).
Proof. by vm_compute. Qed.
