(* ===== verification/TransportAuth.v ===== *)
(** * The transport token of the app server

    [golutra-agent-app-server/src/transport_security.rs]: clients present a bearer token that
    the server keeps in a file only its owner may read. Several servers may start at once;
    the first one creates the file and the others read it. SHA-256, the text of a header and
    random tokens are arguments, and so is how the operating system's calls end.

    A server that starts is a small program of atomic calls on the file; [advance] is one of
    them, and [load_or_create] the calls one after the other. [write_all] on the at most 512
    bytes of a token is one such call: it writes them all, or fails and leaves the first of
    them in the file. *)
From S2P Require Import Prelude RustStr Utf8.
Open Scope N_scope.

(*@ app-server/src/transport_security.rs MAX_TRANSPORT_TOKEN_BYTES *)
Definition MAX_TRANSPORT_TOKEN_BYTES : N := 1024.

(** [left.iter().zip(right).fold(0, |d, (l, r)| d | (l ^ r)) == 0]. *)
(*@ app-server/src/transport_security.rs constant_time_eq *)
Definition constant_time_eq (left right : list N) : bool :=
  foldl (fun difference '(l, r) => N.lor difference (N.lxor l r)) 0 (zip left right) =? 0.

(*@ app-server/src/transport_security.rs validate_token *)
Definition validate_token (token : string) : result string unit :=
  if (str_len token <? 32) || (512 <? str_len token) || existsb is_whitespace (chars token)
  then Err "runtime transport token must contain 32..=512 non-whitespace characters"
  else Ok tt.

Module ErrorKind.
(** The kinds of [std::io::Error] the code tells apart. *)
Inductive ErrorKind := NotFound | AlreadyExists | InvalidData | PermissionDenied | Other.
#[global] Instance ErrorKind_eq_dec : EqDecision ErrorKind.
Proof. solve_decision. Defined.
End ErrorKind.
Abbreviation ErrorKind := ErrorKind.ErrorKind.

Record IoError := mkIoError { kind : ErrorKind; text : string }.

(** What is at the path of the token: nothing, a regular file with its permission bits and
    bytes, or something else (a link, a directory). *)
Inductive TokenPath := Missing | Regular (mode : N) (bytes : string) | Irregular.

(** How the calls of [read_token] and [create_token_file] end: as the file says, or with an
    error of their own; a write that fails may have written some bytes before. *)
Record Calls := mkCalls {
  open_fault : option string; create_fault : option string; write_fault : option (nat * string);
  sync_fault : option string }.
Definition calls_work : Calls := mkCalls None None None None.

Definition other (e : string) : IoError := mkIoError ErrorKind.Other e.

(** Unix: the file must not be accessible to the group or others. *)
(*@ app-server/src/transport_security.rs read_token *)
Definition read_token (c : Calls) (path : string) (file : TokenPath) : result IoError string :=
  match file with
  | Missing => Err (mkIoError ErrorKind.NotFound "not found")
  | Irregular =>
      Err (mkIoError ErrorKind.InvalidData
             ("app-server transport token path is not a bounded regular file: " +:+ path))
  | Regular mode bytes =>
      if MAX_TRANSPORT_TOKEN_BYTES <? str_len bytes
      then Err (mkIoError ErrorKind.InvalidData
                  ("app-server transport token path is not a bounded regular file: " +:+ path))
      else if negb (N.land mode 63 =? 0)
      then Err (mkIoError ErrorKind.PermissionDenied
                  ("app-server transport token must be owner-only: " +:+ path))
      else match open_fault c with
           | Some e => Err (other e)
           | None => if valid_utf8 bytes then Ok (trim bytes)
                     else Err (mkIoError ErrorKind.InvalidData "invalid utf-8 sequence")
           end
  end.

Section Auth.
Context (digest : string -> list N) (to_str : string -> option string).

(*@ app-server/src/transport_security.rs TransportAuth *)
Record TransportAuth := mkTransportAuth { token_digest : list N }.

(*@ app-server/src/transport_security.rs TransportAuth::from_token *)
Definition from_token (token : string) : result string TransportAuth :=
  let? _ := validate_token token in
  Ok (mkTransportAuth (digest token)).

(** [authorization] is the value of the header, if there is one. *)
(*@ app-server/src/transport_security.rs TransportAuth::authorizes *)
Definition authorizes (auth : TransportAuth) (authorization : option string) : bool :=
  match (authorization ≫= to_str) ≫= strip_prefix "Bearer " with
  | None => false
  | Some token => constant_time_eq (token_digest auth) (digest token)
  end.

(** ** Starting a server *)

(** The token a server would use if there is no file: from its environment, or random. *)
Inductive Server :=
| Reading (own : string)
| Creating (own : string)
| Writing (own : string)
| Syncing (own : string)
| Rereading
| Done (outcome : result string TransportAuth).

Definition use_token (token : string) : Server := Done (from_token token).

(** The next call of a server, on the file as it is then. *)
(*@ app-server/src/transport_security.rs:29-48 TransportAuth::load_or_create *)
Definition advance (c : Calls) (path : string) (s : Server) (file : TokenPath) : Server * TokenPath :=
  match s with
  | Reading own =>
      match read_token c path file with
      | Ok token => (use_token token, file)
      | Err e =>
          if bool_decide (kind e = ErrorKind.NotFound)
          then match validate_token own with
               | Err e => (Done (Err e), file)
               | Ok _ => (Creating own, file)
               end
          else (Done (Err (text e)), file)
      end
  | Creating own =>
      match create_fault c, file with
      | Some e, _ => (Done (Err e), file)
      | None, Missing => (Writing own, Regular 384 "")
      | None, _ => (Rereading, file)
      end
  | Writing own =>
      match write_fault c, file with
      | Some (written, e), Regular mode _ => (Done (Err e), Regular mode (String.substring 0 written own))
      | Some (_, e), _ => (Done (Err e), file)
      | None, Regular mode _ => (Syncing own, Regular mode own)
      | None, _ => (Syncing own, file)
      end
  | Syncing own =>
      match sync_fault c with
      | Some e => (Done (Err e), file)
      | None => (use_token own, file)
      end
  | Rereading =>
      match read_token c path file with
      | Ok token => (use_token token, file)
      | Err e => (Done (Err (text e)), file)
      end
  | Done r => (Done r, file)
  end.

(** The calls of one server that is not disturbed: at most four. *)
(*@ app-server/src/transport_security.rs TransportAuth::load_or_create *)
Definition load_or_create (c : Calls) (path own : string) (file : TokenPath) : Server * TokenPath :=
  Nat.iter 4 (fun '(s, file) => advance c path s file) (Reading own, file).

(** ** What a token opens *)

Lemma lor_zero a b : N.lor a b = 0 <-> a = 0 /\ b = 0.
Proof. rewrite N.lor_eq_0_iff. done. Qed.

Lemma fold_lor_zero (l : list (N * N)) d :
  foldl (fun difference '(x, y) => N.lor difference (N.lxor x y)) d l = 0 <->
  d = 0 /\ Forall (fun '(x, y) => x = y) l.
Proof.
  revert d. induction l as [|[x y] l IH]; intros d; cbn; [by split; [|intros []]|].
  rewrite IH, lor_zero, N.lxor_eq_0_iff, Forall_cons. tauto.
Qed.

(** Every byte is looked at, and only equal arrays pass. *)
Lemma constant_time_eq_spec left right :
  length left = length right -> constant_time_eq left right = true <-> left = right.
Proof.
  intros Hl. unfold constant_time_eq. rewrite N.eqb_eq, fold_lor_zero. split.
  - intros [_ H]. revert right Hl H. induction left as [|x left IH]; intros [|y right] Hl H; try done.
    cbn in H. apply Forall_cons in H as [-> H]. f_equal. apply IH; [cbn in Hl; lia|done].
  - intros ->. split; [done|]. clear Hl. induction right as [|x right IH]; [constructor|].
    cbn. by constructor.
Qed.

(** ** Several servers *)

(** Servers share the path; a schedule says whose call comes next and how it ends. *)
Definition step_server (path : string) (st : list Server * TokenPath) (x : nat * Calls)
    : list Server * TokenPath :=
  let '(servers, file) := st in
  match servers !! fst x with
  | None => st
  | Some s => let '(s', file') := advance (snd x) path s file in (<[fst x := s']> servers, file')
  end.
Definition run_servers (path : string) (schedule : list (nat * Calls)) (st : list Server * TokenPath)
    : list Server * TokenPath :=
  foldl (step_server path) st schedule.

(** A Rust text is valid UTF-8. *)
Definition rust_text (s : string) : Prop := valid_utf8 s = true.

Lemma drop_while_none {A} (f : A -> bool) l : existsb f l = false -> drop_while f l = l.
Proof. destruct l as [|x l]; [done|]. cbn. by intros [-> _]%orb_false_iff. Qed.

Lemma existsb_reverse {A} (f : A -> bool) l : existsb f (reverse l) = existsb f l.
Proof.
  apply eq_true_iff_eq. rewrite !existsb_elem. setoid_rewrite elem_of_reverse. done.
Qed.

Lemma trim_token s : rust_text s -> existsb is_whitespace (chars s) = false -> trim s = s.
Proof.
  intros Hs%of_chars_chars Hw. unfold trim, trim_matches_chars.
  by rewrite (drop_while_none _ (chars s)), (drop_while_none _ (reverse (chars s))), reverse_involutive
    by (rewrite ?existsb_reverse; done).
Qed.

(** A token that passed validation is read back as it was written. *)
Lemma written_token_reads c path token :
  rust_text token -> validate_token token = Ok tt -> open_fault c = None ->
  read_token c path (Regular 384 token) = Ok token.
Proof.
  intros Hv Hval Ho. unfold validate_token in Hval. destruct (_ || _) eqn:E; [done|].
  apply orb_false_iff in E as [E Hw]. apply orb_false_iff in E as [_ E]. Nbool.
  cbn. unfold MAX_TRANSPORT_TOKEN_BYTES. destruct (_ <? _) eqn:El; [Nbool; lia|].
  by rewrite Ho, Hv, (trim_token token Hv Hw).
Qed.

(** What the servers agree on: there is no file yet, one of them has created it and is about
    to write, or the file has the bytes it will keep. *)
Definition settled (path : string) (auth : TransportAuth) (file : TokenPath) : Prop :=
  exists token, read_token calls_work path file = Ok token /\ from_token token = Ok auth.

Definition while_missing (s : Server) : Prop :=
  match s with
  | Reading own => rust_text own
  | Creating own => rust_text own /\ validate_token own = Ok tt
  | Done (Err _) => True
  | _ => False
  end.
Definition while_empty (s : Server) : Prop :=
  match s with Writing _ | Syncing _ | Done (Ok _) => False | _ => True end.
Definition when_found (path : string) (file : TokenPath) (s : Server) : Prop :=
  match s with
  | Writing _ => False
  | Syncing own => read_token calls_work path file = Ok own
  | Done (Ok auth) => settled path auth file
  | _ => True
  end.

Inductive agreement (path : string) : list Server -> TokenPath -> Prop :=
| agree_missing servers : Forall while_missing servers -> agreement path servers Missing
| agree_created T writer servers :
    rust_text T -> validate_token T = Ok tt -> servers !! writer = Some (Writing T) ->
    (forall i s, servers !! i = Some s -> i <> writer -> while_empty s) ->
    agreement path servers (Regular 384 "")
| agree_found servers file :
    file <> Missing -> Forall (when_found path file) servers -> agreement path servers file.

Lemma while_missing_empty s : while_missing s -> while_empty s.
Proof. by destruct s as [| | | | |[]]. Qed.

Lemma while_empty_found path file s : while_empty s -> when_found path file s.
Proof. by destruct s as [| | | | |[]]. Qed.

Lemma advance_missing c path s :
  while_missing s ->
  (exists s', advance c path s Missing = (s', Missing) /\ while_missing s')
  \/ (exists T, rust_text T /\ validate_token T = Ok tt
        /\ advance c path s Missing = (Writing T, Regular 384 "")).
Proof.
  destruct s as [own|own|own|own| |[]]; cbn; try done; intros Hs.
  - destruct (validate_token own) as [[]|e] eqn:Ev; left; eexists; done.
  - destruct (create_fault c); [left; by eexists|right; exists own; by destruct Hs].
  - left. by eexists.
Qed.

(** What a reader finds does not depend on the faults, if it finds anything. *)
Lemma read_token_works c path file token :
  read_token c path file = Ok token -> read_token calls_work path file = Ok token.
Proof.
  unfold read_token. destruct file as [|mode bytes|]; [done| |done].
  destruct (_ <? _); [done|]. destruct (negb _); [done|]. by destruct (open_fault c).
Qed.

Lemma read_token_not_missing c path file e :
  file <> Missing -> read_token c path file = Err e -> kind e <> ErrorKind.NotFound.
Proof.
  unfold read_token. destruct file as [|mode bytes|]; [done| |by intros _ [= <-]]. intros _.
  destruct (_ <? _); [by intros [= <-]|]. destruct (negb _); [by intros [= <-]|].
  destruct (open_fault c); [by intros [= <-]|]. destruct (valid_utf8 bytes); [done|by intros [= <-]].
Qed.

Lemma use_token_found path file token :
  read_token calls_work path file = Ok token -> when_found path file (use_token token).
Proof.
  intros Hr. unfold use_token. destruct (from_token token) as [auth|e] eqn:Ef; [|done]. by exists token.
Qed.

(** A file that is there is not written again but by the server that created it. *)
Lemma advance_found c path file s :
  file <> Missing -> when_found path file s ->
  exists s', advance c path s file = (s', file) /\ when_found path file s'.
Proof.
  intros Hf Hs. destruct s as [own|own|own|own| |r]; cbn [advance].
  - destruct (read_token c path file) as [token|e] eqn:E.
    + eexists. split; [done|]. by eapply use_token_found, read_token_works.
    + rewrite bool_decide_eq_false_2 by (by eapply read_token_not_missing). by eexists.
  - destruct (create_fault c), file; done || by eexists.
  - done.
  - destruct (sync_fault c); [by eexists|]. eexists. split; [done|]. by apply use_token_found.
  - destruct (read_token c path file) as [token|e] eqn:E; [|by eexists].
    eexists. split; [done|]. by eapply use_token_found, read_token_works.
  - by eexists.
Qed.

(** While the file is empty nobody starts. *)
Lemma advance_empty c path s :
  while_empty s ->
  exists s', advance c path s (Regular 384 "") = (s', Regular 384 "") /\ while_empty s'.
Proof.
  intros Hs. destruct (advance_found c path (Regular 384 "") s) as (s' & E & Hs');
    [done|by apply while_empty_found|].
  exists s'. split; [done|]. destruct s as [own|own|own|own| |[]]; try done; cbn [advance] in E.
  - cbn in E. destruct (open_fault c); by injection E as <-.
  - cbn in E. destruct (create_fault c); by injection E as <-.
  - cbn in E. destruct (open_fault c); by injection E as <-.
  - by injection E as <-.
Qed.

(** The write of the server that created the file, whole or cut short. *)
Lemma advance_writer c path T :
  rust_text T -> validate_token T = Ok tt ->
  exists s' body, advance c path (Writing T) (Regular 384 "") = (s', Regular 384 body) /\
    when_found path (Regular 384 body) s'.
Proof.
  intros Ht Hv. cbn [advance]. destruct (write_fault c) as [[n e]|]; [by eexists _, _|].
  eexists _, T. split; [done|]. by apply written_token_reads.
Qed.

Lemma step_server_agrees path st x :
  agreement path (fst st) (snd st) ->
  agreement path (fst (step_server path st x)) (snd (step_server path st x)).
Proof.
  destruct st as [servers file], x as [i c]. cbn. intros H.
  destruct (servers !! i) as [s|] eqn:Ei; [|done].
  inversion H as [l Hall|T writer l Ht Hv Hw Hall|l f Hf Hall]; subst.
  - destruct (advance_missing c path s (Forall_lookup_1 _ _ _ _ Hall Ei)) as [(s' & -> & Hs')|(T & Ht & Hv & ->)].
    + cbn. constructor. by apply Forall_insert.
    + cbn. apply (agree_created path T i); [done|done|apply list_lookup_insert_eq; by eapply lookup_lt_Some|].
      intros j q Hq Hne. rewrite list_lookup_insert_ne in Hq by done.
      apply while_missing_empty. by eapply Forall_lookup_1.
  - destruct (decide (i = writer)) as [->|Hne].
    + rewrite Hw in Ei. injection Ei as <-.
      destruct (advance_writer c path T Ht Hv) as (s' & body & -> & Hs'). cbn.
      apply agree_found; [done|]. apply Forall_lookup. intros j q Hq.
      destruct (decide (j = writer)) as [->|Hj].
      * rewrite list_lookup_insert_eq in Hq by (by eapply lookup_lt_Some). by injection Hq as <-.
      * rewrite list_lookup_insert_ne in Hq by done. apply while_empty_found. by eapply Hall.
    + destruct (advance_empty c path s (Hall _ _ Ei Hne)) as (s' & -> & Hs'). cbn.
      apply (agree_created path T writer); [done|done|by rewrite list_lookup_insert_ne|].
      intros j q Hq Hj. destruct (decide (j = i)) as [->|Hji].
      * rewrite list_lookup_insert_eq in Hq by (by eapply lookup_lt_Some). by injection Hq as <-.
      * rewrite list_lookup_insert_ne in Hq by done. by eapply Hall.
  - destruct (advance_found c path file s Hf (Forall_lookup_1 _ _ _ _ Hall Ei)) as (s' & -> & Hs').
    cbn. apply agree_found; [done|]. by apply Forall_insert.
Qed.

Lemma run_servers_agree path schedule st :
  agreement path (fst st) (snd st) ->
  agreement path (fst (run_servers path schedule st)) (snd (run_servers path schedule st)).
Proof.
  unfold run_servers. revert st. induction schedule as [|x schedule IH]; intros st H; [done|].
  by apply IH, step_server_agrees.
Qed.

(** A server that has started uses the token in the file. *)
Lemma started_uses_the_file path servers file auth :
  agreement path servers file -> Done (Ok auth) ∈ servers -> settled path auth file.
Proof.
  intros H Hin. inversion H as [l Hall|T writer l Ht Hv Hw Hall|l f Hf Hall]; subst.
  - rewrite Forall_forall in Hall. by specialize (Hall _ Hin).
  - apply list_elem_of_lookup in Hin as [i Hi]. destruct (decide (i = writer)) as [->|Hne]; [congruence|].
    by specialize (Hall _ _ Hi Hne).
  - rewrite Forall_forall in Hall. by specialize (Hall _ Hin).
Qed.

Lemma strip_prefix_iff p s t : strip_prefix p s = Some t <-> s = p +:+ t.
Proof.
  revert s. induction p as [|a p IH]; intros [|b s]; cbn.
  - rewrite str_app_nil. naive_solver.
  - rewrite str_app_nil. naive_solver.
  - rewrite str_app_cons. naive_solver.
  - rewrite str_app_cons. destruct (Ascii.eqb_spec a b) as [->|Hne].
    + rewrite IH. split; [by intros ->|by intros [= ->]].
    + split; [done|]. by intros [= ->].
Qed.

(** C27 (safety): however many servers start at once on one path, and however their calls are
    interleaved and fail, a write that fails half-way included: every server that starts lets in exactly the clients whose header
    is "Bearer " and a text with the digest of the token that is in the file. *)
Theorem token_file_opens_every_server path schedule owns file st auth :
  (forall s, length (digest s) = 32%nat) -> Forall rust_text owns ->
  run_servers path schedule (Reading <$> owns, file) = st -> Done (Ok auth) ∈ fst st ->
  exists token, read_token calls_work path (snd st) = Ok token /\
    forall header, authorizes auth header = true <->
      exists value t, header = Some value /\ to_str value = Some ("Bearer " +:+ t) /\ digest t = digest token.
Proof.
  intros Hd Ho <- Hin.
  assert (Hag : agreement path (Reading <$> owns) file).
  { destruct file as [|mode bytes|].
    - constructor. by apply Forall_fmap.
    - apply agree_found; [done|]. by apply Forall_fmap, Forall_true.
    - apply agree_found; [done|]. by apply Forall_fmap, Forall_true. }
  destruct (started_uses_the_file _ _ _ _ (run_servers_agree path schedule (Reading <$> owns, file) Hag) Hin)
    as (token & Hr & Ha).
  exists token. split; [exact Hr|]. intros header. unfold from_token in Ha.
  destruct (validate_token token); [|done]. injection Ha as <-. unfold authorizes. cbn [token_digest].
  destruct header as [value|]; cbn [mbind option_bind]; [|naive_solver].
  destruct (to_str value) as [v|] eqn:Ev; cbn [mbind option_bind]; [|naive_solver].
  destruct (strip_prefix "Bearer " v) as [t|] eqn:Et.
  - apply strip_prefix_iff in Et as ->. rewrite constant_time_eq_spec by (by rewrite !Hd).
    split; [intros E; exists value, t; by split_and!|].
    intros (value' & t' & [= <-] & E & E'). rewrite Ev in E. injection E as E.
    assert (t = t') as -> by done. done.
  - split; [done|]. intros (value' & t' & [= <-] & E & _). rewrite Ev in E. injection E as ->.
    assert (E2 : strip_prefix "Bearer " ("Bearer " +:+ t') = Some t') by by apply strip_prefix_iff.
    congruence.
Qed.
End Auth.

(** ** A concrete start of two servers *)

Definition sample_digest (s : string) : list N :=
  default 0 (head (chars s)) :: replicate 31 0.
Definition token_a : string := of_chars (replicate 32 97).
Definition token_b : string := of_chars (replicate 40 98).

(** Both find no file; the second creates it, the first then reads what the second wrote. *)
Definition sample_schedule : list (nat * Calls) :=
  (fun i => (i, calls_work)) <$> [0; 1; 1; 1; 0; 0; 1]%nat.
Definition two_servers (schedule : list (nat * Calls)) : list Server * TokenPath :=
  run_servers sample_digest "token" schedule (Reading <$> [token_a; token_b], Missing).

Example two_servers_start :
  two_servers sample_schedule
  = ([Done (Ok (mkTransportAuth (sample_digest token_b))); Done (Ok (mkTransportAuth (sample_digest token_b)))],
     Regular 384 token_b).
Proof. by vm_compute. Qed.

(** A server that reads between the creation and the writing fails; it does not start with
    another token. *)
Example reading_too_early_fails :
  match fst (two_servers ((fun i => (i, calls_work)) <$> [0; 1; 1; 0; 0; 1; 1]%nat)) with
  | [Done (Err _); Done (Ok auth)] => auth = mkTransportAuth (sample_digest token_b)
  | _ => False
  end.
Proof. by vm_compute. Qed.

(** A write that fails half-way leaves a shorter token, and the server that comes next
    starts with that one. *)
Example cut_write_is_the_token :
  two_servers ((fun i => (i, mkCalls None None (Some (35%nat, "disk full")) None)) <$> [1; 1; 1; 0]%nat)
  = ([Done (Ok (mkTransportAuth (sample_digest token_b))); Done (Err "disk full")],
     Regular 384 (of_chars (replicate 35 98))).
Proof. by vm_compute. Qed.

Lemma token_file_opens_every_server_witness :
  exists token, read_token calls_work "token" (Regular 384 token_b) = Ok token /\
    forall header, authorizes sample_digest Some (mkTransportAuth (sample_digest token_b)) header = true <->
      exists value t, header = Some value /\ Some value = Some ("Bearer " +:+ t)
                      /\ sample_digest t = sample_digest token.
Proof.
  assert (Ho : Forall rust_text [token_a; token_b]) by (repeat constructor).
  assert (E : two_servers sample_schedule
    = ([Done (Ok (mkTransportAuth (sample_digest token_b))); Done (Ok (mkTransportAuth (sample_digest token_b)))],
       Regular 384 token_b)) by (vm_compute; reflexivity).
  assert (Hin : Done (Ok (mkTransportAuth (sample_digest token_b)))
    ∈ fst ([Done (Ok (mkTransportAuth (sample_digest token_b))); Done (Ok (mkTransportAuth (sample_digest token_b)))],
           Regular 384 token_b)) by left.
  exact (token_file_opens_every_server sample_digest Some "token" sample_schedule [token_a; token_b] Missing _ _
           (fun s => eq_refl) Ho E Hin).
Defined.
