(* ===== verification/ProcessOutput.v ===== *)
(** * The output of background processes

    The journal of [golutra-agent-tools/src/process_supervisor.rs]: two readers
    decode what comes from the pipes of a process and append the text to it, it keeps the
    last two mebibytes, and whoever polls the process gets a page from a cursor on. Bytes are
    numbers below 256; how much of its pipe a reader gets at a time is an argument. *)
From S2P Require Import Prelude RustStr Utf8 TestOutput.
Open Scope N_scope. Open Scope rust_scope.

(*@ tools/src/process_supervisor.rs MAX_OUTPUT_BYTES *)
Definition MAX_OUTPUT_BYTES : N := 2 * 1024 * 1024.

(** ** The journal *)

(*@ tools/src/process_supervisor.rs OutputChunk *)
Record OutputChunk := mkOutputChunk { oc_start : N; oc_bytes : list N }.

(*@ tools/src/process_supervisor.rs OutputJournal *)
Record OutputJournal := mkOutputJournal {
  chunks : list OutputChunk; next_cursor : N; retained_bytes : N; total_lines : N;
  total_bytes : N; last_byte : option N; truncated : bool }.
Definition new_journal : OutputJournal := mkOutputJournal [] 0 0 0 0 None false.

Definition size_of (l : list N) : N := N.of_nat (length l).

(** The loop of [trim_to_limit], which works at the front. *)
(*@ tools/src/process_supervisor.rs OutputJournal::trim_to_limit *)
Fixpoint trim_chunks (cs : list OutputChunk) (retained : N) (trunc : bool)
    : list OutputChunk * N * bool :=
  if retained <=? MAX_OUTPUT_BYTES then (cs, retained, trunc)
  else
    let excess := retained - MAX_OUTPUT_BYTES in
    match cs with
    | [] => ([], 0, trunc)
    | front :: cs' =>
        if size_of (oc_bytes front) <=? excess
        then trim_chunks cs' (retained - size_of (oc_bytes front)) true
        else (mkOutputChunk (oc_start front +|64 excess) (drop (N.to_nat excess) (oc_bytes front)) :: cs',
              retained - excess, true)
    end.

(*@ tools/src/process_supervisor.rs OutputJournal::append *)
Definition append (bytes : list N) (j : OutputJournal) : OutputJournal :=
  match bytes with
  | [] => j
  | _ =>
      let added := chunks j ++ [mkOutputChunk (next_cursor j) bytes] in
      let '(cs, retained, trunc) :=
        trim_chunks added (sat_add usize_max (retained_bytes j) (size_of bytes)) (truncated j) in
      mkOutputJournal cs (next_cursor j +|64 size_of bytes) retained
        (total_lines j +|64 size_of (List.filter (N.eqb 10) bytes))
        (total_bytes j +|64 size_of bytes) (last bytes) trunc
  end.

(*@ tools/src/process_supervisor.rs OutputJournal::lines *)
Definition journal_lines (j : OutputJournal) : N :=
  total_lines j +|64 (if is_some_and (fun b => negb (b =? 10)) (last_byte j) then 1 else 0).

(** [byte & 0xc0 == 0x80]. *)
Definition continues_char (b : N) : bool := N.land b 192 =? 128.

Fixpoint leading (f : N -> bool) (l : list N) : nat :=
  match l with
  | [] => 0
  | b :: l' => if f b then S (leading f l') else 0
  end.

(** [while end > offset && end < len && continues(bytes[end]) { end -= 1 }]. *)
Fixpoint back_up (bytes : list N) (offset end_ : nat) : nat :=
  match end_ with
  | O => O
  | S e =>
      if bool_decide (offset < end_)%nat && from_option continues_char false (bytes !! end_)
      then back_up bytes offset e else end_
  end.

Definition omitted_note : list N :=
  byte_of <$> String.list_ascii_of_string ("[earlier process output omitted]" +:+ String (byte 10) "").

(** The loop over the chunks: the bytes of the page so far and the next cursor. *)
(*@ tools/src/process_supervisor.rs:369-395 OutputJournal::page *)
Fixpoint page_chunks (cs : list OutputChunk) (cursor capacity : N) (bytes : list N) (next : N)
    : list N * N :=
  match cs with
  | [] => (bytes, next)
  | c :: cs' =>
      if oc_start c +|64 size_of (oc_bytes c) <=? cursor
      then page_chunks cs' cursor capacity bytes next
      else
        let from := N.to_nat (cursor - oc_start c) in
        let offset := (from + leading continues_char (drop from (oc_bytes c)))%nat in
        if bool_decide (offset < length (oc_bytes c))%nat then
          let room := capacity - size_of bytes in
          let limit := N.min (size_of (oc_bytes c)) (sat_add usize_max (N.of_nat offset) room) in
          let end_ := back_up (oc_bytes c) offset (N.to_nat limit) in
          let bytes := bytes ++ take (end_ - offset) (drop offset (oc_bytes c)) in
          let next := oc_start c +|64 N.of_nat end_ in
          if bool_decide (end_ < length (oc_bytes c))%nat || (capacity <=? size_of bytes)
          then (bytes, next)
          else page_chunks cs' cursor capacity bytes next
        else page_chunks cs' cursor capacity bytes next
  end.

(** The bytes of a page, whether earlier output is missing, and the next cursor. *)
(*@ tools/src/process_supervisor.rs:357-395 OutputJournal::page *)
Definition page_bytes (j : OutputJournal) (cursor limit : N) : list N * bool * N :=
  let oldest := from_option oc_start (next_cursor j) (head (chunks j)) in
  let output_lost := (cursor <? oldest) && truncated j in
  let bytes := if output_lost then omitted_note else [] in
  let capacity := sat_add usize_max limit (size_of bytes) in
  let next := N.max (N.min cursor (next_cursor j)) oldest in
  let '(bytes, next) := page_chunks (chunks j) cursor capacity bytes next in
  (bytes, output_lost, next).

(*@ tools/src/process_supervisor.rs OutputJournal::page *)
Definition page (j : OutputJournal) (cursor limit : N) : list N * bool * N :=
  let '(bytes, lost, next) := page_bytes j cursor limit in (from_utf8_lossy bytes, lost, next).

(** ** The readers *)

(** How [str::from_utf8] ends: [Ok], an error without [error_len] because the bytes end within
    a character, or an error with it. *)
Inductive utf8_end := Whole | Cut | Bad.
Definition after (n : nat) (r : nat * utf8_end) : nat * utf8_end := ((n + fst r)%nat, snd r).

(** [str::from_utf8]: [valid_up_to] and how it ends. *)
Fixpoint utf8_check (l : list N) : nat * utf8_end :=
  match l with
  | [] => (0%nat, Whole)
  | b0 :: l1 =>
      if b0 <? 128 then after 1 (utf8_check l1)
      else if between 194 223 b0 then
        match l1 with
        | [] => (0%nat, Cut)
        | b1 :: l2 => if between 128 191 b1 then after 2 (utf8_check l2) else (0%nat, Bad)
        end
      else if between 224 239 b0 then
        match l1 with
        | [] => (0%nat, Cut)
        | b1 :: l2 =>
            if between (if b0 =? 224 then 160 else 128) (if b0 =? 237 then 159 else 191) b1 then
              match l2 with
              | [] => (0%nat, Cut)
              | b2 :: l3 => if between 128 191 b2 then after 3 (utf8_check l3) else (0%nat, Bad)
              end
            else (0%nat, Bad)
        end
      else if between 240 244 b0 then
        match l1 with
        | [] => (0%nat, Cut)
        | b1 :: l2 =>
            if between (if b0 =? 240 then 144 else 128) (if b0 =? 244 then 143 else 191) b1 then
              match l2 with
              | [] => (0%nat, Cut)
              | b2 :: l3 =>
                  if between 128 191 b2 then
                    match l3 with
                    | [] => (0%nat, Cut)
                    | b3 :: l4 => if between 128 191 b3 then after 4 (utf8_check l4) else (0%nat, Bad)
                    end
                  else (0%nat, Bad)
              end
            else (0%nat, Bad)
        end
      else (0%nat, Bad)
  end.

Definition bytes_of (s : string) : list N := byte_of <$> String.list_ascii_of_string s.

(** [String::from_utf8_lossy(bytes).as_bytes()]. *)
Definition lossy_bytes (l : list N) : list N := bytes_of (of_chars (from_utf8_lossy l)).

(** One read of a reader: what is appended to the journal and what is kept for later. *)
(*@ tools/src/process_supervisor.rs:1624-1634 spawn_reader *)
Definition reader_read (pending read : list N) : list N * list N :=
  let pending := pending ++ read in
  let '(upto, ended) := utf8_check pending in
  let complete := match ended with Whole => length pending | Cut => upto | Bad => length pending end in
  if bool_decide (0 < complete)%nat
  then (lossy_bytes (take complete pending), drop complete pending)
  else ([], pending).

(** A reader until its pipe ends or the process is forgotten: the texts it appends. *)
(*@ tools/src/process_supervisor.rs:1614-1648 spawn_reader *)
Fixpoint reader_run (pending : list N) (reads : list (list N)) : list (list N) :=
  match reads with
  | [] => match pending with [] => [] | _ => [lossy_bytes pending] end
  | read :: reads' =>
      let '(appended, pending) := reader_read pending read in
      match appended with
      | [] => reader_run pending reads'
      | _ => appended :: reader_run pending reads'
      end
  end.

(** ** Bytes of a text *)

Lemma bytes_of_cons a s : bytes_of (String a s) = byte_of a :: bytes_of s.
Proof. done. Qed.

Lemma bytes_of_app a b : bytes_of (a +:+ b) = bytes_of a ++ bytes_of b.
Proof. induction a as [|x a IH]; [done|]. by rewrite str_app_cons, !bytes_of_cons, IH. Qed.

Lemma bytes_of_length s : length (bytes_of s) = String.length s.
Proof. induction s as [|a s IH]; [done|]. rewrite bytes_of_cons. simpl. by f_equal. Qed.

Lemma bytes_of_injective s t : bytes_of s = bytes_of t -> s = t.
Proof.
  revert t. induction s as [|a s IH]; intros [|b t] E; try done.
  rewrite !bytes_of_cons in E. apply (inj2 cons) in E as [Hab E]. f_equal; [|by apply IH].
  by rewrite <-(byte_byte_of a), <-(byte_byte_of b), Hab.
Qed.

Lemma bytes_of_split s k :
  exists a b, s = a +:+ b /\ bytes_of a = take k (bytes_of s) /\ bytes_of b = drop k (bytes_of s).
Proof.
  revert k. induction s as [|x s IH]; intros [|k].
  - by exists "", "".
  - by exists "", "".
  - by exists "", (String x s).
  - destruct (IH k) as (a & b & -> & Ha & Hb). exists (String x a), b.
    rewrite str_app_cons. split; [done|]. rewrite !bytes_of_cons. simpl. by rewrite Ha, Hb.
Qed.

(** No character is cut where a byte string with this begins. *)
Definition starts_char (l : list N) : Prop := from_option continues_char false (head l) = false.

Lemma continues_char_iff a : continues_char (byte_of a) = is_continuation a.
Proof. by destruct a as [[] [] [] [] [] [] [] []]. Qed.

Lemma starts_char_bytes s : starts_char (bytes_of s) <-> begins_char s = true.
Proof.
  unfold starts_char. destruct s as [|a s]; [done|]. simpl. rewrite continues_char_iff.
  by destruct (is_continuation a).
Qed.

(** The bytes of a text. *)
Definition text (l : list N) : Prop := exists s, valid_utf8 s = true /\ l = bytes_of s.

Lemma text_nil : text [].
Proof. by exists "". Qed.
Lemma text_starts l : text l -> starts_char l.
Proof. intros (s & Hs & ->). by apply starts_char_bytes, valid_begins_char. Qed.
Lemma text_app a b : text a -> text b -> text (a ++ b).
Proof.
  intros (s & Hs & ->) (t & Ht & ->). exists (s +:+ t). by rewrite valid_utf8_app, bytes_of_app.
Qed.
Lemma text_cut l k : text l -> starts_char (drop k l) -> text (take k l) /\ text (drop k l).
Proof.
  intros (s & Hs & ->) Hk. destruct (bytes_of_split s k) as (a & b & -> & <- & Hb).
  rewrite <-Hb in *. apply starts_char_bytes in Hk.
  destruct (valid_utf8_cut a b Hs Hk) as [Ha Hb']. by split; [exists a|exists b].
Qed.

(** A character has at most four bytes. *)
Lemma text_first_char l :
  text l -> l <> [] -> exists k, (1 <= k <= 4)%nat /\ (k <= length l)%nat /\ starts_char (drop k l).
Proof.
  intros (s & Hs & ->) Hl. destruct s as [|a s1]; [done|]. cbn [valid_utf8] in Hs.
  assert (forall s, valid_utf8 s = true -> starts_char (bytes_of s)) as Hst
    by (intros; by apply starts_char_bytes, valid_begins_char).
  repeat case_match; boolhyps; try done;
    first [ exists 1%nat; split_and!; [lia..|simpl; lia|by apply Hst]
          | exists 2%nat; split_and!; [lia..|simpl; lia|by apply Hst]
          | exists 3%nat; split_and!; [lia..|simpl; lia|by apply Hst]
          | exists 4%nat; split_and!; [lia..|simpl; lia|by apply Hst] ].
Qed.

(** The end of a text, possibly from within a character on. *)
Definition text_tail (l : list N) : Prop := exists v k, text v /\ l = drop k v.

Lemma text_tail_text l : text l -> text_tail l.
Proof. intros Hl. by exists l, 0%nat. Qed.
Lemma text_tail_drop l k : text_tail l -> text_tail (drop k l).
Proof. intros (v & i & Hv & ->). exists v, (i + k)%nat. by rewrite drop_drop. Qed.
Lemma text_tail_starts l : text_tail l -> starts_char l -> text l.
Proof. intros (v & i & Hv & ->) Hl. by apply text_cut. Qed.

Lemma text_tail_near l : text_tail l -> exists k, (k <= 3)%nat /\ starts_char (drop k l).
Proof.
  intros (v & i & Hv & ->). remember (length v) as n eqn:Hn. revert v i Hv Hn.
  induction n as [n IH] using lt_wf_ind. intros v i Hv ->.
  destruct (decide (i = 0%nat)) as [->|Hi].
  { exists 0%nat. split; [lia|]. by apply text_starts. }
  destruct (decide (v = [])) as [->|Hne]; [exists 0%nat; split; [lia|]; by rewrite !drop_nil|].
  destruct (text_first_char v Hv Hne) as (k & Hk & Hlen & Hst).
  destruct (decide (i < k)%nat).
  - exists (k - i)%nat. split; [lia|]. rewrite drop_drop. by replace (i + (k - i))%nat with k by lia.
  - destruct (IH (length (drop k v)) ltac:(rewrite length_drop; destruct v; simpl in *; [done|lia])
      (drop k v) (i - k)%nat (proj2 (text_cut _ _ Hv Hst)) eq_refl) as (j & Hj & H).
    exists j. split; [done|]. rewrite !drop_drop in *.
    by replace (i + j)%nat with (k + (i - k + j))%nat by lia.
Qed.

Lemma leading_starts l : starts_char (drop (leading continues_char l) l).
Proof.
  induction l as [|b l IH]; [done|]. simpl. destruct (continues_char b) eqn:E; [done|]. done.
Qed.
Lemma leading_le l k : starts_char (drop k l) -> (leading continues_char l <= k)%nat.
Proof.
  revert k. induction l as [|b l IH]; intros k Hk; simpl; [lia|].
  destruct (continues_char b) eqn:E; [|lia]. destruct k; simpl in Hk.
  - unfold starts_char in Hk. simpl in Hk. congruence.
  - apply IH in Hk. lia.
Qed.
Lemma leading_length f l : (leading f l <= length l)%nat.
Proof. induction l; simpl; [lia|]. case_match; lia. Qed.
Lemma leading_none l : starts_char l -> leading continues_char l = 0%nat.
Proof. intros H. pose proof (leading_le l 0 H). lia. Qed.

(** Decoding a text replaces nothing and splits at characters. *)
Lemma lossy_text s : valid_utf8 s = true -> from_utf8_lossy (bytes_of s) = chars s.
Proof.
  remember (String.length s) as n eqn:Hn. revert s Hn.
  induction n as [n IH] using lt_wf_ind. intros s -> Hs. destruct s as [|a s1]; [done|].
  assert (forall t, valid_utf8 t = true -> (String.length t < String.length (String a s1))%nat ->
    from_utf8_lossy (bytes_of t) = chars t) as IH' by (intros; by eapply IH).
  clear IH. rewrite bytes_of_cons. cbn [valid_utf8 from_utf8_lossy chars] in *.
  destruct (byte_of a <? 128); [f_equal; apply IH'; [done|simpl; lia]|].
  change (between ?l ?h ?b) with ((l <=? b) && (b <=? h)).
  destruct ((194 <=? byte_of a) && (byte_of a <=? 223)) eqn:H2.
  { assert ((byte_of a <? 224) = true) as -> by (apply N.ltb_lt; boolhyps; Nbool; lia).
    destruct s1 as [|b s2]; [done|]. rewrite bytes_of_cons. apply andb_true_iff in Hs as [Hb Hs].
    unfold in_range in Hb. rewrite Hb. f_equal. apply IH'; [done|simpl; lia]. }
  destruct ((224 <=? byte_of a) && (byte_of a <=? 239)) eqn:H3.
  { assert ((byte_of a <? 224) = false /\ (byte_of a <? 240) = true) as [-> ->]
      by (split; [apply N.ltb_ge|apply N.ltb_lt]; boolhyps; Nbool; lia).
    destruct s1 as [|b [|c s3]]; [done..|]. rewrite !bytes_of_cons.
    apply andb_true_iff in Hs as [[Hb Hc]%andb_true_iff Hs].
    unfold in_range in Hb, Hc. rewrite Hb, Hc. f_equal. apply IH'; [done|simpl; lia]. }
  destruct ((240 <=? byte_of a) && (byte_of a <=? 244)) eqn:H4; [|done].
  assert ((byte_of a <? 224) = false /\ (byte_of a <? 240) = false) as [-> ->]
    by (split; apply N.ltb_ge; boolhyps; Nbool; lia).
  destruct s1 as [|b [|c [|d s4]]]; [done..|]. rewrite !bytes_of_cons.
  apply andb_true_iff in Hs as [[[Hb Hc]%andb_true_iff Hd]%andb_true_iff Hs].
  unfold in_range in Hb, Hc, Hd. rewrite Hb, Hc, Hd. f_equal. apply IH'; [done|simpl; lia].
Qed.

Lemma lossy_app a b : text a -> text b -> from_utf8_lossy (a ++ b) = from_utf8_lossy a ++ from_utf8_lossy b.
Proof.
  intros (s & Hs & ->) (t & Ht & ->).
  rewrite <-bytes_of_app, !lossy_text by (rewrite ?valid_utf8_app; done). by apply chars_app.
Qed.

(** ** What the journal holds *)

Definition content (cs : list OutputChunk) : list N := cs ≫= oc_bytes.

(** The chunks lie one after the other from [s] on. *)
Fixpoint follows (s : N) (cs : list OutputChunk) : Prop :=
  match cs with
  | [] => True
  | c :: cs' => oc_start c = s /\ oc_bytes c <> [] /\ follows (s + size_of (oc_bytes c)) cs'
  end.

(** Only the first chunk may begin within a character. *)
Definition chunk_texts (cs : list OutputChunk) : Prop :=
  match cs with
  | [] => True
  | c :: cs' => text_tail (oc_bytes c) /\ Forall (fun c => text (oc_bytes c)) cs'
  end.

Record tracks (j : OutputJournal) (S : list N) : Prop := {
  tr_retained : retained_bytes j = N.min (size_of S) MAX_OUTPUT_BYTES;
  tr_content : content (chunks j) = drop (N.to_nat (size_of S - retained_bytes j)) S;
  tr_follows : follows (size_of S - retained_bytes j) (chunks j);
  tr_texts : chunk_texts (chunks j);
  tr_next : next_cursor j = size_of S;
  tr_truncated : truncated j = bool_decide (MAX_OUTPUT_BYTES < size_of S);
  tr_total : total_bytes j = size_of S;
  tr_lines : total_lines j = size_of (List.filter (N.eqb 10) S);
  tr_last : last_byte j = last S }.

Lemma size_of_app a b : size_of (a ++ b) = size_of a + size_of b.
Proof. unfold size_of. rewrite length_app. lia. Qed.
Lemma content_cons c cs : content (c :: cs) = oc_bytes c ++ content cs.
Proof. done. Qed.
Lemma content_app a b : content (a ++ b) = content a ++ content b.
Proof. unfold content. by rewrite bind_app. Qed.

Lemma follows_app s a b : follows s (a ++ b) <-> follows s a /\ follows (s + size_of (content a)) b.
Proof.
  revert s. induction a as [|c a IH]; intros s; cbn [app follows].
  - change (size_of (content [])) with 0. rewrite N.add_0_r. tauto.
  - rewrite IH, content_cons, size_of_app, N.add_assoc. tauto.
Qed.

Lemma follows_at s s' cs : follows s cs -> s = s' -> follows s' cs.
Proof. by intros ? ->. Qed.

Lemma texts_later cs : chunk_texts cs -> Forall (fun c => text (oc_bytes c)) (tail cs).
Proof. destruct cs; [done|]. by intros [_ H]. Qed.
Lemma texts_of_later cs : Forall (fun c => text (oc_bytes c)) cs -> chunk_texts cs.
Proof. intros H. destruct H; [done|]. split; [by apply text_tail_text|done]. Qed.
Lemma texts_snoc cs c : chunk_texts cs -> text (oc_bytes c) -> chunk_texts (cs ++ [c]).
Proof.
  destruct cs as [|c' cs]; simpl.
  - intros _ H. split; [by apply text_tail_text|done].
  - intros [Ha Hb] H. split; [done|]. apply Forall_app. by split; [|constructor].
Qed.

Lemma trim_chunks_spec cs s retained trunc cs' retained' trunc' :
  follows s cs -> chunk_texts cs -> retained = size_of (content cs) -> s + retained <= u64_max ->
  trim_chunks cs retained trunc = (cs', retained', trunc') ->
  retained' = N.min retained MAX_OUTPUT_BYTES /\
  content cs' = drop (N.to_nat (retained - retained')) (content cs) /\
  follows (s + (retained - retained')) cs' /\ chunk_texts cs' /\
  trunc' = trunc || bool_decide (MAX_OUTPUT_BYTES < retained).
Proof.
  revert s retained trunc. induction cs as [|c cs IH]; intros s retained trunc Hf Ht Hr Hb;
    cbn [trim_chunks]; case_match eqn:HM; Nbool.
  1, 3: intros [= <- <- <-]; replace (retained - retained) with 0 by lia;
    rewrite bool_decide_eq_false_2, orb_false_r, N.add_0_r by lia; split_and!; done || lia.
  - exfalso. subst. change (size_of (content [])) with 0 in HM. lia.
  - rewrite content_cons, size_of_app in Hr. destruct Hf as (Hs & Hne & Hf). destruct Ht as [Hc Ht].
    rewrite (bool_decide_eq_true_2 (MAX_OUTPUT_BYTES < retained)) by lia. rewrite orb_true_r.
    case_match eqn:Hx; Nbool.
    + intros H. apply (IH (s + size_of (oc_bytes c))) in H as (Hr' & Hc' & Hf' & Ht' & Htr);
        [|done|by apply texts_of_later|lia|lia].
      split_and!; [lia| | |done|by rewrite Htr].
      * rewrite Hc', content_cons, drop_app_ge by (unfold size_of in *; lia).
        f_equal. unfold size_of in *. lia.
      * eapply follows_at; [exact Hf'|]. lia.
    + intros [= <- <- <-].
      assert (length (drop (N.to_nat (retained - MAX_OUTPUT_BYTES)) (oc_bytes c)) <> 0%nat) as Hlen
        by (rewrite length_drop; unfold size_of in *; lia).
      split_and!; [lia| | |split; [by apply text_tail_drop|done]|done].
      * rewrite content_cons. cbn [oc_bytes]. rewrite content_cons, drop_app_le by (unfold size_of in *; lia).
        do 2 f_equal. lia.
      * cbn [follows oc_start oc_bytes]. split_and!.
        -- sat_lia.
        -- intros E. by rewrite E in Hlen.
        -- eapply follows_at; [exact Hf|]. unfold size_of in *. rewrite length_drop. lia.
Qed.

Lemma new_journal_tracks : tracks new_journal [].
Proof. split; done. Qed.

(** Appending a text keeps what the journal says of the stream, as long as the stream can be
    counted. *)
Lemma append_tracks j S t :
  tracks j S -> text t -> size_of S + size_of t <= u64_max -> tracks (append t j) (S ++ t).
Proof.
  intros Hj Ht Hb. destruct t as [|b t0] eqn:Et; [by rewrite app_nil_r|]. rewrite <-Et in *.
  assert (append t j = (let '(cs, retained, trunc) :=
    trim_chunks (chunks j ++ [mkOutputChunk (next_cursor j) t])
      (sat_add usize_max (retained_bytes j) (size_of t)) (truncated j) in
    mkOutputJournal cs (next_cursor j +|64 size_of t) retained
      (total_lines j +|64 size_of (List.filter (N.eqb 10) t))
      (total_bytes j +|64 size_of t) (last t) trunc)) as -> by (by rewrite Et).
  destruct (trim_chunks _ _ _) as [[cs retained] trunc] eqn:Htr.
  pose proof (tr_retained _ _ Hj) as HR. set (d := size_of S - retained_bytes j) in *.
  assert (size_of (content (chunks j)) = retained_bytes j) as HC
    by (rewrite (tr_content _ _ Hj); unfold size_of in *; rewrite length_drop; lia).
  assert (sat_add usize_max (retained_bytes j) (size_of t) = retained_bytes j + size_of t) as Hsum by sat_lia.
  rewrite Hsum in Htr.
  apply (trim_chunks_spec _ d) in Htr as (Hr & Hc & Hf & Htx & Htrunc).
  - assert (size_of (List.filter (N.eqb 10) S) <= size_of S) as HL1
      by (unfold size_of; pose proof (List.filter_length_le (N.eqb 10) S); lia).
    assert (size_of (List.filter (N.eqb 10) t) <= size_of t) as HL2
      by (unfold size_of; pose proof (List.filter_length_le (N.eqb 10) t); lia).
    split; cbn [chunks next_cursor retained_bytes total_lines total_bytes last_byte truncated];
      rewrite ?size_of_app.
    + unfold d in *. lia.
    + rewrite Hc, content_app, (tr_content _ _ Hj).
      change (content [_]) with (t ++ []). rewrite app_nil_r.
      rewrite !drop_app, drop_drop, length_drop. unfold d, size_of in *. f_equal; f_equal; lia.
    + eapply follows_at; [exact Hf|]. unfold d. lia.
    + done.
    + rewrite (tr_next _ _ Hj). sat_lia.
    + rewrite Htrunc, (tr_truncated _ _ Hj). repeat case_bool_decide; simpl; try done; lia.
    + rewrite (tr_total _ _ Hj). sat_lia.
    + rewrite (tr_lines _ _ Hj), List.filter_app, size_of_app. sat_lia.
    + rewrite last_app. destruct (last t) eqn:E; [done|]. apply last_None in E. by rewrite E in Et.
  - apply follows_app. split; [apply Hj|]. rewrite HC. cbn [follows oc_start oc_bytes].
    split_and!; [rewrite (tr_next _ _ Hj); unfold d; lia|by subst|done].
  - apply texts_snoc; [apply Hj|done].
  - rewrite content_app, size_of_app, HC. change (content [_]) with (t ++ []). by rewrite app_nil_r.
  - unfold d. lia.
Qed.

(** ** Pages *)

Lemma starts_char_drop l k :
  starts_char (drop k l) <-> from_option continues_char false (l !! k) = false.
Proof.
  unfold starts_char. replace (head (drop k l)) with (l !! k); [done|].
  rewrite <-(Nat.add_0_r k) at 1. rewrite <-lookup_drop. by destruct (drop k l).
Qed.

Lemma back_up_spec l offset e :
  (offset <= e <= length l)%nat -> starts_char (drop offset l) ->
  (offset <= back_up l offset e <= e)%nat /\ starts_char (drop (back_up l offset e) l) /\
  forall k, (k <= e)%nat -> starts_char (drop k l) -> (k <= back_up l offset e)%nat.
Proof.
  intros Hle Ho. induction e as [|e IH]; simpl.
  - replace offset with 0%nat in Ho by lia. split_and!; [lia..|done|lia].
  - case_match eqn:Hb.
    + apply andb_true_iff in Hb as [Hlt%bool_decide_eq_true Hb].
      destruct IH as (H1 & H2 & H3); [lia|]. split_and!; [lia..|done|].
      intros k Hk Hs. destruct (decide (k = S e)) as [->|]; [|apply H3; [lia|done]].
      apply starts_char_drop in Hs. congruence.
    + split_and!; [lia..| |lia]. apply andb_false_iff in Hb as [Hb|Hb].
      * case_bool_decide; [done|]. by replace (S e) with offset by lia.
      * by apply starts_char_drop.
Qed.

(** What a chunk gives to a page that has room for [room] bytes. *)
Lemma chunk_window l offset room :
  (offset < length l)%nat -> size_of l <= u64_max -> text (drop offset l) ->
  let limit := N.min (size_of l) (sat_add usize_max (N.of_nat offset) room) in
  let e := back_up l offset (N.to_nat limit) in
  (offset <= e <= length l)%nat /\ N.of_nat (e - offset) <= room /\
  starts_char (drop e l) /\ (4 <= room -> (offset < e)%nat).
Proof.
  intros Ho Hl Ht limit e. unfold size_of in *.
  assert (limit = N.min (N.of_nat (length l)) (N.of_nat offset + room)) as Hlim
    by (unfold limit; sat_lia).
  destruct (back_up_spec l offset (N.to_nat limit) ltac:(lia) (text_starts _ Ht)) as (H1 & H2 & H3).
  fold e in H1, H2, H3. split_and!; [lia|lia|lia|done|]. intros H4.
  destruct (text_first_char _ Ht) as (k & Hk & Hlen & Hst).
  { intros E%(f_equal length). rewrite length_drop in E. simpl in E. lia. }
  rewrite length_drop in Hlen. rewrite drop_drop in Hst.
  specialize (H3 (offset + k)%nat ltac:(lia) Hst). lia.
Qed.

(** A page so far [acc] is continued by as many bytes of [later] as fit, which lies at [at_],
    up to where a character begins. *)
Definition continues_page (capacity : N) (acc later : list N) (at_ next : N) (r : list N * N) : Prop :=
  exists m, r = (acc ++ take m later, match later with [] => next | _ => at_ + N.of_nat m end) /\
    (m <= length later)%nat /\ N.of_nat m <= capacity - size_of acc /\
    starts_char (drop m later) /\ (4 <= capacity - size_of acc -> later <> [] -> (0 < m)%nat).

Lemma content_starts s cs :
  follows s cs -> Forall (fun c => text (oc_bytes c)) cs -> starts_char (content cs).
Proof.
  intros Hf Hcs. destruct Hcs as [|c' cs' Hc' _]; [done|]. rewrite content_cons.
  destruct Hf as (_ & Hne' & _). apply text_starts in Hc'. by destruct (oc_bytes c').
Qed.

(** A chunk of which some bytes are wanted, and the chunks after it. *)
Lemma page_head c cs cursor capacity acc next offset :
  let b := oc_bytes c in
  offset = (N.to_nat (cursor - oc_start c) + leading continues_char (drop (N.to_nat (cursor - oc_start c)) b))%nat ->
  (offset < length b)%nat -> text_tail b -> starts_char (content cs) ->
  cursor < oc_start c + size_of b -> oc_start c + size_of b + size_of (content cs) <= u64_max ->
  (forall acc next, continues_page capacity acc (content cs) (oc_start c + size_of b) next
     (page_chunks cs cursor capacity acc next)) ->
  continues_page capacity acc (drop offset b ++ content cs) (oc_start c + N.of_nat offset) next
    (page_chunks (c :: cs) cursor capacity acc next).
Proof.
  intros b Hoff Hlen Hb Hrest Hcur Hmax IH. cbn [page_chunks]. fold b. rewrite <-Hoff.
  destruct (N.leb_spec (oc_start c +|64 size_of b) cursor) as [Hx|_]; [exfalso; sat_lia|].
  rewrite bool_decide_eq_true_2 by done.
  assert (text (drop offset b)) as Htext.
  { apply text_tail_starts; [by apply text_tail_drop|]. rewrite Hoff, <-drop_drop. apply leading_starts. }
  destruct (chunk_window b offset (capacity - size_of acc) Hlen ltac:(lia) Htext) as (H1 & H2 & H3 & H4).
  cbv zeta in H1, H2, H3, H4. set (e := back_up _ _ _) in *. set (n := (e - offset)%nat) in *.
  assert (length (drop offset b) = (length b - offset)%nat) as Hdl by apply length_drop.
  assert (size_of (take n (drop offset b)) = N.of_nat n) as Hte
    by (unfold size_of; rewrite length_take; lia).
  assert (drop offset b ++ content cs <> []) as Hne
    by (intros E%(f_equal length); rewrite length_app in E; simpl in E; lia).
  assert (forall x y : N, match drop offset b ++ content cs with [] => x | _ => y end = y) as Hm
    by (by destruct (drop offset b ++ content cs)).
  assert (size_of b = N.of_nat (length b)) as Hsz by done.
  destruct (bool_decide (e < length b)%nat || _) eqn:Hstop.
  - exists n. rewrite Hm, take_app_le by lia. split_and!; [f_equal; sat_lia|rewrite length_app; lia|done| |].
    + destruct (decide (e = length b)) as [He|].
      * rewrite drop_app_ge by lia. by replace (n - length (drop offset b))%nat with 0%nat by lia.
      * apply starts_char_drop. rewrite lookup_app_l, lookup_drop by lia.
        apply starts_char_drop. by replace (offset + n)%nat with e by lia.
    + intros Hr _. specialize (H4 Hr). lia.
  - apply orb_false_iff in Hstop as [Hend Hcap]. case_bool_decide; [done|]. Nbool.
    destruct (IH (acc ++ take n (drop offset b)) (oc_start c +|64 N.of_nat e))
      as (m & -> & Hm1 & Hm2 & Hm3 & Hm4).
    rewrite size_of_app, Hte in *. exists (n + m)%nat. rewrite Hm. split_and!.
    + f_equal.
      * rewrite take_app_ge, (take_ge (drop offset b) n), app_assoc by lia. do 2 f_equal. lia.
      * destruct (content cs); [|lia]. simpl in Hm1. sat_lia.
    + rewrite length_app. lia.
    + lia.
    + rewrite drop_app_ge by lia. by replace (n + m - length (drop offset b))%nat with m by lia.
    + intros. lia.
Qed.

(** The chunks after the one the page begins in. *)
Lemma page_later cs s cursor capacity acc next :
  follows s cs -> Forall (fun c => text (oc_bytes c)) cs -> cursor <= s ->
  s + size_of (content cs) <= u64_max ->
  continues_page capacity acc (content cs) s next (page_chunks cs cursor capacity acc next).
Proof.
  revert s acc next. induction cs as [|c cs IH]; intros s acc next Hf Ht Hcur Hb.
  { exists 0%nat. cbn. rewrite app_nil_r. split_and!; [done|lia|lia|done|done]. }
  destruct Hf as (Hs & Hne & Hf). inversion Ht as [|? ? Hc Hcs]; subst.
  rewrite content_cons, size_of_app in *.
  assert (0 < length (oc_bytes c))%nat as Hpos by (destruct (oc_bytes c); simpl in *; [done|lia]).
  assert (size_of (oc_bytes c) = N.of_nat (length (oc_bytes c))) by done.
  rewrite <-(drop_0 (oc_bytes c)), <-(N.add_0_r (oc_start c)). apply (page_head _ _ _ _ _ _ 0).
  - replace (N.to_nat (cursor - oc_start c)) with 0%nat by lia.
    by rewrite drop_0, (leading_none _ (text_starts _ Hc)).
  - done.
  - by apply text_tail_text.
  - by eapply content_starts.
  - lia.
  - lia.
  - intros. apply IH; [done..|lia|lia].
Qed.

Lemma leading_app a b : starts_char b -> leading continues_char (a ++ b) = leading continues_char a.
Proof.
  intros Hb. induction a as [|x a IH]; simpl; [by apply leading_none|].
  destruct (continues_char x); [by f_equal|done].
Qed.

(** All the chunks: the page begins at the cursor or, when that is gone, at the first byte
    kept, after the rest of a character that was cut. *)
Lemma page_from cs s cursor capacity acc :
  follows s cs -> chunk_texts cs -> s + size_of (content cs) <= u64_max ->
  cursor <= s + size_of (content cs) ->
  let start := N.max cursor s in
  let T := drop (N.to_nat (start - s)) (content cs) in
  continues_page capacity acc (drop (leading continues_char T) T)
    (start + N.of_nat (leading continues_char T)) start (page_chunks cs cursor capacity acc start).
Proof.
  revert s. induction cs as [|c cs IH]; intros s Hf Ht Hb Hcur start T.
  { unfold T. cbn. rewrite drop_nil. exists 0%nat. cbn. rewrite app_nil_r. split_and!; [done|lia|lia|done|done]. }
  destruct Hf as (Hs & Hne & Hf). destruct Ht as [Hc Hcs].
  pose proof (content_starts _ _ Hf Hcs) as Hrest.
  rewrite content_cons in *. rewrite size_of_app in *.
  assert (size_of (oc_bytes c) = N.of_nat (length (oc_bytes c))) as Hsz by done.
  assert (0 < length (oc_bytes c))%nat as Hpos by (destruct (oc_bytes c); simpl in *; [done|lia]).
  destruct (decide (oc_start c + size_of (oc_bytes c) <= cursor)) as [Hend|Hend].
  - specialize (IH (s + size_of (oc_bytes c)) Hf (texts_of_later _ Hcs) ltac:(lia) ltac:(lia)).
    cbv zeta in IH. replace (N.max cursor (s + size_of (oc_bytes c))) with start in IH by lia.
    assert (T = drop (N.to_nat (start - (s + size_of (oc_bytes c)))) (content cs)) as HT
      by (unfold T; rewrite ?content_cons, drop_app_ge by lia; f_equal; lia).
    rewrite <-HT in IH. cbn [page_chunks].
    by destruct (N.leb_spec (oc_start c +|64 size_of (oc_bytes c)) cursor) as [_|Hx]; [|sat_lia].
  - set (from := N.to_nat (start - s)) in *. set (k := leading continues_char (drop from (oc_bytes c))).
    assert (T = drop from (oc_bytes c) ++ content cs) as HT by (unfold T; by rewrite ?content_cons, drop_app_le by lia).
    assert (leading continues_char T = k) as -> by (rewrite HT; by apply leading_app).
    assert (N.to_nat (cursor - oc_start c) = from) as Hfrom by lia.
    pose proof (leading_length continues_char (drop from (oc_bytes c))) as Hk. fold k in Hk.
    rewrite length_drop in Hk.
    destruct (decide (from + k < length (oc_bytes c))%nat) as [Hlt|Hge].
    + replace (drop k T) with (drop (from + k) (oc_bytes c) ++ content cs)
        by (rewrite HT, drop_app_le, drop_drop by (rewrite length_drop; lia); done).
      replace (start + N.of_nat k) with (oc_start c + N.of_nat (from + k)) by lia.
      apply page_head; [by rewrite Hfrom|done|done|done|lia|lia|].
      intros. apply page_later; [by rewrite Hs|done|lia|lia].
    + replace (drop k T) with (content cs)
        by (rewrite HT, drop_app_ge by (rewrite length_drop; lia);
            by replace (k - length (drop from (oc_bytes c)))%nat with 0%nat by (rewrite length_drop; lia)).
      replace (start + N.of_nat k) with (s + size_of (oc_bytes c)) by lia.
      cbn [page_chunks]. rewrite Hfrom. fold k.
      destruct (N.leb_spec (oc_start c +|64 size_of (oc_bytes c)) cursor) as [Hx|_]; [exfalso; sat_lia|].
      rewrite bool_decide_eq_false_2 by lia. apply page_later; [done|done|lia|lia].
Qed.

Lemma tracks_oldest j S :
  tracks j S -> from_option oc_start (next_cursor j) (head (chunks j)) = size_of S - retained_bytes j.
Proof.
  intros Hj. pose proof (tr_follows _ _ Hj) as Hf. pose proof (tr_content _ _ Hj) as Hc.
  pose proof (tr_retained _ _ Hj) as Hr. destruct (chunks j); simpl; [|by destruct Hf].
  rewrite (tr_next _ _ Hj). apply (f_equal length) in Hc. rewrite length_drop in Hc.
  unfold size_of in *. simpl in Hc. assert (MAX_OUTPUT_BYTES <> 0) by done. lia.
Qed.

Lemma omitted_note_size : size_of omitted_note = 33.
Proof. by vm_compute. Qed.

Lemma note_size (lost : bool) : size_of (if lost then omitted_note else []) <= 33.
Proof. destruct lost; [by rewrite omitted_note_size|done]. Qed.

Lemma page_bytes_at j cursor limit oldest lost note bytes next :
  from_option oc_start (next_cursor j) (head (chunks j)) = oldest ->
  (cursor <? oldest) && truncated j = lost -> (if lost then omitted_note else []) = note ->
  page_chunks (chunks j) cursor (sat_add usize_max limit (size_of note)) note
    (N.max (N.min cursor (next_cursor j)) oldest) = (bytes, next) ->
  page_bytes j cursor limit = (bytes, lost, next).
Proof. unfold page_bytes. cbv zeta. by intros -> -> -> ->. Qed.

(** A page against the stream: it begins at the cursor or, when that is gone and the page
    says so, at the first whole character kept. *)
Lemma page_bytes_spec j S cursor limit d start T k lost :
  tracks j S -> size_of S <= u64_max -> cursor <= size_of S -> limit <= usize_max ->
  d = size_of S - retained_bytes j -> start = N.max cursor d ->
  T = drop (N.to_nat start) S -> k = leading continues_char T -> lost = (cursor <? d) ->
  exists m, page_bytes j cursor limit
      = ((if lost then omitted_note else []) ++ take m (drop k T), lost,
         match drop k T with [] => start | _ => start + N.of_nat (k + m) end) /\
    (m <= length (drop k T))%nat /\ N.of_nat m <= limit /\ starts_char (drop m (drop k T)) /\
    (4 <= limit -> drop k T <> [] -> (0 < m)%nat).
Proof.
  intros Hj Hb Hcur Hlim Ed Es ET Ek El.
  pose proof (tr_retained _ _ Hj) as Hr. pose proof (tr_content _ _ Hj) as Hc. rewrite <-Ed in Hc.
  pose proof (tr_follows _ _ Hj) as Hf. rewrite <-Ed in Hf.
  assert (size_of (content (chunks j)) = retained_bytes j) as HC
    by (rewrite Hc; unfold size_of in *; rewrite length_drop; lia).
  assert ((cursor <? d) && truncated j = lost) as Hlost.
  { rewrite El, (tr_truncated _ _ Hj). destruct (N.ltb_spec cursor d); [|done].
    by rewrite bool_decide_eq_true_2 by lia. }
  assert (N.max (N.min cursor (next_cursor j)) d = start) as Hstart by (rewrite (tr_next _ _ Hj); lia).
  pose proof (note_size lost) as Hnote. remember (if lost then omitted_note else []) as note eqn:En.
  pose proof (page_from (chunks j) d cursor (sat_add usize_max limit (size_of note)) note
    Hf (tr_texts _ _ Hj) ltac:(lia) ltac:(lia)) as H. cbv zeta in H. rewrite <-Es in H.
  replace (drop (N.to_nat (start - d)) (content (chunks j))) with T in H
    by (rewrite ET, Hc, drop_drop; f_equal; lia).
  rewrite <-Ek in H. destruct H as (m & HP & H1 & H2 & H3 & H4). exists m.
  assert (N.of_nat m <= limit) as HL by (clear -H2; sat_lia).
  assert (4 <= limit -> 4 <= sat_add usize_max limit (size_of note) - size_of note) as H5
    by (clear -Hnote; sat_lia).
  split_and!; [|done|done|done|intros Hl; by apply H4, H5].
  rewrite <-Hstart in HP at 1.
  pose proof (tracks_oldest j S Hj) as Hold. rewrite <-Ed in Hold.
  rewrite (page_bytes_at _ _ _ _ _ _ _ _ Hold Hlost (eq_sym En) HP).
  f_equal. destruct (drop k T); [done|lia].
Qed.

(** ** Whoever reads from where the last page ended *)

Record watched := mkWatched {
  wa_journal : OutputJournal; wa_cursor : N; wa_pages : list (list N * bool) }.

(** A reader appends to the journal, and somebody asks for the next page. *)
Definition appended (bytes : list N) (w : watched) : watched :=
  mkWatched (append bytes (wa_journal w)) (wa_cursor w) (wa_pages w).
Definition polled (limit : N) (w : watched) : watched :=
  let '(shown, lost, next) := page (wa_journal w) (wa_cursor w) limit in
  mkWatched (wa_journal w) next (wa_pages w ++ [(shown, lost)]).

Definition told_lost (w : watched) : bool := existsb snd (wa_pages w).
Definition read_text (w : watched) : list N := wa_pages w ≫= fst.

Record watching (w : watched) (S : list N) : Prop := {
  wt_tracks : tracks (wa_journal w) S;
  wt_text : text S;
  wt_cursor : wa_cursor w <= size_of S;
  wt_char : starts_char (drop (N.to_nat (wa_cursor w)) S);
  wt_read : told_lost w = false -> read_text w = from_utf8_lossy (take (N.to_nat (wa_cursor w)) S) }.

Lemma starts_char_app l t c :
  (c <= length l)%nat -> starts_char (drop c l) -> starts_char t -> starts_char (drop c (l ++ t)).
Proof.
  intros Hc Hl Ht. destruct (decide (c = length l)) as [->|]; [by rewrite drop_app_length|].
  apply starts_char_drop. rewrite lookup_app_l by lia. by apply starts_char_drop.
Qed.

Lemma watching_appended w S t :
  watching w S -> text t -> size_of S + size_of t <= u64_max -> watching (appended t w) (S ++ t).
Proof.
  intros Hw Ht Hb. pose proof (wt_cursor _ _ Hw) as Hc.
  split; cbn [appended wa_journal wa_cursor wa_pages].
  - by apply append_tracks; [apply Hw|..].
  - by apply text_app; [apply Hw|].
  - rewrite size_of_app. lia.
  - apply starts_char_app; [unfold size_of in *; lia|apply Hw|by apply text_starts].
  - intros Hl. rewrite take_app_le by (unfold size_of in *; lia). by apply Hw.
Qed.

(** After a page a character begins at the new cursor, and a page that says nothing is lost
    is what follows the old one. *)
Lemma page_at_char j S cursor limit :
  tracks j S -> text S -> size_of S <= u64_max -> limit <= usize_max -> cursor <= size_of S ->
  starts_char (drop (N.to_nat cursor) S) ->
  exists shown lost next, page_bytes j cursor limit = (shown, lost, next) /\
    cursor <= next <= size_of S /\ starts_char (drop (N.to_nat next) S) /\
    (lost = false -> shown = drop (N.to_nat cursor) (take (N.to_nat next) S)) /\
    (4 <= limit -> cursor < size_of S -> cursor < next).
Proof.
  intros Hj HS Hb Hlim Hcur Hst.
  remember (size_of S - retained_bytes j) as d eqn:Ed. remember (N.max cursor d) as start eqn:Es.
  remember (drop (N.to_nat start) S) as T eqn:ET. remember (leading continues_char T) as k eqn:Ek.
  destruct (page_bytes_spec j S cursor limit d start T k _ Hj Hb Hcur Hlim Ed Es ET Ek eq_refl)
    as (m & -> & H1 & H2 & H3 & H4).
  pose proof (tr_retained _ _ Hj) as Hr. assert (4 <= MAX_OUTPUT_BYTES) as HM by (by vm_compute).
  assert (length T = N.to_nat (size_of S - start)) as HTl
    by (rewrite ET; unfold size_of; rewrite length_drop; lia).
  assert (k <= 3)%nat as Hk3.
  { destruct (text_tail_near T) as (i & Hi & Hs); [by rewrite ET; apply text_tail_drop, text_tail_text|].
    pose proof (leading_le T i Hs). lia. }
  assert (d <= cursor -> k = 0%nat) as Hk0.
  { intros. rewrite Ek. apply leading_none. rewrite ET. by replace start with cursor by lia. }
  assert (drop k T = [] -> k = 0%nat /\ start = size_of S) as Hnil.
  { intros E%(f_equal length). rewrite length_drop in E. simpl in E.
    destruct (decide (d <= cursor)); [rewrite Hk0 in E by done; split; [by apply Hk0|]|]; lia. }
  assert (drop k T <> [] -> drop m (drop k T) = drop (N.to_nat (start + N.of_nat (k + m))) S) as Hnext.
  { intros _. rewrite ET, !drop_drop. f_equal. lia. }
  rewrite length_drop in H1. do 3 eexists. split; [reflexivity|].
  destruct (drop k T) as [|b U] eqn:HU.
  - destruct (Hnil eq_refl) as [Hk Hs]. split_and!; [lia|lia| |..].
    + rewrite drop_ge; [done|unfold size_of in *; lia].
    + intros Hl. rewrite Hl, take_nil, (take_ge S) by (unfold size_of in *; lia).
      rewrite drop_ge; [done|unfold size_of in *; lia].
    + lia.
  - assert (k < length T)%nat as HkT by (apply (f_equal length) in HU; rewrite length_drop in HU; simpl in HU; lia).
    split_and!; [lia|lia|by rewrite <-Hnext|..].
    + intros Hl. rewrite Hl. apply N.ltb_ge in Hl. rewrite <-HU, Hk0 by lia. rewrite drop_0. cbn [app].
      rewrite ET, skipn_firstn_comm. replace start with cursor by lia. f_equal. lia.
    + intros Hl Hc. specialize (H4 Hl ltac:(done)). lia.
Qed.

Lemma watching_polled w S limit :
  watching w S -> size_of S <= u64_max -> limit <= usize_max -> watching (polled limit w) S.
Proof.
  intros Hw Hb Hl.
  destruct (page_at_char (wa_journal w) S (wa_cursor w) limit) as (shown & lost & next & HP & Hn & Hs & Hr & _);
    [apply Hw..|done|done|apply Hw|apply Hw|].
  unfold polled, page. rewrite HP.
  split; cbn [wa_journal wa_cursor wa_pages]; [apply Hw|apply Hw|lia|done|].
  unfold told_lost, read_text. cbn [wa_pages]. rewrite existsb_app, bind_app.
  cbn [existsb snd]. rewrite orb_false_r. intros [Ho Hlost]%orb_false_iff. cbn. rewrite app_nil_r.
  change (wa_pages w ≫= fst) with (read_text w). rewrite (wt_read _ _ Hw Ho), (Hr Hlost).
  rewrite <-lossy_app.
  - f_equal. rewrite <-(take_drop (N.to_nat (wa_cursor w)) (take (N.to_nat next) S)) at 2.
    by rewrite take_take, Nat.min_l by lia.
  - by apply text_cut; [apply Hw|apply Hw].
  - destruct (text_cut S (N.to_nat next) (wt_text _ _ Hw) Hs) as [Ht _].
    apply (text_cut _ (N.to_nat (wa_cursor w))) in Ht; [by destruct Ht|].
    pose proof (wt_char _ _ Hw) as Hc. apply starts_char_drop. apply starts_char_drop in Hc.
    destruct (decide (wa_cursor w = next)) as [->|]; [by rewrite lookup_take_ge by lia|].
    by rewrite lookup_take_lt by lia.
Qed.

(** What somebody who was never told of a loss has read, and how it goes on. *)
Lemma watching_reads w S limit :
  watching w S -> size_of S <= u64_max -> 4 <= limit <= usize_max -> told_lost w = false ->
  exists seen rest, S = bytes_of (seen +:+ rest) /\ read_text w = chars seen /\
    wa_cursor w = N.of_nat (String.length seen) /\ retained_bytes (wa_journal w) <= MAX_OUTPUT_BYTES /\
    let '(_, lost, next) := page (wa_journal w) (wa_cursor w) limit in
    rest = "" \/ lost = true \/ wa_cursor w < next.
Proof.
  intros Hw Hb Hl Hlost. destruct (wt_text _ _ Hw) as (s & Hs & E).
  destruct (bytes_of_split s (N.to_nat (wa_cursor w))) as (seen & rest & HS & Hseen & Hrest).
  rewrite <-E in Hseen, Hrest. pose proof (wt_cursor _ _ Hw) as Hc.
  assert (wa_cursor w = N.of_nat (String.length seen)) as Hlen
    by (rewrite <-bytes_of_length, Hseen, length_take; unfold size_of in *; lia).
  exists seen, rest. split_and!; [by rewrite E, HS| |done|rewrite (tr_retained _ _ (wt_tracks _ _ Hw)); lia|].
  - rewrite (wt_read _ _ Hw Hlost), <-Hseen. apply lossy_text.
    pose proof (wt_char _ _ Hw) as Hst. rewrite <-Hrest in Hst. apply starts_char_bytes in Hst.
    rewrite HS in Hs. by apply (valid_utf8_cut seen rest).
  - destruct (page_at_char (wa_journal w) S (wa_cursor w) limit)
      as (shown & lost & next & HP & _ & _ & _ & Hgo); [apply Hw..|done|lia|done|apply Hw|].
    unfold page. rewrite HP. destruct rest as [|a rest]; [by left|]. right. right. apply Hgo; [lia|].
    rewrite E, HS, bytes_of_app, size_of_app, Hlen. unfold size_of. rewrite !bytes_of_length. simpl. lia.
Qed.

(** ** What a reader passes on *)

Lemma after_spec n r k e : after n r = (k, e) -> exists i, r = (i, e) /\ k = (n + i)%nat.
Proof. destruct r as [i e']. unfold after. simpl. intros [= <- <-]. by exists i. Qed.

Lemma byte_range lo hi a : in_range lo hi a = true -> between lo hi (byte_of a) = true.
Proof. done. Qed.

(** The beginning of a text is whole, or ends within a character that begins where the check
    says. *)
Lemma utf8_check_text s n :
  valid_utf8 s = true -> (n <= String.length s)%nat ->
  exists k e, utf8_check (take n (bytes_of s)) = (k, e) /\ e <> Bad /\ (k <= n)%nat /\
    starts_char (drop k (bytes_of s)) /\ (e = Whole -> k = n).
Proof.
  remember (String.length s) as m eqn:Hm. revert s n Hm.
  induction m as [m IH] using lt_wf_ind. intros s n -> Hs Hn.
  assert (starts_char (bytes_of s)) as Hst by (by apply starts_char_bytes, valid_begins_char).
  destruct n as [|n]; [by exists 0%nat, Whole|]. destruct s as [|a s1]; [simpl in Hn; lia|].
  assert (forall t n j, valid_utf8 t = true -> (n <= String.length t)%nat ->
    (String.length t < String.length (String a s1))%nat ->
    (forall i, drop (j + i) (bytes_of (String a s1)) = drop i (bytes_of t)) ->
    exists k e, after j (utf8_check (take n (bytes_of t))) = (k, e) /\ e <> Bad /\ (k <= j + n)%nat /\
      starts_char (drop k (bytes_of (String a s1))) /\ (e = Whole -> k = j + n)%nat) as IH'.
  { intros t n' j Ht Hn' Hlt Hd. destruct (IH _ Hlt t n' eq_refl Ht Hn') as (k & e & -> & He & Hk & Hks & Hw).
    exists (j + k)%nat, e. unfold after. simpl. split_and!; [done..|lia|by rewrite Hd|].
    intros E. rewrite (Hw E). lia. }
  clear IH. cbn [valid_utf8] in Hs. rewrite bytes_of_cons. cbn [take utf8_check].
  change (between ?l ?h (byte_of a)) with ((l <=? byte_of a) && (byte_of a <=? h)).
  assert (forall e, e = Cut -> exists k e', (0%nat, e) = (k, e') /\ e' <> Bad /\ (k <= S n)%nat /\
    starts_char (drop k (byte_of a :: bytes_of s1)) /\ (e' = Whole -> k = S n)) as Hcut
    by (intros e ->; exists 0%nat, Cut; split_and!; [done..|lia|done|done]).
  cbn [String.length] in *.
  destruct (byte_of a <? 128); [apply (IH' s1 n 1%nat); [done|lia|lia|done]|].
  destruct ((194 <=? byte_of a) && (byte_of a <=? 223)).
  { destruct s1 as [|b s2]; [done|]. apply andb_true_iff in Hs as [Hb Hs].
    destruct n as [|n]; [by apply Hcut|]. rewrite bytes_of_cons. cbn [take String.length] in *.
    rewrite (byte_range _ _ _ Hb). apply (IH' s2 n 2%nat); [done|lia|lia|done]. }
  destruct ((224 <=? byte_of a) && (byte_of a <=? 239)).
  { destruct s1 as [|b [|c s3]]; [done..|]. apply andb_true_iff in Hs as [[Hb Hc]%andb_true_iff Hs].
    destruct n as [|n]; [by apply Hcut|]. rewrite bytes_of_cons. cbn [take String.length] in *.
    rewrite (byte_range _ _ _ Hb). destruct n as [|n]; [by apply Hcut|]. rewrite bytes_of_cons.
    cbn [take]. rewrite (byte_range _ _ _ Hc). apply (IH' s3 n 3%nat); [done|lia|lia|done]. }
  destruct ((240 <=? byte_of a) && (byte_of a <=? 244)); [|done].
  destruct s1 as [|b [|c [|d s4]]]; [done..|].
  apply andb_true_iff in Hs as [[[Hb Hc]%andb_true_iff Hd]%andb_true_iff Hs].
  destruct n as [|n]; [by apply Hcut|]. rewrite bytes_of_cons. cbn [take String.length] in *.
  rewrite (byte_range _ _ _ Hb). destruct n as [|n]; [by apply Hcut|]. rewrite bytes_of_cons.
  cbn [take]. rewrite (byte_range _ _ _ Hc). destruct n as [|n]; [by apply Hcut|]. rewrite bytes_of_cons.
  cbn [take]. rewrite (byte_range _ _ _ Hd). apply (IH' s4 n 4%nat); [done|lia|lia|done].
Qed.

Lemma lossy_bytes_text l : text l -> lossy_bytes l = l.
Proof. intros (s & Hs & ->). unfold lossy_bytes. by rewrite lossy_text, of_chars_chars. Qed.

(** One read of a process that writes text. *)
Lemma reader_read_text pending read later appended pending' :
  text (pending ++ read ++ later) -> reader_read pending read = (appended, pending') ->
  text appended /\ pending ++ read = appended ++ pending' /\ text (pending' ++ later).
Proof.
  intros Ht Hr. unfold reader_read in Hr. rewrite app_assoc in Ht.
  remember (pending ++ read) as p eqn:Ep. clear Ep.
  destruct Ht as (s & Hs & E). pose proof (f_equal length E) as Hlen.
  rewrite length_app, bytes_of_length in Hlen.
  destruct (utf8_check_text s (length p) Hs ltac:(lia)) as (k & e & Hk & He & Hkp & Hst & Hw).
  rewrite <-E, take_app_length in Hk. rewrite <-E in Hst.
  assert (text (p ++ later)) as Ht by (by exists s).
  assert (k <= length p)%nat as Hle by lia.
  destruct (text_cut _ _ Ht Hst) as [H1 H2]. rewrite take_app_le in H1 by lia.
  rewrite drop_app_le in H2 by lia. rewrite Hk in Hr.
  assert (match e with Whole => length p | Cut => k | Bad => length p end = k) as Hc
    by (destruct e; [symmetry; by apply Hw|done|done]).
  rewrite Hc in Hr. case_bool_decide; simplify_eq.
  - rewrite lossy_bytes_text by done. by rewrite take_drop.
  - replace k with 0%nat in * by lia. rewrite drop_0 in H2. by split; [apply text_nil|].
Qed.

(** However the output of a process that writes valid UTF-8 is split into reads, within
    characters or not, its reader appends texts, and together they are the output. *)
Theorem reader_passes_text_through output reads :
  valid_utf8 output = true -> concat reads = bytes_of output ->
  Forall text (reader_run [] reads) /\ concat (reader_run [] reads) = bytes_of output.
Proof.
  intros Hs Hr.
  assert (forall reads pending, text (pending ++ concat reads) ->
    Forall text (reader_run pending reads) /\ concat (reader_run pending reads) = pending ++ concat reads) as H.
  { clear. intros reads. induction reads as [|read reads IH]; intros pending Ht.
    - cbn [concat reader_run] in *. rewrite app_nil_r in *. destruct pending as [|b pending]; [done|].
      cbn [concat]. rewrite lossy_bytes_text, app_nil_r by done. by split; [constructor|].
    - cbn [concat reader_run] in *. destruct (reader_read pending read) as [appended pending'] eqn:E.
      destruct (reader_read_text _ _ _ _ _ Ht E) as (Ha & Hp & Ht'). destruct (IH _ Ht') as [H1 H2].
      rewrite app_assoc, Hp, <-app_assoc, <-H2. destruct appended as [|b t]; [done|].
      split; [by constructor|done]. }
  destruct (H reads []) as [H1 H2]; [rewrite app_nil_l, Hr; by exists output|]. by rewrite H2, app_nil_l.
Qed.

(** A byte that is not text makes the reader decode everything it has, also a character of
    which only the beginning was read: its bytes are replaced one by one. *)
Example bad_byte_breaks_next_character :
  let whole := [255; 228; 189; 160] in
  from_utf8_lossy whole = [65533; 20320] /\
  concat (reader_run [] [[255; 228]; [189; 160]]) = lossy_bytes [255] ++ lossy_bytes [228] ++ lossy_bytes [189] ++ lossy_bytes [160].
Proof. vm_compute. done. Qed.

(** ** The two pipes of a process and whoever reads it *)

(** What is left of a character that is not complete is short. *)
Lemma utf8_check_cut l : forall k, utf8_check l = (k, Cut) -> (length l <= k + 3)%nat.
Proof.
  induction l as [l IH] using (induction_ltof1 _ (@length N)). unfold ltof in IH. intros k H.
  destruct l as [|b0 s1]; [done|]. cbn [utf8_check] in H.
  repeat match goal with
  | H : after ?n ?r = (_, _) |- _ => apply after_spec in H as (? & H & ->); apply IH in H; cbn [length] in *; lia
  | H : (if ?c then _ else _) = _ |- _ => destruct c
  | H : match ?l with [] => _ | _ :: _ => _ end = _ |- _ => destruct l
  | H : (_, _) = (_, _) |- _ => injection H as <-; first [done|cbn [length]; lia]
  end.
Qed.

Lemma reader_read_keeps pending read appended pending' :
  reader_read pending read = (appended, pending') -> (length pending' <= 3)%nat.
Proof.
  unfold reader_read. destruct (utf8_check (pending ++ read)) as [k e] eqn:E. intros H.
  case_bool_decide as Hc; simplify_eq.
  - rewrite length_drop. destruct e; [lia| |lia]. apply utf8_check_cut in E. lia.
  - destruct e; [lia| |lia]. apply utf8_check_cut in E. lia.
Qed.

Inductive Pipe := Stdout | Stderr.
#[global] Instance Pipe_eq_dec : EqDecision Pipe.
Proof. solve_decision. Defined.

(** A reader gets bytes from its pipe, or the pipe is at its end; somebody polls. *)
Inductive feed_event := Arrived (p : Pipe) (bytes : list N) | Closed (p : Pipe) | Polled (limit : N).

Definition on_pipe {A} (f : Pipe -> A) (p : Pipe) (x : A) (q : Pipe) : A := if decide (q = p) then x else f q.

(** The state of both readers and of the journal; [fd_bytes] is what a pipe has given its
    reader so far. *)
Record feed := mkFeed {
  fd_watch : watched;
  fd_pending : Pipe -> list N;
  fd_closed : Pipe -> bool;
  fd_bytes : Pipe -> list N }.

Definition append_nonempty (bytes : list N) (w : watched) : watched :=
  match bytes with [] => w | _ => appended bytes w end.

(*@ tools/src/process_supervisor.rs:1614-1648 spawn_reader *)
Definition feed_step (f : feed) (e : feed_event) : feed :=
  match e with
  | Arrived p bytes =>
      if fd_closed f p then f
      else
        let '(t, pending) := reader_read (fd_pending f p) bytes in
        mkFeed (append_nonempty t (fd_watch f)) (on_pipe (fd_pending f) p pending) (fd_closed f)
          (on_pipe (fd_bytes f) p (fd_bytes f p ++ bytes))
  | Closed p =>
      if fd_closed f p then f
      else
        mkFeed (match fd_pending f p with [] => fd_watch f | pending => appended (lossy_bytes pending) (fd_watch f) end)
          (on_pipe (fd_pending f) p []) (on_pipe (fd_closed f) p true) (fd_bytes f)
  | Polled limit => mkFeed (polled limit (fd_watch f)) (fd_pending f) (fd_closed f) (fd_bytes f)
  end.

Definition follow (events : list feed_event) : feed :=
  fold_left feed_step events
    (mkFeed (mkWatched new_journal 0 []) (fun _ => []) (fun _ => false) (fun _ => [])).

Definition event_ok (e : feed_event) : bool :=
  match e with Polled limit => limit <=? usize_max | _ => true end.

(** The pieces that came from a pipe. *)
Definition from_pipe (p : Pipe) (pieces : list (Pipe * list N)) : list N :=
  concat (snd <$> List.filter (fun x => bool_decide (fst x = p)) pieces).

(** The process writes [out p] to the pipe [p], and the pipe has given a beginning of it,
    all of it when it is at its end. *)
Definition delivers (out : Pipe -> string) (f : feed) : Prop :=
  forall p, fd_bytes f p `prefix_of` bytes_of (out p) /\
    (fd_closed f p = true -> fd_bytes f p = bytes_of (out p)).

Lemma from_pipe_snoc p pieces q t :
  from_pipe p (pieces ++ [(q, t)]) = from_pipe p pieces ++ (if decide (p = q) then t else []).
Proof.
  unfold from_pipe. rewrite List.filter_app, fmap_app, concat_app. cbn [List.filter fst]. f_equal.
  destruct (decide (p = q)) as [->|Hne]; [rewrite bool_decide_true by done|rewrite bool_decide_false by done];
    cbn; by rewrite ?app_nil_r.
Qed.

Lemma pieces_length pieces :
  length (concat (snd <$> pieces)) = (length (from_pipe Stdout pieces) + length (from_pipe Stderr pieces))%nat.
Proof.
  induction pieces as [|[p t] pieces IH]; [done|]. unfold from_pipe in *. cbn. rewrite length_app, IH.
  destruct p.
  - rewrite (bool_decide_true (Stdout = Stdout)), (bool_decide_false (Stdout = Stderr)) by done.
    cbn. rewrite length_app. lia.
  - rewrite (bool_decide_false (Stderr = Stdout)), (bool_decide_true (Stderr = Stderr)) by done.
    cbn. rewrite length_app. lia.
Qed.

Section Feeding.
Variable out : Pipe -> string.
Hypothesis out_text : forall p, valid_utf8 (out p) = true.
Hypothesis out_size : str_len (out Stdout) + str_len (out Stderr) <= u64_max.

Record feeding (f : feed) (pieces : list (Pipe * list N)) : Prop := {
  fg_watch : watching (fd_watch f) (concat (snd <$> pieces));
  fg_pieces : forall p, from_pipe p pieces ++ fd_pending f p = fd_bytes f p;
  fg_text : forall p later, fd_bytes f p ++ later = bytes_of (out p) -> text (fd_pending f p ++ later);
  fg_short : forall p, (length (fd_pending f p) <= 3)%nat;
  fg_closed : forall p, fd_closed f p = true -> fd_pending f p = [] }.

Lemma str_len_bytes s : str_len s = size_of (bytes_of s).
Proof. unfold size_of. by rewrite bytes_of_length. Qed.

(** What is in the journal is no more than the output. *)
Lemma feeding_size f pieces : delivers out f ->
  (forall p, from_pipe p pieces `prefix_of` fd_bytes f p) -> size_of (concat (snd <$> pieces)) <= u64_max.
Proof.
  intros Hd Hp. rewrite !str_len_bytes in out_size. unfold size_of in *. rewrite pieces_length.
  pose proof (prefix_length _ _ (Hp Stdout)). pose proof (prefix_length _ _ (Hp Stderr)).
  pose proof (prefix_length _ _ (proj1 (Hd Stdout))). pose proof (prefix_length _ _ (proj1 (Hd Stderr))). lia.
Qed.

(** A reader appends a piece of what its pipe gave. *)
Lemma watching_piece f (pieces : list (Pipe * list N)) p t :
  watching (fd_watch f) (concat (snd <$> pieces)) -> text t ->
  size_of (concat (snd <$> (pieces ++ [(p, t)]))) <= u64_max ->
  watching (append_nonempty t (fd_watch f)) (concat (snd <$> (pieces ++ [(p, t)]))).
Proof.
  rewrite fmap_app, concat_app. cbn. rewrite app_nil_r. intros Hw Ht Hb. destruct t as [|b t].
  - by rewrite app_nil_r.
  - apply watching_appended; [done|done|]. by rewrite size_of_app in Hb.
Qed.

Lemma feeding_arrived f pieces p bytes :
  feeding f pieces -> delivers out (feed_step f (Arrived p bytes)) ->
  exists pieces', feeding (feed_step f (Arrived p bytes)) pieces'.
Proof.
  intros [Hw Hp Ht Hs Hc] Hd. cbn [feed_step] in *. destruct (fd_closed f p) eqn:Ec; [by exists pieces|].
  destruct (reader_read (fd_pending f p) bytes) as [t pending] eqn:Er. exists (pieces ++ [(p, t)]).
  destruct (proj1 (Hd p)) as [later Hl]. cbn [fd_bytes] in Hl. unfold on_pipe in Hl.
  rewrite decide_True in Hl by done. rewrite <-app_assoc in Hl.
  destruct (reader_read_text _ _ _ _ _ (Ht p _ (eq_sym Hl)) Er) as (Hta & Heq & _).
  assert (Hpieces : forall q, from_pipe q (pieces ++ [(p, t)]) ++ on_pipe (fd_pending f) p pending q
            = on_pipe (fd_bytes f) p (fd_bytes f p ++ bytes) q).
  { intros q. rewrite from_pipe_snoc. unfold on_pipe. destruct (decide (q = p)) as [->|_].
    - by rewrite <-app_assoc, <-Heq, app_assoc, Hp.
    - by rewrite app_nil_r. }
  split; cbn [fd_watch fd_pending fd_closed fd_bytes]; [|done|..].
  - apply watching_piece; [done|done|]. apply (feeding_size _ _ Hd). intros q. cbn [fd_bytes]. rewrite <-Hpieces.
    by apply prefix_app_r.
  - intros q later'. unfold on_pipe. destruct (decide (q = p)) as [->|_]; [|apply Ht].
    rewrite <-app_assoc. intros H. by destruct (reader_read_text _ _ _ _ _ (Ht p _ H) Er) as (_ & _ & ?).
  - intros q. unfold on_pipe. destruct (decide (q = p)) as [->|_]; [by eapply reader_read_keeps|done].
  - intros q Hq. unfold on_pipe. destruct (decide (q = p)) as [->|_]; [congruence|by apply Hc].
Qed.

Lemma feeding_closed f pieces p :
  feeding f pieces -> delivers out (feed_step f (Closed p)) ->
  exists pieces', feeding (feed_step f (Closed p)) pieces'.
Proof.
  intros [Hw Hp Ht Hs Hc] Hd. cbn [feed_step] in *. destruct (fd_closed f p) eqn:Ec; [by exists pieces|].
  exists (pieces ++ [(p, fd_pending f p)]).
  assert (Hall : fd_bytes f p = bytes_of (out p)).
  { apply (proj2 (Hd p)). cbn. unfold on_pipe. by rewrite decide_True. }
  assert (Hpt : text (fd_pending f p)).
  { rewrite <-(app_nil_r (fd_pending f p)). apply Ht. by rewrite app_nil_r. }
  assert (Hpieces : forall q, from_pipe q (pieces ++ [(p, fd_pending f p)]) ++ on_pipe (fd_pending f) p [] q
            = fd_bytes f q).
  { intros q. rewrite from_pipe_snoc, <-(Hp q). unfold on_pipe. destruct (decide (q = p)) as [->|_];
      by rewrite ?app_nil_r. }
  split; cbn [fd_watch fd_pending fd_closed fd_bytes]; [|done|..].
  - replace (match fd_pending f p with [] => _ | _ => _ end) with (append_nonempty (fd_pending f p) (fd_watch f))
      by (unfold append_nonempty; destruct (fd_pending f p); [done|by rewrite lossy_bytes_text]).
    apply watching_piece; [done|done|]. apply (feeding_size _ _ Hd). intros q. cbn [fd_bytes]. rewrite <-Hpieces.
    by apply prefix_app_r.
  - intros q later. unfold on_pipe. destruct (decide (q = p)) as [->|_]; [|apply Ht].
    intros H. rewrite Hall in H. assert (later = []) as -> by (by apply (app_inv_head (bytes_of (out p))); rewrite app_nil_r).
    apply text_nil.
  - intros q. unfold on_pipe. destruct (decide (q = p)); [cbn; lia|done].
  - intros q Hq. unfold on_pipe in *. by destruct (decide (q = p)); [|apply Hc].
Qed.

(** A pipe that delivers a beginning of its output did so before. *)
Lemma delivers_before f e : delivers out (feed_step f e) -> delivers out f.
Proof.
  intros Hd p. destruct (Hd p) as [Hp Hc]. destruct e as [q bytes|q|limit]; cbn [feed_step] in *; [..|done].
  - destruct (fd_closed f q) eqn:Eq; [done|]. destruct (reader_read _ _) as [t pending]. cbn [fd_bytes fd_closed] in *.
    unfold on_pipe in *. destruct (decide (p = q)) as [->|_]; [|done]. split; [|congruence].
    etrans; [|exact Hp]. by apply prefix_app_r.
  - destruct (fd_closed f q) eqn:Eq; [done|]. cbn [fd_bytes fd_closed] in *. split; [done|].
    intros Hcl. apply Hc. unfold on_pipe. by destruct (decide (p = q)).
Qed.

Lemma follow_feeds events :
  forallb event_ok events = true -> delivers out (follow events) -> exists pieces, feeding (follow events) pieces.
Proof.
  induction events as [|e events IH] using rev_ind; intros Hok Hd.
  { exists []. split; cbn; [|done| |intros; lia|done].
    - split; [apply new_journal_tracks|apply text_nil|done..].
    - intros p later ->. by exists (out p). }
  rewrite forallb_app in Hok. apply andb_true_iff in Hok as [Hok He]. cbn in He. rewrite andb_true_r in He.
  unfold follow in *. rewrite fold_left_app in *. cbn [fold_left] in *.
  destruct (IH Hok (delivers_before _ _ Hd)) as [pieces Hf]. destruct e as [p bytes|p|limit].
  - by eapply feeding_arrived.
  - by eapply feeding_closed.
  - exists pieces. destruct Hf as [Hw Hp Ht Hs Hc]. split; cbn [feed_step fd_watch fd_pending fd_closed fd_bytes]; [|done..].
    apply watching_polled; [done| |by apply N.leb_le]. apply (feeding_size _ _ (delivers_before _ _ Hd)).
    intros q. rewrite <-Hp. by apply prefix_app_r.
Qed.

(** C24 (functional): a process that writes valid UTF-8 to its two pipes, in whatever portions its
    output arrives, within characters or not, and however the two readers and the polls
    interleave. Whoever polls it from where the last page ended, and was never told that
    output is missing, has read exactly a beginning of an interleaving of what came from
    the two pipes: whole pieces of text in the order of each pipe, with no byte changed,
    repeated or left out but at most three of a last character that is not complete yet
    (none once the pipe is at its end), and no character cut or replaced. Another page with
    room for a character either gets further or tells that output was lost, and the journal
    never keeps more than its bound. *)
Theorem poller_reads_the_stream events limit :
  forallb event_ok events = true -> delivers out (follow events) ->
  4 <= limit <= usize_max -> told_lost (fd_watch (follow events)) = false ->
  let f := follow events in
  exists pieces seen rest,
    (forall p, exists kept, from_pipe p pieces ++ kept = fd_bytes f p /\ (length kept <= 3)%nat /\
       (fd_closed f p = true -> from_pipe p pieces = bytes_of (out p))) /\
    concat (snd <$> pieces) = bytes_of (seen +:+ rest) /\ read_text (fd_watch f) = chars seen /\
    wa_cursor (fd_watch f) = N.of_nat (String.length seen) /\
    retained_bytes (wa_journal (fd_watch f)) <= MAX_OUTPUT_BYTES /\
    let '(_, lost, next) := page (wa_journal (fd_watch f)) (wa_cursor (fd_watch f)) limit in
    rest = "" \/ lost = true \/ wa_cursor (fd_watch f) < next.
Proof.
  intros Hok Hd Hl Hlost f. destruct (follow_feeds events Hok Hd) as [pieces [Hw Hp Ht Hs Hc]].
  destruct (watching_reads _ _ limit Hw) as (seen & rest & Hsr & Hread); [|done|done|].
  { apply (feeding_size _ _ Hd). intros q. rewrite <-Hp. by apply prefix_app_r. }
  exists pieces, seen, rest. split; [|by split].
  intros p. exists (fd_pending f p). split_and!; [apply Hp|apply Hs|]. intros Hcl.
  destruct (Hd p) as [_ Hall]. rewrite <-(Hall Hcl), <-(Hp p).
  change (fd_pending (follow events) p) with (fd_pending f p).
  by rewrite (Hc p Hcl : fd_pending f p = []), app_nil_r.
Qed.
End Feeding.

(** ** An accented word whose last character arrives in two portions *)

Definition e_acute : string := String (byte 195) (String (byte 169) "").
Definition some_output (p : Pipe) : string :=
  match p with Stdout => "caf" +:+ e_acute +:+ " " | Stderr => "warning" end.
Definition some_events : list feed_event :=
  [Arrived Stdout [99; 97; 102; 195]; Polled 4; Arrived Stderr [119; 97]; Arrived Stdout [169; 32];
   Polled 4; Closed Stdout; Polled 100; Arrived Stderr [114]].

Lemma poller_reads_the_stream_witness :
  let f := follow some_events in
  exists pieces seen rest,
    (forall p, exists kept, from_pipe p pieces ++ kept = fd_bytes f p /\ (length kept <= 3)%nat /\
       (fd_closed f p = true -> from_pipe p pieces = bytes_of (some_output p))) /\
    concat (snd <$> pieces) = bytes_of (seen +:+ rest) /\ read_text (fd_watch f) = chars seen /\
    wa_cursor (fd_watch f) = N.of_nat (String.length seen) /\
    retained_bytes (wa_journal (fd_watch f)) <= MAX_OUTPUT_BYTES /\
    let '(_, lost, next) := page (wa_journal (fd_watch f)) (wa_cursor (fd_watch f)) 4 in
    rest = "" \/ lost = true \/ wa_cursor (fd_watch f) < next.
Proof.
  assert (H1 : forall p, valid_utf8 (some_output p) = true) by (intros []; vm_compute; reflexivity).
  assert (H2 : str_len (some_output Stdout) + str_len (some_output Stderr) <= u64_max) by (vm_compute; discriminate).
  assert (H3 : forallb event_ok some_events = true) by (vm_compute; reflexivity).
  assert (H4 : delivers some_output (follow some_events)).
  { intros []; (split; [vm_compute; eexists; reflexivity|vm_compute; done]). }
  assert (H5 : 4 <= 4 <= usize_max) by (vm_compute; split; discriminate).
  assert (H6 : told_lost (fd_watch (follow some_events)) = false) by (vm_compute; reflexivity).
  exact (poller_reads_the_stream some_output H1 H2 some_events 4 H3 H4 H5 H6).
Defined.

Lemma reader_passes_text_through_witness :
  Forall text (reader_run [] [[99; 195]; [169; 32]]) /\
  concat (reader_run [] [[99; 195]; [169; 32]]) = bytes_of ("c" +:+ e_acute +:+ " ").
Proof.
  assert (H1 : valid_utf8 ("c" +:+ e_acute +:+ " ") = true) by (vm_compute; reflexivity).
  assert (H2 : concat [[99; 195]; [169; 32]] = bytes_of ("c" +:+ e_acute +:+ " ")) by (vm_compute; reflexivity).
  exact (reader_passes_text_through ("c" +:+ e_acute +:+ " ") [[99; 195]; [169; 32]] H1 H2).
Defined.

(** The pages of the example: the accented character is in the page after the portion that
    completes it. *)
Example pages_of_example :
  wa_pages (fd_watch (follow some_events)) = [([99; 97; 102], false); ([119; 97; 233], false); ([32], false)].
Proof. vm_compute. reflexivity. Qed.
