(* ===== verification/ProcessLife.v ===== *)
(** * The life of background processes

    The rest of [golutra-agent-tools/src/process_supervisor.rs]: under which name a process
    ends when several tasks want it ended at once, who may still signal its process id, how
    its end is published, which ended processes are kept, and when another may be started.
    The signals themselves are those of [golutra-agent-tools/src/process.rs].
    Instants are nanoseconds; the compare-and-swap loop and the locked sections run as
    threads under a schedule. *)
From S2P Require Import Prelude RustStr.
Open Scope N_scope. Open Scope rust_scope.

(*@ tools/src/process_supervisor.rs MAX_PROCESSES *)
Definition MAX_PROCESSES : nat := 64.
(*@ tools/src/process_supervisor.rs MAX_TERMINAL_PROCESSES *)
Definition MAX_TERMINAL_PROCESSES : nat := 32.
(*@ tools/src/process_supervisor.rs MAX_TERMINAL_OUTPUT_BYTES *)
Definition MAX_TERMINAL_OUTPUT_BYTES : N := 32 * 1024 * 1024.
(*@ tools/src/process_supervisor.rs MAX_RETENTION *)
Definition MAX_RETENTION : N := 15 * 60 * 1000000000.

Module ProcessState.
(*@ tools/src/process_supervisor.rs ProcessState *)
Inductive ProcessState := Running | Exited | TimedOut | Cancelled | Terminated | Failed.
#[global] Instance ProcessState_eq_dec : EqDecision ProcessState.
Proof. solve_decision. Defined.
End ProcessState.
Abbreviation ProcessState := ProcessState.ProcessState.

(*@ tools/src/process_supervisor.rs ProcessState::is_terminal *)
Definition is_terminal (s : ProcessState) : bool :=
  match s with ProcessState.Running => false | _ => true end.

(** ** Why a process was ended *)

Module TerminationReason.
(*@ tools/src/process_supervisor.rs TerminationReason *)
Inductive TerminationReason := TimedOut | Cancelled | Terminated.
#[global] Instance TerminationReason_eq_dec : EqDecision TerminationReason.
Proof. solve_decision. Defined.
End TerminationReason.
Abbreviation TerminationReason := TerminationReason.TerminationReason.

(*@ tools/src/process_supervisor.rs TerminationReason::for_state *)
Definition for_state (s : ProcessState) : option TerminationReason :=
  match s with
  | ProcessState.TimedOut => Some TerminationReason.TimedOut
  | ProcessState.Cancelled => Some TerminationReason.Cancelled
  | ProcessState.Terminated => Some TerminationReason.Terminated
  | ProcessState.Running | ProcessState.Exited | ProcessState.Failed => None
  end.

(*@ tools/src/process_supervisor.rs TerminationReason::state *)
Definition reason_state (r : TerminationReason) : ProcessState :=
  match r with
  | TerminationReason.TimedOut => ProcessState.TimedOut
  | TerminationReason.Cancelled => ProcessState.Cancelled
  | TerminationReason.Terminated => ProcessState.Terminated
  end.

(*@ tools/src/process_supervisor.rs TerminationReason::code *)
Definition code (r : TerminationReason) : N :=
  match r with
  | TerminationReason.TimedOut => 1
  | TerminationReason.Cancelled => 2
  | TerminationReason.Terminated => 3
  end.

(*@ tools/src/process_supervisor.rs TerminationReason::from_code *)
Definition from_code (c : N) : option TerminationReason :=
  if c =? 1 then Some TerminationReason.TimedOut
  else if c =? 2 then Some TerminationReason.Cancelled
  else if c =? 3 then Some TerminationReason.Terminated
  else None.

(** A task inside [request]: before the load, in the loop with what it saw last, or back. *)
Inductive requester :=
| Asking (wanted : ProcessState)
| Trying (wanted : ProcessState) (requested current : N)
| Asked (wanted : ProcessState).

(** What the task does when it is scheduled; [spurious] makes a weak exchange fail although
    the value is the expected one. *)
(*@ tools/src/process_supervisor.rs TerminationIntent::request *)
Definition request_step (spurious : bool) (reason : N) (t : requester) : N * requester :=
  match t with
  | Asking wanted =>
      match for_state wanted with
      | None => (reason, Asked wanted)
      | Some r => (reason, Trying wanted (code r) reason)
      end
  | Trying wanted requested current =>
      if current <? requested then
        if (reason =? current) && negb spurious then (requested, Asked wanted)
        else (reason, Trying wanted requested reason)
      else (reason, Asked wanted)
  | Asked wanted => (reason, Asked wanted)
  end.

(*@ tools/src/process_supervisor.rs TerminationIntent::state *)
Definition intent_state (reason : N) : option ProcessState := reason_state <$> from_code reason.

Definition intent_step (st : N * list requester) (x : nat * bool) : N * list requester :=
  let '(reason, ts) := st in
  match ts !! fst x with
  | None => st
  | Some t => let '(reason', t') := request_step (snd x) reason t in (reason', <[fst x := t']> ts)
  end.
Definition run_requests (schedule : list (nat * bool)) (wanted : list ProcessState)
    : N * list requester :=
  foldl intent_step (0, Asking <$> wanted) schedule.

(** How a process that ended is named. *)
(*@ tools/src/process_supervisor.rs:1728-1735 supervise_process *)
Definition final_state (reason : N) (exit_code : option Z) : ProcessState :=
  default (if bool_decide (exit_code = Some 0%Z) then ProcessState.Exited else ProcessState.Failed)
    (intent_state reason).

(** ** Who may signal *)

(*@ tools/src/process_supervisor.rs PidLifecycle *)
Record PidLifecycle := mkPidLifecycle { pid : option N; reaped : bool }.

(** A [kill] or, with [to_group], a [killpg] with [SIGKILL]; whether the operating system
    had released the id by then, and whether the lifecycle said so. *)
Record Signal := mkSignal { to_group : bool; sent_to : N; sent_released : bool; sent_reaped : bool }.

(** One process as its tasks see it: the lifecycle behind its lock, whether it is in the
    table of active ids, whether the operating system has released its id, and every signal
    sent so far. *)
Record ProcessIds := mkProcessIds {
  lifecycle : PidLifecycle; registered : bool; released : bool; signals : list Signal }.

Definition send (group : bool) (id : N) (p : ProcessIds) : ProcessIds :=
  mkProcessIds (lifecycle p) (registered p) (released p)
    (signals p ++ [mkSignal group id (released p) (reaped (lifecycle p))]).

(** [i32::try_from(id).ok()]. *)
Definition as_pid (id : N) : option N := if id <=? 2147483647 then Some id else None.

(** [failed]: [killpg] answers with an error, for instance because there is no such group. *)
(*@ tools/src/process.rs terminate_process_group *)
Definition terminate_process_group (failed : bool) (process_id : option N) (p : ProcessIds) : ProcessIds :=
  match process_id ≫= as_pid with
  | None => p
  | Some id => let p := send true id p in if failed then send false id p else p
  end.

(*@ tools/src/process.rs terminate_process_group_only *)
Definition terminate_process_group_only (process_id : option N) (p : ProcessIds) : ProcessIds :=
  match process_id ≫= as_pid with None => p | Some id => send true id p end.

Definition with_lifecycle (l : PidLifecycle) (p : ProcessIds) : ProcessIds :=
  mkProcessIds l (registered p) (released p) (signals p).

(*@ tools/src/process_supervisor.rs terminate_entry_process *)
Definition terminate_entry_process (failed : bool) (p : ProcessIds) : ProcessIds :=
  if reaped (lifecycle p) then p
  else terminate_process_group failed (pid (lifecycle p))
         (with_lifecycle (mkPidLifecycle None (reaped (lifecycle p))) p).

(** The section of [terminate_active_processes] for one registration, taken from the table
    before and looked up again under the lock; the reason it latches is above. *)
(*@ tools/src/process_supervisor.rs:550-579 SupervisorInner::terminate_active_processes *)
Definition terminate_registration (failed : bool) (p : ProcessIds) : ProcessIds :=
  if reaped (lifecycle p) then p
  else match pid (lifecycle p) with
  | None => p
  | Some id =>
      let p := with_lifecycle (mkPidLifecycle None (reaped (lifecycle p))) p in
      if registered p then terminate_process_group failed (Some id) p else p
  end.

(*@ tools/src/process_supervisor.rs mark_process_reaped *)
Definition mark_process_reaped (p : ProcessIds) : ProcessIds :=
  with_lifecycle (mkPidLifecycle None true) p.

(** [release_process_pid] takes two locks, one after the other. *)
(*@ tools/src/process_supervisor.rs:1904-1914 release_process_pid *)
Definition forget_pid (p : ProcessIds) : ProcessIds :=
  with_lifecycle (mkPidLifecycle None (reaped (lifecycle p))) p.
(*@ tools/src/process_supervisor.rs:1915-1922 release_process_pid *)
Definition unregister (p : ProcessIds) : ProcessIds :=
  mkProcessIds (lifecycle p) false (released p) (signals p).

(** [wait] returns, or some other part of the program reaps the child: its id is free for
    other processes from then on. *)
Definition release (p : ProcessIds) : ProcessIds :=
  mkProcessIds (lifecycle p) (registered p) true (signals p).

(** The task that waits for the child: the next thing it does. *)
Inductive waiter := Probing | Invalidating | Forgetting | Unregistering | Reaping | Reaped.

(** [probe] is what [waitid] with [WNOWAIT] said: the child has ended and its id is still
    held; [ECHILD] or another error, which leaves open whether the id is still the child's;
    or nothing yet ([EINTR] and no state change). *)
Inductive probe := Ended | Unknown | StillRunning.

(*@ tools/src/process_supervisor.rs:1801-1859 wait_for_child_before_reap_raw *)
Definition waiter_step (child_id : N) (seen : probe) (w : waiter) (p : ProcessIds)
    : waiter * ProcessIds :=
  match w with
  | Probing =>
      match as_pid child_id with
      | None => (Invalidating, p)
      | Some _ =>
          match seen with
          | Ended => (Invalidating, terminate_process_group_only (Some child_id) p)
          | Unknown => (Invalidating, p)
          | StillRunning => (Probing, p)
          end
      end
  | Invalidating => (Forgetting, mark_process_reaped p)
  | Forgetting => (Unregistering, forget_pid p)
  | Unregistering => (Reaping, unregister p)
  | Reaping => (Reaped, release p)
  | Reaped => (Reaped, p)
  end.

(** The tasks that touch a process: its waiter, [terminate] and [terminate_session] and
    [shutdown_and_wait] through its entry, and [shutdown] through the table, each with
    whether [killpg] fails; and whoever else may reap the child. *)
Inductive pid_task :=
| Wait (seen : probe)
| ThroughEntry (failed : bool)
| ThroughTable (failed : bool)
| ReapedElsewhere.
Definition pid_step (child_id : N) (st : waiter * ProcessIds) (t : pid_task) : waiter * ProcessIds :=
  let '(w, p) := st in
  match t with
  | Wait seen => waiter_step child_id seen w p
  | ThroughEntry failed => (w, terminate_entry_process failed p)
  | ThroughTable failed => (w, terminate_registration failed p)
  | ReapedElsewhere => (w, release p)
  end.
Definition started_process (child_id : N) : waiter * ProcessIds :=
  (Probing, mkProcessIds (mkPidLifecycle (Some child_id) false) true false []).
Definition run_tasks (child_id : N) (ts : list pid_task) : waiter * ProcessIds :=
  foldl (pid_step child_id) (started_process child_id) ts.

(** ** The table of processes *)

(** Of a [ManagedProcess] what the table is managed by. *)
(*@ tools/src/process_supervisor.rs ManagedProcess *)
Record ManagedProcess := mkManagedProcess {
  mp_id : string; mp_session : N; mp_state : ProcessState; mp_exit_code : option Z;
  mp_scanned : bool; mp_completed_at : option N; mp_event : option N;
  mp_last_touched : N; mp_retained : N }.

(** The publication of an end, and whether it is this one. *)
(*@ tools/src/process_supervisor.rs:1736-1747 supervise_process *)
Definition publish (state : ProcessState) (exit_code : option Z) (now event : N) (p : ManagedProcess)
    : ManagedProcess * bool :=
  if is_terminal (mp_state p) then (p, false)
  else (mkManagedProcess (mp_id p) (mp_session p) state exit_code (mp_scanned p) (Some now)
          (Some event) (mp_last_touched p) (mp_retained p), true).

Definition retention_anchor (p : ManagedProcess) : N :=
  N.max (default (mp_last_touched p) (mp_completed_at p)) (mp_last_touched p).

(** Ended, with the comparison of the workspace done. *)
Definition finished (p : ManagedProcess) : bool := is_terminal (mp_state p) && mp_scanned p.

(** The tuples of [prune]: id, anchor, age and bytes. *)
Definition candidate : Type := string * N * N * N.
Definition cd_id (c : candidate) : string := c.1.1.1.
Definition cd_anchor (c : candidate) : N := c.1.1.2.
Definition cd_age (c : candidate) : N := c.1.2.
Definition cd_bytes (c : candidate) : N := c.2.
Definition candidate_of (now : N) (p : ManagedProcess) : candidate :=
  (mp_id p, retention_anchor p, now - retention_anchor p, mp_retained p).
Definition older (a b : candidate) : Prop := cd_anchor a <= cd_anchor b.
#[export] Instance older_dec a b : Decision (older a b).
Proof. unfold older. apply _. Defined.
#[export] Instance older_total : Total older.
Proof. intros a b. unfold older. lia. Qed.
#[export] Instance older_trans : Transitive older.
Proof. intros a b c. unfold older. lia. Qed.

Definition total_bytes_of (l : list candidate) : N := foldr N.add 0 (cd_bytes <$> l).

(** The loop over the candidates, oldest first. *)
(*@ tools/src/process_supervisor.rs:642-650 SupervisorInner::prune *)
Fixpoint pick_removed (index count_overflow : nat) (retained : N) (l : list candidate) : list string :=
  match l with
  | [] => []
  | c :: l' =>
      if bool_decide (index < count_overflow)%nat || (MAX_RETENTION <? cd_age c)
         || (MAX_TERMINAL_OUTPUT_BYTES <? retained)
      then cd_id c :: pick_removed (S index) count_overflow (retained - cd_bytes c) l'
      else pick_removed (S index) count_overflow retained l'
  end.

(** [processes] lists the table in the order it is iterated; a state that is locked by
    someone else is left for the next time. *)
(*@ tools/src/process_supervisor.rs:606-664 SupervisorInner::prune *)
Definition prune (now : N) (locked : string -> bool) (processes : list ManagedProcess)
    : list ManagedProcess :=
  let terminal := merge_sort older (candidate_of now <$> List.filter finished processes) in
  let removed := pick_removed 0 (length terminal - MAX_TERMINAL_PROCESSES) (total_bytes_of terminal) terminal in
  foldl (fun ps id =>
      if existsb (fun p => bool_decide (mp_id p = id) && negb (locked id) && is_terminal (mp_state p)) ps
      then List.filter (fun p => negb (bool_decide (mp_id p = id))) ps else ps)
    processes (dedup (sort_strings removed)).

(** Whether a start may launch a process: [None] when one with this id is polled instead. *)
(*@ tools/src/process_supervisor.rs:849-905 ProcessSupervisor::start_with_input *)
Definition may_start (shutdown terminating : bool) (same_request : ManagedProcess -> bool)
    (id : string) (session : N) (cancelled : bool) (processes : list ManagedProcess)
    : result string (option ManagedProcess) :=
  if shutdown then Err "process supervisor is shutting down"
  else if terminating then Err "process session is being terminated"
  else match List.find (fun p => bool_decide (mp_id p = id)) processes with
  | Some existing =>
      if negb (mp_session existing =? session) then Err "process id belongs to a different session"
      else if negb (same_request existing) then
        Err ("process `" +:+ id +:+ "` idempotency conflict: start request does not match the existing process")
      else Ok (Some existing)
  | None =>
      let running := length (List.filter (fun p => negb (is_terminal (mp_state p))) processes) in
      if bool_decide (MAX_PROCESSES <= running)%nat then Err "process supervisor limit reached (64)"
      else if cancelled then Err "process start was cancelled"
      else Ok None
  end.

(** ** The strongest reason wins *)

Definition code_of (wanted : ProcessState) : N := from_option code 0 (for_state wanted).
Definition strongest (wanted : list ProcessState) : N := foldr N.max 0 (code_of <$> wanted).

Lemma strongest_le w wanted : w ∈ wanted -> code_of w <= strongest wanted.
Proof.
  unfold strongest. induction wanted as [|x l IH]; [by intros ?%elem_of_nil|].
  intros [->|H]%elem_of_cons; cbn; [lia|]. specialize (IH H). lia.
Qed.
Lemma strongest_in wanted : strongest wanted = 0 \/ exists w, w ∈ wanted /\ code_of w = strongest wanted.
Proof.
  unfold strongest. induction wanted as [|x l IH]; [by left|]. cbn.
  destruct (N.max_spec (code_of x) (foldr N.max 0 (code_of <$> l))) as [[_ E]|[_ E]].
  - destruct IH as [IH|(w & Hw & IH)]; [left; lia|right]. exists w. split; [set_solver|lia].
  - right. exists x. split; [set_solver|lia].
Qed.

(** What a task in [request] knows. *)
Definition request_ok (reason : N) (w : ProcessState) (t : requester) : Prop :=
  match t with
  | Asking w' => w' = w
  | Trying w' requested current => w' = w /\ requested = code_of w /\ current <= reason
  | Asked w' => w' = w /\ code_of w <= reason
  end.
Definition intent_ok (wanted : list ProcessState) (st : N * list requester) : Prop :=
  st.1 <= strongest wanted /\ Forall2 (request_ok st.1) wanted st.2.

Lemma request_ok_mono r r' w t : r <= r' -> request_ok r w t -> request_ok r' w t.
Proof. intros Hr. destruct t; cbn; intuition lia. Qed.

Lemma request_step_ok spurious r w t r' t' :
  request_ok r w t -> request_step spurious r t = (r', t') ->
  r <= r' /\ (r' = r \/ r' = code_of w) /\ request_ok r' w t'.
Proof.
  destruct t as [w'|w' q c|w']; cbn.
  - intros -> H. unfold code_of. destruct (for_state w) as [x|] eqn:E; simplify_eq; cbn;
      unfold code_of; rewrite E; cbn; split_and!; auto; lia.
  - intros (-> & -> & Hc) H. destruct (c <? code_of w) eqn:E; Nbool; simplify_eq; cbn.
    + destruct ((r =? c) && negb spurious) eqn:E'; simplify_eq; cbn; [boolhyps; Nbool|]; split_and!; auto; lia.
    + split_and!; auto; lia.
  - intros (-> & Hc) [= <- <-]. cbn. split_and!; auto; lia.
Qed.

Lemma intent_step_ok wanted st x : intent_ok wanted st -> intent_ok wanted (intent_step st x).
Proof.
  destruct st as [r ts], x as [i sp]. intros [Hr Ht]. cbn in *. destruct (ts !! i) as [t|] eqn:Hi; [|done].
  destruct (request_step sp r t) as [r' t'] eqn:E.
  destruct (Forall2_lookup_r _ _ _ _ _ Ht Hi) as (w & Hw & Hok).
  destruct (request_step_ok _ _ _ _ _ _ Hok E) as (Hle & Hr' & Hok').
  split; cbn.
  - destruct Hr' as [->| ->]; [done|]. apply strongest_le. by eapply list_elem_of_lookup_2.
  - rewrite <-(list_insert_id wanted i w) by done. apply Forall2_insert; [|done].
    eapply Forall2_impl; [exact Ht|]. intros. by eapply request_ok_mono.
Qed.

Lemma run_requests_ok schedule wanted : intent_ok wanted (run_requests schedule wanted).
Proof.
  unfold run_requests. set (st := (0, Asking <$> wanted)).
  assert (intent_ok wanted st) as H.
  { split; [apply N.le_0_l|]. cbn. apply Forall2_fmap_r, Forall_Forall2_diag. by apply Forall_forall. }
  revert H. generalize st. induction schedule as [|x l IH]; [done|]. intros st' H. apply IH. by apply intent_step_ok.
Qed.

Definition has_asked (t : requester) : bool := match t with Asked _ => true | _ => false end.

(** However the tasks that want a process ended interleave, and however often a weak exchange
    fails without cause, once they are through the process is named after the strongest
    request: a termination before a cancellation before a timeout. *)
Theorem strongest_reason_wins schedule wanted exit_code :
  forallb has_asked (run_requests schedule wanted).2 = true ->
  final_state (run_requests schedule wanted).1 exit_code =
    if bool_decide (ProcessState.Terminated ∈ wanted) then ProcessState.Terminated
    else if bool_decide (ProcessState.Cancelled ∈ wanted) then ProcessState.Cancelled
    else if bool_decide (ProcessState.TimedOut ∈ wanted) then ProcessState.TimedOut
    else if bool_decide (exit_code = Some 0%Z) then ProcessState.Exited else ProcessState.Failed.
Proof.
  intros Hd. destruct (run_requests_ok schedule wanted) as [Hr Ht].
  destruct (run_requests schedule wanted) as [r ts]. cbn in *.
  assert (forall w, w ∈ wanted -> code_of w <= r) as Hlow.
  { intros w [i Hi]%list_elem_of_lookup. destruct (Forall2_lookup_l _ _ _ _ _ Ht Hi) as (t & Hti & Hok).
    rewrite forallb_elem in Hd. pose proof (Forall_lookup_1 _ _ _ _ Hd Hti) as Ha. cbn in Ha.
    destruct t; [done..|]. by destruct Hok. }
  assert (r = strongest wanted) as Er.
  { destruct (strongest_in wanted) as [E|(w & Hw & E)]; [lia|]. specialize (Hlow w Hw). lia. }
  assert (forall c, c = r -> c = 0 \/ exists w, w ∈ wanted /\ code_of w = c) as Hin
    by (intros c ->; rewrite Er; apply strongest_in).
  unfold final_state, intent_state.
  destruct (bool_decide_reflect (ProcessState.Terminated ∈ wanted)) as [H3|H3]; [specialize (Hlow _ H3); cbn in Hlow|].
  { assert (r = 3) as ->; [|done]. destruct (Hin r eq_refl) as [?|([] & _ & E)]; cbn in *; lia. }
  destruct (bool_decide_reflect (ProcessState.Cancelled ∈ wanted)) as [H2|H2]; [specialize (Hlow _ H2); cbn in Hlow|].
  { assert (r = 2) as ->; [|done]. destruct (Hin r eq_refl) as [?|([] & ? & E)]; cbn in *; done || lia. }
  destruct (bool_decide_reflect (ProcessState.TimedOut ∈ wanted)) as [H1|H1]; [specialize (Hlow _ H1); cbn in Hlow|].
  { assert (r = 1) as ->; [|done]. destruct (Hin r eq_refl) as [?|([] & ? & E)]; cbn in *; done || lia. }
  assert (r = 0) as ->; [|done]. destruct (Hin r eq_refl) as [?|([] & ? & E)]; cbn in *; done || lia.
Qed.

(** ** No signal to an id that was released *)

Definition group_signals (p : ProcessIds) : nat := length (List.filter to_group (signals p)).
Definition single_signals (p : ProcessIds) : nat := length (List.filter (negb ∘ to_group) (signals p)).

(** [elsewhere]: the child may have been reaped by someone else. *)
Record ids_ok (child_id : N) (elsewhere : Prop) (st : waiter * ProcessIds) : Prop := {
  io_pid : pid (lifecycle st.2) = None \/ pid (lifecycle st.2) = Some child_id;
  io_reaped : match st.1 with Probing | Invalidating => True | _ => reaped (lifecycle st.2) = true end;
  io_released : released st.2 = true -> st.1 = Reaped \/ elsewhere;
  io_signals : Forall (fun s => sent_to s = child_id /\ sent_reaped s = false
                              /\ (sent_released s = true -> elsewhere)) (signals st.2);
  io_groups : (group_signals st.2 <= match pid (lifecycle st.2) with Some _ => 0 | None => 1 end
                                     + match st.1 with Probing => 0 | _ => 1 end)%nat;
  io_singles : (single_signals st.2 <= match pid (lifecycle st.2) with Some _ => 0 | None => 1 end)%nat;
  io_unmarked : reaped (lifecycle st.2) = true -> match st.1 with Probing | Invalidating => False | _ => True end }.

Lemma counts_send group id p :
  group_signals (send group id p) = (group_signals p + if group then 1 else 0)%nat
  /\ single_signals (send group id p) = (single_signals p + if group then 0 else 1)%nat.
Proof.
  unfold group_signals, single_signals, send. cbn. rewrite !List.filter_app, !length_app. by destruct group.
Qed.

(** A signal that may be sent while the lifecycle is not marked. *)
Lemma send_signals child_id (elsewhere : Prop) group p :
  reaped (lifecycle p) = false -> (released p = true -> elsewhere) ->
  Forall (fun s => sent_to s = child_id /\ sent_reaped s = false /\ (sent_released s = true -> elsewhere)) (signals p) ->
  Forall (fun s => sent_to s = child_id /\ sent_reaped s = false /\ (sent_released s = true -> elsewhere))
    (signals (send group child_id p)).
Proof. intros Hr Hl H. cbn. apply Forall_app. split; [done|]. by repeat constructor. Qed.

(** Ending a process whose lifecycle still has its id. *)
Lemma terminate_ok child_id elsewhere failed w p :
  ids_ok child_id elsewhere (w, p) -> reaped (lifecycle p) = false -> pid (lifecycle p) = Some child_id ->
  ids_ok child_id elsewhere
    (w, terminate_process_group failed (Some child_id) (with_lifecycle (mkPidLifecycle None false) p)).
Proof.
  intros [H1 H2 H3 H4 H5 H6 H7] Hr Hp. cbn in *. rewrite Hp in *.
  assert (Hrel : released p = true -> elsewhere).
  { intros Hl. destruct (H3 Hl) as [->|?]; [congruence|done]. }
  assert (Hw : match w with Probing | Invalidating => True | _ => False end) by (destruct w; congruence || done).
  unfold terminate_process_group. cbn [mbind option_bind]. destruct (as_pid child_id) as [id|] eqn:Ea.
  2: { unfold group_signals, single_signals in *. split; cbn in *; [by left|by destruct w|done|done|lia|lia|done]. }
  assert (id = child_id) as -> by (unfold as_pid in Ea; case_match; by simplify_eq).
  set (p0 := with_lifecycle _ p). assert (Hs0 : signals p0 = signals p) by done.
  destruct (counts_send true child_id p0) as [Hg1 Hs1].
  destruct (counts_send false child_id (send true child_id p0)) as [Hg2 Hs2].
  assert (Hc0 : group_signals p0 = group_signals p /\ single_signals p0 = single_signals p) by done.
  destruct Hc0 as [Hgp Hsp]. rewrite Hgp in Hg1. rewrite Hsp in Hs1. rewrite Hg1 in Hg2. rewrite Hs1 in Hs2.
  destruct failed; (split; cbn [fst snd]; [by left|by destruct w|exact H3| | | |done]).
  - by repeat apply send_signals.
  - rewrite Hg2. cbn. lia.
  - rewrite Hs2. cbn. lia.
  - by apply send_signals.
  - rewrite Hg1. cbn. lia.
  - rewrite Hs1. cbn. lia.
Qed.

Lemma waiter_ok child_id (elsewhere : Prop) seen st : ids_ok child_id elsewhere st ->
  ids_ok child_id elsewhere (waiter_step child_id seen st.1 st.2).
Proof.
  destruct st as [w p]. intros [H1 H2 H3 H4 H5 H6 H7]. cbn [fst snd] in *.
  assert (Hlater : forall w', w <> Reaped -> released p = true -> w' = Reaped \/ elsewhere)
    by (intros w' Hw Hl; destruct (H3 Hl); [done|by right]).
  destruct w; cbn [waiter_step].
  2,3,4,5,6: unfold group_signals, single_signals in *; destruct p as [[i rp] rg rel sg].
  2: split; cbn in *; [by left|done|auto|done|destruct i; lia|destruct i; lia|done].
  2: split; cbn in *; [by left|done|auto|done|destruct i; lia|destruct i; lia|done].
  2: split; cbn in *; [done|done|auto|done|destruct i; lia|destruct i; lia|done].
  2: split; cbn in *; [done|done|by left|done|destruct i; lia|destruct i; lia|done].
  2: by split.
  assert (Hgo : ids_ok child_id elsewhere (Invalidating, p)).
  { split; cbn in *; [done|done| |done|destruct (pid (lifecycle p)); lia|done|done].
    intros Hl. destruct (H3 Hl); [done|by right]. }
  destruct (as_pid child_id) as [id|] eqn:Ea; [|done]. destruct seen; [|done|by split].
  assert (id = child_id) as -> by (unfold as_pid in Ea; case_match; by simplify_eq).
  unfold terminate_process_group_only. cbn [mbind option_bind]. rewrite Ea.
  assert (Hr : reaped (lifecycle p) = false) by (destruct (reaped (lifecycle p)); [by destruct (H7 eq_refl)|done]).
  destruct (counts_send true child_id p) as [Hg Hs].
  split; cbn [fst snd]; [exact H1|done| | | | |].
  - intros Hl. destruct (H3 Hl); [done|by right].
  - apply send_signals; [done| |done]. intros Hl. by destruct (H3 Hl).
  - rewrite Hg. change (pid (lifecycle (send true child_id p))) with (pid (lifecycle p)). lia.
  - rewrite Hs. change (pid (lifecycle (send true child_id p))) with (pid (lifecycle p)). lia.
  - intros Hx. change (reaped (lifecycle p) = true) in Hx. congruence.
Qed.

Lemma pid_step_ok child_id (elsewhere : Prop) st t : (t = ReapedElsewhere -> elsewhere) ->
  ids_ok child_id elsewhere st -> ids_ok child_id elsewhere (pid_step child_id st t).
Proof.
  intros He Hok. destruct st as [w p], t as [seen|failed|failed|]; cbn [pid_step].
  - exact (waiter_ok child_id elsewhere seen (w, p) Hok).
  - unfold terminate_entry_process. destruct (reaped (lifecycle p)) eqn:Er; [done|].
    destruct (io_pid _ _ _ Hok) as [Hp|Hp]; cbn in Hp; rewrite Hp; [|by apply terminate_ok].
    destruct Hok as [H1 H2 H3 H4 H5 H6 H7]. cbn in *. rewrite Hp, ?Er in *.
    split; cbn; [by left|done..].
  - unfold terminate_registration. destruct (reaped (lifecycle p)) eqn:Er; [done|].
    destruct (io_pid _ _ _ Hok) as [Hp|Hp]; cbn in Hp; rewrite Hp; [done|].
    change (registered (with_lifecycle _ p)) with (registered p).
    destruct (registered p); [by apply terminate_ok|].
    destruct Hok as [H1 H2 H3 H4 H5 H6 H7]. unfold group_signals, single_signals in *. cbn in *. rewrite Hp, ?Er in *.
    split; cbn; [by left|done|done|done|unfold group_signals; cbn; lia|unfold single_signals; cbn; lia|done].
  - destruct Hok as [H1 H2 H3 H4 H5 H6 H7]. split; cbn in *; try done. right. by apply He.
Qed.

Lemma run_tasks_ok child_id (elsewhere : Prop) ts : (ReapedElsewhere ∈ ts -> elsewhere) ->
  ids_ok child_id elsewhere (run_tasks child_id ts).
Proof.
  intros He. unfold run_tasks.
  assert (ids_ok child_id elsewhere (started_process child_id)) as H by (split; cbn; auto; try constructor; done).
  revert H He. generalize (started_process child_id). induction ts as [|t ts IH]; [done|].
  intros st H He. apply IH; [|set_solver]. apply pid_step_ok; [intros ->; apply He; left|done].
Qed.

(** C25 (safety): whoever ends a process, through its entry or through the table of active ids, in whatever
    order with the task that waits for it: every signal goes to the id the process was
    started with, and none is sent after the waiter has marked the lifecycle, which it does
    before it reaps the child, also when [waitid] could not find the child; there are at
    most two signals to the group and one to the process alone, the fallback of one of
    them. So as long as no other part of the program reaps the child, every signal is sent
    while the operating system still holds the id for it. *)
Theorem no_signal_after_release child_id ts :
  let p := (run_tasks child_id ts).2 in
  Forall (fun s => sent_to s = child_id /\ sent_reaped s = false) (signals p) /\
  (length (List.filter to_group (signals p)) <= 2)%nat /\
  (length (List.filter (negb ∘ to_group) (signals p)) <= 1)%nat /\
  (~ ReapedElsewhere ∈ ts -> Forall (fun s => sent_released s = false) (signals p)).
Proof.
  pose proof (run_tasks_ok child_id (ReapedElsewhere ∈ ts) ts (fun H => H)) as H. cbn zeta. split_and!.
  - eapply Forall_impl; [apply (io_signals _ _ _ H)|]. by intros s (? & ? & _).
  - pose proof (io_groups _ _ _ H) as Hg. unfold group_signals in Hg. repeat case_match; lia.
  - pose proof (io_singles _ _ _ H) as Hg. unfold single_signals in Hg. repeat case_match; lia.
  - intros Hn. eapply Forall_impl; [apply (io_signals _ _ _ H)|]. intros s (_ & _ & Hs).
    destruct (sent_released s); [by destruct (Hn (Hs eq_refl))|done].
Qed.

(** ** What is kept of ended processes *)

(** The candidates [pick_removed] passes over. *)
Fixpoint kept (index count_overflow : nat) (retained : N) (l : list candidate) : list candidate :=
  match l with
  | [] => []
  | c :: l' =>
      if bool_decide (index < count_overflow)%nat || (MAX_RETENTION <? cd_age c)
         || (MAX_TERMINAL_OUTPUT_BYTES <? retained)
      then kept (S index) count_overflow (retained - cd_bytes c) l'
      else c :: kept (S index) count_overflow retained l'
  end.

Lemma removed_are_candidates i o r l id : id ∈ pick_removed i o r l -> id ∈ cd_id <$> l.
Proof.
  revert i r. induction l as [|c l IH]; intros i r; cbn [pick_removed]; [done|].
  destruct (_ || _); rewrite fmap_cons, ?elem_of_cons; [intros [->|Hx%IH]; auto|intros Hx%IH; auto].
Qed.

Lemma kept_filter i o r l :
  NoDup (cd_id <$> l) ->
  List.filter (fun c => negb (bool_decide (cd_id c ∈ pick_removed i o r l))) l = kept i o r l.
Proof.
  revert i r. induction l as [|c l IH]; intros i r Hn; [done|].
  rewrite fmap_cons in Hn. apply NoDup_cons in Hn as [Hc Hn]. cbn [pick_removed kept]. destruct (_ || _).
  - cbn [List.filter]. rewrite bool_decide_eq_true_2 by set_solver. cbn [negb]. rewrite <-(IH _ _ Hn).
    apply List.filter_ext_in. intros x Hx%list_elem_of_In. f_equal. apply bool_decide_ext.
    rewrite elem_of_cons. split; [intros [E|H']; [|done]|auto].
    exfalso. apply Hc. rewrite <-E. by apply list_elem_of_fmap_2.
  - cbn [List.filter]. rewrite bool_decide_eq_false_2 by (intros Hx%removed_are_candidates; done).
    cbn [negb]. f_equal. by apply IH.
Qed.

Lemma kept_count i o r l : (length (kept i o r l) <= length l - (o - i))%nat.
Proof.
  revert i r. induction l as [|c l IH]; intros i r; cbn [kept length]; [lia|].
  pose proof (IH (S i) r) as IH1. pose proof (IH (S i) (r - cd_bytes c)) as IH2.
  destruct (bool_decide_reflect (i < o)%nat); cbn [orb]; [lia|]. destruct (_ || _); cbn [length]; lia.
Qed.

Lemma kept_bytes i o r l :
  total_bytes_of l <= r -> r <= MAX_TERMINAL_OUTPUT_BYTES \/ r = total_bytes_of l ->
  total_bytes_of (kept i o r l) + (r - total_bytes_of l) <= MAX_TERMINAL_OUTPUT_BYTES.
Proof.
  revert i r. induction l as [|c l IH]; intros i r; cbn [kept].
  - cbn. lia.
  - change (total_bytes_of (c :: l)) with (cd_bytes c + total_bytes_of l). intros Hr Hor.
    destruct (_ || _) eqn:E.
    + specialize (IH (S i) (r - cd_bytes c) ltac:(lia) ltac:(lia)). lia.
    + apply orb_false_iff in E as [_ E]. Nbool.
      change (total_bytes_of (c :: ?x)) with (cd_bytes c + total_bytes_of x).
      specialize (IH (S i) r ltac:(lia) ltac:(lia)). lia.
Qed.

Lemma kept_young i o r l : Forall (fun c => cd_age c <= MAX_RETENTION) (kept i o r l).
Proof.
  revert i r. induction l as [|c l IH]; intros i r; cbn [kept]; [done|].
  destruct (_ || _) eqn:E; [apply IH|]. constructor; [|apply IH].
  apply orb_false_iff in E as [[_ E]%orb_false_iff _]. by Nbool.
Qed.

(** The processes of [R] go, but for those whose state is locked. *)
Definition goes (locked : string -> bool) (R : list string) (p : ManagedProcess) : bool :=
  bool_decide (mp_id p ∈ R) && negb (locked (mp_id p)).

Lemma filter_filter_list {A} (f g : A -> bool) l :
  List.filter f (List.filter g l) = List.filter (fun x => g x && f x) l.
Proof. induction l as [|x l IH]; [done|]. cbn. destruct (g x); cbn; [destruct (f x)|]; by rewrite IH. Qed.

Lemma remove_all locked R ps :
  (forall id p, id ∈ R -> p ∈ ps -> mp_id p = id -> is_terminal (mp_state p) = true) ->
  foldl (fun ps id =>
      if existsb (fun p => bool_decide (mp_id p = id) && negb (locked id) && is_terminal (mp_state p)) ps
      then List.filter (fun p => negb (bool_decide (mp_id p = id))) ps else ps) ps R
  = List.filter (fun p => negb (goes locked R p)) ps.
Proof.
  revert ps. induction R as [|id R IH]; intros ps Ht; cbn [foldl].
  { symmetry. apply forallb_filter_id, forallb_elem, Forall_forall. intros p _.
    unfold goes. by rewrite bool_decide_eq_false_2 by apply not_elem_of_nil. }
  assert ((if existsb (fun p => bool_decide (mp_id p = id) && negb (locked id) && is_terminal (mp_state p)) ps
    then List.filter (fun p => negb (bool_decide (mp_id p = id))) ps else ps)
    = List.filter (fun p => negb (goes locked [id] p)) ps) as ->.
  { case_match eqn:E.
    { apply existsb_elem in E as (q & _ & E). boolhyps. apply List.filter_ext. intros p. f_equal. unfold goes.
      rewrite (bool_decide_ext (mp_id p ∈ [id]) (mp_id p = id)) by apply list_elem_of_singleton.
      case_bool_decide as Hid; [|done]. rewrite Hid. by destruct (locked id). }
    symmetry. apply forallb_filter_id, forallb_elem, Forall_forall. intros p Hp.
    unfold goes. destruct (bool_decide_reflect (mp_id p ∈ [id])) as [Hid%list_elem_of_singleton|]; [|done].
    destruct (locked (mp_id p)) eqn:El; [done|]. exfalso.
    apply not_true_iff_false in E. apply E, existsb_elem. exists p. split; [done|]. rewrite Hid in El.
    rewrite bool_decide_eq_true_2, El by done. cbn. apply (Ht id); [set_solver|done..]. }
  rewrite IH.
  - rewrite filter_filter_list. apply List.filter_ext. intros p. rewrite <-negb_orb. f_equal. unfold goes.
    destruct (locked (mp_id p)); [by rewrite !andb_false_r|]. cbn [negb]. rewrite !andb_true_r.
    rewrite <-(bool_decide_or (mp_id p ∈ [id])). apply bool_decide_ext. set_solver.
  - intros id' p Hid Hp. apply elem_of_lfilter in Hp as [Hp _]. apply Ht; [set_solver|done].
Qed.

#[export] Instance total_bytes_proper : Proper ((≡ₚ) ==> eq) total_bytes_of.
Proof.
  intros l k H. unfold total_bytes_of.
  induction H as [|? ? ? ? IH| |? ? ? ? IH1 ? IH2]; cbn in *; [done|by rewrite IH|lia|congruence].
Qed.

Lemma filter_fmap_list {A B} (f : A -> B) (g : B -> bool) l :
  List.filter g (f <$> l) = f <$> List.filter (fun x => g (f x)) l.
Proof. induction l as [|x l IH]; [done|]. rewrite fmap_cons. cbn [List.filter]. destruct (g (f x)); rewrite ?fmap_cons; by rewrite IH. Qed.

Lemma lfilter_comm {A} (f g : A -> bool) l :
  List.filter f (List.filter g l) = List.filter g (List.filter f l).
Proof.
  induction l as [|x l IH]; [done|]. cbn.
  destruct (f x) eqn:Hf, (g x) eqn:Hg; cbn; rewrite ?Hf, ?Hg, ?IH; done.
Qed.

#[export] Instance lfilter_proper {A} (f : A -> bool) : Proper ((≡ₚ) ==> (≡ₚ)) (List.filter f).
Proof.
  intros l k H. induction H as [|x l k H IH|x y l|l k m _ IH1 _ IH2]; cbn; [done|by destruct (f x); rewrite IH| |by rewrite IH1].
  destruct (f x), (f y); done || apply perm_swap.
Qed.

Lemma filter_bytes f l : total_bytes_of (List.filter f l) <= total_bytes_of l.
Proof.
  unfold total_bytes_of. induction l as [|c l IH]; cbn in *; [lia|]. destruct (f c); cbn in *; lia.
Qed.

Lemma finished_ids processes : NoDup (mp_id <$> processes) -> NoDup (mp_id <$> List.filter finished processes).
Proof.
  induction processes as [|p ps IH]; intros Hn; [constructor|]. rewrite fmap_cons in Hn.
  apply NoDup_cons in Hn as [Hp Hn]. cbn [List.filter]. destruct (finished p); [|by apply IH].
  rewrite fmap_cons. constructor; [|by apply IH].
  intros (q & E & Hq)%list_elem_of_fmap. apply Hp. apply elem_of_lfilter in Hq as [Hq _].
  apply list_elem_of_fmap. by exists q.
Qed.

(** Finished, and its state not locked by someone else. *)
Definition at_rest (locked : string -> bool) (p : ManagedProcess) : bool := finished p && negb (locked (mp_id p)).

(** What [prune] leaves of the finished processes at rest is what the loop passed over, and it
    touches nothing else. *)
Lemma prune_finished now locked processes :
  NoDup (mp_id <$> processes) ->
  let l := merge_sort older (candidate_of now <$> List.filter finished processes) in
  candidate_of now <$> List.filter (at_rest locked) (prune now locked processes)
    ≡ₚ List.filter (fun c => negb (locked (cd_id c))) (kept 0 (length l - MAX_TERMINAL_PROCESSES) (total_bytes_of l) l) /\
  (forall p, p ∈ processes -> at_rest locked p = false -> p ∈ prune now locked processes) /\
  (forall p, p ∈ prune now locked processes -> p ∈ processes).
Proof.
  intros Hn l. set (R := pick_removed 0 (length l - MAX_TERMINAL_PROCESSES) (total_bytes_of l) l).
  assert (l ≡ₚ candidate_of now <$> List.filter finished processes) as Hperm by apply merge_sort_Permutation.
  assert (forall id, id ∈ dedup (sort_strings R) <-> id ∈ R) as HR
    by (intros; by rewrite dedup_elem, sort_strings_perm).
  assert (forall p q, p ∈ processes -> q ∈ processes -> mp_id p = mp_id q -> p = q) as Hinj.
  { intros p q [i Hi]%list_elem_of_lookup [j Hj]%list_elem_of_lookup E.
    assert (i = j) as ->; [|congruence]. apply (NoDup_lookup (mp_id <$> processes) i j (mp_id p) Hn);
      rewrite list_lookup_fmap; [by rewrite Hi|by rewrite Hj, E]. }
  assert (forall id p, id ∈ R -> p ∈ processes -> mp_id p = id -> finished p = true) as Hfin.
  { intros id p Hid Hp E. apply removed_are_candidates in Hid. rewrite Hperm in Hid.
    apply list_elem_of_fmap in Hid as (c & -> & Hc). apply list_elem_of_fmap in Hc as (q & -> & Hq).
    apply elem_of_lfilter in Hq as [Hq Hf]. by rewrite (Hinj p q). }
  assert (prune now locked processes = List.filter (fun p => negb (goes locked R p)) processes) as ->.
  { unfold prune. fold l R. rewrite remove_all.
    - apply List.filter_ext. intros p. unfold goes. do 2 f_equal. by apply bool_decide_ext.
    - intros id p Hid Hp E. apply HR in Hid. specialize (Hfin id p Hid Hp E).
      unfold finished in Hfin. by apply andb_true_iff in Hfin as [? _]. }
  split_and!.
  - assert (Hk : kept 0 (length l - MAX_TERMINAL_PROCESSES) (total_bytes_of l) l
      ≡ₚ List.filter (fun c => negb (bool_decide (cd_id c ∈ R))) (candidate_of now <$> List.filter finished processes)).
    { rewrite <-Hperm. unfold R. rewrite kept_filter; [done|]. rewrite Hperm, <-list_fmap_compose. by apply finished_ids. }
    rewrite Hk, !filter_fmap_list, !filter_filter_list.
    match goal with |- ?a ≡ₚ ?b => enough (a = b) as -> by done end. f_equal. apply List.filter_ext. intros p.
    unfold at_rest, goes. cbn. destruct (finished p), (locked (mp_id p)), (bool_decide (mp_id p ∈ R)); done.
  - intros p Hp Hf. apply elem_of_lfilter. split; [done|]. apply negb_true_iff. unfold goes, at_rest in *.
    case_bool_decide as HpR; [|done]. rewrite (Hfin _ p HpR Hp eq_refl) in Hf. cbn in *.
    by destruct (locked (mp_id p)).
  - by intros p [? _]%elem_of_lfilter.
Qed.

(** C26 (bounds): a pruning of the table as it stands, whichever states are locked by others at that
    moment. Of the finished processes whose state is not locked at most 32 are left, with at
    most 32 mebibytes of output between them and none touched or ended longer than a quarter
    of an hour ago; every process that runs, whose workspace is still compared or whose
    state is locked stays in the table, and nothing is added. *)
Theorem prune_keeps_its_bounds now locked processes :
  NoDup (mp_id <$> processes) ->
  let left := prune now locked processes in
  let unlocked := List.filter (fun p => finished p && negb (locked (mp_id p))) left in
  (length unlocked <= MAX_TERMINAL_PROCESSES)%nat /\
  foldr N.add 0 (mp_retained <$> unlocked) <= MAX_TERMINAL_OUTPUT_BYTES /\
  Forall (fun p => now - retention_anchor p <= MAX_RETENTION) unlocked /\
  (forall p, p ∈ processes -> finished p = false \/ locked (mp_id p) = true -> p ∈ left) /\
  (forall p, p ∈ left -> p ∈ processes).
Proof.
  intros Hn left unlocked. destruct (prune_finished now locked processes Hn) as (Hk & Hrest & Hsub).
  cbv zeta in Hk. fold left in Hk, Hrest, Hsub. change (List.filter (at_rest locked) left) with unlocked in Hk.
  set (l := merge_sort _ _) in *. split_and!; [| | | |done].
  - rewrite <-(length_fmap (candidate_of now)), Hk. etrans; [apply List.filter_length_le|].
    etrans; [apply kept_count|]. lia.
  - replace (mp_retained <$> unlocked) with (cd_bytes <$> (candidate_of now <$> unlocked))
      by (rewrite <-list_fmap_compose; done).
    change (foldr N.add 0 (cd_bytes <$> ?x)) with (total_bytes_of x). rewrite Hk. etrans; [apply filter_bytes|].
    etrans; [|apply (kept_bytes 0 (length l - MAX_TERMINAL_PROCESSES) (total_bytes_of l) l); [lia|by right]]. lia.
  - pose proof (kept_young 0 (length l - MAX_TERMINAL_PROCESSES) (total_bytes_of l) l) as Hy.
    rewrite Forall_forall in Hy. apply Forall_forall. intros p Hp.
    apply (Hy (candidate_of now p)). eapply (list_elem_of_fmap_2 (candidate_of now)) in Hp. rewrite Hk in Hp.
    by apply elem_of_lfilter in Hp as [? _].
  - intros p Hp Hf. apply Hrest; [done|]. unfold at_rest. destruct Hf as [->| ->]; [done|]. apply andb_false_r.
Qed.

(** A start that may launch finds its id unused and leaves at most 64 processes running. *)
Lemma started_within_limit shutdown terminating same id session cancelled ps p :
  may_start shutdown terminating same id session cancelled ps = Ok None ->
  mp_id p = id -> NoDup (mp_id <$> ps) ->
  NoDup (mp_id <$> p :: ps) /\
  (length (List.filter (fun p => negb (is_terminal (mp_state p))) (p :: ps)) <= MAX_PROCESSES)%nat.
Proof.
  unfold may_start. intros H <- Hn. destruct shutdown; [done|]. destruct terminating; [done|].
  destruct (List.find _ ps) as [q|] eqn:Hf; [by repeat case_match|].
  case_bool_decide; [done|]. split.
  - rewrite fmap_cons. constructor; [|done]. intros (q & E & Hq)%list_elem_of_fmap.
    apply list_elem_of_In, (List.find_none _ _ Hf), bool_decide_eq_false in Hq. by apply Hq.
  - cbn [List.filter]. destruct (negb _); cbn [length]; lia.
Qed.

(** ** Concrete processes *)

Definition ended (id : string) (completed retained : N) : ManagedProcess :=
  mkManagedProcess id 1 ProcessState.Exited (Some 0%Z) true (Some completed) (Some 1) 0 retained.
Definition live (id : string) : ManagedProcess :=
  mkManagedProcess id 1 ProcessState.Running None false None None 0 7.
Definition some_processes : list ManagedProcess :=
  [ended "b" 2 (20 * 1024 * 1024); live "r"; ended "a" 1 (20 * 1024 * 1024)].

(** The state of the oldest is locked while the table is pruned. *)
Definition a_is_locked (id : string) : bool := bool_decide (id = "a").

Lemma prune_keeps_its_bounds_witness :
  let left := prune 5 a_is_locked some_processes in
  let unlocked := List.filter (fun p => finished p && negb (a_is_locked (mp_id p))) left in
  (length unlocked <= MAX_TERMINAL_PROCESSES)%nat /\
  foldr N.add 0 (mp_retained <$> unlocked) <= MAX_TERMINAL_OUTPUT_BYTES /\
  Forall (fun p => 5 - retention_anchor p <= MAX_RETENTION) unlocked /\
  (forall p, p ∈ some_processes -> finished p = false \/ a_is_locked (mp_id p) = true -> p ∈ left) /\
  (forall p, p ∈ left -> p ∈ some_processes).
Proof.
  assert (H1 : NoDup (mp_id <$> some_processes)) by (apply (bool_decide_unpack _); vm_compute; exact I).
  exact (prune_keeps_its_bounds 5 a_is_locked some_processes H1).
Defined.

(** The older of the two goes unless it is locked, the running one stays. *)
Example pruned_processes :
  (mp_id <$> prune 5 (fun _ => false) some_processes, mp_id <$> prune 5 a_is_locked some_processes)
  = (["b"; "r"], ["b"; "r"; "a"]).
Proof. vm_compute. reflexivity. Qed.

(** A timeout that reads the reason first and a cancellation that overtakes it. *)
Definition some_schedule : list (nat * bool) :=
  [(0, false); (1, false); (1, true); (1, false); (0, false); (0, false)]%nat.

Lemma strongest_reason_wins_witness :
  final_state (run_requests some_schedule [ProcessState.TimedOut; ProcessState.Cancelled]).1 (Some 0%Z)
  = ProcessState.Cancelled.
Proof.
  assert (H : forallb has_asked (run_requests some_schedule [ProcessState.TimedOut; ProcessState.Cancelled]).2 = true)
    by (vm_compute; reflexivity).
  exact (strongest_reason_wins some_schedule [ProcessState.TimedOut; ProcessState.Cancelled] (Some 0%Z) H).
Defined.

(** Both ways of ending a process while its waiter sees it end: two signals to the group, and
    one to the process where the first did not reach a group, all in time. *)
Example both_ways_signal :
  signals (run_tasks 4242 [ThroughTable true; Wait StillRunning; Wait Ended; ThroughEntry false; Wait Ended;
    Wait Ended; ThroughTable false; Wait Ended; Wait Ended; ThroughEntry false]).2
  = [mkSignal true 4242 false false; mkSignal false 4242 false false; mkSignal true 4242 false false].
Proof. vm_compute. reflexivity. Qed.

(** When another part of the program has reaped the child, a signal can be sent before the
    waiter finds out. *)
Example reaped_elsewhere_window :
  signals (run_tasks 4242 [ReapedElsewhere; ThroughEntry false; Wait Unknown; Wait Unknown; ThroughEntry false]).2
  = [mkSignal true 4242 true false].
Proof. vm_compute. reflexivity. Qed.
