(* ===== verification/WorkspaceScan.v ===== *)
(** * The scan of the workspace around a command

    [golutra-agent-tools/src/workspace_scan.rs]: what a bounded walk over the workspace sees
    of its files before and after a command, and what the two say about changes. What the
    operating system shows of an entry, every time the code looks, is an observation of its
    own; a path is the list of its components, as [Path] compares it; the digest is an
    argument. *)
From stdpp Require Import gmap.
From S2P Require Import Prelude RustStr TestOutput Evidence Correction ValidationCommand ProcessOutput.
Open Scope N_scope. Open Scope rust_scope.

(*@ tools/src/workspace_scan.rs MAX_TRACKED_FILES *)
Definition MAX_TRACKED_FILES : N := 5000.
(*@ tools/src/workspace_scan.rs MAX_TRACKED_FILE_BYTES *)
Definition MAX_TRACKED_FILE_BYTES : N := 2 * 1024 * 1024.
(*@ tools/src/workspace_scan.rs MAX_HASHED_FILE_BYTES *)
Definition MAX_HASHED_FILE_BYTES : N := 8 * 1024 * 1024.
(*@ tools/src/workspace_scan.rs MAX_HASHED_TOTAL_BYTES *)
Definition MAX_HASHED_TOTAL_BYTES : N := 32 * 1024 * 1024.
(*@ tools/src/workspace_scan.rs MAX_SAMPLED_CONTENT_BYTES *)
Definition MAX_SAMPLED_CONTENT_BYTES : N := 2 * 1024 * 1024.
(*@ tools/src/workspace_scan.rs HASH_BUFFER_BYTES *)
Definition HASH_BUFFER_BYTES : N := 1024 * 1024.

Definition path : Type := list string.
Definition path_text (p : path) : string := String.concat "/" p.

(** The order of [Path]: component by component. *)
Fixpoint path_leb (p q : path) : bool :=
  match p, q with
  | [], _ => true
  | _ :: _, [] => false
  | a :: p', b :: q' => if bool_decide (a = b) then path_leb p' q' else bool_decide (str_le a b)
  end.
Definition path_le (p q : path) : Prop := path_leb p q = true.
#[export] Instance path_le_dec p q : Decision (path_le p q).
Proof. unfold path_le. apply _. Defined.

(** ** Samples *)

(*@ tools/src/workspace_scan.rs FileSample *)
Record FileSample := mkFileSample {
  fs_content : option (list N); fs_metadata : FileStateMetadata; fs_modified_nanos : N }.

(*@ tools/src/workspace_scan.rs BoundedFileRead *)
Record BoundedFileRead := mkBoundedFileRead {
  br_content : option (list N); br_checksum : option string; br_kind : FileContentKind;
  br_bytes_read : N; br_bytes_hashed : N; br_complete : bool }.

(** Without the time a capture and a comparison took. *)
(*@ tools/src/workspace_scan.rs WorkspaceSnapshot *)
Record WorkspaceSnapshot := mkWorkspaceSnapshot {
  files : gmap path FileSample; scan_complete : bool; checkpoint_complete : bool }.

(*@ tools/src/workspace_scan.rs WorkspaceMutationScan *)
Record WorkspaceMutationScan := mkWorkspaceMutationScan {
  changed_files : list path; before_images : list FileBeforeImage;
  after_images : list FileBeforeImage; complete : bool; only_derived_changes : bool }.

(*@ tools/src/workspace_scan.rs content_kind *)
Definition content_kind (bytes : list N) : FileContentKind :=
  match (utf8_check bytes).2 with
  | Whole => if existsb (N.eqb 0) bytes then FileContentKind.Binary else FileContentKind.Text
  | _ => FileContentKind.Binary
  end.

(** ** Reading a file *)

Section Scan.
(** The text of the digest of some bytes, [sha256:...]. *)
Context (digest : list N -> string).

(** One turn of the reading loop: the scan is cancelled or out of time, the read fails, or it
    gives at least one byte and up to [at_most] where there are bytes left. *)
Inductive turn := OutOfTime | ReadFails | Reads (at_most : N).

Definition stopped_read (bytes_read bytes_hashed : N) : BoundedFileRead :=
  mkBoundedFileRead None None FileContentKind.Unknown bytes_read bytes_hashed false.

(** The loop over the turns, after which time is up; [rest] is what the file has left, [hashed]
    what the hasher was fed. An error carries the bytes hashed. *)
(*@ tools/src/workspace_scan.rs:584-647 read_bounded_with_control *)
Fixpoint read_turns (retain_limit : option N) (hash_limit : N) (turns : list turn)
    (rest prefix hashed : list N) (content : option (list N)) (bytes_read bytes_hashed : N)
    : result N BoundedFileRead :=
  let probe_limit := hash_limit +|64 1 in
  if probe_limit <=? bytes_read then Ok (stopped_read bytes_read bytes_hashed)
  else match turns with
  | [] | OutOfTime :: _ => Ok (stopped_read bytes_read bytes_hashed)
  | ReadFails :: _ => Err bytes_hashed
  | Reads at_most :: turns' =>
      let hash_remaining := probe_limit - bytes_read in
      let read_limit := N.min hash_remaining HASH_BUFFER_BYTES in
      let read_limit :=
        match retain_limit, content with
        | Some limit, Some _ => N.min read_limit ((limit +|64 1) - bytes_read)
        | _, _ => read_limit
        end in
      let buffer := take (N.to_nat (N.min read_limit (N.max 1 at_most))) rest in
      let read := size_of buffer in
      if read =? 0 then
        Ok (mkBoundedFileRead content (Some (digest hashed))
              (match content with Some c => content_kind c | None => content_kind prefix end)
              bytes_read bytes_hashed true)
      else
        let bytes_read := bytes_read +|64 read in
        let hashable := N.min (hash_limit - bytes_hashed) read in
        let prefix :=
          if size_of prefix <? 8 * 1024
          then prefix ++ take (N.to_nat (N.min (8 * 1024 - size_of prefix) hashable)) buffer
          else prefix in
        let hashed := hashed ++ take (N.to_nat hashable) buffer in
        let content :=
          match content with
          | Some retained =>
              if bytes_read <=? default 0 retain_limit then Some (retained ++ buffer) else None
          | None => None
          end in
        read_turns retain_limit hash_limit turns' (drop (length buffer) rest) prefix hashed content
          bytes_read (bytes_hashed +|64 hashable)
  end.

(*@ tools/src/workspace_scan.rs read_bounded_with_control *)
Definition read_bounded_with_control (retain_limit : option N) (hash_limit : N) (turns : list turn)
    (content : list N) : result N BoundedFileRead :=
  read_turns retain_limit hash_limit turns content [] [] ((fun _ => []) <$> retain_limit) 0 0.

(*@ tools/src/workspace_scan.rs hash_limit_for_file *)
Definition hash_limit_for_file (file_bytes hashed_bytes : N) : option N :=
  if MAX_HASHED_TOTAL_BYTES <? hashed_bytes then None
  else
    let remaining := MAX_HASHED_TOTAL_BYTES - hashed_bytes in
    if (remaining =? 0) || (MAX_HASHED_FILE_BYTES <? file_bytes) || (remaining <? file_bytes) then None
    else Some (N.min MAX_HASHED_FILE_BYTES remaining).

(** ** What the walk shows *)

Inductive file_type := IsDir | IsFile | IsSymlink | IsOther.
#[local] Instance file_type_eq_dec : EqDecision file_type.
Proof. solve_decision. Defined.

(** [fs::Metadata] on Unix. *)
Record Metadata := mkMetadata {
  md_type : file_type; md_dev : N; md_ino : N; md_len : N; md_modified_nanos : N; md_mode : N }.

(** An entry of the walk with everything that is looked up of it: its metadata; the handle's
    after opening it, whether the canonical parent lies in the root, and the path's then; how
    the handle reads; and the handle's and the path's metadata afterwards. *)
Record Entry := mkEntry {
  en_path : path; en_name : string; en_type : file_type; en_metadata : option Metadata;
  en_opened : option Metadata; en_parent_inside : option bool; en_path_metadata : option Metadata;
  en_content : list N; en_turns : list turn;
  en_end_metadata : option Metadata; en_current_metadata : option Metadata }.

(** A step of the walk: its depth, whether the scan is cancelled or out of time when it is
    taken, and the entry unless the walk failed here. *)
Record Step := mkStep { st_depth : N; st_stop : bool; st_entry : option Entry }.

(*@ tools/src/workspace_scan.rs:524-528 same_file_identity *)
Definition same_file_identity (a b : Metadata) : bool :=
  (md_dev a =? md_dev b) && (md_ino a =? md_ino b).

(*@ tools/src/workspace_scan.rs same_file_state *)
Definition same_file_state (a b : Metadata) : bool :=
  same_file_identity a b && (md_len a =? md_len b) && (md_modified_nanos a =? md_modified_nanos b).

(*@ tools/src/workspace_scan.rs open_regular_file *)
Definition open_regular_file (e : Entry) : option Metadata :=
  metadata ← en_opened e;
  if negb (bool_decide (md_type metadata = IsFile)) then None
  else
    inside ← en_parent_inside e;
    current ← en_path_metadata e;
    if negb inside || negb (bool_decide (md_type current = IsFile))
       || negb (same_file_identity metadata current)
    then None else Some metadata.

(*@ tools/src/workspace_scan.rs is_excluded_dir *)
Definition is_excluded_dir (e : Entry) : bool :=
  bool_decide (en_type e = IsDir)
  && bool_decide (en_name e ∈ [".git"; ".golutra"; ".golutra-agent"; "target"; "node_modules";
                               ".next"; "dist"; "build"]).

(*@ tools/src/workspace_scan.rs:684-688 unix_mode *)
Definition unix_mode (m : Metadata) : option N := Some (N.land (md_mode m) 4095).

(*@ tools/src/workspace_scan.rs insert_file_sample *)
Definition insert_file_sample (s : WorkspaceSnapshot) (p : path) (m : Metadata)
    (content : option (list N)) (checksum : option string) (kind : FileContentKind)
    : WorkspaceSnapshot :=
  mkWorkspaceSnapshot
    (<[p := mkFileSample content
              (mkFileStateMetadata (md_len m) checksum (unix_mode m) kind (bool_decide (is_Some content)))
              (md_modified_nanos m)]> (files s))
    (scan_complete s) (checkpoint_complete s).

Definition incomplete (s : WorkspaceSnapshot) : WorkspaceSnapshot :=
  mkWorkspaceSnapshot (files s) false false.
Definition no_checkpoint (s : WorkspaceSnapshot) : WorkspaceSnapshot :=
  mkWorkspaceSnapshot (files s) (scan_complete s) false.

(** The snapshot with the bytes retained and hashed so far. *)
Definition progress : Type := WorkspaceSnapshot * N * N.

(** A regular file, from its metadata on. *)
(*@ tools/src/workspace_scan.rs:229-341 capture_blocking *)
Definition capture_file (e : Entry) (st : progress) : progress :=
  let '(s, retained, hashed) := st in
  match en_metadata e with
  | None => (incomplete s, retained, hashed)
  | Some entry_metadata =>
  match open_regular_file e with
  | None => (incomplete s, retained, hashed)
  | Some metadata =>
      let s := if same_file_identity entry_metadata metadata then s else incomplete s in
      let retain_content := (md_len metadata <=? MAX_TRACKED_FILE_BYTES)
        && (sat_add usize_max retained (md_len metadata) <=? MAX_SAMPLED_CONTENT_BYTES) in
      let s := if retain_content then s else no_checkpoint s in
      match hash_limit_for_file (md_len metadata) hashed with
      | None =>
          (insert_file_sample (incomplete s) (en_path e) metadata None None FileContentKind.Unknown,
           retained, hashed)
      | Some hash_limit =>
          let retain_limit := if retain_content
            then Some (N.min MAX_TRACKED_FILE_BYTES (MAX_SAMPLED_CONTENT_BYTES - retained)) else None in
          match read_bounded_with_control retain_limit hash_limit (en_turns e) (en_content e) with
          | Err bytes_hashed =>
              let hashed := hashed +|64 bytes_hashed in
              if retain_content then (incomplete s, retained, hashed)
              else (insert_file_sample (incomplete s) (en_path e) metadata None None
                      FileContentKind.Unknown, retained, hashed)
          | Ok sampled =>
              match en_end_metadata e with
              | None => (incomplete s, retained, hashed)
              | Some end_metadata =>
              if negb (same_file_identity metadata end_metadata && same_file_state metadata end_metadata)
              then (incomplete s, retained, hashed)
              else match en_current_metadata e with
              | None => (incomplete s, retained, hashed)
              | Some current =>
              if negb (bool_decide (md_type current = IsFile) && same_file_state end_metadata current)
              then (incomplete s, retained, hashed)
              else
                let hashed := hashed +|64 br_bytes_hashed sampled in
                let s := if negb (br_complete sampled) || negb (br_bytes_read sampled =? md_len current)
                         then incomplete s else s in
                let s := if retain_content && negb (bool_decide (is_Some (br_content sampled)))
                         then no_checkpoint s else s in
                let retained := match br_content sampled with
                                | Some c => sat_add usize_max retained (size_of c)
                                | None => retained end in
                (insert_file_sample s (en_path e) current (br_content sampled) (br_checksum sampled)
                   (br_kind sampled), retained, hashed)
              end
              end
          end
      end
  end
  end.

(** The walk; [skip] is the depth of a directory whose entries are passed over. *)
(*@ tools/src/workspace_scan.rs:186-342 capture_blocking *)
Fixpoint capture_loop (steps : list Step) (skip : option N) (st : progress) : progress :=
  match steps with
  | [] => st
  | x :: steps' =>
      if is_some_and (fun d => d <? st_depth x) skip then capture_loop steps' skip st
      else
        let '(s, retained, hashed) := st in
        if st_stop x then (incomplete s, retained, hashed)
        else match st_entry x with
        | None => capture_loop steps' None (incomplete s, retained, hashed)
        | Some e =>
            if (0 <? st_depth x) && is_excluded_dir e then
              capture_loop steps' (Some (st_depth x)) (incomplete s, retained, hashed)
            else match en_type e with
            | IsSymlink => capture_loop steps' None (incomplete s, retained, hashed)
            | IsDir => capture_loop steps' None st
            | IsOther =>
                if 0 <? st_depth x then capture_loop steps' None (incomplete s, retained, hashed)
                else capture_loop steps' None st
            | IsFile =>
                if MAX_TRACKED_FILES <=? N.of_nat (size (files s)) then (incomplete s, retained, hashed)
                else capture_loop steps' None (capture_file e st)
            end
        end
  end.

(*@ tools/src/workspace_scan.rs:172-343 capture_blocking *)
Definition capture_blocking (steps : list Step) : WorkspaceSnapshot :=
  (capture_loop steps None (mkWorkspaceSnapshot ∅ true true, 0, 0)).1.1.

(** ** Comparing two snapshots *)

(*@ tools/src/workspace_scan.rs samples_match *)
Definition samples_match (left right : option FileSample) : bool :=
  match left, right with
  | None, None => true
  | Some l, Some r =>
      if negb (bool_decide (fm_unix_mode (fs_metadata l) = fm_unix_mode (fs_metadata r)))
         || negb (fm_size_bytes (fs_metadata l) =? fm_size_bytes (fs_metadata r)) then false
      else match fm_checksum (fs_metadata l), fm_checksum (fs_metadata r) with
      | Some a, Some b => bool_decide (a = b)
      | _, _ => fs_modified_nanos l =? fs_modified_nanos r
      end
  | _, _ => false
  end.

(*@ tools/src/workspace_scan.rs derived_source_path *)
Definition derived_source_path (p : path) : option path :=
  name ← last p;
  let directory := removelast p in
  directory_name ← last directory;
  extension ← (stem_and_extension name).2;
  if negb (bool_decide (directory_name = "__pycache__")) || negb (bool_decide (extension = "pyc")) then None
  else
    '(stem, tag) ← rsplit_once "." (stem_and_extension name).1;
    '(source, tag) ←
      match strip_prefix "opt-" tag with
      | Some optimization =>
          if bool_decide (optimization = "")
             || negb (forallb is_ascii_alphanumeric (bytes_of optimization))
          then None else rsplit_once "." stem
      | None => Some (stem, tag)
      end;
    if bool_decide (source = "") || bool_decide (tag = "")
       || negb (forallb (fun c => is_ascii_alphanumeric c || (c =? 45) || (c =? 95)) (bytes_of tag))
    then None else Some (removelast directory ++ [source +:+ ".py"]).

Definition image_of (p : path) (sample : option FileSample) : FileBeforeImage :=
  mkFileBeforeImage (path_text p) (sample ≫= fs_content) (sample ≫= fm_unix_mode ∘ fs_metadata)
    (fs_metadata <$> sample).

Definition is_listed (before after : WorkspaceSnapshot) (p : path) : bool :=
  let old := files before !! p in
  let new := files after !! p in
  negb (bool_decide (old = None) && negb (scan_complete before)
        || bool_decide (new = None) && negb (scan_complete after))
  && negb (samples_match old new).

Definition derived_unchanged (before after : WorkspaceSnapshot) (p : path) : bool :=
  match derived_source_path p with
  | None => false
  | Some source =>
      match files before !! source, files after !! source with
      | Some old, Some new =>
          bool_decide (is_Some (fm_checksum (fs_metadata old)))
          && bool_decide (is_Some (fm_checksum (fs_metadata new)))
          && samples_match (Some old) (Some new)
      | _, _ => false
      end
  end.

(*@ tools/src/workspace_scan.rs compare_snapshots *)
Definition compare_snapshots (before after : WorkspaceSnapshot) : WorkspaceMutationScan :=
  let paths := dedup (merge_sort path_le
    ((map_to_list (files before)).*1 ++ (map_to_list (files after)).*1)) in
  let complete := scan_complete before && scan_complete after in
  let changed := List.filter (is_listed before after) paths in
  mkWorkspaceMutationScan changed
    ((fun p => image_of p (files before !! p)) <$> changed)
    ((fun p => image_of p (files after !! p)) <$> changed)
    complete
    (complete && negb (bool_decide (changed = [])) && forallb (derived_unchanged before after) changed).

(** ** What a complete read is *)

(** The loop has read [done] of the file and has [rest] before it. *)
Lemma read_turns_spec retain_limit hash_limit turns rest prefix hashed content done_ r :
  let whole := done_ ++ rest in
  size_of whole + hash_limit < u64_max -> hashed = take (N.to_nat hash_limit) done_ ->
  size_of done_ <= hash_limit + 1 ->
  content = match retain_limit with
            | Some limit => if size_of done_ <=? limit then Some done_ else None | None => None end ->
  read_turns retain_limit hash_limit turns rest prefix hashed content (size_of done_) (size_of hashed) = Ok r ->
  br_bytes_hashed r <= hash_limit /\
  (forall limit c, retain_limit = Some limit -> br_content r = Some c -> size_of c <= limit) /\
  (retain_limit = None -> br_content r = None) /\
  (br_complete r = true -> br_checksum r = Some (digest whole) /\ br_bytes_read r = size_of whole /\
     br_content r = match retain_limit with
                    | Some limit => if size_of whole <=? limit then Some whole else None | None => None end).
Proof.
  intros whole Hw. unfold whole in *. clear whole. revert rest prefix hashed content done_ Hw.
  induction turns as [|t turns IH]; intros rest prefix hashed content done_ Hw Hh Hd Hc H;
    cbn [read_turns] in H;
    assert (size_of hashed <= hash_limit) as Hhs by (subst hashed; unfold size_of; rewrite length_take; lia);
    rewrite (sat_add_exact _ hash_limit 1) in H by lia;
    destruct (hash_limit + 1 <=? size_of done_) eqn:Hp; Nbool;
    try (simplify_eq; cbn; split_and!; done).
  destruct t as [| |at_most]; [simplify_eq; cbn; split_and!; done..|].
  set (lim := match retain_limit, content with Some _, Some _ => _ | _, _ => _ end) in H.
  set (buffer := take _ rest) in H.
  assert (1 <= lim) as Hlim.
  { unfold lim. destruct retain_limit as [limit|]; [|destruct content; unfold HASH_BUFFER_BYTES; lia].
    rewrite Hc. destruct (N.leb_spec (size_of done_) limit); [|unfold HASH_BUFFER_BYTES; lia].
    unfold sat_add. rewrite size_of_app in Hw. unfold HASH_BUFFER_BYTES. lia. }
  assert (lim <= hash_limit + 1 - size_of done_) as Hlim2
    by (unfold lim; destruct retain_limit, content; lia).
  assert (size_of buffer <= hash_limit + 1 - size_of done_) as Hbuf
    by (unfold buffer, size_of in *; rewrite length_take; lia).
  destruct (N.eqb_spec (size_of buffer) 0) as [E|E].
  - assert (rest = []) as ->.
    { destruct rest; [done|]. exfalso. unfold buffer, size_of in E. rewrite length_take in E. simpl in E. lia. }
    rewrite app_nil_r. simplify_eq. cbn. split_and!.
    + done.
    + intros limit c -> Hcc. destruct (N.leb_spec (size_of done_) limit); by simplify_eq.
    + by intros ->.
    + intros _. split_and!; [|done|done]. do 2 f_equal. apply take_ge. unfold size_of in *. lia.
  - assert (rest = buffer ++ drop (length buffer) rest) as Hrest.
    { unfold buffer. rewrite length_take.
      destruct (Nat.min_spec (N.to_nat (N.min lim (N.max 1 at_most))) (length rest)) as [[_ ->]|[Hge ->]].
      - by rewrite take_drop.
      - by rewrite (take_ge rest), drop_all, app_nil_r by lia. }
    rewrite Hrest, app_assoc in Hw |- *.
    assert (size_of (done_ ++ buffer) = size_of done_ + size_of buffer) as Hsz by apply size_of_app.
    rewrite (sat_add_exact _ (size_of done_)) in H by (rewrite size_of_app in Hw; lia).
    set (hn := N.min (hash_limit - size_of hashed) (size_of buffer)) in H.
    rewrite (sat_add_exact _ (size_of hashed) hn) in H by (unfold hn; rewrite size_of_app in Hw; lia).
    replace (size_of hashed + hn) with (size_of (hashed ++ take (N.to_nat hn) buffer)) in H
      by (rewrite size_of_app; f_equal; unfold hn, size_of in *; rewrite length_take; lia).
    rewrite <-Hsz in H. apply IH in H; [done|done| |rewrite Hsz; lia|].
    + rewrite take_app, Hh. f_equal. unfold hn. rewrite Hh. unfold size_of in *.
      rewrite length_take. assert (length buffer <> 0)%nat by lia.
      destruct (decide (length done_ <= N.to_nat hash_limit)%nat).
      * rewrite Nat.min_r by lia.
        destruct (decide (length buffer <= N.to_nat hash_limit - length done_)%nat);
          [rewrite !take_ge by lia; done|f_equal; lia].
      * rewrite Nat.min_l by lia. f_equal. lia.
    + rewrite Hc. destruct retain_limit as [limit|]; [|done]. change (default 0 (Some limit)) with limit. rewrite Hsz.
      destruct (N.leb_spec (size_of done_) limit), (N.leb_spec (size_of done_ + size_of buffer) limit);
        done || lia.
Qed.

(** No file is longer than an offset can say. *)
Definition entry_fits (e : Entry) : Prop := size_of (en_content e) < 2 ^ 63.

Lemma read_bounded_spec retain_limit hash_limit turns content r :
  size_of content < 2 ^ 63 -> hash_limit <= MAX_HASHED_FILE_BYTES ->
  read_bounded_with_control retain_limit hash_limit turns content = Ok r ->
  br_bytes_hashed r <= hash_limit /\
  (forall limit c, retain_limit = Some limit -> br_content r = Some c -> size_of c <= limit) /\
  (retain_limit = None -> br_content r = None) /\
  (br_complete r = true -> br_checksum r = Some (digest content) /\ br_bytes_read r = size_of content /\
     br_content r = match retain_limit with
                    | Some limit => if size_of content <=? limit then Some content else None | None => None end).
Proof.
  intros Hc Hl. apply (read_turns_spec retain_limit hash_limit turns content [] [] _ []); cbn [app].
  - unfold MAX_HASHED_FILE_BYTES, u64_max in *. lia.
  - by rewrite take_nil.
  - change (size_of []) with 0. lia.
  - by destruct retain_limit as [[]|].
Qed.

Lemma read_turns_failed retain_limit hash_limit turns rest prefix hashed content br bh n :
  bh <= hash_limit -> hash_limit <= MAX_HASHED_FILE_BYTES ->
  read_turns retain_limit hash_limit turns rest prefix hashed content br bh = Err n -> n <= hash_limit.
Proof.
  intros Hb Hl. revert rest prefix hashed content br bh Hb.
  induction turns as [|t turns IH]; intros rest prefix hashed content br bh Hb; cbn [read_turns]; [by case_match|].
  destruct (_ <=? br); [done|]. destruct t as [| |k]; [done|by intros [= <-]|].
  destruct (_ =? 0); [done|]. apply IH. unfold sat_add. lia.
Qed.

Lemma hash_limit_within len hashed limit :
  hash_limit_for_file len hashed = Some limit ->
  limit <= MAX_HASHED_FILE_BYTES /\ hashed + limit <= MAX_HASHED_TOTAL_BYTES.
Proof.
  unfold hash_limit_for_file. destruct (N.ltb_spec MAX_HASHED_TOTAL_BYTES hashed); [done|].
  destruct (_ || _); [done|]. intros [= <-]. lia.
Qed.

(** ** What a complete scan has seen *)

(** Mode and content of a file as the scan leaves it. *)
Definition shown (e : Entry) : option (option N * list N) :=
  (fun m => (unix_mode m, en_content e)) <$> en_current_metadata e.

Definition shows (v : option (option N * list N)) (sample : option FileSample) : Prop :=
  match v, sample with
  | None, None => True
  | Some (mode, c), Some sample =>
      fm_unix_mode (fs_metadata sample) = mode /\ fm_size_bytes (fs_metadata sample) = size_of c /\
      fm_checksum (fs_metadata sample) = Some (digest c)
  | _, _ => False
  end.

Definition see (m : gmap path (option N * list N)) (x : Step) : gmap path (option N * list N) :=
  match st_entry x with
  | Some e =>
      match en_type e, shown e with
      | IsFile, Some v => <[en_path e := v]> m
      | _, _ => m
      end
  | None => m
  end.
(** The regular files of a walk. *)
Definition seen_files (steps : list Step) : gmap path (option N * list N) := foldl see ∅ steps.
Definition step_fits (x : Step) : Prop := from_option entry_fits True (st_entry x).

Lemma capture_file_complete e s r h :
  entry_fits e -> scan_complete (capture_file e (s, r, h)).1.1 = true ->
  scan_complete s = true /\ exists v sample, shown e = Some v /\
    files (capture_file e (s, r, h)).1.1 = <[en_path e := sample]> (files s) /\ shows (Some v) (Some sample).
Proof.
  intros Hfit. unfold capture_file. destruct (en_metadata e) as [m0|]; [|done].
  destruct (open_regular_file e) as [m|]; [|done].
  generalize ((md_len m <=? MAX_TRACKED_FILE_BYTES) && (sat_add usize_max r (md_len m) <=? MAX_SAMPLED_CONTENT_BYTES)).
  intros retain. destruct (hash_limit_for_file _ _) as [hl|] eqn:Hhl; [|done].
  apply hash_limit_within in Hhl as [Hhl _].
  destruct (read_bounded_with_control _ _ _ _) as [b|n] eqn:Hread; [|by destruct retain].
  apply read_bounded_spec in Hread as (_ & _ & _ & Hb); [|done|done].
  destruct (en_end_metadata e) as [me|]; [|done]. destruct (negb (_ && _)); [done|].
  unfold shown. destruct (en_current_metadata e) as [mc|]; [|done]. destruct (negb (_ && _)); [done|].
  destruct (negb (br_complete b) || _) eqn:Hcomp.
  { cbn. by destruct (retain && _). }
  apply orb_false_iff in Hcomp as [Hcomp Hlen]. apply negb_false_iff in Hcomp, Hlen.
  destruct (Hb Hcomp) as (Hsum & Hbr & _). Nbool.
  destruct (same_file_identity m0 m); cbn; [|by repeat case_match].
  intros Hs. split.
  - by repeat case_match.
  - eexists _, _. split; [done|]. split; [by repeat case_match|].
    cbn. split_and!; [done|congruence|done].
Qed.

Lemma capture_file_incomplete e s r h :
  scan_complete s = false -> scan_complete (capture_file e (s, r, h)).1.1 = false.
Proof.
  intros Hs. unfold capture_file. repeat case_match; simplify_eq; cbn; done.
Qed.

Lemma capture_loop_incomplete steps skip st :
  scan_complete st.1.1 = false -> scan_complete (capture_loop steps skip st).1.1 = false.
Proof.
  revert skip st. induction steps as [|x steps IH]; intros skip [[s r] h] Hs; cbn [capture_loop]; [done|].
  destruct (is_some_and _ _); [by apply IH|]. destruct (st_stop x); [done|].
  destruct (st_entry x) as [e|]; [|by apply IH]. destruct (_ && _); [by apply IH|].
  destruct (en_type e); [by apply IH| |by apply IH|destruct (0 <? _); by apply IH].
  destruct (_ <=? _); [done|]. apply IH. by apply capture_file_incomplete.
Qed.

Ltac by_incomplete H := exfalso; rewrite capture_loop_incomplete in H; done.

Lemma capture_loop_complete steps st m :
  Forall step_fits steps -> scan_complete (capture_loop steps None st).1.1 = true ->
  (forall p, shows (m !! p) (files st.1.1 !! p)) ->
  forall p, shows (foldl see m steps !! p) (files (capture_loop steps None st).1.1 !! p).
Proof.
  revert st m. induction steps as [|x steps IH]; intros [[s r] h] m Hf Hc Hm; [exact Hm|].
  apply Forall_cons in Hf as [Hx Hf]. cbn [capture_loop foldl is_some_and] in *.
  unfold step_fits, see in *. destruct (st_stop x); [done|].
  destruct (st_entry x) as [e|]; [|by_incomplete Hc]. cbn in Hx.
  destruct (_ && _); [by_incomplete Hc|].
  destruct (en_type e); [by apply IH| |by_incomplete Hc|destruct (0 <? _); [by_incomplete Hc|by apply IH]].
  destruct (_ <=? _); [done|]. apply IH; [done|done|].
  destruct (scan_complete (capture_file e (s, r, h)).1.1) eqn:E; [|by_incomplete Hc].
  destruct (capture_file_complete e s r h Hx E) as (_ & v & sample & Hv & Hfiles & Hshow).
  rewrite Hfiles, Hv. intros p. destruct (decide (p = en_path e)) as [->|Hne].
  - by rewrite !lookup_insert_eq.
  - rewrite !lookup_insert_ne by done. apply Hm.
Qed.

(** A snapshot that says it is complete holds the mode, the length and the digest of every
    regular file of the walk, and nothing else. *)
Lemma complete_capture steps p :
  Forall step_fits steps -> scan_complete (capture_blocking steps) = true ->
  shows (seen_files steps !! p) (files (capture_blocking steps) !! p).
Proof. intros Hf Hc. by apply capture_loop_complete. Qed.

(** ** Budgets *)

Definition within_budget (st : progress) : Prop :=
  let '(s, retained, hashed) := st in
  N.of_nat (size (files s)) <= MAX_TRACKED_FILES /\ retained <= MAX_SAMPLED_CONTENT_BYTES /\
  hashed <= MAX_HASHED_TOTAL_BYTES.

Lemma size_insert_le {A} (m : gmap path A) p x n :
  N.of_nat (size m) < n -> N.of_nat (size (<[p := x]> m)) <= n.
Proof. intros H. rewrite map_size_insert. destruct (m !! p); simpl; lia. Qed.

Lemma capture_file_budget e s r h :
  entry_fits e -> within_budget (s, r, h) -> N.of_nat (size (files s)) < MAX_TRACKED_FILES ->
  within_budget (capture_file e (s, r, h)).
Proof.
  intros Hfit (Hn & Hr & Hh) Hlt. unfold capture_file.
  destruct (en_metadata e) as [m0|]; [|done]. destruct (open_regular_file e) as [m|]; [|done].
  set (s1 := if same_file_identity m0 m then s else incomplete s).
  assert (files s1 = files s) as Hs1 by (unfold s1; by case_match).
  generalize dependent s1. intros s1 Hs1.
  set (retain := (md_len m <=? MAX_TRACKED_FILE_BYTES) && _).
  set (s2 := if retain then s1 else no_checkpoint s1).
  assert (files s2 = files s) as Hs2 by (unfold s2; by case_match).
  generalize dependent s2. intros s2 Hs2.
  destruct (hash_limit_for_file _ _) as [hl|] eqn:Hhl.
  2: { cbn. rewrite Hs2. split_and!; [by apply size_insert_le|done|done]. }
  apply hash_limit_within in Hhl as [Hhl Htot].
  destruct (read_bounded_with_control _ _ _ _) as [b|n] eqn:Hread.
  - apply read_bounded_spec in Hread as (Hb & Hc & Hnone & _); [|done|done].
    assert (h +|64 br_bytes_hashed b <= MAX_HASHED_TOTAL_BYTES) as Hh' by (unfold sat_add; lia).
    assert (forall c, br_content b = Some c -> sat_add usize_max r (size_of c) <= MAX_SAMPLED_CONTENT_BYTES) as Hr'.
    { intros c E. destruct retain; [|by rewrite Hnone in E]. specialize (Hc _ _ eq_refl E). unfold sat_add. lia. }
    destruct (en_end_metadata e) as [me|]; [|split_and!; cbn; rewrite ?Hs2; done].
    destruct (negb (_ && _)); [split_and!; cbn; rewrite ?Hs2; done|].
    destruct (en_current_metadata e) as [mc|]; [|split_and!; cbn; rewrite ?Hs2; done].
    destruct (negb (_ && _)); [split_and!; cbn; rewrite ?Hs2; done|].
    cbn. split_and!; [|destruct (br_content b) as [c|]; [by apply Hr'|done]|done].
    repeat case_match; cbn; rewrite Hs2; by apply size_insert_le.
  - apply read_turns_failed in Hread; [|lia|done].
    assert (h +|64 n <= MAX_HASHED_TOTAL_BYTES) as Hh' by (unfold sat_add; lia).
    destruct retain; cbn; rewrite Hs2; split_and!; try done; by apply size_insert_le.
Qed.

(** However large the workspace is, a scan samples at most 5,000 files, retains at most two
    mebibytes of their contents and hashes at most 32. *)
Lemma capture_within_budget steps skip st :
  Forall step_fits steps -> within_budget st -> within_budget (capture_loop steps skip st).
Proof.
  revert skip st. induction steps as [|x steps IH]; intros skip [[s r] h] Hf Hb; [done|].
  apply Forall_cons in Hf as [Hx Hf]. cbn [capture_loop]. unfold step_fits in Hx.
  destruct (is_some_and _ _); [by apply IH|]. destruct (st_stop x); [done|].
  destruct (st_entry x) as [e|]; [|by apply IH]. destruct (_ && _); [by apply IH|].
  destruct (en_type e); [by apply IH| |by apply IH|destruct (0 <? _); by apply IH].
  destruct (N.leb_spec MAX_TRACKED_FILES (N.of_nat (size (files s)))); [done|].
  apply IH; [done|]. by apply capture_file_budget.
Qed.

(** ** What a comparison says *)

Lemma changed_iff before after p :
  p ∈ changed_files (compare_snapshots before after) <-> is_listed before after p = true.
Proof.
  unfold compare_snapshots. cbn. rewrite elem_of_lfilter, dedup_elem, merge_sort_Permutation.
  rewrite elem_of_app, !list_elem_of_fmap. split; [by intros [_ H]|]. intros H. split; [|done].
  unfold is_listed in H. destruct (files before !! p) as [x|] eqn:E1.
  { left. exists (p, x). split; [done|]. by apply elem_of_map_to_list. }
  destruct (files after !! p) as [x|] eqn:E2.
  { right. exists (p, x). split; [done|]. by apply elem_of_map_to_list. }
  cbn in H. by rewrite andb_false_r in H.
Qed.

Lemma shown_match v w x y :
  (forall m c m' c', v = Some (m, c) -> w = Some (m', c') -> digest c = digest c' -> c = c') ->
  shows v x -> shows w y -> samples_match x y = true <-> v = w.
Proof.
  intros Hd Hx Hy. destruct v as [[m c]|], w as [[m' c']|], x as [x|], y as [y|]; try done.
  destruct Hx as (Hm & Hs & Hc), Hy as (Hm' & Hs' & Hc'). cbn. rewrite Hc, Hc', Hm, Hm', Hs, Hs'.
  destruct (bool_decide_reflect (m = m')) as [->|Hne]; cbn.
  2: { split; [done|]. intros [= -> ->]. done. }
  destruct (N.eqb_spec (size_of c) (size_of c')) as [E|E]; cbn.
  2: { split; [done|]. intros [= ->]. done. }
  rewrite bool_decide_eq_true. split; [|by intros [= ->]]. intros Hdg. by rewrite (Hd _ _ _ _ eq_refl eq_refl Hdg).
Qed.

(** The digest tells the files of two walks apart. *)
Definition digest_separates (before after : list Step) : Prop :=
  forall p m c m' c', seen_files before !! p = Some (m, c) -> seen_files after !! p = Some (m', c') ->
    digest c = digest c' -> c = c'.

Definition scan_of (before after : list Step) : WorkspaceMutationScan :=
  compare_snapshots (capture_blocking before) (capture_blocking after).

Lemma complete_scan_listed before after p :
  Forall step_fits before -> Forall step_fits after -> digest_separates before after ->
  complete (scan_of before after) = true ->
  p ∈ changed_files (scan_of before after) <-> seen_files before !! p <> seen_files after !! p.
Proof.
  intros Hb Ha Hd Hc. cbn in Hc. apply andb_true_iff in Hc as [Hcb Hca].
  unfold scan_of. rewrite changed_iff. unfold is_listed. rewrite Hcb, Hca. cbn [negb].
  rewrite !andb_false_r. cbn [orb negb andb]. rewrite negb_true_iff, <-not_true_iff_false.
  rewrite (shown_match (seen_files before !! p) (seen_files after !! p)); [done| | |].
  - intros m c m' c' H1 H2. by apply (Hd p m c m' c').
  - by apply complete_capture.
  - by apply complete_capture.
Qed.

(** C21 (functional): a scan that says it is complete lists exactly the regular files that differ in mode or
    content, that were created or that were deleted; and when it says that only derived files
    changed, each of them is the byte code of a source that exists before and after and has
    not changed. *)
Theorem complete_scan_is_exact before after :
  Forall step_fits before -> Forall step_fits after -> digest_separates before after ->
  complete (scan_of before after) = true ->
  (forall p, p ∈ changed_files (scan_of before after) <-> seen_files before !! p <> seen_files after !! p) /\
  (only_derived_changes (scan_of before after) = true ->
   forall p, seen_files before !! p <> seen_files after !! p ->
   exists source, derived_source_path p = Some source /\ seen_files before !! source <> None /\
     seen_files before !! source = seen_files after !! source).
Proof.
  intros Hb Ha Hd Hc. split; [intros p; by apply complete_scan_listed|].
  intros Ho p Hp. apply (complete_scan_listed before after p Hb Ha Hd Hc) in Hp.
  pose proof Hc as Hc'. cbn in Hc'. apply andb_true_iff in Hc' as [Hcb Hca].
  unfold scan_of, compare_snapshots in Ho, Hp. cbn in Ho, Hp.
  apply andb_true_iff in Ho as [_ Ho]. rewrite forallb_elem, Forall_forall in Ho. specialize (Ho p Hp).
  unfold derived_unchanged in Ho. destruct (derived_source_path p) as [source|]; [|done].
  exists source. split; [done|].
  pose proof (complete_capture before source Hb Hcb) as Sb. pose proof (complete_capture after source Ha Hca) as Sa.
  destruct (files (capture_blocking before) !! source) as [x|] eqn:Ex; [|done].
  destruct (files (capture_blocking after) !! source) as [y|] eqn:Ey; [|done].
  apply andb_true_iff in Ho as [_ Ho]. split; [by destruct (seen_files before !! source)|].
  apply (shown_match _ _ (Some x) (Some y)); [|done..]. intros m c m' c' H1 H2. by apply (Hd source m c m' c').
Qed.

(** Also a scan that is not complete invents neither creations nor deletions: a listed path
    that is missing on one side is missing from a complete snapshot of that side, and one that
    is there on both differs in mode, length, digest or time. *)
Lemma listed_change_is_observed before after p :
  p ∈ changed_files (compare_snapshots before after) ->
  match files before !! p, files after !! p with
  | None, None => False
  | None, Some _ => scan_complete before = true
  | Some _, None => scan_complete after = true
  | Some x, Some y => samples_match (Some x) (Some y) = false
  end.
Proof.
  rewrite changed_iff. unfold is_listed.
  destruct (files before !! p) as [x|], (files after !! p) as [y|], (scan_complete before), (scan_complete after);
    cbn; rewrite ?negb_true_iff; try done.
Qed.
End Scan.

(** ** A concrete workspace *)

Definition regular (ino len mode : N) : Metadata := mkMetadata IsFile 1 ino len 0 mode.
Definition a_file (p : path) (ino mode : N) (content : list N) : Step :=
  let m := regular ino (size_of content) mode in
  mkStep (N.of_nat (length p)) false
    (Some (mkEntry p (default "" (last p)) IsFile (Some m) (Some m) (Some true) (Some m) content
             (replicate 9 (Reads 4)) (Some m) (Some m))).
Definition a_dir (p : path) : Step :=
  mkStep (N.of_nat (length p)) false
    (Some (mkEntry p (default "" (last p)) IsDir None None None None [] [] None None)).

Definition walk_before : list Step :=
  [a_dir []; a_file ["m.py"] 1 420 [120; 61; 49]; a_dir ["__pycache__"];
   a_file ["__pycache__"; "m.cpython-312.pyc"] 2 420 [1; 2]].
Definition walk_after : list Step :=
  [a_dir []; a_file ["m.py"] 1 420 [120; 61; 49]; a_dir ["__pycache__"];
   a_file ["__pycache__"; "m.cpython-312.pyc"] 2 420 [1; 3; 0; 7; 7; 7]].
(** A digest that has no collisions. *)
Definition plain_digest (bytes : list N) : string := pretty (Npos (encode bytes)).

Lemma plain_digest_separates before after : digest_separates plain_digest before after.
Proof. intros p m c m' c' _ _ E. by apply (inj pretty) in E. Qed.

Lemma complete_scan_is_exact_witness :
  ["__pycache__"; "m.cpython-312.pyc"] ∈ changed_files (scan_of plain_digest walk_before walk_after) /\
  exists source, derived_source_path ["__pycache__"; "m.cpython-312.pyc"] = Some source /\
    seen_files walk_before !! source <> None /\ seen_files walk_before !! source = seen_files walk_after !! source.
Proof.
  assert (H1 : Forall step_fits walk_before) by (repeat constructor).
  assert (H2 : Forall step_fits walk_after) by (repeat constructor).
  assert (H3 : complete (scan_of plain_digest walk_before walk_after) = true) by (vm_compute; reflexivity).
  assert (H4 : only_derived_changes (scan_of plain_digest walk_before walk_after) = true)
    by (vm_compute; reflexivity).
  assert (H5 : seen_files walk_before !! ["__pycache__"; "m.cpython-312.pyc"]
    <> seen_files walk_after !! ["__pycache__"; "m.cpython-312.pyc"]) by (vm_compute; discriminate).
  destruct (complete_scan_is_exact plain_digest walk_before walk_after H1 H2
    (plain_digest_separates walk_before walk_after) H3) as [Hc Ho].
  split; [apply Hc; exact H5|]. exact (Ho H4 _ H5).
Defined.

(** A directory that is left out makes the scan say so, and a file is not called deleted. *)
Example excluded_directory_is_not_a_deletion :
  let after := [a_dir []; a_file ["m.py"] 1 420 [120; 61; 50]; a_dir ["target"]; a_file ["target"; "x"] 9 420 [1]] in
  let scan := scan_of plain_digest walk_before after in
  complete scan = false /\ changed_files scan = [["m.py"]].
Proof. vm_compute. done. Qed.
