(* ===== verification/ChangeTracker.v ===== *)
(** * The net changes of a turn

    [golutra-agent-client/src/change_tracker.rs]: from what the tools say of the files before
    and after each call, the change of every file since the turn began, with line counts, diff
    previews and the diff kept as an artifact. The line diff of the [similar] crate and the
    redaction are arguments; ids are numbers. *)
From stdpp Require Import gmap.
From S2P Require Import Prelude RustStr Utf8 TestOutput Correction ToolReport ProcessOutput.
Open Scope N_scope. Open Scope rust_scope.

(*@ client/src/change_tracker.rs MAX_DIFF_FILE_BYTES *)
Definition MAX_DIFF_FILE_BYTES : N := 16 * 1024 * 1024.
(*@ client/src/change_tracker.rs MAX_TURN_CONTENT_BYTES *)
Definition MAX_TURN_CONTENT_BYTES : N := 64 * 1024 * 1024.
(*@ client/src/change_tracker.rs MAX_DIFF_PREVIEW_LINES *)
Definition MAX_DIFF_PREVIEW_LINES : N := 80.
(*@ client/src/change_tracker.rs MAX_DIFF_PREVIEW_BYTES *)
Definition MAX_DIFF_PREVIEW_BYTES : N := 24 * 1024.
(*@ client/src/change_tracker.rs MAX_DIFF_PREVIEW_TOTAL_BYTES *)
Definition MAX_DIFF_PREVIEW_TOTAL_BYTES : N := 256 * 1024.
(*@ client/src/change_tracker.rs MAX_DIFF_ARTIFACT_BYTES *)
Definition MAX_DIFF_ARTIFACT_BYTES : N := 2 * 1024 * 1024.
Definition newline : string := String (byte 10) "".
(*@ client/src/change_tracker.rs DIFF_ARTIFACT_TRUNCATION_MARKER *)
Definition DIFF_ARTIFACT_TRUNCATION_MARKER : string := newline +:+ "[diff artifact truncated]" +:+ newline.

(** ** Data *)

Module FileChangeKind.
(*@ core/src/change.rs FileChangeKind *)
Inductive FileChangeKind := Added | Modified | Deleted.
#[global] Instance FileChangeKind_eq_dec : EqDecision FileChangeKind.
Proof. solve_decision. Defined.
End FileChangeKind.
Abbreviation FileChangeKind := FileChangeKind.FileChangeKind.

(*@ core/src/change.rs FileChangeSummary *)
Record FileChangeSummary := mkFileChangeSummary {
  ch_path : string; ch_kind : FileChangeKind; ch_added_lines : option N;
  ch_removed_lines : option N; ch_before : option FileStateMetadata;
  ch_after : option FileStateMetadata }.

(*@ core/src/change.rs FileDiffPreview *)
Record FileDiffPreview := mkFileDiffPreview { dp_path : string; dp_lines : list string; dp_truncated : bool }.

(*@ core/src/change.rs TurnChangeSummary *)
Record TurnChangeSummary := mkTurnChangeSummary {
  ts_files : list FileChangeSummary; ts_added_lines : option N; ts_removed_lines : option N;
  ts_stats_complete : bool; ts_file_count : N; ts_files_truncated : bool }.

Module FileContent.
(*@ client/src/change_tracker.rs FileContent *)
Inductive FileContent := Missing | Text (bytes : list N) | Unavailable.
#[global] Instance FileContent_eq_dec : EqDecision FileContent.
Proof. solve_decision. Defined.
End FileContent.
Abbreviation FileContent := FileContent.FileContent.

(*@ client/src/change_tracker.rs FileContent::byte_len *)
Definition byte_len (c : FileContent) : N :=
  match c with FileContent.Text bytes => size_of bytes | _ => 0 end.

(*@ client/src/change_tracker.rs ChangeSample *)
Record ChangeSample := mkChangeSample {
  cs_path : string; cs_before : FileContent; cs_after : FileContent;
  cs_before_metadata : option FileStateMetadata; cs_after_metadata : option FileStateMetadata }.

(*@ client/src/change_tracker.rs TrackedFile *)
Record TrackedFile := mkTrackedFile {
  baseline : FileContent; latest : FileContent;
  baseline_metadata : option FileStateMetadata; latest_metadata : option FileStateMetadata }.

(*@ client/src/change_tracker.rs TurnChangeState *)
Record TurnChangeState := mkTurnChangeState {
  tracked : gmap string TrackedFile; retained_content_bytes : N }.

(*@ client/src/change_tracker.rs WorkspaceChangeTracker *)
Record WorkspaceChangeTracker := mkTracker { turns : gmap (N * N) TurnChangeState }.

(*@ client/src/change_tracker.rs DiffArtifact *)
Record DiffArtifact := mkDiffArtifact { da_content : string; da_truncated : bool }.

(*@ client/src/change_tracker.rs ToolChangeFacts *)
Record ToolChangeFacts := mkToolChangeFacts {
  operation_changes : list FileChangeSummary; diff_previews : list FileDiffPreview;
  diff_artifact : option DiffArtifact; tf_turn_summary : TurnChangeSummary }.

(** ** Recording *)

(*@ client/src/change_tracker.rs retain_bounded_content *)
Definition retain_bounded_content (content : FileContent) (retained limit : N) : FileContent * N :=
  if limit <? sat_add usize_max retained (byte_len content) then (FileContent.Unavailable, retained)
  else (content, sat_add usize_max retained (byte_len content)).

(*@ client/src/change_tracker.rs file_content_from_before_image *)
Definition file_content_from_before_image (image : FileBeforeImage) : FileContent :=
  match image_content image with
  | Some bytes => if size_of bytes <=? MAX_DIFF_FILE_BYTES then FileContent.Text bytes else FileContent.Unavailable
  | None => match image_metadata image with Some _ => FileContent.Unavailable | None => FileContent.Missing end
  end.

(** One turn of the loop over the samples: the state and the sample as a delta. *)
(*@ client/src/change_tracker.rs:89-129 WorkspaceChangeTracker::record *)
Definition record_sample (turn : TurnChangeState) (sample : ChangeSample)
    : TurnChangeState * ChangeSample :=
  match tracked turn !! cs_path sample with
  | Some t =>
      let delta := mkChangeSample (cs_path sample) (latest t) (cs_after sample) (latest_metadata t)
                     (cs_after_metadata sample) in
      let retained := retained_content_bytes turn - byte_len (latest t) in
      let '(content, retained) := retain_bounded_content (cs_after sample) retained MAX_TURN_CONTENT_BYTES in
      (mkTurnChangeState
         (<[cs_path sample := mkTrackedFile (baseline t) content (baseline_metadata t)
                                (cs_after_metadata sample)]> (tracked turn)) retained, delta)
  | None =>
      let '(before, retained) :=
        retain_bounded_content (cs_before sample) (retained_content_bytes turn) MAX_TURN_CONTENT_BYTES in
      let '(after, retained) := retain_bounded_content (cs_after sample) retained MAX_TURN_CONTENT_BYTES in
      (mkTurnChangeState
         (<[cs_path sample := mkTrackedFile before after (cs_before_metadata sample)
                                (cs_after_metadata sample)]> (tracked turn)) retained, sample)
  end.

Fixpoint record_samples (turn : TurnChangeState) (samples : list ChangeSample)
    : TurnChangeState * list ChangeSample :=
  match samples with
  | [] => (turn, [])
  | sample :: samples' =>
      let '(turn, delta) := record_sample turn sample in
      let '(turn, deltas) := record_samples turn samples' in
      (turn, delta :: deltas)
  end.

(** [&str] of bytes that are valid. *)
Definition text_of (bytes : list N) : string := String.string_of_list_ascii (byte <$> bytes).

(*@ client/src/change_tracker.rs text_content *)
Definition text_content (c : FileContent) : option string :=
  match c with
  | FileContent.Missing => Some ""
  | FileContent.Text bytes => match (utf8_check bytes).2 with Whole => Some (text_of bytes) | _ => None end
  | FileContent.Unavailable => None
  end.

(*@ client/src/change_tracker.rs proven_change *)
Definition proven_change (before after : FileContent) (before_metadata after_metadata : option FileStateMetadata)
    : bool :=
  match before, after with
  | FileContent.Missing, FileContent.Missing => false
  | FileContent.Missing, FileContent.Text _ | FileContent.Text _, FileContent.Missing => true
  | FileContent.Missing, FileContent.Unavailable => bool_decide (is_Some after_metadata)
  | FileContent.Unavailable, FileContent.Missing => bool_decide (is_Some before_metadata)
  | FileContent.Text b, FileContent.Text a => negb (bool_decide (b = a))
  | _, _ =>
      match before_metadata, after_metadata with
      | Some b, Some a =>
          negb (fm_size_bytes b =? fm_size_bytes a)
          || negb (bool_decide (fm_unix_mode b = fm_unix_mode a))
          || match fm_checksum b, fm_checksum a with
             | Some x, Some y => negb (bool_decide (x = y))
             | _, _ => false
             end
      | _, _ => false
      end
  end.

Section Diff.
(** The line diff of the [similar] crate: the tags of its changes, and the unified text with a
    number of context lines and perhaps a header. *)
Inductive change_tag := Insert | Delete | Equal.
Context (line_diff : string -> string -> list change_tag).
Context (unified : N -> option (string * string) -> string -> string -> string).
(** [redact_sensitive_text(..).0]. *)
Context (redact : string -> string).

Definition count_tag (f : change_tag -> bool) (l : list change_tag) : N :=
  foldl (fun n t => if f t then n +|64 1 else n) 0 l.

(*@ client/src/change_tracker.rs line_changes *)
Definition line_changes (before after : FileContent) : option (N * N) :=
  before ← text_content before;
  after ← text_content after;
  let tags := line_diff before after in
  Some (count_tag (fun t => match t with Insert => true | _ => false end) tags,
        count_tag (fun t => match t with Delete => true | _ => false end) tags).

(*@ client/src/change_tracker.rs change_summary *)
Definition change_summary (path : string) (before after : FileContent)
    (before_metadata after_metadata : option FileStateMetadata) : FileChangeSummary :=
  let kind := match before_metadata, after_metadata with
              | None, Some _ => FileChangeKind.Added
              | Some _, None => FileChangeKind.Deleted
              | _, _ => FileChangeKind.Modified
              end in
  let counts := line_changes before after in
  mkFileChangeSummary path kind (fst <$> counts) (snd <$> counts) before_metadata after_metadata.

(*@ client/src/change_tracker.rs sample_summary *)
Definition sample_summary (s : ChangeSample) : option FileChangeSummary :=
  if proven_change (cs_before s) (cs_after s) (cs_before_metadata s) (cs_after_metadata s)
  then Some (change_summary (cs_path s) (cs_before s) (cs_after s) (cs_before_metadata s) (cs_after_metadata s))
  else None.

(** The entries of the [BTreeMap] in the order of their keys. *)
Definition sorted_files (turn : TurnChangeState) : list (string * TrackedFile) :=
  omap (fun p => pair p <$> tracked turn !! p) (sort_strings (map_to_list (tracked turn)).*1).

Definition tracked_change (x : string * TrackedFile) : option FileChangeSummary :=
  let t := snd x in
  if proven_change (baseline t) (latest t) (baseline_metadata t) (latest_metadata t)
  then Some (change_summary (fst x) (baseline t) (latest t) (baseline_metadata t) (latest_metadata t))
  else None.

(*@ client/src/change_tracker.rs turn_summary *)
Definition turn_summary (turn : TurnChangeState) : TurnChangeSummary :=
  let files := omap tracked_change (sorted_files turn) in
  let stats_complete := forallb (fun c => bool_decide (is_Some (ch_added_lines c))
                                          && bool_decide (is_Some (ch_removed_lines c))) files in
  let sum (f : FileChangeSummary -> option N) :=
    if stats_complete then Some (foldl (fun n x => n +|64 x) 0 (omap f files)) else None in
  mkTurnChangeSummary files (sum ch_added_lines) (sum ch_removed_lines) stats_complete
    (N.of_nat (length files)) false.

(** ** Diffs *)

(** The lines of a preview that fit its own bounds, and whether some did not. *)
(*@ client/src/change_tracker.rs:420-431 diff_preview *)
Fixpoint preview_lines (patch_lines : list string) (count retained : N) : list string * bool :=
  match patch_lines with
  | [] => ([], false)
  | value :: rest =>
      let line := redact value in
      let line_bytes := sat_add usize_max (str_len line) 1 in
      if (MAX_DIFF_PREVIEW_LINES <=? count) || (MAX_DIFF_PREVIEW_BYTES <? sat_add usize_max retained line_bytes)
      then ([], true)
      else
        let '(kept, truncated) := preview_lines rest (count + 1) (sat_add usize_max retained line_bytes) in
        (line :: kept, truncated)
  end.

Definition patch_lines (s : string) : list string := text_lines (chars s).

(*@ client/src/change_tracker.rs diff_preview *)
Definition diff_preview (s : ChangeSample) : option FileDiffPreview :=
  if negb (proven_change (cs_before s) (cs_after s) (cs_before_metadata s) (cs_after_metadata s)) then None
  else
    before ← text_content (cs_before s);
    after ← text_content (cs_after s);
    let '(kept, truncated) := preview_lines (patch_lines (unified 2 None before after)) 0 0 in
    if bool_decide (kept = []) then None else Some (mkFileDiffPreview (cs_path s) kept truncated).

(** The lines that fit a budget shared with the other files, their bytes, and whether some did
    not. *)
(*@ client/src/change_tracker.rs:455-463 bounded_diff_previews *)
Fixpoint lines_within (l : list string) (used budget : N) : list string * N * bool :=
  match l with
  | [] => ([], used, false)
  | line :: rest =>
      let cost := sat_add usize_max (str_len line) 1 in
      if budget <? sat_add usize_max used cost then ([], used, true)
      else let '(kept, used, cut) := lines_within rest (sat_add usize_max used cost) budget in
           (line :: kept, used, cut)
  end.

(*@ client/src/change_tracker.rs bounded_diff_previews *)
Fixpoint bounded_previews (samples : list ChangeSample) (retained : N) : list FileDiffPreview :=
  match samples with
  | [] => []
  | s :: samples' =>
      match diff_preview s with
      | None => bounded_previews samples' retained
      | Some preview =>
          let path_overhead := sat_add usize_max (str_len (dp_path preview)) 64 in
          let available := MAX_DIFF_PREVIEW_TOTAL_BYTES - retained in
          if available <=? path_overhead then []
          else
            let '(kept, line_bytes, cut) := lines_within (dp_lines preview) 0 (available - path_overhead) in
            if bool_decide (kept = []) then []
            else
              let preview := mkFileDiffPreview (dp_path preview) kept (dp_truncated preview || cut) in
              let retained := sat_add usize_max (sat_add usize_max retained path_overhead) line_bytes in
              preview :: (if cut then [] else bounded_previews samples' retained)
      end
  end.

(*@ client/src/change_tracker.rs utf8_prefix *)
Definition utf8_prefix (value : string) (max_bytes : N) : string :=
  if str_len value <=? max_bytes then value
  else byte_prefix (boundary_at_most value (N.to_nat max_bytes)) value.

Definition artifact_limit : N := MAX_DIFF_ARTIFACT_BYTES - str_len DIFF_ARTIFACT_TRUNCATION_MARKER.

(** The loop over the samples: the text so far and whether it was cut. *)
(*@ client/src/change_tracker.rs:483-521 build_diff_artifact *)
Fixpoint artifact_text (samples : list ChangeSample) (content : string) : string * bool :=
  match samples with
  | [] => (content, false)
  | s :: samples' =>
      if negb (proven_change (cs_before s) (cs_after s) (cs_before_metadata s) (cs_after_metadata s))
      then artifact_text samples' content
      else match text_content (cs_before s), text_content (cs_after s) with
      | Some before, Some after =>
          let patch := redact (unified 3 (Some ("a/" +:+ cs_path s, "b/" +:+ cs_path s)) before after) in
          if bool_decide (patch = "") then artifact_text samples' content
          else
            let remaining := artifact_limit - str_len content in
            if str_len patch <=? remaining then artifact_text samples' (content +:+ patch)
            else (content +:+ utf8_prefix patch remaining +:+ DIFF_ARTIFACT_TRUNCATION_MARKER, true)
      | _, _ => artifact_text samples' content
      end
  end.

(*@ client/src/change_tracker.rs build_diff_artifact *)
Definition build_diff_artifact (samples : list ChangeSample) : option DiffArtifact :=
  let '(content, truncated) := artifact_text samples "" in
  if bool_decide (content = "") then None else Some (mkDiffArtifact content truncated).

Definition no_changes_yet : TurnChangeState := mkTurnChangeState ∅ 0.

(*@ client/src/change_tracker.rs WorkspaceChangeTracker::record *)
Definition record (task turn : N) (samples : list ChangeSample) (w : WorkspaceChangeTracker)
    : WorkspaceChangeTracker * ToolChangeFacts :=
  let state := default no_changes_yet (turns w !! (task, turn)) in
  let '(state, deltas) := record_samples state samples in
  (mkTracker (<[(task, turn) := state]> (turns w)),
   mkToolChangeFacts (omap sample_summary deltas) (bounded_previews deltas 0) (build_diff_artifact deltas)
     (turn_summary state)).

(*@ client/src/change_tracker.rs WorkspaceChangeTracker::remove_task *)
Definition remove_task (task : N) (w : WorkspaceChangeTracker) : WorkspaceChangeTracker :=
  mkTracker (base.filter (fun x => x.1.1 <> task) (turns w)).

(** ** Memory *)

Definition weight (t : TrackedFile) : N := byte_len (baseline t) + byte_len (latest t).
Definition content_bytes (m : gmap string TrackedFile) : N :=
  foldr N.add 0 (weight <$> (map_to_list m).*2).

#[local] Instance sum_proper : Proper ((≡ₚ) ==> eq) (foldr N.add 0).
Proof.
  intros l k H. induction H as [|? ? ? ? IH| |? ? ? ? IH1 ? IH2]; cbn in *; [done|by rewrite IH|lia|congruence].
Qed.

Lemma content_insert_new m k t : m !! k = None -> content_bytes (<[k := t]> m) = weight t + content_bytes m.
Proof. intros H. unfold content_bytes. rewrite map_to_list_insert by done. done. Qed.
Lemma content_insert_old m k t0 t :
  m !! k = Some t0 -> content_bytes (<[k := t]> m) + weight t0 = weight t + content_bytes m.
Proof.
  intros H. rewrite <-(insert_delete_id m k t0 H) at 2. rewrite <-insert_delete_eq.
  rewrite !content_insert_new by apply lookup_delete_eq. lia.
Qed.

Definition turn_ok (turn : TurnChangeState) : Prop :=
  retained_content_bytes turn = content_bytes (tracked turn) /\
  retained_content_bytes turn <= MAX_TURN_CONTENT_BYTES.

(** What is retained of a content, for its bytes and for what it says. *)
Lemma retain_spec c retained limit c' retained' :
  retained <= limit -> limit < usize_max ->
  retain_bounded_content c retained limit = (c', retained') ->
  retained' = retained + byte_len c' /\ retained' <= limit /\
  (c' = c \/ c' = FileContent.Unavailable /\ exists b, c = FileContent.Text b) /\
  (retained + byte_len c <= limit -> c' = c).
Proof.
  unfold retain_bounded_content, sat_add. intros Hr Hl.
  destruct (N.ltb_spec limit (N.min (retained + byte_len c) usize_max)) as [E|E]; intros [= <- <-].
  - change (byte_len FileContent.Unavailable) with 0. split_and!; [lia|lia| |lia].
    right. split; [done|]. destruct c as [|b|]; [|by exists b|];
      [change (byte_len FileContent.Missing) with 0 in E|change (byte_len FileContent.Unavailable) with 0 in E]; lia.
  - split_and!; [lia|lia|by left|done].
Qed.

Lemma turn_limit_small : MAX_TURN_CONTENT_BYTES < usize_max.
Proof. by vm_compute. Qed.
#[local] Hint Resolve turn_limit_small : core.

Lemma tracked_latest_le m k t : m !! k = Some t -> byte_len (latest t) <= content_bytes m.
Proof.
  intros H. rewrite <-(insert_delete_id m k t H), content_insert_new by apply lookup_delete_eq.
  unfold weight. lia.
Qed.

Lemma record_sample_ok turn s : turn_ok turn -> turn_ok (record_sample turn s).1.
Proof.
  intros [Hc Hm]. unfold record_sample. destruct (tracked turn !! cs_path s) as [t|] eqn:E.
  - pose proof (tracked_latest_le _ _ _ E) as Hl.
    destruct (retain_bounded_content _ _ _) as [c r] eqn:Hr.
    apply retain_spec in Hr as (-> & Hb & _ & _); [|lia|done]. split; cbn; [|done].
    pose proof (content_insert_old _ _ _ (mkTrackedFile (baseline t) c (baseline_metadata t) (cs_after_metadata s)) E) as H.
    unfold weight in H. cbn in H. lia.
  - destruct (retain_bounded_content (cs_before s) _ _) as [b r] eqn:Hr.
    apply retain_spec in Hr as (-> & Hb & _ & _); [|done|done].
    destruct (retain_bounded_content (cs_after s) _ _) as [a r] eqn:Hr.
    apply retain_spec in Hr as (-> & Ha & _ & _); [|done|done]. split; cbn; [|done].
    rewrite content_insert_new by done. unfold weight. cbn. lia.
Qed.

(** ** What the files really were *)

(** A file as it is: absent, or its mode and bytes. *)
Definition real_file : Type := option (option N * list N).
Context (digest : list N -> string).

Definition describes (d : FileStateMetadata) (mode : option N) (b : list N) : Prop :=
  fm_size_bytes d = size_of b /\ fm_unix_mode d = mode /\
  (fm_checksum d = None \/ fm_checksum d = Some (digest b)).

(** What is said of a file is so. *)
Definition honest (c : FileContent) (d : option FileStateMetadata) (real : real_file) : Prop :=
  match c with
  | FileContent.Missing => real = None /\ d = None
  | FileContent.Text b => exists mode, real = Some (mode, b) /\ forall x, d = Some x -> describes x mode b
  | FileContent.Unavailable => forall x, d = Some x -> exists mode b, real = Some (mode, b) /\ describes x mode b
  end.

Lemma honest_retained c c' d real :
  c' = c \/ c' = FileContent.Unavailable /\ (exists b, c = FileContent.Text b) ->
  honest c d real -> honest c' d real.
Proof.
  intros [->|[-> [b ->]]] H; [done|]. destruct H as (mode & -> & Hd). intros x Hx. exists mode, b. by split; [|apply Hd].
Qed.

(** A change that counts as proven is one. *)
Lemma proven_change_is_real c d c' d' r r' :
  honest c d r -> honest c' d' r' -> proven_change c c' d d' = true -> r <> r'.
Proof.
  assert (forall x y m b m' b', describes x m b -> describes y m' b' ->
    negb (fm_size_bytes x =? fm_size_bytes y) || negb (bool_decide (fm_unix_mode x = fm_unix_mode y))
    || match fm_checksum x, fm_checksum y with Some u, Some v => negb (bool_decide (u = v)) | _, _ => false end = true ->
    (m, b) <> (m', b')) as Hdiff.
  { intros x y m b m' b' (Hs & Hm & Hc) (Hs' & Hm' & Hc') Hd [= -> ->].
    rewrite Hs, Hs', Hm, Hm', N.eqb_refl, bool_decide_eq_true_2 in Hd by done. cbn in Hd.
    destruct Hc as [Hc|Hc], Hc' as [Hc'|Hc']; rewrite Hc, ?Hc' in Hd; try done.
    by rewrite bool_decide_eq_true_2 in Hd. }
  intros H H' Hp. destruct c as [|b|], c' as [|b'|]; cbn in *.
  - done.
  - destruct H as [-> _], H' as (mode & -> & _). done.
  - destruct H as [-> _]. apply bool_decide_eq_true in Hp as [x Hx]. by destruct (H' x Hx) as (m & b & -> & _).
  - destruct H' as [-> _], H as (mode & -> & _). done.
  - destruct H as (m & -> & _), H' as (m' & -> & _). apply negb_true_iff, bool_decide_eq_false in Hp. congruence.
  - destruct d as [x|], d' as [y|]; try done. destruct H as (m & -> & Hx), (H' y eq_refl) as (m' & b' & -> & Hy).
    specialize (Hx x eq_refl). intros E. apply (Hdiff x y m b m' b' Hx Hy Hp). congruence.
  - destruct H' as [-> _]. apply bool_decide_eq_true in Hp as [x Hx]. by destruct (H x Hx) as (m & b & -> & _).
  - destruct d as [x|], d' as [y|]; try done. destruct H' as (m' & -> & Hy), (H x eq_refl) as (m & b & -> & Hx).
    specialize (Hy y eq_refl). intros E. apply (Hdiff x y m b m' b' Hx Hy Hp). congruence.
  - destruct d as [x|], d' as [y|]; try done.
    destruct (H x eq_refl) as (m & b & -> & Hx), (H' y eq_refl) as (m' & b' & -> & Hy).
    intros E. apply (Hdiff x y m b m' b' Hx Hy Hp). congruence.
Qed.

(** ** The history of a turn *)

(** A sample with what the file really was before and after. *)
Record happened := mkHappened { hp_sample : ChangeSample; hp_before : real_file; hp_after : real_file }.
Definition hp_path (e : happened) : string := cs_path (hp_sample e).
Definition honest_event (e : happened) : Prop :=
  honest (cs_before (hp_sample e)) (cs_before_metadata (hp_sample e)) (hp_before e) /\
  honest (cs_after (hp_sample e)) (cs_after_metadata (hp_sample e)) (hp_after e).

Definition at_path (p : string) (e : happened) : bool := bool_decide (hp_path e = p).
(** A file when the turn began and after its last change. *)
Definition began (p : string) (h : list happened) : option real_file :=
  hp_before <$> head (List.filter (at_path p) h).
Definition ended (p : string) (h : list happened) : option real_file :=
  hp_after <$> last (List.filter (at_path p) h).

Definition state_after (samples : list ChangeSample) : TurnChangeState :=
  foldl (fun turn s => (record_sample turn s).1) no_changes_yet samples.

Lemma record_samples_state turn samples :
  (record_samples turn samples).1 = foldl (fun turn s => (record_sample turn s).1) turn samples.
Proof.
  revert turn. induction samples as [|s l IH]; intros turn; [done|]. cbn [record_samples foldl].
  destruct (record_sample turn s) as [turn' d]. cbn [fst]. rewrite <-IH. by destruct (record_samples turn' l) eqn:E; cbn; rewrite ?E.
Qed.

Lemma state_after_snoc l s : state_after (l ++ [s]) = (record_sample (state_after l) s).1.
Proof. unfold state_after. by rewrite foldl_app. Qed.

Lemma state_after_ok l : turn_ok (state_after l).
Proof.
  induction l as [|s l IH] using rev_ind; [done|]. rewrite state_after_snoc. by apply record_sample_ok.
Qed.

Definition spent (h : list happened) : N :=
  foldr N.add 0 ((fun e => byte_len (cs_before (hp_sample e)) + byte_len (cs_after (hp_sample e))) <$> h).
Definition known (c : FileContent) : Prop := c <> FileContent.Unavailable.
Definition known_event (e : happened) : Prop :=
  known (cs_before (hp_sample e)) /\ known (cs_after (hp_sample e)).

(** What the state knows after a history. *)
Definition follows_history (turn : TurnChangeState) (h : list happened) : Prop :=
  forall p, match tracked turn !! p with
    | None => began p h = None /\ ended p h = None
    | Some t => exists rb ra, began p h = Some rb /\ ended p h = Some ra /\
        honest (baseline t) (baseline_metadata t) rb /\ honest (latest t) (latest_metadata t) ra
    end.
Definition keeps_contents (turn : TurnChangeState) (h : list happened) : Prop :=
  retained_content_bytes turn <= spent h /\
  (Forall known_event h -> spent h <= MAX_TURN_CONTENT_BYTES ->
   forall p t, tracked turn !! p = Some t -> known (baseline t) /\ known (latest t)).

Lemma filter_snoc_at p h e :
  List.filter (at_path p) (h ++ [e]) = List.filter (at_path p) h ++ (if at_path p e then [e] else []).
Proof. rewrite List.filter_app. cbn. done. Qed.

Lemma began_snoc p h e :
  began p (h ++ [e]) = match began p h with
                       | Some r => Some r
                       | None => if at_path p e then Some (hp_before e) else None end.
Proof.
  unfold began. rewrite filter_snoc_at. destruct (List.filter (at_path p) h); cbn; by destruct (at_path p e).
Qed.
Lemma ended_snoc p h e : ended p (h ++ [e]) = if at_path p e then Some (hp_after e) else ended p h.
Proof.
  unfold ended. rewrite filter_snoc_at. destruct (at_path p e); [by rewrite last_snoc|by rewrite app_nil_r].
Qed.

Lemma follows_step turn h e :
  turn_ok turn -> follows_history turn h -> honest_event e ->
  follows_history (record_sample turn (hp_sample e)).1 (h ++ [e]).
Proof.
  intros [_ Hm] Hf [Hb Ha] p. pose proof (Hf p) as Hp. rewrite began_snoc, ended_snoc.
  unfold record_sample. destruct (tracked turn !! cs_path (hp_sample e)) as [t|] eqn:E.
  - destruct (retain_bounded_content _ _ _) as [c r] eqn:Hr.
    apply retain_spec in Hr as (_ & _ & Hc & _); [|lia|done]. cbn [tracked fst].
    unfold at_path, hp_path. destruct (decide (p = cs_path (hp_sample e))) as [->|Hne].
    + rewrite lookup_insert_eq, bool_decide_eq_true_2 by done. rewrite E in Hp.
      destruct Hp as (rb & ra & -> & _ & Hbl & _). exists rb, (hp_after e). cbn.
      split_and!; [done..|]. by eapply honest_retained.
    + rewrite lookup_insert_ne, bool_decide_eq_false_2 by done. destruct (tracked turn !! p); [|by destruct Hp as [-> ->]].
      destruct Hp as (rb & ra & -> & Hp). by exists rb, ra.
  - destruct (retain_bounded_content (cs_before _) _ _) as [b r] eqn:Hr.
    apply retain_spec in Hr as (-> & Hle & Hcb & _); [|done|done].
    destruct (retain_bounded_content (cs_after _) _ _) as [a r] eqn:Hr.
    apply retain_spec in Hr as (_ & _ & Hca & _); [|done|done]. cbn [tracked fst].
    unfold at_path, hp_path. destruct (decide (p = cs_path (hp_sample e))) as [->|Hne].
    + rewrite lookup_insert_eq, bool_decide_eq_true_2 by done. rewrite E in Hp. destruct Hp as [-> _].
      exists (hp_before e), (hp_after e). cbn. split_and!; [done..| |]; by eapply honest_retained.
    + rewrite lookup_insert_ne, bool_decide_eq_false_2 by done. destruct (tracked turn !! p); [|by destruct Hp as [-> ->]].
      destruct Hp as (rb & ra & -> & Hp). by exists rb, ra.
Qed.

Lemma spent_snoc h e :
  spent (h ++ [e]) = spent h + (byte_len (cs_before (hp_sample e)) + byte_len (cs_after (hp_sample e))).
Proof.
  unfold spent. rewrite fmap_app. induction h as [|x h IH]; cbn in *; lia.
Qed.

Lemma keeps_step turn h e :
  turn_ok turn -> keeps_contents turn h -> keeps_contents (record_sample turn (hp_sample e)).1 (h ++ [e]).
Proof.
  intros [_ Hm] [Hs Hk]. unfold keeps_contents. rewrite spent_snoc, Forall_app. unfold record_sample.
  destruct (tracked turn !! cs_path (hp_sample e)) as [t|] eqn:E.
  - destruct (retain_bounded_content _ _ _) as [c r] eqn:Hr.
    apply retain_spec in Hr as (-> & Hle & Hc & Hsame); [|lia|done]. cbn [tracked fst retained_content_bytes].
    assert (byte_len c <= byte_len (cs_after (hp_sample e))) by (destruct Hc as [->|[-> _]]; cbn; lia).
    split; [lia|]. intros [Hh [[_ Ha] _]%Forall_cons] Hsp p t'.
    destruct (decide (p = cs_path (hp_sample e))) as [->|Hne].
    + rewrite lookup_insert_eq. intros [= <-]. cbn. split; [by apply (Hk Hh ltac:(lia) _ _ E)|].
      rewrite Hsame by lia. done.
    + rewrite lookup_insert_ne by done. apply Hk; [done|lia].
  - destruct (retain_bounded_content (cs_before _) _ _) as [b r] eqn:Hr.
    apply retain_spec in Hr as (-> & Hle & Hcb & Hsb); [|done|done].
    destruct (retain_bounded_content (cs_after _) _ _) as [a r] eqn:Hr.
    apply retain_spec in Hr as (-> & Hle' & Hca & Hsa); [|done|done]. cbn [tracked fst retained_content_bytes].
    assert (byte_len b <= byte_len (cs_before (hp_sample e))) by (destruct Hcb as [->|[-> _]]; cbn; lia).
    assert (byte_len a <= byte_len (cs_after (hp_sample e))) by (destruct Hca as [->|[-> _]]; cbn; lia).
    split; [lia|]. intros [Hh [[Hb Ha] _]%Forall_cons] Hsp p t'.
    destruct (decide (p = cs_path (hp_sample e))) as [->|Hne].
    + rewrite lookup_insert_eq. intros [= <-]. cbn. rewrite Hsa by lia. by rewrite Hsb by lia.
    + rewrite lookup_insert_ne by done. apply Hk; [done|lia].
Qed.

Lemma history_state h :
  Forall honest_event h ->
  follows_history (state_after (hp_sample <$> h)) h /\ keeps_contents (state_after (hp_sample <$> h)) h.
Proof.
  induction h as [|e h IH] using rev_ind; intros Hh.
  { split; [intros p; cbn; by rewrite lookup_empty|]. split; [done|]. intros _ _ p t. cbn. by rewrite lookup_empty. }
  apply Forall_app in Hh as [Hh [He _]%Forall_cons]. destruct (IH Hh) as [Hf Hk].
  rewrite fmap_app. cbn [fmap list_fmap]. rewrite state_after_snoc. pose proof (state_after_ok (hp_sample <$> h)).
  split; [by apply follows_step|by apply keeps_step].
Qed.

(** ** What a turn reports *)

Lemma reported_iff turn c :
  c ∈ ts_files (turn_summary turn) <-> exists p t, tracked turn !! p = Some t /\ tracked_change (p, t) = Some c.
Proof.
  unfold turn_summary, sorted_files. cbn [ts_files]. rewrite list_elem_of_omap. split.
  - intros ([p t] & Hx & Hc). apply list_elem_of_omap in Hx as (q & _ & Hq).
    destruct (tracked turn !! q) as [t'|] eqn:E; [|done]. cbn in Hq. simplify_eq. by exists p, t.
  - intros (p & t & Hp & Hc). exists (p, t). split; [|done]. apply list_elem_of_omap. exists p.
    split; [|by rewrite Hp]. rewrite sort_strings_perm. apply list_elem_of_fmap. exists (p, t).
    split; [done|]. by apply elem_of_map_to_list.
Qed.

(** Between contents that are known only a difference is a change. *)
Lemma known_change c d c' d' r r' :
  honest c d r -> honest c' d' r' -> known c -> known c' -> snd <$> r <> snd <$> r' -> proven_change c c' d d' = true.
Proof.
  intros H H' Hk Hk' Hne. destruct c as [|b|], c' as [|b'|]; try done; cbn in *.
  - by destruct H as [-> _], H' as [-> _].
  - destruct H as (m & -> & _), H' as (m' & -> & _). apply negb_true_iff, bool_decide_eq_false.
    intros ->. by apply Hne.
Qed.

(** The calls of the tools, of any turns. *)
Definition run_calls (calls : list (N * N * list ChangeSample)) : WorkspaceChangeTracker :=
  foldl (fun w c => (record c.1.1 c.1.2 c.2 w).1) (mkTracker ∅) calls.
Definition calls_of (key : N * N) (calls : list (N * N * list ChangeSample)) : list ChangeSample :=
  c ← calls; if bool_decide (c.1 = key) then c.2 else [].

Lemma record_state task turn samples w :
  turns (record task turn samples w).1
  = <[(task, turn) := foldl (fun t s => (record_sample t s).1)
        (default no_changes_yet (turns w !! (task, turn))) samples]> (turns w).
Proof. unfold record. rewrite <-record_samples_state. by destruct (record_samples _ _). Qed.

Lemma run_calls_turn calls key :
  default no_changes_yet (turns (run_calls calls) !! key) = state_after (calls_of key calls).
Proof.
  induction calls as [|[[task turn] samples] calls IH] using rev_ind.
  { unfold run_calls. change (calls_of key []) with (@nil ChangeSample). cbn [foldl turns]. by rewrite lookup_empty. }
  unfold run_calls in *. rewrite foldl_app. cbn [foldl fst snd]. rewrite record_state.
  unfold calls_of in *. rewrite bind_app. cbn. rewrite app_nil_r.
  destruct (decide ((task, turn) = key)) as [<-|Hne].
  - rewrite lookup_insert_eq, IH, bool_decide_eq_true_2 by done. unfold state_after. by rewrite foldl_app.
  - rewrite lookup_insert_ne, bool_decide_eq_false_2, app_nil_r by done. exact IH.
Qed.

(** C22 (functional): the summary of a turn, however its calls interleave with those of other turns: every file
    in it differs from what it was when the turn began; and while the contents fit, every file
    whose content differs is in it, so that a change that was undone is not. *)
Theorem turn_summary_is_net task turn before samples h :
  hp_sample <$> h = calls_of (task, turn) before ++ samples -> Forall honest_event h ->
  let files := ts_files (tf_turn_summary (record task turn samples (run_calls before)).2) in
  (forall c, c ∈ files -> exists rb ra,
     began (ch_path c) h = Some rb /\ ended (ch_path c) h = Some ra /\ rb <> ra) /\
  (Forall known_event h -> spent h <= MAX_TURN_CONTENT_BYTES ->
   forall p rb ra, began p h = Some rb -> ended p h = Some ra -> snd <$> rb <> snd <$> ra ->
   p ∈ ch_path <$> files).
Proof.
  intros Hh Hon files. destruct (history_state h Hon) as [Hf Hk].
  assert (files = ts_files (turn_summary (state_after (hp_sample <$> h)))) as ->.
  { unfold files, record. rewrite run_calls_turn, Hh. unfold state_after at 2. rewrite foldl_app.
    fold (state_after (calls_of (task, turn) before)). rewrite <-record_samples_state.
    by destruct (record_samples _ _). }
  split.
  - intros c (p & t & Hp & Hc)%reported_iff. unfold tracked_change in Hc. cbn in Hc.
    destruct (proven_change _ _ _ _) eqn:E; [|done]. injection Hc as <-. cbn [change_summary ch_path].
    specialize (Hf p). rewrite Hp in Hf. destruct Hf as (rb & ra & Hb & He & H1 & H2). exists rb, ra.
    split_and!; [done..|]. by eapply proven_change_is_real.
  - intros Hkn Hsp p rb ra Hb He Hne. specialize (Hf p).
    destruct (tracked (state_after (hp_sample <$> h)) !! p) as [t|] eqn:Hp; [|destruct Hf; congruence].
    destruct Hf as (rb' & ra' & Hb' & He' & H1 & H2). simplify_eq.
    destruct (proj2 Hk Hkn Hsp p t Hp) as [K1 K2].
    apply list_elem_of_fmap. eexists. split; [|apply reported_iff; exists p, t; split; [done|]].
    2: { unfold tracked_change. cbn. by rewrite (known_change _ _ _ _ _ _ H1 H2 K1 K2 Hne). }
    done.
Qed.

(** ** Bounds of the diffs *)

Lemma utf8_prefix_le v n : str_len (utf8_prefix v n) <= n.
Proof.
  unfold utf8_prefix. destruct (N.leb_spec (str_len v) n); [done|]. unfold str_len.
  pose proof (byte_prefix_length (boundary_at_most v (N.to_nat n)) v). pose proof (boundary_le v (N.to_nat n)). lia.
Qed.

Lemma str_len_concat a b : str_len (a +:+ b) = str_len a + str_len b.
Proof. unfold str_len. rewrite str_length_app. lia. Qed.

Lemma artifact_text_bounded samples content :
  str_len content <= artifact_limit ->
  str_len (artifact_text samples content).1 <= artifact_limit + str_len DIFF_ARTIFACT_TRUNCATION_MARKER.
Proof.
  revert content. induction samples as [|s l IH]; intros content Hc; cbn [artifact_text]; [cbn [fst]; lia|].
  destruct (negb _); [by apply IH|]. destruct (text_content (cs_before s)); [|by apply IH].
  destruct (text_content (cs_after s)); [|by apply IH]. case_bool_decide; [by apply IH|].
  destruct (N.leb_spec (str_len (redact (unified 3 (Some ("a/" +:+ cs_path s, "b/" +:+ cs_path s)) s0 s1))) (artifact_limit - str_len content)).
  - apply IH. rewrite str_len_concat. lia.
  - cbn [fst]. rewrite !str_len_concat. pose proof (utf8_prefix_le (redact (unified 3 (Some ("a/" +:+ cs_path s, "b/" +:+ cs_path s)) s0 s1)) (artifact_limit - str_len content)). lia.
Qed.

(** The diff kept as an artifact has at most two mebibytes, its note included. *)
Theorem diff_artifact_bounded samples a :
  build_diff_artifact samples = Some a -> str_len (da_content a) <= MAX_DIFF_ARTIFACT_BYTES.
Proof.
  unfold build_diff_artifact. destruct (artifact_text samples "") as [content cut] eqn:E.
  case_bool_decide; [done|]. intros [= <-]. cbn [da_content].
  pose proof (artifact_text_bounded samples "") as H'. rewrite E in H'. cbn [fst] in H'.
  assert (artifact_limit + str_len DIFF_ARTIFACT_TRUNCATION_MARKER = MAX_DIFF_ARTIFACT_BYTES) as Hm by (by vm_compute).
  rewrite Hm in H'. apply H'. by vm_compute.
Qed.
End Diff.

(** ** A concrete turn *)

Definition no_diff_tags (_ _ : string) : list change_tag := [Insert].
Definition a_diff (_ : N) (_ : option (string * string)) (b a : string) : string := b +:+ "->" +:+ a.
Definition byte_sum (bytes : list N) : string := show (foldr N.add 0 bytes).
Definition meta (bytes : list N) : FileStateMetadata :=
  mkFileStateMetadata (size_of bytes) (Some (byte_sum bytes)) (Some 420) FileContentKind.Text true.
Definition wrote (p : string) (b a : list N) : happened :=
  mkHappened (mkChangeSample p (FileContent.Text b) (FileContent.Text a) (Some (meta b)) (Some (meta a)))
    (Some (Some 420, b)) (Some (Some 420, a)).
Definition created (p : string) (a : list N) : happened :=
  mkHappened (mkChangeSample p FileContent.Missing (FileContent.Text a) None (Some (meta a)))
    None (Some (Some 420, a)).

(** A file is changed and changed back, another is created, another turn writes in between. *)
Definition a_turn : list happened := [wrote "m.rs" [97] [98]; created "n.rs" [99; 10]; wrote "m.rs" [98] [97]].
Definition earlier_calls : list (N * N * list ChangeSample) :=
  [(1, 1, [hp_sample (wrote "m.rs" [97] [98])]); (1, 2, [hp_sample (wrote "m.rs" [1] [2])]);
   (1, 1, [hp_sample (created "n.rs" [99; 10])])].

Lemma wrote_honest p b a : honest_event byte_sum (wrote p b a).
Proof. split; (eexists; split; [done|]); intros x [= <-]; (split_and!; [done..|by right]). Qed.
Lemma created_honest p a : honest_event byte_sum (created p a).
Proof. split; [done|]. eexists. split; [done|]. intros x [= <-]. (split_and!; [done..|by right]). Qed.

Lemma turn_summary_is_net_witness :
  "n.rs" ∈ ch_path <$> ts_files (tf_turn_summary
    (record no_diff_tags a_diff (fun s => s) 1 1 [hp_sample (wrote "m.rs" [98] [97])]
       (run_calls no_diff_tags a_diff (fun s => s) earlier_calls)).2).
Proof.
  assert (H1 : hp_sample <$> a_turn
    = calls_of (1, 1) earlier_calls ++ [hp_sample (wrote "m.rs" [98] [97])]) by (vm_compute; reflexivity).
  assert (H2 : Forall (honest_event byte_sum) a_turn)
    by (repeat constructor; apply wrote_honest || apply created_honest).
  destruct (turn_summary_is_net no_diff_tags a_diff (fun s => s) byte_sum 1 1 earlier_calls
    [hp_sample (wrote "m.rs" [98] [97])] a_turn H1 H2) as [_ Hall].
  apply (Hall ltac:(repeat (constructor; try discriminate)) ltac:(vm_compute; discriminate) "n.rs" None (Some (Some 420, [99; 10])));
    [vm_compute; reflexivity|vm_compute; reflexivity|discriminate].
Defined.

(** The file that was changed back is not reported, and its net line counts are not either. *)
Example undone_change_is_not_reported :
  ch_path <$> ts_files (tf_turn_summary
    (record no_diff_tags a_diff (fun s => s) 1 1 [hp_sample (wrote "m.rs" [98] [97])]
       (run_calls no_diff_tags a_diff (fun s => s) earlier_calls)).2) = ["n.rs"].
Proof. vm_compute. reflexivity. Qed.

(** A change of the mode alone is reported for a file whose content is not kept, and not for
    one whose content is. *)
Example mode_change_needs_unavailable_content :
  let d mode := Some (mkFileStateMetadata 1 (Some "97") (Some mode) FileContentKind.Text true) in
  proven_change FileContent.Unavailable FileContent.Unavailable (d 420) (d 493) = true /\
  proven_change (FileContent.Text [97]) (FileContent.Text [97]) (d 420) (d 493) = false.
Proof. vm_compute. done. Qed.
