(* ===== verification/TraceIntegrity.v ===== *)
(** * The causal integrity of a trace

    [golutra-agent-client/src/trace_integrity.rs]: the check of the events of a task before
    they are used as evidence. The events are those of [Events] with their causal context and
    links; the text of an id is an argument. *)
From stdpp Require Import gmap.
From S2P Require Import Prelude RustStr Core Events.
Open Scope N_scope.

Module CausalRelation.
(*@ core/src/observability.rs CausalRelation *)
Inductive CausalRelation :=
| Parent | TriggeredBy | RespondsTo | DerivedFrom | Verifies | Compares | Supersedes.
#[global] Instance CausalRelation_eq_dec : EqDecision CausalRelation.
Proof. solve_decision. Defined.
End CausalRelation.
Abbreviation CausalRelation := CausalRelation.CausalRelation.

(*@ core/src/observability.rs CausalLink *)
Record CausalLink := mkCausalLink { cl_event_id : EventId; cl_relation : CausalRelation }.

(** The fields of a context that the check reads. *)
(*@ core/src/observability.rs CausalContext *)
Record CausalContext := mkCausalContext {
  cc_run_id : option N; cc_session_id : option SessionId; cc_task_id : option TaskId;
  cc_turn_id : option TurnId; cc_provider_request_id : option N; cc_tool_call_id : option N }.

(** Of the provenance of a run, too. *)
(*@ core/src/observability.rs RunProvenance *)
Record RunProvenance := mkRunProvenance { pv_run_id : N; pv_runtime_identity : string }.

Record Traced := mkTraced {
  te_event : RuntimeEvent json; te_context : CausalContext; te_links : list CausalLink }.
Definition te_id (e : Traced) : EventId := ev_id (te_event e).

(*@ client/src/trace_integrity.rs CausalIntegrityReport *)
Record CausalIntegrityReport := mkIntegrityReport {
  missing_causal_links : list string; orphan_events : list string;
  broken_lifecycle_pairs : list string; provenance_mismatches : list string }.
Definition empty_report : CausalIntegrityReport := mkIntegrityReport [] [] [] [].

(** What the loop remembers: the start of each provider request and tool call, which have
    ended, whether a verification was planned and recorded, and whether an event has the
    current schema. *)
Record Tally := mkTally {
  provider_starts : gmap N EventId; provider_terminated : gset N;
  tool_starts : gmap N EventId; tool_completed : gset N;
  verification_planned : bool; verification_completed : bool; has_schema_v2 : bool }.
Definition empty_tally : Tally := mkTally ∅ ∅ ∅ ∅ false false false.

Definition current_schema (e : Traced) : bool :=
  new_runtime_event_schema_version <=? ev_schema_version (te_event e).

Definition links_to (id : EventId) (relation : CausalRelation) (e : Traced) : bool :=
  existsb (fun l => (cl_event_id l =? id) && bool_decide (cl_relation l = relation)) (te_links e).

Section Check.
Context (show_id : N -> string).

Definition about (e : Traced) (what : string) : string := "event:" +:+ show_id (te_id e) +:+ ":" +:+ what.

(** ** One event *)

(*@ client/src/trace_integrity.rs:37-51 validate_causal_trace *)
Definition envelope_findings (task : TaskId) (e : Traced) : list string :=
  (if bool_decide (ev_task_id (te_event e) = Some task)
      && bool_decide (cc_task_id (te_context e) = Some task)
      && bool_decide (cc_session_id (te_context e) = Some (ev_session_id (te_event e)))
      && bool_decide (cc_turn_id (te_context e) = ev_turn_id (te_event e))
   then [] else [about e "envelope_causal_context_mismatch"])
  ++ (if bool_decide (cc_run_id (te_context e) = Some task) then [] else [about e "run_id_mismatch"]).

(** Missing links and orphans. *)
(*@ client/src/trace_integrity.rs:52-72 validate_causal_trace *)
Definition parent_findings (ids : list EventId) (index : nat) (e : Traced) : list string * list string :=
  match ev_parent_event_id (te_event e) with
  | None => ([], if bool_decide (index = 0%nat) then [] else [show_id (te_id e)])
  | Some parent =>
      ((if bool_decide (parent ∈ ids) || bool_decide (index = 0%nat) then []
        else [about e ("missing_parent:" +:+ show_id parent)])
       ++ (if links_to parent CausalRelation.Parent e then [] else [about e ("parent_link:" +:+ show_id parent)]),
       [])
  end.

(** The end of a request or a call, against the starts so far. *)
Definition completion_findings (starts : gmap N EventId) (id : option N)
    (no_link no_start no_id : string) (e : Traced) : list string :=
  match id with
  | None => [about e no_id]
  | Some r =>
      match starts !! r with
      | Some start => if links_to start CausalRelation.RespondsTo e then [] else [about e no_link]
      | None => [about e no_start]
      end
  end.

(*@ client/src/trace_integrity.rs:74-144 validate_causal_trace *)
Definition lifecycle_findings (t : Tally) (e : Traced) : list string :=
  match ev_event_type (te_event e) with
  | RuntimeEventType.ProviderStarted =>
      if cc_provider_request_id (te_context e) is Some _ then [] else [about e "provider_start_without_request"]
  | RuntimeEventType.ProviderCompleted | RuntimeEventType.ProviderFailed =>
      completion_findings (provider_starts t) (cc_provider_request_id (te_context e))
        "provider_complete_without_response_link" "provider_complete_without_start"
        "provider_complete_without_request" e
  | RuntimeEventType.ToolStarted =>
      if cc_tool_call_id (te_context e) is Some _ then [] else [about e "tool_start_without_id"]
  | RuntimeEventType.ToolCompleted =>
      completion_findings (tool_starts t) (cc_tool_call_id (te_context e))
        "tool_complete_without_response_link" "tool_complete_without_start" "tool_complete_without_id" e
  | _ => []
  end.

Definition add_key (id : option N) (s : gset N) : gset N := match id with Some r => {[r]} ∪ s | None => s end.
Definition add_start (id : option N) (e : Traced) (m : gmap N EventId) : gmap N EventId :=
  match id with Some r => <[r := te_id e]> m | None => m end.

(*@ client/src/trace_integrity.rs:32-145 validate_causal_trace *)
Definition tally_event (t : Tally) (e : Traced) : Tally :=
  if negb (current_schema e) then t
  else
    let p := cc_provider_request_id (te_context e) in
    let c := cc_tool_call_id (te_context e) in
    match ev_event_type (te_event e) with
    | RuntimeEventType.ProviderStarted =>
        mkTally (add_start p e (provider_starts t)) (provider_terminated t) (tool_starts t)
          (tool_completed t) (verification_planned t) (verification_completed t) true
    | RuntimeEventType.ProviderCompleted | RuntimeEventType.ProviderFailed =>
        mkTally (provider_starts t) (add_key p (provider_terminated t)) (tool_starts t)
          (tool_completed t) (verification_planned t) (verification_completed t) true
    | RuntimeEventType.ToolStarted =>
        mkTally (provider_starts t) (provider_terminated t) (add_start c e (tool_starts t))
          (tool_completed t) (verification_planned t) (verification_completed t) true
    | RuntimeEventType.ToolCompleted =>
        mkTally (provider_starts t) (provider_terminated t) (tool_starts t)
          (add_key c (tool_completed t)) (verification_planned t) (verification_completed t) true
    | RuntimeEventType.VerificationPlanned =>
        mkTally (provider_starts t) (provider_terminated t) (tool_starts t)
          (tool_completed t) true (verification_completed t) true
    | RuntimeEventType.VerificationCompleted =>
        mkTally (provider_starts t) (provider_terminated t) (tool_starts t)
          (tool_completed t) (verification_planned t) true true
    | _ =>
        mkTally (provider_starts t) (provider_terminated t) (tool_starts t)
          (tool_completed t) (verification_planned t) (verification_completed t) true
    end.

(*@ client/src/trace_integrity.rs:32-145 validate_causal_trace *)
Fixpoint check_events (task : TaskId) (ids : list EventId) (index : nat) (events : list Traced)
    (t : Tally) (r : CausalIntegrityReport) : Tally * CausalIntegrityReport :=
  match events with
  | [] => (t, r)
  | e :: events' =>
      if negb (current_schema e) then check_events task ids (S index) events' t r
      else
        let '(missing, orphan) := parent_findings ids index e in
        check_events task ids (S index) events' (tally_event t e)
          (mkIntegrityReport (missing_causal_links r ++ missing) (orphan_events r ++ orphan)
             (broken_lifecycle_pairs r ++ lifecycle_findings t e)
             (provenance_mismatches r ++ envelope_findings task e))
  end.

(** ** The end of the trace *)

Definition unfinished (what : string) (starts : gmap N EventId) (ended : gset N) : list string :=
  (fun r => what +:+ ":" +:+ show_id r +:+ ":not_completed")
    <$> List.filter (fun r => negb (bool_decide (r ∈ ended))) (map_to_list starts).*1.

Definition runtime_identity_of (e : Traced) : option string :=
  json_get (ev_payload (te_event e)) "runtime_identity" ≫= as_str.

(*@ client/src/trace_integrity.rs:147-189 validate_causal_trace *)
Definition closing_findings (task : TaskId) (events : list Traced) (provenance : option RunProvenance)
    (t : Tally) : list string * list string :=
  if has_schema_v2 t then
    (unfinished "provider_request" (provider_starts t) (provider_terminated t)
     ++ unfinished "tool_call" (tool_starts t) (tool_completed t)
     ++ (if verification_planned t && negb (verification_completed t)
         then ["verification:planned_without_record"] else []),
     match provenance with
     | Some p =>
         if negb (pv_run_id p =? task) then ["run_provenance:task_id_mismatch"]
         else if existsb (fun e => is_some_and (fun i => negb (bool_decide (i = pv_runtime_identity p)))
                                     (runtime_identity_of e)) events
         then ["run_provenance:runtime_identity_mismatch"] else []
     | None => ["run_provenance:missing"]
     end)
  else ([], []).

Definition tidy (l : list string) : list string := dedup (sort_strings l).

(*@ client/src/trace_integrity.rs validate_causal_trace *)
Definition validate_causal_trace (task : TaskId) (events : list Traced) (provenance : option RunProvenance)
    : CausalIntegrityReport :=
  let '(t, r) := check_events task (te_id <$> events) 0 events empty_tally empty_report in
  let '(broken, mismatched) := closing_findings task events provenance t in
  mkIntegrityReport (tidy (missing_causal_links r)) (tidy (orphan_events r))
    (tidy (broken_lifecycle_pairs r ++ broken)) (tidy (provenance_mismatches r ++ mismatched)).

(** ** What a clean report means *)

Definition is_clean (r : CausalIntegrityReport) : Prop := r = empty_report.

Lemma tidy_nil l : tidy l = [] <-> l = [].
Proof.
  split; [|by intros ->]. intros H. destruct l as [|s l]; [done|].
  assert (s ∈ tidy (s :: l)) as Hs by (unfold tidy; rewrite dedup_elem, sort_strings_perm; set_solver).
  rewrite H in Hs. by apply elem_of_nil in Hs.
Qed.

Definition started (ty : RuntimeEventType) (id : Traced -> option N) (r : N) (e : Traced) : bool :=
  current_schema e && bool_decide (ev_event_type (te_event e) = ty) && bool_decide (id e = Some r).
Definition request_of (e : Traced) : option N := cc_provider_request_id (te_context e).
Definition call_id_of (e : Traced) : option N := cc_tool_call_id (te_context e).
Definition ends_request (e : Traced) : bool :=
  bool_decide (ev_event_type (te_event e) = RuntimeEventType.ProviderCompleted)
  || bool_decide (ev_event_type (te_event e) = RuntimeEventType.ProviderFailed).
Definition ends_call (e : Traced) : bool :=
  bool_decide (ev_event_type (te_event e) = RuntimeEventType.ToolCompleted).

(** The latest start of [r] among some events. *)
Definition latest_start (ty : RuntimeEventType) (id : Traced -> option N) (r : N) (l : list Traced)
    : option EventId := te_id <$> last (List.filter (started ty id r) l).

(** [e] ends a request or a call that an earlier event started, and says so. *)
Definition answers (ty : RuntimeEventType) (id : Traced -> option N) (earlier : list Traced) (e : Traced) : Prop :=
  exists r start, id e = Some r /\ latest_start ty id r earlier = Some start /\
    links_to start CausalRelation.RespondsTo e = true.

(** An event that belongs where it is. *)
Record in_place (task : TaskId) (ids : list EventId) (earlier : list Traced) (e : Traced) : Prop := {
  ip_envelope : ev_task_id (te_event e) = Some task /\ cc_task_id (te_context e) = Some task /\
    cc_session_id (te_context e) = Some (ev_session_id (te_event e)) /\
    cc_turn_id (te_context e) = ev_turn_id (te_event e) /\ cc_run_id (te_context e) = Some task;
  ip_parent : match ev_parent_event_id (te_event e) with
    | None => earlier = []
    | Some parent => (parent ∈ ids \/ earlier = []) /\ links_to parent CausalRelation.Parent e = true
    end;
  ip_lifecycle : match ev_event_type (te_event e) with
    | RuntimeEventType.ProviderStarted => is_Some (request_of e)
    | RuntimeEventType.ToolStarted => is_Some (call_id_of e)
    | RuntimeEventType.ProviderCompleted | RuntimeEventType.ProviderFailed =>
        answers RuntimeEventType.ProviderStarted request_of earlier e
    | RuntimeEventType.ToolCompleted => answers RuntimeEventType.ToolStarted call_id_of earlier e
    | _ => True
    end }.

(** What has been started has ended. *)
Record brought_to_end (task : TaskId) (events : list Traced) (provenance : option RunProvenance) : Prop := {
  be_requests : forall r, latest_start RuntimeEventType.ProviderStarted request_of r events <> None ->
    exists e, e ∈ events /\ current_schema e = true /\ ends_request e = true /\ request_of e = Some r;
  be_calls : forall r, latest_start RuntimeEventType.ToolStarted call_id_of r events <> None ->
    exists e, e ∈ events /\ current_schema e = true /\ ends_call e = true /\ call_id_of e = Some r;
  be_verified : (exists e, e ∈ events /\ current_schema e = true /\
      ev_event_type (te_event e) = RuntimeEventType.VerificationPlanned) ->
    exists e, e ∈ events /\ current_schema e = true /\
      ev_event_type (te_event e) = RuntimeEventType.VerificationCompleted;
  be_provenance : exists p, provenance = Some p /\ pv_run_id p = task /\
    forall e i, e ∈ events -> runtime_identity_of e = Some i -> i = pv_runtime_identity p }.

(** The tally of a prefix. *)
Record tallies (t : Tally) (l : list Traced) : Prop := {
  ta_requests : forall r, provider_starts t !! r = latest_start RuntimeEventType.ProviderStarted request_of r l;
  ta_calls : forall r, tool_starts t !! r = latest_start RuntimeEventType.ToolStarted call_id_of r l;
  ta_terminated : forall r, r ∈ provider_terminated t <->
    exists e, e ∈ l /\ current_schema e = true /\ ends_request e = true /\ request_of e = Some r;
  ta_completed : forall r, r ∈ tool_completed t <->
    exists e, e ∈ l /\ current_schema e = true /\ ends_call e = true /\ call_id_of e = Some r;
  ta_planned : verification_planned t = true <-> exists e, e ∈ l /\ current_schema e = true /\
    ev_event_type (te_event e) = RuntimeEventType.VerificationPlanned;
  ta_recorded : verification_completed t = true <-> exists e, e ∈ l /\ current_schema e = true /\
    ev_event_type (te_event e) = RuntimeEventType.VerificationCompleted;
  ta_schema : has_schema_v2 t = true <-> exists e, e ∈ l /\ current_schema e = true }.

Definition has_type (ty : RuntimeEventType) (e : Traced) : bool :=
  current_schema e && bool_decide (ev_event_type (te_event e) = ty).

Ltac by_type e := unfold tally_event, has_type, ends_request, ends_call;
  destruct (current_schema e); [|done]; cbn [negb andb]; by destruct (ev_event_type (te_event e)).

Lemma tally_requests t e : provider_starts (tally_event t e)
  = if has_type RuntimeEventType.ProviderStarted e then add_start (request_of e) e (provider_starts t) else provider_starts t.
Proof. by_type e. Qed.
Lemma tally_calls t e : tool_starts (tally_event t e)
  = if has_type RuntimeEventType.ToolStarted e then add_start (call_id_of e) e (tool_starts t) else tool_starts t.
Proof. by_type e. Qed.
Lemma tally_terminated t e : provider_terminated (tally_event t e)
  = if current_schema e && ends_request e then add_key (request_of e) (provider_terminated t) else provider_terminated t.
Proof. by_type e. Qed.
Lemma tally_completed t e : tool_completed (tally_event t e)
  = if current_schema e && ends_call e then add_key (call_id_of e) (tool_completed t) else tool_completed t.
Proof. by_type e. Qed.
Lemma tally_planned t e : verification_planned (tally_event t e)
  = has_type RuntimeEventType.VerificationPlanned e || verification_planned t.
Proof. by_type e. Qed.
Lemma tally_recorded t e : verification_completed (tally_event t e)
  = has_type RuntimeEventType.VerificationCompleted e || verification_completed t.
Proof. by_type e. Qed.
Lemma tally_schema t e : has_schema_v2 (tally_event t e) = current_schema e || has_schema_v2 t.
Proof. by_type e. Qed.

Lemma exists_snoc (P : Traced -> Prop) l e :
  (exists x, x ∈ l ++ [e] /\ P x) <-> (exists x, x ∈ l /\ P x) \/ P e.
Proof.
  setoid_rewrite elem_of_app. setoid_rewrite list_elem_of_singleton. naive_solver.
Qed.

Lemma latest_start_snoc ty id r l e :
  latest_start ty id r (l ++ [e]) = if started ty id r e then Some (te_id e) else latest_start ty id r l.
Proof.
  unfold latest_start. rewrite List.filter_app. cbn. destruct (started ty id r e); [by rewrite last_snoc|by rewrite app_nil_r].
Qed.

Lemma add_start_spec ty id r e (m : gmap N EventId) l :
  m !! r = latest_start ty id r l ->
  (if has_type ty e then add_start (id e) e m else m) !! r = latest_start ty id r (l ++ [e]).
Proof.
  intros Hm. rewrite latest_start_snoc. unfold started, has_type.
  destruct (current_schema e && _); [|done]. cbn [andb]. destruct (id e) as [r'|]; cbn [add_start].
  - destruct (decide (r' = r)) as [->|Hne].
    + by rewrite lookup_insert_eq, bool_decide_eq_true_2.
    + rewrite lookup_insert_ne, bool_decide_eq_false_2 by congruence. done.
  - by rewrite bool_decide_eq_false_2.
Qed.

Lemma add_key_spec (f : Traced -> bool) (id : Traced -> option N) r e (s : gset N) l :
  (r ∈ s <-> exists x, x ∈ l /\ current_schema x = true /\ f x = true /\ id x = Some r) ->
  r ∈ (if current_schema e && f e then add_key (id e) s else s) <->
  exists x, x ∈ l ++ [e] /\ current_schema x = true /\ f x = true /\ id x = Some r.
Proof.
  intros Hs. rewrite (exists_snoc (fun x => current_schema x = true /\ f x = true /\ id x = Some r)), <-Hs.
  destruct (current_schema e), (f e), (id e) as [r'|]; cbn [andb add_key]; set_solver.
Qed.

Lemma has_type_iff ty e : has_type ty e = true <-> current_schema e = true /\ ev_event_type (te_event e) = ty.
Proof. unfold has_type. by rewrite andb_true_iff, bool_decide_eq_true. Qed.

Lemma tallies_step t l e : tallies t l -> tallies (tally_event t e) (l ++ [e]).
Proof.
  intros H. split.
  - intros r. rewrite tally_requests. apply add_start_spec, H.
  - intros r. rewrite tally_calls. apply add_start_spec, H.
  - intros r. rewrite tally_terminated. apply add_key_spec, H.
  - intros r. rewrite tally_completed. apply add_key_spec, H.
  - rewrite tally_planned, (exists_snoc (fun x => current_schema x = true /\ _)), orb_true_iff, has_type_iff, (ta_planned _ _ H). tauto.
  - rewrite tally_recorded, (exists_snoc (fun x => current_schema x = true /\ _)), orb_true_iff, has_type_iff, (ta_recorded _ _ H). tauto.
  - rewrite tally_schema, exists_snoc, orb_true_iff, (ta_schema _ _ H). tauto.
Qed.

Lemma empty_tallies : tallies empty_tally [].
Proof.
  split; cbn [empty_tally provider_starts tool_starts provider_terminated tool_completed
              verification_planned verification_completed has_schema_v2].
  1, 2: intros r; by rewrite lookup_empty.
  1, 2: intros r; split; [set_solver|intros (e & He & _); by apply elem_of_nil in He].
  all: split; [done|intros (e & He & _); by apply elem_of_nil in He].
Qed.

(** The findings of an event are none exactly when it is in place. *)
Lemma app_nil_iff (a b : list string) : a ++ b = [] <-> a = [] /\ b = [].
Proof. split; [apply app_nil|by intros [-> ->]]. Qed.
Lemma finding_nil (b : bool) (s : string) : (if b then [] else [s]) = [] <-> b = true.
Proof. by destruct b. Qed.

Lemma completion_clean ty id earlier starts a b c e :
  (forall r, starts !! r = latest_start ty id r earlier) ->
  completion_findings starts (id e) a b c e = [] <-> answers ty id earlier e.
Proof.
  intros Hs. unfold completion_findings, answers. destruct (id e) as [r|]; [|naive_solver].
  rewrite Hs. destruct (latest_start ty id r earlier) as [start|] eqn:E.
  - rewrite finding_nil. split; [intros H; by exists r, start|]. intros (r' & s' & [= <-] & Hl & H). congruence.
  - split; [done|]. intros (r' & s' & Hr & Hl & H). congruence.
Qed.

Lemma event_clean task ids t earlier e :
  tallies t earlier ->
  (envelope_findings task e = [] /\ parent_findings ids (length earlier) e = ([], []) /\
   lifecycle_findings t e = []) <-> in_place task ids earlier e.
Proof.
  intros Ht. assert (envelope_findings task e = [] <-> ev_task_id (te_event e) = Some task /\
    cc_task_id (te_context e) = Some task /\ cc_session_id (te_context e) = Some (ev_session_id (te_event e)) /\
    cc_turn_id (te_context e) = ev_turn_id (te_event e) /\ cc_run_id (te_context e) = Some task) as H1.
  { unfold envelope_findings. rewrite app_nil_iff, !finding_nil, !andb_true_iff, !bool_decide_eq_true. tauto. }
  assert (parent_findings ids (length earlier) e = ([], []) <-> match ev_parent_event_id (te_event e) with
    | None => earlier = []
    | Some parent => (parent ∈ ids \/ earlier = []) /\ links_to parent CausalRelation.Parent e = true end) as H2.
  { assert (forall a b : list string, (a, b) = ([], []) <-> a = [] /\ b = []) as Hpair by (intros; naive_solver).
    assert (length earlier = 0%nat <-> earlier = []) as Hl by (split; [apply nil_length_inv|by intros ->]).
    unfold parent_findings. destruct (ev_parent_event_id _) as [parent|]; rewrite Hpair.
    - rewrite app_nil_iff, !finding_nil, orb_true_iff, !bool_decide_eq_true, Hl. tauto.
    - rewrite finding_nil, bool_decide_eq_true, Hl. tauto. }
  assert (lifecycle_findings t e = [] <-> match ev_event_type (te_event e) with
    | RuntimeEventType.ProviderStarted => is_Some (request_of e)
    | RuntimeEventType.ToolStarted => is_Some (call_id_of e)
    | RuntimeEventType.ProviderCompleted | RuntimeEventType.ProviderFailed =>
        answers RuntimeEventType.ProviderStarted request_of earlier e
    | RuntimeEventType.ToolCompleted => answers RuntimeEventType.ToolStarted call_id_of earlier e
    | _ => True end) as H3.
  { unfold lifecycle_findings, request_of, call_id_of.
    assert (forall (o : option N) s, (if o is Some _ then [] else [s : string]) = [] <-> is_Some o) as Hsome
      by (intros [x|] s; split; try done; by intros []).
    destruct (ev_event_type (te_event e)); try done;
      first [apply Hsome | apply (completion_clean RuntimeEventType.ProviderStarted request_of); apply Ht
            | apply (completion_clean RuntimeEventType.ToolStarted call_id_of); apply Ht]. }
  rewrite H1, H2, H3. split; [intros (A & B & C); by split|by intros []].
Qed.

Lemma report_nil a b c d : mkIntegrityReport a b c d = empty_report <-> a = [] /\ b = [] /\ c = [] /\ d = [].
Proof. unfold empty_report. split; [by intros [= -> -> -> ->]|by intros (-> & -> & -> & ->)]. Qed.

Lemma report_clean_app r missing orphan broken mismatched :
  is_clean (mkIntegrityReport (missing_causal_links r ++ missing) (orphan_events r ++ orphan)
    (broken_lifecycle_pairs r ++ broken) (provenance_mismatches r ++ mismatched)) <->
  is_clean r /\ missing = [] /\ orphan = [] /\ broken = [] /\ mismatched = [].
Proof.
  destruct r as [a b c d]. unfold is_clean.
  cbn [missing_causal_links orphan_events broken_lifecycle_pairs provenance_mismatches].
  rewrite !report_nil, !app_nil_iff. tauto.
Qed.

(** Every current event of [l], which comes after [earlier], is in place. *)
Definition all_in_place (task : TaskId) (ids : list EventId) (earlier l : list Traced) : Prop :=
  forall mid e later, l = mid ++ e :: later -> current_schema e = true -> in_place task ids (earlier ++ mid) e.

Lemma all_in_place_cons task ids earlier e l :
  all_in_place task ids earlier (e :: l) <->
  (current_schema e = true -> in_place task ids earlier e) /\ all_in_place task ids (earlier ++ [e]) l.
Proof.
  split.
  - intros H. split.
    + intros Hc. specialize (H [] e l eq_refl Hc). by rewrite app_nil_r in H.
    + intros mid x later -> Hc. specialize (H (e :: mid) x later eq_refl Hc). by rewrite <-app_assoc.
  - intros [H1 H2] mid x later E Hc. destruct mid as [|y mid]; simplify_list_eq.
    + rewrite ?app_nil_r. by apply H1.
    + specialize (H2 mid x later eq_refl Hc). by rewrite <-app_assoc in H2.
Qed.

Lemma check_events_spec task ids earlier l t r :
  tallies t earlier ->
  tallies (check_events task ids (length earlier) l t r).1 (earlier ++ l) /\
  (is_clean (check_events task ids (length earlier) l t r).2 <-> is_clean r /\ all_in_place task ids earlier l).
Proof.
  revert earlier t r. induction l as [|e l IH]; intros earlier t r Ht; cbn [check_events].
  { rewrite app_nil_r. split; [done|]. cbn. split; [|tauto]. intros H. split; [done|].
    intros mid e later E. by destruct mid. }
  assert (length (earlier ++ [e]) = S (length earlier)) as Hlen by (rewrite length_app; cbn; lia).
  assert ((earlier ++ [e]) ++ l = earlier ++ e :: l) as Happ by (by rewrite <-app_assoc).
  pose proof (tallies_step t earlier e Ht) as Ht'. rewrite all_in_place_cons.
  destruct (current_schema e) eqn:Hc; cbn [negb].
  - destruct (parent_findings ids (length earlier) e) as [missing orphan] eqn:Hp.
    destruct (IH (earlier ++ [e]) _ (mkIntegrityReport (missing_causal_links r ++ missing) (orphan_events r ++ orphan)
      (broken_lifecycle_pairs r ++ lifecycle_findings t e) (provenance_mismatches r ++ envelope_findings task e)) Ht') as [H1 H2].
    rewrite Hlen, Happ in H1. rewrite Hlen in H2. split; [done|]. rewrite H2, report_clean_app.
    rewrite <-(event_clean task ids t earlier e Ht), Hp.
    assert (forall a b : list string, (a, b) = ([], []) <-> a = [] /\ b = []) as Hpair by (intros; naive_solver).
    rewrite Hpair. tauto.
  - assert (tally_event t e = t) as Ett by (unfold tally_event; by rewrite Hc). rewrite Ett in Ht'.
    destruct (IH (earlier ++ [e]) t r Ht') as [H1 H2]. rewrite Hlen, Happ in H1. rewrite Hlen in H2.
    split; [done|]. rewrite H2. split; [intros [A B]; split_and!; done|tauto].
Qed.

Lemma unfinished_nil what starts ended :
  unfinished what starts ended = [] <-> forall r, starts !! r <> None -> r ∈ ended.
Proof.
  unfold unfinished. split.
  - intros H%fmap_nil_inv r Hr. destruct (decide (r ∈ ended)) as [|Hn]; [done|]. exfalso.
    destruct (starts !! r) as [s|] eqn:E; [|done].
    assert (r ∈ List.filter (fun r => negb (bool_decide (r ∈ ended))) (map_to_list starts).*1) as Hin.
    { apply elem_of_lfilter. rewrite bool_decide_eq_false_2 by done. split; [|done].
      apply list_elem_of_fmap. exists (r, s). split; [done|]. by apply elem_of_map_to_list. }
    rewrite H in Hin. by apply elem_of_nil in Hin.
  - intros H. destruct (List.filter _ _) as [|r l] eqn:E; [done|]. exfalso.
    assert (r ∈ List.filter (fun r => negb (bool_decide (r ∈ ended))) (map_to_list starts).*1) as Hin
      by (rewrite E; set_solver).
    apply elem_of_lfilter in Hin as [Hin Hn]. apply list_elem_of_fmap in Hin as ([r' s] & -> & Hrs).
    apply elem_of_map_to_list in Hrs. apply negb_true_iff, bool_decide_eq_false in Hn. apply Hn, H. cbn. by rewrite Hrs.
Qed.

Lemma closing_clean task events provenance t :
  tallies t events ->
  closing_findings task events provenance t = ([], []) <->
  ((exists e, e ∈ events /\ current_schema e = true) -> brought_to_end task events provenance).
Proof.
  intros Ht. rewrite <-(ta_schema _ _ Ht). unfold closing_findings. destruct (has_schema_v2 t); [|naive_solver].
  assert (forall a b : list string, (a, b) = ([], []) <-> a = [] /\ b = []) as Hpair by (intros; naive_solver).
  rewrite Hpair, !app_nil_iff, !unfinished_nil.
  assert ((if verification_planned t && negb (verification_completed t)
    then ["verification:planned_without_record"] else []) = [] <->
    (verification_planned t = true -> verification_completed t = true)) as ->
    by (destruct (verification_planned t), (verification_completed t); cbn; intuition congruence).
  rewrite (ta_planned _ _ Ht), (ta_recorded _ _ Ht). setoid_rewrite (ta_requests _ _ Ht). setoid_rewrite (ta_calls _ _ Ht).
  setoid_rewrite (ta_terminated _ _ Ht). setoid_rewrite (ta_completed _ _ Ht).
  match goal with |- (_ /\ ?X = []) <-> _ => assert (X = [] <-> exists p, provenance = Some p /\ pv_run_id p = task /\
    forall e i, e ∈ events -> runtime_identity_of e = Some i -> i = pv_runtime_identity p) as -> end.
  { destruct provenance as [p|]; [|naive_solver]. destruct (N.eqb_spec (pv_run_id p) task) as [Hr|Hr]; cbn [negb];
      [|naive_solver].
    destruct (existsb _ events) eqn:E.
    - apply existsb_elem in E as (e & He & Hi). split; [done|]. intros (p' & [= <-] & _ & H).
      destruct (runtime_identity_of e) as [i|] eqn:Ei; [|done]. cbn in Hi. rewrite (H e i He Ei) in Hi.
      by rewrite bool_decide_eq_true_2 in Hi.
    - split; [|done]. intros _. exists p. split_and!; [done..|]. intros e i He Hi.
      destruct (decide (i = pv_runtime_identity p)) as [|Hne]; [done|]. exfalso.
      apply not_true_iff_false in E. apply E, existsb_elem. exists e. split; [done|]. rewrite Hi. cbn.
      by rewrite bool_decide_eq_false_2. }
  split; [intros ((A & B & C) & D) _; by split|]. intros H. by destruct (H eq_refl).
Qed.

(** C23 (equivalence): the check finds nothing exactly when every current event is in place (its envelope names
    the task, its parent is there and linked, what it ends was started before it and is linked)
    and everything that was started has ended, with the provenance of the run. *)
Theorem clean_trace_iff task events provenance :
  validate_causal_trace task events provenance = empty_report <->
  (forall earlier e later, events = earlier ++ e :: later -> current_schema e = true ->
     in_place task (te_id <$> events) earlier e) /\
  ((exists e, e ∈ events /\ current_schema e = true) -> brought_to_end task events provenance).
Proof.
  destruct (check_events_spec task (te_id <$> events) [] events empty_tally empty_report empty_tallies) as [Ht Hr].
  unfold validate_causal_trace. cbn [length] in Ht, Hr.
  destruct (check_events _ _ _ _ _ _) as [t r]. cbn [fst snd app] in *.
  rewrite <-(closing_clean task events provenance t Ht).
  destruct (closing_findings task events provenance t) as [broken mismatched].
  transitivity (is_clean r /\ broken = [] /\ mismatched = []).
  - unfold is_clean. destruct r as [a b c d].
    cbn [missing_causal_links orphan_events broken_lifecycle_pairs provenance_mismatches].
    rewrite !report_nil, !tidy_nil, !app_nil_iff. tauto.
  - rewrite Hr. unfold all_in_place. cbn [app]. unfold is_clean. split.
    + intros ([_ H] & -> & ->). done.
    + intros [H [= -> ->]]. split_and!; done.
Qed.
End Check.

(** ** A concrete trace *)

Definition traced (ty : RuntimeEventType) (id : N) (parent : option N) (call : option N)
    (links : list CausalLink) : Traced :=
  mkTraced (mkEvent 3 id id 5 (Some 2) (Some 1) parent ty 0 RuntimeEventSource.Runtime JNull None true)
    (mkCausalContext (Some 1) (Some 5) (Some 1) (Some 2) None call) links.
Definition a_call : list Traced :=
  [traced RuntimeEventType.ToolStarted 10 None (Some 7) [];
   traced RuntimeEventType.ToolCompleted 11 (Some 10) (Some 7)
     [mkCausalLink 10 CausalRelation.Parent; mkCausalLink 10 CausalRelation.RespondsTo]].
Definition the_run : option RunProvenance := Some (mkRunProvenance 1 "golutra").

Example call_trace_is_clean : validate_causal_trace show 1 a_call the_run = empty_report.
Proof. vm_compute. reflexivity. Qed.

(** Without the answer, and without a provenance. *)
Example open_call_is_found :
  validate_causal_trace show 1 (take 1 a_call) None
  = mkIntegrityReport [] [] ["tool_call:7:not_completed"] ["run_provenance:missing"].
Proof. vm_compute. reflexivity. Qed.
